(* ===== verification/_CoqProject ===== *)
-Q . S2P
Prelude.v
TaskTypes.v
TaskStore.v
TaskLifecycle.v
TaskSpec.v
NestedWait.v
Workers.v
Flow.v
Orchestrator.v
Supervisor.v
OomGuard.v
Commands.v
OrchestratorRun.v
TaskWorker.v
PipelineTypes.v
Graph.v
NodeKwargs.v
Processor.v
ProcessorLog.v
Frontier.v
ProcessorSpec.v
ProcessorRun.v
KafkaTypes.v
KafkaFlow.v
KafkaSpec.v
KafkaReader.v
KafkaReaderSpec.v
KafkaGateway.v
KafkaGatewaySpec.v
KafkaCommit.v
KafkaRun.v
CacheKeys.v
CacheStore.v
CacheIndex.v
CacheTypes.v
CacheFlow.v
CacheUseCases.v
CacheGeneration.v
CacheRoundtrip.v
CacheActivation.v
CacheClear.v
CacheWriter.v
CacheRun.v
SchedTypes.v
SchedProtocol.v
SchedInv.v
SchedFlow.v
SchedRefine.v
SchedSpec.v
SchedConfig.v
SchedRun.v
SchedPolicy.v
PipelineBuild.v
PipelineValidate.v
PipelineBuildRun.v
ReadLiteral.v
ReadTypes.v
ReadPlan.v
ReadGrouping.v
ReadExec.v
ReadTemporal.v
ReadRun.v
EditStore.v
EditDirty.v
EditPatch.v
EditFlow.v
EditSpec.v
EditApply.v
EditRun.v
ExtTypes.v
TaskBuild.v
ExtStore.v
ExtSpec.v
ExtFiles.v
ExtRuntime.v
ExtLoad.v
ExtManager.v
ExtInstall.v
ExtRun.v
ExtArchive.v
