(* ===== verification/Prelude.v ===== *)
(** * A verification of DVT: tasks, pipelines, caches, schedules, readers, graphs and extensions

    DVT is a visual ETL platform. Users draw a graph of nodes; the gateway turns the graph into a
    _pipeline_ and enqueues a _task_; the orchestrator accepts, stops, supervises and reconciles
    tasks; workers claim tasks and run their pipelines. PostgreSQL holds the authoritative state of
    every task together with a transactional outbox of dispatches, Celery and Valkey carry
    messages, and every process may fail or be interrupted between any two of its steps. Nodes read
    databases and Kafka topics in partitions, intermediate dataframes are cached between runs, and a
    scheduler starts projects by cron with retries. Agents and users edit the stored graph in batches
    of operations, and extensions add nodes and routes to a running installation. This library models
    that core and proves what makes it correct. Paths below are relative to the root of the repository.

    ** The program and the files that model it

    - [Prelude]: shared notation. A Python call returns an [outcome] (a value or an exception); a
      Python [dict] is a [pydict], the list of its items in insertion order.
    - [TaskTypes]: [src/modules/task_execution/domain/] (types, entities, policies): enumerations,
      records and pure policies with the source's names.
    - [TaskStore]: [src/modules/task_execution/infra/repositories/task_execution.py] and the two
      tables it writes. [TaskDB] is the database; each repository method is a function on it, that
      is one committed transaction. The collation of PostgreSQL and the foreign keys of other
      tables are parameters.
    - [TaskLifecycle]: the abstract lifecycle of a task as a step relation, and what holds along every
      sequence of transactions of the repository ([task_step]). [TaskSpec]: the contract of each method,
      and the table under the transactions of other modules too, which delete rows with their project
      or user and the link to a deleted schedule run ([table_step]).
    - [NestedWait]: the reservations a parent task takes while it waits for a nested one
      ([infra/gateways/nested_wait.py] with its two Lua scripts, [flow/use_cases/nested_wait.py]).
    - [Workers]: the orchestrator's in-memory registries ([services/orchestrator/worker_registry.py],
      [worker_state.py], [execution_registry.py]).
    - [Flow]: the use cases ([src/modules/task_execution/flow/use_cases/]) as programs of the monad
      [M] over the [World]. The class [Env] is everything outside: before each database call other
      processes commit arbitrary transactions ([env_others]), each call may fail ([env_fault]), and
      clocks and fresh names are its answers. The trace records messages and process signals.
    - [Orchestrator]: [services/orchestrator/]: scheduler, finalizer, execution supervisor, commands,
      worker events and gRPC servicer. [Supervisor], [OomGuard] and [Commands] hold the theorems
      about reconciliation, the out-of-memory guards and nested tasks; [OrchestratorRun] the
      concrete runs.
    - [TaskWorker]: [services/task_worker/tasks/worker_tasks.py] and [execution_slot.py]: one
      delivered task from the claim to the terminal status.
    - [PipelineTypes], [Graph]: pipelines and [src/pipeline/graph_utils.py]: topological sort and the
      searches for dependencies and dependents. The iteration order of Python sets is the parameter
      [SetOrder].
    - [NodeKwargs]: the arguments of a node ([build_node_kwargs] and the resolution of input values).
      Evaluating expressions and rendering SQL templates are the parameter [InputRuntime].
    - [Processor]: [src/pipeline/processor.py], every method, over the state and exception monad [P];
      the nodes, caches, callbacks and the stop event are the parameter [NodeRuntime], which may
      answer differently at every call. [ProcessorLog] specifies what the methods log, [Frontier]
      proves the planning from the cache, [ProcessorSpec] the run as a whole, [ProcessorRun] holds
      the concrete runs.
    - [PipelineBuild], [PipelineValidate], [PipelineBuildRun]: how a stored graph becomes a pipeline
      ([src/pipeline/graph/builders.py], [targets.py]) and how it is validated
      ([src/pipeline/validation.py]) against the registry of node classes ([NodeRegistry]).
    - [KafkaTypes], [KafkaFlow], [KafkaSpec], [KafkaReader], [KafkaReaderSpec], [KafkaGateway],
      [KafkaGatewaySpec], [KafkaCommit], [KafkaRun]: [src/modules/kafka_consumption/]: planning, reading
      and committing over an abstract gateway, the lazy reader, and the gateway over the client library,
      proved to keep the contract of reading ([KafkaGatewaySpec]) and of committing ([KafkaCommit]).
    - [CacheKeys], [CacheStore], [CacheIndex], [CacheTypes], [CacheFlow], [CacheUseCases]:
      [src/modules/pipeline_cache/]: keys, the in-memory stores, generations of cached dataframes and
      the use cases; [CacheGeneration], [CacheRoundtrip], [CacheActivation],
      [CacheClear] and [CacheWriter] hold the theorems, [CacheRun] the concrete runs.
    - [SchedTypes], [SchedProtocol], [SchedFlow]: [src/managers/project_scheduler.py] with its tables
      and queries. [SchedProtocol] is the protocol of all processes that share the database,
      [SchedInv] its invariants, [SchedRefine] the proof that the manager follows it, [SchedSpec],
      [SchedPolicy] and [SchedConfig] what its methods do, [SchedRun] concrete runs. The deletion of
      projects ([src/crud/project/delete.py]) is a sequence of steps of the protocol.
    - [ReadLiteral], [ReadTypes], [ReadPlan], [ReadGrouping], [ReadExec], [ReadTemporal]:
      [core/db/read_v3/]: how a relation is cut into segments by ranges, hash buckets or a custom grouping, and read segment by
      segment, with the literals each dialect renders ([ReadLiteral]); [ReadRun] the concrete reads.
    - [EditStore], [EditPatch], [EditFlow]: the stored graph of a project and the batches of operations
      on it ([src/crud/graph/], [services/gateway/routes/project/graph/graph_operations.py]), and the
      patches agents send ([services/gateway/routes/internal/ai_mcp/graph/]). [EditDirty], [EditSpec]
      and [EditApply] hold the theorems, [EditRun] the concrete edits.
    - [TaskBuild]: how the stored graph becomes a task ([src/infra/task.py], [get_graph_by] of
      [src/crud/graph/common.py]) and how a successful task clears the marks of what it computed
      ([src/crud/project/update.py]), with concrete runs.
    - [ExtTypes], [ExtStore], [ExtFiles], [ExtRuntime], [ExtManager]: [src/modules/extension_management/]:
      identities and policies, the table of extensions, the files and the deletion queue, the loading
      into a process, and the manager that coordinates them; [ExtArchive] the checks of an uploaded
      archive. [ExtSpec], [ExtLoad] and [ExtInstall] hold the theorems, [ExtRun] the concrete runs.

    The parts meet through these interfaces: the lifecycle relation of [TaskLifecycle] is what the
    clients of the store rely on, and [Flow] carries it through every program ([respects],
    [world_evolves]); [Env], [SetOrder], [InputRuntime] and [NodeRuntime] are type classes whose
    laws are the only assumptions; a [ProcessResult] is all the worker sees of the processor. The
    Kafka use cases are proved against the contract [KafkaLog] of a gateway, which [KafkaGateway]
    discharges from the documented laws of the client library ([SDKLog] for reading, [SDKGroup] for the
    offsets of a group); the cache services against
    [BlobStoreLaws], discharged by [InMemoryBlobStore], with the codecs ([IndexCodec], [CacheCodec])
    and pandas frames ([PyData]) as parameters; the scheduler shares [TaskStore] with the
    orchestrator, and its environment [SchedEnv] may do anything the protocol allows; the readers are
    proved over any database that orders its keys totally ([SqlKeyLaws], [ReadEnvLaws]) and any
    arithmetic on keys that moves forward ([GroupingLaws]), which [ReadTemporal] discharges for dates;
    what a rendered literal denotes is proved ([rendered_literals_are_exact]), and where it is not the
    value itself the theorems say so ([exact_key]).
    Graph editing and task construction share the stored graph of [EditStore], use the validation of
    [PipelineValidate] and the reuse policy of [Frontier], and take the layout, the checks of single
    nodes and fresh ids as [EditEnv] and the owner of a node class as [NodeExtensions]. The extensions
    take names and versions from [Packaging], hashes from [Digest], and what imported code does from
    [ExtEnv]. Every such class has an instance in a [Run] file or next to it.

    ** What the theorems show

    - _Store_ ([TaskLifecycle], [TaskSpec]): along the transactions of the repository a claimed task is
      never claimed again and a task asked to stop never succeeds; each method changes only the rows,
      from and to the statuses and owners, its contract names, and acts where it must; a terminal row
      keeps all its columns until its project or user is deleted, except the link to a deleted schedule
      run; the invariants of reachable rows; enqueueing keeps exactly the freshest waiting root
      execution; a pending dispatch always belongs to a live task.
    - _Policies and reservations_ ([TaskTypes], [NestedWait], [Workers], [Commands]): stop reasons do
      not depend on the order of arrival; waiting parents never occupy all workers; rebalancing and
      releasing remove exactly what they should; a nested enqueue admits the child with a reservation,
      or fails it without one, and leaves one behind only when a call to a store fails; the worker
      registry is well formed and its accounting adds up.
    - _Use cases_ ([Flow]): the outbox is published without losses or spurious messages, a broker
      failure never fails an enqueue, a cooperative stop never kills a process.
    - _Orchestrator_ ([Orchestrator], [Supervisor], [OomGuard]): any sequence of operations keeps the
      invariants; an iteration of the supervisor completes whatever its steps raise; in an undisturbed
      pass over at most 1000 rows the tasks of lost workers and the due cancellations with a known reason
      reach their terminal status; the guards only kill with cause;
      [ControlTask] raises on every complete request (a defect of the code).
    - _Worker_ ([TaskWorker]): the slot is always freed; a worker whose own calls do not fail never
      leaves a claimed task active; an undisturbed run records its outcome.
    - _Pipeline_ ([Graph], [NodeKwargs], [Frontier], [ProcessorSpec]): the sort is a topological sort
      of exactly the needed nodes and fails exactly on missing targets and cycles; the searches
      compute reachability; a node receives the outputs its links name; the plan made from the cache
      is closed under dependencies; nodes run after what they depend on and at most once in a full
      run; a metadata run executes no output node; success means that nothing failed and every node
      was dealt with; exactly one outcome is reported.
    - _Construction and validation_ ([PipelineBuild], [PipelineValidate]): the pipeline built from a
      graph has exactly the inputs its rows determine and the targets a run is given; validation
      accepts exactly the well-typed pipelines, by a typing stated on the members of types, names
      exactly the bad nodes, and a validated link finds its value when the pipeline runs.
    - _Kafka_: a complete read delivers the visible messages of its ranges exactly once and in order,
      up to their ends or up to a limit, in frames decoded from their chunks; chunks stay within their
      budgets and can be replayed; the commits of the owner of a group only move forward; the gateway
      over the client library keeps the contract and its loops end.
    - _Cache_: a generation that was written undisturbed, and is not older than the active one, is
      restored with the same frames until it expires; a restore plan is complete whatever other
      processes do; concurrent activations end and leave the newest execution active, while the active
      key is not removed; clearing and the index concern exactly the keys they name; the in-memory
      store refines a reference store; pages are slices; the writer bounds what is in flight.
    - _Scheduler_: whatever fails or interleaves, the manager only commits transactions of the
      protocol, so a schedule has at most one unfinished run, finished runs never change, attempts
      and tasks are bounded and wait for their delay; an undisturbed reconciliation leaves a run as the
      specification by cases says ([SchedPolicy]), and a run chain is finished after a bounded number of
      them.
    - _Readers_: with keys the dialect renders exactly, a read that succeeds returns every row exactly
      once; a read whose segments fit succeeds, a range read if Python and the database order the keys
      alike; granules contain their dates; the estimate stays within its limits. [ReadRun] also
      evaluates the cases the code does not handle (keys that are all NULL, open ranges, repeated
      booleans, December 9999, sub-second ClickHouse keys).
    - _Graph editing_ ([EditDirty], [EditApply]): a node that a batch does not mark, and does not delete
      and create again, has the inputs and links it had; a patch that is accepted is stored without
      failure as the graph that was validated (a node whose last input is removed keeps its inputs);
      what is stored is connected, between declared ports, and was made on the version the agent had
      read.
    - _Task construction_ ([TaskBuild]): a task gets exactly what its targets depend on; a mark is
      removed only when the stored graph is the one the task was built from and the node was computed.
      A concrete run there shows that a partial run can remove the mark others depend on.
    - _Extensions_: installing replaces files and row or neither, if one call fails, before it changed
      anything, and nothing fails while it is undone ([ExtInstall]);
      after a package is reconciled all its names lead to one row, and schemas are legal identifiers
      ([ExtSpec]); a refresh loads or reports every extension ([ExtLoad]); the standard library unpacks
      an accepted archive inside its directory ([ExtArchive]). [ExtRun] shows an interrupted commit that loses
      the files of both versions.

    ** Bounds and fuel

    The [while] loops of [Graph] carry fuel: [kahn] starts with the number of nodes, [bfs] with the
    number of queue entries a search can ever make ([bfs_fuel]); [require_node] recurses at most once
    per node. Running out is a value of its own ([Diverges]) and is proved not to occur. The chunk,
    retry and poll loops of the Kafka files run on fuel computed from the plan ([chunk_fuel],
    [retry_fuel], [read_fuel]), proved to be enough. [activate_loop] of the cache needs two rounds
    without interference; with [n] concurrent activations [n * (2 + 2 * n)] steps are enough. A run
    chain of the scheduler needs [2 * (max_retries + 1)] reconciliations. The loop over the granules
    of a date column has [granularity_steps] as fuel, an hour for each step at least. The
    selection of what a run needs ([select_upstream]) has two rounds more than there are edges
    ([select_fuel]), proved to be enough. Calls on files consume a script of faults; the theorem on
    installations allows one fault, of a call that fails before it changed anything, and asks that
    undoing meets no second one. All other loops are
    structural. Integers that count (priorities, in-degrees, capacities) are unbounded in
    Python and are [Z] or [nat]; the execution slot's limit of 512 bytes is kept.

    ** What is not modelled

    The stream listeners' reconnection loops and the asyncio scheduling inside one process (a loop is
    a sequence of its iterations); deletions of projects and users in the environment of the
    orchestrator and the worker, whose [env_others] is what the repository commits; expiry and removal of
    the active key during concurrent activations; the rendering of system information, SQL text other
    than literals, and error messages;
    pandas, Dask, APScheduler, SQLAlchemy and the database drivers, which are parameters; the Valkey
    stores of the cache behind the same protocol as the in-memory ones; reflection of database
    columns and query metadata; the database writers and earlier readers; the node library and the
    node DSL; of the extensions the downloads, pip, the tables of Python modules, frontend assets and
    migrations, whose answers are arguments or faults; the automatic layout of a graph; and the
    services around the core (the routes of the gateway, catalogues, the other tools for agents),
    which are input and output around the modules above. *)
From stdpp Require Export base tactics list sorting gmap strings pretty.
From stdpp Require Import options.
From Stdlib Require Export ZArith Lia.

Declare Scope py_scope.
Delimit Scope py_scope with py.
#[global] Open Scope py_scope.
#[export] Set Default Goal Selector "!".
#[export] Set Warnings "-clear-no-such-hyp".

(** ** Exceptions as values *)

(** The outcome of a Python call: a returned value or a raised exception. *)
Inductive outcome (E A : Type) : Type :=
  | Ok (a : A)
  | Raise (e : E).
Arguments Ok {E A} a.
Arguments Raise {E A} e.

#[global] Instance outcome_ret E : MRet (outcome E) := λ A a, Ok a.
#[global] Instance outcome_bind E : MBind (outcome E) := λ A B f m,
  match m with Ok a => f a | Raise e => Raise e end.

Definition is_ok {E A} (m : outcome E A) : bool :=
  match m with Ok _ => true | Raise _ => false end.

(** [bool(x)] of an optional string: [None] and [""] are falsy. *)
Definition str_truthy (s : string) : bool := negb (bool_decide (s = "")).

(** Python's [a or b] on optional strings. *)
Definition or_str (a : option string) (b : string) : string :=
  match a with
  | Some s => if str_truthy s then s else b
  | None => b
  end.

(** ** Python strings *)

Lemma app_assoc_str s t u : (s +:+ t) +:+ u = s +:+ t +:+ u.
Proof. induction s as [|c s IH]; [done|]. exact (f_equal (String c) IH). Qed.

Lemma app_cons_str c s t : String c s +:+ t = String c (s +:+ t).
Proof. reflexivity. Qed.

Lemma app_nil_str s : s +:+ "" = s.
Proof. induction s as [|c s IH]; [done|]. exact (f_equal (String c) IH). Qed.

(** [s.startswith(p)] *)
Definition startswith (p s : string) : bool := String.prefix p s.

(** [sep.join(segments)] *)
Definition py_join (sep : string) (segments : list string) : string := String.concat sep segments.

(** [s.split(sep)]: [skip] counts the characters of a separator still to be passed, [cur] is the
    segment read so far. *)
Fixpoint split_go (sep s : string) (skip : nat) (cur : string) : list string :=
  match s with
  | EmptyString => [cur]
  | String c s' =>
      match skip with
      | S skip' => split_go sep s' skip' cur
      | O => if startswith sep s then cur :: split_go sep s' (String.length sep - 1)%nat ""
             else split_go sep s' 0 (cur +:+ String c "")
      end
  end.

Definition py_split (sep s : string) : list string := split_go sep s 0 "".

(** The code of a character. *)
Definition char_code (c : Ascii.ascii) : Z := Z.of_N (Ascii.N_of_ascii c).

(** [s.lower()] *)
Definition lower_char (c : Ascii.ascii) : Ascii.ascii :=
  if (65 <=? char_code c)%Z && (char_code c <=? 90)%Z then Ascii.ascii_of_N (Ascii.N_of_ascii c + 32)%N else c.

Fixpoint py_lower (s : string) : string :=
  match s with EmptyString => "" | String c s' => String (lower_char c) (py_lower s') end.

(** ** Insertion-ordered dictionaries *)

(** A Python [dict] with string keys, as the list of its items in iteration
    order. Assigning an existing key keeps its position, a new key goes last. *)
Abbreviation pydict A := (list (string * A)).

Fixpoint dget {A} (d : pydict A) (k : string) : option A :=
  match d with
  | [] => None
  | (k', v) :: d' => if decide (k = k') then Some v else dget d' k
  end.

Fixpoint dset {A} (d : pydict A) (k : string) (v : A) : pydict A :=
  match d with
  | [] => [(k, v)]
  | (k', v') :: d' => if decide (k = k') then (k', v) :: d' else (k', v') :: dset d' k v
  end.

Fixpoint dpop {A} (d : pydict A) (k : string) : pydict A :=
  match d with
  | [] => []
  | (k', v') :: d' => if decide (k = k') then d' else (k', v') :: dpop d' k
  end.

Definition dmem {A} (d : pydict A) (k : string) : bool := bool_decide (k ∈ d.*1).

Definition dkeys {A} (d : pydict A) : list string := d.*1.

Definition dvals {A} (d : pydict A) : list A := d.*2.

Definition dget_default {A} (d : pydict A) (k : string) (v : A) : A := default v (dget d k).

(** [d.update(e)] *)
Definition dupdate {A} (d e : pydict A) : pydict A :=
  foldl (λ acc kv, dset acc kv.1 kv.2) d e.

(** A dictionary has no duplicate key. *)
Definition dwf {A} (d : pydict A) : Prop := NoDup (dkeys d).

Section pydict_facts.
Context {A : Type}.
Implicit Types (d e : pydict A) (k : string) (v : A).

Lemma dget_dset_eq d k v : dget (dset d k v) k = Some v.
Proof.
  induction d as [|[k' v'] d IH]; simpl; [by rewrite decide_True|].
  case_decide as E; simpl; [by rewrite decide_True|by rewrite decide_False].
Qed.

Lemma dget_dset_ne d k k' v : k ≠ k' → dget (dset d k v) k' = dget d k'.
Proof.
  intros Hne; induction d as [|[k1 v1] d IH]; simpl; [by rewrite decide_False|].
  destruct (decide (k = k1)) as [->|]; simpl.
  - by rewrite !decide_False by done.
  - by case_decide.
Qed.

Lemma dget_dset d k k' v :
  dget (dset d k v) k' = if decide (k = k') then Some v else dget d k'.
Proof. case_decide; [subst; apply dget_dset_eq|by apply dget_dset_ne]. Qed.

Lemma dkeys_dset d k v :
  dkeys (dset d k v) = if dmem d k then dkeys d else dkeys d ++ [k].
Proof.
  unfold dmem, dkeys. induction d as [|[k' v'] d IH]; [done|]. cbn [dset].
  destruct (decide (k = k')) as [->|Hne]; rewrite !fmap_cons; cbn [fst].
  - rewrite bool_decide_eq_true_2; [done|constructor].
  - rewrite IH. case_bool_decide; case_bool_decide; set_solver.
Qed.

Lemma elem_of_dkeys_dset d k k' v : k' ∈ dkeys (dset d k v) ↔ k' = k ∨ k' ∈ dkeys d.
Proof.
  rewrite dkeys_dset. unfold dmem. case_bool_decide; unfold dkeys in *; set_solver.
Qed.

Lemma dwf_nil : dwf ([] : pydict A).
Proof. constructor. Qed.

Lemma dwf_dset d k v : dwf d → dwf (dset d k v).
Proof.
  unfold dwf. rewrite dkeys_dset. unfold dmem. case_bool_decide; [done|].
  intros; apply NoDup_app; split_and!; [done|set_solver|apply NoDup_singleton].
Qed.

Lemma dget_None d k : dget d k = None ↔ k ∉ dkeys d.
Proof.
  unfold dkeys; induction d as [|[k' v'] d IH]; simpl; [set_solver|].
  case_decide; set_solver.
Qed.

Lemma dget_is_Some d k : is_Some (dget d k) ↔ k ∈ dkeys d.
Proof.
  rewrite <-not_eq_None_Some, dget_None.
  destruct (decide (k ∈ dkeys d)); tauto.
Qed.

Lemma dmem_dget d k : dmem d k = bool_decide (is_Some (dget d k)).
Proof. unfold dmem. apply bool_decide_ext. by rewrite dget_is_Some. Qed.

Lemma dget_elem_of d k v : dget d k = Some v → (k, v) ∈ d.
Proof.
  induction d as [|[k' v'] d IH]; simpl; [done|].
  case_decide; intros; simplify_eq; set_solver.
Qed.

Lemma elem_of_dget d k v : dwf d → (k, v) ∈ d → dget d k = Some v.
Proof.
  unfold dwf, dkeys. induction d as [|[k' v'] d IH]; simpl; [set_solver|].
  intros [Hn Hd]%NoDup_cons [?|Hin]%elem_of_cons; simplify_eq.
  - by rewrite decide_True.
  - rewrite decide_False; [by auto|].
    intros ->; apply Hn. apply list_elem_of_fmap. by exists (k', v).
Qed.

Lemma dget_dpop_ne d k k' : k ≠ k' → dget (dpop d k) k' = dget d k'.
Proof.
  intros Hne; induction d as [|[k1 v1] d IH]; simpl; [done|].
  destruct (decide (k = k1)) as [->|]; simpl; [by rewrite decide_False by done|by case_decide].
Qed.

Lemma dget_dpop_eq d k : dwf d → dget (dpop d k) k = None.
Proof.
  unfold dwf, dkeys. induction d as [|[k1 v1] d IH]; simpl; [done|]. intros [Hn Hd]%NoDup_cons.
  destruct (decide (k = k1)) as [->|]; [by apply dget_None|]. simpl. rewrite decide_False by done. auto.
Qed.

Lemma dkeys_dupdate d e k : k ∈ dkeys (dupdate d e) ↔ k ∈ dkeys d ∨ k ∈ dkeys e.
Proof.
  unfold dupdate. revert d; induction e as [|[k' v'] e IH]; intros d; simpl.
  - unfold dkeys; set_solver.
  - rewrite IH, elem_of_dkeys_dset. unfold dkeys. simpl. set_solver.
Qed.

Lemma dwf_dupdate d e : dwf d → dwf (dupdate d e).
Proof.
  unfold dupdate; revert d; induction e as [|[k' v'] e IH]; simpl; auto using dwf_dset.
Qed.

(** Later items of [e] win, and an absent key is looked up in [d]. *)
Lemma dget_dupdate d e k :
  dwf e → dget (dupdate d e) k = match dget e k with Some v => Some v | None => dget d k end.
Proof.
  unfold dupdate, dwf, dkeys. revert d; induction e as [|[k' v'] e IH]; simpl; [done|].
  intros d [Hn Hd]%NoDup_cons. rewrite IH by done. rewrite dget_dset.
  destruct (decide (k = k')) as [->|].
  - rewrite decide_True by done. by apply dget_None in Hn as ->.
  - by rewrite decide_False by done.
Qed.
End pydict_facts.

(** ** Strings in code-point order *)

Fixpoint str_leb (s t : string) : bool :=
  match s, t with
  | EmptyString, _ => true
  | _, EmptyString => false
  | String a s', String b t' =>
      let x := Ascii.N_of_ascii a in
      let y := Ascii.N_of_ascii b in
      if (x <? y)%N then true else if (x =? y)%N then str_leb s' t' else false
  end.

Definition str_le (s t : string) : Prop := str_leb s t = true.

#[global] Instance str_le_dec : RelDecision str_le.
Proof. intros s t; unfold str_le; apply _. Defined.

Lemma N_of_ascii_inj a b : Ascii.N_of_ascii a = Ascii.N_of_ascii b → a = b.
Proof. intros H. by rewrite <-(Ascii.ascii_N_embedding a), H, Ascii.ascii_N_embedding. Qed.

Ltac str_cases :=
  repeat match goal with
  | H : context [(?x <? ?y)%N] |- _ => destruct (N.ltb_spec x y)
  | |- context [(?x <? ?y)%N] => destruct (N.ltb_spec x y)
  | H : context [(?x =? ?y)%N] |- _ => destruct (N.eqb_spec x y)
  | |- context [(?x =? ?y)%N] => destruct (N.eqb_spec x y)
  end.

#[global] Instance str_le_total : Total str_le.
Proof.
  intros s; induction s as [|a s IH]; intros [|b t]; unfold str_le in *; simpl; auto.
  str_cases; try lia; auto.
Qed.

#[global] Instance str_le_po : PartialOrder str_le.
Proof.
  split; [split|].
  - intros s; by destruct (str_le_total s s).
  - intros s; induction s as [|a s IH]; intros [|b t] [|c u]; unfold str_le in *; simpl; try done.
    str_cases; try lia; try done. eauto.
  - intros s; induction s as [|a s IH]; intros [|b t]; unfold str_le in *; simpl; try done.
    str_cases; try lia; try done.
    intros; f_equal; eauto using N_of_ascii_inj.
Qed.

(** The characters [str.strip] removes, as far as one byte goes. *)
Definition py_isspace (c : Ascii.ascii) : bool :=
  let n := Ascii.N_of_ascii c in
  ((9 <=? n) && (n <=? 13) || (28 <=? n) && (n <=? 32))%N.

(** [bool(s.strip())] *)
Fixpoint strip_truthy (s : string) : bool :=
  match s with
  | EmptyString => false
  | String c s' => negb (py_isspace c) || strip_truthy s'
  end.

(** [s.strip()] *)
Fixpoint py_lstrip (s : string) : string :=
  match s with
  | EmptyString => EmptyString
  | String c s' => if py_isspace c then py_lstrip s' else s
  end.

Definition py_strip (s : string) : string :=
  String.rev (py_lstrip (String.rev (py_lstrip s))).

(** The collation by which PostgreSQL orders text: some total order. *)
Class Collation := {
  coll_le : relation string;
  coll_le_dec :: RelDecision coll_le;
  coll_le_po :: PartialOrder coll_le;
  coll_le_total :: Total coll_le;
}.

(** The ["C"] collation, used by the concrete runs. *)
Definition C_collation : Collation := {| coll_le := str_le |}.

(** ** Lexicographic sorting keys *)

Definition lex_le {A B} (R : relation A) (S : relation B) (p q : A * B) : Prop :=
  (R p.1 q.1 ∧ p.1 ≠ q.1) ∨ (p.1 = q.1 ∧ S p.2 q.2).

Section lex_order.
Context {A B : Type} (R : relation A) (S : relation B).

#[global] Instance lex_le_dec `{!EqDecision A, !RelDecision R, !RelDecision S} :
  RelDecision (lex_le R S).
Proof. intros p q; unfold lex_le; apply _. Defined.

#[global] Instance lex_le_total `{!EqDecision A, !Total R, !Total S} : Total (lex_le R S).
Proof.
  intros [x a] [y b]; unfold lex_le; simpl. destruct (decide (x = y)) as [->|Hne].
  - destruct (total S a b); tauto.
  - destruct (total R x y); [left|right]; left; auto.
Qed.

#[global] Instance lex_le_po `{!EqDecision A, !PartialOrder R, !PartialOrder S} :
  PartialOrder (lex_le R S).
Proof.
  split; [split|].
  - intros [x a]; right; split; reflexivity.
  - intros [x a] [y b] [z c] [[H1 N1]|[E1 H1]] [[H2 N2]|[E2 H2]]; unfold lex_le; simpl in *; subst.
    + left. split; [by etrans|]. intros ->. by apply N1, (anti_symm R).
    + by left.
    + by left.
    + right. split; [done|by etrans].
  - intros [x a] [y b] [[H1 N1]|[E1 H1]] [[H2 N2]|[E2 H2]]; simpl in *; subst; try done.
    + by destruct N1; apply (anti_symm R).
    + f_equal. by apply (anti_symm S).
Qed.
End lex_order.

(** ** List helpers *)

(** The elements of a list are pairwise distinct after [filter]. *)
Lemma merge_sort_elem {A} (R : relation A) `{!RelDecision R} (l : list A) x :
  x ∈ merge_sort R l ↔ x ∈ l.
Proof. by rewrite merge_sort_Permutation. Qed.

(** The head of a sorted list is below every other element. *)
Lemma merge_sort_head {A} (R : relation A) `{!RelDecision R, !Transitive R, !Total R} l x l' y :
  merge_sort R l = x :: l' → y ∈ l' → R x y.
Proof.
  intros E Hy. pose proof (StronglySorted_merge_sort R l) as HS. rewrite E in HS.
  apply StronglySorted_inv in HS as [_ HF]. rewrite Forall_forall in HF. by apply HF.
Qed.

(** A sublist as long as the whole is the whole. *)
Lemma sublist_full {A} (l k : list A) : l `sublist_of` k → length k ≤ length l → l = k.
Proof.
  intros H. induction H as [|x l k Hs IH|x l k Hs IH]; simpl; [done| |].
  - intros. f_equal. apply IH. lia.
  - apply sublist_length in Hs. lia.
Qed.

Lemma list_filter_ext_in {A} (P Q : A → Prop) `{HP1 : !∀ x, Decision (P x), HQ1 : !∀ x, Decision (Q x)}
    (l : list A) :
  (∀ x, x ∈ l → P x ↔ Q x) → filter P l = filter Q l.
Proof.
  induction l as [|x l IH]; intros Hl; [done|]. rewrite !filter_cons.
  assert (P x ↔ Q x) as Hx by (apply Hl; left). rewrite IH by (intros y Hy; apply Hl; by right).
  repeat case_decide; tauto || done.
Qed.

Lemma list_filter_all {A} (P : A → Prop) `{HP1 : !∀ x, Decision (P x)} (l : list A) :
  (∀ x, x ∈ l → P x) → filter P l = l.
Proof.
  intros Hl. induction l as [|x l IH]; [done|]. rewrite filter_cons, decide_True by (apply Hl; left).
  rewrite IH; [done|]. intros y Hy. apply Hl. by right.
Qed.

Lemma list_filter_none {A} (P : A → Prop) `{HP1 : !∀ x, Decision (P x)} (l : list A) :
  (∀ x, x ∈ l → ¬ P x) → filter P l = [].
Proof.
  induction l as [|x l IH]; intros Hn; [done|]. rewrite filter_cons, decide_False by (apply Hn; left).
  apply IH. intros y Hy. apply Hn. by right.
Qed.

Lemma StronglySorted_filter {A} (R : relation A) (P : A → Prop) `{HP1 : !∀ x, Decision (P x)} l :
  StronglySorted R l → StronglySorted R (filter P l).
Proof.
  induction 1 as [|x l Hs IH Hx]; [constructor|]. rewrite filter_cons. case_decide; [|done].
  constructor; [done|]. apply Forall_forall. intros y [_ Hy]%list_elem_of_filter.
  rewrite Forall_forall in Hx. auto.
Qed.

Create HintDb dvt.
#[export] Hint Resolve dwf_dset dwf_nil dwf_dupdate : dvt.

(** Proves a closed decidable proposition by evaluating its decision. *)
Ltac by_decide := refine (bool_decide_unpack _ _); vm_compute; exact I.
