(* ===== verification/TaskTypes.v ===== *)
(** * Task execution: domain types, entities and policies

    Models [src/modules/task_execution/domain]: the status, source and
    termination-reason enumerations ([types.py]), the entities ([entities.py]) and
    the pure policies ([policies.py]).

    A termination reason travels as a Python [str] ([TaskTerminationReason] is a
    [StrEnum], and unknown historical values stay plain strings), so it is a
    [string] here; [reason_value] and [TaskTerminationReason_of] relate it to the
    enumeration. *)
From S2P Require Import Prelude.

(** ** Enumerations ([types.py]) *)

Inductive TaskExecutionStatus :=
  | PENDING | QUEUED | ASSIGNED | STARTED | RUNNING
  | SUCCESS | ERROR | CANCELLED | CANCEL_REQUESTED.

#[global] Instance TaskExecutionStatus_eq_dec : EqDecision TaskExecutionStatus.
Proof. solve_decision. Defined.

Inductive TaskSource := UI | API | SCHEDULER | NODE | MCP.

#[global] Instance TaskSource_eq_dec : EqDecision TaskSource.
Proof. solve_decision. Defined.

Inductive TaskTerminationReason :=
  | USER_STOP | USER_HARD_STOP | OOM_GUARD | WORKER_LOST
  | NESTED_WAIT_CAPACITY_LOST | SUPERSEDED_BY_NEWER_EXECUTION.

#[global] Instance TaskTerminationReason_eq_dec : EqDecision TaskTerminationReason.
Proof. solve_decision. Defined.

Inductive PipelineExecutionMode := FULL | METADATA_ONLY.

#[global] Instance PipelineExecutionMode_eq_dec : EqDecision PipelineExecutionMode.
Proof. solve_decision. Defined.

(** What a run of the pipeline returns to the worker ([ProcessResult], [src/pipeline/processor.py]). *)
Record ProcessResult := mkProcessResult {
  pr_success : bool;
  pr_error_message : option string;
}.

(** The string value of a [StrEnum] member. *)
Definition reason_value (r : TaskTerminationReason) : string :=
  match r with
  | USER_STOP => "USER_STOP"
  | USER_HARD_STOP => "USER_HARD_STOP"
  | OOM_GUARD => "OOM_GUARD"
  | WORKER_LOST => "WORKER_LOST"
  | NESTED_WAIT_CAPACITY_LOST => "NESTED_WAIT_CAPACITY_LOST"
  | SUPERSEDED_BY_NEWER_EXECUTION => "SUPERSEDED_BY_NEWER_EXECUTION"
  end.

Definition all_reasons : list TaskTerminationReason :=
  [USER_STOP; USER_HARD_STOP; OOM_GUARD; WORKER_LOST; NESTED_WAIT_CAPACITY_LOST;
   SUPERSEDED_BY_NEWER_EXECUTION].

(** [TaskTerminationReason(value)]; [None] is the [ValueError]. *)
Definition TaskTerminationReason_of (s : string) : option TaskTerminationReason :=
  list_find (λ r, reason_value r = s) all_reasons ≫= λ ir, Some ir.2.

#[global] Coercion reason_value : TaskTerminationReason >-> string.

Definition ROOT_EXECUTION_SOURCES : list TaskSource := [UI; API; SCHEDULER; MCP].
Definition TERMINAL_STATUSES : list TaskExecutionStatus := [SUCCESS; ERROR; CANCELLED].
Definition SUPERSEDABLE_STATUSES : list TaskExecutionStatus := [PENDING; QUEUED].
Definition CLAIMABLE_STATUSES : list TaskExecutionStatus := [QUEUED; ASSIGNED].
Definition WORKER_OWNED_ACTIVE_STATUSES : list TaskExecutionStatus := [STARTED; RUNNING].
Definition RECONCILIATION_TERMINATION_REASONS : list string :=
  [reason_value USER_STOP; reason_value USER_HARD_STOP; reason_value OOM_GUARD;
   reason_value WORKER_LOST; reason_value NESTED_WAIT_CAPACITY_LOST].

(** ** Entities ([entities.py]); times are microseconds since the epoch. *)

Record TaskExecution := mkTaskExecution {
  te_task_id : string;
  te_user_id : string;
  te_organization_id : string;
  te_project_id : string;
  te_mode : PipelineExecutionMode;
  te_source : TaskSource;
  te_status : TaskExecutionStatus;
  te_force_exec : bool;
  te_queued_at : Z;
  te_schedule_run_id : option string;
  te_schedule_attempt : option Z;
  te_assigned_worker_id : option string;
  te_termination_reason : option string;
  te_message : option string;
  te_updated_at : option Z;
}.

Record NestedWaitReservation := mkReservation {
  nw_parent_task_id : string;
  nw_child_task_id : string;
  nw_origin_worker_id : string;
  nw_created_at : string;   (* the ISO-8601 UTC rendering that is stored *)
}.

#[global] Instance NestedWaitReservation_eq_dec : EqDecision NestedWaitReservation.
Proof. solve_decision. Defined.

Record NestedWaitDecision := mkDecision {
  nd_accepted : bool;
  nd_error : option string;
}.

(** ** Policies ([policies.py]) *)

Definition can_supersede (source : TaskSource) (status : TaskExecutionStatus) : bool :=
  bool_decide (source ∈ ROOT_EXECUTION_SOURCES) && bool_decide (status ∈ SUPERSEDABLE_STATUSES).

Definition can_claim (status : TaskExecutionStatus) : bool :=
  bool_decide (status ∈ CLAIMABLE_STATUSES).

Definition termination_reason_priority (r : TaskTerminationReason) : Z :=
  match r with
  | SUPERSEDED_BY_NEWER_EXECUTION => 10
  | WORKER_LOST => 50
  | USER_STOP => 100
  | USER_HARD_STOP => 200
  | NESTED_WAIT_CAPACITY_LOST => 300
  | OOM_GUARD => 400
  end.

(** [_TERMINATION_REASON_PRIORITY.get(reason)] *)
Definition TERMINATION_REASON_PRIORITY_get (reason : string) : option Z :=
  termination_reason_priority <$> TaskTerminationReason_of reason.

Definition FAILURE_TERMINATION_REASONS : list string :=
  [reason_value OOM_GUARD; reason_value WORKER_LOST; reason_value NESTED_WAIT_CAPACITY_LOST].

Definition normalize_termination_request (reason : string) (hard : bool) : string :=
  if hard && bool_decide (reason = reason_value USER_STOP)
  then reason_value USER_HARD_STOP
  else reason.

Definition choose_termination_reason
    (current : option string) (requested : string) (hard : bool) : string :=
  let requested := normalize_termination_request requested hard in
  match current with
  | None => requested
  | Some current =>
      if bool_decide (current = requested) then requested
      else
        match TERMINATION_REASON_PRIORITY_get requested with
        | None => current
        | Some requested_priority =>
            match TERMINATION_REASON_PRIORITY_get current with
            | None => requested
            | Some current_priority =>
                if (current_priority <? requested_priority)%Z then requested else current
            end
        end
  end.

Definition terminal_status_for_termination_reason (reason : option string) : TaskExecutionStatus :=
  match reason with
  | Some r => if bool_decide (r ∈ FAILURE_TERMINATION_REASONS) then ERROR else CANCELLED
  | None => CANCELLED
  end.

Definition decide_nested_wait_reservation
    (origin_worker_id : string) (alive_worker_ids reserved_origin_worker_ids : list string)
    : NestedWaitDecision :=
  let alive : gset string := list_to_set alive_worker_ids in
  if negb (bool_decide (origin_worker_id ∈ alive)) then
    mkDecision false (Some ("Nested wait origin worker " +:+ origin_worker_id +:+ " is not alive."))
  else
    let other_alive := alive ∖ {[ origin_worker_id ]} in
    if bool_decide (other_alive = ∅) then
      mkDecision false
        (Some ("Nested wait is not allowed: no alive workers are available besides origin worker "
               +:+ origin_worker_id +:+ "."))
    else
      let active_waiters := (list_to_set reserved_origin_worker_ids) ∩ alive in
      let prospective_waiters := active_waiters ∪ {[ origin_worker_id ]} in
      if bool_decide (size alive ≤ size prospective_waiters) then
        mkDecision false
          (Some ("Nested wait rejected to prevent distributed deadlock: "
                 +:+ pretty (size prospective_waiters)
                 +:+ " parent waits would occupy all "
                 +:+ pretty (size alive) +:+ " alive worker slots."))
      else mkDecision true None.

(** ** Facts *)

Definition terminal (s : TaskExecutionStatus) : bool := bool_decide (s ∈ TERMINAL_STATUSES).

Lemma TaskTerminationReason_of_value r : TaskTerminationReason_of (reason_value r) = Some r.
Proof. by destruct r. Qed.

Lemma TaskTerminationReason_of_Some s r :
  TaskTerminationReason_of s = Some r → reason_value r = s.
Proof.
  unfold TaskTerminationReason_of.
  destruct (list_find _ _) as [[i r']|] eqn:E; [|done]; intros [= ->].
  by apply list_find_Some in E as (_ & ? & _).
Qed.

Lemma reason_value_inj r1 r2 : reason_value r1 = reason_value r2 → r1 = r2.
Proof.
  intros H. pose proof (TaskTerminationReason_of_value r1) as H1.
  rewrite H, TaskTerminationReason_of_value in H1. congruence.
Qed.

Lemma priority_inj r1 r2 :
  termination_reason_priority r1 = termination_reason_priority r2 → r1 = r2.
Proof. by destruct r1, r2. Qed.

(** A stop request as it arrives: a member of the enumeration and the [hard] flag. *)
Definition effective_request (q : TaskTerminationReason * bool) : TaskTerminationReason :=
  match q with
  | (USER_STOP, true) => USER_HARD_STOP
  | (r, _) => r
  end.

Lemma normalize_known r hard :
  normalize_termination_request (reason_value r) hard
  = reason_value (effective_request (r, hard)).
Proof. by destruct r, hard. Qed.

(** The stronger of two known reasons. *)
Definition reason_join (a b : TaskTerminationReason) : TaskTerminationReason :=
  if (termination_reason_priority a <? termination_reason_priority b)%Z then b else a.

Lemma reason_join_comm a b : reason_join a b = reason_join b a.
Proof. by destruct a, b. Qed.

Lemma reason_join_assoc a b c : reason_join a (reason_join b c) = reason_join (reason_join a b) c.
Proof. by destruct a, b, c. Qed.

Lemma choose_known_some a r hard :
  choose_termination_reason (Some (reason_value a)) (reason_value r) hard
  = reason_value (reason_join a (effective_request (r, hard))).
Proof.
  unfold choose_termination_reason. rewrite normalize_known.
  generalize (effective_request (r, hard)) as b; intros b.
  unfold TERMINATION_REASON_PRIORITY_get, reason_join.
  rewrite !TaskTerminationReason_of_value; simpl.
  case_bool_decide as E; [apply reason_value_inj in E as ->|by case_match].
  by rewrite Z.ltb_irrefl.
Qed.

Lemma choose_known_none r hard :
  choose_termination_reason None (reason_value r) hard
  = reason_value (effective_request (r, hard)).
Proof. unfold choose_termination_reason. apply normalize_known. Qed.

(** ** Properties of the policies *)

(** The reason stored after a sequence of stop requests, from the stored one. *)
Definition apply_stop_requests (current : option string) (qs : list (TaskTerminationReason * bool))
    : option string :=
  foldl (λ cur q, Some (choose_termination_reason cur (reason_value q.1) q.2)) current qs.

Lemma foldl_permutation {A B} (f : A → B → A) (P : A → Prop) :
  (∀ a b, P a → P (f a b)) →
  (∀ a b c, P a → f (f a b) c = f (f a c) b) →
  ∀ l1 l2 a, l1 ≡ₚ l2 → P a → foldl f a l1 = foldl f a l2.
Proof.
  intros HP Hcomm l1 l2 a Hperm; revert a.
  induction Hperm as [|x l1 l2 _ IH|x y l|l1 l2 l3 _ IH1 _ IH2]; simpl; intros a Ha; auto.
  - by rewrite Hcomm.
  - by rewrite IH1, IH2.
Qed.

Definition known_reason (cur : option string) : Prop :=
  cur = None ∨ ∃ r, cur = Some (reason_value r).

Lemma choose_known_closed cur q :
  known_reason cur → known_reason (Some (choose_termination_reason cur (reason_value q.1) q.2)).
Proof.
  destruct q as [r hard]; intros [->|[a ->]]; right; cbn [fst snd].
  - rewrite choose_known_none; eauto.
  - rewrite choose_known_some; eauto.
Qed.

Lemma choose_known_comm cur q1 q2 :
  known_reason cur →
  choose_termination_reason
    (Some (choose_termination_reason cur (reason_value q1.1) q1.2)) (reason_value q2.1) q2.2
  = choose_termination_reason
      (Some (choose_termination_reason cur (reason_value q2.1) q2.2)) (reason_value q1.1) q1.2.
Proof.
  destruct q1 as [r1 h1], q2 as [r2 h2]; intros [->|[a ->]]; cbn [fst snd].
  - by rewrite !choose_known_none, !choose_known_some, reason_join_comm.
  - by rewrite !choose_known_some, <-!reason_join_assoc, (reason_join_comm (effective_request (r1, h1))).
Qed.

(** Concurrent termination requests are resolved deterministically: whatever the
    order in which stop requests with known reasons reach a task that has no reason or a
    known one, the stored reason is the same. *)
Theorem choose_termination_reason_order_independent cur qs qs' :
  known_reason cur → qs ≡ₚ qs' → apply_stop_requests cur qs = apply_stop_requests cur qs'.
Proof.
  intros Hcur Hperm. unfold apply_stop_requests.
  apply (foldl_permutation _ known_reason); auto using choose_known_closed.
  intros a b c Ha. by rewrite (choose_known_comm a b c).
Qed.

Lemma choose_termination_reason_order_independent_witness :
  apply_stop_requests None [(USER_STOP, false); (OOM_GUARD, false); (USER_STOP, true)]
  = apply_stop_requests None [(USER_STOP, true); (USER_STOP, false); (OOM_GUARD, false)].
Proof.
  apply choose_termination_reason_order_independent; [by left|].
  apply (Permutation_app_comm [(USER_STOP, false); (OOM_GUARD, false)] [(USER_STOP, true)]).
Defined.

Lemma decide_nested_wait_accepted origin alive reserved :
  nd_accepted (decide_nested_wait_reservation origin alive reserved) = true →
  origin ∈ alive ∧
  (size ((list_to_set reserved ∩ list_to_set alive) ∪ {[origin]} : gset string)
   < size (list_to_set alive : gset string))%nat.
Proof.
  unfold decide_nested_wait_reservation.
  case_bool_decide as Ho; simpl; [|done]. case_bool_decide; simpl; [done|].
  case_bool_decide; simpl; [done|]. intros _. split; [set_solver|lia].
Qed.

(** A set strictly larger than another has an element outside it. *)
Lemma size_lt_exists (X Y : gset string) : (size X < size Y)%nat → ∃ w, w ∈ Y ∧ w ∉ X.
Proof.
  intros Hlt. destruct (set_choose_or_empty (Y ∖ X)) as [[w Hw]|He].
  - exists w. set_solver.
  - assert (size Y ≤ size X)%nat; [|lia]. apply subseteq_size. set_solver.
Qed.

(** A nested wait is admitted only while some alive worker is neither the origin of
    the new wait nor the origin of a reservation already held, so a slot remains for the
    child execution. *)
Theorem decide_nested_wait_leaves_free_worker origin alive reserved :
  nd_accepted (decide_nested_wait_reservation origin alive reserved) = true →
  ∃ w, w ∈ alive ∧ w ≠ origin ∧ w ∉ reserved.
Proof.
  intros [Ho Hlt]%decide_nested_wait_accepted.
  apply size_lt_exists in Hlt as (w & Hw & Hn). exists w. set_solver.
Qed.

Lemma decide_nested_wait_leaves_free_worker_witness :
  ∃ w, w ∈ ["w1"; "w2"; "w3"] ∧ w ≠ "w1" ∧ w ∉ ["w2"; "w9"].
Proof. apply decide_nested_wait_leaves_free_worker. vm_compute. reflexivity. Defined.
