(* ===== verification/TaskStore.v ===== *)
(** * Task execution: the SQL repository

    Models [SQLTaskExecutionRepository]
    ([src/modules/task_execution/infra/repositories/task_execution.py]) over the rows
    of [db_models/task.py] and [db_models/dispatch_outbox.py]. Every method is one
    transaction: a function from the database to its result and the database after the
    commit. Methods that can violate a table constraint return [Raise IntegrityError],
    and the caller keeps the database it had (rollback).

    The clock of a call is the argument [now]; the generated primary key of an outbox row
    is the argument [row_id]; the text order of [ORDER BY task_id] is the [Collation]. *)
From S2P Require Import Prelude TaskTypes.

(** ** Rows *)

Record TaskRecord := mkTaskRecord {
  tr_task_id : string;
  tr_mode : PipelineExecutionMode;
  tr_force_exec : bool;
  tr_status : TaskExecutionStatus;
  tr_termination_reason : option string;
  tr_source : TaskSource;
  tr_message : option string;
  tr_assigned_worker_id : option string;
  tr_queued_at : Z;
  tr_started_at : option Z;
  tr_finished_at : option Z;
  tr_updated_at : Z;
  tr_user_id : string;
  tr_organization_id : string;
  tr_project_id : string;
  tr_schedule_run_id : option string;
  tr_schedule_attempt : option Z;
}.

Record TaskDispatchOutboxRecord := mkOutbox {
  ob_id : string;
  ob_task_id : string;
  ob_payload : string;
  ob_status : string;
  ob_created_at : Z;
  ob_published_at : option Z;
  ob_attempts : Z;
  ob_last_error : option string;
}.

Record DispatchOutboxItem := mkDispatch {
  di_dispatch_id : string;
  di_task_id : string;
  di_payload : string;
  di_created_at : Z;
  di_published_at : option Z;
  di_attempts : Z;
}.

Record EnqueueTaskResult := mkEnqueueResult {
  er_execution : TaskExecution;
  er_superseded : list TaskExecution;
}.

(** The two tables: [tasks] by primary key, the outbox in physical order. *)
Record TaskDB := mkTaskDB {
  tasks : gmap string TaskRecord;
  outbox : list TaskDispatchOutboxRecord;
}.

Inductive task_error :=
  | IntegrityError
  | ValueError (msg : string)
  | InvalidReconciliationTerminationReason (msg : string)
  | InvalidPendingExecutionFailureReason (msg : string).

(** ** Column assignments *)

Definition set_status (s : TaskExecutionStatus) (r : TaskRecord) : TaskRecord :=
  let '(mkTaskRecord a b c _ e f g h i j k l m n o p q) := r in
  mkTaskRecord a b c s e f g h i j k l m n o p q.

Definition set_termination_reason (x : option string) (r : TaskRecord) : TaskRecord :=
  let '(mkTaskRecord a b c d _ f g h i j k l m n o p q) := r in
  mkTaskRecord a b c d x f g h i j k l m n o p q.

Definition set_message (x : option string) (r : TaskRecord) : TaskRecord :=
  let '(mkTaskRecord a b c d e f _ h i j k l m n o p q) := r in
  mkTaskRecord a b c d e f x h i j k l m n o p q.

Definition set_assigned_worker_id (x : option string) (r : TaskRecord) : TaskRecord :=
  let '(mkTaskRecord a b c d e f g _ i j k l m n o p q) := r in
  mkTaskRecord a b c d e f g x i j k l m n o p q.

Definition set_started_at (x : option Z) (r : TaskRecord) : TaskRecord :=
  let '(mkTaskRecord a b c d e f g h i _ k l m n o p q) := r in
  mkTaskRecord a b c d e f g h i x k l m n o p q.

Definition set_finished_at (x : option Z) (r : TaskRecord) : TaskRecord :=
  let '(mkTaskRecord a b c d e f g h i j _ l m n o p q) := r in
  mkTaskRecord a b c d e f g h i j x l m n o p q.

Definition set_updated_at (x : Z) (r : TaskRecord) : TaskRecord :=
  let '(mkTaskRecord a b c d e f g h i j k _ m n o p q) := r in
  mkTaskRecord a b c d e f g h i j k x m n o p q.

Definition set_ob_status (s : string) (o : TaskDispatchOutboxRecord) : TaskDispatchOutboxRecord :=
  mkOutbox (ob_id o) (ob_task_id o) (ob_payload o) s (ob_created_at o) (ob_published_at o)
           (ob_attempts o) (ob_last_error o).

(** ** Mappers *)

(** [_to_entity]: the stored reason stays a string, as [TaskTerminationReason] is one. *)
Definition to_entity (task : TaskRecord) : TaskExecution := {|
  te_task_id := tr_task_id task;
  te_user_id := tr_user_id task;
  te_organization_id := tr_organization_id task;
  te_project_id := tr_project_id task;
  te_mode := tr_mode task;
  te_source := tr_source task;
  te_status := tr_status task;
  te_force_exec := tr_force_exec task;
  te_queued_at := tr_queued_at task;
  te_schedule_run_id := tr_schedule_run_id task;
  te_schedule_attempt := tr_schedule_attempt task;
  te_assigned_worker_id := tr_assigned_worker_id task;
  te_termination_reason := tr_termination_reason task;
  te_message := tr_message task;
  te_updated_at := Some (tr_updated_at task);
|}.

Definition to_dispatch (o : TaskDispatchOutboxRecord) : DispatchOutboxItem := {|
  di_dispatch_id := ob_id o;
  di_task_id := ob_task_id o;
  di_payload := ob_payload o;
  di_created_at := ob_created_at o;
  di_published_at := ob_published_at o;
  di_attempts := ob_attempts o;
|}.

(** The row a new execution is stored as, with the given initial status. *)
Definition new_task_record (e : TaskExecution) (status : TaskExecutionStatus) (now : Z)
    : TaskRecord := {|
  tr_task_id := te_task_id e;
  tr_mode := te_mode e;
  tr_force_exec := te_force_exec e;
  tr_status := status;
  tr_termination_reason := None;
  tr_source := te_source e;
  tr_message := None;
  tr_assigned_worker_id := None;
  tr_queued_at := te_queued_at e;
  tr_started_at := None;
  tr_finished_at := None;
  tr_updated_at := now;
  tr_user_id := te_user_id e;
  tr_organization_id := te_organization_id e;
  tr_project_id := te_project_id e;
  tr_schedule_run_id := te_schedule_run_id e;
  tr_schedule_attempt := te_schedule_attempt e;
|}.

Definition new_outbox_record (row_id task_id payload : string) (now : Z)
    : TaskDispatchOutboxRecord :=
  mkOutbox row_id task_id payload "PENDING" now None 0 None.

(** ** Table constraints *)

(** [uq_tasks_schedule_run_attempt]: rows with a NULL column never collide. *)
Definition same_schedule_attempt (r1 r2 : TaskRecord) : bool :=
  match tr_schedule_run_id r1, tr_schedule_attempt r1,
        tr_schedule_run_id r2, tr_schedule_attempt r2 with
  | Some a, Some x, Some b, Some y => bool_decide (a = b) && (x =? y)%Z
  | _, _, _, _ => false
  end.

(** [check_tasks_schedule_attempt_positive]. *)
Definition schedule_attempt_positive (r : TaskRecord) : bool :=
  match tr_schedule_attempt r with Some x => (1 <=? x)%Z | None => true end.

Section Repository.
  Context {coll : Collation}.
  (** Whether the user, organization, project and schedule-run rows a task refers to exist. *)
  Context (fk_ok : TaskRecord → bool).

(** The constraints checked when [INSERT INTO tasks] is flushed. *)
Definition insert_allowed (db : TaskDB) (r : TaskRecord) : bool :=
  fk_ok r && schedule_attempt_positive r
  && forallb (λ kv, negb (same_schedule_attempt r kv.2)) (map_to_list (tasks db)).

Definition db_put (r : TaskRecord) (db : TaskDB) : TaskDB :=
  mkTaskDB (<[tr_task_id r := r]> (tasks db)) (outbox db).

(** ** Creation and durable enqueue *)

Definition create_pending (execution : TaskExecution) (now : Z) (db : TaskDB)
    : outcome task_error (TaskExecution * TaskDB) :=
  match tasks db !! te_task_id execution with
  | Some existing => Ok (to_entity existing, db)
  | None =>
      let task := new_task_record execution PENDING now in
      if insert_allowed db task then Ok (to_entity task, db_put task db) else Raise IntegrityError
  end.

(** [ORDER BY queued_at DESC, task_id DESC] *)
Definition fresher_first (r1 r2 : TaskRecord) : Prop :=
  lex_le Z.le coll_le (tr_queued_at r2, tr_task_id r2) (tr_queued_at r1, tr_task_id r1).

#[global] Instance fresher_first_dec : RelDecision fresher_first.
Proof. intros r1 r2; unfold fresher_first; apply _. Defined.

Definition root_candidate (project_id : string) (r : TaskRecord) : bool :=
  bool_decide (tr_project_id r = project_id)
  && bool_decide (tr_source r ∈ ROOT_EXECUTION_SOURCES)
  && bool_decide (tr_status r ∈ SUPERSEDABLE_STATUSES).

Definition root_candidates (project_id : string) (db : TaskDB) : list TaskRecord :=
  merge_sort fresher_first
    (filter (λ r, root_candidate project_id r = true) (map_to_list (tasks db)).*2).

(** The columns written to a superseded row. *)
Definition supersede (now : Z) (r : TaskRecord) : TaskRecord :=
  set_updated_at now (set_finished_at (Some now)
    (set_termination_reason (Some (reason_value SUPERSEDED_BY_NEWER_EXECUTION))
      (set_status CANCELLED r))).

(** [UPDATE task_dispatch_outbox SET status = 'CANCELLED' WHERE task_id IN ids AND
    published_at IS NULL] *)
Definition cancel_unpublished (ids : list string) (o : TaskDispatchOutboxRecord)
    : TaskDispatchOutboxRecord :=
  if bool_decide (ob_task_id o ∈ ids) && bool_decide (ob_published_at o = None)
  then set_ob_status "CANCELLED" o else o.

Definition coalesce_root_executions (current : TaskRecord) (now : Z) (db : TaskDB)
    : TaskRecord * list TaskExecution * TaskDB :=
  match root_candidates (tr_project_id current) db with
  | [] => (current, [], db)
  | _ :: [] => (current, [], db)
  | _ :: stale =>
      let superseded := to_entity <$> stale in
      let stale_ids := tr_task_id <$> stale in
      let db' := mkTaskDB
        ((λ r, if bool_decide (tr_task_id r ∈ stale_ids) then supersede now r else r)
           <$> tasks db)
        (cancel_unpublished stale_ids <$> outbox db) in
      let current' :=
        if bool_decide (tr_task_id current ∈ stale_ids) then supersede now current else current in
      (current', superseded, db')
  end.

(** The outbox part of the enqueue transaction: one row per task. *)
Definition ensure_outbox (row_id task_id payload : string) (now : Z) (db : TaskDB) : TaskDB :=
  if bool_decide (Exists (λ o, ob_task_id o = task_id) (outbox db)) then db
  else mkTaskDB (tasks db) (outbox db ++ [new_outbox_record row_id task_id payload now]).

(** The second half of [enqueue_with_dispatch], on the row that is now [QUEUED]. *)
Definition enqueue_queued (execution : TaskExecution) (payload row_id : string) (now : Z)
    (task : TaskRecord) (db : TaskDB) : EnqueueTaskResult * TaskDB :=
  if bool_decide (te_source execution ∈ ROOT_EXECUTION_SOURCES) then
    let '(task', superseded, db') := coalesce_root_executions task now db in
    if bool_decide (tr_status task' = CANCELLED) then
      (mkEnqueueResult (to_entity task') superseded, db')
    else
      (mkEnqueueResult (to_entity task') superseded,
       ensure_outbox row_id (te_task_id execution) payload now db')
  else
    (mkEnqueueResult (to_entity task) [],
     ensure_outbox row_id (te_task_id execution) payload now db).

Definition enqueue_with_dispatch (execution : TaskExecution) (payload row_id : string) (now : Z)
    (db : TaskDB) : outcome task_error (EnqueueTaskResult * TaskDB) :=
  match tasks db !! te_task_id execution with
  | None =>
      let task := new_task_record execution QUEUED now in
      if insert_allowed db task
      then Ok (enqueue_queued execution payload row_id now task (db_put task db))
      else Raise IntegrityError
  | Some task =>
      if bool_decide (tr_status task = PENDING) then
        let task' := set_updated_at now (set_status QUEUED task) in
        Ok (enqueue_queued execution payload row_id now task' (db_put task' db))
      else if bool_decide (tr_status task = QUEUED) then
        Ok (enqueue_queued execution payload row_id now task db)
      else Ok (mkEnqueueResult (to_entity task) [], db)
  end.

(** ** Worker transitions *)

Definition claim (task_id worker_id : string) (now : Z) (db : TaskDB) : bool * TaskDB :=
  match tasks db !! task_id with
  | Some task =>
      if bool_decide (tr_status task ∈ CLAIMABLE_STATUSES) then
        (true, db_put (set_updated_at now (set_started_at (Some now)
                 (set_assigned_worker_id (Some worker_id) (set_status STARTED task)))) db)
      else (false, db)
  | None => (false, db)
  end.

Definition mark_running (task_id worker_id : string) (now : Z) (db : TaskDB) : bool * TaskDB :=
  match tasks db !! task_id with
  | Some task =>
      if bool_decide (tr_status task = STARTED)
         && bool_decide (tr_assigned_worker_id task = Some worker_id)
      then (true, db_put (set_updated_at now (set_status RUNNING task)) db)
      else (false, db)
  | None => (false, db)
  end.

(** The statuses from which [finalize] accepts the requested terminal status. *)
Definition finalize_source_ok (requested current : TaskExecutionStatus) : bool :=
  if bool_decide (requested = SUCCESS)
  then bool_decide (current ∈ [STARTED; RUNNING])
  else bool_decide (current ∈ [STARTED; RUNNING; CANCEL_REQUESTED]).

Definition finalize (task_id worker_id : string) (status : TaskExecutionStatus)
    (message termination_reason : option string) (now : Z) (db : TaskDB)
    : outcome task_error (bool * TaskDB) :=
  if negb (bool_decide (status ∈ TERMINAL_STATUSES)) then
    Raise (ValueError "Unsupported terminal status")
  else
    match tasks db !! task_id with
    | None => Ok (false, db)
    | Some task =>
        if negb (bool_decide (tr_assigned_worker_id task = Some worker_id)) then Ok (false, db)
        else if bool_decide (tr_status task ∈ [SUCCESS; ERROR; CANCELLED]) then Ok (false, db)
        else if negb (finalize_source_ok status (tr_status task)) then Ok (false, db)
        else
          let effective_reason :=
            match termination_reason with
            | Some r => Some (choose_termination_reason (tr_termination_reason task) r false)
            | None => tr_termination_reason task
            end in
          if bool_decide (effective_reason ≠ None) && bool_decide (status ≠ SUCCESS)
             && bool_decide (status ≠ terminal_status_for_termination_reason effective_reason)
          then Ok (false, db)
          else
            let t1 := set_updated_at now (set_finished_at (Some now) (set_status status task)) in
            let t2 := match message with Some m => set_message (Some m) t1 | None => t1 end in
            let t3 := match effective_reason with
                      | Some r => set_termination_reason (Some r) t2
                      | None => t2
                      end in
            Ok (true, db_put t3 db)
    end.

(** ** System transitions *)

Definition finalize_reconciled (task_id termination_reason : string) (message : option string)
    (now : Z) (db : TaskDB) : option TaskExecution * TaskDB :=
  match tasks db !! task_id with
  | None => (None, db)
  | Some task =>
      if bool_decide (tr_status task ∈ [SUCCESS; ERROR; CANCELLED]) then (None, db)
      else
        let effective_reason :=
          choose_termination_reason (tr_termination_reason task) termination_reason false in
        if bool_decide (tr_status task ≠ CANCEL_REQUESTED)
           && negb (bool_decide (tr_status task ∈ [STARTED; RUNNING])
                    && bool_decide (effective_reason = reason_value WORKER_LOST))
        then (None, db)
        else
          let t1 := set_updated_at now (set_finished_at (Some now)
                      (set_termination_reason (Some effective_reason)
                        (set_status (terminal_status_for_termination_reason (Some effective_reason))
                          task))) in
          let t2 := match message with Some m => set_message (Some m) t1 | None => t1 end in
          (Some (to_entity t2), db_put t2 db)
  end.

Definition fail_pending (task_id : string) (termination_reason message : option string)
    (now : Z) (db : TaskDB) : option TaskExecution * TaskDB :=
  match tasks db !! task_id with
  | None => (None, db)
  | Some task =>
      if bool_decide (termination_reason ≠ None) && bool_decide (tr_status task = ERROR)
         && bool_decide (tr_termination_reason task = termination_reason)
      then (Some (to_entity task), db)
      else if bool_decide (tr_status task ≠ PENDING) then (None, db)
      else
        let t1 := set_status ERROR task in
        let t2 := match termination_reason with
                  | Some r => set_termination_reason (Some r) t1
                  | None => t1
                  end in
        let t3 := set_updated_at now (set_finished_at (Some now) t2) in
        let t4 := match message with Some m => set_message (Some m) t3 | None => t3 end in
        (Some (to_entity t4), db_put t4 db)
  end.

Definition request_stop (task_id reason : string) (hard : bool) (now : Z) (db : TaskDB)
    : option TaskExecution * TaskDB :=
  match tasks db !! task_id with
  | None => (None, db)
  | Some task =>
      if bool_decide (tr_status task ∈ [SUCCESS; ERROR; CANCELLED]) then (Some (to_entity task), db)
      else
        let effective_reason := choose_termination_reason (tr_termination_reason task) reason hard in
        if bool_decide (tr_status task ∈ [PENDING; QUEUED]) then
          let t := set_updated_at now (set_termination_reason (Some effective_reason)
                     (set_finished_at (Some now) (set_status CANCELLED task))) in
          let db' := db_put t db in
          (Some (to_entity t),
           mkTaskDB (tasks db') (cancel_unpublished [task_id] <$> outbox db'))
        else
          let t := set_updated_at now (set_termination_reason (Some effective_reason)
                     (set_status CANCEL_REQUESTED task)) in
          (Some (to_entity t), db_put t db)
  end.

(** ** Queries *)

Definition get_task (task_id : string) (db : TaskDB) : option TaskExecution :=
  to_entity <$> tasks db !! task_id.

(** [ORDER BY updated_at, task_id] *)
Definition updated_first (r1 r2 : TaskRecord) : Prop :=
  lex_le Z.le coll_le (tr_updated_at r1, tr_task_id r1) (tr_updated_at r2, tr_task_id r2).

#[global] Instance updated_first_dec : RelDecision updated_first.
Proof. intros r1 r2; unfold updated_first; apply _. Defined.

Definition list_for_reconciliation (statuses : list TaskExecutionStatus) (limit : nat)
    (db : TaskDB) : list TaskExecution :=
  if bool_decide (statuses = []) then []
  else to_entity <$> take limit (merge_sort updated_first
         (filter (λ r, tr_status r ∈ statuses) (map_to_list (tasks db)).*2)).

(** [ORDER BY started_at, task_id], NULLs last *)
Definition nulls_last (z : option Z) : Z * Z := match z with Some x => (0, x)%Z | None => (1, 0)%Z end.

Definition started_first (r1 r2 : TaskRecord) : Prop :=
  lex_le Z.le (lex_le Z.le coll_le)
    ((nulls_last (tr_started_at r1)).1, ((nulls_last (tr_started_at r1)).2, tr_task_id r1))
    ((nulls_last (tr_started_at r2)).1, ((nulls_last (tr_started_at r2)).2, tr_task_id r2)).

#[global] Instance started_first_dec : RelDecision started_first.
Proof. intros r1 r2; unfold started_first; apply _. Defined.

Definition worker_owned_active (r : TaskRecord) : bool :=
  bool_decide (tr_status r ∈ WORKER_OWNED_ACTIVE_STATUSES)
  && bool_decide (tr_assigned_worker_id r ≠ None).

Definition list_worker_owned_active (limit : nat) (db : TaskDB) : list TaskExecution :=
  to_entity <$> take limit (merge_sort started_first
    (filter (λ r, worker_owned_active r = true) (map_to_list (tasks db)).*2)).

(** ** Dispatch outbox *)

Definition dispatch_pending (o : TaskDispatchOutboxRecord) : bool :=
  bool_decide (ob_status o = "PENDING") && bool_decide (ob_published_at o = None).

(** [ORDER BY created_at]; rows with equal times come in physical order. *)
Definition created_first (o1 o2 : TaskDispatchOutboxRecord) : Prop :=
  (ob_created_at o1 <= ob_created_at o2)%Z.

#[global] Instance created_first_dec : RelDecision created_first.
Proof. intros o1 o2; unfold created_first; apply _. Defined.

Definition pending_dispatches (limit : nat) (db : TaskDB) : list DispatchOutboxItem :=
  to_dispatch <$> take limit (merge_sort created_first
    (filter (λ o, dispatch_pending o = true) (outbox db))).

Definition mark_dispatch_published (dispatch_id : string) (now : Z) (db : TaskDB) : TaskDB :=
  mkTaskDB (tasks db)
    ((λ o, if bool_decide (ob_id o = dispatch_id) && bool_decide (ob_published_at o = None)
           then mkOutbox (ob_id o) (ob_task_id o) (ob_payload o) "PUBLISHED" (ob_created_at o)
                         (Some now) (ob_attempts o) None
           else o) <$> outbox db).

Definition record_dispatch_failure (dispatch_id error : string) (db : TaskDB) : TaskDB :=
  mkTaskDB (tasks db)
    ((λ o, if bool_decide (ob_id o = dispatch_id)
           then mkOutbox (ob_id o) (ob_task_id o) (ob_payload o) (ob_status o) (ob_created_at o)
                         (ob_published_at o) (ob_attempts o + 1)%Z
                         (Some (String.substring 0 1000 error))
           else o) <$> outbox db).

End Repository.

(** ** Rows that change or go with the rows they refer to *)

Definition set_schedule_run_id (x : option string) (r : TaskRecord) : TaskRecord :=
  let '(mkTaskRecord a b c d e f g h i j k l m n o _ q) := r in
  mkTaskRecord a b c d e f g h i j k l m n o x q.

(** [ON DELETE SET NULL] of [schedule_run_id], when schedule runs are deleted. *)
Definition unlink_runs (gone : string → bool) (db : TaskDB) : TaskDB :=
  mkTaskDB
    ((λ t, match tr_schedule_run_id t with
           | Some id => if gone id then set_schedule_run_id None t else t
           | None => t
           end) <$> tasks db)
    (outbox db).

(** [DELETE FROM tasks WHERE gone], with [ON DELETE CASCADE] on their dispatches. *)
Definition delete_tasks (gone : TaskRecord → bool) (db : TaskDB) : TaskDB :=
  mkTaskDB (filter (λ kr : string * TaskRecord, gone kr.2 = false) (tasks db))
    (filter (λ o, from_option gone false (tasks db !! ob_task_id o) = false) (outbox db)).
