(* ===== verification/TaskLifecycle.v ===== *)
(** * Task execution: the lifecycle implemented by the repository

    The repository methods are the steps of a transition system on the database. Each of
    them moves a row along the row-level automaton [row_step]; the status automaton
    [lifecycle] is the abstract specification it refines. The invariants of every
    reachable database follow by induction on these relations. *)
From S2P Require Import Prelude TaskTypes TaskStore.

(** ** The abstract lifecycle *)

Inductive lifecycle : TaskExecutionStatus → TaskExecutionStatus → Prop :=
  | lc_queue : lifecycle PENDING QUEUED
  | lc_fail_pending : lifecycle PENDING ERROR
  | lc_cancel s : s ∈ SUPERSEDABLE_STATUSES → lifecycle s CANCELLED
  | lc_claim s : s ∈ CLAIMABLE_STATUSES → lifecycle s STARTED
  | lc_run : lifecycle STARTED RUNNING
  | lc_finish s t : s ∈ WORKER_OWNED_ACTIVE_STATUSES → t ∈ TERMINAL_STATUSES → lifecycle s t
  | lc_request s : s ∈ [ASSIGNED; STARTED; RUNNING; CANCEL_REQUESTED] → lifecycle s CANCEL_REQUESTED
  | lc_cancelled t : t ∈ [ERROR; CANCELLED] → lifecycle CANCEL_REQUESTED t.

(** How far an execution has advanced. *)
Definition status_rank (s : TaskExecutionStatus) : nat :=
  match s with
  | PENDING => 0
  | QUEUED | ASSIGNED => 1
  | STARTED => 2
  | RUNNING => 3
  | CANCEL_REQUESTED => 4
  | SUCCESS | ERROR | CANCELLED => 5
  end.

Lemma lifecycle_rank s t :
  lifecycle s t → s = t ∧ s = CANCEL_REQUESTED ∨ (status_rank s < status_rank t)%nat.
Proof.
  destruct 1; unfold SUPERSEDABLE_STATUSES, CLAIMABLE_STATUSES, WORKER_OWNED_ACTIVE_STATUSES,
    TERMINAL_STATUSES in *; set_unfold; naive_solver (simpl; lia).
Qed.

(** ** The row automaton *)

Definition with_message (message : option string) (r : TaskRecord) : TaskRecord :=
  match message with Some m => set_message (Some m) r | None => r end.

Definition with_reason (reason : option string) (r : TaskRecord) : TaskRecord :=
  match reason with Some x => set_termination_reason (Some x) r | None => r end.

(** The reason [finalize] resolves from the stored one and the worker's. *)
Definition effective_finalize_reason (r : TaskRecord) (reason : option string) : option string :=
  match reason with
  | Some x => Some (choose_termination_reason (tr_termination_reason r) x false)
  | None => tr_termination_reason r
  end.

Inductive row_step (r : TaskRecord) : TaskRecord → Prop :=
  | rs_queue now :
      tr_status r = PENDING → row_step r (set_updated_at now (set_status QUEUED r))
  | rs_supersede now :
      tr_status r ∈ SUPERSEDABLE_STATUSES → row_step r (supersede now r)
  | rs_claim w now :
      tr_status r ∈ CLAIMABLE_STATUSES →
      row_step r (set_updated_at now (set_started_at (Some now)
                   (set_assigned_worker_id (Some w) (set_status STARTED r))))
  | rs_run now :
      tr_status r = STARTED → row_step r (set_updated_at now (set_status RUNNING r))
  | rs_finalize st message reason now :
      st ∈ TERMINAL_STATUSES →
      finalize_source_ok st (tr_status r) = true →
      (effective_finalize_reason r reason = None ∨ st = SUCCESS ∨
       st = terminal_status_for_termination_reason (effective_finalize_reason r reason)) →
      row_step r (with_reason (effective_finalize_reason r reason)
                   (with_message message
                     (set_updated_at now (set_finished_at (Some now) (set_status st r)))))
  | rs_reconcile reason message now :
      (tr_status r = CANCEL_REQUESTED ∨
       tr_status r ∈ [STARTED; RUNNING] ∧ reason = reason_value WORKER_LOST) →
      row_step r (with_message message (set_updated_at now (set_finished_at (Some now)
                   (set_termination_reason (Some reason)
                     (set_status (terminal_status_for_termination_reason (Some reason)) r)))))
  | rs_fail_pending reason message now :
      tr_status r = PENDING →
      reason ∈ [None; Some (reason_value NESTED_WAIT_CAPACITY_LOST)] →
      row_step r (with_message message (set_updated_at now (set_finished_at (Some now)
                   (with_reason reason (set_status ERROR r)))))
  | rs_cancel reason now :
      tr_status r ∈ SUPERSEDABLE_STATUSES →
      row_step r (set_updated_at now (set_termination_reason (Some reason)
                   (set_finished_at (Some now) (set_status CANCELLED r))))
  | rs_request reason now :
      tr_status r ∈ [ASSIGNED; STARTED; RUNNING; CANCEL_REQUESTED] →
      row_step r (set_updated_at now (set_termination_reason (Some reason)
                   (set_status CANCEL_REQUESTED r))).

#[export] Hint Constructors row_step lifecycle : dvt.

(** ** Steps of the database *)

Section Lifecycle.
Context {coll : Collation}.
Implicit Types fk_ok : TaskRecord → bool.

(** One committed transaction of the repository, by any of its clients. Rows are also deleted with
    their project or user and lose the link to a deleted schedule run; [TaskSpec] and
    [SchedProtocol] add these transactions. The reasons are those the use cases in front of
    [finalize_reconciled] and [fail_pending] let through, and a generated outbox key is new. *)
Inductive task_step (fk_ok : TaskRecord → bool) (db : TaskDB) : TaskDB → Prop :=
  | ts_create e now x db' :
      create_pending fk_ok e now db = Ok (x, db') → task_step fk_ok db db'
  | ts_enqueue e payload row_id now x db' :
      row_id ∉ (ob_id <$> outbox db) →
      enqueue_with_dispatch fk_ok e payload row_id now db = Ok (x, db') → task_step fk_ok db db'
  | ts_claim tid w now : task_step fk_ok db (claim tid w now db).2
  | ts_run tid w now : task_step fk_ok db (mark_running tid w now db).2
  | ts_finalize tid w st message reason now x db' :
      finalize tid w st message reason now db = Ok (x, db') → task_step fk_ok db db'
  | ts_reconcile tid reason message now :
      reason ∈ RECONCILIATION_TERMINATION_REASONS →
      task_step fk_ok db (finalize_reconciled tid reason message now db).2
  | ts_fail_pending tid reason message now :
      reason ∈ [None; Some (reason_value NESTED_WAIT_CAPACITY_LOST)] →
      task_step fk_ok db (fail_pending tid reason message now db).2
  | ts_stop tid reason hard now : task_step fk_ok db (request_stop tid reason hard now db).2
  | ts_published did now : task_step fk_ok db (mark_dispatch_published did now db)
  | ts_dispatch_failure did error : task_step fk_ok db (record_dispatch_failure did error db).

Definition initial_db : TaskDB := mkTaskDB ∅ [].

Definition reachable (fk_ok : TaskRecord → bool) (db : TaskDB) : Prop :=
  rtc (task_step fk_ok) initial_db db.

(** What one transaction does to the row with a given key: nothing, the automaton's steps,
    or the creation of a row followed by them. *)
Definition row_evolves (o o' : option TaskRecord) : Prop :=
  match o, o' with
  | Some r, Some r' => rtc row_step r r'
  | None, Some r' => ∃ e st now, st ∈ [PENDING; QUEUED] ∧ rtc row_step (new_task_record e st now) r'
  | None, None => True
  | Some _, None => False
  end.

(** The database key of a row is its primary key column. *)
Definition keys_ok (db : TaskDB) : Prop :=
  ∀ id r, tasks db !! id = Some r → tr_task_id r = id.

(** ** Every transaction moves rows along the automaton *)

Lemma row_step_task_id r r' : row_step r r' → tr_task_id r' = tr_task_id r.
Proof.
  destruct r; destruct 1; unfold supersede, with_reason, with_message; simpl; repeat case_match; done.
Qed.

Lemma rtc_row_step_task_id r r' : rtc row_step r r' → tr_task_id r' = tr_task_id r.
Proof. induction 1 as [|??? H _ IH]; [done|]. by rewrite IH, (row_step_task_id _ _ H). Qed.

Lemma row_evolves_refl o : row_evolves o o.
Proof. destruct o; simpl; [reflexivity|done]. Qed.

(** Writing back a row obtained from the stored one by the automaton. *)
Lemma db_put_evolves db r r' id :
  keys_ok db → tasks db !! tr_task_id r = Some r → row_step r r' →
  row_evolves (tasks db !! id) (tasks (db_put r' db) !! id).
Proof.
  intros Hk Hr Hs. unfold db_put; simpl. rewrite (row_step_task_id _ _ Hs).
  destruct (decide (id = tr_task_id r)) as [->|Hne].
  - rewrite Hr, lookup_insert_eq; simpl. by apply rtc_once.
  - rewrite lookup_insert_ne by done. apply row_evolves_refl.
Qed.

Lemma db_put_keys db r : keys_ok db → keys_ok (db_put r db).
Proof.
  intros Hk id r'. unfold db_put; simpl. rewrite lookup_insert. case_decide; [|apply Hk].
  by intros [= <-].
Qed.

(** The effect of a transaction on the whole [tasks] table. *)
Definition db_evolves (db db' : TaskDB) : Prop :=
  keys_ok db → keys_ok db' ∧ ∀ id, row_evolves (tasks db !! id) (tasks db' !! id).

Lemma row_evolves_trans o1 o2 o3 : row_evolves o1 o2 → row_evolves o2 o3 → row_evolves o1 o3.
Proof.
  destruct o1 as [r1|], o2 as [r2|], o3 as [r3|]; simpl; try done; [by etrans|].
  intros (e & st & now & Hst & H1) H2. exists e, st, now. split; [done|by etrans].
Qed.

#[export] Instance db_evolves_refl : Reflexive db_evolves.
Proof. intros db Hk; split; [done|]. intros; apply row_evolves_refl. Qed.

#[export] Instance db_evolves_trans : Transitive db_evolves.
Proof.
  intros db1 db2 db3 H12 H23 Hk. destruct (H12 Hk) as [Hk2 He1]. destruct (H23 Hk2) as [Hk3 He2].
  split; [done|]. eauto using row_evolves_trans.
Qed.

Lemma db_evolves_tasks_eq db db' : tasks db' = tasks db → db_evolves db db'.
Proof.
  intros E Hk. unfold keys_ok. rewrite E. split; [done|]. intros; apply row_evolves_refl.
Qed.

Lemma db_evolves_put db r r' id :
  tasks db !! id = Some r → row_step r r' → db_evolves db (db_put r' db).
Proof.
  intros Hr Hs Hk. split; [by apply db_put_keys|]. intros id'.
  apply db_put_evolves with r; [done| |done]. by rewrite (Hk _ _ Hr).
Qed.

Lemma db_evolves_insert db e st now :
  tasks db !! te_task_id e = None → st ∈ [PENDING; QUEUED] →
  db_evolves db (db_put (new_task_record e st now) db).
Proof.
  intros Hn Hst Hk. split; [by apply db_put_keys|]. intros id. unfold db_put; simpl.
  rewrite lookup_insert. case_decide as E; [subst; rewrite Hn|apply row_evolves_refl].
  exists e, st, now. by split.
Qed.

(** Discharges the membership side conditions of the automaton's rules. *)
Ltac in_status :=
  repeat match goal with
  | H : ?s ∈ [_] |- _ => apply list_elem_of_singleton in H
  | H : ?s ∈ _ :: _ |- _ => apply elem_of_cons in H as [H|H]
  end; subst; try done.

Lemma claim_evolves tid w now db : db_evolves db (claim tid w now db).2.
Proof.
  unfold claim. destruct (tasks db !! tid) as [r|] eqn:E; simpl; [|reflexivity].
  case_bool_decide; simpl; [|reflexivity]. eapply db_evolves_put; eauto with dvt.
Qed.

Lemma mark_running_evolves tid w now db : db_evolves db (mark_running tid w now db).2.
Proof.
  unfold mark_running. destruct (tasks db !! tid) as [r|] eqn:E; simpl; [|reflexivity].
  repeat case_bool_decide; simpl; try reflexivity. eapply db_evolves_put; eauto with dvt.
Qed.

(** The two outcomes of an accepted [finalize] call. *)
Lemma finalize_cases tid w st message reason now db x db' :
  finalize tid w st message reason now db = Ok (x, db') →
  (x = false ∧ db' = db) ∨
  ∃ r r', x = true ∧ db' = db_put r' db ∧ tasks db !! tid = Some r ∧
    tr_assigned_worker_id r = Some w ∧ finalize_source_ok st (tr_status r) = true ∧
    row_step r r' ∧ tr_status r' = st.
Proof.
  unfold finalize. case_bool_decide as Hst; simpl; [|done].
  destruct (tasks db !! tid) as [r|] eqn:E; [|intros [= <- <-]; auto].
  case_bool_decide; simpl; [|intros [= <- <-]; auto].
  case_bool_decide; simpl; [intros [= <- <-]; auto|].
  destruct (finalize_source_ok _ _) eqn:Hsrc; simpl; [|intros [= <- <-]; auto].
  fold (effective_finalize_reason r reason).
  destruct (bool_decide _ && _ && _) eqn:Hg; [intros [= <- <-]; auto|].
  intros [= <- <-]. right. exists r. eexists. split_and!; [done..| |].
  - refine (rs_finalize r st message reason now _ _ _); [done..|].
    apply andb_false_iff in Hg as [[Hg|Hg]%andb_false_iff|Hg]; apply bool_decide_eq_false in Hg;
      [left|right; left|right; right]; by apply dec_stable.
  - destruct r; simpl. by repeat case_match.
Qed.

Lemma finalize_evolves tid w st message reason now db x db' :
  finalize tid w st message reason now db = Ok (x, db') → db_evolves db db'.
Proof.
  intros [[-> ->]|(r & r' & -> & -> & Hr & _ & _ & Hs & _)]%finalize_cases; [reflexivity|].
  by eapply db_evolves_put.
Qed.

Lemma finalize_reconciled_cases tid reason message now db o db' :
  finalize_reconciled tid reason message now db = (o, db') →
  (o = None ∧ db' = db) ∨
  ∃ r r', o = Some (to_entity r') ∧ db' = db_put r' db ∧ tasks db !! tid = Some r ∧
    tr_status r ∈ [STARTED; RUNNING; CANCEL_REQUESTED] ∧ row_step r r' ∧
    tr_status r' = terminal_status_for_termination_reason
                     (Some (choose_termination_reason (tr_termination_reason r) reason false)).
Proof.
  unfold finalize_reconciled. destruct (tasks db !! tid) as [r|] eqn:E; simpl; [|intros [= <- <-]; auto].
  case_bool_decide; simpl; [intros [= <- <-]; auto|].
  destruct (bool_decide _ && _) eqn:Hg; simpl; [intros [= <- <-]; auto|].
  intros [= <- <-]. right. exists r. eexists.
  assert (tr_status r = CANCEL_REQUESTED ∨ tr_status r ∈ [STARTED; RUNNING] ∧
          choose_termination_reason (tr_termination_reason r) reason false = reason_value WORKER_LOST)
    as Hcase.
  { apply andb_false_iff in Hg as [Hg|Hg].
    - left. apply bool_decide_eq_false in Hg. by apply dec_stable.
    - right. by rewrite negb_false_iff, andb_true_iff, !bool_decide_eq_true in Hg. }
  split_and!; [done..| | |].
  - set_solver.
  - by refine (rs_reconcile r _ message now _).
  - destruct r; simpl. by case_match.
Qed.

Lemma finalize_reconciled_evolves tid reason message now db :
  db_evolves db (finalize_reconciled tid reason message now db).2.
Proof.
  destruct (finalize_reconciled _ _ _ _ _) as [o db'] eqn:E. simpl.
  apply finalize_reconciled_cases in E as [[-> ->]|(r & r' & _ & -> & Hr & _ & Hs & _)]; [reflexivity|].
  by eapply db_evolves_put.
Qed.

Lemma fail_pending_cases tid reason message now db o db' :
  reason ∈ [None; Some (reason_value NESTED_WAIT_CAPACITY_LOST)] →
  fail_pending tid reason message now db = (o, db') →
  db' = db ∨
  ∃ r r', o = Some (to_entity r') ∧ db' = db_put r' db ∧ tasks db !! tid = Some r ∧
    tr_status r = PENDING ∧ row_step r r' ∧ tr_status r' = ERROR.
Proof.
  intros Hr. unfold fail_pending.
  destruct (tasks db !! tid) as [r|] eqn:E; simpl; [|intros [= <- <-]; auto].
  case_match; simpl; [intros [= <- <-]; auto|].
  destruct (bool_decide (tr_status r ≠ PENDING)) eqn:Hp; simpl; [intros [= <- <-]; auto|].
  apply bool_decide_eq_false in Hp. intros [= <- <-]. right. exists r. eexists.
  split_and!; [done..| | |].
  - by apply dec_stable.
  - refine (rs_fail_pending r reason message now _ _); [by apply dec_stable|done].
  - destruct r; simpl. by repeat case_match.
Qed.

Lemma fail_pending_evolves tid reason message now db :
  reason ∈ [None; Some (reason_value NESTED_WAIT_CAPACITY_LOST)] →
  db_evolves db (fail_pending tid reason message now db).2.
Proof.
  intros Hin. destruct (fail_pending _ _ _ _ _) as [o db'] eqn:E. simpl.
  apply fail_pending_cases in E as [->|(r & r' & _ & -> & Hr & _ & Hs & _)]; [reflexivity| |done].
  by eapply db_evolves_put.
Qed.

Lemma request_stop_evolves tid reason hard now db :
  db_evolves db (request_stop tid reason hard now db).2.
Proof.
  unfold request_stop. destruct (tasks db !! tid) as [r|] eqn:E; simpl; [|reflexivity].
  case_bool_decide as Ht; simpl; [reflexivity|]. case_bool_decide as Hp; simpl.
  - etrans; [|by apply db_evolves_tasks_eq]. eapply db_evolves_put; eauto with dvt.
  - eapply db_evolves_put; [done|]. apply rs_request. destruct (tr_status r); set_solver.
Qed.

(** ** Coalescing *)

Lemma elem_of_root_candidates p db r :
  r ∈ root_candidates p db ↔ root_candidate p r = true ∧ ∃ id, tasks db !! id = Some r.
Proof.
  unfold root_candidates. rewrite merge_sort_elem, list_elem_of_filter, list_elem_of_fmap.
  split.
  - intros (Hc & [id r'] & -> & Hin%elem_of_map_to_list). eauto.
  - intros (Hc & id & Hin). split; [done|]. exists (id, r). by rewrite elem_of_map_to_list.
Qed.

Lemma root_candidate_true p r :
  root_candidate p r = true ↔
  tr_project_id r = p ∧ tr_source r ∈ ROOT_EXECUTION_SOURCES ∧ tr_status r ∈ SUPERSEDABLE_STATUSES.
Proof. unfold root_candidate. rewrite !andb_true_iff, !bool_decide_eq_true. tauto. Qed.

(** A row whose key is among the stale ones is itself a stale candidate. *)
Lemma stale_row db p r0 stale id r :
  keys_ok db → root_candidates p db = r0 :: stale → tasks db !! id = Some r →
  tr_task_id r ∈ (tr_task_id <$> stale) → r ∈ stale.
Proof.
  intros Hk Hc Hr (r' & Heq & Hin)%list_elem_of_fmap.
  assert (r' ∈ root_candidates p db) as (_ & id' & Hr')%elem_of_root_candidates
    by (rewrite Hc; set_solver).
  assert (id = id') as -> by (by rewrite <-(Hk _ _ Hr), <-(Hk _ _ Hr')).
  by rewrite Hr in Hr'; simplify_eq.
Qed.

Lemma coalesce_evolves current now db :
  db_evolves db (coalesce_root_executions current now db).2.
Proof.
  unfold coalesce_root_executions.
  destruct (root_candidates _ _) as [|r0 [|r1 stale]] eqn:Hc; [reflexivity..|].
  cbn [snd]. remember (r1 :: stale) as st eqn:Hst. intros Hk. split.
  - intros id r; simpl. rewrite lookup_fmap. destruct (tasks db !! id) as [r'|] eqn:E; simpl; [|done].
    case_bool_decide; intros [= <-]; [destruct r'|]; simpl; by apply Hk in E.
  - intros id; simpl. rewrite lookup_fmap. destruct (tasks db !! id) as [r'|] eqn:E; simpl; [|done].
    case_bool_decide as Hin; [|reflexivity]. apply rtc_once, rs_supersede.
    pose proof (stale_row _ _ _ _ _ _ Hk Hc E Hin) as Hr.
    assert (r' ∈ root_candidates (tr_project_id current) db) as (Hrc & _)%elem_of_root_candidates
      by (rewrite Hc; set_solver).
    by apply root_candidate_true in Hrc as (_ & _ & ?).
Qed.

Lemma ensure_outbox_tasks row_id tid payload now db :
  tasks (ensure_outbox row_id tid payload now db) = tasks db.
Proof. unfold ensure_outbox. by case_bool_decide. Qed.

Lemma enqueue_queued_evolves e payload row_id now task db :
  db_evolves db (enqueue_queued e payload row_id now task db).2.
Proof.
  unfold enqueue_queued. case_bool_decide.
  - pose proof (coalesce_evolves task now db) as Hc.
    destruct (coalesce_root_executions task now db) as [[task' sup] db'].
    case_bool_decide; simpl in *; [done|].
    etrans; [done|]. apply db_evolves_tasks_eq, ensure_outbox_tasks.
  - simpl. apply db_evolves_tasks_eq, ensure_outbox_tasks.
Qed.

Lemma enqueue_evolves fk_ok e payload row_id now db x db' :
  enqueue_with_dispatch fk_ok e payload row_id now db = Ok (x, db') → db_evolves db db'.
Proof.
  unfold enqueue_with_dispatch. intros H.
  destruct (tasks db !! te_task_id e) as [r|] eqn:E.
  - case_bool_decide; [|case_bool_decide]; injection H as H;
      [apply (f_equal snd) in H; simpl in H; subst db'..|simplify_eq; reflexivity].
    + etrans; [|apply enqueue_queued_evolves]. eapply db_evolves_put; eauto with dvt.
    + apply enqueue_queued_evolves.
  - case_match; [|done]. injection H as H. apply (f_equal snd) in H; simpl in H; subst db'.
    etrans; [|apply enqueue_queued_evolves]. apply db_evolves_insert; set_solver.
Qed.

Lemma create_pending_evolves fk_ok e now db x db' :
  create_pending fk_ok e now db = Ok (x, db') → db_evolves db db'.
Proof.
  unfold create_pending. destruct (tasks db !! te_task_id e) as [r|] eqn:E.
  - intros [= <- <-]. reflexivity.
  - case_match; intros; simplify_eq. apply db_evolves_insert; set_solver.
Qed.

#[local] Hint Resolve claim_evolves mark_running_evolves finalize_evolves
  finalize_reconciled_evolves fail_pending_evolves request_stop_evolves enqueue_evolves
  create_pending_evolves : dvt.

(** Every transaction moves every row along the automaton, and no row is ever deleted. *)
Lemma task_step_evolves fk_ok db db' : task_step fk_ok db db' → db_evolves db db'.
Proof. destruct 1; eauto with dvt; by apply db_evolves_tasks_eq. Qed.

Lemma task_steps_evolve fk_ok db db' : rtc (task_step fk_ok) db db' → db_evolves db db'.
Proof. induction 1; [reflexivity|]. etrans; [by eapply task_step_evolves|done]. Qed.

Lemma initial_keys_ok : keys_ok initial_db.
Proof. intros id r; simpl. by rewrite lookup_empty. Qed.

Lemma reachable_keys_ok fk_ok db : reachable fk_ok db → keys_ok db.
Proof. intros H. by apply (task_steps_evolve _ _ _ H), initial_keys_ok. Qed.

(** ** The invariant of a row *)

Record row_ok (r : TaskRecord) : Prop := {
  ro_finished : terminal (tr_status r) = true ↔ tr_finished_at r ≠ None;
  ro_owned : tr_status r ∈ [STARTED; RUNNING; CANCEL_REQUESTED] →
             tr_assigned_worker_id r ≠ None;
  ro_started : tr_started_at r ≠ None ↔ tr_assigned_worker_id r ≠ None;
  ro_waiting : tr_status r ∈ SUPERSEDABLE_STATUSES → tr_assigned_worker_id r = None;
  ro_no_reason : tr_status r ∈ [PENDING; QUEUED; STARTED; RUNNING] →
                 tr_termination_reason r = None;
  ro_requested : tr_status r = CANCEL_REQUESTED → tr_termination_reason r ≠ None;
  ro_not_assigned : tr_status r ≠ ASSIGNED;
  ro_error_reason x : tr_status r = ERROR → tr_termination_reason r = Some x →
                      x ∈ FAILURE_TERMINATION_REASONS;
  ro_cancelled_reason x : tr_status r = CANCELLED → tr_termination_reason r = Some x →
                          tr_assigned_worker_id r ≠ None → x ∉ FAILURE_TERMINATION_REASONS;
}.

Lemma terminal_status_terminal reason :
  terminal_status_for_termination_reason reason ∈ [ERROR; CANCELLED].
Proof. unfold terminal_status_for_termination_reason. repeat case_match; set_solver. Qed.

Lemma terminal_status_spec x :
  (terminal_status_for_termination_reason (Some x) = ERROR ∧ x ∈ FAILURE_TERMINATION_REASONS)
  ∨ (terminal_status_for_termination_reason (Some x) = CANCELLED ∧ x ∉ FAILURE_TERMINATION_REASONS).
Proof. unfold terminal_status_for_termination_reason. case_bool_decide; auto. Qed.

Lemma terminal_true s : terminal s = true ↔ s ∈ [SUCCESS; ERROR; CANCELLED].
Proof. unfold terminal. by rewrite bool_decide_eq_true. Qed.

Lemma finalize_source_ok_true st s :
  finalize_source_ok st s = true →
  s ∈ [STARTED; RUNNING] ∨ (s = CANCEL_REQUESTED ∧ st ≠ SUCCESS).
Proof.
  unfold finalize_source_ok. case_bool_decide; rewrite bool_decide_eq_true; set_solver.
Qed.

Lemma new_task_record_ok e st now : st ∈ [PENDING; QUEUED] → row_ok (new_task_record e st now).
Proof. intros Hst. in_status; split; simpl; rewrite ?terminal_true; set_solver. Qed.

Ltac row_ok_tac :=
  split; simpl; rewrite ?terminal_true in *; try done; try set_solver.

(** A row that reaches a terminal status keeps the invariant when its reason fits. *)
Lemma row_ok_finished r r' :
  row_ok r → tr_status r' ∈ [SUCCESS; ERROR; CANCELLED] → tr_finished_at r' ≠ None →
  tr_assigned_worker_id r' = tr_assigned_worker_id r → tr_started_at r' = tr_started_at r →
  (∀ x, tr_termination_reason r' = Some x →
     (tr_status r' = ERROR → x ∈ FAILURE_TERMINATION_REASONS) ∧
     (tr_status r' = CANCELLED → tr_assigned_worker_id r ≠ None →
      x ∉ FAILURE_TERMINATION_REASONS)) →
  row_ok r'.
Proof.
  intros Hok Ht Hf Hw Hsa Hx. pose proof (ro_started r Hok) as Hs.
  assert (∀ s, tr_status r' = s → s ∈ [SUCCESS; ERROR; CANCELLED]) as Hst by (by intros ? <-).
  split; rewrite ?Hw, ?Hsa, ?terminal_true; try done.
  all: try (intros H; specialize (Hst _ eq_refl); unfold SUPERSEDABLE_STATUSES in *; in_status; congruence).
  all: intros x H1 H2; by apply (Hx x H2).
Qed.

Lemma row_ok_finalize r st message reason now :
  row_ok r → st ∈ TERMINAL_STATUSES →
  (effective_finalize_reason r reason = None ∨ st = SUCCESS ∨
   st = terminal_status_for_termination_reason (effective_finalize_reason r reason)) →
  tr_termination_reason r = None ∨ effective_finalize_reason r reason ≠ None →
  row_ok (with_reason (effective_finalize_reason r reason)
            (with_message message
               (set_updated_at now (set_finished_at (Some now) (set_status st r))))).
Proof.
  intros Hok Ht Hexp Hnone.
  apply (row_ok_finished r); [done| | | | |];
    destruct r as [tid mode fe s0 tr src msg wid qa sa fa ua uid oid pid sri sat];
    unfold with_reason, with_message; [by repeat case_match..|].
  intros x. destruct (effective_finalize_reason _ _) as [y|] eqn:E; simpl.
  - destruct message; simpl; intros [= ->];
      destruct (terminal_status_spec x) as [[Hts ?]|[Hts ?]]; rewrite Hts in Hexp; naive_solver.
  - destruct message; simpl in *; intros ->; naive_solver.
Qed.

Lemma row_ok_step r r' : row_ok r → row_step r r' → row_ok r'.
Proof.
  intros Hok Hs. pose proof Hok as [Hfin Hown Hsta Hwai Hnor Hreq Hass Herr Hcan].
  destruct Hs as [now H|now H|w now H|now H|st' message reason now Ht Hsrc Hexp
                 |reason message now H|reason message now H Hr|reason now H|reason now H].
  - destruct r; simpl in *; subst. row_ok_tac.
  - destruct r; unfold supersede; simpl in *. row_ok_tac.
  - destruct r; simpl in *. row_ok_tac.
  - destruct r; simpl in *; subst. row_ok_tac.
  - apply row_ok_finalize; [done..|]. apply finalize_source_ok_true in Hsrc as [?|[??]].
    + left. apply Hnor. set_solver.
    + right. unfold effective_finalize_reason. destruct reason; [done|auto].
  - apply (row_ok_finished r); [done| | | | |];
      [destruct r, message; simpl; try done; pose proof (terminal_status_terminal (Some reason)); set_solver
      |by destruct r, message..|].
    intros x. destruct (terminal_status_spec reason) as [[E ?]|[E ?]];
      destruct r, message; simpl in *; rewrite E; naive_solver.
  - apply (row_ok_finished r); [done| | | | |]; unfold with_reason, with_message;
      [destruct r, message, reason; simpl; set_solver|by destruct r, message, reason..|].
    rewrite H in Hnor. specialize (Hnor ltac:(set_solver)).
    intros x. destruct r; simpl in *; set_unfold in Hr; destruct Hr as [->|[->|[]]]; destruct message;
      simpl; intros; simplify_eq; set_solver.
  - destruct r; simpl in *. row_ok_tac.
  - destruct r; simpl in *. row_ok_tac.
Qed.

(** ** The row automaton refines the abstract lifecycle *)

Lemma row_step_lifecycle r r' : row_step r r' → lifecycle (tr_status r) (tr_status r').
Proof.
  destruct r as [tid mode fe st tr src msg wid qa sa fa ua uid oid pid sri sat].
  destruct 1 as [now H|now H|w now H|now H|st' message reason now Ht Hsrc Hexp
                |reason message now H|reason message now H Hr|reason now H|reason now H];
    unfold supersede, with_reason, with_message in *; simpl in *; subst; eauto with dvt.
  - apply finalize_source_ok_true in Hsrc. repeat case_match; simpl;
      destruct Hsrc as [?|[-> ?]]; eauto with dvt; apply lc_cancelled; set_solver.
  - pose proof (terminal_status_terminal (Some reason)) as Ht.
    destruct message; simpl; (destruct H as [->|[H _]]; [by apply lc_cancelled|]);
      apply lc_finish; unfold WORKER_OWNED_ACTIVE_STATUSES, TERMINAL_STATUSES; set_solver.
  - destruct message, reason; simpl; constructor.
Qed.

Lemma row_step_not_terminal r r' : row_step r r' → terminal (tr_status r) = false.
Proof.
  intros H%row_step_lifecycle. revert H. generalize (tr_status r), (tr_status r').
  intros s t; destruct 1; unfold SUPERSEDABLE_STATUSES, CLAIMABLE_STATUSES,
    WORKER_OWNED_ACTIVE_STATUSES in *; in_status.
Qed.

Lemma rtc_row_step_terminal r r' : rtc row_step r r' → terminal (tr_status r) = true → r' = r.
Proof. destruct 1 as [|r1 r2 r3 H%row_step_not_terminal _]; [done|congruence]. Qed.

Lemma rtc_row_step_rank r r' :
  rtc row_step r r' → (status_rank (tr_status r) ≤ status_rank (tr_status r'))%nat.
Proof.
  induction 1 as [|??? H%row_step_lifecycle%lifecycle_rank _ IH]; [done|].
  destruct H as [[-> _]|?]; lia.
Qed.

Lemma rtc_row_step_not_pending r r' :
  rtc row_step r r' → tr_status r ≠ PENDING → tr_status r' ≠ PENDING.
Proof.
  intros H%rtc_row_step_rank Hp E. rewrite E in H. destruct (tr_status r); simpl in H; try lia; done.
Qed.

(** Only a claim writes the worker column. *)
Lemma row_step_worker r r' w :
  row_step r r' → tr_assigned_worker_id r = Some w → ¬ tr_status r ∈ CLAIMABLE_STATUSES →
  tr_assigned_worker_id r' = Some w.
Proof.
  destruct r as [tid mode fe st tr src msg wid qa sa fa ua uid oid pid sri sat].
  destruct 1 as [now H|now H|w' now H|now H|st' message reason now Ht Hsrc Hexp
                |reason message now H|reason message now H Hr|reason now H|reason now H];
    unfold supersede, with_reason, with_message in *; simpl in *; intros; repeat case_match; done.
Qed.

Lemma rank_not_claimable s : (2 ≤ status_rank s)%nat → ¬ s ∈ CLAIMABLE_STATUSES.
Proof. unfold CLAIMABLE_STATUSES. intros H Hin. in_status; simpl in H; lia. Qed.

Lemma rtc_row_step_worker r r' w :
  rtc row_step r r' → tr_assigned_worker_id r = Some w → (2 ≤ status_rank (tr_status r))%nat →
  tr_assigned_worker_id r' = Some w.
Proof.
  induction 1 as [|r1 r2 r3 H _ IH]; [done|]. intros Hw Hr.
  apply IH; [eapply row_step_worker; eauto using rank_not_claimable|].
  pose proof (rtc_row_step_rank r1 r2 (rtc_once _ _ H)). lia.
Qed.

(** ** Invariant of the rows of a reachable database *)

Definition rows_ok (db : TaskDB) : Prop := ∀ id r, tasks db !! id = Some r → row_ok r.

Lemma row_ok_steps r r' : rtc row_step r r' → row_ok r → row_ok r'.
Proof. induction 1; eauto using row_ok_step. Qed.

Lemma db_evolves_rows_ok db db' : db_evolves db db' → keys_ok db → rows_ok db → rows_ok db'.
Proof.
  intros He Hk Hok id r' Hr'. destruct (He Hk) as [_ Hrow]. specialize (Hrow id). rewrite Hr' in Hrow.
  destruct (tasks db !! id) as [r|] eqn:E; simpl in Hrow.
  - eauto using row_ok_steps.
  - destruct Hrow as (e & st & now & Hst & Hsteps). eauto using row_ok_steps, new_task_record_ok.
Qed.

Lemma initial_rows_ok : rows_ok initial_db.
Proof. intros id r; simpl. by rewrite lookup_empty. Qed.

Lemma reachable_rows_ok fk_ok db : reachable fk_ok db → rows_ok db.
Proof.
  intros H. eapply db_evolves_rows_ok; [by eapply task_steps_evolve|apply initial_keys_ok|].
  apply initial_rows_ok.
Qed.

(** ** Coalescing leaves one runnable root execution *)

#[export] Instance fresher_first_trans : Transitive fresher_first.
Proof. intros r1 r2 r3 H1 H2. unfold fresher_first in *. by etrans. Qed.

(** What [ORDER BY queued_at DESC, task_id DESC] puts first. *)
Lemma fresher_first_iff r r0 :
  fresher_first r r0 ↔
  (tr_queued_at r0 < tr_queued_at r ∨
   tr_queued_at r0 = tr_queued_at r ∧ coll_le (tr_task_id r0) (tr_task_id r))%Z.
Proof. unfold fresher_first, lex_le; simpl. split; (intros [H|H]; [left; lia|by right]). Qed.

#[export] Instance fresher_first_total : Total fresher_first.
Proof. intros r1 r2. unfold fresher_first. apply (total (lex_le Z.le coll_le)). Qed.

Lemma supersede_not_candidate p now r : root_candidate p (supersede now r) = false.
Proof.
  destruct (root_candidate _ _) eqn:E; [|done]. apply root_candidate_true in E as (_ & _ & H).
  destruct r; unfold supersede, SUPERSEDABLE_STATUSES in *; simpl in H; in_status.
Qed.

(** The candidates that remain after coalescing are the freshest one before it. *)
Lemma coalesce_survivor current now db id r :
  keys_ok db →
  tasks (coalesce_root_executions current now db).2 !! id = Some r →
  root_candidate (tr_project_id current) r = true →
  ∃ rest, root_candidates (tr_project_id current) db = r :: rest.
Proof.
  intros Hk. unfold coalesce_root_executions.
  destruct (root_candidates _ _) as [|r0 [|r1 stale]] eqn:Hc; cbn [snd]; intros Hr Hcand.
  { assert (r ∈ root_candidates (tr_project_id current) db) as Hin
      by (apply elem_of_root_candidates; eauto). rewrite Hc in Hin. by apply elem_of_nil in Hin. }
  { assert (r ∈ root_candidates (tr_project_id current) db) as Hin
      by (apply elem_of_root_candidates; eauto). rewrite Hc in Hin.
    apply list_elem_of_singleton in Hin as ->. eauto. }
  remember (r1 :: stale) as st eqn:Hst. simpl in Hr. rewrite lookup_fmap in Hr.
  destruct (tasks db !! id) as [r'|] eqn:E; simpl in Hr; [|done].
  case_bool_decide as Hin; injection Hr as <-; [by rewrite supersede_not_candidate in Hcand|].
  assert (r' ∈ root_candidates (tr_project_id current) db) as Hin'
    by (apply elem_of_root_candidates; eauto).
  rewrite Hc in Hin'. apply elem_of_cons in Hin' as [->|Hin']; [eauto|].
  destruct Hin. by apply list_elem_of_fmap_2.
Qed.

Lemma coalesce_unique current now db id1 id2 r1 r2 :
  keys_ok db →
  tasks (coalesce_root_executions current now db).2 !! id1 = Some r1 →
  tasks (coalesce_root_executions current now db).2 !! id2 = Some r2 →
  root_candidate (tr_project_id current) r1 = true →
  root_candidate (tr_project_id current) r2 = true → r1 = r2.
Proof.
  intros Hk H1 H2 Hc1 Hc2.
  destruct (coalesce_survivor _ _ _ _ _ Hk H1 Hc1) as [? E1].
  destruct (coalesce_survivor _ _ _ _ _ Hk H2 Hc2) as [? E2]. congruence.
Qed.

(** The row on which an accepted root enqueue runs the coalescing, and the database it sees. *)
Definition enqueue_point (e : TaskExecution) (now : Z) (db : TaskDB) : option (TaskRecord * TaskDB) :=
  match tasks db !! te_task_id e with
  | None => let t := new_task_record e QUEUED now in Some (t, db_put t db)
  | Some t =>
      if bool_decide (tr_status t = PENDING)
      then let t' := set_updated_at now (set_status QUEUED t) in Some (t', db_put t' db)
      else if bool_decide (tr_status t = QUEUED) then Some (t, db) else None
  end.

Lemma enqueue_root_coalesces fk_ok e payload row_id now db x db' t db1 :
  enqueue_with_dispatch fk_ok e payload row_id now db = Ok (x, db') →
  te_source e ∈ ROOT_EXECUTION_SOURCES →
  enqueue_point e now db = Some (t, db1) →
  tasks db' = tasks (coalesce_root_executions t now db1).2.
Proof.
  unfold enqueue_with_dispatch, enqueue_point. intros H Hsrc Hp.
  assert (tasks (enqueue_queued e payload row_id now t db1).2
          = tasks (coalesce_root_executions t now db1).2) as Hq.
  { unfold enqueue_queued. rewrite bool_decide_eq_true_2 by done.
    destruct (coalesce_root_executions t now db1) as [[t' sup] db2].
    case_bool_decide; simpl; [done|]. apply ensure_outbox_tasks. }
  destruct (tasks db !! te_task_id e) as [r|];
    [case_bool_decide; [|case_bool_decide; [|done]]|case_match; [|done]];
    injection Hp as <- <-; injection H as H; apply (f_equal snd) in H; simpl in H; by subst db'.
Qed.

Lemma enqueue_point_keys e now db t db1 :
  keys_ok db → enqueue_point e now db = Some (t, db1) → keys_ok db1.
Proof.
  unfold enqueue_point. intros Hk H. repeat case_match; simplify_eq; auto using db_put_keys.
Qed.

(** ** The dispatch outbox *)

Record outbox_ok (db : TaskDB) : Prop := {
  oo_one_per_task : NoDup (ob_task_id <$> outbox db);
  oo_ids : NoDup (ob_id <$> outbox db);
  oo_rows o : o ∈ outbox db → ∃ r,
    tasks db !! ob_task_id o = Some r ∧ tr_status r ≠ PENDING ∧
    (dispatch_pending o = true → terminal (tr_status r) = true → tr_assigned_worker_id r ≠ None);
}.

(** A transaction that updates outbox rows in place without making one pending again. *)
Definition outbox_update (g : TaskDispatchOutboxRecord → TaskDispatchOutboxRecord) : Prop :=
  ∀ o, ob_task_id (g o) = ob_task_id o ∧ ob_id (g o) = ob_id o ∧
       (dispatch_pending (g o) = true → dispatch_pending o = true).

Lemma outbox_ok_update db db' g :
  outbox_ok db → outbox_update g → outbox db' = g <$> outbox db →
  (∀ id, row_evolves (tasks db !! id) (tasks db' !! id)) →
  (∀ o r r', o ∈ outbox db → dispatch_pending (g o) = true →
     tasks db !! ob_task_id o = Some r → tasks db' !! ob_task_id o = Some r' →
     tr_status r ≠ PENDING →
     terminal (tr_status r) = false → terminal (tr_status r') = true →
     tr_assigned_worker_id r' ≠ None) →
  outbox_ok db'.
Proof.
  intros [Hn1 Hn2 Hrows] Hg Ho He Hnew. split.
  - rewrite Ho, <-list_fmap_compose.
    replace ((ob_task_id ∘ g) <$> outbox db) with (ob_task_id <$> outbox db); [done|].
    apply list_fmap_ext. intros _ o _. symmetry. apply Hg.
  - rewrite Ho, <-list_fmap_compose.
    replace ((ob_id ∘ g) <$> outbox db) with (ob_id <$> outbox db); [done|].
    apply list_fmap_ext. intros _ o _. symmetry. apply Hg.
  - intros o'. rewrite Ho. intros (o & -> & Hin)%list_elem_of_fmap.
    destruct (Hg o) as (-> & _ & Hpend). destruct (Hrows o Hin) as (r & Hr & Hst & Hdead).
    specialize (He (ob_task_id o)). rewrite Hr in He.
    destruct (tasks db' !! ob_task_id o) as [r'|] eqn:Hr'; simpl in He; [|done].
    exists r'. split_and!; [done|by eapply rtc_row_step_not_pending|].
    intros Hp Ht. destruct (terminal (tr_status r)) eqn:Htr; [|eauto].
    apply rtc_row_step_terminal in He as ->; auto.
Qed.

Record db_inv (db : TaskDB) : Prop := {
  di_keys : keys_ok db;
  di_rows : rows_ok db;
  di_outbox : outbox_ok db;
}.

(** A row that is neither waiting nor finished belongs to a worker. *)
Lemma row_ok_owned r :
  row_ok r → tr_status r ≠ PENDING → tr_status r ≠ QUEUED → terminal (tr_status r) = false →
  (2 ≤ status_rank (tr_status r))%nat ∧ ∃ w, tr_assigned_worker_id r = Some w.
Proof.
  intros Hok Hp Hq Ht. pose proof (ro_not_assigned _ Hok) as Ha. pose proof (ro_owned _ Hok) as Ho.
  destruct (tr_status r) eqn:E; try done; (split; [simpl; lia|]);
    destruct (tr_assigned_worker_id r) eqn:Ew; eauto; destruct Ho; set_solver.
Qed.

(** Transactions preserve the invariant when a queued row that becomes terminal takes its
    pending dispatch with it. *)
Lemma db_inv_update db db' g :
  db_inv db → db_evolves db db' → outbox_update g → outbox db' = g <$> outbox db →
  (∀ o r r', o ∈ outbox db → dispatch_pending (g o) = true →
     tasks db !! ob_task_id o = Some r → tasks db' !! ob_task_id o = Some r' →
     tr_status r = QUEUED → terminal (tr_status r') = false) →
  db_inv db'.
Proof.
  intros [Hk Hr Ho] He Hg Hob Hq. destruct (He Hk) as [Hk' Hrow]. split; [done| |].
  - by eapply db_evolves_rows_ok.
  - eapply outbox_ok_update; [done..|]. intros o r r' Hin Hp H H' Hst Ht Ht'.
    destruct (decide (tr_status r = QUEUED)) as [E|Hne].
    + by rewrite (Hq o r r') in Ht'.
    + destruct (row_ok_owned r (Hr _ _ H)) as [Hrank [w Hw]]; [done..|].
      specialize (Hrow (ob_task_id o)). rewrite H, H' in Hrow. simpl in Hrow.
      by rewrite (rtc_row_step_worker _ _ _ Hrow Hw Hrank).
Qed.

Lemma outbox_update_id : outbox_update id.
Proof. by intros o. Qed.

Lemma outbox_update_cancel ids : outbox_update (cancel_unpublished ids).
Proof.
  intros o. unfold cancel_unpublished. case_match; [|done]. split_and!; [done..|].
  by unfold dispatch_pending.
Qed.

Lemma cancel_unpublished_dead ids o :
  ob_task_id o ∈ ids → dispatch_pending (cancel_unpublished ids o) = false.
Proof.
  intros Hin. unfold cancel_unpublished. rewrite bool_decide_eq_true_2 by done.
  case_bool_decide as E; simpl; unfold dispatch_pending; [done|].
  by rewrite (bool_decide_eq_false_2 _ E), andb_false_r.
Qed.

Lemma db_inv_put db r r' id :
  db_inv db → tasks db !! id = Some r → row_step r r' →
  (tr_status r = QUEUED → terminal (tr_status r') = false) →
  db_inv (db_put r' db).
Proof.
  intros Hinv Hr Hs Hq. eapply (db_inv_update _ _ (λ o, o)); [done|by eapply db_evolves_put|done| |].
  { unfold db_put; simpl. by rewrite list_fmap_id. }
  intros o r1 r2 _ _ H1 H2 Hst. unfold db_put in H2; simpl in H2.
  pose proof (di_keys _ Hinv _ _ Hr) as Hid. rewrite (row_step_task_id _ _ Hs), Hid in H2.
  destruct (decide (id = ob_task_id o)) as [->|Hne].
  - rewrite lookup_insert_eq in H2. rewrite Hr in H1. simplify_eq. by apply Hq.
  - rewrite lookup_insert_ne in H2 by done. rewrite H1 in H2. injection H2 as <-. by rewrite Hst.
Qed.

Lemma db_inv_insert db e st now :
  db_inv db → tasks db !! te_task_id e = None → st ∈ [PENDING; QUEUED] →
  db_inv (db_put (new_task_record e st now) db).
Proof.
  intros Hinv Hn Hst.
  eapply (db_inv_update _ _ (λ o, o)); [done|by apply db_evolves_insert|done| |].
  { unfold db_put; simpl. by rewrite list_fmap_id. }
  intros o r1 r2 _ _ H1 H2 Hq. unfold db_put in H2; simpl in H2.
  rewrite lookup_insert_ne in H2 by congruence. rewrite H1 in H2. injection H2 as <-. by rewrite Hq.
Qed.

Lemma db_inv_coalesce current now db :
  db_inv db → db_inv (coalesce_root_executions current now db).2.
Proof.
  intros Hinv. pose proof (coalesce_evolves current now db) as He.
  unfold coalesce_root_executions in *.
  destruct (root_candidates _ _) as [|r0 [|r1 stale]] eqn:Hc; [done..|].
  cbn [snd] in *. remember (r1 :: stale) as st eqn:Hst.
  eapply (db_inv_update _ _ (cancel_unpublished (tr_task_id <$> st)));
    [done|done|apply outbox_update_cancel|done|].
  intros o r r' _ Hp Hr Hr' Hq. simpl in Hr'. rewrite lookup_fmap, Hr in Hr'; simpl in Hr'.
  injection Hr' as <-. case_bool_decide as Hin; [|by rewrite Hq].
  rewrite (di_keys _ Hinv _ _ Hr) in Hin. by rewrite cancel_unpublished_dead in Hp.
Qed.

Lemma db_inv_ensure_outbox row_id tid payload now db r :
  db_inv db → row_id ∉ (ob_id <$> outbox db) → tasks db !! tid = Some r →
  tr_status r ≠ PENDING → (terminal (tr_status r) = true → tr_assigned_worker_id r ≠ None) →
  db_inv (ensure_outbox row_id tid payload now db).
Proof.
  intros [Hk Hr [Hn1 Hn2 Hrows]] Hid Htid Hst Hdead. unfold ensure_outbox.
  case_bool_decide as Hex; [done|]. split; [done|done|]. split; simpl.
  - rewrite fmap_app. apply NoDup_app; split_and!; [done| |apply NoDup_singleton].
    intros t (o & -> & Hin)%list_elem_of_fmap Ht. apply list_elem_of_singleton in Ht; simpl in Ht.
    destruct Hex. apply Exists_exists. eauto.
  - rewrite fmap_app. apply NoDup_app; split_and!; [done| |apply NoDup_singleton].
    intros t Hin Ht. apply list_elem_of_singleton in Ht; simpl in Ht. by subst.
  - intros o [Hin|Hin]%elem_of_app; [by apply Hrows|].
    apply list_elem_of_singleton in Hin as ->. exists r. by split_and!.
Qed.

(** The returned row is the stored one, kept or superseded. *)
Lemma coalesce_current current now db t' sup db' :
  tasks db !! tr_task_id current = Some current →
  coalesce_root_executions current now db = (t', sup, db') →
  tasks db' !! tr_task_id current = Some t' ∧ (t' = current ∨ t' = supersede now current).
Proof.
  intros Hc. unfold coalesce_root_executions.
  destruct (root_candidates _ _) as [|r0 [|r1 stale]]; [intros [= <- <- <-]; auto..|].
  intros [= <- <- <-]; simpl. rewrite lookup_fmap, Hc; simpl. case_bool_decide; auto.
Qed.

Lemma coalesce_outbox_ids current now db t' sup db' :
  coalesce_root_executions current now db = (t', sup, db') →
  (ob_id <$> outbox db') = (ob_id <$> outbox db).
Proof.
  unfold coalesce_root_executions.
  destruct (root_candidates _ _) as [|r0 [|r1 stale]]; [intros [= <- <- <-]; auto..|].
  intros [= <- <- <-]; simpl. rewrite <-list_fmap_compose. apply list_fmap_ext. intros _ o _; simpl.
  apply outbox_update_cancel.
Qed.

Lemma db_inv_enqueue_queued e payload row_id now task db :
  db_inv db → row_id ∉ (ob_id <$> outbox db) → te_task_id e = tr_task_id task →
  tasks db !! tr_task_id task = Some task → tr_status task = QUEUED →
  db_inv (enqueue_queued e payload row_id now task db).2.
Proof.
  intros Hinv Hid Hte Ht Hq. unfold enqueue_queued. rewrite Hte. case_bool_decide; simpl.
  - pose proof (db_inv_coalesce task now db Hinv) as Hinv'.
    destruct (coalesce_root_executions task now db) as [[t' sup] db'] eqn:Hc; simpl in Hinv'.
    destruct (coalesce_current _ _ _ _ _ _ Ht Hc) as [Ht' Heq].
    case_bool_decide as Hcan; simpl; [done|].
    destruct Heq as [->| ->]; [|by destruct task].
    eapply db_inv_ensure_outbox; [done| |done|congruence|by rewrite Hq].
    by rewrite (coalesce_outbox_ids _ _ _ _ _ _ Hc).
  - eapply db_inv_ensure_outbox; [done..|congruence|by rewrite Hq].
Qed.

Lemma db_inv_enqueue fk_ok e payload row_id now db x db' :
  db_inv db → row_id ∉ (ob_id <$> outbox db) →
  enqueue_with_dispatch fk_ok e payload row_id now db = Ok (x, db') → db_inv db'.
Proof.
  intros Hinv Hid. unfold enqueue_with_dispatch. intros H.
  destruct (tasks db !! te_task_id e) as [r|] eqn:E.
  - pose proof (di_keys _ Hinv _ _ E) as Hkey.
    case_bool_decide as Hp; [|case_bool_decide as Hq]; injection H as H;
      [apply (f_equal snd) in H; simpl in H; subst db'..|by simplify_eq].
    + assert (tr_task_id (set_updated_at now (set_status QUEUED r)) = te_task_id e) as Hk'
        by (by destruct r).
      apply db_inv_enqueue_queued; [|done|done| |by destruct r].
      * eapply db_inv_put; [done..|by constructor|]. by rewrite Hp.
      * unfold db_put; simpl. by rewrite lookup_insert_eq.
    + by apply db_inv_enqueue_queued; rewrite ?Hkey.
  - case_match; [|done]. injection H as H. apply (f_equal snd) in H; simpl in H; subst db'.
    apply db_inv_enqueue_queued; [|done|done| |done].
    + apply db_inv_insert; [done..|set_solver].
    + unfold db_put; simpl. by rewrite lookup_insert_eq.
Qed.

Lemma db_inv_claim tid w now db : db_inv db → db_inv (claim tid w now db).2.
Proof.
  intros Hinv. unfold claim. destruct (tasks db !! tid) as [r|] eqn:E; simpl; [|done].
  case_bool_decide; simpl; [|done]. eapply db_inv_put; [done..|by constructor|]. by destruct r.
Qed.

Lemma db_inv_mark_running tid w now db : db_inv db → db_inv (mark_running tid w now db).2.
Proof.
  intros Hinv. unfold mark_running. destruct (tasks db !! tid) as [r|] eqn:E; simpl; [|done].
  repeat case_bool_decide; simpl; try done. eapply db_inv_put; [done..|by constructor|]. by destruct r.
Qed.

Lemma db_inv_put_unqueued db r r' id :
  db_inv db → tasks db !! id = Some r → row_step r r' → tr_status r ≠ QUEUED → db_inv (db_put r' db).
Proof. intros Hinv Hr Hs Hq. by eapply db_inv_put. Qed.

Lemma db_inv_finalize tid w st message reason now db x db' :
  db_inv db → finalize tid w st message reason now db = Ok (x, db') → db_inv db'.
Proof.
  intros Hinv [[-> ->]|(r & r' & -> & -> & Hr & _ & Hsrc & Hs & _)]%finalize_cases; [done|].
  eapply db_inv_put_unqueued; [done..|]. apply finalize_source_ok_true in Hsrc.
  intros Hq. rewrite Hq in Hsrc. destruct Hsrc as [H|[H _]]; [set_solver|done].
Qed.

Lemma db_inv_reconcile tid reason message now db :
  db_inv db → db_inv (finalize_reconciled tid reason message now db).2.
Proof.
  intros Hinv. destruct (finalize_reconciled _ _ _ _ _) as [o db'] eqn:E. simpl.
  apply finalize_reconciled_cases in E as [[-> ->]|(r & r' & _ & -> & Hr & Hst & Hs & _)]; [done|].
  eapply db_inv_put_unqueued; [done..|]. intros Hq. rewrite Hq in Hst. set_solver.
Qed.

Lemma db_inv_fail_pending tid reason message now db :
  reason ∈ [None; Some (reason_value NESTED_WAIT_CAPACITY_LOST)] →
  db_inv db → db_inv (fail_pending tid reason message now db).2.
Proof.
  intros Hin Hinv. destruct (fail_pending _ _ _ _ _) as [o db'] eqn:E. simpl.
  apply fail_pending_cases in E as [->|(r & r' & _ & -> & Hr & Hst & Hs & _)]; [done| |done].
  eapply db_inv_put_unqueued; [done..|]. by rewrite Hst.
Qed.

Lemma db_inv_request_stop tid reason hard now db :
  db_inv db → db_inv (request_stop tid reason hard now db).2.
Proof.
  intros Hinv. pose proof (request_stop_evolves tid reason hard now db) as He.
  unfold request_stop in *. destruct (tasks db !! tid) as [r|] eqn:E; simpl in *; [|done].
  case_bool_decide as Ht; simpl in *; [done|]. case_bool_decide as Hp; simpl in *.
  - eapply (db_inv_update _ _ (cancel_unpublished [tid]));
      [done|done|apply outbox_update_cancel|done|].
    intros o r1 r2 _ Hpend H1 H2 Hq; simpl in H2.
    assert (ob_task_id o ≠ tid) as Hne.
    { intros Heq. by rewrite cancel_unpublished_dead in Hpend by (rewrite Heq; set_solver). }
    rewrite lookup_insert_ne in H2; [rewrite H1 in H2; injection H2 as <-; by rewrite Hq|].
    pose proof (di_keys _ Hinv _ _ E). destruct r; simpl in *. set_solver.
  - eapply db_inv_put_unqueued; [done..| |].
    + apply rs_request. destruct (tr_status r); set_solver.
    + intros Hq. rewrite Hq in Hp. set_solver.
Qed.

Lemma db_inv_outbox_only db db' g :
  db_inv db → tasks db' = tasks db → outbox_update g → outbox db' = g <$> outbox db → db_inv db'.
Proof.
  intros Hinv Ht Hg Ho. eapply (db_inv_update _ _ g); [done|by apply db_evolves_tasks_eq|done..|].
  intros o r r' _ _ Hr Hr' Hq. rewrite Ht, Hr in Hr'. injection Hr' as <-. by rewrite Hq.
Qed.

Lemma db_inv_published did now db : db_inv db → db_inv (mark_dispatch_published did now db).
Proof.
  intros Hinv. eapply db_inv_outbox_only; [done|done| |done].
  intros o; simpl. case_match; [|done]. by split_and!.
Qed.

Lemma db_inv_dispatch_failure did error db : db_inv db → db_inv (record_dispatch_failure did error db).
Proof.
  intros Hinv. eapply db_inv_outbox_only; [done|done| |done].
  intros o; simpl. case_match; [|done]. by split_and!.
Qed.

Lemma db_inv_create fk_ok e now db x db' :
  db_inv db → create_pending fk_ok e now db = Ok (x, db') → db_inv db'.
Proof.
  intros Hinv. unfold create_pending. destruct (tasks db !! te_task_id e) as [r|] eqn:E.
  - by intros [= <- <-].
  - case_match; intros; simplify_eq. apply db_inv_insert; [done..|set_solver].
Qed.

Lemma db_inv_initial : db_inv initial_db.
Proof.
  split; [apply initial_keys_ok|apply initial_rows_ok|].
  split; simpl; [apply NoDup_nil_2..|]. by intros o ?%elem_of_nil.
Qed.

Lemma db_inv_step fk_ok db db' : db_inv db → task_step fk_ok db db' → db_inv db'.
Proof.
  intros Hinv. destruct 1; eauto using db_inv_create, db_inv_enqueue, db_inv_claim,
    db_inv_mark_running, db_inv_finalize, db_inv_reconcile, db_inv_fail_pending,
    db_inv_request_stop, db_inv_published, db_inv_dispatch_failure.
Qed.

Lemma db_inv_steps fk_ok db db' : rtc (task_step fk_ok) db db' → db_inv db → db_inv db'.
Proof. induction 1; eauto using db_inv_step. Qed.

Lemma reachable_inv fk_ok db : reachable fk_ok db → db_inv db.
Proof. intros H. eapply db_inv_steps; [done|apply db_inv_initial]. Qed.

(** ** The survivor of the coalescing *)

Lemma map_to_list_task_ids db :
  keys_ok db → tr_task_id <$> (map_to_list (tasks db)).*2 = (map_to_list (tasks db)).*1.
Proof.
  intros Hk. rewrite <-list_fmap_compose. apply list_fmap_ext. intros i [id r] Hi; simpl.
  apply (Hk id). apply elem_of_map_to_list. by eapply list_elem_of_lookup_2.
Qed.

Lemma root_candidates_NoDup p db : keys_ok db → NoDup (tr_task_id <$> root_candidates p db).
Proof.
  intros Hk. unfold root_candidates. rewrite merge_sort_Permutation.
  eapply sublist_NoDup; [|apply fmap_sublist, sublist_filter].
  rewrite map_to_list_task_ids by done. apply NoDup_fst_map_to_list.
Qed.

Lemma coalesce_keeps_freshest current now db r rest :
  keys_ok db → root_candidates (tr_project_id current) db = r :: rest →
  tasks (coalesce_root_executions current now db).2 !! tr_task_id r = Some r.
Proof.
  intros Hk Hc.
  assert (r ∈ root_candidates (tr_project_id current) db) as (_ & id & Hr)%elem_of_root_candidates
    by (rewrite Hc; set_solver).
  rewrite <-(Hk _ _ Hr) in Hr.
  pose proof (root_candidates_NoDup (tr_project_id current) db Hk) as Hnd. rewrite Hc in Hnd.
  unfold coalesce_root_executions. rewrite Hc.
  destruct rest as [|r1 stale]; cbn [snd]; [done|].
  remember (r1 :: stale) as st eqn:Hst. simpl. rewrite lookup_fmap, Hr; simpl.
  rewrite bool_decide_eq_false_2; [done|]. by apply NoDup_cons in Hnd as [? _].
Qed.

(** The enqueued row is itself a candidate. *)
Lemma enqueue_point_candidate e now db t db1 :
  keys_ok db → enqueue_point e now db = Some (t, db1) → tr_source t ∈ ROOT_EXECUTION_SOURCES →
  t ∈ root_candidates (tr_project_id t) db1.
Proof.
  intros Hk Hp Hsrc. apply elem_of_root_candidates. unfold enqueue_point in Hp.
  assert (tr_status t ∈ SUPERSEDABLE_STATUSES ∧ tasks db1 !! te_task_id e = Some t) as [Hst Hin].
  { unfold SUPERSEDABLE_STATUSES. destruct (tasks db !! te_task_id e) as [t0|] eqn:E;
      [case_bool_decide; [|case_bool_decide; [|done]]|]; injection Hp as <- <-.
    - split; [destruct t0; set_solver|]. pose proof (Hk _ _ E) as <-.
      unfold db_put; simpl. destruct t0; simpl. by rewrite lookup_insert_eq.
    - split; [set_solver|done].
    - split; [set_solver|]. unfold db_put; simpl. by rewrite lookup_insert_eq. }
  split; [by apply root_candidate_true|eauto].
Qed.

End Lifecycle.

(** ** Properties of the task lifecycle *)

Section Properties.
Context {coll : Collation}.
Context (fk_ok : TaskRecord → bool).

(** C1. The claim is the deduplication gate: once a worker's claim of a task is committed,
    no sequence of transactions ever lets another claim of that task succeed, and the task
    stays assigned to that worker. *)
Theorem claim_is_exclusive db db1 db2 tid w now w' now' :
  keys_ok db → claim tid w now db = (true, db1) → rtc (task_step fk_ok) db1 db2 →
  (claim tid w' now' db2).1 = false ∧
  ∃ r, tasks db2 !! tid = Some r ∧ tr_assigned_worker_id r = Some w.
Proof.
  intros Hk Hc Hsteps. unfold claim in Hc.
  destruct (tasks db !! tid) as [r|] eqn:E; [|done]. case_bool_decide; [|done].
  injection Hc as <-. pose proof (Hk _ _ E) as Hid.
  set (r1 := set_updated_at now _) in *.
  assert (tr_status r1 = STARTED ∧ tr_assigned_worker_id r1 = Some w ∧ tr_task_id r1 = tid)
    as (Hs1 & Hw1 & Hid1) by (subst r1; by destruct r).
  destruct (task_steps_evolve fk_ok _ _ Hsteps) as [_ Hrow]; [by apply db_put_keys|].
  specialize (Hrow tid). unfold db_put in Hrow; simpl in Hrow. rewrite Hid1, lookup_insert_eq in Hrow.
  destruct (tasks db2 !! tid) as [r2|] eqn:E2; simpl in Hrow; [|done].
  assert (2 ≤ status_rank (tr_status r1))%nat as Hrank by (rewrite Hs1; simpl; lia).
  split; [|by eauto using rtc_row_step_worker].
  unfold claim. rewrite E2, bool_decide_eq_false_2; [done|].
  apply rank_not_claimable. pose proof (rtc_row_step_rank _ _ Hrow). lia.
Qed.

(** C5. A stop request wins over completion: once CANCEL_REQUESTED is committed, the task can
    only stay so or end as CANCELLED or ERROR, never as SUCCESS. *)
Theorem cancel_requested_never_succeeds db db' id r :
  keys_ok db → tasks db !! id = Some r → tr_status r = CANCEL_REQUESTED →
  rtc (task_step fk_ok) db db' →
  ∃ r', tasks db' !! id = Some r' ∧ tr_status r' ∈ [CANCEL_REQUESTED; ERROR; CANCELLED].
Proof.
  intros Hk Hr Hst Hsteps. destruct (task_steps_evolve fk_ok _ _ Hsteps Hk) as [_ Hrow].
  specialize (Hrow id). rewrite Hr in Hrow. destruct (tasks db' !! id) as [r'|]; simpl in Hrow; [|done].
  exists r'. split; [done|]. clear Hr Hk Hsteps.
  assert (tr_status r ∈ [CANCEL_REQUESTED; ERROR; CANCELLED]) as Hin by (rewrite Hst; set_solver).
  clear Hst. induction Hrow as [|r1 r2 r3 H%row_step_lifecycle _ IH]; [done|]. apply IH.
  revert H Hin. generalize (tr_status r1), (tr_status r2). intros s t; destruct 1;
    unfold SUPERSEDABLE_STATUSES, CLAIMABLE_STATUSES, WORKER_OWNED_ACTIVE_STATUSES in *; set_solver.
Qed.

(** Every row of a reachable database satisfies the lifecycle invariant: it is finished
    exactly when it is terminal, an active row has an owner and a start time, only a requested
    stop or a terminal row carries a reason, ASSIGNED is never produced, and the terminal status
    is the one its reason prescribes. *)
Theorem reachable_rows_satisfy_invariant db id r :
  reachable fk_ok db → tasks db !! id = Some r → tr_task_id r = id ∧ row_ok r.
Proof.
  intros [Hk Hrows _]%reachable_inv Hr. split; [by apply Hk|by eapply Hrows].
Qed.

(** C25. An accepted root enqueue leaves exactly one PENDING or QUEUED root execution in the
    project, the freshest by queueing time and then task id. *)
Theorem enqueue_keeps_only_freshest_root e payload row_id now db x db' t db1 :
  keys_ok db → enqueue_with_dispatch fk_ok e payload row_id now db = Ok (x, db') →
  te_source e ∈ ROOT_EXECUTION_SOURCES → enqueue_point e now db = Some (t, db1) →
  tr_source t ∈ ROOT_EXECUTION_SOURCES →
  ∃ r, tasks db' !! tr_task_id r = Some r ∧ root_candidate (tr_project_id t) r = true ∧
    (∀ id' r', tasks db' !! id' = Some r' → root_candidate (tr_project_id t) r' = true → r' = r) ∧
    (∀ id0 r0, tasks db1 !! id0 = Some r0 → root_candidate (tr_project_id t) r0 = true →
       (tr_queued_at r0 < tr_queued_at r ∨
        tr_queued_at r0 = tr_queued_at r ∧ coll_le (tr_task_id r0) (tr_task_id r))%Z).
Proof.
  intros Hk He Hsrc Hp Htsrc. pose proof (enqueue_point_keys _ _ _ _ _ Hk Hp) as Hk1.
  rewrite (enqueue_root_coalesces fk_ok _ _ _ _ _ _ _ _ _ He Hsrc Hp).
  destruct (root_candidates (tr_project_id t) db1) as [|r rest] eqn:Hc.
  - assert (t ∈ root_candidates (tr_project_id t) db1) as Hin; [|by rewrite Hc, elem_of_nil in Hin].
    by apply (enqueue_point_candidate _ _ _ _ _ Hk Hp).
  - exists r. split_and!.
    + by eapply coalesce_keeps_freshest.
    + assert (r ∈ root_candidates (tr_project_id t) db1) as Hin by (rewrite Hc; set_solver).
      by apply elem_of_root_candidates in Hin as [? _].
    + intros id' r' Hr' Hc'. destruct (coalesce_survivor _ _ _ _ _ Hk1 Hr' Hc') as [? E]. congruence.
    + intros id0 r0 Hr0 Hc0. apply fresher_first_iff.
      assert (r0 ∈ root_candidates (tr_project_id t) db1) as Hin
        by (apply elem_of_root_candidates; eauto).
      rewrite Hc in Hin. apply elem_of_cons in Hin as [->|Hin].
      * unfold fresher_first. reflexivity.
      * unfold root_candidates in Hc. by eapply (merge_sort_head fresher_first).
Qed.

(** C24. The dispatch publisher never sees a dead execution: a pending dispatch of a reachable
    database belongs to an existing, enqueued task, and that task was not cancelled or failed
    before a worker claimed it; a task has at most one dispatch row. *)
Theorem pending_dispatches_are_live db limit d :
  reachable fk_ok db → d ∈ pending_dispatches limit db →
  NoDup (ob_task_id <$> outbox db) ∧
  ∃ r, tasks db !! di_task_id d = Some r ∧ tr_status r ≠ PENDING ∧
       (terminal (tr_status r) = true → tr_assigned_worker_id r ≠ None).
Proof.
  intros [_ _ [Hnd _ Hrows]]%reachable_inv (o & -> & Hin)%list_elem_of_fmap. split; [done|].
  apply elem_of_take in Hin as (i & Hi & _). apply list_elem_of_lookup_2 in Hi.
  rewrite merge_sort_elem, list_elem_of_filter in Hi. destruct Hi as [Hp Ho].
  destruct (Hrows o Ho) as (r & Hr & Hst & Hdead). exists r. auto.
Qed.

End Properties.

(** ** A concrete run *)

Module LifecycleRun.
#[local] Existing Instance C_collation.

Definition all_fk (r : TaskRecord) : bool := true.

Definition execution (id : string) (queued_at : Z) : TaskExecution :=
  mkTaskExecution id "user" "org" "project" FULL UI PENDING false queued_at
    None None None None None None.

Definition ok_db {A} (m : outcome task_error (A * TaskDB)) (db : TaskDB) : TaskDB :=
  match m with Ok (_, db') => db' | Raise _ => db end.

(** Enqueue ["a"], claim it, start it, ask it to stop, then enqueue ["b"] and ["c"]. *)
Definition enqueued : TaskDB :=
  ok_db (enqueue_with_dispatch all_fk (execution "a" 10) "{}" "o1" 100 initial_db) initial_db.
Definition claimed : TaskDB := (claim "a" "w1" 200 enqueued).2.
Definition running : TaskDB := (mark_running "a" "w1" 250 claimed).2.
Definition stopping : TaskDB := (request_stop "a" (reason_value USER_STOP) false 300 running).2.
Definition stopped : TaskDB := (finalize_reconciled "a" (reason_value USER_STOP) None 400 stopping).2.
Definition queued_b : TaskDB :=
  ok_db (enqueue_with_dispatch all_fk (execution "b" 20) "{}" "o2" 500 stopped) stopped.
Definition queued_c : TaskDB :=
  ok_db (enqueue_with_dispatch all_fk (execution "c" 30) "{}" "o3" 600 queued_b) queued_b.

Lemma step_enqueued : task_step all_fk initial_db enqueued.
Proof. eapply (ts_enqueue _ _ (execution "a" 10) "{}" "o1" 100); [set_solver|by vm_compute]. Qed.

Lemma step_claimed : task_step all_fk enqueued claimed.
Proof. apply (ts_claim _ _ "a" "w1" 200). Qed.

Lemma step_running : task_step all_fk claimed running.
Proof. apply (ts_run _ _ "a" "w1" 250). Qed.

Lemma step_stopping : task_step all_fk running stopping.
Proof. apply (ts_stop _ _ "a" (reason_value USER_STOP) false 300). Qed.

Lemma step_stopped : task_step all_fk stopping stopped.
Proof.
  apply (ts_reconcile _ _ "a" (reason_value USER_STOP) None 400). by_decide.
Qed.

Lemma step_queued_b : task_step all_fk stopped queued_b.
Proof.
  eapply (ts_enqueue _ _ (execution "b" 20) "{}" "o2" 500); [|by vm_compute].
  by_decide.
Qed.

Lemma reach_enqueued : reachable all_fk enqueued.
Proof. apply rtc_once, step_enqueued. Qed.

Lemma reach_claimed : reachable all_fk claimed.
Proof. eapply rtc_r; [apply reach_enqueued|apply step_claimed]. Qed.

Lemma reach_stopping : reachable all_fk stopping.
Proof.
  eapply rtc_r; [eapply rtc_r; [apply reach_claimed|apply step_running]|apply step_stopping].
Qed.

Lemma reach_queued_b : reachable all_fk queued_b.
Proof.
  eapply rtc_r; [eapply rtc_r; [apply reach_stopping|apply step_stopped]|apply step_queued_b].
Qed.

Lemma claim_is_exclusive_witness :
  (claim "a" "w2" 260 running).1 = false ∧
  ∃ r, tasks running !! "a" = Some r ∧ tr_assigned_worker_id r = Some "w1".
Proof.
  apply (claim_is_exclusive all_fk enqueued claimed running "a" "w1" 200).
  - exact (reachable_keys_ok _ _ reach_enqueued).
  - by vm_compute.
  - apply rtc_once, step_running.
Defined.

Lemma cancel_requested_never_succeeds_witness :
  ∃ r', tasks stopped !! "a" = Some r' ∧ tr_status r' ∈ [CANCEL_REQUESTED; ERROR; CANCELLED].
Proof.
  destruct (tasks stopping !! "a") as [r|] eqn:E; [|by vm_compute in E].
  apply (cancel_requested_never_succeeds all_fk stopping stopped "a" r).
  - exact (reachable_keys_ok _ _ reach_stopping).
  - done.
  - assert (tr_status <$> tasks stopping !! "a" = Some CANCEL_REQUESTED) as H by (by vm_compute).
    rewrite E in H. by injection H.
  - apply rtc_once, step_stopped.
Defined.

Lemma reachable_rows_satisfy_invariant_witness :
  ∃ r, tasks stopping !! "a" = Some r ∧ tr_task_id r = "a" ∧ row_ok r.
Proof.
  destruct (tasks stopping !! "a") as [r|] eqn:E; [|by vm_compute in E].
  exists r. split; [done|].
  apply (reachable_rows_satisfy_invariant all_fk stopping "a" r reach_stopping E).
Defined.

Lemma enqueue_keeps_only_freshest_root_witness :
  ∃ r, tasks queued_c !! tr_task_id r = Some r ∧ root_candidate "project" r = true ∧
    (∀ id' r', tasks queued_c !! id' = Some r' → root_candidate "project" r' = true → r' = r) ∧
    (∀ id0 r0, tasks (db_put (new_task_record (execution "c" 30) QUEUED 600) queued_b) !! id0 = Some r0 →
       root_candidate "project" r0 = true →
       (tr_queued_at r0 < tr_queued_at r ∨
        tr_queued_at r0 = tr_queued_at r ∧ coll_le (tr_task_id r0) (tr_task_id r))%Z).
Proof.
  destruct (enqueue_with_dispatch all_fk (execution "c" 30) "{}" "o3" 600 queued_b)
    as [[x db']|] eqn:E; [|by vm_compute in E].
  replace queued_c with db' by (unfold queued_c; by rewrite E).
  apply (enqueue_keeps_only_freshest_root all_fk (execution "c" 30) "{}" "o3" 600 queued_b x db'
           (new_task_record (execution "c" 30) QUEUED 600)).
  - exact (reachable_keys_ok _ _ reach_queued_b).
  - done.
  - by_decide.
  - unfold enqueue_point.
    assert (tasks queued_b !! te_task_id (execution "c" 30) = None) as -> by (by vm_compute). done.
  - by_decide.
Defined.

Lemma pending_dispatches_are_live_witness :
  ∃ d, d ∈ pending_dispatches 10 queued_b ∧ NoDup (ob_task_id <$> outbox queued_b) ∧
  ∃ r, tasks queued_b !! di_task_id d = Some r ∧ tr_status r ≠ PENDING ∧
       (terminal (tr_status r) = true → tr_assigned_worker_id r ≠ None).
Proof.
  destruct (pending_dispatches 10 queued_b) as [|d l] eqn:E; [by vm_compute in E|].
  exists d. split; [set_solver|].
  apply (pending_dispatches_are_live all_fk queued_b 10 d); [apply reach_queued_b|].
  rewrite E. set_solver.
Defined.

End LifecycleRun.
