(* ===== verification/TaskSpec.v ===== *)
(** * Task execution: what each method may do

    Two specifications of the table of tasks. [moves] is the contract of the repository, method by
    method: which rows a call may change, from which statuses and owners to which, and when it must.
    [table_step] adds the transactions of other modules on the same table, the deletion of rows with
    their project or user and the loss of the link to a deleted schedule run; a finished task is
    final under all of them. *)
From S2P Require Import Prelude TaskTypes TaskStore TaskLifecycle.

(** ** The contract of the repository *)

(** The methods that write, with their arguments. *)
Inductive call :=
  | CreatePending (e : TaskExecution)
  | Enqueue (e : TaskExecution) (payload row_id : string)
  | Claim (task_id worker_id : string)
  | MarkRunning (task_id worker_id : string)
  | Finalize (task_id worker_id : string) (status : TaskExecutionStatus) (message reason : option string)
  | FinalizeReconciled (task_id reason : string) (message : option string)
  | FailPending (task_id : string) (reason message : option string)
  | RequestStop (task_id reason : string) (hard : bool)
  | DispatchPublished (dispatch_id : string)
  | DispatchFailed (dispatch_id error : string).

(** The row a call is about. *)
Definition target (c : call) : option string :=
  match c with
  | CreatePending e | Enqueue e _ _ => Some (te_task_id e)
  | Claim id _ | MarkRunning id _ | Finalize id _ _ _ _ | FinalizeReconciled id _ _
  | FailPending id _ _ | RequestStop id _ _ => Some id
  | DispatchPublished _ | DispatchFailed _ _ => None
  end.

(** What the contract sees of a row. *)
Record row_view := mkView { v_status : TaskExecutionStatus; v_owner : option string; v_source : TaskSource }.

Definition view (r : TaskRecord) : row_view := mkView (tr_status r) (tr_assigned_worker_id r) (tr_source r).

(** How a call may change a row: before and after. *)
Inductive moves : call → string → option row_view → row_view → Prop :=
  | mv_create e :
      moves (CreatePending e) (te_task_id e) None (mkView PENDING None (te_source e))
  | mv_enqueue_new e payload row_id :
      moves (Enqueue e payload row_id) (te_task_id e) None (mkView QUEUED None (te_source e))
  | mv_enqueue_stale e payload row_id :
      te_source e ∈ [UI; API; SCHEDULER; MCP] →
      moves (Enqueue e payload row_id) (te_task_id e) None (mkView CANCELLED None (te_source e))
  | mv_enqueue_pending e payload row_id w s :
      moves (Enqueue e payload row_id) (te_task_id e) (Some (mkView PENDING w s)) (mkView QUEUED w s)
  | mv_supersede e payload row_id id old w s :
      te_source e ∈ [UI; API; SCHEDULER; MCP] → s ∈ [UI; API; SCHEDULER; MCP] → old ∈ [PENDING; QUEUED] →
      moves (Enqueue e payload row_id) id (Some (mkView old w s)) (mkView CANCELLED w s)
  | mv_claim id worker w s :
      moves (Claim id worker) id (Some (mkView QUEUED w s)) (mkView STARTED (Some worker) s)
  | mv_run id worker s :
      moves (MarkRunning id worker) id (Some (mkView STARTED (Some worker) s)) (mkView RUNNING (Some worker) s)
  | mv_finish id worker status message reason old s :
      old ∈ [STARTED; RUNNING] → status ∈ [SUCCESS; ERROR; CANCELLED] →
      moves (Finalize id worker status message reason) id (Some (mkView old (Some worker) s)) (mkView status (Some worker) s)
  | mv_finish_stopped id worker status message reason s :
      status ∈ [ERROR; CANCELLED] →
      moves (Finalize id worker status message reason) id
        (Some (mkView CANCEL_REQUESTED (Some worker) s)) (mkView status (Some worker) s)
  | mv_reconcile id reason message status w s :
      status ∈ [ERROR; CANCELLED] →
      moves (FinalizeReconciled id reason message) id (Some (mkView CANCEL_REQUESTED w s)) (mkView status w s)
  | mv_lost id message old w s :
      old ∈ [STARTED; RUNNING] →
      moves (FinalizeReconciled id "WORKER_LOST" message) id (Some (mkView old w s)) (mkView ERROR w s)
  | mv_fail_pending id reason message w s :
      moves (FailPending id reason message) id (Some (mkView PENDING w s)) (mkView ERROR w s)
  | mv_cancel id reason hard old w s :
      old ∈ [PENDING; QUEUED] →
      moves (RequestStop id reason hard) id (Some (mkView old w s)) (mkView CANCELLED w s)
  | mv_stop id reason hard old w s :
      old ∈ [STARTED; RUNNING; CANCEL_REQUESTED] →
      moves (RequestStop id reason hard) id (Some (mkView old w s)) (mkView CANCEL_REQUESTED w s).

(** When a call has to change its row. *)
Definition owed (c : call) (o : option row_view) : Prop :=
  match c, o with
  | (CreatePending _ | Enqueue _ _ _), None => True
  | Enqueue _ _ _, Some v => v_status v = PENDING
  | Claim _ _, Some v => v_status v = QUEUED
  | MarkRunning _ worker, Some v => v_status v = STARTED ∧ v_owner v = Some worker
  | Finalize _ worker status _ reason, Some v =>
      v_status v ∈ [STARTED; RUNNING] ∧ v_owner v = Some worker ∧ (status = SUCCESS ∨ reason = None)
  | FinalizeReconciled _ reason _, Some v =>
      v_status v = CANCEL_REQUESTED ∨ v_status v ∈ [STARTED; RUNNING] ∧ reason = "WORKER_LOST"
  | FailPending _ _ _, Some v => v_status v = PENDING
  | RequestStop _ _ _, Some v => v_status v ∉ [SUCCESS; ERROR; CANCELLED]
  | _, _ => False
  end.

(** The calls whose answer says whether they changed their row. *)
Definition answers_change (c : call) : bool :=
  match c with
  | Claim _ _ | MarkRunning _ _ | Finalize _ _ _ _ _ | FinalizeReconciled _ _ _ => true
  | _ => false
  end.

(** ** The calls are the transactions of [task_step] *)

Section Spec.
Context {coll : Collation} (fk_ok : TaskRecord → bool).

(** The answer, as far as it is a yes or no, and the committed state; [None] when the call raises. *)
Definition perform (c : call) (now : Z) (db : TaskDB) : option (bool * TaskDB) :=
  match c with
  | CreatePending e => match create_pending fk_ok e now db with Ok (_, db') => Some (true, db') | Raise _ => None end
  | Enqueue e payload row_id =>
      match enqueue_with_dispatch fk_ok e payload row_id now db with Ok (_, db') => Some (true, db') | Raise _ => None end
  | Claim id worker => Some (claim id worker now db)
  | MarkRunning id worker => Some (mark_running id worker now db)
  | Finalize id worker status message reason =>
      match finalize id worker status message reason now db with Ok res => Some res | Raise _ => None end
  | FinalizeReconciled id reason message =>
      let '(o, db') := finalize_reconciled id reason message now db in Some (bool_decide (is_Some o), db')
  | FailPending id reason message =>
      let '(o, db') := fail_pending id reason message now db in Some (bool_decide (is_Some o), db')
  | RequestStop id reason hard =>
      let '(o, db') := request_stop id reason hard now db in Some (bool_decide (is_Some o), db')
  | DispatchPublished id => Some (true, mark_dispatch_published id now db)
  | DispatchFailed id error => Some (true, record_dispatch_failure id error db)
  end.

(** The arguments the use cases pass on: the reasons of the two system transitions, and a new key for a
    dispatch. *)
Definition admissible (c : call) (db : TaskDB) : Prop :=
  match c with
  | Enqueue _ _ row_id => row_id ∉ (ob_id <$> outbox db)
  | FinalizeReconciled _ reason _ => reason ∈ RECONCILIATION_TERMINATION_REASONS
  | FailPending _ reason _ => reason ∈ [None; Some (reason_value NESTED_WAIT_CAPACITY_LOST)]
  | _ => True
  end.

Lemma perform_is_step c now db answer db' :
  admissible c db → perform c now db = Some (answer, db') → task_step fk_ok db db'.
Proof.
  destruct c; cbn [perform admissible]; intros Ha Hp.
  - destruct (create_pending _ _ _ _) as [[x ?]|] eqn:E; simplify_eq. by eapply ts_create.
  - destruct (enqueue_with_dispatch _ _ _ _ _ _) as [[x ?]|] eqn:E; simplify_eq. by eapply ts_enqueue.
  - injection Hp as Hp. pose proof (ts_claim fk_ok db task_id worker_id now) as H. by rewrite Hp in H.
  - injection Hp as Hp. pose proof (ts_run fk_ok db task_id worker_id now) as H. by rewrite Hp in H.
  - destruct (finalize _ _ _ _ _ _ _) as [[x ?]|] eqn:E; simplify_eq. by eapply ts_finalize.
  - pose proof (ts_reconcile fk_ok db task_id reason message now Ha) as H. destruct (finalize_reconciled _ _ _ _ _) as [o ?]. by injection Hp as <- <-.
  - pose proof (ts_fail_pending fk_ok db task_id reason message now Ha) as H. destruct (fail_pending _ _ _ _ _) as [o ?]. by injection Hp as <- <-.
  - pose proof (ts_stop fk_ok db task_id reason hard now) as H. destruct (request_stop _ _ _ _ _) as [o ?]. by injection Hp as <- <-.
  - injection Hp as <- <-. apply ts_published.
  - injection Hp as <- <-. apply ts_dispatch_failure.
Qed.

Lemma step_is_performed db db' :
  task_step fk_ok db db' → ∃ c now answer, admissible c db ∧ perform c now db = Some (answer, db').
Proof.
  destruct 1 as [e now x db' H|e payload row_id now x db' Hid H|tid w now|tid w now|tid w st message reason now x db' H
    |tid reason message now H|tid reason message now H|tid reason hard now|did now|did error].
  - exists (CreatePending e), now, true. cbn. by rewrite H.
  - exists (Enqueue e payload row_id), now, true. cbn. by rewrite H.
  - exists (Claim tid w), now, (claim tid w now db).1. cbn. by destruct (claim _ _ _ _).
  - exists (MarkRunning tid w), now, (mark_running tid w now db).1. cbn. by destruct (mark_running _ _ _ _).
  - exists (Finalize tid w st message reason), now, x. cbn. by rewrite H.
  - exists (FinalizeReconciled tid reason message), now. cbn. destruct (finalize_reconciled _ _ _ _ _). eauto.
  - exists (FailPending tid reason message), now. cbn. destruct (fail_pending _ _ _ _ _). eauto.
  - exists (RequestStop tid reason hard), now. cbn. destruct (request_stop _ _ _ _ _). eauto.
  - by exists (DispatchPublished did), now, true.
  - by exists (DispatchFailed did error), 0%Z, true.
Qed.

(** ** The repository keeps the contract *)

(** What the contract asks of one row. *)
Definition obeys (c : call) (id : string) (o o' : option TaskRecord) : Prop :=
  (o' = o ∧ (target c = Some id → ¬ owed c (view <$> o))) ∨ ∃ r', o' = Some r' ∧ moves c id (view <$> o) (view r').

Lemma obeys_same c id o : (target c = Some id → ¬ owed c (view <$> o)) → obeys c id o o.
Proof. by left. Qed.

(** What it asks of a call: every row obeys, and a yes or no tells whether the row changed. *)
Definition fulfils (c : call) (answer : bool) (db db' : TaskDB) : Prop :=
  (∀ id, obeys c id (tasks db !! id) (tasks db' !! id)) ∧
  (answers_change c = true →
     if answer then ∃ tid r', target c = Some tid ∧ tasks db' !! tid = Some r' ∧ moves c tid (view <$> tasks db !! tid) (view r')
     else db' = db).

(** A call that leaves the table alone, where its row need not change. *)
Lemma fulfils_none c answer db db' tid :
  tasks db' = tasks db → target c = Some tid → ¬ owed c (view <$> tasks db !! tid) →
  (answers_change c = true → answer = false ∧ db' = db) → fulfils c answer db db'.
Proof.
  intros E Ht Ho Ha. split.
  - intros id. rewrite E. apply obeys_same. rewrite Ht. by intros [= <-].
  - intros [-> ->]%Ha. done.
Qed.

(** A call that rewrites its row. *)
Lemma fulfils_put c answer db db' tid r' :
  tasks db' = <[tid := r']> (tasks db) → target c = Some tid → moves c tid (view <$> tasks db !! tid) (view r') →
  (answers_change c = true → answer = true) → fulfils c answer db db'.
Proof.
  intros E Ht Hm Ha. split.
  - intros id. rewrite E, lookup_insert. case_decide as Eid; [subst; right; eauto|].
    apply obeys_same. rewrite Ht. by intros [= ->].
  - intros ->%Ha. exists tid, r'. rewrite E, lookup_insert_eq. done.
Qed.

(** The columns of the view after an update. *)
Lemma row_step_source r r' : row_step r r' → tr_source r' = tr_source r.
Proof. destruct r; destruct 1; unfold supersede, with_reason, with_message; simpl; repeat case_match; done. Qed.

(** Only a claim sets the owner. *)
Lemma row_step_owner r r' : row_step r r' → tr_status r ∉ CLAIMABLE_STATUSES → tr_assigned_worker_id r' = tr_assigned_worker_id r.
Proof. destruct r; destruct 1; unfold supersede, with_reason, with_message; simpl in *; intros Hn; repeat case_match; done. Qed.

Lemma tasks_put r r' db tid :
  keys_ok db → tasks db !! tid = Some r → tr_task_id r' = tr_task_id r → tasks (db_put r' db) = <[tid := r']> (tasks db).
Proof. intros Hk Hr Hid. unfold db_put; simpl. by rewrite Hid, (Hk _ _ Hr). Qed.

Lemma view_eq r s w src :
  tr_status r = s → tr_assigned_worker_id r = w → tr_source r = src → view r = mkView s w src.
Proof. by intros <- <- <-. Qed.

(** A call on a row that does not exist. *)
Lemma fulfils_missing c db tid :
  tasks db !! tid = None → target c = Some tid → ¬ owed c None → answers_change c = true → fulfils c false db db.
Proof. intros E Ht Ho _. apply (fulfils_none _ _ _ _ tid); [done|done|by rewrite E|done]. Qed.

Lemma claim_fulfils tid w now db answer db' :
  db_inv db → claim tid w now db = (answer, db') → fulfils (Claim tid w) answer db db'.
Proof.
  intros [Hk Hrows _]. unfold claim. destruct (tasks db !! tid) as [r|] eqn:E.
  2: { intros [= <- <-]. by apply (fulfils_missing _ _ tid); [| |intros []|]. }
  case_bool_decide as Hc; intros [= <- <-].
  - assert (tr_status r = QUEUED) as Hq by (pose proof (ro_not_assigned _ (Hrows _ _ E)); set_solver).
    eapply (fulfils_put _ _ _ _ tid); [eapply (tasks_put r); [done..|by destruct r]|done| |done].
    rewrite E. simpl. rewrite (view_eq r _ _ _ Hq eq_refl eq_refl). destruct r. apply mv_claim.
  - apply (fulfils_none _ _ _ _ tid); [done|done| |done]. rewrite E. simpl. intros Hq. apply Hc. rewrite Hq. set_solver.
Qed.

Lemma mark_running_fulfils tid w now db answer db' :
  db_inv db → mark_running tid w now db = (answer, db') → fulfils (MarkRunning tid w) answer db db'.
Proof.
  intros [Hk Hrows _]. unfold mark_running. destruct (tasks db !! tid) as [r|] eqn:E.
  2: { intros [= <- <-]. by apply (fulfils_missing _ _ tid); [| |intros []|]. }
  destruct (bool_decide _ && _) eqn:Hc; intros [= <- <-].
  - apply andb_true_iff in Hc as [Hs%bool_decide_eq_true Hw%bool_decide_eq_true].
    eapply (fulfils_put _ _ _ _ tid); [eapply (tasks_put r); [done..|by destruct r]|done| |done].
    rewrite E. simpl. rewrite (view_eq r _ _ _ Hs Hw eq_refl). destruct r; simpl in *; subst. apply mv_run.
  - apply (fulfils_none _ _ _ _ tid); [done|done| |done]. rewrite E. simpl. intros [Hs Hw].
    by rewrite !bool_decide_eq_true_2 in Hc.
Qed.

Lemma finalize_owed tid w st message reason now db db' :
  db_inv db → finalize tid w st message reason now db = Ok (false, db') →
  ¬ owed (Finalize tid w st message reason) (view <$> tasks db !! tid).
Proof.
  intros [Hk Hrows _] Hf. unfold finalize in Hf. case_bool_decide as Hst; simpl in Hf; [|done].
  destruct (tasks db !! tid) as [r|] eqn:E; [|by intros []]. simpl. intros (Hs & Hw & Hr).
  rewrite bool_decide_eq_true_2 in Hf by done. simpl in Hf.
  rewrite (bool_decide_eq_false_2 (tr_status r ∈ _)) in Hf by (clear -Hs; destruct (tr_status r); set_solver). simpl in Hf.
  assert (finalize_source_ok st (tr_status r) = true) as Hok.
  { unfold finalize_source_ok. destruct (bool_decide (st = SUCCESS)); apply bool_decide_eq_true; clear -Hs; destruct (tr_status r); set_solver. }
  rewrite Hok in Hf. simpl in Hf. destruct Hr as [->| ->].
  - by rewrite (bool_decide_eq_false_2 (SUCCESS ≠ SUCCESS)), andb_false_r in Hf by naive_solver.
  - rewrite (ro_no_reason _ (Hrows _ _ E)) in Hf by (clear -Hs; destruct (tr_status r); set_solver).
    by rewrite (bool_decide_eq_false_2 (None ≠ None)) in Hf by naive_solver.
Qed.

Lemma finalize_fulfils tid w st message reason now db answer db' :
  db_inv db → finalize tid w st message reason now db = Ok (answer, db') →
  fulfils (Finalize tid w st message reason) answer db db'.
Proof.
  intros Hinv Hf. destruct (finalize_cases _ _ _ _ _ _ _ _ _ Hf) as [[-> ->]|(r & r' & -> & -> & Hr & Hw & Hsrc & Hs & Hst)].
  { apply (fulfils_none _ _ _ _ tid); [done|done| |done]. by eapply finalize_owed. }
  assert (st ∈ TERMINAL_STATUSES) as Hin by (unfold finalize in Hf; by case_bool_decide).
  eapply (fulfils_put _ _ _ _ tid); [eapply (tasks_put r); [apply Hinv|done|by apply row_step_task_id]|done| |done].
  rewrite Hr. simpl. rewrite (view_eq r _ _ _ eq_refl Hw eq_refl).
  rewrite (view_eq r' st (Some w) (tr_source r)); [|done| |by apply row_step_source].
  2: { rewrite (row_step_owner _ _ Hs); [done|]. apply finalize_source_ok_true in Hsrc. unfold CLAIMABLE_STATUSES. clear -Hsrc. destruct (tr_status r); set_solver. }
  apply finalize_source_ok_true in Hsrc as [Hact|[-> Hne]]; [by apply mv_finish|].
  apply mv_finish_stopped. unfold TERMINAL_STATUSES in Hin. clear -Hin Hne. destruct st; set_solver.
Qed.

Lemma reconcile_fulfils tid reason message now db o db' :
  db_inv db → reason ∈ RECONCILIATION_TERMINATION_REASONS →
  finalize_reconciled tid reason message now db = (o, db') →
  fulfils (FinalizeReconciled tid reason message) (bool_decide (is_Some o)) db db'.
Proof.
  intros [Hk Hrows _] Hreason. unfold finalize_reconciled. destruct (tasks db !! tid) as [r|] eqn:E.
  2: { intros [= <- <-]. by apply (fulfils_missing _ _ tid); [| |intros []|]. }
  assert (∀ r', tr_task_id r' = tr_task_id r → moves (FinalizeReconciled tid reason message) tid (Some (view r)) (view r') →
    fulfils (FinalizeReconciled tid reason message) true db (db_put r' db)) as Hput.
  { intros r' Hid Hm. eapply (fulfils_put _ _ _ _ tid); [by eapply (tasks_put r)|done| |done]. by rewrite E. }
  assert (¬ owed (FinalizeReconciled tid reason message) (Some (view r)) →
    fulfils (FinalizeReconciled tid reason message) false db db) as Hno.
  { intros Ho. apply (fulfils_none _ _ _ _ tid); [done|done| |done]. by rewrite E. }
  simpl in Hno. case_bool_decide as Hterm.
  { intros [= <- <-]. apply Hno. clear -Hterm. destruct (tr_status r); set_solver. }
  destruct (decide (tr_status r ∈ [STARTED; RUNNING])) as [Hact|Hact].
  - assert (tr_termination_reason r = None) as Hr.
    { apply (ro_no_reason _ (Hrows _ _ E)). clear -Hact. destruct (tr_status r); set_solver. }
    rewrite Hr, (bool_decide_eq_true_2 _ Hact). cbn [choose_termination_reason].
    rewrite (bool_decide_eq_true_2 (tr_status r ≠ _)) by (clear -Hact; destruct (tr_status r); set_solver). simpl.
    case_bool_decide as Hl; simpl; intros [= <- <-].
    + unfold normalize_termination_request in Hl. cbn in Hl. subst reason. apply Hput; [destruct r; by case_match|].
      destruct r, message; simpl in *; by apply mv_lost.
    + apply Hno. intros [Hc|[_ ->]]; [rewrite Hc in Hact; set_solver|]. apply Hl. reflexivity.
  - assert (tr_status r ≠ CANCEL_REQUESTED ∨ tr_status r = CANCEL_REQUESTED) as [Hc|Hc] by (destruct (tr_status r); auto).
    + rewrite (bool_decide_eq_true_2 _ Hc), (bool_decide_eq_false_2 _ Hact). simpl. intros [= <- <-]. apply Hno. tauto.
    + rewrite (bool_decide_eq_false_2 (tr_status r ≠ _)) by tauto. simpl. intros [= <- <-].
      apply Hput; [destruct r; by case_match|].
      pose proof (terminal_status_terminal (Some (choose_termination_reason (tr_termination_reason r) reason false))) as Ht.
      rewrite (view_eq r _ _ _ Hc eq_refl eq_refl). destruct r, message; simpl in *; by apply mv_reconcile.
Qed.

Lemma fail_pending_fulfils tid reason message now db o db' :
  db_inv db → fail_pending tid reason message now db = (o, db') →
  fulfils (FailPending tid reason message) (bool_decide (is_Some o)) db db'.
Proof.
  intros [Hk Hrows _]. unfold fail_pending. destruct (tasks db !! tid) as [r|] eqn:E.
  2: { intros [= <- <-]. apply (fulfils_none _ _ _ _ tid); [done|done|by rewrite E; intros []|done]. }
  destruct (bool_decide (_ ≠ _) && _ && _) eqn:Hg.
  { intros [= <- <-]. apply (fulfils_none _ _ _ _ tid); [done|done| |done]. rewrite E. simpl.
    apply andb_true_iff in Hg as [[_ Hs%bool_decide_eq_true]%andb_true_iff _]. by rewrite Hs. }
  clear Hg. case_bool_decide as Hp; intros [= <- <-].
  - apply (fulfils_none _ _ _ _ tid); [done|done| |done]. by rewrite E.
  - eapply (fulfils_put _ _ _ _ tid); [eapply (tasks_put r); [done..|]|done| |done].
    + destruct r; by repeat case_match.
    + rewrite E. simpl. rewrite (view_eq r _ _ _ Hp eq_refl eq_refl). destruct r, reason, message; apply mv_fail_pending.
Qed.

Lemma request_stop_fulfils tid reason hard now db o db' :
  db_inv db → request_stop tid reason hard now db = (o, db') →
  fulfils (RequestStop tid reason hard) (bool_decide (is_Some o)) db db'.
Proof.
  intros [Hk Hrows _]. unfold request_stop. destruct (tasks db !! tid) as [r|] eqn:E.
  2: { intros [= <- <-]. apply (fulfils_none _ _ _ _ tid); [done|done|by rewrite E; intros []|done]. }
  case_bool_decide as Ht.
  { intros [= <- <-]. apply (fulfils_none _ _ _ _ tid); [done|done| |done]. rewrite E. simpl. tauto. }
  case_bool_decide as Hp; intros [= <- <-].
  - eapply (fulfils_put _ _ _ _ tid); [eapply (tasks_put r); [done..|by destruct r]|done| |done].
    rewrite E. simpl. destruct r; simpl in *. by apply mv_cancel.
  - eapply (fulfils_put _ _ _ _ tid); [eapply (tasks_put r); [done..|by destruct r]|done| |done].
    rewrite E. simpl. pose proof (ro_not_assigned _ (Hrows _ _ E)) as Ha. destruct r as [? ? ? s]; simpl in *. apply mv_stop.
    clear -Ha Ht Hp. destruct s; set_solver.
Qed.

(** A row after the second half of an enqueue: untouched, or superseded. *)
Lemma enqueue_queued_rows e payload row_id now task db id :
  keys_ok db → let db' := (enqueue_queued e payload row_id now task db).2 in
  tasks db' !! id = tasks db !! id ∨
  te_source e ∈ [UI; API; SCHEDULER; MCP] ∧ ∃ r, tasks db !! id = Some r ∧ tr_source r ∈ [UI; API; SCHEDULER; MCP] ∧
    tr_status r ∈ [PENDING; QUEUED] ∧ tasks db' !! id = Some (supersede now r).
Proof.
  intros Hk db'. subst db'. unfold enqueue_queued. case_bool_decide as Hroot; [|left; cbn [snd]; by rewrite ensure_outbox_tasks].
  assert (∀ x, tasks x = tasks (coalesce_root_executions task now db).2 → tasks x !! id = tasks db !! id ∨
    te_source e ∈ [UI; API; SCHEDULER; MCP] ∧ ∃ r, tasks db !! id = Some r ∧ tr_source r ∈ [UI; API; SCHEDULER; MCP] ∧
      tr_status r ∈ [PENDING; QUEUED] ∧ tasks x !! id = Some (supersede now r)) as Hrow.
  { intros x ->. unfold coalesce_root_executions.
    destruct (root_candidates _ _) as [|r0 [|r1 stale]] eqn:Hc; [by left..|]. remember (r1 :: stale) as st eqn:Hst. cbn.
    rewrite lookup_fmap. destruct (tasks db !! id) as [r|] eqn:E; [|by left]. cbn. case_bool_decide as Hin; [|by left].
    right. split; [done|]. pose proof (stale_row _ _ _ _ _ _ Hk Hc E Hin) as Hr.
    assert (r ∈ root_candidates (tr_project_id task) db) as (Hrc & _)%elem_of_root_candidates by (rewrite Hc; by right).
    apply root_candidate_true in Hrc as (_ & ? & ?). by exists r. }
  destruct (coalesce_root_executions task now db) as [[task' sup] db']. cbn [fst snd] in Hrow.
  case_bool_decide; apply Hrow; [done|apply ensure_outbox_tasks].
Qed.

Lemma view_superseded now r : view (supersede now r) = mkView CANCELLED (tr_assigned_worker_id r) (tr_source r).
Proof. by destruct r. Qed.

Lemma enqueue_fulfils e payload row_id now db x db' :
  db_inv db → enqueue_with_dispatch fk_ok e payload row_id now db = Ok (x, db') →
  fulfils (Enqueue e payload row_id) true db db'.
Proof.
  intros [Hk Hrows _] He. split; [|done]. intros id. unfold enqueue_with_dispatch in He.
  destruct (tasks db !! te_task_id e) as [r|] eqn:E.
  - pose proof (Hk _ _ E) as Hid. case_bool_decide as Hp; [|case_bool_decide as Hq].
    + injection He as He. apply (f_equal snd) in He as Hdb. cbn [snd] in Hdb. subst db'. clear He.
      set (r' := set_updated_at now (set_status QUEUED r)). set (db1 := db_put r' db).
      assert (tr_task_id r' = te_task_id e) as Hid' by by destruct r.
      assert (tasks db1 = <[te_task_id e := r']> (tasks db)) as E1 by (unfold db1, db_put; simpl; by rewrite Hid').
      assert (view r = mkView PENDING (tr_assigned_worker_id r) (tr_source r)) as Hv by by apply view_eq.
      destruct (enqueue_queued_rows e payload row_id now r' db1 id) as [->|(Hroot & q & Hq & Hs & Hst & ->)]; [by apply db_put_keys| |];
        [|rewrite E1 in Hq]; rewrite ?E1, lookup_insert in *; case_decide as Eid; simplify_eq.
      * right. eexists. split; [done|]. rewrite E. simpl. rewrite Hv. destruct r. apply mv_enqueue_pending.
      * apply obeys_same. by intros [= ?].
      * right. eexists. split; [done|]. rewrite E, view_superseded. simpl. rewrite Hv. destruct r; simpl in *.
        apply mv_supersede; [done|done|left].
      * right. eexists. split; [done|]. rewrite Hq, view_superseded. by apply mv_supersede.
    + injection He as He. apply (f_equal snd) in He as Hdb. cbn [snd] in Hdb. subst db'. clear He.
      destruct (enqueue_queued_rows e payload row_id now r db id) as [->|(Hroot & q & Hq' & Hs & Hst & ->)]; [done| |].
      * apply obeys_same. intros [= <-]. rewrite E. simpl. by rewrite Hq.
      * right. eexists. split; [done|]. rewrite Hq', view_superseded. by apply mv_supersede.
    + injection He as <- <-. apply obeys_same. intros [= <-]. by rewrite E.
  - case_match; [|done]. injection He as He. apply (f_equal snd) in He as Hdb. cbn [snd] in Hdb. subst db'. clear He.
    set (r' := new_task_record e QUEUED now). set (db1 := db_put r' db).
    destruct (enqueue_queued_rows e payload row_id now r' db1 id) as [->|(Hroot & q & Hq & Hs & Hst & ->)]; [by apply db_put_keys| |];
      unfold db1, db_put in *; simpl in *; rewrite lookup_insert in *; case_decide as Eid; simplify_eq.
    + right. eexists. split; [done|]. rewrite E. apply mv_enqueue_new.
    + apply obeys_same. by intros [= ?].
    + right. eexists. split; [done|]. rewrite E. by apply mv_enqueue_stale.
    + right. eexists. split; [done|]. rewrite Hq, view_superseded. by apply mv_supersede.
Qed.

Lemma create_fulfils e now db x db' :
  create_pending fk_ok e now db = Ok (x, db') → fulfils (CreatePending e) true db db'.
Proof.
  unfold create_pending. destruct (tasks db !! te_task_id e) as [r|] eqn:E.
  - intros [= <- <-]. apply (fulfils_none _ _ _ _ (te_task_id e)); [done|done|by rewrite E; intros []|done].
  - case_match; [|done]. intros [= <- <-]. eapply (fulfils_put _ _ _ _ (te_task_id e)); [done|done| |done].
    rewrite E. apply mv_create.
Qed.

(** The dispatches are no columns of the table. *)
Lemma fulfils_dispatch c db db' : target c = None → answers_change c = false → tasks db' = tasks db → fulfils c true db db'.
Proof. intros Ht Ha E. split; [|by rewrite Ha]. intros id. rewrite E. apply obeys_same. by rewrite Ht. Qed.

(** C18. Every method of the repository keeps its contract on every reachable database. A call changes
    a row only in the way [moves] allows the method: it names the row (an enqueue may also cancel
    waiting root executions), the statuses and the owner it may find there, and the status and owner
    it leaves; where the contract obliges the method to act ([owed]) the row does change; all other
    rows stay as they are, no row disappears; and a yes or no answer says whether the row changed. *)
Theorem repository_refines_lifecycle c now db answer db' :
  reachable fk_ok db → admissible c db → perform c now db = Some (answer, db') →
  reachable fk_ok db' ∧ fulfils c answer db db'.
Proof.
  intros Hreach Ha Hp. split; [eapply rtc_r; [done|by eapply perform_is_step]|].
  pose proof (reachable_inv _ _ Hreach) as Hinv. destruct c; cbn [perform admissible] in *.
  - destruct (create_pending _ _ _ _) as [[x ?]|] eqn:E; simplify_eq. by eapply create_fulfils.
  - destruct (enqueue_with_dispatch _ _ _ _ _ _) as [[x ?]|] eqn:E; simplify_eq. by eapply enqueue_fulfils.
  - injection Hp as Hp. by eapply claim_fulfils.
  - injection Hp as Hp. by eapply mark_running_fulfils.
  - destruct (finalize _ _ _ _ _ _ _) as [res|] eqn:E; [|done]. injection Hp as ->. by eapply finalize_fulfils.
  - destruct (finalize_reconciled _ _ _ _ _) as [o ?] eqn:E. injection Hp as <- <-. by eapply reconcile_fulfils.
  - destruct (fail_pending _ _ _ _ _) as [o ?] eqn:E. injection Hp as <- <-. by eapply fail_pending_fulfils.
  - destruct (request_stop _ _ _ _ _) as [o ?] eqn:E. injection Hp as <- <-. by eapply request_stop_fulfils.
  - injection Hp as <- <-. by apply fulfils_dispatch.
  - injection Hp as <- <-. by apply fulfils_dispatch.
Qed.

(** ** The table of tasks, with the transactions of other modules *)

(** The rows deleted with some projects or users. *)
Definition belongs (projects users : list string) (r : TaskRecord) : bool :=
  bool_decide (tr_project_id r ∈ projects) || bool_decide (tr_user_id r ∈ users).

(** One transaction on the table, while at most these projects, users and schedule runs are deleted. *)
Inductive table_step (projects users runs : list string) (db : TaskDB) : TaskDB → Prop :=
  | tb_repository db' : task_step fk_ok db db' → table_step projects users runs db db'
  | tb_unlink gone :
      (∀ id, gone id = true → id ∈ runs) → table_step projects users runs db (unlink_runs gone db)
  | tb_delete ps us :
      ps ⊆ projects → us ⊆ users → table_step projects users runs db (delete_tasks (belongs ps us) db).

Lemma unlink_keys gone db : keys_ok db → keys_ok (unlink_runs gone db).
Proof.
  intros Hk id r. simpl. rewrite lookup_fmap. destruct (tasks db !! id) as [x|] eqn:E; simpl; [|done].
  intros [= <-]. rewrite <-(Hk _ _ E). destruct x; simpl. by repeat case_match.
Qed.

Lemma delete_keys gone db : keys_ok db → keys_ok (delete_tasks gone db).
Proof. intros Hk id r [Hr _]%map_lookup_filter_Some. by apply Hk. Qed.

Lemma table_step_keys projects users runs db db' : table_step projects users runs db db' → keys_ok db → keys_ok db'.
Proof. destruct 1 as [db' H|gone|ps us]; [|apply unlink_keys|apply delete_keys]. by apply (task_step_evolves _ _ _ H). Qed.

Lemma belongs_mono projects users ps us r : ps ⊆ projects → us ⊆ users → belongs projects users r = false → belongs ps us r = false.
Proof. unfold belongs. rewrite !orb_false_iff, !bool_decide_eq_false. set_solver. Qed.

(** A finished row that is not deleted keeps all its columns, except for the link to a deleted run. *)
Definition kept (runs : list string) (r r' : TaskRecord) : Prop :=
  r' = r ∨ r' = set_schedule_run_id None r ∧ ∃ run, tr_schedule_run_id r = Some run ∧ run ∈ runs.

Lemma kept_frame runs r r' :
  kept runs r r' → tr_status r' = tr_status r ∧ tr_project_id r' = tr_project_id r ∧ tr_user_id r' = tr_user_id r.
Proof. intros [->|[-> _]]; by destruct r. Qed.

Lemma table_step_kept projects users runs db db' id r r' :
  keys_ok db → table_step projects users runs db db' → terminal (tr_status r) = true → belongs projects users r = false →
  kept runs r r' → tasks db !! id = Some r' → ∃ r'', tasks db' !! id = Some r'' ∧ kept runs r r''.
Proof.
  intros Hk Hs Ht Hb Hkept Hr. destruct (kept_frame _ _ _ Hkept) as (E1 & E2 & E3).
  destruct Hs as [db' H|gone Hg|ps us Hps Hus].
  - destruct (task_step_evolves _ _ _ H Hk) as [_ Hrow]. specialize (Hrow id). rewrite Hr in Hrow.
    destruct (tasks db' !! id) as [x|]; simpl in Hrow; [|done]. exists x. split; [done|].
    rewrite (rtc_row_step_terminal _ _ Hrow); [done|by rewrite E1].
  - simpl. rewrite lookup_fmap, Hr. simpl. eexists. split; [done|].
    destruct (tr_schedule_run_id r') as [run|] eqn:Erun; [|done]. destruct (gone run) eqn:Egone; [|done].
    destruct Hkept as [->|[-> _]]; [|by destruct r]. right. split; [done|]. exists run. auto.
  - exists r'. split; [|done]. simpl. apply map_lookup_filter_Some. split; [done|]. simpl.
    eapply belongs_mono in Hb; [|done..]. unfold belongs in *. by rewrite E2, E3.
Qed.

(** C16. A terminal status is final. Whatever transactions of the repository and whatever deletions of
    projects, users and schedule runs are committed in whatever order: a row that has reached SUCCESS,
    ERROR or CANCELLED stays in the table with all its columns, unless its own project or user is
    deleted; only when its own schedule run is deleted, the link to that run becomes NULL. *)
Theorem terminal_rows_are_final projects users runs db db' id r :
  keys_ok db → tasks db !! id = Some r → terminal (tr_status r) = true →
  belongs projects users r = false → rtc (table_step projects users runs) db db' →
  ∃ r', tasks db' !! id = Some r' ∧
    (r' = r ∨ r' = set_schedule_run_id None r ∧ ∃ run, tr_schedule_run_id r = Some run ∧ run ∈ runs).
Proof.
  intros Hk Hr Ht Hb Hs. assert (kept runs r r) as Hkept by by left. revert Hr Hkept. generalize r at 1 3.
  induction Hs as [db|db1 db2 db3 H12 _ IH]; intros r1 Hr1 Hkept; [eauto|].
  destruct (table_step_kept _ _ _ _ _ _ _ _ Hk H12 Ht Hb Hkept Hr1) as (r2 & Hr2 & Hkept2).
  apply (IH (table_step_keys _ _ _ _ _ H12 Hk) r2 Hr2 Hkept2).
Qed.

End Spec.

(** ** The run of [LifecycleRun] *)

Module SpecRun.
Import LifecycleRun.
#[local] Existing Instance C_collation.

(** A worker claims the task. *)
Lemma repository_refines_lifecycle_witness :
  reachable all_fk claimed ∧ fulfils (Claim "a" "w1") true enqueued claimed.
Proof.
  apply (repository_refines_lifecycle all_fk (Claim "a" "w1") 200).
  - exact reach_enqueued.
  - exact I.
  - vm_compute. reflexivity.
Defined.

(** Another task is enqueued and another project is deleted after the first task was stopped. *)
Lemma terminal_rows_are_final_witness :
  ∃ r, tr_status <$> tasks stopped !! "a" = Some CANCELLED ∧
    tasks (delete_tasks (belongs ["other"] []) queued_b) !! "a" = Some r.
Proof.
  destruct (tasks stopped !! "a") as [r|] eqn:E; [|by vm_compute in E].
  assert (tr_status <$> tasks stopped !! "a" = Some CANCELLED) as Hs by (vm_compute; reflexivity).
  assert (belongs ["other"] [] <$> tasks stopped !! "a" = Some false) as Hb by (vm_compute; reflexivity).
  rewrite E in Hs, Hb. injection Hs as Hs. injection Hb as Hb.
  destruct (terminal_rows_are_final all_fk ["other"] [] [] stopped (delete_tasks (belongs ["other"] []) queued_b) "a" r)
    as (r' & Hr' & _).
  - eapply reachable_keys_ok, rtc_r; [apply reach_stopping|apply step_stopped].
  - exact E.
  - by rewrite Hs.
  - exact Hb.
  - eapply rtc_l; [apply tb_repository, step_queued_b|]. apply rtc_once. by apply tb_delete.
  - exists r'. split; [simpl; by rewrite Hs|exact Hr'].
Defined.

End SpecRun.
