(* ===== verification/NestedWait.v ===== *)
(** * Task execution: nested-wait reservations

    Models the Valkey hash behind [RedisNestedWaitReservationGateway]
    ([src/modules/task_execution/infra/gateways/nested_wait.py]), whose two Lua scripts run
    atomically, and the use cases over it ([flow/use_cases/nested_wait.py]). A field of the
    hash is the parent task id and its value the serialized reservation, kept here as the
    record. *)
From S2P Require Import Prelude TaskTypes.

Abbreviation reservations := (gmap string NestedWaitReservation).

(** ** The gateway *)

(** [_RESERVE_SCRIPT] *)
Definition reserve_script (parent : string) (payload : NestedWaitReservation) (max_waiters : Z)
    (h : reservations) : bool * reservations :=
  if bool_decide (is_Some (h !! parent)) then (true, h)
  else if (max_waiters <=? Z.of_nat (size h))%Z then (false, h)
  else (true, <[parent := payload]> h).

Definition reserve (r : NestedWaitReservation) (max_waiters : Z) (h : reservations)
    : bool * reservations :=
  if (max_waiters <=? 0)%Z then (false, h)
  else reserve_script (nw_parent_task_id r) r max_waiters h.

(** The order of [table.sort] in [_REBALANCE_SCRIPT]: newest first, ties by parent id
    descending. *)
Definition newer_first (p q : string * NestedWaitReservation) : Prop :=
  lex_le str_le str_le (nw_created_at q.2, q.1) (nw_created_at p.2, p.1).

#[global] Instance newer_first_dec : RelDecision newer_first.
Proof. intros p q; unfold newer_first; apply _. Defined.

(** [_REBALANCE_SCRIPT] *)
Definition rebalance_script (max_waiters : Z) (h : reservations)
    : list NestedWaitReservation * reservations :=
  let entries := merge_sort newer_first (map_to_list h) in
  if (Z.of_nat (length entries) <=? max_waiters)%Z then ([], h)
  else
    let removed := take (Z.to_nat (Z.of_nat (length entries) - max_waiters)) entries in
    (removed.*2, foldl (λ acc p, delete p.1 acc) h removed).

Definition rebalance (max_waiters : Z) (h : reservations)
    : list NestedWaitReservation * reservations :=
  rebalance_script (Z.max max_waiters 0) h.

Definition release_by_parent (parent_task_id : string) (h : reservations) : reservations :=
  delete parent_task_id h.

(** [_release_matching] *)
Definition release_matching (child_task_id worker_id : option string) (h : reservations)
    : reservations :=
  let stale (r : NestedWaitReservation) : bool :=
    match child_task_id with
    | Some c => if bool_decide (nw_child_task_id r = c) then true
                else match worker_id with
                     | Some w => bool_decide (nw_origin_worker_id r = w)
                     | None => false
                     end
    | None => match worker_id with
              | Some w => bool_decide (nw_origin_worker_id r = w)
              | None => false
              end
    end in
  filter (λ kv, stale kv.2 = false) h.

Definition release_by_child (child_task_id : string) : reservations → reservations :=
  release_matching (Some child_task_id) None.

Definition release_by_worker (worker_id : string) : reservations → reservations :=
  release_matching None (Some worker_id).

Definition list_reservations (h : reservations) : list NestedWaitReservation := (map_to_list h).*2.

(** ** The use cases *)

(** [ReserveNestedWaitUseCase.execute]; [created_at] is the creation time of the new entity. *)
Definition reserve_nested_wait (parent_task_id child_task_id origin_worker_id : string)
    (alive_worker_ids : list string) (created_at : string) (h : reservations)
    : NestedWaitDecision * reservations :=
  match h !! parent_task_id with
  | Some existing =>
      if bool_decide (nw_child_task_id existing = child_task_id)
         && bool_decide (nw_origin_worker_id existing = origin_worker_id)
      then (mkDecision true None, h)
      else (mkDecision false (Some ("Parent task " +:+ parent_task_id
              +:+ " already owns another nested wait reservation.")), h)
  | None =>
      let decision := decide_nested_wait_reservation origin_worker_id alive_worker_ids
                        (nw_origin_worker_id <$> list_reservations h) in
      if negb (nd_accepted decision) then (decision, h)
      else
        let alive_count := Z.of_nat (size (list_to_set alive_worker_ids : gset string)) in
        let '(reserved, h') :=
          reserve (mkReservation parent_task_id child_task_id origin_worker_id created_at)
            (Z.max (alive_count - 1) 0) h in
        if reserved then (mkDecision true None, h')
        else (mkDecision false (Some ("Nested wait rejected to prevent distributed deadlock: "
                +:+ "another parent reserved the remaining execution capacity concurrently.")), h')
  end.

(** [ReleaseNestedWaitUseCase.execute] *)
Definition release_nested_wait (parent_task_id child_task_id worker_id : option string)
    (h : reservations) : reservations :=
  let h1 := match parent_task_id with Some p => release_by_parent p h | None => h end in
  let h2 := match child_task_id with Some c => release_by_child c h1 | None => h1 end in
  match worker_id with Some w => release_by_worker w h2 | None => h2 end.

(** ** Facts *)

#[export] Instance newer_first_trans : Transitive newer_first.
Proof. intros p q r H1 H2. unfold newer_first in *. by etrans. Qed.

#[export] Instance newer_first_total : Total newer_first.
Proof. intros p q. unfold newer_first. apply (total (lex_le str_le str_le)). Qed.

(** Deleting the keys of part of the bindings keeps the bindings of the rest. *)
Lemma foldl_delete_lookup {A} (l : list (string * A)) (h : gmap string A) k :
  foldl (λ acc p, delete p.1 acc) h l !! k = if bool_decide (k ∈ l.*1) then None else h !! k.
Proof.
  revert h; induction l as [|[k' v] l IH]; intros h.
  - rewrite bool_decide_eq_false_2; [done|]. simpl. apply not_elem_of_nil.
  - cbn [foldl fst]. rewrite IH, fmap_cons. cbn [fst].
    destruct (decide (k = k')) as [->|Hne].
    + rewrite lookup_delete_eq, (bool_decide_eq_true_2 (k' ∈ k' :: _)) by set_solver. by case_bool_decide.
    + rewrite lookup_delete_ne by done.
      assert (bool_decide (k ∈ l.*1) = bool_decide (k ∈ k' :: l.*1)) as ->
        by (apply bool_decide_ext; set_solver). done.
Qed.

Lemma foldl_delete_dom {A} (l : list (string * A)) (h : gmap string A) :
  dom (foldl (λ acc p, delete p.1 acc) h l) = dom h ∖ list_to_set l.*1.
Proof.
  apply set_eq. intros k. rewrite elem_of_difference, !elem_of_dom, foldl_delete_lookup, elem_of_list_to_set.
  case_bool_decide; [|tauto]. split; [by intros []|tauto].
Qed.

(** The bindings [rebalance] removes and those it keeps, in sorted order. *)
Lemma rebalance_split max_waiters h :
  (0 ≤ max_waiters)%Z → (max_waiters < Z.of_nat (size h))%Z →
  ∃ removed kept,
    merge_sort newer_first (map_to_list h) = removed ++ kept ∧
    length kept = Z.to_nat max_waiters ∧
    rebalance_script max_waiters h = (removed.*2, list_to_map kept).
Proof.
  intros H0 Hlt. unfold rebalance_script.
  pose proof (merge_sort_Permutation newer_first (map_to_list h)) as Hperm.
  set (es := merge_sort newer_first (map_to_list h)) in *.
  assert (length es = size h) as Hlen by (rewrite Hperm; apply length_map_to_list).
  rewrite Hlen. rewrite (proj2 (Z.leb_gt _ _)) by lia.
  set (n := Z.to_nat (Z.of_nat (size h) - max_waiters)).
  exists (take n es), (drop n es). split_and!.
  - by rewrite take_drop.
  - rewrite length_drop, Hlen. unfold n. lia.
  - f_equal. apply map_eq. intros k. rewrite foldl_delete_lookup.
    assert (NoDup es.*1) as Hnd by (rewrite Hperm; apply NoDup_fst_map_to_list).
    rewrite <-(take_drop n es), fmap_app in Hnd. apply NoDup_app in Hnd as (_ & Hdis & Hnd).
    case_bool_decide as Hin.
    + symmetry. apply not_elem_of_list_to_map_1. by apply Hdis.
    + destruct (h !! k) as [v|] eqn:E.
      * symmetry. apply elem_of_list_to_map_1; [done|].
        apply elem_of_map_to_list in E. rewrite <-Hperm, <-(take_drop n es) in E.
        apply elem_of_app in E as [E|E]; [|done]. destruct Hin. by apply (list_elem_of_fmap_2 fst) in E.
      * symmetry. apply not_elem_of_list_to_map_1. intros (p & -> & Hp)%list_elem_of_fmap.
        assert (p ∈ map_to_list h) as Hp'.
        { rewrite <-Hperm, <-(take_drop n es). apply elem_of_app. by right. }
        destruct p as [k v]. apply elem_of_map_to_list in Hp'. simpl in *. congruence.
Qed.

(** Every field of the hash is the parent of the reservation it holds. *)
Definition nested_ok (h : reservations) : Prop :=
  ∀ k r, h !! k = Some r → nw_parent_task_id r = k.

Lemma reserve_cases r m h b h' :
  reserve r m h = (b, h') →
  (h' = h ∧ (b = true → is_Some (h !! nw_parent_task_id r))) ∨
  (b = true ∧ h !! nw_parent_task_id r = None ∧ h' = <[nw_parent_task_id r := r]> h ∧
   (Z.of_nat (size h) < m)%Z).
Proof.
  unfold reserve, reserve_script. destruct (Z.leb_spec m 0); [intros [= <- <-]; left; naive_solver|].
  case_bool_decide as Hs; [intros [= <- <-]; left; naive_solver|].
  destruct (Z.leb_spec m (Z.of_nat (size h))); [intros [= <- <-]; left; naive_solver|].
  intros [= <- <-]. right. split_and!; [done| |done|lia]. by apply eq_None_not_Some.
Qed.

Lemma list_reservations_elem h r : r ∈ list_reservations h ↔ ∃ k, h !! k = Some r.
Proof.
  unfold list_reservations. rewrite list_elem_of_fmap. split.
  - intros ([k r'] & -> & H%elem_of_map_to_list). eauto.
  - intros [k H]. exists (k, r). by rewrite elem_of_map_to_list.
Qed.

Lemma length_list_reservations h : length (list_reservations h) = size h.
Proof. unfold list_reservations. rewrite length_fmap. apply length_map_to_list. Qed.

Lemma size_list_to_set_le (l : list string) : (size (list_to_set l : gset string) ≤ length l)%nat.
Proof.
  induction l as [|x l IH]; [done|]. cbn [list_to_set length].
  rewrite size_union_alt, size_singleton.
  assert (size (list_to_set l ∖ {[x]} : gset string) ≤ size (list_to_set l : gset string))%nat; [|lia].
  apply subseteq_size. set_solver.
Qed.

(** ** Properties of the reservations *)

(** Synchronous nested waits cannot exhaust the workers: when the use case grants a new
    reservation, fewer parents wait than workers are alive, and some alive worker is not held
    by any waiting parent. *)
Theorem reserve_nested_wait_leaves_free_worker parent child origin alive created h d h' :
  h !! parent = None → reserve_nested_wait parent child origin alive created h = (d, h') →
  nd_accepted d = true →
  (size h' < size (list_to_set alive : gset string))%nat ∧
  ∃ w, w ∈ alive ∧ ∀ k r, h' !! k = Some r → nw_origin_worker_id r ≠ w.
Proof.
  intros Hn. unfold reserve_nested_wait. rewrite Hn.
  destruct (nd_accepted _) eqn:Hacc; simpl; [|intros [= <- <-]; congruence].
  destruct (reserve _ _ h) as [b h1] eqn:Hres.
  destruct b; intros [= <- <-] Hd; [|done].
  apply reserve_cases in Hres as [[-> Hsome]|(_ & _ & -> & Hsz)]; simpl in *.
  { destruct (Hsome eq_refl) as [? ?]. congruence. }
  set (r := mkReservation _ _ _ _) in *.
  assert (size (<[parent:=r]> h) = S (size h)) as Hs by (by apply map_size_insert_None).
  split; [lia|].
  destruct (size_lt_exists
    (list_to_set (nw_origin_worker_id <$> list_reservations (<[parent:=r]> h)))
    (list_to_set alive)) as (w & Hw & Hnw).
  { eapply Nat.le_lt_trans; [apply size_list_to_set_le|].
    rewrite length_fmap, length_list_reservations. lia. }
  exists w. split; [set_solver|]. intros k r' Hr' Heq. apply Hnw.
  apply elem_of_list_to_set, list_elem_of_fmap. exists r'. split; [done|].
  apply list_reservations_elem. eauto.
Qed.

Lemma reserve_nested_wait_leaves_free_worker_witness :
  (size (reserve_nested_wait "p" "c" "w1" ["w1"; "w2"] "t0" ∅).2
    < size (list_to_set ["w1"; "w2"] : gset string))%nat ∧
  ∃ w, w ∈ ["w1"; "w2"] ∧
    ∀ k r, (reserve_nested_wait "p" "c" "w1" ["w1"; "w2"] "t0" ∅).2 !! k = Some r →
      nw_origin_worker_id r ≠ w.
Proof.
  eapply (reserve_nested_wait_leaves_free_worker "p" "c" "w1" ["w1"; "w2"] "t0" ∅).
  - apply lookup_empty.
  - apply surjective_pairing.
  - by vm_compute.
Defined.

(** Rebalancing after a loss of capacity keeps exactly the allowed number of
    reservations, the oldest ones, and reports the evicted ones: kept and evicted reservations
    together are all of them, and each evicted one is newer than each kept one. *)
Theorem rebalance_keeps_oldest max_waiters h evicted h' :
  rebalance max_waiters h = (evicted, h') →
  Z.of_nat (size h') = Z.min (Z.of_nat (size h)) (Z.max max_waiters 0) ∧
  h' ⊆ h ∧
  list_reservations h ≡ₚ evicted ++ list_reservations h' ∧
  (∀ k r k' r', h !! k = Some r → h' !! k = None → h' !! k' = Some r' →
     newer_first (k, r) (k', r')).
Proof.
  unfold rebalance. set (m := Z.max max_waiters 0).
  destruct (Z.le_gt_cases (Z.of_nat (size h)) m) as [Hle|Hgt].
  - unfold rebalance_script. rewrite (Permutation_length (merge_sort_Permutation _ _)).
    rewrite length_map_to_list, (proj2 (Z.leb_le _ _)) by done. intros [= <- <-].
    split_and!; [lia|done|done|]. intros; congruence.
  - destruct (rebalance_split m h) as (rem & kept & Hes & Hlen & ->); [lia..|].
    intros [= <- <-].
    pose proof (merge_sort_Permutation newer_first (map_to_list h)) as Hperm. rewrite Hes in Hperm.
    assert (NoDup (rem ++ kept).*1) as Hnd by (rewrite Hperm; apply NoDup_fst_map_to_list).
    rewrite fmap_app in Hnd. apply NoDup_app in Hnd as (_ & Hdis & Hnd).
    assert (map_to_list (list_to_map kept : reservations) ≡ₚ kept) as Hkept
      by (by apply map_to_list_to_map).
    assert (∀ k r, (list_to_map kept : reservations) !! k = Some r ↔ (k, r) ∈ kept) as Hlk.
    { intros k r. rewrite <-elem_of_map_to_list. by rewrite Hkept. }
    split_and!.
    + rewrite <-length_map_to_list, Hkept, Hlen. lia.
    + apply map_subseteq_spec. intros k r H%Hlk. apply elem_of_map_to_list. rewrite <-Hperm. set_solver.
    + unfold list_reservations. by rewrite <-Hperm, fmap_app, Hkept.
    + intros k r k' r' Hk Hnone Hk'%Hlk.
      assert ((k, r) ∈ rem) as Hrem.
      { apply elem_of_map_to_list in Hk. rewrite <-Hperm in Hk. apply elem_of_app in Hk as [?|H%Hlk]; [done|].
        congruence. }
      pose proof (StronglySorted_merge_sort newer_first (map_to_list h)) as HS. rewrite Hes in HS.
      by eapply (StronglySorted_app_1_elem_of newer_first).
Qed.

(** A hash with three parents, of which the two newest are evicted. *)
Definition three_waits : reservations :=
  <["p1" := mkReservation "p1" "c1" "w1" "2026-01-01T00:00:00+00:00"]>
  (<["p2" := mkReservation "p2" "c2" "w2" "2026-01-01T00:00:01+00:00"]>
  (<["p3" := mkReservation "p3" "c3" "w3" "2026-01-01T00:00:02+00:00"]> ∅)).

Lemma rebalance_keeps_oldest_witness :
  Z.of_nat (size (rebalance 1 three_waits).2) = 1%Z ∧
  (rebalance 1 three_waits).2 ⊆ three_waits ∧
  newer_first ("p3", mkReservation "p3" "c3" "w3" "2026-01-01T00:00:02+00:00")
              ("p1", mkReservation "p1" "c1" "w1" "2026-01-01T00:00:00+00:00").
Proof.
  destruct (rebalance_keeps_oldest 1 three_waits (rebalance 1 three_waits).1
              (rebalance 1 three_waits).2 (surjective_pairing _)) as (H1 & H2 & _ & H4).
  split_and!; [rewrite H1; by vm_compute|done|].
  apply H4; by vm_compute.
Defined.

Lemma release_matching_lookup c w h k r :
  release_matching c w h !! k = Some r ↔
  h !! k = Some r ∧ (∀ x, c = Some x → nw_child_task_id r ≠ x) ∧
  (∀ x, w = Some x → nw_origin_worker_id r ≠ x).
Proof.
  unfold release_matching. rewrite map_lookup_filter_Some; simpl.
  destruct c as [c|], w as [w|]; simpl; repeat case_bool_decide; naive_solver.
Qed.

(** Releasing on a terminal event removes every reservation held by the task as parent or
    awaiting it as child, and every one of the worker, and removes nothing else. *)
Theorem release_nested_wait_exact parent child worker h k r :
  release_nested_wait (Some parent) (Some child) worker h !! k = Some r ↔
  h !! k = Some r ∧ k ≠ parent ∧ nw_child_task_id r ≠ child ∧
  (∀ w, worker = Some w → nw_origin_worker_id r ≠ w).
Proof.
  unfold release_nested_wait, release_by_parent, release_by_child, release_by_worker.
  destruct worker as [w|]; rewrite !release_matching_lookup, lookup_delete_Some; naive_solver.
Qed.
