(* ===== verification/Workers.v ===== *)
(** * Orchestrator: worker and execution registries

    Models the in-memory state of the Orchestrator: [WorkerState]
    ([services/orchestrator/worker_state.py]), [WorkerRegistry] ([worker_registry.py]),
    [TaskExecutionRecord] and [TaskExecutionRegistry] ([execution_registry.py]), and the capacity
    report of [OrchestratorServicer.GetExecutionCapacity] ([servicers/orchestrator.py]).

    Times and timeouts are exact numbers of microseconds; a percentage is a rational. The
    system-information payload of a heartbeat is stored unchanged and kept as a string. *)
From S2P Require Import Prelude TaskTypes.
From Stdlib Require Import QArith.

Inductive WorkerStatus := ONLINE | OFFLINE.

#[global] Instance WorkerStatus_eq_dec : EqDecision WorkerStatus.
Proof. solve_decision. Defined.

Record WorkerState := mkWorker {
  ws_worker_id : string;
  ws_timestamp : Z;
  ws_first_seen_at : Z;
  ws_last_received_at : Z;
  ws_last_status_change_at : Z;
  ws_capabilities : list PipelineExecutionMode;
  ws_max_concurrent : Z;
  ws_status : WorkerStatus;
  ws_offline_since : option Z;
  ws_active_task_id : option string;
  ws_is_busy : bool;
  ws_available_slots : Z;
  ws_availability_reported : bool;
  ws_system_info : option string;
}.

(** [WorkerState.is_alive] *)
Definition is_alive (w : WorkerState) (now_ts heartbeat_timeout : Z) : bool :=
  bool_decide (ws_status w = ONLINE) && (now_ts - ws_last_received_at w <? heartbeat_timeout)%Z.

(** ** Field assignments *)

Definition set_slot (active : option string) (busy : bool) (slots : Z) (w : WorkerState) : WorkerState :=
  let '(mkWorker a b c d e f g h i _ _ _ m n) := w in
  mkWorker a b c d e f g h i active busy slots m n.

Definition set_availability_reported (x : bool) (w : WorkerState) : WorkerState :=
  let '(mkWorker a b c d e f g h i j k l _ n) := w in mkWorker a b c d e f g h i j k l x n.

Definition set_available_slots (x : Z) (w : WorkerState) : WorkerState :=
  let '(mkWorker a b c d e f g h i j k _ m n) := w in mkWorker a b c d e f g h i j k x m n.

Definition set_system_info (x : option string) (w : WorkerState) : WorkerState :=
  let '(mkWorker a b c d e f g h i j k l m _) := w in mkWorker a b c d e f g h i j k l m x.

Definition set_last_status_change_at (x : Z) (w : WorkerState) : WorkerState :=
  let '(mkWorker a b c d _ f g h i j k l m n) := w in mkWorker a b c d x f g h i j k l m n.

Definition set_offline_since (x : option Z) (w : WorkerState) : WorkerState :=
  let '(mkWorker a b c d e f g h _ j k l m n) := w in mkWorker a b c d e f g h x j k l m n.

Definition set_worker_status (x : WorkerStatus) (w : WorkerState) : WorkerState :=
  let '(mkWorker a b c d e f g _ i j k l m n) := w in mkWorker a b c d e f g x i j k l m n.

(** The columns every heartbeat overwrites: timestamp, reception, capabilities, capacity, status. *)
Definition set_heartbeat (ts recv : Z) (caps : list PipelineExecutionMode) (maxc : Z)
    (st : WorkerStatus) (w : WorkerState) : WorkerState :=
  let '(mkWorker a _ c _ e _ _ _ i j k l m n) := w in mkWorker a ts c recv e caps maxc st i j k l m n.

(** ** [WorkerRegistry] *)

Abbreviation worker_registry := (pydict WorkerState).

Definition registry_mark_busy (worker_id task_id : string) (reg : worker_registry) : worker_registry :=
  match dget reg worker_id with
  | None => reg
  | Some w => dset reg worker_id (set_slot (Some task_id) true 0 w)
  end.

Definition registry_mark_idle (worker_id : string) (task_id : option string) (reg : worker_registry)
    : worker_registry :=
  match dget reg worker_id with
  | None => reg
  | Some w =>
      if bool_decide (task_id ≠ None)
         && negb (bool_decide (ws_active_task_id w = None ∨ ws_active_task_id w = task_id))
      then reg
      else dset reg worker_id
             (set_slot None false
                (if bool_decide (ws_status w = ONLINE) then Z.max (ws_max_concurrent w) 0 else 0%Z) w)
  end.

Definition get_alive_workers (now_ts heartbeat_timeout : Z) (reg : worker_registry) : list WorkerState :=
  filter (λ w, is_alive w now_ts heartbeat_timeout = true) (dvals reg).

Record Heartbeat := mkHeartbeat {
  hb_worker_id : string;
  hb_capabilities : list PipelineExecutionMode;
  hb_max_concurrent : Z;
  hb_timestamp : Z;
  hb_active_task_id : option string;
  hb_is_busy : option bool;
  hb_available_slots : option Z;
  hb_system_info : option string;
}.

Definition availability_reported (hb : Heartbeat) : bool :=
  bool_decide (hb_is_busy hb ≠ None) || bool_decide (hb_available_slots hb ≠ None).

Definition heartbeat_busy (hb : Heartbeat) : bool := default false (hb_is_busy hb).

Definition heartbeat_available_slots (hb : Heartbeat) : Z :=
  match hb_available_slots hb with
  | Some s => Z.max s 0
  | None => if heartbeat_busy hb then 0%Z else Z.max (hb_max_concurrent hb) 0
  end.

Definition register_worker (hb : Heartbeat) (received_at : Z) : WorkerState :=
  let reported := availability_reported hb in
  {| ws_worker_id := hb_worker_id hb;
     ws_timestamp := hb_timestamp hb;
     ws_first_seen_at := received_at;
     ws_last_received_at := received_at;
     ws_last_status_change_at := received_at;
     ws_capabilities := hb_capabilities hb;
     ws_max_concurrent := hb_max_concurrent hb;
     ws_status := ONLINE;
     ws_offline_since := None;
     ws_active_task_id := if reported then hb_active_task_id hb else None;
     ws_is_busy := if reported then heartbeat_busy hb else false;
     ws_available_slots :=
       if reported then heartbeat_available_slots hb else Z.max (hb_max_concurrent hb) 0;
     ws_availability_reported := reported;
     ws_system_info := hb_system_info hb |}.

Definition refresh_worker (hb : Heartbeat) (received_at : Z) (w : WorkerState) : WorkerState :=
  let previous_status := ws_status w in
  let w1 := set_heartbeat (hb_timestamp hb) received_at (hb_capabilities hb) (hb_max_concurrent hb)
              ONLINE w in
  let w2 :=
    if availability_reported hb
    then set_availability_reported true
           (set_slot (hb_active_task_id hb) (heartbeat_busy hb) (heartbeat_available_slots hb) w1)
    else set_available_slots
           (if ws_is_busy w1 then 0%Z else Z.max (hb_max_concurrent hb) 0) w1 in
  let w3 := set_system_info (hb_system_info hb) w2 in
  let w4 := if bool_decide (previous_status ≠ ONLINE)
            then set_last_status_change_at received_at w3 else w3 in
  set_offline_since None w4.

Definition update_from_heartbeat (hb : Heartbeat) (received_at : Z) (reg : worker_registry)
    : WorkerState * worker_registry :=
  let w := match dget reg (hb_worker_id hb) with
           | None => register_worker hb received_at
           | Some w => refresh_worker hb received_at w
           end in
  (w, dset reg (hb_worker_id hb) w).

(** What [reap_dead_workers] writes to a worker whose heartbeat is stale. *)
Definition mark_offline (now_ts : Z) (w : WorkerState) : WorkerState :=
  set_last_status_change_at now_ts (set_offline_since (Some now_ts)
    (set_slot None false 0 (set_worker_status OFFLINE w))).

Definition reap_one (now_ts heartbeat_timeout : Z) (w : WorkerState) : bool :=
  negb (is_alive w now_ts heartbeat_timeout) && bool_decide (ws_status w ≠ OFFLINE).

Definition reap_dead_workers (now_ts heartbeat_timeout : Z) (reg : worker_registry)
    : list WorkerState * worker_registry :=
  (mark_offline now_ts <$> filter (λ w, reap_one now_ts heartbeat_timeout w = true) (dvals reg),
   (λ kw, (kw.1, if reap_one now_ts heartbeat_timeout kw.2
                 then mark_offline now_ts kw.2 else kw.2)) <$> reg).

(** ** [TaskExecutionRegistry] *)

Record TaskExecutionRecord := mkExecRecord {
  xr_task_id : string;
  xr_worker_id : string;
  xr_hostname : string;
  xr_pid : Z;
  xr_rss_bytes : Z;
  xr_memory_limit_bytes : option Z;
  xr_system_ram_used_percent : Q;
  xr_timestamp : Z;
}.

Abbreviation execution_registry := (pydict TaskExecutionRecord).

Definition is_stale (r : TaskExecutionRecord) (now_ts stale_timeout : Z) : bool :=
  (stale_timeout <=? now_ts - xr_timestamp r)%Z.

Definition exec_upsert (r : TaskExecutionRecord) (reg : execution_registry) : execution_registry :=
  dset reg (xr_task_id r) r.

Definition exec_remove (task_id : string) (reg : execution_registry) : execution_registry :=
  dpop reg task_id.

Definition exec_get_stale (now_ts stale_timeout : Z) (reg : execution_registry)
    : list TaskExecutionRecord :=
  filter (λ r, is_stale r now_ts stale_timeout = true) (dvals reg).

(** ** [GetExecutionCapacity] *)

Section Capacity.
Context (now_ts heartbeat_timeout stale_timeout : Z).

Definition online_alive (w : WorkerState) : bool :=
  is_alive w now_ts heartbeat_timeout && bool_decide (ws_status w = ONLINE).

Definition active_worker_ids (execs : execution_registry) : list string :=
  xr_worker_id <$> filter (λ r, is_stale r now_ts stale_timeout = false) (dvals execs).

(** [_worker_available_slots] *)
Definition worker_available_slots (active_ids : list string) (w : WorkerState) : Z :=
  let capacity := Z.max (ws_max_concurrent w) 0 in
  if negb (online_alive w) then 0%Z
  else if ws_availability_reported w then Z.min (Z.max (ws_available_slots w) 0) capacity
  else if bool_decide (ws_worker_id w ∈ active_ids) || ws_is_busy w then 0%Z else capacity.

Record WorkerCapacityInfo := mkCapacityInfo {
  wc_worker_id : string;
  wc_max_concurrent : Z;
  wc_status : WorkerStatus;
  wc_alive : bool;
  wc_capabilities : list PipelineExecutionMode;
  wc_busy : bool;
  wc_available_slots : Z;
}.

Record ExecutionCapacity := mkCapacity {
  ec_alive_workers_count : nat;
  ec_total_capacity : Z;
  ec_busy_capacity : Z;
  ec_available_capacity : Z;
  ec_workers : list WorkerCapacityInfo;
}.

(** [sorted(worker.capabilities, key=str)]: the set, with "full" before "metadata_only". *)
Definition sorted_capabilities (w : WorkerState) : list PipelineExecutionMode :=
  filter (λ c, c ∈ ws_capabilities w) [FULL; METADATA_ONLY].

Definition zsum (l : list Z) : Z := foldr Z.add 0%Z l.

Definition get_execution_capacity (reg : worker_registry) (execs : execution_registry)
    : ExecutionCapacity :=
  let workers := dvals reg in
  let alive := filter (λ w, is_alive w now_ts heartbeat_timeout = true) workers in
  let online := filter (λ w, ws_status w = ONLINE) alive in
  let ids := active_worker_ids execs in
  let slots := worker_available_slots ids in
  {| ec_alive_workers_count := length alive;
     ec_total_capacity := zsum ((λ w, Z.max (ws_max_concurrent w) 0) <$> online);
     ec_busy_capacity := zsum ((λ w, Z.max (ws_max_concurrent w) 0 - slots w)%Z <$> online);
     ec_available_capacity := zsum (slots <$> online);
     ec_workers := (λ w, mkCapacityInfo (ws_worker_id w) (Z.max (ws_max_concurrent w) 0)
                           (ws_status w) (is_alive w now_ts heartbeat_timeout)
                           (sorted_capabilities w)
                           (online_alive w && (slots w <? Z.max (ws_max_concurrent w) 0)%Z)
                           (slots w)) <$> workers |}.

End Capacity.

(** ** Registry invariant *)

Record worker_ok (k : string) (w : WorkerState) : Prop := {
  wo_id : ws_worker_id w = k;
  wo_slots : (0 ≤ ws_available_slots w)%Z;
  wo_offline : ws_status w = OFFLINE → ws_available_slots w = 0%Z ∧ ws_offline_since w ≠ None;
  wo_online : ws_status w = ONLINE → ws_offline_since w = None;
}.

Definition registry_ok (reg : worker_registry) : Prop :=
  dwf reg ∧ ∀ k w, dget reg k = Some w → worker_ok k w.

Lemma registry_ok_dset reg k w : registry_ok reg → worker_ok k w → registry_ok (dset reg k w).
Proof.
  intros [Hwf Hok] Hw. split; [auto with dvt|]. intros k' w'. rewrite dget_dset.
  case_decide; [|apply Hok]. intros; by simplify_eq.
Qed.

Lemma registry_ok_nil : registry_ok [].
Proof. split; [apply dwf_nil|done]. Qed.

Lemma mark_busy_ok wid tid reg : registry_ok reg → registry_ok (registry_mark_busy wid tid reg).
Proof.
  intros Hreg. unfold registry_mark_busy. destruct (dget reg wid) as [w|] eqn:E; [|done].
  apply registry_ok_dset; [done|]. destruct (proj2 Hreg _ _ E). destruct w; simpl in *.
  split; simpl; try done. intros Ho. split; [done|]. by apply wo_offline0.
Qed.

Lemma mark_idle_ok wid tid reg : registry_ok reg → registry_ok (registry_mark_idle wid tid reg).
Proof.
  intros Hreg. unfold registry_mark_idle. destruct (dget reg wid) as [w|] eqn:E; [|done].
  case_match; [done|]. apply registry_ok_dset; [done|]. destruct (proj2 Hreg _ _ E).
  destruct w; simpl in *. split; simpl; try done.
  - destruct (bool_decide (ws_status0 = ONLINE)); lia.
  - intros ->. split; [done|]. by apply wo_offline0.
Qed.

Lemma heartbeat_slots_nonneg hb : (0 ≤ heartbeat_available_slots hb)%Z.
Proof. unfold heartbeat_available_slots. repeat case_match; lia. Qed.

Lemma update_from_heartbeat_ok hb received_at reg :
  registry_ok reg → registry_ok (update_from_heartbeat hb received_at reg).2.
Proof.
  intros Hreg. unfold update_from_heartbeat; simpl. apply registry_ok_dset; [done|].
  pose proof (heartbeat_slots_nonneg hb) as Hs.
  destruct (dget reg (hb_worker_id hb)) as [w|] eqn:E.
  - destruct (proj2 Hreg _ _ E). unfold refresh_worker. destruct w; simpl in *.
    repeat case_match; split; simpl; try done; lia.
  - split; simpl; try done. case_match; lia.
Qed.

Lemma dget_fmap_vals {A} (f : A → A) (d : pydict A) k :
  dget ((λ kv, (kv.1, f kv.2)) <$> d) k = f <$> dget d k.
Proof.
  induction d as [|[k' v'] d IH]; [done|]. rewrite fmap_cons. simpl. case_decide; [done|apply IH].
Qed.

Lemma dkeys_fmap_vals {A} (f : A → A) (d : pydict A) :
  dkeys ((λ kv, (kv.1, f kv.2)) <$> d) = dkeys d.
Proof. unfold dkeys. rewrite <-list_fmap_compose. by apply list_fmap_ext. Qed.

Lemma reap_dead_workers_get now_ts timeout reg k :
  dget (reap_dead_workers now_ts timeout reg).2 k =
  (λ w, if reap_one now_ts timeout w then mark_offline now_ts w else w) <$> dget reg k.
Proof.
  exact (dget_fmap_vals (λ w, if reap_one now_ts timeout w then mark_offline now_ts w else w) reg k).
Qed.

Lemma reap_dead_workers_ok now_ts timeout reg :
  registry_ok reg → registry_ok (reap_dead_workers now_ts timeout reg).2.
Proof.
  intros [Hwf Hok]. split.
  - unfold dwf, reap_dead_workers; simpl.
    by rewrite (dkeys_fmap_vals (λ w, if reap_one now_ts timeout w then mark_offline now_ts w else w)).
  - intros k w. rewrite reap_dead_workers_get. destruct (dget reg k) as [w0|] eqn:E; simpl; [|done].
    intros [= <-]. case_match; [|by apply Hok].
    destruct (Hok _ _ E). destruct w0; simpl in *. by split.
Qed.

(** The operations of the registry, in any order. *)
Inductive registry_op :=
  | OpBusy (worker_id task_id : string)
  | OpIdle (worker_id : string) (task_id : option string)
  | OpHeartbeat (hb : Heartbeat) (received_at : Z)
  | OpReap (now_ts heartbeat_timeout : Z).

Definition run_op (reg : worker_registry) (op : registry_op) : worker_registry :=
  match op with
  | OpBusy w t => registry_mark_busy w t reg
  | OpIdle w t => registry_mark_idle w t reg
  | OpHeartbeat hb t => (update_from_heartbeat hb t reg).2
  | OpReap n t => (reap_dead_workers n t reg).2
  end.

(** Whatever sequence of heartbeats, telemetry, releases and reaps reaches the registry,
    every entry is filed under its own id, never offers a negative number of slots, and an
    offline worker offers none and records since when it is offline. *)
Theorem worker_registry_invariant ops : registry_ok (foldl run_op [] ops).
Proof.
  cut (∀ reg, registry_ok reg → registry_ok (foldl run_op reg ops)).
  { intros H. apply H, registry_ok_nil. }
  induction ops as [|op ops IH]; simpl; [done|]. intros reg Hreg. apply IH.
  destruct op; cbn [run_op]; auto using mark_busy_ok, mark_idle_ok, update_from_heartbeat_ok,
    reap_dead_workers_ok.
Qed.

(** Reaping marks offline exactly the workers whose heartbeat is stale: afterwards the
    online workers are precisely those that were alive, unchanged, and an entry that changed is
    one of the reported workers. *)
Theorem reap_dead_workers_exact now_ts timeout reg k w :
  dget (reap_dead_workers now_ts timeout reg).2 k = Some w →
  (ws_status w = ONLINE ↔ is_alive w now_ts timeout = true) ∧
  (ws_status w = ONLINE → dget reg k = Some w) ∧
  (∀ w0, dget reg k = Some w0 → is_alive w0 now_ts timeout = true → w = w0) ∧
  (dget reg k = Some w ∨ w ∈ (reap_dead_workers now_ts timeout reg).1).
Proof.
  rewrite reap_dead_workers_get. destruct (dget reg k) as [w0|] eqn:E; [|done].
  intros [= <-]. destruct (reap_one now_ts timeout w0) eqn:Hr; unfold reap_one in Hr.
  - assert (mark_offline now_ts w0 ∈ (reap_dead_workers now_ts timeout reg).1) as Hin.
    { apply list_elem_of_fmap_2, list_elem_of_filter. split; [done|].
      apply list_elem_of_fmap. exists (k, w0). by split; [|apply dget_elem_of]. }
    apply andb_true_iff in Hr as [Ha%negb_true_iff _].
    split_and!; [by destruct w0|by destruct w0| |by right]. intros w1 [= <-]. by rewrite Ha.
  - split_and!; [|done|by intros w1 [= <-]|by left].
    destruct (is_alive w0 now_ts timeout) eqn:Ha; simpl in Hr.
    + unfold is_alive in Ha. apply andb_true_iff in Ha as [Hs%bool_decide_eq_true _]. by rewrite Hs.
    + apply bool_decide_eq_false, dec_stable in Hr. by rewrite Hr.
Qed.

(** A registry with a live, a silent and an already offline worker. *)
Definition sample_registry : worker_registry :=
  let live := register_worker (mkHeartbeat "w1" [FULL] 2 90 None None None None) 90 in
  let silent := register_worker (mkHeartbeat "w2" [FULL] 1 10 (Some "t") (Some true) None None) 10 in
  let gone := mark_offline 20 (register_worker (mkHeartbeat "w3" [FULL] 1 5 None None None None) 5) in
  [("w1", live); ("w2", silent); ("w3", gone)].

Lemma reap_dead_workers_exact_witness :
  ∃ w, dget (reap_dead_workers 100 30 sample_registry).2 "w2" = Some w ∧
       (ws_status w = ONLINE ↔ is_alive w 100 30 = true) ∧
       (dget sample_registry "w2" = Some w ∨ w ∈ (reap_dead_workers 100 30 sample_registry).1).
Proof.
  eexists. split; [vm_compute; reflexivity|].
  refine ((λ H, conj (proj1 H) (proj2 (proj2 (proj2 H))))
            (reap_dead_workers_exact 100 30 sample_registry "w2" _ _)).
  vm_compute; reflexivity.
Defined.

(** ** Capacity *)

Lemma zsum_cons x l : zsum (x :: l) = (x + zsum l)%Z.
Proof. done. Qed.

Lemma zsum_add {A} (f g : A → Z) l :
  (zsum (f <$> l) + zsum (g <$> l))%Z = zsum ((λ x, f x + g x)%Z <$> l).
Proof. induction l as [|x l IH]; [done|]. rewrite !fmap_cons, !zsum_cons, <-IH. lia. Qed.

Lemma zsum_ext {A} (f g : A → Z) l : (∀ x, f x = g x) → zsum (f <$> l) = zsum (g <$> l).
Proof. intros H. f_equal. by apply list_fmap_ext. Qed.

Lemma zsum_le {A} (f g : A → Z) l : (∀ x, f x ≤ g x)%Z → (zsum (f <$> l) ≤ zsum (g <$> l))%Z.
Proof.
  intros H. induction l as [|x l IH]; [done|]. rewrite !fmap_cons, !zsum_cons. specialize (H x). lia.
Qed.

Lemma zsum_nonneg {A} (f : A → Z) l : (∀ x, 0 ≤ f x)%Z → (0 ≤ zsum (f <$> l))%Z.
Proof. intros H. induction l as [|x l IH]; [done|]. rewrite fmap_cons, zsum_cons. specialize (H x). lia. Qed.

Lemma worker_available_slots_bounds now_ts hb_timeout ids w :
  (0 ≤ worker_available_slots now_ts hb_timeout ids w ≤ Z.max (ws_max_concurrent w) 0)%Z.
Proof. unfold worker_available_slots. repeat case_match; lia. Qed.

(** The reported capacity adds up: busy and available capacity partition the total, each
    worker offers between zero and its own capacity, and a worker that is not alive offers
    nothing. *)
Theorem execution_capacity_accounting now_ts hb_timeout stale_timeout reg execs :
  let c := get_execution_capacity now_ts hb_timeout stale_timeout reg execs in
  ec_total_capacity c = (ec_busy_capacity c + ec_available_capacity c)%Z ∧
  (0 ≤ ec_available_capacity c ≤ ec_total_capacity c)%Z ∧
  (∀ i, i ∈ ec_workers c →
     (0 ≤ wc_available_slots i ≤ wc_max_concurrent i)%Z ∧
     (wc_alive i = false → wc_available_slots i = 0%Z)).
Proof.
  simpl. set (ids := active_worker_ids _ _ _). split_and!.
  - rewrite zsum_add. apply zsum_ext. intros w. lia.
  - apply zsum_nonneg. intros w. apply worker_available_slots_bounds.
  - apply zsum_le. intros w. apply worker_available_slots_bounds.
  - intros i (w & -> & _)%list_elem_of_fmap; simpl. split; [apply worker_available_slots_bounds|].
    intros Ha. unfold worker_available_slots, online_alive. by rewrite Ha.
Qed.
