(* ===== verification/Flow.v ===== *)
(** * Task execution: use cases

    Models [src/modules/task_execution/flow/use_cases] with the transports behind them
    ([infra/gateways/celery_transport.py], [infra/gateways/cancellation.py]).

    A use case is a program over the [World]: the database, the reservation hash, the
    Orchestrator's in-memory registries (or the execution slot of a worker) and the trace of
    messages that left the process. Each
    call that leaves the process (a transaction, a Valkey command, a Celery or WebSocket
    message) is one numbered step. The environment decides, for every step, the clock, what
    the other processes committed before it, and whether it fails; a failed call has no effect. *)
From S2P Require Import Prelude TaskTypes TaskStore TaskLifecycle NestedWait Workers.
From Stdlib Require Import QArith.

(** ** Environment *)

(** How an external call fails: the connection errors and timeouts that the cancellation
    gateway catches, or any other exception. *)
Inductive fault := ConnectionFault (msg : string) | OtherFault (msg : string).

Inductive exn :=
  | TaskError (e : task_error)
  | ExternalError (f : fault)
  | RuntimeError (msg : string)
  | TaskNotFoundException (detail : string)
  | AttributeError (msg : string).

Class Env := {
  env_coll :: Collation;
  env_fk : TaskRecord → bool;
  env_clock : nat → Z;
  env_isonow : nat → string;
  env_fresh : nat → TaskDB → string;
  env_fault : nat → option fault;
  env_others : nat → TaskDB → TaskDB;
  env_integrity_message : string;
  env_others_ok n db : rtc (task_step env_fk) db (env_others n db);
  env_fresh_new n db : env_fresh n db ∉ (ob_id <$> outbox db);
}.

(** The events of [src/schemas/event] a worker reports; node payloads are forwarded unread. *)
Inductive worker_event :=
  | TaskExecutionStatusEvent (task_id : string) (mode : PipelineExecutionMode)
      (status : TaskExecutionStatus) (error : option string)
  | TaskExecutionTelemetryEvent (hostname : string) (pid rss_bytes : Z)
      (memory_limit_bytes : option Z) (system_ram_used_percent : Q)
  | NodeExecutionStatusEvent (body : string)
  | NodeMetadataEvent (body : string)
  | OtherEvent (body : string).

(** Messages that leave the process. *)
Inductive effect :=
  | Published (task_id payload : string)
  | Revoked (task_id : string) (terminate : bool)
  | StopNotified (task_id : string)
  | Forwarded (event : worker_event) (user_id project_id : string).

Record World := mkWorld {
  w_db : TaskDB;
  w_nested : reservations;
  w_workers : worker_registry;
  w_execs : execution_registry;
  w_last_kill : pydict Z;
  w_slot : string;
  w_step : nat;
  w_trace : list effect;
}.

Definition set_db (x : TaskDB) (w : World) : World :=
  mkWorld x (w_nested w) (w_workers w) (w_execs w) (w_last_kill w) (w_slot w) (w_step w) (w_trace w).
Definition set_nested (x : reservations) (w : World) : World :=
  mkWorld (w_db w) x (w_workers w) (w_execs w) (w_last_kill w) (w_slot w) (w_step w) (w_trace w).
Definition set_workers (x : worker_registry) (w : World) : World :=
  mkWorld (w_db w) (w_nested w) x (w_execs w) (w_last_kill w) (w_slot w) (w_step w) (w_trace w).
Definition set_execs (x : execution_registry) (w : World) : World :=
  mkWorld (w_db w) (w_nested w) (w_workers w) x (w_last_kill w) (w_slot w) (w_step w) (w_trace w).
Definition set_last_kill (x : pydict Z) (w : World) : World :=
  mkWorld (w_db w) (w_nested w) (w_workers w) (w_execs w) x (w_slot w) (w_step w) (w_trace w).
Definition set_slot_id (x : string) (w : World) : World :=
  mkWorld (w_db w) (w_nested w) (w_workers w) (w_execs w) (w_last_kill w) x (w_step w) (w_trace w).
Definition bump (w : World) : World :=
  mkWorld (w_db w) (w_nested w) (w_workers w) (w_execs w) (w_last_kill w) (w_slot w) (S (w_step w)) (w_trace w).
Definition log_effect (e : effect) (w : World) : World :=
  mkWorld (w_db w) (w_nested w) (w_workers w) (w_execs w) (w_last_kill w) (w_slot w) (w_step w)
          (w_trace w ++ [e]).

(** ** Programs *)

Definition M (A : Type) : Type := World → outcome exn A * World.

#[global] Instance M_ret : MRet M := λ A a w, (Ok a, w).
#[global] Instance M_bind : MBind M := λ A B f m w,
  match m w with
  | (Ok a, w') => f a w'
  | (Raise e, w') => (Raise e, w')
  end.

Definition raise {A} (e : exn) : M A := λ w, (Raise e, w).

(** [try: m except Exception as exc: handler exc] *)
Definition catch {A} (m : M A) (handler : exn → M A) : M A := λ w,
  match m w with
  | (Ok a, w') => (Ok a, w')
  | (Raise e, w') => handler e w'
  end.

(** [for x in l: body x] *)
Fixpoint for_each {A} (l : list A) (body : A → M ()) : M () :=
  match l with
  | [] => mret ()
  | x :: l' => _ ← body x; for_each l' body
  end.

Definition when (b : bool) (m : M ()) : M () := if b then m else mret ().

Definition gets {A} (f : World → A) : M A := λ w, (Ok (f w), w).
Definition modify (f : World → World) : M () := λ w, (Ok (), f w).

Section Calls.
Context {env : Env}.

(** [time.time()] *)
Definition time_now : M Z := λ w, (Ok (env_clock (w_step w)), bump w).

(** One transaction of the repository; a raised exception rolls it back. *)
Definition db_call {A} (f : Z → TaskDB → outcome task_error (A * TaskDB)) : M A := λ w,
  let n := w_step w in
  let db := env_others n (w_db w) in
  let w' := set_db db (bump w) in
  match env_fault n with
  | Some ft => (Raise (ExternalError ft), w')
  | None =>
      match f (env_clock n) db with
      | Ok (a, db') => (Ok a, set_db db' w')
      | Raise e => (Raise (TaskError e), w')
      end
  end.

Definition db_write {A} (f : Z → TaskDB → A * TaskDB) : M A := db_call (λ now db, Ok (f now db)).
Definition db_read {A} (f : TaskDB → A) : M A := db_call (λ _ db, Ok (f db, db)).

(** One command to the reservation hash. *)
Definition nested_call {A} (f : reservations → A * reservations) : M A := λ w,
  let w' := bump w in
  match env_fault (w_step w) with
  | Some ft => (Raise (ExternalError ft), w')
  | None => let '(a, h) := f (w_nested w) in (Ok a, set_nested h w')
  end.

(** One message sent to another process. *)
Definition send (e : effect) : M () := λ w,
  match env_fault (w_step w) with
  | Some ft => (Raise (ExternalError ft), bump w)
  | None => (Ok (), log_effect e (bump w))
  end.

Definition exn_message (e : exn) : string :=
  match e with
  | TaskError IntegrityError => env_integrity_message
  | TaskError (ValueError m) => m
  | TaskError (InvalidReconciliationTerminationReason m) => m
  | TaskError (InvalidPendingExecutionFailureReason m) => m
  | ExternalError (ConnectionFault m) => m
  | ExternalError (OtherFault m) => m
  | RuntimeError m => m
  | TaskNotFoundException m => m
  | AttributeError m => m
  end.

(** ** Transports *)

(** [CeleryTaskTransport] *)
Definition transport_publish (task_id payload : string) : M () := send (Published task_id payload).
Definition transport_revoke (task_id : string) (terminate : bool) : M () :=
  send (Revoked task_id terminate).

(** [ValkeyTaskCancellationGateway.notify_stop]: connection failures are only logged. *)
Definition notify_stop (task_id : string) : M () :=
  catch (send (StopNotified task_id))
    (λ e, match e with
          | ExternalError (ConnectionFault _) => mret ()
          | _ => raise e
          end).

(** [_read_authoritative_reason] *)
Definition authoritative_reason (task_id : string) (db : TaskDB) : option string :=
  match tasks db !! task_id with
  | None => Some "UNKNOWN"
  | Some task =>
      if bool_decide (tr_status task = CANCEL_REQUESTED ∨ tr_status task = CANCELLED)
      then Some (or_str (tr_termination_reason task) "USER_STOP")
      else None
  end.

Definition get_stop_reason (task_id : string) : M (option string) :=
  db_read (authoritative_reason task_id).

(** ** Use cases *)

Definition ClaimTaskUseCase (task_id worker_id : string) : M bool :=
  db_write (claim task_id worker_id).

Definition MarkTaskRunningUseCase (task_id worker_id : string) : M bool :=
  db_write (mark_running task_id worker_id).

Definition FinalizeTaskUseCase (task_id worker_id : string) (status : TaskExecutionStatus)
    (message termination_reason : option string) : M bool :=
  db_call (finalize task_id worker_id status message termination_reason).

Definition CreatePendingExecutionUseCase (execution : TaskExecution) : M TaskExecution :=
  if bool_decide (te_status execution ≠ PENDING)
  then raise (TaskError (ValueError "Only PENDING executions can be created before dispatch"))
  else db_call (create_pending env_fk execution).

Definition EnqueueTaskUseCase (execution : TaskExecution) (payload : string) : M EnqueueTaskResult :=
  n ← gets w_step;
  result ← db_call (λ now db, enqueue_with_dispatch env_fk execution payload (env_fresh n db) now db);
  _ ← for_each (er_superseded result) (λ superseded,
        catch (transport_revoke (te_task_id superseded) false) (λ _, mret ()));
  mret result.

Definition FailPendingExecutionUseCase (task_id : string) (termination_reason message : option string)
    : M (option TaskExecution) :=
  if negb (bool_decide (termination_reason ∈
            [None; Some (reason_value NESTED_WAIT_CAPACITY_LOST)]))
  then raise (TaskError (InvalidPendingExecutionFailureReason
         ("Unsupported pending execution failure reason: "
            +:+ default "None" termination_reason)))
  else db_write (fail_pending task_id termination_reason message).

Definition RequestStopUseCase (task_id reason : string) : M (option TaskExecution) :=
  task ← db_write (request_stop task_id reason false);
  match task with
  | None => mret None
  | Some task =>
      _ ← (if bool_decide (te_status task = CANCEL_REQUESTED) then notify_stop task_id
           else when (bool_decide (te_status task = CANCELLED)
                      && bool_decide (te_termination_reason task = Some reason))
                  (transport_revoke task_id false));
      mret (Some task)
  end.

Definition KillTaskUseCase (task_id reason : string) : M (option TaskExecution) :=
  task ← db_write (request_stop task_id reason true);
  match task with
  | None => mret None
  | Some task =>
      _ ← (if bool_decide (te_status task = CANCEL_REQUESTED)
           then (_ ← notify_stop task_id; transport_revoke task_id true)
           else when (bool_decide (te_status task = CANCELLED)
                      && bool_decide (te_termination_reason task = Some reason))
                  (transport_revoke task_id false));
      mret (Some task)
  end.

Definition TerminateExecutionUseCase (task_id : string) : M () := transport_revoke task_id true.

Definition ListWorkerOwnedActiveExecutionsUseCase (limit : nat) : M (list TaskExecution) :=
  db_read (list_worker_owned_active limit).

Definition GetTaskExecutionUseCase (task_id : string) : M (option TaskExecution) :=
  db_read (get_task task_id).

Definition ListExecutionsForReconciliationUseCase (statuses : list TaskExecutionStatus) (limit : nat)
    : M (list TaskExecution) :=
  db_read (list_for_reconciliation statuses limit).

Definition FinalizeReconciledExecutionUseCase (task_id termination_reason : string)
    (message : option string) : M (option TaskExecution) :=
  if negb (bool_decide (termination_reason ∈ RECONCILIATION_TERMINATION_REASONS))
  then raise (TaskError (InvalidReconciliationTerminationReason
         ("Termination reason is not valid for reconciliation: " +:+ termination_reason)))
  else db_write (finalize_reconciled task_id termination_reason message).

Fixpoint publish_each (dispatches : list DispatchOutboxItem) (published : Z) : M Z :=
  match dispatches with
  | [] => mret published
  | dispatch :: rest =>
      sent ← catch (_ ← transport_publish (di_task_id dispatch) (di_payload dispatch); mret None)
               (λ exc, mret (Some (exn_message exc)));
      match sent with
      | Some error =>
          _ ← db_write (λ _ db, ((), record_dispatch_failure (di_dispatch_id dispatch) error db));
          publish_each rest published
      | None =>
          _ ← db_write (λ now db, ((), mark_dispatch_published (di_dispatch_id dispatch) now db));
          publish_each rest (published + 1)%Z
      end
  end.

Definition PublishPendingDispatchesUseCase (limit : nat) : M Z :=
  dispatches ← db_read (pending_dispatches limit);
  publish_each dispatches 0.

(** The reservation use case: two reads and the reserving script, the only command that writes. *)
Definition ReserveNestedWaitUseCase (parent_task_id child_task_id origin_worker_id : string)
    (alive_worker_ids : list string) : M NestedWaitDecision :=
  n ← gets w_step;
  nested_call (reserve_nested_wait parent_task_id child_task_id origin_worker_id alive_worker_ids
                 (env_isonow n)).

Definition release_call (f : reservations → reservations) : M () := nested_call (λ h, ((), f h)).

Definition ReleaseNestedWaitUseCase (parent_task_id child_task_id worker_id : option string) : M () :=
  _ ← match parent_task_id with Some p => release_call (release_by_parent p) | None => mret () end;
  _ ← match child_task_id with Some c => release_call (release_by_child c) | None => mret () end;
  match worker_id with Some x => release_call (release_by_worker x) | None => mret () end.

End Calls.

(** ** What a program can do to the world *)

(** [respects R m]: whatever the environment does, [m] moves the world along [R]. *)
Definition respects (R : relation World) {A} (m : M A) : Prop := ∀ w, R w (m w).2.

Section Respects.
Context (R : relation World) `{!PreOrder R}.

Lemma respects_ret {A} (a : A) : respects R (mret a : M A).
Proof. intros w. reflexivity. Qed.

Lemma respects_raise {A} e : respects R (raise e : M A).
Proof. intros w. reflexivity. Qed.

Lemma respects_gets {A} (f : World → A) : respects R (gets f).
Proof. intros w. reflexivity. Qed.

Lemma respects_bind {A B} (m : M A) (f : A → M B) :
  respects R m → (∀ a, respects R (f a)) → respects R (m ≫= f).
Proof.
  intros Hm Hf w. specialize (Hm w). unfold mbind, M_bind. destruct (m w) as [[a|e] w']; [|done].
  etrans; [exact Hm|apply Hf].
Qed.

Lemma respects_catch {A} (m : M A) h :
  respects R m → (∀ e, respects R (h e)) → respects R (catch m h).
Proof.
  intros Hm Hh w. specialize (Hm w). unfold catch. destruct (m w) as [[a|e] w']; [done|].
  etrans; [exact Hm|apply Hh].
Qed.

Lemma respects_for_each {A} (l : list A) body :
  (∀ x, respects R (body x)) → respects R (for_each l body).
Proof.
  intros Hb. induction l as [|x l IH]; [apply respects_ret|]. by apply respects_bind.
Qed.

(** Running a program after reaching a world. *)
Lemma respects_run {A} (m : M A) w0 w : respects R m → R w0 w → R w0 (m w).2.
Proof. intros Hm H. etrans; [exact H|apply Hm]. Qed.

Lemma respects_when b m : respects R m → respects R (when b m).
Proof. intros Hm. destruct b; [done|apply respects_ret]. Qed.
End Respects.

(** Splits a program along its control structure, leaving the calls. *)
Ltac respects_split :=
  repeat match goal with
  | |- respects _ (mret _) => apply respects_ret; apply _
  | |- respects _ (raise _) => apply respects_raise; apply _
  | |- respects _ (gets _) => apply respects_gets; apply _
  | |- respects _ (for_each _ _) => apply respects_for_each; [apply _|intros ?]
  | |- respects _ (when _ _) => apply respects_when; [apply _|]
  | |- respects _ (catch _ _) => apply respects_catch; [apply _| |intros ?]
  | |- respects _ (_ ≫= _) => apply respects_bind; [apply _| |intros ?]
  | |- respects _ _ => solve [eauto with respects]
  | |- respects _ (match ?x with _ => _ end) => destruct x
  end.

Create HintDb respects.

(** The database only changes by repository transactions, and nothing of the trace is undone. *)
Definition world_evolves {env : Env} (w w' : World) : Prop :=
  rtc (task_step env_fk) (w_db w) (w_db w') ∧ w_trace w `prefix_of` w_trace w'.

#[global] Instance world_evolves_preorder {env : Env} : PreOrder world_evolves.
Proof.
  split.
  - intros w. by split.
  - intros w1 w2 w3 [H1 P1] [H2 P2]. split; by etrans.
Qed.

(** The worker registry stays well formed. *)
Definition workers_kept (w w' : World) : Prop := registry_ok (w_workers w) → registry_ok (w_workers w').

#[global] Instance workers_kept_preorder : PreOrder workers_kept.
Proof. split; [by intros w ?|]. intros w1 w2 w3 H1 H2 H; auto. Qed.

(** ** Calls respect both relations *)

Section CallsRespect.
Context {env : Env}.

Lemma world_evolves_db w w' :
  rtc (task_step env_fk) (w_db w) (w_db w') → w_trace w' = w_trace w → world_evolves w w'.
Proof. intros H E. split; [done|by rewrite E]. Qed.

Lemma respects_db_call {A} (f : Z → TaskDB → outcome task_error (A * TaskDB)) :
  (∀ now db a db', f now db = Ok (a, db') → rtc (task_step env_fk) db db') →
  respects world_evolves (db_call f).
Proof.
  intros Hf w. pose proof (env_others_ok (w_step w) (w_db w)) as Ho. unfold db_call; cbv zeta.
  destruct (env_fault (w_step w)); [by apply world_evolves_db|].
  destruct (f _ _) as [[a db']|e] eqn:E; [|by apply world_evolves_db].
  apply world_evolves_db; [|done]. etrans; [exact Ho|by eapply Hf].
Qed.

Lemma respects_db_write {A} (f : Z → TaskDB → A * TaskDB) :
  (∀ now db, task_step env_fk db (f now db).2) → respects world_evolves (db_write f).
Proof.
  intros Hf. apply respects_db_call. intros now db a db' [= E]. apply (f_equal snd) in E. simpl in E.
  subst. by apply rtc_once.
Qed.

Lemma respects_db_read {A} (f : TaskDB → A) : respects world_evolves (db_read f).
Proof. apply respects_db_call. by intros now db a db' [= _ <-]. Qed.

Lemma respects_time : respects world_evolves time_now.
Proof. intros w. by apply world_evolves_db. Qed.

Lemma respects_send e : respects world_evolves (send e).
Proof.
  intros w. unfold send. destruct (env_fault _); [by apply world_evolves_db|]. split; [done|]. simpl. by apply prefix_app_r.
Qed.

Lemma respects_nested_call {A} (f : reservations → A * reservations) :
  respects world_evolves (nested_call f).
Proof.
  intros w. unfold nested_call. destruct (env_fault _); [|destruct (f _)]; by apply world_evolves_db.
Qed.

Lemma respects_workers f : respects world_evolves (modify (λ w, set_workers (f w) w)).
Proof. intros w. by apply world_evolves_db. Qed.

Lemma respects_execs f : respects world_evolves (modify (λ w, set_execs (f w) w)).
Proof. intros w. by apply world_evolves_db. Qed.

Lemma respects_last_kill f : respects world_evolves (modify (λ w, set_last_kill (f w) w)).
Proof. intros w. by apply world_evolves_db. Qed.

Lemma kept_db_call {A} (f : Z → TaskDB → outcome task_error (A * TaskDB)) :
  respects workers_kept (db_call f).
Proof. intros w Hw. unfold db_call. repeat case_match; done. Qed.

Lemma kept_time : respects workers_kept time_now.
Proof. intros w Hw. exact Hw. Qed.

Lemma kept_send e : respects workers_kept (send e).
Proof. intros w Hw. unfold send. by case_match. Qed.

Lemma kept_nested_call {A} (f : reservations → A * reservations) :
  respects workers_kept (nested_call f).
Proof. intros w Hw. unfold nested_call. repeat case_match; done. Qed.

Lemma kept_execs f : respects workers_kept (modify (λ w, set_execs (f w) w)).
Proof. intros w Hw. exact Hw. Qed.

Lemma kept_last_kill f : respects workers_kept (modify (λ w, set_last_kill (f w) w)).
Proof. intros w Hw. exact Hw. Qed.

Lemma kept_workers f :
  (∀ reg, registry_ok reg → registry_ok (f reg)) →
  respects workers_kept (modify (λ w, set_workers (f (w_workers w)) w)).
Proof. intros Hf w Hw. by apply Hf. Qed.

End CallsRespect.

#[export] Hint Resolve respects_db_read respects_time respects_send respects_nested_call
  respects_workers respects_execs respects_last_kill
  kept_db_call kept_time kept_send kept_nested_call kept_execs kept_last_kill : respects.

Section UseCasesRespect.
Context {env : Env}.

Lemma claim_respects tid wid : respects world_evolves (ClaimTaskUseCase tid wid).
Proof. apply respects_db_write. intros. apply ts_claim. Qed.

Lemma mark_running_respects tid wid : respects world_evolves (MarkTaskRunningUseCase tid wid).
Proof. apply respects_db_write. intros. apply ts_run. Qed.

Lemma finalize_respects tid wid st msg r : respects world_evolves (FinalizeTaskUseCase tid wid st msg r).
Proof. apply respects_db_call. intros. by eapply rtc_once, ts_finalize. Qed.

Lemma create_pending_respects e : respects world_evolves (CreatePendingExecutionUseCase e).
Proof.
  unfold CreatePendingExecutionUseCase. respects_split. apply respects_db_call. intros.
  by eapply rtc_once, ts_create.
Qed.

Lemma enqueue_respects e payload : respects world_evolves (EnqueueTaskUseCase e payload).
Proof.
  unfold EnqueueTaskUseCase, transport_revoke. respects_split. apply respects_db_call. intros.
  by eapply rtc_once, ts_enqueue; [apply env_fresh_new|].
Qed.

Lemma fail_pending_respects tid r msg : respects world_evolves (FailPendingExecutionUseCase tid r msg).
Proof.
  unfold FailPendingExecutionUseCase. case_bool_decide; cbn [negb]; [|respects_split].
  apply respects_db_write. intros. by apply ts_fail_pending.
Qed.

Lemma request_stop_respects tid r : respects world_evolves (RequestStopUseCase tid r).
Proof.
  unfold RequestStopUseCase, notify_stop, transport_revoke. respects_split.
  apply respects_db_write. intros. apply ts_stop.
Qed.

Lemma kill_task_respects tid r : respects world_evolves (KillTaskUseCase tid r).
Proof.
  unfold KillTaskUseCase, notify_stop, transport_revoke. respects_split.
  apply respects_db_write. intros. apply ts_stop.
Qed.

Lemma finalize_reconciled_respects tid r msg :
  respects world_evolves (FinalizeReconciledExecutionUseCase tid r msg).
Proof.
  unfold FinalizeReconciledExecutionUseCase. case_bool_decide; cbn [negb]; [|respects_split].
  apply respects_db_write. intros. by apply ts_reconcile.
Qed.

Lemma publish_each_respects ds n : respects world_evolves (publish_each ds n).
Proof.
  revert n; induction ds as [|d ds IH]; intros n; cbn [publish_each]; unfold transport_publish;
    respects_split; try apply IH; apply respects_db_write; intros; simpl; constructor.
Qed.

Lemma publish_respects limit : respects world_evolves (PublishPendingDispatchesUseCase limit).
Proof. unfold PublishPendingDispatchesUseCase. respects_split. apply publish_each_respects. Qed.

Lemma release_respects p c x : respects world_evolves (ReleaseNestedWaitUseCase p c x).
Proof. unfold ReleaseNestedWaitUseCase, release_call. respects_split. Qed.

Lemma release_kept p c x : respects workers_kept (ReleaseNestedWaitUseCase p c x).
Proof. unfold ReleaseNestedWaitUseCase, release_call. respects_split. Qed.

Lemma kill_task_kept tid r : respects workers_kept (KillTaskUseCase tid r).
Proof. unfold KillTaskUseCase, notify_stop, transport_revoke, db_write. respects_split. Qed.

Lemma request_stop_kept tid r : respects workers_kept (RequestStopUseCase tid r).
Proof. unfold RequestStopUseCase, notify_stop, transport_revoke, db_write. respects_split. Qed.

Lemma enqueue_kept e payload : respects workers_kept (EnqueueTaskUseCase e payload).
Proof. unfold EnqueueTaskUseCase, transport_revoke. respects_split. Qed.

Lemma publish_kept limit : respects workers_kept (PublishPendingDispatchesUseCase limit).
Proof.
  unfold PublishPendingDispatchesUseCase. respects_split. generalize 0%Z as n.
  induction a as [|d ds IH]; intros n; cbn [publish_each]; unfold transport_publish, db_write;
    respects_split; apply IH.
Qed.

Lemma finalize_reconciled_kept tid r msg :
  respects workers_kept (FinalizeReconciledExecutionUseCase tid r msg).
Proof. unfold FinalizeReconciledExecutionUseCase, db_write. respects_split. Qed.

Lemma fail_pending_kept tid r msg : respects workers_kept (FailPendingExecutionUseCase tid r msg).
Proof. unfold FailPendingExecutionUseCase, db_write. respects_split. Qed.

End UseCasesRespect.

#[export] Hint Resolve claim_respects mark_running_respects finalize_respects create_pending_respects
  enqueue_respects fail_pending_respects request_stop_respects kill_task_respects
  finalize_reconciled_respects publish_respects release_respects release_kept kill_task_kept
  request_stop_kept enqueue_kept publish_kept finalize_reconciled_kept fail_pending_kept : respects.

(** ** Properties of the use cases *)

Section Properties.
Context {env : Env}.

Definition published_effect (d : DispatchOutboxItem) : effect :=
  Published (di_task_id d) (di_payload d).

Lemma send_cases e w :
  (send e w = (Ok (), log_effect e (bump w))) ∨ (∃ ft, send e w = (Raise (ExternalError ft), bump w)).
Proof. unfold send. destruct (env_fault (w_step w)); [right; eauto|by left]. Qed.

Lemma db_call_trace {A} (f : Z → TaskDB → outcome task_error (A * TaskDB)) w :
  w_trace (db_call f w).2 = w_trace w.
Proof. unfold db_call. by repeat case_match. Qed.

Lemma publish_each_trace ds n w :
  ∃ sent, sent `sublist_of` ds ∧
    w_trace (publish_each ds n w).2 = w_trace w ++ (published_effect <$> sent) ∧
    ∀ m, (publish_each ds n w).1 = Ok m → m = (n + Z.of_nat (length sent))%Z.
Proof.
  revert n w; induction ds as [|d ds IH]; intros n w.
  { exists []. split; [done|]. split; [by rewrite app_nil_r|]. intros m [= <-]. simpl. lia. }
  cbn [publish_each]. unfold mbind, M_bind, catch, transport_publish.
  destruct (send_cases (Published (di_task_id d) (di_payload d)) w) as [E|[ft E]]; rewrite E; simpl.
  - pose proof (db_call_trace (λ now db, Ok ((), mark_dispatch_published (di_dispatch_id d) now db))
      (log_effect (Published (di_task_id d) (di_payload d)) (bump w))) as Ht.
    unfold db_write. destruct (db_call _ _) as [[[]|e] w1]; simpl in Ht.
    + destruct (IH (n + 1)%Z w1) as (sent & Hs & Htr & Hm). exists (d :: sent).
      split; [by apply sublist_skip|]. split.
      * by rewrite Htr, Ht, fmap_cons, <-app_assoc.
      * intros m Em. rewrite (Hm m Em). cbn [length]. lia.
    + exists [d]. split; [apply sublist_skip, sublist_nil_l|]. split; [done|by intros].
  - pose proof (db_call_trace (λ (_ : Z) db, Ok ((), record_dispatch_failure (di_dispatch_id d)
      (exn_message (ExternalError ft)) db)) (bump w)) as Ht.
    unfold db_write. destruct (db_call _ _) as [[[]|e] w1]; simpl in Ht.
    + destruct (IH n w1) as (sent & Hs & Htr & Hm). exists sent.
      split; [by apply sublist_cons|]. split; [by rewrite Htr, Ht|done].
    + exists []. split; [apply sublist_nil_l|]. split; [by rewrite app_nil_r|by intros].
Qed.

Lemma publish_trace limit w :
  ∃ sent, sent `sublist_of` pending_dispatches limit (env_others (w_step w) (w_db w)) ∧
    w_trace (PublishPendingDispatchesUseCase limit w).2 = w_trace w ++ (published_effect <$> sent) ∧
    ∀ m, (PublishPendingDispatchesUseCase limit w).1 = Ok m → m = Z.of_nat (length sent).
Proof.
  unfold PublishPendingDispatchesUseCase, mbind, M_bind, db_read, db_call; cbv zeta.
  destruct (env_fault (w_step w)); simpl.
  - exists []. split; [apply sublist_nil_l|]. split; [by rewrite app_nil_r|by intros].
  - destruct (publish_each_trace (pending_dispatches limit (env_others (w_step w) (w_db w))) 0
      (set_db (env_others (w_step w) (w_db w)) (set_db (env_others (w_step w) (w_db w)) (bump w))))
      as (sent & ? & Htr & Hm). exists sent. done.
Qed.

(** An environment in which no call fails and no other process writes. *)
Definition quiet : Prop := (∀ n, env_fault n = None) ∧ (∀ n db, env_others n db = db).

Lemma quiet_db_call {A} (f : Z → TaskDB → outcome task_error (A * TaskDB)) w a db' :
  quiet → f (env_clock (w_step w)) (w_db w) = Ok (a, db') →
  db_call f w = (Ok a, set_db db' (set_db (w_db w) (bump w))).
Proof. intros [Hf Ho] E. unfold db_call. rewrite Hf, Ho, E. done. Qed.

Lemma quiet_db_write {A} (f : Z → TaskDB → A * TaskDB) w :
  quiet → db_write f w = (Ok (f (env_clock (w_step w)) (w_db w)).1,
    set_db (f (env_clock (w_step w)) (w_db w)).2 (set_db (w_db w) (bump w))).
Proof. intros Hq. unfold db_write. apply quiet_db_call; [done|]. by destruct (f _ _). Qed.

Lemma quiet_send e w : quiet → send e w = (Ok (), log_effect e (bump w)).
Proof. intros [Hf _]. unfold send. by rewrite Hf. Qed.

Lemma elem_of_pending_dispatches limit db d :
  d ∈ pending_dispatches limit db →
  ∃ o, d = to_dispatch o ∧ o ∈ outbox db ∧ dispatch_pending o = true.
Proof.
  intros (o & -> & Ho)%list_elem_of_fmap. exists o. split; [done|].
  apply elem_of_take in Ho as (i & Ho & _). apply list_elem_of_lookup_2 in Ho.
  rewrite merge_sort_elem, list_elem_of_filter in Ho. tauto.
Qed.

(** A row that is pending after marking a dispatch was pending before, under another id. *)
Lemma pending_after_mark did now db o :
  o ∈ outbox (mark_dispatch_published did now db) → dispatch_pending o = true →
  o ∈ outbox db ∧ ob_id o ≠ did.
Proof.
  intros (o0 & -> & Ho)%list_elem_of_fmap Hp. revert Hp.
  destruct (bool_decide (ob_id o0 = did)) eqn:E; simpl.
  - destruct (bool_decide (ob_published_at o0 = None)) eqn:E2; [done|].
    unfold dispatch_pending. rewrite E2. by rewrite andb_false_r.
  - intros _. split; [done|]. by apply bool_decide_eq_false in E.
Qed.

Lemma publish_each_drains ds n w :
  quiet → ∃ w', publish_each ds n w = (Ok (n + Z.of_nat (length ds))%Z, w') ∧
    ∀ o, o ∈ outbox (w_db w') → dispatch_pending o = true →
      o ∈ outbox (w_db w) ∧ ob_id o ∉ (di_dispatch_id <$> ds).
Proof.
  intros Hq. revert n w; induction ds as [|d ds IH]; intros n w.
  { exists w. cbn. rewrite Z.add_0_r. split; [done|]. intros o Ho Hp. split; [done|]. by apply not_elem_of_nil. }
  cbn [publish_each]. unfold mbind, M_bind, catch, transport_publish. rewrite quiet_send by done. simpl.
  unfold db_write. erewrite quiet_db_call by done.
  edestruct (IH (n + 1)%Z) as (w' & E & Hw). exists w'. rewrite E. split; [f_equal; f_equal; cbn [length]; lia|].
  intros o Ho Hp. destruct (Hw o Ho Hp) as [Ho' Hn]. simpl in Ho'.
  destruct (pending_after_mark _ _ _ _ Ho' Hp). split; [done|].
  by apply not_elem_of_cons.
Qed.

(** Whatever fails and whatever the other processes commit, the dispatcher only publishes
    dispatches that were pending when it read the outbox, each at most once, in creation order,
    and the number it returns is the number it published. *)
Theorem publish_only_pending_dispatches limit w :
  ∃ sent, sent `sublist_of` pending_dispatches limit (env_others (w_step w) (w_db w)) ∧
    w_trace (PublishPendingDispatchesUseCase limit w).2 = w_trace w ++ (published_effect <$> sent) ∧
    ∀ m, (PublishPendingDispatchesUseCase limit w).1 = Ok m → m = Z.of_nat (length sent).
Proof. apply publish_trace. Qed.

(** Without failures one run of the dispatcher drains the dispatches it read: it publishes
    all of them, and none of them is pending afterwards. *)
Theorem publish_drains_outbox limit w :
  quiet →
  ∃ w', PublishPendingDispatchesUseCase limit w
        = (Ok (Z.of_nat (length (pending_dispatches limit (w_db w)))), w') ∧
    w_trace w' = w_trace w ++ (published_effect <$> pending_dispatches limit (w_db w)) ∧
    ∀ limit' d, d ∈ pending_dispatches limit' (w_db w') →
      di_dispatch_id d ∉ (di_dispatch_id <$> pending_dispatches limit (w_db w)).
Proof.
  intros Hq. destruct (publish_trace limit w) as (sent & Hs & Htr & Hm). rewrite (proj2 Hq) in Hs.
  revert Htr Hm. unfold PublishPendingDispatchesUseCase, mbind, M_bind, db_read.
  erewrite quiet_db_call by done. simpl. set (w1 := set_db _ _).
  destruct (publish_each_drains (pending_dispatches limit (w_db w)) 0 w1 Hq) as (w' & E & Hw).
  rewrite E. simpl. intros Htr Hm. exists w'. rewrite Z.add_0_l. split; [done|]. split.
  - rewrite Htr. f_equal. f_equal. apply sublist_full; [done|].
    specialize (Hm _ eq_refl). lia.
  - intros limit' d (o & -> & Ho & Hp)%elem_of_pending_dispatches. apply (Hw o Ho Hp).
Qed.

(** The entity a stop request returns is the committed row. *)
Lemma request_stop_result tid reason hard now db :
  keys_ok db →
  (request_stop tid reason hard now db).1 = to_entity <$> tasks (request_stop tid reason hard now db).2 !! tid.
Proof.
  intros Hk. unfold request_stop. destruct (tasks db !! tid) as [r|] eqn:E; simpl; [|by rewrite E].
  assert (tr_task_id r = tid) as <- by by apply Hk.
  assert (∀ r', tr_task_id r' = tr_task_id r → tasks (db_put r' db) !! tr_task_id r = Some r') as Hput.
  { intros r' <-. apply lookup_insert_eq. }
  case_bool_decide; simpl; [by rewrite E|].
  case_bool_decide; simpl; symmetry; (erewrite lookup_insert_eq || setoid_rewrite Hput); by destruct r.
Qed.

Lemma world_evolves_keys w w' : world_evolves w w' → keys_ok (w_db w) → keys_ok (w_db w').
Proof. intros [Hs _]. apply (task_steps_evolve _ _ _ Hs). Qed.

(** A transaction that returns committed: its result and database are those of the repository. *)
Lemma db_write_ok {A} (f : Z → TaskDB → A * TaskDB) w a w' :
  db_write f w = (Ok a, w') →
  f (env_clock (w_step w)) (env_others (w_step w) (w_db w)) = (a, w_db w') ∧ w_trace w' = w_trace w.
Proof.
  unfold db_write, db_call. destruct (env_fault _); [done|].
  destruct (f _ _) as [x db'] eqn:E. by intros [= -> <-].
Qed.

Lemma env_others_keys n db : keys_ok db → keys_ok (env_others n db).
Proof. intros Hk. by apply (task_steps_evolve _ _ _ (env_others_ok n db)). Qed.

Lemma send_db e w : w_db (send e w).2 = w_db w.
Proof. by destruct (send_cases e w) as [->|[ft ->]]. Qed.

(** What the wake-up of a worker leaves in the world. *)
Lemma notify_stop_cases tid w :
  w_db (notify_stop tid w).2 = w_db w ∧
  (w_trace (notify_stop tid w).2 = w_trace w ∨
   w_trace (notify_stop tid w).2 = w_trace w ++ [StopNotified tid]).
Proof.
  unfold notify_stop, catch. destruct (send_cases (StopNotified tid) w) as [->|[[m|m] ->]]; simpl; auto.
Qed.

Lemma M_bind_eq {A B} (m : M A) (f : A → M B) w :
  (m ≫= f) w = match m w with (Ok a, w') => f a w' | (Raise e, w') => (Raise e, w') end.
Proof. done. Qed.

Lemma stop_write_trace {A} (f : Z → TaskDB → A * TaskDB) w : w_trace (db_write f w).2 = w_trace w.
Proof. apply db_call_trace. Qed.

Lemma stop_write_row tid reason hard w t w' :
  keys_ok (w_db w) → db_write (request_stop tid reason hard) w = (Ok (Some t), w') →
  ∃ r, tasks (w_db w') !! tid = Some r ∧ t = to_entity r.
Proof.
  intros Hk [E _]%db_write_ok.
  pose proof (request_stop_result tid reason hard (env_clock (w_step w))
    (env_others (w_step w) (w_db w)) (env_others_keys _ _ Hk)) as Hr.
  rewrite E in Hr. simpl in Hr. symmetry in Hr. apply fmap_Some in Hr as (r & ? & ->). by exists r.
Qed.

Ltac no_message := exists []; split; [rewrite app_nil_r; solve [done|symmetry; done]|by left].

(** A cooperative stop never terminates a process: the only messages it sends are a wake-up
    of the worker and a plain revocation, both for the task it was asked to stop; the worker is
    woken up only about a stop that is already committed, and only a task that this very reason
    cancelled is revoked. *)
Theorem request_stop_is_cooperative tid reason w :
  keys_ok (w_db w) →
  ∃ new, w_trace (RequestStopUseCase tid reason w).2 = w_trace w ++ new ∧
    (new = [] ∨
     ∃ r, tasks (w_db (RequestStopUseCase tid reason w).2) !! tid = Some r ∧
     (new = [StopNotified tid] ∧ tr_status r = CANCEL_REQUESTED ∨
      new = [Revoked tid false] ∧ tr_status r = CANCELLED ∧ tr_termination_reason r = Some reason)).
Proof.
  intros Hk. unfold RequestStopUseCase. rewrite M_bind_eq.
  pose proof (stop_write_trace (request_stop tid reason false) w) as Ht.
  destruct (db_write _ w) as [[[t|]|e] w1] eqn:E; simpl in Ht;
    [|no_message..].
  destruct (stop_write_row _ _ _ _ _ _ Hk E) as (r & Hr & ->). rewrite M_bind_eq, <-Ht. simpl.
  case_bool_decide as Hc.
  - destruct (notify_stop_cases tid w1) as [Hdb Hn].
    destruct (notify_stop tid w1) as [[[]|e] w2]; simpl in *; rewrite Hdb;
      destruct Hn as [Hn|Hn]; (no_message || (rewrite Hn; eauto 10)).
  - unfold when. destruct (bool_decide (tr_status r = CANCELLED)) eqn:E1; simpl;
      [|no_message].
    destruct (bool_decide (tr_termination_reason r = Some reason)) eqn:E2;
      [|no_message].
    apply bool_decide_eq_true in E1, E2. unfold transport_revoke.
    destruct (send_cases (Revoked tid false) w1) as [->|[ft ->]]; simpl; [eauto 10|no_message].
Qed.

(** Revoking superseded executions never raises and changes neither store. *)
Lemma revoke_each_total l w :
  ∃ w', for_each l (λ superseded : TaskExecution,
     catch (transport_revoke (te_task_id superseded) false) (λ _, mret ())) w = (Ok (), w') ∧
     w_db w' = w_db w ∧ w_nested w' = w_nested w ∧
     ∃ ids, ids `sublist_of` (te_task_id <$> l) ∧
       w_trace w' = w_trace w ++ ((λ i, Revoked i false) <$> ids).
Proof.
  revert w; induction l as [|x l IH]; intros w.
  - exists w. split_and!; [done..|]. exists []. by rewrite app_nil_r.
  - cbn [for_each]. rewrite M_bind_eq. unfold catch at 1, transport_revoke at 1.
    destruct (send_cases (Revoked (te_task_id x) false) w) as [->|[ft ->]]; cbv iota beta;
      [|change ((mret () : M ()) (bump w)) with (Ok (E:=exn) (), bump w); cbv iota beta].
    + destruct (IH (log_effect (Revoked (te_task_id x) false) (bump w))) as (w' & -> & Hd & Hn & ids & Hs & Ht).
      exists w'. split_and!; [done..|]. exists (te_task_id x :: ids).
      split; [by apply sublist_skip|]. rewrite Ht. simpl. by rewrite <-app_assoc.
    + destruct (IH (bump w)) as (w' & -> & Hd & Hn & ids & Hs & Ht).
      exists w'. split_and!; [done..|]. exists ids. split; [by apply sublist_cons|done].
Qed.

(** An enqueue that returns is exactly the committed transaction: a broker that refuses the
    revocations of superseded executions cannot fail it, and nothing but those revocations is
    sent. *)
Theorem enqueue_survives_broker_failures e payload w :
  match enqueue_with_dispatch env_fk e payload (env_fresh (w_step w) (env_others (w_step w) (w_db w)))
          (env_clock (w_step w)) (env_others (w_step w) (w_db w)), env_fault (w_step w) with
  | Ok (result, db'), None =>
      (EnqueueTaskUseCase e payload w).1 = Ok result ∧ w_db (EnqueueTaskUseCase e payload w).2 = db' ∧
      ∃ ids, ids `sublist_of` (te_task_id <$> er_superseded result) ∧
        w_trace (EnqueueTaskUseCase e payload w).2 = w_trace w ++ ((λ i, Revoked i false) <$> ids)
  | _, _ => is_ok (EnqueueTaskUseCase e payload w).1 = false ∧
      w_db (EnqueueTaskUseCase e payload w).2 = env_others (w_step w) (w_db w)
  end.
Proof.
  unfold EnqueueTaskUseCase. rewrite M_bind_eq. unfold gets; cbv beta iota. rewrite M_bind_eq.
  unfold db_call; cbv zeta. destruct (enqueue_with_dispatch _ _ _ _ _ _) as [[result db']|err];
    destruct (env_fault (w_step w)); [done| |done|done].
  set (w1 := set_db _ _). rewrite M_bind_eq.
  destruct (revoke_each_total (er_superseded result) w1) as (w' & -> & Hd & _ & ids & Hs & Ht).
  split_and!; [done|done|]. by exists ids.
Qed.

End Properties.

(** ** A concrete run *)

Module FlowRun.

Definition all_fk (r : TaskRecord) : bool := true.

(** No failures, no other process, and a clock that advances by one second per step. *)
#[local] Instance quiet_env : Env := {|
  env_coll := C_collation;
  env_fk := all_fk;
  env_clock := λ n, (1000000 * Z.of_nat n)%Z;
  env_isonow := λ n, "1970-01-01T00:00:" +:+ pretty n +:+ "+00:00";
  env_fresh := λ _ db, infinite_fresh (ob_id <$> outbox db);
  env_fault := λ _, None;
  env_others := λ _ db, db;
  env_integrity_message := "duplicate key value violates unique constraint";
  env_others_ok := λ _ db, rtc_refl _ db;
  env_fresh_new := λ _ db, infinite_is_fresh (ob_id <$> outbox db);
|}.

Definition empty_world : World := mkWorld (mkTaskDB ∅ []) ∅ [] [] [] "" 0 [].

Definition node_task (id : string) : TaskExecution :=
  mkTaskExecution id "u" "org" "p" FULL NODE PENDING false 5 None None None None None None.

Definition two_queued : World :=
  (EnqueueTaskUseCase (node_task "b") "pb"
     (EnqueueTaskUseCase (node_task "a") "pa" empty_world).2).2.

Lemma two_queued_evolves : world_evolves empty_world two_queued.
Proof.
  unfold two_queued. apply respects_run; [apply _|apply enqueue_respects|]. apply enqueue_respects.
Qed.

Lemma two_queued_inv : db_inv (w_db two_queued).
Proof. destruct two_queued_evolves as [H _]. by eapply db_inv_steps, db_inv_initial. Qed.

Lemma publish_drains_outbox_witness :
  ∃ w', PublishPendingDispatchesUseCase 100 two_queued = (Ok 2%Z, w') ∧
    w_trace w' = [Published "a" "pa"; Published "b" "pb"] ∧ pending_dispatches 100 (w_db w') = [].
Proof.
  destruct (publish_drains_outbox 100 two_queued) as (w' & E & Ht & Hd); [done|].
  exists w'. split; [rewrite E; f_equal; vm_compute; reflexivity|].
  split; [rewrite Ht; vm_compute; reflexivity|].
  revert E. vm_compute. intros [= <-]. reflexivity.
Defined.

Lemma request_stop_is_cooperative_witness :
  ∃ new, w_trace (RequestStopUseCase "a" (reason_value USER_STOP) two_queued).2 = w_trace two_queued ++ new ∧
    new = [Revoked "a" false].
Proof.
  destruct (request_stop_is_cooperative "a" (reason_value USER_STOP) two_queued) as (new & E & _).
  { apply two_queued_inv. }
  exists new. split; [exact E|]. revert E. vm_compute. intros [= <-]. reflexivity.
Defined.

End FlowRun.
