(* ===== verification/Orchestrator.v ===== *)
(** * Orchestrator: scheduler, finalizer, supervisor and command handlers

    Models [services/orchestrator]: [TaskScheduler] ([scheduler.py]), the terminal-status
    finalizer ([task_finalizer.py]), [TaskExecutionSupervisor] ([execution_supervisor.py]), the
    enqueue commands ([deps/commands.py]), the worker event callbacks
    ([deps/worker_event_callbacks.py]) and the gRPC servicer ([servicers/orchestrator.py]), as
    programs over the [World] of [Flow]. The registries the singletons [get_worker_registry()]
    and [get_task_execution_registry()] return are the ones of the world.

    Memory percentages are rationals. Task cancellation of the asyncio tasks themselves
    ([asyncio.CancelledError]) and log lines are left out. *)
From S2P Require Import Prelude TaskTypes TaskStore TaskLifecycle NestedWait Workers Flow.
From Stdlib Require Import QArith.

Inductive OOMGuardMode := DISABLED | HOST_PRESSURE | WORKER_THRESHOLD.
Inductive OOMWorkerThresholdType := PERCENT | ABSOLUTE_MB.

#[global] Instance OOMGuardMode_eq_dec : EqDecision OOMGuardMode.
Proof. solve_decision. Defined.

Record OOMGuardConfig := mkOOMGuard {
  oom_mode : OOMGuardMode;
  oom_host_threshold_percent : option Q;
  oom_worker_threshold_type : option OOMWorkerThresholdType;
  oom_worker_threshold_percent : option Q;
  oom_worker_threshold_mb : option Z;
}.

(** Settings of the process: [config.ORCHESTRATOR], the start time of the supervisor and the
    application settings as they read at a given step. Times are microseconds. *)
Class OrchConfig := {
  heartbeat_timeout : Z;
  telemetry_stale_timeout : Z;
  stop_grace_period : Z;
  oom_cooldown : Z;
  supervisor_started_at : Z;
  app_oom_guard : nat → OOMGuardConfig;
}.

(** [max(l, key=key)]: the first element with the greatest key; [None] is the [ValueError] of
    an empty list. *)
Definition first_max {A} (gt : A → A → bool) (l : list A) : option A :=
  match l with
  | [] => None
  | x :: l' => Some (foldl (λ best y, if gt y best then y else best) x l')
  end.

Section Orchestrator.
Context {env : Env} {cfg : OrchConfig}.

(** ** [task_finalizer.py] *)

Definition publish_task_terminal_event (task_id user_id project_id : string)
    (mode : PipelineExecutionMode) (status : TaskExecutionStatus) (error_message : option string)
    : M () :=
  catch (send (Forwarded (TaskExecutionStatusEvent task_id mode status error_message)
                 user_id project_id))
    (λ _, mret ()).

Definition forget_execution (task_id : string) : M () :=
  modify (λ w, set_execs (exec_remove task_id (w_execs w)) w).

Definition mark_worker_idle (worker_id : string) (task_id : option string) : M () :=
  modify (λ w, set_workers (registry_mark_idle worker_id task_id (w_workers w)) w).

Definition mark_worker_busy (worker_id task_id : string) : M () :=
  modify (λ w, set_workers (registry_mark_busy worker_id task_id (w_workers w)) w).

Definition finalize_task_terminal_status (task_id user_id project_id : string)
    (worker_id : option string) (mode : PipelineExecutionMode) (status : TaskExecutionStatus)
    (termination_reason error_message : option string) : M bool :=
  if negb (bool_decide (status = ERROR ∨ status = CANCELLED)) then
    raise (TaskError (ValueError "Unsupported terminal task status"))
  else
    match termination_reason with
    | None => raise (TaskError (ValueError "Reconciliation finalization requires termination_reason"))
    | Some reason =>
        finalized_task ← FinalizeReconciledExecutionUseCase task_id reason error_message;
        if bool_decide (te_status <$> finalized_task ≠ Some status) then mret false
        else
          _ ← forget_execution task_id;
          _ ← match worker_id with
              | Some wid => mark_worker_idle wid (Some task_id)
              | None => mret ()
              end;
          _ ← catch (ReleaseNestedWaitUseCase (Some task_id) (Some task_id) worker_id)
                (λ _, mret ());
          _ ← publish_task_terminal_event task_id user_id project_id mode status error_message;
          mret true
    end.

(** ** [scheduler.py] *)

Definition task_not_found (task_id : string) : exn :=
  TaskNotFoundException ("Task ID=" +:+ task_id +:+ " not found.").

(** What [request_task_stop] and [request_task_hard_stop] do with the task they stopped. *)
Definition after_stop (task_id reason : string) (task : option TaskExecution) : M bool :=
  match task with
  | None => raise (task_not_found task_id)
  | Some task =>
      _ ← when (bool_decide (te_status task = CANCELLED)
                && bool_decide (te_termination_reason task = Some reason))
            (_ ← ReleaseNestedWaitUseCase None (Some task_id) None;
             publish_task_terminal_event (te_task_id task) (te_user_id task) (te_project_id task)
               (te_mode task) CANCELLED None);
      mret (negb (bool_decide (te_status task ∈ [SUCCESS; ERROR; CANCELLED]))
            || bool_decide (Some reason = te_termination_reason task))
  end.

Definition request_task_stop (task_id reason : string) : M bool :=
  task ← RequestStopUseCase task_id reason; after_stop task_id reason task.

Definition request_task_hard_stop (task_id reason : string) : M bool :=
  task ← KillTaskUseCase task_id reason; after_stop task_id reason task.

Definition handle_task_cancel (task_id : string) : M bool :=
  request_task_stop task_id (reason_value USER_STOP).

Definition terminate_execution (task_id : string) : M () := TerminateExecutionUseCase task_id.

Definition reap_workers (now_ts : Z) : M () :=
  modify (λ w, set_workers (reap_dead_workers now_ts heartbeat_timeout (w_workers w)).2 w).

(** [_tick] *)
Definition scheduler_tick : M () :=
  now_ts ← time_now;
  _ ← reap_workers now_ts;
  _ ← PublishPendingDispatchesUseCase 100;
  mret ().

(** ** [execution_supervisor.py] *)

(** [_cleanup_execution_runtime] *)
Definition cleanup_execution_runtime (task_id worker_id : string) : M () :=
  _ ← forget_execution task_id;
  _ ← mark_worker_idle worker_id (Some task_id);
  catch (ReleaseNestedWaitUseCase (Some task_id) (Some task_id) (Some worker_id)) (λ _, mret ()).

(** [worker is not None and worker.is_alive(now_ts, heartbeat_timeout)] *)
Definition worker_alive (now_ts : Z) (worker : option WorkerState) : bool :=
  match worker with Some x => is_alive x now_ts heartbeat_timeout | None => false end.

Definition lost_message : string := "Task worker heartbeat was lost".

(** The body of the first loop of [_reconcile_stale_executions]. *)
Definition reconcile_active (now_ts : Z) (task : TaskExecution) : M () :=
  match te_assigned_worker_id task with
  | None => mret ()
  | Some worker_id =>
      worker ← gets (λ w, dget (w_workers w) worker_id);
      if worker_alive now_ts worker then mark_worker_busy worker_id (te_task_id task)
      else if bool_decide (worker = None) && (now_ts - supervisor_started_at <? heartbeat_timeout)%Z
      then mret ()
      else
        finalized ← FinalizeReconciledExecutionUseCase (te_task_id task) (reason_value WORKER_LOST)
                      (Some lost_message);
        match finalized with
        | None => mret ()
        | Some _ =>
            _ ← cleanup_execution_runtime (te_task_id task) worker_id;
            publish_task_terminal_event (te_task_id task) (te_user_id task) (te_project_id task)
              (te_mode task) ERROR (Some lost_message)
        end
  end.

Definition reconcile_stale_executions : M () :=
  now_ts ← time_now;
  _ ← reap_workers now_ts;
  active ← ListWorkerOwnedActiveExecutionsUseCase 1000;
  _ ← for_each active (reconcile_active now_ts);
  stale_records ← gets (λ w, exec_get_stale now_ts telemetry_stale_timeout (w_execs w));
  for_each stale_records (λ record,
    when (negb (bool_decide (xr_task_id record ∈ (te_task_id <$> active))))
      (cleanup_execution_runtime (xr_task_id record) (xr_worker_id record))).

Definition task_terminal (task : TaskExecution) : bool :=
  bool_decide (te_status task ∈ [SUCCESS; ERROR; CANCELLED]).

Definition reconcile_reservation (now_ts : Z) (reservation : NestedWaitReservation) : M () :=
  worker ← gets (λ w, dget (w_workers w) (nw_origin_worker_id reservation));
  parent ← GetTaskExecutionUseCase (nw_parent_task_id reservation);
  child ← GetTaskExecutionUseCase (nw_child_task_id reservation);
  when (match parent, child with
        | Some parent, Some child => negb (worker_alive now_ts worker) || task_terminal parent || task_terminal child
        | _, _ => true
        end)
    (ReleaseNestedWaitUseCase (Some (nw_parent_task_id reservation)) None None).

Definition reconcile_nested_wait_reservations : M () :=
  reservations ← nested_call (λ h, (list_reservations h, h));
  now_ts ← time_now;
  _ ← for_each reservations (reconcile_reservation now_ts);
  alive_worker_ids ← gets (λ w, list_to_set (ws_worker_id <$>
      filter (λ x, ws_status x = ONLINE) (get_alive_workers now_ts heartbeat_timeout (w_workers w)))
      : gset string);
  evicted ← nested_call (rebalance (Z.max (Z.of_nat (size alive_worker_ids) - 1) 0));
  for_each evicted (λ reservation,
    _ ← request_task_hard_stop (nw_parent_task_id reservation)
          (reason_value NESTED_WAIT_CAPACITY_LOST);
    mret ()).

(** The outcome the supervisor writes for a termination reason. *)
Definition cancellation_message (termination_reason : option string) : option string :=
  if bool_decide (terminal_status_for_termination_reason termination_reason = ERROR) then
    if bool_decide (termination_reason = Some (reason_value OOM_GUARD))
    then Some "Task terminated by OOM guard"
    else Some ("Task terminated: " +:+ or_str termination_reason "unknown reason")
  else None.

(** The body of the loop of [_reconcile_cancel_requested_tasks], inside its [try]. *)
Definition reconcile_cancel_requested (now_ts : Z) (task : TaskExecution) : M () :=
  execution ← gets (λ w, dget (w_execs w) (te_task_id task));
  let execution_is_stale :=
    match execution with Some x => is_stale x now_ts telemetry_stale_timeout | None => false end in
  let user_stop := bool_decide (te_termination_reason task = Some (reason_value USER_STOP)) in
  let cancellation_age := (now_ts - default now_ts (te_updated_at task))%Z in
  let escalate := user_stop && bool_decide (execution ≠ None)
                  && (stop_grace_period <=? cancellation_age)%Z in
  _ ← when escalate (terminate_execution (te_task_id task));
  if escalate && negb execution_is_stale then mret ()
  else if bool_decide (execution ≠ None) && negb execution_is_stale then mret ()
  else
    let terminal_delay := if user_stop then stop_grace_period else telemetry_stale_timeout in
    if (cancellation_age <? terminal_delay)%Z then mret ()
    else
      _ ← when (user_stop && bool_decide (execution = None)) (terminate_execution (te_task_id task));
      _ ← finalize_task_terminal_status (te_task_id task) (te_user_id task) (te_project_id task)
            (te_assigned_worker_id task) (te_mode task)
            (terminal_status_for_termination_reason (te_termination_reason task))
            (te_termination_reason task) (cancellation_message (te_termination_reason task));
      mret ().

Definition reconcile_cancel_requested_tasks : M () :=
  tasks ← ListExecutionsForReconciliationUseCase [CANCEL_REQUESTED] 1000;
  if bool_decide (length tasks = 0%nat) then mret ()
  else
    now_ts ← time_now;
    for_each tasks (λ task, catch (reconcile_cancel_requested now_ts task) (λ _, mret ())).

(** *** OOM guard *)

(** [_get_worker_memory_used_percent] *)
Definition worker_memory_used_percent (r : TaskExecutionRecord) : option Q :=
  match xr_memory_limit_bytes r with
  | None => None
  | Some limit =>
      if (limit <=? 0)%Z then None
      else Some (inject_Z (xr_rss_bytes r) / inject_Z limit * 100)%Q
  end.

(** [_request_task_kill] *)
Definition request_task_kill (task_id reason : string) : M bool :=
  task ← KillTaskUseCase task_id reason;
  mret (bool_decide (te_status <$> task = Some CANCEL_REQUESTED)).

(** [by_host[record.hostname].append(record)] over the records. *)
Definition group_by_host (records : list TaskExecutionRecord) : pydict (list TaskExecutionRecord) :=
  foldl (λ d r, dset d (xr_hostname r) (dget_default d (xr_hostname r) [] ++ [r])) [] records.

Definition larger_rss (a b : TaskExecutionRecord) : bool := (xr_rss_bytes b <? xr_rss_bytes a)%Z.

Definition Qltb (a b : Q) : bool := negb (Qle_bool b a).

(** [max(record.system_ram_used_percent for record in host_records)] *)
Definition host_pressure (records : list TaskExecutionRecord) : option Q :=
  first_max (λ a b, Qltb b a) (xr_system_ram_used_percent <$> records).

(** Whether the cooldown of the last kill on the host is still running. *)
Definition in_cooldown (now_ts : Z) (hostname : string) (last_kill : pydict Z) : bool :=
  (now_ts - dget_default last_kill hostname 0 <? oom_cooldown)%Z.

Definition record_kill (now_ts : Z) (hostname : string) : M () :=
  modify (λ w, set_last_kill (dset (w_last_kill w) hostname now_ts) w).

(** The body of the loop of [_apply_host_pressure_guard]. *)
Definition guard_host (threshold : Q) (now_ts : Z) (host : string * list TaskExecutionRecord) : M () :=
  let '(hostname, host_records) := host in
  match host_pressure host_records, first_max larger_rss host_records with
  | Some pressure, Some victim =>
      cooldown ← gets (λ w, in_cooldown now_ts hostname (w_last_kill w));
      if Qltb pressure threshold then mret ()
      else if (cooldown : bool) then mret ()
      else
        requested ← request_task_kill (xr_task_id victim) (reason_value OOM_GUARD);
        when requested (record_kill now_ts hostname)
  | _, _ => mret ()
  end.

Definition apply_host_pressure_guard (records : list TaskExecutionRecord) (settings : OOMGuardConfig)
    : M () :=
  match oom_host_threshold_percent settings with
  | None => mret ()
  | Some threshold =>
      now_ts ← time_now;
      for_each (group_by_host records) (guard_host threshold now_ts)
  end.

(** The candidate a record contributes to [_apply_worker_threshold_guard]. *)
Definition threshold_candidate (settings : OOMGuardConfig) (ty : OOMWorkerThresholdType)
    (r : TaskExecutionRecord) : option (Q * TaskExecutionRecord) :=
  match ty with
  | PERCENT =>
      match worker_memory_used_percent r, oom_worker_threshold_percent settings with
      | Some used, Some threshold => if Qltb used threshold then None else Some (used, r)
      | _, _ => None
      end
  | ABSOLUTE_MB =>
      match oom_worker_threshold_mb settings with
      | None => None
      | Some mb => if (xr_rss_bytes r <? mb * 1024 * 1024)%Z then None
                   else Some (inject_Z (xr_rss_bytes r), r)
      end
  end.

Definition threshold_candidates (settings : OOMGuardConfig) (ty : OOMWorkerThresholdType) (now_ts : Z)
    (last_kill : pydict Z) (records : list TaskExecutionRecord) : list (Q * TaskExecutionRecord) :=
  omap (λ r, if in_cooldown now_ts (xr_hostname r) last_kill then None
             else threshold_candidate settings ty r) records.

Definition larger_usage (a b : Q * TaskExecutionRecord) : bool := Qltb b.1 a.1.

Definition apply_worker_threshold_guard (records : list TaskExecutionRecord)
    (settings : OOMGuardConfig) : M () :=
  match oom_worker_threshold_type settings with
  | None => mret ()
  | Some ty =>
      now_ts ← time_now;
      last_kill ← gets w_last_kill;
      match first_max larger_usage (threshold_candidates settings ty now_ts last_kill records) with
      | None => mret ()
      | Some (_, victim) =>
          requested ← request_task_kill (xr_task_id victim) (reason_value OOM_GUARD);
          when requested (record_kill now_ts (xr_hostname victim))
      end
  end.

(** [get_app_settings]: reads the settings at the current step. *)
Definition read_oom_guard : M OOMGuardConfig := λ w,
  match env_fault (w_step w) with
  | Some ft => (Raise (ExternalError ft), bump w)
  | None => (Ok (app_oom_guard (w_step w)), bump w)
  end.

Definition apply_oom_guard : M () :=
  oom_guard_config ← read_oom_guard;
  if bool_decide (oom_mode oom_guard_config = DISABLED) then mret ()
  else
    records ← gets (λ w, dvals (w_execs w));
    match records with
    | [] => mret ()
    | _ =>
        match oom_mode oom_guard_config with
        | HOST_PRESSURE => apply_host_pressure_guard records oom_guard_config
        | WORKER_THRESHOLD => apply_worker_threshold_guard records oom_guard_config
        | DISABLED => mret ()
        end
    end.

(** [_run_step] *)
Definition run_step (step : M ()) : M bool :=
  catch (_ ← step; mret true) (λ _, mret false).

(** [_run_iteration] *)
Definition run_iteration : M bool :=
  r1 ← run_step reconcile_cancel_requested_tasks;
  r2 ← run_step reconcile_stale_executions;
  r3 ← run_step reconcile_nested_wait_reservations;
  r4 ← run_step apply_oom_guard;
  mret (r1 && r2 && r3 && r4).

(** ** [deps/commands.py] *)

(** The fields of [TaskInternal] that reach the task table, and the serialized payload
    ([model_dump]) that reaches the worker. *)
Record TaskInternal := mkTaskInternal {
  ti_task_id : string;
  ti_user_id : string;
  ti_organization_id : string;
  ti_project_id : string;
  ti_mode : PipelineExecutionMode;
  ti_source : TaskSource;
  ti_force_exec : bool;
  ti_queued_at : Z;
  ti_schedule_run_id : option string;
  ti_schedule_attempt : option Z;
  ti_payload : string;
}.

Definition task_internal_to_execution (t : TaskInternal) : TaskExecution := {|
  te_task_id := ti_task_id t;
  te_user_id := ti_user_id t;
  te_organization_id := ti_organization_id t;
  te_project_id := ti_project_id t;
  te_mode := ti_mode t;
  te_source := ti_source t;
  te_status := PENDING;
  te_force_exec := ti_force_exec t;
  te_queued_at := ti_queued_at t;
  te_schedule_run_id := ti_schedule_run_id t;
  te_schedule_attempt := ti_schedule_attempt t;
  te_assigned_worker_id := None;
  te_termination_reason := None;
  te_message := None;
  te_updated_at := None;
|}.

Definition enqueue_task_internal (task : TaskInternal) : M EnqueueTaskResult :=
  EnqueueTaskUseCase (task_internal_to_execution task) (ti_payload task).

Record TaskEnqueueDecision := mkEnqueueDecision {
  ed_accepted : bool;
  ed_task_id : string;
  ed_should_schedule : bool;
  ed_error : option string;
}.

Definition accept_task_enqueue (task : TaskInternal) : M TaskEnqueueDecision :=
  enqueued ← catch (r ← enqueue_task_internal task; mret (inl r))
    (λ exc, match exc with
            | TaskError IntegrityError => mret (inr (exn_message exc))
            | _ => raise exc
            end);
  match enqueued with
  | inr error => mret (mkEnqueueDecision false (ti_task_id task) false (Some error))
  | inl enqueue_result =>
      _ ← for_each (er_superseded enqueue_result) (λ superseded,
            publish_task_terminal_event (te_task_id superseded) (te_user_id superseded)
              (te_project_id superseded) (te_mode superseded) CANCELLED None);
      mret (mkEnqueueDecision true (ti_task_id task)
              (bool_decide (te_status (er_execution enqueue_result) = QUEUED)) None)
  end.

Record NestedTaskEnqueueCommand := mkNestedCommand {
  nc_task : TaskInternal;
  nc_origin_worker_id : string;
  nc_parent_task_id : string;
  nc_wait_for_completion : bool;
}.

(** The ids of the alive workers, as [handle_nested_task_enqueue] collects them. *)
Definition alive_worker_ids (now_ts : Z) (reg : worker_registry) : list string :=
  ws_worker_id <$> filter (λ x, ws_status x = ONLINE) (get_alive_workers now_ts heartbeat_timeout reg).

(** The rejected branch: the pending child is failed and its failure announced. *)
Definition reject_nested (command : NestedTaskEnqueueCommand) (error : option string) : M () :=
  let error_message := or_str error "Nested wait reservation was rejected." in
  failed ← FailPendingExecutionUseCase (ti_task_id (nc_task command))
             (Some (reason_value NESTED_WAIT_CAPACITY_LOST)) (Some error_message);
  match failed with
  | None => raise (RuntimeError ("Failed to reject pending nested execution task_id="
                                   +:+ ti_task_id (nc_task command)))
  | Some failed =>
      publish_task_terminal_event (te_task_id failed) (te_user_id failed) (te_project_id failed)
        (te_mode failed) ERROR (Some error_message)
  end.

(** The common tail: enqueue, and give the reservation back when the enqueue is refused. *)
Definition enqueue_nested (command : NestedTaskEnqueueCommand) (reservation_created : bool) : M () :=
  decision ← accept_task_enqueue (nc_task command);
  if negb (ed_accepted decision) then
    _ ← when reservation_created
          (ReleaseNestedWaitUseCase (Some (nc_parent_task_id command)) None None);
    raise (RuntimeError (or_str (ed_error decision) "Failed to enqueue nested task"))
  else mret ().

Definition handle_nested_task_enqueue (command : NestedTaskEnqueueCommand) : M () :=
  if nc_wait_for_completion command then
    now_ts ← time_now;
    alive ← gets (λ w, alive_worker_ids now_ts (w_workers w));
    reservation ← ReserveNestedWaitUseCase (nc_parent_task_id command)
                    (ti_task_id (nc_task command)) (nc_origin_worker_id command) alive;
    if negb (nd_accepted reservation) then reject_nested command (nd_error reservation)
    else enqueue_nested command true
  else enqueue_nested command false.

(** ** [deps/worker_event_callbacks.py] *)

Record WorkerEventPayload := mkEventPayload {
  ep_user_id : string;
  ep_project_id : string;
  ep_task_id : string;
  ep_worker_id : string;
  ep_event : worker_event;
}.

Definition forward_event (payload : WorkerEventPayload) : M () :=
  catch (send (Forwarded (ep_event payload) (ep_user_id payload) (ep_project_id payload)))
    (λ _, mret ()).

Definition handle_task_status (payload : WorkerEventPayload) (status : TaskExecutionStatus)
    (forward_notifications : bool) : M () :=
  _ ← when (bool_decide (status ∈ [SUCCESS; ERROR; CANCELLED]))
        (_ ← forget_execution (ep_task_id payload);
         _ ← mark_worker_idle (ep_worker_id payload) (Some (ep_task_id payload));
         ReleaseNestedWaitUseCase (Some (ep_task_id payload)) (Some (ep_task_id payload)) None);
  when forward_notifications (forward_event payload).

Definition handle_task_execution_telemetry (payload : WorkerEventPayload) (hostname : string)
    (pid rss_bytes : Z) (memory_limit_bytes : option Z) (percent : Q) : M () :=
  _ ← mark_worker_busy (ep_worker_id payload) (ep_task_id payload);
  now_ts ← time_now;
  modify (λ w, set_execs (exec_upsert
    (mkExecRecord (ep_task_id payload) (ep_worker_id payload) hostname pid rss_bytes
       memory_limit_bytes percent now_ts) (w_execs w)) w).

Definition handle_worker_event (payload : WorkerEventPayload) (forward_notifications : bool) : M () :=
  match ep_event payload with
  | TaskExecutionStatusEvent _ _ status _ => handle_task_status payload status forward_notifications
  | TaskExecutionTelemetryEvent hostname pid rss limit percent =>
      handle_task_execution_telemetry payload hostname pid rss limit percent
  | NodeExecutionStatusEvent _ => when forward_notifications (forward_event payload)
  | NodeMetadataEvent _ => when forward_notifications (forward_event payload)
  | OtherEvent _ => mret ()
  end.

(** [HeartbeatListener]: what one valid message does to the registry. *)
Definition handle_heartbeat (hb : Heartbeat) : M () :=
  received_at ← time_now;
  modify (λ w, set_workers (update_from_heartbeat hb received_at (w_workers w)).2 w).

(** ** [servicers/orchestrator.py] *)

(** A gRPC response: [accepted], the task id of an enqueue, and the error text. *)
Record Response := mkResponse {
  rp_accepted : bool;
  rp_task_id : string;
  rp_error : string;
}.

(** [EnqueueTask]; [parse] is the validation of the JSON payload. *)
Definition EnqueueTask (parse : string → outcome string TaskInternal) (task_payload_json : string)
    : M Response :=
  if negb (str_truthy task_payload_json) then mret (mkResponse false "" "task_payload_json is required")
  else
    match parse task_payload_json with
    | Raise exc => mret (mkResponse false "" ("Invalid task payload: " +:+ exc))
    | Ok task =>
        decision ← accept_task_enqueue task;
        if negb (ed_accepted decision)
        then mret (mkResponse false "" (or_str (ed_error decision) "Failed to enqueue task"))
        else mret (mkResponse true (ed_task_id decision) "")
    end.

Definition CancelTask (task_id : string) : M Response :=
  if negb (str_truthy task_id) then mret (mkResponse false "" "task_id is required")
  else
    catch (_ ← handle_task_cancel task_id; mret (mkResponse true "" ""))
      (λ exc, mret (mkResponse false "" (exn_message exc))).

(** The attributes of the module [src/enums.py]: its imports and classes, and [ExecMode], the
    only name its [__getattr__] resolves. *)
Definition src_enums_attributes : list string :=
  ["Enum"; "lru_cache"; "TYPE_CHECKING"; "Any"; "BaseEnum"; "DVTDefaultRoles"; "Locales"; "NodeType";
   "ExecutionStatus"; "RetryBackoff"; "WorkerStatus"; "AIAnalysisStatus"; "OOMGuardMode";
   "OOMWorkerThresholdType"; "ExtensionDepsStatus"; "ExecMode"].

Definition enums_getattr (name : string) : outcome exn () :=
  if bool_decide (name ∈ src_enums_attributes) then Ok ()
  else Raise (AttributeError ("module 'src.enums' has no attribute '" +:+ name +:+ "'")).

Inductive TaskControlCommand := STOP | HARD_STOP.

(** [TaskControlCommand(value)]; [None] is the [ValueError]. *)
Definition TaskControlCommand_of (s : string) : option TaskControlCommand :=
  if bool_decide (s = "STOP") then Some STOP
  else if bool_decide (s = "HARD_STOP") then Some HARD_STOP else None.

Definition ControlTask (task_id command : string) : M Response :=
  if negb (str_truthy task_id) then mret (mkResponse false "" "task_id is required")
  else if negb (str_truthy command) then mret (mkResponse false "" "command is required")
  else
    match enums_getattr "TaskControlCommand" with
    | Raise exc => raise exc
    | Ok _ =>
        match TaskControlCommand_of command with
        | None => mret (mkResponse false "" ("Unknown command: " +:+ command))
        | Some c =>
            catch
              (_ ← match c with
                   | STOP => request_task_stop task_id (reason_value USER_STOP)
                   | HARD_STOP => request_task_hard_stop task_id (reason_value USER_HARD_STOP)
                   end;
               mret (mkResponse true "" ""))
              (λ exc, mret (mkResponse false "" (exn_message exc)))
        end
    end.

End Orchestrator.

(** ** Every operation keeps the lifecycle and the registry *)

Section OrchestratorRespects.
Context {env : Env} {cfg : OrchConfig}.

Lemma kept_idle wid tid : respects workers_kept (mark_worker_idle wid tid).
Proof. apply kept_workers. intros. by apply mark_idle_ok. Qed.

Lemma kept_busy wid tid : respects workers_kept (mark_worker_busy wid tid).
Proof. apply kept_workers. intros. by apply mark_busy_ok. Qed.

Lemma kept_reap now : respects workers_kept (reap_workers now).
Proof. apply kept_workers. intros. by apply reap_dead_workers_ok. Qed.

Lemma evolves_read_guard : respects world_evolves read_oom_guard.
Proof. intros w. unfold read_oom_guard. case_match; by apply world_evolves_db. Qed.

Lemma kept_read_guard : respects workers_kept read_oom_guard.
Proof. intros w Hw. unfold read_oom_guard. by case_match. Qed.

End OrchestratorRespects.

#[export] Hint Resolve kept_idle kept_busy kept_reap evolves_read_guard kept_read_guard : respects.

(** Both relations at once: repository transactions only, and a well-formed registry. *)
Definition world_safe {env : Env} (w w' : World) : Prop := world_evolves w w' ∧ workers_kept w w'.

#[global] Instance world_safe_preorder {env : Env} : PreOrder world_safe.
Proof.
  split; [by intros w|]. intros w1 w2 w3 [H1 P1] [H2 P2]. split; by etrans.
Qed.

Section OrchestratorSafe.
Context {env : Env} {cfg : OrchConfig}.

Lemma respects_safe {A} (m : M A) :
  respects world_evolves m → respects workers_kept m → respects world_safe m.
Proof. intros H1 H2 w. split; auto. Qed.

#[local] Hint Resolve respects_safe : respects.

Ltac split_calls :=
  unfold forget_execution, mark_worker_idle, mark_worker_busy, reap_workers, record_kill,
    publish_task_terminal_event, forward_event, terminate_execution, TerminateExecutionUseCase,
    transport_revoke; respects_split.

Lemma safe_forget tid : respects world_safe (forget_execution tid).
Proof. apply respects_safe; [apply respects_execs|apply kept_execs]. Qed.

Lemma safe_idle wid tid : respects world_safe (mark_worker_idle wid tid).
Proof. apply respects_safe; [apply respects_workers|apply kept_idle]. Qed.

Lemma safe_busy wid tid : respects world_safe (mark_worker_busy wid tid).
Proof. apply respects_safe; [apply respects_workers|apply kept_busy]. Qed.

Lemma safe_reap now : respects world_safe (reap_workers now).
Proof. apply respects_safe; [apply respects_workers|apply kept_reap]. Qed.

Lemma safe_record_kill now h : respects world_safe (record_kill now h).
Proof. apply respects_safe; [apply respects_last_kill|apply kept_last_kill]. Qed.

Lemma safe_read {A} (f : TaskDB → A) : respects world_safe (db_read f).
Proof. apply respects_safe; [apply respects_db_read|apply kept_db_call]. Qed.

#[local] Hint Resolve safe_forget safe_idle safe_busy safe_reap safe_record_kill safe_read : respects.

Lemma safe_event tid u p m st e : respects world_safe (publish_task_terminal_event tid u p m st e).
Proof. unfold publish_task_terminal_event. respects_split. Qed.

#[local] Hint Resolve safe_event : respects.

Lemma safe_finalize_terminal tid u p wid m st r e :
  respects world_safe (finalize_task_terminal_status tid u p wid m st r e).
Proof. unfold finalize_task_terminal_status. respects_split. Qed.

Lemma safe_after_stop tid r t : respects world_safe (after_stop tid r t).
Proof. unfold after_stop. respects_split. Qed.

Lemma safe_cleanup tid wid : respects world_safe (cleanup_execution_runtime tid wid).
Proof. unfold cleanup_execution_runtime. respects_split. Qed.

Lemma safe_terminate tid : respects world_safe (terminate_execution tid).
Proof. apply respects_safe; [apply respects_send|apply kept_send]. Qed.

#[local] Hint Resolve safe_finalize_terminal safe_after_stop safe_cleanup safe_terminate : respects.

Lemma safe_request_stop tid r : respects world_safe (request_task_stop tid r).
Proof. unfold request_task_stop. respects_split. Qed.

Lemma safe_hard_stop tid r : respects world_safe (request_task_hard_stop tid r).
Proof. unfold request_task_hard_stop. respects_split. Qed.

Lemma safe_kill tid r : respects world_safe (request_task_kill tid r).
Proof. unfold request_task_kill. respects_split. Qed.

#[local] Hint Resolve safe_request_stop safe_hard_stop safe_kill : respects.

Lemma safe_reconcile_active now t : respects world_safe (reconcile_active now t).
Proof. unfold reconcile_active. respects_split. Qed.

Lemma safe_reconcile_reservation now r : respects world_safe (reconcile_reservation now r).
Proof. unfold reconcile_reservation, GetTaskExecutionUseCase. respects_split. Qed.

Lemma safe_reconcile_cancel now t : respects world_safe (reconcile_cancel_requested now t).
Proof. unfold reconcile_cancel_requested. respects_split. Qed.

Lemma safe_guard_host th now h : respects world_safe (guard_host th now h).
Proof. unfold guard_host. destruct h. respects_split. Qed.

#[local] Hint Resolve safe_reconcile_active safe_reconcile_reservation safe_reconcile_cancel
  safe_guard_host : respects.

Lemma safe_apply_oom_guard : respects world_safe apply_oom_guard.
Proof.
  unfold apply_oom_guard, apply_host_pressure_guard, apply_worker_threshold_guard. respects_split.
Qed.

Lemma safe_reconcile_steps :
  respects world_safe reconcile_cancel_requested_tasks ∧
  respects world_safe reconcile_stale_executions ∧
  respects world_safe reconcile_nested_wait_reservations.
Proof.
  unfold reconcile_cancel_requested_tasks, reconcile_stale_executions,
    reconcile_nested_wait_reservations, ListExecutionsForReconciliationUseCase,
    ListWorkerOwnedActiveExecutionsUseCase.
  split_and!; respects_split.
Qed.

Lemma safe_run_step step : respects world_safe step → respects world_safe (run_step step).
Proof. intros H. unfold run_step. respects_split. Qed.

Lemma safe_run_iteration : respects world_safe run_iteration.
Proof.
  destruct safe_reconcile_steps as (H1 & H2 & H3).
  unfold run_iteration. respects_split; apply safe_run_step; auto using safe_apply_oom_guard.
Qed.

Lemma safe_accept t : respects world_safe (accept_task_enqueue t).
Proof. unfold accept_task_enqueue, enqueue_task_internal. respects_split. Qed.

#[local] Hint Resolve safe_accept : respects.

Lemma safe_enqueue_nested c b : respects world_safe (enqueue_nested c b).
Proof. unfold enqueue_nested. respects_split. Qed.

#[local] Hint Resolve safe_enqueue_nested : respects.

Lemma safe_nested_enqueue c : respects world_safe (handle_nested_task_enqueue c).
Proof.
  unfold handle_nested_task_enqueue, reject_nested, ReserveNestedWaitUseCase. respects_split.
Qed.

Lemma safe_worker_event p b : respects world_safe (handle_worker_event p b).
Proof.
  unfold handle_worker_event, handle_task_status, handle_task_execution_telemetry, forward_event.
  respects_split.
Qed.

Lemma safe_heartbeat hb : respects world_safe (handle_heartbeat hb).
Proof.
  unfold handle_heartbeat. respects_split. apply respects_safe; [apply respects_workers|].
  apply (kept_workers (λ reg, (update_from_heartbeat hb a reg).2)). intros.
  by apply update_from_heartbeat_ok.
Qed.

Lemma safe_tick : respects world_safe scheduler_tick.
Proof. unfold scheduler_tick. respects_split. Qed.

Lemma safe_servicer parse json tid cmd :
  respects world_safe (EnqueueTask parse json) ∧ respects world_safe (CancelTask tid) ∧
  respects world_safe (ControlTask tid cmd).
Proof.
  unfold EnqueueTask, CancelTask, ControlTask, handle_task_cancel. split_and!; respects_split.
Qed.

End OrchestratorSafe.

(** ** Properties *)

(** The operations of the Orchestrator process, as its loops and servers invoke them. *)
Inductive orchestrator_op :=
  | OpTick
  | OpIteration
  | OpWorkerEvent (payload : WorkerEventPayload) (forward : bool)
  | OpWorkerHeartbeat (hb : Heartbeat)
  | OpNestedEnqueue (command : NestedTaskEnqueueCommand)
  | OpEnqueueTask (parse : string → outcome string TaskInternal) (json : string)
  | OpCancelTask (task_id : string)
  | OpControlTask (task_id command : string).

Section Properties.
Context {env : Env} {cfg : OrchConfig}.

Definition run_operation (op : orchestrator_op) : World → World := λ w,
  match op with
  | OpTick => (scheduler_tick w).2
  | OpIteration => (run_iteration w).2
  | OpWorkerEvent p b => (handle_worker_event p b w).2
  | OpWorkerHeartbeat hb => (handle_heartbeat hb w).2
  | OpNestedEnqueue c => (handle_nested_task_enqueue c w).2
  | OpEnqueueTask parse json => (EnqueueTask parse json w).2
  | OpCancelTask tid => (CancelTask tid w).2
  | OpControlTask tid cmd => (ControlTask tid cmd w).2
  end.

Lemma run_operation_safe op w : world_safe w (run_operation op w).
Proof.
  destruct op; cbn [run_operation].
  - apply safe_tick.
  - apply safe_run_iteration.
  - apply safe_worker_event.
  - apply safe_heartbeat.
  - apply safe_nested_enqueue.
  - apply (safe_servicer parse json "" "").
  - apply (safe_servicer (λ _, Raise "") "" task_id "").
  - apply (safe_servicer (λ _, Raise "") "" task_id command).
Qed.

(** Whatever the Orchestrator does, in whatever order, and whatever fails or runs beside it,
    the database it leaves is one the repository transactions can reach, its worker registry
    stays well formed, and no message already sent is forgotten. *)
Theorem orchestrator_keeps_invariants ops w :
  reachable env_fk (w_db w) → registry_ok (w_workers w) →
  let w' := foldl (λ w op, run_operation op w) w ops in
  reachable env_fk (w_db w') ∧ registry_ok (w_workers w') ∧ w_trace w `prefix_of` w_trace w'.
Proof.
  intros Hr Hk. cut (world_safe w (foldl (λ w op, run_operation op w) w ops)).
  { intros [[Hs Hp] Hw]. split_and!; [|by apply Hw|done]. unfold reachable. by etrans. }
  clear. revert w; induction ops as [|op ops IH]; intros w; simpl; [reflexivity|].
  etrans; [apply run_operation_safe|apply IH].
Qed.

Lemma run_step_eq step w : ∃ b, run_step step w = (Ok b, (step w).2).
Proof.
  unfold run_step, catch, mbind, M_bind. destruct (step w) as [[[]|e] w']; simpl; eauto.
Qed.

(** A supervisor iteration always completes: a step that raises is reported as failed and
    the next one starts from the world it left, so that all four steps run. *)
Theorem supervisor_iteration_completes w :
  ∃ b, run_iteration w =
    (Ok b, (apply_oom_guard (reconcile_nested_wait_reservations (reconcile_stale_executions
              (reconcile_cancel_requested_tasks w).2).2).2).2).
Proof.
  unfold run_iteration, mbind, M_bind.
  repeat match goal with |- context [run_step ?s ?w] =>
    let b := fresh "b" in destruct (run_step_eq s w) as [b ->] end.
  eexists. reflexivity.
Qed.

(** A control request with both fields set always raises: the handler looks the command
    enumeration up in a module that does not define it, and the exception is not the
    [ValueError] it catches. No stop is requested. *)
Theorem control_task_always_raises task_id command w :
  task_id ≠ "" → command ≠ "" →
  ControlTask task_id command w
  = (Raise (AttributeError "module 'src.enums' has no attribute 'TaskControlCommand'"), w).
Proof.
  intros Ht Hc. unfold ControlTask, str_truthy.
  rewrite !bool_decide_eq_false_2 by done. reflexivity.
Qed.

End Properties.
