(* ===== verification/Supervisor.v ===== *)
(** * Orchestrator: what the supervisor achieves

    Theorems about [TaskExecutionSupervisor] as modelled in [Orchestrator]: the recovery of
    executions whose worker was lost, the completion of requested cancellations, the
    authoritative commit of the finalizer, and the choice of the OOM guard. *)
From S2P Require Import Prelude TaskTypes TaskStore TaskLifecycle NestedWait Workers Flow Orchestrator.
From Stdlib Require Import QArith.

(** ** Programs that touch only the reservations and the trace *)

Definition frame (w w' : World) : Prop :=
  w_db w' = w_db w ∧ w_workers w' = w_workers w ∧ w_execs w' = w_execs w ∧
  w_last_kill w' = w_last_kill w.

#[global] Instance frame_preorder : PreOrder frame.
Proof.
  split; [by intros w|]. intros w1 w2 w3 (?&?&?&?) (?&?&?&?). unfold frame. split_and!; congruence.
Qed.

Section Frames.
Context {env : Env} {cfg : OrchConfig}.

Lemma frame_send e : respects frame (send e).
Proof. intros w. by destruct (send_cases e w) as [->|[ft ->]]. Qed.

Lemma frame_nested {A} (f : reservations → A * reservations) : respects frame (nested_call f).
Proof. intros w. unfold nested_call. case_match; [done|]. by destruct (f _). Qed.

#[local] Hint Resolve frame_send frame_nested : respects.

Lemma frame_release p c x : respects frame (ReleaseNestedWaitUseCase p c x).
Proof. unfold ReleaseNestedWaitUseCase, release_call. respects_split. Qed.

Lemma swallow_total {A} (m : M A) (R : relation World) w a :
  respects R m → ∃ b w', catch m (λ _, mret a) w = (Ok b, w') ∧ R w w'.
Proof.
  intros H. specialize (H w). unfold catch. destruct (m w) as [[b|e] w']; simpl in *; eauto.
Qed.

(** Announcing an event and cleaning up never raise, whatever fails. *)
Lemma event_total tid u p m st e w :
  ∃ w', publish_task_terminal_event tid u p m st e w = (Ok (), w') ∧ frame w w'.
Proof.
  unfold publish_task_terminal_event.
  destruct (swallow_total _ _ w () (frame_send (Forwarded (TaskExecutionStatusEvent tid m st e) u p)))
    as ([] & w' & ? & ?). eauto.
Qed.

Lemma cleanup_total tid wid w :
  ∃ w', cleanup_execution_runtime tid wid w = (Ok (), w') ∧ w_db w' = w_db w ∧
    w_workers w' = registry_mark_idle wid (Some tid) (w_workers w) ∧
    w_execs w' = exec_remove tid (w_execs w).
Proof.
  unfold cleanup_execution_runtime. rewrite !M_bind_eq. unfold forget_execution, mark_worker_idle, modify.
  rewrite M_bind_eq. set (w1 := set_workers _ _).
  destruct (swallow_total _ _ w1 () (frame_release (Some tid) (Some tid) (Some wid)))
    as ([] & w' & E & Hdb & Hwk & Hex & _).
  exists w'. rewrite E, Hdb, Hwk, Hex. done.
Qed.

End Frames.

(** ** Liveness of workers is not changed by busy marks and reaping *)

Section Liveness.
Context {env : Env} {cfg : OrchConfig} (now : Z).

Definition same_liveness (reg reg' : worker_registry) : Prop :=
  ∀ k, worker_alive now (dget reg k) = worker_alive now (dget reg' k) ∧
       (dget reg k = None ↔ dget reg' k = None).

#[global] Instance same_liveness_preorder : PreOrder same_liveness.
Proof.
  split; [done|]. intros r1 r2 r3 H1 H2 k. destruct (H1 k), (H2 k). split; [congruence|tauto].
Qed.

Lemma same_liveness_dset reg k w w' :
  dget reg k = Some w → worker_alive now (Some w) = worker_alive now (Some w') →
  same_liveness reg (dset reg k w').
Proof.
  intros E H k'. rewrite dget_dset. case_decide; subst; [|done]. rewrite E. by split.
Qed.

Lemma same_liveness_busy wid tid reg : same_liveness reg (registry_mark_busy wid tid reg).
Proof.
  unfold registry_mark_busy. destruct (dget reg wid) as [w|] eqn:E; [|done].
  eapply same_liveness_dset; [done|]. by destruct w.
Qed.

Lemma same_liveness_idle wid tid reg : same_liveness reg (registry_mark_idle wid tid reg).
Proof.
  unfold registry_mark_idle. destruct (dget reg wid) as [w|] eqn:E; [|done].
  case_match; [done|]. eapply same_liveness_dset; [done|]. by destruct w.
Qed.

Lemma same_liveness_reap reg : same_liveness reg (reap_dead_workers now heartbeat_timeout reg).2.
Proof.
  intros k. rewrite reap_dead_workers_get. destruct (dget reg k) as [w|]; simpl; [|done].
  split; [|done]. unfold reap_one. destruct (is_alive w now heartbeat_timeout) eqn:E; simpl; [done|].
  case_match; [|done]. by destruct w.
Qed.

(** A worker the supervisor considers lost: known and silent, or unknown after the grace period
    that follows a restart. *)
Definition worker_lost (reg : worker_registry) (worker_id : string) : bool :=
  match dget reg worker_id with
  | Some x => negb (is_alive x now heartbeat_timeout)
  | None => negb (now - supervisor_started_at <? heartbeat_timeout)%Z
  end.

Lemma worker_lost_same reg reg' wid :
  same_liveness reg reg' → worker_lost reg wid = worker_lost reg' wid.
Proof.
  intros H. destruct (H wid) as [Ha Hn]. unfold worker_lost, worker_alive in *.
  destruct (dget reg wid), (dget reg' wid); [by f_equal|..|done].
  - discriminate (proj2 Hn eq_refl).
  - discriminate (proj1 Hn eq_refl).
Qed.

End Liveness.

(** ** Recovery of lost executions *)

Section Recovery.
Context {env : Env} {cfg : OrchConfig}.

(** [finalize_reconciled] with WORKER_LOST on a row its worker owns. *)
Lemma finalize_lost tid message now db r :
  tasks db !! tid = Some r → tr_status r ∈ [STARTED; RUNNING] → tr_termination_reason r = None →
  ∃ r', finalize_reconciled tid (reason_value WORKER_LOST) message now db
        = (Some (to_entity r'), db_put r' db) ∧
    tr_task_id r' = tr_task_id r ∧ tr_status r' = ERROR ∧
    tr_termination_reason r' = Some (reason_value WORKER_LOST).
Proof.
  intros Hr Hs Hn. unfold finalize_reconciled. rewrite Hr, Hn.
  rewrite bool_decide_eq_false_2 by (destruct (tr_status r); set_solver).
  rewrite (bool_decide_eq_true_2 (tr_status r ∈ [STARTED; RUNNING])) by done.
  cbn [choose_termination_reason normalize_termination_request andb negb].
  rewrite andb_false_r. eexists. split; [reflexivity|]. destruct r, message; done.
Qed.

(** The row an active execution was read from. *)
Definition active_row (db : TaskDB) (t : TaskExecution) (r : TaskRecord) (wid : string) : Prop :=
  t = to_entity r ∧ tasks db !! tr_task_id r = Some r ∧ tr_status r ∈ [STARTED; RUNNING] ∧
  tr_assigned_worker_id r = Some wid ∧ tr_termination_reason r = None.

Definition lost_row (r' : TaskRecord) : Prop :=
  tr_status r' = ERROR ∧ tr_termination_reason r' = Some (reason_value WORKER_LOST).

Lemma reconcile_active_quiet now t r wid w :
  quiet → active_row (w_db w) t r wid →
  ∃ w', reconcile_active now t w = (Ok (), w') ∧ same_liveness now (w_workers w) (w_workers w') ∧
    (if worker_lost now (w_workers w) wid
     then ∃ r', lost_row r' ∧ tasks (w_db w') = <[tr_task_id r := r']> (tasks (w_db w))
     else tasks (w_db w') = tasks (w_db w)).
Proof.
  intros Hq (-> & Hr & Hs & Hw & Hn). unfold reconcile_active.
  cbn [te_assigned_worker_id to_entity te_task_id]. rewrite Hw, M_bind_eq. unfold gets; cbv beta iota.
  unfold worker_lost, worker_alive.
  assert (∃ w', (finalized ← FinalizeReconciledExecutionUseCase (tr_task_id r) (reason_value WORKER_LOST)
                      (Some lost_message);
        match finalized with
        | None => mret ()
        | Some _ =>
            _ ← cleanup_execution_runtime (tr_task_id r) wid;
            publish_task_terminal_event (tr_task_id r) (tr_user_id r) (tr_project_id r)
              (tr_mode r) ERROR (Some lost_message)
        end) w = (Ok (), w') ∧ same_liveness now (w_workers w) (w_workers w') ∧
     ∃ r', lost_row r' ∧ tasks (w_db w') = <[tr_task_id r := r']> (tasks (w_db w))) as Hlost.
  { rewrite M_bind_eq. unfold FinalizeReconciledExecutionUseCase. rewrite bool_decide_eq_true_2 by by_decide.
    cbn [negb]. rewrite quiet_db_write by done.
    destruct (finalize_lost (tr_task_id r) (Some lost_message) (env_clock (w_step w)) (w_db w) r Hr Hs Hn)
      as (r' & -> & Hid & Hst & Hre). cbn [fst snd]. rewrite M_bind_eq.
    edestruct (cleanup_total (tr_task_id r) wid) as (w1 & -> & Hdb & Hwk & _).
    edestruct event_total as (w2 & -> & Hdb2 & Hwk2 & _). exists w2. split; [done|]. split.
    - rewrite Hwk2, Hwk. apply same_liveness_idle.
    - exists r'. split; [done|]. rewrite Hdb2, Hdb. simpl. by rewrite Hid. }
  destruct (dget (w_workers w) wid) as [x|] eqn:Ex.
  - destruct (is_alive x now heartbeat_timeout) eqn:Ha; simpl; [|exact Hlost].
    eexists. split; [reflexivity|]. split; [apply same_liveness_busy|done].
  - cbn [negb]. destruct (now - supervisor_started_at <? heartbeat_timeout)%Z eqn:El; simpl; [|exact Hlost].
    eexists. split; [reflexivity|]. done.
Qed.

Lemma active_row_other db db' t r wid :
  tasks db' !! tr_task_id r = tasks db !! tr_task_id r → active_row db t r wid → active_row db' t r wid.
Proof. intros E (? & Hr & ? & ? & ?). split_and!; [done|by rewrite E|done..]. Qed.

Lemma active_row_inj db t r r' wid wid' :
  active_row db t r wid → active_row db t r' wid' → tr_task_id r = tr_task_id r' ∧ wid = wid'.
Proof.
  intros (-> & _ & _ & Hw & _) (E & _ & _ & Hw' & _). split; [by apply (f_equal te_task_id) in E|].
  apply (f_equal te_assigned_worker_id) in E. simpl in E. congruence.
Qed.

Lemma active_row_id db t r wid : active_row db t r wid → te_task_id t = tr_task_id r.
Proof. by intros (-> & _). Qed.

Lemma reconcile_active_loop now l w :
  quiet → NoDup (te_task_id <$> l) → (∀ t, t ∈ l → ∃ r wid, active_row (w_db w) t r wid) →
  ∃ w', for_each l (reconcile_active now) w = (Ok (), w') ∧
    (∀ t r wid, t ∈ l → active_row (w_db w) t r wid → worker_lost now (w_workers w) wid = true →
       ∃ r', lost_row r' ∧ tasks (w_db w') !! tr_task_id r = Some r') ∧
    (∀ id, (∀ t r wid, t ∈ l → active_row (w_db w) t r wid → tr_task_id r = id →
              worker_lost now (w_workers w) wid = false) →
       tasks (w_db w') !! id = tasks (w_db w) !! id).
Proof.
  intros Hq. revert w; induction l as [|t l IH]; intros w Hnd Hall.
  { exists w. split; [done|]. split; [|done]. by intros t r wid ?%not_elem_of_nil. }
  cbn [for_each]. rewrite M_bind_eq. rewrite fmap_cons in Hnd. apply NoDup_cons in Hnd as [Hnt Hnd].
  destruct (Hall t) as (r & wid & Hrow); [left|].
  destruct (reconcile_active_quiet now t r wid w Hq Hrow) as (w1 & -> & Hlive & Hdb).
  assert (∀ id, id ≠ tr_task_id r → tasks (w_db w1) !! id = tasks (w_db w) !! id) as Hother.
  { intros id Hid. destruct (worker_lost _ _ _); [destruct Hdb as (r' & _ & ->)|by rewrite Hdb].
    by rewrite lookup_insert_ne. }
  assert (∀ t0 r0, t0 ∈ l → te_task_id t0 = tr_task_id r0 → tr_task_id r0 ≠ tr_task_id r) as Hne.
  { intros t0 r0 Hin E Hrr. apply Hnt. rewrite (active_row_id _ _ _ _ Hrow), <-Hrr, <-E.
    by apply list_elem_of_fmap_2. }
  destruct (IH w1 Hnd) as (w' & -> & Hlost & Hsame).
  { intros t0 Hin. destruct (Hall t0) as (r0 & wid0 & Hr0); [by right|]. exists r0, wid0.
    eapply active_row_other; [|done]. eapply Hother, Hne; eauto using active_row_id. }
  exists w'. split; [done|]. split.
  - intros t0 r0 wid0 [->|Hin]%elem_of_cons Hr0 Hl.
    + destruct (active_row_inj _ _ _ _ _ _ Hr0 Hrow) as [Eid ->]. rewrite Hl in Hdb.
      destruct Hdb as (r' & Hr' & Hdb). exists r'. split; [done|]. rewrite Eid, Hsame, Hdb.
      * apply lookup_insert_eq.
      * intros t1 r1 wid1 Hin Hr1 E1. destruct (Hne t1 r1); eauto using active_row_id.
    + eapply Hlost; [done| |by rewrite <-(worker_lost_same now _ _ wid0 Hlive)].
      eapply active_row_other; [|done]. eapply Hother, Hne; eauto using active_row_id.
  - intros id Hid. rewrite Hsame.
    + destruct (decide (id = tr_task_id r)) as [->|Hn]; [|by apply Hother].
      rewrite (Hid t r wid) in Hdb by (done || left). by rewrite Hdb.
    + intros t1 r1 wid1 Hin Hr1 E1. rewrite <-(worker_lost_same now _ _ wid1 Hlive).
      eapply Hid; [by right| |done]. eapply active_row_other; [|done]. symmetry.
      eapply Hother, Hne; eauto using active_row_id.
Qed.

Lemma for_each_total {A} (l : list A) (body : A → M ()) (R : relation World) `{!PreOrder R} w :
  (∀ x w, ∃ w', body x w = (Ok (), w') ∧ R w w') → ∃ w', for_each l body w = (Ok (), w') ∧ R w w'.
Proof.
  intros Hb. revert w; induction l as [|x l IH]; intros w; cbn [for_each]; [by eexists|].
  rewrite M_bind_eq. destruct (Hb x w) as (w1 & -> & H1). destruct (IH w1) as (w2 & -> & H2).
  exists w2. split; [done|by etrans].
Qed.

Definition same_db (w w' : World) : Prop := w_db w' = w_db w.

#[local] Instance same_db_preorder : PreOrder same_db.
Proof. split; [done|]. intros w1 w2 w3 H1 H2. unfold same_db in *. congruence. Qed.

Lemma orphan_cleanup_total (ids : list string) l w :
  ∃ w', for_each l (λ record, when (negb (bool_decide (xr_task_id record ∈ ids)))
          (cleanup_execution_runtime (xr_task_id record) (xr_worker_id record))) w = (Ok (), w') ∧
    same_db w w'.
Proof.
  apply (for_each_total _ _ same_db). intros x w0. unfold when. case_match; [|by eexists].
  destruct (cleanup_total (xr_task_id x) (xr_worker_id x) w0) as (w5 & ? & ? & _). by exists w5.
Qed.

(** The rows [list_worker_owned_active] reads, when they fit its limit. *)
Definition active_rows (db : TaskDB) : list TaskRecord :=
  filter (λ r, worker_owned_active r = true) (map_to_list (tasks db)).*2.

Lemma list_active_all limit db :
  length (active_rows db) ≤ limit →
  ∃ l, list_worker_owned_active limit db = to_entity <$> l ∧ l ≡ₚ active_rows db.
Proof.
  intros Hlen. unfold list_worker_owned_active.
  rewrite take_ge by (rewrite merge_sort_Permutation; exact Hlen).
  eexists. split; [done|]. apply merge_sort_Permutation.
Qed.

Lemma active_rows_spec db r :
  db_inv db → r ∈ active_rows db → ∃ wid, active_row db (to_entity r) r wid.
Proof.
  intros [Hk Hrows _] [Hw Hin]%list_elem_of_filter.
  apply list_elem_of_fmap in Hin as ([id r0] & -> & Hin%elem_of_map_to_list). simpl in *.
  unfold worker_owned_active in Hw. rewrite andb_true_iff, !bool_decide_eq_true in Hw.
  destruct Hw as [Hs Hw]. destruct (tr_assigned_worker_id r0) as [wid|] eqn:Ew; [|done].
  exists wid. split_and!; [done| |done|done|].
  - by rewrite (Hk id r0).
  - eapply ro_no_reason; [by eapply Hrows|]. destruct (tr_status r0); set_solver.
Qed.

Lemma elem_of_active_rows db id r wid :
  tasks db !! id = Some r → tr_status r ∈ WORKER_OWNED_ACTIVE_STATUSES →
  tr_assigned_worker_id r = Some wid → r ∈ active_rows db.
Proof.
  intros Hr Hs Hw. apply list_elem_of_filter. split.
  - unfold worker_owned_active. rewrite Hw, !bool_decide_eq_true_2 by done. done.
  - apply list_elem_of_fmap. exists (id, r). split; [done|]. by apply elem_of_map_to_list.
Qed.

Lemma active_rows_NoDup db : keys_ok db → NoDup (tr_task_id <$> active_rows db).
Proof.
  intros Hk. eapply sublist_NoDup; [|apply fmap_sublist, sublist_filter].
  rewrite map_to_list_task_ids by done. apply NoDup_fst_map_to_list.
Qed.

Lemma active_row_elem db r wid :
  active_row db (to_entity r) r wid → r ∈ active_rows db.
Proof. intros (_ & Hr & Hs & Hw & _). by eapply elem_of_active_rows. Qed.

(** One pass, in terms of the rows it reads. *)
Lemma reconcile_stale_quiet w :
  quiet → db_inv (w_db w) → length (active_rows (w_db w)) ≤ 1000 →
  let lost wid := worker_lost (env_clock (w_step w)) (w_workers w) wid in
  ∃ w', reconcile_stale_executions w = (Ok (), w') ∧
    (∀ r wid, r ∈ active_rows (w_db w) → tr_assigned_worker_id r = Some wid → lost wid = true →
       ∃ r', lost_row r' ∧ tasks (w_db w') !! tr_task_id r = Some r') ∧
    (∀ id, (∀ r wid, r ∈ active_rows (w_db w) → tr_assigned_worker_id r = Some wid →
              tr_task_id r = id → lost wid = false) →
       tasks (w_db w') !! id = tasks (w_db w) !! id).
Proof.
  intros Hq Hinv Hlen lost. unfold reconcile_stale_executions. rewrite M_bind_eq.
  unfold time_now; cbv beta iota. rewrite M_bind_eq. unfold reap_workers, modify; cbv beta iota.
  set (now := env_clock (w_step w)). set (w1 := set_workers _ _).
  rewrite M_bind_eq. unfold ListWorkerOwnedActiveExecutionsUseCase, db_read.
  erewrite quiet_db_call by done. cbv beta iota.
  destruct (list_active_all 1000 (w_db w1) Hlen) as (l & -> & Hl).
  set (w2 := set_db _ _). change (w_db w1) with (w_db w) in Hl.
  assert (∀ r0, r0 ∈ l → ∃ wid, active_row (w_db w2) (to_entity r0) r0 wid) as Hact.
  { intros r0 Hin. apply active_rows_spec; [done|]. change (r0 ∈ active_rows (w_db w)). by rewrite <-Hl. }
  assert (∀ wid, worker_lost now (w_workers w2) wid = lost wid) as Hlive.
  { intros wid. symmetry. apply worker_lost_same, same_liveness_reap. }
  rewrite M_bind_eq. destruct (reconcile_active_loop now (to_entity <$> l) w2) as (w3 & -> & Hlost & Hsame).
  { done. }
  { rewrite <-list_fmap_compose. change (NoDup (tr_task_id <$> l)). rewrite Hl.
    apply active_rows_NoDup, Hinv. }
  { intros t (r0 & -> & Hin)%list_elem_of_fmap. eauto. }
  rewrite M_bind_eq. unfold gets; cbv beta iota.
  edestruct orphan_cleanup_total as (w4 & -> & Hdb4). exists w4. split; [done|]. rewrite Hdb4. split.
  - intros r wid Hin Hw Hl'. rewrite <-Hl in Hin. destruct (Hact r Hin) as (wid' & Ha).
    assert (wid' = wid) as -> by (destruct Ha as (_ & _ & _ & ? & _); congruence).
    eapply Hlost; [by apply list_elem_of_fmap_2|done|by rewrite Hlive].
  - intros id Hid. apply Hsame. intros t r1 wid1 Hin1 Ha1 E1. rewrite Hlive. apply (Hid r1 wid1); [|apply Ha1|done].
    destruct Ha1 as (-> & ? & ? & ? & ?). by apply (active_row_elem _ r1 wid1).
Qed.

(** C28. One pass over the active executions, while no call fails and no other process commits, in a
    database that satisfies the invariants and has at most 1000 active executions (the batch one pass
    reads). The pass returns normally and recovers exactly the executions whose worker is lost: each of
    them ends ERROR with WORKER_LOST, and every other row of the task table is left as it was. *)
Theorem lost_executions_are_recovered w id r :
  quiet → db_inv (w_db w) → length (active_rows (w_db w)) ≤ 1000 →
  tasks (w_db w) !! id = Some r →
  let w' := (reconcile_stale_executions w).2 in
  (reconcile_stale_executions w).1 = Ok () ∧
  match tr_assigned_worker_id r with
  | Some wid =>
      if bool_decide (tr_status r ∈ WORKER_OWNED_ACTIVE_STATUSES)
         && worker_lost (env_clock (w_step w)) (w_workers w) wid
      then ∃ r', tasks (w_db w') !! id = Some r' ∧ tr_status r' = ERROR ∧
                 tr_termination_reason r' = Some (reason_value WORKER_LOST)
      else tasks (w_db w') !! id = Some r
  | None => tasks (w_db w') !! id = Some r
  end.
Proof.
  intros Hq Hinv Hlen Hr. assert (tr_task_id r = id) as Eid by by apply (di_keys _ Hinv).
  destruct (reconcile_stale_quiet w Hq Hinv Hlen) as (w' & -> & Hlost & Hsame). cbn [fst snd].
  assert (∀ r1, r1 ∈ active_rows (w_db w) → tr_task_id r1 = id →
            r1 = r ∧ tr_status r ∈ WORKER_OWNED_ACTIVE_STATUSES) as Huniq.
  { intros r1 Hin E. destruct (active_rows_spec _ _ Hinv Hin) as (wid & _ & H1 & Hs & _).
    rewrite E, Hr in H1. by simplify_eq. }
  split; [done|]. destruct (tr_assigned_worker_id r) as [wid|] eqn:Ew.
  - destruct (bool_decide _) eqn:Es; [apply bool_decide_eq_true in Es|apply bool_decide_eq_false in Es]; simpl.
    + destruct (worker_lost _ _ wid) eqn:El.
      * destruct (Hlost r wid) as (r' & [? ?] & ?); [by eapply elem_of_active_rows|done..|].
        exists r'. by rewrite <-Eid.
      * rewrite Hsame; [done|]. intros r1 wid1 Hin1 Hw1 E1. destruct (Huniq r1 Hin1 E1) as [-> _]. congruence.
    + rewrite Hsame; [done|]. intros r1 wid1 Hin1 Hw1 E1. by destruct (Huniq r1 Hin1 E1).
  - rewrite Hsame; [done|]. intros r1 wid1 Hin1 Hw1 E1. destruct (Huniq r1 Hin1 E1) as [-> _]. congruence.
Qed.

End Recovery.

(** ** The finalizer *)

Section Finalizer.
Context {env : Env} {cfg : OrchConfig}.

Lemma finalizer_after_commit tid u p wid m st reason e w t w1 :
  st = ERROR ∨ st = CANCELLED →
  FinalizeReconciledExecutionUseCase tid reason e w = (Ok (Some t), w1) → te_status t = st →
  ∃ w', finalize_task_terminal_status tid u p wid m st (Some reason) e w = (Ok true, w') ∧
    w_db w' = w_db w1 ∧ w_execs w' = exec_remove tid (w_execs w1).
Proof.
  intros Hst Hf Ht. unfold finalize_task_terminal_status. rewrite bool_decide_eq_true_2 by done.
  cbn [negb]. rewrite M_bind_eq, Hf. cbn [fmap option_fmap option_map].
  rewrite bool_decide_eq_false_2 by (rewrite Ht; tauto).
  rewrite M_bind_eq. unfold forget_execution, modify; cbv beta iota. rewrite M_bind_eq.
  set (w2 := set_execs _ _).
  assert (∃ w3, match wid with Some x => mark_worker_idle x (Some tid) | None => mret () end w2
                = (Ok (), w3) ∧ w_db w3 = w_db w2 ∧ w_execs w3 = w_execs w2) as (w3 & -> & Hd3 & He3).
  { destruct wid; by eexists. }
  rewrite M_bind_eq. destruct (swallow_total _ _ w3 () (frame_release (Some tid) (Some tid) wid))
    as ([] & w4 & -> & Hd4 & _ & He4 & _).
  rewrite M_bind_eq. destruct (event_total tid u p m st e w4) as (w5 & -> & Hd5 & _ & He5 & _).
  exists w5. split; [done|]. by rewrite Hd5, Hd4, Hd3, He5, He4, He3.
Qed.

(** The commit is what counts: once the terminal status is committed the finalizer reports
    success whatever then fails, the database is the committed one, and the telemetry entry of
    the task is gone. *)
Theorem finalizer_commit_is_authoritative tid u p wid m st reason e w t w1 :
  st = ERROR ∨ st = CANCELLED →
  FinalizeReconciledExecutionUseCase tid reason e w = (Ok (Some t), w1) → te_status t = st →
  dwf (w_execs w1) →
  let r := finalize_task_terminal_status tid u p wid m st (Some reason) e w in
  r.1 = Ok true ∧ w_db r.2 = w_db w1 ∧ dget (w_execs r.2) tid = None.
Proof.
  intros Hst Hf Ht Hwf.
  destruct (finalizer_after_commit tid u p wid m st reason e w t w1) as (w' & -> & Hd & He); [done..|].
  cbn [fst snd]. split_and!; [done..|]. rewrite He. by apply dget_dpop_eq.
Qed.

End Finalizer.

(** ** Completion of cancellations *)

Section Cancellation.
Context {env : Env} {cfg : OrchConfig}.

(** A program about one task leaves the rows and telemetry of the others alone. *)
Definition only_task (tid : string) (w w' : World) : Prop :=
  keys_ok (w_db w) →
  keys_ok (w_db w') ∧ ∀ id, id ≠ tid → tasks (w_db w') !! id = tasks (w_db w) !! id ∧
                                       dget (w_execs w') id = dget (w_execs w) id.

#[local] Instance only_task_preorder tid : PreOrder (only_task tid).
Proof.
  split.
  - intros w Hk. done.
  - intros w1 w2 w3 H1 H2 Hk. destruct (H1 Hk) as [Hk2 E1]. destruct (H2 Hk2) as [Hk3 E2].
    split; [done|]. intros id Hid. destruct (E1 id Hid), (E2 id Hid). split; congruence.
Qed.

Lemma frame_only tid w w' : frame w w' → only_task tid w w'.
Proof. intros (Hd & _ & He & _) Hk. by rewrite Hd, He. Qed.

Lemma only_frame {A} tid (m : M A) : respects frame m → respects (only_task tid) m.
Proof. intros H w. apply frame_only, H. Qed.

Lemma only_reconciled tid reason message :
  quiet → respects (only_task tid) (FinalizeReconciledExecutionUseCase tid reason message).
Proof.
  intros Hq w Hk. unfold FinalizeReconciledExecutionUseCase. case_match; [done|].
  rewrite quiet_db_write by done. cbn [snd]. simpl.
  destruct (finalize_reconciled _ _ _ _ _) as [o db'] eqn:E. cbn [snd].
  apply finalize_reconciled_cases in E as [[-> ->]|(r & r' & _ & -> & Hr & _ & Hs & _)]; [done|].
  split; [by apply db_put_keys|]. intros id Hid. split; [|done]. simpl.
  rewrite (row_step_task_id _ _ Hs), (Hk _ _ Hr). by apply lookup_insert_ne.
Qed.

Lemma only_forget tid : respects (only_task tid) (forget_execution tid).
Proof.
  intros w Hk. split; [done|]. intros id Hid. split; [done|]. simpl. by apply dget_dpop_ne.
Qed.

Lemma only_idle tid wid t : respects (only_task tid) (mark_worker_idle wid t).
Proof. intros w Hk. done. Qed.

Lemma only_event tid t u p m st e : respects (only_task tid) (publish_task_terminal_event t u p m st e).
Proof. intros w. destruct (event_total t u p m st e w) as (w' & -> & H). by apply frame_only. Qed.

Lemma only_finalize_terminal tid u p wid m st r e :
  quiet → respects (only_task tid) (finalize_task_terminal_status tid u p wid m st r e).
Proof.
  intros Hq. unfold finalize_task_terminal_status.
  pose proof (only_reconciled tid) as H1. pose proof (only_forget tid) as H2.
  pose proof (only_idle tid) as H3. pose proof (only_event tid) as H4.
  assert (∀ p c x, respects (only_task tid) (ReleaseNestedWaitUseCase p c x)) as H5
    by (intros; apply only_frame, frame_release).
  respects_split.
Qed.

Lemma only_reconcile_cancel now t :
  quiet → respects (only_task (te_task_id t)) (reconcile_cancel_requested now t).
Proof.
  intros Hq. unfold reconcile_cancel_requested.
  pose proof (λ u p wid m st r e, only_finalize_terminal (te_task_id t) u p wid m st r e Hq) as H1.
  assert (respects (only_task (te_task_id t)) (terminate_execution (te_task_id t))) as H2
    by apply only_frame, frame_send.
  respects_split.
Qed.

Lemma choose_same reason : choose_termination_reason (Some reason) reason false = reason.
Proof. unfold choose_termination_reason. simpl. by rewrite bool_decide_eq_true_2. Qed.

Lemma finalize_requested tid reason message now db r :
  tasks db !! tid = Some r → tr_status r = CANCEL_REQUESTED → tr_termination_reason r = Some reason →
  ∃ r', finalize_reconciled tid reason message now db = (Some (to_entity r'), db_put r' db) ∧
    tr_task_id r' = tr_task_id r ∧
    tr_status r' = terminal_status_for_termination_reason (Some reason) ∧
    tr_termination_reason r' = Some reason.
Proof.
  intros Hr Hs Hn. unfold finalize_reconciled. rewrite Hr, Hn, Hs, choose_same.
  rewrite (bool_decide_eq_false_2 (CANCEL_REQUESTED ∈ _)) by set_solver.
  rewrite (bool_decide_eq_false_2 (CANCEL_REQUESTED ≠ _)) by tauto.
  cbn [andb]. eexists. split; [reflexivity|]. by destruct r, message.
Qed.

(** A requested cancellation is due when no fresh telemetry of the execution is known and the
    request is older than the delay its reason allows. *)
Definition cancellation_due (now : Z) (execs : execution_registry) (r : TaskRecord) : bool :=
  match dget execs (tr_task_id r) with
  | Some x => is_stale x now telemetry_stale_timeout
  | None => true
  end
  && ((if bool_decide (tr_termination_reason r = Some (reason_value USER_STOP))
       then stop_grace_period else telemetry_stale_timeout) <=? now - tr_updated_at r)%Z.

Lemma when_send_total (b : bool) e w :
  quiet → ∃ w', when b (send e) w = (Ok (), w') ∧ frame w w'.
Proof.
  intros Hq. unfold when. destruct b; [|by eexists]. rewrite quiet_send by done. by eexists.
Qed.

Lemma reconcile_cancel_due now r reason w :
  quiet → tasks (w_db w) !! tr_task_id r = Some r → tr_status r = CANCEL_REQUESTED →
  tr_termination_reason r = Some reason → reason ∈ RECONCILIATION_TERMINATION_REASONS →
  cancellation_due now (w_execs w) r = true →
  ∃ w' r', reconcile_cancel_requested now (to_entity r) w = (Ok (), w') ∧
    tasks (w_db w') !! tr_task_id r = Some r' ∧
    tr_status r' = terminal_status_for_termination_reason (Some reason) ∧
    tr_termination_reason r' = Some reason.
Proof.
  intros Hq Hr Hs Hn Hreason Hdue. unfold cancellation_due in Hdue. apply andb_true_iff in Hdue as [Hstale Hage].
  unfold reconcile_cancel_requested. rewrite M_bind_eq. unfold gets; cbv beta iota.
  cbn [te_task_id te_termination_reason te_updated_at te_user_id te_project_id te_assigned_worker_id te_mode
    to_entity default].
  change (id (tr_updated_at r)) with (tr_updated_at r).
  set (us := bool_decide (tr_termination_reason r = Some (reason_value USER_STOP))) in *.
  set (stale := match dget (w_execs w) (tr_task_id r) with Some x => _ | None => false end).
  assert (bool_decide (dget (w_execs w) (tr_task_id r) ≠ None) && negb stale = false) as Hns.
  { subst stale. destruct (dget (w_execs w) (tr_task_id r)); [by rewrite Hstale, andb_false_r|done]. }
  rewrite M_bind_eq. unfold terminate_execution, TerminateExecutionUseCase, transport_revoke.
  edestruct when_send_total as (w1 & -> & Hd1 & _ & He1 & _); [done|].
  rewrite <-(andb_assoc us), (andb_comm (bool_decide _) (_ <=? _)%Z), !andb_assoc, <-(andb_assoc _ (bool_decide _)), Hns,
    andb_false_r.
  apply Z.leb_le in Hage. rewrite (proj2 (Z.ltb_ge _ _) Hage).
  rewrite M_bind_eq. edestruct when_send_total as (w2 & -> & Hd2 & _ & He2 & _); [done|].
  rewrite M_bind_eq, Hn.
  edestruct (finalize_requested (tr_task_id r) reason
    (cancellation_message (Some reason)) (env_clock (w_step w2)) (w_db w2) r)
    as (r' & Ef & Hid & Hst & Hre); [by rewrite Hd2, Hd1|done..|].
  edestruct (finalizer_after_commit (tr_task_id r) (tr_user_id r) (tr_project_id r) (tr_assigned_worker_id r)
    (tr_mode r) (terminal_status_for_termination_reason (Some reason)) reason
    (cancellation_message (Some reason)) w2 (to_entity r')) as (w3 & E3 & Hd3 & _).
  { pose proof (terminal_status_terminal (Some reason)). set_solver. }
  { unfold FinalizeReconciledExecutionUseCase. rewrite bool_decide_eq_true_2 by done. cbn [negb].
    rewrite quiet_db_write by done. rewrite Ef. reflexivity. }
  { done. }
  rewrite E3. exists w3, r'. split; [done|]. split; [|done]. rewrite Hd3. simpl. rewrite <-Hid.
  apply lookup_insert_eq.
Qed.

(** One turn of the loop, with its [try]. *)
Definition cancel_turn (now : Z) (t : TaskExecution) : M () :=
  catch (reconcile_cancel_requested now t) (λ _, mret ()).

Lemma cancel_turn_only now t w :
  quiet → ∃ w', cancel_turn now t w = (Ok (), w') ∧ only_task (te_task_id t) w w'.
Proof.
  intros Hq. destruct (swallow_total _ _ w () (only_reconcile_cancel now t Hq)) as ([] & w' & ? & ?). eauto.
Qed.

Lemma cancel_loop_others now l id w :
  quiet → keys_ok (w_db w) → id ∉ (te_task_id <$> l) →
  ∃ w', for_each l (cancel_turn now) w = (Ok (), w') ∧ tasks (w_db w') !! id = tasks (w_db w) !! id.
Proof.
  intros Hq. revert w; induction l as [|t l IH]; intros w Hk Hid; cbn [for_each]; [by eexists|].
  rewrite fmap_cons in Hid. apply not_elem_of_cons in Hid as [Hne Hid]. rewrite M_bind_eq.
  destruct (cancel_turn_only now t w Hq) as (w1 & -> & Ho). destruct (Ho Hk) as [Hk1 H1].
  destruct (IH w1 Hk1 Hid) as (w' & -> & E). exists w'. split; [done|]. rewrite E. by apply H1.
Qed.

Lemma cancel_loop now l r reason w :
  quiet → keys_ok (w_db w) → NoDup (te_task_id <$> l) → to_entity r ∈ l →
  tasks (w_db w) !! tr_task_id r = Some r → tr_status r = CANCEL_REQUESTED →
  tr_termination_reason r = Some reason → reason ∈ RECONCILIATION_TERMINATION_REASONS →
  cancellation_due now (w_execs w) r = true →
  ∃ w' r', for_each l (cancel_turn now) w = (Ok (), w') ∧ tasks (w_db w') !! tr_task_id r = Some r' ∧
    tr_status r' = terminal_status_for_termination_reason (Some reason) ∧
    tr_termination_reason r' = Some reason.
Proof.
  intros Hq Hk Hnd Hin Hr Hs Hn Hre Hdue. revert w Hk Hr Hdue.
  induction l as [|t l IH]; intros w Hk Hr Hdue; [by apply not_elem_of_nil in Hin|].
  rewrite fmap_cons in Hnd. apply NoDup_cons in Hnd as [Hnt Hnd]. cbn [for_each]. rewrite M_bind_eq.
  destruct (cancel_turn_only now t w Hq) as (w1 & Et & Ho). destruct (Ho Hk) as [Hk1 H1].
  apply elem_of_cons in Hin as [<-|Hin].
  - destruct (reconcile_cancel_due now r reason w) as (w1' & r' & E & Hr' & Hst'); [done..|].
    unfold cancel_turn, catch in Et. rewrite E in Et. simplify_eq.
    unfold cancel_turn at 1, catch. rewrite E.
    destruct (cancel_loop_others now l (tr_task_id r) w1 Hq Hk1 Hnt) as (w2 & -> & E2).
    exists w2, r'. by rewrite E2.
  - rewrite Et. assert (tr_task_id r ≠ te_task_id t) as Hne.
    { intros E. apply Hnt. rewrite <-E. by apply (list_elem_of_fmap_2 te_task_id _ (to_entity r)). }
    destruct (H1 _ Hne) as [Hdb Hex]. apply IH; [done..|by rewrite Hdb|].
    unfold cancellation_due in *. by rewrite Hex.
Qed.

Definition requested_rows (db : TaskDB) : list TaskRecord :=
  filter (λ r, tr_status r ∈ [CANCEL_REQUESTED]) (map_to_list (tasks db)).*2.

Lemma list_requested_all limit db :
  length (requested_rows db) ≤ limit →
  ∃ l, list_for_reconciliation [CANCEL_REQUESTED] limit db = to_entity <$> l ∧ l ≡ₚ requested_rows db.
Proof.
  intros Hlen. unfold list_for_reconciliation. rewrite bool_decide_eq_false_2 by done.
  rewrite take_ge by (rewrite merge_sort_Permutation; exact Hlen).
  eexists. split; [done|]. apply merge_sort_Permutation.
Qed.

(** C29. One pass over the requested cancellations, while no call fails and no other process commits and
    with at most 1000 of them (the batch one pass reads): a cancellation that is due and whose reason is
    one of those the reconciliation accepts ends in the terminal status of its reason, CANCELLED for a
    stop by the user and ERROR for a failure of the system, with the reason kept. *)
Theorem due_cancellations_are_completed w id r reason :
  quiet → keys_ok (w_db w) → length (requested_rows (w_db w)) ≤ 1000 →
  tasks (w_db w) !! id = Some r → tr_status r = CANCEL_REQUESTED →
  tr_termination_reason r = Some reason → reason ∈ RECONCILIATION_TERMINATION_REASONS →
  cancellation_due (env_clock (S (w_step w))) (w_execs w) r = true →
  (reconcile_cancel_requested_tasks w).1 = Ok () ∧
  ∃ r', tasks (w_db (reconcile_cancel_requested_tasks w).2) !! id = Some r' ∧
    tr_status r' = terminal_status_for_termination_reason (Some reason) ∧
    tr_termination_reason r' = Some reason.
Proof.
  intros Hq Hk Hlen Hr Hs Hn Hre Hdue. assert (tr_task_id r = id) as <- by by apply Hk.
  unfold reconcile_cancel_requested_tasks, ListExecutionsForReconciliationUseCase, db_read.
  rewrite M_bind_eq. erewrite quiet_db_call by done. cbv beta iota.
  destruct (list_requested_all 1000 (w_db w) Hlen) as (l & -> & Hl).
  assert (r ∈ l) as Hin.
  { rewrite Hl. apply list_elem_of_filter. split; [rewrite Hs; left|].
    apply list_elem_of_fmap. exists (tr_task_id r, r). split; [done|]. by apply elem_of_map_to_list. }
  rewrite bool_decide_eq_false_2 by (destruct l; [by apply not_elem_of_nil in Hin|done]).
  rewrite M_bind_eq. unfold time_now; cbv beta iota.
  edestruct (cancel_loop (env_clock (S (w_step w))) (to_entity <$> l) r reason) as (w' & r' & E & Hrow);
    [done|..|unfold cancel_turn in E; cbn [w_step set_db bump]; rewrite E; eauto]; try done.
  - rewrite <-list_fmap_compose. change (NoDup (tr_task_id <$> l)). rewrite Hl.
    eapply sublist_NoDup; [|apply fmap_sublist, sublist_filter].
    rewrite map_to_list_task_ids by done. apply NoDup_fst_map_to_list.
  - by apply list_elem_of_fmap_2.
Qed.

End Cancellation.
