(* ===== verification/OomGuard.v ===== *)
(** * Orchestrator: the OOM guard

    What [_apply_host_pressure_guard] and [_apply_worker_threshold_guard] of
    [services/orchestrator/execution_supervisor.py] may terminate: only an execution whose
    memory use justifies it, the largest one of its host or of all candidates, and nothing
    while the cooldown of the host runs. *)
From S2P Require Import Prelude TaskTypes TaskStore TaskLifecycle Workers Flow Orchestrator Supervisor.
From Stdlib Require Import QArith Lqa.

(** ** [max] with a key *)

Section FirstMax.
Context {A : Type} (gt : A → A → bool).

(** Not being greater is transitive, as it is for a comparison of keys. *)
Context (gt_irrefl : ∀ x, gt x x = false).
Context (gt_asym : ∀ x y, gt x y = true → gt y x = false).
Context (ngt_trans : ∀ x y z, gt x y = false → gt y z = false → gt x z = false).

Lemma foldl_max_spec l x :
  let m := foldl (λ best y, if gt y best then y else best) x l in
  m ∈ x :: l ∧ ∀ y, y ∈ x :: l → gt y m = false.
Proof.
  revert x; induction l as [|z l IH]; intros x; simpl.
  - split; [left|]. intros y [->|[]%not_elem_of_nil]%elem_of_cons. apply gt_irrefl.
  - destruct (IH (if gt z x then z else x)) as [Hin Hmax]. split.
    + revert Hin. destruct (gt z x); set_solver.
    + set (m := foldl _ _ _) in *.
      assert (gt (if gt z x then z else x) m = false) as Hb by (apply Hmax; left).
      intros y [->|[->|Hy]%elem_of_cons]%elem_of_cons.
      * destruct (gt z x) eqn:E; [|done]. eapply ngt_trans; [by apply gt_asym|done].
      * destruct (gt z x) eqn:E; [done|]. by eapply ngt_trans.
      * apply Hmax. by right.
Qed.

Lemma first_max_spec l m :
  first_max gt l = Some m → m ∈ l ∧ ∀ y, y ∈ l → gt y m = false.
Proof. destruct l as [|x l]; simpl; [done|]. intros [= <-]. apply foldl_max_spec. Qed.
End FirstMax.

Lemma Qltb_true a b : Qltb a b = true ↔ (a < b)%Q.
Proof. unfold Qltb. rewrite negb_true_iff, <-not_true_iff_false, Qle_bool_iff. split; lra. Qed.

Lemma Qltb_false a b : Qltb a b = false ↔ (b <= a)%Q.
Proof. rewrite <-not_true_iff_false, Qltb_true. split; lra. Qed.

(** The largest resident set of a list of records. *)
Lemma largest_rss_spec l m :
  first_max larger_rss l = Some m → m ∈ l ∧ ∀ r, r ∈ l → (xr_rss_bytes r ≤ xr_rss_bytes m)%Z.
Proof.
  intros H. apply first_max_spec in H as [Hin Hmax].
  - split; [done|]. intros r Hr. specialize (Hmax r Hr). unfold larger_rss in Hmax. lia.
  - intros x. unfold larger_rss. lia.
  - intros x y. unfold larger_rss. lia.
  - intros x y z. unfold larger_rss. lia.
Qed.

Lemma host_pressure_spec l p :
  host_pressure l = Some p → ∃ r, r ∈ l ∧ xr_system_ram_used_percent r = p.
Proof.
  unfold host_pressure. intros H. destruct (xr_system_ram_used_percent <$> l) eqn:E; simpl in H; [done|].
  assert (p ∈ xr_system_ram_used_percent <$> l) as Hin.
  { rewrite E. injection H as <-. clear E. generalize q as x. intros x; revert x.
    induction l0 as [|y l0 IH]; intros x; simpl; [set_solver|].
    destruct (Qltb x y); [specialize (IH y)|specialize (IH x)]; set_solver. }
  apply list_elem_of_fmap in Hin as (r & -> & ?). eauto.
Qed.

Lemma largest_usage_spec l u r :
  first_max larger_usage l = Some (u, r) → (u, r) ∈ l ∧ ∀ c, c ∈ l → (c.1 <= u)%Q.
Proof.
  intros H. apply first_max_spec in H as [Hin Hmax].
  - split; [done|]. intros c Hc. specialize (Hmax c Hc). unfold larger_usage in Hmax. by apply Qltb_false.
  - intros x. apply Qltb_false. lra.
  - intros x y. unfold larger_usage. rewrite Qltb_true, Qltb_false. lra.
  - intros x y z. unfold larger_usage. rewrite !Qltb_false. lra.
Qed.

(** ** Grouping by host *)

Definition on_host (h : string) (records : list TaskExecutionRecord) : list TaskExecutionRecord :=
  filter (λ r, xr_hostname r = h) records.

Lemma group_by_host_get_gen d records h :
  dget (foldl (λ d r, dset d (xr_hostname r) (dget_default d (xr_hostname r) [] ++ [r])) d records) h
  = match on_host h records with [] => dget d h | l => Some (dget_default d h [] ++ l) end.
Proof.
  revert d; induction records as [|r records IH]; intros d; simpl; [done|].
  rewrite IH. unfold on_host. rewrite filter_cons. unfold dget_default.
  destruct (decide (xr_hostname r = h)) as [<-|Hne].
  - rewrite dget_dset_eq. destruct (filter _ records); simpl; [done|].
    unfold id. by rewrite <-app_assoc.
  - rewrite dget_dset_ne by done. done.
Qed.

Lemma group_by_host_get records h :
  dget (group_by_host records) h = match on_host h records with [] => None | l => Some l end.
Proof. unfold group_by_host. rewrite group_by_host_get_gen. unfold dget_default. by case_match. Qed.

Lemma group_by_host_wf records : dwf (group_by_host records).
Proof.
  unfold group_by_host. generalize (@dwf_nil (list TaskExecutionRecord)).
  generalize (@nil (string * list TaskExecutionRecord)).
  induction records as [|r records IH]; intros d Hd; simpl; [done|]. apply IH. by apply dwf_dset.
Qed.

Lemma elem_of_group_by_host records h l :
  (h, l) ∈ group_by_host records → l = on_host h records.
Proof.
  intros Hin. apply elem_of_dget in Hin; [|apply group_by_host_wf].
  rewrite group_by_host_get in Hin. case_match; by simplify_eq.
Qed.

(** ** Messages sent by a program *)

(** Every message added satisfies [allowed], whatever the environment does. *)
Definition sends_only (allowed : effect → Prop) (w w' : World) : Prop :=
  ∃ new, w_trace w' = w_trace w ++ new ∧ Forall allowed new.

#[global] Instance sends_only_preorder allowed : PreOrder (sends_only allowed).
Proof.
  split.
  - intros w. exists []. by rewrite app_nil_r.
  - intros w1 w2 w3 (n1 & E1 & F1) (n2 & E2 & F2). exists (n1 ++ n2).
    rewrite E2, E1, app_assoc. split; [done|]. by apply Forall_app.
Qed.

Section Sends.
Context {env : Env} {cfg : OrchConfig} (allowed : effect → Prop).

Lemma sends_none w w' : w_trace w' = w_trace w → sends_only allowed w w'.
Proof. intros E. exists []. by rewrite app_nil_r. Qed.

Lemma sends_send e : allowed e → respects (sends_only allowed) (send e).
Proof.
  intros He w. destruct (send_cases e w) as [->|[ft ->]]; [|by apply sends_none].
  exists [e]. split; [done|]. by constructor.
Qed.

Lemma sends_db {A} (f : Z → TaskDB → outcome task_error (A * TaskDB)) :
  respects (sends_only allowed) (db_call f).
Proof. intros w. apply sends_none, db_call_trace. Qed.

(** A kill request only concerns its own task. *)
Lemma sends_kill tid reason :
  allowed (StopNotified tid) → allowed (Revoked tid true) → allowed (Revoked tid false) →
  respects (sends_only allowed) (request_task_kill tid reason).
Proof.
  intros H1 H2 H3. unfold request_task_kill, KillTaskUseCase, notify_stop, transport_revoke, db_write.
  pose proof sends_send as Hs. pose proof @sends_db as Hd. respects_split.
Qed.

Lemma request_task_kill_kill tid reason : respects (λ w w', w_last_kill w' = w_last_kill w) (request_task_kill tid reason).
Proof.
  assert (PreOrder (λ w w', w_last_kill w' = w_last_kill w)) as HP.
  { split; [done|]. intros w1 w2 w3 H1 H2. congruence. }
  assert (∀ e, respects (λ w w', w_last_kill w' = w_last_kill w) (send e)) as Hs.
  { intros e w. by destruct (send_cases e w) as [->|[ft ->]]. }
  assert (∀ A (f : Z → TaskDB → outcome task_error (A * TaskDB)),
            respects (λ w w', w_last_kill w' = w_last_kill w) (db_call f)) as Hd.
  { intros A f w. unfold db_call. by repeat case_match. }
  unfold request_task_kill, KillTaskUseCase, notify_stop, transport_revoke, db_write. respects_split.
Qed.

End Sends.

(** ** Properties *)

(** A message about stopping the given task. *)
Definition about_task (tid : string) (e : effect) : Prop :=
  e = StopNotified tid ∨ ∃ terminate, e = Revoked tid terminate.

Section Properties.
Context {env : Env} {cfg : OrchConfig}.

(** Why the host-pressure guard may stop [victim]: it is the first largest execution of a host
    on which some record reports a pressure at the threshold, outside the cooldown. *)
Record host_kill (records : list TaskExecutionRecord) (threshold : Q) (now : Z) (last_kill : pydict Z)
    (victim : TaskExecutionRecord) : Prop := {
  hk_victim : first_max larger_rss (on_host (xr_hostname victim) records) = Some victim;
  hk_elem : victim ∈ records;
  hk_largest r : r ∈ records → xr_hostname r = xr_hostname victim →
                 (xr_rss_bytes r ≤ xr_rss_bytes victim)%Z;
  hk_pressure : ∃ r, r ∈ records ∧ xr_hostname r = xr_hostname victim ∧
                     (threshold <= xr_system_ram_used_percent r)%Q;
  hk_cooldown : in_cooldown now (xr_hostname victim) last_kill = false;
}.

Definition justified records threshold now last_kill (e : effect) : Prop :=
  ∃ victim, host_kill records threshold now last_kill victim ∧ about_task (xr_task_id victim) e.

Lemma host_kill_intro records th now lk h pressure victim :
  host_pressure (on_host h records) = Some pressure → first_max larger_rss (on_host h records) = Some victim →
  Qltb pressure th = false → in_cooldown now h lk = false → host_kill records th now lk victim.
Proof.
  intros Hp Hv Hth Hc. destruct (largest_rss_spec _ _ Hv) as [Hin Hmax].
  apply list_elem_of_filter in Hin as [<- Hin]. split; [done|done| |  |done].
  - intros r Hr Hh. apply Hmax, list_elem_of_filter. done.
  - apply host_pressure_spec in Hp as (r & [Hh Hr]%list_elem_of_filter & <-). exists r.
    split_and!; [done..|]. by apply Qltb_false.
Qed.

Lemma guard_host_step records th now lk h w :
  dget (w_last_kill w) h = dget lk h →
  let w' := (guard_host th now (h, on_host h records) w).2 in
  sends_only (justified records th now lk) w w' ∧
  ∀ h', h' ≠ h → dget (w_last_kill w') h' = dget (w_last_kill w) h'.
Proof.
  intros Hlk. unfold guard_host.
  destruct (host_pressure _) as [pressure|] eqn:Hp; [|by split; [apply sends_none|]].
  destruct (first_max _ _) as [victim|] eqn:Hv; [|by split; [apply sends_none|]].
  rewrite M_bind_eq. unfold gets; cbv beta iota.
  destruct (Qltb pressure th) eqn:Hth; [by split; [apply sends_none|]|].
  destruct (in_cooldown now h (w_last_kill w)) eqn:Hc; [by split; [apply sends_none|]|].
  assert (host_kill records th now lk victim) as Hk.
  { eapply host_kill_intro; [done..|]. unfold in_cooldown, dget_default in *. by rewrite <-Hlk. }
  rewrite M_bind_eq.
  assert (respects (sends_only (justified records th now lk))
            (request_task_kill (xr_task_id victim) (reason_value OOM_GUARD))) as Hs.
  { apply sends_kill; exists victim; (split; [done|]); [by left|right; eauto..]. }
  specialize (Hs w). pose proof (request_task_kill_kill (xr_task_id victim) (reason_value OOM_GUARD) w) as Hl.
  simpl in Hl. destruct (request_task_kill _ _ w) as [[b|e] w1]; simpl in *; [|by rewrite Hl].
  unfold when, record_kill, modify. destruct b; simpl; [|by rewrite Hl].
  split; [by etrans; [|by apply sends_none]|]. intros h' Hh. by rewrite dget_dset_ne, Hl.
Qed.

Lemma guard_hosts_loop records th now lk hs w :
  NoDup hs.*1 → (∀ h l, (h, l) ∈ hs → l = on_host h records) →
  (∀ h, h ∈ hs.*1 → dget (w_last_kill w) h = dget lk h) →
  sends_only (justified records th now lk) w (for_each hs (guard_host th now) w).2.
Proof.
  revert w; induction hs as [|[h l] hs IH]; intros w Hnd Hl Hlk; cbn [for_each]; [reflexivity|].
  rewrite fmap_cons in Hnd, Hlk. cbn [fst] in *. apply NoDup_cons in Hnd as [Hh Hnd].
  rewrite (Hl h l) by left. rewrite M_bind_eq.
  destruct (guard_host_step records th now lk h w) as [Hs Ho]; [apply Hlk; left|].
  destruct (guard_host th now (h, on_host h records) w) as [[[]|e] w1]; simpl in *; [|done].
  etrans; [exact Hs|]. apply IH; [done|intros; apply Hl; by right|].
  intros h' Hin. rewrite Ho; [apply Hlk; by right|]. intros ->. done.
Qed.

(** Whatever fails, the host-pressure guard only stops executions it has a reason to stop:
    each message it sends concerns the largest execution of a host whose reported pressure
    reached the threshold and whose cooldown was over. *)
Theorem host_guard_kills_are_justified records settings w :
  ∃ new, w_trace (apply_host_pressure_guard records settings w).2 = w_trace w ++ new ∧
    ∀ e, e ∈ new → ∃ threshold victim, oom_host_threshold_percent settings = Some threshold ∧
      about_task (xr_task_id victim) e ∧
      host_kill records threshold (env_clock (w_step w)) (w_last_kill w) victim.
Proof.
  unfold apply_host_pressure_guard. destruct (oom_host_threshold_percent settings) as [th|].
  - rewrite M_bind_eq. unfold time_now; cbv beta iota.
    destruct (guard_hosts_loop records th (env_clock (w_step w)) (w_last_kill w) (group_by_host records)
                (bump w)) as (new & E & F).
    + apply group_by_host_wf.
    + apply elem_of_group_by_host.
    + done.
    + exists new. split; [done|]. intros e He. rewrite Forall_forall in F.
      destruct (F e He) as (v & Hv & Ha). by exists th, v.
  - exists []. rewrite app_nil_r. split; [done|]. by intros e ?%not_elem_of_nil.
Qed.

(** Reaching the configured threshold. *)
Definition over_threshold (settings : OOMGuardConfig) (ty : OOMWorkerThresholdType)
    (r : TaskExecutionRecord) : Prop :=
  match ty with
  | PERCENT => ∃ used limit, worker_memory_used_percent r = Some used ∧
                 oom_worker_threshold_percent settings = Some limit ∧ (limit <= used)%Q
  | ABSOLUTE_MB => ∃ mb, oom_worker_threshold_mb settings = Some mb ∧
                 (mb * 1024 * 1024 ≤ xr_rss_bytes r)%Z
  end.

Lemma threshold_candidate_spec settings ty r u r' :
  threshold_candidate settings ty r = Some (u, r') → r' = r ∧ over_threshold settings ty r.
Proof.
  unfold threshold_candidate, over_threshold. destruct ty.
  - destruct (worker_memory_used_percent r) as [used|]; [|done].
    destruct (oom_worker_threshold_percent settings) as [limit|]; [|done].
    destruct (Qltb used limit) eqn:E; [done|]. intros [= -> <-]. split; [done|].
    exists u, limit. split_and!; [done..|]. by apply Qltb_false.
  - destruct (oom_worker_threshold_mb settings) as [mb|]; [|done].
    destruct (_ <? _)%Z eqn:E; [done|]. intros [= _ <-]. split; [done|]. exists mb. split; [done|lia].
Qed.

Lemma elem_of_threshold_candidates settings ty now lk records u r :
  (u, r) ∈ threshold_candidates settings ty now lk records →
  r ∈ records ∧ over_threshold settings ty r ∧ in_cooldown now (xr_hostname r) lk = false.
Proof.
  unfold threshold_candidates. intros (r0 & Hin & E)%list_elem_of_omap.
  destruct (in_cooldown now (xr_hostname r0) lk) eqn:Hc; [done|].
  by apply threshold_candidate_spec in E as [-> ?].
Qed.

(** Whatever fails, the worker-threshold guard stops at most one execution: one that
    reached the configured threshold on a host outside its cooldown, and of all such executions
    one with the highest use. *)
Theorem worker_guard_kill_is_justified records settings w :
  ∃ new, w_trace (apply_worker_threshold_guard records settings w).2 = w_trace w ++ new ∧
    (new = [] ∨
     ∃ ty used victim, oom_worker_threshold_type settings = Some ty ∧
       (∀ e, e ∈ new → about_task (xr_task_id victim) e) ∧
       victim ∈ records ∧ over_threshold settings ty victim ∧
       in_cooldown (env_clock (w_step w)) (xr_hostname victim) (w_last_kill w) = false ∧
       ∀ c, c ∈ threshold_candidates settings ty (env_clock (w_step w)) (w_last_kill w) records →
            (c.1 <= used)%Q).
Proof.
  unfold apply_worker_threshold_guard.
  destruct (oom_worker_threshold_type settings) as [ty|]; [|exists []; rewrite app_nil_r; auto].
  rewrite M_bind_eq. unfold time_now; cbv beta iota. rewrite M_bind_eq. unfold gets; cbv beta iota.
  change (w_last_kill (bump w)) with (w_last_kill w).
  destruct (first_max _ _) as [[u victim]|] eqn:Hv; [|exists []; rewrite app_nil_r; auto].
  destruct (largest_usage_spec _ _ _ Hv) as [Hin Hmax].
  destruct (elem_of_threshold_candidates _ _ _ _ _ _ _ Hin) as (Hr & Ho & Hc).
  assert (respects (sends_only (about_task (xr_task_id victim)))
    (requested ← request_task_kill (xr_task_id victim) (reason_value OOM_GUARD);
     when requested (record_kill (env_clock (w_step w)) (xr_hostname victim)))) as Hs.
  { apply respects_bind; [apply _| |].
    - apply sends_kill; [by left|right; eauto..].
    - intros b. apply respects_when; [apply _|]. intros w0. by apply sends_none. }
  destruct (Hs (bump w)) as (new & E & F). exists new. split; [done|]. right.
  exists ty, u, victim. rewrite Forall_forall in F. done.
Qed.

End Properties.
