(* ===== verification/Commands.v ===== *)
(** * Orchestrator: nested executions

    What [handle_nested_task_enqueue] ([services/orchestrator/deps/commands.py]) leaves behind
    on each of its branches: a waiting parent holds a reservation when its child was admitted, and a
    rejected child is failed and reserves nothing. *)
From S2P Require Import Prelude TaskTypes TaskStore TaskLifecycle NestedWait Workers Flow Orchestrator Supervisor.

Section Nested.
Context {env : Env} {cfg : OrchConfig}.

(** An accepted reservation is in the hash, for this child and worker. *)
Lemma reserve_accepted parent child origin alive created h d h' :
  reserve_nested_wait parent child origin alive created h = (d, h') →
  (∀ p, p ≠ parent → h' !! p = h !! p) ∧
  if nd_accepted d
  then ∃ r, h' !! parent = Some r ∧ nw_child_task_id r = child ∧ nw_origin_worker_id r = origin
  else h' = h.
Proof.
  unfold reserve_nested_wait. destruct (h !! parent) as [r|] eqn:E.
  - case_match eqn:Hm; intros [= <- <-]; simpl; [|done].
    rewrite andb_true_iff, !bool_decide_eq_true in Hm. destruct Hm. split; [done|eauto].
  - destruct (nd_accepted (decide_nested_wait_reservation _ _ _)) eqn:Hd; simpl.
    + destruct (reserve _ _ h) as [b h1] eqn:Er.
      apply reserve_cases in Er as [[-> Hb]|(-> & _ & -> & _)]; cbn [nw_parent_task_id] in *.
      * destruct b; [destruct (Hb eq_refl); congruence|]. by intros [= <- <-].
      * intros [= <- <-]. simpl. split; [intros p Hp; by rewrite lookup_insert_ne|]. eexists. split; [apply lookup_insert_eq|done].
    + intros [= <- <-]. by rewrite Hd.
Qed.

(** A pending child that is failed ends ERROR with the given reason. *)
Lemma fail_pending_some tid reason message now db t db' :
  keys_ok db → fail_pending tid (Some reason) message now db = (Some t, db') →
  ∃ r, tasks db' !! tid = Some r ∧ tr_status r = ERROR ∧ tr_termination_reason r = Some reason.
Proof.
  intros Hk. unfold fail_pending. destruct (tasks db !! tid) as [r|] eqn:E; [|done].
  assert (tr_task_id r = tid) as <- by by apply Hk.
  case_match eqn:Hm.
  - rewrite !andb_true_iff, !bool_decide_eq_true in Hm. intros [= <- <-]. exists r. tauto.
  - clear Hm. case_bool_decide; [done|]. intros [= _ <-].
    destruct message, r; (eexists; split; [apply lookup_insert_eq|done]).
Qed.

(** The child is admitted: its row has left PENDING, and while it is queued it has a dispatch. *)
Definition admitted (child : string) (db : TaskDB) : Prop :=
  ∃ r, tasks db !! child = Some r ∧ tr_status r ≠ PENDING ∧
    (tr_status r = QUEUED → ∃ o, o ∈ outbox db ∧ ob_task_id o = child).

Lemma ensure_outbox_has row_id tid payload now db :
  ∃ o, o ∈ outbox (ensure_outbox row_id tid payload now db) ∧ ob_task_id o = tid.
Proof.
  unfold ensure_outbox. case_bool_decide as H.
  - apply Exists_exists in H as (o & Hin & Ho). eauto.
  - exists (new_outbox_record row_id tid payload now). split; [|done]. simpl. apply elem_of_app. right. by apply list_elem_of_singleton.
Qed.

(** The second half of an enqueue admits the row it is given. *)
Lemma enqueue_queued_admits e payload row_id now task db :
  keys_ok db → tasks db !! te_task_id e = Some task → tr_status task = QUEUED →
  admitted (te_task_id e) (enqueue_queued e payload row_id now task db).2.
Proof.
  intros Hk Ht Hq. pose proof (Hk _ _ Ht) as Hid. unfold enqueue_queued. case_bool_decide.
  - assert (∀ db', (coalesce_root_executions task now db).2 = db' →
      tasks db' !! te_task_id e = Some (coalesce_root_executions task now db).1.1) as Hrow.
    { intros db' <-. unfold coalesce_root_executions. destruct (root_candidates _ _) as [|r0 [|r1 stale]]; [done..|]. simpl.
      rewrite lookup_fmap, Ht. simpl. done. }
    assert (tr_status (coalesce_root_executions task now db).1.1 ∈ [QUEUED; CANCELLED]) as Hst.
    { unfold coalesce_root_executions. destruct (root_candidates _ _) as [|r0 [|r1 stale]]; simpl; [rewrite Hq; left..|].
      case_bool_decide; [destruct task; right; left|rewrite Hq; left]. }
    destruct (coalesce_root_executions task now db) as [[task' sup] db'] eqn:Ec. cbn [fst snd] in *. specialize (Hrow db' eq_refl).
    case_bool_decide as Hc; cbn [snd].
    + exists task'. split; [done|]. by rewrite Hc.
    + exists task'. rewrite ensure_outbox_tasks. split; [done|]. split; [intros E; rewrite E in Hst; set_solver|].
      intros _. apply ensure_outbox_has.
  - cbn [snd]. exists task. rewrite ensure_outbox_tasks. split; [done|]. split; [by rewrite Hq|]. intros _. apply ensure_outbox_has.
Qed.

Lemma enqueue_admits e payload row_id now db x db' :
  db_inv db → enqueue_with_dispatch env_fk e payload row_id now db = Ok (x, db') → admitted (te_task_id e) db'.
Proof.
  intros Hinv He. pose proof (di_keys _ Hinv) as Hk. unfold enqueue_with_dispatch in He.
  assert (∀ r, tr_task_id r = te_task_id e → tr_status r = QUEUED →
    admitted (te_task_id e) (enqueue_queued e payload row_id now r (db_put r db)).2) as Hput.
  { intros r Hid Hq. apply enqueue_queued_admits; [by apply db_put_keys| |done]. unfold db_put; simpl. by rewrite Hid, lookup_insert_eq. }
  destruct (tasks db !! te_task_id e) as [r|] eqn:E.
  - pose proof (Hk _ _ E) as Hid. case_bool_decide as Hp; [|case_bool_decide as Hq].
    + injection He as He. apply (f_equal snd) in He. cbn [snd] in He. rewrite <-He. apply Hput; by destruct r.
    + injection He as He. apply (f_equal snd) in He. cbn [snd] in He. rewrite <-He. by apply enqueue_queued_admits.
    + injection He as _ <-. exists r. split_and!; [done..|]. by intros ?.
  - case_match; [|done]. injection He as He. apply (f_equal snd) in He. cbn [snd] in He. rewrite <-He. by apply Hput.
Qed.

Lemma enqueue_raises e payload row_id now db err :
  enqueue_with_dispatch env_fk e payload row_id now db = Raise err → err = IntegrityError.
Proof.
  unfold enqueue_with_dispatch. repeat case_match; intros H'; by simplify_eq.
Qed.

Definition same_stores (w w' : World) : Prop := w_db w' = w_db w ∧ w_nested w' = w_nested w.

#[local] Instance same_stores_preorder : PreOrder same_stores.
Proof.
  split; [done|]. intros w1 w2 w3 [H1 N1] [H2 N2]. split; congruence.
Qed.

Lemma event_stores tid u p m st e w :
  ∃ w', publish_task_terminal_event tid u p m st e w = (Ok (), w') ∧ same_stores w w'.
Proof.
  unfold publish_task_terminal_event, catch.
  destruct (send_cases (Forwarded (TaskExecutionStatusEvent tid m st e) u p) w) as [->|[ft ->]]; by eexists.
Qed.

(** The enqueue of the child leaves the reservations alone. It admits the child, is refused, or passes
    on the failure of a call. *)
Lemma accept_outcomes t w :
  db_inv (w_db w) →
  ∃ o w', accept_task_enqueue t w = (o, w') ∧ w_nested w' = w_nested w ∧
    match o with
    | Ok d => ed_accepted d = true → admitted (ti_task_id t) (w_db w')
    | Raise e => ∃ ft, e = ExternalError ft
    end.
Proof.
  intros Hinv. unfold accept_task_enqueue. rewrite M_bind_eq. unfold catch. rewrite M_bind_eq.
  unfold enqueue_task_internal, EnqueueTaskUseCase. rewrite M_bind_eq. unfold gets; cbv beta iota.
  rewrite M_bind_eq. unfold db_call; cbv zeta.
  assert (db_inv (env_others (w_step w) (w_db w))) as Hinv' by (eapply db_inv_steps; [apply env_others_ok|done]).
  destruct (env_fault (w_step w)) as [ft|]; [by eexists _, _; split; [reflexivity|]; split; [|exists ft]|].
  destruct (enqueue_with_dispatch _ _ _ _ _ _) as [[result db']|err] eqn:E; cbv beta iota.
  - rewrite M_bind_eq. edestruct revoke_each_total as (w1 & -> & Hd & Hn & _).
    change ((mret result : M EnqueueTaskResult) w1) with (Ok (E:=exn) result, w1). cbv beta iota.
    change ((mret (inl result) : M (EnqueueTaskResult + string)) w1)
      with (Ok (E:=exn) (inl (B:=string) result), w1). cbv beta iota.
    rewrite M_bind_eq.
    destruct (for_each_total (er_superseded result) (λ superseded,
            publish_task_terminal_event (te_task_id superseded) (te_user_id superseded)
              (te_project_id superseded) (te_mode superseded) CANCELLED None) same_stores w1) as (w2 & -> & Hd2 & Hn2).
    { intros x w0. apply event_stores. }
    eexists _, w2. split; [reflexivity|]. split; [by rewrite Hn2, Hn|]. intros _. rewrite Hd2, Hd. simpl.
    by apply (enqueue_admits (task_internal_to_execution t)) in E.
  - apply enqueue_raises in E as ->. eexists _, _. split; [reflexivity|]. done.
Qed.

(** The rejection of the child. *)
Lemma reject_outcomes c error w o w' :
  db_inv (w_db w) → reject_nested c error w = (o, w') →
  w_nested w' = w_nested w ∧
  (is_ok o = true → ∃ r, tasks (w_db w') !! ti_task_id (nc_task c) = Some r ∧ tr_status r = ERROR ∧
     tr_termination_reason r = Some (reason_value NESTED_WAIT_CAPACITY_LOST)).
Proof.
  intros Hinv. unfold reject_nested, FailPendingExecutionUseCase. rewrite M_bind_eq.
  rewrite bool_decide_eq_true_2 by by_decide. cbn [negb]. unfold db_write, db_call; cbv zeta.
  assert (db_inv (env_others (w_step w) (w_db w))) as Hinv' by (eapply db_inv_steps; [apply env_others_ok|done]).
  destruct (env_fault (w_step w)) as [ft|]; [by intros [= <- <-]|].
  destruct (fail_pending _ _ _ _ _) as [[t|] db'] eqn:Ef; [|by intros [= <- <-]].
  apply fail_pending_some in Ef as (r & Hr & Hst & Hre); [|apply Hinv'].
  edestruct event_stores as (w1 & -> & Hd1 & Hn1). intros [= <- <-]. rewrite Hd1, Hn1. split; [done|]. eauto.
Qed.

(** What the tail of the handler makes of the reservation. *)
Lemma enqueue_nested_outcomes c b w :
  db_inv (w_db w) →
  ∃ o w', enqueue_nested c b w = (o, w') ∧
    match o with
    | Ok _ => admitted (ti_task_id (nc_task c)) (w_db w') ∧ w_nested w' = w_nested w
    | Raise (ExternalError _) => w_nested w' = w_nested w
    | Raise _ => w_nested w' = if b then delete (nc_parent_task_id c) (w_nested w) else w_nested w
    end.
Proof.
  intros Hinv. unfold enqueue_nested. rewrite M_bind_eq.
  destruct (accept_outcomes (nc_task c) w Hinv) as (o & w1 & -> & Hn & Hd). destruct o as [d|e].
  2: { destruct Hd as [ft ->]. by eexists _, w1. }
  destruct (ed_accepted d); cbn [negb].
  - exists (Ok ()), w1. split; [reflexivity|]. split; auto.
  - rewrite M_bind_eq. unfold when. destruct b.
    + unfold ReleaseNestedWaitUseCase, release_call. rewrite !M_bind_eq. unfold nested_call.
      destruct (env_fault (w_step w1)) as [ft|]; [by eexists _, _|]. eexists _, _. split; [reflexivity|]. simpl. by rewrite Hn.
    + eexists _, _. split; [reflexivity|]. by rewrite <-Hn.
Qed.


End Nested.
