(* ===== verification/OrchestratorRun.v ===== *)
(** * Orchestrator: concrete runs

    The theorems about the Orchestrator applied to a small concrete world: a task is enqueued,
    published, claimed by a worker that then falls silent, and is recovered, stopped or refused. *)
From S2P Require Import Prelude TaskTypes TaskStore TaskLifecycle NestedWait Workers Flow Orchestrator Supervisor Commands.

Module OrchRun.
#[local] Existing Instance FlowRun.quiet_env.

#[local] Instance cfg : OrchConfig := {|
  heartbeat_timeout := 30000000;
  telemetry_stale_timeout := 60000000;
  stop_grace_period := 10000000;
  oom_cooldown := 60000000;
  supervisor_started_at := 0;
  app_oom_guard := λ _, mkOOMGuard DISABLED None None None None;
|}.

Lemma quiet_holds : quiet.
Proof. done. Qed.

(** Worker "w1" registers, the task "a" is enqueued, published, claimed and started by it. *)
Definition started : World :=
  (MarkTaskRunningUseCase "a" "w1"
    (ClaimTaskUseCase "a" "w1"
      (scheduler_tick
        (EnqueueTaskUseCase (FlowRun.node_task "a") "pa"
          (handle_heartbeat (mkHeartbeat "w1" [FULL] 1 0 None None None None)
             FlowRun.empty_world).2).2).2).2).2.

(** The same world when a minute has passed without a heartbeat. *)
Definition later (w : World) : World :=
  mkWorld (w_db w) (w_nested w) (w_workers w) (w_execs w) (w_last_kill w) (w_slot w) 100 (w_trace w).

Definition silent : World := later started.

Lemma started_safe : world_safe FlowRun.empty_world started.
Proof.
  unfold started.
  apply respects_run; [apply _|apply respects_safe; [apply mark_running_respects|apply kept_db_call]|].
  apply respects_run; [apply _|apply respects_safe; [apply claim_respects|apply kept_db_call]|].
  apply respects_run; [apply _|apply safe_tick|].
  apply respects_run; [apply _|apply respects_safe; [apply enqueue_respects|apply enqueue_kept]|].
  apply safe_heartbeat.
Qed.

Lemma reachable_later w : world_safe FlowRun.empty_world w → reachable env_fk (w_db (later w)).
Proof. intros [[Hs _] _]. exact Hs. Qed.

Lemma registry_later w : world_safe FlowRun.empty_world w → registry_ok (w_workers (later w)).
Proof. intros [_ Hw]. exact (Hw registry_ok_nil). Qed.

Lemma keys_later w : world_safe FlowRun.empty_world w → keys_ok (w_db (later w)).
Proof. intros Hs. eapply reachable_keys_ok, reachable_later, Hs. Qed.

Lemma silent_reachable : reachable env_fk (w_db silent).
Proof. apply reachable_later, started_safe. Qed.

Lemma silent_registry : registry_ok (w_workers silent).
Proof. apply registry_later, started_safe. Qed.

Lemma orchestrator_keeps_invariants_witness :
  let w' := foldl (λ w op, run_operation op w) silent [OpIteration; OpCancelTask "a"] in
  reachable env_fk (w_db w') ∧ registry_ok (w_workers w') ∧ w_trace silent `prefix_of` w_trace w'.
Proof.
  exact (orchestrator_keeps_invariants [OpIteration; OpCancelTask "a"] silent silent_reachable silent_registry).
Defined.

Lemma control_task_always_raises_witness :
  (ControlTask "a" "STOP" silent).1
  = Raise (AttributeError "module 'src.enums' has no attribute 'TaskControlCommand'").
Proof. by rewrite (control_task_always_raises "a" "STOP" silent). Defined.

Lemma lost_executions_are_recovered_witness :
  (reconcile_stale_executions silent).1 = Ok () ∧
  ∃ r', tasks (w_db (reconcile_stale_executions silent).2) !! "a" = Some r' ∧ tr_status r' = ERROR ∧
        tr_termination_reason r' = Some (reason_value WORKER_LOST).
Proof.
  assert (∃ r, tasks (w_db silent) !! "a" = Some r ∧ tr_assigned_worker_id r = Some "w1" ∧
               tr_status r = RUNNING) as (r & Hr & Hw & Hs).
  { eexists. split; [vm_compute; reflexivity|]. split; reflexivity. }
  pose proof (lost_executions_are_recovered silent "a" r quiet_holds (reachable_inv _ _ silent_reachable)) as H.
  rewrite Hw, Hs in H.
  assert (bool_decide (RUNNING ∈ WORKER_OWNED_ACTIVE_STATUSES)
          && worker_lost (env_clock (w_step silent)) (w_workers silent) "w1" = true) as E
    by (vm_compute; reflexivity).
  rewrite E in H. apply H; [by_decide|exact Hr].
Defined.

(** The stop of the running task, a minute later. *)
Definition stopping : World :=
  later (RequestStopUseCase "a" (reason_value USER_STOP) started).2.

Lemma stopping_keys : keys_ok (w_db stopping).
Proof.
  apply keys_later, respects_run; [apply _|apply respects_safe|apply started_safe];
    [apply request_stop_respects|apply request_stop_kept].
Qed.

Lemma due_cancellations_are_completed_witness :
  ∃ r', tasks (w_db (reconcile_cancel_requested_tasks stopping).2) !! "a" = Some r' ∧
    tr_status r' = CANCELLED ∧ tr_termination_reason r' = Some (reason_value USER_STOP).
Proof.
  refine (proj2 (due_cancellations_are_completed stopping "a" _ (reason_value USER_STOP) quiet_holds
                   stopping_keys _ _ _ _ _ _)); [by_decide|vm_compute; reflexivity..|by_decide|vm_compute; reflexivity].
Defined.

Lemma finalizer_commit_is_authoritative_witness :
  (finalize_task_terminal_status "a" "u" "p" (Some "w1") FULL CANCELLED (Some (reason_value USER_STOP)) None
     stopping).1 = Ok true.
Proof.
  refine (proj1 (finalizer_commit_is_authoritative "a" "u" "p" (Some "w1") FULL CANCELLED
    (reason_value USER_STOP) None stopping _ _ _ _ _ _)).
  - by right.
  - vm_compute; reflexivity.
  - reflexivity.
  - apply dwf_nil.
Defined.

(** A nested child whose parent runs on the only worker cannot be waited for. *)
Definition nested_command : NestedTaskEnqueueCommand :=
  mkNestedCommand (mkTaskInternal "child" "u" "org" "p2" FULL NODE false 7 None None "pc") "w1" "a" true.

Definition child_pending : World :=
  (CreatePendingExecutionUseCase (task_internal_to_execution (nc_task nested_command)) started).2.

Lemma world_evolves_inv w w' : world_evolves w w' → db_inv (w_db w) → db_inv (w_db w').
Proof. intros [Hs _]. by apply db_inv_steps with (fk_ok := env_fk). Qed.

Lemma child_pending_inv : db_inv (w_db child_pending).
Proof.
  eapply world_evolves_inv; [apply create_pending_respects|].
  eapply world_evolves_inv; [apply started_safe|]. apply db_inv_initial.
Qed.


End OrchRun.
