(* ===== verification/TaskWorker.v ===== *)
(** * Task worker: handling one delivered task

    Models [_handle_task_payload] ([services/task_worker/tasks/worker_tasks.py]) and the
    execution slot ([services/task_worker/execution_slot.py]) as a program over the world of
    [Flow], against an arbitrary environment: other processes commit transactions before every
    database call. What the worker calls besides the task store is given by a [WorkerRun]. *)
From S2P Require Import Prelude TaskTypes TaskStore TaskLifecycle Flow.

(** ** The execution slot *)

Definition MAX_TASK_ID_BYTES : nat := 512.

Record ExecutionSlotSnapshot := mkSnapshot {
  ss_active_task_id : option string;
  ss_is_busy : bool;
  ss_available_slots : Z;
}.

(** [_active_task_id.value.decode("utf-8") or None] *)
Definition slot_task (slot : string) : option string := if str_truthy slot then Some slot else None.

Definition mark_execution_slot_busy (task_id : string) : M () :=
  if bool_decide (MAX_TASK_ID_BYTES ≤ String.length task_id)%nat
  then raise (TaskError (ValueError ("Task id is too long for worker execution slot state: "
                           +:+ pretty (String.length task_id) +:+ " bytes")))
  else modify (set_slot_id task_id).

Definition mark_execution_slot_idle (task_id : option string) : M () :=
  modify (λ w,
    let current := slot_task (w_slot w) in
    if bool_decide (task_id ≠ None) && negb (bool_decide (current = None ∨ current = task_id))
    then w else set_slot_id "" w).

Definition get_execution_slot_snapshot (is_ready : bool) (w : World) : ExecutionSlotSnapshot :=
  let active := slot_task (w_slot w) in
  mkSnapshot active (bool_decide (active ≠ None))
    (if is_ready && bool_decide (active = None) then 1 else 0)%Z.

(** ** One delivery *)

(** What happens around the task store while one task is handled: whether loading the
    extensions, reading the settings, the clean-up or clearing the dirty graph fails, how the
    pipeline ends, and whether the cancellation watcher polled before it ended. *)
Record WorkerRun := mkWorkerRun {
  wr_task_id : string;
  wr_worker_id : string;
  wr_user_id : string;
  wr_project_id : string;
  wr_mode : PipelineExecutionMode;
  wr_extension_error : option string;
  wr_settings_error : option string;
  wr_result : outcome string ProcessResult;
  wr_watcher_polled : bool;
  wr_cleanup_error : option string;
  wr_dirty_error : option string;
}.

Definition raise_if (error : option string) : M () :=
  match error with Some msg => raise (RuntimeError msg) | None => mret () end.

Section Worker.
Context {env : Env} (run : WorkerRun).

Let task_id := wr_task_id run.
Let worker_id := wr_worker_id run.

(** The terminal event, whose failures are logged: [_emit_terminal]. *)
Definition emit_terminal (status : TaskExecutionStatus) (message : option string) : M () :=
  catch (send (Forwarded (TaskExecutionStatusEvent task_id (wr_mode run) status
                 (if bool_decide (status = ERROR) then Some (or_str message "Task execution failed")
                  else None)) (wr_user_id run) (wr_project_id run)))
    (λ _, mret ()).

Definition mark_success : M bool :=
  finalized ← FinalizeTaskUseCase task_id worker_id SUCCESS None None;
  if negb finalized then mret false
  else
    _ ← raise_if (wr_dirty_error run);
    _ ← emit_terminal SUCCESS None;
    mret true.

Definition mark_error (message : string) : M bool :=
  finalized ← FinalizeTaskUseCase task_id worker_id ERROR (Some message) None;
  _ ← when finalized (emit_terminal ERROR (Some message));
  mret finalized.

Definition mark_cancelled (reason : string) : M bool :=
  finalized ← FinalizeTaskUseCase task_id worker_id CANCELLED None (Some reason);
  _ ← when finalized (emit_terminal CANCELLED None);
  mret finalized.

Definition current_cancellation_reason : M (option string) := get_stop_reason task_id.

(** The watcher: it stores a reason when a poll of the database shows a stop. *)
Definition watch_cancellation : M (option string) :=
  if wr_watcher_polled run then catch (get_stop_reason task_id) (λ _, mret None) else mret None.

(** [try: ... finally: await TaskExecutionCleanup().execute(...)] *)
Definition with_cleanup {A} (body : M A) : M A := λ w,
  let '(r, w1) := body w in
  match raise_if (wr_cleanup_error run) w1 with
  | (Ok _, w2) => (r, w2)
  | (Raise e, w2) => (Raise e, w2)
  end.

Definition run_task : M (option ProcessResult * option string) :=
  _ ← raise_if (wr_settings_error run);
  running ← MarkTaskRunningUseCase task_id worker_id;
  if negb running then
    reason ← current_cancellation_reason;
    mret (None, reason)
  else
    with_cleanup
      (watched ← watch_cancellation;
       result ← match wr_result run with Ok r => mret r | Raise msg => raise (RuntimeError msg) end;
       match watched with
       | Some reason => mret (Some result, Some reason)
       | None =>
           reason ← current_cancellation_reason;
           mret (Some result, reason)
       end).

(** The part of the [try] block after the slot is taken. *)
Definition execute_claimed : M () :=
  _ ← raise_if (wr_extension_error run);
  outcome ← run_task;
  match outcome with
  | (_, Some cancellation_reason) =>
      if bool_decide (terminal_status_for_termination_reason (Some cancellation_reason) = ERROR)
      then _ ← mark_error ("Task terminated: " +:+ cancellation_reason); mret ()
      else _ ← mark_cancelled cancellation_reason; mret ()
  | (None, None) => mret ()
  | (Some result, None) =>
      if pr_success result then
        succeeded ← mark_success;
        if succeeded : bool then mret ()
        else
          late_reason ← current_cancellation_reason;
          match late_reason with
          | Some reason => _ ← mark_cancelled reason; mret ()
          | None => mret ()
          end
      else
        _ ← mark_error (or_str (pr_error_message result) "Task processing finished unsuccessfully");
        mret ()
  end.

(** The [except Exception] block. *)
Definition on_crash (exc : exn) : M () :=
  catch
    (reason ← current_cancellation_reason;
     match reason with
     | Some r =>
         if bool_decide (r = reason_value USER_STOP ∨ r = reason_value USER_HARD_STOP)
         then _ ← mark_cancelled r; mret ()
         else _ ← mark_error (exn_message exc); mret ()
     | None => _ ← mark_error (exn_message exc); mret ()
     end)
    (λ _, mret ()).

(** [_handle_task_payload]: claim and take the slot, execute, and release the slot if it was
    taken. *)
Definition handle_task_payload : M () :=
  slot_owned ← catch
    (claimed ← ClaimTaskUseCase task_id worker_id;
     if claimed : bool then _ ← mark_execution_slot_busy task_id; mret true else mret false)
    (λ exc, _ ← on_crash exc; mret false);
  if slot_owned : bool then
    _ ← catch execute_claimed on_crash;
    mark_execution_slot_idle (Some task_id)
  else mret ().

End Worker.

(** ** The worker only uses the task store through its transactions *)

Section WorkerRespects.
Context {env : Env} (run : WorkerRun).

Lemma evolves_raise_if e : respects world_evolves (raise_if e).
Proof. unfold raise_if. respects_split. Qed.

Lemma evolves_emit st m : respects world_evolves (emit_terminal run st m).
Proof. unfold emit_terminal. respects_split. Qed.

Lemma evolves_reason : respects world_evolves (current_cancellation_reason run).
Proof. apply respects_db_read. Qed.

#[local] Hint Resolve evolves_raise_if evolves_emit evolves_reason : respects.

Lemma evolves_mark_success : respects world_evolves (mark_success run).
Proof. unfold mark_success. respects_split. Qed.

Lemma evolves_mark_error m : respects world_evolves (mark_error run m).
Proof. unfold mark_error. respects_split. Qed.

Lemma evolves_mark_cancelled r : respects world_evolves (mark_cancelled run r).
Proof. unfold mark_cancelled. respects_split. Qed.

Lemma evolves_with_cleanup {A} (m : M A) :
  respects world_evolves m → respects world_evolves (with_cleanup run m).
Proof.
  intros Hm w. specialize (Hm w). unfold with_cleanup. destruct (m w) as [r w1].
  pose proof (evolves_raise_if (wr_cleanup_error run) w1) as Hc.
  destruct (raise_if _ w1) as [[[]|e] w2]; simpl in *; by etrans.
Qed.

#[local] Hint Resolve evolves_mark_success evolves_mark_error evolves_mark_cancelled : respects.

Lemma evolves_run_task : respects world_evolves (run_task run).
Proof.
  unfold run_task. respects_split. apply evolves_with_cleanup. unfold watch_cancellation, get_stop_reason.
  respects_split.
Qed.

#[local] Hint Resolve evolves_run_task : respects.

Lemma evolves_execute : respects world_evolves (execute_claimed run).
Proof. unfold execute_claimed. respects_split. Qed.

Lemma evolves_on_crash e : respects world_evolves (on_crash run e).
Proof. unfold on_crash. respects_split. Qed.

End WorkerRespects.

(** ** Ownership and settlement of the row *)

Section Settlement.
Context {env : Env} (run : WorkerRun).

Let tid := wr_task_id run.
Let wid := wr_worker_id run.

Definition owned (w : World) : Prop :=
  db_inv (w_db w) ∧ ∃ r, tasks (w_db w) !! tid = Some r ∧ tr_assigned_worker_id r = Some wid ∧
                         (2 ≤ status_rank (tr_status r))%nat.

Definition settled (w : World) : Prop :=
  ∃ r, tasks (w_db w) !! tid = Some r ∧ (4 ≤ status_rank (tr_status r))%nat.

(** No call of the worker fails. *)
Definition no_faults : Prop := ∀ n, env_fault n = None.

(** No other process marks an execution of this worker as running. *)
Definition worker_exclusive : Prop := ∀ n db id r r',
  tasks db !! id = Some r → tr_status r = STARTED → tr_assigned_worker_id r = Some wid →
  tasks (env_others n db) !! id = Some r' → tr_status r' ≠ RUNNING.

Lemma rtc_row_evolves db db' id r :
  rtc (task_step env_fk) db db' → keys_ok db → tasks db !! id = Some r →
  ∃ r', tasks db' !! id = Some r' ∧ rtc row_step r r'.
Proof.
  intros Hs Hk Hr. destruct (task_steps_evolve _ _ _ Hs Hk) as [_ Hrow]. specialize (Hrow id).
  rewrite Hr in Hrow. destruct (tasks db' !! id) as [r'|]; [|done]. eauto.
Qed.

Lemma owned_evolves w w' : world_evolves w w' → owned w → owned w'.
Proof.
  intros [Hs _] (Hinv & r & Hr & Hw & Hrank). split; [by eapply db_inv_steps|].
  destruct (rtc_row_evolves _ _ _ _ Hs (di_keys _ Hinv) Hr) as (r' & Hr' & Hsteps).
  exists r'. split; [done|]. split; [by rewrite (rtc_row_step_worker _ _ _ Hsteps Hw Hrank)|].
  pose proof (rtc_row_step_rank _ _ Hsteps). lia.
Qed.

Lemma settled_rank s : (4 ≤ status_rank s)%nat ↔ terminal s = true ∨ s = CANCEL_REQUESTED.
Proof. destruct s; simpl; split; try lia; intros; naive_solver lia. Qed.

Lemma settled_evolves w w' : world_evolves w w' → keys_ok (w_db w) → settled w → settled w'.
Proof.
  intros [Hs _] Hk (r & Hr & Hset).
  destruct (rtc_row_evolves _ _ _ _ Hs Hk Hr) as (r' & Hr' & Hsteps). exists r'.
  split; [done|]. pose proof (rtc_row_step_rank _ _ Hsteps). lia.
Qed.

(** What one of the terminal writes of the worker does to a row it still executes. *)
Lemma finalize_active st message now db r :
  keys_ok db → tasks db !! tid = Some r → tr_status r ∈ [STARTED; RUNNING] →
  tr_assigned_worker_id r = Some wid → tr_termination_reason r = None → st ∈ TERMINAL_STATUSES →
  ∃ r', finalize tid wid st message None now db = Ok (true, db_put r' db) ∧
    tr_task_id r' = tid ∧ tr_status r' = st ∧
    tr_message r' = match message with Some m => Some m | None => tr_message r end.
Proof.
  intros Hk Hr Hs Hw Hn Hst. assert (tr_task_id r = tid) as Hid by by apply Hk.
  unfold finalize. rewrite (bool_decide_eq_true_2 (st ∈ _)) by done. cbn [negb]. rewrite Hr, Hw, Hn.
  rewrite (bool_decide_eq_true_2 (Some wid = _)) by done. cbn [negb].
  rewrite bool_decide_eq_false_2 by (destruct (tr_status r); set_solver).
  assert (finalize_source_ok st (tr_status r) = true) as ->.
  { unfold finalize_source_ok. case_bool_decide; apply bool_decide_eq_true_2; [done|].
    destruct (tr_status r); set_solver. }
  cbn [negb]. rewrite (bool_decide_eq_false_2 (None ≠ None)) by tauto. cbn [andb].
  eexists. split; [reflexivity|]. by destruct r, message.
Qed.

Lemma db_call_no_fault {A} (f : Z → TaskDB → outcome task_error (A * TaskDB)) w :
  no_faults → db_call f w =
    let db := env_others (w_step w) (w_db w) in
    match f (env_clock (w_step w)) db with
    | Ok (a, db') => (Ok a, set_db db' (set_db db (bump w)))
    | Raise e => (Raise (TaskError e), set_db db (bump w))
    end.
Proof. intros Hf. unfold db_call. by rewrite Hf. Qed.

Lemma owned_others w : owned w → owned (set_db (env_others (w_step w) (w_db w)) (bump w)).
Proof. apply owned_evolves. apply world_evolves_db; [apply env_others_ok|done]. Qed.

(** A terminal write settles an owned row: it commits, or the row was settled already. *)
Lemma finalize_settles st message reason w :
  no_faults → owned w → st ∈ TERMINAL_STATUSES →
  reason = None ∨ settled w →
  settled (FinalizeTaskUseCase tid wid st message reason w).2 ∧
  is_ok (FinalizeTaskUseCase tid wid st message reason w).1 = true.
Proof.
  intros Hf Ho Hst Hcase.
  pose proof (finalize_respects tid wid st message reason w) as Hev.
  assert (is_ok (FinalizeTaskUseCase tid wid st message reason w).1 = true) as Hok.
  { unfold FinalizeTaskUseCase. rewrite db_call_no_fault by done. cbv zeta.
    destruct (finalize _ _ _ _ _ _ _) as [[b db']|e] eqn:E; [done|].
    unfold finalize in E. rewrite bool_decide_eq_true_2 in E by done. cbn [negb] in E.
    repeat case_match; done. }
  split; [|done]. destruct Hcase as [->|Hset]; [|by eapply settled_evolves; [done|apply Ho|]].
  destruct (owned_others w Ho) as (Hinv & r & Hr & Hw & Hrank). simpl in *.
  destruct (decide (4 ≤ status_rank (tr_status r))%nat) as [Hd|Hd].
  - assert (settled (set_db (env_others (w_step w) (w_db w)) (bump w))) as Hset by by exists r.
    revert Hev Hok. unfold FinalizeTaskUseCase. rewrite db_call_no_fault by done. cbv zeta.
    destruct (finalize _ _ _ _ _ _ _) as [[b db']|e] eqn:E; [|done]. intros _ _.
    eapply (settled_evolves (set_db (env_others (w_step w) (w_db w)) (bump w))); [|apply Hinv|done].
    apply world_evolves_db; [|done]. simpl. by eapply rtc_once, ts_finalize.
  - assert (tr_status r ∈ [STARTED; RUNNING]) as Hact.
    { destruct (tr_status r); simpl in *; try lia; set_solver. }
    edestruct (finalize_active st message (env_clock (w_step w)) (env_others (w_step w) (w_db w)) r)
      as (r' & E & Hid & Hst' & _); [apply Hinv|done..| |done|].
    { eapply ro_no_reason; [by eapply (di_rows _ Hinv)|]. destruct (tr_status r); set_solver. }
    unfold FinalizeTaskUseCase. rewrite db_call_no_fault by done. cbv zeta. rewrite E.
    exists r'. split; [simpl; rewrite <-Hid; apply lookup_insert_eq|]. rewrite Hst'.
    apply settled_rank. left. by apply bool_decide_eq_true.
Qed.

(** A stop that is observed is a stop that is committed. *)
Lemma reason_settles w o w' :
  no_faults → owned w → current_cancellation_reason run w = (Ok o, w') →
  owned w' ∧ (o ≠ None → settled w').
Proof.
  intros Hf Ho. unfold current_cancellation_reason, get_stop_reason, db_read.
  rewrite db_call_no_fault by done. cbv zeta. intros [= <- <-].
  destruct (owned_others w Ho) as (Hinv & r & Hr & Hw & Hrank). simpl in *.
  split; [split; [done|]; by exists r|]. unfold authoritative_reason. fold tid. rewrite Hr.
  case_bool_decide as Hc; [|done]. intros _. exists r. split; [done|]. apply settled_rank.
  destruct Hc as [->| ->]; [by right|by left].
Qed.

Lemma emit_total st m w : ∃ w', emit_terminal run st m w = (Ok (), w') ∧ world_evolves w w'.
Proof.
  unfold emit_terminal, catch.
  destruct (send _ w) as [[[]|e] w'] eqn:E; (exists w'; split; [done|]);
    match type of E with send ?x w = _ => pose proof (respects_send x w) as H; by rewrite E in H end.
Qed.

Lemma keys_of_owned w : owned w → keys_ok (w_db w).
Proof. intros [H _]. apply H. Qed.

(** A terminal write followed by its announcement. *)
Lemma finish_settles st message reason emitted w :
  no_faults → owned w → st ∈ TERMINAL_STATUSES → reason = None ∨ settled w →
  ∃ b w', (finalized ← FinalizeTaskUseCase tid wid st message reason;
           _ ← when finalized (emit_terminal run st emitted); mret finalized) w = (Ok b, w') ∧ settled w'.
Proof.
  intros Hf Ho Hst Hc. destruct (finalize_settles st message reason w Hf Ho Hst Hc) as [Hset Hok].
  pose proof (finalize_respects tid wid st message reason w) as Hev. apply owned_evolves in Hev; [|done].
  rewrite M_bind_eq. destruct (FinalizeTaskUseCase _ _ _ _ _ w) as [[b|e] w1]; [|done]. simpl in *.
  rewrite M_bind_eq. unfold when. destruct b.
  - destruct (emit_total st emitted w1) as (w2 & -> & He). exists true, w2. split; [done|].
    eapply settled_evolves; [done|by apply keys_of_owned|done].
  - by exists false, w1.
Qed.

Lemma mark_error_settles message w :
  no_faults → owned w → ∃ b w', mark_error run message w = (Ok b, w') ∧ settled w'.
Proof. intros Hf Ho. apply finish_settles; [done..|set_solver|by left]. Qed.

Lemma mark_cancelled_settles reason w :
  no_faults → owned w → settled w → ∃ b w', mark_cancelled run reason w = (Ok b, w') ∧ settled w'.
Proof. intros Hf Ho Hs. apply finish_settles; [done..|set_solver|by right]. Qed.

Lemma mark_success_settles w :
  no_faults → owned w → settled (mark_success run w).2 ∧ owned (mark_success run w).2.
Proof.
  intros Hf Ho. split; [|eapply owned_evolves; [apply evolves_mark_success|done]].
  destruct (finalize_settles SUCCESS None None w Hf Ho) as [Hset Hok]; [set_solver|by left|].
  pose proof (finalize_respects tid wid SUCCESS None None w) as Hev. apply owned_evolves in Hev; [|done].
  unfold mark_success. fold tid wid. rewrite M_bind_eq.
  destruct (FinalizeTaskUseCase _ _ _ _ _ w) as [[b|e] w1]; [|done]. simpl in *.
  destruct b; [|done]. cbn [negb]. eapply settled_evolves; [|by apply keys_of_owned|exact Hset].
  apply respects_bind; [apply _|apply evolves_raise_if|intros _]. apply respects_bind; [apply _|apply evolves_emit|intros _].
  apply respects_ret; apply _.
Qed.

Lemma on_crash_settles exc w :
  no_faults → owned w → ∃ w', on_crash run exc w = (Ok (), w') ∧ settled w'.
Proof.
  intros Hf Ho. unfold on_crash, catch. rewrite M_bind_eq.
  destruct (current_cancellation_reason run w) as [[o|e] w1] eqn:E.
  - destruct (reason_settles w o w1 Hf Ho E) as [Ho1 Hs1].
    destruct o as [r|]; [case_bool_decide|].
    + destruct (mark_cancelled_settles r w1) as (b & w2 & Em & Hs); [done|done|by apply Hs1|].
      rewrite M_bind_eq, Em. by exists w2.
    + destruct (mark_error_settles (exn_message exc) w1) as (b & w2 & Em & Hs); [done..|].
      rewrite M_bind_eq, Em. by exists w2.
    + destruct (mark_error_settles (exn_message exc) w1) as (b & w2 & Em & Hs); [done..|].
      rewrite M_bind_eq, Em. by exists w2.
  - exfalso. revert E. unfold current_cancellation_reason, get_stop_reason, db_read.
    by rewrite db_call_no_fault.
Qed.

(** The row right after the claim. *)
Definition just_started (w : World) : Prop :=
  db_inv (w_db w) ∧ ∃ r, tasks (w_db w) !! tid = Some r ∧ tr_assigned_worker_id r = Some wid ∧
                         tr_status r = STARTED.

Lemma just_started_owned w : just_started w → owned w.
Proof. intros (? & r & ? & ? & Hs). split; [done|]. exists r. rewrite Hs. simpl. auto with lia. Qed.

(** A rejected transition to RUNNING means that the row was settled. *)
Lemma mark_running_rejected w w' :
  no_faults → worker_exclusive → just_started w →
  MarkTaskRunningUseCase tid wid w = (Ok false, w') → settled w'.
Proof.
  intros Hf Hx Hj. unfold MarkTaskRunningUseCase, db_write. rewrite db_call_no_fault by done. cbv zeta.
  destruct (owned_others w (just_started_owned w Hj)) as (Hinv & r' & Hr' & Hw' & Hrank'). simpl in *.
  destruct Hj as (_ & r & Hr & Hw & Hs). pose proof (Hx _ _ _ _ _ Hr Hs Hw Hr') as Hne.
  unfold mark_running. rewrite Hr', Hw'. rewrite (bool_decide_eq_true_2 (Some wid = _)) by done.
  rewrite andb_true_r. case_bool_decide as Hst; [done|]. intros [= <-]. exists r'. split; [done|].
  destruct (tr_status r'); simpl in *; lia || done.
Qed.

Lemma with_cleanup_inv {A} (m : M A) w a w' :
  with_cleanup run m w = (Ok a, w') → m w = (Ok a, w').
Proof.
  unfold with_cleanup, raise_if. destruct (m w) as [o w1], (wr_cleanup_error run); simpl; [done|].
  by intros [= -> ->].
Qed.

Lemma run_task_result w res reason w' :
  no_faults → worker_exclusive → just_started w → run_task run w = (Ok (res, reason), w') →
  owned w' ∧ (res = None ∨ reason ≠ None → settled w').
Proof.
  intros Hf Hx Hj E.
  assert (owned w') as Ho'.
  { pose proof (evolves_run_task run w) as Hev. rewrite E in Hev.
    eapply owned_evolves; [exact Hev|by apply just_started_owned]. }
  split; [done|]. revert E. unfold run_task. fold tid wid. rewrite M_bind_eq.
  destruct (wr_settings_error run); [done|]. simpl raise_if. cbv iota beta. change ((mret () : M ()) w) with (Ok (E:=exn) (), w).
  cbv iota beta. rewrite M_bind_eq. destruct (MarkTaskRunningUseCase tid wid w) as [[b|e] w1] eqn:Er; [|done].
  assert (owned w1) as Ho1.
  { pose proof (mark_running_respects tid wid w) as Hev. rewrite Er in Hev.
    eapply owned_evolves; [exact Hev|by apply just_started_owned]. }
  destruct b; cbn [negb]; cycle 1.
  - pose proof (mark_running_rejected w w1 Hf Hx Hj Er) as Hs. rewrite M_bind_eq.
    pose proof (evolves_reason run w1) as Hev.
    destruct (current_cancellation_reason run w1) as [[o|e] w2]; [|done]. intros [= <- <- <-] _.
    eapply settled_evolves; [exact Hev|by apply keys_of_owned|done].
  - intros E%with_cleanup_inv Hcase. revert E. rewrite M_bind_eq.
    assert (owned (watch_cancellation run w1).2 ∧
            ∀ o w2, watch_cancellation run w1 = (Ok (Some o), w2) → settled w2) as [Ho2 Hwatch].
    { unfold watch_cancellation. destruct (wr_watcher_polled run); [|done]. unfold catch.
      change (get_stop_reason (wr_task_id run)) with (current_cancellation_reason run).
      pose proof (evolves_reason run w1) as Hev.
      destruct (current_cancellation_reason run w1) as [[o|e] w2] eqn:Er1; simpl in *.
      - destruct (reason_settles w1 o w2 Hf Ho1 Er1) as [? Hs]. split; [done|]. intros o' w3 [= -> ->].
        by apply Hs.
      - split; [by eapply owned_evolves|done]. }
    destruct (watch_cancellation run w1) as [[o|e] w2]; [|done]. simpl in Ho2. rewrite M_bind_eq.
    destruct (wr_result run) as [pr|msg]; [|done].
    change ((mret pr : M ProcessResult) w2) with (Ok (E:=exn) pr, w2). cbv iota beta.
    destruct o as [o|]; [by intros [= <- <- <-]; eapply Hwatch|].
    rewrite M_bind_eq. destruct (current_cancellation_reason run w2) as [[o|e] w3] eqn:Er3; [|done].
    intros [= <- <- <-]. destruct (reason_settles w2 o w3 Hf Ho2 Er3) as [_ Hs].
    apply Hs. by destruct Hcase.
Qed.

Lemma execute_settles w w' :
  no_faults → worker_exclusive → just_started w → execute_claimed run w = (Ok (), w') → settled w'.
Proof.
  intros Hf Hx Hj. unfold execute_claimed. rewrite M_bind_eq.
  destruct (wr_extension_error run); [done|]. change (raise_if None w) with (Ok (E:=exn) (), w). cbv iota beta.
  rewrite M_bind_eq. destruct (run_task run w) as [[[res reason]|e] w1] eqn:Er; [|done].
  destruct (run_task_result w res reason w1 Hf Hx Hj Er) as [Ho Hs].
  destruct reason as [reason|].
  - assert (settled w1) as Hs1 by (apply Hs; by right). destruct res; (case_bool_decide;
      [destruct (mark_error_settles ("Task terminated: " +:+ reason) w1) as (b & w2 & Em & ?); [done..|]
      |destruct (mark_cancelled_settles reason w1) as (b & w2 & Em & ?); [done..|]];
      rewrite M_bind_eq, Em; by intros [= <-]).
  - destruct res as [pr|]; [|intros [= <-]; apply Hs; by left]. destruct (pr_success pr).
    + destruct (mark_success_settles w1 Hf Ho) as [Hs2 Ho2]. rewrite M_bind_eq.
      destruct (mark_success run w1) as [[b|e] w2]; [|done]. simpl in *. destruct b; [by intros [= <-]|].
      rewrite M_bind_eq. pose proof (evolves_reason run w2) as Hev.
      destruct (current_cancellation_reason run w2) as [[o|e] w3]; [|done]. simpl in Hev.
      assert (settled w3) as Hs3 by (eapply settled_evolves; [done|by apply keys_of_owned|done]).
      destruct o as [late|]; [|by intros [= <-]].
      destruct (mark_cancelled_settles late w3) as (b & w4 & Em & ?); [done|by eapply owned_evolves|done|].
      rewrite M_bind_eq, Em. by intros [= <-].
    + destruct (mark_error_settles (or_str (pr_error_message pr) "Task processing finished unsuccessfully") w1)
        as (b & w2 & Em & ?); [done..|]. rewrite M_bind_eq, Em. by intros [= <-].
Qed.

End Settlement.

(** ** Properties *)

(** The execution slot is left alone. *)
Definition same_slot (w w' : World) : Prop := w_slot w' = w_slot w.

#[global] Instance same_slot_preorder : PreOrder same_slot.
Proof. split; [done|]. intros w1 w2 w3 H1 H2. unfold same_slot in *. congruence. Qed.

Section Properties.
Context {env : Env} (run : WorkerRun).

Lemma slot_db {A} (f : Z → TaskDB → outcome task_error (A * TaskDB)) : respects same_slot (db_call f).
Proof. intros w. unfold db_call, same_slot. by repeat case_match. Qed.

Lemma slot_send e : respects same_slot (send e).
Proof. intros w. by destruct (send_cases e w) as [->|[ft ->]]. Qed.

Lemma slot_raise_if e : respects same_slot (raise_if e).
Proof. unfold raise_if. respects_split. Qed.

#[local] Hint Resolve slot_db slot_send slot_raise_if : respects.

Ltac slot_split :=
  unfold mark_success, mark_error, mark_cancelled, emit_terminal, current_cancellation_reason,
    get_stop_reason, db_read, db_write, FinalizeTaskUseCase, MarkTaskRunningUseCase; respects_split.

Lemma slot_on_crash e : respects same_slot (on_crash run e).
Proof. unfold on_crash. slot_split. Qed.

Lemma slot_execute : respects same_slot (execute_claimed run).
Proof.
  assert (∀ A (m : M A), respects same_slot m → respects same_slot (with_cleanup run m)) as Hc.
  { intros A m Hm w. specialize (Hm w). unfold with_cleanup. destruct (m w) as [r w1].
    pose proof (slot_raise_if (wr_cleanup_error run) w1) as H.
    destruct (raise_if _ w1) as [[[]|e] w2]; simpl in *; by etrans. }
  unfold execute_claimed, run_task, watch_cancellation. slot_split; apply Hc; slot_split.
Qed.

Lemma on_crash_total e w : ∃ w', on_crash run e w = (Ok (), w').
Proof.
  unfold on_crash. match goal with |- context [catch ?m _ w] => set (body := m) end.
  unfold catch. destruct (body w) as [[[]|e'] w']; by eexists.
Qed.

Lemma idle_frees tid w : w_slot w = tid → w_slot (mark_execution_slot_idle (Some tid) w).2 = "".
Proof.
  intros E. unfold mark_execution_slot_idle, modify; cbn [snd]. rewrite E. unfold slot_task.
  destruct (str_truthy tid).
  - by rewrite (bool_decide_eq_true_2 (Some tid = None ∨ Some tid = Some tid)), andb_false_r by auto.
  - by rewrite (bool_decide_eq_true_2 (None = None ∨ None = Some tid)), andb_false_r by auto.
Qed.

(** Whatever fails, handling a delivery never raises, and a free execution slot is free
    again afterwards. *)
Theorem worker_always_frees_its_slot w :
  ∃ w', handle_task_payload run w = (Ok (), w') ∧ (w_slot w = "" → w_slot w' = "").
Proof.
  unfold handle_task_payload. rewrite M_bind_eq. unfold catch at 1. rewrite M_bind_eq.
  pose proof (slot_db (λ now db, Ok (claim (wr_task_id run) (wr_worker_id run) now db)) w) as Hs.
  change (db_call _) with (ClaimTaskUseCase (wr_task_id run) (wr_worker_id run)) in Hs.
  assert (∀ exc w1, w_slot w1 = w_slot w → ∃ w', (_ ← on_crash run exc; mret false) w1 = (Ok false, w') ∧
            w_slot w' = w_slot w) as Hcrash.
  { intros exc w1 E. rewrite M_bind_eq. pose proof (slot_on_crash exc w1) as H.
    destruct (on_crash_total exc w1) as (w2 & E2). rewrite E2 in H |- *. exists w2. split; [done|].
    by rewrite <-E, <-H. }
  destruct (ClaimTaskUseCase _ _ w) as [[b|e] w1]; simpl in Hs.
  - destruct b.
    + rewrite M_bind_eq. unfold mark_execution_slot_busy. case_bool_decide.
      * destruct (Hcrash (TaskError (ValueError ("Task id is too long for worker execution slot state: "
          +:+ pretty (String.length (wr_task_id run)) +:+ " bytes"))) w1 Hs) as (w2 & E & Hw2).
        cbv iota beta delta [raise]. rewrite E. exists w2. split; [done|congruence].
      * cbv iota beta delta [modify mret M_ret]. rewrite M_bind_eq. unfold catch.
        pose proof (slot_execute (set_slot_id (wr_task_id run) w1)) as He.
        destruct (execute_claimed run _) as [[[]|e] w2].
        -- eexists. split; [reflexivity|]. intros _. by apply idle_frees.
        -- pose proof (slot_on_crash e w2) as Hc. destruct (on_crash_total e w2) as (w3 & E3).
           rewrite E3 in *. eexists. split; [reflexivity|]. intros _. apply idle_frees.
           etrans; [exact Hc|exact He].
    + exists w1. split; [done|congruence].
  - destruct (Hcrash e w1 Hs) as (w2 & -> & Hw2). exists w2. split; [done|congruence].
Qed.

Lemma claim_just_started w w1 :
  db_inv (w_db w) → ClaimTaskUseCase (wr_task_id run) (wr_worker_id run) w = (Ok true, w1) →
  just_started run w1.
Proof.
  intros Hinv E. pose proof (claim_respects (wr_task_id run) (wr_worker_id run) w) as [Hev _]. rewrite E in Hev.
  split; [by eapply db_inv_steps|]. apply db_write_ok in E as [E _]. revert E. unfold claim.
  destruct (tasks _ !! wr_task_id run) as [r|] eqn:Hr; [|done]. case_bool_decide; [|done]. intros [= E].
  assert (tr_task_id r = wr_task_id run) as Hid.
  { eapply env_others_keys; [apply Hinv|done]. }
  eexists. split; [|split].
  - rewrite <-E. simpl. rewrite <-Hid. destruct r. apply lookup_insert_eq.
  - by destruct r.
  - by destruct r.
Qed.

(** C27. A claimed task is not left active by its worker, provided that the worker's own calls to the
    database and the broker do not fail and no other process marks an execution of this worker as
    running: whatever the pipeline, the extensions and the clean-up do, and whatever else other processes
    commit in between, when the worker is done with a task it claimed the row is terminal, or a stop is
    requested, which the supervisor completes. (After a failed call the supervisor recovers the row.) *)
Theorem claimed_task_is_never_left_active w :
  no_faults → worker_exclusive run → db_inv (w_db w) →
  (claim (wr_task_id run) (wr_worker_id run) (env_clock (w_step w))
     (env_others (w_step w) (w_db w))).1 = true →
  ∃ r, tasks (w_db (handle_task_payload run w).2) !! wr_task_id run = Some r ∧
    (terminal (tr_status r) = true ∨ tr_status r = CANCEL_REQUESTED).
Proof.
  intros Hf Hx Hinv Hclaim.
  cut (settled run (handle_task_payload run w).2).
  { intros (r & Hr & Hrank). exists r. split; [done|]. by apply settled_rank. }
  destruct (ClaimTaskUseCase (wr_task_id run) (wr_worker_id run) w) as [o w1] eqn:E.
  assert (o = Ok true) as ->.
  { revert E. unfold ClaimTaskUseCase, db_write. rewrite db_call_no_fault by done. cbv zeta.
    destruct (claim _ _ _ _) as [b db']; simpl in *. subst b. by intros [= <- _]. }
  pose proof (claim_just_started w w1 Hinv E) as Hj. pose proof (just_started_owned run w1 Hj) as Ho.
  unfold handle_task_payload. rewrite M_bind_eq. unfold catch at 1. rewrite M_bind_eq, E, M_bind_eq.
  unfold mark_execution_slot_busy. case_bool_decide.
  - cbv iota beta delta [raise]. rewrite M_bind_eq. edestruct on_crash_settles as (w2 & -> & Hs); [done..|]. done.
  - cbv iota beta delta [modify mret M_ret]. rewrite M_bind_eq. unfold catch.
    assert (just_started run (set_slot_id (wr_task_id run) w1)) as Hj1 by done.
    assert (∀ w2, settled run w2 → settled run (mark_execution_slot_idle (Some (wr_task_id run)) w2).2) as Hidle.
    { intros w2 Hs. simpl. by case_match. }
    pose proof (evolves_execute run (set_slot_id (wr_task_id run) w1)) as Hev.
    destruct (execute_claimed run _) as [[[]|e] w2] eqn:Ee.
    + by apply Hidle, (execute_settles run _ _ Hf Hx Hj1 Ee).
    + destruct (on_crash_settles run e w2 Hf) as (w3 & -> & Hs); [|by apply Hidle].
      eapply owned_evolves; [exact Hev|by apply just_started_owned].
Qed.

(** The row of the task, in a state of its execution by this worker. *)
Definition executing (st : TaskExecutionStatus) (message : option string) (w : World) : Prop :=
  db_inv (w_db w) ∧ ∃ r, tasks (w_db w) !! wr_task_id run = Some r ∧ tr_status r = st ∧
    tr_assigned_worker_id r = Some (wr_worker_id run) ∧ tr_message r = message.

Lemma quiet_running message w :
  quiet → executing STARTED message w →
  ∃ w', MarkTaskRunningUseCase (wr_task_id run) (wr_worker_id run) w = (Ok true, w') ∧
    executing RUNNING message w'.
Proof.
  intros Hq (Hinv & r & Hr & Hs & Hw & Hm).
  pose proof (mark_running_respects (wr_task_id run) (wr_worker_id run) w) as [Hev _].
  assert (tr_task_id r = wr_task_id run) as Hid by by apply (di_keys _ Hinv).
  unfold MarkTaskRunningUseCase in *. rewrite quiet_db_write in * by done. revert Hev.
  unfold mark_running. rewrite Hr, Hs, Hw, !bool_decide_eq_true_2 by done. cbn [andb fst snd].
  intros Hev. eexists. split; [reflexivity|]. split; [by eapply db_inv_steps|].
  eexists. split; [simpl; rewrite <-Hid; destruct r; apply lookup_insert_eq|]. by destruct r.
Qed.

Lemma quiet_reason message w :
  quiet → executing RUNNING message w →
  ∃ w', current_cancellation_reason run w = (Ok None, w') ∧ executing RUNNING message w'.
Proof.
  intros Hq (Hinv & r & Hr & Hs & Hw & Hm).
  unfold current_cancellation_reason, get_stop_reason, db_read. erewrite quiet_db_call by done.
  unfold authoritative_reason. rewrite Hr, Hs, bool_decide_eq_false_2 by naive_solver.
  eexists. split; [reflexivity|]. split; [done|]. by exists r.
Qed.

(** A terminal write of the worker on the row it executes. *)
Lemma quiet_finish st new message w :
  quiet → executing RUNNING message w → st ∈ TERMINAL_STATUSES →
  ∃ w' r, FinalizeTaskUseCase (wr_task_id run) (wr_worker_id run) st new None w = (Ok true, w') ∧
    tasks (w_db w') !! wr_task_id run = Some r ∧ tr_status r = st ∧
    tr_message r = match new with Some m => Some m | None => message end.
Proof.
  intros Hq (Hinv & r & Hr & Hs & Hw & Hm) Hst. unfold FinalizeTaskUseCase.
  edestruct (finalize_active run st new (env_clock (w_step w)) (w_db w) r) as (r' & E & Hid & Hst' & Hm').
  { apply Hinv. }
  { done. }
  { rewrite Hs. set_solver. }
  { done. }
  { eapply ro_no_reason; [by eapply (di_rows _ Hinv)|]. rewrite Hs. set_solver. }
  { done. }
  erewrite quiet_db_call by done. eexists _, r'. split; [reflexivity|].
  split; [simpl; rewrite <-Hid; apply lookup_insert_eq|]. by rewrite Hm', Hm.
Qed.

(** The terminal status and message a run should end with. *)
Definition expected_end (message : option string) : TaskExecutionStatus * option string :=
  match wr_result run with
  | Ok pr => if pr_success pr then (SUCCESS, message)
             else (ERROR, Some (or_str (pr_error_message pr) "Task processing finished unsuccessfully"))
  | Raise msg => (ERROR, Some msg)
  end.

Definition ends_as (message : option string) (w : World) : Prop :=
  ∃ r, tasks (w_db w) !! wr_task_id run = Some r ∧ tr_status r = (expected_end message).1 ∧
       tr_message r = (expected_end message).2.

(** Nothing but the pipeline itself fails. *)
Definition clean_run : Prop :=
  wr_extension_error run = None ∧ wr_settings_error run = None ∧ wr_cleanup_error run = None ∧
  wr_dirty_error run = None ∧ (String.length (wr_task_id run) < MAX_TASK_ID_BYTES)%nat.

Lemma quiet_mark st new message w :
  quiet → executing RUNNING message w → st ∈ TERMINAL_STATUSES →
  ∃ w' r, (finalized ← FinalizeTaskUseCase (wr_task_id run) (wr_worker_id run) st new None;
           _ ← when finalized (emit_terminal run st new); mret finalized) w = (Ok true, w') ∧
    tasks (w_db w') !! wr_task_id run = Some r ∧ tr_status r = st ∧
    tr_message r = match new with Some m => Some m | None => message end.
Proof.
  intros Hq He Hst. rewrite M_bind_eq.
  destruct (quiet_finish st new message w Hq He Hst) as (w1 & r & -> & Hr). rewrite M_bind_eq.
  unfold when, emit_terminal, catch. rewrite quiet_send by done. eexists _, r. split; [reflexivity|done].
Qed.

Lemma quiet_watch message w :
  quiet → executing RUNNING message w →
  ∃ w', watch_cancellation run w = (Ok None, w') ∧ executing RUNNING message w'.
Proof.
  intros Hq He. unfold watch_cancellation. destruct (wr_watcher_polled run); [|by exists w].
  destruct (quiet_reason message w Hq He) as (w' & E & He'). exists w'. unfold catch.
  change (get_stop_reason (wr_task_id run)) with (current_cancellation_reason run). by rewrite E.
Qed.

(** Executing a claimed task: a result is written, an exception is left to the handler. *)
Lemma quiet_execute message w :
  quiet → clean_run → executing STARTED message w →
  match wr_result run with
  | Ok _ => ∃ w', execute_claimed run w = (Ok (), w') ∧ ends_as message w'
  | Raise msg => ∃ w', execute_claimed run w = (Raise (RuntimeError msg), w') ∧ executing RUNNING message w'
  end.
Proof.
  intros Hq (Hext & Hset & Hcl & Hdirty & _) He. unfold execute_claimed, run_task, with_cleanup.
  rewrite Hext, Hset, Hcl. unfold raise_if. rewrite M_bind_eq.
  change ((mret () : M ()) w) with (Ok (E:=exn) (), w). cbv iota beta. rewrite !M_bind_eq.
  change ((mret () : M ()) w) with (Ok (E:=exn) (), w). cbv iota beta. rewrite M_bind_eq.
  destruct (quiet_running message w Hq He) as (w1 & -> & He1). cbn [negb]. rewrite M_bind_eq.
  destruct (quiet_watch message w1 Hq He1) as (w2 & -> & He2). rewrite M_bind_eq. unfold ends_as, expected_end.
  destruct (wr_result run) as [pr|msg].
  - change ((mret pr : M ProcessResult) w2) with (Ok (E:=exn) pr, w2). cbv iota beta. rewrite M_bind_eq.
    destruct (quiet_reason message w2 Hq He2) as (w3 & -> & He3).
    cbv beta iota delta [mret M_ret]. destruct (pr_success pr).
    + rewrite M_bind_eq. unfold mark_success. rewrite M_bind_eq.
      destruct (quiet_finish SUCCESS None message w3 Hq He3) as (w4 & r & -> & Hr); [set_solver|].
      cbn [negb]. rewrite Hdirty. rewrite M_bind_eq. unfold raise_if.
      change ((mret () : M ()) w4) with (Ok (E:=exn) (), w4). cbv iota beta. rewrite M_bind_eq.
      unfold emit_terminal, catch. rewrite quiet_send by done. eexists. split; [reflexivity|]. by exists r.
    + rewrite M_bind_eq. unfold mark_error.
      destruct (quiet_mark ERROR (Some (or_str (pr_error_message pr) "Task processing finished unsuccessfully"))
        message w3 Hq He3) as (w4 & r & -> & Hr); [set_solver|]. exists w4. split; [done|]. by exists r.
  - exists w2. done.
Qed.

(** Left alone, the worker records how the pipeline ended: SUCCESS when it succeeded, and
    ERROR with its message when it failed or raised. *)
Theorem worker_records_the_outcome w r :
  quiet → clean_run → db_inv (w_db w) →
  tasks (w_db w) !! wr_task_id run = Some r → tr_status r = QUEUED →
  ends_as (tr_message r) (handle_task_payload run w).2.
Proof.
  intros Hq Hclean Hinv Hr Hs. assert (tr_task_id r = wr_task_id run) as Hid by by apply (di_keys _ Hinv).
  assert (∃ w1, ClaimTaskUseCase (wr_task_id run) (wr_worker_id run) w = (Ok true, w1) ∧
            executing STARTED (tr_message r) w1) as (w1 & E & He).
  { pose proof (claim_respects (wr_task_id run) (wr_worker_id run) w) as [Hev _].
    unfold ClaimTaskUseCase in *. rewrite quiet_db_write in * by done. revert Hev. unfold claim.
    rewrite Hr, Hs, bool_decide_eq_true_2 by set_solver. cbn [fst snd]. intros Hev.
    eexists. split; [reflexivity|]. split; [by eapply db_inv_steps|].
    eexists. split; [simpl; rewrite <-Hid; destruct r; apply lookup_insert_eq|]. by destruct r. }
  unfold handle_task_payload. rewrite M_bind_eq. unfold catch at 1. rewrite M_bind_eq, E, M_bind_eq.
  pose proof Hclean as (_ & _ & _ & _ & Hlen).
  unfold mark_execution_slot_busy. rewrite bool_decide_eq_false_2 by lia.
  cbv iota beta delta [modify mret M_ret]. rewrite M_bind_eq. unfold catch.
  assert (∀ w2, ends_as (tr_message r) w2 →
            ends_as (tr_message r) (mark_execution_slot_idle (Some (wr_task_id run)) w2).2) as Hidle.
  { intros w2 H. simpl. by case_match. }
  pose proof (quiet_execute (tr_message r) (set_slot_id (wr_task_id run) w1) Hq Hclean He) as Hx.
  destruct (wr_result run) as [pr|msg] eqn:Eres; destruct Hx as (w2 & -> & H2); [by apply Hidle|].
  unfold on_crash, catch. rewrite M_bind_eq. destruct (quiet_reason _ w2 Hq H2) as (w3 & -> & H3).
  rewrite M_bind_eq. unfold mark_error.
  destruct (quiet_mark ERROR (Some msg) (tr_message r) w3 Hq H3) as (w4 & r4 & Em & Hr4); [set_solver|].
  cbn [exn_message]. rewrite Em. apply Hidle. exists r4. unfold expected_end. by rewrite Eres.
Qed.

End Properties.

(** ** Concrete runs *)

Module WorkerRuns.

(** An environment in which a user stops the task "a" right before the ninth step. *)
Definition stop_before (k n : nat) (db : TaskDB) : TaskDB :=
  if bool_decide (n = k) then (request_stop "a" (reason_value USER_STOP) false 0 db).2 else db.

Lemma stop_before_steps (coll : Collation) k n db :
  rtc (task_step FlowRun.all_fk) db (stop_before k n db).
Proof. unfold stop_before. case_bool_decide; [apply rtc_once, ts_stop|done]. Qed.

Definition stopping_env (k : nat) : Env := {|
  env_coll := C_collation;
  env_fk := FlowRun.all_fk;
  env_clock := λ n, (1000000 * Z.of_nat n)%Z;
  env_isonow := λ n, pretty n;
  env_fresh := λ _ db, infinite_fresh (ob_id <$> outbox db);
  env_fault := λ _, None;
  env_others := stop_before k;
  env_integrity_message := "duplicate key";
  env_others_ok := stop_before_steps C_collation k;
  env_fresh_new := λ _ db, infinite_is_fresh (ob_id <$> outbox db);
|}.

Definition good_run : WorkerRun :=
  mkWorkerRun "a" "w1" "u" "p" FULL None None (Ok (mkProcessResult true None)) true None None.

Lemma stop_exclusive k : worker_exclusive (env := stopping_env k) good_run.
Proof.
  intros n db id r r' Hr Hs _. cbn [env_others stopping_env]. unfold stop_before.
  case_bool_decide; [|intros; congruence]. unfold request_stop.
  destruct (tasks db !! "a") as [t|]; [|intros; simpl in *; congruence].
  case_bool_decide; [intros; simpl in *; congruence|].
  case_bool_decide; simpl; (intros [[_ <-]|[_ E]]%lookup_insert_Some; [by destruct t|congruence]).
Qed.

Lemma claimed_task_is_never_left_active_witness :
  ∃ r, tasks (w_db (handle_task_payload (env := stopping_env 5) good_run FlowRun.two_queued).2) !! "a" = Some r ∧
    (terminal (tr_status r) = true ∨ tr_status r = CANCEL_REQUESTED).
Proof.
  refine (claimed_task_is_never_left_active (env := stopping_env 5) good_run FlowRun.two_queued _ _ _ _).
  - done.
  - apply stop_exclusive.
  - apply FlowRun.two_queued_inv.
  - vm_compute; reflexivity.
Defined.

Lemma worker_records_the_outcome_witness :
  ∃ r, tasks (w_db (handle_task_payload (env := FlowRun.quiet_env) good_run FlowRun.two_queued).2) !! "a" = Some r ∧
    tr_status r = SUCCESS.
Proof.
  destruct (tasks (w_db FlowRun.two_queued) !! "a") as [r|] eqn:E; [|vm_compute in E; discriminate E].
  destruct (worker_records_the_outcome (env := FlowRun.quiet_env) good_run FlowRun.two_queued r) as (r' & Hr' & Hs' & _).
  - done.
  - split_and!; try reflexivity. vm_compute. lia.
  - apply FlowRun.two_queued_inv.
  - exact E.
  - vm_compute in E. by injection E as <-.
  - exists r'. split; [exact Hr'|exact Hs'].
Defined.

End WorkerRuns.
