(* ===== verification/PipelineTypes.v ===== *)
(** * Pipeline: input values, nodes and the registry

    Models the data a pipeline is made of: runtime input values
    ([src/node_dsl/core/input_values/types.py] and [helpers.py]), [NodeData]
    ([src/schemas/internal/node_data.py]) and [Pipeline] ([src/pipeline/types.py]).

    An input value is either an expression, a constant, a link to an output of another node, or
    a list of links. The values that flow through the links are Python objects: [PyValue] tells
    apart what the pipeline code looks at (None, booleans, strings, lists, dictionaries,
    unresolved values, and any other object with its attributes). *)
From S2P Require Import Prelude.

(** ** Python values *)

Inductive PyKey :=
  | KStr (s : string)
  | KOther (tag : string).

#[global] Instance PyKey_eq_dec : EqDecision PyKey.
Proof. solve_decision. Defined.

Inductive PyValue :=
  | VNone
  | VBool (b : bool)
  | VStr (s : string)
  | VList (l : list PyValue)
  | VDict (items : list (PyKey * PyValue))
  | VUnresolved (reason : string)
  | VObj (attrs : list (string * PyValue)) (tag : string).

(** [d.get(key)] and [d.items()] of a Python dictionary with arbitrary keys. *)
Definition vdict_get (items : list (PyKey * PyValue)) (key : string) : option PyValue :=
  snd <$> (list_find (λ kv, kv.1 = KStr key) items ≫= λ r, Some r.2).

(** Exceptions, by the classes the pipeline code tells apart. *)
Inductive py_exn :=
  | NodeInputError (msg : string)
  | NodeValidationError (msg : string)
  | NodeExecutionCancelled (msg : string)
  | ValueError (msg : string)
  | TypeError (msg : string)
  | OtherException (msg : string).

(** [str(e)] *)
Definition exn_str (e : py_exn) : string :=
  match e with
  | NodeInputError m | NodeValidationError m | NodeExecutionCancelled m
  | ValueError m | TypeError m | OtherException m => m
  end.

(** ** Input values *)

Record NodeInputLinkValue := mkLink {
  lv_node_id : string;
  lv_output_name : string;
}.

#[global] Instance NodeInputLinkValue_eq_dec : EqDecision NodeInputLinkValue.
Proof. solve_decision. Defined.

Inductive NodeRuntimeInputValue :=
  | NodeInputExpressionValue (value expression_kind : string)
  | NodeInputConstantValue (value : PyValue)
  | NodeInputLink (link : NodeInputLinkValue)
  | NodeInputLinks (links : list NodeInputLinkValue).

(** [iter_node_input_link_values] *)
Definition iter_node_input_link_values (value : NodeRuntimeInputValue) : list NodeInputLinkValue :=
  match value with
  | NodeInputLink link => [link]
  | NodeInputLinks links => links
  | NodeInputExpressionValue _ _ => []
  | NodeInputConstantValue _ => []
  end.

Record NodeData := mkNodeData {
  nd_name : string;
  nd_store_enabled : bool;
  nd_inputs : pydict NodeRuntimeInputValue;
}.

Abbreviation Pipeline := (pydict NodeData).

(** The node ids an input list links to, in the order the loops of the source visit them. *)
Definition sources (node_data : NodeData) : list string :=
  dvals (nd_inputs node_data) ≫= λ v, lv_node_id <$> iter_node_input_link_values v.

(** [PipelineProcessor._gather_parent_ids], as the list of the set's elements. *)
Definition gather_parent_ids (node_data : NodeData) : list string :=
  remove_dups (sources node_data).

(** The order in which Python iterates over a set of strings: some order of its elements. *)
Class SetOrder := {
  set_iter : list string → list string;
  set_iter_perm l : set_iter l ≡ₚ l;
}.

(** Insertion order, used by the concrete runs. *)
Definition insertion_order : SetOrder := {| set_iter := λ l, l; set_iter_perm := λ l, reflexivity l |}.

(** ** Dependency relation *)

(** [depends p s t]: node [t] of the pipeline takes an input from node [s] of the pipeline. *)
Definition depends (p : Pipeline) (s t : string) : Prop :=
  s ∈ dkeys p ∧ ∃ nd, dget p t = Some nd ∧ s ∈ sources nd.

Lemma depends_keys p s t : depends p s t → s ∈ dkeys p ∧ t ∈ dkeys p.
Proof. intros (Hs & nd & Ht & _). split; [done|]. apply dget_is_Some. eauto. Qed.

(** The distinct nodes of the pipeline that [t] takes its inputs from. *)
Definition parents (p : Pipeline) (t : string) : list string :=
  match dget p t with
  | Some nd => remove_dups (filter (λ s, s ∈ dkeys p) (sources nd))
  | None => []
  end.

Lemma elem_of_parents p s t : s ∈ parents p t ↔ depends p s t.
Proof.
  unfold parents, depends. destruct (dget p t) as [nd|].
  - rewrite elem_of_remove_dups, list_elem_of_filter. naive_solver.
  - split; [by intros ?%not_elem_of_nil|]. naive_solver.
Qed.

Lemma NoDup_parents p t : NoDup (parents p t).
Proof. unfold parents. destruct (dget p t); [apply NoDup_remove_dups|constructor]. Qed.

(** A pipeline is acyclic when no node depends on itself through any number of links. *)
Definition acyclic (p : Pipeline) : Prop := ∀ x, ¬ tc (depends p) x x.
