(* ===== verification/Graph.v ===== *)
(** * Pipeline: graph algorithms

    Models [src/pipeline/graph_utils.py]: [topological_sort] (Kahn's algorithm over the graph
    the links span), [find_all_dependencies] and [find_all_dependents] (breadth-first search).

    A Python set is the list of its elements in insertion order, iterated in the order of the
    [SetOrder] parameter. The [while] loops carry fuel; the fuel each function starts its loop
    with is proved to be enough, so the out-of-fuel outcome [Diverges] never occurs. *)
From S2P Require Import Prelude PipelineTypes.

Inductive graph_error :=
  | NodeNotFoundError (node_id : string)
  | DependencyCycleError (remaining_nodes : list string)
  | Diverges.

Section GraphUtils.
Context {so : SetOrder}.

(** ** [topological_sort] *)

Record graph_state := mkGraph {
  gs_graph : pydict (list string);
  gs_in_degree : pydict Z;
}.

(** The body of the innermost loop: one link value of node [node_id]. *)
Definition add_link (pipeline : Pipeline) (node_id : string) (st : graph_state) (source : string)
    : graph_state :=
  if dmem pipeline source then
    let succ := dget_default (gs_graph st) source [] in
    if bool_decide (node_id ∈ succ) then st
    else mkGraph (dset (gs_graph st) source (succ ++ [node_id]))
           (dset (gs_in_degree st) node_id (dget_default (gs_in_degree st) node_id 0 + 1)%Z)
  else st.

Definition build_graph (pipeline : Pipeline) : graph_state :=
  let empty := mkGraph ((λ kv, (kv.1, [])) <$> pipeline) ((λ kv, (kv.1, 0%Z)) <$> pipeline) in
  foldl (λ st node,
    foldl (λ st input_data,
      foldl (λ st lv, add_link pipeline node.1 st (lv_node_id lv)) st
        (iter_node_input_link_values input_data))
      st (dvals (nd_inputs node.2)))
    empty pipeline.

(** The [for neighbor_id in graph.get(node_id, set())] loop. *)
Definition relax (neighbors : list string) (in_degree : pydict Z) (queue : list string)
    : pydict Z * list string :=
  foldl (λ acc neighbor,
    let degree := (dget_default acc.1 neighbor 0 - 1)%Z in
    let in_degree' := dset acc.1 neighbor degree in
    if (degree =? 0)%Z then (in_degree', acc.2 ++ [neighbor]) else (in_degree', acc.2))
    (in_degree, queue) neighbors.

(** The [while queue] loop. *)
Fixpoint kahn (fuel : nat) (graph : pydict (list string)) (queue : list string)
    (in_degree : pydict Z) (full_order : list string) : option (list string) :=
  match queue with
  | [] => Some full_order
  | node_id :: queue' =>
      match fuel with
      | O => None
      | S fuel' =>
          let '(in_degree', queue'') :=
            relax (set_iter (dget_default graph node_id [])) in_degree queue' in
          kahn fuel' graph queue'' in_degree' (full_order ++ [node_id])
      end
  end.

(** ** Breadth-first search *)

(** The loop of [find_all_dependencies] and [find_all_dependents]: [succ] gives the nodes a
    visited node pushes, [known] the nodes of the pipeline. *)
Fixpoint bfs (known : string → bool) (succ : string → list string) (fuel : nat)
    (queue visited : list string) : option (list string) :=
  match queue with
  | [] => Some visited
  | node_id :: queue' =>
      match fuel with
      | O => None
      | S fuel' =>
          if bool_decide (node_id ∈ visited) || negb (known node_id)
          then bfs known succ fuel' queue' visited
          else
            let visited' := visited ++ [node_id] in
            bfs known succ fuel' (queue' ++ filter (λ n, n ∉ visited') (succ node_id)) visited'
      end
  end.

(** What a search may push in all: the targets and the successors of every node. *)
Definition bfs_fuel (nodes : list string) (succ : string → list string) (queue : list string) : nat :=
  length queue + sum_list ((λ n, length (succ n)) <$> nodes).

Definition node_sources (pipeline : Pipeline) (node_id : string) : list string :=
  match dget pipeline node_id with Some nd => sources nd | None => [] end.

Definition find_all_dependencies (pipeline : Pipeline) (target_nodes : list string)
    : option (list string) :=
  bfs (dmem pipeline) (node_sources pipeline)
    (bfs_fuel (dkeys pipeline) (node_sources pipeline) target_nodes) target_nodes [].

(** The [dependents_graph] of [find_all_dependents]. *)
Definition add_dependent (pipeline : Pipeline) (node_id : string) (g : pydict (list string))
    (source : string) : pydict (list string) :=
  if dmem pipeline source then
    let succ := dget_default g source [] in
    if bool_decide (node_id ∈ succ) then g else dset g source (succ ++ [node_id])
  else g.

Definition dependents_graph (pipeline : Pipeline) : pydict (list string) :=
  foldl (λ g node,
    foldl (λ g input_data,
      foldl (λ g lv, add_dependent pipeline node.1 g (lv_node_id lv)) g
        (iter_node_input_link_values input_data))
      g (dvals (nd_inputs node.2)))
    ((λ kv, (kv.1, [])) <$> pipeline) pipeline.

Definition find_all_dependents (pipeline : Pipeline) (source_nodes : list string)
    : option (list string) :=
  let succ n := set_iter (dget_default (dependents_graph pipeline) n []) in
  bfs (dmem pipeline) succ (bfs_fuel (dkeys pipeline) succ source_nodes) source_nodes [].

(** ** The sort *)

Definition topological_sort (pipeline : Pipeline) (target_nodes : option (list string))
    : outcome graph_error (list string) :=
  let targets := default [] target_nodes in
  let st := build_graph pipeline in
  match list_find (λ n, dmem pipeline n = false) targets with
  | Some (_, missing) => Raise (NodeNotFoundError missing)
  | None =>
      let queue := (filter (λ kv, kv.2 = 0%Z) (gs_in_degree st)).*1 in
      match kahn (length pipeline) (gs_graph st) queue (gs_in_degree st) [] with
      | None => Raise Diverges
      | Some full_order =>
          if negb (length full_order =? length pipeline)%nat then
            Raise (DependencyCycleError (filter (λ n, n ∉ full_order) (dkeys pipeline)))
          else
            match targets with
            | [] => Ok full_order
            | _ =>
                match find_all_dependencies pipeline targets with
                | None => Raise Diverges
                | Some nodes_to_process => Ok (filter (λ n, n ∈ nodes_to_process) full_order)
                end
            end
      end
  end.

End GraphUtils.

(** ** Counting *)

Lemma length_filter_ext {A} (P Q : A → Prop) `{HP1 : !∀ x, Decision (P x), HQ1 : !∀ x, Decision (Q x)}
    (l : list A) :
  (∀ x, x ∈ l → P x ↔ Q x) → length (filter P l) = length (filter Q l).
Proof. intros Hl. by rewrite (list_filter_ext_in P Q). Qed.

Lemma length_filter_none {A} (P : A → Prop) `{HP1 : !∀ x, Decision (P x)} (l : list A) :
  (∀ x, x ∈ l → ¬ P x) → length (filter P l) = 0.
Proof. intros Hn. by rewrite (list_filter_none P). Qed.

(** Two predicates that differ exactly at [x]. *)
Lemma length_filter_remove {A} (P Q : A → Prop) `{HP1 : !∀ x, Decision (P x), HQ1 : !∀ x, Decision (Q x)} (l : list A) x :
  NoDup l → x ∈ l → P x → ¬ Q x → (∀ y, y ∈ l → y ≠ x → P y ↔ Q y) →
  length (filter P l) = S (length (filter Q l)).
Proof.
  induction l as [|z l IH]; intros Hnd Hin HP HQ H; [by apply not_elem_of_nil in Hin|].
  apply NoDup_cons in Hnd as [Hz Hnd]. rewrite !filter_cons.
  apply elem_of_cons in Hin as [->|Hin].
  - rewrite decide_True, decide_False by done. simpl. f_equal. apply length_filter_ext.
    intros y Hy. apply H; [by right|]. intros ->. done.
  - assert (P z ↔ Q z) as Hz' by (apply H; [left|intros ->; done]).
    assert (length (filter P l) = S (length (filter Q l))) as E.
    { apply IH; [done..|]. intros y Hy. apply H. by right. }
    repeat case_decide; simpl; tauto || lia.
Qed.

(** ** The graph that is built *)

Section BuildGraph.
Context (p : Pipeline) (p_wf : dwf p).

Definition succs (g : pydict (list string)) (s : string) : list string := dget_default g s [].
Definition degree (d : pydict Z) (t : string) : Z := dget_default d t 0%Z.

(** Every successor set has no duplicates, and the in-degree of a node counts the sets it is in. *)
Record graph_ok (st : graph_state) : Prop := {
  go_keys : dkeys (gs_graph st) = dkeys p;
  go_dkeys : dkeys (gs_in_degree st) = dkeys p;
  go_nodup s : NoDup (succs (gs_graph st) s);
  go_degree t : t ∈ dkeys p →
    degree (gs_in_degree st) t = Z.of_nat (length (filter (λ s, t ∈ succs (gs_graph st) s) (dkeys p)));
}.

Lemma succs_dset g s l s' : succs (dset g s l) s' = if decide (s = s') then l else succs g s'.
Proof. unfold succs, dget_default. rewrite dget_dset. by case_decide. Qed.

Lemma degree_dset d t z t' : degree (dset d t z) t' = if decide (t = t') then z else degree d t'.
Proof. unfold degree, dget_default. rewrite dget_dset. by case_decide. Qed.

Lemma dkeys_dset_mem {A} (d : pydict A) k v : k ∈ dkeys d → dkeys (dset d k v) = dkeys d.
Proof. intros H. rewrite dkeys_dset. unfold dmem. by rewrite bool_decide_eq_true_2. Qed.

(** What one link adds. *)
Lemma add_link_succs t st x s u :
  u ∈ succs (gs_graph (add_link p t st x)) s ↔
  u ∈ succs (gs_graph st) s ∨ (u = t ∧ s = x ∧ x ∈ dkeys p).
Proof.
  unfold add_link, dmem. case_bool_decide as Hx.
  - fold (succs (gs_graph st) x). case_bool_decide as Ht.
    + naive_solver.
    + cbn [gs_graph]. rewrite succs_dset. case_decide; subst; [|naive_solver].
      rewrite elem_of_app, list_elem_of_singleton. naive_solver.
  - unfold dkeys in *. naive_solver.
Qed.

Lemma add_link_ok t st x : t ∈ dkeys p → graph_ok st → graph_ok (add_link p t st x).
Proof.
  intros Htp [Hk Hdk Hnd Hdeg]. unfold add_link, dmem. case_bool_decide as Hx; [|done].
  fold (succs (gs_graph st) x). case_bool_decide as Ht; [done|].
  fold (degree (gs_in_degree st) t). split; cbn [gs_graph gs_in_degree].
  - by rewrite dkeys_dset_mem by (rewrite Hk; done).
  - by rewrite dkeys_dset_mem by (rewrite Hdk; done).
  - intros s. rewrite succs_dset. case_decide; [|done]. apply NoDup_app.
    split_and!; [done|set_solver|apply NoDup_singleton].
  - intros u Hu. rewrite degree_dset. case_decide as E; [subst u|].
    + rewrite Hdeg by done.
      rewrite (length_filter_remove (λ s, t ∈ succs (dset (gs_graph st) x (succs (gs_graph st) x ++ [t])) s)
        (λ s, t ∈ succs (gs_graph st) s) (dkeys p) x); [lia|done|done| |done|].
      * rewrite succs_dset, decide_True by done. set_solver.
      * intros y _ Hne. rewrite succs_dset, decide_False by done. done.
    + rewrite Hdeg by done. f_equal. apply length_filter_ext. intros s Hs. rewrite succs_dset.
      case_decide; [|done]. subst. set_solver.
Qed.

Lemma foldl_bind {A B C} (f : C → B → C) (g : A → list B) c (l : list A) :
  foldl (λ c x, foldl f c (g x)) c l = foldl f c (l ≫= g).
Proof. revert c; induction l as [|x l IH]; intros c; simpl; [done|]. by rewrite foldl_app, IH. Qed.

Lemma foldl_rel {A B C} (R : B → C → Prop) (f : B → A → B) (h : C → A → C) b c (l : list A) :
  (∀ b c x, R b c → R (f b x) (h c x)) → R b c → R (foldl f b l) (foldl h c l).
Proof. intros Hstep. revert b c; induction l as [|x l IH]; intros b c HR; simpl; auto. Qed.

Lemma foldl_fmap {A B C} (f : C → B → C) (g : A → B) c (l : list A) :
  foldl (λ c x, f c (g x)) c l = foldl f c (g <$> l).
Proof. revert c; induction l as [|x l IH]; intros c; simpl; [done|]. apply IH. Qed.

(** The nested loops visit the sources of every node. *)
Lemma foldl_links {C} (f : C → string → C) c nd :
  foldl (λ c v, foldl (λ c lv, f c (lv_node_id lv)) c (iter_node_input_link_values v)) c
    (dvals (nd_inputs nd)) = foldl f c (sources nd).
Proof.
  unfold sources. rewrite <-foldl_bind.
  induction (dvals (nd_inputs nd)) as [|v l IH] in c |- *; simpl; [done|].
  rewrite IH. f_equal. apply foldl_fmap.
Qed.

Lemma add_links_spec t st l :
  t ∈ dkeys p → graph_ok st →
  graph_ok (foldl (add_link p t) st l) ∧
  ∀ s u, u ∈ succs (gs_graph (foldl (add_link p t) st l)) s ↔
         u ∈ succs (gs_graph st) s ∨ (u = t ∧ s ∈ l ∧ s ∈ dkeys p).
Proof.
  intros Ht. revert st; induction l as [|x l IH]; intros st Hok; simpl.
  - split; [done|]. set_solver.
  - destruct (IH (add_link p t st x)) as [Hok' Hin]; [by apply add_link_ok|]. split; [done|].
    intros s u. rewrite Hin, add_link_succs. set_solver.
Qed.

Lemma build_nodes_spec nodes st :
  (∀ n, n ∈ nodes → n.1 ∈ dkeys p) → graph_ok st →
  let st' := foldl (λ st n, foldl (add_link p n.1) st (sources n.2)) st nodes in
  graph_ok st' ∧
  ∀ s u, u ∈ succs (gs_graph st') s ↔
    u ∈ succs (gs_graph st) s ∨ (s ∈ dkeys p ∧ ∃ nd, (u, nd) ∈ nodes ∧ s ∈ sources nd).
Proof.
  revert st; induction nodes as [|[t nd] nodes IH]; intros st Hn Hok; simpl.
  - split; [done|]. set_solver.
  - destruct (add_links_spec t st (sources nd)) as [Hok1 Hin1]; [apply (Hn (t, nd)); left|done|].
    destruct (IH (foldl (add_link p t) st (sources nd))) as [Hok' Hin]; [set_solver|done|].
    split; [done|]. intros s u. rewrite Hin, Hin1. set_solver.
Qed.

Lemma build_graph_flat :
  build_graph p = foldl (λ st n, foldl (add_link p n.1) st (sources n.2))
    (mkGraph ((λ kv, (kv.1, [])) <$> p) ((λ kv, (kv.1, 0%Z)) <$> p)) p.
Proof.
  unfold build_graph. generalize (mkGraph ((λ kv : string * NodeData, (kv.1, [])) <$> p)
    ((λ kv, (kv.1, 0%Z)) <$> p)). generalize p at 2 4 as l.
  induction l as [|n l IH]; intros st; simpl; [done|]. by rewrite foldl_links, IH.
Qed.

Lemma dget_const {A B} (v : B) (d : pydict A) k : dget ((λ kv, (kv.1, v)) <$> d) k = (λ _, v) <$> dget d k.
Proof. induction d as [|[k' x] d IH]; simpl; [done|]. by case_decide. Qed.

Lemma build_graph_spec :
  graph_ok (build_graph p) ∧
  ∀ s t, t ∈ succs (gs_graph (build_graph p)) s ↔ depends p s t.
Proof.
  rewrite build_graph_flat.
  destruct (build_nodes_spec p (mkGraph ((λ kv, (kv.1, [])) <$> p) ((λ kv, (kv.1, 0%Z)) <$> p))) as [Hok Hin].
  - intros n Hn. by apply list_elem_of_fmap_2.
  - assert (∀ s, succs ((λ kv : string * NodeData, (kv.1, [])) <$> p) s = []) as Hempty.
    { intros s. unfold succs, dget_default. rewrite dget_const. by destruct (dget p s). }
    split; cbn [gs_graph gs_in_degree].
    + unfold dkeys. by rewrite <-list_fmap_compose.
    + unfold dkeys. by rewrite <-list_fmap_compose.
    + intros s. rewrite Hempty. constructor.
    + intros t _. unfold degree, dget_default. rewrite dget_const.
      rewrite length_filter_none by (intros s _; rewrite Hempty; apply not_elem_of_nil).
      by destruct (dget p t).
  - split; [done|]. intros s t. rewrite Hin. cbn [gs_graph]. unfold succs at 1, dget_default. rewrite dget_const.
    unfold depends. split.
    + intros [H|(Hs & nd & Hnd & Hin')]; [by destruct (dget p s); apply not_elem_of_nil in H|].
      split; [done|]. exists nd. split; [|done]. by apply elem_of_dget.
    + intros (Hs & nd & Hnd & Hin'). right. split; [done|]. exists nd. split; [|done]. by apply dget_elem_of.
Qed.

End BuildGraph.

(** ** Kahn's algorithm *)

Section Kahn.
Context {so : SetOrder} (p : Pipeline) (p_wf : dwf p).

Let g : pydict (list string) := gs_graph (build_graph p).

(** How many sources of [t] are not in the order yet. *)
Definition waiting (done : list string) (t : string) : nat :=
  length (filter (λ s, t ∈ succs g s ∧ s ∉ done) (dkeys p)).

Record kahn_inv (queue : list string) (deg : pydict Z) (done : list string) : Prop := {
  ki_nodup : NoDup (done ++ queue);
  ki_sub x : x ∈ done ++ queue → x ∈ dkeys p;
  ki_deg t : t ∈ dkeys p → degree deg t = Z.of_nat (waiting done t);
  ki_zero t : t ∈ dkeys p → t ∈ done ++ queue ↔ waiting done t = 0;
  ki_order i s t : done !! i = Some t → depends p s t → s ∈ take i done;
}.

Lemma waiting_zero done s t : waiting done t = 0 → depends p s t → s ∈ done.
Proof.
  intros Hw Hd. destruct (decide (s ∈ done)) as [|Hn]; [done|]. exfalso.
  apply length_zero_iff_nil in Hw. apply (not_elem_of_nil s). rewrite <-Hw.
  apply list_elem_of_filter. split; [|by apply (depends_keys p s t)]. split; [|done].
  by apply build_graph_spec.
Qed.

Lemma waiting_snoc done x t :
  x ∈ dkeys p → x ∉ done →
  waiting done t = (if decide (t ∈ succs g x) then 1 else 0) + waiting (done ++ [x]) t.
Proof.
  intros Hx Hn. unfold waiting. case_decide as Ht.
  - apply (length_filter_remove _ _ _ x); [done|done|done|set_solver|]. intros y _ Hne. set_solver.
  - apply length_filter_ext. intros s _. split; [|set_solver]. intros [Hs Hd]. split; [done|].
    intros [?|Hsx]%elem_of_app; [done|]. apply list_elem_of_singleton in Hsx as ->. done.
Qed.

Lemma relax_spec l deg queue :
  NoDup l →
  (∀ t, degree (relax l deg queue).1 t = degree deg t - (if decide (t ∈ l) then 1 else 0))%Z ∧
  (relax l deg queue).2 = queue ++ filter (λ t, degree deg t = 1%Z) l.
Proof.
  unfold relax. revert deg queue; induction l as [|x l IH]; intros deg queue Hnd.
  { cbn [foldl fst snd]. split; [|by rewrite app_nil_r].
    intros t. rewrite decide_False by apply not_elem_of_nil. lia. }
  apply NoDup_cons in Hnd as [Hx Hnd]. cbn [foldl fst snd]. fold (degree deg x).
  set (deg' := dset deg x (degree deg x - 1)%Z).
  assert (∀ t, degree deg' t = if decide (x = t) then (degree deg x - 1)%Z else degree deg t) as Hdeg'.
  { intros t. apply degree_dset. }
  assert (filter (λ t, degree deg' t = 1%Z) l = filter (λ t, degree deg t = 1%Z) l) as Hf.
  { apply list_filter_ext_in. intros t Ht. rewrite Hdeg', decide_False; [done|].
    intros ->. done. }
  assert (∀ t, degree deg' t - (if decide (t ∈ l) then 1 else 0)
               = degree deg t - (if decide (t ∈ x :: l) then 1 else 0))%Z as Hsub.
  { intros t. rewrite Hdeg'. destruct (decide (x = t)) as [<-|Hne].
    - rewrite (decide_False (P := x ∈ l)), (decide_True (P := x ∈ x :: l)) by (done || left). lia.
    - destruct (decide (t ∈ l)); [rewrite decide_True by (by right)|rewrite decide_False by set_solver]; lia. }
  rewrite filter_cons. destruct (Z.eqb_spec (degree deg x - 1) 0) as [E|E].
  - destruct (IH deg' (queue ++ [x]) Hnd) as [H1 H2]. rewrite H2, Hf, decide_True by lia.
    split; [intros t; by rewrite H1|by rewrite <-app_assoc].
  - destruct (IH deg' queue Hnd) as [H1 H2]. rewrite H2, Hf, decide_False by lia.
    split; [intros t; by rewrite H1|done].
Qed.

Lemma kahn_step x queue deg done :
  kahn_inv (x :: queue) deg done →
  let r := relax (set_iter (dget_default g x [])) deg queue in
  kahn_inv r.2 r.1 (done ++ [x]).
Proof.
  intros [Hnd Hsub Hdeg Hzero Hord]. fold (succs g x).
  assert (x ∈ dkeys p) as Hx by (apply Hsub; set_solver).
  assert (x ∉ done) as Hxd by (apply NoDup_app in Hnd as (_ & Hn & _); intros ?; eapply Hn; [done|left]).
  assert (NoDup (set_iter (succs g x))) as Hnl.
  { rewrite set_iter_perm. apply (go_nodup p), build_graph_spec, p_wf. }
  destruct (relax_spec (set_iter (succs g x)) deg queue Hnl) as [Hd Hq]. cbv zeta. rewrite Hq. clear Hq.
  assert (∀ t, t ∈ set_iter (succs g x) ↔ t ∈ succs g x) as Hsi by (intros; by rewrite set_iter_perm).
  assert (∀ t, t ∈ succs g x → t ∈ dkeys p) as Hkey.
  { intros t Ht. by apply (build_graph_spec p p_wf), depends_keys in Ht as [_ ?]. }
  set (new := filter (λ t, degree deg t = 1%Z) (set_iter (succs g x))).
  assert (∀ t, t ∈ new ↔ t ∈ succs g x ∧ waiting done t = 1) as Hnew.
  { intros t. unfold new. rewrite list_elem_of_filter, Hsi. split.
    - intros [H1 H2]. split; [done|]. rewrite Hdeg in H1 by by apply Hkey. lia.
    - intros [H1 H2]. split; [|done]. rewrite Hdeg by by apply Hkey. lia. }
  assert ((done ++ [x]) ++ queue ++ new = (done ++ x :: queue) ++ new) as Hassoc by (by rewrite <-!app_assoc).
  split; rewrite ?Hassoc.
  - apply NoDup_app. split_and!; [done| |by apply NoDup_filter].
    intros t Ht [_ H1]%Hnew. apply (Hzero t) in Ht; [lia|by apply Hsub].
  - intros t [Ht|[Ht _]%Hnew]%elem_of_app; [by apply Hsub|]. by apply Hkey.
  - intros t Ht. rewrite Hd, Hdeg by done. rewrite (waiting_snoc done x t) by done.
    destruct (decide (t ∈ succs g x)); [rewrite decide_True by by apply Hsi|rewrite decide_False by by rewrite Hsi]; lia.
  - intros t Ht. rewrite elem_of_app, Hzero, Hnew, (waiting_snoc done x t) by done.
    destruct (decide (t ∈ succs g x)) as [Ht'|Ht'].
    + split; [intros [?|[_ ?]]; lia|intros ?; right; split; [done|lia]].
    + split; [intros [?|[? _]]; [lia|done]|intros ?; left; lia].
  - intros i s t Hi Hst. apply lookup_app_Some in Hi as [Hi|[Hle Hi]].
    + rewrite take_app_le by (apply lookup_lt_Some in Hi; lia). by eapply Hord.
    + apply list_lookup_singleton_Some in Hi as [Hi <-]. replace i with (length done) by lia.
      rewrite take_app_length. eapply waiting_zero; [|done]. apply Hzero; [done|set_solver].
Qed.

Lemma kahn_terminates fuel queue deg done :
  kahn_inv queue deg done → length (dkeys p) ≤ fuel + length done →
  ∃ order deg', kahn fuel g queue deg done = Some order ∧ kahn_inv [] deg' order.
Proof.
  revert queue deg done; induction fuel as [|fuel IH]; intros queue deg done Hinv Hlen;
    (destruct queue as [|x queue]; [by exists done, deg|]).
  - exfalso. assert (length (done ++ x :: queue) ≤ length (dkeys p)).
    { apply submseteq_length, NoDup_submseteq; apply Hinv. }
    rewrite length_app in H. simpl in *. lia.
  - cbn [kahn]. pose proof (kahn_step _ _ _ _ Hinv) as Hstep. cbv zeta in Hstep.
    destruct (relax _ deg queue) as [deg' queue']. apply IH; [done|]. rewrite length_app. simpl. lia.
Qed.

Lemma kahn_start :
  kahn_inv (filter (λ kv, kv.2 = 0%Z) (gs_in_degree (build_graph p))).*1 (gs_in_degree (build_graph p)) [].
Proof.
  destruct (build_graph_spec p p_wf) as [[Hk Hdk Hnd Hdeg] Hin].
  assert (∀ t, waiting [] t = length (filter (λ s, t ∈ succs g s) (dkeys p))) as Hw.
  { intros t. apply length_filter_ext. intros s _. set_solver. }
  assert (∀ t, t ∈ (filter (λ kv, kv.2 = 0%Z) (gs_in_degree (build_graph p))).*1 ↔
            t ∈ dkeys p ∧ degree (gs_in_degree (build_graph p)) t = 0%Z) as Hq.
  { intros t. rewrite list_elem_of_fmap. split.
    - intros ([t' d] & -> & [E Hin']%list_elem_of_filter). simpl in *. subst d.
      assert (t' ∈ dkeys (gs_in_degree (build_graph p))) as Ht by (by apply (list_elem_of_fmap_2 fst) in Hin').
      split; [by rewrite <-Hdk|]. unfold degree, dget_default. erewrite elem_of_dget; [done| |done].
      unfold dwf. rewrite Hdk. exact p_wf.
    - intros [Ht E]. rewrite <-Hdk in Ht. apply dget_is_Some in Ht as [d Hd]. exists (t, d). split; [done|].
      apply list_elem_of_filter. split; [|by apply dget_elem_of]. unfold degree, dget_default in E.
      rewrite Hd in E. done. }
  split; simpl.
  - eapply sublist_NoDup; [|apply fmap_sublist, sublist_filter]. change (NoDup (dkeys (gs_in_degree (build_graph p)))).
    rewrite Hdk. exact p_wf.
  - intros x Hx. apply Hq in Hx as [Hx _]. exact Hx.
  - intros t Ht. rewrite Hw. by apply Hdeg.
  - intros t Ht. specialize (Hdeg t Ht). fold g in Hdeg. rewrite <-Hw in Hdeg. rewrite Hq. split; [intros [_ ?]; lia|split; [done|lia]].
  - intros i s t Hi. by rewrite lookup_nil in Hi.
Qed.

End Kahn.

(** ** Breadth-first search computes reachability *)

Section Bfs.
Context (known : string → bool) (succ : string → list string) (nodes : list string).
Context (known_nodes : ∀ x, known x = true → x ∈ nodes) (nodes_nodup : NoDup nodes).
Context (targets : list string).

Definition edge (a b : string) : Prop := b ∈ succ a ∧ known b = true.

Definition reachable (x : string) : Prop := ∃ t, t ∈ targets ∧ known t = true ∧ rtc edge t x.

(** What the nodes not visited yet may still push. *)
Definition pending (visited : list string) : nat :=
  sum_list ((λ n, length (succ n)) <$> filter (λ n, n ∉ visited) nodes).

Record bfs_inv (queue visited : list string) : Prop := {
  bi_nodup : NoDup visited;
  bi_sound x : x ∈ visited → reachable x;
  bi_queue x : x ∈ queue → known x = true → reachable x;
  bi_closed a b : a ∈ visited → edge a b → b ∈ visited ∨ b ∈ queue;
  bi_targets t : t ∈ targets → known t = true → t ∈ visited ∨ t ∈ queue;
}.

Lemma pending_visit visited x :
  x ∈ nodes → x ∉ visited → pending visited = length (succ x) + pending (visited ++ [x]).
Proof.
  unfold pending. clear known_nodes. induction nodes as [|y l IH]; intros Hin Hx; [by apply not_elem_of_nil in Hin|].
  apply NoDup_cons in nodes_nodup as [Hy Hnd]. rewrite !filter_cons.
  apply elem_of_cons in Hin as [<-|Hin].
  - rewrite decide_True, decide_False by set_solver. simpl. f_equal.
    rewrite (list_filter_ext_in (λ n, n ∉ visited ++ [x]) (λ n, n ∉ visited)); [done|].
    intros z Hz. assert (z ≠ x) by (intros ->; done). set_solver.
  - assert (y ≠ x) by (intros ->; done). specialize (IH Hnd Hin Hx).
    destruct (decide (y ∉ visited)); [rewrite decide_True by set_solver|rewrite decide_False by set_solver];
      rewrite ?fmap_cons; cbn [sum_list sum_list_with foldr]; lia.
Qed.

Lemma bfs_skip x queue visited :
  x ∈ visited ∨ known x = false → bfs_inv (x :: queue) visited → bfs_inv queue visited.
Proof.
  intros Hx [Hnd Hs Hq Hc Ht]. split; [done|done|intros; apply Hq; [by right|done]| |].
  - intros a b Ha Hab. destruct (Hc a b Ha Hab) as [|[->|]%elem_of_cons]; [by left| |by right].
    destruct Hx as [|Hx]; [by left|]. destruct Hab as [_ Hb]. congruence.
  - intros t Hin Hk. destruct (Ht t Hin Hk) as [|[->|]%elem_of_cons]; [by left| |by right].
    destruct Hx as [|Hx]; [by left|congruence].
Qed.

Lemma bfs_visit x queue visited :
  x ∉ visited → known x = true → bfs_inv (x :: queue) visited →
  bfs_inv (queue ++ filter (λ n, n ∉ visited ++ [x]) (succ x)) (visited ++ [x]).
Proof.
  intros Hx Hk [Hnd Hs Hq Hc Ht].
  assert (reachable x) as Hrx by (apply Hq; [left|done]). split.
  - apply NoDup_app. split_and!; [done|set_solver|apply NoDup_singleton].
  - intros y [?|Hy]%elem_of_app; [by apply Hs|]. by apply list_elem_of_singleton in Hy as ->.
  - intros y [?|[_ Hy]%list_elem_of_filter]%elem_of_app Hky; [apply Hq; [by right|done]|].
    destruct Hrx as (t & Htt & Hkt & Hr). exists t. split_and!; [done..|]. by apply rtc_r with x.
  - intros a b [Ha|Ha]%elem_of_app Hab.
    + destruct (Hc a b Ha Hab) as [|[->|]%elem_of_cons]; set_solver.
    + apply list_elem_of_singleton in Ha as ->. destruct (decide (b ∈ visited ++ [x])); [by left|].
      right. apply elem_of_app. right. apply list_elem_of_filter. by destruct Hab.
  - intros t Hin Hkt. destruct (Ht t Hin Hkt) as [|[->|]%elem_of_cons]; set_solver.
Qed.

Lemma bfs_inv_final visited x : bfs_inv [] visited → x ∈ visited ↔ reachable x.
Proof.
  intros [Hnd Hs _ Hc Ht]. split; [apply Hs|]. intros (t & Hin & Hk & Hr).
  assert (t ∈ visited) as Hv by (destruct (Ht t Hin Hk) as [|?%not_elem_of_nil]; done).
  clear Hin Hk. induction Hr as [|a b c Hab _ IH]; [done|]. apply IH.
  by destruct (Hc a b Hv Hab) as [|?%not_elem_of_nil].
Qed.

Lemma bfs_terminates fuel queue visited :
  bfs_inv queue visited → length queue + pending visited ≤ fuel →
  ∃ V, bfs known succ fuel queue visited = Some V ∧ bfs_inv [] V.
Proof.
  revert queue visited; induction fuel as [|fuel IH]; intros [|x queue] visited Hinv Hf;
    [by exists visited| |by exists visited|]; cbn [bfs length] in *; [lia|].
  destruct (known x) eqn:Hk; [destruct (decide (x ∈ visited)) as [Hv|Hv]|];
    [rewrite (bool_decide_eq_true_2 _ Hv)|rewrite (bool_decide_eq_false_2 _ Hv)|rewrite orb_true_r]; cbn [orb negb].
  - apply IH; [|lia]. apply (bfs_skip x); auto.
  - apply IH; [by apply bfs_visit|]. rewrite length_app.
    pose proof (length_filter (λ n, n ∉ visited ++ [x]) (succ x)).
    rewrite (pending_visit visited x) in Hf by auto. lia.
  - apply IH; [|lia]. apply (bfs_skip x); auto.
Qed.

Lemma bfs_spec :
  ∃ V, bfs known succ (bfs_fuel nodes succ targets) targets [] = Some V ∧ NoDup V ∧
       ∀ x, x ∈ V ↔ reachable x.
Proof.
  destruct (bfs_terminates (bfs_fuel nodes succ targets) targets []) as (V & HV & Hinv).
  - split; [constructor|by intros x ?%not_elem_of_nil| |by intros a b ?%not_elem_of_nil|by right].
    intros x Hx Hk. exists x. by split_and!.
  - unfold bfs_fuel, pending. rewrite list_filter_all; [done|]. intros x _. apply not_elem_of_nil.
  - exists V. split_and!; [done|apply Hinv|]. intros x. by apply bfs_inv_final.
Qed.

End Bfs.

(** ** Cycles *)

(** In a finite set in which everything has a predecessor, some element reaches itself. *)
Lemma predecessors_cycle (R : string → string → Prop) (S : list string) x :
  x ∈ S → (∀ t, t ∈ S → ∃ s, s ∈ S ∧ R s t) → (∀ y, ¬ tc R y y) → False.
Proof.
  intros Hx Hpred Hac.
  assert (∀ n, ∃ y l, length l = n ∧ NoDup (y :: l) ∧ (∀ z, z ∈ y :: l → z ∈ S) ∧
            ∀ z, z ∈ y :: l → z = y ∨ tc R y z) as Hchain.
  { induction n as [|n (y & l & Hl & Hnd & Hsub & Htc)].
    - exists x, []. split_and!; [done|apply NoDup_singleton| |]; intros z ->%list_elem_of_singleton; auto.
    - destruct (Hpred y) as (s & Hs & Hsy); [apply Hsub; left|].
      assert (∀ z, z ∈ y :: l → tc R s z) as Hsz.
      { intros z Hz. destruct (Htc z Hz) as [->|?]; [by apply tc_once|by apply tc_l with y]. }
      exists s, (y :: l). split_and!; [simpl; lia| | |].
      + apply NoDup_cons. split; [|done]. intros Hin. by apply (Hac s), Hsz.
      + intros z [->|Hz]%elem_of_cons; auto.
      + intros z [->|Hz]%elem_of_cons; auto. }
  destruct (Hchain (length S)) as (y & l & Hl & Hnd & Hsub & _).
  assert (length (y :: l) ≤ length S) by (by apply submseteq_length, NoDup_submseteq). simpl in *. lia.
Qed.

Lemma rtc_reverse {A} (R S : A → A → Prop) x y : (∀ a b, R a b → S b a) → rtc R x y → rtc S y x.
Proof. intros H. induction 1 as [|a b c Hab _ IH]; [done|]. apply rtc_r with b; auto. Qed.

(** [find_all_dependents] and [topological_sort] build the same successor sets. *)
Lemma dependents_graph_build p : dependents_graph p = gs_graph (build_graph p).
Proof.
  unfold dependents_graph, build_graph.
  apply (foldl_rel (λ g st, g = gs_graph st)); [|done]. intros g st [t nd] ->. cbn [fst snd].
  apply (foldl_rel (λ g st, g = gs_graph st)); [|done]. clear st. intros g st v ->.
  apply (foldl_rel (λ g st, g = gs_graph st)); [|done]. clear st. intros g st lv ->.
  unfold add_dependent, add_link. destruct (dmem p _); [|done]. by case_bool_decide.
Qed.

Section Sort.
Context {so : SetOrder} (p : Pipeline) (p_wf : dwf p).

(** The order [kahn] computes and the facts the sort relies on. *)
Lemma kahn_result :
  ∃ order,
    kahn (length p) (gs_graph (build_graph p)) (filter (λ kv, kv.2 = 0%Z) (gs_in_degree (build_graph p))).*1
      (gs_in_degree (build_graph p)) [] = Some order ∧
    NoDup order ∧ (∀ x, x ∈ order → x ∈ dkeys p) ∧
    (∀ i s t, order !! i = Some t → depends p s t → s ∈ take i order) ∧
    (∀ t, t ∈ dkeys p → t ∉ order → ∃ s, s ∈ dkeys p ∧ (s ∉ order) ∧ depends p s t).
Proof.
  destruct (kahn_terminates p p_wf (length p) _ _ [] (kahn_start p p_wf)) as (order & deg & Hk & Hinv).
  { unfold dkeys. rewrite length_fmap. simpl. lia. }
  exists order. split; [done|]. destruct Hinv as [Hnd Hsub Hdeg Hzero Hord].
  rewrite app_nil_r in *. split_and!; [done..|]. intros t Ht Hn.
  assert (waiting p order t ≠ 0) as Hw by (intros Hw; apply Hn, Hzero; done).
  unfold waiting in Hw. destruct (filter _ (dkeys p)) as [|s l] eqn:E; [done|].
  assert (s ∈ s :: l) as Hs by left. rewrite <-E in Hs. apply list_elem_of_filter in Hs as [[H1 H2] H3].
  exists s. split_and!; [done..|]. by apply (build_graph_spec p p_wf).
Qed.

(** No node on a cycle gets into an order. *)
Lemma ordered_not_cyclic (order : list string) x :
  NoDup order → (∀ i s t, order !! i = Some t → depends p s t → s ∈ take i order) →
  x ∈ order → ¬ tc (depends p) x x.
Proof.
  intros Hnd Hord Hk Hx.
  assert (∀ j s t, order !! j = Some t → depends p s t → ∃ i, i < j ∧ order !! i = Some s) as Hprev.
  { intros j s t Hj Hst. pose proof (Hord j s t Hj Hst) as Hin.
    apply list_elem_of_lookup in Hin as [i Hi]. apply lookup_take_Some in Hi as [Hi Hlt]. by exists i. }
  assert (∀ a b, tc (depends p) a b → ∀ j, order !! j = Some b → ∃ i, i < j ∧ order !! i = Some a) as Htc.
  { induction 1 as [a b Hab|a c b Hac _ IH]; intros j Hj; [by eapply Hprev|].
    destruct (IH j Hj) as (k & Hkj & Hkc). destruct (Hprev k a c Hkc Hac) as (i & Hik & Hi).
    exists i. split; [lia|done]. }
  apply list_elem_of_lookup in Hk as [j Hj]. destruct (Htc x x Hx j Hj) as (i & Hlt & Hi).
  pose proof (NoDup_lookup _ _ _ _ Hnd Hi Hj). lia.
Qed.

(** A node the loop leaves behind is evidence of a cycle. *)
Lemma stuck_not_acyclic (order : list string) x :
  (∀ t, t ∈ dkeys p → t ∉ order → ∃ s, s ∈ dkeys p ∧ (s ∉ order) ∧ depends p s t) →
  x ∈ dkeys p → x ∉ order → ¬ acyclic p.
Proof.
  intros Hstuck Hx Hn Hac.
  apply (predecessors_cycle (depends p) (filter (λ n, n ∉ order) (dkeys p)) x);
    [by apply list_elem_of_filter| |exact Hac].
  intros t [Ht1 Ht2]%list_elem_of_filter. destruct (Hstuck t Ht2 Ht1) as (s & Hs1 & Hs2 & Hs3).
  exists s. split; [by apply list_elem_of_filter|done].
Qed.

Lemma complete_iff_length (order : list string) :
  NoDup order → (∀ x, x ∈ order → x ∈ dkeys p) →
  length order = length p ↔ ∀ x, x ∈ dkeys p → x ∈ order.
Proof.
  intros Hnd Hsub. rewrite <-(length_fmap fst p). fold (dkeys p).
  assert (order ⊆+ dkeys p) as Hsm by (by apply NoDup_submseteq). split.
  - intros Hl x Hx. by rewrite (submseteq_length_Permutation _ _ Hsm) by lia.
  - intros Hall. apply Nat.le_antisymm; [by apply submseteq_length|].
    by apply submseteq_length, NoDup_submseteq.
Qed.

Lemma find_all_dependencies_spec targets :
  ∃ V, find_all_dependencies p targets = Some V ∧ NoDup V ∧
       ∀ x, x ∈ V ↔ ∃ t, t ∈ targets ∧ t ∈ dkeys p ∧ rtc (depends p) x t.
Proof.
  destruct (bfs_spec (dmem p) (node_sources p) (dkeys p)) with (targets := targets) as (V & HV & Hnd & Hin);
    [by intros x ?%bool_decide_eq_true|done|].
  exists V. split_and!; [done..|]. intros x. rewrite Hin. unfold reachable.
  assert (∀ a b, edge (dmem p) (node_sources p) a b ↔ depends p b a) as He.
  { intros a b. unfold edge, node_sources, depends, dmem. rewrite bool_decide_eq_true.
    destruct (dget p a) as [nd|]; [naive_solver|]. split; [intros [?%not_elem_of_nil _]; done|naive_solver]. }
  unfold dmem at 1. setoid_rewrite bool_decide_eq_true. f_equiv; intros t.
  split; intros (Ht & Hk & Hr); split_and!; try done.
  - apply (rtc_reverse _ _ _ _ (λ a b H, proj1 (He a b) H) Hr).
  - apply (rtc_reverse _ _ _ _ (λ a b H, proj2 (He b a) H) Hr).
Qed.

Lemma find_all_dependents_spec starts :
  ∃ V, find_all_dependents p starts = Some V ∧ NoDup V ∧
       ∀ x, x ∈ V ↔ ∃ s, s ∈ starts ∧ s ∈ dkeys p ∧ rtc (depends p) s x.
Proof.
  unfold find_all_dependents. cbv zeta. set (succ := λ n, set_iter _).
  destruct (bfs_spec (dmem p) succ (dkeys p)) with (targets := starts) as (V & HV & Hnd & Hin);
    [by intros x ?%bool_decide_eq_true|done|].
  exists V. split_and!; [done..|]. intros x. rewrite Hin. unfold reachable.
  assert (∀ a b, edge (dmem p) succ a b ↔ depends p a b) as He.
  { intros a b. unfold edge, succ, dmem. rewrite set_iter_perm, bool_decide_eq_true, dependents_graph_build.
    fold (succs (gs_graph (build_graph p)) a). rewrite (proj2 (build_graph_spec p p_wf)).
    split; [by intros [? _]|]. intros H. split; [done|]. apply depends_keys in H as [_ H]. exact H. }
  unfold dmem at 1. setoid_rewrite bool_decide_eq_true. f_equiv; intros t.
  split; intros (Ht & Hk & Hr); split_and!; try done;
    (eapply rtc_subrel; [|exact Hr]; intros a b Hab; by apply He).
Qed.

(** A filtered order keeps every node behind its dependencies, if it keeps those. *)
Lemma filter_keeps_order (P : string → Prop) `{!∀ x, Decision (P x)} order :
  (∀ i s t, order !! i = Some t → depends p s t → s ∈ take i order) →
  ∀ l1 t l2 s, filter P order = l1 ++ t :: l2 → depends p s t → P s → s ∈ l1.
Proof.
  intros Hord l1 t l2 s E Hst HPs.
  assert (∃ k1 k2, order = k1 ++ t :: k2 ∧ filter P k1 = l1) as (k1 & k2 & Eo & Ek).
  { clear Hord. revert l1 E; induction order as [|x order IH]; intros l1 E; [by destruct l1|].
    rewrite filter_cons in E. case_decide as Hx.
    - destruct l1 as [|y l1]; injection E as -> E; [by exists [], order|].
      destruct (IH l1 E) as (k1 & k2 & -> & <-). exists (y :: k1), k2.
      rewrite filter_cons, decide_True by done. done.
    - destruct (IH l1 E) as (k1 & k2 & -> & <-). exists (x :: k1), k2.
      rewrite filter_cons, decide_False by done. done. }
  subst l1. apply list_elem_of_filter. split; [done|].
  specialize (Hord (length k1) s t). rewrite Eo in Hord.
  rewrite take_app_length in Hord. apply Hord; [|done]. by rewrite list_lookup_middle.
Qed.

Lemma order_split (order : list string) :
  (∀ i s t, order !! i = Some t → depends p s t → s ∈ take i order) →
  ∀ l1 t l2 s, order = l1 ++ t :: l2 → depends p s t → s ∈ l1.
Proof.
  intros Hord l1 t l2 s -> Hst. specialize (Hord (length l1) s t).
  rewrite take_app_length in Hord. apply Hord; [|done]. by rewrite list_lookup_middle.
Qed.

Lemma targets_all_known targets :
  list_find (λ n, dmem p n = false) targets = None ↔ ∀ t, t ∈ targets → t ∈ dkeys p.
Proof.
  rewrite list_find_None, Forall_forall. unfold dmem. setoid_rewrite bool_decide_eq_false.
  split; intros H t Ht; [|naive_solver]. destruct (decide (t ∈ dkeys p)); [done|]. by destruct (H t Ht).
Qed.

(** What the sort promises of the order it returns. *)
Record sorted_order (targets order : list string) : Prop := {
  so_nodup : NoDup order;
  so_elements x : x ∈ order ↔ x ∈ dkeys p ∧ (targets = [] ∨ ∃ t, t ∈ targets ∧ rtc (depends p) x t);
  so_before l1 t l2 s : order = l1 ++ t :: l2 → depends p s t → s ∈ l1;
}.

(** The end of the sort, for the complete order [full_order] of all nodes. *)
Lemma restrict_order (full_order targets V : list string) :
  NoDup full_order → (∀ x, x ∈ full_order ↔ x ∈ dkeys p) →
  (∀ i s t, full_order !! i = Some t → depends p s t → s ∈ take i full_order) →
  (∀ t, t ∈ targets → t ∈ dkeys p) → targets ≠ [] →
  (∀ x, x ∈ V ↔ ∃ t, t ∈ targets ∧ t ∈ dkeys p ∧ rtc (depends p) x t) →
  sorted_order targets (filter (λ n, n ∈ V) full_order).
Proof.
  intros Hnd Hall Hord Hts Hne HV. split.
  - by apply NoDup_filter.
  - intros x. rewrite list_elem_of_filter, HV, Hall. split.
    + intros [(t & Ht & Htk & Hr) Hx]. split; [done|]. right. by exists t.
    + intros [Hx [?|(t & Ht & Hr)]]; [done|]. split; [|done]. exists t. split_and!; auto.
  - intros l1 t l2 s E Hst. eapply filter_keeps_order; [done..|]. apply HV.
    assert (t ∈ filter (λ n, n ∈ V) full_order) as Ht by (rewrite E; set_solver).
    apply list_elem_of_filter in Ht as [Ht _]. apply HV in Ht as (u & Hu & Huk & Hr).
    exists u. split_and!; [done..|]. by apply rtc_l with t.
Qed.

(** Every outcome of the sort. *)
Lemma topological_sort_result target_nodes :
  let targets := default [] target_nodes in
  match topological_sort p target_nodes with
  | Ok order => (∀ t, t ∈ targets → t ∈ dkeys p) ∧ acyclic p ∧ sorted_order targets order
  | Raise (NodeNotFoundError n) => n ∈ targets ∧ (n ∉ dkeys p)
  | Raise (DependencyCycleError remaining) =>
      (∀ t, t ∈ targets → t ∈ dkeys p) ∧ ¬ acyclic p ∧ remaining ≠ [] ∧
      ∀ x, tc (depends p) x x → x ∈ remaining
  | Raise Diverges => False
  end.
Proof.
  intros targets. unfold topological_sort. fold targets.
  destruct (list_find _ targets) as [[i n]|] eqn:El.
  { apply list_find_Some in El as (Hi & Hn & _). unfold dmem in Hn. apply bool_decide_eq_false in Hn.
    split; [by eapply list_elem_of_lookup_2|done]. }
  pose proof (proj1 (targets_all_known targets) El) as Hts. clear El.
  destruct kahn_result as (order & -> & Hnd & Hsub & Hord & Hstuck).
  destruct (Nat.eqb_spec (length order) (length p)) as [Hl|Hl]; cbn [negb].
  - pose proof (proj1 (complete_iff_length order Hnd Hsub) Hl) as Hall.
    assert (acyclic p) as Hac.
    { intros x Hx. apply (ordered_not_cyclic order x); [done..| |done].
      assert (∃ y, depends p x y) as [y Hy] by (inversion Hx; eauto). by apply Hall, (depends_keys p x y). }
    destruct targets as [|t0 ts].
    + split_and!; [done..|]. split; [done| |by apply order_split].
      intros x. split; [intros; split; [by apply Hsub|by left]|intros [? _]; by apply Hall].
    + destruct (find_all_dependencies_spec (t0 :: ts)) as (V & -> & _ & HV). split_and!; [done..|].
      apply restrict_order; [done| |done..]. intros x. split; auto.
  - assert (∃ x, x ∈ dkeys p ∧ x ∉ order) as (x & Hx & Hn).
    { destruct (filter (λ n, n ∉ order) (dkeys p)) as [|x l] eqn:E.
      - exfalso. apply Hl, complete_iff_length; [done..|]. intros x Hx.
        destruct (decide (x ∈ order)) as [|Hn]; [done|]. destruct (not_elem_of_nil x). rewrite <-E.
        by apply list_elem_of_filter.
      - exists x. apply and_comm, (proj1 (list_elem_of_filter (λ n, n ∉ order) _ _)). rewrite E. left. }
    split_and!; [done| | |].
    + by apply (stuck_not_acyclic order x).
    + intros E. apply (not_elem_of_nil x). rewrite <-E. by apply list_elem_of_filter.
    + intros y Hy. apply list_elem_of_filter. split; [intros Hin; by apply (ordered_not_cyclic order y)|].
      assert (∃ z, depends p y z) as [z Hz] by (inversion Hy; eauto). by apply (depends_keys p y z).
Qed.

(** C17: whatever the iteration order of Python's sets, [topological_sort] returns an order in
    which no node occurs twice and every node stands behind everything it takes an input from;
    without targets it holds the whole pipeline, with targets exactly the nodes some target
    (transitively) depends on. It returns such an order for every acyclic pipeline that has all
    the targets. *)
Theorem topological_sort_orders target_nodes :
  let targets := default [] target_nodes in
  acyclic p → (∀ t, t ∈ targets → t ∈ dkeys p) →
  ∃ order, topological_sort p target_nodes = Ok order ∧ NoDup order ∧
    (∀ x, x ∈ order ↔ x ∈ dkeys p ∧ (targets = [] ∨ ∃ t, t ∈ targets ∧ rtc (depends p) x t)) ∧
    (∀ l1 t l2 s, order = l1 ++ t :: l2 → depends p s t → s ∈ l1).
Proof.
  intros targets Hac Hts. pose proof (topological_sort_result target_nodes) as H. cbv zeta in H. fold targets in H.
  destruct (topological_sort p target_nodes) as [order|[n|r|]]; [| |by destruct H as (_ & ? & _)|done].
  - exists order. destruct H as (_ & _ & []). by split_and!.
  - destruct H as [Hin Hn]. by apply Hts in Hin.
Qed.

(** C33: how the sort fails. [NodeNotFoundError] names a target outside the pipeline and is
    raised exactly when there is one; otherwise [DependencyCycleError] is raised exactly when
    some node depends on itself, and the nodes it reports include every node on a cycle. The
    loops never run out of fuel. *)
Theorem topological_sort_errors target_nodes :
  let targets := default [] target_nodes in
  match topological_sort p target_nodes with
  | Raise (NodeNotFoundError n) => n ∈ targets ∧ (n ∉ dkeys p)
  | Raise (DependencyCycleError remaining) =>
      (∀ t, t ∈ targets → t ∈ dkeys p) ∧ ¬ acyclic p ∧ remaining ≠ [] ∧
      ∀ x, tc (depends p) x x → x ∈ remaining
  | Raise Diverges => False
  | Ok _ => (∀ t, t ∈ targets → t ∈ dkeys p) ∧ acyclic p
  end.
Proof.
  intros targets. pose proof (topological_sort_result target_nodes) as H. cbv zeta in H. fold targets in H.
  destruct (topological_sort p target_nodes) as [order|[n|r|]]; [|done..]. by destruct H as (? & ? & _).
Qed.

(** C25: [find_all_dependencies] and [find_all_dependents] terminate and are inverse to each
    other: a node [y] of the pipeline is among the dependents of [x] exactly when [x] is among
    the dependencies of [y], which holds exactly when a chain of links leads from [x] to [y]. *)
Theorem dependents_invert_dependencies x y :
  x ∈ dkeys p → y ∈ dkeys p →
  ∃ down up, find_all_dependents p [x] = Some down ∧ find_all_dependencies p [y] = Some up ∧
    (y ∈ down ↔ x ∈ up) ∧ (y ∈ down ↔ rtc (depends p) x y).
Proof.
  intros Hx Hy. destruct (find_all_dependents_spec [x]) as (down & -> & _ & Hd).
  destruct (find_all_dependencies_spec [y]) as (up & -> & _ & Hu).
  exists down, up. rewrite Hd, Hu. setoid_rewrite list_elem_of_singleton. naive_solver.
Qed.

End Sort.

(** ** Concrete pipelines *)

Module GraphRun.

#[local] Existing Instance insertion_order.

Definition link (n o : string) : NodeRuntimeInputValue := NodeInputLink (mkLink n o).

(** A diamond: [load] feeds [left] and [right], both feed [join]; [other] stands alone. *)
Definition diamond : Pipeline :=
  [("join", mkNodeData "Join" false
      [("inputs", NodeInputLinks [mkLink "left" "df"; mkLink "right" "df"; mkLink "left" "meta"])]);
   ("left", mkNodeData "Filter" false [("df", link "load" "df"); ("gone", link "missing" "df")]);
   ("right", mkNodeData "Filter" false [("df", link "load" "df"); ("n", NodeInputConstantValue (VStr "3"))]);
   ("load", mkNodeData "Load" true []);
   ("other", mkNodeData "Load" true [])].

(** Two nodes that feed each other and a third behind them. *)
Definition looped : Pipeline :=
  [("a", mkNodeData "N" false [("x", link "b" "o")]);
   ("b", mkNodeData "N" false [("x", link "a" "o")]);
   ("c", mkNodeData "N" false [("x", link "a" "o")])].

Lemma diamond_wf : dwf diamond.
Proof. by_decide. Qed.

Lemma looped_wf : dwf looped.
Proof. by_decide. Qed.

(** A rank that grows along every link excludes cycles. *)
Lemma ranked_acyclic p (rank : string → nat) :
  (∀ s t, depends p s t → rank s < rank t) → acyclic p.
Proof.
  intros Hr. assert (∀ x y, tc (depends p) x y → rank x < rank y) as H.
  { induction 1 as [x y Hxy|x y z Hxy _ IH]; [by apply Hr|]. specialize (Hr x y Hxy). lia. }
  intros x Hx. apply H in Hx. lia.
Qed.

Lemma ranked_by_computation p rank :
  forallb (λ kv, forallb (λ s, negb (dmem p s) || (rank s <? rank kv.1)) (sources kv.2)) p = true →
  ∀ s t, depends p s t → rank s < rank t.
Proof.
  intros Hb s t (Hs & nd & Ht & Hin). rewrite forallb_forall in Hb. apply dget_elem_of, list_elem_of_In, Hb in Ht.
  rewrite forallb_forall in Ht. apply list_elem_of_In, Ht in Hin. unfold dmem in Hin.
  rewrite bool_decide_eq_true_2 in Hin by done. by apply Nat.ltb_lt.
Qed.

Lemma diamond_acyclic : acyclic diamond.
Proof.
  apply (ranked_acyclic _ (λ n, if String.eqb n "load" then 0 else if String.eqb n "join" then 2 else 1)).
  apply ranked_by_computation. vm_compute. reflexivity.
Qed.

Lemma topological_sort_orders_witness :
  topological_sort diamond (Some ["right"]) = Ok ["load"; "right"] ∧
  ∃ order, topological_sort diamond None = Ok order ∧ NoDup order ∧
    (∀ x, x ∈ order ↔ x ∈ dkeys diamond ∧ ([] = @nil string ∨ ∃ t, t ∈ [] ∧ rtc (depends diamond) x t)) ∧
    (∀ l1 t l2 s, order = l1 ++ t :: l2 → depends diamond s t → s ∈ l1).
Proof.
  split; [vm_compute; reflexivity|].
  apply (topological_sort_orders diamond diamond_wf None diamond_acyclic). by intros t ?%not_elem_of_nil.
Defined.

Lemma topological_sort_errors_witness :
  topological_sort looped None = Raise (DependencyCycleError ["a"; "b"; "c"]) ∧ ¬ acyclic looped.
Proof.
  split; [vm_compute; reflexivity|]. pose proof (topological_sort_errors looped looped_wf None) as H.
  cbv zeta in H. replace (topological_sort looped None) with (Raise (A:=list string) (DependencyCycleError ["a"; "b"; "c"])) in H
    by (vm_compute; reflexivity). apply H.
Defined.

Lemma dependents_invert_dependencies_witness :
  find_all_dependents diamond ["right"] = Some ["right"; "join"] ∧
  ∃ down up, find_all_dependents diamond ["load"] = Some down ∧ find_all_dependencies diamond ["join"] = Some up ∧
    ("join" ∈ down ↔ "load" ∈ up) ∧ ("join" ∈ down ↔ rtc (depends diamond) "load" "join").
Proof.
  split; [vm_compute; reflexivity|].
  apply (dependents_invert_dependencies diamond diamond_wf); by_decide.
Defined.

End GraphRun.
