(* ===== verification/NodeKwargs.v ===== *)
(** * Pipeline: the inputs of a node

    Models the second half of [src/pipeline/graph_utils.py]: [_collect_linked_variables],
    [collect_variable_source_node_ids] and [build_node_kwargs], with [resolve_node_input_value]
    and [parse_node_input_value] ([src/node_dsl/core/input_values/helpers.py]) and
    [contains_exact_io] ([src/node_dsl/node_typing.py]).

    Evaluating an expression, coercing its result and rendering an SQL template are the
    [InputRuntime] parameters: they run the expression sandbox, the type system and the SQL
    template engine. *)
From S2P Require Import Prelude PipelineTypes.

(** A member of the [IO] enumeration, as its string. *)
Abbreviation IO := string (only parsing).
Definition IO_VARIABLE : IO := "VARIABLE".
Definition IO_SIGNAL : IO := "SIGNAL".
Definition IO_COLUMN : IO := "COLUMN".

(** A declared type is one member or a list of members. *)
Inductive IOType :=
  | OneIO (io : IO)
  | ListIO (ios : list IO).

Definition contains_exact_io (value : IOType) (expected : IO) : bool :=
  match value with
  | OneIO io => bool_decide (io = expected)
  | ListIO ios => existsb (λ io, bool_decide (io = expected)) ios
  end.

Record InputDefinition := mkInputDef {
  id_attr_name : string;
  id_type : IOType;
  id_is_list_type : bool;
  id_allow_multiple_connections : bool;
  id_allow_expressions : bool;
  id_expression_policy : option string;
}.

Record OutputDefinition := mkOutputDef {
  od_attr_name : string;
  od_type : IOType;
}.

Definition _is_variable_input (d : InputDefinition) : bool := contains_exact_io (id_type d) IO_VARIABLE.
Definition _is_signal_input (d : InputDefinition) : bool := contains_exact_io (id_type d) IO_SIGNAL.

(** What the pipeline reads of a registered node class and its definition. *)
Record NodeClass := mkNodeClass {
  nc_name : string;
  OUTPUT_NODE : bool;
  CAN_BE_OUTPUT_NODE : bool;
  CACHABLE : bool;
  REQUIRES_FRESH_EXECUTION : bool;
  AUTO_ACTIVATE_SIGNAL_OUTPUTS : bool;
  nc_is_df_output : bool;                   (* DFOutputBaseNode in cls.__mro__ *)
  nc_overrides_metadata_cache_key : bool;   (* "get_metadata_cache_key" in cls.__dict__ *)
  nc_metadata_variable_prepass : bool;      (* METADATA_VARIABLE_PREPASS_INPUTS is not empty *)
  nc_runtime_inputs : option (pydict NodeRuntimeInputValue → pydict NodeRuntimeInputValue);
  nc_sql_template : string → bool;          (* _input_field_instances[attr].sql_template *)
  input_definitions : pydict InputDefinition;
  output_definitions : pydict OutputDefinition;
}.

Abbreviation NodeOutputs := (pydict (pydict PyValue)).

(** The code behind expressions and SQL templates. *)
Class InputRuntime := {
  evaluate_input_expression : string → pydict PyValue → pydict PyValue → string → option string →
    outcome py_exn PyValue;
  coerce_expression_result : PyValue → IOType → bool → bool → outcome py_exn PyValue;
  sql_dialect_name : option PyValue → outcome py_exn (option string);
  render_sql_template : string → pydict PyValue → pydict PyValue → option string → outcome py_exn PyValue;
}.

(** Loops that may raise. *)
Fixpoint foldM {E A B} (f : B → A → outcome E B) (b : B) (l : list A) : outcome E B :=
  match l with
  | [] => Ok b
  | x :: l' => b' ← f b x; foldM f b' l'
  end.

(** ** Variables *)

Definition _iter_variable_items (value : PyValue) : list (string * PyValue) :=
  match value with
  | VDict items =>
      let all := omap (λ kv, match kv.1 with
                             | KStr s => if str_truthy s then Some (s, kv.2) else None
                             | KOther _ => None
                             end) items in
      match vdict_get items "name" with
      | Some (VStr s) => if str_truthy s then [(s, value)] else all
      | _ => all
      end
  | VObj attrs _ =>
      match dget attrs "name" with
      | Some (VStr name) => if str_truthy name then [(name, value)] else []
      | _ => []
      end
  | _ => []
  end.

Definition _is_empty_variable_payload (value : PyValue) : bool :=
  match value with VDict [] => true | _ => false end.

Definition _merge_variable_items (target : pydict PyValue) (items : list (string * PyValue))
    : pydict PyValue :=
  foldl (λ t kv, dset t kv.1 kv.2) target items.

(** [node_outputs[lv.node_id][lv.output_name].value], when both keys are there. *)
Definition linked_output (node_outputs : NodeOutputs) (lv : NodeInputLinkValue) : option PyValue :=
  outs ← dget node_outputs (lv_node_id lv); dget outs (lv_output_name lv).

Definition missing_output (node_id input_name : string) (lv : NodeInputLinkValue) : py_exn :=
  NodeInputError ("Node " +:+ node_id +:+ ": Missing output '" +:+ lv_output_name lv +:+
    "' from source node '" +:+ lv_node_id lv +:+ "' for input '" +:+ input_name +:+ "'.").

(** One link of a variable input: the body shared by [_collect_linked_variables] and the
    multi-variable branch of [build_node_kwargs]. *)
Definition add_link_variables (node_id : string) (node_outputs : NodeOutputs) (input_name : string)
    (target : pydict PyValue) (lv : NodeInputLinkValue) : outcome py_exn (pydict PyValue) :=
  match linked_output node_outputs lv with
  | None => Raise (missing_output node_id input_name lv)
  | Some var_payload =>
      if _is_empty_variable_payload var_payload then Ok target
      else match _iter_variable_items var_payload with
           | [] => Raise (NodeInputError ("Node " +:+ node_id +:+ ": Variable input '" +:+ input_name +:+
                                          "' expects variable outputs."))
           | variable_items => Ok (_merge_variable_items target variable_items)
           end
  end.

Definition _collect_linked_variables (node_id : string) (node_class : NodeClass) (node_data : NodeData)
    (node_outputs : NodeOutputs) : outcome py_exn (pydict PyValue) :=
  foldM (λ linked input,
    match dget (input_definitions node_class) input.1 with
    | None => Ok linked
    | Some input_def =>
        if _is_variable_input input_def
        then foldM (add_link_variables node_id node_outputs input.1) linked (iter_node_input_link_values input.2)
        else Ok linked
    end) [] (nd_inputs node_data).

Definition collect_variable_source_node_ids (node_class : NodeClass) (node_data : NodeData) : list string :=
  remove_dups (nd_inputs node_data ≫= λ input,
    match dget (input_definitions node_class) input.1 with
    | None => []
    | Some input_def =>
        if _is_variable_input input_def then lv_node_id <$> iter_node_input_link_values input.2 else []
    end).

(** ** Constants and expressions *)

(** Pydantic's validation of a payload with a known [__dvt_type]. *)
Definition validate_input_value (marker : string) (items : list (PyKey * PyValue))
    : outcome py_exn NodeRuntimeInputValue :=
  if bool_decide (marker = "expr") then
    match vdict_get items "value", vdict_get items "expression_kind" with
    | Some (VStr v), Some (VStr k) =>
        if bool_decide (k = "single") || bool_decide (k = "template") then Ok (NodeInputExpressionValue v k)
        else Raise (ValueError "1 validation error for NodeInputExpressionValue")
    | _, _ => Raise (ValueError "1 validation error for NodeInputExpressionValue")
    end
  else if bool_decide (marker = "const") then
    match vdict_get items "value" with
    | Some v => Ok (NodeInputConstantValue v)
    | None => Raise (ValueError "1 validation error for NodeInputConstantValue")
    end
  else
    match vdict_get items "node_id", vdict_get items "output_name" with
    | Some (VStr n), Some (VStr o) => Ok (NodeInputLink (mkLink n o))
    | _, _ => Raise (ValueError "1 validation error for NodeInputLinkValue")
    end.

(** A raw value of [build_node_kwargs]: the payload of a constant, or the input itself. *)
Inductive raw_value :=
  | RawPayload (v : PyValue)
  | RawInput (v : NodeRuntimeInputValue).

Definition parse_node_input_value (value : raw_value) : outcome py_exn (option NodeRuntimeInputValue) :=
  match value with
  | RawInput (NodeInputLinks _) => Ok None
  | RawInput v => Ok (Some v)
  | RawPayload (VDict items) =>
      match vdict_get items "__dvt_type" with
      | None | Some VNone => Ok None
      | Some (VStr marker) =>
          if bool_decide (marker ∈ ["expr"; "const"; "link"]) then (v ← validate_input_value marker items; Ok (Some v))
          else Raise (ValueError ("Unknown dvt_type '" +:+ marker +:+ "'"))
      | Some (VList _) | Some (VDict _) => Raise (TypeError "unhashable type")
      | Some _ => Raise (ValueError "Unknown dvt_type")
      end
  | RawPayload _ => Ok None
  end.

Section Kwargs.
Context `{rt : InputRuntime}.

(** [_unwrap_variable] / [unwrap] *)
Definition unwrap_variable (candidate : PyValue) : PyValue :=
  match candidate with
  | VDict items =>
      match vdict_get items "name", vdict_get items "value" with
      | Some _, Some v => v
      | _, _ => candidate
      end
  | VObj attrs _ =>
      match dget attrs "name", dget attrs "value" with
      | Some _, Some v => v
      | _, _ => candidate
      end
  | _ => candidate
  end.

Definition unwrap_all (variables : pydict PyValue) : pydict PyValue :=
  (λ kv, (kv.1, unwrap_variable kv.2)) <$> variables.

(** [except (TypeError, ValueError)]: an unresolved value when that is allowed. *)
Definition or_unresolved (allow_unresolved : bool) (r : outcome py_exn PyValue) : outcome py_exn PyValue :=
  match r with
  | Raise (ValueError m) | Raise (TypeError m) => if allow_unresolved then Ok (VUnresolved m) else r
  | _ => r
  end.

Definition resolve_node_input_value (value : raw_value) (variables project_variables : pydict PyValue)
    (input_def : InputDefinition) (allow_unresolved : bool) : outcome py_exn PyValue :=
  parsed ← parse_node_input_value value;
  match parsed with
  | Some (NodeInputConstantValue v) => Ok v
  | Some (NodeInputExpressionValue text kind) =>
      if id_allow_expressions input_def then
        match evaluate_input_expression text (unwrap_all variables) (unwrap_all project_variables) kind
                (id_expression_policy input_def) with
        | Ok v => or_unresolved allow_unresolved
                    (coerce_expression_result v (id_type input_def) (id_is_list_type input_def) allow_unresolved)
        | Raise e => or_unresolved allow_unresolved (Raise e)
        end
      else Raise (ValueError "Expressions are not enabled for this input.")
  | _ =>
      match value with
      | RawPayload v => Ok v
      | RawInput _ => Ok (VList [])  (* only an empty list of links gets here *)
      end
  end.

(** [except ValueError as err: raise NodeInputError(...)] *)
Definition value_error_to_input {A} (node_id : string) (r : outcome py_exn A) : outcome py_exn A :=
  match r with
  | Raise (ValueError m) => Raise (NodeInputError ("Node " +:+ node_id +:+ ": " +:+ m))
  | _ => r
  end.

(** ** [build_node_kwargs] *)

Record kwargs_state := mkKwargs {
  ks_kwargs : pydict PyValue;
  ks_deferred : list (string * string);  (* attr_name, template text *)
}.

(** An input with links. *)
Definition linked_kwarg (node_id : string) (node_outputs : NodeOutputs) (input_name : string)
    (input_def : InputDefinition) (link_values : list NodeInputLinkValue) : outcome py_exn PyValue :=
  let allow_multi := id_allow_multiple_connections input_def in
  if allow_multi && _is_variable_input input_def then
    variables ← foldM (add_link_variables node_id node_outputs input_name) [] link_values;
    Ok (VDict ((λ kv, (KStr kv.1, kv.2)) <$> variables))
  else if allow_multi && contains_exact_io (id_type input_def) IO_COLUMN then
    columns ← foldM (λ columns lv,
      match linked_output node_outputs lv with
      | None => Raise (NodeInputError ("Node " +:+ node_id +:+ ": Missing Series output '" +:+
                         lv_output_name lv +:+ "' from '" +:+ lv_node_id lv +:+ "'."))
      | Some v => Ok (columns ++ [v])
      end) [] link_values;
    Ok (match columns with [column] => column | _ => VList columns end)
  else if allow_multi && _is_signal_input input_def then
    _ ← foldM (λ (_ : unit) lv,
      match linked_output node_outputs lv with
      | None => Raise (missing_output node_id input_name lv)
      | Some _ => Ok ()
      end) () link_values;
    Ok VNone
  else
    match link_values with
    | [lv] =>
        match linked_output node_outputs lv with
        | None => Raise (missing_output node_id input_name lv)
        | Some v => Ok v
        end
    | _ => Raise (NodeInputError ("Node " +:+ node_id +:+ ": Input '" +:+ input_name +:+
                                  "' does not allow multiple connections."))
    end.

(** The body of the loop over the inputs. *)
Definition add_kwarg (node_id : string) (node_class : NodeClass) (node_outputs : NodeOutputs)
    (legacy_input_variables project_variables : pydict PyValue) (allow_unresolved : bool)
    (ks : kwargs_state) (input : string * NodeRuntimeInputValue) : outcome py_exn kwargs_state :=
  match dget (input_definitions node_class) input.1 with
  | None => Ok ks
  | Some input_def =>
      let attr_name := id_attr_name input_def in
      match iter_node_input_link_values input.2 with
      | (_ :: _) as link_values =>
          v ← linked_kwarg node_id node_outputs input.1 input_def link_values;
          Ok (mkKwargs (dset (ks_kwargs ks) attr_name v) (ks_deferred ks))
      | [] =>
          let raw := match input.2 with NodeInputConstantValue v => RawPayload v | v => RawInput v end in
          value_error_to_input node_id (
            parsed ← parse_node_input_value raw;
            let resolve :=
              v ← resolve_node_input_value raw legacy_input_variables project_variables input_def allow_unresolved;
              Ok (mkKwargs (dset (ks_kwargs ks) attr_name v) (ks_deferred ks)) in
            match parsed with
            | Some (NodeInputExpressionValue text kind) =>
                if nc_sql_template node_class attr_name && bool_decide (kind = "template")
                then Ok (mkKwargs (ks_kwargs ks) (ks_deferred ks ++ [(attr_name, text)]))
                else resolve
            | _ => resolve
            end)
      end
  end.

(** Rendering the SQL templates, once every other input is known. *)
Definition render_deferred (node_id : string) (legacy_input_variables project_variables : pydict PyValue)
    (allow_unresolved : bool) (ks : kwargs_state) : outcome py_exn (pydict PyValue) :=
  match ks_deferred ks with
  | [] => Ok (ks_kwargs ks)
  | deferred =>
      dialect_name ← sql_dialect_name (dget (ks_kwargs ks) "connection");
      foldM (λ kwargs item,
        v ← match render_sql_template item.2 legacy_input_variables project_variables dialect_name with
            | Raise (ValueError m) | Raise (TypeError m) =>
                if allow_unresolved then Ok (VUnresolved m)
                else Raise (NodeInputError ("Node " +:+ node_id +:+ ": " +:+ m))
            | r => r
            end;
        Ok (dset kwargs item.1 v)) (ks_kwargs ks) deferred
  end.

Definition build_node_kwargs (node_id : string) (node_class : NodeClass) (node_data : NodeData)
    (node_outputs : NodeOutputs) (project_variables : pydict PyValue) (metadata_only : bool)
    : outcome py_exn (pydict PyValue) :=
  let node_data :=
    match nc_runtime_inputs node_class with
    | Some input_selector =>
        mkNodeData (nd_name node_data) (nd_store_enabled node_data) (input_selector (nd_inputs node_data))
    | None => node_data
    end in
  linked_variables ← _collect_linked_variables node_id node_class node_data node_outputs;
  let legacy_input_variables := dupdate project_variables linked_variables in
  ks ← foldM (add_kwarg node_id node_class node_outputs legacy_input_variables project_variables metadata_only)
         (mkKwargs [] []) (nd_inputs node_data);
  render_deferred node_id legacy_input_variables project_variables metadata_only ks.

End Kwargs.

(** ** Rules for loops that may raise *)

(** An invariant of the items processed so far holds at the end of a loop that did not raise. *)
Lemma foldM_ind {E A B} (f : B → A → outcome E B) (P : list A → B → Prop) l :
  (∀ pre x post b b', l = pre ++ x :: post → P pre b → f b x = Ok b' → P (pre ++ [x]) b') →
  ∀ b b', P [] b → foldM f b l = Ok b' → P l b'.
Proof.
  intros Hstep. assert (∀ post pre b b', l = pre ++ post → P pre b → foldM f b post = Ok b' → P l b') as H.
  { induction post as [|x post IH]; intros pre b b' El HP Hf; simpl in Hf.
    - simplify_eq. by rewrite app_nil_r in *; subst.
    - destruct (f b x) as [b1|e] eqn:E1; [|done].
      apply (IH (pre ++ [x]) b1 b'); [by rewrite <-app_assoc|by eapply Hstep|done]. }
  intros b b' HP Hf. by apply (H l [] b b').
Qed.

(** Every item of a loop that did not raise was accepted in some intermediate state. *)
Lemma foldM_each {E A B} (f : B → A → outcome E B) l b b' x :
  foldM f b l = Ok b' → x ∈ l → ∃ b1 b2, f b1 x = Ok b2.
Proof.
  revert b; induction l as [|y l IH]; intros b Hf Hx; [by apply not_elem_of_nil in Hx|].
  simpl in Hf. destruct (f b y) as [b1|e] eqn:E1; [|done].
  apply elem_of_cons in Hx as [->|Hx]; [eauto|]. by eapply IH.
Qed.

(** ** What a node receives *)

Section KwargsProperties.
Context `{rt : InputRuntime}.
Context (node_id : string) (node_class : NodeClass) (node_outputs : NodeOutputs).

Lemma add_link_variables_found input_name target lv r :
  add_link_variables node_id node_outputs input_name target lv = Ok r → is_Some (linked_output node_outputs lv).
Proof. unfold add_link_variables. destruct (linked_output node_outputs lv); [eauto|done]. Qed.

(** A linked input is only accepted when every link finds its output. *)
Lemma linked_kwarg_found input_name input_def links v lv :
  linked_kwarg node_id node_outputs input_name input_def links = Ok v → lv ∈ links →
  is_Some (linked_output node_outputs lv).
Proof.
  unfold linked_kwarg. intros H Hlv.
  destruct (_ && _); [|destruct (_ && _); [|destruct (_ && _)]].
  - destruct (foldM _ _ links) eqn:E; [|done]. destruct (foldM_each _ _ _ _ lv E Hlv) as (b1 & b2 & Hb).
    by eapply add_link_variables_found.
  - destruct (foldM _ _ links) eqn:E; [|done]. destruct (foldM_each _ _ _ _ lv E Hlv) as (b1 & b2 & Hb).
    destruct (linked_output node_outputs lv); [eauto|done].
  - destruct (foldM _ _ links) eqn:E; [|done]. destruct (foldM_each _ _ _ _ lv E Hlv) as (b1 & b2 & Hb).
    destruct (linked_output node_outputs lv); [eauto|done].
  - destruct links as [|lv' [|]]; [done| |done]. apply list_elem_of_singleton in Hlv as ->.
    destruct (linked_output node_outputs lv'); [eauto|done].
Qed.

Lemma linked_kwarg_single input_name input_def lv :
  id_allow_multiple_connections input_def = false →
  linked_kwarg node_id node_outputs input_name input_def [lv] =
  match linked_output node_outputs lv with Some v => Ok v | None => Raise (missing_output node_id input_name lv) end.
Proof. unfold linked_kwarg. intros ->. cbn [andb]. by destruct (linked_output node_outputs lv). Qed.

(** The attribute an input of the node is passed as. *)
Definition attr_of (input_name : string) : option string :=
  id_attr_name <$> dget (input_definitions node_class) input_name.

Definition has_links (input : string * NodeRuntimeInputValue) : bool :=
  match iter_node_input_link_values input.2 with [] => false | _ => true end.

(** What one step of the loop does to the arguments and to the deferred templates. *)
Lemma add_kwarg_effect legacy project unresolved ks input ks' :
  add_kwarg node_id node_class node_outputs legacy project unresolved ks input = Ok ks' →
  match dget (input_definitions node_class) input.1 with
  | None => ks' = ks
  | Some d =>
      if has_links input then
        ∃ v, linked_kwarg node_id node_outputs input.1 d (iter_node_input_link_values input.2) = Ok v ∧
             ks' = mkKwargs (dset (ks_kwargs ks) (id_attr_name d) v) (ks_deferred ks)
      else (∃ v, ks' = mkKwargs (dset (ks_kwargs ks) (id_attr_name d) v) (ks_deferred ks)) ∨
           ∃ text, ks' = mkKwargs (ks_kwargs ks) (ks_deferred ks ++ [(id_attr_name d, text)])
  end.
Proof.
  unfold add_kwarg, has_links. destruct (dget _ input.1) as [d|]; [|by intros [= ->]].
  destruct (iter_node_input_link_values input.2) as [|lv lvs].
  - unfold value_error_to_input. cbv zeta. set (raw := match input.2 with NodeInputConstantValue v => _ | _ => _ end).
    destruct (parse_node_input_value raw) as [parsed|e]; simpl; [|by destruct e].
    set (res := resolve_node_input_value raw legacy project d unresolved).
    destruct parsed as [[text kind|?|?|?]|]; [destruct (_ && _); [intros [= <-]; by eauto|]|..];
      (destruct res as [v|[]]; simpl; intros H; simplify_eq; by eauto).
  - destruct (linked_kwarg _ _ _ _ _) as [v|e] eqn:El; simpl; [|done]. intros [= <-]. by exists v.
Qed.

(** The node's inputs as the node class selects them. *)
Definition selected_inputs (node_data : NodeData) : pydict NodeRuntimeInputValue :=
  match nc_runtime_inputs node_class with
  | Some input_selector => input_selector (nd_inputs node_data)
  | None => nd_inputs node_data
  end.

(** The loop sets the argument of a linked input and later inputs leave it alone. *)
Lemma kwargs_loop legacy project unresolved inputs name value d ks :
  (∀ n n' a, attr_of n = Some a → attr_of n' = Some a → n = n') →
  dwf inputs → (name, value) ∈ inputs → dget (input_definitions node_class) name = Some d →
  iter_node_input_link_values value ≠ [] →
  foldM (add_kwarg node_id node_class node_outputs legacy project unresolved) (mkKwargs [] []) inputs = Ok ks →
  ∃ v, linked_kwarg node_id node_outputs name d (iter_node_input_link_values value) = Ok v ∧
       dget (ks_kwargs ks) (id_attr_name d) = Some v ∧ (∀ it, it ∈ ks_deferred ks → it.1 ≠ id_attr_name d).
Proof.
  intros Hinj Hwf Hin Hd Hl Hf.
  assert (∀ n d', dget (input_definitions node_class) n = Some d' → n ≠ name → id_attr_name d' ≠ id_attr_name d) as Hne.
  { intros n d' Hd' Hn E. apply Hn, (Hinj n name (id_attr_name d)); unfold attr_of; [rewrite Hd'|rewrite Hd]; simpl; congruence. }
  assert (∀ x v, (x, v) ∈ inputs → x = name → v = value) as Huniq.
  { intros x v Hx ->. apply (elem_of_dget inputs name value) in Hin; [|done].
    apply (elem_of_dget inputs name v) in Hx; [|done]. congruence. }
  assert (((name, value) ∈ inputs → ∃ v, linked_kwarg node_id node_outputs name d (iter_node_input_link_values value) = Ok v ∧
       dget (ks_kwargs ks) (id_attr_name d) = Some v) ∧ (∀ it, it ∈ ks_deferred ks → it.1 ≠ id_attr_name d)) as [H1 H2].
  { revert Hf. apply (foldM_ind _ (λ pre ks, ((name, value) ∈ pre → ∃ v, _ = Ok v ∧ dget (ks_kwargs ks) (id_attr_name d) = Some v) ∧
      ∀ it, it ∈ ks_deferred ks → it.1 ≠ id_attr_name d)); [|split; [by intros ?%not_elem_of_nil|by intros it ?%not_elem_of_nil]].
    intros pre [x v] post b b' El [IH1 IH2] Hstep. apply add_kwarg_effect in Hstep. cbn [fst snd] in Hstep.
    assert ((x, v) ∈ inputs) as Hx by (rewrite El; set_solver).
    destruct (decide (x = name)) as [->|Hxn].
    - specialize (Huniq name v Hx eq_refl) as ->. rewrite Hd in Hstep. unfold has_links in Hstep. cbn [snd] in Hstep.
      destruct (iter_node_input_link_values value) as [|lv lvs]; [done|].
      destruct Hstep as (u & Hu & ->). cbn [ks_kwargs ks_deferred]. split; [|done]. intros _. exists u.
      by rewrite dget_dset_eq.
    - assert ((name, value) ∈ pre ++ [(x, v)] → (name, value) ∈ pre) as Hpre.
      { intros [?|E]%elem_of_app; [done|]. apply list_elem_of_singleton in E. congruence. }
      destruct (dget (input_definitions node_class) x) as [d'|] eqn:Hd'; [|subst b'; by split; [intros ?%Hpre; auto|]].
      specialize (Hne x d' Hd' Hxn).
      destruct (has_links (x, v)); [destruct Hstep as (u & _ & ->)|destruct Hstep as [[u ->]|[t ->]]];
        cbn [ks_kwargs ks_deferred]; (split; [intros ?%Hpre; rewrite ?dget_dset_ne by done; auto|]); try done.
      intros it [?|E]%elem_of_app; [auto|]. by apply list_elem_of_singleton in E as ->. }
  destruct (H1 Hin) as (v & Hv & Hk). eauto.
Qed.

Lemma render_deferred_keeps legacy project unresolved ks kwargs a :
  render_deferred node_id legacy project unresolved ks = Ok kwargs →
  (∀ it, it ∈ ks_deferred ks → it.1 ≠ a) → dget kwargs a = dget (ks_kwargs ks) a.
Proof.
  unfold render_deferred. intros Hr Hne. destruct (ks_deferred ks) as [|i l] eqn:Ed; [by simplify_eq|].
  destruct (sql_dialect_name _) as [dia|e]; [|done]. rewrite <-Ed in *. clear Ed. simpl in Hr.
  revert Hr. apply (foldM_ind _ (λ _ k, dget k a = dget (ks_kwargs ks) a)); [|done].
  intros pre it post b b' El IH Hstep. assert (it.1 ≠ a) as Hit by (apply Hne; rewrite El; set_solver).
  destruct (render_sql_template _ _ _ _) as [v|[]]; try destruct unresolved; simpl in Hstep; simplify_eq;
    by rewrite dget_dset_ne.
Qed.

(** C35: when [build_node_kwargs] succeeds, every link of every declared input has found the output
    it names, and the argument of an input that takes a single connection is the value of that
    output; no later input and no SQL template overwrites it. *)
Theorem kwargs_deliver_linked_outputs node_data project metadata_only kwargs name value d :
  (∀ n n' a, attr_of n = Some a → attr_of n' = Some a → n = n') →
  dwf (selected_inputs node_data) →
  build_node_kwargs node_id node_class node_data node_outputs project metadata_only = Ok kwargs →
  (name, value) ∈ selected_inputs node_data → dget (input_definitions node_class) name = Some d →
  let links := iter_node_input_link_values value in
  (∀ lv, lv ∈ links → is_Some (linked_output node_outputs lv)) ∧
  (∀ lv, links = [lv] → id_allow_multiple_connections d = false →
         dget kwargs (id_attr_name d) = linked_output node_outputs lv).
Proof.
  intros Hinj Hwf Hb Hin Hd links.
  destruct (decide (links = [])) as [El|Hl]; [rewrite El; split; [by intros lv ?%not_elem_of_nil|done]|].
  unfold build_node_kwargs in Hb. cbv zeta in Hb.
  assert (nd_inputs (match nc_runtime_inputs node_class with
     | Some sel => mkNodeData (nd_name node_data) (nd_store_enabled node_data) (sel (nd_inputs node_data))
     | None => node_data end) = selected_inputs node_data) as Hsel.
  { unfold selected_inputs. by destruct (nc_runtime_inputs node_class). }
  destruct (_collect_linked_variables _ _ _ _) as [linked|e]; [|done]. simpl in Hb. rewrite Hsel in Hb.
  destruct (foldM _ _ (selected_inputs node_data)) as [ks|e] eqn:Ef; [|done]. simpl in Hb.
  eapply kwargs_loop in Ef as (v & Hv & Hk & Hdef); [|done..].
  rewrite (render_deferred_keeps _ _ _ _ _ _ Hb Hdef), Hk. split.
  - intros lv Hlv. by eapply linked_kwarg_found.
  - intros lv El Hm. fold links in Hv. rewrite El, linked_kwarg_single in Hv by done.
    destruct (linked_output node_outputs lv); by simplify_eq.
Qed.

End KwargsProperties.
