(* ===== verification/Processor.v ===== *)
(** * Pipeline: the processor

    Models [PipelineProcessor] ([src/pipeline/processor.py]): planning a run from the cache
    frontier ([_prepare_cache_frontier]), the metadata prepass, [_process_node] with its skip,
    restore, validation, execution and error paths, and [process].

    The processor's attributes are the record [PState]; a method is a computation of the state
    and exception monad [P]. What the nodes, the stores, the callbacks and the stop event answer
    is the [NodeRuntime] parameter; an answer may differ from call to call, so each takes the
    number of the call. [ps_trace] records, in order, the calls of [execute] and of the task
    callbacks, and when a node is added to [_completed_node_ids], [skipped_nodes] and
    [failed_nodes]. *)
From S2P Require Import Prelude TaskTypes PipelineTypes Graph NodeKwargs.

(** What the processor reads of its [TaskInternal] and of its constructor arguments. *)
Record Job := mkJob {
  jb_mode : PipelineExecutionMode;
  jb_pipeline : Pipeline;
  jb_target_nodes : option (list string);
  jb_changed_node_ids : list string;   (* changed_node_ids or metadata_changed_node_ids or [] *)
  jb_project_variables : pydict PyValue;
  jb_has_data_stores : bool;           (* data_store and data_index_store are given *)
  jb_has_metadata_store : bool;
  jb_has_metadata_index : bool;
  jb_on_node_metadata : bool;          (* which optional callbacks are given *)
  jb_on_node_error : bool;
  jb_on_task_started : bool;
  jb_on_task_running : bool;
  jb_on_task_success : bool;
  jb_on_task_error : bool;
  jb_on_task_canceled : bool;
}.

Abbreviation NodeMetadata := (pydict (option string)).

Record MetadataCacheEntry := mkEntry {
  me_outputs : pydict PyValue;
  me_metadata : NodeMetadata;
}.

Inductive TaskCallback :=
  | on_task_started | on_task_running | on_task_success
  | on_task_error (message : string) | on_task_canceled.

Inductive event :=
  | EvExecute (node_id : string)
  | EvComplete (node_id : string)
  | EvSkip (node_id : string)
  | EvFail (node_id : string)
  | EvRestore (node_id : string)
  | EvNodeError (node_id message : string)
  | EvNodeMetadata (node_id : string)
  | EvStore (key : string)
  | EvTask (c : TaskCallback).

(** What [node.execute] does: late results of other nodes it reports through
    [refresh_node_metadata] ([node_id], metadata, outputs), then its own outcome. *)
Record execution := mkExecution {
  ex_refreshes : list (string * NodeMetadata * pydict PyValue);
  ex_outcome : outcome py_exn unit;
}.

Abbreviation Kwargs := (pydict PyValue).

Class NodeRuntime := {
  registry_get : string → option NodeClass;
  rt_instantiate : nat → string → Kwargs → outcome py_exn unit;
  rt_validate : nat → string → Kwargs → outcome py_exn unit;
  rt_execute : nat → string → Kwargs → PipelineExecutionMode → execution;
  rt_get_outputs : nat → string → Kwargs → pydict PyValue;
  rt_attribute : nat → string → string → PyValue;
  rt_resolve_metadata : nat → string → outcome py_exn NodeMetadata;
  rt_metadata_cache_key : nat → string → outcome py_exn (option string);
  rt_cache_snapshot : nat → string → outcome py_exn unit;
  rt_restore_snapshot : nat → string → outcome py_exn (option MetadataCacheEntry);
  rt_store_get : nat → string → outcome py_exn (option MetadataCacheEntry);
  rt_store_put : nat → string → outcome py_exn unit;
  rt_stop_is_set : nat → bool;
  rt_callback : nat → outcome py_exn unit;
  get_hash : PyValue → string;
  create_node_inputs_fingerprint : NodeClass → pydict string → pydict PyValue → string;
}.

(** ** State *)

Record PState := mkPState {
  ps_step : nat;
  ps_completed : list string;      (* _completed_node_ids *)
  ps_recoverable : list string;    (* _recoverable_failed_node_ids *)
  ps_executed : list string;
  ps_failed : list string;
  ps_skipped : list string;
  ps_restored : list string;
  ps_planned : option (list string);  (* _planned_execution_order *)
  ps_outputs : NodeOutputs;
  ps_hashes : pydict (pydict string);
  ps_metadata : pydict NodeMetadata;
  ps_signals : pydict (pydict bool);
  ps_trace : list event;
}.

Definition initial_state : PState := mkPState 0 [] [] [] [] [] [] None [] [] [] [] [].

Definition P (A : Type) : Type := PState → outcome py_exn A * PState.

#[global] Instance P_ret : MRet P := λ A a st, (Ok a, st).
#[global] Instance P_bind : MBind P := λ A B f m st,
  match m st with
  | (Ok a, st') => f a st'
  | (Raise e, st') => (Raise e, st')
  end.

Definition get_state : P PState := λ st, (Ok st, st).
Definition update (f : PState → PState) : P unit := λ st, (Ok (), f st).
Definition raise {A} (e : py_exn) : P A := λ st, (Raise e, st).
Definition lift {A} (o : outcome py_exn A) : P A := λ st, (o, st).

(** [try: m except Exception as e: h e] *)
Definition catch {A} (m : P A) (h : py_exn → P A) : P A := λ st,
  match m st with
  | (Raise e, st') => h e st'
  | r => r
  end.

Fixpoint for_each {A} (f : A → P unit) (l : list A) : P unit :=
  match l with
  | [] => mret ()
  | x :: l' => f x ;; for_each f l'
  end.

(** A loop over [l] that carries a local value. *)
Fixpoint fold_P {A B} (f : A → B → P B) (l : list A) (b : B) : P B :=
  match l with
  | [] => mret b
  | x :: l' => b' ← f x b; fold_P f l' b'
  end.

Definition when (b : bool) (m : P unit) : P unit := if b then m else mret ().

Definition set_step (st : PState) : PState :=
  mkPState (S (ps_step st)) (ps_completed st) (ps_recoverable st) (ps_executed st) (ps_failed st)
    (ps_skipped st) (ps_restored st) (ps_planned st) (ps_outputs st) (ps_hashes st) (ps_metadata st)
    (ps_signals st) (ps_trace st).

(** A question to the outside world. *)
Definition ask {A} (f : nat → A) : P A := λ st, (Ok (f (ps_step st)), set_step st).

Definition call {A} (f : nat → outcome py_exn A) : P A := r ← ask f; lift r.

Definition emit (e : event) : P unit := update (λ st,
  mkPState (ps_step st) (ps_completed st) (ps_recoverable st) (ps_executed st) (ps_failed st)
    (ps_skipped st) (ps_restored st) (ps_planned st) (ps_outputs st) (ps_hashes st) (ps_metadata st)
    (ps_signals st) (ps_trace st ++ [e])).

(** [if x not in l: l.append(x)] and [s.add(x)] *)
Definition add_new (x : string) (l : list string) : list string :=
  if bool_decide (x ∈ l) then l else l ++ [x].

Definition mark_skipped (node_id : string) : P unit :=
  update (λ st, mkPState (ps_step st) (ps_completed st) (ps_recoverable st) (ps_executed st) (ps_failed st)
    (add_new node_id (ps_skipped st)) (ps_restored st) (ps_planned st) (ps_outputs st) (ps_hashes st)
    (ps_metadata st) (ps_signals st) (ps_trace st)) ;;
  emit (EvSkip node_id).

Definition mark_failed (node_id : string) : P unit :=
  update (λ st, mkPState (ps_step st) (ps_completed st) (ps_recoverable st) (ps_executed st)
    (add_new node_id (ps_failed st)) (ps_skipped st) (ps_restored st) (ps_planned st) (ps_outputs st)
    (ps_hashes st) (ps_metadata st) (ps_signals st) (ps_trace st)) ;;
  emit (EvFail node_id).

Definition mark_completed (node_id : string) : P unit :=
  update (λ st, mkPState (ps_step st) (add_new node_id (ps_completed st)) (ps_recoverable st) (ps_executed st)
    (ps_failed st) (ps_skipped st) (ps_restored st) (ps_planned st) (ps_outputs st) (ps_hashes st)
    (ps_metadata st) (ps_signals st) (ps_trace st)) ;;
  emit (EvComplete node_id).

Definition mark_recoverable (node_id : string) : P unit :=
  update (λ st, mkPState (ps_step st) (ps_completed st) (add_new node_id (ps_recoverable st)) (ps_executed st)
    (ps_failed st) (ps_skipped st) (ps_restored st) (ps_planned st) (ps_outputs st) (ps_hashes st)
    (ps_metadata st) (ps_signals st) (ps_trace st)).

Definition append_executed (node_id : string) : P unit :=
  update (λ st, mkPState (ps_step st) (ps_completed st) (ps_recoverable st) (ps_executed st ++ [node_id])
    (ps_failed st) (ps_skipped st) (ps_restored st) (ps_planned st) (ps_outputs st) (ps_hashes st)
    (ps_metadata st) (ps_signals st) (ps_trace st)).

Definition append_restored (node_id : string) : P unit :=
  update (λ st, mkPState (ps_step st) (ps_completed st) (ps_recoverable st) (ps_executed st)
    (ps_failed st) (ps_skipped st) (ps_restored st ++ [node_id]) (ps_planned st) (ps_outputs st) (ps_hashes st)
    (ps_metadata st) (ps_signals st) (ps_trace st)) ;;
  emit (EvRestore node_id).

Definition set_planned (order : list string) : P unit :=
  update (λ st, mkPState (ps_step st) (ps_completed st) (ps_recoverable st) (ps_executed st)
    (ps_failed st) (ps_skipped st) (ps_restored st) (Some order) (ps_outputs st) (ps_hashes st)
    (ps_metadata st) (ps_signals st) (ps_trace st)).

(** The four per-node dictionaries change together with nothing else. *)
Definition set_data (outputs : NodeOutputs → NodeOutputs) (hashes : pydict (pydict string) → pydict (pydict string))
    (metadata : pydict NodeMetadata → pydict NodeMetadata)
    (signals : pydict (pydict bool) → pydict (pydict bool)) : P unit :=
  update (λ st, mkPState (ps_step st) (ps_completed st) (ps_recoverable st) (ps_executed st)
    (ps_failed st) (ps_skipped st) (ps_restored st) (ps_planned st) (outputs (ps_outputs st))
    (hashes (ps_hashes st)) (metadata (ps_metadata st)) (signals (ps_signals st)) (ps_trace st)).

(** [d[node_id][name] = v] on a [defaultdict(dict)] *)
Definition dset2 {A} (d : pydict (pydict A)) (node_id name : string) (v : A) : pydict (pydict A) :=
  dset d node_id (dset (dget_default d node_id []) name v).

(** ** The four values [_process_node] returns *)

Record node_result := mkNodeResult {
  nr_stop_requested : bool;
  nr_should_break : bool;
  nr_task_error_reported : bool;
  nr_error_message : option string;
}.

Definition r_none : node_result := mkNodeResult false false false None.

(** Names of the built-in inputs and outputs ([NodeInputNames], [NodeOutputNames]). *)
Definition IN_SIGNAL : string := "signal_in".
Definition IN_VARIABLES : string := "input_variables".
Definition OUT_SIGNAL : string := "signal_out".
Definition OUT_ERROR_SIGNAL : string := "signal_error".
Definition OUT_VARIABLES : string := "output_variables".
Definition DVT_ERROR_TEXT_VARIABLE_NAME : string := "__dvt_error_text".

(** ** Signals *)

Definition _iter_signal_links (node_inputs : pydict NodeRuntimeInputValue) : list NodeInputLinkValue :=
  match dget node_inputs IN_SIGNAL with
  | Some v => iter_node_input_link_values v
  | None => []
  end.

Definition _is_signal_output_definition (output_def : OutputDefinition) : bool :=
  contains_exact_io (od_type output_def) IO_SIGNAL.

Definition _resolve_signal_output_state (output_name : string) (node_output : option PyValue)
    (auto_activate : bool) : bool :=
  match node_output with
  | Some (VBool b) => b
  | _ => auto_activate && bool_decide (output_name = OUT_SIGNAL)
  end.

Definition signal_states_of (node_class : NodeClass) (outputs : pydict PyValue) : pydict bool :=
  omap (λ od, if _is_signal_output_definition od.2
              then Some (od.1, _resolve_signal_output_state od.1 (dget outputs od.1)
                                 (AUTO_ACTIVATE_SIGNAL_OUTPUTS node_class))
              else None) (output_definitions node_class).

Definition _sync_node_signal_states (node_id : string) (node_class : NodeClass) (outputs : pydict PyValue)
    : P unit :=
  set_data id id id (λ s, dset s node_id (signal_states_of node_class outputs)).

Definition signal_active (st : PState) (link : NodeInputLinkValue) : bool :=
  dget_default (dget_default (ps_signals st) (lv_node_id link) []) (lv_output_name link) false.

Definition _has_inactive_required_signal (st : PState) (node_inputs : pydict NodeRuntimeInputValue) : bool :=
  match _iter_signal_links node_inputs with
  | [] => false
  | signal_links => negb (forallb (signal_active st) signal_links)
  end.

Definition _has_error_signal_downstream (pipeline : Pipeline) (node_id : string) : bool :=
  existsb (λ nd, existsb (λ l, bool_decide (lv_node_id l = node_id) &&
                               bool_decide (lv_output_name l = OUT_ERROR_SIGNAL))
                   (_iter_signal_links (nd_inputs nd))) (dvals pipeline).

(** The links of the inputs, each with the input it belongs to. *)
Definition input_links (node_inputs : pydict NodeRuntimeInputValue) : list (string * NodeInputLinkValue) :=
  node_inputs ≫= λ kv, (λ l, (kv.1, l)) <$> iter_node_input_link_values kv.2.

Definition is_error_gate (il : string * NodeInputLinkValue) : bool :=
  bool_decide (il.1 = IN_SIGNAL) && bool_decide (lv_output_name il.2 = OUT_ERROR_SIGNAL).

Definition _should_skip_due_to_recoverable_parent_failure (recoverable : list string)
    (node_inputs : pydict NodeRuntimeInputValue) : bool :=
  let links := filter (λ il, lv_node_id il.2 ∈ recoverable) (input_links node_inputs) in
  existsb (λ source,
    let source_links := filter (λ il, lv_node_id il.2 = source) links in
    let has_error_signal_gate := existsb is_error_gate source_links in
    let has_invalid_link :=
      existsb (λ il, negb (is_error_gate il || bool_decide (lv_output_name il.2 = OUT_VARIABLES))) source_links in
    negb has_error_signal_gate || has_invalid_link)
    (remove_dups (lv_node_id ∘ snd <$> links)).

Section Processor.
Context {so : SetOrder} {ir : InputRuntime} {nr : NodeRuntime} (job : Job).

Definition pipeline : Pipeline := jb_pipeline job.
Definition metadata_only : bool := bool_decide (jb_mode job = METADATA_ONLY).

Definition callback (given : bool) (e : event) : P unit :=
  when given (emit e ;; call rt_callback).

Definition _stop_requested : P bool := ask rt_stop_is_set.

(** [registry.get_node(name)] (and [registry.get_definition(name)]) *)
Definition get_node (name : string) : P NodeClass :=
  match registry_get name with
  | Some node_class => mret node_class
  | None => raise (OtherException ("Node '" +:+ name +:+ "' not found"))
  end.

(** ** Order *)

Definition graph_exn (e : graph_error) : py_exn :=
  match e with
  | NodeNotFoundError n => OtherException ("Target node '" +:+ n +:+ "' not found in pipeline.")
  | DependencyCycleError ns => OtherException ("Cycle detected involving nodes: " +:+ foldr String.append "" ns)
  | Diverges => OtherException "diverges"
  end.

Definition execution_order : outcome py_exn (list string) :=
  match topological_sort pipeline (jb_target_nodes job) with
  | Ok order => Ok order
  | Raise e => Raise (graph_exn e)
  end.

Definition effective_execution_order : P (list string) :=
  st ← get_state;
  match ps_planned st with
  | Some order => mret order
  | None => lift execution_order
  end.

Definition search (r : option (list string)) : P (list string) :=
  match r with Some l => mret l | None => raise (graph_exn Diverges) end.

Definition _get_affected_metadata_nodes : P (list string) :=
  search (find_all_dependents pipeline (jb_changed_node_ids job)).

Definition _incremental_metadata_enabled : bool :=
  metadata_only && negb (bool_decide (jb_changed_node_ids job = [])).

Definition _metadata_cache_allowed_for_node (node_id : string) : P bool :=
  if negb _incremental_metadata_enabled then mret true
  else affected ← _get_affected_metadata_nodes; mret (bool_decide (node_id ∉ affected)).

Definition _cache_frontier_enabled : bool :=
  negb (bool_decide (jb_changed_node_ids job = [])) && jb_has_data_stores job.

Definition _execution_target_ids : P (list string) :=
  order ← lift execution_order;
  match filter (λ n, n ∈ order) (default [] (jb_target_nodes job)) with
  | (_ :: _) as explicit_targets => mret explicit_targets
  | [] =>
      let parent_ids :=
        filter (λ n, n ∈ order) (order ≫= λ n, from_option gather_parent_ids [] (dget pipeline n)) in
      mret (filter (λ n, n ∉ parent_ids) order)
  end.

(** ** The cache frontier *)

Definition set_hashes (node_id : string) (outputs : pydict PyValue) : P unit :=
  for_each (λ o, set_data id (λ h, dset2 h node_id o.1 (get_hash o.2)) id id) outputs.

Definition _apply_restored_entry (node_id : string) (node_class : NodeClass) (entry : MetadataCacheEntry)
    : P unit :=
  set_data (λ o, dset o node_id (me_outputs entry)) id (λ m, dset m node_id (me_metadata entry)) id ;;
  _sync_node_signal_states node_id node_class (me_outputs entry) ;;
  set_hashes node_id (me_outputs entry) ;;
  mark_completed node_id ;;
  append_restored node_id.

Record frontier := mkFrontier {
  fr_visited : list string;
  fr_required : list string;
}.

Definition can_restore (affected fresh_paths : list string) (node_id : string) (node_data : NodeData)
    (node_class : NodeClass) : bool :=
  bool_decide (node_id ∉ affected) && bool_decide (node_id ∉ fresh_paths) && nd_store_enabled node_data
  && nc_is_df_output node_class && negb (OUTPUT_NODE node_class).

(** [async def require_node]; the fuel bounds the depth of the recursion. *)
Fixpoint require_node (fuel : nat) (affected fresh_paths : list string) (node_id : string) (fr : frontier)
    : P frontier :=
  match fuel with
  | O => raise (graph_exn Diverges)
  | S fuel' =>
      if bool_decide (node_id ∈ fr_visited fr) then mret fr
      else match dget pipeline node_id with
      | None => mret fr
      | Some node_data =>
          let fr1 := mkFrontier (fr_visited fr ++ [node_id]) (fr_required fr) in
          node_class ← get_node (nd_name node_data);
          restored ←
            (if can_restore affected fresh_paths node_id node_data node_class
             then call (λ n, rt_restore_snapshot n node_id) else mret None);
          match restored with
          | Some entry => _apply_restored_entry node_id node_class entry ;; mret fr1
          | None =>
              fold_P (require_node fuel' affected fresh_paths) (set_iter (gather_parent_ids node_data))
                (mkFrontier (fr_visited fr1) (add_new node_id (fr_required fr1)))
          end
      end
  end.

(** The nodes whose class asks for a fresh execution; an unknown class raises. *)
Fixpoint fresh_nodes (l : Pipeline) : P (list string) :=
  match l with
  | [] => mret []
  | (node_id, node_data) :: l' =>
      node_class ← get_node (nd_name node_data);
      rest ← fresh_nodes l';
      mret (if REQUIRES_FRESH_EXECUTION node_class then node_id :: rest else rest)
  end.

Definition _prepare_cache_frontier : P unit :=
  if negb _cache_frontier_enabled then mret ()
  else
    affected ← _get_affected_metadata_nodes;
    fresh ← fresh_nodes pipeline;
    fresh_paths ← search (find_all_dependents pipeline fresh);
    targets ← _execution_target_ids;
    fr ← fold_P (require_node (S (length pipeline)) affected fresh_paths) targets (mkFrontier [] []);
    order ← lift execution_order;
    set_planned (filter (λ n, n ∈ fr_required fr) order).

(** ** The metadata cache *)

Definition _project_variables_map : pydict PyValue := jb_project_variables job.

Definition _runtime_variables_map (node_kwargs : Kwargs) : pydict PyValue :=
  match dget node_kwargs IN_VARIABLES with
  | Some (VDict items) =>
      dupdate _project_variables_map
        (omap (λ kv, match kv.1 with KStr s => Some (s, kv.2) | KOther _ => None end) items)
  | _ => _project_variables_map
  end.

(** What [getattr(None, ...)] yields for an input the node does not declare. *)
Definition undeclared_input : InputDefinition := mkInputDef "" (ListIO []) false false true None.

(** One input of [_gather_parent_hashes_and_constants]. *)
Definition gather_input (st : PState) (node_id : string) (node_class : NodeClass) (runtime_variables : pydict PyValue)
    (acc : pydict string * pydict PyValue) (input : string * NodeRuntimeInputValue)
    : outcome py_exn (pydict string * pydict PyValue) :=
  match iter_node_input_link_values input.2 with
  | (_ :: _) as link_values =>
      Ok (foldl (λ hashes il,
            let '(idx, item) := il in
            let h := dget_default (dget_default (ps_hashes st) (lv_node_id item) []) (lv_output_name item) "" in
            let source := lv_node_id item +:+ "." +:+ lv_output_name item in
            let key := if bool_decide (length link_values = 1) then source
                       else input.1 +:+ "[" +:+ pretty idx +:+ "]:" +:+ source in
            dset hashes key h) acc.1 (imap pair link_values), acc.2)
  | [] =>
      let raw := match input.2 with NodeInputConstantValue v => RawPayload v | v => RawInput v end in
      let input_def := default undeclared_input (dget (input_definitions node_class) input.1) in
      v ← value_error_to_input node_id
            (resolve_node_input_value raw runtime_variables [] input_def metadata_only);
      Ok (acc.1, dset acc.2 input.1 v)
  end.

Definition _gather_parent_hashes_and_constants (node_id : string) (node_class : NodeClass)
    (node_inputs : pydict NodeRuntimeInputValue) (runtime_variables : pydict PyValue)
    : P (pydict string * pydict PyValue) :=
  st ← get_state;
  lift (foldM (gather_input st node_id node_class runtime_variables) ([], []) node_inputs).

(** The cached entry brought to the outputs of the definition, unless it is stale. *)
Definition normalize_entry (node_class : NodeClass) (cached : MetadataCacheEntry) : option MetadataCacheEntry :=
  let names := dkeys (output_definitions node_class) in
  let signal_names := (filter (λ od, _is_signal_output_definition od.2 = true) (output_definitions node_class)).*1 in
  let extra := filter (λ n, n ∉ names) (dkeys (me_outputs cached)) in
  let missing := filter (λ n, n ∉ dkeys (me_outputs cached)) names in
  if negb (bool_decide (extra = [])) || negb (forallb (λ n, bool_decide (n ∈ signal_names)) missing) then None
  else if negb (forallb (λ n, bool_decide (n ∈ names)) (dkeys (me_metadata cached))) then None
  else Some (mkEntry ((λ n, (n, dget_default (me_outputs cached) n VNone)) <$> names)
                     ((λ n, (n, dget_default (me_metadata cached) n None)) <$> names)).

Definition _try_restore_node_meta_cache_and_skip (node_id : string) (node_class : NodeClass)
    (meta_cache_key : string) : P bool :=
  if negb metadata_only || negb (jb_has_metadata_store job) then mret false
  else
    cached ← call (λ n, rt_store_get n meta_cache_key);
    match cached with
    | None => mret false
    | Some cached =>
        match normalize_entry node_class cached with
        | None => mret false
        | Some entry =>
            set_data (λ o, dset o node_id (me_outputs entry)) id (λ m, dset m node_id (me_metadata entry)) id ;;
            _sync_node_signal_states node_id node_class (me_outputs entry) ;;
            set_hashes node_id (me_outputs entry) ;;
            mark_completed node_id ;;
            mret true
        end
    end.

Definition _supports_early_metadata_cache_restore (node_class : NodeClass) : bool :=
  negb (nc_overrides_metadata_cache_key node_class).

Definition _try_restore_node_meta_cache_before_instantiation (node_id : string) (node_class : NodeClass)
    (node_data : NodeData) : P (bool * option string) :=
  allowed ← _metadata_cache_allowed_for_node node_id;
  if _incremental_metadata_enabled && allowed && jb_has_metadata_store job && CACHABLE node_class
     && _supports_early_metadata_cache_restore node_class
  then
    gathered ← _gather_parent_hashes_and_constants node_id node_class (nd_inputs node_data) _project_variables_map;
    let meta_cache_key := create_node_inputs_fingerprint node_class gathered.1 gathered.2 in
    restored ← _try_restore_node_meta_cache_and_skip node_id node_class meta_cache_key;
    mret (restored, Some meta_cache_key)
  else mret (false, None).

Definition _should_skip_output_node (node_class : NodeClass) : bool :=
  metadata_only && OUTPUT_NODE node_class.

(** ** Executing a node *)

(** [refresh_node_metadata] *)
Definition refresh_node_metadata (r : string * NodeMetadata * pydict PyValue) : P unit :=
  let '(node_id, metadata, outputs) := r in
  set_data id id (λ m, dset m node_id metadata) id ;;
  set_hashes node_id outputs ;;
  callback (jb_on_node_metadata job) (EvNodeMetadata node_id).

Definition execute_node (node_id : string) (kwargs : Kwargs) : P unit :=
  emit (EvExecute node_id) ;;
  ex ← ask (λ n, rt_execute n node_id kwargs (jb_mode job));
  for_each refresh_node_metadata (ex_refreshes ex) ;;
  lift (ex_outcome ex).

(** [dict(x or {})] of an attribute. *)
Definition as_dict (v : PyValue) : outcome py_exn (list (PyKey * PyValue)) :=
  match v with
  | VDict items => Ok items
  | VNone | VBool false | VStr "" | VList [] => Ok []
  | _ => Raise (TypeError "object is not iterable")
  end.

Definition vdict_set (items : list (PyKey * PyValue)) (k : PyKey) (v : PyValue) : list (PyKey * PyValue) :=
  if bool_decide (k ∈ items.*1) then (λ kv, if bool_decide (kv.1 = k) then (k, v) else kv) <$> items
  else items ++ [(k, v)].

Definition _build_runtime_error_outputs (node_id : string) (node_class : NodeClass) (message : string)
    : P (pydict PyValue) :=
  input_variables ← call (λ n, as_dict (rt_attribute n node_id IN_VARIABLES));
  existing ← ask (λ n, match rt_attribute n node_id OUT_VARIABLES with VDict items => items | _ => [] end);
  let merged := foldl (λ d kv, vdict_set d kv.1 kv.2) input_variables existing in
  let variable := VObj [("name", VStr DVT_ERROR_TEXT_VARIABLE_NAME); ("type", VStr "STRING");
                        ("value", VStr message); ("var_type", VStr "system")] "VariableOutput" in
  let error_output_variables := VDict (vdict_set merged (KStr DVT_ERROR_TEXT_VARIABLE_NAME) variable) in
  let outputs := (λ od, (od_attr_name od.2, VNone)) <$> output_definitions node_class in
  mret (dset (dset (dset outputs OUT_VARIABLES error_output_variables) OUT_SIGNAL (VBool false))
          OUT_ERROR_SIGNAL (VBool true)).

(** The loop over [output_definitions] that records a node's outputs. *)
Definition record_outputs (node_id : string) (node_class : NodeClass) (outputs : pydict PyValue) : P unit :=
  for_each (λ od,
    match dget outputs (od_attr_name od.2) with
    | None => raise (OtherException (od_attr_name od.2))  (* KeyError *)
    | Some v => set_data (λ o, dset2 o node_id (od_attr_name od.2) v)
                  (λ h, dset2 h node_id (od_attr_name od.2) (get_hash v)) id id
    end) (output_definitions node_class).

(** The handler of an exception that [execute] raised. *)
Definition handle_execution_error (node_id : string) (node_class : NodeClass) (e : py_exn) : P node_result :=
  cancelled ← (match e with NodeExecutionCancelled _ => _stop_requested | _ => mret false end : P bool);
  if cancelled : bool then mret (mkNodeResult true false false None)
  else
    let message := exn_str e in
    callback (jb_on_node_error job) (EvNodeError node_id message) ;;
    if _has_error_signal_downstream pipeline node_id then
      outputs ← _build_runtime_error_outputs node_id node_class message;
      _sync_node_signal_states node_id node_class outputs ;;
      record_outputs node_id node_class outputs ;;
      mark_failed node_id ;;
      mark_recoverable node_id ;;
      mark_completed node_id ;;
      mret (mkNodeResult false false false (Some message))
    else if metadata_only then
      mark_failed node_id ;;
      mark_skipped node_id ;;
      mret (mkNodeResult false false false (Some message))
    else
      mark_failed node_id ;;
      mret (mkNodeResult false true false (Some message)).

(** What follows a successful [execute]. *)
Definition finish_node (node_id : string) (node_class : NodeClass) (kwargs : Kwargs) (meta_cache_key : string)
    : P node_result :=
  outputs ← ask (λ n, rt_get_outputs n node_id kwargs);
  _sync_node_signal_states node_id node_class outputs ;;
  record_outputs node_id node_class outputs ;;
  resolved_metadata ← call (λ n, rt_resolve_metadata n node_id);
  callback (jb_on_node_metadata job) (EvNodeMetadata node_id) ;;
  when (CACHABLE node_class && jb_has_metadata_store job && negb (bool_decide (length resolved_metadata = 0)))
    (emit (EvStore meta_cache_key) ;;
     call (λ n, rt_store_put n meta_cache_key) ;;
     when (jb_has_metadata_index job) (call (λ n, rt_store_put n node_id))) ;;
  when (negb metadata_only && nc_is_df_output node_class) (call (λ n, rt_cache_snapshot n node_id)) ;;
  set_data id id (λ m, dset m node_id resolved_metadata) id ;;
  append_executed node_id ;;
  mark_completed node_id ;;
  stop ← _stop_requested;
  mret (mkNodeResult stop false false None).

(** The part of [_process_node] after the node was instantiated and validated. *)
Definition run_validated_node (node_id : string) (node_class : NodeClass) (node_data : NodeData)
    (node_kwargs : Kwargs) (early_meta_cache_key : option string) : P node_result :=
  gathered ← _gather_parent_hashes_and_constants node_id node_class (nd_inputs node_data)
               (_runtime_variables_map node_kwargs);
  own_key ← call (λ n, rt_metadata_cache_key n node_id);
  let meta_cache_key :=
    or_str own_key (or_str early_meta_cache_key
      (create_node_inputs_fingerprint node_class gathered.1 gathered.2)) in
  allowed ← _metadata_cache_allowed_for_node node_id;
  restored ←
    (if CACHABLE node_class && allowed && negb (bool_decide (is_Some early_meta_cache_key))
     then _try_restore_node_meta_cache_and_skip node_id node_class meta_cache_key else mret false);
  if restored : bool then
    callback (jb_on_node_metadata job) (EvNodeMetadata node_id) ;;
    mret r_none
  else
    executed ← catch (execute_node node_id node_kwargs ;; mret (inl ())) (λ e, mret (inr e));
    match executed with
    | inl _ => finish_node node_id node_class node_kwargs meta_cache_key
    | inr e => handle_execution_error node_id node_class e
    end.

Definition instantiate (node_id : string) (node_class : NodeClass) (node_data : NodeData) : P Kwargs :=
  st ← get_state;
  node_kwargs ← lift (build_node_kwargs node_id node_class node_data (ps_outputs st) _project_variables_map metadata_only);
  call (λ n, rt_instantiate n node_id node_kwargs) ;;
  mret node_kwargs.

(** [_process_node] from the instantiation of the node on. *)
Definition run_node (node_id : string) (node_class : NodeClass) (node_data : NodeData) : P node_result :=
  early ← _try_restore_node_meta_cache_before_instantiation node_id node_class node_data;
  if early.1 : bool then
    when (jb_on_node_metadata job)
      (instantiate node_id node_class node_data ;; callback true (EvNodeMetadata node_id)) ;;
    mret r_none
  else
    node_kwargs ← instantiate node_id node_class node_data;
    valid ← catch (call (λ n, rt_validate n node_id node_kwargs) ;; mret None)
              (λ e, match e with NodeValidationError m => mret (Some m) | _ => raise e end);
    match valid with
    | Some ve =>
        callback (jb_on_node_error job) (EvNodeError node_id ("Validation error: " +:+ ve)) ;;
        mark_skipped node_id ;;
        mark_failed node_id ;;
        mret (mkNodeResult false false false
                (Some ("Validation error for node " +:+ node_id +:+ " (" +:+ nc_name node_class +:+ "): " +:+ ve)))
    | None => run_validated_node node_id node_class node_data node_kwargs early.2
    end.

Definition _process_node (node_id : string) : P node_result :=
  st ← get_state;
  if bool_decide (node_id ∈ ps_completed st) then mret r_none
  else match dget pipeline node_id with
  | None => raise (OtherException node_id)  (* KeyError *)
  | Some node_data =>
      let inputs := nd_inputs node_data in
      if existsb (λ parent_id, bool_decide (parent_id ∈ ps_skipped st)) (gather_parent_ids node_data)
         || _should_skip_due_to_recoverable_parent_failure (ps_recoverable st) inputs
      then mark_skipped node_id ;; mret r_none
      else
        node_class ← get_node (nd_name node_data);
        if _should_skip_output_node node_class then mret r_none
        else if _has_inactive_required_signal st inputs then mark_skipped node_id ;; mret r_none
        else run_node node_id node_class node_data
  end.

(** ** The metadata variable prepass *)

Definition prepass_sources_of (node_id : string) (acc : list string) : P (list string) :=
  match dget pipeline node_id with
  | None => raise (OtherException node_id)
  | Some node_data =>
      node_class ← get_node (nd_name node_data);
      mret (if _should_skip_output_node node_class || negb (nc_metadata_variable_prepass node_class) then acc
            else remove_dups (acc ++ collect_variable_source_node_ids node_class node_data))
  end.

Definition _collect_metadata_variable_prepass_source_nodes : P (list string) :=
  if negb metadata_only then mret []
  else
    order ← effective_execution_order;
    fold_P prepass_sources_of order [].

(** [sorted(source_node_ids)] orders strings by code point. *)
Definition sorted_ids (ids : list string) : list string := merge_sort str_le ids.

Definition _prepare_metadata_variable_prepass_order : P (list string) :=
  sources ← _collect_metadata_variable_prepass_source_nodes;
  match sources with
  | [] => mret []
  | _ =>
      prepass_order ← lift (match topological_sort pipeline (Some (sorted_ids sources)) with
                            | Ok order => Ok order
                            | Raise e => Raise (graph_exn e)
                            end);
      order ← effective_execution_order;
      mret (filter (λ n, n ∈ order) prepass_order)
  end.

Fixpoint prepass_loop (order : list string) (first_error : option string) : P node_result :=
  match order with
  | [] => mret (mkNodeResult false false false first_error)
  | node_id :: order' =>
      r ← _process_node node_id;
      let first_error' := match first_error with Some m => Some m | None => nr_error_message r end in
      if nr_stop_requested r || nr_should_break r
      then mret (mkNodeResult (nr_stop_requested r) (nr_should_break r) (nr_task_error_reported r) first_error')
      else prepass_loop order' first_error'
  end.

Definition _run_metadata_variable_prepass : P node_result :=
  order ← _prepare_metadata_variable_prepass_order;
  match order with
  | [] => mret r_none
  | _ => prepass_loop order None
  end.

(** ** [process] *)

(** The local variables of [process]. *)
Record progress := mkProgress {
  pg_stopped : bool;
  pg_had_error : bool;
  pg_reported : bool;
  pg_first_error : option string;
}.

Definition note_error (first : option string) (message : option string) : option string :=
  match first, message with
  | None, Some m => if str_truthy m then Some m else None
  | _, _ => first
  end.

Fixpoint main_loop (order : list string) (pg : progress) : P progress :=
  match order with
  | [] => mret pg
  | node_id :: order' =>
      stop ← _stop_requested;
      if stop : bool then mret (mkProgress true (pg_had_error pg) (pg_reported pg) (pg_first_error pg))
      else
        r ← _process_node node_id;
        let pg' := mkProgress (pg_stopped pg || nr_stop_requested r)
                     (pg_had_error pg || bool_decide (is_Some (nr_error_message r))
                      || (negb (nr_stop_requested r) && nr_should_break r))
                     (pg_reported pg || nr_task_error_reported r)
                     (note_error (pg_first_error pg) (nr_error_message r)) in
        if nr_stop_requested r || nr_should_break r then mret pg' else main_loop order' pg'
  end.

Definition conclude (pg : progress) : P ProcessResult :=
  if pg_stopped pg then
    callback (jb_on_task_canceled job) (EvTask on_task_canceled) ;;
    mret (mkProcessResult false None)
  else if pg_had_error pg then
    let message := or_str (pg_first_error pg) "Task finished with errors." in
    callback (jb_on_task_error job && negb (pg_reported pg)) (EvTask (on_task_error message)) ;;
    mret (mkProcessResult false (Some message))
  else
    callback (jb_on_task_success job) (EvTask on_task_success) ;;
    mret (mkProcessResult true None).

(** The body of the second [try]: the nodes, from the prepass to the end of the loop; the
    preparations before; and the verdict. *)
Definition process_order : P progress :=
  r ← _run_metadata_variable_prepass;
  let pg := mkProgress (nr_stop_requested r)
              (bool_decide (is_Some (nr_error_message r)) || nr_should_break r)
              (nr_task_error_reported r) (note_error None (nr_error_message r)) in
  if negb (pg_stopped pg) && negb (nr_should_break r)
  then order ← effective_execution_order; main_loop order pg
  else mret pg.

Definition run_all_nodes : P progress :=
  callback (jb_on_task_running job) (EvTask on_task_running) ;;
  _prepare_cache_frontier ;;
  process_order.

Definition run_nodes : P ProcessResult := pg ← run_all_nodes; conclude pg.

Definition report_error (message result_message : string) : P ProcessResult :=
  callback (jb_on_task_error job) (EvTask (on_task_error message)) ;;
  mret (mkProcessResult false (Some result_message)).

(** The first [try]: a result when the order is empty or cannot be made. *)
Definition prepare_order : P (option ProcessResult) :=
  catch
    (order ← lift execution_order;
     match order with
     | [] => callback (jb_on_task_success job) (EvTask on_task_success) ;; mret (Some (mkProcessResult true None))
     | _ => mret None
     end)
    (λ e, r ← report_error (exn_str e) (exn_str e); mret (Some r)).

(** The second [try] with its handlers. *)
Definition guarded_run : P ProcessResult :=
  catch run_nodes (λ e,
    match e with
    | NodeInputError m => report_error m m
    | _ => report_error (exn_str e) ("Unexpected error: " +:+ exn_str e)
    end).

Definition process : P ProcessResult :=
  callback (jb_on_task_started job) (EvTask on_task_started) ;;
  prepared ← prepare_order;
  match prepared with
  | Some result => mret result
  | None => guarded_run
  end.

End Processor.
