(* ===== verification/ProcessorLog.v ===== *)
(** * Pipeline: what the processor's methods log

    A method of the processor appends events to the trace. [emits m Q] says which significant
    events (executions, completions, skips, failures and task callbacks) a method appends,
    together with its outcome, and that the processor's lists stay in step with the trace
    ([sync]). The rules below compose these specifications; [quiet] methods append no
    significant event. The file ends with the specification of [_process_node]. *)
From S2P Require Import Prelude TaskTypes PipelineTypes Graph NodeKwargs Processor.

Definition significant (e : event) : bool :=
  match e with
  | EvExecute _ | EvComplete _ | EvSkip _ | EvFail _ | EvTask _ => true
  | _ => false
  end.

Definition sigs (evs : list event) : list event := filter (λ e, significant e = true) evs.

Lemma sigs_app a b : sigs (a ++ b) = sigs a ++ sigs b.
Proof. apply filter_app. Qed.

Lemma elem_of_sigs e evs : significant e = true → e ∈ sigs evs ↔ e ∈ evs.
Proof. intros He. unfold sigs. rewrite list_elem_of_filter. tauto. Qed.

Lemma sigs_subset e evs : e ∈ sigs evs → e ∈ evs.
Proof. by intros [_ ?]%list_elem_of_filter. Qed.

(** The processor's lists record what the trace says. *)
Record sync (st : PState) : Prop := {
  sync_completed x : x ∈ ps_completed st ↔ EvComplete x ∈ ps_trace st;
  sync_skipped x : x ∈ ps_skipped st ↔ EvSkip x ∈ ps_trace st;
  sync_failed x : x ∈ ps_failed st ↔ EvFail x ∈ ps_trace st;
}.

Definition emits {A} (m : P A) (Q : outcome py_exn A → list event → Prop) : Prop :=
  ∀ st, sync st →
    sync (m st).2 ∧ ps_planned (m st).2 = ps_planned st ∧
    ∃ evs, ps_trace (m st).2 = ps_trace st ++ evs ∧ Q (m st).1 (sigs evs).

Definition quiet {A} (m : P A) : Prop := emits m (λ _ evs, evs = []).

Lemma P_bind_ret {A B} (a : A) (f : A → P B) st : ((mret a : P A) ≫= f) st = f a st.
Proof. done. Qed.

Lemma P_bind_ok {A B} (m : P A) (f : A → P B) st a st' : m st = (Ok a, st') → (m ≫= f) st = f a st'.
Proof. intros E. unfold mbind, P_bind. by rewrite E. Qed.

Lemma P_bind_raise {A B} (m : P A) (f : A → P B) st e st' : m st = (Raise e, st') → (m ≫= f) st = (Raise e, st').
Proof. intros E. unfold mbind, P_bind. by rewrite E. Qed.

Lemma P_bind_get_state {B} (f : PState → P B) st : (get_state ≫= f) st = f st st.
Proof. done. Qed.

(** ** Rules *)

Lemma emits_weaken {A} (m : P A) (Q Q' : outcome py_exn A → list event → Prop) :
  emits m Q → (∀ r evs, Q r evs → Q' r evs) → emits m Q'.
Proof.
  intros Hm HQ st Hst. destruct (Hm st Hst) as (H1 & H2 & evs & H3 & H4).
  split_and!; [done..|]. exists evs. auto.
Qed.

Lemma emits_bind_dep {A B} (m : P A) (f : A → P B) Q1 (Q : outcome py_exn B → list event → Prop) :
  emits m Q1 → (∀ e evs, Q1 (Raise e) evs → Q (Raise e) evs) →
  (∀ a e1, Q1 (Ok a) e1 → emits (f a) (λ r e2, Q r (e1 ++ e2))) →
  emits (m ≫= f) Q.
Proof.
  intros Hm Hraise Hf st Hst. destruct (Hm st Hst) as (H1 & H2 & evs & H3 & H4).
  unfold mbind, P_bind. destruct (m st) as [[a|e] st1]; cbn [fst snd] in *.
  - destruct (Hf a (sigs evs) H4 st1 H1) as (G1 & G2 & evs' & G3 & G4). split_and!; [done|congruence|].
    exists (evs ++ evs'). by rewrite G3, H3, app_assoc, sigs_app.
  - split_and!; [done..|]. exists evs. auto.
Qed.

Lemma emits_bind {A B} (m : P A) (f : A → P B) Q1 (Q2 : A → outcome py_exn B → list event → Prop) Q :
  emits m Q1 → (∀ a, emits (f a) (Q2 a)) →
  (∀ e evs, Q1 (Raise e) evs → Q (Raise e) evs) →
  (∀ a r e1 e2, Q1 (Ok a) e1 → Q2 a r e2 → Q r (e1 ++ e2)) →
  emits (m ≫= f) Q.
Proof.
  intros Hm Hf Hraise Hok. eapply emits_bind_dep; [exact Hm|exact Hraise|].
  intros a e1 H1. eapply emits_weaken; [apply Hf|]. eauto.
Qed.

Lemma emits_quiet_bind {A B} (m : P A) (f : A → P B) Q :
  quiet m → (∀ a, emits (f a) Q) → (∀ e, Q (Raise e) []) → emits (m ≫= f) Q.
Proof.
  intros Hm Hf HQ. eapply (emits_bind m f _ (λ _, Q)); [exact Hm|exact Hf| |].
  - intros e evs ->. auto.
  - by intros a r e1 e2 -> ?.
Qed.

(** A quiet call that cannot raise. *)
Lemma emits_total_bind {A B} (m : P A) (f : A → P B) Q :
  quiet m → (∀ st, is_ok (m st).1 = true) → (∀ a, emits (f a) Q) → emits (m ≫= f) Q.
Proof.
  intros Hm Ht Hf. eapply (emits_bind m f (λ r evs, is_ok r = true ∧ evs = []) (λ _, Q)); [|exact Hf| |].
  - intros st Hst. destruct (Hm st Hst) as (? & ? & evs & ? & ?). split_and!; [done..|]. exists evs. auto.
  - by intros e evs [? _].
  - by intros a r e1 e2 [_ ->] ?.
Qed.

Lemma emits_catch {A} (m : P A) (h : py_exn → P A) Q1 Q2 Q :
  emits m Q1 → (∀ e, emits (h e) (Q2 e)) →
  (∀ a evs, Q1 (Ok a) evs → Q (Ok a) evs) →
  (∀ e r e1 e2, Q1 (Raise e) e1 → Q2 e r e2 → Q r (e1 ++ e2)) →
  emits (catch m h) Q.
Proof.
  intros Hm Hh Hok Hraise st Hst. destruct (Hm st Hst) as (H1 & H2 & evs & H3 & H4).
  unfold catch. destruct (m st) as [[a|e] st1]; cbn [fst snd] in *.
  - split_and!; [done..|]. exists evs. auto.
  - destruct (Hh e st1 H1) as (G1 & G2 & evs' & G3 & G4). split_and!; [done|congruence|].
    exists (evs ++ evs'). rewrite G3, H3, app_assoc, sigs_app. eauto.
Qed.

Lemma emits_ret {A} (a : A) (Q : outcome py_exn A → list event → Prop) : Q (Ok a) [] → emits (mret a) Q.
Proof. intros HQ st Hst. split_and!; [done..|]. exists []. by rewrite app_nil_r. Qed.

Lemma emits_lift {A} (o : outcome py_exn A) (Q : outcome py_exn A → list event → Prop) : Q o [] → emits (lift o) Q.
Proof. intros HQ st Hst. split_and!; [done..|]. exists []. by rewrite app_nil_r. Qed.

Create HintDb quiet.

Lemma quiet_ret {A} (a : A) : quiet (mret a : P A).
Proof. by apply emits_ret. Qed.

Lemma quiet_lift {A} (o : outcome py_exn A) : quiet (lift o).
Proof. by apply emits_lift. Qed.

Lemma quiet_raise {A} e : quiet (raise e : P A).
Proof. apply (quiet_lift (Raise e)). Qed.

Lemma quiet_get_state : quiet get_state.
Proof. intros st Hst. split_and!; [done..|]. exists []. by rewrite app_nil_r. Qed.

Lemma quiet_bind {A B} (m : P A) (f : A → P B) : quiet m → (∀ a, quiet (f a)) → quiet (m ≫= f).
Proof. intros Hm Hf. by apply emits_quiet_bind. Qed.

(** An update that leaves the lists, the plan and the trace alone. *)
Lemma quiet_update (f : PState → PState) :
  (∀ st, ps_completed (f st) = ps_completed st ∧ ps_skipped (f st) = ps_skipped st ∧
         ps_failed (f st) = ps_failed st ∧ ps_planned (f st) = ps_planned st ∧ ps_trace (f st) = ps_trace st) →
  quiet (update f).
Proof.
  intros Hf st [H1 H2 H3]. destruct (Hf st) as (E1 & E2 & E3 & E4 & E5). cbn [update fst snd].
  split_and!; [|done|exists []; by rewrite app_nil_r].
  split; intros x; rewrite ?E1, ?E2, ?E3, E5; auto.
Qed.

Lemma quiet_ask {A} (f : nat → A) : quiet (ask f).
Proof.
  intros st [H1 H2 H3]. cbn. split_and!; [by split|done|]. exists []. by rewrite app_nil_r.
Qed.

Lemma quiet_call {A} (f : nat → outcome py_exn A) : quiet (call f).
Proof. apply quiet_bind; [apply quiet_ask|intros a; apply quiet_lift]. Qed.

Lemma quiet_set_data o h m s : quiet (set_data o h m s).
Proof. by apply quiet_update. Qed.

Lemma quiet_mark_recoverable x : quiet (mark_recoverable x).
Proof. by apply quiet_update. Qed.

Lemma quiet_append_executed x : quiet (append_executed x).
Proof. by apply quiet_update. Qed.

Lemma quiet_when b m : quiet m → quiet (when b m).
Proof. intros Hm. destruct b; [done|apply quiet_ret]. Qed.

Lemma quiet_for_each {A} (f : A → P unit) l : (∀ x, quiet (f x)) → quiet (for_each f l).
Proof. intros Hf. induction l as [|x l IH]; [apply quiet_ret|]. apply quiet_bind; auto. Qed.

Lemma quiet_fold_P {A B} (f : A → B → P B) l b : (∀ x b, quiet (f x b)) → quiet (fold_P f l b).
Proof. intros Hf. revert b; induction l as [|x l IH]; intros b; [apply quiet_ret|]. apply quiet_bind; auto. Qed.

Lemma quiet_catch {A} (m : P A) h : quiet m → (∀ e, quiet (h e)) → quiet (catch m h).
Proof.
  intros Hm Hh. eapply (emits_catch m h _ (λ _ _ evs, evs = [])); [exact Hm|exact Hh|by intros|].
  by intros e r e1 e2 -> ->.
Qed.

(** Appending one event to the trace. *)
Lemma emits_emit (ev : event) :
  (∀ x, ev ≠ EvComplete x ∧ ev ≠ EvSkip x ∧ ev ≠ EvFail x) →
  emits (emit ev) (λ r evs, r = Ok () ∧ evs = sigs [ev]).
Proof.
  intros Hev st [H1 H2 H3]. cbn. split_and!; [|done|by exists [ev]].
  split; intros x; cbn; destruct (Hev x) as (? & ? & ?); [rewrite H1|rewrite H2|rewrite H3];
    rewrite elem_of_app, list_elem_of_singleton; naive_solver.
Qed.

Lemma quiet_emit ev : significant ev = false → quiet (emit ev).
Proof.
  intros Hs. eapply emits_weaken; [apply emits_emit; intros x; by destruct ev|].
  intros r evs [_ ->]. unfold sigs. by rewrite filter_cons, Hs.
Qed.

Lemma elem_of_add_new x y l : x ∈ add_new y l ↔ x = y ∨ x ∈ l.
Proof. unfold add_new. case_bool_decide; set_solver. Qed.

Ltac mark_tac :=
  intros st [H1 H2 H3]; unfold mark_completed, mark_skipped, mark_failed, emit, update, mbind, P_bind; cbn; split_and!; [|done|by eexists];
  split; intros x; cbn; rewrite ?elem_of_add_new, ?H1, ?H2, ?H3, elem_of_app, list_elem_of_singleton;
  naive_solver.

Lemma emits_mark_completed n : emits (mark_completed n) (λ r evs, r = Ok () ∧ evs = [EvComplete n]).
Proof. mark_tac. Qed.

Lemma emits_mark_skipped n : emits (mark_skipped n) (λ r evs, r = Ok () ∧ evs = [EvSkip n]).
Proof. mark_tac. Qed.

Lemma emits_mark_failed n : emits (mark_failed n) (λ r evs, r = Ok () ∧ evs = [EvFail n]).
Proof. mark_tac. Qed.

#[export] Hint Resolve quiet_ret quiet_lift quiet_raise quiet_get_state quiet_ask quiet_call quiet_set_data
  quiet_mark_recoverable quiet_append_executed quiet_when quiet_for_each quiet_fold_P : quiet.
#[export] Hint Extern 1 (quiet (emit _)) => apply quiet_emit; reflexivity : quiet.

(** Walks through a method made of quiet calls. *)
Ltac quiet_tac :=
  repeat match goal with
  | |- quiet (_ ≫= _) => apply quiet_bind; [|intros ?]
  | |- quiet (when _ _) => apply quiet_when
  | |- quiet (for_each _ _) => apply quiet_for_each; intros ?
  | |- quiet (let '(_, _) := ?x in _) => destruct x
  | |- quiet (if ?b then _ else _) => destruct b
  | |- quiet (match ?x with _ => _ end) => destruct x
  | |- quiet _ => solve [eauto with quiet]
  end.

(** ** The methods *)

Section Methods.
Context {so : SetOrder} {ir : InputRuntime} {nr : NodeRuntime} (job : Job).

Lemma quiet_callback b ev : significant ev = false → quiet (callback b ev).
Proof.
  intros Hs. unfold callback. apply quiet_when, quiet_bind; [by apply quiet_emit|intros _; apply quiet_call].
Qed.

Lemma quiet_get_node name : quiet (get_node name).
Proof. unfold get_node. quiet_tac. Qed.

Lemma quiet_sync_signals n c o : quiet (_sync_node_signal_states n c o).
Proof. apply quiet_set_data. Qed.

Lemma quiet_set_hashes n o : quiet (set_hashes n o).
Proof. unfold set_hashes. quiet_tac. Qed.

Lemma quiet_affected : quiet (_get_affected_metadata_nodes job).
Proof. unfold _get_affected_metadata_nodes, search. quiet_tac. Qed.

Lemma quiet_cache_allowed n : quiet (_metadata_cache_allowed_for_node job n).
Proof.
  unfold _metadata_cache_allowed_for_node. destruct (negb _); [apply quiet_ret|].
  apply quiet_bind; [apply quiet_affected|intros a; apply quiet_ret].
Qed.

Lemma quiet_gather n c i v : quiet (_gather_parent_hashes_and_constants job n c i v).
Proof. unfold _gather_parent_hashes_and_constants. quiet_tac. Qed.

Lemma quiet_effective_order : quiet (effective_execution_order job).
Proof. unfold effective_execution_order. quiet_tac. Qed.

Lemma quiet_instantiate n c d : quiet (instantiate job n c d).
Proof. unfold instantiate. quiet_tac. Qed.

Lemma quiet_record_outputs n c o : quiet (record_outputs n c o).
Proof. unfold record_outputs. quiet_tac. Qed.

Lemma quiet_error_outputs n c m : quiet (_build_runtime_error_outputs n c m).
Proof. unfold _build_runtime_error_outputs. quiet_tac. Qed.

Lemma quiet_refresh r : quiet (refresh_node_metadata job r).
Proof.
  destruct r as [[n m] o]. unfold refresh_node_metadata.
  repeat (apply quiet_bind; [auto using quiet_set_hashes with quiet|intros _]). by apply quiet_callback.
Qed.

Hint Resolve quiet_get_node quiet_sync_signals quiet_set_hashes quiet_affected quiet_cache_allowed quiet_gather
  quiet_effective_order quiet_instantiate quiet_record_outputs quiet_error_outputs quiet_refresh : quiet.
Hint Extern 1 (quiet (callback _ _)) => apply quiet_callback; reflexivity : quiet.

(** Steps over a quiet call. *)
Ltac step_quiet := apply emits_quiet_bind; [solve [quiet_tac]|intros ?|].

(** Steps over a call that logs exactly one event and returns. *)
Lemma emits_then {A} (m : P unit) (k : P A) ev Q :
  emits m (λ r evs, r = Ok () ∧ evs = [ev]) → emits k (λ r evs, Q r (ev :: evs)) → emits (m ;; k) Q.
Proof.
  intros Hm Hk. eapply (emits_bind m (λ _, k) _ (λ _ r evs, Q r (ev :: evs))); [exact Hm|auto| |].
  - by intros e evs [? _].
  - by intros a r e1 e2 [_ ->] ?.
Qed.

Lemma restore_log n c key :
  emits (_try_restore_node_meta_cache_and_skip job n c key) (λ r evs,
    (r = Ok true ∧ evs = [EvComplete n]) ∨ (r ≠ Ok true ∧ evs = [])).
Proof.
  unfold _try_restore_node_meta_cache_and_skip. destruct (_ || _); [apply emits_ret; by right|].
  step_quiet; [|by right]. destruct a as [cached|]; [|apply emits_ret; by right].
  destruct (normalize_entry c cached) as [entry|]; [|apply emits_ret; by right].
  step_quiet; [|by right]. step_quiet; [|by right]. step_quiet; [|by right].
  eapply emits_then; [apply emits_mark_completed|]. apply emits_ret. by left.
Qed.

Lemma early_restore_log n c d :
  emits (_try_restore_node_meta_cache_before_instantiation job n c d) (λ r evs,
    (∃ k, r = Ok (true, k) ∧ evs = [EvComplete n]) ∨ ((∀ k, r ≠ Ok (true, k)) ∧ evs = [])).
Proof.
  unfold _try_restore_node_meta_cache_before_instantiation.
  step_quiet; [|by right]. destruct (_ && _); [|apply emits_ret; by right].
  step_quiet; [|by right]. cbv zeta.
  eapply (emits_bind _ _ _ (λ b r evs, r = Ok (b, _) ∧ evs = [])); [apply restore_log| | |].
  - intros b. by apply emits_ret.
  - intros e evs [[? _]|[_ ->]]; [done|]. by right.
  - intros b r e1 e2 [[E ->]|[Hne ->]] [-> ->]; [simplify_eq; left; by eexists|].
    right. split; [|done]. intros k Ek. by simplify_eq.
Qed.

(** ** A node's log *)

(** What a call of [run_node n] may append, with its outcome. *)
Inductive node_log (n : string) : outcome py_exn node_result → list event → Prop :=
  | nl_raised e : node_log n (Raise e) []
  | nl_restored_raised e : node_log n (Raise e) [EvComplete n]
  | nl_restored : node_log n (Ok r_none) [EvComplete n]
  | nl_invalid m : node_log n (Ok (mkNodeResult false false false (Some m))) [EvSkip n; EvFail n]
  | nl_executed_raised e : node_log n (Raise e) [EvExecute n]
  | nl_cancelled : node_log n (Ok (mkNodeResult true false false None)) [EvExecute n]
  | nl_done stop : node_log n (Ok (mkNodeResult stop false false None)) [EvExecute n; EvComplete n]
  | nl_recovered m : node_log n (Ok (mkNodeResult false false false (Some m)))
                       [EvExecute n; EvFail n; EvComplete n]
  | nl_failed_metadata m : metadata_only job = true →
      node_log n (Ok (mkNodeResult false false false (Some m))) [EvExecute n; EvFail n; EvSkip n]
  | nl_failed m : metadata_only job = false →
      node_log n (Ok (mkNodeResult false true false (Some m))) [EvExecute n; EvFail n].

Lemma execute_log n kwargs :
  emits (execute_node job n kwargs) (λ _ evs, evs = [EvExecute n]).
Proof.
  unfold execute_node. eapply (emits_then _ _ (EvExecute n)); [by apply emits_emit|].
  eapply (emits_weaken _ (λ _ evs, evs = [])); [|by intros r evs ->].
  apply quiet_bind; [apply quiet_ask|intros ex]. apply quiet_bind; [|intros _; apply quiet_lift].
  apply quiet_for_each. intros r. apply quiet_refresh.
Qed.

Lemma finish_log n c kwargs key :
  emits (finish_node job n c kwargs key) (λ r evs, node_log n r (EvExecute n :: evs)).
Proof.
  unfold finish_node. repeat (step_quiet; [|constructor]).
  eapply emits_then; [apply emits_mark_completed|].
  apply emits_total_bind; [apply quiet_ask|done|]. intros stop. apply emits_ret. constructor.
Qed.

Lemma handle_error_log n c e :
  emits (handle_execution_error job n c e) (λ r evs, node_log n r (EvExecute n :: evs)).
Proof.
  unfold handle_execution_error. step_quiet; [|constructor].
  { destruct a; [apply emits_ret; constructor|]. cbv zeta. step_quiet; [|constructor].
    destruct (_has_error_signal_downstream _ _).
    - repeat (step_quiet; [|constructor]).
      eapply emits_then; [apply emits_mark_failed|].
      apply emits_total_bind; [apply quiet_mark_recoverable|done|]. intros _.
      eapply emits_then; [apply emits_mark_completed|]. apply emits_ret. constructor.
    - destruct (metadata_only job) eqn:Em; (eapply emits_then; [apply emits_mark_failed|]).
      + eapply emits_then; [apply emits_mark_skipped|]. apply emits_ret. by constructor.
      + apply emits_ret. by constructor. }
Qed.

Lemma run_validated_log n c d kwargs key :
  emits (run_validated_node job n c d kwargs key) (node_log n).
Proof.
  unfold run_validated_node. step_quiet; [|constructor]. step_quiet; [|constructor]. cbv zeta.
  step_quiet; [|constructor].
  eapply (emits_bind _ _ (λ r evs, (r = Ok true ∧ evs = [EvComplete n]) ∨ (r ≠ Ok true ∧ evs = []))
    (λ b r evs, node_log n r (if b : bool then EvComplete n :: evs else evs))).
  - destruct (_ && _); [apply restore_log|apply emits_ret; by right].
  - intros [|].
    + step_quiet; [|constructor]. apply emits_ret. constructor.
    + eapply (emits_bind _ _ (λ r evs, is_ok r = true ∧ evs = [EvExecute n]) (λ _ r evs, node_log n r (EvExecute n :: evs))).
      * eapply (emits_catch _ _ (λ _ evs, evs = [EvExecute n]) (λ _ r evs, is_ok r = true ∧ evs = [])).
        -- eapply (emits_bind _ _ _ (λ _ _ evs, evs = [])); [apply execute_log|intros ?; by apply emits_ret|by intros|].
           by intros a2 r e1 e2 -> ->.
        -- intros e. by apply emits_ret.
        -- by intros.
        -- by intros e r e1 e2 -> [? ->].
      * intros [|e]; [apply finish_log|apply handle_error_log].
      * by intros e evs [? _].
      * by intros a2 r e1 e2 [_ ->] ?.
  - intros e evs [[? _]|[_ ->]]; [done|constructor].
  - intros b r e1 e2 [[? ->]|[Hne ->]] Hl; [by simplify_eq|]. destruct b; [done|exact Hl].
Qed.

Lemma run_node_log n c d : emits (run_node job n c d) (node_log n).
Proof.
  unfold run_node.
  eapply (emits_bind _ _ _ (λ b r evs, node_log n r (if b.1 : bool then EvComplete n :: evs else evs)));
    [apply early_restore_log| | |].
  - intros [[|] k]; cbn [fst snd].
    + step_quiet; [|constructor]. apply emits_ret. constructor.
    + step_quiet; [|constructor]. rename a into kwargs. apply emits_quiet_bind; [|intros valid|constructor].
      { apply quiet_catch; [quiet_tac|]. intros e. destruct e; quiet_tac. }
      destruct valid as [ve|]; [|apply run_validated_log]. step_quiet; [|constructor].
      eapply emits_then; [apply emits_mark_skipped|]. eapply emits_then; [apply emits_mark_failed|].
      apply emits_ret. constructor.
  - intros e evs [(k & ? & _)|[_ ->]]; [done|constructor].
  - intros [b k] r e1 e2 [(k' & ? & ->)|[Hne ->]] Hl; [by simplify_eq|].
    destruct b; [by destruct (Hne k)|exact Hl].
Qed.

(** ** [_process_node] *)

(** A node the policy leaves out of a metadata run. *)
Definition left_out (n : string) : bool :=
  match dget (pipeline job) n with
  | Some nd => from_option (_should_skip_output_node job) false (registry_get (nd_name nd))
  | None => false
  end.

(** What [_process_node n] appends when it starts in [st]. *)
Inductive process_log (n : string) (st : PState) : outcome py_exn node_result → list event → Prop :=
  | pl_completed : n ∈ ps_completed st → process_log n st (Ok r_none) []
  | pl_raised e : process_log n st (Raise e) []
  | pl_skipped : process_log n st (Ok r_none) [EvSkip n]
  | pl_left_out : left_out n = true → process_log n st (Ok r_none) []
  | pl_run r evs :
      n ∉ ps_completed st → left_out n = false → (∀ s, depends (pipeline job) s n → s ∉ ps_skipped st) →
      (∀ nd, dget (pipeline job) n = Some nd → _has_inactive_required_signal st (nd_inputs nd) = false) →
      node_log n r evs → process_log n st r evs.

Lemma process_node_log n st :
  sync st →
  let res := _process_node job n st in
  sync res.2 ∧ ps_planned res.2 = ps_planned st ∧
  ∃ evs, ps_trace res.2 = ps_trace st ++ evs ∧ process_log n st res.1 (sigs evs).
Proof.
  intros Hst. unfold _process_node.
  rewrite P_bind_get_state.
  case_bool_decide as Hc; [by apply (emits_ret (A := node_result) r_none (process_log n st)); [constructor|]|].
  destruct (dget (pipeline job) n) as [nd|] eqn:End;
    [|by apply (emits_lift (A := node_result) (Raise _) (process_log n st)); [constructor|]].
  cbv zeta. destruct (_ || _) eqn:Eskip.
  { revert st Hst Hc Eskip. intros st Hst _ _.
    eapply (emits_then (mark_skipped n) (mret r_none) (EvSkip n) (process_log n st));
      [apply emits_mark_skipped|apply emits_ret; constructor|done]. }
  apply orb_false_iff in Eskip as [Epar _]. unfold get_node.
  destruct (registry_get (nd_name nd)) as [c|] eqn:Ec; [|by apply (emits_lift (A := node_result) (Raise _) (process_log n st)); [constructor|]].
  rewrite P_bind_ret.
  destruct (_should_skip_output_node job c) eqn:Eo.
  { apply (emits_ret (A := node_result) r_none (process_log n st)); [|done]. apply pl_left_out.
    unfold left_out. by rewrite End, Ec. }
  destruct (_has_inactive_required_signal st (nd_inputs nd)) eqn:Es.
  { eapply (emits_then (mark_skipped n) (mret r_none) (EvSkip n) (process_log n st));
      [apply emits_mark_skipped|apply emits_ret; constructor|done]. }
  eapply (emits_weaken _ (node_log n)); [apply run_node_log| |done].
  intros r evs Hl. apply pl_run; [done| | | |done].
  - unfold left_out. by rewrite End, Ec.
  - intros s (_ & nd' & Hnd' & Hs) Hsk. simplify_eq. apply not_true_iff_false in Epar. apply Epar.
    apply existsb_exists. exists s. split; [apply list_elem_of_In, elem_of_remove_dups; done|by apply bool_decide_eq_true].
  - intros nd' Hnd'. by simplify_eq.
Qed.

End Methods.
