(* ===== verification/Frontier.v ===== *)
(** * Pipeline: the cache frontier

    Correctness of [_prepare_cache_frontier] ([src/pipeline/processor.py]): the recursion
    [require_node] terminates, what it restores may be restored, and the execution order it plans
    is closed under dependencies up to the restored nodes. *)
From S2P Require Import Prelude TaskTypes PipelineTypes Graph NodeKwargs Processor ProcessorLog.

Section Frontier.
Context {so : SetOrder} {ir : InputRuntime} {nr : NodeRuntime} (job : Job).
Context (p_wf : dwf (pipeline job)).
Context (affected fresh_paths : list string).

Local Abbreviation p := (pipeline job).

(** The node's snapshot may stand in for its execution. *)
Definition restorable (n : string) : Prop :=
  ∃ nd c, dget p n = Some nd ∧ registry_get (nd_name nd) = Some c ∧
          can_restore affected fresh_paths n nd c = true.

(** An exception that comes from outside: an unknown node class or a failing cache. *)
Definition external (e : py_exn) : Prop :=
  (∃ n nd, (n, nd) ∈ p ∧ registry_get (nd_name nd) = None) ∨ (∃ k n, rt_restore_snapshot k n = Raise e).

(** Visiting the nodes [l] takes [fr] to [fr'] and logs [evs]. *)
Record visits (l : list string) (fr fr' : frontier) (evs : list event) : Prop := {
  vi_visited x : x ∈ fr_visited fr → x ∈ fr_visited fr';
  vi_required x : x ∈ fr_required fr → x ∈ fr_required fr';
  vi_all n : n ∈ l → n ∈ dkeys p → n ∈ fr_visited fr';
  vi_kept x : x ∈ fr_visited fr' → x ∈ fr_visited fr ∨ x ∈ fr_required fr' ∨ EvComplete x ∈ evs;
  vi_closed x s : x ∈ fr_required fr' → x ∈ fr_required fr ∨ (x ∈ dkeys p ∧ (depends p s x → s ∈ fr_visited fr'));
}.

Definition frontier_log (l : list string) (fr : frontier) (r : outcome py_exn frontier) (evs : list event) : Prop :=
  (∀ e, e ∈ evs → ∃ n, e = EvComplete n ∧ restorable n) ∧
  match r with
  | Ok fr' => visits l fr fr' evs
  | Raise e => external e
  end.

Definition unvisited (fr : frontier) : nat := length (filter (λ n, n ∉ fr_visited fr) (dkeys p)).

Lemma unvisited_mono fr fr' :
  (∀ x, x ∈ fr_visited fr → x ∈ fr_visited fr') → unvisited fr' ≤ unvisited fr.
Proof.
  intros H. unfold unvisited. induction (dkeys p) as [|x l IH]; [done|]. rewrite !filter_cons.
  destruct (decide (x ∉ fr_visited fr)) as [?|Hx]; [destruct (decide (x ∉ fr_visited fr')); simpl; lia|].
  rewrite decide_False; [done|]. intros Hn. apply Hn, H. by destruct (decide (x ∈ fr_visited fr)).
Qed.

Lemma unvisited_visit fr n :
  n ∈ dkeys p → n ∉ fr_visited fr →
  unvisited fr = S (unvisited (mkFrontier (fr_visited fr ++ [n]) (fr_required fr))).
Proof.
  intros Hn Hv. unfold unvisited. cbn [fr_visited].
  apply (length_filter_remove _ _ _ n); [done|done|done|set_solver|]. intros y _ Hne. set_solver.
Qed.

Lemma visits_trans l1 l2 fr1 fr2 fr3 e1 e2 :
  visits l1 fr1 fr2 e1 → visits l2 fr2 fr3 e2 → visits (l1 ++ l2) fr1 fr3 (e1 ++ e2).
Proof.
  intros [V1 R1 A1 K1 C1] [V2 R2 A2 K2 C2]. split; [auto|auto| | |].
  - intros n [?|?]%elem_of_app ?; auto.
  - intros x Hx. destruct (K2 x Hx) as [[?|[?|?]]%K1|[?|?]]; set_solver.
  - intros x s Hx. destruct (C2 x s Hx) as [Hx2|?]; [|by right]. destruct (C1 x s Hx2) as [?|[? Hs]]; [by left|].
    right. split; [done|]. auto.
Qed.

Lemma visits_refl fr : visits [] fr fr [].
Proof. split; [done|done|by intros n ?%not_elem_of_nil|by left|by left]. Qed.

(** A loop over nodes composes the visits. *)
Lemma fold_visits (f : string → frontier → P frontier) bound l :
  (∀ n fr, unvisited fr < bound → emits (f n fr) (frontier_log [n] fr)) →
  ∀ fr, unvisited fr < bound → emits (fold_P f l fr) (frontier_log l fr).
Proof.
  intros Hf. induction l as [|n l IH]; intros fr Hb.
  - apply emits_ret. split; [by intros e ?%not_elem_of_nil|apply visits_refl].
  - cbn [fold_P]. eapply emits_bind_dep; [by apply Hf| |].
    + intros e evs [He Hx]. split; [done|exact Hx].
    + intros fr' e1 [He1 Hv].
      assert (unvisited fr' < bound) as Hb' by (pose proof (unvisited_mono fr fr' (vi_visited _ _ _ _ Hv)); lia).
      eapply emits_weaken; [by apply IH|]. intros r e2 [He2 Hr]. split.
      * intros e [?|?]%elem_of_app; auto.
      * destruct r as [fr''|e]; [|done]. by apply (visits_trans [n] l fr fr' fr'').
Qed.

Lemma apply_restored_log n c entry :
  emits (_apply_restored_entry n c entry) (λ r evs, r = Ok () ∧ evs = [EvComplete n]).
Proof.
  unfold _apply_restored_entry.
  apply emits_total_bind; [apply quiet_set_data|done|intros _].
  apply emits_total_bind; [apply quiet_set_data|done|intros _].
  apply emits_total_bind; [apply quiet_set_hashes| |intros _].
  { intros st. unfold set_hashes. revert st. induction (me_outputs entry) as [|o l IH]; intros st; [done|].
    cbn [for_each]. apply IH. }
  eapply emits_then; [apply emits_mark_completed|].
  eapply (emits_weaken _ (λ r evs, r = Ok () ∧ evs = [])).
  - intros st [H1 H2 H3]. unfold append_restored, emit, update, mbind, P_bind. cbn.
    split_and!; [|done|by exists [EvRestore n]].
    split; intros x; cbn; [rewrite H1|rewrite H2|rewrite H3]; rewrite elem_of_app, list_elem_of_singleton; naive_solver.
  - by intros r evs [-> ->].
Qed.

(** The body of [require_node] after the cache was asked. *)
Lemma visit_restored n c nd entry fr :
  dget p n = Some nd → registry_get (nd_name nd) = Some c → can_restore affected fresh_paths n nd c = true →
  emits (_apply_restored_entry n c entry ;; mret (mkFrontier (fr_visited fr ++ [n]) (fr_required fr)))
    (frontier_log [n] fr).
Proof.
  intros Hn Hc Hr. eapply emits_then; [apply apply_restored_log|]. apply emits_ret. split.
  - intros e ->%list_elem_of_singleton. exists n. split; [done|]. by exists nd, c.
  - split; cbn [fr_visited fr_required]; [set_solver|done|set_solver| |by left].
    intros x [?|Hx]%elem_of_app; [by left|]. apply list_elem_of_singleton in Hx as ->. right. right. left.
Qed.

Lemma visit_required n nd fr evs fr' :
  dget p n = Some nd →
  visits (set_iter (gather_parent_ids nd)) (mkFrontier (fr_visited fr ++ [n]) (add_new n (fr_required fr))) fr' evs →
  visits [n] fr fr' evs.
Proof.
  intros Hn [V R A K C]. cbn [fr_visited fr_required] in *. split.
  - set_solver.
  - intros x Hx. apply R, elem_of_add_new. by right.
  - intros x ->%list_elem_of_singleton _. apply V. set_solver.
  - intros x Hx. destruct (K x Hx) as [[?|Hxn]%elem_of_app|?]; [by left| |by right].
    apply list_elem_of_singleton in Hxn as ->. right. left. apply R, elem_of_add_new. by left.
  - intros x s Hx. destruct (C x s Hx) as [[->|?]%elem_of_add_new|?]; [|by left|by right].
    right. split; [apply dget_is_Some; eauto|]. intros (Hs & nd' & Hnd' & Hin). simplify_eq.
    apply A; [|done]. rewrite set_iter_perm. by apply elem_of_remove_dups.
Qed.

Lemma require_node_log fuel : ∀ n fr, unvisited fr < fuel →
  emits (require_node job fuel affected fresh_paths n fr) (frontier_log [n] fr).
Proof.
  induction fuel as [|fuel IH]; intros n fr Hb; [lia|]. cbn [require_node].
  case_bool_decide as Hv.
  { apply emits_ret. split; [by intros e ?%not_elem_of_nil|]. split; [done|done|set_solver|by left|by left]. }
  destruct (dget p n) as [nd|] eqn:Hn.
  2:{ apply emits_ret. split; [by intros e ?%not_elem_of_nil|]. split; [done|done| |by left|by left].
      intros x ->%list_elem_of_singleton Hx. apply dget_is_Some in Hx as [? ?]. congruence. }
  cbv zeta. cbn [fr_visited fr_required]. unfold get_node. destruct (registry_get (nd_name nd)) as [c|] eqn:Hc.
  2:{ apply (emits_lift (A := frontier) (Raise _)). split; [by intros e ?%not_elem_of_nil|]. left. exists n, nd.
      split; [by apply dget_elem_of|done]. }
  eapply (emits_bind_dep (mret c) _ (λ r evs, r = Ok c ∧ evs = [])); [by apply emits_ret|by intros ? ? [? _]|].
  intros c0 e1 [E ->]. injection E as ->. cbn [app].
  eapply (emits_bind_dep _ _ (λ r evs, evs = [] ∧ match r with
     | Ok (Some _) => can_restore affected fresh_paths n nd c = true
     | Ok None => True | Raise e => ∃ k n, rt_restore_snapshot k n = Raise e end)).
  - destruct (can_restore affected fresh_paths n nd c) eqn:Ec; [|by apply emits_ret].
    intros st Hst. cbn. split_and!; [by destruct Hst; split|done|]. exists []. rewrite app_nil_r. split_and!; [done..|].
    change ((call (λ k, rt_restore_snapshot k n) st).1) with (rt_restore_snapshot (ps_step st) n).
    destruct (rt_restore_snapshot (ps_step st) n) as [[?|]|e] eqn:Er; by eauto.
  - intros e evs [-> He]. split; [by intros e' ?%not_elem_of_nil|]. by right.
  - intros [entry|] e1 [-> Hr]; cbn [app]; [by apply (visit_restored n c nd)|].
    assert (n ∈ dkeys p) as Hk by (apply dget_is_Some; eauto).
    pose proof (unvisited_visit fr n Hk Hv) as Hu.
    eapply emits_weaken; [apply (fold_visits _ fuel); [exact IH|]; unfold unvisited in *; cbn [fr_visited] in *; lia|].
    intros r evs [He Hfr]. split; [done|]. destruct r; [by eapply visit_required|done].
Qed.

End Frontier.

Section Plan.
Context {so : SetOrder} {ir : InputRuntime} {nr : NodeRuntime} (job : Job).
Context (p_wf : dwf (pipeline job)).

Local Abbreviation p := (pipeline job).

(** The class of a node of the pipeline. *)
Definition class_of (n : string) : option NodeClass :=
  nd ← dget p n; registry_get (nd_name nd).

(** A node whose stored result may be used in this run: nothing it depends on has changed or must
    be executed afresh, it is kept in the store, and it has no effect outside. *)
Definition reusable (n : string) : Prop :=
  (∀ x, x ∈ jb_changed_node_ids job → x ∈ dkeys p → ¬ rtc (depends p) x n) ∧
  (∀ x c, class_of x = Some c → REQUIRES_FRESH_EXECUTION c = true → ¬ rtc (depends p) x n) ∧
  ∃ nd c, dget p n = Some nd ∧ class_of n = Some c ∧ nd_store_enabled nd = true ∧ OUTPUT_NODE c = false.

Lemma fresh_nodes_result (q : Pipeline) st :
  (∃ n nd, (n, nd) ∈ q ∧ registry_get (nd_name nd) = None ∧ ∃ e, fresh_nodes q st = (Raise e, st)) ∨
  (∃ l, fresh_nodes q st = (Ok l, st) ∧
        ∀ x, x ∈ l ↔ ∃ nd c, (x, nd) ∈ q ∧ registry_get (nd_name nd) = Some c ∧ REQUIRES_FRESH_EXECUTION c = true).
Proof.
  induction q as [|[n nd] q IH].
  - right. exists []. split; [done|]. intros x. split; [by intros ?%not_elem_of_nil|].
    by intros (? & ? & ?%not_elem_of_nil & _).
  - cbn [fresh_nodes]. unfold get_node. destruct (registry_get (nd_name nd)) as [c|] eqn:Ec.
    + rewrite P_bind_ret. destruct IH as [(n' & nd' & Hin & Hr & e & He)|(l & Hl & Hin)].
      * left. exists n', nd'. split_and!; [by right|done|]. exists e. by apply P_bind_raise.
      * right. exists (if REQUIRES_FRESH_EXECUTION c then n :: l else l). split; [by rewrite (P_bind_ok _ _ _ _ _ Hl)|].
        intros x. destruct (REQUIRES_FRESH_EXECUTION c) eqn:Ef; rewrite ?elem_of_cons, Hin; split.
        -- intros [->|(nd' & c' & ? & ?)]; [exists nd, c; split; [left|done]|]. exists nd', c'. by split; [right|].
        -- intros (nd' & c' & [E|?]%elem_of_cons & ?); [left; congruence|right; by exists nd', c'].
        -- intros (nd' & c' & ? & ?). exists nd', c'. by split; [right|].
        -- intros (nd' & c' & [E|?]%elem_of_cons & ? & ?); [simplify_eq; congruence|by exists nd', c'].
    + left. exists n, nd. split_and!; [left|done|]. by eexists.
Qed.

Lemma execution_target_ids_result order st :
  execution_order job = Ok order →
  ∃ targets, _execution_target_ids job st = (Ok targets, st) ∧ (∀ t, t ∈ targets → t ∈ order) ∧
             ∀ t, t ∈ default [] (jb_target_nodes job) → t ∈ order → t ∈ targets.
Proof.
  intros Ho. unfold _execution_target_ids. rewrite Ho, (P_bind_ok _ _ st order st) by done. cbv beta zeta.
  destruct (filter (λ n, n ∈ order) (default [] (jb_target_nodes job))) as [|t0 ts] eqn:E.
  - eexists. split; [reflexivity|]. split; [by intros t [_ ?]%list_elem_of_filter|].
    intros t Ht Hin. destruct (not_elem_of_nil t). rewrite <-E. by apply list_elem_of_filter.
  - exists (t0 :: ts). split; [reflexivity|]. rewrite <-E. split; [by intros t [? _]%list_elem_of_filter|].
    intros t Ht Hin. by apply list_elem_of_filter.
Qed.

(** The plan made when the cache may be used. *)
Record good_plan (order plan : list string) (st : PState) : Prop := {
  gp_sublist : plan `sublist_of` order;
  gp_targets t : t ∈ default [] (jb_target_nodes job) → t ∈ order → t ∈ plan ∨ t ∈ ps_completed st;
  gp_closed x s : x ∈ plan → depends p s x → s ∈ plan ∨ s ∈ ps_completed st;
}.

Definition frontier_outcome (st : PState) (r : outcome py_exn unit) (st' : PState) : Prop :=
  match r with
  | Ok _ =>
      if _cache_frontier_enabled job then
        ∃ order plan, execution_order job = Ok order ∧ ps_planned st' = Some plan ∧ good_plan order plan st'
      else ps_planned st' = ps_planned st
  | Raise e => execution_order job = Raise e ∨ external job e
  end.

(** The recursion over the targets, started with nothing visited. *)
Lemma targets_log affected fresh_paths targets :
  emits (fold_P (require_node job (S (length p)) affected fresh_paths) targets (mkFrontier [] []))
    (frontier_log job affected fresh_paths targets (mkFrontier [] [])).
Proof.
  apply (fold_visits job p_wf affected fresh_paths _ (S (length p))); [apply (require_node_log job p_wf)|].
  unfold unvisited. pose proof (length_filter (λ n, n ∉ fr_visited (mkFrontier [] [])) (dkeys p)).
  unfold dkeys in *. rewrite length_fmap in *. lia.
Qed.

(** What the searches exclude from being restored. *)
Lemma restorable_reusable changed_reach fresh fresh_reach n :
  find_all_dependents p (jb_changed_node_ids job) = Some changed_reach →
  (∀ x, x ∈ fresh ↔ ∃ nd c, (x, nd) ∈ p ∧ registry_get (nd_name nd) = Some c ∧ REQUIRES_FRESH_EXECUTION c = true) →
  find_all_dependents p fresh = Some fresh_reach →
  restorable job changed_reach fresh_reach n → reusable n.
Proof.
  intros H1 Hf H2 (nd & c & Hn & Hc & Hcan). unfold can_restore in Hcan.
  rewrite !andb_true_iff, !bool_decide_eq_true, negb_true_iff in Hcan. destruct Hcan as ((((Ha & Hfr) & Hs) & _) & Ho).
  destruct (find_all_dependents_spec p p_wf (jb_changed_node_ids job)) as (V & E & _ & HV).
  rewrite H1 in E. injection E as <-.
  destruct (find_all_dependents_spec p p_wf fresh) as (W & E & _ & HW). rewrite H2 in E. injection E as <-.
  split_and!.
  - intros x Hx Hk Hr. apply Ha, HV. by exists x.
  - intros x c' Hc' Hfx Hr. apply Hfr, HW. unfold class_of in Hc'. destruct (dget p x) as [nd'|] eqn:Hx; [|done].
    exists x. split_and!; [|apply dget_is_Some; eauto|done]. apply Hf. exists nd', c'. split_and!; [by apply dget_elem_of|done..].
  - exists nd, c. unfold class_of. rewrite Hn. by split_and!.
Qed.

Lemma plan_is_good order targets fr evs st :
  execution_order job = Ok order → sync st →
  (∀ x, EvComplete x ∈ evs → EvComplete x ∈ ps_trace st) →
  (∀ t, t ∈ targets → t ∈ order) → (∀ t, t ∈ default [] (jb_target_nodes job) → t ∈ order → t ∈ targets) →
  visits job targets (mkFrontier [] []) fr evs →
  good_plan order (filter (λ n, n ∈ fr_required fr) order) st.
Proof.
  intros Ho Hst Hevs Ht1 Ht2 [V R A K C]. cbn [fr_visited fr_required] in *.
  pose proof (topological_sort_result p p_wf (jb_target_nodes job)) as Hs. cbv zeta in Hs.
  unfold execution_order in Ho. destruct (topological_sort p (jb_target_nodes job)) as [order'|e]; [|done].
  injection Ho as ->. destruct Hs as (_ & _ & [Hnd Hel Hbef]).
  assert (∀ x, x ∈ order → x ∈ fr_visited fr → x ∈ filter (λ n, n ∈ fr_required fr) order ∨ x ∈ ps_completed st) as Hv.
  { intros x Hx Hv. destruct (K x Hv) as [?%not_elem_of_nil|[?|Hc]]; [done|left; by apply list_elem_of_filter|].
    right. by apply (sync_completed st Hst), Hevs. }
  split.
  - apply sublist_filter.
  - intros t Ht Hin. apply Hv; [done|]. apply A; [auto|]. by apply Hel in Hin as [? _].
  - intros x s [Hx Hxo]%list_elem_of_filter Hd. destruct (C x s Hx) as [?%not_elem_of_nil|[_ Hs]]; [done|].
    apply Hv; [|auto]. apply list_elem_of_split in Hxo as (l1 & l2 & El). rewrite El.
    apply elem_of_app. left. by eapply Hbef.
Qed.

Lemma frontier_log_result st :
  sync st →
  let res := _prepare_cache_frontier job st in
  sync res.2 ∧ frontier_outcome st res.1 res.2 ∧
  ∃ evs, ps_trace res.2 = ps_trace st ++ evs ∧ ∀ e, e ∈ sigs evs → ∃ n, e = EvComplete n ∧ reusable n.
Proof.
  intros Hst. unfold _prepare_cache_frontier, frontier_outcome.
  assert (∃ evs, ps_trace st = ps_trace st ++ evs ∧ ∀ e, e ∈ sigs evs → ∃ n, e = EvComplete n ∧ reusable n) as Hnil.
  { exists []. rewrite app_nil_r. split; [done|]. by intros e ?%not_elem_of_nil. }
  destruct (_cache_frontier_enabled job); cbn [negb]; [|by split_and!].
  destruct (find_all_dependents_spec p p_wf (jb_changed_node_ids job)) as (V & EV & _).
  unfold _get_affected_metadata_nodes. rewrite EV. cbn [search]. rewrite P_bind_ret.
  destruct (fresh_nodes_result p st) as [(n & nd & Hin & Hr & e & He)|(fresh & Hf & Hfresh)].
  { rewrite (P_bind_raise _ _ _ _ _ He). split_and!; [done| |done]. right. left. by exists n, nd. }
  rewrite (P_bind_ok _ _ _ _ _ Hf).
  destruct (find_all_dependents_spec p p_wf fresh) as (W & EW & _). rewrite EW. cbn [search]. rewrite P_bind_ret.
  destruct (execution_order job) as [order|e] eqn:Eo.
  2:{ rewrite (P_bind_raise _ _ st e st); [cbn [fst snd]; split_and!; [done|by left|done]|]. unfold _execution_target_ids. rewrite Eo. done. }
  destruct (execution_target_ids_result order st Eo) as (targets & Ht & Ht1 & Ht2). rewrite (P_bind_ok _ _ _ _ _ Ht).
  destruct (targets_log V W targets st Hst) as (Hs1 & Hp1 & evs & Htr & Hev & Hvis).
  destruct (fold_P _ targets _ st) as [[fr|e] st1] eqn:Efold; cbn [fst snd] in *.
  - rewrite (P_bind_ok _ _ _ _ _ Efold). rewrite (P_bind_ok (lift (Ok order)) _ st1 order st1) by done. cbn.
    split_and!; [by destruct Hs1; split| |].
    + exists order, (filter (λ n, n ∈ fr_required fr) order). split_and!; [done..|].
      apply (plan_is_good order targets fr (sigs evs)); [done|by destruct Hs1; split| |done..].
      cbn. intros x Hx. rewrite Htr. apply elem_of_app. right. by apply (elem_of_sigs (EvComplete x)).
    + exists evs. split; [done|]. intros e He. destruct (Hev e He) as (n & -> & Hn). exists n. split; [done|].
      by eapply restorable_reusable.
  - rewrite (P_bind_raise _ _ _ _ _ Efold). split_and!; [done|by right|]. exists evs. split; [done|].
    intros e' He. destruct (Hev e' He) as (n & -> & Hn). exists n. split; [done|]. by eapply restorable_reusable.
Qed.

(** C26: planning a run from the cache. When the node classes are registered and the cache answers,
    [_prepare_cache_frontier] terminates with an execution order that keeps the order of the sort,
    contains or has restored every target, and contains or has restored everything a planned node
    depends on. A node is only restored when no changed node and no node that must run afresh
    leads to it, its results are stored, and it is not an output node. *)
Theorem cache_frontier_is_sound order :
  _cache_frontier_enabled job = true → execution_order job = Ok order →
  (∀ n nd, (n, nd) ∈ p → is_Some (registry_get (nd_name nd))) →
  (∀ k n, is_ok (rt_restore_snapshot k n) = true) →
  ∃ st plan, _prepare_cache_frontier job initial_state = (Ok (), st) ∧ ps_planned st = Some plan ∧
    plan `sublist_of` order ∧
    (∀ t, t ∈ default [] (jb_target_nodes job) → t ∈ order → t ∈ plan ∨ t ∈ ps_completed st) ∧
    (∀ x s, x ∈ plan → depends p s x → s ∈ plan ∨ s ∈ ps_completed st) ∧
    (∀ x, x ∈ ps_completed st → reusable x).
Proof.
  intros Hen Ho Hreg Hrest.
  assert (sync initial_state) as Hs0 by (split; intros x; cbn; by split; intros ?%not_elem_of_nil).
  destruct (frontier_log_result initial_state Hs0) as (Hs & Hout & evs & Htr & Hevs). unfold frontier_outcome in Hout.
  destruct (_prepare_cache_frontier job initial_state) as [[[]|e] st]; cbn [fst snd] in *.
  - rewrite Hen, Ho in Hout. destruct Hout as (order' & plan & E & Hp & [G1 G2 G3]). injection E as <-.
    exists st, plan. split_and!; [done..|]. intros x Hx. apply (sync_completed st Hs) in Hx. rewrite Htr in Hx.
    cbn in Hx. apply (elem_of_sigs (EvComplete x)), Hevs in Hx as (n & E & Hn); [|done]. by injection E as ->.
  - exfalso. destruct Hout as [?|[(n & nd & Hin & Hr)|(k & n & Hr)]]; [congruence| |].
    + destruct (Hreg n nd Hin) as [? ?]. congruence.
    + specialize (Hrest k n). by rewrite Hr in Hrest.
Qed.

End Plan.
