(* ===== verification/ProcessorSpec.v ===== *)
(** * Pipeline: correctness of a run

    The properties of [PipelineProcessor.process]: executions respect the dependencies of the
    pipeline, a metadata run leaves output nodes alone, a successful run has dealt with every
    node, and the task callbacks report exactly one outcome. *)
From S2P Require Import Prelude TaskTypes PipelineTypes Graph NodeKwargs Processor ProcessorLog Frontier.

Section Run.
Context {so : SetOrder} {ir : InputRuntime} {nr : NodeRuntime} (job : Job).
Context (p_wf : dwf (pipeline job)).

Local Abbreviation p := (pipeline job).

(** The run is done with a node: it was completed (executed, restored, or failed with an error
    signal), skipped, or is left out by policy. *)
Definition handled (tr : list event) (x : string) : Prop :=
  EvComplete x ∈ tr ∨ EvSkip x ∈ tr ∨ left_out job x = true.

(** When a node may be executed, in terms of what happened before. *)
Record exec_ok (x : string) (before : list event) : Prop := {
  eo_not_left_out : left_out job x = false;
  eo_not_completed : EvComplete x ∉ before;
  eo_parents s : depends p s x → (EvSkip s ∉ before) ∧ (EvComplete s ∈ before ∨ left_out job s = true);
  eo_once : metadata_only job = false → EvExecute x ∉ before;
}.

Definition trace_ok (tr : list event) : Prop :=
  ∀ t1 x t2, tr = t1 ++ EvExecute x :: t2 → exec_ok x t1.

Lemma elem_of_quiet_app e tr k : significant e = true → sigs k = [] → e ∈ tr ++ k ↔ e ∈ tr.
Proof.
  intros He Hk. rewrite elem_of_app, <-(elem_of_sigs e k) by done. rewrite Hk.
  split; [intros [?|?%not_elem_of_nil]; done|by left].
Qed.

(** [exec_ok] depends on significant events only. *)
Lemma exec_ok_quiet x tr k : sigs k = [] → exec_ok x tr → exec_ok x (tr ++ k).
Proof.
  intros Hk [H1 H2 H3 H4]. split; [done| | |].
  - by rewrite elem_of_quiet_app.
  - intros s Hs. rewrite !elem_of_quiet_app by done. auto.
  - intros Hm. rewrite elem_of_quiet_app by done. auto.
Qed.

Lemma trace_ok_extend tr evs x :
  trace_ok tr → (∀ t1 y t2, sigs evs = t1 ++ EvExecute y :: t2 → t1 = [] ∧ y = x) →
  (EvExecute x ∈ evs → exec_ok x tr) → trace_ok (tr ++ evs).
Proof.
  intros Htr Hhead Hok t1 y t2 E. apply app_eq_inv in E as [(k & -> & E)|(k & E1 & E)].
  - destruct k as [|e k]; simpl in E.
    + rewrite app_nil_r in Hok. specialize (Hhead [] y (sigs t2)). destruct Hhead as [_ ->]; [by rewrite <-E|].
      apply Hok. rewrite <-E. left.
    + injection E as <- E. by eapply (Htr t1 y k).
  - rewrite E1. destruct (Hhead (sigs k) y (sigs t2)) as [Hk ->]; [by rewrite E, sigs_app|].
    apply exec_ok_quiet; [done|]. apply Hok. rewrite E. set_solver.
Qed.

(** The events of one node. *)
Definition about (n : string) (e : event) : Prop :=
  e = EvExecute n ∨ e = EvComplete n ∨ e = EvSkip n ∨ e = EvFail n.

Definition proceeds (r : outcome py_exn node_result) : bool :=
  match r with
  | Ok r => negb (nr_stop_requested r || nr_should_break r)
  | Raise _ => false
  end.

(** What the callers of [_process_node] rely on. *)
Record node_step (n : string) (st : PState) (r : outcome py_exn node_result) (evs : list event) : Prop := {
  ns_about e : e ∈ evs → about n e;
  ns_head t1 y t2 : evs = t1 ++ EvExecute y :: t2 → t1 = [] ∧ y = n;
  ns_exec : EvExecute n ∈ evs →
    left_out job n = false ∧ (n ∉ ps_completed st) ∧ ∀ s, depends p s n → s ∉ ps_skipped st;
  ns_handled : proceeds r = true →
    n ∈ ps_completed st ∨ EvComplete n ∈ evs ∨ EvSkip n ∈ evs ∨ left_out job n = true;
  ns_fail : EvFail n ∈ evs → ∃ r', r = Ok r' ∧ is_Some (nr_error_message r');
  ns_reported r' : r = Ok r' → nr_task_error_reported r' = false ∧
    (nr_should_break r' = true → is_Some (nr_error_message r'));
}.

Lemma node_log_step n st r evs :
  left_out job n = false → (n ∉ ps_completed st) → (∀ s, depends p s n → s ∉ ps_skipped st) →
  node_log job n r evs → node_step n st r evs.
Proof.
  intros H1 H2 H3 Hl. assert (∀ e, e ∈ evs → about n e) as Hab.
  { unfold about. destruct Hl; set_solver. }
  split; [exact Hab| |done| | |].
  - intros t1 y t2 E. destruct Hl; repeat (destruct t1 as [|? t1]; simplify_eq/=; try done).
  - destruct Hl; cbn; set_solver.
  - destruct Hl; cbn; intros Hf; first [by eexists; split; [done|]; eexists|exfalso; set_solver].
  - intros r' E. destruct Hl; simplify_eq/=; by eauto.
Qed.

Lemma node_step_nil n st r :
  (proceeds r = true → n ∈ ps_completed st ∨ left_out job n = true) →
  (∀ r', r = Ok r' → nr_task_error_reported r' = false ∧ nr_should_break r' = false) → node_step n st r [].
Proof.
  intros Hh Hr. split; [by intros e ?%not_elem_of_nil|by intros [] y t2 ?|by intros ?%not_elem_of_nil
    |tauto|by intros ?%not_elem_of_nil|].
  intros r' E. destruct (Hr r' E) as [? ->]. done.
Qed.

Lemma node_step_skip n st : node_step n st (Ok r_none) [EvSkip n].
Proof.
  split; [unfold about; set_solver| |set_solver|set_solver|set_solver|by intros r' [= <-]].
  intros [|? [|]] y t2 E; by simplify_eq/=.
Qed.

Lemma process_log_step n st r evs : process_log job n st r evs → node_step n st r evs.
Proof.
  destruct 1; [..|by apply node_log_step]; [apply node_step_nil; [by left|by intros ? [= <-]]
    |by apply node_step_nil|apply node_step_skip|apply node_step_nil; [by right|by intros ? [= <-]]].
Qed.

(** ** One node *)

(** The state of a run in which the nodes [tried] have been processed. *)
Record run_inv (tried : list string) (st : PState) : Prop := {
  ri_sync : sync st;
  ri_trace : trace_ok (ps_trace st);
  ri_tried y : EvExecute y ∈ ps_trace st → y ∈ tried;
}.

(** What happened between two states, apart from the task callbacks. *)
Definition extends (st st' : PState) : Prop :=
  ps_planned st' = ps_planned st ∧
  ∃ evs, ps_trace st' = ps_trace st ++ evs ∧ ∀ c, EvTask c ∉ evs.

Lemma extends_refl st : extends st st.
Proof. split; [done|]. exists []. rewrite app_nil_r. split; [done|]. intros c. apply not_elem_of_nil. Qed.

Lemma extends_trans st1 st2 st3 : extends st1 st2 → extends st2 st3 → extends st1 st3.
Proof.
  intros [E1 (a & Ha & Hc)] [E2 (b & Hb & Hd)]. split; [congruence|]. exists (a ++ b).
  rewrite Hb, Ha, app_assoc. split; [done|]. set_solver.
Qed.

Lemma extends_mono st st' e : extends st st' → e ∈ ps_trace st → e ∈ ps_trace st'.
Proof. intros [_ (evs & -> & _)] He. set_solver. Qed.

Lemma extends_handled st st' x : extends st st' → handled (ps_trace st) x → handled (ps_trace st') x.
Proof. intros He. unfold handled. pose proof (extends_mono st st' (EvComplete x) He). pose proof (extends_mono st st' (EvSkip x) He). tauto. Qed.

Definition no_failure (st : PState) : Prop := ∀ x, EvFail x ∉ ps_trace st.

Lemma process_node_step n tried st :
  run_inv tried st → (∀ s, depends p s n → handled (ps_trace st) s) →
  (metadata_only job = false → n ∉ tried) →
  let res := _process_node job n st in
  run_inv (tried ++ [n]) res.2 ∧ extends st res.2 ∧
  (proceeds res.1 = true → handled (ps_trace res.2) n) ∧
  (∀ r, res.1 = Ok r → nr_task_error_reported r = false ∧ (nr_should_break r = true → is_Some (nr_error_message r))) ∧
  (no_failure st → (∀ r, res.1 = Ok r → nr_error_message r = None) → no_failure res.2).
Proof.
  intros [Hs Ht Htr] Hpar Honce. cbv zeta.
  destruct (process_node_log job n st Hs) as (Hs' & Hp & evs & Htrace & Hlog). cbv zeta in *.
  apply process_log_step in Hlog as [Hab Hhead Hexec Hh Hf Hr].
  destruct (_process_node job n st) as [r st']; cbn [fst snd] in *.
  assert (∀ e, significant e = true → e ∈ evs → about n e) as Hab'.
  { intros e He Hin. by apply Hab, elem_of_sigs. }
  split_and!.
  - split; [done| |].
    + rewrite Htrace. apply (trace_ok_extend _ _ n); [done|done|]. intros Hin.
      destruct Hexec as (H1 & H2 & H3); [by apply elem_of_sigs|]. split; [done| | |].
      * by rewrite <-(sync_completed st Hs).
      * intros s Hd. assert (EvSkip s ∉ ps_trace st) as Hns by (rewrite <-(sync_skipped st Hs); auto).
        split; [done|]. destruct (Hpar s Hd) as [?|[?|?]]; [by left|done|by right].
      * intros Hm Hin'. by apply Honce, Htr.
    + intros y. rewrite Htrace. intros [?%Htr|Hy]%elem_of_app; [set_solver|].
      apply Hab' in Hy as [?|[?|[?|?]]]; [|done..|done]. simplify_eq. set_solver.
  - split; [done|]. exists evs. split; [done|]. intros c Hc. apply Hab' in Hc as [?|[?|[?|?]]]; done.
  - intros Hpr. rewrite Htrace. unfold handled. rewrite !elem_of_app.
    destruct (Hh Hpr) as [H|[H|[H|H]]]; [|..|tauto].
    + apply (sync_completed st Hs) in H. tauto.
    + apply sigs_subset in H. tauto.
    + apply sigs_subset in H. tauto.
  - exact Hr.
  - intros Hnf Hmsg x. rewrite Htrace. intros [?|Hx]%elem_of_app; [by eapply Hnf|].
    assert (x = n) as ->. { apply Hab' in Hx as [?|[?|[?|?]]]; by simplify_eq. }
    apply (proj2 (elem_of_sigs (EvFail n) evs eq_refl)) in Hx. destruct (Hf Hx) as (r' & -> & m & Hm).
    specialize (Hmsg r' eq_refl). congruence.
Qed.

(** ** The loops *)

Lemma quiet_keeps {A} (m : P A) tried st :
  quiet m → run_inv tried st →
  run_inv tried (m st).2 ∧ extends st (m st).2 ∧
  ∀ e, significant e = true → e ∈ ps_trace (m st).2 ↔ e ∈ ps_trace st.
Proof.
  intros Hq [Hs Ht Htr]. destruct (Hq st Hs) as (Hs' & Hp & evs & E & Hnil).
  assert (∀ e, significant e = true → e ∈ ps_trace (m st).2 ↔ e ∈ ps_trace st) as Hsig.
  { intros e He. rewrite E. by apply elem_of_quiet_app. }
  split_and!; [split; [done| |]| |done].
  - rewrite E. apply (trace_ok_extend _ _ ""); [done| |].
    + intros [] y t2 Hn; by rewrite Hnil in Hn.
    + intros Hin. apply (elem_of_sigs (EvExecute "")) in Hin; [|done]. rewrite Hnil in Hin. by apply not_elem_of_nil in Hin.
  - intros y Hy. apply Htr. by apply Hsig.
  - split; [done|]. exists evs. split; [done|]. intros c Hc. apply (elem_of_sigs (EvTask c)) in Hc; [|done].
    rewrite Hnil in Hc. by apply not_elem_of_nil in Hc.
Qed.

(** Every dependency of a node of the list comes before it or was dealt with already. *)
Definition ready (order : list string) (tr : list event) : Prop :=
  ∀ l1 x l2 s, order = l1 ++ x :: l2 → depends p s x → s ∈ l1 ∨ handled tr s.

Lemma ready_head x order tr s : ready (x :: order) tr → depends p s x → handled tr s.
Proof. intros Hr Hd. destruct (Hr [] x order s) as [?%not_elem_of_nil|]; done. Qed.

Lemma ready_mono order st st' :
  extends st st' → ready order (ps_trace st) → ready order (ps_trace st').
Proof.
  intros He Hr l1 x l2 s E Hd. destruct (Hr l1 x l2 s E Hd); [by left|right]. by eapply extends_handled.
Qed.

Lemma ready_tail x order st st' :
  extends st st' → handled (ps_trace st') x → ready (x :: order) (ps_trace st) → ready order (ps_trace st').
Proof.
  intros He Hx Hr l1 y l2 s -> Hd. destruct (Hr (x :: l1) y l2 s eq_refl Hd) as [[->|?]%elem_of_cons|?];
    [by right|by left|right]. by eapply extends_handled.
Qed.

Lemma prepass_loop_spec order : ∀ tried first st,
  metadata_only job = true → run_inv tried st → ready order (ps_trace st) → (first = None → no_failure st) →
  let res := prepass_loop job order first st in
  (∃ tried', run_inv tried' res.2) ∧ extends st res.2 ∧
  ∀ r, res.1 = Ok r → nr_task_error_reported r = false ∧ (nr_error_message r = None → no_failure res.2) ∧
                      (nr_should_break r = true → is_Some (nr_error_message r)).
Proof.
  induction order as [|n order IH]; intros tried first st Hm Hinv Hready Hnf; cbv zeta.
  { split_and!; [by exists tried|apply extends_refl|]. intros r [= <-]. cbn. by split_and!. }
  cbn [prepass_loop]. destruct (process_node_step n tried st) as (Hinv' & Hext & Hh & Hrep & Hnf');
    [done|intros s; by eapply ready_head|by rewrite Hm|]. cbv zeta in *.
  destruct (_process_node job n st) as [[r|e] st1] eqn:En; cbn [fst snd] in *.
  2:{ rewrite (P_bind_raise _ _ _ _ _ En). split_and!; [by eexists|done|done]. }
  rewrite (P_bind_ok _ _ _ _ _ En). cbv zeta. destruct (Hrep r eq_refl) as [Hrep1 Hrep2].
  set (first' := match first with Some m => Some m | None => nr_error_message r end).
  assert (first' = None → no_failure st1) as Hnf1.
  { subst first'. destruct first; [done|]. intros Em. apply Hnf'; [auto|]. by intros r' [= <-]. }
  destruct (nr_stop_requested r || nr_should_break r) eqn:Estop.
  - cbn. split_and!; [by eexists|done|]. intros r' [= <-]. cbn. split_and!; [done|done|].
    intros Hb. apply Hrep2 in Hb as [m Em]. subst first'. rewrite Em. destruct first; by eexists.
  - destruct (IH (tried ++ [n]) first' st1) as (Hi & He & Hr); [done|done| |done|].
    + eapply ready_tail; [done| |done]. apply Hh. unfold proceeds. by rewrite Estop.
    + cbv zeta in *. split_and!; [done|by eapply extends_trans|exact Hr].
Qed.

Lemma main_loop_spec order : ∀ tried pg st,
  run_inv tried st → ready order (ps_trace st) →
  (metadata_only job = false → NoDup order ∧ ∀ x, x ∈ order → x ∉ tried) →
  pg_reported pg = false → pg_stopped pg = false → (pg_had_error pg = false → no_failure st) →
  let res := main_loop job order pg st in
  (∃ tried', run_inv tried' res.2) ∧ extends st res.2 ∧
  ∀ pg', res.1 = Ok pg' → pg_reported pg' = false ∧
    (pg_stopped pg' = false → pg_had_error pg' = false →
     no_failure res.2 ∧ ∀ x, x ∈ order → handled (ps_trace res.2) x).
Proof.
  induction order as [|n order IH]; intros tried pg st Hinv Hready Honce Hrp Hsp Hnf; cbv zeta.
  { split_and!; [by exists tried|apply extends_refl|]. intros pg' [= <-]. split; [done|]. intros _ He.
    split; [auto|]. by intros x ?%not_elem_of_nil. }
  cbn [main_loop]. destruct (quiet_keeps (_stop_requested) tried st (quiet_ask _) Hinv) as (Hinv0 & Hext0 & Hsig0).
  set (st0 := (_stop_requested st).2) in *. rewrite (P_bind_ok _ _ st (rt_stop_is_set (ps_step st)) st0) by done.
  destruct (rt_stop_is_set (ps_step st)).
  { cbn. split_and!; [by eexists|done|]. by intros pg' [= <-]. }
  assert (no_failure st → no_failure st0) as Hnf0 by (intros Hf x Hx; apply (Hf x), Hsig0; done).
  destruct (process_node_step n tried st0) as (Hinv' & Hext & Hh & Hrep & Hnf'); [done| | |].
  { intros s Hd. eapply extends_handled; [done|]. by eapply ready_head. }
  { intros Hm. destruct (Honce Hm) as [_ Hx]. apply Hx. left. }
  cbv zeta in *. destruct (_process_node job n st0) as [[r|e] st1] eqn:En; cbn [fst snd] in *.
  2:{ rewrite (P_bind_raise _ _ _ _ _ En). split_and!; [by eexists|by apply (extends_trans st st0)|done]. }
  rewrite (P_bind_ok _ _ _ _ _ En). cbv zeta. destruct (Hrep r eq_refl) as [Hrep1 Hrep2].
  set (pg' := mkProgress _ _ _ _).
  assert (pg_reported pg' = false) as Hrp' by (cbn; by rewrite Hrp, Hrep1).
  assert (pg_had_error pg' = false → no_failure st1) as Hnf1.
  { cbn. rewrite !orb_false_iff, bool_decide_eq_false. intros [[He Hmsg] _]. apply Hnf'; [auto|].
    intros r' [= <-]. destruct (nr_error_message r); [|done]. destruct Hmsg. by eexists. }
  destruct (nr_stop_requested r || nr_should_break r) eqn:Estop.
  - split_and!; [by eexists|by apply (extends_trans st st0)|]. intros pg'' [= <-]. split; [done|]. intros Hs He. exfalso.
    cbn in Hs, He. rewrite Hsp in Hs. cbn in Hs. rewrite Hs in Estop, He. cbn in Estop, He.
    rewrite Estop, orb_true_r in He. done.
  - assert (handled (ps_trace st1) n) as Hn by (apply Hh; unfold proceeds; by rewrite Estop).
    apply orb_false_iff in Estop as [Es Eb].
    destruct (IH (tried ++ [n]) pg' st1) as (Hi & He & Hr); [done| | |done|cbn; by rewrite Hsp, Es|done|].
    + eapply ready_tail; [exact Hext|done|]. by eapply ready_mono.
    + intros Hm. destruct (Honce Hm) as [[Hno Hnd]%NoDup_cons Hx]. split; [done|].
      intros x Hin [?|Hxn]%elem_of_app; [by eapply Hx; [right|]|]. by apply list_elem_of_singleton in Hxn as ->.
    + cbv zeta in *. split_and!; [done|apply (extends_trans st st1); [by apply (extends_trans st st0)|done]|].
      intros pg'' E. destruct (Hr pg'' E) as [H1 H2]. split; [done|]. intros Hs' He'.
      destruct (H2 Hs' He') as [H3 H4]. split; [done|]. intros x [->|Hx]%elem_of_cons; [|auto].
      by eapply extends_handled.
Qed.

(** ** The order of a run *)

(** The order the loop follows, in a state with or without a plan. *)
Definition effective (st : PState) : outcome py_exn (list string) :=
  match ps_planned st with Some plan => Ok plan | None => execution_order job end.

Lemma effective_order_eq st : effective_execution_order job st = (effective st, st).
Proof. unfold effective_execution_order, effective. rewrite P_bind_get_state. by destruct (ps_planned st). Qed.

Lemma execution_order_sorted order :
  execution_order job = Ok order → sorted_order p (default [] (jb_target_nodes job)) order.
Proof.
  unfold execution_order. intros Ho. pose proof (topological_sort_result p p_wf (jb_target_nodes job)) as H.
  destruct (topological_sort p (jb_target_nodes job)); [|done]. simplify_eq. apply H.
Qed.

Lemma sorted_ready targets order tr : sorted_order p targets order → ready order tr.
Proof. intros [_ _ Hb] l1 x l2 s E Hd. left. by eapply Hb. Qed.

(** A part of a sorted order whose missing dependencies are dealt with. *)
Lemma filter_ready targets order (V : list string) tr :
  sorted_order p targets order →
  (∀ x s, x ∈ filter (λ n, n ∈ V) order → depends p s x → s ∈ V ∨ handled tr s) →
  ready (filter (λ n, n ∈ V) order) tr.
Proof.
  intros [_ _ Hb] Hc l1 x l2 s E Hd.
  assert (x ∈ filter (λ n, n ∈ V) order) as Hx by (rewrite E; set_solver).
  destruct (Hc x s Hx Hd) as [Hs|]; [left|by right].
  eapply (filter_keeps_order p (λ n, n ∈ V) order); [|done..].
  intros i s' t Hi Hd'. apply (Hb _ t (drop (S i) order)); [|done]. by rewrite take_drop_middle.
Qed.

Lemma sublist_filter_eq {A} `{EqDecision A} (l k : list A) :
  NoDup k → l `sublist_of` k → l = filter (λ x, x ∈ l) k.
Proof.
  intros Hnd Hl. induction Hl as [|x l k Hl IH|x l k Hl IH]; [done|..];
    apply NoDup_cons in Hnd as [Hx Hnd]; rewrite filter_cons.
  - rewrite decide_True by left. f_equal. rewrite IH at 1 by done. apply list_filter_ext_in.
    intros y Hy. rewrite elem_of_cons. split; [by right|]. intros [->|]; done.
  - rewrite decide_False; [auto|]. intros Hin. apply Hx. by eapply elem_of_sublist.
Qed.

(** The frontier leaves a state whose effective order the loop can follow. *)
Lemma frontier_ready st :
  run_inv [] st → ps_planned st = None →
  let res := _prepare_cache_frontier job st in
  run_inv [] res.2 ∧ (∃ evs, ps_trace res.2 = ps_trace st ++ evs ∧ ∀ e, e ∈ sigs evs → ∃ n, e = EvComplete n) ∧
  (res.1 = Ok () → ∀ eff, effective res.2 = Ok eff → NoDup eff ∧ ready eff (ps_trace res.2)).
Proof.
  intros [Hs Ht Htr] Hp. cbv zeta. destruct (frontier_log_result job p_wf st Hs) as (Hs' & Hout & evs & E & Hevs).
  cbv zeta in *. destruct (_prepare_cache_frontier job st) as [r st']; cbn [fst snd] in *.
  assert (∀ y, EvExecute y ∈ ps_trace st' → EvExecute y ∈ ps_trace st) as Hno.
  { intros y. rewrite E. intros [?|Hy]%elem_of_app; [done|]. apply (elem_of_sigs (EvExecute y)) in Hy; [|done].
    by apply Hevs in Hy as (? & ? & _). }
  split_and!.
  - split; [done| |auto]. rewrite E. apply (trace_ok_extend _ _ ""); [done| |].
    + intros t1 y t2 Es. assert (EvExecute y ∈ sigs evs) as Hy by (rewrite Es; set_solver).
      by apply Hevs in Hy as (? & ? & _).
    + intros Hy. apply (elem_of_sigs (EvExecute "")) in Hy; [|done]. by apply Hevs in Hy as (? & ? & _).
  - exists evs. split; [done|]. intros e He. destruct (Hevs e He) as (n & -> & _). by exists n.
  - intros -> eff Heff. unfold frontier_outcome in Hout. unfold effective in Heff.
    destruct (_cache_frontier_enabled job).
    + destruct Hout as (order & plan & Ho & Hpl & [Hsub _ Hcl]). rewrite Hpl in Heff. simplify_eq.
      pose proof (execution_order_sorted order Ho) as Hso. destruct Hso as [Hnd Hel Hbef] eqn:Eso.
      split; [by eapply sublist_NoDup|]. rewrite (sublist_filter_eq eff order) by done.
      eapply filter_ready; [by split|]. intros x s [Hx _]%list_elem_of_filter Hd.
      destruct (Hcl x s Hx Hd) as [?|Hc]; [by left|right; left]. by apply (sync_completed st' Hs').
    + rewrite Hout, Hp in Heff. pose proof (execution_order_sorted eff Heff) as Hso.
      split; [apply Hso|by eapply sorted_ready].
Qed.

(** ** Task callbacks *)

Definition terminal (e : event) : bool :=
  match e with
  | EvTask on_task_success | EvTask (on_task_error _) | EvTask on_task_canceled => true
  | _ => false
  end.

(** The outcomes that have been reported. *)
Definition reports (tr : list event) : list event := filter (λ e, terminal e = true) tr.

Lemma reports_app a b : reports (a ++ b) = reports a ++ reports b.
Proof. apply filter_app. Qed.

Lemma reports_none evs : (∀ c, EvTask c ∉ evs) → reports evs = [].
Proof.
  intros H. apply length_zero_iff_nil, length_filter_none. intros e He Ht.
  destruct e as [| | | | | | | |c]; try done. by eapply H.
Qed.

Lemma extends_reports st st' : extends st st' → reports (ps_trace st') = reports (ps_trace st).
Proof. intros [_ (evs & -> & Hn)]. by rewrite reports_app, (reports_none evs), app_nil_r. Qed.

Lemma callback_task b c tried st :
  run_inv tried st →
  let res := callback b (EvTask c) st in
  run_inv tried res.2 ∧ ps_planned res.2 = ps_planned st ∧
  ps_trace res.2 = ps_trace st ++ (if b then [EvTask c] else []) ∧
  ((∀ k, rt_callback k = Ok ()) → res.1 = Ok ()).
Proof.
  intros [Hs Ht Htr]. unfold callback, when. destruct b; cbv zeta.
  2:{ cbn. rewrite app_nil_r. by split_and!. }
  assert (∀ e, significant e = true → (∀ c', e ≠ EvTask c') → e ∈ ps_trace st ++ [EvTask c] ↔ e ∈ ps_trace st) as Hin.
  { intros e _ Hne. rewrite elem_of_app, list_elem_of_singleton. naive_solver. }
  cbn. split_and!; [|done|done|].
  - split; cbn.
    + destruct Hs as [H1 H2 H3]. split; intros x; cbn; rewrite Hin by done; auto.
    + apply (trace_ok_extend _ _ ""); [done| |].
      * intros [|? [|]] y t2 E; by simplify_eq/=.
      * intros Hx. by apply list_elem_of_singleton in Hx.
    + intros y Hy. apply Htr. by apply Hin in Hy.
  - intros Hok. exact (Hok _).
Qed.

(** ** The prepass *)

(** A computation that leaves the state alone. *)
Definition pure {A} (m : P A) : Prop := ∀ st, (m st).2 = st.

Lemma pure_bind {A B} (m : P A) (f : A → P B) : pure m → (∀ a, pure (f a)) → pure (m ≫= f).
Proof.
  intros Hm Hf st. unfold mbind, P_bind. specialize (Hm st). destruct (m st) as [[a|e] st']; cbn in *; subst; [apply Hf|done].
Qed.

Lemma pure_get_node name : pure (get_node name).
Proof. unfold get_node. by destruct (registry_get name). Qed.

Lemma pure_effective_order : pure (effective_execution_order job).
Proof. intros st. by rewrite effective_order_eq. Qed.

Lemma pure_prepass_order : pure (_prepare_metadata_variable_prepass_order job).
Proof.
  unfold _prepare_metadata_variable_prepass_order, _collect_metadata_variable_prepass_source_nodes.
  apply pure_bind.
  - destruct (negb _); [done|]. apply pure_bind; [apply pure_effective_order|]. intros order.
    generalize (@nil string). induction order as [|n order IH]; intros acc; [done|]. cbn [fold_P].
    apply pure_bind; [|intros; apply IH]. unfold prepass_sources_of. destruct (dget p n); [|done].
    apply pure_bind; [apply pure_get_node|done].
  - intros [|s l]; [done|]. apply pure_bind; [by destruct (topological_sort _ _)|]. intros pre.
    apply pure_bind; [apply pure_effective_order|done].
Qed.

Lemma prepass_order_ready st pre eff :
  _prepare_metadata_variable_prepass_order job st = (Ok pre, st) → effective st = Ok eff →
  ready eff (ps_trace st) → (metadata_only job = false → pre = []) ∧ ready pre (ps_trace st).
Proof.
  unfold _prepare_metadata_variable_prepass_order. intros Hpre Heff Hready.
  assert (ready [] (ps_trace st)) as Hnil by (intros [] ? ? ? ?; done).
  destruct (metadata_only job) eqn:Em.
  2:{ unfold _collect_metadata_variable_prepass_source_nodes in Hpre. rewrite Em in Hpre. cbn in Hpre.
      injection Hpre as <-. by split. }
  split; [done|]. unfold mbind at 1, P_bind at 1 in Hpre.
  destruct (_collect_metadata_variable_prepass_source_nodes job st) as [[src|e] st1] eqn:Ec; [|done].
  destruct src as [|s0 src]; [cbn in Hpre; injection Hpre as <- _; exact Hnil|].
  pose proof (topological_sort_result p p_wf (Some (sorted_ids (s0 :: src)))) as Hsort. cbv zeta in Hsort.
  destruct (topological_sort p (Some (sorted_ids (s0 :: src)))) as [order|e]; [|done].
  rewrite (P_bind_ok (lift (Ok order)) _ st1 order st1) in Hpre by done. destruct Hsort as (_ & _ & Hso).
  unfold mbind, P_bind in Hpre. rewrite effective_order_eq in Hpre. destruct (effective st1) as [eff'|e] eqn:Eeff; [|done].
  injection Hpre as <- ->. rewrite Heff in Eeff. injection Eeff as ->. eapply filter_ready; [done|].
  intros x s [Hx _]%list_elem_of_filter Hd. apply list_elem_of_split in Hx as (l1 & l2 & ->).
  destruct (Hready l1 x l2 s eq_refl Hd); [left; set_solver|by right].
Qed.

Lemma prepass_spec st :
  run_inv [] st → no_failure st →
  (∀ eff, effective st = Ok eff → NoDup eff ∧ ready eff (ps_trace st)) → is_ok (effective st) = true →
  let res := _run_metadata_variable_prepass job st in
  (∃ tried, run_inv tried res.2 ∧ (metadata_only job = false → tried = [])) ∧ extends st res.2 ∧
  ∀ r, res.1 = Ok r → nr_task_error_reported r = false ∧ (nr_error_message r = None → no_failure res.2) ∧
                      (nr_should_break r = true → is_Some (nr_error_message r)).
Proof.
  intros Hinv Hnf Heff Hok. cbv zeta. unfold _run_metadata_variable_prepass.
  pose proof (pure_prepass_order st) as Hpure.
  destruct (_prepare_metadata_variable_prepass_order job st) as [[pre|e] st'] eqn:Ep; cbn in Hpure; subst st'.
  2:{ rewrite (P_bind_raise _ _ _ _ _ Ep). split_and!; [by exists []|apply extends_refl|done]. }
  rewrite (P_bind_ok _ _ _ _ _ Ep). destruct (effective st) as [eff|e] eqn:Ee; [|done].
  destruct (Heff eff eq_refl) as [_ Hready].
  destruct (prepass_order_ready st pre eff Ep Ee Hready) as [Hfull Hpre].
  destruct pre as [|n pre].
  { split_and!; [by exists []|apply extends_refl|]. by intros r [= <-]. }
  destruct (metadata_only job) eqn:Em; [|by specialize (Hfull eq_refl)].
  destruct (prepass_loop_spec (n :: pre) [] None st Em Hinv Hpre) as ((tried & Ht) & He & Hr); [done|].
  split_and!; [by exists tried|done|exact Hr].
Qed.

(** ** The whole run *)

Definition all_handled (st : PState) : Prop :=
  no_failure st ∧ ∀ eff, effective st = Ok eff → ∀ x, x ∈ eff → handled (ps_trace st) x.

Lemma process_order_spec st :
  run_inv [] st → no_failure st →
  (∀ eff, effective st = Ok eff → NoDup eff ∧ ready eff (ps_trace st)) → is_ok (effective st) = true →
  let res := process_order job st in
  (∃ tried, run_inv tried res.2) ∧ extends st res.2 ∧
  ∀ pg, res.1 = Ok pg → pg_reported pg = false ∧
    (pg_stopped pg = false → pg_had_error pg = false → all_handled res.2).
Proof.
  intros Hinv Hnf Heff Hok. cbv zeta. unfold process_order.
  destruct (prepass_spec st Hinv Hnf Heff Hok) as ((tried & Ht & Hfull) & He & Hr). cbv zeta in *.
  destruct (_run_metadata_variable_prepass job st) as [[r|e] st1] eqn:Ep; cbn [fst snd] in *.
  2:{ rewrite (P_bind_raise _ _ _ _ _ Ep). split_and!; [by exists tried|done|done]. }
  rewrite (P_bind_ok _ _ _ _ _ Ep). destruct (Hr r eq_refl) as (Hrep & Hnf1 & Hbrk). cbv zeta. cbn [pg_stopped].
  destruct (negb (nr_stop_requested r) && negb (nr_should_break r)) eqn:Ego.
  2:{ split_and!; [by exists tried|done|]. intros pg [= <-]. split; [done|]. cbn. intros Hs.
      rewrite orb_false_iff. intros [_ Hb]. by rewrite Hs, Hb in Ego. }
  apply andb_true_iff in Ego as [Hs Hb]. rewrite negb_true_iff in Hs, Hb.
  assert (effective st1 = effective st) as Eeff by (unfold effective; by rewrite (proj1 He)).
  destruct (effective st) as [eff|e] eqn:Ee; [|done]. destruct (Heff eff eq_refl) as [Hnd Hready].
  rewrite (P_bind_ok (effective_execution_order job) _ st1 eff st1) by (by rewrite effective_order_eq, Eeff).
  set (pg0 := mkProgress _ _ _ _).
  destruct (main_loop_spec eff tried pg0 st1 Ht) as (Hi & He' & Hm);
    [by eapply ready_mono|intros Hf; rewrite (Hfull Hf); split; [done|intros x _; apply not_elem_of_nil]|done|done| |].
  { cbn. rewrite Hb, orb_false_r, bool_decide_eq_false. intros Hmsg. apply Hnf1.
    destruct (nr_error_message r); [destruct Hmsg; by eexists|done]. }
  cbv zeta in *. split_and!; [done|by apply (extends_trans st st1)|]. intros pg E.
  destruct (Hm pg E) as [H1 H2]. split; [done|]. intros H3 H4. destruct (H2 H3 H4) as [H5 H6]. split; [done|].
  intros eff' E'. unfold effective in E'. rewrite (proj1 He') in E'. fold (effective st1) in E'.
  rewrite Eeff in E'. by injection E' as <-.
Qed.

Lemma run_all_spec st :
  run_inv [] st → ps_planned st = None → no_failure st → is_ok (execution_order job) = true →
  let res := run_all_nodes job st in
  (∃ tried, run_inv tried res.2) ∧ reports (ps_trace res.2) = reports (ps_trace st) ∧
  ∀ pg, res.1 = Ok pg → pg_reported pg = false ∧
    (pg_stopped pg = false → pg_had_error pg = false → all_handled res.2).
Proof.
  intros Hinv Hp Hnf Hord. cbv zeta. unfold run_all_nodes.
  destruct (callback_task (jb_on_task_running job) on_task_running [] st Hinv) as (Hi1 & Hp1 & Ht1 & _). cbv zeta in *.
  destruct (callback (jb_on_task_running job) (EvTask on_task_running) st) as [r1 st1] eqn:E1; cbn [fst snd] in *.
  assert (reports (ps_trace st1) = reports (ps_trace st)) as Hr1.
  { rewrite Ht1, reports_app. destruct (jb_on_task_running job); cbn; by rewrite app_nil_r. }
  assert (no_failure st1) as Hnf1.
  { intros x. rewrite Ht1. intros [?|Hx]%elem_of_app; [by eapply Hnf|]. destruct (jb_on_task_running job); set_solver. }
  destruct r1 as [[]|e]; [|rewrite (P_bind_raise _ _ _ _ _ E1); by split_and!; [exists []|..]].
  rewrite (P_bind_ok _ _ _ _ _ E1). rewrite Hp in Hp1.
  destruct (frontier_ready st1 Hi1 Hp1) as (Hi2 & (evs2 & Ht2 & Hev2) & Hready). cbv zeta in *.
  destruct (_prepare_cache_frontier job st1) as [r2 st2] eqn:E2; cbn [fst snd] in *.
  assert (∀ e, significant e = true → (∀ n, e ≠ EvComplete n) → e ∉ evs2) as Hno.
  { intros e He Hne Hin. apply (elem_of_sigs e) in Hin; [|done]. apply Hev2 in Hin as [n ?]. by eapply Hne. }
  assert (reports (ps_trace st2) = reports (ps_trace st)) as Hr2.
  { rewrite Ht2, reports_app, Hr1, (reports_none evs2), app_nil_r; [done|]. intros c. by apply Hno. }
  assert (no_failure st2) as Hnf2.
  { intros x. rewrite Ht2. intros [?|Hx]%elem_of_app; [by eapply Hnf1|]. revert Hx. by apply Hno. }
  destruct r2 as [[]|e]; [|rewrite (P_bind_raise _ _ _ _ _ E2); by split_and!; [exists []|..]].
  rewrite (P_bind_ok _ _ _ _ _ E2).
  destruct (process_order_spec st2 Hi2 Hnf2) as (Hi3 & He3 & Hr3); [by apply Hready| |].
  { unfold effective. by destruct (ps_planned st2). }
  cbv zeta in *. split_and!; [done|by rewrite (extends_reports _ _ He3)|exact Hr3].
Qed.

Lemma initial_run_inv : run_inv [] initial_state.
Proof.
  split; cbn; [split; intros x; cbn; by split; intros ?%not_elem_of_nil|by intros [] ? ? ?|by intros y ?%not_elem_of_nil].
Qed.

(** Reporting an outcome and returning: how every exit of [process] ends. *)
Record reported {A} (b : bool) (c : TaskCallback) (a : A) (st : PState) (res : outcome py_exn A * PState) : Prop := {
  rp_inv : (∃ tried, run_inv tried st) → ∃ tried, run_inv tried res.2;
  rp_value r : res.1 = Ok r → r = a;
  rp_returns : (∀ k, rt_callback k = Ok ()) → res.1 = Ok a;
  rp_trace : ps_trace res.2 = ps_trace st ++ (if b then [EvTask c] else []);
  rp_handled : all_handled st → all_handled res.2;
}.

Lemma report_result {A} b c (a : A) st :
  (∃ tried, run_inv tried st) → reported b c a st ((callback b (EvTask c) ;; mret a) st).
Proof.
  intros [tried Hi]. destruct (callback_task b c tried st Hi) as (Hi' & Hp & Ht & Hok). cbv zeta in *.
  destruct (callback b (EvTask c) st) as [[[]|e] st'] eqn:E; cbn [fst snd] in *;
    [rewrite (P_bind_ok _ _ _ _ _ E)|rewrite (P_bind_raise _ _ _ _ _ E)];
    (split; cbn [fst snd]; [by eexists|by intros r [= <-] || done|by intros H; first [done|specialize (Hok H)]|done|]);
    (intros [Hnf Hh]; unfold all_handled, no_failure, effective; cbn [snd mret P_ret]; rewrite Hp, Ht; split;
     [intros x [?|Hx]%elem_of_app; [by eapply Hnf|destruct b; set_solver]
     |intros eff Ee x Hx; specialize (Hh eff Ee x Hx); unfold handled in *; set_solver]).
Qed.

(** What the exit of a run guarantees, whatever the callbacks do. *)
Definition run_ends_well (res : outcome py_exn ProcessResult * PState) : Prop :=
  (∃ tried, run_inv tried res.2) ∧
  ∀ r, res.1 = Ok r → pr_success r = true → all_handled res.2.

Lemma report_error_ends m m' st : (∃ tried, run_inv tried st) → run_ends_well (report_error job m m' st).
Proof.
  intros Hi. destruct (report_result (jb_on_task_error job) (on_task_error m) (mkProcessResult false (Some m')) st Hi) as [H1 H2 _ _ _].
  split; [auto|]. intros r E. by rewrite (H2 r E).
Qed.

Lemma conclude_ends pg st :
  (∃ tried, run_inv tried st) → (pg_stopped pg = false → pg_had_error pg = false → all_handled st) →
  run_ends_well (conclude job pg st).
Proof.
  intros Hi Hh. unfold conclude. destruct (pg_stopped pg); [|destruct (pg_had_error pg)]; cbv zeta;
    match goal with |- context [callback ?b (EvTask ?c) ≫= λ _, mret ?a] =>
      destruct (report_result b c a st Hi) as [H1 H2 _ _ H3] end; (split; [auto|]);
    intros r E; rewrite (H2 r E); cbn; [done..|]. auto.
Qed.

Lemma guarded_run_ends st :
  run_inv [] st → ps_planned st = None → no_failure st → is_ok (execution_order job) = true →
  run_ends_well (guarded_run job st).
Proof.
  intros Hi Hp Hnf Ho. destruct (run_all_spec st Hi Hp Hnf Ho) as (Hi1 & _ & Hpg). cbv zeta in *.
  assert (run_ends_well (run_nodes job st)) as [Ht Hr].
  { unfold run_nodes. destruct (run_all_nodes job st) as [[pg|e] st1] eqn:E; cbn [fst snd] in *.
    - rewrite (P_bind_ok _ _ _ _ _ E). apply conclude_ends; [done|]. by apply (Hpg pg).
    - rewrite (P_bind_raise _ _ _ _ _ E). by split. }
  unfold guarded_run, catch. destruct (run_nodes job st) as [[r|e] st1]; cbn [fst snd] in *.
  - split; [done|exact Hr].
  - destruct e; by apply report_error_ends.
Qed.

(** The first [try] either lets the run go on from the same state or ends it. *)
Lemma prepare_order_ends st :
  run_inv [] st →
  let res := prepare_order job st in
  (res = (Ok None, st) ∧ is_ok (execution_order job) = true) ∨
  ((∃ tried, run_inv tried res.2) ∧ ∀ o, res.1 = Ok o → ∃ r, o = Some r ∧
     (pr_success r = true → execution_order job = Ok [] ∧ (all_handled st → all_handled res.2))).
Proof.
  intros Hi. unfold prepare_order. cbv zeta.
  assert (∀ e st0, (∃ tried, run_inv tried st0) →
    let res := (r ← report_error job (exn_str e) (exn_str e); mret (Some r)) st0 in
    (∃ tried, run_inv tried res.2) ∧ ∀ o, res.1 = Ok o → ∃ r, o = Some r ∧ pr_success r = false) as Hrep.
  { intros e st0 Hi0. cbv zeta.
    destruct (report_result (jb_on_task_error job) (on_task_error (exn_str e)) (mkProcessResult false (Some (exn_str e))) st0 Hi0) as [H1 H2 _ _ _].
    fold (report_error job (exn_str e) (exn_str e)) in *. specialize (H1 Hi0).
    destruct (report_error job (exn_str e) (exn_str e) st0) as [[r|e'] st'] eqn:E; cbn [fst snd] in *.
    - rewrite (P_bind_ok _ _ _ _ _ E). split; [done|]. intros o [= <-]. exists r. by rewrite (H2 r eq_refl).
    - rewrite (P_bind_raise _ _ _ _ _ E). by split. }
  unfold catch. destruct (execution_order job) as [[|n order]|e] eqn:Eo.
  - rewrite (P_bind_ok (lift (Ok [])) _ st [] st) by done.
    destruct (report_result (jb_on_task_success job) on_task_success (Some (mkProcessResult true None)) st (ex_intro _ _ Hi)) as [H1 H2 _ _ H3].
    specialize (H1 (ex_intro _ _ Hi)). right.
    destruct ((callback _ _ ≫= _) st) as [[r|e] st'] eqn:E; cbn [fst snd] in *.
    + split; [done|]. intros o [= <-]. rewrite (H2 r eq_refl). by eexists.
    + destruct (Hrep e st' H1) as [H4 H5]. split; [done|]. intros o Ho. destruct (H5 o Ho) as (r & -> & Hs).
      exists r. by rewrite Hs.
  - by left.
  - rewrite (P_bind_raise (lift (Raise e)) _ st e st) by done. right.
    destruct (Hrep e st (ex_intro _ _ Hi)) as [H4 H5]. split; [done|]. intros o Ho.
    destruct (H5 o Ho) as (r & -> & Hs). exists r. by rewrite Hs.
Qed.

Lemma process_ends_well : run_ends_well (process job initial_state).
Proof.
  unfold process. destruct (callback_task (jb_on_task_started job) on_task_started [] initial_state initial_run_inv)
    as (Hi & Hp & Ht & _). cbv zeta in *.
  destruct (callback (jb_on_task_started job) (EvTask on_task_started) initial_state) as [[[]|e] st1] eqn:E1; cbn [fst snd] in *.
  2:{ rewrite (P_bind_raise _ _ _ _ _ E1). split; [by exists []|done]. }
  rewrite (P_bind_ok _ _ _ _ _ E1). assert (no_failure st1) as Hnf.
  { intros x. rewrite Ht. cbn. destruct (jb_on_task_started job); set_solver. }
  destruct (prepare_order_ends st1 Hi) as [[E Ho]|[H1 H2]]; cbv zeta in *.
  - rewrite (P_bind_ok _ _ _ _ _ E). by apply guarded_run_ends.
  - destruct (prepare_order job st1) as [[o|e] st2] eqn:E; cbn [fst snd] in *.
    + rewrite (P_bind_ok _ _ _ _ _ E). destruct (H2 o eq_refl) as (r & -> & Hr). split; [done|].
      intros r' [= <-] Hs. destruct (Hr Hs) as [Ho Hah]. apply Hah. split; [done|]. unfold effective. rewrite Hp. cbn.
      rewrite Ho. intros eff [= <-] x Hx. by apply not_elem_of_nil in Hx.
    + rewrite (P_bind_raise _ _ _ _ _ E). by split.
Qed.

(** C2: the order of execution. Whatever the nodes, stores and callbacks do, a node is only executed
    when it is not completed yet and each pipeline node it takes an input from was completed before
    (executed, restored, or failed with a handled error), or is an output node that a metadata run
    leaves out, and none of them was skipped. In a full run no node is executed twice. *)
Theorem executions_follow_dependencies t1 x t2 :
  ps_trace (process job initial_state).2 = t1 ++ EvExecute x :: t2 →
  (EvComplete x ∉ t1) ∧ (metadata_only job = false → EvExecute x ∉ t1) ∧
  ∀ s, depends p s x → (EvSkip s ∉ t1) ∧ (EvComplete s ∈ t1 ∨ left_out job s = true).
Proof.
  intros E. destruct process_ends_well as [[tried Hi] _]. destruct (ri_trace _ _ Hi t1 x t2 E) as [_ H1 H2 H3].
  by split_and!.
Qed.

(** C32: a metadata run never executes an output node: writing nodes are left alone. *)
Theorem metadata_run_executes_no_output_node x nd c :
  metadata_only job = true → EvExecute x ∈ ps_trace (process job initial_state).2 →
  dget p x = Some nd → registry_get (nd_name nd) = Some c → OUTPUT_NODE c = false.
Proof.
  intros Hm Hx Hnd Hc. destruct process_ends_well as [[tried Hi] _].
  apply list_elem_of_split in Hx as (t1 & t2 & E). destruct (ri_trace _ _ Hi t1 x t2 E) as [Hl _ _ _].
  unfold left_out in Hl. rewrite Hnd, Hc in Hl. cbn in Hl. unfold _should_skip_output_node in Hl. by rewrite Hm in Hl.
Qed.

(** C30: a run that reports success has no failed node, and it is done with every node of the order
    it followed: each is completed, skipped, or an output node a metadata run leaves out. *)
Theorem success_means_all_handled r st :
  process job initial_state = (Ok r, st) → pr_success r = true →
  ps_failed st = [] ∧
  ∀ order, effective st = Ok order → ∀ x, x ∈ order →
    x ∈ ps_completed st ∨ x ∈ ps_skipped st ∨ left_out job x = true.
Proof.
  intros E Hs. destruct process_ends_well as [[tried Hi] Hr]. rewrite E in *. cbn [fst snd] in *.
  destruct (Hr r eq_refl Hs) as [Hnf Hh]. pose proof (ri_sync _ _ Hi) as [S1 S2 S3]. split.
  - destruct (ps_failed st) as [|y l] eqn:Ef; [done|]. destruct (Hnf y). apply S3. left.
  - intros order Ho x Hx. rewrite S1, S2. by apply Hh with order.
Qed.

(** ** Exactly one outcome is reported *)

(** The callback that fits a result. *)
Definition announces (c : TaskCallback) (r : ProcessResult) : Prop :=
  match c with
  | on_task_success => pr_success r = true
  | on_task_error _ => pr_success r = false ∧ is_Some (pr_error_message r)
  | on_task_canceled => pr_success r = false ∧ pr_error_message r = None
  | _ => False
  end.

Section Callbacks.
Context (callbacks_return : ∀ k, rt_callback k = Ok ()).
Context (on_success_given : jb_on_task_success job = true) (on_error_given : jb_on_task_error job = true)
  (on_canceled_given : jb_on_task_canceled job = true).

(** Ends with a result, having reported it and nothing else since [st]. *)
Definition reports_once (st : PState) (res : outcome py_exn ProcessResult * PState) : Prop :=
  ∃ r c, res.1 = Ok r ∧ reports (ps_trace res.2) = reports (ps_trace st) ++ [EvTask c] ∧ announces c r.

Lemma report_once c r st :
  (∃ tried, run_inv tried st) → announces c r → reports_once st ((callback true (EvTask c) ;; mret r) st).
Proof.
  intros Hi Ha. destruct (report_result true c r st Hi) as [_ _ Hret Ht _]. exists r, c. split_and!; [auto| |done].
  rewrite Ht, reports_app. f_equal. by destruct c.
Qed.

Lemma guarded_run_once st :
  run_inv [] st → ps_planned st = None → no_failure st → is_ok (execution_order job) = true →
  reports_once st (guarded_run job st).
Proof.
  intros Hi Hp Hnf Ho. destruct (run_all_spec st Hi Hp Hnf Ho) as (Hi1 & Hrep & Hpg). cbv zeta in *.
  unfold guarded_run, catch, run_nodes.
  destruct (run_all_nodes job st) as [[pg|e] st1] eqn:E; cbn [fst snd] in *.
  - rewrite (P_bind_ok _ _ _ _ _ E). destruct (Hpg pg eq_refl) as [Hr _].
    assert (reports_once st1 (conclude job pg st1)) as (r & c & H1 & H2 & H3).
    { unfold conclude. rewrite on_canceled_given, on_error_given, on_success_given, Hr. cbn [negb andb].
      destruct (pg_stopped pg); [|destruct (pg_had_error pg)]; by apply report_once. }
    destruct (conclude job pg st1) as [r' st2]; cbn [fst snd] in *. subst r'.
    exists r, c. cbn. by rewrite H2, Hrep.
  - rewrite (P_bind_raise _ _ _ _ _ E). unfold reports_once. rewrite <-Hrep.
    destruct e; unfold report_error; rewrite on_error_given; (apply report_once; [done|by split; [|eexists]]).
Qed.

Lemma prepare_order_once st :
  run_inv [] st →
  (prepare_order job st = (Ok None, st) ∧ is_ok (execution_order job) = true) ∨
  ∃ r c st', prepare_order job st = (Ok (Some r), st') ∧
             reports (ps_trace st') = reports (ps_trace st) ++ [EvTask c] ∧ announces c r.
Proof.
  intros Hi. assert (∃ tried, run_inv tried st) as Hi' by by eexists.
  unfold prepare_order, catch. destruct (execution_order job) as [[|n order]|e] eqn:Eo.
  - right. rewrite (P_bind_ok (lift (Ok [])) _ st [] st), on_success_given by done.
    destruct (report_result true on_task_success (Some (mkProcessResult true None)) st Hi') as [_ _ Hret Ht _].
    specialize (Hret callbacks_return). destruct ((callback _ _ ≫= _) st) as [o st'] eqn:E. cbn [fst snd] in *. subst o.
    exists (mkProcessResult true None), on_task_success, st'. by rewrite Ht, reports_app.
  - by left.
  - right. rewrite (P_bind_raise (lift (Raise e)) _ st e st) by done. unfold report_error. rewrite on_error_given.
    destruct (report_once (on_task_error (exn_str e)) (mkProcessResult false (Some (exn_str e))) st Hi') as (r & c & H1 & H2 & H3);
      [by split; [|eexists]|].
    destruct ((callback _ _ ≫= _) st) as [o st'] eqn:E. cbn [fst snd] in *. subst o.
    rewrite (P_bind_ok _ _ _ _ _ E). by exists r, c, st'.
Qed.

(** C19: when the task callbacks are installed and do not raise, [process] always returns, and it has
    announced exactly one outcome, the one it returns: success, failure with a message, or
    cancellation. *)
Theorem one_outcome_is_reported :
  ∃ r st c, process job initial_state = (Ok r, st) ∧ reports (ps_trace st) = [EvTask c] ∧ announces c r.
Proof.
  assert (reports_once initial_state (process job initial_state)) as (r & c & H1 & H2 & H3).
  2:{ destruct (process job initial_state) as [r' st]. cbn [fst snd] in *. subst r'. by exists r, st, c. }
  unfold process. destruct (callback_task (jb_on_task_started job) on_task_started [] initial_state initial_run_inv)
    as (Hi & Hp & Ht & Hok). cbv zeta in *. specialize (Hok callbacks_return).
  destruct (callback (jb_on_task_started job) (EvTask on_task_started) initial_state) as [r1 st1] eqn:E1; cbn [fst snd] in *.
  subst r1. rewrite (P_bind_ok _ _ _ _ _ E1).
  assert (reports (ps_trace initial_state) = reports (ps_trace st1)) as Hr.
  { rewrite Ht. by destruct (jb_on_task_started job). }
  unfold reports_once. rewrite Hr.
  assert (no_failure st1) as Hnf by (intros x; rewrite Ht; cbn; destruct (jb_on_task_started job); set_solver).
  destruct (prepare_order_once st1 Hi) as [[E Ho]|(r & c & st2 & E & H1 & H2)]; rewrite (P_bind_ok _ _ _ _ _ E).
  - by apply guarded_run_once.
  - by exists r, c.
Qed.

End Callbacks.

End Run.
