(* ===== verification/ProcessorRun.v ===== *)
(** * Pipeline: concrete runs

    A small node library and pipeline on which the theorems about node inputs, the cache frontier
    and the processor are instantiated. *)
From S2P Require Import Prelude TaskTypes PipelineTypes Graph NodeKwargs Processor ProcessorLog Frontier ProcessorSpec.

#[global] Instance TaskCallback_eq_dec : EqDecision TaskCallback.
Proof. solve_decision. Defined.

#[global] Instance event_eq_dec : EqDecision event.
Proof. solve_decision. Defined.

Module ProcRun.

#[local] Existing Instance insertion_order.

(** Expressions evaluate to their text. *)
#[local] Instance text_runtime : InputRuntime := {|
  evaluate_input_expression text _ _ _ _ := Ok (VStr text);
  coerce_expression_result v _ _ _ := Ok v;
  sql_dialect_name _ := Ok None;
  render_sql_template text _ _ _ := Ok (VStr text);
|}.

Definition df_input : InputDefinition := mkInputDef "df" (OneIO "DATAFRAME") false false true None.
Definition limit_input : InputDefinition := mkInputDef "limit" (OneIO "INT") false false true None.
Definition signal_input : InputDefinition := mkInputDef "signal_in" (OneIO "SIGNAL") false true true None.

Definition df_class (name : string) (output : bool) : NodeClass :=
  mkNodeClass name output true true false true true false false None (λ _, false)
    [("df", df_input); ("limit", limit_input); ("signal_in", signal_input)]
    [("output", mkOutputDef "output" (OneIO "DATAFRAME")); ("signal_out", mkOutputDef "signal_out" (OneIO "SIGNAL"))].

Definition link (n o : string) : NodeRuntimeInputValue := NodeInputLink (mkLink n o).

(** [load] feeds [clean], [clean] feeds [write]. *)
Definition etl : Pipeline :=
  [("write", mkNodeData "Write" false [("df", link "clean" "output"); ("signal_in", link "clean" "signal_out")]);
   ("clean", mkNodeData "Clean" true [("df", link "load" "output"); ("limit", NodeInputConstantValue (VStr "10"))]);
   ("load", mkNodeData "Load" true [])].

(** Every node succeeds, the cache knows [load], and nobody asks to stop. *)
#[local] Instance calm_nodes : NodeRuntime := {|
  registry_get name := if decide (name ∈ ["Load"; "Clean"; "Write"]) then Some (df_class name (bool_decide (name = "Write"))) else None;
  rt_instantiate _ _ _ := Ok ();
  rt_validate _ _ _ := Ok ();
  rt_execute _ _ _ _ := mkExecution [] (Ok ());
  rt_get_outputs _ n _ := [("output", VStr n); ("signal_out", VNone)];
  rt_attribute _ _ _ := VNone;
  rt_resolve_metadata _ _ := Ok [("output", Some "schema")];
  rt_metadata_cache_key _ _ := Ok None;
  rt_cache_snapshot _ _ := Ok ();
  rt_restore_snapshot _ n :=
    Ok (if decide (n = "load") then Some (mkEntry [("output", VStr "load"); ("signal_out", VNone)] []) else None);
  rt_store_get _ _ := Ok None;
  rt_store_put _ _ := Ok ();
  rt_stop_is_set _ := false;
  rt_callback _ := Ok ();
  get_hash v := match v with VStr s => s | _ => "" end;
  create_node_inputs_fingerprint _ _ _ := "key";
|}.

Definition etl_job (mode : PipelineExecutionMode) (changed : list string) : Job :=
  mkJob mode etl None changed [] true true true true true true true true true true.

Lemma etl_wf mode changed : dwf (pipeline (etl_job mode changed)).
Proof. change (dwf etl). by_decide. Qed.

Lemma kwargs_deliver_linked_outputs_witness :
  dget [("df", VStr "rows"); ("limit", VStr "10")] "df" =
  linked_output [("load", [("output", VStr "rows")])] (mkLink "load" "output").
Proof.
  apply (kwargs_deliver_linked_outputs "clean" (df_class "Clean" false) [("load", [("output", VStr "rows")])]
    (mkNodeData "Clean" true [("df", link "load" "output"); ("limit", NodeInputConstantValue (VStr "10"))])
    [] false _ "df" (link "load" "output") df_input); try reflexivity.
  - intros n n' a. unfold attr_of. cbn. repeat case_decide; cbn; intros; simplify_eq; done.
  - unfold dwf. by_decide.
  - left.
Defined.

Lemma cache_frontier_is_sound_witness :
  ∃ st plan, _prepare_cache_frontier (etl_job FULL ["clean"]) initial_state = (Ok (), st) ∧ ps_planned st = Some plan ∧
    plan `sublist_of` ["load"; "clean"; "write"] ∧
    (∀ t, t ∈ [] → t ∈ ["load"; "clean"; "write"] → t ∈ plan ∨ t ∈ ps_completed st) ∧
    (∀ x s, x ∈ plan → depends etl s x → s ∈ plan ∨ s ∈ ps_completed st) ∧
    (∀ x, x ∈ ps_completed st → reusable (etl_job FULL ["clean"]) x).
Proof.
  apply (cache_frontier_is_sound (etl_job FULL ["clean"]) (etl_wf FULL ["clean"]) ["load"; "clean"; "write"]);
    [vm_compute; reflexivity|vm_compute; reflexivity| |reflexivity].
  intros n nd Hin. repeat apply elem_of_cons in Hin as [E|Hin]; simplify_eq; try (by eexists).
  by apply not_elem_of_nil in Hin.
Defined.

Lemma executions_follow_dependencies_witness :
  ∃ t1 t2, ps_trace (process (etl_job FULL ["clean"]) initial_state).2 = t1 ++ EvExecute "clean" :: t2 ∧
    (EvComplete "load" ∈ t1 ∨ left_out (etl_job FULL ["clean"]) "load" = true).
Proof.
  set (tr := ps_trace (process (etl_job FULL ["clean"]) initial_state).2).
  assert (tr = take 4 tr ++ EvExecute "clean" :: drop 5 tr) as E by (vm_compute; reflexivity).
  exists (take 4 tr), (drop 5 tr). split; [exact E|].
  apply (executions_follow_dependencies (etl_job FULL ["clean"]) (etl_wf FULL ["clean"]) _ _ _ E).
  split; [by_decide|]. eexists. split; [vm_compute; reflexivity|]. by_decide.
Defined.

Lemma metadata_run_executes_no_output_node_witness :
  EvExecute "clean" ∈ ps_trace (process (etl_job METADATA_ONLY []) initial_state).2 ∧
  OUTPUT_NODE (df_class "Clean" false) = false.
Proof.
  assert (EvExecute "clean" ∈ ps_trace (process (etl_job METADATA_ONLY []) initial_state).2) as Hin by by_decide.
  split; [exact Hin|].
  apply (metadata_run_executes_no_output_node (etl_job METADATA_ONLY []) (etl_wf METADATA_ONLY []) "clean"
    (mkNodeData "Clean" true [("df", link "load" "output"); ("limit", NodeInputConstantValue (VStr "10"))]));
    [reflexivity|exact Hin|reflexivity|vm_compute; reflexivity].
Defined.

Lemma success_means_all_handled_witness :
  ps_failed (process (etl_job FULL []) initial_state).2 = [].
Proof.
  apply (success_means_all_handled (etl_job FULL []) (etl_wf FULL []) (mkProcessResult true None) _);
    [vm_compute; reflexivity|reflexivity].
Defined.

Lemma one_outcome_is_reported_witness :
  ∃ r st c, process (etl_job FULL []) initial_state = (Ok r, st) ∧ reports (ps_trace st) = [EvTask c] ∧ announces c r.
Proof. apply (one_outcome_is_reported (etl_job FULL []) (etl_wf FULL [])); reflexivity. Defined.

End ProcRun.
