(* ===== verification/KafkaTypes.v ===== *)
(** Kafka consumption: value objects, entities and policies, from
    [src/modules/kafka_consumption/domain], and the effects of its use cases.

    A frozen dataclass is a record; its [__post_init__] is a validating constructor [make_...]
    that raises [KafkaInputError] as the code does. Offsets, counts and byte sizes are Python
    integers, hence [Z]. The use cases run in [K W]: they pass a world [W] (the broker, the clock,
    the cancellation flag) and may raise. *)
From S2P Require Import Prelude.

#[global] Open Scope Z_scope.

(** ** Exceptions *)

Inductive kafka_exn :=
  | KafkaInputError (message : string)
  | KafkaPositionError (message : string)
  | KafkaMessageTooLargeError (message : string)
  | KafkaConsumptionFlowError (message : string)
  | KafkaUnavailableError (message : string)
  | KafkaSnapshotLostError (message : string)
  | KafkaDecodeError (message : string)
  | KafkaCommitError (message : string)
  | SDK_KafkaError (name : string) (retriable : bool)
  | OffsetOutOfRangeError
  | SSLError
  | KeyError
  | IndexError
  | ValueError
  | StopIteration
  | OtherError (message : string)   (* cancellation and everything else *)
  | OutOfFuel.                      (* the model's fuel is spent; never a Python exception *)

#[global] Instance kafka_exn_eq_dec : EqDecision kafka_exn.
Proof. solve_decision. Defined.

(** ** Effects *)

Definition K (W A : Type) : Type := W → outcome kafka_exn A * W.

#[global] Instance K_ret W : MRet (K W) := λ A a w, (Ok a, w).
#[global] Instance K_bind W : MBind (K W) := λ A B f m w,
  match m w with (Ok a, w') => f a w' | (Raise e, w') => (Raise e, w') end.

Definition kraise {W A} (e : kafka_exn) : K W A := λ w, (Raise e, w).
Definition klift {W A} (o : outcome kafka_exn A) : K W A := λ w, (o, w).

(** [try: m except BaseException as e: handler(e)] *)
Definition kcatch {W A} (m : K W A) (handler : kafka_exn → K W A) : K W A := λ w,
  match m w with (Ok a, w') => (Ok a, w') | (Raise e, w') => handler e w' end.

Section effects.
Context {W : Type}.

Lemma kbind_ok {A B} (m : K W A) (f : A → K W B) w b w' :
  (m ≫= f) w = (Ok b, w') → ∃ a w1, m w = (Ok a, w1) ∧ f a w1 = (Ok b, w').
Proof. unfold mbind, K_bind. destruct (m w) as [[a|e] w1]; [eauto|done]. Qed.

Lemma kbind_raise {A B} (m : K W A) (f : A → K W B) w e w' :
  (m ≫= f) w = (Raise e, w') →
  m w = (Raise e, w') ∨ ∃ a w1, m w = (Ok a, w1) ∧ f a w1 = (Raise e, w').
Proof. unfold mbind, K_bind. destruct (m w) as [[a|e'] w1]; [eauto|intros [= -> ->]; auto]. Qed.

Lemma kbind_eq {A B} (m : K W A) (f : A → K W B) w a w1 :
  m w = (Ok a, w1) → (m ≫= f) w = f a w1.
Proof. unfold mbind, K_bind. by intros ->. Qed.

Lemma klift_ok {A} (o : outcome kafka_exn A) (w w' : W) a : klift o w = (Ok a, w') → o = Ok a ∧ w' = w.
Proof. unfold klift. by intros [= -> ->]. Qed.

Lemma kret_ok {A} (a b : A) (w w' : W) : (mret a : K W A) w = (Ok b, w') → b = a ∧ w' = w.
Proof. unfold mret, K_ret. by intros [= -> ->]. Qed.
End effects.

Lemma Ok_inj {E A} (a b : A) : (Ok a : outcome E A) = Ok b → a = b.
Proof. by intros [= ->]. Qed.

Lemma obind_ok {E A B} (m : outcome E A) (f : A → outcome E B) b :
  (m ≫= f) = Ok b → ∃ a, m = Ok a ∧ f a = Ok b.
Proof. destruct m; [eauto|done]. Qed.

(** Splits a successful run into the successful runs of its steps. *)
Ltac kinv :=
  repeat match goal with
  | H : (_ ≫= _) _ = (Ok _, _) |- _ =>
      let a := fresh "a" in let w := fresh "w" in let Hm := fresh "Hm" in
      apply kbind_ok in H as (a & w & Hm & H)
  | H : klift _ _ = (Ok _, _) |- _ => apply klift_ok in H as [H ?]; subst
  | H : mret _ _ = (Ok _, _) |- _ => apply kret_ok in H as [? ?]; subst
  | H : kraise _ _ = (Ok _, _) |- _ => discriminate H
  | H : (_ ≫= _) = Ok _ |- _ =>
      let a := fresh "a" in let Hm := fresh "Hm" in apply obind_ok in H as (a & Hm & H)
  end.

(** ** Python helpers *)

(** [l[i]], with Python's negative indices. *)
Definition py_nth {A} (l : list A) (i : Z) : outcome kafka_exn A :=
  let j := if i <? 0 then i + Z.of_nat (length l) else i in
  if j <? 0 then Raise IndexError
  else match l !! Z.to_nat j with Some x => Ok x | None => Raise IndexError end.

Definition zlen {A} (l : list A) : Z := Z.of_nat (length l).

Definition sumZ (l : list Z) : Z := foldr Z.add 0 l.

Lemma sumZ_app l k : sumZ (l ++ k) = sumZ l + sumZ k.
Proof. induction l as [|x l IH]; simpl; lia. Qed.

Lemma sumZ_nonneg l : Forall (Z.le 0) l → 0 ≤ sumZ l.
Proof. induction 1; simpl; lia. Qed.

Lemma sumZ_insert l i x y : l !! i = Some x → sumZ (<[i:=y]> l) = sumZ l - x + y.
Proof.
  revert i; induction l as [|z l IH]; intros [|i] Hi; simpl in *; simplify_eq; [lia|].
  rewrite (IH i) by done. lia.
Qed.

Lemma py_nth_ok {A} (l : list A) i x : 0 ≤ i → py_nth l i = Ok x → l !! Z.to_nat i = Some x.
Proof.
  intros Hi. unfold py_nth. destruct (Z.ltb_spec i 0) as [|_]; [lia|].
  destruct (Z.ltb_spec i 0) as [|_]; [lia|]. destruct (l !! Z.to_nat i); intros; by simplify_eq.
Qed.

Lemma py_nth_intro {A} (l : list A) i x : 0 ≤ i → l !! Z.to_nat i = Some x → py_nth l i = Ok x.
Proof.
  intros Hi E. unfold py_nth. destruct (Z.ltb_spec i 0) as [|_]; [lia|].
  destruct (Z.ltb_spec i 0) as [|_]; [lia|]. by rewrite E.
Qed.

Lemma zlen_app {A} (l k : list A) : zlen (l ++ k) = zlen l + zlen k.
Proof. unfold zlen. rewrite length_app. lia. Qed.

Lemma zlen_nonneg {A} (l : list A) : 0 ≤ zlen l.
Proof. unfold zlen. lia. Qed.

(** ** Value objects *)

Definition nonnegative (value : Z) (name : string) : outcome kafka_exn unit :=
  if value <? 0 then Raise (KafkaInputError (name ++ " must be a nonnegative integer")) else Ok ().

(** The same check on an attribute that may be [None]. *)
Definition nonnegative_opt (value : option Z) (name : string) : outcome kafka_exn unit :=
  match value with Some v => nonnegative v name | None => Ok () end.

Record TopicPartition := mkTP { tp_topic : string; tp_partition : Z }.

#[global] Instance TopicPartition_eq_dec : EqDecision TopicPartition.
Proof. solve_decision. Defined.

#[global] Instance TopicPartition_countable : Countable TopicPartition.
Proof.
  refine (inj_countable' (λ tp, (tp_topic tp, tp_partition tp)) (λ p, mkTP p.1 p.2) _).
  by intros [].
Defined.

Definition make_TopicPartition (topic : string) (partition : Z) : outcome kafka_exn TopicPartition :=
  if negb (strip_truthy topic) then Raise (KafkaInputError "topic must be nonempty")
  else _ ← nonnegative partition "partition"; Ok (mkTP topic partition).

Record OffsetRange := mkRange { or_tp : TopicPartition; or_start : Z; or_end : Z }.

#[global] Instance OffsetRange_eq_dec : EqDecision OffsetRange.
Proof. solve_decision. Defined.

Definition make_OffsetRange (tp : TopicPartition) (start end_ : Z) : outcome kafka_exn OffsetRange :=
  _ ← nonnegative start "start";
  _ ← nonnegative end_ "end";
  if end_ <? start then Raise (KafkaInputError "start must not exceed end")
  else Ok (mkRange tp start end_).

Record ReadLimits := mkLimits {
  max_messages : option Z;
  max_bytes : option Z;
  rows_per_partition : Z;
  target_partition_bytes : Z;
  max_message_bytes : Z;
}.

#[global] Instance ReadLimits_eq_dec : EqDecision ReadLimits.
Proof. solve_decision. Defined.

Definition positive_limit (value : Z) (name : string) : outcome kafka_exn unit :=
  _ ← nonnegative value name;
  if value =? 0 then Raise (KafkaInputError (name ++ " must be positive")) else Ok ().

Definition positive_limit_opt (value : option Z) (name : string) : outcome kafka_exn unit :=
  match value with Some v => positive_limit v name | None => Ok () end.

Definition make_ReadLimits (max_messages max_bytes : option Z)
    (rows_per_partition target_partition_bytes max_message_bytes : Z) : outcome kafka_exn ReadLimits :=
  _ ← positive_limit_opt max_messages "max_messages";
  _ ← positive_limit_opt max_bytes "max_bytes";
  _ ← positive_limit rows_per_partition "rows_per_partition";
  _ ← positive_limit target_partition_bytes "target_partition_bytes";
  _ ← positive_limit max_message_bytes "max_message_bytes";
  Ok (mkLimits max_messages max_bytes rows_per_partition target_partition_bytes max_message_bytes).

Definition default_ReadLimits : ReadLimits :=
  mkLimits (Some 100000) (Some 67108864) 10000 8388608 16777216.

Record PartitionPosition := mkPosition { pp_tp : TopicPartition; pp_next_offset : Z }.

#[global] Instance PartitionPosition_eq_dec : EqDecision PartitionPosition.
Proof. solve_decision. Defined.

Definition make_PartitionPosition (tp : TopicPartition) (next_offset : Z)
    : outcome kafka_exn PartitionPosition :=
  _ ← nonnegative next_offset "next_offset"; Ok (mkPosition tp next_offset).

Inductive StopReason := snapshot_exhausted | stop_max_messages | stop_max_bytes.

#[global] Instance StopReason_eq_dec : EqDecision StopReason.
Proof. solve_decision. Defined.

Record ReadCursor := mkCursor {
  rc_positions : list PartitionPosition;
  rc_remaining_messages : option Z;
  rc_remaining_bytes : option Z;
  rc_next_partition_index : Z;
  rc_stop_reason : option StopReason;
}.

#[global] Instance ReadCursor_eq_dec : EqDecision ReadCursor.
Proof. solve_decision. Defined.

Definition make_ReadCursor (positions : list PartitionPosition)
    (remaining_messages remaining_bytes : option Z) (next_partition_index : Z)
    (stop_reason : option StopReason) : outcome kafka_exn ReadCursor :=
  _ ← nonnegative_opt remaining_messages "remaining_messages";
  _ ← nonnegative_opt remaining_bytes "remaining_bytes";
  _ ← nonnegative next_partition_index "next_partition_index";
  Ok (mkCursor positions remaining_messages remaining_bytes next_partition_index stop_reason).

Record PartitionOffsets := mkPO {
  po_partition : Z;
  po_next_offset : Z;
  po_start_offset : option Z;
  po_last_message_offset : option Z;
  po_message_count : option Z;
  po_payload_bytes : option Z;
}.

#[global] Instance PartitionOffsets_eq_dec : EqDecision PartitionOffsets.
Proof. solve_decision. Defined.

Definition make_PartitionOffsets (p : PartitionOffsets) : outcome kafka_exn PartitionOffsets :=
  _ ← nonnegative (po_partition p) "partition";
  _ ← nonnegative (po_next_offset p) "next_offset";
  _ ← nonnegative_opt (po_start_offset p) "start_offset";
  _ ← nonnegative_opt (po_last_message_offset p) "last_message_offset";
  _ ← nonnegative_opt (po_message_count p) "message_count";
  _ ← nonnegative_opt (po_payload_bytes p) "payload_bytes";
  _ ← (match po_start_offset p with
       | Some s => if po_next_offset p <? s
                   then Raise (KafkaInputError "start_offset exceeds next_offset") else Ok ()
       | None => Ok ()
       end : outcome kafka_exn unit);
  match po_last_message_offset p with
  | Some last =>
      if negb (last + 1 =? po_next_offset p)
      then Raise (KafkaInputError "next_offset must follow last_message_offset")
      else match po_start_offset p with
           | Some s => if last <? s
                       then Raise (KafkaInputError "last_message_offset precedes start_offset")
                       else Ok p
           | None => Ok p
           end
  | None => Ok p
  end.

(** ** Entities *)

Record ReadPlan := mkPlan {
  pl_read_id : string;
  pl_topic : string;
  pl_group_id : string;
  pl_ranges : list OffsetRange;
  pl_limits : ReadLimits;
  pl_isolation_level : string;
  pl_cluster_id : option string;
  pl_connection_id : option string;
}.

Abbreviation bytes := (list Byte.byte).

Record RawMessage := mkMessage {
  rm_tp : TopicPartition;
  rm_offset : Z;
  rm_timestamp_ms : option Z;
  rm_timestamp_type : option string;
  rm_key : option bytes;
  rm_value : option bytes;
  rm_headers : list (string * option bytes);
}.

(** [len(b or b"")] *)
Definition bytes_len (b : option bytes) : Z := match b with Some b => zlen b | None => 0 end.

(** The property [payload_bytes]; a header name counts with its UTF-8 encoding. *)
Definition payload_bytes (m : RawMessage) : Z :=
  bytes_len (rm_key m) + bytes_len (rm_value m)
  + sumZ ((λ h, Z.of_nat (String.length h.1) + bytes_len h.2) <$> rm_headers m).

Definition payload_sum (ms : list RawMessage) : Z := sumZ (payload_bytes <$> ms).

Record ReadBatch := mkBatch {
  rb_messages : list RawMessage;
  rb_next_position : Z;
  rb_exhausted : bool;
  rb_byte_limit_reached : bool;
}.

Record ChunkReceipt := mkReceipt {
  cr_read_id : string;
  cr_part_number : Z;
  cr_offsets : list PartitionOffsets;
  cr_message_count : Z;
  cr_payload_bytes : Z;
  cr_fingerprint : string;
  cr_cursor : ReadCursor;
}.

Record ReadSummary := mkSummary {
  rs_topic : string;
  rs_group_id : string;
  rs_partitions : list PartitionOffsets;
  rs_read_id : option string;
  rs_cluster_id : option string;
  rs_connection_id : option string;
  rs_isolation_level : string;
  rs_messages_read : option Z;
  rs_bytes_read : option Z;
  rs_stop_reason : option StopReason;
}.

Record PartitionCommitResult := mkCommit {
  pc_partition : Z;
  pc_requested : Z;
  pc_current : option Z;
  pc_resulting : Z;
  pc_status : string;
}.

Definition CommitResult : Type := list PartitionCommitResult.

Definition partitions_committed (r : CommitResult) : Z :=
  zlen (filter (λ item, pc_status item = "committed") r).

(** ** Policies *)

Definition validate_position (position beginning end_ : Z) : outcome kafka_exn Z :=
  _ ← nonnegative position "position";
  _ ← nonnegative beginning "beginning";
  _ ← nonnegative end_ "end";
  if (beginning <=? position) && (position <=? end_) then Ok position
  else Raise (KafkaPositionError ("Position " ++ pretty position ++ " is outside available range ["
                ++ pretty beginning ++ ", " ++ pretty end_ ++ "]")).

Definition select_start_position (mode : string) (beginning end_ : Z) (committed : option Z)
    (missing_policy : string) (timestamp_position explicit_position : option Z)
    : outcome kafka_exn Z :=
  let by_mode mode :=
    if bool_decide (mode = "earliest") then validate_position beginning beginning end_
    else if bool_decide (mode = "latest") then validate_position end_ beginning end_
    else if bool_decide (mode = "timestamp") then
      validate_position (match timestamp_position with Some t => Z.min t end_ | None => end_ end)
        beginning end_
    else match explicit_position with
         | Some p => if bool_decide (mode = "explicit") then validate_position p beginning end_
                     else Raise (KafkaInputError "Invalid start mode or missing explicit position")
         | None => Raise (KafkaInputError "Invalid start mode or missing explicit position")
         end in
  if bool_decide (mode = "committed") then
    match committed with
    | Some c => validate_position c beginning end_
    | None =>
        if bool_decide (missing_policy = "error") then Raise (KafkaPositionError "No committed position")
        else if negb (bool_decide (missing_policy ∈ ["earliest"; "latest"])) then
          Raise (KafkaInputError "Unknown missing offset policy")
        else by_mode missing_policy
    end
  else by_mode mode.

Definition monotonic_commit (partition requested : Z) (current : option Z) (end_ : Z)
    : outcome kafka_exn PartitionCommitResult :=
  _ ← nonnegative partition "partition";
  _ ← validate_position requested 0 end_;
  match current with
  | Some c =>
      _ ← nonnegative c "current";
      if requested <=? c then
        Ok (mkCommit partition requested current c
              (if c =? requested then "unchanged" else "already_ahead"))
      else Ok (mkCommit partition requested current requested "committed")
  | None => Ok (mkCommit partition requested current requested "committed")
  end.

(** ** Facts on the constructors and policies *)

Lemma nonnegative_ok v n u : nonnegative v n = Ok u → 0 ≤ v.
Proof. unfold nonnegative. case_match eqn:E; [done|]. apply Z.ltb_ge in E. by intros _. Qed.

Lemma nonnegative_intro v n : 0 ≤ v → nonnegative v n = Ok ().
Proof. unfold nonnegative. intros ?. by rewrite (proj2 (Z.ltb_ge v 0)). Qed.

Lemma validate_position_ok p b e x : validate_position p b e = Ok x → x = p ∧ 0 ≤ b ∧ b ≤ p ≤ e.
Proof.
  unfold validate_position. intros H. kinv.
  destruct ((b <=? p) && (p <=? e)) eqn:E; [|done]. apply andb_prop in E as [?%Z.leb_le ?%Z.leb_le].
  simplify_eq. apply nonnegative_ok in Hm0. lia.
Qed.

Lemma validate_position_intro p b e : 0 ≤ b → b ≤ p ≤ e → validate_position p b e = Ok p.
Proof.
  intros ? [??]. unfold validate_position. rewrite !nonnegative_intro by lia. simpl.
  by rewrite (proj2 (Z.leb_le b p)), (proj2 (Z.leb_le p e)).
Qed.

Lemma positive_limit_ok v n u : positive_limit v n = Ok u → 0 < v.
Proof.
  unfold positive_limit. intros H. kinv. apply nonnegative_ok in Hm.
  case_match eqn:E; [done|]. apply Z.eqb_neq in E. lia.
Qed.

(** The invariant of [ReadLimits]. *)
Definition limits_ok (l : ReadLimits) : Prop :=
  (∀ n, max_messages l = Some n → 0 < n) ∧ (∀ n, max_bytes l = Some n → 0 < n) ∧
  0 < rows_per_partition l ∧ 0 < target_partition_bytes l ∧ 0 < max_message_bytes l.

Lemma make_ReadLimits_ok mm mb r t x l :
  make_ReadLimits mm mb r t x = Ok l → l = mkLimits mm mb r t x ∧ limits_ok l.
Proof.
  unfold make_ReadLimits. intros H. kinv. simplify_eq. split; [done|].
  apply positive_limit_ok in Hm1, Hm2, Hm3. unfold limits_ok; simpl. split_and!; try done.
  - intros n ->. by apply positive_limit_ok in Hm.
  - intros n ->. by apply positive_limit_ok in Hm0.
Qed.

Lemma payload_bytes_nonneg m : 0 ≤ payload_bytes m.
Proof.
  assert (∀ b, 0 ≤ bytes_len b) as Hb by (intros [b|]; simpl; [apply zlen_nonneg|done]).
  unfold payload_bytes. pose proof (Hb (rm_key m)). pose proof (Hb (rm_value m)).
  enough (0 ≤ sumZ ((λ h, Z.of_nat (String.length h.1) + bytes_len h.2) <$> rm_headers m)) by lia.
  apply sumZ_nonneg, Forall_fmap, Forall_forall. intros h _. simpl. specialize (Hb h.2). lia.
Qed.

Lemma payload_sum_app l k : payload_sum (l ++ k) = payload_sum l + payload_sum k.
Proof. unfold payload_sum. by rewrite fmap_app, sumZ_app. Qed.

Lemma payload_sum_cons m l : payload_sum (m :: l) = payload_bytes m + payload_sum l.
Proof. done. Qed.

Lemma payload_sum_nonneg l : 0 ≤ payload_sum l.
Proof. apply sumZ_nonneg, Forall_fmap, Forall_forall. intros m _. apply payload_bytes_nonneg. Qed.

Lemma payload_sum_bound c l : Forall (λ m, payload_bytes m ≤ c) l → payload_sum l ≤ zlen l * c.
Proof.
  unfold payload_sum, zlen. induction 1 as [|m l Hm _ IH]; [done|].
  rewrite fmap_cons, length_cons, Nat2Z.inj_succ. cbn [sumZ foldr]. fold (sumZ (payload_bytes <$> l)).
  nia.
Qed.

(** Whatever the mode, a selected start is a valid offset of the partition. *)
Lemma select_start_position_bounds mode b e c pol ts ex p :
  select_start_position mode b e c pol ts ex = Ok p → 0 ≤ b ∧ b ≤ p ≤ e.
Proof.
  unfold select_start_position. intros H.
  repeat (case_bool_decide || case_match); try discriminate;
    apply validate_position_ok in H as (-> & ? & ?); lia.
Qed.

(** A commit decision never moves the committed position backwards or past the end, and asks the
    broker for a change exactly when the request is ahead. *)
Lemma monotonic_commit_ok part req cur e r :
  monotonic_commit part req cur e = Ok r →
  pc_partition r = part ∧ pc_requested r = req ∧ pc_current r = cur ∧ 0 ≤ req ≤ e ∧
  pc_resulting r = Z.max req (default 0 cur) ∧
  (pc_status r = "committed" ↔ (∀ c, cur = Some c → c < req)).
Proof.
  unfold monotonic_commit. intros H. kinv. apply validate_position_ok in Hm0 as (-> & _ & ?).
  destruct cur as [c|].
  - kinv. apply nonnegative_ok in Hm0. destruct (req <=? c) eqn:E.
    + apply Z.leb_le in E. simplify_eq; simpl. split_and!; try done; try lia.
      split; [by destruct (c =? req)|]. intros Hc. specialize (Hc c eq_refl). lia.
    + apply Z.leb_gt in E. simplify_eq; simpl. split_and!; try done; try lia.
      split; [by intros _ ? [= ->]|done].
  - simplify_eq; simpl. split_and!; try done; try lia.
Qed.
