(* ===== verification/KafkaFlow.v ===== *)
(** Kafka consumption: the gateway as the use cases see it, and the use cases [PlanKafkaRead],
    [ReadKafkaChunk] and [CommitKafkaOffsets] of
    [src/modules/kafka_consumption/flow/use_cases].

    The gateway is an interface: the record of its operations ([KafkaGateway], the protocol of
    [domain/gateways/kafka.py]) and, apart, the contract of [read] ([KafkaLog]), which the file of
    the implementation discharges. The loop of a chunk runs on a fuel computed from the plan and
    the cursor; it is proved to be enough for every gateway. *)
From S2P Require Import Prelude KafkaTypes.

(** ** The gateway *)

Class KafkaGateway (W : Type) := {
  gw_partitions : string → K W (list Z);
  gw_cluster_id : K W (option string);
  gw_bounds : list TopicPartition → string → K W (gmap TopicPartition (Z * Z));
  gw_offsets_for_timestamp :
    list TopicPartition → Z → string → K W (gmap TopicPartition (option Z));
  gw_committed : string → list TopicPartition → K W (gmap TopicPartition (option Z));
  (* offset_range, isolation_level, max_records, max_bytes, total_max_bytes, target_bytes,
     max_message_bytes *)
  gw_read : OffsetRange → string → Z → option Z → option Z → Z → Z → K W ReadBatch;
  gw_commit : string → list (TopicPartition * Z) → K W unit;
}.

(** [d[k]] *)
Definition map_get {V} (d : gmap TopicPartition V) (k : TopicPartition) : outcome kafka_exn V :=
  match d !! k with Some v => Ok v | None => Raise KeyError end.

(** A list comprehension whose body may raise. *)
Fixpoint omapM {A B} (f : A → outcome kafka_exn B) (l : list A) : outcome kafka_exn (list B) :=
  match l with
  | [] => Ok []
  | x :: l' => y ← f x; ys ← omapM f l'; Ok (y :: ys)
  end.

(** A [for] loop that only checks. *)
Fixpoint for_each {A} (f : A → outcome kafka_exn unit) (l : list A) : outcome kafka_exn unit :=
  match l with [] => Ok () | x :: l' => _ ← f x; for_each f l' end.

(** [zip(l, k, strict=True)], consumed completely. *)
Definition zip_strict {A B} (l : list A) (k : list B) : outcome kafka_exn (list (A * B)) :=
  if bool_decide (length l = length k) then Ok (zip l k) else Raise ValueError.

(** A [datetime]: whether it has a UTC offset, and [int(t.timestamp() * 1000)]. *)
Record datetime := mkDatetime { dt_aware : bool; dt_timestamp_ms : Z }.

Section use_cases.
Context {W : Type} {gw : KafkaGateway W}.
Context (check_cancelled : K W unit).
Context (uuid4 : K W string).
Context (fingerprint_of : list RawMessage → string).  (* sha256(repr(...)).hexdigest() *)

(** ** PlanKafkaRead *)

Definition check_plan_arguments (topic group_id start_mode missing_offset_policy : string)
    (start_timestamp : option datetime) (isolation_level : string) : outcome kafka_exn unit :=
  _ ← make_TopicPartition topic 0;
  if negb (strip_truthy group_id) then Raise (KafkaInputError "group_id must be nonempty")
  else if negb (bool_decide (start_mode ∈
      ["committed"; "earliest"; "latest"; "timestamp"; "explicit"])) then
    Raise (KafkaInputError "Invalid start mode")
  else if negb (bool_decide (missing_offset_policy ∈ ["earliest"; "latest"; "error"])) then
    Raise (KafkaInputError "Invalid missing offset policy")
  else if negb (bool_decide (isolation_level ∈ ["read_committed"; "read_uncommitted"])) then
    Raise (KafkaInputError "Invalid isolation level")
  else if bool_decide (start_mode = "timestamp")
       && negb (match start_timestamp with Some t => dt_aware t | None => false end) then
    Raise (KafkaInputError "timestamp mode requires a timezone-aware start_timestamp")
  else Ok ().

Definition check_start_offsets (selected : list Z) (start_offsets : option (pydict Z))
    : outcome kafka_exn unit :=
  match start_offsets with
  | Some d =>
      if negb (bool_decide (Forall (λ k, k ∈ pretty <$> selected) (dkeys d)
                            ∧ Forall (λ p, pretty p ∈ dkeys d) selected))
      then Raise (KafkaInputError "start_offsets must contain exactly the selected partition IDs")
      else for_each (λ v, nonnegative v "start_offset") (dvals d)
  | None => Raise (KafkaInputError "start_offsets must contain exactly the selected partition IDs")
  end.

(** The range of one partition in the snapshot. *)
Definition plan_range (start_mode missing_offset_policy : string)
    (start_offsets : option (pydict Z)) (bounds : gmap TopicPartition (Z * Z))
    (committed timestamps : gmap TopicPartition (option Z)) (tp : TopicPartition)
    : outcome kafka_exn OffsetRange :=
  b ← map_get bounds tp;
  start ← select_start_position start_mode b.1 b.2 (mjoin (committed !! tp)) missing_offset_policy
            (mjoin (timestamps !! tp)) (dget (default [] start_offsets) (pretty (tp_partition tp)));
  make_OffsetRange tp start b.2.

Definition PlanKafkaRead (topic group_id : string) (limits : ReadLimits)
    (partitions : option (list Z)) (start_mode missing_offset_policy : string)
    (start_timestamp : option datetime) (start_offsets : option (pydict Z))
    (isolation_level : string) (connection_id : option string) : K W ReadPlan :=
  _ ← klift (check_plan_arguments topic group_id start_mode missing_offset_policy start_timestamp
               isolation_level);
  _ ← check_cancelled;
  available ← gw_partitions topic;
  let selected := default available partitions in
  _ ← klift (for_each (λ p, nonnegative p "partition") selected);
  if bool_decide (selected = [] ∨ ¬ NoDup selected ∨ ¬ Forall (λ p, p ∈ available) selected) then
    kraise (KafkaInputError "Partitions must be nonempty, unique and available")
  else
    tps ← klift (omapM (make_TopicPartition topic) (merge_sort Z.le selected));
    _ ← (if bool_decide (start_mode = "explicit")
         then klift (check_start_offsets selected start_offsets) else mret () : K W unit);
    _ ← check_cancelled;
    bounds ← gw_bounds tps isolation_level;
    committed ← (if bool_decide (start_mode = "committed") then gw_committed group_id tps
                 else mret ∅ : K W (gmap TopicPartition (option Z)));
    timestamps ← (if bool_decide (start_mode = "timestamp") then
                    gw_offsets_for_timestamp tps
                      (match start_timestamp with Some t => dt_timestamp_ms t | None => 0 end)
                      isolation_level
                  else mret ∅ : K W (gmap TopicPartition (option Z)));
    ranges ← klift (omapM (plan_range start_mode missing_offset_policy start_offsets bounds
                             committed timestamps) tps);
    _ ← check_cancelled;
    read_id ← uuid4;
    cluster_id ← gw_cluster_id;
    mret (mkPlan read_id topic group_id ranges limits isolation_level cluster_id connection_id).

(** ** ReadKafkaChunk *)

(** The local variables of the loop. *)
Record ChunkState := mkChunk {
  cs_positions : list PartitionPosition;
  cs_remaining_messages : option Z;
  cs_remaining_bytes : option Z;
  cs_index : Z;
  cs_reason : option StopReason;
  cs_messages : list RawMessage;
  cs_offsets : list PartitionOffsets;
  cs_payload_bytes : Z;
}.

Definition stop_with (reason : StopReason) (st : ChunkState) : ChunkState :=
  mkChunk (cs_positions st) (cs_remaining_messages st) (cs_remaining_bytes st) (cs_index st)
    (Some reason) (cs_messages st) (cs_offsets st) (cs_payload_bytes st).

Definition set_index (index : Z) (st : ChunkState) : ChunkState :=
  mkChunk (cs_positions st) (cs_remaining_messages st) (cs_remaining_bytes st) index
    (cs_reason st) (cs_messages st) (cs_offsets st) (cs_payload_bytes st).

(** [all(p.next_offset >= r.end for p, r in zip(positions, ranges, strict=True))] *)
Fixpoint all_exhausted (positions : list PartitionPosition) (ranges : list OffsetRange)
    : outcome kafka_exn bool :=
  match positions, ranges with
  | [], [] => Ok true
  | p :: ps, r :: rs => if or_end r <=? pp_next_offset p then all_exhausted ps rs else Ok false
  | _, _ => Raise ValueError
  end.

Definition offset_entry (position : PartitionPosition) (messages : list RawMessage)
    : outcome kafka_exn (list PartitionOffsets) :=
  match last messages with
  | None => Ok []
  | Some m =>
      po ← make_PartitionOffsets
             (mkPO (tp_partition (pp_tp position)) (rm_offset m + 1)
                (Some (pp_next_offset position)) (Some (rm_offset m)) (Some (zlen messages))
                (Some (payload_sum messages)));
      Ok [po]
  end.

(** What the loop body does with a batch that was read from [position], at index [i]. *)
Definition accept_batch (st : ChunkState) (i index : Z) (position : PartitionPosition)
    (batch : ReadBatch) : outcome kafka_exn ChunkState :=
  if (rb_next_position batch <=? pp_next_offset position) && negb (rb_byte_limit_reached batch) then
    Raise (KafkaConsumptionFlowError "Kafka chunk made no progress")
  else
    position' ← make_PartitionPosition (pp_tp position) (rb_next_position batch);
    entry ← offset_entry position (rb_messages batch);
    let size := payload_sum (rb_messages batch) in
    Ok (mkChunk (<[Z.to_nat i := position']> (cs_positions st))
          ((λ n, n - zlen (rb_messages batch)) <$> cs_remaining_messages st)
          ((λ n, n - size) <$> cs_remaining_bytes st)
          index
          (if rb_byte_limit_reached batch then Some stop_max_bytes else cs_reason st)
          (cs_messages st ++ rb_messages batch)
          (cs_offsets st ++ entry)
          (cs_payload_bytes st + size)).

(** The loop body after the stop tests. *)
Definition read_partition (plan : ReadPlan) (st : ChunkState) : K W ChunkState :=
  let limits := pl_limits plan in
  position ← klift (py_nth (cs_positions st) (cs_index st));
  original ← klift (py_nth (pl_ranges plan) (cs_index st));
  let n := zlen (cs_positions st) in
  let index := (cs_index st + 1) mod n in
  if or_end original <=? pp_next_offset position then mret (set_index index st)
  else
    _ ← check_cancelled;
    let rows := rows_per_partition limits - zlen (cs_messages st) in
    range ← klift (make_OffsetRange (pp_tp position) (pp_next_offset position) (or_end original));
    batch ← gw_read range (pl_isolation_level plan)
              (match cs_remaining_messages st with Some m => Z.min rows m | None => rows end)
              (cs_remaining_bytes st) (max_bytes limits)
              (target_partition_bytes limits - cs_payload_bytes st) (max_message_bytes limits);
    klift (accept_batch st ((index - 1) mod n) index position batch).

Fixpoint chunk_loop (fuel : nat) (plan : ReadPlan) (st : ChunkState) : K W ChunkState :=
  match fuel with
  | O => kraise OutOfFuel
  | S fuel' =>
      match cs_reason st with
      | Some _ => mret st
      | None =>
          exhausted ← klift (all_exhausted (cs_positions st) (pl_ranges plan));
          if exhausted : bool then mret (stop_with snapshot_exhausted st)
          else if bool_decide (cs_remaining_messages st = Some 0) then
            mret (stop_with stop_max_messages st)
          else if bool_decide (cs_remaining_bytes st = Some 0) then
            mret (stop_with stop_max_bytes st)
          else if (rows_per_partition (pl_limits plan) <=? zlen (cs_messages st))
               || (target_partition_bytes (pl_limits plan) <=? cs_payload_bytes st) then mret st
          else st' ← read_partition plan st; chunk_loop fuel' plan st'
      end
  end.

(** What is left to read in each partition. *)
Definition lag (p : PartitionPosition) (r : OffsetRange) : Z :=
  Z.max 0 (or_end r - pp_next_offset p).

Definition total_lag (positions : list PartitionPosition) (ranges : list OffsetRange) : Z :=
  sumZ (zip_with lag positions ranges).

(** A round over the partitions per offset, one more to see that all is read, and the last test. *)
Definition chunk_fuel (plan : ReadPlan) (cursor : ReadCursor) : nat :=
  Z.to_nat ((total_lag (rc_positions cursor) (pl_ranges plan) + 1) * zlen (rc_positions cursor) + 2).

Definition start_chunk (cursor : ReadCursor) : ChunkState :=
  mkChunk (rc_positions cursor) (rc_remaining_messages cursor) (rc_remaining_bytes cursor)
    (rc_next_partition_index cursor) (rc_stop_reason cursor) [] [] 0.

Definition chunk_receipt (plan : ReadPlan) (part_number : Z) (st : ChunkState)
    : outcome kafka_exn (list RawMessage * ChunkReceipt) :=
  next_cursor ← make_ReadCursor (cs_positions st) (cs_remaining_messages st)
                  (cs_remaining_bytes st) (cs_index st) (cs_reason st);
  Ok (cs_messages st,
      mkReceipt (pl_read_id plan) part_number (cs_offsets st) (zlen (cs_messages st))
        (cs_payload_bytes st) (fingerprint_of (cs_messages st)) next_cursor).

(** [ReadKafkaChunk.execute] *)
Definition read_chunk (plan : ReadPlan) (cursor : ReadCursor) (part_number : Z)
    : K W (list RawMessage * ChunkReceipt) :=
  _ ← check_cancelled;
  st ← chunk_loop (chunk_fuel plan cursor) plan (start_chunk cursor);
  _ ← check_cancelled;
  klift (chunk_receipt plan part_number st).

(** [next(r.topic_partition for r in plan.ranges if r.topic_partition.partition == partition)] *)
Definition find_range (plan : ReadPlan) (partition : Z) : outcome kafka_exn TopicPartition :=
  match list_find (λ r, tp_partition (or_tp r) = partition) (pl_ranges plan) with
  | Some (_, r) => Ok (or_tp r)
  | None => Raise StopIteration
  end.

Definition opt_int (x : option Z) : outcome kafka_exn Z :=
  match x with Some v => Ok v | None => Raise (OtherError "TypeError") end.

Definition replay_offset (plan : ReadPlan) (offset : PartitionOffsets) : K W (list RawMessage) :=
  _ ← check_cancelled;
  tp ← klift (find_range plan (po_partition offset));
  start ← klift (opt_int (po_start_offset offset));
  range ← klift (make_OffsetRange tp start (po_next_offset offset));
  count ← klift (opt_int (po_message_count offset));
  size ← klift (opt_int (po_payload_bytes offset));
  batch ← gw_read range (pl_isolation_level plan) count (Some size) (max_bytes (pl_limits plan))
            (size + 1) (max_message_bytes (pl_limits plan));
  mret (rb_messages batch).

Fixpoint replay_offsets (plan : ReadPlan) (offsets : list PartitionOffsets) (messages : list RawMessage)
    : K W (list RawMessage) :=
  match offsets with
  | [] => mret messages
  | offset :: offsets' =>
      ms ← replay_offset plan offset; replay_offsets plan offsets' (messages ++ ms)
  end.

(** [ReadKafkaChunk.replay] *)
Definition replay_chunk (plan : ReadPlan) (receipt : ChunkReceipt)
    : K W (list RawMessage * ChunkReceipt) :=
  messages ← replay_offsets plan (cr_offsets receipt) [];
  _ ← check_cancelled;
  if bool_decide (fingerprint_of messages = cr_fingerprint receipt) then mret (messages, receipt)
  else kraise (KafkaConsumptionFlowError ("Kafka chunk changed: read_id=" ++ pl_read_id plan
                 ++ ", part=" ++ pretty (cr_part_number receipt))).

(** ** CommitKafkaOffsets *)

Definition check_summary (offsets : ReadSummary) : outcome kafka_exn unit :=
  if negb (strip_truthy (rs_group_id offsets)) then Raise (KafkaInputError "group_id must be nonempty")
  else
    _ ← make_TopicPartition (rs_topic offsets) 0;
    if negb (bool_decide (rs_isolation_level offsets ∈ ["read_committed"; "read_uncommitted"])) then
      Raise (KafkaInputError "Invalid isolation level")
    else if negb (match rs_cluster_id offsets with Some c => strip_truthy c | None => true end) then
      Raise (KafkaInputError "cluster_id must be nonempty when provided")
    else Ok ().

Definition commit_decision (bounds : gmap TopicPartition (Z * Z))
    (current : gmap TopicPartition (option Z)) (x : PartitionOffsets * TopicPartition)
    : outcome kafka_exn PartitionCommitResult :=
  c ← map_get current x.2;
  b ← map_get bounds x.2;
  monotonic_commit (po_partition x.1) (po_next_offset x.1) c b.2.

(** The positions that are really sent to the broker. *)
Definition commit_positions (decisions : list (TopicPartition * PartitionCommitResult))
    : list (TopicPartition * Z) :=
  (λ d, (d.1, pc_requested d.2)) <$> filter (λ d, pc_status d.2 = "committed") decisions.

Definition CommitKafkaOffsets (offsets : ReadSummary) : K W CommitResult :=
  _ ← check_cancelled;
  _ ← klift (check_summary offsets);
  partitions ← klift (omapM (λ p, make_TopicPartition (rs_topic offsets) (po_partition p))
                        (rs_partitions offsets));
  if bool_decide (¬ NoDup partitions) then kraise (KafkaInputError "Duplicate partitions")
  else
    _ ← klift (for_each (λ part, nonnegative (po_next_offset part) "next_offset")
                 (rs_partitions offsets));
    _ ← check_cancelled;
    available ← gw_partitions (rs_topic offsets);
    if negb (bool_decide (Forall (λ p, tp_partition p ∈ available) partitions)) then
      kraise (KafkaInputError "Unknown Kafka partition")
    else
      _ ← (match rs_cluster_id offsets with
           | Some c =>
               _ ← check_cancelled;
               actual ← gw_cluster_id;
               if bool_decide (actual = Some c) then mret ()
               else kraise (KafkaInputError "Kafka cluster context mismatch or unavailable")
           | None => mret ()
           end : K W unit);
      if bool_decide (partitions = []) then _ ← check_cancelled; mret []
      else
        _ ← check_cancelled;
        bounds ← gw_bounds partitions (rs_isolation_level offsets);
        _ ← check_cancelled;
        current ← gw_committed (rs_group_id offsets) partitions;
        pairs ← klift (zip_strict (rs_partitions offsets) partitions);
        decisions ← klift (omapM (commit_decision bounds current) pairs);
        decided ← klift (zip_strict partitions decisions);
        let positions := commit_positions decided in
        _ ← check_cancelled;
        _ ← (if bool_decide (positions = []) then mret ()
             else gw_commit (rs_group_id offsets) positions : K W unit);
        _ ← check_cancelled;
        mret decisions.
End use_cases.
