(* ===== verification/KafkaSpec.v ===== *)
(** Kafka consumption: the contract of the gateway and what the use cases guarantee against it.

    The abstract view is the log of a partition: the messages visible at an isolation level, in
    offset order. [KafkaLog] states what [read] promises about it, the invariant [chunk_inv] holds
    through the loop of a chunk, and the theorems say that chunks deliver every visible message of
    the planned ranges exactly once and in order, within their budgets, that the cursor tells the
    truth about why reading stopped, that an accepted chunk can be read again, and that commits only
    move forward. *)
From S2P Require Import Prelude KafkaTypes KafkaFlow.

(** ** Segments of a log *)

Definition offset_lt (m1 m2 : RawMessage) : Prop := rm_offset m1 < rm_offset m2.

Definition segment (log : list RawMessage) (s e : Z) : list RawMessage :=
  filter (λ m, s ≤ rm_offset m < e) log.

Section segments.
Context (log : list RawMessage) (Hsorted : StronglySorted offset_lt log).

Lemma segment_nil s e : e ≤ s → segment log s e = [].
Proof.
  intros. unfold segment. apply list_filter_none. intros m _. lia.
Qed.

Lemma elem_of_segment m s e : m ∈ segment log s e ↔ m ∈ log ∧ s ≤ rm_offset m < e.
Proof. unfold segment. rewrite list_elem_of_filter. tauto. Qed.

Lemma segment_sorted s e : StronglySorted offset_lt (segment log s e).
Proof. by apply StronglySorted_filter. Qed.

Lemma segment_split s m e : s ≤ m ≤ e → segment log s e = segment log s m ++ segment log m e.
Proof.
  intros Hm. unfold segment. induction Hsorted as [|x l Hs IH Hx]; [done|].
  specialize (IH Hs). rewrite !filter_cons.
  destruct (decide (rm_offset x < m)).
  - rewrite (decide_False (P := m ≤ rm_offset x < e)) by lia.
    destruct (decide (s ≤ rm_offset x < e)), (decide (s ≤ rm_offset x < m)); try lia;
      simpl; by rewrite IH.
  - assert (filter (λ y, s ≤ rm_offset y < m) l = []) as E.
    { apply list_filter_none. intros y Hy. rewrite Forall_forall in Hx. specialize (Hx y Hy).
      unfold offset_lt in Hx. lia. }
    rewrite (decide_False (P := s ≤ rm_offset x < m)) by lia.
    rewrite IH, E. simpl.
    destruct (decide (s ≤ rm_offset x < e)), (decide (m ≤ rm_offset x < e)); try lia; done.
Qed.

Lemma segment_last s e m :
  last (segment log s e) = Some m →
  s ≤ rm_offset m < e ∧ segment log s e = segment log s (rm_offset m + 1).
Proof.
  intros Hl. assert (m ∈ segment log s e) as Hin.
  { apply last_Some in Hl as [k ->]. set_solver. }
  apply elem_of_segment in Hin as [Hin ?]. split; [done|].
  rewrite (segment_split s (rm_offset m + 1) e) by lia.
  destruct (segment log (rm_offset m + 1) e) as [|x k] eqn:E; [by rewrite app_nil_r|].
  exfalso. pose proof (segment_split s (rm_offset m + 1) e ltac:(lia)) as Hsp.
  rewrite E in Hsp. rewrite Hsp, last_app_cons in Hl.
  assert (m ∈ segment log (rm_offset m + 1) e) as Hm.
  { rewrite E. apply last_Some in Hl as [k' ->]. set_solver. }
  apply elem_of_segment in Hm as [_ ?]. lia.
Qed.

Lemma segment_singleton m s e : m ∈ log → s ≤ rm_offset m < e →
  segment log s e = segment log s (rm_offset m) ++ m :: segment log (rm_offset m + 1) e.
Proof.
  intros Hin ?. rewrite (segment_split s (rm_offset m) e) by lia. f_equal.
  rewrite (segment_split (rm_offset m) (rm_offset m + 1) e) by lia.
  enough (segment log (rm_offset m) (rm_offset m + 1) = [m]) as -> by done.
  unfold segment. induction Hsorted as [|x l Hs IH Hx]; [set_solver|].
  specialize (IH Hs). rewrite filter_cons. rewrite Forall_forall in Hx. unfold offset_lt in Hx.
  apply elem_of_cons in Hin as [->|Hin].
  - rewrite decide_True by lia. f_equal. apply list_filter_none.
    intros y Hy. specialize (Hx y Hy). lia.
  - rewrite decide_False by (specialize (Hx m Hin); lia). by apply IH.
Qed.

Lemma segment_cons s e m k : segment log s e = m :: k →
  m ∈ log ∧ s ≤ rm_offset m < e ∧ segment log s (rm_offset m) = [] ∧
  segment log (rm_offset m + 1) e = k.
Proof.
  intros E. assert (m ∈ segment log s e) as Hin by (rewrite E; left).
  apply elem_of_segment in Hin as [Hin Hm]. rewrite (segment_singleton m s e Hin Hm) in E.
  destruct (segment log s (rm_offset m)) as [|x l] eqn:Ex; simpl in E.
  { injection E as <-. split_and!; done || lia. }
  exfalso.
  assert (x ∈ segment log s (rm_offset m)) as Hx by (rewrite Ex; left).
  apply elem_of_segment in Hx as [_ ?]. injection E as -> _. lia.
Qed.

(** Distinct offsets: a segment has at most as many messages as offsets. *)
Lemma sorted_count l s e :
  StronglySorted offset_lt l → Forall (λ m, s ≤ rm_offset m < e) l → s ≤ e → zlen l ≤ e - s.
Proof.
  intros Hs. revert s. induction Hs as [|x l Hs IH Hx]; intros s Hf ?.
  - unfold zlen; simpl. lia.
  - apply Forall_cons in Hf as [? Hf]. assert (zlen l ≤ e - (rm_offset x + 1)) as Hl.
    { apply IH; [|lia]. apply Forall_forall. intros y Hy. rewrite Forall_forall in Hx, Hf.
      specialize (Hx y Hy). specialize (Hf y Hy). unfold offset_lt in Hx. lia. }
    change (zlen (x :: l)) with (Z.of_nat (S (length l))). unfold zlen in Hl. lia.
Qed.

Lemma segment_count s e : s ≤ e → zlen (segment log s e) ≤ e - s.
Proof.
  intros. apply sorted_count; [apply segment_sorted| |done].
  apply Forall_forall. intros m Hm. by apply elem_of_segment in Hm as [_ ?].
Qed.
End segments.

(** ** The contract of [read] *)

(** What a batch read from [[s, e)] of a log promises: exactly the messages of the offsets it
    passed, within the budgets; without a byte limit it makes progress and stops early only when a
    limit of the request is reached; with one, the next message is what did not fit. *)
Record read_contract (log : list RawMessage) (s e max_records : Z) (max_bytes : option Z)
    (target_bytes max_message_bytes : Z) (b : ReadBatch) : Prop := {
  rd_exact : rb_messages b = segment log s (rb_next_position b);
  rd_range : s ≤ rb_next_position b ≤ e;
  rd_count : zlen (rb_messages b) ≤ max_records;
  rd_bytes : ∀ n, max_bytes = Some n → payload_sum (rb_messages b) ≤ n;
  rd_size : Forall (λ m, payload_bytes m ≤ max_message_bytes) (rb_messages b);
  rd_progress : rb_byte_limit_reached b = false → s < e → s < rb_next_position b;
  rd_full : rb_byte_limit_reached b = false →
    rb_next_position b = e ∨ max_records ≤ zlen (rb_messages b)
    ∨ target_bytes ≤ payload_sum (rb_messages b);
  rd_limit : rb_byte_limit_reached b = true →
    ∃ n m, max_bytes = Some n ∧ m ∈ log ∧ rm_offset m = rb_next_position b ∧
           rb_next_position b < e ∧ n < payload_sum (rb_messages b) + payload_bytes m;
}.

Class KafkaLog (W : Type) {gw : KafkaGateway W} := {
  history : TopicPartition → string → list RawMessage;
  history_sorted : ∀ tp iso, StronglySorted offset_lt (history tp iso);
  history_tp : ∀ tp iso, Forall (λ m, rm_tp m = tp) (history tp iso);
  read_lawful : ∀ range iso max_records max_bytes total_max_bytes target_bytes max_message_bytes w b w',
    0 ≤ or_start range ≤ or_end range → 0 < max_records → 0 < target_bytes → 0 < max_message_bytes →
    gw_read range iso max_records max_bytes total_max_bytes target_bytes max_message_bytes w
      = (Ok b, w') →
    read_contract (history (or_tp range) iso) (or_start range) (or_end range) max_records max_bytes
      target_bytes max_message_bytes b;
}.

(** ** The invariant of a chunk *)

(** A plan as [PlanKafkaRead] makes it: valid limits and ranges, one per partition. *)
Record plan_ok (plan : ReadPlan) : Prop := {
  pk_limits : limits_ok (pl_limits plan);
  pk_ranges : Forall (λ r, 0 ≤ tp_partition (or_tp r) ∧ 0 ≤ or_start r ≤ or_end r) (pl_ranges plan);
  pk_partitions : NoDup ((λ r, tp_partition (or_tp r)) <$> pl_ranges plan);
}.

(** A position inside its range. *)
Definition in_range (p : PartitionPosition) (r : OffsetRange) : Prop :=
  pp_tp p = or_tp r ∧ or_start r ≤ pp_next_offset p ≤ or_end r.

(** The cursor stopped for the reason it gives. *)
Definition reason_true (positions : list PartitionPosition) (ranges : list OffsetRange)
    (remaining_messages remaining_bytes : option Z) (pending : TopicPartition → Z → option RawMessage)
    (reason : option StopReason) : Prop :=
  match reason with
  | None => True
  | Some snapshot_exhausted =>
      Forall2 (λ p r, pp_next_offset p = or_end r) positions ranges
  | Some stop_max_messages => remaining_messages = Some 0
  | Some stop_max_bytes =>
      remaining_bytes = Some 0 ∨
      ∃ n p m, remaining_bytes = Some n ∧ p ∈ positions ∧
               pending (pp_tp p) (pp_next_offset p) = Some m ∧ n < payload_bytes m
  end.

Section spec.
Context {W : Type} {gw : KafkaGateway W} {kl : KafkaLog W}.
Context (check_cancelled : K W unit) (fingerprint_of : list RawMessage → string).
Context (plan : ReadPlan) (Hplan : plan_ok plan).

Abbreviation iso := (pl_isolation_level plan).
Abbreviation log tp := (history tp (pl_isolation_level plan)).

Definition message_at (tp : TopicPartition) (offset : Z) : option RawMessage :=
  list_find (λ m, rm_offset m = offset) (log tp) ≫= λ x, Some x.2.

Record cursor_inv (positions : list PartitionPosition) (remaining_messages remaining_bytes : option Z)
    (index : Z) (reason : option StopReason) : Prop := {
  cu_range : Forall2 in_range positions (pl_ranges plan);
  cu_messages : ∀ n, remaining_messages = Some n → 0 ≤ n;
  cu_bytes : ∀ n, remaining_bytes = Some n → 0 ≤ n;
  cu_index : 0 ≤ index ∧ (positions ≠ [] → index < zlen positions);
  cu_reason : reason_true positions (pl_ranges plan) remaining_messages remaining_bytes message_at reason;
}.

Definition cursor_ok (c : ReadCursor) : Prop :=
  cursor_inv (rc_positions c) (rc_remaining_messages c) (rc_remaining_bytes c)
    (rc_next_partition_index c) (rc_stop_reason c).

(** From [pos0] to [pos1], exactly the visible messages between were delivered, partition by
    partition in order, and nothing else. *)
Record advances (pos0 : list PartitionPosition) (ms : list RawMessage)
    (pos1 : list PartitionPosition) : Prop := {
  ad_positions : Forall2 (λ p0 p1, pp_tp p1 = pp_tp p0 ∧ pp_next_offset p0 ≤ pp_next_offset p1) pos0 pos1;
  ad_messages : ∀ i p0 p1, pos0 !! i = Some p0 → pos1 !! i = Some p1 →
    filter (λ m, rm_tp m = pp_tp p0) ms
    = segment (log (pp_tp p0)) (pp_next_offset p0) (pp_next_offset p1);
  ad_only : Forall (λ m, rm_tp m ∈ pp_tp <$> pos0) ms;
  ad_lag : zlen ms + total_lag pos1 (pl_ranges plan) ≤ total_lag pos0 (pl_ranges plan);
}.

(** An entry of a receipt describes one batch: a partition, its start and what it delivered. *)
Record entry_ok (po : PartitionOffsets) (ms : list RawMessage) : Prop := {
  en_range : ∃ r s, r ∈ pl_ranges plan ∧ po_partition po = tp_partition (or_tp r) ∧
    po_start_offset po = Some s ∧ or_start r ≤ s ∧ s < po_next_offset po ≤ or_end r ∧
    ms = segment (log (or_tp r)) s (po_next_offset po);
  en_last : ∃ m, last ms = Some m ∧ po_next_offset po = rm_offset m + 1 ∧
    po_last_message_offset po = Some (rm_offset m);
  en_count : po_message_count po = Some (zlen ms);
  en_bytes : po_payload_bytes po = Some (payload_sum ms);
}.

Definition receipt_describes (offsets : list PartitionOffsets) (ms : list RawMessage) : Prop :=
  ∃ batches, Forall2 entry_ok offsets batches ∧ ms = concat batches.

Record chunk_inv (pos0 : list PartitionPosition) (rm0 rb0 : option Z) (st : ChunkState) : Prop := {
  ci_cursor : cursor_inv (cs_positions st) (cs_remaining_messages st) (cs_remaining_bytes st)
                (cs_index st) (cs_reason st);
  ci_advances : advances pos0 (cs_messages st) (cs_positions st);
  ci_messages : cs_remaining_messages st = (λ n, n - zlen (cs_messages st)) <$> rm0;
  ci_bytes : cs_remaining_bytes st = (λ n, n - payload_sum (cs_messages st)) <$> rb0;
  ci_payload : cs_payload_bytes st = payload_sum (cs_messages st);
  ci_rows : zlen (cs_messages st) ≤ rows_per_partition (pl_limits plan);
  ci_size : Forall (λ m, payload_bytes m ≤ max_message_bytes (pl_limits plan)) (cs_messages st);
  ci_entries : receipt_describes (cs_offsets st) (cs_messages st);
}.

Lemma advances_refl pos : advances pos [] pos.
Proof.
  split.
  - apply Forall2_same_length_lookup_2; [done|]. intros; simplify_eq. split; [done|lia].
  - intros i p0 p1 ? ?; simplify_eq. by rewrite segment_nil by lia.
  - constructor.
  - unfold zlen; simpl. lia.
Qed.

Lemma advances_trans pos0 ms pos1 ms' pos2 :
  advances pos0 ms pos1 → advances pos1 ms' pos2 → advances pos0 (ms ++ ms') pos2.
Proof.
  intros [P1 M1 O1 L1] [P2 M2 O2 L2].
  assert (pp_tp <$> pos1 = pp_tp <$> pos0) as Htp.
  { clear -P1. induction P1 as [|p0 p1 l k [E _] _ IH]; [done|]. rewrite !fmap_cons. by f_equal. }
  split.
  - clear -P1 P2. revert pos2 P2. induction P1 as [|p0 p1 l k [? ?] _ IH]; intros pos2 P2.
    + by inversion P2.
    + inversion P2 as [|? p2 ? k2 [? ?]]; subst. constructor; [|by apply IH].
      split; [congruence|lia].
  - intros i p0 p2 H0 H2. destruct (Forall2_lookup_l _ _ _ _ _ P1 H0) as (p1 & H1 & Et & ?).
    destruct (Forall2_lookup_l _ _ _ _ _ P2 H1) as (p2' & ? & ? & ?); simplify_eq.
    rewrite filter_app, (M1 _ _ _ H0 H1). specialize (M2 _ _ _ H1 H2). rewrite Et in M2. rewrite M2.
    symmetry. apply segment_split; [apply history_sorted|lia].
  - apply Forall_app. split; [done|]. by rewrite <-Htp.
  - rewrite zlen_app. lia.
Qed.

Lemma positions_NoDup pos : Forall2 in_range pos (pl_ranges plan) → NoDup (pp_tp <$> pos).
Proof using Hplan.
  intros HF. destruct Hplan as [_ _ Hnd].
  assert (tp_partition <$> (pp_tp <$> pos) = (λ r, tp_partition (or_tp r)) <$> pl_ranges plan) as E.
  { clear Hnd. induction HF as [|p r l k [Et _] _ IH]; [done|]. rewrite !fmap_cons, IH. by rewrite Et. }
  rewrite <-E in Hnd. by apply NoDup_fmap_1 in Hnd.
Qed.

Lemma total_lag_insert pos ranges i p p' r :
  pos !! i = Some p → ranges !! i = Some r →
  total_lag (<[i := p']> pos) ranges = total_lag pos ranges - lag p r + lag p' r.
Proof.
  intros Hp Hr. unfold total_lag. rewrite <-(list_insert_id ranges i r Hr) at 1.
  rewrite <-insert_zip_with. apply sumZ_insert. by rewrite lookup_zip_with, Hp; simpl; rewrite Hr.
Qed.

(** Reading one partition further. *)
Lemma advances_insert pos i p r n :
  NoDup (pp_tp <$> pos) → pos !! i = Some p → pl_ranges plan !! i = Some r →
  pp_next_offset p ≤ n ≤ or_end r →
  advances pos (segment (log (pp_tp p)) (pp_next_offset p) n) (<[i := mkPosition (pp_tp p) n]> pos).
Proof.
  intros Hnd Hi Hr Hn. assert (i < length pos)%nat as Hlt by (by eapply lookup_lt_Some).
  assert (∀ m, m ∈ segment (log (pp_tp p)) (pp_next_offset p) n → rm_tp m = pp_tp p) as Htp.
  { intros m [Hm _]%elem_of_segment. pose proof (history_tp (pp_tp p) iso) as HF.
    rewrite Forall_forall in HF. auto. }
  split.
  - apply Forall2_same_length_lookup_2; [by rewrite length_insert|].
    intros j x y Hx Hy. destruct (decide (i = j)) as [->|Hne].
    + rewrite list_lookup_insert_eq in Hy by done. simplify_eq; simpl. split; [done|lia].
    + rewrite list_lookup_insert_ne in Hy by done. simplify_eq. split; [done|lia].
  - intros j x y Hx Hy. destruct (decide (i = j)) as [->|Hne].
    + rewrite list_lookup_insert_eq in Hy by done. simplify_eq; simpl. by apply list_filter_all.
    + rewrite list_lookup_insert_ne in Hy by done. simplify_eq.
      etrans; [|symmetry; apply segment_nil; lia]. apply list_filter_none. intros m Hm Em.
      rewrite Htp in Em by done. apply Hne.
      eapply (NoDup_lookup _ _ _ (pp_tp p) Hnd); rewrite list_lookup_fmap.
      * by rewrite Hi.
      * rewrite Hx. simpl. by rewrite Em.
  - apply Forall_forall. intros m Hm. rewrite Htp by done. apply list_elem_of_fmap.
    exists p. split; [done|]. by eapply list_elem_of_lookup_2.
  - rewrite (total_lag_insert _ _ _ p _ r) by done. unfold lag; simpl.
    pose proof (segment_count _ (history_sorted (pp_tp p) iso) (pp_next_offset p) n). lia.
Qed.

Lemma offset_entry_ok pos i p r n ms :
  Forall2 in_range pos (pl_ranges plan) → pos !! i = Some p → pl_ranges plan !! i = Some r →
  ms = segment (log (pp_tp p)) (pp_next_offset p) n → pp_next_offset p ≤ n ≤ or_end r →
  ∃ entry, offset_entry p ms = Ok entry ∧ receipt_describes entry ms.
Proof using Hplan.
  intros HF Hi Hr Hms Hn. destruct (Forall2_lookup_lr _ _ _ _ _ _ HF Hi Hr) as [Etp Hin].
  assert (0 ≤ tp_partition (pp_tp p) ∧ 0 ≤ or_start r) as [Hpart H0].
  { destruct Hplan as [_ HR _]. apply (Forall_lookup_1 _ _ _ _ HR) in Hr as [? ?]. rewrite Etp. lia. }
  unfold offset_entry. destruct (last ms) as [m|] eqn:El.
  - pose proof El as El'. rewrite Hms in El. apply segment_last in El as [Hm Eseg]; [|apply history_sorted].
    rewrite <-Hms in Eseg. pose proof (payload_sum_nonneg ms) as Hps. pose proof (zlen_nonneg ms) as Hzl.
    assert (make_PartitionOffsets
      (mkPO (tp_partition (pp_tp p)) (rm_offset m + 1) (Some (pp_next_offset p)) (Some (rm_offset m))
         (Some (zlen ms)) (Some (payload_sum ms)))
      = Ok (mkPO (tp_partition (pp_tp p)) (rm_offset m + 1) (Some (pp_next_offset p)) (Some (rm_offset m))
         (Some (zlen ms)) (Some (payload_sum ms)))) as ->.
    { unfold make_PartitionOffsets. simpl. rewrite !nonnegative_intro by lia. simpl.
      rewrite (proj2 (Z.ltb_ge (rm_offset m + 1) (pp_next_offset p))) by lia. simpl.
      rewrite Z.eqb_refl. simpl. by rewrite (proj2 (Z.ltb_ge (rm_offset m) (pp_next_offset p))) by lia. }
    eexists. split; [done|]. exists [ms]. split; [|by simpl; rewrite app_nil_r].
    constructor; [|constructor]. split; simpl; [|by exists m|done|done].
    exists r, (pp_next_offset p). rewrite <-Etp. split_and!; try done; try lia.
    by eapply list_elem_of_lookup_2.
  - apply last_None in El as ->. exists []. split; [done|]. exists []. by split.
Qed.

Lemma receipt_describes_app o1 m1 o2 m2 :
  receipt_describes o1 m1 → receipt_describes o2 m2 → receipt_describes (o1 ++ o2) (m1 ++ m2).
Proof.
  intros (b1 & H1 & ->) (b2 & H2 & ->). exists (b1 ++ b2). split; [by apply Forall2_app|].
  by rewrite concat_app.
Qed.

Lemma message_at_intro tp m : m ∈ log tp → message_at tp (rm_offset m) = Some m.
Proof.
  intros Hin. unfold message_at. pose proof (history_sorted tp iso) as Hs.
  induction Hs as [|x l Hs IH Hx]; [set_solver|]. simpl.
  apply elem_of_cons in Hin as [->|Hin]; [by rewrite decide_True|].
  rewrite Forall_forall in Hx. specialize (Hx m Hin). unfold offset_lt in Hx.
  rewrite decide_False by lia. specialize (IH Hin).
  destruct (list_find _ l) as [[j y]|]; simpl in *; congruence.
Qed.

(** What the loop body asks of the gateway is within the contract of [read]. *)
Definition batch_from (st : ChunkState) (p : PartitionPosition) (r : OffsetRange) (b : ReadBatch) : Prop :=
  read_contract (log (pp_tp p)) (pp_next_offset p) (or_end r)
    (match cs_remaining_messages st with
     | Some m => Z.min (rows_per_partition (pl_limits plan) - zlen (cs_messages st)) m
     | None => rows_per_partition (pl_limits plan) - zlen (cs_messages st)
     end)
    (cs_remaining_bytes st) (target_partition_bytes (pl_limits plan) - cs_payload_bytes st)
    (max_message_bytes (pl_limits plan)) b.

Lemma accept_batch_inv pos0 rm0 rb0 st index p r b :
  chunk_inv pos0 rm0 rb0 st → cs_reason st = None →
  cs_positions st !! Z.to_nat (cs_index st) = Some p →
  pl_ranges plan !! Z.to_nat (cs_index st) = Some r →
  pp_next_offset p < or_end r → 0 ≤ index < zlen (cs_positions st) →
  batch_from st p r b →
  ∃ st', accept_batch st (cs_index st) index p b = Ok st' ∧ chunk_inv pos0 rm0 rb0 st' ∧
    cs_index st' = index ∧
    cs_positions st' = <[Z.to_nat (cs_index st) := mkPosition (pp_tp p) (rb_next_position b)]> (cs_positions st) ∧
    (cs_reason st' = None → pp_next_offset p < rb_next_position b).
Proof using Hplan.
  intros [HC Hadv Hrm Hrb Hpay Hrows Hsize Hent] Hnone Hp Hr Hlt Hix Hb.
  destruct HC as [HF Hcm Hcb _ _]. destruct Hb as [Hex Hrange Hcount Hbytes Hsz Hprog _ Hlim].
  destruct (Forall2_lookup_lr _ _ _ _ _ _ HF Hp Hr) as [Etp Hin].
  pose proof (Forall_lookup_1 _ _ _ _ (pk_ranges _ Hplan) Hr) as [_ Hr0]. simpl in Hr0.
  unfold accept_batch.
  assert ((rb_next_position b <=? pp_next_offset p) && negb (rb_byte_limit_reached b) = false) as ->.
  { destruct (rb_byte_limit_reached b); [by rewrite andb_false_r|]. specialize (Hprog eq_refl Hlt).
    rewrite andb_true_r. apply Z.leb_gt. lia. }
  unfold make_PartitionPosition. rewrite nonnegative_intro by lia. simpl.
  destruct (offset_entry_ok _ _ _ _ _ _ HF Hp Hr Hex ltac:(lia)) as (entry & -> & Hdesc). simpl.
  eexists. split; [reflexivity|]. simpl.
  assert (cs_positions st ≠ []) as Hpne by (by intros E; rewrite E in Hp).
  assert (Forall2 in_range (<[Z.to_nat (cs_index st) := mkPosition (pp_tp p) (rb_next_position b)]>
            (cs_positions st)) (pl_ranges plan)) as HF'.
  { rewrite <-(list_insert_id (pl_ranges plan) _ _ Hr). apply Forall2_insert; [done|].
    split; simpl; [done|lia]. }
  split_and!; try done; [|by destruct (rb_byte_limit_reached b) eqn:?; intros; [done|apply Hprog]].
  split; simpl.
  - split; simpl; try done.
    + intros n. destruct (cs_remaining_messages st) as [m|]; simpl; [|done]. intros [= <-]. lia.
    + intros n. destruct (cs_remaining_bytes st) as [m|]; simpl; [|done]. intros [= <-].
      specialize (Hbytes m eq_refl). lia.
    + split; [lia|]. intros _. unfold zlen in *. rewrite length_insert. lia.
    + destruct (rb_byte_limit_reached b); [|by rewrite Hnone].
      destruct (Hlim eq_refl) as (n & m & En & Hm & Eo & ? & Hover). right. rewrite En. simpl.
      exists (n - payload_sum (rb_messages b)), (mkPosition (pp_tp p) (rb_next_position b)), m.
      split_and!; [done| | |lia].
      * apply list_elem_of_lookup. exists (Z.to_nat (cs_index st)).
        apply list_lookup_insert_eq. by eapply lookup_lt_Some.
      * simpl. rewrite <-Eo. by apply message_at_intro.
  - eapply advances_trans; [exact Hadv|]. rewrite Hex.
    apply (advances_insert _ _ _ r); [by apply positions_NoDup|done|done|lia].
  - rewrite Hrm, <-option_fmap_compose. apply option_fmap_ext. intros n. simpl. rewrite zlen_app. lia.
  - rewrite Hrb, <-option_fmap_compose. apply option_fmap_ext. intros n. simpl.
    rewrite payload_sum_app. lia.
  - rewrite payload_sum_app. lia.
  - rewrite zlen_app. destruct (cs_remaining_messages st); lia.
  - by apply Forall_app.
  - by apply receipt_describes_app.
Qed.

(** An exception of the gateway or of the cancellation check. *)
Definition external (e : kafka_exn) : Prop :=
  (∃ w w', check_cancelled w = (Raise e, w')) ∨
  (∃ range iso n mb tb tg mm w w', gw_read range iso n mb tb tg mm w = (Raise e, w')).

Definition exhausted_at (positions : list PartitionPosition) (i : nat) : Prop :=
  ∃ p r, positions !! i = Some p ∧ pl_ranges plan !! i = Some r ∧ or_end r ≤ pp_next_offset p.

Definition open_at (positions : list PartitionPosition) (i : nat) : Prop :=
  ∃ p r, positions !! i = Some p ∧ pl_ranges plan !! i = Some r ∧ pp_next_offset p < or_end r.

Lemma all_exhausted_spec pos : Forall2 in_range pos (pl_ranges plan) →
  ∃ b, all_exhausted pos (pl_ranges plan) = Ok b ∧
    if b then Forall2 (λ p r, pp_next_offset p = or_end r) pos (pl_ranges plan)
    else ∃ i, open_at pos i.
Proof.
  unfold open_at. induction 1 as [|p r ps rs [Et Hp] HF (b & E & IH)]; simpl.
  - exists true. split; [done|constructor].
  - destruct (Z.leb_spec (or_end r) (pp_next_offset p)).
    + exists b. split; [done|]. destruct b.
      * constructor; [lia|done].
      * destruct IH as (i & p' & r' & ? & ? & ?). by exists (S i), p', r'.
    + exists false. split; [done|]. by exists 0%nat, p, r.
Qed.

Lemma cycle_index i n : 0 ≤ i < n → ((i + 1) mod n - 1) mod n = i.
Proof.
  intros Hi. destruct (decide (i + 1 = n)) as [<-|].
  - rewrite Z_mod_same_full. replace (0 - 1) with (i + (-1) * (i + 1)) by lia.
    rewrite Z_mod_plus_full. by apply Z.mod_small.
  - rewrite (Z.mod_small (i + 1)) by lia. replace (i + 1 - 1) with i by lia. by apply Z.mod_small.
Qed.

(** One pass of the loop body: it skips a partition that is read, or reads from one that is not. *)
Definition body_progress (st st' : ChunkState) : Prop :=
  length (cs_positions st') = length (cs_positions st) ∧
  cs_index st' = (cs_index st + 1) mod zlen (cs_positions st) ∧
  ((cs_positions st' = cs_positions st ∧ exhausted_at (cs_positions st) (Z.to_nat (cs_index st))) ∨
   cs_reason st' ≠ None ∨
   total_lag (cs_positions st') (pl_ranges plan) < total_lag (cs_positions st) (pl_ranges plan)).

Lemma read_partition_spec pos0 rm0 rb0 st w :
  chunk_inv pos0 rm0 rb0 st → cs_reason st = None → cs_positions st ≠ [] →
  cs_remaining_messages st ≠ Some 0 → zlen (cs_messages st) < rows_per_partition (pl_limits plan) →
  cs_payload_bytes st < target_partition_bytes (pl_limits plan) →
  match read_partition check_cancelled plan st w with
  | (Ok st', _) => chunk_inv pos0 rm0 rb0 st' ∧ body_progress st st'
  | (Raise e, _) => external e
  end.
Proof using Hplan.
  intros Hinv Hnone Hne Hrm Hrows Htarget. pose proof (ci_cursor _ _ _ _ Hinv) as [HF Hcm Hcb [Hi Hin] _].
  specialize (Hin Hne).
  assert (Z.to_nat (cs_index st) < length (cs_positions st))%nat as Hlt by (unfold zlen in Hin; lia).
  apply lookup_lt_is_Some in Hlt as [p Hp].
  destruct (Forall2_lookup_l _ _ _ _ _ HF Hp) as (r & Hr & Etp & Hpr).
  pose proof (Forall_lookup_1 _ _ _ _ (pk_ranges _ Hplan) Hr) as [_ Hr0]; simpl in Hr0.
  assert (0 ≤ (cs_index st + 1) mod zlen (cs_positions st) < zlen (cs_positions st)) as Hix
    by (apply Z.mod_pos_bound; lia).
  unfold read_partition. rewrite (py_nth_intro _ _ _ Hi Hp), (py_nth_intro _ _ _ Hi Hr).
  unfold mbind at 1, K_bind at 1, klift at 1. unfold mbind at 1, K_bind at 1, klift at 1.
  destruct (Z.leb_spec (or_end r) (pp_next_offset p)).
  { unfold mret, K_ret. split.
    - destruct Hinv as [[? ? ? ? ?] ? ? ? ? ? ? ?]. split; simpl; try done. split; simpl; try done; lia.
    - split_and!; simpl; [done|done|]. left. split; [done|]. by exists p, r. }
  unfold mbind at 1, K_bind at 1. destruct (check_cancelled w) as [[[]|e] w1] eqn:Ec; [|left; eauto].
  unfold make_OffsetRange. rewrite !nonnegative_intro by lia. simpl.
  rewrite (proj2 (Z.ltb_ge (or_end r) (pp_next_offset p))) by lia.
  unfold mbind at 1, K_bind at 1, klift at 1. unfold mbind, K_bind.
  destruct (gw_read _ _ _ _ _ _ _ w1) as [[b|e] w2] eqn:Er; [|right; do 8 eexists; eauto].
  rewrite cycle_index by lia. apply read_lawful in Er; simpl in *; [|lia| |lia|].
  - destruct (accept_batch_inv pos0 rm0 rb0 st _ p r b Hinv Hnone Hp Hr ltac:(lia) Hix Er)
      as (st' & Hacc & Hinv' & Hidx & Hpos & Hprog).
    unfold klift. rewrite Hacc. split; [done|]. unfold body_progress. rewrite Hpos, length_insert.
    split_and!; [done|done|]. right. destruct (cs_reason st') eqn:E; [by left|right].
    rewrite (total_lag_insert _ _ _ p _ r) by done. specialize (Hprog eq_refl).
    unfold lag; simpl. lia.
  - destruct (cs_remaining_messages st) as [m|] eqn:E; [|lia]. specialize (Hcm m eq_refl).
    assert (m ≠ 0) by congruence. lia.
  - apply Hplan.
Qed.

(** *** The loop ends *)

(** Enough fuel: a round per offset that is left, and the way to the next open partition. *)
Definition enough_fuel (fuel : nat) (st : ChunkState) : Prop :=
  (1 ≤ fuel)%nat ∧
  (cs_reason st = None → (∃ i, open_at (cs_positions st) i) →
   ∃ k, 0 ≤ k < zlen (cs_positions st) ∧
     open_at (cs_positions st) (Z.to_nat ((cs_index st + k) mod zlen (cs_positions st))) ∧
     total_lag (cs_positions st) (pl_ranges plan) * zlen (cs_positions st) + k + 2 ≤ Z.of_nat fuel).

Lemma open_reached pos i index : open_at pos i → 0 ≤ index < zlen pos →
  ∃ k, 0 ≤ k < zlen pos ∧ open_at pos (Z.to_nat ((index + k) mod zlen pos)).
Proof.
  intros Ho Hix. assert (i < length pos)%nat as Hi.
  { destruct Ho as (p & r & Hp & _). by eapply lookup_lt_Some. }
  exists ((Z.of_nat i - index) mod zlen pos). split; [apply Z.mod_pos_bound; lia|].
  rewrite Zplus_mod_idemp_r. replace (index + (Z.of_nat i - index)) with (Z.of_nat i) by lia.
  rewrite Z.mod_small by (unfold zlen; lia). by rewrite Nat2Z.id.
Qed.

Lemma total_lag_nonneg pos ranges : 0 ≤ total_lag pos ranges.
Proof.
  unfold total_lag. apply sumZ_nonneg. revert ranges; induction pos as [|p ps IH]; intros [|r rs]; simpl;
    constructor; [unfold lag; lia|apply IH].
Qed.

Lemma enough_fuel_step pos0 rm0 rb0 fuel st st' :
  chunk_inv pos0 rm0 rb0 st → chunk_inv pos0 rm0 rb0 st' → cs_reason st = None →
  cs_positions st ≠ [] → (∃ i, open_at (cs_positions st) i) →
  enough_fuel (S fuel) st → body_progress st st' → enough_fuel fuel st'.
Proof using Hplan.
  intros Hinv Hinv' Hnone Hne Hopen [_ Hf] (Hlen & Hidx & Hprog).
  destruct (Hf Hnone Hopen) as (k & Hk & Hok & Hfuel). clear Hf.
  pose proof (total_lag_nonneg (cs_positions st) (pl_ranges plan)).
  assert (zlen (cs_positions st') = zlen (cs_positions st)) as Hz by (unfold zlen; lia).
  assert (0 ≤ total_lag (cs_positions st) (pl_ranges plan) * zlen (cs_positions st)) by nia.
  split; [lia|]. intros Hr' Hopen'. rewrite Hz. destruct Hprog as [[Hpos Hex]|[?|Hdec]]; [|done|].
  - rewrite Hpos. exists (k - 1). destruct (decide (k = 0)) as [->|].
    { exfalso. pose proof (ci_cursor _ _ _ _ Hinv) as [_ _ _ [? Hi] _]. specialize (Hi Hne).
      rewrite Z.add_0_r, Z.mod_small in Hok by lia.
      destruct Hex as (p & r & ? & ? & ?), Hok as (p' & r' & ? & ? & ?). simplify_eq. lia. }
    split_and!; [lia|lia| |lia]. rewrite Hidx, Zplus_mod_idemp_l.
    by replace (cs_index st + 1 + (k - 1)) with (cs_index st + k) by lia.
  - destruct Hopen' as [i Ho]. pose proof (ci_cursor _ _ _ _ Hinv') as [_ _ _ [? Hi] _].
    destruct (open_reached _ _ (cs_index st') Ho) as (k' & Hk' & Hok').
    { split; [done|]. apply Hi. intros E. rewrite E in Hlen. by destruct (cs_positions st). }
    rewrite Hz in *. exists k'. split_and!; [lia|lia|done|]. nia.
Qed.

(** What a finished chunk satisfies. *)
Definition chunk_done (st : ChunkState) : Prop :=
  cs_reason st ≠ None ∨
  (cs_remaining_messages st ≠ Some 0 ∧ (∃ i, open_at (cs_positions st) i) ∧
   (rows_per_partition (pl_limits plan) ≤ zlen (cs_messages st) ∨
    target_partition_bytes (pl_limits plan) ≤ cs_payload_bytes st)).

Lemma chunk_loop_spec pos0 rm0 rb0 fuel st w :
  chunk_inv pos0 rm0 rb0 st → enough_fuel fuel st →
  match chunk_loop check_cancelled fuel plan st w with
  | (Ok st', _) => chunk_inv pos0 rm0 rb0 st' ∧ chunk_done st'
  | (Raise e, _) => external e
  end.
Proof using Hplan.
  revert st w. induction fuel as [|fuel IH]; intros st w Hinv Hf; [destruct Hf; lia|]. simpl.
  pose proof (ci_cursor _ _ _ _ Hinv) as [HF Hcm Hcb Hi Hre].
  destruct (cs_reason st) as [x|] eqn:Ereason.
  { unfold mret, K_ret. split; [done|]. left. by rewrite Ereason. }
  destruct (all_exhausted_spec _ HF) as (b & Eb & Hb).
  rewrite (kbind_eq _ _ _ b w) by (unfold klift; by rewrite Eb).
  assert (∀ x, reason_true (cs_positions st) (pl_ranges plan) (cs_remaining_messages st)
    (cs_remaining_bytes st) message_at (Some x) → chunk_inv pos0 rm0 rb0 (stop_with x st)) as Hstop.
  { intros x Hx. destruct Hinv. split; simpl; try done. }
  destruct b.
  { unfold mret, K_ret. split; [by apply Hstop|]. by left. }
  case_bool_decide; [unfold mret, K_ret; split; [by apply Hstop|by left]|].
  case_bool_decide; [unfold mret, K_ret; split; [apply Hstop; by left|by left]|].
  destruct (_ || _) eqn:Efull.
  { unfold mret, K_ret. split; [done|]. right. split_and!; [done|done|].
    apply orb_prop in Efull as [?%Z.leb_le|?%Z.leb_le]; auto. }
  apply orb_false_elim in Efull as [Hrows%Z.leb_gt Htarget%Z.leb_gt].
  assert (cs_positions st ≠ []) as Hne.
  { intros E. destruct Hb as (i & p & r & Hp & _). by rewrite E in Hp. }
  pose proof (read_partition_spec pos0 rm0 rb0 st w Hinv Ereason Hne ltac:(done) Hrows Htarget) as Hstep.
  unfold mbind, K_bind. destruct (read_partition _ plan st w) as [[st'|e] w']; [|done].
  destruct Hstep as [Hinv' Hprog]. apply IH; [done|].
  by apply (enough_fuel_step pos0 rm0 rb0 fuel st st').
Qed.

(** *** A whole chunk *)

Lemma start_chunk_inv c : cursor_ok c →
  chunk_inv (rc_positions c) (rc_remaining_messages c) (rc_remaining_bytes c) (start_chunk c).
Proof using Hplan.
  intros Hc. split; simpl; [done|apply advances_refl| | |done| |constructor|].
  - destruct (rc_remaining_messages c); [|done]. simpl. f_equal. unfold zlen; simpl. lia.
  - destruct (rc_remaining_bytes c); [|done]. simpl. f_equal. unfold payload_sum; simpl. lia.
  - destruct (pk_limits _ Hplan) as (_ & _ & ? & _). unfold zlen; simpl. lia.
  - exists []. by split.
Qed.

Lemma chunk_fuel_enough c : cursor_ok c → enough_fuel (chunk_fuel plan c) (start_chunk c).
Proof.
  intros Hc. unfold chunk_fuel, enough_fuel; simpl.
  pose proof (total_lag_nonneg (rc_positions c) (pl_ranges plan)) as Hl.
  pose proof (zlen_nonneg (rc_positions c)) as Hz. split; [nia|].
  intros _ [i Ho]. destruct Hc as [_ _ _ [? Hi] _].
  destruct (open_reached _ _ (rc_next_partition_index c) Ho) as (k & Hk & Hok).
  { split; [done|]. apply Hi. intros E. destruct Ho as (p & r & Hp & _). by rewrite E in Hp. }
  exists k. split_and!; [lia|lia|done|]. rewrite Z2Nat.id by nia. lia.
Qed.

(** Everything [read_chunk] guarantees of what it returns. *)
Record chunk_ok (c : ReadCursor) (ms : list RawMessage) (receipt : ChunkReceipt) : Prop := {
  ck_cursor : cursor_ok (cr_cursor receipt);
  ck_advances : advances (rc_positions c) ms (rc_positions (cr_cursor receipt));
  ck_messages : rc_remaining_messages (cr_cursor receipt)
                = (λ n, n - zlen ms) <$> rc_remaining_messages c;
  ck_bytes : rc_remaining_bytes (cr_cursor receipt)
             = (λ n, n - payload_sum ms) <$> rc_remaining_bytes c;
  ck_count : cr_message_count receipt = zlen ms ∧ cr_payload_bytes receipt = payload_sum ms;
  ck_rows : zlen ms ≤ rows_per_partition (pl_limits plan);
  ck_size : Forall (λ m, payload_bytes m ≤ max_message_bytes (pl_limits plan)) ms;
  ck_entries : receipt_describes (cr_offsets receipt) ms;
  ck_fingerprint : cr_fingerprint receipt = fingerprint_of ms;
  ck_open : rc_stop_reason (cr_cursor receipt) = None →
    rc_remaining_messages (cr_cursor receipt) ≠ Some 0 ∧
    ∃ i, open_at (rc_positions (cr_cursor receipt)) i;
  ck_stopped : rc_stop_reason c ≠ None →
    rc_stop_reason (cr_cursor receipt) = rc_stop_reason c ∧ ms = [];
  ck_full : rc_stop_reason (cr_cursor receipt) = None →
    rows_per_partition (pl_limits plan) ≤ zlen ms ∨
    target_partition_bytes (pl_limits plan) ≤ payload_sum ms;
}.

Lemma read_chunk_spec c n w : cursor_ok c →
  match read_chunk check_cancelled fingerprint_of plan c n w with
  | (Ok (ms, receipt), _) => chunk_ok c ms receipt
  | (Raise e, _) => external e
  end.
Proof using Hplan.
  intros Hc. unfold read_chunk. unfold mbind at 1, K_bind at 1.
  destruct (check_cancelled w) as [[[]|e] w1] eqn:E1; [|left; eauto].
  pose proof (chunk_loop_spec _ _ _ (chunk_fuel plan c) (start_chunk c) w1 (start_chunk_inv c Hc)
                (chunk_fuel_enough c Hc)) as Hloop.
  assert (∀ st w', rc_stop_reason c ≠ None →
    chunk_loop check_cancelled (chunk_fuel plan c) plan (start_chunk c) w1 = (Ok st, w') →
    cs_reason st = rc_stop_reason c ∧ cs_messages st = []) as Hstopped.
  { intros st w' Hr. destruct (chunk_fuel_enough c Hc) as [Hpos _].
    destruct (chunk_fuel plan c) as [|fuel]; [lia|]. simpl.
    destruct (rc_stop_reason c) as [x|] eqn:Ex; [|done]. intros [-> _]%kret_ok. simpl. by rewrite Ex. }
  unfold mbind at 1, K_bind at 1.
  destruct (chunk_loop check_cancelled _ plan (start_chunk c) w1) as [[st|e] w2]; [|done].
  unfold mbind at 1, K_bind at 1. destruct (check_cancelled w2) as [[[]|e] w3] eqn:E2; [|left; eauto].
  destruct Hloop as [[HC ? ? ? Hpay ? ? ?] Hdone]. pose proof HC as [_ Hm Hb [Hi _] _].
  unfold klift, chunk_receipt, make_ReadCursor.
  assert (nonnegative_opt (cs_remaining_messages st) "remaining_messages" = Ok ()) as ->.
  { destruct (cs_remaining_messages st); [|done]. by apply nonnegative_intro, Hm. }
  assert (nonnegative_opt (cs_remaining_bytes st) "remaining_bytes" = Ok ()) as ->.
  { destruct (cs_remaining_bytes st); [|done]. by apply nonnegative_intro, Hb. }
  simpl. rewrite (nonnegative_intro (cs_index st)) by done. simpl.
  split; simpl; try done; intros Er; [|by eapply Hstopped|];
    (destruct Hdone as [?|(? & ? & Hfull)]; [done|]); [done|].
  by rewrite <-Hpay.
Qed.

(** *** Replaying a chunk *)

Lemma find_range_ok r : r ∈ pl_ranges plan → find_range plan (tp_partition (or_tp r)) = Ok (or_tp r).
Proof using Hplan.
  intros Hin. unfold find_range. pose proof (pk_partitions _ Hplan) as Hnd.
  destruct (list_find (λ r', tp_partition (or_tp r') = tp_partition (or_tp r)) (pl_ranges plan))
    as [[j r']|] eqn:E.
  - apply list_find_Some in E as (Hj & Ej & _). apply list_elem_of_lookup in Hin as [i Hi].
    assert (i = j) as ->; [|by simplify_eq].
    eapply (NoDup_lookup _ _ _ (tp_partition (or_tp r)) Hnd); rewrite list_lookup_fmap.
    + by rewrite Hi.
    + rewrite Hj. simpl. by rewrite Ej.
  - apply list_find_None in E. rewrite Forall_forall in E. by destruct (E r Hin).
Qed.

(** A batch that asks for exactly the messages of an accepted range gets them all. *)
Lemma exact_read_is_complete tp s e b mm :
  read_contract (log tp) s e (zlen (segment (log tp) s e)) (Some (payload_sum (segment (log tp) s e)))
    (payload_sum (segment (log tp) s e) + 1) mm b →
  rb_messages b = segment (log tp) s e.
Proof.
  intros [Hex Hr Hc Hb _ _ Hfull Hlim]. pose proof (history_sorted tp iso) as Hs.
  pose proof (segment_split _ Hs s (rb_next_position b) e Hr) as Hsp.
  destruct (rb_byte_limit_reached b).
  - destruct (Hlim eq_refl) as (n & m & [= <-] & Hm & Eo & Hlt & Hover).
    pose proof (segment_singleton _ Hs m s e Hm ltac:(lia)) as Hone.
    rewrite Eo in Hone. rewrite Hone, Hex, payload_sum_app, payload_sum_cons in Hover.
    pose proof (payload_sum_nonneg (segment (log tp) (rb_next_position b + 1) e)). lia.
  - destruct (Hfull eq_refl) as [E|[Hlen|Hbytes]].
    + by rewrite Hex, E.
    + rewrite Hex in Hlen. rewrite Hsp in Hlen. rewrite zlen_app in Hlen.
      rewrite Hex, Hsp. destruct (segment (log tp) (rb_next_position b) e); [by rewrite app_nil_r|].
      unfold zlen in Hlen; simpl in Hlen. lia.
    + rewrite Hex in Hbytes. rewrite Hsp, payload_sum_app in Hbytes.
      pose proof (payload_sum_nonneg (segment (log tp) (rb_next_position b) e)). lia.
Qed.

Lemma replay_offset_spec po ms w : entry_ok po ms →
  match replay_offset check_cancelled plan po w with
  | (Ok ms', _) => ms' = ms
  | (Raise e, _) => external e
  end.
Proof using Hplan.
  intros [(r & s & Hin & Ep & Es & Hs & Hn & Hms) (m & Hl & _ & _) Ec Eb]. unfold replay_offset.
  assert (0 < zlen ms) as Hpos by (destruct ms; [done|unfold zlen; simpl; lia]).
  pose proof (pk_ranges _ Hplan) as HR. rewrite Forall_forall in HR. specialize (HR r Hin).
  unfold mbind at 1, K_bind at 1. destruct (check_cancelled w) as [[[]|e] w1] eqn:E1; [|left; eauto].
  rewrite Ep, (find_range_ok r Hin), Es, Ec, Eb.
  unfold mbind, K_bind, klift, opt_int, make_OffsetRange. rewrite !nonnegative_intro by lia. simpl.
  rewrite (proj2 (Z.ltb_ge (po_next_offset po) s)) by lia.
  destruct (gw_read _ _ _ _ _ _ _ w1) as [[b|e] w2] eqn:Er; [|right; do 8 eexists; eauto].
  unfold mret, K_ret. pose proof (payload_sum_nonneg ms).
  apply read_lawful in Er; simpl in *; [|lia|lia|lia|apply Hplan].
  subst ms. by eapply exact_read_is_complete.
Qed.

Lemma replay_offsets_spec offsets batches acc w : Forall2 entry_ok offsets batches →
  match replay_offsets check_cancelled plan offsets acc w with
  | (Ok ms, _) => ms = acc ++ concat batches
  | (Raise e, _) => external e
  end.
Proof using Hplan.
  intros HF. revert acc w. induction HF as [|po ms ops bs Hpo _ IH]; intros acc w; simpl.
  - unfold mret, K_ret. by rewrite app_nil_r.
  - unfold mbind at 1, K_bind at 1. pose proof (replay_offset_spec po ms w Hpo) as Hr.
    destruct (replay_offset _ plan po w) as [[ms'|e] w1]; [|done]. subst ms'.
    specialize (IH (acc ++ ms) w1). destruct (replay_offsets _ plan ops _ w1) as [[x|e] w2]; [|done].
    by rewrite IH, <-app_assoc.
Qed.

Lemma replay_chunk_spec c ms receipt w : chunk_ok c ms receipt →
  match replay_chunk check_cancelled fingerprint_of plan receipt w with
  | (Ok res, _) => res = (ms, receipt)
  | (Raise e, _) => external e
  end.
Proof using Hplan.
  intros [_ _ _ _ _ _ _ (bs & HF & Hms) Hfp _ _ _]. unfold replay_chunk. unfold mbind at 1, K_bind at 1.
  pose proof (replay_offsets_spec _ _ [] w HF) as Hr.
  destruct (replay_offsets _ plan _ [] w) as [[ms'|e] w1]; [|done]. simpl in Hr.
  unfold mbind, K_bind. destruct (check_cancelled w1) as [[[]|e] w2] eqn:E; [|left; eauto].
  rewrite bool_decide_eq_true_2 by congruence. unfold mret, K_ret. congruence.
Qed.
End spec.

(** A chunk read from a valid cursor returns exactly the visible messages between the old and
    the new positions of every partition, in order and nothing else; it never exceeds the rows per
    chunk or the budgets of messages and bytes, which it charges exactly; its new cursor is valid,
    tells truly why reading stopped, and is left open only by a full chunk. Its loop always ends,
    and the only exceptions are those of the gateway and of the cancellation check. *)
Theorem chunk_delivers_exactly {W} {gw : KafkaGateway W} {kl : KafkaLog W} check_cancelled
    fingerprint_of plan c n w :
  plan_ok plan → cursor_ok plan c →
  match read_chunk check_cancelled fingerprint_of plan c n w with
  | (Ok (ms, receipt), _) =>
      advances plan (rc_positions c) ms (rc_positions (cr_cursor receipt)) ∧
      cursor_ok plan (cr_cursor receipt) ∧
      zlen ms ≤ rows_per_partition (pl_limits plan) ∧
      rc_remaining_messages (cr_cursor receipt) = (λ k, k - zlen ms) <$> rc_remaining_messages c ∧
      rc_remaining_bytes (cr_cursor receipt) = (λ k, k - payload_sum ms) <$> rc_remaining_bytes c ∧
      cr_message_count receipt = zlen ms ∧ cr_payload_bytes receipt = payload_sum ms ∧
      (rc_stop_reason (cr_cursor receipt) = None →
         rows_per_partition (pl_limits plan) ≤ zlen ms ∨
         target_partition_bytes (pl_limits plan) ≤ payload_sum ms)
  | (Raise e, _) => external check_cancelled e
  end.
Proof.
  intros Hp Hc. pose proof (read_chunk_spec check_cancelled fingerprint_of plan Hp c n w Hc) as H.
  destruct (read_chunk _ _ _ _ _ _) as [[[ms r]|e] w']; [|done]. destruct H as [? ? ? ? [? ?] ? ? ? ? ? ? ?].
  split_and!; done.
Qed.

(** Replaying the receipt of a chunk gives back the chunk: unless the gateway or the
    cancellation check raises, the same messages in the same order and the same receipt, so the
    test of the fingerprint never fails on an unchanged log. *)
Theorem chunk_replay_roundtrip {W} {gw : KafkaGateway W} {kl : KafkaLog W} check_cancelled
    fingerprint_of plan c n w ms receipt w1 w2 :
  plan_ok plan → cursor_ok plan c →
  read_chunk check_cancelled fingerprint_of plan c n w = (Ok (ms, receipt), w1) →
  match replay_chunk check_cancelled fingerprint_of plan receipt w2 with
  | (Ok res, _) => res = (ms, receipt)
  | (Raise e, _) => external check_cancelled e
  end.
Proof.
  intros Hp Hc Hr. pose proof (read_chunk_spec check_cancelled fingerprint_of plan Hp c n w Hc) as H.
  rewrite Hr in H. by apply (replay_chunk_spec _ _ _ Hp c).
Qed.

(** ** Planning *)

Lemma omapM_Forall2 {A B} (f : A → outcome kafka_exn B) l k :
  omapM f l = Ok k → Forall2 (λ x y, f x = Ok y) l k.
Proof.
  revert k. induction l as [|x l IH]; intros k H; simpl in H; kinv; simplify_eq; constructor; auto.
Qed.

Lemma Forall2_elem_r {A B} (P : A → B → Prop) l k y : Forall2 P l k → y ∈ k → ∃ x, x ∈ l ∧ P x y.
Proof. induction 1; intros Hy; [by apply elem_of_nil in Hy|]. set_solver. Qed.

Lemma for_each_ok {A} (f : A → outcome kafka_exn unit) l u : for_each f l = Ok u → Forall (λ x, ∃ v, f x = Ok v) l.
Proof. revert u. induction l as [|x l IH]; intros u H; simpl in H; kinv; constructor; eauto. Qed.

Lemma make_TopicPartition_ok topic p tp : make_TopicPartition topic p = Ok tp → tp = mkTP topic p ∧ 0 ≤ p.
Proof.
  unfold make_TopicPartition. destruct (negb _); [done|]. intros H. kinv. simplify_eq.
  by apply nonnegative_ok in Hm.
Qed.

Lemma make_OffsetRange_ok tp s e r : make_OffsetRange tp s e = Ok r → r = mkRange tp s e ∧ 0 ≤ s ≤ e.
Proof.
  unfold make_OffsetRange. intros H. kinv. destruct (Z.ltb_spec e s); [done|]. simplify_eq.
  apply nonnegative_ok in Hm. split; [done|lia].
Qed.

Lemma plan_range_ok mode policy so bounds committed ts tp r :
  plan_range mode policy so bounds committed ts tp = Ok r →
  or_tp r = tp ∧ 0 ≤ or_start r ≤ or_end r ∧
  ∃ b, bounds !! tp = Some (b, or_end r) ∧ b ≤ or_start r.
Proof.
  unfold plan_range, map_get. intros H. kinv. destruct (bounds !! tp) as [[b e]|] eqn:E; [|done].
  simplify_eq; simpl in *. apply select_start_position_bounds in Hm0.
  apply make_OffsetRange_ok in H as [-> ?]. simpl. split_and!; try done; try lia.
  exists b. split; [done|lia].
Qed.

(** A successful plan covers exactly the chosen partitions of the topic, one range each in
    increasing order, and every range lies inside the bounds the broker reported: it starts at or
    after the beginning and ends at the end of the snapshot. *)
Theorem planned_ranges_are_valid {W} {gw : KafkaGateway W} check_cancelled uuid4 topic group_id limits
    partitions start_mode policy ts start_offsets iso connection_id w plan w' :
  limits_ok limits →
  PlanKafkaRead check_cancelled uuid4 topic group_id limits partitions start_mode policy ts
    start_offsets iso connection_id w = (Ok plan, w') →
  plan_ok plan ∧ pl_limits plan = limits ∧
  (∀ ps, partitions = Some ps → (tp_partition ∘ or_tp) <$> pl_ranges plan ≡ₚ ps) ∧
  StronglySorted Z.le ((tp_partition ∘ or_tp) <$> pl_ranges plan) ∧ pl_ranges plan ≠ [] ∧
  ∃ bounds, Forall (λ r, tp_topic (or_tp r) = topic ∧
     ∃ b, bounds !! or_tp r = Some (b, or_end r) ∧ b ≤ or_start r) (pl_ranges plan) ∧
     ∃ tps w1 w2, gw_bounds tps iso w1 = (Ok bounds, w2).
Proof.
  intros Hlim H. unfold PlanKafkaRead in H. kinv.
  match type of H with context [bool_decide (?x = [] ∨ _)] => set (selected := x) in * end.
  case_bool_decide as Hsel; [done|]. kinv.
  match goal with Ho : omapM (make_TopicPartition _) _ = Ok ?tps |- _ =>
    rename Ho into Ht; set (sorted := tps) in * end.
  match goal with Ho : omapM (plan_range _ _ _ _ _ _) _ = Ok ?rs |- _ =>
    rename Ho into Hr; set (ranges := rs) in * end.
  match goal with Ho : gw_bounds _ _ _ = (Ok ?bs, _) |- _ => rename Ho into Hbs; set (bounds := bs) in * end.
  apply omapM_Forall2 in Ht, Hr.
  assert (NoDup selected) as Hnd by (apply dec_stable; tauto).
  assert (tp_partition <$> sorted = merge_sort Z.le selected) as Hparts.
  { clear -Ht. clearbody sorted. induction Ht as [|x y l k Hx _ IH]; [done|].
    apply make_TopicPartition_ok in Hx as [-> _]. rewrite fmap_cons, IH. done. }
  assert (or_tp <$> ranges = sorted) as Htps.
  { clear -Hr. clearbody sorted ranges. induction Hr as [|x y l k Hx _ IH]; [done|].
    apply plan_range_ok in Hx as [<- _]. rewrite fmap_cons, IH. done. }
  assert ((tp_partition ∘ or_tp) <$> ranges = merge_sort Z.le selected) as Hrp.
  { by rewrite list_fmap_compose, Htps. }
  split_and!; try done; simpl.
  - split; simpl; [done| |].
    + apply Forall_forall. intros r Hin.
      destruct (Forall2_elem_r _ _ _ _ Hr Hin) as (tp & Htp & Hx). apply plan_range_ok in Hx as (<- & ? & _).
      split; [|done]. destruct (Forall2_elem_r _ _ _ _ Ht Htp) as (p & _ & Hp).
      apply make_TopicPartition_ok in Hp as [-> ?]. done.
    + change (NoDup ((tp_partition ∘ or_tp) <$> ranges)). rewrite Hrp. by rewrite merge_sort_Permutation.
  - intros ps ->. rewrite Hrp. apply merge_sort_Permutation.
  - rewrite Hrp. apply (StronglySorted_merge_sort Z.le). 
  - intros E. destruct Hsel. left. apply (f_equal length) in Hrp. rewrite length_fmap in Hrp.
    rewrite (Permutation_length (merge_sort_Permutation Z.le selected)), E in Hrp.
    by destruct selected.
  - exists bounds. split; [|eauto]. apply Forall_forall. intros r Hin.
    destruct (Forall2_elem_r _ _ _ _ Hr Hin) as (tp & Htp & Hx). apply plan_range_ok in Hx as (<- & _ & Hb).
    split; [|done]. destruct (Forall2_elem_r _ _ _ _ Ht Htp) as (p & _ & Hp).
    by apply make_TopicPartition_ok in Hp as [-> ?].
Qed.

(** ** Committing *)

(** A consumer group that is owned exclusively: its committed offsets, as the broker keeps them, and what the
    gateway does to them. Only [commit] changes them; a successful one sets what it was given, and a failed
    one may have set some of it. Exclusive ownership is the assumption the code states: checking the
    committed offsets is not compare-and-set, so that nobody else may commit for the group between the check
    and the commit. Other groups may change at any time. [KafkaCommit] discharges the laws for the gateway. *)
Class KafkaGroup (W : Type) {gw : KafkaGateway W} (check_cancelled : K W unit) (group : string) := {
  committed_of : W → TopicPartition → option Z;
  check_keeps : ∀ w tp, committed_of (check_cancelled w).2 tp = committed_of w tp;
  partitions_keeps : ∀ t w tp, committed_of (gw_partitions t w).2 tp = committed_of w tp;
  cluster_id_keeps : ∀ w tp, committed_of (gw_cluster_id w).2 tp = committed_of w tp;
  bounds_keeps : ∀ l i w tp, committed_of (gw_bounds l i w).2 tp = committed_of w tp;
  committed_keeps : ∀ l w tp, committed_of (gw_committed group l w).2 tp = committed_of w tp;
  committed_lawful : ∀ l w d w' tp, gw_committed group l w = (Ok d, w') → tp ∈ l →
    d !! tp = Some (committed_of w tp);
  commit_some : ∀ ps w tp,
    committed_of (gw_commit group ps w).2 tp = committed_of w tp ∨
    ∃ p, (tp, p) ∈ ps ∧ committed_of (gw_commit group ps w).2 tp = Some p;
  commit_all : ∀ ps w w' tp p, NoDup ps.*1 → gw_commit group ps w = (Ok (), w') → (tp, p) ∈ ps →
    committed_of w' tp = Some p;
}.

(** [None] is behind every offset. *)
Definition offset_le (x y : option Z) : Prop :=
  match x, y with None, _ => True | Some a, Some b => a ≤ b | Some _, None => False end.

Section commit.
Context {W : Type} {gw : KafkaGateway W} (check_cancelled : K W unit).
Context (s : ReadSummary) {kg : KafkaGroup W check_cancelled (rs_group_id s)}.

Definition same_offsets (w w' : W) : Prop := ∀ tp, committed_of w' tp = committed_of w tp.

Definition keeps_offsets {A} (m : K W A) : Prop := ∀ w, same_offsets w (m w).2.

(** What a run of [CommitKafkaOffsets] from [w0] achieves. *)
Definition commit_post (w0 : W) (r : outcome kafka_exn CommitResult * W) : Prop :=
  (∀ tp, offset_le (committed_of w0 tp) (committed_of r.2 tp)) ∧
  (∀ res, r.1 = Ok res → ∀ tp, committed_of r.2 tp =
     match list_find (λ p, mkTP (rs_topic s) (po_partition p) = tp) (rs_partitions s) with
     | Some (_, p) => Some (Z.max (po_next_offset p) (default 0 (committed_of w0 tp)))
     | None => committed_of w0 tp
     end).

Lemma offset_le_refl x : offset_le x x.
Proof. destruct x; simpl; lia || done. Qed.

Lemma commit_post_raise w0 w e : same_offsets w0 w → commit_post w0 (Raise e, w).
Proof. intros Hs. split; [|done]. intros tp. simpl. rewrite Hs. apply offset_le_refl. Qed.

Lemma commit_bind {A} w0 w (m : K W A) (f : A → K W CommitResult) :
  same_offsets w0 w → keeps_offsets m →
  (∀ a w1, m w = (Ok a, w1) → same_offsets w0 w1 → commit_post w0 (f a w1)) →
  commit_post w0 ((m ≫= f) w).
Proof.
  intros Hs Hm Hf. unfold mbind, K_bind. specialize (Hm w).
  assert (same_offsets w0 (m w).2) as Hs' by (intros tp; by rewrite Hm).
  destruct (m w) as [[a|e] w1]; [by apply Hf|by apply commit_post_raise].
Qed.

Lemma klift_keeps {A} (o : outcome kafka_exn A) : keeps_offsets (klift o).
Proof. by intros w tp. Qed.

Lemma check_keeps' : keeps_offsets check_cancelled.
Proof. intros w tp. apply check_keeps. Qed.

Lemma cluster_check_keeps (o : option string) :
  keeps_offsets (match o with
   | Some c => _ ← check_cancelled; actual ← gw_cluster_id;
               if bool_decide (actual = Some c) then mret ()
               else kraise (KafkaInputError "Kafka cluster context mismatch or unavailable")
   | None => mret () end : K W unit).
Proof.
  intros w tp. destruct o as [c|]; [|done]. unfold mbind, K_bind. pose proof (check_keeps w tp) as Hc.
  destruct (check_cancelled w) as [[[]|e] w1]; simpl in Hc; [|done].
  pose proof (cluster_id_keeps w1 tp) as Hi. destruct (gw_cluster_id w1) as [[x|e] w2]; simpl in Hi.
  - case_bool_decide; simpl; congruence.
  - simpl. congruence.
Qed.

(** The decisions of one commit, against what is committed and the ends of the log. *)
Lemma decisions_ok bounds current pairs decisions :
  omapM (commit_decision bounds current) pairs = Ok decisions →
  Forall2 (λ x d, ∃ c, current !! x.2 = Some c ∧ pc_requested d = po_next_offset x.1 ∧
     0 ≤ po_next_offset x.1 ∧
     (pc_status d = "committed" ↔ (∀ o, c = Some o → o < po_next_offset x.1))) pairs decisions.
Proof.
  intros H%omapM_Forall2. eapply Forall2_impl; [exact H|]. intros [p tp] d Hd.
  unfold commit_decision, map_get in Hd. simpl in Hd. kinv.
  destruct (current !! tp) as [c|] eqn:Ecur; [|done]. destruct (bounds !! tp); [|done]. simplify_eq.
  apply monotonic_commit_ok in Hd as (_ & ? & _ & [? _] & _ & ?). eexists. simpl. by split_and!.
Qed.

Lemma pairs_topic partitions :
  omapM (λ p, make_TopicPartition (rs_topic s) (po_partition p)) (rs_partitions s) = Ok partitions →
  partitions = (λ p, mkTP (rs_topic s) (po_partition p)) <$> rs_partitions s.
Proof.
  intros H%omapM_Forall2. induction H as [|x y l k Hx _ IH]; [done|].
  apply make_TopicPartition_ok in Hx as [-> _]. by rewrite fmap_cons, IH.
Qed.

(** What is sent to the broker: the requests that are ahead of the committed offset. *)
Lemma sent_position (parts : list PartitionOffsets) (name : PartitionOffsets → TopicPartition)
    (current : gmap TopicPartition (option Z)) decisions tp o :
  Forall2 (λ x d, ∃ c, current !! x.2 = Some c ∧ pc_requested d = po_next_offset x.1 ∧
     0 ≤ po_next_offset x.1 ∧ (pc_status d = "committed" ↔ (∀ o, c = Some o → o < po_next_offset x.1)))
    (zip parts (name <$> parts)) decisions →
  (tp, o) ∈ commit_positions (zip (name <$> parts) decisions) ↔
  ∃ p, p ∈ parts ∧ tp = name p ∧ o = po_next_offset p ∧
       ∃ c, current !! tp = Some c ∧ (∀ x, c = Some x → x < po_next_offset p).
Proof.
  unfold commit_positions. rewrite list_elem_of_fmap.
  revert decisions. induction parts as [|p parts IH]; intros decisions HF; simpl in *.
  - split; [intros (d & _ & Hd); by apply elem_of_nil in Hd|intros (p & Hp & _); by apply elem_of_nil in Hp].
  - inversion HF as [|x d ? ds (c & Hc & Hreq & _ & Hst) HF']; subst. simpl in *. specialize (IH ds HF').
    rewrite filter_cons. simpl. split.
    + intros (y & Hy & Hin). case_decide as Hs.
      * apply elem_of_cons in Hin as [->|Hin].
        -- injection Hy as -> ->. exists p. split; [by left|]. split_and!; [done|done|].
           exists c. split; [done|]. by apply Hst.
        -- destruct (proj1 IH) as (p' & ? & ?); [by eexists|]. exists p'. split; [by right|done].
      * destruct (proj1 IH) as (p' & ? & ?); [by eexists|]. exists p'. split; [by right|done].
    + intros (p' & Hp' & -> & -> & c' & Hc' & Hlt). apply elem_of_cons in Hp' as [->|Hp'].
      * simplify_eq. rewrite decide_True by (by apply Hst). exists (name p, d).
        split; [simpl; by rewrite Hreq|by left].
      * destruct (proj2 IH) as (y & Hy & Hin); [by exists p'; eauto 10|]. exists y. split; [done|].
        case_decide; [by right|done].
Qed.

Lemma find_part tp p : NoDup ((λ p, mkTP (rs_topic s) (po_partition p)) <$> rs_partitions s) →
  p ∈ rs_partitions s → mkTP (rs_topic s) (po_partition p) = tp →
  ∃ i, list_find (λ p, mkTP (rs_topic s) (po_partition p) = tp) (rs_partitions s) = Some (i, p).
Proof.
  intros Hnd [i Hi]%list_elem_of_lookup Htp. exists i. apply list_find_Some. split_and!; [done|done|].
  intros j y Hj Hlt E. assert (j = i); [|lia].
  eapply (NoDup_lookup _ _ _ tp Hnd); rewrite list_lookup_fmap; rewrite ?Hj, ?Hi; simpl; by f_equal.
Qed.

Lemma commit_positions_NoDup names decisions : NoDup names → NoDup (commit_positions (zip names decisions)).*1.
Proof.
  unfold commit_positions. rewrite <-list_fmap_compose.
  revert decisions. induction names as [|n names IH]; intros [|d ds] Hnd; simpl; try constructor.
  apply NoDup_cons in Hnd as [Hn Hnd]. specialize (IH ds Hnd). rewrite filter_cons. case_decide; [|done].
  rewrite fmap_cons. constructor; [|done]. simpl. intros ([n' d'] & E & Hin)%list_elem_of_fmap. simpl in E.
  apply list_elem_of_filter in Hin as [_ Hin]. apply elem_of_zip_l in Hin. by subst.
Qed.

(** The end of the run: sending the positions that are ahead. *)
Lemma commit_send w0 w (current : gmap TopicPartition (option Z)) decisions :
  let name p := mkTP (rs_topic s) (po_partition p) in
  let positions := commit_positions (zip (name <$> rs_partitions s) decisions) in
  same_offsets w0 w → NoDup (name <$> rs_partitions s) →
  Forall (λ p, 0 ≤ po_next_offset p) (rs_partitions s) →
  (∀ tp, tp ∈ name <$> rs_partitions s → current !! tp = Some (committed_of w0 tp)) →
  Forall2 (λ x d, ∃ c, current !! x.2 = Some c ∧ pc_requested d = po_next_offset x.1 ∧
     0 ≤ po_next_offset x.1 ∧ (pc_status d = "committed" ↔ (∀ o, c = Some o → o < po_next_offset x.1)))
    (zip (rs_partitions s) (name <$> rs_partitions s)) decisions →
  commit_post w0 ((_ ← (if bool_decide (positions = []) then mret ()
                          else gw_commit (rs_group_id s) positions : K W unit);
                     _ ← check_cancelled; mret decisions) w).
Proof.
  intros name positions Hs Hnd Hnn Hcur HF.
  assert (∀ tp o, (tp, o) ∈ positions ↔ ∃ p, p ∈ rs_partitions s ∧ tp = name p ∧ o = po_next_offset p ∧
    ∀ x, committed_of w0 tp = Some x → x < po_next_offset p) as Hpos.
  { intros tp o. unfold positions. rewrite (sent_position _ name current) by done. split.
    - intros (p & Hp & -> & -> & c & Hc & Hlt). exists p. split_and!; [done..|].
      rewrite Hcur in Hc by (apply list_elem_of_fmap; eauto). simplify_eq. done.
    - intros (p & Hp & -> & -> & Hlt). exists p. split_and!; [done..|].
      rewrite Hcur by (apply list_elem_of_fmap; eauto). eauto. }
  set (send := if bool_decide (positions = []) then mret () else gw_commit (rs_group_id s) positions : K W unit).
  assert (∀ tp, committed_of (send w).2 tp = committed_of w0 tp ∨
    ∃ p, (tp, p) ∈ positions ∧ committed_of (send w).2 tp = Some p) as Hsome.
  { intros tp. unfold send. case_bool_decide; [left; apply Hs|]. rewrite <-(Hs tp).
    apply commit_some. }
  assert (∀ w1, send w = (Ok (), w1) → ∀ tp p, (tp, p) ∈ positions →
    committed_of w1 tp = Some p) as Hall.
  { intros w1 Hw1 tp p Hin. unfold send in Hw1. case_bool_decide as E.
    - rewrite E in Hin. by apply elem_of_nil in Hin.
    - eapply commit_all; [|done|done]. by apply commit_positions_NoDup. }
  assert (∀ w1, w1 = (send w).2 → ∀ tp, offset_le (committed_of w0 tp) (committed_of w1 tp)) as Hmono.
  { intros w1 -> tp. destruct (Hsome tp) as [->|(o & Hin & ->)]; [apply offset_le_refl|].
    apply Hpos in Hin as (p & _ & -> & -> & Hlt).
    destruct (committed_of w0 (name p)) as [x|]; simpl; [specialize (Hlt x eq_refl); lia|done]. }
  unfold mbind at 1, K_bind at 1. destruct (send w) as [[[]|e] w1] eqn:Ew; simpl in *.
  2: { split; [|done]. intros tp. simpl. by apply Hmono. }
  unfold mbind, K_bind. pose proof (check_keeps w1) as Hk.
  destruct (check_cancelled w1) as [[[]|e] w2] eqn:E2; simpl in Hk.
  2: { split; [|done]. intros tp. simpl. rewrite Hk. by apply Hmono. }
  split; simpl.
  - intros tp. rewrite Hk. by apply Hmono.
  - intros res _ tp. rewrite Hk. fold name.
    destruct (list_find _ (rs_partitions s)) as [[i p]|] eqn:Ef.
    + apply list_find_Some in Ef as (Hi & Htp & _). apply list_elem_of_lookup_2 in Hi.
      assert (tp = name p) as -> by done. rewrite Forall_forall in Hnn. specialize (Hnn p Hi).
      assert ((∀ x, committed_of w0 (name p) = Some x → x < po_next_offset p) ∨
        ¬ (∀ x, committed_of w0 (name p) = Some x → x < po_next_offset p)) as [Hlt|Hge].
      { destruct (committed_of w0 (name p)) as [x|]; [|by left].
        destruct (decide (x < po_next_offset p)); [left; by intros ? [= <-]|right]. auto. }
      * rewrite (Hall w1 eq_refl (name p) (po_next_offset p)) by (apply Hpos; eauto). f_equal.
        destruct (committed_of w0 (name p)) as [x|]; simpl; [specialize (Hlt x eq_refl)|]; lia.
      * destruct (Hsome (name p)) as [->|(o & Hin & _)].
        -- destruct (committed_of w0 (name p)) as [x|]; [|by destruct Hge].
           simpl. f_equal. destruct (decide (x < po_next_offset p)); [|lia].
           destruct Hge. by intros ? [= <-].
        -- destruct Hge. apply Hpos in Hin as (p' & Hp' & E & _ & Hlt).
           assert (p' = p) as ->; [|done].
           destruct (find_part (name p) p Hnd Hi eq_refl) as [i1 E1].
           destruct (find_part (name p) p' Hnd Hp' (eq_sym E)) as [i2 E3]. congruence.
    + destruct (Hsome tp) as [->|(o & Hin & _)]; [done|].
      apply Hpos in Hin as (p & Hp & -> & _). apply list_find_None in Ef.
      rewrite Forall_forall in Ef. by destruct (Ef p Hp).
Qed.

(** A whole run of [CommitKafkaOffsets]. *)
Lemma commit_run w : commit_post w (CommitKafkaOffsets check_cancelled s w).
Proof.
  unfold CommitKafkaOffsets.
  apply commit_bind; [done|apply check_keeps'|]. intros _ w1 _ H1.
  apply commit_bind; [done|apply klift_keeps|]. intros _ w2 _ H2.
  apply commit_bind; [done|apply klift_keeps|]. intros partitions w3 [Hparts _]%klift_ok H3.
  apply pairs_topic in Hparts. case_bool_decide as Hnd; [by apply commit_post_raise|].
  apply commit_bind; [done|apply klift_keeps|]. intros _ w4 [Hnn%for_each_ok _]%klift_ok H4.
  apply commit_bind; [done|apply check_keeps'|]. intros _ w5 _ H5.
  apply commit_bind; [done|intros ? tp; apply partitions_keeps|]. intros available w6 _ H6.
  destruct (negb _); [by apply commit_post_raise|].
  apply commit_bind; [done|apply cluster_check_keeps|]. intros _ w7 _ H7.
  case_bool_decide as Hempty.
  { apply commit_bind; [done|apply check_keeps'|]. intros _ w8 _ H8. split; simpl.
    - intros tp. rewrite H8. apply offset_le_refl.
    - intros res _ tp. rewrite H8. rewrite Hparts in Hempty. apply fmap_nil_inv in Hempty.
      by rewrite Hempty. }
  apply commit_bind; [done|apply check_keeps'|]. intros _ w8 _ H8.
  apply commit_bind; [done|intros ? tp; apply bounds_keeps|]. intros bounds w9 _ H9.
  apply commit_bind; [done|apply check_keeps'|]. intros _ w10 _ H10.
  apply commit_bind; [done|intros ? tp; apply committed_keeps|]. intros current w11 Hcur H11.
  apply commit_bind; [done|apply klift_keeps|]. intros pairs w12 [Hpairs _]%klift_ok H12.
  apply commit_bind; [done|apply klift_keeps|]. intros decisions w13 [Hdec%decisions_ok _]%klift_ok H13.
  apply commit_bind; [done|apply klift_keeps|]. intros decided w14 [Hd _]%klift_ok H14.
  apply commit_bind; [done|apply check_keeps'|]. intros _ w15 _ H15.
  unfold zip_strict in Hpairs, Hd. case_bool_decide; [|done]. case_bool_decide; [|done].
  injection Hpairs as <-. injection Hd as <-. subst partitions.
  apply (commit_send w w15 current); [done|done| | |done].
  - eapply Forall_impl; [exact Hnn|]. intros p [v Hv]. by apply nonnegative_ok in Hv.
  - intros tp Htp. rewrite (committed_lawful _ _ _ _ _ Hcur Htp). by rewrite H10.
Qed.
End commit.
