(* ===== verification/KafkaReader.v ===== *)
(** Kafka consumption: the lazy reader of [src/modules/kafka_consumption/infra/dask_reader.py].

    [KafkaDaskReader] keeps the receipts of the chunks, which chunks were delivered, and whether the
    read failed or was published. Its methods run in [K (Reader * W)]; the ghost field
    [rd_publications] records every call of [publish] with its argument. The task graph made by
    [dataframe] is run in the order of its cursor dependencies by [run_graph]. *)
From S2P Require Import Prelude KafkaTypes KafkaFlow KafkaSpec.

(** Python's [(a + b - 1) // b] for a positive [b] *)
Definition ceil_div (a b : Z) : Z := (a + b - 1) / b.

(** The number of tasks of the graph before the planning limit is applied. *)
Definition slot_count (plan : ReadPlan) : Z :=
  let limits := pl_limits plan in
  let count := sumZ ((λ r, or_end r - or_start r) <$> pl_ranges plan) in
  let count := match max_messages limits with Some n => Z.min count n | None => count end in
  let size := count * max_message_bytes limits in
  let size := match max_bytes limits with Some n => Z.min size n | None => size end in
  if count =? 0 then 1
  else Z.min count (ceil_div count (rows_per_partition limits)
                    + ceil_div size (target_partition_bytes limits) + 1).

Definition read_slot_count (plan : ReadPlan) (max_plan_tasks : Z) : outcome kafka_exn Z :=
  if max_plan_tasks <? slot_count plan then
    Raise (KafkaInputError ("Kafka read needs " ++ pretty (slot_count plan)
             ++ " tasks; planning limit is " ++ pretty max_plan_tasks
             ++ ". Reduce max_messages/max_bytes or increase chunk targets."))
  else Ok (slot_count plan).

Record Reader := mkReader {
  rd_receipts : gmap Z ChunkReceipt;
  rd_delivered : gset Z;
  rd_failed : bool;
  rd_published : bool;
  rd_publications : list ReadSummary;
}.

Definition new_reader : Reader := mkReader ∅ ∅ false false [].

Definition put_receipt (number : Z) (r : ChunkReceipt) (rd : Reader) : Reader :=
  mkReader (<[number := r]> (rd_receipts rd)) (rd_delivered rd) (rd_failed rd) (rd_published rd)
    (rd_publications rd).
Definition add_delivered (number : Z) (rd : Reader) : Reader :=
  mkReader (rd_receipts rd) ({[number]} ∪ rd_delivered rd) (rd_failed rd) (rd_published rd)
    (rd_publications rd).
Definition set_invalid (rd : Reader) : Reader :=
  mkReader (rd_receipts rd) (rd_delivered rd) true false (rd_publications rd).
Definition set_published (rd : Reader) : Reader :=
  mkReader (rd_receipts rd) (rd_delivered rd) (rd_failed rd) true (rd_publications rd).
Definition log_publication (s : ReadSummary) (rd : Reader) : Reader :=
  mkReader (rd_receipts rd) (rd_delivered rd) (rd_failed rd) (rd_published rd)
    (rd_publications rd ++ [s]).

(** ** Totals *)

(** [dataclasses.replace(offset, start_offset=..., message_count=..., payload_bytes=...)] *)
Definition merge_offsets (old offset : PartitionOffsets) : outcome kafka_exn PartitionOffsets :=
  c0 ← opt_int (po_message_count old); c1 ← opt_int (po_message_count offset);
  b0 ← opt_int (po_payload_bytes old); b1 ← opt_int (po_payload_bytes offset);
  make_PartitionOffsets
    (mkPO (po_partition offset) (po_next_offset offset) (po_start_offset old)
       (po_last_message_offset offset) (Some (c0 + c1)) (Some (b0 + b1))).

Definition add_total (totals : gmap Z PartitionOffsets) (offset : PartitionOffsets)
    : outcome kafka_exn (gmap Z PartitionOffsets) :=
  match totals !! po_partition offset with
  | None => Ok (<[po_partition offset := offset]> totals)
  | Some old => new ← merge_offsets old offset; Ok (<[po_partition offset := new]> totals)
  end.

Fixpoint add_totals (totals : gmap Z PartitionOffsets) (offsets : list PartitionOffsets)
    : outcome kafka_exn (gmap Z PartitionOffsets) :=
  match offsets with
  | [] => Ok totals
  | o :: os => totals' ← add_total totals o; add_totals totals' os
  end.

(** [self.receipts[number]] for [number in range(slots)], with their offsets in order. *)
Fixpoint slot_receipts (receipts : gmap Z ChunkReceipt) (start : Z) (n : nat)
    : outcome kafka_exn (list ChunkReceipt) :=
  match n with
  | O => Ok []
  | S n' =>
      match receipts !! start with
      | None => Raise KeyError
      | Some r => rs ← slot_receipts receipts (start + 1) n'; Ok (r :: rs)
      end
  end.

Definition sorted_totals (totals : gmap Z PartitionOffsets) : list PartitionOffsets :=
  omap (λ p, totals !! p) (merge_sort Z.le (map_to_list totals).*1).

Definition make_summary (plan : ReadPlan) (receipts : gmap Z ChunkReceipt) (slots : Z)
    (terminal : ReadCursor) : outcome kafka_exn ReadSummary :=
  rs ← slot_receipts receipts 0 (Z.to_nat slots);
  totals ← add_totals ∅ (concat (cr_offsets <$> rs));
  Ok (mkSummary (pl_topic plan) (pl_group_id plan) (sorted_totals totals) (Some (pl_read_id plan))
        (pl_cluster_id plan) (pl_connection_id plan) (pl_isolation_level plan)
        (Some (sumZ (cr_message_count <$> (map_to_list receipts).*2)))
        (Some (sumZ (cr_payload_bytes <$> (map_to_list receipts).*2)))
        (rc_stop_reason terminal)).

(** ** The reader *)

Section reader.
Context {W : Type} {gw : KafkaGateway W}.
Context (check_cancelled : K W unit) (fingerprint_of : list RawMessage → string).
Context {Frame : Type} (messages_to_dataframe : list RawMessage → outcome kafka_exn Frame).
Context (publish : ReadSummary → K W unit) (invalidate_variables : K W unit).
Context (plan : ReadPlan) (slots : Z).

(** An effect of the world inside a method of the reader. *)
Definition outside {A} (m : K W A) : K (Reader * W) A := λ s,
  let '(r, w) := m s.2 in (r, (s.1, w)).

Definition get_reader : K (Reader * W) Reader := λ s, (Ok s.1, s).
Definition modify_reader (f : Reader → Reader) : K (Reader * W) unit := λ s, (Ok (), (f s.1, s.2)).

Definition invalidate : K (Reader * W) unit :=
  _ ← modify_reader set_invalid; outside invalidate_variables.

(** [except BaseException: self.invalidate(); raise] *)
Definition or_invalidate {A} (m : K (Reader * W) A) : K (Reader * W) A :=
  kcatch m (λ e, _ ← invalidate; kraise e).

Definition check_alive : K (Reader * W) unit :=
  _ ← outside check_cancelled;
  rd ← get_reader;
  if rd_failed rd then kraise (KafkaSnapshotLostError "Kafka read was invalidated; start a new run")
  else mret ().

Definition read (cursor : ReadCursor) (number : Z) : K (Reader * W) (Frame * ChunkReceipt) :=
  or_invalidate (
    _ ← check_alive;
    rd ← get_reader;
    result ← (match rd_receipts rd !! number with
              | None => outside (read_chunk check_cancelled fingerprint_of plan cursor number)
              | Some previous => outside (replay_chunk check_cancelled fingerprint_of plan previous)
              end : K (Reader * W) (list RawMessage * ChunkReceipt));
    frame ← klift (messages_to_dataframe result.1);
    if bool_decide (number = slots - 1) && bool_decide (rc_stop_reason (cr_cursor result.2) = None) then
      kraise (KafkaSnapshotLostError "Kafka graph exhausted before terminal cursor")
    else
      _ ← modify_reader (put_receipt number result.2);
      mret (frame, result.2)).

Definition finish : K (Reader * W) unit :=
  or_invalidate (
    _ ← check_alive;
    rd ← get_reader;
    if bool_decide (Z.of_nat (size (rd_receipts rd)) ≠ slots)
       || bool_decide (Z.of_nat (size (rd_delivered rd)) ≠ slots) then mret ()
    else
      match rd_receipts rd !! (slots - 1) with
      | None => kraise KeyError
      | Some last =>
          if bool_decide (rc_stop_reason (cr_cursor last) = None) then
            kraise (KafkaSnapshotLostError "Kafka read has no terminal cursor")
          else if rd_published rd then mret ()
          else
            summary ← klift (make_summary plan (rd_receipts rd) slots (cr_cursor last));
            _ ← modify_reader (log_publication summary);
            _ ← outside (publish summary);
            modify_reader set_published
      end).

(** [_frame] *)
Definition frame_task (result : Frame * ChunkReceipt) (number : Z) : K (Reader * W) Frame :=
  _ ← modify_reader (add_delivered number);
  _ ← finish;
  mret result.1.

(** The cursor of the first task, in [dataframe]. *)
Definition first_cursor : ReadCursor :=
  mkCursor ((λ r, mkPosition (or_tp r) (or_start r)) <$> pl_ranges plan)
    (max_messages (pl_limits plan)) (max_bytes (pl_limits plan)) 0 None.

(** The tasks of [dataframe]: each reads from the cursor of the one before. *)
Fixpoint run_tasks (n : nat) (number : Z) (cursor : ReadCursor) : K (Reader * W) (list Frame) :=
  match n with
  | O => mret []
  | S n' =>
      result ← read cursor number;
      frame ← frame_task result number;
      frames ← run_tasks n' (number + 1) (cr_cursor result.2);
      mret (frame :: frames)
  end.

(** Computing the whole frame, with the callback [on_end]. *)
Definition run_graph : K (Reader * W) (list Frame) :=
  frames ← run_tasks (Z.to_nat slots) 0 first_cursor;
  _ ← finish;
  mret frames.
End reader.
