(* ===== verification/KafkaReaderSpec.v ===== *)
(** Kafka consumption: what the reader of [KafkaReader] guarantees over a gateway that keeps the
    contract of [KafkaSpec]. The planned number of tasks always reaches a terminal cursor; the
    published summary describes exactly the delivered messages; and a read is published at most
    once, whatever the order of its tasks. *)
From S2P Require Import Prelude KafkaTypes KafkaFlow KafkaSpec KafkaReader.

Section reader_spec.
Context {W : Type} {gw : KafkaGateway W} {kl : KafkaLog W}.
Context (plan : ReadPlan) (Hplan : plan_ok plan).

Abbreviation limits := (pl_limits plan).
Abbreviation positions0 := (rc_positions (first_cursor plan)).

(** ** The chunks read so far *)

(** After [k] chunks: the messages delivered, the entries of their receipts and the cursor. *)
Record so_far (k : Z) (ms : list RawMessage) (es : list PartitionOffsets) (c : ReadCursor) : Prop := {
  sf_cursor : cursor_ok plan c;
  sf_advances : advances plan positions0 ms (rc_positions c);
  sf_messages : rc_remaining_messages c = (λ n, n - zlen ms) <$> max_messages limits;
  sf_bytes : rc_remaining_bytes c = (λ n, n - payload_sum ms) <$> max_bytes limits;
  sf_size : Forall (λ m, payload_bytes m ≤ max_message_bytes limits) ms;
  sf_entries : receipt_describes plan es ms;
  sf_open : rc_stop_reason c = None → 0 < k →
    rc_remaining_messages c ≠ Some 0 ∧ ∃ i, open_at plan (rc_positions c) i;
  sf_full : rc_stop_reason c = None → k ≤ zlen ms ∧
    ∃ a b, k = a + b ∧ 0 ≤ a ∧ 0 ≤ b ∧ a * rows_per_partition limits ≤ zlen ms ∧
           b * target_partition_bytes limits ≤ payload_sum ms;
}.

Lemma so_far_start : so_far 0 [] [] (first_cursor plan).
Proof using Hplan.
  destruct Hplan as [(Hm & Hb & ? & ? & ?) HR _]. split; simpl; try done.
  - split; simpl.
    + apply Forall2_fmap_l, Forall_Forall2_diag. eapply Forall_impl; [exact HR|].
      intros r [_ ?]. simpl. split; simpl; [done|lia].
    + intros n En. specialize (Hm n En). lia.
    + intros n En. specialize (Hb n En). lia.
    + split; [done|]. intros Hne. unfold zlen. destruct (pl_ranges plan); [done|simpl; lia].
    + done.
  - apply advances_refl.
  - destruct (max_messages limits); simpl; [|done]. f_equal. unfold zlen; simpl. lia.
  - destruct (max_bytes limits); simpl; [|done]. f_equal. unfold payload_sum; simpl. lia.
  - exists []. by split.
  - intros _. split; [done|]. exists 0, 0. unfold zlen, payload_sum; simpl. lia.
Qed.

Lemma so_far_step (fingerprint_of : list RawMessage → string) k ms es c ms' r : 0 ≤ k →
  so_far k ms es c → chunk_ok fingerprint_of plan c ms' r →
  so_far (k + 1) (ms ++ ms') (es ++ cr_offsets r) (cr_cursor r).
Proof using Hplan.
  intros Hk [HC Hadv Hm Hb Hs He Ho Hf] [HC' Hadv' Hm' Hb' _ _ Hs' He' _ Ho' Hst' Hf'].
  destruct (pk_limits _ Hplan) as (_ & _ & ? & ? & _).
  split; [done|by eapply advances_trans| | |by apply Forall_app|by apply receipt_describes_app|auto|].
  - rewrite Hm', Hm, <-option_fmap_compose. apply option_fmap_ext. intros n. simpl. rewrite zlen_app. lia.
  - rewrite Hb', Hb, <-option_fmap_compose. apply option_fmap_ext. intros n. simpl.
    rewrite payload_sum_app. lia.
  - intros Hnone. rewrite zlen_app, payload_sum_app.
    assert (rc_stop_reason c = None) as Hc.
    { destruct (rc_stop_reason c) eqn:E; [|done]. destruct Hst' as [E' _]; [done|]. congruence. }
    destruct (Hf Hc) as (Hkm & a & b & -> & ? & ? & ? & ?).
    pose proof (zlen_nonneg ms'). pose proof (payload_sum_nonneg ms').
    assert (1 ≤ zlen ms').
    { destruct (Hf' Hnone) as [?|?]; [lia|]. destruct ms'; [|unfold zlen; simpl; lia].
      unfold payload_sum in *; simpl in *. lia. }
    split; [lia|]. destruct (Hf' Hnone) as [?|?].
    + exists (a + 1), b. nia.
    + exists a, (b + 1). nia.
Qed.

Lemma ranges_lag : total_lag positions0 (pl_ranges plan)
  = sumZ ((λ r, or_end r - or_start r) <$> pl_ranges plan).
Proof using Hplan.
  pose proof (pk_ranges _ Hplan) as HR. unfold total_lag, first_cursor; simpl.
  induction HR as [|r l [_ ?] _ IH]; [done|].
  rewrite !fmap_cons. cbn [zip_with sumZ foldr]. unfold sumZ in IH. rewrite IH. unfold lag; simpl. lia.
Qed.

Lemma ceil_div_bound a x n : 0 < n → a * n ≤ x → a ≤ ceil_div x n.
Proof. intros Hn Ha. unfold ceil_div. apply Z.div_le_lower_bound; nia. Qed.

Lemma open_lag pos i : open_at plan pos i → 0 < total_lag pos (pl_ranges plan).
Proof.
  intros (p & r & Hp & Hr & Hlt). revert i pos Hp Hr. generalize (pl_ranges plan).
  intros rs. induction rs as [|r' rs IH]; intros [|i] [|p' ps] Hp Hr; simpl in *; simplify_eq.
  - pose proof (total_lag_nonneg ps rs). unfold total_lag in *; simpl. unfold lag at 1. lia.
  - specialize (IH i ps Hp Hr). unfold total_lag in *; simpl. unfold lag at 1. lia.
Qed.

Lemma slot_count_pos : 0 < slot_count plan.
Proof using Hplan.
  destruct (pk_limits _ Hplan) as (Lm & Lb & ? & ? & ?). unfold slot_count.
  pose proof (total_lag_nonneg positions0 (pl_ranges plan)) as Htot. rewrite ranges_lag in Htot.
  set (total := sumZ _) in *.
  set (count := match max_messages (pl_limits plan) with Some n => Z.min total n | None => total end).
  assert (0 ≤ count) as Hc.
  { unfold count. destruct (max_messages (pl_limits plan)) as [n|]; [specialize (Lm n eq_refl)|]; lia. }
  destruct (Z.eqb_spec count 0); [lia|].
  pose proof (ceil_div_bound 0 count (rows_per_partition (pl_limits plan))).
  match goal with |- context [ceil_div ?s (target_partition_bytes _)] => assert (0 ≤ s) end.
  { destruct (max_bytes (pl_limits plan)) as [k|]; [specialize (Lb k eq_refl)|]; nia. }
  match goal with |- context [ceil_div ?s (target_partition_bytes _)] =>
    pose proof (ceil_div_bound 0 s (target_partition_bytes (pl_limits plan))) end. lia.
Qed.

(** The graph has enough tasks: the last one leaves a terminal cursor. *)
Lemma slots_are_enough ms es c : so_far (slot_count plan) ms es c → rc_stop_reason c ≠ None.
Proof using Hplan.
  intros [HC Hadv Hm Hb Hs _ Ho Hf] Hnone. destruct (pk_limits _ Hplan) as (Lm & Lb & ? & ? & ?).
  destruct (Hf Hnone) as (Hk & a & b & Hab & ? & ? & Ha & Hbb).
  destruct (Ho Hnone slot_count_pos) as [Hrem [i Hopen%open_lag]]. clear Ho.
  pose proof (ad_lag _ _ _ _ Hadv) as Hlag. rewrite ranges_lag in Hlag.
  pose proof (payload_sum_bound _ _ Hs) as Hps. pose proof (zlen_nonneg ms).
  pose proof (total_lag_nonneg (rc_positions c) (pl_ranges plan)).
  unfold slot_count in *. set (total := sumZ _) in *.
  set (count := match max_messages (pl_limits plan) with Some n => Z.min total n | None => total end) in *.
  assert (zlen ms ≤ count) as Hle.
  { unfold count. destruct (max_messages (pl_limits plan)) as [n|] eqn:E; simpl in Hm; [|lia].
    destruct HC as [_ Hn _ _ _]. specialize (Hn _ Hm). lia. }
  set (size := match max_bytes (pl_limits plan) with
               | Some n => Z.min (count * max_message_bytes (pl_limits plan)) n
               | None => count * max_message_bytes (pl_limits plan) end) in *.
  assert (payload_sum ms ≤ size) as Hsz.
  { unfold size. destruct (max_bytes (pl_limits plan)) as [n|] eqn:E; simpl in Hb; [|nia].
    destruct HC as [_ _ Hn _ _]. specialize (Hn _ Hb). nia. }
  assert (zlen ms < count) as Hlt.
  { unfold count. destruct (max_messages (pl_limits plan)) as [n|] eqn:E; simpl in Hm; [|lia].
    destruct HC as [_ Hn _ _ _]. specialize (Hn _ Hm). rewrite Hm in Hrem.
    assert (n - zlen ms ≠ 0) by congruence. lia. }
  pose proof (ceil_div_bound a count (rows_per_partition (pl_limits plan)) ltac:(lia) ltac:(lia)).
  pose proof (ceil_div_bound b size (target_partition_bytes (pl_limits plan)) ltac:(lia) ltac:(lia)).
  destruct (Z.eqb_spec count 0); lia.
Qed.

(** ** Totals *)

Abbreviation of_range r ms := (filter (λ m, rm_tp m = or_tp r) ms).

(** The entry of a range in the summary: none when nothing was delivered, else its first start,
    the offset behind its last message, and the counts. *)
Definition total_of (r : OffsetRange) (mine : list RawMessage) (po : option PartitionOffsets) : Prop :=
  match last mine with
  | None => po = None
  | Some m => ∃ s, or_start r ≤ s ∧ Forall (λ m', s ≤ rm_offset m') mine ∧
      po = Some (mkPO (tp_partition (or_tp r)) (rm_offset m + 1) (Some s) (Some (rm_offset m))
                   (Some (zlen mine)) (Some (payload_sum mine)))
  end.

Record totals_ok (ms : list RawMessage) (totals : gmap Z PartitionOffsets) : Prop := {
  to_ranges : ∀ r, r ∈ pl_ranges plan → total_of r (of_range r ms) (totals !! tp_partition (or_tp r));
  to_only : ∀ p po, totals !! p = Some po →
    po_partition po = p ∧ ∃ r, r ∈ pl_ranges plan ∧ tp_partition (or_tp r) = p;
}.

Lemma same_partition r r' : r ∈ pl_ranges plan → r' ∈ pl_ranges plan →
  tp_partition (or_tp r) = tp_partition (or_tp r') → r = r'.
Proof using Hplan.
  intros [i Hi]%list_elem_of_lookup [j Hj]%list_elem_of_lookup E.
  assert (i = j) as ->; [|by simplify_eq].
  eapply (NoDup_lookup _ _ _ (tp_partition (or_tp r)) (pk_partitions _ Hplan)); rewrite list_lookup_fmap.
  - by rewrite Hi.
  - rewrite Hj. simpl. by rewrite E.
Qed.

Lemma segment_tp tp s e m : m ∈ segment (history tp (pl_isolation_level plan)) s e → rm_tp m = tp.
Proof.
  intros [Hm _]%elem_of_segment. pose proof (history_tp tp (pl_isolation_level plan)) as HF.
  rewrite Forall_forall in HF. auto.
Qed.

(** The entry of one batch. *)
Lemma entry_total po ms : entry_ok plan po ms → ∃ r m s, r ∈ pl_ranges plan ∧ last ms = Some m ∧
  0 ≤ tp_partition (or_tp r) ∧ 0 ≤ or_start r ≤ s ∧
  po = mkPO (tp_partition (or_tp r)) (rm_offset m + 1) (Some s) (Some (rm_offset m)) (Some (zlen ms))
         (Some (payload_sum ms)) ∧
  (∀ x, x ∈ ms → rm_tp x = or_tp r ∧ s ≤ rm_offset x).
Proof using Hplan.
  intros [(r & s & Hin & Ep & Es & Hs & Hn & Hms) (m & Hl & En & El) Ec Eb].
  pose proof (pk_ranges _ Hplan) as HR. rewrite Forall_forall in HR. specialize (HR r Hin).
  exists r, m, s. split_and!; try done; try lia; [destruct po; simpl in *; by subst|].
  intros x Hx. rewrite Hms in Hx. split; [by eapply segment_tp|].
  apply elem_of_segment in Hx as [_ ?]. lia.
Qed.

Lemma sorted_app_lt (l k : list RawMessage) x y :
  StronglySorted offset_lt (l ++ k) → x ∈ l → y ∈ k → rm_offset x < rm_offset y.
Proof.
  induction l as [|z l IH]; [set_solver|]. simpl. intros [Hs HF]%StronglySorted_inv.
  intros [->|Hx]%elem_of_cons Hy; [|by apply IH]. rewrite Forall_forall in HF. apply HF. set_solver.
Qed.

Lemma last_elem {A} (l : list A) x : last l = Some x → x ∈ l.
Proof. intros [k ->]%last_Some. set_solver. Qed.

Lemma of_range_other r r' ms : r ∈ pl_ranges plan → r' ∈ pl_ranges plan → r' ≠ r →
  (∀ x, x ∈ ms → rm_tp x = or_tp r) → of_range r' ms = [].
Proof using Hplan.
  intros Hr Hr' Hne Htp. apply list_filter_none. intros x Hx E. apply Hne.
  apply same_partition; [done..|]. rewrite <-E. by rewrite Htp.
Qed.

Lemma merge_valid part s m c0 c1 b0 b1 :
  0 ≤ part → 0 ≤ s ≤ rm_offset m → 0 ≤ c0 + c1 → 0 ≤ b0 + b1 →
  make_PartitionOffsets (mkPO part (rm_offset m + 1) (Some s) (Some (rm_offset m)) (Some (c0 + c1))
    (Some (b0 + b1)))
  = Ok (mkPO part (rm_offset m + 1) (Some s) (Some (rm_offset m)) (Some (c0 + c1)) (Some (b0 + b1))).
Proof.
  intros. unfold make_PartitionOffsets. simpl. rewrite !nonnegative_intro by lia. simpl.
  rewrite (proj2 (Z.ltb_ge (rm_offset m + 1) s)) by lia. simpl.
  rewrite Z.eqb_refl. simpl. by rewrite (proj2 (Z.ltb_ge (rm_offset m) s)) by lia.
Qed.

Lemma add_total_ok ms totals po batch :
  totals_ok ms totals → entry_ok plan po batch →
  (∀ r, r ∈ pl_ranges plan → StronglySorted offset_lt (of_range r (ms ++ batch))) →
  ∃ totals', add_total totals po = Ok totals' ∧ totals_ok (ms ++ batch) totals'.
Proof using Hplan.
  intros [HR HO] (r & m & s & Hin & Hl & Hp & Hs & -> & Hx)%entry_total Hsort.
  specialize (Hsort r Hin). rewrite filter_app, (list_filter_all _ batch) in Hsort by (intros; by apply Hx).
  assert (∀ po', total_of r (of_range r ms ++ batch) (Some po') →
    po_partition po' = tp_partition (or_tp r) →
    totals_ok (ms ++ batch) (<[tp_partition (or_tp r) := po']> totals)) as Hins.
  { intros po' Ht Ep. split.
    - intros r' Hr'. rewrite filter_app. destruct (decide (r' = r)) as [->|Hne].
      + rewrite lookup_insert_eq, (list_filter_all _ batch) by (intros; by apply Hx). done.
      + rewrite lookup_insert_ne by (intros E; by apply Hne; symmetry; apply same_partition).
        rewrite (of_range_other r r' batch), app_nil_r by (done || intros; by apply Hx). by apply HR.
    - intros p po'' [[<- <-]|[? ?]]%lookup_insert_Some; [|by apply HO]. split; [done|]. by exists r. }
  specialize (HR r Hin). unfold total_of in HR. unfold add_total; simpl.
  destruct (last (of_range r ms)) as [m0|] eqn:El.
  - destruct HR as (s0 & Hs0 & HF0 & ->).
    assert (m ∈ batch) as Hm by (by apply last_elem). apply last_elem in El.
    rewrite Forall_forall in HF0. pose proof (HF0 m0 El). pose proof (sorted_app_lt _ _ _ _ Hsort El Hm).
    unfold merge_offsets, opt_int. simpl.
    pose proof (zlen_nonneg batch). pose proof (zlen_nonneg (of_range r ms)).
    pose proof (payload_sum_nonneg batch). pose proof (payload_sum_nonneg (of_range r ms)).
    rewrite merge_valid by lia. eexists. split; [reflexivity|]. apply Hins; [|done].
    unfold total_of. rewrite last_app, Hl. exists s0. split_and!; [done| |].
    + apply Forall_app. split; [by apply Forall_forall|]. apply Forall_forall. intros x Hxb.
      pose proof (sorted_app_lt _ _ _ _ Hsort El Hxb). lia.
    + by rewrite zlen_app, payload_sum_app.
  - rewrite HR. eexists. split; [reflexivity|]. apply Hins; [|done]. apply last_None in El as ->.
    unfold total_of. simpl. rewrite Hl. exists s. split_and!; [lia| |done].
    apply Forall_forall. intros x Hxb. by apply Hx.
Qed.

Lemma add_totals_ok es bs ms totals :
  Forall2 (entry_ok plan) es bs → totals_ok ms totals →
  (∀ r, r ∈ pl_ranges plan → StronglySorted offset_lt (of_range r (ms ++ concat bs))) →
  ∃ totals', add_totals totals es = Ok totals' ∧ totals_ok (ms ++ concat bs) totals'.
Proof using Hplan.
  intros HF. revert ms totals. induction HF as [|po b es bs Hpo _ IH]; intros ms totals Ht Hsort; simpl.
  - exists totals. by rewrite app_nil_r.
  - simpl in Hsort. rewrite app_assoc in Hsort |- *.
    destruct (add_total_ok ms totals po b Ht Hpo) as (totals' & -> & Ht').
    { intros r Hr. specialize (Hsort r Hr). rewrite filter_app in Hsort.
      clear -Hsort. revert Hsort. generalize (of_range r (ms ++ b)). intros l.
      induction l as [|x l IHl]; [constructor|]. simpl. intros [Hs Hf]%StronglySorted_inv.
      constructor; [auto|]. by apply Forall_app in Hf as [? _]. }
    simpl. by apply IH.
Qed.
End reader_spec.

(** ** Publication, whatever the order of the tasks *)

Section publication.
Context {W : Type} {gw : KafkaGateway W}.
Context (check_cancelled : K W unit) (fingerprint_of : list RawMessage → string).
Context {Frame : Type} (messages_to_dataframe : list RawMessage → outcome kafka_exn Frame).
Context (publish : ReadSummary → K W unit) (invalidate_variables : K W unit).
Context (plan : ReadPlan) (slots : Z).

(** The methods a scheduler may call, in any order and any number of times. *)
Inductive reader_op :=
  | OpRead (cursor : ReadCursor) (number : Z)
  | OpFrame (result : Frame * ChunkReceipt) (number : Z)
  | OpFinish
  | OpInvalidate.

Abbreviation rfinish := (finish check_cancelled publish invalidate_variables plan slots).
Abbreviation rread := (read check_cancelled fingerprint_of messages_to_dataframe invalidate_variables plan slots).

(** The state after a call, whether it returned or raised. *)
Definition run_op (op : reader_op) (s : Reader * W) : Reader * W :=
  match op with
  | OpRead cursor number => (rread cursor number s).2
  | OpFrame result number =>
      (frame_task check_cancelled publish invalidate_variables plan slots result number s).2
  | OpFinish => (rfinish s).2
  | OpInvalidate => (invalidate invalidate_variables s).2
  end.

(** A summary made from the receipts of all the slots, the last one terminal. *)
Definition complete_summary (s : ReadSummary) : Prop :=
  ∃ receipts last, Z.of_nat (size receipts) = slots ∧ receipts !! (slots - 1) = Some last ∧
    rc_stop_reason (cr_cursor last) ≠ None ∧ make_summary plan receipts slots (cr_cursor last) = Ok s.

Record reader_inv (rd : Reader) : Prop := {
  ri_once : (length (rd_publications rd) ≤ 1)%nat;
  ri_done : rd_publications rd ≠ [] → rd_failed rd = true ∨ rd_published rd = true;
  ri_failed : rd_failed rd = true → rd_published rd = false;
  ri_published : rd_published rd = true → rd_publications rd ≠ [];
  ri_complete : Forall complete_summary (rd_publications rd);
}.

(** The part of the invariant that is independent of the two flags. *)
Definition reader_log_ok (rd : Reader) : Prop :=
  (length (rd_publications rd) ≤ 1)%nat ∧ Forall complete_summary (rd_publications rd).

Lemma set_invalid_inv rd : reader_log_ok rd → reader_inv (set_invalid rd).
Proof. intros [? ?]. split; simpl; auto; done. Qed.

Lemma invalidate_reader s : ((invalidate invalidate_variables s).2).1 = set_invalid s.1.
Proof.
  destruct s as [rd w]. unfold invalidate, mbind, K_bind, modify_reader, outside; simpl.
  by destruct (invalidate_variables w).
Qed.

Lemma or_invalidate_inv {A} (m : K (Reader * W) A) s :
  (match m s with (Ok _, s') => reader_inv s'.1 | (Raise _, s') => reader_log_ok s'.1 end) →
  reader_inv ((or_invalidate invalidate_variables m s).2).1.
Proof.
  unfold or_invalidate, kcatch. destruct (m s) as [[a|e] s']; [done|]. intros Hl.
  unfold mbind, K_bind. pose proof (invalidate_reader s') as Hi.
  destruct (invalidate invalidate_variables s') as [[[]|e'] s'']; simpl in *; rewrite Hi;
    by apply set_invalid_inv.
Qed.

Lemma inv_log_ok rd : reader_inv rd → reader_log_ok rd.
Proof. by intros [? _ _ _ ?]. Qed.

Lemma check_alive_reader rd w :
  match check_alive check_cancelled (rd, w) with
  | (Ok _, s') => s'.1 = rd ∧ rd_failed rd = false
  | (Raise _, s') => s'.1 = rd
  end.
Proof.
  unfold check_alive, mbind, K_bind, outside, get_reader; simpl.
  destruct (check_cancelled w) as [[[]|e] w']; simpl; [|done]. by destruct (rd_failed rd) eqn:E.
Qed.

Lemma finish_inv s : reader_inv s.1 → reader_inv ((rfinish s).2).1.
Proof.
  destruct s as [rd w]; simpl. intros Hinv. unfold finish. apply or_invalidate_inv.
  pose proof (inv_log_ok _ Hinv) as Hlog. unfold mbind at 1, K_bind at 1.
  pose proof (check_alive_reader rd w) as Ha.
  destruct (check_alive check_cancelled (rd, w)) as [[[]|e] [rd' w1]]; simpl in Ha; [|by subst].
  destruct Ha as [-> Hfail]. unfold mbind at 1, K_bind at 1, get_reader at 1. simpl.
  destruct (bool_decide (_ ≠ _) || _) eqn:Esz; [done|].
  apply orb_false_elim in Esz as [Hsz%bool_decide_eq_false _]. apply dec_stable in Hsz.
  destruct (rd_receipts rd !! (slots - 1)) as [last|] eqn:Elast; [|done].
  case_bool_decide as Hstop; [done|]. destruct (rd_published rd) eqn:Epub; [done|].
  unfold klift, mbind, K_bind, modify_reader, outside; simpl.
  destruct (make_summary plan (rd_receipts rd) slots (cr_cursor last)) as [sm|e] eqn:Esm; [|done].
  destruct Hinv as [_ Hdone _ _ _]. assert (rd_publications rd = []) as Hnil.
  { destruct (rd_publications rd); [done|]. by destruct Hdone as [?|?]; [done|congruence|congruence]. }
  assert (complete_summary sm) as Hc by (by exists (rd_receipts rd), last).
  destruct (publish sm w1) as [[[]|e] w2]; simpl.
  - split; simpl; rewrite ?Hnil; simpl; auto; congruence || done.
  - split; simpl; rewrite Hnil; simpl; auto.
Qed.

Lemma run_op_inv op s : reader_inv s.1 → reader_inv ((run_op op s).1).
Proof.
  intros Hinv. destruct op as [cursor number|result number| |]; simpl.
  - unfold read. apply or_invalidate_inv. destruct s as [rd w]; simpl in Hinv.
    pose proof (inv_log_ok _ Hinv) as Hlog. unfold mbind at 1, K_bind at 1.
    pose proof (check_alive_reader rd w) as Ha.
    destruct (check_alive check_cancelled (rd, w)) as [[[]|e] [rd' w1]]; simpl in Ha; [|by subst].
    destruct Ha as [-> Hfail]. unfold mbind at 1, K_bind at 1, get_reader at 1. simpl.
    unfold mbind at 1, K_bind at 1.
    assert (∀ m : K W (list RawMessage * ChunkReceipt), (outside m (rd, w1)).2.1 = rd) as Hout.
    { intros m. unfold outside; simpl. by destruct (m w1). }
    assert (∀ o, ∃ m, match o with
      | Some previous => outside (replay_chunk check_cancelled fingerprint_of plan previous)
      | None => outside (read_chunk check_cancelled fingerprint_of plan cursor number)
      end = outside m) as Hm by (intros [?|]; by eexists).
    destruct (Hm (rd_receipts rd !! number)) as [m ->]. specialize (Hout m).
    destruct (outside m (rd, w1)) as [[[ms r]|e] [rd' w2]]; simpl in Hout; subst rd'; [|done].
    unfold mbind at 1, K_bind at 1, klift at 1; simpl.
    destruct (messages_to_dataframe ms); simpl; [|done]. destruct (_ && _); [done|].
    unfold mbind, K_bind, modify_reader; simpl. destruct Hinv; by split.
  - unfold frame_task, mbind at 1, K_bind at 1, modify_reader; simpl.
    assert (reader_inv (add_delivered number s.1)) as Hinv' by (destruct Hinv; by split).
    pose proof (finish_inv (add_delivered number s.1, s.2) Hinv') as Hf.
    unfold mbind, K_bind. by destruct (rfinish _) as [[[]|e] s'].
  - by apply finish_inv.
  - rewrite invalidate_reader. by apply set_invalid_inv, inv_log_ok.
Qed.

Lemma run_ops_inv ops s : reader_inv s.1 → reader_inv ((foldl (λ s op, run_op op s) s ops).1).
Proof. revert s. induction ops as [|op ops IH]; simpl; intros s Hs; [done|]. apply IH. by apply run_op_inv. Qed.

Lemma new_reader_inv : reader_inv new_reader.
Proof. split; simpl; auto; done. Qed.
End publication.

(** ** A complete run of the graph *)

Section full_read.
Context {W : Type} {gw : KafkaGateway W} {kl : KafkaLog W}.
Context (check_cancelled : K W unit) (fingerprint_of : list RawMessage → string).
Context {Frame : Type} (messages_to_dataframe : list RawMessage → outcome kafka_exn Frame).
Context (publish : ReadSummary → K W unit) (invalidate_variables : K W unit).
Context (plan : ReadPlan) (Hplan : plan_ok plan).

Abbreviation slots := (slot_count plan).
Abbreviation rfinish := (finish check_cancelled publish invalidate_variables plan (slot_count plan)).
Abbreviation rread := (read check_cancelled fingerprint_of messages_to_dataframe invalidate_variables plan (slot_count plan)).
Abbreviation rtasks := (run_tasks check_cancelled fingerprint_of messages_to_dataframe publish invalidate_variables plan (slot_count plan)).

(** An exception that one of the collaborators of the reader raised. *)
Definition foreign (e : kafka_exn) : Prop :=
  external check_cancelled e ∨ (∃ ms, messages_to_dataframe ms = Raise e) ∨
  (∃ s w w', publish s w = (Raise e, w')) ∨ (∃ w w', invalidate_variables w = (Raise e, w')).

Record summary_describes (ms : list RawMessage) (c : ReadCursor) (s : ReadSummary) : Prop := {
  su_plan : rs_topic s = pl_topic plan ∧ rs_group_id s = pl_group_id plan ∧
            rs_isolation_level s = pl_isolation_level plan ∧ rs_cluster_id s = pl_cluster_id plan;
  su_totals : ∃ totals, totals_ok plan ms totals ∧ rs_partitions s = sorted_totals totals;
  su_count : rs_messages_read s = Some (zlen ms) ∧ rs_bytes_read s = Some (payload_sum ms);
  su_reason : rs_stop_reason s = rc_stop_reason c;
}.

Record task_inv (i : Z) (rs : list ChunkReceipt) (ms : list RawMessage) (c : ReadCursor)
    (rd : Reader) : Prop := {
  ti_index : zlen rs = i;
  ti_receipts : ∀ j, rd_receipts rd !! j = if decide (0 ≤ j) then rs !! Z.to_nat j else None;
  ti_size : Z.of_nat (size (rd_receipts rd)) = i;
  ti_delivered : (∀ j, j ∈ rd_delivered rd → 0 ≤ j < i) ∧ Z.of_nat (size (rd_delivered rd)) = i;
  ti_flags : rd_failed rd = false ∧ rd_published rd = false ∧ rd_publications rd = [];
  ti_so_far : so_far plan i ms (concat (cr_offsets <$> rs)) c;
  ti_sums : sumZ (cr_message_count <$> (map_to_list (rd_receipts rd)).*2) = zlen ms ∧
            sumZ (cr_payload_bytes <$> (map_to_list (rd_receipts rd)).*2) = payload_sum ms;
  ti_cursor : ∀ r, last rs = Some r → cr_cursor r = c;
}.

(** The state a complete read ends in. *)
Definition read_published (ms : list RawMessage) (rd : Reader) : Prop :=
  ∃ es c s, so_far plan slots ms es c ∧ rc_stop_reason c ≠ None ∧ summary_describes ms c s ∧
    rd_publications rd = [s] ∧ rd_published rd = true ∧ rd_failed rd = false ∧
    ∃ r, rd_receipts rd !! (slots - 1) = Some r ∧ cr_cursor r = c.

Lemma sumZ_perm l k : l ≡ₚ k → sumZ l = sumZ k.
Proof. induction 1; simpl; lia. Qed.

Lemma sum_insert {A} (f : A → Z) (m : gmap Z A) k v : m !! k = None →
  sumZ (f <$> (map_to_list (<[k := v]> m)).*2) = f v + sumZ (f <$> (map_to_list m).*2).
Proof.
  intros Hk. rewrite (sumZ_perm _ (f <$> ((k, v) :: map_to_list m).*2)); [done|].
  by rewrite map_to_list_insert.
Qed.

Lemma or_invalidate_foreign {A} (m : K (Reader * W) A) s (Q : A → Reader → Prop) :
  (match m s with (Ok a, s') => Q a s'.1 | (Raise e, _) => foreign e end) →
  match or_invalidate invalidate_variables m s with
  | (Ok a, s') => Q a s'.1
  | (Raise e, s') => foreign e ∧ rd_failed s'.1 = true
  end.
Proof.
  unfold or_invalidate, kcatch. destruct (m s) as [[a|e] s']; [done|]. intros He.
  unfold mbind, K_bind. pose proof (invalidate_reader invalidate_variables s') as Hi.
  assert (∀ e' s'', invalidate invalidate_variables s' = (Raise e', s'') → foreign e') as Hv.
  { intros e' s''. unfold invalidate, mbind, K_bind, modify_reader, outside; simpl.
    destruct (invalidate_variables s'.2) as [[]] eqn:E; [done|].
    intros [= <- <-]. right; right; right; eauto. }
  destruct (invalidate invalidate_variables s') as [[[]|e'] s''] eqn:E; simpl in *; rewrite Hi;
    (split; [|done]); [done|by eapply Hv].
Qed.

Lemma check_alive_ok rd w : rd_failed rd = false →
  match check_alive check_cancelled (rd, w) with
  | (Ok _, s') => s'.1 = rd
  | (Raise e, _) => foreign e
  end.
Proof.
  intros Hf. unfold check_alive, mbind, K_bind, outside, get_reader; simpl.
  destruct (check_cancelled w) as [[[]|e] w'] eqn:E; simpl; [by rewrite Hf|]. left; left; eauto.
Qed.

Lemma read_task i rs ms c rd w : task_inv i rs ms c rd →
  match rread c i (rd, w) with
  | (Ok x, s') => s'.1 = put_receipt i x.2 rd ∧ ∃ ms', chunk_ok fingerprint_of plan c ms' x.2 ∧ messages_to_dataframe ms' = Ok x.1
  | (Raise e, s') => foreign e ∧ rd_failed s'.1 = true
  end.
Proof using Hplan.
  intros [Hi Hrec _ _ [Hfail _] Hsf _ _]. unfold read.
  apply (or_invalidate_foreign _ _
    (λ x rd', rd' = put_receipt i x.2 rd ∧ ∃ ms', chunk_ok fingerprint_of plan c ms' x.2 ∧ messages_to_dataframe ms' = Ok x.1)).
  pose proof (check_alive_ok rd w Hfail) as Ha. unfold mbind at 1, K_bind at 1.
  destruct (check_alive check_cancelled (rd, w)) as [[[]|e] [rd' w1]]; simpl in Ha; [subst rd'|done].
  unfold mbind at 1, K_bind at 1, get_reader at 1. simpl.
  assert (rd_receipts rd !! i = None) as ->.
  { rewrite Hrec. case_decide; [|done]. apply lookup_ge_None_2. unfold zlen in Hi. lia. }
  unfold mbind at 1, K_bind at 1, outside at 1. simpl.
  pose proof (read_chunk_spec check_cancelled fingerprint_of plan Hplan c i w1 (sf_cursor _ _ _ _ _ Hsf)) as Hc.
  destruct (read_chunk check_cancelled fingerprint_of plan c i w1) as [[[ms' r]|e] w2]; [|by left].
  unfold mbind at 1, K_bind at 1, klift at 1. simpl.
  destruct (messages_to_dataframe ms') as [f|e] eqn:Ef; [|right; left; eauto].
  pose proof (zlen_nonneg rs). pose proof (so_far_step plan Hplan fingerprint_of i _ _ _ _ _ ltac:(lia) Hsf Hc) as Hnext.
  destruct (bool_decide (i = slots - 1) && _) eqn:Eend.
  - exfalso. apply andb_prop in Eend as [Ei%bool_decide_eq_true Hn%bool_decide_eq_true].
    replace (i + 1) with slots in Hnext by lia. by apply slots_are_enough in Hnext.
  - unfold mbind, K_bind, modify_reader, mret, K_ret; simpl. eauto.
Qed.

Lemma put_receipt_inv i rs ms c rd r ms' : task_inv i rs ms c rd →
  chunk_ok fingerprint_of plan c ms' r →
  task_inv (i + 1) (rs ++ [r]) (ms ++ ms') (cr_cursor r) (add_delivered i (put_receipt i r rd)).
Proof using Hplan.
  intros [Hi Hrec Hsz [Hd Hds] Hfl Hsf [Hs1 Hs2] _] Hc. pose proof (zlen_nonneg rs).
  assert (rd_receipts rd !! i = None) as Hnone.
  { rewrite Hrec. case_decide; [|done]. apply lookup_ge_None_2. unfold zlen in Hi. lia. }
  destruct (ck_count _ _ _ _ _ Hc) as [Hc1 Hc2].
  split; simpl; [| | | |done| | |].
  - rewrite zlen_app, Hi. done.
  - intros j. destruct (decide (j = i)) as [->|Hne].
    + rewrite lookup_insert_eq, decide_True by lia.
      rewrite lookup_app_r by (unfold zlen in Hi; lia).
      by replace (Z.to_nat i - length rs)%nat with 0%nat by (unfold zlen in Hi; lia).
    + rewrite lookup_insert_ne by done. rewrite Hrec. case_decide; [|done].
      destruct (decide (j < i)).
      * by rewrite lookup_app_l by (unfold zlen in Hi; lia).
      * rewrite !lookup_ge_None_2; [done| |]; rewrite ?length_app; unfold zlen in Hi; simpl; lia.
  - rewrite map_size_insert_None by done. lia.
  - split; [intros j; rewrite elem_of_union, elem_of_singleton; intros [->|?%Hd]; lia|].
    rewrite size_union, size_singleton; [lia|]. apply disjoint_singleton_l. intros ?%Hd. lia.
  - rewrite fmap_app, concat_app. simpl. rewrite app_nil_r.
    apply (so_far_step plan Hplan fingerprint_of i _ _ c); [lia|done|done].
  - rewrite !sum_insert by done. rewrite zlen_app, payload_sum_app. lia.
  - intros r'. rewrite last_snoc. by intros [= ->].
Qed.

Lemma slot_receipts_ok receipts rs start :
  (∀ k r, rs !! k = Some r → receipts !! (start + Z.of_nat k) = Some r) →
  slot_receipts receipts start (length rs) = Ok rs.
Proof.
  revert start. induction rs as [|r rs IH]; intros start Hr; simpl; [done|].
  pose proof (Hr 0%nat r eq_refl) as H0. rewrite Z.add_0_r in H0. rewrite H0. rewrite IH; [done|].
  intros k r' Hk. replace (start + 1 + Z.of_nat k) with (start + Z.of_nat (S k)) by lia. by apply Hr.
Qed.

(** In a full read every range is delivered in order. *)
Lemma so_far_sorted k ms es c r : so_far plan k ms es c → r ∈ pl_ranges plan →
  StronglySorted offset_lt (filter (λ m, rm_tp m = or_tp r) ms).
Proof.
  intros [HC [HP HM _ _] _ _ _ _ _ _] [i Hi]%list_elem_of_lookup.
  assert (rc_positions (first_cursor plan) !! i = Some (mkPosition (or_tp r) (or_start r))) as Hp.
  { unfold first_cursor; simpl. by rewrite list_lookup_fmap, Hi. }
  destruct (Forall2_lookup_l _ _ _ _ _ HP Hp) as (p1 & Hp1 & _).
  specialize (HM _ _ _ Hp Hp1). simpl in HM. rewrite HM. apply segment_sorted, history_sorted.
Qed.

Lemma make_summary_ok rs ms c rd : task_inv slots rs ms c rd →
  ∃ s, make_summary plan (rd_receipts rd) slots c = Ok s ∧ summary_describes ms c s.
Proof using Hplan.
  intros [Hi Hrec _ _ _ Hsf [Hs1 Hs2] _]. unfold make_summary.
  replace (Z.to_nat slots) with (length rs) by (unfold zlen in Hi; lia).
  rewrite (slot_receipts_ok _ rs).
  2: { intros k r Hk. rewrite Hrec, decide_True by lia. by rewrite Z.add_0_l, Nat2Z.id. }
  pose proof (sf_entries _ _ _ _ _ Hsf) as (bs & HF & Hms). simpl.
  destruct (add_totals_ok plan Hplan _ bs [] ∅ HF) as (totals & -> & Ht).
  - split; [|done]. intros r _. by rewrite lookup_empty.
  - intros r Hr. simpl. rewrite <-Hms. by eapply so_far_sorted.
  - simpl in *. rewrite <-Hms in Ht. eexists. split; [reflexivity|]. split; simpl; try done.
    + by exists totals.
    + by rewrite Hs1, Hs2.
Qed.

Lemma finish_task i rs ms c rd w : task_inv i rs ms c rd → i ≤ slots →
  match rfinish (rd, w) with
  | (Ok _, s') =>
      if decide (i = slots)
      then ∃ s, summary_describes ms c s ∧ s'.1 = set_published (log_publication s rd)
      else s'.1 = rd
  | (Raise e, s') => foreign e ∧ rd_failed s'.1 = true
  end.
Proof using Hplan.
  intros Hinv Hle. pose proof Hinv as [Hi Hrec Hsz [_ Hds] (Hfail & Hpub & _) Hsf _ Hlast]. unfold finish.
  apply (or_invalidate_foreign _ _ (λ _ rd', if decide (i = slots)
      then ∃ s, summary_describes ms c s ∧ rd' = set_published (log_publication s rd) else rd' = rd)).
  pose proof (check_alive_ok rd w Hfail) as Ha. unfold mbind at 1, K_bind at 1.
  destruct (check_alive check_cancelled (rd, w)) as [[[]|e] [rd' w1]]; simpl in Ha; [subst rd'|done].
  unfold mbind at 1, K_bind at 1, get_reader at 1. simpl. rewrite Hsz, Hds.
  destruct (decide (i = slots)) as [->|Hne].
  2: { by rewrite bool_decide_eq_true_2. }
  rewrite bool_decide_eq_false_2 by (by intros ?). simpl.
  pose proof (slot_count_pos plan Hplan) as Hpos.
  destruct (last rs) as [r|] eqn:El.
  2: { apply last_None in El as ->. unfold zlen in Hi; simpl in Hi. lia. }
  assert (rd_receipts rd !! (slots - 1) = Some r) as ->.
  { rewrite Hrec, decide_True by lia. rewrite last_lookup in El. rewrite <-El. f_equal.
    unfold zlen in Hi. lia. }
  rewrite (Hlast r eq_refl), bool_decide_eq_false_2 by (by eapply slots_are_enough). rewrite Hpub.
  destruct (make_summary_ok rs ms c rd Hinv) as (s & -> & Hs).
  unfold klift, mbind, K_bind, modify_reader, outside; simpl.
  destruct (publish s w1) as [[[]|e] w2] eqn:E; simpl; [eauto|]. right; right; left; eauto.
Qed.

(** Each frame is made of the messages of its chunk, and no chunk has more rows than allowed. *)
Definition frames_of (chunks : list (list RawMessage)) (frames : list Frame) : Prop :=
  Forall2 (λ ms frame, messages_to_dataframe ms = Ok frame ∧ zlen ms ≤ rows_per_partition (pl_limits plan)) chunks frames.

Lemma run_tasks_spec n i rs ms c rd w : task_inv i rs ms c rd → i + Z.of_nat n = slots → (0 < n)%nat →
  match rtasks n i c (rd, w) with
  | (Ok frames, s') => ∃ chunks, length frames = n ∧ frames_of chunks frames ∧ read_published (ms ++ concat chunks) s'.1
  | (Raise e, s') => foreign e ∧ rd_failed s'.1 = true
  end.
Proof using Hplan.
  revert i rs ms c rd w. induction n as [|n IH]; intros i rs ms c rd w Hinv Hn Hpos; [lia|]. simpl.
  unfold mbind at 1, K_bind at 1. pose proof (read_task i rs ms c rd w Hinv) as Hr.
  destruct (rread c i (rd, w)) as [[x|e] [rd1 w1]]; simpl in Hr; [|done].
  destruct Hr as [-> (ms' & Hc & Hframe)]. pose proof (ck_rows _ _ _ _ _ Hc) as Hrows. pose proof (put_receipt_inv _ _ _ _ _ _ _ Hinv Hc) as Hinv'.
  unfold mbind at 1, K_bind at 1, frame_task at 1, mbind at 1, K_bind at 1, modify_reader at 1. simpl.
  pose proof (finish_task _ _ _ _ _ w1 Hinv' ltac:(lia)) as Hf.
  unfold mbind at 1, K_bind at 1.
  destruct (rfinish _) as [[[]|e] [rd2 w2]]; simpl in Hf; [|done].
  unfold mret at 1, K_ret at 1. destruct n as [|n].
  - rewrite decide_True in Hf by lia. destruct Hf as (s & Hs & ->).
    unfold mbind, K_bind, mret, K_ret; simpl. exists [ms']. split; [done|]. split; [by repeat constructor|].
    pose proof (ti_so_far _ _ _ _ _ Hinv') as Hsf. replace (i + 1) with slots in Hsf by lia.
    cbn [concat]. rewrite app_nil_r. exists (concat (cr_offsets <$> (rs ++ [x.2]))), (cr_cursor x.2), s.
    pose proof (ti_flags _ _ _ _ _ Hinv) as (Hfail & _ & Hnil).
    split_and!; simpl; try done; [by eapply slots_are_enough|by rewrite Hnil|].
    exists x.2. split; [|done]. replace (slots - 1) with i by lia. apply lookup_insert_eq.
  - rewrite decide_False in Hf by lia. subst rd2.
    specialize (IH (i + 1) _ _ _ _ w2 Hinv' ltac:(lia) ltac:(lia)).
    unfold mbind, K_bind. destruct (rtasks (S n) (i + 1) _ _) as [[frames|e] s']; [|done].
    unfold mret, K_ret. destruct IH as (chunks & Hl & Hfr & Hp). exists (ms' :: chunks).
    split; [by simpl; rewrite Hl|]. split; [by constructor|]. cbn [concat]. by rewrite app_assoc.
Qed.

(** Finishing once more changes nothing. *)
Lemma finish_published ms rd w : read_published ms rd →
  match rfinish (rd, w) with
  | (Ok _, s') => s'.1 = rd
  | (Raise e, s') => foreign e ∧ rd_failed s'.1 = true
  end.
Proof.
  intros (es & c & s & _ & Hstop & _ & _ & Hp & Hf & r & Hr & Hc). unfold finish.
  apply (or_invalidate_foreign _ _ (λ _ rd', rd' = rd)).
  pose proof (check_alive_ok rd w Hf) as Ha. unfold mbind at 1, K_bind at 1.
  destruct (check_alive check_cancelled (rd, w)) as [[[]|e] [rd' w1]]; simpl in Ha; [subst rd'|done].
  unfold mbind at 1, K_bind at 1, get_reader at 1. simpl. destruct (_ || _); [done|].
  rewrite Hr, Hc, bool_decide_eq_false_2 by done. by rewrite Hp.
Qed.

Lemma new_reader_task_inv : task_inv 0 [] [] (first_cursor plan) new_reader.
Proof using Hplan.
  split; simpl; try done.
  - intros j. rewrite lookup_empty. by destruct (decide (0 ≤ j)).
  - by apply so_far_start.
Qed.

(** Why a read that delivered [ms] and ended at [c] ended there: all of every planned range was delivered, or
    the planned number of messages, or the planned bytes, or the next message would exceed them. *)
Definition stopped_at (ms : list RawMessage) (c : ReadCursor) : Prop :=
  match rc_stop_reason c with
  | Some snapshot_exhausted => ∀ r, r ∈ pl_ranges plan →
      filter (λ m, rm_tp m = or_tp r) ms = segment (history (or_tp r) (pl_isolation_level plan)) (or_start r) (or_end r)
  | Some stop_max_messages => max_messages (pl_limits plan) = Some (zlen ms)
  | Some stop_max_bytes => ∃ n, max_bytes (pl_limits plan) = Some n ∧
      (payload_sum ms = n ∨
       ∃ p m, p ∈ rc_positions c ∧ m ∈ history (pp_tp p) (pl_isolation_level plan) ∧ rm_offset m = pp_next_offset p ∧
              n < payload_sum ms + payload_bytes m)
  | None => False
  end.

Lemma so_far_stopped k ms es c : so_far plan k ms es c → rc_stop_reason c ≠ None → stopped_at ms c.
Proof using Hplan.
  intros [HC Hadv Hm Hb _ _ _ _] Hr. unfold stopped_at. pose proof (cu_reason _ _ _ _ _ _ HC) as Ht.
  destruct (rc_stop_reason c) as [[]|]; [| | |done]; simpl in Ht.
  - intros r [i Hi]%list_elem_of_lookup.
    assert (rc_positions (first_cursor plan) !! i = Some (mkPosition (or_tp r) (or_start r))) as Hp
      by (unfold first_cursor; simpl; by rewrite list_lookup_fmap, Hi).
    destruct (Forall2_lookup_r _ _ _ _ _ Ht Hi) as (p1 & Hp1 & E).
    pose proof (ad_messages _ _ _ _ Hadv _ _ _ Hp Hp1) as HM. simpl in HM. by rewrite HM, E.
  - rewrite Ht in Hm. destruct (max_messages (pl_limits plan)) as [n|]; [|done]. simpl in Hm. injection Hm as Hm. f_equal. lia.
  - destruct (max_bytes (pl_limits plan)) as [n|] eqn:En; simpl in Hb; [exists n; split; [done|]|].
    + destruct Ht as [E|(x & p & m & E & Hp & Hm' & Hlt)]; rewrite Hb in E; injection E as E; [left; lia|right].
      exists p, m. unfold message_at in Hm'. destruct (list_find _ _) as [[j y]|] eqn:Ef; [|done]. simpl in Hm'. injection Hm' as <-.
      apply list_find_Some in Ef as (Hj & Ey & _). split_and!; [done|by eapply list_elem_of_lookup_2|done|lia].
    + destruct Ht as [E|(x & _ & _ & E & _)]; congruence.
Qed.

(** C10. Computing the whole frame either fails because a collaborator (the broker, the cancellation
    check, the decoder of messages, the publisher) raised, and then the read is invalidated, or it
    delivers as many chunks as planned, each frame decoded from the messages of its chunk, and publishes one
    summary. The chunks together deliver, partition by partition and in order, exactly the visible messages
    between the planned start and the final position. The final position is the end of every planned range,
    unless the limit on messages or on bytes was reached: then exactly that many messages were delivered, or
    that many bytes, or the next message does not fit in what is left. The summary gives for each partition
    the offset behind its last delivered message with the right counts. *)
Theorem full_read_is_exact w :
  match run_graph check_cancelled fingerprint_of messages_to_dataframe publish invalidate_variables
          plan (slot_count plan) (new_reader, w) with
  | (Ok frames, (rd, _)) =>
      zlen frames = slot_count plan ∧ rd_failed rd = false ∧
      ∃ chunks c s, frames_of chunks frames ∧ rd_publications rd = [s] ∧ cursor_ok plan c ∧
        advances plan (rc_positions (first_cursor plan)) (concat chunks) (rc_positions c) ∧
        stopped_at (concat chunks) c ∧ summary_describes (concat chunks) c s
  | (Raise e, (rd, _)) => foreign e ∧ rd_failed rd = true
  end.
Proof using Hplan.
  unfold run_graph. unfold mbind at 1, K_bind at 1. pose proof (slot_count_pos plan Hplan) as Hpos.
  pose proof (run_tasks_spec (Z.to_nat slots) 0 [] [] _ _ w new_reader_task_inv
                ltac:(lia) ltac:(lia)) as Hrun.
  destruct (rtasks _ 0 _ _) as [[frames|e] [rd w1]]; simpl in Hrun; [|done].
  destruct Hrun as (chunks & Hlen & Hfr & Hpub). unfold mbind, K_bind. pose proof (finish_published _ rd w1 Hpub) as Hf.
  destruct (rfinish (rd, w1)) as [[[]|e] [rd' w2]]; simpl in Hf; [subst rd'|done].
  destruct Hpub as (es & c & s & Hsf & Hstop & Hs & Hps & _ & Hfail & _).
  unfold mret, K_ret. split; [unfold zlen; lia|]. split; [done|]. exists chunks, c, s.
  split_and!; try done; [by destruct Hsf..|by eapply so_far_stopped].
Qed.
End full_read.

(** Whatever the order in which a scheduler runs, repeats or interrupts the tasks of a read, at
    most one summary is published, and only one made from the receipts of all the planned chunks
    with a terminal cursor; an invalidated read counts as not published. *)
Theorem reader_publishes_once {W} {gw : KafkaGateway W} check_cancelled fingerprint_of {Frame}
    (messages_to_dataframe : list RawMessage → outcome kafka_exn Frame) publish invalidate_variables
    plan slots (ops : list (reader_op (Frame := Frame))) w :
  let rd := (foldl (λ s op, run_op (W := W) check_cancelled fingerprint_of messages_to_dataframe
               publish invalidate_variables plan slots op s) (new_reader, w) ops).1 in
  (length (rd_publications rd) ≤ 1)%nat ∧
  (rd_published rd = true → length (rd_publications rd) = 1%nat ∧ rd_failed rd = false) ∧
  (∀ s, s ∈ rd_publications rd → ∃ receipts last,
     Z.of_nat (size receipts) = slots ∧ receipts !! (slots - 1) = Some last ∧
     rc_stop_reason (cr_cursor last) ≠ None ∧ make_summary plan receipts slots (cr_cursor last) = Ok s).
Proof.
  intros rd. assert (reader_inv plan slots rd) as [H1 _ H3 H4 H5] by apply run_ops_inv, new_reader_inv.
  split_and!; [done| |].
  - intros Hp. specialize (H4 Hp). split.
    + destruct (rd_publications rd) as [|? [|]]; simpl in *; [done|done|lia].
    + destruct (rd_failed rd); [|done]. specialize (H3 eq_refl). congruence.
  - rewrite Forall_forall in H5. intros s Hs. by apply H5.
Qed.
