(* ===== verification/KafkaGateway.v ===== *)
(** Kafka consumption: the gateway over the kafka-python client,
    [src/modules/kafka_consumption/infra/gateways/kafka_python.py].

    The client library is a parameter: the operations of its consumer and admin client, the clock
    and [sleep] ([KafkaSDK]), with what their documentation promises as laws ([SDKLog]). Times are
    in milliseconds. [read] is the whole method, with its retries, its re-seek after a failed poll
    and its range checks; it implements the contract [KafkaLog] of the use cases. The poll loop and
    the waiting loop of a retry run on fuel computed from the range and the settings, proved to be
    enough in [KafkaGatewaySpec]. *)
From S2P Require Import Prelude KafkaTypes KafkaFlow KafkaSpec.

(** ** The client library *)

Record ConsumerRecord := mkRecord {
  sr_topic : string;
  sr_partition : Z;
  sr_offset : Z;
  sr_timestamp : option Z;
  sr_timestamp_type : option Z;
  sr_key : option bytes;
  sr_value : option bytes;
  sr_headers : option (list (string * option bytes));
}.

Class KafkaSDK (W : Type) := {
  sdk_connect : option string → string → K W unit;   (* KafkaConsumer(group_id, isolation_level) *)
  sdk_close : K W unit;
  sdk_assign : TopicPartition → K W unit;
  sdk_seek : TopicPartition → Z → K W unit;
  sdk_poll : TopicPartition → Z → K W (list ConsumerRecord);  (* poll(max_records).get(tp, ()) *)
  sdk_position : TopicPartition → K W Z;
  sdk_beginning_offsets : list TopicPartition → K W (gmap TopicPartition Z);
  sdk_end_offsets : list TopicPartition → K W (gmap TopicPartition Z);
  sdk_partitions_for_topic : string → K W (list Z);            (* None and {} are both empty *)
  sdk_offsets_for_times : list TopicPartition → Z → K W (gmap TopicPartition (option Z));
  sdk_committed : TopicPartition → K W (option Z);
  sdk_commit : list (TopicPartition * Z) → K W unit;
  sdk_admin_connect : K W unit;
  sdk_describe_cluster : K W (option string);                  (* describe_cluster().get("cluster_id") *)
  sdk_admin_close : K W unit;
  monotonic : K W Z;
  sleep : Z → K W unit;
}.

Record KafkaRuntimeSettings := mkSettings {
  poll_timeout_ms : Z;
  request_timeout_ms : Z;
  no_progress_timeout_ms : Z;
  attempts : Z;
  max_fetch_bytes : Z;
  max_plan_tasks : Z;
}.

Definition positive_setting (value : Z) (name : string) : outcome kafka_exn unit :=
  if value <=? 0 then Raise (KafkaInputError (name ++ " must be a positive integer")) else Ok ().

Definition make_KafkaRuntimeSettings (s : KafkaRuntimeSettings) : outcome kafka_exn KafkaRuntimeSettings :=
  _ ← positive_setting (poll_timeout_ms s) "poll_timeout_ms";
  _ ← positive_setting (request_timeout_ms s) "request_timeout_ms";
  _ ← positive_setting (attempts s) "attempts";
  _ ← positive_setting (max_fetch_bytes s) "max_fetch_bytes";
  _ ← positive_setting (max_plan_tasks s) "max_plan_tasks";
  if (request_timeout_ms s <=? poll_timeout_ms s) || (no_progress_timeout_ms s <=? 0)
  then Raise (KafkaInputError "Invalid Kafka technical timeouts") else Ok s.

Definition timestamp_type_name (t : option Z) : option string :=
  match t with
  | Some 0 => Some "CreateTime"
  | Some 1 => Some "LogAppendTime"
  | _ => None
  end.

Definition to_message (r : ConsumerRecord) : RawMessage :=
  mkMessage (mkTP (sr_topic r) (sr_partition r)) (sr_offset r)
    (match sr_timestamp r with Some t => if 0 <=? t then Some t else None | None => None end)
    (timestamp_type_name (sr_timestamp_type r)) (sr_key r) (sr_value r) (default [] (sr_headers r)).

Definition message_from_sdk (r : ConsumerRecord) : outcome kafka_exn RawMessage :=
  _ ← make_TopicPartition (sr_topic r) (sr_partition r); Ok (to_message r).

(** ** Retries *)

Section retry.
Context {V : Type} (check_cancelled : K V unit) (now : K V Z) (wait : Z → K V unit).
Context (attempts : Z) (fuel : nat).

(** [while monotonic() < deadline: check_cancelled(); sleep(min(0.1, max(0, deadline - monotonic())))] *)
Fixpoint backoff (fuel : nat) (deadline : Z) : K V unit :=
  match fuel with
  | O => kraise OutOfFuel
  | S fuel' =>
      t ← now;
      if deadline <=? t then mret ()
      else
        _ ← check_cancelled;
        t' ← now;
        _ ← wait (Z.min 100 (Z.max 0 (deadline - t')));
        backoff fuel' deadline
  end.

(** The exception of a failed attempt, or [None] to try again. *)
Definition retry_error (name : string) (attempt : Z) (e : kafka_exn) : option kafka_exn :=
  match e with
  | SSLError => Some (KafkaUnavailableError ("Kafka " ++ name ++ " failed (TLS verification)"))
  | OffsetOutOfRangeError => Some (KafkaSnapshotLostError ("Kafka range lost during " ++ name))
  | SDK_KafkaError error retriable =>
      if negb retriable || (attempt + 1 =? attempts) then
        Some (if bool_decide (name = "commit")
              then KafkaCommitError ("Kafka " ++ name ++ " failed (" ++ error
                     ++ "); offsets may already be saved; retry the original JSON")
              else KafkaUnavailableError ("Kafka " ++ name ++ " failed (" ++ error ++ ")"))
      else None
  | _ => Some e
  end.

Fixpoint retry_from {A} (left : nat) (attempt : Z) (operation : K V A) (name : string) : K V A :=
  match left with
  | O => kraise (KafkaUnavailableError ("Kafka " ++ name ++ " exhausted attempts"))
  | S left' =>
      _ ← check_cancelled;
      kcatch (_ ← now; operation) (λ e,
        match retry_error name attempt e with
        | Some e' => kraise e'
        | None =>
            t ← now;
            _ ← backoff fuel (t + 500 * (attempt + 1));
            retry_from left' (attempt + 1) operation name
        end)
  end.

Definition _retry {A} (operation : K V A) (name : string) : K V A :=
  retry_from (Z.to_nat attempts) 0 operation name.
End retry.

(** ** The gateway *)

(** A waiting loop sleeps at most until its deadline, a millisecond or more at a time. *)
Definition retry_fuel (settings : KafkaRuntimeSettings) : nat := Z.to_nat (500 * attempts settings + 2).

(** Each turn of the poll loop passes an offset or spends some of the time without progress. *)
Definition read_fuel (settings : KafkaRuntimeSettings) (range : OffsetRange) : nat :=
  Z.to_nat ((or_end range - or_start range + 1) * (no_progress_timeout_ms settings + 1)).

(** The local variables of [read]. *)
Record ReadState := mkReadState {
  st_messages : list RawMessage;
  st_payload_bytes : Z;
  st_position : Z;
  st_progress_at : Z;
  st_poll_failed : bool;
}.

Section gateway.
Context {W : Type} {sdk : KafkaSDK W}.
Context (settings : KafkaRuntimeSettings) (check_cancelled : K W unit).

Definition retry {A} (operation : K W A) (name : string) : K W A :=
  _retry check_cancelled monotonic sleep (attempts settings) (retry_fuel settings) operation name.

(** [try: body finally: close()] *)
Definition finally {A} (body : K W A) (close : K W unit) : K W A := λ w,
  match body w with
  | (r, w1) => match close w1 with
               | (Ok _, w2) => (r, w2)
               | (Raise e, w2) => (Raise e, w2)
               end
  end.

Definition with_consumer {A} (group_id : option string) (isolation_level : string) (body : K W A) : K W A :=
  if negb (bool_decide (isolation_level ∈ ["read_committed"; "read_uncommitted"]))
  then kraise (KafkaInputError "Invalid isolation level")
  else
    _ ← retry (sdk_connect group_id isolation_level) "connect";
    finally body sdk_close.

Definition partitions (topic : string) : K W (list Z) :=
  _ ← klift (make_TopicPartition topic 0);
  with_consumer None "read_committed" (
    result ← retry (sdk_partitions_for_topic topic) "metadata";
    if bool_decide (result = []) then
      kraise (KafkaInputError ("Unknown or unavailable Kafka topic: " ++ topic))
    else mret (merge_sort Z.le result)).

Definition cluster_id : K W (option string) :=
  _ ← retry sdk_admin_connect "connect";
  finally (retry sdk_describe_cluster "cluster metadata") sdk_admin_close.

Definition bounds (partitions : list TopicPartition) (isolation_level : string)
    : K W (gmap TopicPartition (Z * Z)) :=
  if bool_decide (partitions = []) then mret ∅
  else
    with_consumer None isolation_level (
      starts ← retry (sdk_beginning_offsets partitions) "beginning offsets";
      ends ← retry (sdk_end_offsets partitions) "end offsets";
      items ← klift (omapM (λ p, s ← map_get starts p; e ← map_get ends p; Ok (p, (s, e))) partitions);
      mret (list_to_map (reverse items))).

Definition offsets_for_timestamp (partitions : list TopicPartition) (timestamp_ms : Z)
    (isolation_level : string) : K W (gmap TopicPartition (option Z)) :=
  _ ← klift (nonnegative timestamp_ms "timestamp_ms");
  if bool_decide (partitions = []) then mret ∅
  else
    with_consumer None isolation_level (
      result ← retry (sdk_offsets_for_times partitions timestamp_ms) "timestamp offsets";
      items ← klift (omapM (λ p, o ← map_get result p; Ok (p, o)) partitions);
      mret (list_to_map (reverse items))).

Definition _validate_group (group_id : string) : outcome kafka_exn unit :=
  if negb (strip_truthy group_id) then Raise (KafkaInputError "group_id must be nonempty") else Ok ().

Fixpoint committed_each (partitions : list TopicPartition) : K W (list (TopicPartition * option Z)) :=
  match partitions with
  | [] => mret []
  | p :: ps =>
      o ← retry (sdk_committed p) "committed"; rest ← committed_each ps; mret ((p, o) :: rest)
  end.

Definition committed (group_id : string) (partitions : list TopicPartition)
    : K W (gmap TopicPartition (option Z)) :=
  _ ← klift (_validate_group group_id);
  if bool_decide (partitions = []) then mret ∅
  else
    with_consumer (Some group_id) "read_committed" (
      items ← committed_each partitions; mret (list_to_map (reverse items))).

(** *** read *)

Definition verify_range (tp : TopicPartition) (end_ position : Z) : K W unit :=
  begins ← retry (sdk_beginning_offsets [tp]) "range check";
  beginning ← klift (map_get begins tp);
  ends ← retry (sdk_end_offsets [tp]) "range check";
  upper ← klift (map_get ends tp);
  if (position <? beginning) || (upper <? end_) then
    kraise (KafkaSnapshotLostError ("Kafka snapshot lost: " ++ tp_topic tp ++ "/"
              ++ pretty (tp_partition tp) ++ ", position=" ++ pretty position ++ ", end=" ++ pretty end_))
  else mret ().

(** An effect of the world beside the local flag [poll_failed]. *)
Definition beside {A} (m : K W A) : K (bool * W) A := λ s, let '(r, w) := m s.2 in (r, (s.1, w)).

Definition get_poll_failed : K (bool * W) bool := λ s, (Ok s.1, s).
Definition set_poll_failed (b : bool) : K (bool * W) unit := λ s, (Ok (), (b, s.2)).

(** [if poll_failed: verify_range(position); consumer.seek(tp, position)] *)
Definition seek_back (tp : TopicPartition) (end_ position : Z) (poll_failed : bool) : K (bool * W) unit :=
  if poll_failed then _ ← beside (verify_range tp end_ position); beside (sdk_seek tp position)
  else mret ().

Definition poll_from_safe_position (tp : TopicPartition) (end_ position max_records : Z)
    : K (bool * W) (list ConsumerRecord) :=
  poll_failed ← get_poll_failed;
  _ ← seek_back tp end_ position poll_failed;
  _ ← set_poll_failed true;
  result ← beside (sdk_poll tp max_records);
  _ ← set_poll_failed false;
  mret result.

Definition polled (tp : TopicPartition) (end_ max_records : Z) (st : ReadState)
    : K W (list ConsumerRecord * bool) := λ w,
  match _retry (beside check_cancelled) (beside monotonic) (λ d, beside (sleep d)) (attempts settings)
          (retry_fuel settings)
          (poll_from_safe_position tp end_ (st_position st) (max_records - zlen (st_messages st)))
          "poll" (st_poll_failed st, w) with
  | (Ok rs, (flag, w')) => (Ok (rs, flag), w')
  | (Raise e, (_, w')) => (Raise e, w')
  end.

Section read_loop.
Context (tp : TopicPartition) (start end_ max_records : Z).
Context (max_bytes total_max_bytes : option Z) (target_bytes max_message_bytes : Z).

Definition too_large (size : Z) : bool :=
  (max_message_bytes <? size) || match total_max_bytes with Some t => t <? size | None => false end.

(** The [for] loop over the polled records: a batch to return, or the state to go on with. *)
Fixpoint take_records (rs : list ConsumerRecord) (st : ReadState) : K W (ReadBatch + ReadState) :=
  match rs with
  | [] => mret (inr st)
  | record :: rs' =>
      if end_ <=? sr_offset record then
        _ ← verify_range tp end_ (st_position st);
        mret (inl (mkBatch (st_messages st) end_ true false))
      else
        message ← klift (message_from_sdk record);
        let size := payload_bytes message in
        if too_large size then
          kraise (KafkaMessageTooLargeError ("Kafka message too large: " ++ tp_topic tp ++ "/"
                    ++ pretty (tp_partition tp) ++ "/" ++ pretty (sr_offset record)
                    ++ ", bytes=" ++ pretty size))
        else if match max_bytes with Some n => n <? st_payload_bytes st + size | None => false end then
          _ ← verify_range tp end_ (st_position st);
          mret (inl (mkBatch (st_messages st) (sr_offset record) false true))
        else
          progress_at ← monotonic;
          let st' := mkReadState (st_messages st ++ [message]) (st_payload_bytes st + size)
                       (sr_offset record + 1) progress_at (st_poll_failed st) in
          if (max_records <=? zlen (st_messages st')) || (target_bytes <=? st_payload_bytes st') then
            _ ← verify_range tp end_ start;
            mret (inl (mkBatch (st_messages st') (st_position st') (end_ <=? st_position st') false))
          else take_records rs' st'
  end.

(** The end of one turn: the scan position and the progress timeout. *)
Definition after_records (st : ReadState) : K W ReadState :=
  p ← retry (sdk_position tp) "position";
  let scanned := Z.min p end_ in
  st' ← (if st_position st <? scanned then
           t ← monotonic;
           mret (mkReadState (st_messages st) (st_payload_bytes st) scanned t (st_poll_failed st))
         else mret st : K W ReadState);
  t ← monotonic;
  if no_progress_timeout_ms settings <=? t - st_progress_at st' then
    _ ← verify_range tp end_ (st_position st');
    kraise (KafkaUnavailableError ("Kafka read made no progress: " ++ tp_topic tp ++ "/"
              ++ pretty (tp_partition tp) ++ ", position=" ++ pretty (st_position st')))
  else mret st'.

Fixpoint read_loop (fuel : nat) (st : ReadState) : K W ReadBatch :=
  match fuel with
  | O => kraise OutOfFuel
  | S fuel' =>
      if end_ <=? st_position st then
        _ ← verify_range tp end_ start;
        mret (mkBatch (st_messages st) (st_position st) true false)
      else
        _ ← check_cancelled;
        p ← polled tp end_ max_records st;
        r ← take_records p.1 (mkReadState (st_messages st) (st_payload_bytes st) (st_position st)
                                (st_progress_at st) p.2);
        match r with
        | inl batch => mret batch
        | inr st' => st'' ← after_records st'; read_loop fuel' st''
        end
  end.
End read_loop.

Definition read_consumer (range : OffsetRange) (max_records : Z) (max_bytes total_max_bytes : option Z)
    (target_bytes max_message_bytes : Z) : K W ReadBatch :=
  let tp := or_tp range in
  _ ← sdk_assign tp;
  _ ← verify_range tp (or_end range) (or_start range);
  _ ← sdk_seek tp (or_start range);
  t ← monotonic;
  read_loop tp (or_start range) (or_end range) max_records max_bytes total_max_bytes target_bytes
    max_message_bytes (read_fuel settings range) (mkReadState [] 0 (or_start range) t false).

Definition read (range : OffsetRange) (isolation_level : string) (max_records : Z)
    (max_bytes total_max_bytes : option Z) (target_bytes max_message_bytes : Z) : K W ReadBatch :=
  _ ← klift (positive_limit max_records "max_records");
  _ ← klift (positive_limit target_bytes "target_bytes");
  _ ← klift (positive_limit max_message_bytes "max_message_bytes");
  _ ← klift (nonnegative_opt max_bytes "max_bytes");
  _ ← klift (nonnegative_opt total_max_bytes "max_bytes");
  if or_start range =? or_end range then mret (mkBatch [] (or_start range) true false)
  else with_consumer None isolation_level
         (read_consumer range max_records max_bytes total_max_bytes target_bytes max_message_bytes).

(** *** commit *)

Definition is_kafka_error (e : kafka_exn) : bool :=
  match e with SDK_KafkaError _ _ | OffsetOutOfRangeError | SSLError => true | _ => false end.

(** The note added to an exception after submission changes neither its type nor its handling. *)
Definition commit (group_id : string) (positions : list (TopicPartition * Z)) : K W unit :=
  _ ← klift (_validate_group group_id);
  _ ← klift (for_each (λ p, nonnegative p.2 "next_offset") positions);
  if bool_decide (positions = []) then mret ()
  else
    kcatch
      (_ ← with_consumer (Some group_id) "read_committed" (
             _ ← retry (_ ← check_cancelled; sdk_commit positions) "commit";
             check_cancelled);
       check_cancelled)
      (λ e, if is_kafka_error e
            then kraise (KafkaCommitError "Kafka commit/close failed; offsets may already be saved; retry the original JSON")
            else kraise e).
End gateway.

#[global] Instance KafkaPythonGateway {W} {sdk : KafkaSDK W} (settings : KafkaRuntimeSettings)
    (check_cancelled : K W unit) : KafkaGateway W := {|
  gw_partitions := partitions settings check_cancelled;
  gw_cluster_id := cluster_id settings check_cancelled;
  gw_bounds := bounds settings check_cancelled;
  gw_offsets_for_timestamp := offsets_for_timestamp settings check_cancelled;
  gw_committed := committed settings check_cancelled;
  gw_read := read settings check_cancelled;
  gw_commit := commit settings check_cancelled;
|}.
