(* ===== verification/KafkaGatewaySpec.v ===== *)
(** Kafka consumption: the gateway of [KafkaGateway] keeps the contract of [KafkaSpec].

    The laws of the client library are those its documentation gives: records have increasing
    offsets, a successful poll returns the visible records from the fetch position on and moves the
    position behind them, a failed poll may have moved it anywhere, [seek] sets it, and everything
    else leaves it alone. Proofs go through a small Hoare logic for [K]. *)
From S2P Require Import Prelude KafkaTypes KafkaFlow KafkaSpec KafkaGateway.

(** ** A Hoare logic with an exceptional postcondition *)

Definition triple {V A} (P : V → Prop) (m : K V A) (Q : A → V → Prop) (E : kafka_exn → V → Prop) : Prop :=
  ∀ s, P s → match m s with (Ok a, s') => Q a s' | (Raise e, s') => E e s' end.

(** After an exception of the program, never of the model's fuel. *)
Definition raised {V} (P : V → Prop) (e : kafka_exn) (s : V) : Prop := P s ∧ e ≠ OutOfFuel.

Section triples.
Context {V : Type}.
Implicit Types P : V → Prop.

Lemma triple_bind {A B} (m : K V A) (f : A → K V B) P Q R E :
  triple P m Q E → (∀ a, triple (Q a) (f a) R E) → triple P (m ≫= f) R E.
Proof.
  intros Hm Hf s Hs. unfold mbind, K_bind. specialize (Hm s Hs). destruct (m s) as [[a|e] s']; [|done].
  by apply Hf.
Qed.

Lemma triple_conseq {A} (m : K V A) P P' (Q Q' : A → V → Prop) E E' :
  triple P m Q E → (∀ s, P' s → P s) → (∀ a s, Q a s → Q' a s) → (∀ e s, E e s → E' e s) → triple P' m Q' E'.
Proof. intros Hm HP HQ HE s Hs. specialize (Hm s (HP s Hs)). destruct (m s) as [[a|e] s']; auto. Qed.

Lemma triple_catch {A} (m : K V A) h P Q E E' :
  triple P m Q E → (∀ e, triple (E e) (h e) Q E') → triple P (kcatch m h) Q E'.
Proof.
  intros Hm Hh s Hs. unfold kcatch. specialize (Hm s Hs). destruct (m s) as [[a|e] s']; [done|]. by apply Hh.
Qed.

Lemma triple_pure {A} (φ : Prop) (m : K V A) P Q E :
  (φ → triple P m Q E) → triple (λ s, φ ∧ P s) m Q E.
Proof. intros Hm s [Hφ Hs]. by apply Hm. Qed.

Lemma triple_lift_bind {A B} (o : outcome kafka_exn A) (f : A → K V B) P R (E : kafka_exn → V → Prop) :
  (∀ a, o = Ok a → triple P (f a) R E) → (∀ e s, o = Raise e → P s → E e s) →
  triple P (klift o ≫= f) R E.
Proof. intros Hf HE s Hs. unfold mbind, K_bind, klift. destruct o as [a|e]; [by apply Hf|auto]. Qed.

(** A step that keeps an assertion, whatever its result. *)
Definition keeps {A} (P : V → Prop) (m : K V A) : Prop := triple P m (λ _, P) (raised P).

(** Such a step in front of the rest. *)
Lemma triple_keep {A B} (m : K V A) (f : A → K V B) P R (E : kafka_exn → V → Prop) :
  keeps P m → (∀ e s, raised P e s → E e s) → (∀ a, triple P (f a) R E) → triple P (m ≫= f) R E.
Proof.
  intros Hm HE Hf s Hs. unfold mbind, K_bind. specialize (Hm s Hs). destruct (m s) as [[a|e] s']; [|auto].
  by apply Hf.
Qed.

Lemma keeps_bind {A B} P (m : K V A) (f : A → K V B) : keeps P m → (∀ a, keeps P (f a)) → keeps P (m ≫= f).
Proof. intros Hm Hf. eapply triple_bind; [exact Hm|]. intros a. apply Hf. Qed.

Lemma keeps_ret {A} P (a : A) : keeps P (mret a).
Proof. by intros s Hs. Qed.

Lemma keeps_raise {A} P e : e ≠ OutOfFuel → keeps P (kraise e : K V A).
Proof. by intros He s Hs. Qed.

Lemma keeps_lift {A} P (o : outcome kafka_exn A) : o ≠ Raise OutOfFuel → keeps P (klift o).
Proof. intros Ho s Hs. unfold klift. destruct o; [done|]. split; congruence. Qed.
End triples.

Create HintDb kafka.
#[export] Hint Resolve keeps_ret keeps_raise keeps_lift : kafka.
#[export] Hint Extern 1 (_ ≠ OutOfFuel) => discriminate : kafka.

(** ** Retries *)

Section retries.
Context {V : Type} (check_cancelled : K V unit) (now : K V Z) (wait : Z → K V unit) (attempts : Z) (fuel : nat).
Context (ck : V → Z) (J : V → Prop).
Context (Hcheck : ∀ c, keeps (λ s, J s ∧ c ≤ ck s) check_cancelled).
Context (Hnow : ∀ c, triple (λ s, J s ∧ ck s = c) now (λ t s, t = c ∧ J s ∧ c ≤ ck s) (λ _ _, False)).
Context (Hwait : ∀ d c, triple (λ s, J s ∧ c ≤ ck s) (wait d) (λ _ s, J s ∧ c + d ≤ ck s) (raised J)).
Context (Hfuel : 500 * attempts + 2 ≤ Z.of_nat fuel).

Lemma backoff_keeps n deadline s : J s → deadline - ck s + 2 ≤ Z.of_nat n → (2 ≤ n)%nat →
  match backoff check_cancelled now wait n deadline s with
  | (Ok _, s') => J s'
  | (Raise e, s') => raised J e s'
  end.
Proof using Hcheck Hnow Hwait.
  clear Hfuel. revert s. induction n as [|n IH]; intros s Hs Hn H2; [lia|]. simpl.
  unfold mbind at 1, K_bind at 1. pose proof (Hnow (ck s) s (conj Hs eq_refl)) as Hx.
  destruct (now s) as [[t|e] s1]; [destruct Hx as (-> & HJ1 & Hc1)|done].
  destruct (Z.leb_spec deadline (ck s)); [done|].
  unfold mbind at 1, K_bind at 1. pose proof (Hcheck (ck s) s1 (conj HJ1 Hc1)) as Hx.
  destruct (check_cancelled s1) as [[[]|e] s2]; [|by destruct Hx as [[? _] ?]]. destruct Hx as [HJ2 Hc2].
  unfold mbind at 1, K_bind at 1. pose proof (Hnow (ck s2) s2 (conj HJ2 eq_refl)) as Hx.
  destruct (now s2) as [[t|e] s3]; [destruct Hx as (-> & HJ3 & Hc3)|done].
  unfold mbind at 1, K_bind at 1.
  pose proof (Hwait (Z.min 100 (Z.max 0 (deadline - ck s2))) (ck s2) s3 (conj HJ3 Hc3)) as Hx.
  destruct (wait _ s3) as [[[]|e] s4]; [|done]. destruct Hx as [HJ4 Hc4].
  apply IH; [done|lia|lia].
Qed.

(** An operation that establishes [Q], and keeps [J] when it fails, still does with retries. *)
Lemma retry_triple {A} (operation : K V A) name Q :
  triple J operation Q (raised J) →
  triple J (_retry check_cancelled now wait attempts fuel operation name) Q (raised J).
Proof using Hcheck Hnow Hwait Hfuel.
  intros Hop. unfold _retry.
  assert (∀ n attempt, 0 ≤ attempt → attempt + Z.of_nat n ≤ Z.max 0 attempts →
    triple J (retry_from check_cancelled now wait attempts fuel n attempt operation name) Q (raised J)) as Hgen;
    [|apply Hgen; lia].
  intros n. induction n as [|n IH]; intros attempt H0 Hn s Hs; simpl; [by split|].
  unfold mbind at 1, K_bind at 1. pose proof (Hcheck (ck s) s (conj Hs (Z.le_refl _))) as Hx.
  destruct (check_cancelled s) as [[[]|e] s1]; [|by destruct Hx as [[? _] ?]]. destruct Hx as [HJ1 _].
  unfold kcatch. unfold mbind at 1, K_bind at 1. pose proof (Hnow (ck s1) s1 (conj HJ1 eq_refl)) as Hx.
  destruct (now s1) as [[t|e] s2]; [destruct Hx as (_ & HJ2 & _)|done].
  specialize (Hop s2 HJ2). destruct (operation s2) as [[a|e] s3]; [done|]. destruct Hop as [HJ3 He].
  destruct (retry_error attempts name attempt e) as [e'|] eqn:Er.
  { split; [done|]. unfold retry_error in Er. destruct e; repeat case_match; congruence. }
  unfold mbind at 1, K_bind at 1. pose proof (Hnow (ck s3) s3 (conj HJ3 eq_refl)) as Hx.
  destruct (now s3) as [[t'|e'] s4]; [destruct Hx as (-> & HJ4 & Hc4)|done].
  unfold mbind at 1, K_bind at 1.
  pose proof (backoff_keeps fuel (ck s3 + 500 * (attempt + 1)) s4 HJ4 ltac:(lia) ltac:(lia)) as Hb.
  destruct (backoff _ _ _ _ _ s4) as [[[]|e'] s5]; [|done]. apply IH; [lia|lia|done].
Qed.
End retries.

(** ** The laws of the client library *)

Class SDKLog (W : Type) {sdk : KafkaSDK W} (check_cancelled : K W unit) := {
  sdk_history : TopicPartition → string → list ConsumerRecord;
  fetch_position : W → TopicPartition → Z;
  consumer_isolation : W → string;
  clock : W → Z;
  sdk_sorted : ∀ tp iso, StronglySorted (λ r1 r2, sr_offset r1 < sr_offset r2) (sdk_history tp iso);
  sdk_tp : ∀ tp iso, Forall (λ r, mkTP (sr_topic r) (sr_partition r) = tp) (sdk_history tp iso);
  consumer_kept : W → W → Prop := λ w w',
    (∀ tp, fetch_position w' tp = fetch_position w tp) ∧
    consumer_isolation w' = consumer_isolation w ∧ clock w ≤ clock w';
  (* a call of the library: it takes time, and its exceptions are not the model's *)
  sdk_call : ∀ {A}, K W A → Prop := λ A m, ∀ w, clock w ≤ clock (m w).2 ∧ (m w).1 ≠ Raise OutOfFuel;
  (* a call that leaves the consumer alone *)
  quiet_call : ∀ {A}, K W A → Prop := λ A m, ∀ w, consumer_kept w (m w).2 ∧ (m w).1 ≠ Raise OutOfFuel;
  connect_law : ∀ g iso w w', sdk_connect g iso w = (Ok (), w') → consumer_isolation w' = iso;
  connect_call : ∀ g iso, sdk_call (sdk_connect g iso);
  close_call : sdk_call sdk_close;
  assign_law : ∀ tp w, consumer_isolation (sdk_assign tp w).2 = consumer_isolation w;
  assign_call : ∀ tp, sdk_call (sdk_assign tp);
  seek_law : ∀ tp p w, consumer_isolation (sdk_seek tp p w).2 = consumer_isolation w ∧
    (∀ w', sdk_seek tp p w = (Ok (), w') → fetch_position w' tp = p);
  seek_call : ∀ tp p, sdk_call (sdk_seek tp p);
  poll_isolation : ∀ tp n w, consumer_isolation (sdk_poll tp n w).2 = consumer_isolation w;
  poll_law : ∀ tp n w rs w', sdk_poll tp n w = (Ok rs, w') →
    fetch_position w tp ≤ fetch_position w' tp ∧
    rs = filter (λ r, fetch_position w tp ≤ sr_offset r < fetch_position w' tp)
           (sdk_history tp (consumer_isolation w));
  poll_call : ∀ tp n, sdk_call (sdk_poll tp n);
  (* a poll that has nothing to return waits for its timeout *)
  poll_waits : ∀ tp n w w', sdk_poll tp n w = (Ok [], w') →
    fetch_position w' tp = fetch_position w tp → clock w < clock w';
  position_law : ∀ tp w p w', sdk_position tp w = (Ok p, w') → p = fetch_position w tp;
  position_quiet : ∀ tp, quiet_call (sdk_position tp);
  beginning_quiet : ∀ l, quiet_call (sdk_beginning_offsets l);
  end_quiet : ∀ l, quiet_call (sdk_end_offsets l);
  check_quiet : quiet_call check_cancelled;
  monotonic_law : ∀ w, (monotonic w).1 = Ok (clock w) ∧ consumer_kept w (monotonic w).2;
  sleep_quiet : ∀ d, quiet_call (sleep d);
  sleep_law : ∀ d w w', sleep d w = (Ok (), w') → clock w + d ≤ clock w';
}.

Section gateway_spec.
Context {W : Type} {sdk : KafkaSDK W} (check_cancelled : K W unit).
Context {sl : SDKLog W check_cancelled}.
Context (settings : KafkaRuntimeSettings).

Lemma Hfuel : 500 * attempts settings + 2 ≤ Z.of_nat (retry_fuel settings).
Proof. unfold retry_fuel. lia. Qed.

(** An assertion on the consumer and on the time that has passed. *)
Definition consumer_only (P : W → Prop) : Prop := ∀ w w', consumer_kept w w' → P w → P w'.

Lemma consumer_only_clock P c : consumer_only P → consumer_only (λ w, P w ∧ c ≤ clock w).
Proof. intros HP w w' Hk [Hp Hc]. split; [by eapply HP|]. destruct Hk as (_ & _ & ?). lia. Qed.

Lemma quiet_call_keeps {A} (m : K W A) P : quiet_call m → consumer_only P → keeps P m.
Proof.
  intros Hm HP w Hw. destruct (Hm w) as [Hk Hr]. specialize (HP w (m w).2 Hk Hw).
  destruct (m w) as [[a|e] w']; [done|]. simpl in *. split; [done|congruence].
Qed.

Lemma monotonic_keeps P : consumer_only P → keeps P monotonic.
Proof.
  intros HP w Hw. destruct (monotonic_law w) as [Hr Hk]. specialize (HP w (monotonic w).2 Hk Hw).
  destruct (monotonic w) as [[a|e] w']; simpl in *; [done|congruence].
Qed.

Lemma retry_keeps {A} (m : K W A) name P Q : consumer_only P → triple P m Q (raised P) →
  triple P (retry settings check_cancelled m name) Q (raised P).
Proof.
  intros HP Hm. unfold retry. apply (retry_triple _ _ _ _ _ clock); [| | |apply Hfuel|done].
  - intros c. by apply quiet_call_keeps, consumer_only_clock; [apply check_quiet|].
  - intros c w [Hw <-]. destruct (monotonic_law w) as [Hr Hk].
    pose proof (HP w _ Hk Hw). destruct (monotonic w) as [[a|e] w']; simpl in *; [|congruence].
    simplify_eq. destruct Hk as (_ & _ & ?). done.
  - intros d c w [Hw Hc]. destruct (sleep_quiet d w) as [Hk Hr]. pose proof (HP w _ Hk Hw).
    destruct (sleep d w) as [[[]|e] w'] eqn:E; simpl in *; [|split; [done|congruence]].
    apply sleep_law in E. split; [done|lia].
Qed.

Lemma map_get_no_fuel {V} (d : gmap TopicPartition V) k : map_get d k ≠ Raise OutOfFuel.
Proof. unfold map_get. by destruct (d !! k). Qed.
#[local] Hint Resolve map_get_no_fuel : kafka.

Lemma verify_range_keeps tp e p P : consumer_only P →
  keeps P (verify_range settings check_cancelled tp e p).
Proof.
  intros HP. unfold verify_range. apply keeps_bind.
  { apply retry_keeps; [done|]. apply quiet_call_keeps; [apply beginning_quiet|done]. }
  intros b. apply keeps_bind; [auto with kafka|]. intros x. apply keeps_bind.
  { apply retry_keeps; [done|]. apply quiet_call_keeps; [apply end_quiet|done]. }
  intros u. apply keeps_bind; [auto with kafka|]. intros y. destruct (_ || _); auto with kafka.
Qed.

(** ** The poll *)

(** What a poll returns from [position]: the next visible records, up to where the consumer is;
    with nothing to return, time has passed. *)
Definition poll_result (tp : TopicPartition) (iso : string) (position c : Z) (rs : list ConsumerRecord)
    (w : W) : Prop :=
  consumer_isolation w = iso ∧ position ≤ fetch_position w tp ∧
  rs = filter (λ r, position ≤ sr_offset r < fetch_position w tp) (sdk_history tp iso) ∧
  c ≤ clock w ∧ (rs = [] → fetch_position w tp = position → c < clock w).

(** Before a poll: the consumer is at [position], or the flag says that it may not be. *)
Definition poll_ready (tp : TopicPartition) (iso : string) (position c : Z) (s : bool * W) : Prop :=
  consumer_isolation s.2 = iso ∧ (s.1 = false → fetch_position s.2 tp = position) ∧ c ≤ clock s.2.

Lemma poll_ready_consumer tp iso p c b : consumer_only (λ w, poll_ready tp iso p c (b, w)).
Proof.
  intros w w' (Hf & Hi & Hc) (H1 & H2 & H3). split_and!; simpl in *; [congruence| |lia].
  intros Hb. rewrite Hf. auto.
Qed.

Lemma beside_keeps {A} (m : K W A) (J : bool * W → Prop) :
  (∀ b, keeps (λ w, J (b, w)) m) → keeps J (beside m).
Proof.
  intros Hm [b w] Hs. unfold beside; simpl. specialize (Hm b w Hs). by destruct (m w) as [[a|e] w'].
Qed.

Lemma poll_safe tp e p n iso c :
  triple (poll_ready tp iso p c) (poll_from_safe_position settings check_cancelled tp e p n)
    (λ rs s, s.1 = false ∧ poll_result tp iso p c rs s.2) (raised (poll_ready tp iso p c)).
Proof.
  intros [flag w] Hready. unfold poll_from_safe_position. unfold mbind at 1, K_bind at 1, get_poll_failed. simpl.
  assert (match seek_back settings check_cancelled tp e p flag (flag, w) with
    | (Ok _, s) => s.1 = flag ∧ consumer_isolation s.2 = iso ∧ fetch_position s.2 tp = p ∧ c ≤ clock s.2
    | (Raise x, s) => raised (poll_ready tp iso p c) x s end) as Hsafe.
  { unfold seek_back. destruct flag; [|by destruct Hready as (? & ? & ?); split_and!; auto].
    unfold mbind, K_bind, beside; simpl.
    pose proof (verify_range_keeps tp e p _ (poll_ready_consumer tp iso p c true) w Hready) as Hv.
    destruct (verify_range _ _ _ _ _ w) as [[[]|x] w1]; [|done].
    destruct Hv as (Hi & _ & Hc). simpl in Hi, Hc |- *. destruct (seek_law tp p w1) as [Hsi Hsp].
    destruct (seek_call tp p w1) as [Hcl Hnf].
    destruct (sdk_seek tp p w1) as [[[]|x] w2]; simpl in *.
    - split_and!; [done|congruence|by apply Hsp|lia].
    - split; [|congruence]. split_and!; simpl; [congruence|done|lia]. }
  unfold mbind at 1, K_bind at 1.
  destruct (seek_back _ _ _ _ _ flag (flag, w)) as [[[]|x] [b w1]]; simpl in Hsafe; [|done].
  destruct Hsafe as (-> & Hi & Hp & Hc). unfold mbind, K_bind, set_poll_failed, beside; simpl.
  pose proof (poll_isolation tp n w1) as Hpi. destruct (poll_call tp n w1) as [Hcl Hnf].
  destruct (sdk_poll tp n w1) as [[rs|x] w2] eqn:Epoll; simpl in *.
  - pose proof (poll_law _ _ _ _ _ Epoll) as [Hle Hrs]. split; [done|]. rewrite Hp, Hi in *.
    split_and!; [congruence|done|done|lia|]. intros E Ef. subst rs. rewrite E in Epoll.
    apply poll_waits in Epoll; lia.
  - split; [|congruence]. split_and!; simpl; [congruence|done|lia].
Qed.

Lemma polled_spec tp e n iso st c w :
  poll_ready tp iso (st_position st) c (st_poll_failed st, w) →
  match polled settings check_cancelled tp e n st w with
  | (Ok (rs, flag), w') => flag = false ∧ poll_result tp iso (st_position st) c rs w'
  | (Raise x, _) => x ≠ OutOfFuel
  end.
Proof.
  intros Hready. unfold polled. set (J := poll_ready tp iso (st_position st) c).
  assert (∀ b, consumer_only (λ w, J (b, w))) as Hco by (intros b; apply poll_ready_consumer).
  pose proof (retry_triple (beside check_cancelled) (beside monotonic) (λ d, beside (sleep d))
    (attempts settings) (retry_fuel settings) (λ s, clock s.2) J) as Hr.
  assert (∀ c', keeps (λ s, J s ∧ c' ≤ clock s.2) (beside check_cancelled)) as H1.
  { intros c'. apply beside_keeps. intros b. apply quiet_call_keeps; [apply check_quiet|].
    by apply consumer_only_clock. }
  assert (∀ c', triple (λ s, J s ∧ clock s.2 = c') (beside monotonic)
    (λ t s, t = c' ∧ J s ∧ c' ≤ clock s.2) (λ _ _, False)) as H2.
  { intros c' [b w0] [Hw <-]. unfold beside; simpl. destruct (monotonic_law w0) as [Hm Hk].
    pose proof (Hco b w0 _ Hk Hw). destruct (monotonic w0) as [[a|x] w1]; simpl in *; [|congruence].
    simplify_eq. destruct Hk as (_ & _ & ?). done. }
  assert (∀ d c', triple (λ s, J s ∧ c' ≤ clock s.2) (beside (sleep d))
    (λ _ s, J s ∧ c' + d ≤ clock s.2) (raised J)) as H3.
  { intros d c' [b w0] [Hw Hc']. unfold beside; simpl in *. destruct (sleep_quiet d w0) as [Hk Hnf].
    pose proof (Hco b w0 _ Hk Hw). destruct (sleep d w0) as [[[]|x] w1] eqn:E; simpl in *.
    - apply sleep_law in E. split; [done|lia].
    - split; [done|congruence]. }
  specialize (Hr H1 H2 H3 Hfuel _ _ "poll" _
    (poll_safe tp e (st_position st) (n - zlen (st_messages st)) iso c) (st_poll_failed st, w) Hready).
  destruct (_retry _ _ _ _ _ _ _ _) as [[rs|x] [flag w']]; [done|by destruct Hr].
Qed.

(** ** The loop *)

(** The visible messages, as the use cases see them. *)
Definition message_log (tp : TopicPartition) (iso : string) : list RawMessage :=
  to_message <$> sdk_history tp iso.

Lemma message_log_sorted tp iso : StronglySorted offset_lt (message_log tp iso).
Proof.
  unfold message_log. induction (sdk_sorted tp iso) as [|r l Hs IH Hr]; [constructor|].
  rewrite fmap_cons. constructor; [done|]. apply Forall_fmap. eapply Forall_impl; [exact Hr|]. done.
Qed.

Lemma message_log_tp tp iso : Forall (λ m, rm_tp m = tp) (message_log tp iso).
Proof. unfold message_log. apply Forall_fmap. eapply Forall_impl; [apply sdk_tp|]. done. Qed.

Lemma records_segment tp iso s e :
  to_message <$> filter (λ r, s ≤ sr_offset r < e) (sdk_history tp iso) = segment (message_log tp iso) s e.
Proof.
  unfold message_log, segment. induction (sdk_history tp iso) as [|r l IH]; [done|].
  rewrite fmap_cons, !filter_cons. simpl. case_decide; [rewrite fmap_cons|]; by rewrite IH.
Qed.

Section loop_spec.
Context (tp : TopicPartition) (iso : string) (start end_ max_records : Z).
Context (max_bytes total_max_bytes : option Z) (target_bytes max_message_bytes : Z).

Abbreviation mlog := (message_log tp iso).

Record read_inv (st : ReadState) : Prop := {
  in_range_ : start ≤ st_position st ≤ end_;
  in_messages : st_messages st = segment mlog start (st_position st);
  in_payload : st_payload_bytes st = payload_sum (st_messages st);
  in_count : zlen (st_messages st) < max_records;
  in_target : payload_sum (st_messages st) < target_bytes;
  in_bytes : ∀ n, max_bytes = Some n → payload_sum (st_messages st) ≤ n;
  in_size : Forall (λ m, payload_bytes m ≤ max_message_bytes) (st_messages st);
}.

Abbreviation contract := (read_contract mlog start end_ max_records max_bytes target_bytes max_message_bytes).

(** The consumer between two polls: [q] is where it will fetch next, [c] a time that has passed. *)
Definition consumer_at (q c : Z) (w : W) : Prop :=
  consumer_isolation w = iso ∧ fetch_position w tp = q ∧ c ≤ clock w.

Lemma consumer_at_only q c : consumer_only (consumer_at q c).
Proof. intros w w' (Hf & Hi & Hc) (H1 & H2 & H3). split_and!; [congruence| |lia]. by rewrite Hf. Qed.

Lemma monotonic_at q c : triple (consumer_at q c) monotonic (λ t w, c ≤ t ∧ consumer_at q t w) (λ _ _, False).
Proof.
  intros w (Hi & Hq & Hc). destruct (monotonic_law w) as [Hr (Hf & Hi' & Hc')].
  destruct (monotonic w) as [[a|e] w']; simpl in *; [|congruence]. simplify_eq.
  split; [done|]. split_and!; [congruence|by rewrite Hf|done].
Qed.

(** The first record at or behind the position: nothing lies between. *)
Lemma next_record st r : read_inv st → to_message r ∈ mlog → st_position st ≤ sr_offset r →
  segment mlog (st_position st) (sr_offset r) = [] →
  (∀ e', st_position st ≤ e' ≤ sr_offset r → st_messages st = segment mlog start e') ∧
  st_messages st ++ [to_message r] = segment mlog start (sr_offset r + 1).
Proof.
  intros [Hr Hms _ _ _ _ _] Hin Hle Hnil. pose proof (message_log_sorted tp iso) as Hs.
  assert (∀ e', st_position st ≤ e' ≤ sr_offset r → st_messages st = segment mlog start e') as Hup.
  { intros e' He'. rewrite (segment_split _ Hs start (st_position st) e') by lia. rewrite Hms.
    pose proof (segment_split _ Hs (st_position st) e' (sr_offset r) ltac:(lia)) as Hsp.
    rewrite Hnil in Hsp. symmetry in Hsp. apply app_nil in Hsp as [-> _]. by rewrite app_nil_r. }
  split; [done|].
  rewrite (segment_singleton _ Hs (to_message r) start (sr_offset r + 1) Hin);
    change (rm_offset (to_message r)) with (sr_offset r); [|lia].
  rewrite (segment_nil _ (sr_offset r + 1)) by lia. by rewrite (Hup (sr_offset r)) by lia.
Qed.

Definition add_record (st : ReadState) (r : ConsumerRecord) (t : Z) : ReadState :=
  mkReadState (st_messages st ++ [to_message r]) (st_payload_bytes st + payload_bytes (to_message r))
    (sr_offset r + 1) t (st_poll_failed st).

(** What an accepted record adds, except that the batch may now be full. *)
Lemma add_record_facts st r t : read_inv st → payload_bytes (to_message r) ≤ max_message_bytes →
  (∀ n, max_bytes = Some n → st_payload_bytes st + payload_bytes (to_message r) ≤ n) →
  let st' := add_record st r t in
  payload_sum (st_messages st') = st_payload_bytes st' ∧
  (∀ n, max_bytes = Some n → payload_sum (st_messages st') ≤ n) ∧
  Forall (λ m, payload_bytes m ≤ max_message_bytes) (st_messages st') ∧
  zlen (st_messages st') = zlen (st_messages st) + 1.
Proof.
  intros [_ _ Hpay _ _ _ Hsz] Hmm Hb st'.
  assert (payload_sum (st_messages st') = st_payload_bytes st') as Hps.
  { simpl. rewrite payload_sum_app, Hpay. unfold payload_sum at 2; simpl. lia. }
  split_and!; [done|intros n En; rewrite Hps; by apply Hb| |simpl; by rewrite zlen_app].
  simpl. apply Forall_app. split; [done|]. by constructor.
Qed.

Lemma take_records_spec rs st q c : read_inv st → st_position st ≤ q →
  to_message <$> rs = segment mlog (st_position st) q → start < end_ → st_progress_at st ≤ c →
  triple (consumer_at q c)
    (take_records settings check_cancelled tp start end_ max_records max_bytes total_max_bytes
       target_bytes max_message_bytes rs st)
    (λ r w, match r with
            | inl b => contract b
            | inr st' => read_inv st' ∧ st_poll_failed st' = st_poll_failed st ∧ st_position st' ≤ q ∧
                         segment mlog (st_position st') q = [] ∧ consumer_at q c w ∧
                         st_progress_at st' ≤ clock w ∧
                         (st' = st ∧ rs = [] ∨ st_position st < st_position st')
            end)
    (λ e _, e ≠ OutOfFuel).
Proof.
  intros Hinv Hq Hrs Hse Hpa. pose proof (message_log_sorted tp iso) as Hs.
  revert st c Hinv Hq Hrs Hpa. induction rs as [|r rs IH]; intros st c Hinv Hq Hrs Hpa; simpl.
  { intros w Hw. unfold mret, K_ret. pose proof Hw as (_ & _ & ?). split_and!; try done; [lia|by left]. }
  rewrite fmap_cons in Hrs. symmetry in Hrs. apply segment_cons in Hrs as (Hin & Hoff & Hnil & Hrest); [|done].
  change (rm_offset (to_message r)) with (sr_offset r) in *.
  destruct (next_record st r Hinv Hin (proj1 Hoff) Hnil) as [Hup Hseg].
  pose proof Hinv as [Hr Hms Hpay Hcnt Htgt Hbytes Hsz].
  destruct (Z.leb_spec end_ (sr_offset r)).
  { apply triple_keep; [apply verify_range_keeps, consumer_at_only|by intros ?? [_ ?]|]. intros ? w _.
    split; simpl; try done; try lia. apply Hup. lia. }
  apply triple_lift_bind.
  2: { intros e s He _ ->. unfold message_from_sdk, make_TopicPartition, nonnegative in He.
       repeat case_match; simpl in He; congruence. }
  intros m Hm. unfold message_from_sdk in Hm. apply obind_ok in Hm as (tp' & _ & [= <-]).
  destruct (too_large _ _ _) eqn:Elarge; [by intros w _|]. unfold too_large in Elarge.
  apply orb_false_elim in Elarge as [Hmm%Z.ltb_ge _].
  destruct (match max_bytes with Some n => _ | None => false end) eqn:Ebytes.
  { apply triple_keep; [apply verify_range_keeps, consumer_at_only|by intros ?? [_ ?]|]. intros ? w _.
    destruct max_bytes as [n|]; [|done]. apply Z.ltb_lt in Ebytes.
    split; simpl; try done; try lia; [apply Hup; lia|].
    intros _. exists n, (to_message r). split_and!; try done; lia. }
  eapply triple_bind; [eapply triple_conseq; [apply monotonic_at|done|done|done]|].
  intros t. apply triple_pure. intros Hct.
  destruct (add_record_facts st r t Hinv Hmm) as (Hps & Hb' & Hsz' & Hlen').
  { intros n En. rewrite En in Ebytes. by apply Z.ltb_ge in Ebytes. }
  fold (add_record st r t). set (st' := add_record st r t) in *.
  destruct ((_ <=? _) || _) eqn:Efull.
  - apply triple_keep; [apply verify_range_keeps, consumer_at_only|by intros ?? [_ ?]|]. intros ? w _.
    split; try done; [simpl; lia|simpl in *; lia|simpl; lia|].
    intros _. apply orb_prop in Efull as [?%Z.leb_le|?%Z.leb_le]; right; [by left|right].
    change (target_bytes ≤ payload_sum (st_messages st')). by rewrite Hps.
  - apply orb_false_elim in Efull as [Hc%Z.leb_gt Ht%Z.leb_gt].
    eapply triple_conseq; [apply (IH st' t)|done| |done]; [..|by simpl|].
    + split; [simpl; lia|done|done|done|by rewrite Hps|done|done].
    + simpl. lia.
    + simpl. by symmetry.
    + intros [b|st''] w Hx; [done|]. destruct Hx as (? & ? & ? & ? & (? & ? & ?) & ? & Hpos).
      split_and!; try done; [split_and!; [done|done|lia]|]. right. simpl in Hpos.
      destruct Hpos as [[-> _]|?]; simpl; lia.
Qed.

(** The turn ends with the position at the scan position, which skips invisible records, or
    because there was no progress for too long. *)
Lemma scan_spec st q c : read_inv st → st_position st ≤ q → segment mlog (st_position st) q = [] →
  st_progress_at st ≤ c →
  triple (consumer_at q c)
    (if st_position st <? Z.min q end_ then
       t ← monotonic;
       mret (mkReadState (st_messages st) (st_payload_bytes st) (Z.min q end_) t (st_poll_failed st))
     else mret st : K W ReadState)
    (λ st' w, read_inv st' ∧ st_poll_failed st' = st_poll_failed st ∧ consumer_at q c w ∧
              st_progress_at st' ≤ clock w ∧ (st_position st' < end_ → st_position st' = q) ∧
              (st' = st ∨ st_position st < st_position st')) (λ e _, e ≠ OutOfFuel).
Proof.
  intros Hinv Hq Hnil Hpa. pose proof (message_log_sorted tp iso) as Hs.
  pose proof Hinv as [Hr Hms Hpay Hcnt Htgt Hb Hsz].
  destruct (Z.ltb_spec (st_position st) (Z.min q end_)).
  - eapply triple_bind; [eapply triple_conseq; [apply monotonic_at|done|done|done]|]. intros t.
    apply triple_pure. intros Hct w (Hi & Hf & Hc). unfold mret, K_ret.
    split_and!; simpl; try done; try lia; [|split_and!; [done|done|lia]].
    split; simpl; try done; [lia|].
    rewrite (segment_split _ Hs start (st_position st) (Z.min q end_)) by lia. rewrite <-Hms.
    pose proof (segment_split _ Hs (st_position st) (Z.min q end_) q ltac:(lia)) as Hsp.
    rewrite Hnil in Hsp. symmetry in Hsp. apply app_nil in Hsp as [-> _]. by rewrite app_nil_r.
  - intros w Hw. pose proof Hw as (_ & _ & ?). unfold mret, K_ret. split_and!; try done; [lia|lia|by left].
Qed.

Abbreviation timeout := (no_progress_timeout_ms settings).

Lemma after_records_spec st q c : read_inv st → st_position st ≤ q → segment mlog (st_position st) q = [] →
  st_progress_at st ≤ c →
  triple (consumer_at q c) (after_records settings check_cancelled tp end_ st)
    (λ st' w, read_inv st' ∧ st_poll_failed st' = st_poll_failed st ∧ consumer_at q c w ∧
              st_progress_at st' ≤ clock w ∧ (st_position st' < end_ → st_position st' = q) ∧
              (st' = st ∧ c - st_progress_at st < timeout ∨ st_position st < st_position st'))
    (λ e _, e ≠ OutOfFuel).
Proof.
  intros Hinv Hq Hnil Hpa. unfold after_records.
  eapply (triple_bind _ _ _ (λ p w, p = q ∧ consumer_at q c w)).
  { eapply triple_conseq; [apply (retry_keeps _ _ (consumer_at q c) (λ p w, p = q ∧ consumer_at q c w));
      [apply consumer_at_only|]|done|done|by intros ?? [_ ?]].
    intros w Hw. destruct (position_quiet tp w) as [Hk Hnf]. pose proof (consumer_at_only q c w _ Hk Hw) as Hw'.
    destruct (sdk_position tp w) as [[p|e] w'] eqn:E; simpl in *; [|split; [done|congruence]].
    apply position_law in E as ->. by destruct Hw as (_ & -> & _). }
  intros p. apply triple_pure. intros ->.
  eapply triple_bind; [by apply scan_spec|]. intros st' w (Hinv' & Hfl & Hw & Hpa' & Hpos & Hch).
  unfold mbind at 1, K_bind at 1.
  pose proof (monotonic_at q (Z.max c (st_progress_at st')) w) as Hm.
  destruct Hw as (Hi & Hf & Hc). specialize (Hm ltac:(split_and!; [done|done|lia])).
  destruct (monotonic w) as [[t|e] w']; [|done]. destruct Hm as (Ht & Hi' & Hf' & Hc').
  destruct (Z.leb_spec timeout (t - st_progress_at st')).
  - unfold mbind, K_bind.
    pose proof (verify_range_keeps tp end_ (st_position st') (λ _, True) ltac:(done) w' I) as Hv.
    destruct (verify_range _ _ _ _ _ w') as [[[]|e] w'']; simpl; [done|by destruct Hv].
  - unfold mret, K_ret. split_and!; try done; [split_and!; [done|done|lia]|lia|].
    destruct Hch as [->|?]; [left|by right]. split; [done|lia].
Qed.

(** What the loop still has to do: offsets to pass, then time to wait. *)
Definition work_left (st : ReadState) (w : W) : Z :=
  (end_ - st_position st) * (timeout + 1) + Z.max 0 (timeout - (clock w - st_progress_at st)).

Lemma read_loop_spec n st w : read_inv st → start < end_ → 0 ≤ timeout → consumer_isolation w = iso →
  st_progress_at st ≤ clock w → work_left st w + 1 ≤ Z.of_nat n →
  (st_position st < end_ → poll_ready tp iso (st_position st) (clock w) (st_poll_failed st, w)) →
  match read_loop settings check_cancelled tp start end_ max_records max_bytes total_max_bytes
          target_bytes max_message_bytes n st w with
  | (Ok b, _) => contract b
  | (Raise e, _) => e ≠ OutOfFuel
  end.
Proof.
  intros Hinv Hse Hto. revert st w Hinv.
  induction n as [|n IH]; intros st w Hinv Hiso Hpa Hn Hready; simpl.
  { destruct Hinv as [? _ _ _ _ _ _]. unfold work_left in Hn. nia. }
  destruct (Z.leb_spec end_ (st_position st)).
  - unfold mbind, K_bind.
    pose proof (verify_range_keeps tp end_ start (λ _, True) ltac:(done) w I) as Hv.
    destruct (verify_range _ _ _ _ _ w) as [[[]|e] w1]; [|by destruct Hv]. unfold mret, K_ret.
    destruct Hinv as [Hr Hms Hpay Hcnt Htgt Hb Hsz]. split; simpl; try done; try lia.
  - specialize (Hready ltac:(done)). unfold mbind at 1, K_bind at 1.
    pose proof (quiet_call_keeps _ _ check_quiet (poll_ready_consumer tp iso (st_position st) (clock w) (st_poll_failed st)) w Hready) as Hc.
    destruct (check_cancelled w) as [[[]|e] w1]; [|by destruct Hc].
    unfold mbind at 1, K_bind at 1. pose proof (polled_spec tp end_ max_records iso st (clock w) w1 Hc) as Hp.
    destruct (polled _ _ _ _ _ st w1) as [[[rs flag]|e] w2]; [|done].
    destruct Hp as [-> (Hi & Hle & Hrs & Hcw & Hwait)].
    unfold mbind at 1, K_bind at 1. simpl.
    set (st1 := mkReadState _ _ _ _ _).
    assert (read_inv st1) as Hinv1 by (by destruct Hinv).
    assert (to_message <$> rs = segment mlog (st_position st1) (fetch_position w2 tp)) as Hseg.
    { rewrite Hrs. apply records_segment. }
    assert (st_progress_at st1 ≤ clock w2) as Hpa1 by (etrans; [exact Hpa|exact Hcw]).
    pose proof (take_records_spec rs st1 _ (clock w2) Hinv1 Hle Hseg Hse Hpa1 w2) as Ht.
    specialize (Ht ltac:(split_and!; [done|done|lia])).
    destruct (take_records _ _ _ _ _ _ _ _ _ _ rs st1 w2) as [[[b|st2]|e] w3]; [done| |done].
    destruct Ht as (Hinv2 & Hfl & Hq & Hnil & (Hi3 & Hf3 & Hc3) & Hpa2 & Hch2).
    unfold mbind, K_bind.
    pose proof (after_records_spec st2 _ (Z.max (@clock _ _ _ sl w2) (st_progress_at st2)) Hinv2 Hq Hnil (Z.le_max_r _ _) w3) as Ha.
    specialize (Ha ltac:(split_and!; [done|done|lia])).
    destruct (after_records _ _ _ _ st2 w3) as [[st3|e] w4]; [|done].
    destruct Ha as (Hinv3 & Hfl3 & (Hi4 & Hf4 & Hc4) & Hpa3 & Hpos & Hch3).
    apply IH; [done|done|done| |].
    + pose proof (in_range_ _ Hinv3). unfold work_left in *. destruct Hch2 as [[-> ->]|Hlt].
      * destruct Hch3 as [[-> Hto3]|Hlt]; simpl in *; [|nia].
        assert (clock w < clock w2) as Hstrict by (apply Hwait; [done|]; rewrite <-Hpos; [done|lia]). lia.
      * assert (st_position st < st_position st3) by (simpl in Hlt; destruct Hch3 as [[-> _]|?]; lia). nia.
    + intros Hlt. split_and!; simpl; [done| |lia]. intros _. by rewrite Hpos.
Qed.
End loop_spec.

(** ** The whole method *)

Lemma positive_limit_no_fuel v n : positive_limit v n ≠ Raise OutOfFuel.
Proof. unfold positive_limit, nonnegative. repeat (case_match; simpl); congruence. Qed.

Lemma nonnegative_opt_no_fuel v n : nonnegative_opt v n ≠ Raise OutOfFuel.
Proof. unfold nonnegative_opt, nonnegative. repeat case_match; congruence. Qed.

Lemma no_fuel {A} (o : outcome kafka_exn A) : o ≠ Raise OutOfFuel → ∀ e (s : W), o = Raise e → True → e ≠ OutOfFuel.
Proof. intros Ho e s -> _ ->. done. Qed.

Lemma with_consumer_spec {A} iso (body : K W A) (Q : A → Prop) :
  (∀ w, consumer_isolation w = iso → match body w with (Ok a, _) => Q a | (Raise e, _) => e ≠ OutOfFuel end) →
  triple (λ _, True) (with_consumer settings check_cancelled None iso body) (λ a _, Q a) (λ e _, e ≠ OutOfFuel).
Proof.
  intros Hbody w _. unfold with_consumer. destruct (negb _); [done|]. unfold mbind, K_bind.
  pose proof (retry_keeps (sdk_connect None iso) "connect" (λ _, True) (λ _ w, consumer_isolation w = iso) ltac:(done)) as Hc.
  assert (triple (λ _, True) (sdk_connect None iso) (λ _ w, consumer_isolation w = iso) (raised (λ _, True))) as Hcon.
  { intros w0 _. destruct (connect_call None iso w0) as [_ Hnf].
    destruct (sdk_connect None iso w0) as [[[]|e] w1] eqn:E; [by apply connect_law in E|]. split; [done|].
    simpl in Hnf. congruence. }
  specialize (Hc Hcon w I). destruct (retry _ _ _ _ w) as [[[]|e] w1]; [|by destruct Hc].
  unfold finally. specialize (Hbody w1 Hc). destruct (close_call (body w1).2) as [_ Hnf].
  destruct (body w1) as [[a|e] w2]; simpl in *;
    destruct (sdk_close w2) as [[[]|e'] w3]; simpl in *; congruence || done.
Qed.

Lemma read_spec range iso max_records max_bytes total_max_bytes target_bytes max_message_bytes w :
  0 ≤ or_start range ≤ or_end range → 0 ≤ no_progress_timeout_ms settings →
  match read settings check_cancelled range iso max_records max_bytes total_max_bytes target_bytes
          max_message_bytes w with
  | (Ok b, _) => read_contract (message_log (or_tp range) iso) (or_start range) (or_end range) max_records
                   max_bytes target_bytes max_message_bytes b
  | (Raise e, _) => e ≠ OutOfFuel
  end.
Proof.
  intros Hr Hto. unfold read.
  assert (∀ (m : K W ReadBatch) (Q : ReadBatch → Prop), triple (λ _, True) m (λ a _, Q a) (λ e _, e ≠ OutOfFuel) →
    match m w with (Ok b, _) => Q b | (Raise e, _) => e ≠ OutOfFuel end) as Hrun by (intros m Q Hm; apply (Hm w I)).
  apply Hrun. clear Hrun w.
  apply triple_lift_bind; [|apply no_fuel, positive_limit_no_fuel]. intros ? Hmr%positive_limit_ok.
  apply triple_lift_bind; [|apply no_fuel, positive_limit_no_fuel]. intros ? Htb%positive_limit_ok.
  apply triple_lift_bind; [|apply no_fuel, positive_limit_no_fuel]. intros ? _.
  apply triple_lift_bind; [|apply no_fuel, nonnegative_opt_no_fuel]. intros ? Hmb.
  apply triple_lift_bind; [|apply no_fuel, nonnegative_opt_no_fuel]. intros ? _.
  assert (∀ n, max_bytes = Some n → 0 ≤ n) as Hnn by (intros n ->; by apply nonnegative_ok in Hmb).
  destruct (Z.eqb_spec (or_start range) (or_end range)) as [E|Hne].
  { intros w _. unfold mret, K_ret.
    split; simpl; try done; try lia; [by rewrite segment_nil by lia|unfold zlen; simpl; lia]. }
  apply with_consumer_spec. intros w Hiso. unfold read_consumer.
  unfold mbind at 1, K_bind at 1. pose proof (assign_law (or_tp range) w) as Hai.
  destruct (assign_call (or_tp range) w) as [_ Hnf].
  destruct (sdk_assign (or_tp range) w) as [[[]|e] w1]; simpl in *; [|congruence].
  unfold mbind at 1, K_bind at 1.
  pose proof (verify_range_keeps (or_tp range) (or_end range) (or_start range) (λ w, consumer_isolation w = iso)) as Hv.
  specialize (Hv ltac:(intros ?? (_ & ? & _) ?; congruence) w1 ltac:(congruence)).
  destruct (verify_range _ _ _ _ _ w1) as [[[]|e] w2]; [|by destruct Hv].
  unfold mbind at 1, K_bind at 1. destruct (seek_law (or_tp range) (or_start range) w2) as [Hsi Hsp].
  destruct (seek_call (or_tp range) (or_start range) w2) as [_ Hnf2].
  destruct (sdk_seek _ _ w2) as [[[]|e] w3]; simpl in *; [|congruence]. specialize (Hsp w3 eq_refl).
  unfold mbind at 1, K_bind at 1. destruct (monotonic_law w3) as [Hmr3 (Hf3 & Hi3 & Hc3)].
  destruct (monotonic w3) as [[t|e] w4]; simpl in *; [|congruence]. injection Hmr3 as ->.
  apply (read_loop_spec (or_tp range) iso); simpl; try done; [|lia|congruence| |].
  - split; simpl; try done; try lia. by rewrite segment_nil by lia.
  - unfold work_left, read_fuel. simpl. nia.
  - intros _. split_and!; simpl; [congruence|by rewrite Hf3|done].
Qed.
End gateway_spec.

(** A validated configuration waits for a positive time. *)
Lemma make_settings_timeout s s' : make_KafkaRuntimeSettings s = Ok s' → s' = s ∧ 0 < no_progress_timeout_ms s.
Proof.
  unfold make_KafkaRuntimeSettings. intros H. kinv. destruct (_ || _) eqn:E; [done|].
  apply orb_false_elim in E as [_ ?%Z.leb_gt]. by simplify_eq.
Qed.

(** The gateway, as the use cases see it. *)
Definition gateway_log {W} {sdk : KafkaSDK W} check_cancelled {sl : SDKLog W check_cancelled} settings
    (Hsettings : make_KafkaRuntimeSettings settings = Ok settings)
    : KafkaLog W (gw := KafkaPythonGateway settings check_cancelled).
Proof.
  refine {| history := message_log check_cancelled; history_sorted := message_log_sorted check_cancelled;
            history_tp := message_log_tp check_cancelled |}.
  intros range iso n mb tb tg mm w b w' Hr _ _ _ E. simpl in E.
  apply make_settings_timeout in Hsettings as [_ Hto].
  pose proof (read_spec check_cancelled settings range iso n mb tb tg mm w Hr ltac:(lia)) as Hs.
  by rewrite E in Hs.
Defined.

(** C19. Over a client library that keeps its documented promises, the gateway's [read] ends, and
    what it returns is exactly the visible messages from the requested start to the position it
    reports, within the limits of records, bytes and message size, for all its retries, its
    re-seek after a failed poll and its early exits; it stops before the end of the range only when
    a limit is reached. *)
Theorem gateway_read_keeps_contract {W} {sdk : KafkaSDK W} check_cancelled
    {sl : SDKLog W check_cancelled} settings range iso max_records max_bytes total_max_bytes target_bytes
    max_message_bytes w :
  make_KafkaRuntimeSettings settings = Ok settings → 0 ≤ or_start range ≤ or_end range →
  match read settings check_cancelled range iso max_records max_bytes total_max_bytes target_bytes
          max_message_bytes w with
  | (Ok b, _) => read_contract (message_log check_cancelled (or_tp range) iso) (or_start range)
                   (or_end range) max_records max_bytes target_bytes max_message_bytes b
  | (Raise e, _) => e ≠ OutOfFuel
  end.
Proof.
  intros [_ Hto]%make_settings_timeout Hr. apply read_spec; [done|lia].
Qed.
