(* ===== verification/KafkaCommit.v ===== *)
(** * Kafka consumption: committing through the gateway

    [CommitKafkaOffsets] over [KafkaPythonGateway]: the laws the use case needs of a consumer group
    ([KafkaGroup]) are proved of the gateway's methods, with their retries and their closing of the
    consumer, from laws of the client library ([SDKGroup]). The group is owned exclusively: between the
    check of the committed offsets and the commit nobody else commits for it, which is the assumption the
    use case states. *)
From S2P Require Import Prelude KafkaTypes KafkaFlow KafkaSpec KafkaGateway KafkaGatewaySpec.

(** ** The client library and a consumer group *)

(** The committed offsets of [group] at the broker and the group of the open consumer. Reading, connecting,
    closing and waiting change neither offsets nor group, except that [connect] opens a consumer of the group it is
    given. A commit of a consumer of the group sets what it is given when it succeeds, and some of it when it
    fails. *)
Class SDKGroup (W : Type) {sdk : KafkaSDK W} (check_cancelled : K W unit) (group : string) := {
  group_offsets : W → TopicPartition → option Z;
  consumer_group : W → option string;
  offsets_kept : W → W → Prop := λ w w', ∀ tp, group_offsets w' tp = group_offsets w tp;
  group_kept : W → W → Prop := λ w w', offsets_kept w w' ∧ consumer_group w' = consumer_group w;
  sg_connect : ∀ g iso w, offsets_kept w (sdk_connect g iso w).2;
  sg_connect_group : ∀ g iso w w', sdk_connect g iso w = (Ok (), w') → consumer_group w' = g;
  sg_close : ∀ w, offsets_kept w (sdk_close w).2;
  sg_partitions : ∀ t w, offsets_kept w (sdk_partitions_for_topic t w).2;
  sg_beginning : ∀ l w, offsets_kept w (sdk_beginning_offsets l w).2;
  sg_end : ∀ l w, offsets_kept w (sdk_end_offsets l w).2;
  sg_admin_connect : ∀ w, offsets_kept w (sdk_admin_connect w).2;
  sg_describe : ∀ w, offsets_kept w (sdk_describe_cluster w).2;
  sg_admin_close : ∀ w, offsets_kept w (sdk_admin_close w).2;
  sg_check : ∀ w, group_kept w (check_cancelled w).2;
  sg_monotonic : ∀ w, group_kept w (monotonic w).2;
  sg_sleep : ∀ d w, group_kept w (sleep d w).2;
  sg_committed : ∀ tp w, group_kept w (sdk_committed tp w).2;
  sg_committed_law : ∀ tp w o w', consumer_group w = Some group → sdk_committed tp w = (Ok o, w') → o = group_offsets w tp;
  sg_commit_group : ∀ ps w, consumer_group (sdk_commit ps w).2 = consumer_group w;
  sg_commit_some : ∀ ps w tp, consumer_group w = Some group →
    group_offsets (sdk_commit ps w).2 tp = group_offsets w tp ∨
    ∃ p, (tp, p) ∈ ps ∧ group_offsets (sdk_commit ps w).2 tp = Some p;
  sg_commit_all : ∀ ps w w' tp p, consumer_group w = Some group → NoDup ps.*1 → sdk_commit ps w = (Ok (), w') → (tp, p) ∈ ps →
    group_offsets w' tp = Some p;
}.

Section group.
Context {W : Type} {sdk : KafkaSDK W} (check_cancelled : K W unit) (group : string).
Context {sg : SDKGroup W check_cancelled group}.
Context (settings : KafkaRuntimeSettings).
Implicit Types J P : W → Prop.

(** ** Steps that keep an assertion *)

(** [J] holds afterwards, whatever the result. *)
Definition holds {A} J (m : K W A) : Prop := triple J m (λ _, J) (λ _, J).

Lemma holds_step {A} J (m : K W A) : (∀ w, J w → J (m w).2) → holds J m.
Proof. intros H w Hw. specialize (H w Hw). by destruct (m w) as [[a|e] w']. Qed.

Lemma holds_run {A} J (m : K W A) w : holds J m → J w → J (m w).2.
Proof. intros H Hw. specialize (H w Hw). by destruct (m w) as [[a|e] w']. Qed.

Lemma holds_bind {A B} J (m : K W A) (f : A → K W B) : holds J m → (∀ a, holds J (f a)) → holds J (m ≫= f).
Proof. intros Hm Hf. eapply triple_bind; [exact Hm|]. intros a. apply Hf. Qed.

(** Such a step in front of the rest. *)
Lemma triple_after {A B} J (m : K W A) (f : A → K W B) Q :
  holds J m → (∀ a, triple J (f a) Q (λ _, J)) → triple J (m ≫= f) Q (λ _, J).
Proof. intros Hm Hf. eapply triple_bind; [exact Hm|]. intros a. apply Hf. Qed.

Lemma holds_lift {A} J (o : outcome kafka_exn A) : holds J (klift o).
Proof. by apply holds_step. Qed.

Lemma holds_ret {A} J (a : A) : holds J (mret a).
Proof. by apply holds_step. Qed.

Lemma holds_raise {A} J e : holds (A := A) J (kraise e).
Proof. by apply holds_step. Qed.

(** An assertion about offsets and the consumer's group alone. *)
Definition group_stable J : Prop := ∀ w w', group_kept w w' → J w → J w'.
Definition offset_stable J : Prop := ∀ w w', offsets_kept w w' → J w → J w'.

Lemma offset_group_stable J : offset_stable J → group_stable J.
Proof. intros H w w' [Hk _]. by apply H. Qed.

Lemma backoff_holds J fuel deadline : group_stable J → holds J (backoff check_cancelled monotonic sleep fuel deadline).
Proof.
  intros HJ. assert (∀ {A} (m : K W A), (∀ w, group_kept w (m w).2) → holds J m) as Hstep.
  { intros A m Hm. apply holds_step. intros w. apply HJ, Hm. }
  induction fuel as [|fuel IH]; cbn [backoff]; [apply holds_raise|].
  apply holds_bind; [apply Hstep, sg_monotonic|]. intros t. destruct (deadline <=? t); [apply holds_ret|].
  apply holds_bind; [apply Hstep, sg_check|]. intros _. apply holds_bind; [apply Hstep, sg_monotonic|]. intros t'.
  apply holds_bind; [apply Hstep, sg_sleep|]. intros _. apply IH.
Qed.

(** A retried operation: each attempt starts from [J] again. *)
Lemma group_retry_triple {A} J (op : K W A) (Q : A → W → Prop) name :
  group_stable J → triple J op Q (λ _, J) → triple J (retry settings check_cancelled op name) Q (λ _, J).
Proof.
  intros HJ Hop. unfold retry, _retry. generalize 0. generalize (Z.to_nat (attempts settings)).
  intros n. induction n as [|n IH]; intros attempt; cbn [retry_from]; [by intros w Hw|].
  apply triple_after; [apply holds_step; intros w; apply HJ, sg_check|]. intros _.
  eapply triple_catch.
  - apply triple_after; [apply holds_step; intros w; apply HJ, sg_monotonic|]. intros _. exact Hop.
  - intros e. cbv beta. destruct (retry_error _ name attempt e) as [e'|]; [by intros w Hw|].
    apply triple_after; [apply holds_step; intros w; apply HJ, sg_monotonic|]. intros t.
    apply triple_after; [by apply backoff_holds|]. intros _. apply IH.
Qed.

Lemma retry_holds {A} J (op : K W A) name : group_stable J → holds J op → holds J (retry settings check_cancelled op name).
Proof. intros HJ Hop. by apply group_retry_triple. Qed.

Lemma finally_holds {A} J (m : K W A) close : holds J m → holds J close → holds J (finally m close).
Proof.
  intros Hm Hc w Hw. unfold finally. specialize (Hm w Hw).
  destruct (m w) as [[a|e] w1]; specialize (Hc w1 Hm); by destruct (close w1) as [[u|e'] w2].
Qed.

Lemma with_consumer_holds {A} J g iso (m : K W A) : offset_stable J → holds J m → holds J (with_consumer settings check_cancelled g iso m).
Proof.
  intros HJ Hm. unfold with_consumer. destruct (negb _); [apply holds_raise|]. apply holds_bind.
  - apply retry_holds; [by apply offset_group_stable|]. apply holds_step. intros w. apply HJ, sg_connect.
  - intros _. apply finally_holds; [done|]. apply holds_step. intros w. apply HJ, sg_close.
Qed.

Lemma unchanged_stable w0 : offset_stable (offsets_kept w0).
Proof. intros w w' Hk Hw tp. by rewrite Hk. Qed.

(** ** What reads keep *)


Lemma partitions_keep t w : offsets_kept w (partitions settings check_cancelled t w).2.
Proof.
  apply holds_run; [|done]. apply holds_bind; [apply holds_lift|]. intros _. apply with_consumer_holds; [apply unchanged_stable|].
  apply holds_bind.
  - apply retry_holds; [apply offset_group_stable, unchanged_stable|]. apply holds_step. intros w'. apply unchanged_stable, sg_partitions.
  - intros r. case_bool_decide; [apply holds_raise|apply holds_ret].
Qed.

Lemma cluster_id_keep w : offsets_kept w (cluster_id settings check_cancelled w).2.
Proof.
  apply holds_run; [|done]. pose proof (offset_group_stable _ (unchanged_stable w)) as Hst. apply holds_bind.
  - apply retry_holds; [done|]. apply holds_step. intros w'. apply unchanged_stable, sg_admin_connect.
  - intros _. apply finally_holds.
    + apply retry_holds; [done|]. apply holds_step. intros w'. apply unchanged_stable, sg_describe.
    + apply holds_step. intros w'. apply unchanged_stable, sg_admin_close.
Qed.

Lemma bounds_keep l iso w : offsets_kept w (bounds settings check_cancelled l iso w).2.
Proof.
  apply holds_run; [|done]. pose proof (offset_group_stable _ (unchanged_stable w)) as Hst.
  unfold bounds. case_bool_decide; [apply holds_ret|]. apply with_consumer_holds; [apply unchanged_stable|].
  apply holds_bind; [apply retry_holds; [done|]; apply holds_step; intros w'; apply unchanged_stable, sg_beginning|]. intros starts.
  apply holds_bind; [apply retry_holds; [done|]; apply holds_step; intros w'; apply unchanged_stable, sg_end|]. intros ends.
  apply holds_bind; [apply holds_lift|intros items; apply holds_ret].
Qed.

(** ** Reading and writing the offsets of the group *)

(** A consumer of the group is open and the offsets are those of [w0]. *)
Definition open_unchanged (w0 w : W) : Prop := offsets_kept w0 w ∧ consumer_group w = Some group.

Lemma open_stable w0 : group_stable (open_unchanged w0).
Proof. intros w w' [Hk Hg] [Hw Ho]. split; [by apply (unchanged_stable w0 w)|congruence]. Qed.

Lemma committed_each_spec w0 l :
  triple (open_unchanged w0) (committed_each settings check_cancelled l)
    (λ items w, open_unchanged w0 w ∧ items = (λ tp, (tp, group_offsets w0 tp)) <$> l) (λ _, open_unchanged w0).
Proof.
  induction l as [|tp l IH]; cbn [committed_each]; [by intros w Hw|]. eapply triple_bind.
  - apply (group_retry_triple _ _ (λ o w, open_unchanged w0 w ∧ o = group_offsets w0 tp)); [apply open_stable|].
    intros w Hw. pose proof (sg_committed tp w) as Hk. pose proof (λ o w', sg_committed_law tp w o w' (proj2 Hw)) as Hl.
    destruct (sdk_committed tp w) as [[o|e] w']; [|by apply (open_stable w0 w)]. split; [by apply (open_stable w0 w)|].
    rewrite (Hl o w' eq_refl). apply Hw.
  - intros o. cbv beta. intros w [Hw ->]. revert w Hw. eapply triple_bind; [exact IH|]. intros items. cbv beta. by intros w [Hw ->].
Qed.

(** Opening a consumer of the group. *)
Lemma connect_spec J iso :
  offset_stable J →
  triple J (retry settings check_cancelled (sdk_connect (Some group) iso) "connect")
    (λ _ w, J w ∧ consumer_group w = Some group) (λ _, J).
Proof.
  intros HJ. apply group_retry_triple; [by apply offset_group_stable|]. intros w Hw. pose proof (sg_connect (Some group) iso w) as Hk.
  pose proof (λ w', sg_connect_group (Some group) iso w w') as Hg.
  destruct (sdk_connect (Some group) iso w) as [[[]|e] w']; [split; [by apply (HJ w)|by apply Hg]|by apply (HJ w)].
Qed.

(** A list of pairs that agree with a function, as a dictionary. *)
Lemma list_to_map_fun {V} (f : TopicPartition → V) l tp : tp ∈ l → (list_to_map (reverse ((λ x, (x, f x)) <$> l)) : gmap TopicPartition V) !! tp = Some (f tp).
Proof.
  rewrite <-fmap_reverse. intros Hin%elem_of_reverse. induction (reverse l) as [|x k IH]; [by apply not_elem_of_nil in Hin|].
  cbn. destruct (decide (x = tp)) as [->|Hne]; [by rewrite lookup_insert_eq|]. rewrite lookup_insert_ne by done. apply IH. set_solver.
Qed.

Lemma committed_spec l w0 :
  triple (offsets_kept w0) (committed settings check_cancelled group l)
    (λ d w, offsets_kept w0 w ∧ ∀ tp, tp ∈ l → d !! tp = Some (group_offsets w0 tp)) (λ _, offsets_kept w0).
Proof.
  unfold committed. apply triple_after; [apply holds_lift|]. intros _. case_bool_decide as Hl.
  { intros w Hw. split; [done|]. rewrite Hl. by intros tp ?%not_elem_of_nil. }
  unfold with_consumer. destruct (negb _); [by intros w Hw|].
  eapply triple_bind; [apply connect_spec, unchanged_stable|]. intros ?. cbv beta.
  intros w Hw. unfold finally. pose proof (triple_bind _ (λ items, mret (list_to_map (reverse items))) _ _
    (λ (d : gmap TopicPartition (option Z)) w, open_unchanged w0 w ∧ ∀ tp, tp ∈ l → d !! tp = Some (group_offsets w0 tp)) _ (committed_each_spec w0 l)) as Hbody.
  specialize (Hbody ltac:(intros items w1 [H1 ->]; split; [done|]; by intros tp; apply list_to_map_fun) w Hw).
  match goal with |- context [match ?m w with _ => _ end] => destruct (m w) as [[d|e] w1] end.
  - destruct Hbody as [[H1 _] Hd]. pose proof (sg_close w1) as Hc. destruct (sdk_close w1) as [[u|e] w2]; [split; [|done]|]; by apply (unchanged_stable w0 w1).
  - destruct Hbody as [H1 _]. pose proof (sg_close w1) as Hc. destruct (sdk_close w1) as [[u|e'] w2]; by apply (unchanged_stable w0 w1).
Qed.

(** Each offset is the one of [w0] or one of the positions. *)
Definition some_set (ps : list (TopicPartition * Z)) (w0 w : W) : Prop :=
  ∀ tp, group_offsets w tp = group_offsets w0 tp ∨ ∃ p, (tp, p) ∈ ps ∧ group_offsets w tp = Some p.

Definition all_set (ps : list (TopicPartition * Z)) (w : W) : Prop := NoDup ps.*1 → ∀ tp p, (tp, p) ∈ ps → group_offsets w tp = Some p.

Lemma some_set_stable ps w0 : offset_stable (some_set ps w0).
Proof. intros w w' Hk Hw tp. rewrite Hk. apply Hw. Qed.

Lemma all_set_stable ps : offset_stable (all_set ps).
Proof. intros w w' Hk Hw Hnd tp p Hin. rewrite Hk. by apply Hw. Qed.

(** One attempt. *)
Lemma commit_attempt ps w0 :
  triple (λ w, some_set ps w0 w ∧ consumer_group w = Some group) (check_cancelled ≫= λ _, sdk_commit ps)
    (λ _ w, some_set ps w0 w ∧ all_set ps w) (λ _ w, some_set ps w0 w ∧ consumer_group w = Some group).
Proof.
  eapply (triple_bind _ _ _ (λ _ w, some_set ps w0 w ∧ consumer_group w = Some group)).
  - apply holds_step. intros w [Hs Hg]. destruct (sg_check w) as [Hk Eg]. split; [by apply (some_set_stable ps w0 w)|congruence].
  - intros _ w [Hs Hg]. pose proof (sg_commit_group ps w) as Eg. pose proof (λ tp, sg_commit_some ps w tp Hg) as Hsome.
    pose proof (λ w' tp p, sg_commit_all ps w w' tp p Hg) as Hall.
    assert (some_set ps w0 (sdk_commit ps w).2) as Hs' by (intros tp; destruct (Hsome tp) as [->|H]; [apply Hs|by right]).
    destruct (sdk_commit ps w) as [[[]|e] w']; [|split; [done|exact (eq_trans Eg Hg)]]. split; [done|]. intros Hnd tp p Hin. by apply (Hall w').
Qed.

(** The whole method. *)
Lemma group_commit_spec ps w0 :
  triple (offsets_kept w0) (commit settings check_cancelled group ps)
    (λ _ w, some_set ps w0 w ∧ all_set ps w) (λ _, some_set ps w0).
Proof.
  assert (∀ w, offsets_kept w0 w → some_set ps w0 w) as Hstart by (intros w Hw tp; left; apply Hw).
  unfold commit. apply (triple_conseq _ (some_set ps w0) _ (λ _ w, some_set ps w0 w ∧ all_set ps w) _ (λ _, some_set ps w0));
    [|exact Hstart|done|done].
  apply triple_after; [apply holds_lift|]. intros _. apply triple_after; [apply holds_lift|]. intros _.
  case_bool_decide as Hps. { intros w Hw. split; [done|]. rewrite Hps. by intros _ tp p ?%not_elem_of_nil. }
  eapply (triple_catch _ _ _ _ (λ _, some_set ps w0)); [|intros e; destruct (is_kafka_error e); by intros w Hw].
  assert (∀ J, offset_stable J → holds J check_cancelled) as Hcheck by (intros J HJ; apply holds_step; intros w; apply HJ, sg_check).
  assert (offset_stable (λ w, some_set ps w0 w ∧ all_set ps w)) as Hdone
    by (intros w w' Hk [H1 H2]; split; [by apply (some_set_stable ps w0 w)|by apply (all_set_stable ps w)]).
  eapply (triple_bind _ _ _ (λ _ w, some_set ps w0 w ∧ all_set ps w)).
  2:{ intros _. eapply triple_conseq; [apply Hcheck, Hdone|done|done|by intros ? ? [? _]]. }
  unfold with_consumer. destruct (negb _); [by intros w Hw|].
  eapply triple_bind; [apply connect_spec, some_set_stable|].
  - intros ?. cbv beta. intros w Hw. unfold finally.
    assert (triple (λ w, some_set ps w0 w ∧ consumer_group w = Some group)
      (retry settings check_cancelled (check_cancelled ≫= λ _, sdk_commit ps) "commit" ≫= λ _, check_cancelled)
      (λ _ w, some_set ps w0 w ∧ all_set ps w) (λ _, some_set ps w0)) as Hbody.
    { eapply (triple_bind _ _ _ (λ _ w, some_set ps w0 w ∧ all_set ps w)).
      - eapply triple_conseq; [apply (group_retry_triple (λ w, some_set ps w0 w ∧ consumer_group w = Some group)); [|apply commit_attempt]|done|done|by intros ? ? [? _]].
        intros w1 w2 [Hk Hg] [H1 H2]. split; [by apply (some_set_stable ps w0 w1)|congruence].
      - intros _. eapply triple_conseq; [apply Hcheck, Hdone|done|done|by intros ? ? [? _]]. }
    specialize (Hbody w Hw). match goal with |- context [match ?m w with _ => _ end] => destruct (m w) as [[u|e] w1] end;
      pose proof (sg_close w1) as Hc; destruct (sdk_close w1) as [[v|e'] w2].
    + by apply (Hdone w1).
    + destruct Hbody. by apply (some_set_stable ps w0 w1).
    + by apply (some_set_stable ps w0 w1).
    + by apply (some_set_stable ps w0 w1).
Qed.

(** The gateway, as the use case sees it. *)
#[global] Instance gateway_group : KafkaGroup W (gw := KafkaPythonGateway settings check_cancelled) check_cancelled group.
Proof.
  refine {| committed_of := group_offsets |}.
  - intros w tp. apply sg_check.
  - intros t w tp. apply partitions_keep.
  - intros w tp. apply cluster_id_keep.
  - intros l i w tp. apply bounds_keep.
  - intros l w tp. pose proof (committed_spec l w w (λ _, eq_refl)) as H. simpl.
    destruct (committed _ _ _ _ w) as [[d|e] w']; [by destruct H as [H _]|apply H].
  - intros l w d w' tp E Hin. pose proof (committed_spec l w w (λ _, eq_refl)) as H. simpl in E. rewrite E in H. by apply H.
  - intros ps w tp. pose proof (group_commit_spec ps w w (λ _, eq_refl)) as H. simpl.
    destruct (commit _ _ _ _ w) as [[d|e] w']; [by destruct H as [H _]|apply H].
  - intros ps w w' tp p Hnd E Hin. pose proof (group_commit_spec ps w w (λ _, eq_refl)) as H. simpl in E. rewrite E in H. by apply H.
Defined.
End group.

(** C38. Over a client library that keeps its promises, and while the consumer group is owned exclusively (only
    this call commits for it: the check of the committed offsets is not compare-and-set), committing a
    summary through the gateway never moves an offset of the group backwards, whatever fails or is retried on
    the way; when it succeeds, each partition of the summary ends at the later of the requested and the
    committed offset, and the other offsets of the group are unchanged. *)
Theorem commit_is_monotone {W} {sdk : KafkaSDK W} check_cancelled settings (s : ReadSummary)
    {sg : SDKGroup W check_cancelled (rs_group_id s)} (w : W) :
  let r := CommitKafkaOffsets (gw := KafkaPythonGateway settings check_cancelled) check_cancelled s w in
  (∀ tp, offset_le (group_offsets w tp) (group_offsets r.2 tp)) ∧
  (∀ res, r.1 = Ok res → ∀ tp, group_offsets r.2 tp =
     match list_find (λ p, mkTP (rs_topic s) (po_partition p) = tp) (rs_partitions s) with
     | Some (_, p) => Some (Z.max (po_next_offset p) (default 0 (group_offsets w tp)))
     | None => group_offsets w tp
     end).
Proof. exact (commit_run check_cancelled s (kg := gateway_group check_cancelled (rs_group_id s) settings) w). Qed.
