(* ===== verification/KafkaRun.v ===== *)
(** Kafka consumption: concrete runs. A client library over one partition with three visible
    messages and a gap, on which the gateway, the use cases and the reader are evaluated; it keeps
    every law, so the theorems apply to it. *)
From S2P Require Import Prelude KafkaTypes KafkaFlow KafkaSpec KafkaReader KafkaReaderSpec.
From S2P Require Import KafkaGateway KafkaGatewaySpec KafkaCommit.

Module KafkaRuns.

(** ** A library in memory *)

Record Broker := mkBroker { bk_clock : Z; bk_position : Z; bk_isolation : string }.

Definition tp0 : TopicPartition := mkTP "orders" 0.

Definition record_at (offset : Z) (value : bytes) : ConsumerRecord :=
  mkRecord "orders" 0 offset (Some 5) (Some 0) None (Some value) None.

(** Offset 2 is a control record, which no consumer sees. *)
Definition records : list ConsumerRecord :=
  [record_at 0 [Byte.x61]; record_at 1 [Byte.x62; Byte.x63]; record_at 3 [Byte.x64]].

Definition broker_history (tp : TopicPartition) (_ : string) : list ConsumerRecord :=
  if decide (tp = tp0) then records else [].

Definition tick (w : Broker) : Broker := mkBroker (bk_clock w + 1) (bk_position w) (bk_isolation w).
Definition answer {A} (a : A) : K Broker A := λ w, (Ok a, tick w).

Definition poll_one (tp : TopicPartition) (w : Broker) : list ConsumerRecord * Z :=
  if decide (tp = tp0) then
    let p := bk_position w in
    if p =? 0 then ([record_at 0 [Byte.x61]], 1)
    else if p =? 1 then ([record_at 1 [Byte.x62; Byte.x63]], 2)
    else if p =? 2 then ([], 3)
    else if p =? 3 then ([record_at 3 [Byte.x64]], 4)
    else ([], p)
  else ([], bk_position w).

Definition all_partitions (l : list TopicPartition) (v : Z) : gmap TopicPartition Z :=
  list_to_map ((λ tp, (tp, v)) <$> l).

#[local] Instance broker_sdk : KafkaSDK Broker := {|
  sdk_connect := λ _ iso w, (Ok (), mkBroker (bk_clock w) (bk_position w) iso);
  sdk_close := answer ();
  sdk_assign := λ _, answer ();
  sdk_seek := λ _ p w, (Ok (), mkBroker (bk_clock w) p (bk_isolation w));
  sdk_poll := λ tp _ w,
    (Ok (poll_one tp w).1, mkBroker (bk_clock w + 1) (poll_one tp w).2 (bk_isolation w));
  sdk_position := λ _ w, (Ok (bk_position w), tick w);
  sdk_beginning_offsets := λ l, answer (all_partitions l 0);
  sdk_end_offsets := λ l, answer (all_partitions l 4);
  sdk_partitions_for_topic := λ _, answer [0];
  sdk_offsets_for_times := λ l _, answer ∅;
  sdk_committed := λ _, answer (Some 1);
  sdk_commit := λ _, answer ();
  sdk_admin_connect := answer ();
  sdk_describe_cluster := answer (Some "cluster");
  sdk_admin_close := answer ();
  monotonic := λ w, (Ok (bk_clock w), tick w);
  sleep := λ d w, (Ok (), mkBroker (bk_clock w + Z.max 0 d) (bk_position w) (bk_isolation w));
|}.

Definition no_cancel : K Broker unit := answer ().

Ltac broker := intros; simpl in *; simplify_eq; simpl; repeat split; simpl; try done; try lia.

#[local] Instance broker_laws : SDKLog Broker no_cancel.
Proof.
  refine {| sdk_history := broker_history; fetch_position := λ w _, bk_position w;
            consumer_isolation := bk_isolation; clock := bk_clock |}; try solve [broker].
  - intros tp iso. unfold broker_history. case_decide; [|constructor].
    unfold records. repeat constructor; simpl; lia.
  - intros tp iso. unfold broker_history. case_decide as E; [|constructor]. by repeat constructor.
  - intros tp p w. split; [done|]. by intros w' [= <-].
  - intros tp n w rs w' E. simpl in E. injection E as <- <-. simpl.
    unfold poll_one, broker_history. destruct (decide (tp = tp0)); [|by simpl].
    destruct (Z.eqb_spec (bk_position w) 0) as [->|]; [by vm_compute|].
    destruct (Z.eqb_spec (bk_position w) 1) as [->|]; [by vm_compute|].
    destruct (Z.eqb_spec (bk_position w) 2) as [->|]; [by vm_compute|].
    destruct (Z.eqb_spec (bk_position w) 3) as [->|]; [by vm_compute|].
    split; [simpl; lia|]. symmetry. apply list_filter_none. intros r _. simpl. lia.
Defined.

(** ** The gateway on it *)

Definition settings0 : KafkaRuntimeSettings := mkSettings 1000 30000 30000 3 16777216 10000.

#[local] Instance gateway0 : KafkaGateway Broker := KafkaPythonGateway settings0 no_cancel.
#[local] Instance log0 : KafkaLog Broker := gateway_log no_cancel settings0 eq_refl.

Definition broker0 : Broker := mkBroker 0 0 "".

Definition limits0 : ReadLimits := mkLimits (Some 10) None 2 1000 100.

Definition fingerprint0 (ms : list RawMessage) : string := pretty (zlen ms).

Definition uuid0 : K Broker string := answer "read-1".

Definition planned : outcome kafka_exn ReadPlan * Broker :=
  PlanKafkaRead no_cancel uuid0 "orders" "group" limits0 None "earliest" "earliest" None None
    "read_committed" None broker0.

Definition plan0 : ReadPlan :=
  mkPlan "read-1" "orders" "group" [mkRange tp0 0 4] limits0 "read_committed" (Some "cluster") None.

Example planned_is_plan0 : planned.1 = Ok plan0.
Proof. by vm_compute. Qed.

Definition message_of (r : ConsumerRecord) : RawMessage := to_message r.

(** The first batch of two, the second with the rest; the control record is skipped. *)
Example first_chunk_of_two :
  match read_chunk no_cancel fingerprint0 plan0 (first_cursor plan0) 0 broker0 with
  | (Ok (ms, r), _) => rm_offset <$> ms = [0; 1] ∧ rc_stop_reason (cr_cursor r) = None
  | _ => False
  end.
Proof. by vm_compute. Qed.

Example whole_graph :
  match run_graph no_cancel fingerprint0 (λ ms, Ok (rm_offset <$> ms)) (λ _, answer ()) (answer ())
          plan0 (slot_count plan0) (new_reader, broker0) with
  | (Ok frames, (rd, _)) => concat frames = [0; 1; 3] ∧ rd_published rd = true ∧
      (λ s, (rs_messages_read s, po_next_offset <$> rs_partitions s)) <$> rd_publications rd
      = [(Some 3, [4])]
  | _ => False
  end.
Proof. by vm_compute. Qed.

(** ** The theorems on these runs *)

Lemma limits0_ok : limits_ok limits0.
Proof. split_and!; simpl; try lia; by intros n [= <-]. Qed.

Lemma plan0_ok : plan_ok plan0.
Proof.
  split; simpl; [apply limits0_ok| |apply NoDup_singleton]. repeat constructor; simpl; lia.
Qed.

Lemma cursor0_ok : cursor_ok plan0 (first_cursor plan0).
Proof. exact (sf_cursor _ _ _ _ _ (so_far_start plan0 plan0_ok)). Qed.

Definition chunk0 := read_chunk no_cancel fingerprint0 plan0 (first_cursor plan0) 0 broker0.

Lemma chunk_delivers_exactly_witness :
  match chunk0 with
  | (Ok (ms, receipt), _) =>
      rm_offset <$> ms = [0; 1] ∧
      advances plan0 (rc_positions (first_cursor plan0)) ms (rc_positions (cr_cursor receipt))
  | _ => False
  end.
Proof.
  pose proof (chunk_delivers_exactly no_cancel fingerprint0 plan0 (first_cursor plan0) 0 broker0
                plan0_ok cursor0_ok) as H.
  unfold chunk0. destruct (read_chunk _ _ _ _ _ _) as [[[ms r]|e] w] eqn:E; [|by vm_compute in E].
  split; [|apply H]. vm_compute in E. injection E as <- _ _. done.
Defined.

Lemma chunk_replay_roundtrip_witness :
  match chunk0 with
  | (Ok (ms, receipt), _) => (replay_chunk no_cancel fingerprint0 plan0 receipt broker0).1 = Ok (ms, receipt)
  | _ => False
  end.
Proof.
  unfold chunk0. destruct (read_chunk _ _ _ _ _ _) as [[[ms r]|e] w] eqn:E; [|by vm_compute in E].
  pose proof (chunk_replay_roundtrip no_cancel fingerprint0 plan0 (first_cursor plan0) 0 broker0 ms r w
                broker0 plan0_ok cursor0_ok E) as H.
  vm_compute in E. injection E as <- <- _.
  destruct (replay_chunk _ _ _ _ _) as [[res|e] w'] eqn:Er; [simpl; by rewrite H|by vm_compute in Er].
Defined.

Lemma planned_ranges_are_valid_witness :
  plan_ok plan0 ∧ pl_limits plan0 = limits0 ∧
  StronglySorted Z.le ((tp_partition ∘ or_tp) <$> pl_ranges plan0).
Proof.
  pose proof planned_is_plan0 as H. destruct planned as [r w] eqn:E. cbn [fst] in H. subst r.
  destruct (planned_ranges_are_valid no_cancel uuid0 "orders" "group" limits0 None "earliest" "earliest"
              None None "read_committed" None broker0 plan0 w limits0_ok E) as (H1 & H2 & _ & H4 & _).
  done.
Defined.

Definition graph0 := run_graph no_cancel fingerprint0 (λ ms, Ok (rm_offset <$> ms)) (λ _, answer ())
  (answer ()) plan0 (slot_count plan0) (new_reader, broker0).

Lemma full_read_is_exact_witness :
  match graph0 with
  | (Ok frames, (rd, _)) => concat frames = [0; 1; 3] ∧
      ∃ chunks c s, frames_of (λ ms, Ok (rm_offset <$> ms)) plan0 chunks frames ∧ rd_publications rd = [s] ∧
        advances plan0 (rc_positions (first_cursor plan0)) (concat chunks) (rc_positions c) ∧
        stopped_at plan0 (concat chunks) c ∧ summary_describes plan0 (concat chunks) c s
  | _ => False
  end.
Proof.
  pose proof (full_read_is_exact no_cancel fingerprint0 (λ ms, Ok (rm_offset <$> ms)) (λ _, answer ())
                (answer ()) plan0 plan0_ok broker0) as H.
  unfold graph0. destruct (run_graph _ _ _ _ _ _ _ _) as [[frames|e] [rd w]] eqn:E; [|by vm_compute in E].
  destruct H as (_ & _ & chunks & c & s & H1 & H2 & _ & H4 & H5 & H6). split; [|exists chunks, c, s; exact (conj H1 (conj H2 (conj H4 (conj H5 H6))))].
  vm_compute in E. injection E as <- _ _. done.
Defined.

Lemma gateway_read_keeps_contract_witness :
  match read settings0 no_cancel (mkRange tp0 1 4) "read_committed" 2 None None 1000 100 broker0 with
  | (Ok b, _) => rm_offset <$> rb_messages b = [1; 3] ∧
      rb_messages b = segment (message_log no_cancel tp0 "read_committed") 1 (rb_next_position b)
  | _ => False
  end.
Proof.
  pose proof (gateway_read_keeps_contract no_cancel settings0 (mkRange tp0 1 4) "read_committed" 2 None None
                1000 100 broker0 eq_refl ltac:(simpl; lia)) as H.
  destruct (read _ _ _ _ _ _ _ _ _ _) as [[b|e] w] eqn:E; [|by vm_compute in E].
  split; [vm_compute in E; by injection E as <- _|]. by destruct H.
Defined.

(** ** Commits, on a broker that keeps offsets *)

(** The offsets of all groups, and the group of the open consumer. *)
Record Offsets := mkOffsets { of_group : string → TopicPartition → option Z; of_consumer : option string }.

Definition set_offsets (g : string) (ps : list (TopicPartition * Z)) (w : Offsets) : Offsets :=
  mkOffsets (λ g' tp, if decide (g' = g) then
      match list_find (λ x, x.1 = tp) ps with Some (_, x) => Some x.2 | None => of_group w g' tp end
    else of_group w g' tp) (of_consumer w).

#[local] Instance offsets_sdk : KafkaSDK Offsets := {|
  sdk_connect := λ g _ w, (Ok (), mkOffsets (of_group w) g);
  sdk_close := mret ();
  sdk_assign := λ _, mret ();
  sdk_seek := λ _ _, mret ();
  sdk_poll := λ _ _, mret [];
  sdk_position := λ _, mret 0;
  sdk_beginning_offsets := λ l, mret (all_partitions l 0);
  sdk_end_offsets := λ l, mret (all_partitions l 100);
  sdk_partitions_for_topic := λ _, mret [1; 0];
  sdk_offsets_for_times := λ _ _, mret ∅;
  sdk_committed := λ tp w, (Ok (match of_consumer w with Some g => of_group w g tp | None => None end), w);
  sdk_commit := λ ps w, (Ok (), match of_consumer w with Some g => set_offsets g ps w | None => w end);
  sdk_admin_connect := mret ();
  sdk_describe_cluster := mret (Some "cluster");
  sdk_admin_close := mret ();
  monotonic := mret 0;
  sleep := λ _, mret ();
|}.

Definition go_on : K Offsets unit := mret ().

#[local] Instance offsets_group : SDKGroup Offsets go_on "group".
Proof.
  refine {| group_offsets := λ w, of_group w "group"; consumer_group := of_consumer |}; try (by intros).
  - intros g iso w w' [= <-]. done.
  - intros tp w o w' Hg [= <- <-]. by rewrite Hg.
  - intros ps w. simpl. by destruct (of_consumer w) eqn:E; simpl; rewrite ?E.
  - intros ps w tp Hg. simpl. rewrite Hg. simpl.
    destruct (list_find _ ps) as [[i [tp' p]]|] eqn:E; [right|by left].
    apply list_find_Some in E as (Hi & <- & _). exists p. split; [|done]. by eapply list_elem_of_lookup_2.
  - intros ps w w' tp p Hg Hnd E Hin. simpl in E. rewrite Hg in E. injection E as <-. simpl.
    destruct (list_find _ ps) as [[i [tp' p']]|] eqn:E.
    + apply list_find_Some in E as (Hi & Etp & _). simpl in Etp. subst tp'.
      apply list_elem_of_lookup in Hin as [j Hj]. assert (i = j) as ->; [|by simplify_eq].
      eapply (NoDup_lookup _ _ _ tp Hnd); rewrite list_lookup_fmap; by rewrite ?Hi, ?Hj.
    + apply list_find_None in E. rewrite Forall_forall in E. by destruct (E _ Hin).
Defined.

Definition offsets0 : Offsets := mkOffsets (λ g tp, if decide (g = "group") then
  (if decide (tp = mkTP "orders" 1) then Some 7 else None) else None) None.

(** Partition 0 moves forward to 4; partition 1 is already ahead of 5 and stays at 7. *)
Definition summary0 : ReadSummary :=
  mkSummary "orders" "group" [mkPO 0 4 None None None None; mkPO 1 5 None None None None] None None None
    "read_committed" None None None.

Definition committed0 : outcome kafka_exn CommitResult * Offsets :=
  CommitKafkaOffsets (gw := KafkaPythonGateway settings0 go_on) go_on summary0 offsets0.

Lemma commit_is_monotone_witness :
  of_group committed0.2 "group" (mkTP "orders" 0) = Some 4 ∧ of_group committed0.2 "group" (mkTP "orders" 1) = Some 7 ∧
  (∀ tp, offset_le (of_group offsets0 "group" tp) (of_group committed0.2 "group" tp)).
Proof.
  destruct (commit_is_monotone go_on settings0 summary0 offsets0) as [Hmono Hok].
  fold committed0 in Hmono, Hok. assert (is_ok committed0.1 = true) as Hr by (vm_compute; reflexivity).
  destruct committed0 as [[res|e] w'] eqn:E; [|discriminate Hr].
  split_and!; [exact (Hok res eq_refl (mkTP "orders" 0))|exact (Hok res eq_refl (mkTP "orders" 1))|exact Hmono].
Defined.
End KafkaRuns.
