(* ===== verification/CacheKeys.v ===== *)
(** Pipeline cache: index keys and dataframe keys, from
    [src/modules/pipeline_cache/domain/keys.py] and [dataframe_cache.py].

    An index key is a prefix of the fields of its class, written as its segments joined by a
    separator. Python's [str.join] and [str.split] are modelled with separators of any length, and
    [int] and [str] on integers with their syntax; a text is a string of ASCII characters. The
    theorems say that a key is read back as it was written, and that the textual prefix test of
    the stores is the prefix relation of segments, for segments that avoid the characters of the
    separator. *)
From Stdlib Require Import Ascii.
From S2P Require Import Prelude.

#[global] Open Scope Z_scope.

(** ** Python strings *)

Abbreviation chars := String.list_ascii_of_string.

(** [str(n)]: the decimal digits of [n], with a sign when it is negative. *)
Definition digit_char (d : Z) : Ascii.ascii := Ascii.ascii_of_N (48 + Z.to_N d).

Fixpoint dec_digits (fuel : nat) (n : Z) (acc : string) : string :=
  match fuel with
  | O => acc
  | S fuel =>
      let acc := String (digit_char (n mod 10)) acc in
      if n / 10 =? 0 then acc else dec_digits fuel (n / 10) acc
  end.

Definition str_of_nonneg (n : Z) : string := dec_digits (S (Z.to_nat n)) n "".

Definition str_of_int (n : Z) : string :=
  if n <? 0 then "-" +:+ str_of_nonneg (- n) else str_of_nonneg n.

(** [int(s)]: blanks around, an optional sign, digits with single underscores between them.
    [None] is [ValueError]. *)
Definition is_blank (c : Ascii.ascii) : bool :=
  let k := char_code c in ((9 <=? k) && (k <=? 13)) || ((28 <=? k) && (k <=? 32)).

Definition is_digit (c : Ascii.ascii) : bool := (48 <=? char_code c) && (char_code c <=? 57).

Fixpoint drop_blanks (s : string) : string :=
  match s with String c s' => if is_blank c then drop_blanks s' else s | _ => s end.

(** Reads digits; [last] tells whether the previous character was a digit. *)
Fixpoint int_digits (s : string) (acc : Z) (last : bool) : option Z :=
  match s with
  | EmptyString => if last then Some acc else None
  | String c s' =>
      if is_digit c then int_digits s' (acc * 10 + (char_code c - 48)) true
      else if (char_code c =? 95) && last then
        match s' with
        | String c' _ => if is_digit c' then int_digits s' acc false else None
        | EmptyString => None
        end
      else if is_blank c && last && String.eqb (drop_blanks s') "" then Some acc
      else None
  end.

Definition int_of_str (s : string) : option Z :=
  match drop_blanks s with
  | String "-"%char s' => Z.opp <$> int_digits s' 0 false
  | String "+"%char s' => int_digits s' 0 false
  | s' => int_digits s' 0 false
  end.

(** ** Facts about [join] and [split] *)

(** No character of [s] occurs in [sep]. *)
Definition avoids (sep s : string) : bool :=
  forallb (λ c, negb (existsb (Ascii.eqb c) (chars sep))) (chars s).

Lemma startswith_spec p s : startswith p s = true ↔ ∃ t, s = p +:+ t.
Proof.
  unfold startswith. revert s; induction p as [|c p IH]; intros s; simpl.
  { split; [eauto|by destruct s]. }
  destruct s as [|c' s]; simpl.
  { split; [done|]. by intros [t ?]. }
  setoid_rewrite app_cons_str. destruct (Ascii.ascii_dec c c') as [->|Hne].
  - rewrite IH. split; intros [t Ht]; exists t; congruence.
  - split; [done|]. intros [t [= ? ?]]; congruence.
Qed.

Lemma avoids_char sep c s :
  avoids sep (String c s) = true → startswith sep (String c s) = false ∨ sep = "".
Proof.
  unfold avoids; simpl. intros [Hc _]%andb_true_iff.
  destruct sep as [|c' sep]; [by right|left]. simpl in *.
  destruct (Ascii.ascii_dec c' c) as [->|]; [|done].
  by rewrite Ascii.eqb_refl in Hc.
Qed.

Section split_join.
Context (sep : string) (Hsep : sep ≠ "").

Lemma startswith_avoids c s t :
  avoids sep (String c s) = true → startswith sep (String c s +:+ t) = false.
Proof.
  intros Ha. unfold avoids in Ha; simpl in Ha. apply andb_true_iff in Ha as [Hc _].
  destruct sep as [|c' sep']; [done|]. simpl in *.
  destruct (Ascii.ascii_dec c' c) as [->|]; [|done]. by rewrite Ascii.eqb_refl in Hc.
Qed.

Lemma avoids_tail c s : avoids sep (String c s) = true → avoids sep s = true.
Proof. unfold avoids; simpl. by intros [_ ?]%andb_true_iff. Qed.

Lemma split_go_skip u t cur : split_go sep (u +:+ t) (String.length u) cur = split_go sep t 0 cur.
Proof. induction u as [|c u IH]; simpl; [by destruct t|done]. Qed.

Lemma split_go_last s cur : avoids sep s = true → split_go sep s 0 cur = [cur +:+ s].
Proof.
  revert cur; induction s as [|c s IH]; intros cur Ha; [by simpl; rewrite app_nil_str|].
  cbn [split_go]. pose proof (startswith_avoids c s "" Ha) as Hs. rewrite app_nil_str in Hs.
  rewrite Hs, IH by eauto using avoids_tail. by rewrite app_assoc_str.
Qed.

Lemma split_go_seg s t cur :
  avoids sep s = true → split_go sep (s +:+ sep +:+ t) 0 cur = (cur +:+ s) :: split_go sep t 0 "".
Proof.
  revert cur; induction s as [|c s IH]; intros cur Ha.
  - change ("" +:+ sep +:+ t) with (sep +:+ t). rewrite app_nil_str.
    destruct sep as [|c' sep'] eqn:E; [done|].
    assert (startswith (String c' sep') (String c' sep' +:+ t) = true) as Hs
      by (apply startswith_spec; eauto).
    change (String c' sep' +:+ t) with (String c' (sep' +:+ t)) in *. cbn [split_go].
    rewrite Hs. f_equal. cbn [String.length]. rewrite Nat.sub_1_r. cbn [Nat.pred].
    rewrite <-E. apply split_go_skip.
  - pose proof (startswith_avoids c s (sep +:+ t) Ha) as Hs.
    change (String c s +:+ sep +:+ t) with (String c (s +:+ sep +:+ t)) in *. cbn [split_go].
    rewrite Hs, IH by eauto using avoids_tail. by rewrite app_assoc_str.
Qed.

Lemma join_cons s segs : segs ≠ [] → py_join sep (s :: segs) = s +:+ sep +:+ py_join sep segs.
Proof. by destruct segs. Qed.

Lemma join_app segs segs' :
  segs ≠ [] → segs' ≠ [] → py_join sep (segs ++ segs') = py_join sep segs +:+ sep +:+ py_join sep segs'.
Proof.
  intros Hne Hne'. induction segs as [|s segs IH]; [done|].
  destruct segs as [|s' segs]; [by rewrite <-join_cons|].
  rewrite <-app_comm_cons, !join_cons, IH by done. by rewrite !app_assoc_str.
Qed.

(** Splitting a joined text that goes on after a separator. *)
Lemma split_join_app segs t :
  segs ≠ [] → Forall (λ s, avoids sep s = true) segs →
  py_split sep (py_join sep segs +:+ sep +:+ t) = segs ++ py_split sep t.
Proof.
  intros Hne Ha. induction Ha as [|s segs Hs Ha IH]; [done|]. unfold py_split in *.
  destruct segs as [|s' segs]; [by apply split_go_seg|].
  rewrite join_cons, !app_assoc_str, split_go_seg by done. f_equal. by rewrite IH.
Qed.

Lemma split_join segs :
  segs ≠ [] → Forall (λ s, avoids sep s = true) segs → py_split sep (py_join sep segs) = segs.
Proof.
  intros Hne Ha. destruct segs as [|s segs _] using rev_ind; [done|].
  apply Forall_app in Ha as [Ha [Hs _]%Forall_cons].
  destruct segs as [|s' segs]; [by apply split_go_last|].
  rewrite join_app, split_join_app by done. f_equal. by apply split_go_last.
Qed.

Lemma split_go_ne s k cur : split_go sep s k cur ≠ [].
Proof.
  revert k cur; induction s as [|c s IH]; intros k cur; cbn [split_go]; [done|].
  destruct k; [|done]. by destruct (startswith sep (String c s)).
Qed.

(** The textual prefix test of the stores is the proper prefix relation of segments. *)
Lemma join_prefix_iff segs segs' :
  segs ≠ [] → segs' ≠ [] →
  Forall (λ s, avoids sep s = true) segs → Forall (λ s, avoids sep s = true) segs' →
  startswith (py_join sep segs +:+ sep) (py_join sep segs') = true ↔
  ∃ rest, rest ≠ [] ∧ segs' = segs ++ rest.
Proof.
  intros Hne Hne' Ha Ha'. rewrite startswith_spec. split.
  - intros [t Ht]. exists (py_split sep t). split; [apply split_go_ne|].
    rewrite <-split_join_app, <-app_assoc_str, <-Ht by done. by rewrite split_join.
  - intros (rest & Hr & ->). exists (py_join sep rest). by rewrite join_app, app_assoc_str.
Qed.

Lemma join_inj segs segs' :
  segs ≠ [] → segs' ≠ [] →
  Forall (λ s, avoids sep s = true) segs → Forall (λ s, avoids sep s = true) segs' →
  py_join sep segs = py_join sep segs' → segs = segs'.
Proof. intros ???? E. rewrite <-(split_join segs), E by done. by apply split_join. Qed.
End split_join.

(** ** Facts about [int] and [str] *)

Lemma digit_char_code d : 0 ≤ d < 10 → char_code (digit_char d) = 48 + d.
Proof.
  intros. unfold char_code, digit_char. rewrite Ascii.N_ascii_embedding; lia.
Qed.

Lemma int_digits_step d s acc last :
  0 ≤ d < 10 → int_digits (String (digit_char d) s) acc last = int_digits s (acc * 10 + d) true.
Proof.
  intros. cbn [int_digits]. unfold is_digit. rewrite digit_char_code by done.
  rewrite (proj2 (Z.leb_le 48 (48 + d))), (proj2 (Z.leb_le (48 + d) 57)) by lia. cbn [andb].
  f_equal; lia.
Qed.

Lemma int_digits_dec fuel n acc :
  0 ≤ n < Z.of_nat fuel → int_digits (dec_digits fuel n acc) 0 false = int_digits acc n true.
Proof.
  revert n acc; induction fuel as [|fuel IH]; intros n acc Hn; [lia|]. cbn [dec_digits].
  pose proof (Z.mod_pos_bound n 10 ltac:(lia)). pose proof (Z.div_mod n 10 ltac:(lia)).
  destruct (Z.eqb_spec (n / 10) 0) as [E|E].
  - rewrite int_digits_step by done. f_equal; lia.
  - assert (0 ≤ n / 10) by (apply Z.div_pos; lia).
    rewrite IH by lia. rewrite int_digits_step by done. f_equal; lia.
Qed.

Lemma dec_digits_head fuel n acc :
  fuel ≠ O → 0 ≤ n → ∃ d s, 0 ≤ d < 10 ∧ dec_digits fuel n acc = String (digit_char d) s.
Proof.
  revert n acc; induction fuel as [|fuel IH]; intros n acc Hf Hn; [done|]. cbn [dec_digits].
  pose proof (Z.mod_pos_bound n 10 ltac:(lia)).
  destruct (Z.eqb_spec (n / 10) 0); [eauto|].
  destruct fuel as [|fuel]; [cbn [dec_digits]; eauto|]. apply IH; [done|]. apply Z.div_pos; lia.
Qed.

Lemma digit_not_special d c :
  0 ≤ d < 10 → is_digit c = false → digit_char d ≠ c.
Proof.
  intros Hd Hc <-. unfold is_digit in Hc. rewrite digit_char_code in Hc by done.
  rewrite (proj2 (Z.leb_le _ _)), (proj2 (Z.leb_le _ _)) in Hc by lia. done.
Qed.

Lemma int_of_digits d s :
  0 ≤ d < 10 → int_of_str (String (digit_char d) s) = int_digits (String (digit_char d) s) 0 false.
Proof.
  intros Hd. unfold int_of_str. cbn [drop_blanks].
  assert (is_blank (digit_char d) = false) as ->.
  { unfold is_blank. rewrite digit_char_code by done. repeat (case_match || done); lia. }
  pose proof (digit_not_special d "-"%char Hd eq_refl). pose proof (digit_not_special d "+"%char Hd eq_refl).
  destruct (digit_char d) as [[] [] [] [] [] [] [] []]; done.
Qed.

Lemma int_of_str_of_int n : int_of_str (str_of_int n) = Some n.
Proof.
  unfold str_of_int, str_of_nonneg. destruct (Z.ltb_spec n 0).
  - change (Z.opp <$> int_digits (dec_digits (S (Z.to_nat (- n))) (- n) "") 0 false = Some n).
    rewrite int_digits_dec by lia. simpl. f_equal; lia.
  - destruct (dec_digits_head (S (Z.to_nat n)) n "") as (d & s & Hd & E); [done..|].
    pose proof (int_digits_dec (S (Z.to_nat n)) n "" ltac:(lia)) as H'. rewrite E in *.
    by rewrite int_of_digits.
Qed.

(** ** Class names *)

Definition is_upper (c : Ascii.ascii) : bool := (65 <=? char_code c) && (char_code c <=? 90).
Definition is_lower (c : Ascii.ascii) : bool := (97 <=? char_code c) && (char_code c <=? 122).

(** [re.sub("(.)([A-Z][a-z]+)", ...)], left to right: [inside] while the lower-case letters of a
    match are copied. *)
Fixpoint snake_words (l : list Ascii.ascii) (inside : bool) : list Ascii.ascii :=
  match l with
  | [] => []
  | c :: l1 =>
      if inside && is_lower c then c :: snake_words l1 true
      else match l1 with
           | u :: ((x :: _) as l2) =>
               if negb (char_code c =? 10) && is_upper u && is_lower x
               then c :: "_"%char :: u :: snake_words l2 true
               else c :: snake_words l1 false
           | _ => c :: snake_words l1 false
           end
  end.

(** [re.sub("([a-z0-9])([A-Z])", ...)] *)
Fixpoint snake_humps (l : list Ascii.ascii) : list Ascii.ascii :=
  match l with
  | [] => []
  | c :: l1 =>
      match l1 with
      | u :: l2 =>
          if (is_lower c || is_digit c) && is_upper u then c :: "_"%char :: u :: snake_humps l2
          else c :: snake_humps l1
      | [] => [c]
      end
  end.

Definition camel_to_snake (name : string) : string :=
  py_lower (String.string_of_list_ascii (snake_humps (snake_words (chars name) false))).

(** ** Index keys *)

Inductive cache_exn :=
  | InvalidIndexKeyError (message : string)
  | CacheValueError (message : string)
  | CacheIndexError
  | DataFrameCacheCorruptionError (message : string)
  | DataFrameMetadataNotFoundError (message : string)
  | DataFramePartitionNotFoundError (message : string)
  | JSONDataNotFoundError (message : string)
  | CacheTypeError (message : string)
  | CacheRuntimeError (message : string)
  | StoreError (message : string)    (* whatever the store or the codec raises *)
  | CacheOutOfFuel.                  (* the model's fuel is spent; never a Python exception *)

#[global] Instance cache_exn_eq_dec : EqDecision cache_exn.
Proof. solve_decision. Defined.

(** The annotations that the key classes use: [str], [int], [bool], [None] and their unions. *)
Inductive FieldType :=
  | TStr
  | TInt
  | TBool
  | TNone
  | TUnion (args : list FieldType).

Inductive KeyValue :=
  | KStr (s : string)
  | KInt (n : Z)
  | KBool (b : bool).

#[global] Instance KeyValue_eq_dec : EqDecision KeyValue.
Proof. solve_decision. Defined.

(** A subclass of [IndexKeyBase]: its name and its fields, those of its bases first. *)
Record KeyClass := { cls_name : string; cls_fields : list (string * FieldType) }.

(** An instance: one optional value per field. *)
Record IndexKey := { key_cls : KeyClass; key_values : list (option KeyValue) }.

Definition opt_type (t : FieldType) : FieldType := TUnion [t; TNone].

Definition CommonNodeKey : KeyClass :=
  {| cls_name := "CommonNodeKey"; cls_fields := [("project_id", opt_type TStr); ("node_id", opt_type TStr)] |}.

Definition CommonOutputKey : KeyClass :=
  {| cls_name := "CommonOutputKey"; cls_fields := cls_fields CommonNodeKey ++ [("output_name", opt_type TStr)] |}.

Definition MetaKey : KeyClass :=
  {| cls_name := "MetaKey"; cls_fields := cls_fields CommonNodeKey ++ [("meta_key_id", opt_type TStr)] |}.

Definition DDFMetaKey : KeyClass := {| cls_name := "DDFMetaKey"; cls_fields := cls_fields CommonOutputKey |}.

Definition PDFKey : KeyClass :=
  {| cls_name := "PDFKey"; cls_fields := cls_fields CommonOutputKey ++ [("part_no", opt_type TInt)] |}.

Definition JSONKey : KeyClass := {| cls_name := "JSONKey"; cls_fields := cls_fields CommonOutputKey |}.

(** The loop of [to_segments] over the fields and their values. *)
Fixpoint collect_segments (ensure_full seen_none : bool) (names : list string)
    (values : list (option KeyValue)) : outcome cache_exn (list KeyValue) :=
  match names, values with
  | name :: names, None :: values =>
      if ensure_full then Raise (InvalidIndexKeyError "Field is None but full key required")
      else collect_segments ensure_full true names values
  | name :: names, Some v :: values =>
      if seen_none then Raise (InvalidIndexKeyError "Field set after None (gapped prefix)")
      else segs ← collect_segments ensure_full seen_none names values; mret (v :: segs)
  | _, _ => Ok []
  end.

Definition to_segments (ensure_full : bool) (k : IndexKey) : outcome cache_exn (list KeyValue) :=
  segs ← collect_segments ensure_full false (cls_fields (key_cls k)).*1 (key_values k);
  match segs with
  | [] => Raise (InvalidIndexKeyError "At least the first field must be provided")
  | _ => Ok (KStr (camel_to_snake (cls_name (key_cls k))) :: segs)
  end.

(** [str(segment)] of a primitive value. *)
Definition str_of_value (v : KeyValue) : string :=
  match v with
  | KStr s => s
  | KInt n => str_of_int n
  | KBool b => if b then "True" else "False"
  end.

Definition to_string_segments (ensure_full : bool) (k : IndexKey) : outcome cache_exn (list string) :=
  segs ← to_segments ensure_full k; Ok (map str_of_value segs).

Definition to_str (sep : string) (ensure_full : bool) (k : IndexKey) : outcome cache_exn string :=
  segs ← to_string_segments ensure_full k; Ok (py_join sep segs).

(** [_parse_segment]: [Ok None] is the Python value [None]. *)
Fixpoint _parse_segment (segment : string) (t : FieldType) : outcome cache_exn (option KeyValue) :=
  match t with
  | TStr => Ok (Some (KStr segment))
  | TInt => match int_of_str segment with
            | Some n => Ok (Some (KInt n))
            | None => Raise (CacheValueError "invalid literal for int()")
            end
  | TBool => Ok (Some (KBool (bool_decide (py_lower segment ∈ ["true"; "1"; "yes"; "on"]))))
  | TNone => Ok None
  | TUnion args =>
      (fix try_args args := match args with
       | [] => Raise (InvalidIndexKeyError "Cannot parse segment")
       | TNone :: args => try_args args
       | arg :: args =>
           match _parse_segment segment arg with
           | Raise (CacheValueError _) | Raise (CacheTypeError _) => try_args args
           | r => r
           end
       end) args
  end.

Fixpoint parse_segments (segments : list string) (types : list FieldType) :
    outcome cache_exn (list (option KeyValue)) :=
  match segments, types with
  | seg :: segments, t :: types =>
      v ← _parse_segment seg t; vs ← parse_segments segments types; mret (v :: vs)
  | _, _ => Ok []
  end.

Definition index_key_from_str (cls : KeyClass) (key_str sep : string) : outcome cache_exn IndexKey :=
  match py_split sep key_str with
  | [] => Raise CacheIndexError
  | key_name :: segments =>
      if negb (String.eqb (camel_to_snake (cls_name cls)) key_name)
      then Raise (InvalidIndexKeyError "Key class and key name not match") else
      let types := (cls_fields cls).*2 in
      if (length types <? length segments)%nat
      then Raise (InvalidIndexKeyError "Too many segments in key string") else
      vs ← parse_segments segments types;
      mret {| key_cls := cls;
              key_values := vs ++ replicate (length types - length segments) None |}
  end.

(** ** Keys of the generation-backed dataframe cache *)

Definition dataframe_partition_key (project_id node_id output_name generation_id : string) (part_no : Z) : string :=
  "df:" +:+ project_id +:+ ":" +:+ node_id +:+ ":" +:+ output_name +:+ ":" +:+ generation_id +:+
  ":part:" +:+ str_of_int part_no.

Definition dataframe_manifest_key (project_id node_id output_name generation_id : string) : string :=
  "df:" +:+ project_id +:+ ":" +:+ node_id +:+ ":" +:+ output_name +:+ ":" +:+ generation_id +:+ ":manifest".

Definition dataframe_snapshot_key (project_id node_id generation_id : string) : string :=
  "df:" +:+ project_id +:+ ":" +:+ node_id +:+ ":" +:+ generation_id +:+ ":snapshot".

Definition dataframe_active_key (project_id node_id : string) : string :=
  "df:" +:+ project_id +:+ ":" +:+ node_id +:+ ":active".

(** ** Index keys are read back as they were written *)

(** A value of the type that an annotation [t | None] promises. *)
Definition typed (t : FieldType) (v : KeyValue) : bool :=
  match t, v with
  | TUnion [TStr; TNone], KStr _ | TUnion [TInt; TNone], KInt _ | TUnion [TBool; TNone], KBool _ => true
  | _, _ => false
  end.

Definition key_wf (k : IndexKey) : bool :=
  bool_decide (length (key_values k) = length (cls_fields (key_cls k))) &&
  forallb (λ '(t, v), match v with Some v => typed t v | None => true end)
    (zip (cls_fields (key_cls k)).*2 (key_values k)).

(** The values that are set come first and there is at least one. *)
Definition is_prefix_key (k : IndexKey) : Prop :=
  ∃ vs, vs ≠ [] ∧
        key_values k = (Some <$> vs) ++ replicate (length (key_values k) - length vs) None.

Lemma collect_all_none names values segs :
  length names = length values → collect_segments false true names values = Ok segs →
  segs = [] ∧ values = replicate (length values) None.
Proof.
  revert values; induction names as [|name names IH]; intros [|[v|] values] Hl; simplify_eq/=; try done.
  { by intros [= <-]. }
  intros [-> ->]%IH; [|done]. by rewrite length_replicate.
Qed.

Lemma collect_segments_ok full names values segs :
  length names = length values → collect_segments full false names values = Ok segs →
  values = (Some <$> segs) ++ replicate (length values - length segs) None ∧
  (full = true → length segs = length values).
Proof.
  revert values segs; induction names as [|name names IH]; intros [|[v|] values] segs Hl; simplify_eq/=; try done.
  - by intros [= <-].
  - destruct (collect_segments full false names values) as [segs'|] eqn:E; [|done].
    intros [= <-]. destruct (IH values segs' Hl E) as [Hv Hf]. simpl. split; [|auto with f_equal]. by f_equal.
  - destruct full; [done|]. intros [-> Hv]%collect_all_none; [|done]. simpl. split; [by f_equal|done].
Qed.

Lemma collect_prefix names segs n :
  length names = (length segs + n)%nat →
  collect_segments false false names ((Some <$> segs) ++ replicate n None) = Ok segs.
Proof.
  revert names; induction segs as [|v segs IH]; intros names Hl; simpl in *.
  - assert (∀ names b, collect_segments false b names (replicate n None) = Ok []) as H'; [|done].
    clear. induction n as [|n IH]; intros [|name names] b; simpl; auto.
  - destruct names as [|name names]; simplify_eq/=. by rewrite IH.
Qed.

Lemma parse_typed t v : typed t v = true → _parse_segment (str_of_value v) t = Ok (Some v).
Proof.
  destruct t as [| | | |[|[] [|[] [|]]]], v as [s|n|b]; simpl; try done.
  - by rewrite int_of_str_of_int.
  - by destruct b.
Qed.

Lemma parse_segments_typed types vs :
  (length vs ≤ length types)%nat →
  Forall (λ tv, typed tv.1 tv.2 = true) (zip types vs) →
  parse_segments (str_of_value <$> vs) types = Ok (Some <$> vs).
Proof.
  revert types; induction vs as [|v vs IH]; intros [|t types] Hl HF; simpl in *; try done || lia.
  apply Forall_cons in HF as [Ht HF]. cbn in Ht. rewrite parse_typed by done. simpl. by rewrite IH by (done || lia).
Qed.

Lemma key_wf_typed k vs n :
  key_wf k = true → key_values k = (Some <$> vs) ++ replicate n None →
  Forall (λ tv, typed tv.1 tv.2 = true) (zip (cls_fields (key_cls k)).*2 vs).
Proof.
  intros [_ HF]%andb_true_iff E. rewrite E in HF. clear E. revert HF.
  generalize ((cls_fields (key_cls k)).*2). induction vs as [|v vs IH]; intros [|t types]; simpl; auto.
  intros [Ht HF]%andb_true_iff. constructor; auto.
Qed.

Lemma key_wf_length k : key_wf k = true → length (key_values k) = length (cls_fields (key_cls k)).
Proof. intros [Hl _]%andb_true_iff. by apply bool_decide_eq_true in Hl. Qed.

Lemma to_segments_ok full k segs :
  key_wf k = true → to_segments full k = Ok segs →
  ∃ vs, vs ≠ [] ∧ segs = KStr (camel_to_snake (cls_name (key_cls k))) :: vs ∧
        key_values k = (Some <$> vs) ++ replicate (length (key_values k) - length vs) None ∧
        (full = true → length vs = length (key_values k)).
Proof.
  intros Hwf Hs. pose proof (key_wf_length k Hwf) as Hl. unfold to_segments in Hs.
  destruct (collect_segments _ _ _ _) as [vs|] eqn:E; [|done]. simpl in Hs.
  apply collect_segments_ok in E as [Hv Hf]; [|by rewrite length_fmap].
  destruct vs as [|v vs]; [done|]. injection Hs as <-. by exists (v :: vs).
Qed.

Lemma to_segments_prefix k :
  key_wf k = true → is_prefix_key k → is_ok (to_segments false k) = true.
Proof.
  intros Hl%key_wf_length (vs & Hne & E). unfold to_segments. rewrite E.
  rewrite collect_prefix; [by destruct vs|]. rewrite length_fmap.
  pose proof (f_equal length E) as El. rewrite length_app, length_fmap, length_replicate in El. lia.
Qed.

(** Well-formed keys that are prefixes are exactly those that can be written, and a written key is
    read back by its class when no segment contains a character of the separator. *)
Theorem index_key_roundtrip sep full k :
  sep ≠ "" → key_wf k = true →
  (is_ok (to_str sep false k) = true ↔ is_prefix_key k) ∧
  (∀ segs s, to_string_segments full k = Ok segs → to_str sep full k = Ok s →
     Forall (λ seg, avoids sep seg = true) segs →
     index_key_from_str (key_cls k) s sep = Ok k).
Proof.
  intros Hsep Hwf. split.
  - unfold to_str, to_string_segments. split.
    + destruct (to_segments false k) as [segs|] eqn:E; [|done]. intros ?.
      apply to_segments_ok in E as (vs & Hne & _ & E & _); [|done]. by exists vs.
    + intros Hp%to_segments_prefix; [|done]. by destruct (to_segments false k).
  - intros segs s. unfold to_str. intros Hs E Ha. rewrite Hs in E. simpl in E. injection E as <-.
    unfold to_string_segments in Hs. destruct (to_segments full k) as [segs'|] eqn:E; [|done].
    injection Hs as <-. apply to_segments_ok in E as (vs & Hne & -> & E & _); [|done].
    unfold index_key_from_str. rewrite split_join by done. cbn [map]. rewrite String.eqb_refl. cbn [negb].
    pose proof (f_equal length E) as El. rewrite length_app, length_fmap, length_replicate in El.
    pose proof (key_wf_length k Hwf) as Hl.
    rewrite !length_map. destruct (Nat.ltb_spec (length (cls_fields (key_cls k))) (length vs)); [lia|].
    rewrite parse_segments_typed; [|by rewrite length_fmap; lia|by eapply key_wf_typed].
    simpl. rewrite <-Hl, <-E. by destruct k.
Qed.

(** Two keys written as the same text have the same segments. *)
Lemma to_str_inj sep full k k' segs segs' s :
  sep ≠ "" → key_wf k = true → key_wf k' = true →
  to_string_segments full k = Ok segs → to_string_segments full k' = Ok segs' →
  Forall (λ seg, avoids sep seg = true) segs → Forall (λ seg, avoids sep seg = true) segs' →
  to_str sep full k = Ok s → to_str sep full k' = Ok s → segs = segs'.
Proof.
  intros Hsep Hwf Hwf' Hs Hs' Ha Ha' E E'. unfold to_str in *. rewrite Hs in E. rewrite Hs' in E'.
  simpl in *. assert (py_join sep segs = py_join sep segs') as Ej by congruence.
  unfold to_string_segments in *.
  destruct (to_segments full k) as [l|] eqn:El; [|done]. destruct (to_segments full k') as [l'|] eqn:El'; [|done].
  apply to_segments_ok in El as (vs & _ & -> & _); [|done].
  apply to_segments_ok in El' as (vs' & _ & -> & _); [|done].
  simpl in *. simplify_eq. by eapply join_inj in Ej.
Qed.

(** ** Dataframe keys *)

Section dataframe_keys.
Implicit Types project_id node_id output_name generation_id : string.

Lemma dataframe_partition_key_join p n o g i :
  dataframe_partition_key p n o g i = py_join ":" ["df"; p; n; o; g; "part"; str_of_int i].
Proof. reflexivity. Qed.

Lemma dataframe_manifest_key_join p n o g :
  dataframe_manifest_key p n o g = py_join ":" ["df"; p; n; o; g; "manifest"].
Proof. reflexivity. Qed.

Lemma dataframe_snapshot_key_join p n g : dataframe_snapshot_key p n g = py_join ":" ["df"; p; n; g; "snapshot"].
Proof. reflexivity. Qed.

Lemma dataframe_active_key_join p n : dataframe_active_key p n = py_join ":" ["df"; p; n; "active"].
Proof. reflexivity. Qed.
End dataframe_keys.

(** An identifier that can be a segment of a dataframe key. *)
Definition plain (s : string) : bool := avoids ":" s.

Lemma dec_digits_plain fuel n acc :
  plain acc = true → plain (dec_digits fuel n acc) = true.
Proof.
  revert n acc; induction fuel as [|fuel IH]; intros n acc Ha; simpl; [done|].
  assert (plain (String (digit_char (n mod 10)) acc) = true) as Hd.
  { pose proof (Z.mod_pos_bound n 10 ltac:(lia)) as Hm.
    pose proof (digit_not_special (n mod 10) ":"%char Hm eq_refl) as Hc.
    unfold plain, avoids in *. apply Ascii.eqb_neq in Hc. apply andb_true_iff. split; [|exact Ha].
    cbn [chars existsb]. by rewrite Hc. }
  destruct (n / 10 =? 0); auto.
Qed.

Lemma str_of_int_plain n : plain (str_of_int n) = true.
Proof.
  unfold str_of_int. destruct (n <? 0); [|by apply dec_digits_plain].
  change (plain ("-" +:+ str_of_nonneg (- n))) with (true && plain (str_of_nonneg (- n))).
  by apply dec_digits_plain.
Qed.

Lemma str_of_int_inj n m : str_of_int n = str_of_int m → n = m.
Proof. intros E. pose proof (int_of_str_of_int n) as H. rewrite E, int_of_str_of_int in H. congruence. Qed.
