(* ===== verification/CacheStore.v ===== *)
(** Pipeline cache: the stores, from [src/modules/pipeline_cache/domain/policies.py],
    [infra/repositories/in_memory_blob_store.py] and [in_memory_index_store.py].

    [BlobStore] is the protocol of [domain/repositories.py] with its laws: what a store promises to
    its clients is stated on [live], the payloads that can be read at a time. [InMemoryBlobStore]
    implements it; its lock makes every method atomic, so a method is a function on the records.
    Clocks are read by the caller of a method and handed to it ([time.monotonic()]); a method that
    reads the clock twice takes two readings. Every observation sorts the keys of the dictionary of
    records, or does not depend on their order, so the dictionary is a finite map. *)
From S2P Require Import Prelude CacheKeys.

(** Payloads are byte strings. *)
Abbreviation bytes := string.

(** ** Policies *)

Definition resolve_ttl (ttl_lifetime : option Z) (default_ttl : Z) : outcome cache_exn Z :=
  if default_ttl <=? 0 then Raise (CacheValueError "default_ttl must be greater than zero")
  else match ttl_lifetime with
       | None => Ok default_ttl
       | Some t => if t <=? 0 then Ok default_ttl else Ok t
       end.

Fixpoint dedupe_loop (seen : gset string) (result : list string) (values : list string) : list string :=
  match values with
  | [] => result
  | v :: values => if decide (v ∈ seen) then dedupe_loop seen result values
                   else dedupe_loop ({[v]} ∪ seen) (result ++ [v]) values
  end.

Definition dedupe_preserve_order (values : list string) : list string := dedupe_loop ∅ [] values.

Lemma resolve_ttl_pos ttl d t : resolve_ttl ttl d = Ok t → 0 < t.
Proof.
  unfold resolve_ttl. destruct (Z.leb_spec d 0); [done|].
  destruct ttl as [t'|]; [destruct (Z.leb_spec t' 0)|]; intros [= <-]; lia.
Qed.

Lemma dedupe_loop_spec seen result values :
  (∀ v, v ∈ seen ↔ v ∈ result) → NoDup result →
  NoDup (dedupe_loop seen result values) ∧
  (∀ v, v ∈ dedupe_loop seen result values ↔ v ∈ result ∨ v ∈ values) ∧
  result `prefix_of` dedupe_loop seen result values.
Proof.
  revert seen result; induction values as [|v values IH]; intros seen result Hs Hnd; cbn [dedupe_loop].
  { split_and!; [done|set_solver|done]. }
  case_decide as Hv.
  - destruct (IH seen result Hs Hnd) as (H1 & H2 & H3). split_and!; [done| |done].
    intros v'. rewrite H2, elem_of_cons. apply Hs in Hv. naive_solver.
  - destruct (IH ({[v]} ∪ seen) (result ++ [v])) as (H1 & H2 & H3).
    + intros v'. rewrite elem_of_union, elem_of_app, Hs. set_solver.
    + apply NoDup_app. split_and!; [done| |apply NoDup_singleton]. rewrite Hs in Hv. set_solver.
    + split_and!; [done| |].
      * intros v'. rewrite H2. set_solver.
      * etrans; [|done]. by exists [v].
Qed.

Lemma dedupe_spec values :
  NoDup (dedupe_preserve_order values) ∧ ∀ v, v ∈ dedupe_preserve_order values ↔ v ∈ values.
Proof.
  destruct (dedupe_loop_spec ∅ [] values) as (H1 & H2 & _); [set_solver|constructor|].
  split; [done|]. intros v. rewrite H2. set_solver.
Qed.

(** [sorted(records)], the keys of a dictionary in order. *)
Definition sorted_keys {A} (m : gmap string A) : list string := merge_sort str_le (map_to_list m).*1.

Lemma elem_of_sorted_keys {A} (m : gmap string A) k : k ∈ sorted_keys m ↔ is_Some (m !! k).
Proof.
  unfold sorted_keys. rewrite merge_sort_elem, list_elem_of_fmap. split.
  - intros ([k' x] & -> & Hx%elem_of_map_to_list). eauto.
  - intros [x Hx]. exists (k, x). by rewrite elem_of_map_to_list.
Qed.

Lemma sorted_keys_StronglySorted {A} (m : gmap string A) : StronglySorted str_le (sorted_keys m).
Proof. apply (StronglySorted_merge_sort str_le). Qed.

Lemma sorted_keys_NoDup {A} (m : gmap string A) : NoDup (sorted_keys m).
Proof. unfold sorted_keys. rewrite merge_sort_Permutation. apply NoDup_fst_map_to_list. Qed.

Lemma sorted_keys_fmap {A B} (f : A → B) (m : gmap string A) : sorted_keys (f <$> m) = sorted_keys m.
Proof.
  apply (StronglySorted_unique str_le); [apply sorted_keys_StronglySorted..|].
  apply NoDup_Permutation; [apply sorted_keys_NoDup..|].
  intros k. by rewrite !elem_of_sorted_keys, lookup_fmap, fmap_is_Some.
Qed.

(** ** The protocol of blob stores *)

Class BlobStore (S : Type) := {
  blob_put : Z → string → bytes → option Z → S → outcome cache_exn unit * S;
  blob_get : Z → string → S → outcome cache_exn (option bytes) * S;
  blob_cas : Z → Z → string → option bytes → bytes → option Z → S → outcome cache_exn bool * S;
  blob_get_many : Z → list string → S → outcome cache_exn (list (option bytes)) * S;
  blob_has : Z → string → S → outcome cache_exn bool * S;
  blob_has_many : Z → list string → S → outcome cache_exn bool * S;
  blob_keys : Z → string → S → outcome cache_exn (list string) * S;
  blob_remove : Z → list string → S → outcome cache_exn unit * S;
  blob_clear : S → outcome cache_exn unit * S;
}.

(** What can be read of [s'] from [now] on is what can be read of [s]. *)
Definition same_from {S} (live : Z → S → gmap string bytes) (now : Z) (s s' : S) : Prop :=
  ∀ t, now ≤ t → live t s' = live t s.

(** [s'] is [s] with [payload] readable at [k] during [ttl] seconds. *)
Definition written {S} (live : Z → S → gmap string bytes) (now : Z) (k : string) (payload : bytes)
    (ttl : Z) (s s' : S) : Prop :=
  ∀ t, now ≤ t →
    live t s' = if decide (t < now + ttl) then <[k := payload]> (live t s) else delete k (live t s).

Class BlobStoreLaws (S : Type) `{!BlobStore S} := {
  live : Z → S → gmap string bytes;
  store_ttl : S → Z;   (* the default lifetime, which no method changes *)
  live_antitone s t t' : t ≤ t' → live t' s ⊆ live t s;
  blob_put_ok now k p ttl t s :
    resolve_ttl ttl (store_ttl s) = Ok t →
    ∃ s', blob_put now k p ttl s = (Ok tt, s') ∧ written live now k p t s s' ∧ store_ttl s' = store_ttl s;
  blob_get_ok now k s :
    ∃ s', blob_get now k s = (Ok (live now s !! k), s') ∧ same_from live now s s' ∧ store_ttl s' = store_ttl s;
  blob_cas_ok now now' k expected p ttl t s :
    now ≤ now' → resolve_ttl ttl (store_ttl s) = Ok t →
    ∃ s', store_ttl s' = store_ttl s ∧
      if decide (live now s !! k = expected)
      then blob_cas now now' k expected p ttl s = (Ok true, s') ∧ written live now' k p t s s'
      else blob_cas now now' k expected p ttl s = (Ok false, s') ∧ same_from live now s s';
  blob_get_many_ok now ks s :
    ∃ s', blob_get_many now ks s = (Ok ((λ k, live now s !! k) <$> ks), s') ∧
          same_from live now s s' ∧ store_ttl s' = store_ttl s;
  blob_has_many_ok now ks s :
    ∃ s', blob_has_many now ks s = (Ok (bool_decide (Forall (λ k, is_Some (live now s !! k)) ks)), s') ∧
          same_from live now s s' ∧ store_ttl s' = store_ttl s;
  blob_keys_ok now prefix s :
    ∃ s', blob_keys now prefix s =
            (Ok (filter (λ k, startswith prefix k = true) (sorted_keys (live now s))), s') ∧
          same_from live now s s' ∧ store_ttl s' = store_ttl s;
  blob_remove_ok now ks s :
    ∃ s', blob_remove now ks s = (Ok tt, s') ∧ store_ttl s' = store_ttl s ∧
      ∀ t k, now ≤ t → live t s' !! k = if decide (k ∈ ks) then None else live t s !! k;
  blob_has_ok now k s :
    ∃ s', blob_has now k s = (Ok (bool_decide (is_Some (live now s !! k))), s') ∧
          same_from live now s s' ∧ store_ttl s' = store_ttl s;
  blob_clear_ok s :
    ∃ s', blob_clear s = (Ok tt, s') ∧ store_ttl s' = store_ttl s ∧ ∀ t, live t s' = ∅;
  blob_ttl_error now now' k expected p ttl e s :
    resolve_ttl ttl (store_ttl s) = Raise e →
    blob_put now k p ttl s = (Raise e, s) ∧ blob_cas now now' k expected p ttl s = (Raise e, s);
}.

(** ** The in-memory blob store *)

Record MemoryRecord := { rec_value : bytes; expires_at : Z }.

Record InMemoryBlobStore := { mb_default_ttl : Z; mb_records : gmap string MemoryRecord }.

Definition set_records (s : InMemoryBlobStore) (m : gmap string MemoryRecord) : InMemoryBlobStore :=
  {| mb_default_ttl := mb_default_ttl s; mb_records := m |}.

(** The records that [_purge_expired] keeps at [now]. *)
Definition fresh (now : Z) (kr : string * MemoryRecord) : Prop := now < expires_at kr.2.
#[global] Instance fresh_dec now kr : Decision (fresh now kr).
Proof. unfold fresh. apply _. Defined.

Definition purge (now : Z) (m : gmap string MemoryRecord) : gmap string MemoryRecord :=
  filter (fresh now) m.

Definition _purge_expired (now : Z) (s : InMemoryBlobStore) : InMemoryBlobStore :=
  set_records s (purge now (mb_records s)).

Module MemoryBlob.
Definition put (now : Z) (key : string) (payload : bytes) (ttl : option Z) (s : InMemoryBlobStore) :
    outcome cache_exn unit * InMemoryBlobStore :=
  match resolve_ttl ttl (mb_default_ttl s) with
  | Raise e => (Raise e, s)
  | Ok t => (Ok tt, set_records s (<[key := {| rec_value := payload; expires_at := now + t |}]> (mb_records s)))
  end.

Definition get (now : Z) (key : string) (s : InMemoryBlobStore) :
    outcome cache_exn (option bytes) * InMemoryBlobStore :=
  let s := _purge_expired now s in
  (Ok (rec_value <$> mb_records s !! key), s).

Definition compare_and_set (now now' : Z) (key : string) (expected : option bytes) (payload : bytes)
    (ttl : option Z) (s : InMemoryBlobStore) : outcome cache_exn bool * InMemoryBlobStore :=
  match resolve_ttl ttl (mb_default_ttl s) with
  | Raise e => (Raise e, s)
  | Ok t =>
      let s := _purge_expired now s in
      let current := rec_value <$> mb_records s !! key in
      if decide (current = expected)
      then (Ok true, set_records s (<[key := {| rec_value := payload; expires_at := now' + t |}]> (mb_records s)))
      else (Ok false, s)
  end.

Definition get_many (now : Z) (keys : list string) (s : InMemoryBlobStore) :
    outcome cache_exn (list (option bytes)) * InMemoryBlobStore :=
  let s := _purge_expired now s in
  (Ok ((λ key, rec_value <$> mb_records s !! key) <$> keys), s).

Definition has (now : Z) (key : string) (s : InMemoryBlobStore) : outcome cache_exn bool * InMemoryBlobStore :=
  let s := _purge_expired now s in
  (Ok (bool_decide (is_Some (mb_records s !! key))), s).

Definition has_many (now : Z) (keys : list string) (s : InMemoryBlobStore) :
    outcome cache_exn bool * InMemoryBlobStore :=
  let s := _purge_expired now s in
  (Ok (forallb (λ key, bool_decide (is_Some (mb_records s !! key))) keys), s).

Definition keys (now : Z) (prefix : string) (s : InMemoryBlobStore) :
    outcome cache_exn (list string) * InMemoryBlobStore :=
  let s := _purge_expired now s in
  (Ok (filter (λ key, startswith prefix key = true) (sorted_keys (mb_records s))), s).

Definition remove (now : Z) (keys : list string) (s : InMemoryBlobStore) :
    outcome cache_exn unit * InMemoryBlobStore :=
  let s := _purge_expired now s in
  (Ok tt, set_records s (foldl (λ m key, delete key m) (mb_records s) keys)).

Definition clear (s : InMemoryBlobStore) : outcome cache_exn unit * InMemoryBlobStore :=
  (Ok tt, set_records s ∅).
End MemoryBlob.

#[global] Instance InMemoryBlobStore_ops : BlobStore InMemoryBlobStore := {
  blob_put := MemoryBlob.put;
  blob_get := MemoryBlob.get;
  blob_cas := MemoryBlob.compare_and_set;
  blob_get_many := MemoryBlob.get_many;
  blob_has := MemoryBlob.has;
  blob_has_many := MemoryBlob.has_many;
  blob_keys := MemoryBlob.keys;
  blob_remove := MemoryBlob.remove;
  blob_clear := MemoryBlob.clear;
}.

(** ** The in-memory store keeps the protocol *)

Lemma purge_lookup now m k :
  purge now m !! k = r ← m !! k; if decide (now < expires_at r) then Some r else None.
Proof.
  unfold purge. rewrite map_lookup_filter. destruct (m !! k) as [r|]; simpl; [|done].
  unfold fresh; simpl. by case_guard as H; case_decide.
Qed.

Lemma purge_purge now t m : now ≤ t → purge t (purge now m) = purge t m.
Proof.
  intros. apply map_eq. intros k. rewrite !purge_lookup. destruct (m !! k) as [r|]; simpl; [|done].
  repeat case_decide; simpl; repeat case_decide; done || lia.
Qed.

Lemma purge_insert t k r m :
  purge t (<[k := r]> m) = if decide (t < expires_at r) then <[k := r]> (purge t m) else delete k (purge t m).
Proof.
  apply map_eq. intros k'. rewrite purge_lookup. destruct (decide (k = k')) as [->|Hne].
  - rewrite lookup_insert_eq. simpl. case_decide; by rewrite ?lookup_insert_eq, ?lookup_delete_eq.
  - rewrite lookup_insert_ne by done.
    case_decide; rewrite ?lookup_insert_ne, ?lookup_delete_ne by done; by rewrite purge_lookup.
Qed.

Lemma lookup_foldl_delete {A} (ks : list string) (m : gmap string A) k :
  foldl (λ m key, delete key m) m ks !! k = if decide (k ∈ ks) then None else m !! k.
Proof.
  revert m; induction ks as [|k' ks IH]; intros m; cbn [foldl]; [done|].
  rewrite IH. destruct (decide (k = k')) as [->|Hne].
  - rewrite lookup_delete_eq. repeat case_decide; set_solver.
  - rewrite lookup_delete_ne by done. repeat case_decide; set_solver.
Qed.

Definition mem_live (t : Z) (s : InMemoryBlobStore) : gmap string bytes := rec_value <$> purge t (mb_records s).

Lemma mem_live_lookup t s k : mem_live t s !! k = rec_value <$> purge t (mb_records s) !! k.
Proof. unfold mem_live. by rewrite lookup_fmap. Qed.

Lemma mem_live_purge now s : same_from mem_live now s (_purge_expired now s).
Proof. intros t Ht. unfold mem_live; simpl. by rewrite purge_purge. Qed.

Lemma mem_live_insert now k p t s :
  written mem_live now k p t s (set_records s (<[k := {| rec_value := p; expires_at := now + t |}]> (mb_records s))).
Proof.
  intros t' _. unfold mem_live; simpl. rewrite purge_insert; simpl.
  case_decide; by rewrite ?fmap_insert, ?fmap_delete.
Qed.

#[global] Program Instance InMemoryBlobStore_laws : BlobStoreLaws InMemoryBlobStore := {|
  live := mem_live;
  store_ttl := mb_default_ttl;
|}.
Next Obligation.
  intros s t t' Ht. apply map_subseteq_spec. intros k p. rewrite !mem_live_lookup, !purge_lookup.
  destruct (mb_records s !! k) as [r|]; simpl; [|done]. repeat case_decide; done || lia.
Qed.
Next Obligation.
  intros now k p ttl t s E. simpl. unfold MemoryBlob.put. rewrite E. eexists. split; [done|].
  split; [apply mem_live_insert|done].
Qed.
Next Obligation.
  intros now k s. eexists. split; [by simpl; unfold MemoryBlob.get; rewrite mem_live_lookup|].
  split; [apply mem_live_purge|done].
Qed.
Next Obligation.
  intros now now' k expected p ttl t s Hn E. simpl. unfold MemoryBlob.compare_and_set. rewrite E.
  change (rec_value <$> mb_records (_purge_expired now s) !! k) with (rec_value <$> purge now (mb_records s) !! k).
  rewrite mem_live_lookup. case_decide; (eexists; split; [|split; [done|]]); [done| |done|apply mem_live_purge].
  intros t' Ht'. rewrite mem_live_insert by done. rewrite (mem_live_purge now) by lia. done.
Qed.
Next Obligation.
  intros now ks s. eexists. split; [|split; [apply mem_live_purge|done]].
  simpl. unfold MemoryBlob.get_many. do 2 f_equal. apply list_fmap_ext. intros _ k _. by rewrite mem_live_lookup.
Qed.
Next Obligation.
  intros now ks s. eexists. split; [|split; [apply mem_live_purge|done]].
  simpl. unfold MemoryBlob.has_many. do 2 f_equal. apply eq_true_iff_eq.
  rewrite forallb_forall, bool_decide_eq_true, Forall_forall.
  setoid_rewrite mem_live_lookup. setoid_rewrite fmap_is_Some. setoid_rewrite bool_decide_eq_true.
  by setoid_rewrite list_elem_of_In.
Qed.
Next Obligation.
  intros now prefix s. eexists. split; [|split; [apply mem_live_purge|done]].
  simpl. unfold MemoryBlob.keys, mem_live. by rewrite sorted_keys_fmap.
Qed.
Next Obligation.
  intros now ks s. eexists. split; [done|]. split; [done|]. intros t k Ht.
  rewrite !mem_live_lookup, !purge_lookup. simpl. rewrite lookup_foldl_delete, purge_lookup.
  case_decide; [done|]. destruct (mb_records s !! k) as [r|]; simpl; [|done].
  repeat (case_decide; simpl); done || lia.
Qed.
Next Obligation.
  intros now k s. eexists. split; [|split; [apply mem_live_purge|done]].
  simpl. unfold MemoryBlob.has. do 2 f_equal. apply bool_decide_ext. by rewrite mem_live_lookup, fmap_is_Some.
Qed.
Next Obligation.
  intros s. eexists. split; [done|]. split; [done|]. intros t. apply map_eq. intros k.
  by rewrite mem_live_lookup, purge_lookup.
Qed.
Next Obligation.
  intros now now' k expected p ttl e s E. simpl. unfold MemoryBlob.put, MemoryBlob.compare_and_set. by rewrite E.
Qed.

(** ** Stores agree with a reference that never forgets *)

(** One call of a method, with its arguments. *)
Inductive blob_op :=
  | OpPut (key : string) (payload : bytes) (ttl : option Z)
  | OpGet (key : string)
  | OpCompareAndSet (key : string) (expected : option bytes) (payload : bytes) (ttl : option Z)
  | OpGetMany (keys : list string)
  | OpHas (key : string)
  | OpHasMany (keys : list string)
  | OpKeys (prefix : string)
  | OpRemove (keys : list string)
  | OpClear.

Inductive blob_result :=
  | RUnit
  | RBool (b : bool)
  | RPayloads (ps : list (option bytes))
  | RKeys (ks : list string).

Definition observe {A S} (f : A → blob_result) (r : outcome cache_exn A * S) : outcome cache_exn blob_result * S :=
  (match r.1 with Ok a => Ok (f a) | Raise e => Raise e end, r.2).

(** The call at time [now]; [now'] is its second reading of the clock. *)
Definition blob_step {S} `{!BlobStore S} (now now' : Z) (op : blob_op) (s : S) :
    outcome cache_exn blob_result * S :=
  match op with
  | OpPut k p ttl => observe (λ _, RUnit) (blob_put now k p ttl s)
  | OpGet k => observe (λ p, RPayloads [p]) (blob_get now k s)
  | OpCompareAndSet k e p ttl => observe RBool (blob_cas now now' k e p ttl s)
  | OpGetMany ks => observe RPayloads (blob_get_many now ks s)
  | OpHas k => observe RBool (blob_has now k s)
  | OpHasMany ks => observe RBool (blob_has_many now ks s)
  | OpKeys prefix => observe RKeys (blob_keys now prefix s)
  | OpRemove ks => observe (λ _, RUnit) (blob_remove now ks s)
  | OpClear => observe (λ _, RUnit) (blob_clear s)
  end.

(** The reference: every payload ever written last to a key, with its deadline; reading at [t]
    sees the entries whose deadline is later. *)
Record RefStore := { ref_ttl : Z; ref_entries : gmap string (bytes * Z) }.

Definition ref_view (t : Z) (s : RefStore) : gmap string bytes :=
  omap (λ e, if decide (t < e.2) then Some e.1 else None) (ref_entries s).

Definition ref_write (now : Z) (k : string) (p : bytes) (t : Z) (s : RefStore) : RefStore :=
  {| ref_ttl := ref_ttl s; ref_entries := <[k := (p, now + t)]> (ref_entries s) |}.

Definition ref_step (now now' : Z) (op : blob_op) (s : RefStore) : outcome cache_exn blob_result * RefStore :=
  match op with
  | OpPut k p ttl =>
      match resolve_ttl ttl (ref_ttl s) with
      | Ok t => (Ok RUnit, ref_write now k p t s)
      | Raise e => (Raise e, s)
      end
  | OpGet k => (Ok (RPayloads [ref_view now s !! k]), s)
  | OpCompareAndSet k e p ttl =>
      match resolve_ttl ttl (ref_ttl s) with
      | Ok t => if decide (ref_view now s !! k = e) then (Ok (RBool true), ref_write now' k p t s)
                else (Ok (RBool false), s)
      | Raise e => (Raise e, s)
      end
  | OpGetMany ks => (Ok (RPayloads ((λ k, ref_view now s !! k) <$> ks)), s)
  | OpHas k => (Ok (RBool (bool_decide (is_Some (ref_view now s !! k)))), s)
  | OpHasMany ks => (Ok (RBool (bool_decide (Forall (λ k, is_Some (ref_view now s !! k)) ks))), s)
  | OpKeys prefix => (Ok (RKeys (filter (λ k, startswith prefix k = true) (sorted_keys (ref_view now s)))), s)
  | OpRemove ks =>
      (Ok RUnit, {| ref_ttl := ref_ttl s; ref_entries := foldl (λ m k, delete k m) (ref_entries s) ks |})
  | OpClear => (Ok RUnit, {| ref_ttl := ref_ttl s; ref_entries := ∅ |})
  end.

(** A sequence of calls, each with its clock readings. *)
Fixpoint run_calls {S} (step : Z → Z → blob_op → S → outcome cache_exn blob_result * S)
    (calls : list (Z * Z * blob_op)) (s : S) : list (outcome cache_exn blob_result) * S :=
  match calls with
  | [] => ([], s)
  | (now, now', op) :: calls =>
      let (r, s) := step now now' op s in
      let (rs, s) := run_calls step calls s in (r :: rs, s)
  end.

(** The clock never goes back. *)
Fixpoint clock_runs (from : Z) (calls : list (Z * Z * blob_op)) : Prop :=
  match calls with
  | [] => True
  | (now, now', _) :: calls => from ≤ now ∧ now ≤ now' ∧ clock_runs now' calls
  end.

Section reference.
Context {S : Type} `{!BlobStore S, !BlobStoreLaws S}.

Definition matches (from : Z) (s : S) (r : RefStore) : Prop :=
  store_ttl s = ref_ttl r ∧ ∀ t, from ≤ t → live t s = ref_view t r.

Lemma ref_view_write t now k p ttl r :
  ref_view t (ref_write now k p ttl r) =
  if decide (t < now + ttl) then <[k := p]> (ref_view t r) else delete k (ref_view t r).
Proof.
  unfold ref_view; simpl. apply map_eq. intros k'. rewrite lookup_omap.
  destruct (decide (k = k')) as [->|Hne].
  - rewrite lookup_insert_eq; simpl. case_decide; by rewrite ?lookup_insert_eq, ?lookup_delete_eq.
  - rewrite lookup_insert_ne by done.
    case_decide; rewrite ?lookup_insert_ne, ?lookup_delete_ne by done; by rewrite lookup_omap.
Qed.

Lemma ref_view_remove t r ks k :
  ref_view t {| ref_ttl := ref_ttl r; ref_entries := foldl (λ m k, delete k m) (ref_entries r) ks |} !! k =
  if decide (k ∈ ks) then None else ref_view t r !! k.
Proof. unfold ref_view; simpl. rewrite !lookup_omap, lookup_foldl_delete. by case_decide. Qed.

Lemma matches_read from now now' s s' r :
  from ≤ now → now ≤ now' → matches from s r → same_from live now s s' → store_ttl s' = store_ttl s →
  matches now' s' r.
Proof. intros ?? [Ht Hv] Hs E. split; [congruence|]. intros t ?. rewrite Hs by lia. apply Hv. lia. Qed.

Lemma matches_write from now s s' r k p ttl :
  from ≤ now → matches from s r → written live now k p ttl s s' → store_ttl s' = store_ttl s →
  matches now s' (ref_write now k p ttl r).
Proof.
  intros ? [Ht Hv] Hw E. split; [simpl; congruence|]. intros t ?.
  rewrite Hw by lia. rewrite ref_view_write, Hv by lia. done.
Qed.

Lemma matches_weaken from from' s r : from ≤ from' → matches from s r → matches from' s r.
Proof. intros ? [Ht Hv]. split; [done|]. intros. apply Hv. lia. Qed.

Lemma blob_step_matches from now now' op s r :
  from ≤ now → now ≤ now' → matches from s r →
  (blob_step now now' op s).1 = (ref_step now now' op r).1 ∧
  matches now' (blob_step now now' op s).2 (ref_step now now' op r).2.
Proof.
  intros Hf Hn Hm. pose proof Hm as [Ht Hv]. pose proof (Hv now Hf) as Hnow.
  destruct op as [k p ttl|k|k e p ttl|ks|k|ks|prefix|ks|]; cbn [blob_step ref_step].
  - rewrite <-Ht. destruct (resolve_ttl ttl (store_ttl s)) as [t|e] eqn:E.
    + destruct (blob_put_ok now k p ttl t s E) as (s' & -> & Hw & E'). split; [done|].
      apply (matches_weaken now); [done|]. by eapply matches_write.
    + destruct (blob_ttl_error now now' k None p ttl e s E) as [-> _]. split; [done|].
      apply (matches_weaken from); [lia|done].
  - destruct (blob_get_ok now k s) as (s' & -> & Hs & E). rewrite Hnow. split; [done|]. by apply (matches_read from now now' s).
  - rewrite <-Ht. destruct (resolve_ttl ttl (store_ttl s)) as [t|e'] eqn:E.
    + destruct (blob_cas_ok now now' k e p ttl t s Hn E) as (s' & E' & Hc). rewrite Hnow in Hc.
      case_decide; destruct Hc as [-> Hw]; (split; [done|]).
      * eapply (matches_write now'); [done| |done..]. apply (matches_weaken from); [lia|done].
      * by apply (matches_read from now now' s).
    + destruct (blob_ttl_error now now' k e p ttl e' s E) as [_ ->]. split; [done|].
      apply (matches_weaken from); [lia|done].
  - destruct (blob_get_many_ok now ks s) as (s' & -> & Hs & E). rewrite Hnow. split; [done|]. by apply (matches_read from now now' s).
  - destruct (blob_has_ok now k s) as (s' & -> & Hs & E). rewrite Hnow. split; [done|]. by apply (matches_read from now now' s).
  - destruct (blob_has_many_ok now ks s) as (s' & -> & Hs & E). rewrite Hnow. split; [done|]. by apply (matches_read from now now' s).
  - destruct (blob_keys_ok now prefix s) as (s' & -> & Hs & E). rewrite Hnow. split; [done|]. by apply (matches_read from now now' s).
  - destruct (blob_remove_ok now ks s) as (s' & -> & E & Hr). split; [done|]. split; [simpl; congruence|].
    intros t ?. apply map_eq. intros k. simpl. rewrite Hr, ref_view_remove, Hv by lia. done.
  - destruct (blob_clear_ok s) as (s' & -> & E & Hr). split; [done|]. split; [simpl; congruence|].
    intros t ?. simpl. by rewrite Hr.
Qed.

(** A lawful store answers every sequence of calls as the reference does: forgetting expired
    records never changes an answer. *)
Theorem blob_store_refines_reference from calls s r :
  clock_runs from calls → matches from s r →
  (run_calls blob_step calls s).1 = (run_calls ref_step calls r).1.
Proof.
  revert from s r; induction calls as [|[[now now'] op] calls IH]; intros from s r Hc Hm; [done|].
  destruct Hc as (H1 & H2 & Hc). destruct (blob_step_matches from now now' op s r H1 H2 Hm) as [Er Hm'].
  simpl. destruct (blob_step now now' op s) as [x s1], (ref_step now now' op r) as [y r1]. simpl in *.
  specialize (IH now' s1 r1 Hc Hm'). destruct (run_calls blob_step calls s1), (run_calls ref_step calls r1).
  simpl in *. by subst.
Qed.
End reference.
