(* ===== verification/CacheIndex.v ===== *)
(** Pipeline cache: the index store, from
    [src/modules/pipeline_cache/infra/repositories/in_memory_index_store.py].

    The store maps the text of a full key to a serialized value; a partial key stands for all the
    keys that extend it. The serializer is a parameter. The theorem says that the tests on texts
    select exactly the keys whose segments extend those of the partial key, so that looking up,
    or removing, one node never sees another whose name merely begins in the same way. *)
From S2P Require Import Prelude CacheKeys CacheStore.

(** The serializer and deserializer of the values of an index. *)
Class IndexCodec (V : Type) := {
  serializer : V → bytes;
  deserializer : bytes → outcome cache_exn V;
  deserialize_serialize v : deserializer (serializer v) = Ok v;
}.

Record InMemoryIndexStore := {
  mi_default_ttl : Z;
  mi_separator : string;
  mi_records : gmap string MemoryRecord;
}.

Definition set_index (s : InMemoryIndexStore) (m : gmap string MemoryRecord) : InMemoryIndexStore :=
  {| mi_default_ttl := mi_default_ttl s; mi_separator := mi_separator s; mi_records := m |}.

(** A loop that stops at the first exception. *)
Fixpoint traverse {A B} (f : A → outcome cache_exn B) (l : list A) : outcome cache_exn (list B) :=
  match l with
  | [] => Ok []
  | x :: l => y ← f x; ys ← traverse f l; mret (y :: ys)
  end.

Definition _is_full_key (k : IndexKey) : outcome cache_exn bool :=
  segments ← to_segments false k;
  mret (length segments - 1 =? length (cls_fields (key_cls k)))%nat.

Definition _prefix (sep : string) (k : IndexKey) : outcome cache_exn string :=
  full ← _is_full_key k; to_str sep full k.

(** [stored_key.partition(sep)[0] == camel_to_snake(key_type.__name__)] *)
Definition _matches_key_type (sep stored_key : string) (cls : KeyClass) : bool :=
  bool_decide (head (py_split sep stored_key) = Some (camel_to_snake (cls_name cls))).

(** The test that a stored key belongs to a full or partial key with text [prefix]. *)
Definition key_matches (sep prefix : string) (is_full : bool) (stored_key : string) : bool :=
  if is_full then String.eqb stored_key prefix else startswith (prefix +:+ sep) stored_key.

Module MemoryIndex.
Section ops.
Context {V : Type} `{!IndexCodec V}.

Definition _purge_expired (now : Z) (s : InMemoryIndexStore) : InMemoryIndexStore :=
  set_index s (purge now (mi_records s)).

Definition put (now : Z) (k : IndexKey) (value : V) (ttl : option Z) (s : InMemoryIndexStore) :
    outcome cache_exn unit * InMemoryIndexStore :=
  match resolve_ttl ttl (mi_default_ttl s) with
  | Raise e => (Raise e, s)
  | Ok t =>
      match to_str (mi_separator s) true k with
      | Raise e => (Raise e, s)
      | Ok key => (Ok tt, set_index s (<[key := {| rec_value := serializer value; expires_at := now + t |}]>
                                          (mi_records s)))
      end
  end.

Definition get (now : Z) (store_key : string) (s : InMemoryIndexStore) :
    outcome cache_exn (option V) * InMemoryIndexStore :=
  let s := _purge_expired now s in
  (match mi_records s !! store_key with
   | None => Ok None
   | Some r => v ← deserializer (rec_value r); mret (Some v)
   end, s).

Definition contains (now : Z) (k : IndexKey) (s : InMemoryIndexStore) :
    outcome cache_exn bool * InMemoryIndexStore :=
  let s := _purge_expired now s in
  (full ← _is_full_key k;
   if (full : bool) then key ← to_str (mi_separator s) true k; mret (bool_decide (is_Some (mi_records s !! key)))
   else prefix ← _prefix (mi_separator s) k;
        mret (existsb (key_matches (mi_separator s) prefix false) (sorted_keys (mi_records s))), s).

Definition query (now : Z) (k : IndexKey) (s : InMemoryIndexStore) :
    outcome cache_exn (list V) * InMemoryIndexStore :=
  let s := _purge_expired now s in
  (prefix ← _prefix (mi_separator s) k;
   full ← _is_full_key k;
   traverse (λ stored_key, match mi_records s !! stored_key with
                           | Some r => deserializer (rec_value r)
                           | None => Raise (CacheRuntimeError "KeyError")
                           end)
     (filter (λ key, key_matches (mi_separator s) prefix full key = true) (sorted_keys (mi_records s))), s).

Definition keys (now : Z) (cls : KeyClass) (s : InMemoryIndexStore) :
    outcome cache_exn (list IndexKey) * InMemoryIndexStore :=
  let s := _purge_expired now s in
  (traverse (λ key, index_key_from_str cls key (mi_separator s))
     (filter (λ key, _matches_key_type (mi_separator s) key cls = true) (sorted_keys (mi_records s))), s).

Definition remove (now : Z) (k : IndexKey) (s : InMemoryIndexStore) :
    outcome cache_exn unit * InMemoryIndexStore :=
  let s := _purge_expired now s in
  match _prefix (mi_separator s) k, _is_full_key k with
  | Raise e, _ | _, Raise e => (Raise e, s)
  | Ok prefix, Ok true => (Ok tt, set_index s (delete prefix (mi_records s)))
  | Ok prefix, Ok false =>
      let keys_to_delete :=
        filter (λ key, startswith (prefix +:+ mi_separator s) key = true) (sorted_keys (mi_records s)) in
      (Ok tt, set_index s (foldl (λ m key, delete key m) (mi_records s) keys_to_delete))
  end.

Definition clear (s : InMemoryIndexStore) : outcome cache_exn unit * InMemoryIndexStore :=
  (Ok tt, set_index s ∅).

(** The loop of [reindex]; entry [i] is put at the [i]-th reading of the clock. *)
Fixpoint reindex_loop (now : nat → Z) (i : nat) (entries : list (IndexKey * V)) (s : InMemoryIndexStore) :
    outcome cache_exn Z * InMemoryIndexStore :=
  match entries with
  | [] => (Ok (Z.of_nat i), s)
  | (k, v) :: entries =>
      match put (now i) k v None s with
      | (Raise e, s) => (Raise e, s)
      | (Ok _, s) => reindex_loop now (S i) entries s
      end
  end.

Definition reindex (now : nat → Z) (entries : list (IndexKey * V)) (clear_first : bool) (s : InMemoryIndexStore) :
    outcome cache_exn Z * InMemoryIndexStore :=
  reindex_loop now 0 entries (if clear_first then (clear s).2 else s).
End ops.
End MemoryIndex.

(** ** Keys that the store can tell apart *)

(** The segments of a well-formed key that avoid the separator. *)
Definition clean_key (sep : string) (k : IndexKey) : bool :=
  key_wf k &&
  match to_string_segments false k with
  | Ok segs => forallb (avoids sep) segs
  | Raise _ => false
  end.

(** The record of key [stored] belongs to the full or partial key [k]: its segments are those of
    [k], or extend them. *)
Definition covers (sep : string) (k : IndexKey) (stored : string) : Prop :=
  match to_string_segments false k with
  | Raise _ => False
  | Ok segs =>
      if decide (length segs = S (length (cls_fields (key_cls k))))
      then py_split sep stored = segs
      else segs `prefix_of` py_split sep stored ∧ segs ≠ py_split sep stored
  end.

#[global] Instance covers_dec sep k stored : Decision (covers sep k stored).
Proof. unfold covers. destruct (to_string_segments false k); [case_decide|]; apply _. Defined.

(** A stored text is the join of segments that avoid the separator. *)
Definition clean_text (sep text : string) : Prop :=
  ∃ segs, segs ≠ [] ∧ Forall (λ seg, avoids sep seg = true) segs ∧ text = py_join sep segs.

Definition index_live (t : Z) (s : InMemoryIndexStore) : gmap string bytes := rec_value <$> purge t (mi_records s).

(** The invariant of an index: every record lies under a clean key and holds a serialized value. *)
Definition index_wf {V} `{!IndexCodec V} (s : InMemoryIndexStore) : Prop :=
  mi_separator s ≠ "" ∧
  ∀ key r, mi_records s !! key = Some r →
    clean_text (mi_separator s) key ∧ ∃ v : V, rec_value r = serializer v.

Section exactness.
Context (sep : string) (Hsep : sep ≠ "").

Lemma forallb_Forall {A} (f : A → bool) l : forallb f l = true ↔ Forall (λ x, f x = true) l.
Proof. rewrite forallb_forall, Forall_forall. by setoid_rewrite list_elem_of_In. Qed.

Lemma clean_key_segments k :
  clean_key sep k = true →
  ∃ vs, vs ≠ [] ∧ to_segments false k = Ok (KStr (camel_to_snake (cls_name (key_cls k))) :: vs) ∧
    to_string_segments false k = Ok (camel_to_snake (cls_name (key_cls k)) :: map str_of_value vs) ∧
    Forall (λ seg, avoids sep seg = true) (camel_to_snake (cls_name (key_cls k)) :: map str_of_value vs) ∧
    key_values k = (Some <$> vs) ++ replicate (length (key_values k) - length vs) None.
Proof.
  unfold clean_key. intros [Hwf Hs]%andb_true_iff. unfold to_string_segments in *.
  destruct (to_segments false k) as [segs|] eqn:E; [|done].
  destruct (to_segments_ok false k segs Hwf E) as (vs & Hne & -> & Hv & _).
  simpl in Hs. apply (forallb_Forall (avoids sep) (_ :: map str_of_value vs)) in Hs. exists vs. auto.
Qed.

Lemma collect_full names vs :
  length names = length vs → collect_segments true false names (Some <$> vs) = Ok vs.
Proof.
  revert names; induction vs as [|v vs IH]; intros [|name names] ?; simplify_eq/=; [done|]. by rewrite IH.
Qed.

(** A key that is full is written in the same way with and without the check. *)
Lemma to_segments_full k vs :
  key_values k = Some <$> vs → vs ≠ [] → length vs = length (cls_fields (key_cls k)) →
  to_segments true k = Ok (KStr (camel_to_snake (cls_name (key_cls k))) :: vs).
Proof.
  intros E Hne Hl. unfold to_segments. rewrite E, collect_full by (by rewrite length_fmap).
  by destruct vs.
Qed.

(** How the store sees a clean key: whether it is full, and its text. *)
Lemma clean_key_prefix k :
  clean_key sep k = true →
  ∃ segs, segs ≠ [] ∧ to_string_segments false k = Ok segs ∧ Forall (λ seg, avoids sep seg = true) segs ∧
    _is_full_key k = Ok (bool_decide (length segs = S (length (cls_fields (key_cls k))))) ∧
    _prefix sep k = Ok (py_join sep segs) ∧
    (length segs = S (length (cls_fields (key_cls k))) → to_str sep true k = Ok (py_join sep segs)).
Proof.
  intros Hk. destruct (clean_key_segments k Hk) as (vs & Hne & Hs & Hss & Ha & Hv).
  assert (key_wf k = true) as Hwf by (by apply andb_true_iff in Hk as [? _]).
  pose proof (key_wf_length k Hwf) as Hl.
  set (name := camel_to_snake (cls_name (key_cls k))) in *.
  assert (_is_full_key k = Ok (bool_decide (length vs = length (cls_fields (key_cls k))))) as Hfull.
  { unfold _is_full_key. rewrite Hs. simpl. rewrite Nat.sub_0_r. unfold mret, outcome_ret. f_equal.
    apply eq_true_iff_eq. by rewrite Nat.eqb_eq, bool_decide_eq_true. }
  assert (length vs = length (cls_fields (key_cls k)) → to_str sep true k = Ok (py_join sep (name :: map str_of_value vs)))
    as Htrue.
  { intros El. unfold to_str, to_string_segments. rewrite (to_segments_full k vs); [done| |done|done].
    rewrite Hv, Hl, El, Nat.sub_diag. simpl. by rewrite app_nil_r. }
  exists (name :: map str_of_value vs). split; [done|]. split; [done|]. split; [done|].
  cbn [length]. rewrite length_map. split_and!.
  - rewrite Hfull. f_equal. apply bool_decide_ext. lia.
  - unfold _prefix. rewrite Hfull. simpl. case_bool_decide; [by apply Htrue|].
    unfold to_str. by rewrite Hss.
  - intros [= El]. by apply Htrue.
Qed.

(** The test on texts is the relation on segments. *)
Lemma key_matches_covers k segs stored :
  to_string_segments false k = Ok segs → segs ≠ [] → Forall (λ seg, avoids sep seg = true) segs →
  clean_text sep stored →
  key_matches sep (py_join sep segs) (bool_decide (length segs = S (length (cls_fields (key_cls k))))) stored = true ↔
  covers sep k stored.
Proof.
  intros Hs Hne Ha (segs' & Hne' & Ha' & ->). unfold covers, key_matches. rewrite Hs, split_join by done.
  case_bool_decide as El.
  - rewrite String.eqb_eq, decide_True by done. split; [|by intros ->].
    intros E. by apply (join_inj sep Hsep) in E.
  - rewrite join_prefix_iff, decide_False by done. split.
    + intros (rest & Hr & ->). split; [by exists rest|]. intros E. destruct rest; [done|].
      apply (f_equal length) in E. rewrite length_app in E. simpl in E. lia.
    + intros [[rest ->] Hn]. exists rest. split; [|done]. intros ->. by rewrite app_nil_r in Hn.
Qed.
End exactness.

Section index_theorems.
Context {V : Type} `{!IndexCodec V}.
Implicit Types (s : InMemoryIndexStore) (k : IndexKey).

Lemma purge_Some now m key r : purge now m !! key = Some r → m !! key = Some r.
Proof.
  rewrite purge_lookup. destruct (m !! key) as [r'|]; simpl; [|done]. case_decide; [|done]. by intros [= ->].
Qed.

Lemma index_live_Some t s key p :
  index_live t s !! key = Some p ↔ ∃ r, purge t (mi_records s) !! key = Some r ∧ rec_value r = p.
Proof. unfold index_live. rewrite lookup_fmap, fmap_Some. naive_solver. Qed.

(** What putting a clean full key does; the invariant is kept. *)
Lemma index_put_wf now k (v : V) ttl t key s :
  index_wf (V:=V) s → clean_key (mi_separator s) k = true →
  resolve_ttl ttl (mi_default_ttl s) = Ok t → to_str (mi_separator s) true k = Ok key →
  ∃ s', MemoryIndex.put now k v ttl s = (Ok tt, s') ∧ index_wf (V:=V) s' ∧
    ∀ t', index_live t' s' = if decide (t' < now + t) then <[key := serializer v]> (index_live t' s)
                             else delete key (index_live t' s).
Proof.
  intros [Hsep Hwf] Hk Ht Hkey. unfold MemoryIndex.put. rewrite Ht, Hkey. eexists. split; [done|]. split.
  - split; [done|]. intros key' r. simpl. intros [[<- <-]|[_ Hr]]%lookup_insert_Some; [|by apply Hwf].
    split; [|by exists v]. destruct (clean_key_prefix _ Hsep k Hk) as (segs & Hne & Hs & Ha & _ & _ & Hf).
    exists segs. split; [done|]. split; [done|].
    unfold to_str in Hkey. unfold to_string_segments in Hkey.
    destruct (to_segments true k) as [l|] eqn:E; [|done]. apply andb_true_iff in Hk as [Hwfk _].
    apply to_segments_ok in E as (vs & Hnv & -> & Hv & Hfull); [|done].
    simpl in Hkey. injection Hkey as <-.
    assert (to_string_segments false k = Ok (map str_of_value (KStr (camel_to_snake (cls_name (key_cls k))) :: vs))) as Hs'.
    { unfold to_string_segments, to_segments. rewrite Hv, collect_prefix; [by destruct vs|].
      pose proof (key_wf_length k Hwfk). rewrite length_fmap. specialize (Hfull eq_refl). lia. }
    rewrite Hs in Hs'. injection Hs' as ->. done.
  - intros t'. unfold index_live; simpl. rewrite purge_insert; simpl.
    case_decide; by rewrite ?fmap_insert, ?fmap_delete.
Qed.

Lemma traverse_deserialize now s keys :
  index_wf (V:=V) s → Forall (λ key, is_Some (purge now (mi_records s) !! key)) keys →
  ∃ vs : list V,
    traverse (λ key, match purge now (mi_records s) !! key with
                     | Some r => deserializer (rec_value r)
                     | None => Raise (CacheRuntimeError "KeyError")
                     end) keys = Ok vs ∧
    Forall2 (λ key v, index_live now s !! key = Some (serializer v)) keys vs.
Proof.
  intros [_ Hwf]. induction 1 as [|key keys [r Hr] _ (vs & IH & IH2)]; [by exists []|].
  destruct (Hwf key r) as [_ [v Hv]]; [by eapply purge_Some|]. exists (v :: vs). simpl.
  rewrite Hr, Hv, deserialize_serialize. simpl. rewrite IH. simpl. split; [done|].
  constructor; [|done]. apply index_live_Some. eauto.
Qed.

(** The live records that a clean key covers, as the methods select them. *)
Lemma covered_keys now k s segs :
  index_wf (V:=V) s → to_string_segments false k = Ok segs → segs ≠ [] →
  Forall (λ seg, avoids (mi_separator s) seg = true) segs →
  ∀ key, key ∈ filter (λ key, key_matches (mi_separator s) (py_join (mi_separator s) segs)
                         (bool_decide (length segs = S (length (cls_fields (key_cls k))))) key = true)
                 (sorted_keys (purge now (mi_records s))) ↔
         is_Some (index_live now s !! key) ∧ covers (mi_separator s) k key.
Proof.
  intros [Hsep Hwf] Hs Hne Ha key. rewrite list_elem_of_filter, elem_of_sorted_keys.
  unfold index_live. rewrite lookup_fmap, fmap_is_Some. split.
  - intros [Hm [r Hr]]. split; [eauto|]. apply key_matches_covers in Hm; try done.
    eapply Hwf. by eapply purge_Some.
  - intros [[r Hr] Hc]. split; [|eauto]. apply key_matches_covers; try done.
    eapply Hwf. by eapply purge_Some.
Qed.

Lemma index_live_purge now t s key :
  now ≤ t → index_live t (MemoryIndex._purge_expired now s) !! key = index_live t s !! key.
Proof. intros. unfold index_live; simpl. by rewrite purge_purge. Qed.

(** Deleting records from the purged index. *)
Lemma index_live_delete now t s keys key :
  now ≤ t →
  index_live t (set_index s (foldl (λ m key, delete key m) (purge now (mi_records s)) keys)) !! key =
  if decide (key ∈ keys) then None else index_live t s !! key.
Proof.
  intros. unfold index_live; simpl. rewrite !lookup_fmap, purge_lookup, lookup_foldl_delete.
  case_decide; [done|]. f_equal. by rewrite <-purge_lookup, purge_purge.
Qed.

Lemma index_wf_sub s m :
  index_wf (V:=V) s → m ⊆ mi_records s → index_wf (V:=V) (set_index s m).
Proof.
  intros [Hsep Hwf] Hm. split; [done|]. intros key r Hr. apply (Hwf key). by eapply lookup_weaken.
Qed.

Lemma foldl_delete_sub {A} (keys : list string) (m : gmap string A) : foldl (λ m key, delete key m) m keys ⊆ m.
Proof.
  apply map_subseteq_spec. intros key x. rewrite lookup_foldl_delete. by case_decide.
Qed.

Lemma purge_sub now m : purge now m ⊆ m.
Proof. apply map_subseteq_spec. intros key r. apply purge_Some. Qed.

(** [contains] of a full key looks the key up; of a partial key it searches. *)
Lemma contains_eq now k s segs :
  clean_key (mi_separator s) k = true → mi_separator s ≠ "" → to_string_segments false k = Ok segs →
  (MemoryIndex.contains now k s).1 =
  Ok (existsb (key_matches (mi_separator s) (py_join (mi_separator s) segs)
                 (bool_decide (length segs = S (length (cls_fields (key_cls k))))))
        (sorted_keys (purge now (mi_records s)))).
Proof.
  intros Hk Hsep Hs. destruct (clean_key_prefix _ Hsep k Hk) as (segs' & _ & Hs' & _ & Hf & Hp & Ht).
  rewrite Hs in Hs'. injection Hs' as <-. unfold MemoryIndex.contains. rewrite Hf. simpl.
  case_bool_decide as El; simpl.
  - rewrite Ht by done. simpl. unfold mret, outcome_ret. f_equal. apply eq_true_iff_eq.
    rewrite bool_decide_eq_true, existsb_exists, <-elem_of_sorted_keys. setoid_rewrite list_elem_of_In.
    unfold key_matches. setoid_rewrite String.eqb_eq. naive_solver.
  - by rewrite Hp.
Qed.

Lemma existsb_filter {A} (f : A → bool) (l : list A) :
  existsb f l = bool_decide (filter (λ x, f x = true) l ≠ []).
Proof.
  induction l as [|x l IH]; [done|]. rewrite filter_cons. cbn [existsb].
  case_decide as Hx; [by rewrite Hx|]. apply not_true_iff_false in Hx. by rewrite Hx.
Qed.

(** The live records that belong to [k], in the order of their keys. *)
Definition selected now k s : list string :=
  match to_string_segments false k with
  | Ok segs => filter (λ key, key_matches (mi_separator s) (py_join (mi_separator s) segs)
                         (bool_decide (length segs = S (length (cls_fields (key_cls k))))) key = true)
                 (sorted_keys (purge now (mi_records s)))
  | Raise _ => []
  end.

Lemma selected_spec now k s key :
  index_wf (V:=V) s → clean_key (mi_separator s) k = true →
  key ∈ selected now k s ↔ is_Some (index_live now s !! key) ∧ covers (mi_separator s) k key.
Proof.
  intros Hwf Hk. pose proof Hwf as [Hsep _].
  destruct (clean_key_prefix _ Hsep k Hk) as (segs & Hne & Hs & Ha & _). unfold selected. rewrite Hs.
  by apply covered_keys.
Qed.

Lemma query_selected now k s :
  index_wf (V:=V) s → clean_key (mi_separator s) k = true →
  ∃ vs : list V, MemoryIndex.query now k s = (Ok vs, MemoryIndex._purge_expired now s) ∧
    Forall2 (λ key v, index_live now s !! key = Some (serializer v)) (selected now k s) vs.
Proof.
  intros Hwf Hk. pose proof Hwf as [Hsep _].
  destruct (clean_key_prefix _ Hsep k Hk) as (segs & Hne & Hs & Ha & Hf & Hp & _). unfold selected. rewrite Hs.
  set (stored := filter _ _).
  destruct (traverse_deserialize now s stored Hwf) as (vs & Hvs & HF).
  { apply Forall_forall. intros key [_ Hk'%elem_of_sorted_keys]%list_elem_of_filter. exact Hk'. }
  exists vs. split; [|exact HF]. unfold MemoryIndex.query.
  cbn [MemoryIndex._purge_expired set_index mi_separator mi_records].
  rewrite Hp, Hf. cbn [mbind outcome_bind]. fold stored. by rewrite Hvs.
Qed.

Lemma contains_selected now k s :
  index_wf (V:=V) s → clean_key (mi_separator s) k = true →
  MemoryIndex.contains now k s = (Ok (bool_decide (selected now k s ≠ [])), MemoryIndex._purge_expired now s).
Proof.
  intros [Hsep _] Hk. destruct (clean_key_prefix _ Hsep k Hk) as (segs & Hne & Hs & _). unfold selected. rewrite Hs.
  rewrite (surjective_pairing (MemoryIndex.contains now k s)). rewrite (contains_eq now k s segs) by done.
  by rewrite existsb_filter.
Qed.

Lemma remove_selected now k s :
  index_wf (V:=V) s → clean_key (mi_separator s) k = true →
  MemoryIndex.remove now k s =
  (Ok tt, set_index s (foldl (λ m key, delete key m) (purge now (mi_records s)) (selected now k s))).
Proof.
  intros [Hsep _] Hk. destruct (clean_key_prefix _ Hsep k Hk) as (segs & Hne & Hs & Ha & Hf & Hp & _).
  unfold selected. rewrite Hs. unfold MemoryIndex.remove. cbn [MemoryIndex._purge_expired set_index mi_separator mi_records].
  rewrite Hp, Hf. case_bool_decide as El; [|done].
  do 2 f_equal. cbn [set_index mi_separator mi_default_ttl]. f_equal. apply map_eq. intros key.
  rewrite lookup_foldl_delete. unfold key_matches.
  destruct (decide (key = py_join (mi_separator s) segs)) as [->|Hne'].
  - rewrite lookup_delete_eq. case_decide as Hin; [done|]. symmetry. apply eq_None_not_Some. intros Hsome.
    apply Hin. apply list_elem_of_filter. split; [by apply String.eqb_eq|]. by apply elem_of_sorted_keys.
  - rewrite lookup_delete_ne by done. rewrite decide_False; [done|].
    intros [E%String.eqb_eq _]%list_elem_of_filter. done.
Qed.

Lemma remove_wf now k s :
  index_wf (V:=V) s →
  index_wf (V:=V) (set_index s (foldl (λ m key, delete key m) (purge now (mi_records s)) (selected now k s))).
Proof. intros. apply index_wf_sub; [done|]. etrans; [apply foldl_delete_sub|apply purge_sub]. Qed.

(** C32. Querying, testing and removing a key concern exactly the live records it covers: a query
    returns their values in the order of their keys, [contains] says whether there is one, and
    [remove] leaves all the others, now and later. *)
Theorem index_operations_are_exact now k s :
  index_wf (V:=V) s → clean_key (mi_separator s) k = true →
  ∃ (stored : list string) (vs : list V) (s1 s2 s3 : InMemoryIndexStore),
    (∀ key, key ∈ stored ↔ is_Some (index_live now s !! key) ∧ covers (mi_separator s) k key) ∧
    StronglySorted str_le stored ∧
    MemoryIndex.query now k s = (Ok vs, s1) ∧
    Forall2 (λ key v, index_live now s !! key = Some (serializer v)) stored vs ∧
    MemoryIndex.contains now k s = (Ok (bool_decide (stored ≠ [])), s2) ∧
    MemoryIndex.remove now k s = (Ok tt, s3) ∧ index_wf (V:=V) s3 ∧
    (∀ t key, now ≤ t →
       index_live t s1 !! key = index_live t s !! key ∧ index_live t s2 !! key = index_live t s !! key ∧
       index_live t s3 !! key = if decide (key ∈ stored) then None else index_live t s !! key).
Proof.
  intros Hwf Hk. destruct (query_selected now k s Hwf Hk) as (vs & Eq & HF).
  exists (selected now k s), vs, (MemoryIndex._purge_expired now s), (MemoryIndex._purge_expired now s),
    (set_index s (foldl (λ m key, delete key m) (purge now (mi_records s)) (selected now k s))).
  split; [intros key; by apply selected_spec|]. split.
  { unfold selected. destruct (to_string_segments false k); [|constructor].
    apply StronglySorted_filter, sorted_keys_StronglySorted. }
  split_and!; [done|done|by apply contains_selected|by apply remove_selected|by apply remove_wf|].
  intros t key Ht. by rewrite index_live_purge, index_live_delete.
Qed.
End index_theorems.
