(* ===== verification/CacheTypes.v ===== *)
(** Pipeline cache: entities and value objects, from
    [src/modules/pipeline_cache/domain/dataframe_cache.py], [entities.py] and
    [value_objects.py].

    Values that pass through the cache unread are of the abstract types of [PyData]; pandas frames
    are given by their rows, with the laws of slicing and concatenation. Times are in an arbitrary
    unit. *)
From S2P Require Import Prelude CacheKeys CacheStore.

(** Python values, pandas frames and the hash of [core.hashing]. *)
Class PyData := {
  Obj : Type;
  Frame : Type;
  Row : Type;
  frame_rows : Frame → list Row;
  iloc_from : nat → Frame → Frame;              (* df.iloc[n:] *)
  iloc_to : nat → Frame → Frame;                (* df.iloc[:n] *)
  pd_concat : Frame → Frame → Frame;            (* pd.concat([a, b]) *)
  pd_DataFrame : list Obj + Obj → outcome cache_exn Frame; (* value.to_pandas() or pd.DataFrame(value) *)
  hash_hex : Frame → string;                    (* get_hash(meta, deep=False).hex() *)
}.

Class PyDataLaws `{!PyData} := {
  rows_iloc_from n f : frame_rows (iloc_from n f) = drop n (frame_rows f);
  rows_iloc_to n f : frame_rows (iloc_to n f) = take n (frame_rows f);
  rows_concat f g : frame_rows (pd_concat f g) = frame_rows f ++ frame_rows g;
}.

Definition DATAFRAME_CACHE_FORMAT_VERSION : Z := 3.

(** ** Execution orders *)

Record DataFrameExecutionOrder := { queued_at_us : Z; order_task_id : string }.

#[global] Instance DataFrameExecutionOrder_eq_dec : EqDecision DataFrameExecutionOrder.
Proof. solve_decision. Defined.

(** [datetime - epoch] as Python's [timedelta]: days, seconds of the day and microseconds of the
    second. *)
Record timedelta := { td_days : Z; td_seconds : Z; td_microseconds : Z }.

Definition from_queued_at (delta : timedelta) (task_id : string) : DataFrameExecutionOrder :=
  {| queued_at_us := td_days delta * 86400000000 + td_seconds delta * 1000000 + td_microseconds delta;
     order_task_id := task_id |}.

(** The comparison that [dataclass(order=True)] generates: lexicographic on the fields. *)
Definition order_le (a b : DataFrameExecutionOrder) : Prop :=
  lex_le Z.le str_le (queued_at_us a, order_task_id a) (queued_at_us b, order_task_id b).

Definition order_lt (a b : DataFrameExecutionOrder) : Prop := order_le a b ∧ a ≠ b.

#[global] Instance order_le_dec : RelDecision order_le.
Proof. intros a b. unfold order_le. apply _. Defined.
#[global] Instance order_lt_dec : RelDecision order_lt.
Proof. intros a b. unfold order_lt. apply _. Defined.

#[global] Instance order_le_po : PartialOrder order_le.
Proof.
  split; [split|].
  - intros a. unfold order_le. reflexivity.
  - intros a b c H1 H2. unfold order_le in *. by etrans.
  - intros [q1 t1] [q2 t2] H1 H2. unfold order_le in *; simpl in *.
    assert ((q1, t1) = (q2, t2)) as [= -> ->] by (by apply (anti_symm (lex_le Z.le str_le))). done.
Qed.

#[global] Instance order_le_total : Total order_le.
Proof. intros a b. unfold order_le. apply (total (lex_le Z.le str_le)). Qed.

(** ** Policies of the dataframe cache *)

Record DataFrameCachePolicy := {
  strict : bool;
  max_pending_partitions : Z;
  max_pending_bytes : Z;
  max_restore_batch_partitions : Z;
  max_restore_batch_bytes : Z;
}.

Definition default_policy : DataFrameCachePolicy := {|
  strict := false;
  max_pending_partitions := 32;
  max_pending_bytes := 128 * 1024 * 1024;
  max_restore_batch_partitions := 32;
  max_restore_batch_bytes := 2 * 1024 * 1024;
|}.

(** [__post_init__] *)
Definition make_policy (p : DataFrameCachePolicy) : outcome cache_exn DataFrameCachePolicy :=
  if max_pending_partitions p <=? 0 then Raise (CacheValueError "max_pending_partitions must be positive")
  else if max_pending_bytes p <=? 0 then Raise (CacheValueError "max_pending_bytes must be positive")
  else if max_restore_batch_partitions p <=? 0
    then Raise (CacheValueError "max_restore_batch_partitions must be positive")
  else if max_restore_batch_bytes p <=? 0 then Raise (CacheValueError "max_restore_batch_bytes must be positive")
  else Ok p.

(** ** Manifests, snapshots and the active generation *)

Inductive CacheGenerationState := WRITING | READY | ABORTED | INVALID.

#[global] Instance CacheGenerationState_eq_dec : EqDecision CacheGenerationState.
Proof. solve_decision. Defined.

Record DataFramePartitionDescriptor := {
  part_no : Z;
  cache_key : string;
  rows : Z;
  payload_bytes : Z;
}.

Section entities.
Context `{!PyData}.

Record DataFrameCacheManifest := {
  mf_format_version : Z;
  mf_project_id : string;
  mf_node_id : string;
  mf_output_name : string;
  mf_generation_id : string;
  mf_node_runtime_fingerprint : string;
  mf_schema_fingerprint : string;
  mf_meta : Frame;
  mf_npartitions : Z;
  mf_partitions : list DataFramePartitionDescriptor;
  mf_rows_per_partition : list Z;
  mf_known_divisions : bool;
  mf_divisions : option (list Obj);
  mf_created_at : Z;
  mf_state : CacheGenerationState;
}.

(** [DataFrameCacheManifest.writing]; [now] is [time()]. *)
Definition writing (now : Z) (project_id node_id output_name generation_id node_runtime_fingerprint
    schema_fingerprint : string) (meta : Frame) (npartitions : Z) (known_divisions : bool)
    (divisions : option (list Obj)) : DataFrameCacheManifest := {|
  mf_format_version := DATAFRAME_CACHE_FORMAT_VERSION;
  mf_project_id := project_id;
  mf_node_id := node_id;
  mf_output_name := output_name;
  mf_generation_id := generation_id;
  mf_node_runtime_fingerprint := node_runtime_fingerprint;
  mf_schema_fingerprint := schema_fingerprint;
  mf_meta := meta;
  mf_npartitions := npartitions;
  mf_partitions := [];
  mf_rows_per_partition := [];
  mf_known_divisions := known_divisions;
  mf_divisions := divisions;
  mf_created_at := now;
  mf_state := WRITING;
|}.

Definition part_no_le (a b : DataFramePartitionDescriptor) : Prop := part_no a ≤ part_no b.
#[global] Instance part_no_le_dec : RelDecision part_no_le.
Proof. intros a b. unfold part_no_le. apply _. Defined.

#[global] Instance part_no_le_trans : Transitive part_no_le.
Proof. intros a b c. unfold part_no_le. lia. Qed.
#[global] Instance part_no_le_total : Total part_no_le.
Proof. intros a b. unfold part_no_le. lia. Qed.

(** [tuple(range(n))] *)
Definition py_range (n : Z) : list Z := seqZ 0 n.

Lemma py_range_sorted n : StronglySorted Z.le (py_range n).
Proof.
  unfold py_range, seqZ. apply (StronglySorted_fmap _ le); [lia|]. generalize 0%nat, (Z.to_nat n).
  intros a k. revert a; induction k as [|k IH]; intros a; simpl; constructor; [done|].
  apply Forall_forall. intros x Hx%elem_of_seq. lia.
Qed.

(** [DataFrameCacheManifest.ready]; [sorted] is stable, as [merge_sort] is. *)
Definition ready (m : DataFrameCacheManifest) (partitions : list DataFramePartitionDescriptor) :
    outcome cache_exn DataFrameCacheManifest :=
  let ordered := merge_sort part_no_le partitions in
  if negb (Z.of_nat (length ordered) =? mf_npartitions m)
  then Raise (CacheValueError "Cannot commit dataframe generation: wrong number of partitions") else
  if negb (bool_decide (part_no <$> ordered = py_range (mf_npartitions m)))
  then Raise (CacheValueError "Cannot commit dataframe generation with missing/duplicate partition numbers") else
  Ok {| mf_format_version := mf_format_version m;
        mf_project_id := mf_project_id m;
        mf_node_id := mf_node_id m;
        mf_output_name := mf_output_name m;
        mf_generation_id := mf_generation_id m;
        mf_node_runtime_fingerprint := mf_node_runtime_fingerprint m;
        mf_schema_fingerprint := mf_schema_fingerprint m;
        mf_meta := mf_meta m;
        mf_npartitions := mf_npartitions m;
        mf_partitions := ordered;
        mf_rows_per_partition := rows <$> ordered;
        mf_known_divisions := mf_known_divisions m;
        mf_divisions := mf_divisions m;
        mf_created_at := mf_created_at m;
        mf_state := READY |}.

Definition aborted (m : DataFrameCacheManifest) : DataFrameCacheManifest := {|
  mf_format_version := mf_format_version m;
  mf_project_id := mf_project_id m;
  mf_node_id := mf_node_id m;
  mf_output_name := mf_output_name m;
  mf_generation_id := mf_generation_id m;
  mf_node_runtime_fingerprint := mf_node_runtime_fingerprint m;
  mf_schema_fingerprint := mf_schema_fingerprint m;
  mf_meta := mf_meta m;
  mf_npartitions := mf_npartitions m;
  mf_partitions := mf_partitions m;
  mf_rows_per_partition := mf_rows_per_partition m;
  mf_known_divisions := mf_known_divisions m;
  mf_divisions := mf_divisions m;
  mf_created_at := mf_created_at m;
  mf_state := ABORTED;
|}.

Record DataFrameExecutionSnapshot := {
  sn_format_version : Z;
  sn_project_id : string;
  sn_node_id : string;
  sn_generation_id : string;
  sn_node_name : string;
  sn_node_runtime_fingerprint : string;
  sn_output_names : list string;
  sn_dataframe_output_names : list string;
  sn_non_dataframe_outputs : pydict Obj;
  sn_metadata : pydict (option Obj);
  sn_created_at : Z;
  sn_execution_order : option DataFrameExecutionOrder;
}.

Record ActiveDataFrameGeneration := {
  ac_format_version : Z;
  ac_generation_id : string;
  ac_activated_at : Z;
  ac_execution_order : option DataFrameExecutionOrder;
}.

Record DataFrameRestorePlan := {
  rp_snapshot : DataFrameExecutionSnapshot;
  rp_manifests : pydict DataFrameCacheManifest;
}.

(** What the data store holds, by its Python class. *)
Inductive CacheObject :=
  | OManifest (m : DataFrameCacheManifest)
  | OSnapshot (s : DataFrameExecutionSnapshot)
  | OActive (a : ActiveDataFrameGeneration)
  | OFrame (f : Frame)
  | OList (items : list Obj)
  | OValue (v : Obj).

(** ** Entities of the entry caches *)

Record MetadataCacheEntry := { me_outputs : pydict Obj; me_metadata : option (pydict (option Obj)) }.

(** [dict(self.outputs)]: building the entry again from the same dictionaries gives the same. *)
Definition same_keys (a b : list string) : bool :=
  forallb (λ k, bool_decide (k ∈ b)) a && forallb (λ k, bool_decide (k ∈ a)) b.

Definition normalized_for_outputs (e : MetadataCacheEntry) (expected_output_names : list string) :
    option MetadataCacheEntry :=
  if negb (same_keys expected_output_names (dkeys (me_outputs e))) then None else
  let cached_metadata := default [] (me_metadata e) in
  if negb (forallb (λ k, bool_decide (k ∈ expected_output_names)) (dkeys cached_metadata)) then None else
  Some {| me_outputs := me_outputs e;
          me_metadata := Some (foldl (λ d name, dset d name (mjoin (dget cached_metadata name))) []
                                 expected_output_names) |}.

End entities.
#[global] Arguments DataFrameCacheManifest {_}.

(** [DataIndexEntry] and its two subclasses. *)
Inductive DataIndexEntry :=
  | DataEntry (key output_name : string)
  | DDFMetaIndexEntry (key output_name : string) (hashed_inputs : option (pydict bytes))
  | PDFIndexEntry (key output_name : string) (part_no total_parts rows : Z).

Definition entry_cache_key (e : DataIndexEntry) : string :=
  match e with DataEntry k _ | DDFMetaIndexEntry k _ _ | PDFIndexEntry k _ _ _ _ => k end.

Record ClearCacheResult := { cleared_keys : list string; clear_task_id : option string }.

(** The codec of the data store, [CacheCodec]: what was dumped is loaded. *)
Class CacheCodec (T : Type) := {
  dump : T → outcome cache_exn bytes;
  load : bytes → outcome cache_exn T;
}.

Class CacheCodecLaws (T : Type) `{!CacheCodec T} := {
  load_dump (o : T) (p : bytes) : dump o = Ok p → load p = Ok o;
}.
