(* ===== verification/CacheFlow.v ===== *)
(** Pipeline cache: the application services, from
    [src/modules/pipeline_cache/flow/dataframe_execution_cache.py], [flow/use_cases/] and
    [infra/repositories/codec_object_store.py].

    A coroutine is a program of [C]: it passes the world and may raise. Every [await] of a store is
    one atomic call; before it other processes may change the stores in any way ([env_others]) and
    it may fail ([env_fault]). Calls are numbered, so that clocks and fresh names may differ at
    every call. *)
From S2P Require Import Prelude CacheKeys CacheStore CacheIndex CacheTypes.

(** ** The world *)

Record Stores (S : Type) := {
  st_data : S;
  st_data_index : InMemoryIndexStore;
  st_meta : S;
  st_meta_index : InMemoryIndexStore;
}.
Arguments st_data {S}. Arguments st_data_index {S}. Arguments st_meta {S}. Arguments st_meta_index {S}.

Record CWorld (S : Type) := { cw_stores : Stores S; cw_calls : nat }.
Arguments cw_stores {S}. Arguments cw_calls {S}.

Class CacheEnv (S : Type) := {
  env_now : nat → Z;                     (* the clock of the stores at a call *)
  env_now' : nat → Z;                    (* its second reading during the call *)
  env_time : nat → Z;                    (* time() *)
  env_uuid : nat → string;
  env_others : nat → Stores S → Stores S;
  env_fault : nat → option string;
}.

Definition C (S A : Type) : Type := CWorld S → outcome cache_exn A * CWorld S.

#[global] Instance C_ret S : MRet (C S) := λ A a w, (Ok a, w).
#[global] Instance C_bind S : MBind (C S) := λ A B f m w,
  match m w with (Ok a, w') => f a w' | (Raise e, w') => (Raise e, w') end.

Definition craise {S A} (e : cache_exn) : C S A := λ w, (Raise e, w).
Definition clift {S A} (o : outcome cache_exn A) : C S A := λ w, (o, w).

(** [try: m except Exception: return d] *)
Definition ccatch {S A} (m : C S A) (d : A) : C S A := λ w,
  match m w with (Ok a, w') => (Ok a, w') | (Raise _, w') => (Ok d, w') end.

(** [for x in l: f(x)] *)
Fixpoint cfor {S A} (l : list A) (f : A → C S unit) : C S unit :=
  match l with [] => mret tt | x :: l => f x;; cfor l f end.

(** [[y for x in l for y in f(x)]] *)
Fixpoint cconcat {S A B} (l : list A) (f : A → C S (list B)) : C S (list B) :=
  match l with [] => mret [] | x :: l => ys ← f x; zs ← cconcat l f; mret (ys ++ zs) end.

Section cache_programs.
Context {S : Type} `{!BlobStore S, !CacheEnv S}.

Definition set_data (st : Stores S) (s : S) : Stores S :=
  {| st_data := s; st_data_index := st_data_index st; st_meta := st_meta st; st_meta_index := st_meta_index st |}.
Definition set_data_index (st : Stores S) (i : InMemoryIndexStore) : Stores S :=
  {| st_data := st_data st; st_data_index := i; st_meta := st_meta st; st_meta_index := st_meta_index st |}.
Definition set_meta (st : Stores S) (s : S) : Stores S :=
  {| st_data := st_data st; st_data_index := st_data_index st; st_meta := s; st_meta_index := st_meta_index st |}.
Definition set_meta_index (st : Stores S) (i : InMemoryIndexStore) : Stores S :=
  {| st_data := st_data st; st_data_index := st_data_index st; st_meta := st_meta st; st_meta_index := i |}.

(** One call of a store, at its number. *)
Definition store_call {A} (op : nat → Stores S → outcome cache_exn A * Stores S) : C S A := λ w,
  let i := cw_calls w in
  let st := env_others i (cw_stores w) in
  match env_fault i with
  | Some message => (Raise (StoreError message), {| cw_stores := st; cw_calls := Datatypes.S i |})
  | None => let (r, st') := op i st in (r, {| cw_stores := st'; cw_calls := Datatypes.S i |})
  end.

Definition data_call {A} (op : nat → S → outcome cache_exn A * S) : C S A :=
  store_call (λ i st, let (r, s) := op i (st_data st) in (r, set_data st s)).
Definition data_index_call {A} (op : nat → InMemoryIndexStore → outcome cache_exn A * InMemoryIndexStore) : C S A :=
  store_call (λ i st, let (r, s) := op i (st_data_index st) in (r, set_data_index st s)).
Definition meta_call {A} (op : nat → S → outcome cache_exn A * S) : C S A :=
  store_call (λ i st, let (r, s) := op i (st_meta st) in (r, set_meta st s)).
Definition meta_index_call {A} (op : nat → InMemoryIndexStore → outcome cache_exn A * InMemoryIndexStore) : C S A :=
  store_call (λ i st, let (r, s) := op i (st_meta_index st) in (r, set_meta_index st s)).

(** [time()] and [uuid4()] during the current call. *)
Definition now_time : C S Z := λ w, (Ok (env_time (cw_calls w)), w).
Definition uuid4 : C S string := λ w, (Ok (env_uuid (cw_calls w)), w).

Context `{!PyData, !CacheCodec CacheObject}.

(** ** [CodecObjectStore] over the data blob store *)

Definition encode (o : CacheObject) : outcome cache_exn bytes := dump o.
Definition decode (p : bytes) : outcome cache_exn CacheObject := load p.

Definition put_encoded (key : string) (payload : bytes) (ttl : option Z) : C S unit :=
  data_call (λ i, blob_put (env_now i) key payload ttl).
Definition get_encoded (key : string) : C S (option bytes) := data_call (λ i, blob_get (env_now i) key).
Definition compare_and_set_encoded (key : string) (expected : option bytes) (payload : bytes) (ttl : option Z) : C S bool :=
  data_call (λ i, blob_cas (env_now i) (env_now' i) key expected payload ttl).

Definition obj_put (key : string) (o : CacheObject) (ttl : option Z) : C S unit :=
  payload ← clift (encode o); put_encoded key payload ttl.

Definition obj_get (key : string) : C S (option CacheObject) :=
  payload ← get_encoded key;
  match payload with
  | None => mret None
  | Some p => o ← clift (decode p); mret (Some o)
  end.

Definition obj_get_many (keys : list string) : C S (list (option CacheObject)) :=
  payloads ← data_call (λ i, blob_get_many (env_now i) keys);
  clift (traverse (λ payload, match payload with
                              | None => Ok None
                              | Some p => o ← decode p; mret (Some o)
                              end) payloads).

Definition obj_has_many (keys : list string) : C S bool := data_call (λ i, blob_has_many (env_now i) keys).

(** ** [DataFrameExecutionCache] *)

(** The generation a method works on; [ttl_lifetime] is a field of the service. *)
Record GenerationId := { gid_project : string; gid_node : string; gid_generation : string }.

Context (ttl_lifetime : option Z).

Definition create_dataframe_schema_fingerprint (meta : Frame) : string := "df_schema:" +:+ hash_hex meta.

Definition manifest_key (g : GenerationId) (output_name : string) : string :=
  dataframe_manifest_key (gid_project g) (gid_node g) output_name (gid_generation g).
Definition snapshot_key (g : GenerationId) : string :=
  dataframe_snapshot_key (gid_project g) (gid_node g) (gid_generation g).
Definition active_key (g : GenerationId) : string := dataframe_active_key (gid_project g) (gid_node g).

Definition begin_output_generation (g : GenerationId) (output_name node_runtime_fingerprint : string)
    (meta : Frame) (npartitions : Z) (known_divisions : bool) (divisions : option (list Obj)) :
    C S DataFrameCacheManifest :=
  if npartitions <=? 0 then craise (CacheValueError "DataFrame cache requires at least one partition") else
  now ← now_time;
  let manifest := writing now (gid_project g) (gid_node g) output_name (gid_generation g)
                    node_runtime_fingerprint (create_dataframe_schema_fingerprint meta) meta npartitions
                    known_divisions (if known_divisions then divisions else None) in
  obj_put (manifest_key g output_name) (OManifest manifest) ttl_lifetime;;
  mret manifest.

Definition encode_partition (partition : Frame) : outcome cache_exn bytes := encode (OFrame partition).

Definition put_encoded_partition (g : GenerationId) (output_name : string) (part_no rows : Z) (payload : bytes) :
    C S DataFramePartitionDescriptor :=
  let key := dataframe_partition_key (gid_project g) (gid_node g) output_name (gid_generation g) part_no in
  put_encoded key payload ttl_lifetime;;
  mret {| part_no := part_no; cache_key := key; rows := rows;
          payload_bytes := Z.of_nat (String.length payload) |}.

(** One iteration of [_activate_if_newer] after reading the current payload: whether the decision
    is already taken. *)
Definition activation_decided (g : GenerationId) (order : DataFrameExecutionOrder) (current : option CacheObject) :
    option bool :=
  match current with
  | Some (OActive a) =>
      if ac_format_version a =? DATAFRAME_CACHE_FORMAT_VERSION then
        match ac_execution_order a with
        | Some o => if decide (order_lt order o) then Some false
                    else if decide (o = order) then Some (String.eqb (ac_generation_id a) (gid_generation g))
                    else None
        | None => None
        end
      else None
  | _ => None
  end.

Fixpoint activate_loop (fuel : nat) (g : GenerationId) (order : DataFrameExecutionOrder) (candidate_payload : bytes) :
    C S bool :=
  match fuel with
  | O => craise CacheOutOfFuel
  | Datatypes.S fuel =>
      current_payload ← get_encoded (active_key g);
      current ← match current_payload with
                | None => mret None
                | Some p => o ← clift (decode p); mret (Some o)
                end;
      match activation_decided g order current with
      | Some b => mret b
      | None =>
          swapped ← compare_and_set_encoded (active_key g) current_payload candidate_payload ttl_lifetime;
          if (swapped : bool) then mret true else activate_loop fuel g order candidate_payload
      end
  end.

Definition _activate_if_newer (fuel : nat) (g : GenerationId) (order : DataFrameExecutionOrder) : C S bool :=
  now ← now_time;
  candidate_payload ← clift (encode (OActive {|
    ac_format_version := DATAFRAME_CACHE_FORMAT_VERSION;
    ac_generation_id := gid_generation g;
    ac_activated_at := now;
    ac_execution_order := Some order |}));
  activate_loop fuel g order candidate_payload.

(** The manifests of all dataframe outputs are there, ready and of this implementation. *)
Fixpoint outputs_ready (g : GenerationId) (snapshot : DataFrameExecutionSnapshot) (output_names : list string) : C S bool :=
  match output_names with
  | [] => mret true
  | name :: names =>
      o ← obj_get (manifest_key g name);
      match o with
      | Some (OManifest m) =>
          if bool_decide (mf_state m = READY) && (mf_format_version m =? DATAFRAME_CACHE_FORMAT_VERSION) &&
             String.eqb (mf_node_runtime_fingerprint m) (sn_node_runtime_fingerprint snapshot)
          then outputs_ready g snapshot names
          else mret false
      | _ => mret false
      end
  end.

Definition _try_activate_node_generation (fuel : nat) (g : GenerationId) : C S bool :=
  o ← obj_get (snapshot_key g);
  match o with
  | Some (OSnapshot snapshot) =>
      if negb (sn_format_version snapshot =? DATAFRAME_CACHE_FORMAT_VERSION) then mret false else
      match sn_execution_order snapshot with
      | None => mret false
      | Some order =>
          ready_outputs ← outputs_ready g snapshot (sn_dataframe_output_names snapshot);
          if (ready_outputs : bool) then _activate_if_newer fuel g order else mret false
      end
  | _ => mret false
  end.

Definition commit_output_generation (fuel : nat) (g : GenerationId) (output_name : string)
    (partitions : list DataFramePartitionDescriptor) : C S DataFrameCacheManifest :=
  o ← obj_get (manifest_key g output_name);
  match o with
  | Some (OManifest manifest) =>
      if negb (bool_decide (mf_state manifest = WRITING))
      then craise (DataFrameCacheCorruptionError "Cannot commit dataframe cache generation") else
      m ← clift (ready manifest partitions);
      obj_put (manifest_key g output_name) (OManifest m) ttl_lifetime;;
      _try_activate_node_generation fuel g;;
      mret m
  | _ => craise (DataFrameCacheCorruptionError "WRITING dataframe cache manifest disappeared before commit")
  end.

Definition abort_output_generation (g : GenerationId) (output_name : string) : C S unit :=
  ccatch (o ← obj_get (manifest_key g output_name);
          match o with
          | Some (OManifest m) => obj_put (manifest_key g output_name) (OManifest (aborted m)) ttl_lifetime
          | _ => mret tt
          end) tt.

Definition stage_execution_snapshot (fuel : nat) (g : GenerationId) (node_name node_runtime_fingerprint : string)
    (output_names dataframe_output_names : list string) (non_dataframe_outputs : pydict Obj)
    (metadata : pydict (option Obj)) (order : option DataFrameExecutionOrder) : C S DataFrameExecutionSnapshot :=
  now ← now_time;
  let snapshot := {|
    sn_format_version := DATAFRAME_CACHE_FORMAT_VERSION;
    sn_project_id := gid_project g;
    sn_node_id := gid_node g;
    sn_generation_id := gid_generation g;
    sn_node_name := node_name;
    sn_node_runtime_fingerprint := node_runtime_fingerprint;
    sn_output_names := output_names;
    sn_dataframe_output_names := dataframe_output_names;
    sn_non_dataframe_outputs := non_dataframe_outputs;
    sn_metadata := metadata;
    sn_created_at := now;
    sn_execution_order := order |} in
  obj_put (snapshot_key g) (OSnapshot snapshot) ttl_lifetime;;
  _try_activate_node_generation fuel g;;
  mret snapshot.

Definition _manifest_is_compatible (m : DataFrameCacheManifest) (g : GenerationId)
    (output_name node_runtime_fingerprint : string) : bool :=
  (mf_format_version m =? DATAFRAME_CACHE_FORMAT_VERSION) &&
  bool_decide (mf_state m = READY) &&
  String.eqb (mf_project_id m) (gid_project g) &&
  String.eqb (mf_node_id m) (gid_node g) &&
  String.eqb (mf_output_name m) output_name &&
  String.eqb (mf_generation_id m) (gid_generation g) &&
  String.eqb (mf_node_runtime_fingerprint m) node_runtime_fingerprint &&
  (0 <? mf_npartitions m) &&
  (Z.of_nat (length (mf_partitions m)) =? mf_npartitions m) &&
  (Z.of_nat (length (mf_rows_per_partition m)) =? mf_npartitions m) &&
  bool_decide (part_no <$> mf_partitions m = py_range (mf_npartitions m)) &&
  String.eqb (create_dataframe_schema_fingerprint (mf_meta m)) (mf_schema_fingerprint m) &&
  (if mf_known_divisions m
   then match mf_divisions m with
        | None => false
        | Some d => Z.of_nat (length d) =? mf_npartitions m + 1
        end
   else match mf_divisions m with None => true | Some _ => false end).

(** The loop that collects the manifests: [None] when one is missing or incompatible. *)
Fixpoint collect_manifests (g : GenerationId) (fingerprint : string) (output_names : list string)
    (manifests : pydict DataFrameCacheManifest) : C S (option (pydict DataFrameCacheManifest)) :=
  match output_names with
  | [] => mret (Some manifests)
  | name :: names =>
      o ← obj_get (manifest_key g name);
      match o with
      | Some (OManifest m) =>
          if _manifest_is_compatible m g name fingerprint
          then collect_manifests g fingerprint names (dset manifests name m)
          else mret None
      | _ => mret None
      end
  end.

(** The checks of [get_restore_plan] on the snapshot of the active generation. *)
Definition snapshot_is_compatible (s : DataFrameExecutionSnapshot) (g : GenerationId) (node_name : string)
    (node_runtime_fingerprint : option string) (expected_output_names : list string) : bool :=
  (sn_format_version s =? DATAFRAME_CACHE_FORMAT_VERSION) &&
  String.eqb (sn_project_id s) (gid_project g) &&
  String.eqb (sn_node_id s) (gid_node g) &&
  String.eqb (sn_generation_id s) (gid_generation g) &&
  String.eqb (sn_node_name s) node_name &&
  match node_runtime_fingerprint with
  | Some f => String.eqb (sn_node_runtime_fingerprint s) f
  | None => true
  end &&
  bool_decide (sn_output_names s = expected_output_names) &&
  same_keys (dkeys (sn_non_dataframe_outputs s))
    (filter (λ n, n ∉ sn_dataframe_output_names s) expected_output_names) &&
  forallb (λ name, match dget (sn_metadata s) name with Some (Some _) => true | _ => false end)
    (sn_dataframe_output_names s).

Definition partition_keys (manifests : pydict DataFrameCacheManifest) : list string :=
  concat ((λ m, cache_key <$> mf_partitions m) <$> dvals manifests).

Definition get_restore_plan (project_id node_id node_name : string) (node_runtime_fingerprint : option string)
    (expected_output_names : list string) : C S (option DataFrameRestorePlan) :=
  o ← obj_get (dataframe_active_key project_id node_id);
  match o with
  | Some (OActive active) =>
      if negb (ac_format_version active =? DATAFRAME_CACHE_FORMAT_VERSION) then mret None else
      let g := {| gid_project := project_id; gid_node := node_id; gid_generation := ac_generation_id active |} in
      o ← obj_get (snapshot_key g);
      match o with
      | Some (OSnapshot snapshot) =>
          if negb (snapshot_is_compatible snapshot g node_name node_runtime_fingerprint expected_output_names)
          then mret None else
          let fingerprint := or_str node_runtime_fingerprint (sn_node_runtime_fingerprint snapshot) in
          manifests ← collect_manifests g fingerprint (sn_dataframe_output_names snapshot) [];
          match manifests with
          | None => mret None
          | Some manifests =>
              complete ← obj_has_many (partition_keys manifests);
              mret (if (complete : bool) then Some {| rp_snapshot := snapshot; rp_manifests := manifests |} else None)
          end
      | _ => mret None
      end
  | _ => mret None
  end.

Definition load_partition (key : string) : C S CacheObject :=
  o ← obj_get key;
  match o with
  | None => craise (DataFrameCacheCorruptionError "Cached dataframe partition is missing")
  | Some o => mret o
  end.

(** The objects of a batch, all of which must be there. *)
Fixpoint all_present (l : list (option CacheObject)) : option (list CacheObject) :=
  match l with
  | [] => Some []
  | None :: _ => None
  | Some o :: l => os ← all_present l; Some (o :: os)
  end.

Definition load_partitions (cache_keys : list string) : C S (list CacheObject) :=
  partitions ← obj_get_many cache_keys;
  if negb (length partitions =? length cache_keys)%nat
  then craise (DataFrameCacheCorruptionError "Cached dataframe batch returned wrong partition count") else
  match all_present partitions with
  | None => craise (DataFrameCacheCorruptionError "Cached dataframe partitions are missing")
  | Some os => mret os
  end.
End cache_programs.
