(* ===== verification/CacheUseCases.v ===== *)
(** Pipeline cache: the use cases, from [src/modules/pipeline_cache/flow/use_cases/] and the
    key builders of [flow/providers.py].

    They are programs over the four stores of the provider. The theorems are in [CacheClear]. *)
From S2P Require Import Prelude CacheKeys CacheStore CacheIndex CacheTypes CacheFlow.

Section use_cases.
Context {S : Type} `{!BlobStore S, !CacheEnv S, !PyData, !CacheCodec CacheObject,
  !CacheCodec MetadataCacheEntry, !IndexCodec DataIndexEntry, !IndexCodec string}.
Context (default_ttl : Z).   (* settings.default_ttl *)

(** ** Keys of the indices *)

Definition CommonOutputKey_of (cls : KeyClass) (values : list (option KeyValue)) : IndexKey :=
  {| key_cls := cls; key_values := values |}.

Definition build_data_index_keys (project_id : string) (node_id : option string) : list IndexKey :=
  [ CommonOutputKey_of CommonOutputKey [Some (KStr project_id); KStr <$> node_id; None];
    CommonOutputKey_of JSONKey [Some (KStr project_id); KStr <$> node_id; None];
    CommonOutputKey_of PDFKey [Some (KStr project_id); KStr <$> node_id; None; None];
    CommonOutputKey_of DDFMetaKey [Some (KStr project_id); KStr <$> node_id; None] ].

Definition build_metadata_index_key (project_id : string) (node_id meta_key_id : option string) : IndexKey :=
  {| key_cls := MetaKey; key_values := [Some (KStr project_id); KStr <$> node_id; KStr <$> meta_key_id] |}.

(** ** Data entries *)

Definition PutDataEntry (key : string) (value : CacheObject) (ttl : option Z)
    (index_entries : list (IndexKey * DataIndexEntry)) : C S unit :=
  resolved_ttl ← clift (resolve_ttl ttl default_ttl);
  payload ← clift (dump value);
  data_call (λ i, blob_put (env_now i) key payload (Some resolved_ttl));;
  cfor index_entries (λ e, data_index_call (λ i, MemoryIndex.put (env_now i) e.1 e.2 (Some resolved_ttl))).

Record GetJsonEntryResult := { json_data : CacheObject; json_total_items : option Z }.

(** [cached[off: off + lim] if lim else []] *)
Definition json_page (offset limit : Z) (cached : list Obj) : list Obj :=
  let off := Z.max 0 offset in
  let lim := Z.max 0 limit in
  if lim =? 0 then [] else take (Z.to_nat lim) (drop (Z.to_nat off) cached).

Definition GetJsonEntry (project_id node_id output_name : string) (offset limit : Z) : C S GetJsonEntryResult :=
  let index_key := {| key_cls := JSONKey;
                      key_values := [Some (KStr project_id); Some (KStr node_id); Some (KStr output_name)] |} in
  index_entries ← data_index_call (λ i, MemoryIndex.query (env_now i) index_key);
  match head (index_entries : list DataIndexEntry) with
  | None => craise (JSONDataNotFoundError "JSON not found in index")
  | Some entry =>
      payload ← data_call (λ i, blob_get (env_now i) (entry_cache_key entry));
      match payload with
      | None => craise (JSONDataNotFoundError "JSON not found in cache")
      | Some p =>
          cached ← clift (load p);
          match cached with
          | OList items =>
              mret {| json_data := OList (json_page offset limit items);
                      json_total_items := Some (Z.of_nat (length items)) |}
          | o => mret {| json_data := o; json_total_items := None |}
          end
      end
  end.

(** The keys of one index key's entries, which are removed from the index. *)
Definition clear_index_key (index_key : IndexKey) : C S (list string) :=
  cached_entries ← data_index_call (λ i, MemoryIndex.query (env_now i) index_key);
  data_index_call (λ i, MemoryIndex.remove (env_now i) index_key);;
  mret (entry_cache_key <$> (cached_entries : list DataIndexEntry)).

Definition data_prefixes (project_id : string) (node_ids : option (list string)) : list string :=
  match node_ids with
  | Some ids => (λ node_id, "df:" +:+ project_id +:+ ":" +:+ node_id +:+ ":") <$> ids
  | None => ["df:" +:+ project_id +:+ ":"]
  end.

Definition data_index_keys (project_id : string) (node_ids : option (list string)) : list IndexKey :=
  match node_ids with
  | Some ids => concat ((λ node_id, build_data_index_keys project_id (Some node_id)) <$> ids)
  | None => build_data_index_keys project_id None
  end.

Definition ClearDataCache (project_id : string) (node_ids : option (list string)) : C S ClearCacheResult :=
  generation_keys ← cconcat (data_prefixes project_id node_ids) (λ prefix,
    data_call (λ i, blob_keys (env_now i) prefix));
  entry_keys ← cconcat (data_index_keys project_id node_ids) clear_index_key;
  let cache_keys := dedupe_preserve_order (generation_keys ++ entry_keys) in
  (if bool_decide (cache_keys = []) then mret tt
   else data_call (λ i, blob_remove (env_now i) cache_keys));;
  mret {| cleared_keys := cache_keys; clear_task_id := None |}.

(** ** Metadata entries *)

Definition PutMetadataEntry (project_id node_id key : string) (outputs : pydict Obj)
    (metadata : option (pydict (option Obj))) (ttl : option Z) (meta_key_id : option string) : C S string :=
  resolved_ttl ← clift (resolve_ttl ttl default_ttl);
  payload ← clift (dump {| me_outputs := outputs; me_metadata := metadata |});
  meta_call (λ i, blob_put (env_now i) key payload (Some resolved_ttl));;
  fresh ← uuid4;
  let resolved_meta_key_id := or_str meta_key_id fresh in
  let index_key := build_metadata_index_key project_id (Some node_id) (Some resolved_meta_key_id) in
  meta_index_call (λ i, MemoryIndex.put (env_now i) index_key key (Some resolved_ttl));;
  mret resolved_meta_key_id.

(** The result is [None] when nothing was restored. *)
Definition RestoreMetadataEntry (meta_cache_key : string) (expected_output_names : list string) :
    C S (option MetadataCacheEntry) :=
  payload ← meta_call (λ i, blob_get (env_now i) meta_cache_key);
  match payload with
  | None => mret None
  | Some p => entry ← clift (load p); mret (normalized_for_outputs entry expected_output_names)
  end.

Definition clear_metadata_key (index_key : IndexKey) : C S (list string) :=
  keys ← meta_index_call (λ i, MemoryIndex.query (env_now i) index_key);
  meta_index_call (λ i, MemoryIndex.remove (env_now i) index_key);;
  mret keys.

Definition metadata_index_keys (project_id : string) (node_ids : option (list string)) : list IndexKey :=
  match node_ids with
  | Some ids => (λ node_id, build_metadata_index_key project_id (Some node_id) None) <$> ids
  | None => [build_metadata_index_key project_id None None]
  end.

(** [refresh] is [metadata_refresh_gateway.enqueue_metadata_refresh], when there is a gateway. *)
Definition ClearMetadataCache (refresh : option (string → option (list string) → outcome cache_exn string))
    (project_id : string) (node_ids : option (list string)) (send_metadata_task : bool) : C S ClearCacheResult :=
  cache_keys ← cconcat (metadata_index_keys project_id node_ids) clear_metadata_key;
  (if bool_decide (cache_keys = []) then mret tt
   else meta_call (λ i, blob_remove (env_now i) cache_keys));;
  task_id ← match send_metadata_task, refresh with
            | true, Some enqueue => t ← clift (enqueue project_id node_ids); mret (Some t)
            | _, _ => mret None
            end;
  mret {| cleared_keys := cache_keys; clear_task_id := task_id |}.

Definition ClearProjectCache (refresh : option (string → option (list string) → outcome cache_exn string))
    (project_id : string) (node_ids : option (list string)) (send_metadata_task : bool) : C S ClearCacheResult :=
  data_result ← ClearDataCache project_id node_ids;
  metadata_result ← ClearMetadataCache refresh project_id node_ids send_metadata_task;
  mret {| cleared_keys := cleared_keys data_result ++ cleared_keys metadata_result;
          clear_task_id := clear_task_id metadata_result |}.

(** ** Dataframes of the active generation *)

(** The active generation, or the error of its absence. *)
Definition active_generation (project_id node_id : string) : C S ActiveDataFrameGeneration :=
  payload ← data_call (λ i, blob_get (env_now i) (dataframe_active_key project_id node_id));
  match payload with
  | None => craise (DataFrameMetadataNotFoundError "Active DataFrame cache generation not found")
  | Some p =>
      o ← clift (load p);
      match o with
      | OActive a => if ac_format_version a =? DATAFRAME_CACHE_FORMAT_VERSION then mret a
                     else craise (DataFrameMetadataNotFoundError "Active DataFrame cache generation is incompatible")
      | _ => craise (DataFrameMetadataNotFoundError "Active DataFrame cache generation is incompatible")
      end
  end.

(** The manifest stored for an output of the active generation; [valid] are the checks of the
    caller. *)
Definition active_manifest (project_id node_id output_name : string) (valid : DataFrameCacheManifest → string → bool) :
    C S DataFrameCacheManifest :=
  active ← active_generation project_id node_id;
  payload ← data_call (λ i, blob_get (env_now i)
    (dataframe_manifest_key project_id node_id output_name (ac_generation_id active)));
  match payload with
  | None => craise (DataFrameMetadataNotFoundError "DataFrame cache manifest not found")
  | Some p =>
      o ← clift (load p);
      match o with
      | OManifest m => if valid m (ac_generation_id active) then mret m
                       else craise (DataFrameMetadataNotFoundError "DataFrame cache manifest is incompatible or incomplete")
      | _ => craise (DataFrameMetadataNotFoundError "DataFrame cache manifest is incompatible or incomplete")
      end
  end.

Definition has_partitions (m : DataFrameCacheManifest) : C S unit :=
  complete ← data_call (λ i, blob_has_many (env_now i) (cache_key <$> mf_partitions m));
  if (complete : bool) then mret tt
  else craise (DataFramePartitionNotFoundError "DataFrame cache generation has one or more missing partitions").

Definition entry_manifest_valid (project_id node_id output_name : string) (m : DataFrameCacheManifest)
    (generation_id : string) : bool :=
  (mf_format_version m =? DATAFRAME_CACHE_FORMAT_VERSION) && bool_decide (mf_state m = READY) &&
  String.eqb (mf_project_id m) project_id && String.eqb (mf_node_id m) node_id &&
  String.eqb (mf_output_name m) output_name && String.eqb (mf_generation_id m) generation_id &&
  (Z.of_nat (length (mf_partitions m)) =? mf_npartitions m).

Definition manifest_valid (project_id node_id output_name : string) (m : DataFrameCacheManifest)
    (generation_id : string) : bool :=
  entry_manifest_valid project_id node_id output_name m generation_id &&
  (0 <? mf_npartitions m) &&
  (Z.of_nat (length (mf_rows_per_partition m)) =? mf_npartitions m) &&
  bool_decide (part_no <$> mf_partitions m = py_range (mf_npartitions m)).

Definition GetDataFrameManifest (project_id node_id output_name : string) : C S DataFrameCacheManifest :=
  m ← active_manifest project_id node_id output_name (manifest_valid project_id node_id output_name);
  has_partitions m;;
  mret m.

Record GetDataFrameEntryResult := { entry_dataframe : Frame; entry_total_rows : Z; entry_total_partitions : Z }.

(** The loop over the partitions: what is left of the offset and of the limit, and the frame. *)
Fixpoint page_loop (entries : list DataFramePartitionDescriptor) (remaining_offset remaining_limit : Z)
    (cached_df : Frame) : C S Frame :=
  match entries with
  | [] => mret cached_df
  | entry :: entries =>
      if remaining_limit <=? 0 then mret cached_df
      else if rows entry <=? remaining_offset
      then page_loop entries (remaining_offset - rows entry) remaining_limit cached_df
      else
        payload ← data_call (λ i, blob_get (env_now i) (cache_key entry));
        match payload with
        | None => craise (DataFramePartitionNotFoundError "DataFrame cache partition is missing from a READY generation")
        | Some p =>
            o ← clift (load p);
            part_df ← match o with
                      | OFrame f => mret f
                      | OValue v => clift (pd_DataFrame (inr v))
                      | OList items => clift (pd_DataFrame (inl items))
                      | _ => craise (CacheValueError "DataFrame constructor not properly called!")
                      end;
            let sliced := if remaining_offset =? 0 then part_df
                          else iloc_from (Z.to_nat remaining_offset) part_df in
            let sliced := if remaining_limit <? Z.of_nat (length (frame_rows sliced))
                          then iloc_to (Z.to_nat remaining_limit) sliced else sliced in
            page_loop entries 0 (remaining_limit - Z.of_nat (length (frame_rows sliced)))
              (pd_concat cached_df sliced)
        end
  end.

Definition GetDataFrameEntry (project_id node_id output_name : string) (offset limit : Z) : C S GetDataFrameEntryResult :=
  m ← active_manifest project_id node_id output_name (entry_manifest_valid project_id node_id output_name);
  has_partitions m;;
  df ← page_loop (mf_partitions m) (Z.max 0 offset) (Z.max 0 limit) (mf_meta m);
  mret {| entry_dataframe := df;
          entry_total_rows := foldr Z.add 0 (mf_rows_per_partition m);
          entry_total_partitions := mf_npartitions m |}.
End use_cases.
