(* ===== verification/CacheGeneration.v ===== *)
(** Pipeline cache: the generations of the dataframe cache.

    Theorems about [DataFrameExecutionCache]: a restore plan is complete whatever other processes
    do, and a generation that was written is restored with the same frames. *)
From S2P Require Import Prelude CacheKeys CacheStore CacheIndex CacheTypes CacheFlow.

(** ** Programs of [C] *)

Section effects.
Context {S : Type}.

Lemma cbind_ok {A B} (m : C S A) (f : A → C S B) w b w' :
  (m ≫= f) w = (Ok b, w') → ∃ a w1, m w = (Ok a, w1) ∧ f a w1 = (Ok b, w').
Proof. unfold mbind, C_bind. destruct (m w) as [[a|e] w1]; [eauto|done]. Qed.

Lemma cbind_eq {A B} (m : C S A) (f : A → C S B) w a w1 :
  m w = (Ok a, w1) → (m ≫= f) w = f a w1.
Proof. unfold mbind, C_bind. by intros ->. Qed.

Lemma clift_ok {A} (o : outcome cache_exn A) (w w' : CWorld S) a : clift o w = (Ok a, w') → o = Ok a ∧ w' = w.
Proof. unfold clift. by intros [= -> ->]. Qed.

Lemma cret_ok {A} (a b : A) (w w' : CWorld S) : (mret a : C S A) w = (Ok b, w') → b = a ∧ w' = w.
Proof. unfold mret, C_ret. by intros [= -> ->]. Qed.
End effects.

Ltac cinv H :=
  lazymatch type of H with
  | (_ ≫= _) _ = (Ok _, _) =>
      let a := fresh "a" in let w := fresh "w" in let H1 := fresh "Hc" in
      apply cbind_ok in H as (a & w & H1 & H)
  | clift _ _ = (Ok _, _) =>
      let E := fresh "E" in apply clift_ok in H as [E H]
  | mret _ _ = (Ok _, _) => apply cret_ok in H as [H ?]
  end.

Section safety.
Context {S : Type} `{!BlobStore S, !BlobStoreLaws S, !CacheEnv S, !PyData, !CacheCodec CacheObject}.
Implicit Types (w : CWorld S) (g : GenerationId).

(** What the data store shows a call made now. *)
Definition live_at w (i : nat) : gmap string bytes := live (env_now i) (st_data (cw_stores w)).

(** ** Restore plans are complete *)

Lemma collect_manifests_ok g fingerprint names manifests w ms w' :
  collect_manifests g fingerprint names manifests w = (Ok (Some ms), w') →
  dwf manifests →
  (∀ name m, dget manifests name = Some m → _manifest_is_compatible m g name fingerprint = true) →
  dwf ms ∧ (∀ name, name ∈ dkeys ms ↔ name ∈ dkeys manifests ∨ name ∈ names) ∧
  (∀ name m, dget ms name = Some m → _manifest_is_compatible m g name fingerprint = true).
Proof.
  revert manifests w. induction names as [|name names IH]; intros manifests w Hr Hwf Hm; cbn [collect_manifests] in Hr.
  { cinv Hr. injection Hr as ->. split_and!; [done|set_solver|done]. }
  cinv Hr. destruct a as [[m| | | | |]|]; try by cinv Hr.
  destruct (_manifest_is_compatible m g name fingerprint) eqn:E; [|by cinv Hr].
  destruct (IH _ _ Hr) as (H1 & H2 & H3); [by apply dwf_dset| |].
  - intros name' m'. rewrite dget_dset. case_decide; [intros [= <-]; by subst|apply Hm].
  - split_and!; [done| |done]. intros name'. rewrite H2, elem_of_dkeys_dset. set_solver.
Qed.

Lemma has_many_ok keys w b w' :
  obj_has_many keys w = (Ok b, w') →
  b = bool_decide (Forall (λ k, is_Some (live_at w' (Nat.pred (cw_calls w')) !! k)) keys).
Proof.
  unfold obj_has_many, data_call, store_call, live_at. destruct (env_fault _); [done|].
  destruct (blob_has_many_ok (env_now (cw_calls w)) keys (st_data (env_others (cw_calls w) (cw_stores w))))
    as (s' & -> & Hs & _).
  intros [= <- <-]. simpl. apply bool_decide_ext. by rewrite Hs.
Qed.

(** The snapshot of a plan is one of format 3 of the node, with the outputs that are asked for: each is a
    dataframe output, with metadata, or is stored in the snapshot, and never both. *)
Record snapshot_restorable (project_id node_id node_name : string) (fingerprint : option string) (expected : list string)
    (s : DataFrameExecutionSnapshot) : Prop := {
  sr_format : sn_format_version s = 3;
  sr_node : sn_project_id s = project_id ∧ sn_node_id s = node_id ∧ sn_node_name s = node_name;
  sr_outputs : sn_output_names s = expected;
  sr_fingerprint f : fingerprint = Some f → sn_node_runtime_fingerprint s = f;
  sr_others name : name ∈ dkeys (sn_non_dataframe_outputs s) ↔ (name ∈ expected) ∧ name ∉ sn_dataframe_output_names s;
  sr_metadata name : name ∈ sn_dataframe_output_names s → ∃ v, dget (sn_metadata s) name = Some (Some v);
}.

(** A manifest that can be restored: of format 3, ready, of the generation, the node and the implementation of the
    snapshot, with partitions numbered from zero without gaps, a row count for each, the fingerprint of its own
    schema, and divisions that are either unknown and absent, or known and one more than the partitions. *)
Record manifest_restorable (s : DataFrameExecutionSnapshot) (name : string) (m : DataFrameCacheManifest) : Prop := {
  mr_format : mf_format_version m = 3;
  mr_state : mf_state m = READY;
  mr_node : mf_project_id m = sn_project_id s ∧ mf_node_id m = sn_node_id s ∧ mf_generation_id m = sn_generation_id s;
  mr_fingerprint : mf_node_runtime_fingerprint m = sn_node_runtime_fingerprint s;
  mr_output : mf_output_name m = name;
  mr_partitions : 0 < mf_npartitions m ∧ Z.of_nat (length (mf_partitions m)) = mf_npartitions m ∧
    ∀ i d, mf_partitions m !! i = Some d → part_no d = Z.of_nat i;
  mr_rows : length (mf_rows_per_partition m) = length (mf_partitions m);
  mr_schema : mf_schema_fingerprint m = create_dataframe_schema_fingerprint (mf_meta m);
  mr_divisions : if mf_known_divisions m
                 then ∃ d, mf_divisions m = Some d ∧ Z.of_nat (length d) = mf_npartitions m + 1
                 else mf_divisions m = None;
}.

Lemma py_range_lookup n (i : nat) x : py_range n !! i = Some x → x = Z.of_nat i.
Proof. unfold py_range. intros [-> _]%lookup_seqZ. lia. Qed.

Lemma compatible_restorable s g name m :
  sn_project_id s = gid_project g → sn_node_id s = gid_node g → sn_generation_id s = gid_generation g →
  _manifest_is_compatible m g name (sn_node_runtime_fingerprint s) = true → manifest_restorable s name m.
Proof.
  intros Ep En Eg Hm. unfold _manifest_is_compatible in Hm.
  rewrite !andb_true_iff, !String.eqb_eq, !bool_decide_eq_true, !Z.eqb_eq, Z.ltb_lt in Hm.
  destruct Hm as [[[[[[[[[[[[M1 M2] M3] M4] M5] M6] M7] M8] M9] M10] M11] M12] M13]. split; try congruence; try (split_and!; congruence).
  - exact M1.
  - split_and!; [done|done|]. intros i d Hd. apply (py_range_lookup (mf_npartitions m) i (part_no d)).
    by rewrite <-M11, list_lookup_fmap, Hd.
  - lia.
  - destruct (mf_known_divisions m), (mf_divisions m) as [d|]; try done. exists d. split; [done|]. by apply Z.eqb_eq.
Qed.

Lemma same_keys_spec a b : same_keys a b = true → ∀ k, k ∈ a ↔ k ∈ b.
Proof.
  unfold same_keys. rewrite andb_true_iff, !forallb_forall. intros [K1 K2] k.
  setoid_rewrite bool_decide_eq_true in K1. setoid_rewrite bool_decide_eq_true in K2.
  split; intros Hk; [apply K1|apply K2]; by apply list_elem_of_In.
Qed.

Lemma snapshot_compatible_spec s g node_name fingerprint expected :
  snapshot_is_compatible s g node_name fingerprint expected = true →
  snapshot_restorable (gid_project g) (gid_node g) node_name fingerprint expected s ∧ sn_generation_id s = gid_generation g.
Proof.
  unfold snapshot_is_compatible. rewrite !andb_true_iff, !String.eqb_eq, bool_decide_eq_true, Z.eqb_eq.
  intros [[[[[[[[S1 S2] S3] S4] S5] S6] S7] S8] S9]. split; [|done]. split; try done.
  - intros f ->. by apply String.eqb_eq.
  - intros name. rewrite (same_keys_spec _ _ S8), list_elem_of_filter. tauto.
  - intros name Hn. rewrite forallb_forall in S9. specialize (S9 name (proj1 (list_elem_of_In _ _) Hn)).
    destruct (dget (sn_metadata s) name) as [[v|]|]; [by exists v|done..].
Qed.

(** C15. A plan that is returned is complete, whatever other processes did meanwhile: its snapshot is one of
    format 3 of the requested node, with exactly the requested outputs ([snapshot_restorable]); it has exactly
    one manifest per dataframe output; every manifest is a ready one of format 3, of the same node, generation and
    implementation, whose partitions are numbered from zero without gaps, with a row count for each, whose schema
    is that of its meta, and whose divisions agree with the number of partitions ([manifest_restorable]); and
    every partition could be read when the plan was returned. *)
Theorem restore_plan_is_complete project_id node_id node_name fingerprint expected w plan w' :
  get_restore_plan project_id node_id node_name fingerprint expected w = (Ok (Some plan), w') →
  snapshot_restorable project_id node_id node_name fingerprint expected (rp_snapshot plan) ∧
  dwf (rp_manifests plan) ∧
  (∀ name, name ∈ dkeys (rp_manifests plan) ↔ name ∈ sn_dataframe_output_names (rp_snapshot plan)) ∧
  (∀ name m, dget (rp_manifests plan) name = Some m → manifest_restorable (rp_snapshot plan) name m) ∧
  Forall (λ k, is_Some (live_at w' (Nat.pred (cw_calls w')) !! k)) (partition_keys (rp_manifests plan)).
Proof.
  unfold get_restore_plan. intros Hr. cinv Hr. destruct a as [[| |active| | |]|]; try by cinv Hr.
  destruct (ac_format_version active =? _) eqn:Ev; simpl in Hr; [|by cinv Hr].
  cinv Hr. destruct a as [[|snapshot| | | |]|]; try by cinv Hr.
  destruct (snapshot_is_compatible _ _ _ _ _) eqn:Ec; simpl in Hr; [|by cinv Hr].
  cinv Hr. destruct a as [ms|]; [|by cinv Hr]. cinv Hr. cinv Hr. subst. apply has_many_ok in Hc2.
  destruct a; [|done]. injection Hr as ->. cbn [rp_snapshot rp_manifests].
  symmetry in Hc2. apply bool_decide_eq_true in Hc2.
  apply snapshot_compatible_spec in Ec as [Hs Hg]. cbn [gid_project gid_node gid_generation] in Hs, Hg.
  apply collect_manifests_ok in Hc1 as (Hwf & Hkeys & Hcomp); [|constructor|done].
  assert (or_str fingerprint (sn_node_runtime_fingerprint snapshot) = sn_node_runtime_fingerprint snapshot) as Efp.
  { unfold or_str. destruct fingerprint as [f|]; [|done]. rewrite (sr_fingerprint _ _ _ _ _ _ Hs f eq_refl). by case_match. }
  rewrite Efp in Hcomp. destruct (sr_node _ _ _ _ _ _ Hs) as (Ep & En & _). split_and!; try done.
  - intros name. rewrite Hkeys. split; [|by right]. intros [Hn|]; [|done]. by apply elem_of_nil in Hn.
  - intros name m Hm. specialize (Hcomp name m Hm). by eapply compatible_restorable in Hcomp.
Qed.
End safety.
