(* ===== verification/CacheRoundtrip.v ===== *)
(** Pipeline cache: a generation that was written is restored.

    [write_generation] makes the calls of one execution of a node in the order of
    [src/node_dsl/base_node/df_output.py]: it begins every dataframe output, stages the
    snapshot, and as each dataframe is computed stores its partitions, in any order, and commits
    it. Without interference and before anything expires, the restore plan then names exactly
    these outputs and loading it gives the same frames. *)
From S2P Require Import Prelude CacheKeys CacheStore CacheIndex CacheTypes CacheFlow CacheGeneration.

Lemma Forall_choose {A B} (P : A → B → Prop) l : Forall (λ x, ∃ y, P x y) l → ∃ k, Forall2 P l k.
Proof. induction 1 as [|x l (y & Hy) _ (k & Hk)]; [by exists []|]. exists (y :: k). by constructor. Qed.

Lemma NoDup_fst_functional {A B} (l : list (A * B)) x y z : NoDup l.*1 → (x, y) ∈ l → (x, z) ∈ l → y = z.
Proof.
  induction l as [|[x' y'] l IH]; [set_solver|]. intros [Hn Hnd]%NoDup_cons.
  intros [E1|H1]%elem_of_cons [E2|H2]%elem_of_cons; simplify_eq/=; [done| | |by auto].
  all: destruct Hn; apply list_elem_of_fmap; by eexists (_, _).
Qed.

Section roundtrip.
Context {S : Type} `{HB : !BlobStore S, HL : !BlobStoreLaws S, HE : !CacheEnv S, HD : !PyData,
  HC : !CacheCodec CacheObject, HCL : !CacheCodecLaws CacheObject}.
Implicit Types (w : CWorld S) (g : GenerationId).

(** No interference, no failure, and clocks that do not go back. *)
Record quiet : Prop := {
  quiet_others i (st : Stores S) : env_others i st = st;
  quiet_fault i : env_fault i = None;
  quiet_clock i j : (i ≤ j)%nat → env_now i ≤ env_now j;
  quiet_clock' i : env_now i ≤ env_now' i ∧ env_now' i ≤ env_now (Datatypes.S i);
}.

Context (Hq : quiet) (ttl : option Z).

(** What is written with [ttl] is not expired during the run. *)
Definition lasting w : Prop :=
  ∃ t, resolve_ttl ttl (store_ttl (st_data (cw_stores w))) = Ok t ∧ ∀ i j, env_now j < env_now i + t.

(** From [w] to [w'] only the keys [ks] were written. *)
Definition touches (ks : list string) w w' : Prop :=
  (cw_calls w ≤ cw_calls w')%nat ∧
  store_ttl (st_data (cw_stores w')) = store_ttl (st_data (cw_stores w)) ∧
  ∀ i k, (cw_calls w' ≤ i)%nat → k ∉ ks → live_at w' i !! k = live_at w i !! k.

(** [o] can be read at [key] from now on. *)
Definition holds w (key : string) (o : CacheObject) : Prop :=
  ∀ i, (cw_calls w ≤ i)%nat → ∃ p, live_at w i !! key = Some p ∧ decode p = Ok o.

(** Whatever is read at [key] from now on satisfies [P]. *)
Definition only w (key : string) (P : CacheObject → Prop) : Prop :=
  ∀ i p, (cw_calls w ≤ i)%nat → live_at w i !! key = Some p → ∃ o, decode p = Ok o ∧ P o.

Lemma touches_refl w : touches [] w w.
Proof. by split_and!. Qed.

Lemma touches_trans ks ks' w1 w2 w3 : touches ks w1 w2 → touches ks' w2 w3 → touches (ks ++ ks') w1 w3.
Proof.
  intros (H1 & H2 & H3) (H4 & H5 & H6). split; [lia|]. split; [congruence|].
  intros i k ? Hk. rewrite elem_of_app in Hk. rewrite H6, H3; [done|lia|tauto|lia|tauto].
Qed.

Lemma touches_weaken ks ks' w w' : (∀ k, k ∈ ks → k ∈ ks') → touches ks w w' → touches ks' w w'.
Proof. intros Hs (H1 & H2 & H3). split_and!; [done..|]. intros i k Hi Hk. apply H3; [done|]. auto. Qed.

Lemma touches_lasting ks w w' : touches ks w w' → lasting w → lasting w'.
Proof. intros (_ & E & _) (t & Ht & ?). exists t. rewrite E. done. Qed.

Lemma touches_holds ks w w' key o : touches ks w w' → key ∉ ks → holds w key o → holds w' key o.
Proof. intros (Hc & _ & H3) Hk Hh i Hi. rewrite H3 by done. apply Hh. lia. Qed.

Lemma touches_only ks w w' key P : touches ks w w' → key ∉ ks → only w key P → only w' key P.
Proof. intros (Hc & _ & H3) Hk Hh i p Hi Hp. rewrite H3 in Hp by done. eapply Hh; [|done]. lia. Qed.

Lemma holds_only w key o (P : CacheObject → Prop) : holds w key o → P o → only w key P.
Proof. intros Hh HP i p Hi Hp. destruct (Hh i Hi) as (p' & Hp' & Hd). simplify_eq. eauto. Qed.

(** ** Calls *)

Lemma data_call_quiet {A} (op : nat → S → outcome cache_exn A * S) w :
  data_call op w =
  let r := op (cw_calls w) (st_data (cw_stores w)) in
  (r.1, {| cw_stores := set_data (cw_stores w) r.2; cw_calls := Datatypes.S (cw_calls w) |}).
Proof.
  unfold data_call, store_call. rewrite (quiet_fault Hq), (quiet_others Hq).
  by destruct (op (cw_calls w) (st_data (cw_stores w))).
Qed.

Lemma read_touches w s' :
  same_from live (env_now (cw_calls w)) (st_data (cw_stores w)) s' →
  store_ttl s' = store_ttl (st_data (cw_stores w)) →
  touches [] w {| cw_stores := set_data (cw_stores w) s'; cw_calls := Datatypes.S (cw_calls w) |}.
Proof.
  intros Hs E. split; [simpl; lia|]. split; [done|]. intros i k Hi _. unfold live_at; simpl in *.
  rewrite Hs; [done|]. apply (quiet_clock Hq). lia.
Qed.

Lemma get_encoded_quiet key w :
  ∃ w', get_encoded key w = (Ok (live_at w (cw_calls w) !! key), w') ∧ touches [] w w' ∧
        cw_calls w' = Datatypes.S (cw_calls w).
Proof.
  unfold get_encoded. rewrite data_call_quiet.
  destruct (blob_get_ok (env_now (cw_calls w)) key (st_data (cw_stores w))) as (s' & -> & Hs & E).
  eexists. split; [done|]. split; [by apply read_touches|done].
Qed.

Lemma obj_get_holds key o w :
  holds w key o → ∃ w', obj_get key w = (Ok (Some o), w') ∧ touches [] w w'.
Proof.
  intros Hh. destruct (Hh (cw_calls w)) as (p & Hp & Hd); [done|].
  destruct (get_encoded_quiet key w) as (w' & E & Ht & _). exists w'. split; [|done].
  unfold obj_get. rewrite (cbind_eq _ _ _ _ _ E), Hp. unfold mbind, C_bind, clift. by rewrite Hd.
Qed.

Lemma obj_get_only key P w :
  only w key P → ∃ r w', obj_get key w = (Ok r, w') ∧ touches [] w w' ∧ (∀ o, r = Some o → P o).
Proof.
  intros Ho. destruct (get_encoded_quiet key w) as (w' & E & Ht & _).
  destruct (live_at w (cw_calls w) !! key) as [p|] eqn:Ep.
  - destruct (Ho (cw_calls w) p) as (o & Hd & HP); [done..|]. exists (Some o), w'. split; [|split; [done|]].
    + unfold obj_get. rewrite (cbind_eq _ _ _ _ _ E). unfold mbind, C_bind, clift. by rewrite Hd.
    + by intros ? [= ->].
  - exists None, w'. split; [|done]. unfold obj_get. by rewrite (cbind_eq _ _ _ _ _ E).
Qed.

Lemma written_live w key payload t now s' i :
  env_now (cw_calls w) ≤ now → now ≤ env_now (Datatypes.S (cw_calls w)) →
  written live now key payload t (st_data (cw_stores w)) s' →
  (∀ i j, env_now j < env_now i + t) → (cw_calls w < i)%nat →
  live_at {| cw_stores := set_data (cw_stores w) s'; cw_calls := Datatypes.S (cw_calls w) |} i =
  <[key := payload]> (live_at w i).
Proof.
  intros H1 H2 Hw Ht Hi. unfold live_at; simpl. pose proof (quiet_clock Hq (Datatypes.S (cw_calls w)) i ltac:(lia)).
  pose proof (Ht (cw_calls w) i). rewrite Hw by lia. rewrite decide_True by lia. done.
Qed.

Lemma put_encoded_quiet key payload w :
  lasting w →
  ∃ w', put_encoded key payload ttl w = (Ok tt, w') ∧ touches [key] w w' ∧
        ∀ i, (cw_calls w' ≤ i)%nat → live_at w' i !! key = Some payload.
Proof.
  intros (t & Ht & Hl). unfold put_encoded. rewrite data_call_quiet.
  destruct (blob_put_ok (env_now (cw_calls w)) key payload ttl t _ Ht) as (s' & -> & Hw & E).
  pose proof (λ i, written_live w key payload t _ s' i (Z.le_refl _)
    (quiet_clock Hq (cw_calls w) (Datatypes.S (cw_calls w)) (Nat.le_succ_diag_r _)) Hw Hl) as Hlive.
  eexists. split; [done|]. split.
  - split; [simpl; lia|]. split; [done|]. intros i k Hi Hk. cbn [cw_calls] in Hi. cbn [snd].
    rewrite Hlive by lia. rewrite lookup_insert_ne; [done|]. set_solver.
  - intros i Hi. cbn [cw_calls] in Hi. cbn [snd]. rewrite Hlive by lia. by rewrite lookup_insert_eq.
Qed.

Lemma cas_quiet key expected payload w :
  lasting w →
  ∃ w', cw_calls w' = Datatypes.S (cw_calls w) ∧
    if decide (live_at w (cw_calls w) !! key = expected)
    then compare_and_set_encoded key expected payload ttl w = (Ok true, w') ∧ touches [key] w w' ∧
         ∀ i, (cw_calls w' ≤ i)%nat → live_at w' i !! key = Some payload
    else compare_and_set_encoded key expected payload ttl w = (Ok false, w') ∧ touches [] w w'.
Proof.
  intros (t & Ht & Hl). unfold compare_and_set_encoded. rewrite data_call_quiet.
  destruct (quiet_clock' Hq (cw_calls w)) as [Hc1 Hc2].
  destruct (blob_cas_ok (env_now (cw_calls w)) (env_now' (cw_calls w)) key expected payload ttl t _ Hc1 Ht)
    as (s' & E & Hcase).
  eexists {| cw_stores := set_data (cw_stores w) s'; cw_calls := Datatypes.S (cw_calls w) |}.
  split; [done|]. case_decide as Hd.
  - rewrite decide_True by exact Hd. destruct Hcase as [-> Hw]. split; [done|].
    pose proof (λ i, written_live w key payload t _ s' i Hc1 Hc2 Hw Hl) as Hlive. split.
    + split; [simpl; lia|]. split; [done|]. intros i k Hi Hk. cbn [cw_calls] in Hi.
      rewrite Hlive by lia. rewrite lookup_insert_ne; [done|]. set_solver.
    + intros i Hi. cbn [cw_calls] in Hi. rewrite Hlive by lia. by rewrite lookup_insert_eq.
  - rewrite decide_False by exact Hd. destruct Hcase as [-> Hs]. split; [done|]. by apply read_touches.
Qed.

(** What cannot be read any more will not be read later. *)
Lemma live_at_antitone w i j key :
  (i ≤ j)%nat → live_at w i !! key = None → live_at w j !! key = None.
Proof.
  intros Hij Hn. apply (quiet_clock Hq) in Hij. eapply lookup_weaken_None; [exact Hn|].
  by apply live_antitone.
Qed.

Lemma live_at_next w i j key p :
  (i ≤ j)%nat → live_at w i !! key = Some p → live_at w j !! key = Some p ∨ live_at w j !! key = None.
Proof.
  intros Hij Hp. destruct (live_at w j !! key) as [p'|] eqn:E; [left|by right].
  apply (quiet_clock Hq) in Hij. unfold live_at in *.
  assert (live (env_now i) (st_data (cw_stores w)) !! key = Some p') by (eapply lookup_weaken; [exact E|by apply live_antitone]).
  congruence.
Qed.

Context (Hencode : ∀ o : CacheObject, is_ok (encode o) = true).

Lemma obj_put_quiet key o w :
  lasting w → ∃ w', obj_put key o ttl w = (Ok tt, w') ∧ touches [key] w w' ∧ holds w' key o.
Proof.
  intros Hl. unfold obj_put. pose proof (Hencode o) as He. destruct (encode o) as [p|] eqn:E; [|done].
  destruct (put_encoded_quiet key p w Hl) as (w' & Ew & Ht & Hp).
  exists w'. split; [|split; [done|]].
  - unfold mbind, C_bind at 1, clift. by rewrite Ew.
  - intros i Hi. exists p. split; [by apply Hp|]. by apply load_dump.
Qed.

(** ** Activation *)

Section generation.
Context (g : GenerationId) (order : DataFrameExecutionOrder).

(** What the active key may hold for [g] to replace it. *)
Definition replaceable (o : CacheObject) : Prop := activation_decided g order (Some o) = None.

(** The active key holds [g]. *)
Definition is_active w : Prop :=
  ∃ a, holds w (active_key g) (OActive a) ∧ ac_format_version a = DATAFRAME_CACHE_FORMAT_VERSION ∧
       ac_generation_id a = gid_generation g ∧ ac_execution_order a = Some order.

(** One iteration of the loop on a replaceable key: it swaps, or the key has just expired. *)
Lemma activate_iteration fuel payload w :
  lasting w → only w (active_key g) replaceable →
  ∃ w', touches [active_key g] w w' ∧
    ((activate_loop ttl (Datatypes.S fuel) g order payload w = (Ok true, w') ∧
      ∀ i, (cw_calls w' ≤ i)%nat → live_at w' i !! active_key g = Some payload) ∨
     (activate_loop ttl (Datatypes.S fuel) g order payload w = activate_loop ttl fuel g order payload w' ∧
      live_at w (cw_calls w) !! active_key g ≠ None ∧
      touches [] w w' ∧ ∀ i, (cw_calls w' ≤ i)%nat → live_at w' i !! active_key g = None)).
Proof.
  intros Hl Ho. cbn [activate_loop]. destruct (get_encoded_quiet (active_key g) w) as (w1 & E1 & Ht1 & Hc1).
  rewrite (cbind_eq _ _ _ _ _ E1).
  set (cur := live_at w (cw_calls w) !! active_key g) in *.
  assert (∃ o, (match cur with
                | None => mret None
                | Some p => o ← clift (decode p); mret (Some o)
                end : C S (option CacheObject)) w1 = (Ok o, w1) ∧ activation_decided g order o = None) as (o & Eo & Ed).
  { destruct cur as [p|] eqn:Ecur; [|by exists None].
    destruct (Ho (cw_calls w) p) as (o & Hd & HP); [done..|]. exists (Some o). split; [|exact HP].
    unfold mbind, C_bind, clift. by rewrite Hd. }
  rewrite (cbind_eq _ _ _ _ _ Eo), Ed.
  destruct (cas_quiet (active_key g) cur payload w1) as (w2 & Hc2 & Hcas); [by eapply touches_lasting|].
  exists w2. destruct Ht1 as (Hle & Httl & Hsame) eqn:Et1.
  assert (live_at w1 (cw_calls w1) !! active_key g = live_at w (cw_calls w1) !! active_key g) as Es
    by (apply Hsame; [lia|set_solver]).
  case_decide as Ecas.
  - destruct Hcas as (Ec & Ht2 & Hp). split; [exact (touches_trans _ _ _ _ _ (conj Hle (conj Httl Hsame)) Ht2)|].
    left. split; [|done]. by rewrite (cbind_eq _ _ _ _ _ Ec).
  - destruct Hcas as (Ec & Ht2).
    pose proof (touches_trans _ _ _ _ _ (conj Hle (conj Httl Hsame)) Ht2) as Ht.
    split; [by eapply touches_weaken; [|exact Ht]; set_solver|]. right.
    rewrite (cbind_eq _ _ _ _ _ Ec). split; [done|].
    rewrite Es in Ecas. destruct cur as [p|] eqn:Ecur.
    + split; [done|]. split; [done|]. intros i Hi. destruct Ht as (_ & _ & Hsame').
      rewrite Hsame' by (done || set_solver).
      destruct (live_at_next w (cw_calls w) (cw_calls w1) (active_key g) p) as [?|Hn]; [lia|done|done|].
      eapply live_at_antitone; [|exact Hn]. lia.
    + destruct Ecas. eapply live_at_antitone; [|exact Ecur]. lia.
Qed.

(** The candidate of [g], encoded. *)
Lemma activate_if_newer_eq w fuel :
  ∃ a payload, encode (OActive a) = Ok payload ∧ ac_format_version a = DATAFRAME_CACHE_FORMAT_VERSION ∧
    ac_generation_id a = gid_generation g ∧ ac_execution_order a = Some order ∧
    _activate_if_newer ttl fuel g order w = activate_loop ttl fuel g order payload w.
Proof.
  set (a := {| ac_format_version := DATAFRAME_CACHE_FORMAT_VERSION; ac_generation_id := gid_generation g;
               ac_activated_at := env_time (cw_calls w); ac_execution_order := Some order |}).
  pose proof (Hencode (OActive a)) as He. destruct (encode (OActive a)) as [payload|] eqn:E; [|done].
  exists a, payload. split_and!; [done..|]. unfold _activate_if_newer, mbind, C_bind, now_time, clift.
  fold a. by rewrite E.
Qed.

Lemma activate_if_newer_quiet w fuel :
  lasting w → only w (active_key g) replaceable →
  ∃ w', _activate_if_newer ttl (2 + fuel) g order w = (Ok true, w') ∧ touches [active_key g] w w' ∧ is_active w'.
Proof.
  intros Hl Ho. destruct (activate_if_newer_eq w (2 + fuel)) as (a & payload & E & Ev & Eg & Eo & ->).
  assert (∀ w', (∀ i, (cw_calls w' ≤ i)%nat → live_at w' i !! active_key g = Some payload) → is_active w') as Hact.
  { intros w' Hw. exists a. split_and!; try done. intros i Hi. exists payload. split; [by apply Hw|by apply load_dump]. }
  destruct (activate_iteration (Datatypes.S fuel) payload w Hl Ho) as (w1 & Ht1 & [[Er Hp]|(Er & _ & Ht1' & Hn)]).
  { exists w1. split; [exact Er|]. auto. }
  destruct (activate_iteration fuel payload w1) as (w2 & Ht2 & [[Er2 Hp]|(_ & Hne & _)]).
  - by eapply touches_lasting.
  - intros i p Hi Hp. rewrite Hn in Hp by done. done.
  - exists w2. split; [by rewrite <-Er2|]. split; [|by auto].
    exact (touches_trans _ _ _ _ _ Ht1' Ht2).
  - by rewrite Hn in Hne.
Qed.

(** A generation that is active stays so. *)
Lemma activate_again w fuel :
  is_active w →
  ∃ w', _activate_if_newer ttl (Datatypes.S fuel) g order w = (Ok true, w') ∧ touches [] w w'.
Proof.
  intros (a & Hh & Hv & Hg & Ho).
  destruct (activate_if_newer_eq w (Datatypes.S fuel)) as (? & payload & _ & _ & _ & _ & ->). cbn [activate_loop].
  destruct (Hh (cw_calls w)) as (p & Hp & Hd); [done|].
  destruct (get_encoded_quiet (active_key g) w) as (w1 & E1 & Ht1 & _). rewrite Hp in E1.
  exists w1. split; [|done]. rewrite (cbind_eq _ _ _ _ _ E1). unfold mbind, C_bind, clift. rewrite Hd. simpl.
  rewrite Hv, Z.eqb_refl, Ho. rewrite decide_False by (by intros [_ ?]). rewrite decide_True by done.
  by rewrite Hg, String.eqb_refl.
Qed.

Lemma holds_inj w key o o' : holds w key o → holds w key o' → o = o'.
Proof.
  intros H1 H2. destruct (H1 (cw_calls w)) as (p & Hp & Hd); [done|].
  destruct (H2 (cw_calls w)) as (p' & Hp' & Hd'); [done|]. congruence.
Qed.

(** ** Activation of the node *)

(** The snapshot of the generation, and a manifest that counts as ready for it. *)
Context (snapshot : DataFrameExecutionSnapshot).
Hypothesis Hversion : sn_format_version snapshot = DATAFRAME_CACHE_FORMAT_VERSION.
Hypothesis Horder : sn_execution_order snapshot = Some order.

Definition counts_as_ready (m : DataFrameCacheManifest) : Prop :=
  mf_state m = READY ∧ mf_format_version m = DATAFRAME_CACHE_FORMAT_VERSION ∧
  mf_node_runtime_fingerprint m = sn_node_runtime_fingerprint snapshot.

Definition all_ready w (names : list string) : Prop :=
  ∀ name, name ∈ names → ∃ m, holds w (manifest_key g name) (OManifest m) ∧ counts_as_ready m.

Definition have_manifests w (names : list string) : Prop :=
  ∀ name, name ∈ names → ∃ m, holds w (manifest_key g name) (OManifest m).

Lemma touches_all_ready ks w w' names :
  touches ks w w' → (∀ name, name ∈ names → manifest_key g name ∉ ks) → all_ready w names → all_ready w' names.
Proof. intros Ht Hk Ha name Hn. destruct (Ha name Hn) as (m & Hm & ?). eauto using touches_holds. Qed.

Lemma touches_have_manifests ks w w' names :
  touches ks w w' → (∀ name, name ∈ names → manifest_key g name ∉ ks) → have_manifests w names → have_manifests w' names.
Proof. intros Ht Hk Ha name Hn. destruct (Ha name Hn) as (m & Hm). eauto using touches_holds. Qed.

Lemma outputs_ready_quiet names w :
  have_manifests w names →
  ∃ b w', outputs_ready g snapshot names w = (Ok b, w') ∧ touches [] w w' ∧ (all_ready w names → b = true).
Proof.
  revert w; induction names as [|name names IH]; intros w Hm; cbn [outputs_ready].
  { exists true, w. split_and!; [done|apply touches_refl|done]. }
  destruct (Hm name) as (m & Hh); [set_solver|]. destruct (obj_get_holds _ _ _ Hh) as (w1 & E1 & Ht1).
  rewrite (cbind_eq _ _ _ _ _ E1). destruct (_ && _ && _) eqn:E.
  - destruct (IH w1) as (b & w2 & E2 & Ht2 & Hb).
    { eapply touches_have_manifests; [exact Ht1|set_solver|]. intros n Hn. apply Hm. set_solver. }
    exists b, w2. split; [exact E2|]. split; [exact (touches_trans _ _ _ _ _ Ht1 Ht2)|].
    intros Ha. apply Hb. eapply touches_all_ready; [exact Ht1|set_solver|]. intros n Hn. apply Ha. set_solver.
  - exists false, w1. split_and!; [done|done|]. intros Ha. destruct (Ha name) as (m' & Hh' & Hr1 & Hr2 & Hr3); [set_solver|].
    pose proof (holds_inj _ _ _ _ Hh Hh') as [= ->]. rewrite Hr1, Hr2, Hr3, String.eqb_refl in E. done.
Qed.

Definition activatable w : Prop := is_active w ∨ only w (active_key g) replaceable.

Lemma activate_quiet w fuel :
  lasting w → activatable w →
  ∃ w', _activate_if_newer ttl (2 + fuel) g order w = (Ok true, w') ∧ touches [active_key g] w w' ∧ is_active w'.
Proof.
  intros Hl [Ha|Ho]; [|by apply activate_if_newer_quiet].
  destruct (activate_again w (Datatypes.S fuel) Ha) as (w' & E & Ht). exists w'. split; [exact E|].
  split; [by eapply touches_weaken; [|exact Ht]; set_solver|].
  destruct Ha as (a & Hh & ?). exists a. split; [|done]. eapply touches_holds; [exact Ht|set_solver|done].
Qed.

Lemma activatable_touches ks w w' : touches ks w w' → active_key g ∉ ks → activatable w → activatable w'.
Proof.
  intros Ht Hk [(a & Hh & ?)|Ho]; [left; exists a|right]; eauto using touches_holds, touches_only.
Qed.

Lemma try_activate_quiet fuel w :
  lasting w → activatable w → holds w (snapshot_key g) (OSnapshot snapshot) →
  have_manifests w (sn_dataframe_output_names snapshot) →
  ∃ b w', _try_activate_node_generation ttl (2 + fuel) g w = (Ok b, w') ∧ touches [active_key g] w w' ∧
    activatable w' ∧ (all_ready w (sn_dataframe_output_names snapshot) → is_active w').
Proof.
  intros Hl Ha Hs Hm. unfold _try_activate_node_generation.
  destruct (obj_get_holds _ _ _ Hs) as (w1 & E1 & Ht1). rewrite (cbind_eq _ _ _ _ _ E1).
  rewrite Hversion, Z.eqb_refl, Horder. cbn [negb].
  destruct (outputs_ready_quiet (sn_dataframe_output_names snapshot) w1) as (b & w2 & E2 & Ht2 & Hb).
  { eapply touches_have_manifests; [exact Ht1|set_solver|done]. }
  rewrite (cbind_eq _ _ _ _ _ E2). pose proof (touches_trans _ _ _ _ _ Ht1 Ht2) as Ht. simpl in Ht.
  destruct b.
  - destruct (activate_quiet w2 fuel) as (w3 & E3 & Ht3 & Hact).
    + by eapply touches_lasting.
    + eapply activatable_touches; [exact Ht|set_solver|done].
    + exists true, w3. split; [exact E3|]. split; [exact (touches_trans _ _ _ _ _ Ht Ht3)|].
      split; [by left|done].
  - exists false, w2. split; [done|]. split; [by eapply touches_weaken; [|exact Ht]; set_solver|].
    split; [by eapply activatable_touches; [exact Ht|set_solver|done]|].
    intros Hr. assert (false = true); [|done]. apply Hb. eapply touches_all_ready; [exact Ht1|set_solver|done].
Qed.

(** ** The outputs of an execution *)

Record Output := {
  out_name : string;
  out_meta : Frame;
  out_known_divisions : bool;
  out_divisions : option (list Obj);
  out_parts : list (Z * Frame);   (* in the order in which they are computed *)
}.

Definition npartitions (o : Output) : Z := Z.of_nat (length (out_parts o)).

(** Partitions are numbered without gaps, and known divisions have one bound more. *)
Definition output_wf (o : Output) : Prop :=
  plain (out_name o) = true ∧ out_parts o ≠ [] ∧ (out_parts o).*1 ≡ₚ py_range (npartitions o) ∧
  (out_known_divisions o = true → ∃ d, out_divisions o = Some d ∧ Z.of_nat (length d) = npartitions o + 1).

Hypothesis Hplain : plain (gid_project g) = true ∧ plain (gid_node g) = true ∧ plain (gid_generation g) = true.

Definition part_key (o : Output) (i : Z) : string :=
  dataframe_partition_key (gid_project g) (gid_node g) (out_name o) (gid_generation g) i.

Definition part_keys (o : Output) : list string := part_key o <$> (out_parts o).*1.

Context (fingerprint : string).
Hypothesis Hfingerprint : sn_node_runtime_fingerprint snapshot = fingerprint.

Definition begin_output (o : Output) : C S unit :=
  begin_output_generation ttl g (out_name o) fingerprint (out_meta o) (npartitions o)
    (out_known_divisions o) (out_divisions o);;
  mret tt.

Fixpoint store_parts (o : Output) (parts : list (Z * Frame)) : C S (list DataFramePartitionDescriptor) :=
  match parts with
  | [] => mret []
  | (i, f) :: parts =>
      payload ← clift (encode_partition f);
      d ← put_encoded_partition ttl g (out_name o) i (Z.of_nat (length (frame_rows f))) payload;
      ds ← store_parts o parts;
      mret (d :: ds)
  end.

Definition finish_output (fuel : nat) (o : Output) : C S unit :=
  ds ← store_parts o (out_parts o);
  commit_output_generation ttl fuel g (out_name o) ds;;
  mret tt.

(** *** Keys *)

Lemma keys_differ l l' :
  Forall (λ x, plain x = true) l → Forall (λ x, plain x = true) l' → l ≠ [] → l' ≠ [] →
  py_join ":" l = py_join ":" l' → l = l'.
Proof. intros Hl Hl' ???. by apply (join_inj ":"). Qed.

Ltac key_solver :=
  destruct Hplain as (? & ? & ?);
  intros Hkey; unfold part_key, manifest_key, snapshot_key, active_key in Hkey;
  rewrite ?dataframe_partition_key_join, ?dataframe_manifest_key_join,
    ?dataframe_snapshot_key_join, ?dataframe_active_key_join in Hkey;
  apply keys_differ in Hkey;
  [simplify_eq; auto|repeat constructor; auto using str_of_int_plain..|done|done].

Lemma part_key_inj o o' i j :
  plain (out_name o) = true → plain (out_name o') = true → part_key o i = part_key o' j → out_name o = out_name o' ∧ i = j.
Proof. intros Ho Ho'. key_solver. auto using str_of_int_inj. Qed.

Lemma manifest_key_inj n n' : plain n = true → plain n' = true → manifest_key g n = manifest_key g n' → n = n'.
Proof. intros Ho Ho'. key_solver. Qed.

Lemma part_key_not_manifest o i n : plain (out_name o) = true → plain n = true → part_key o i ≠ manifest_key g n.
Proof. intros Ho Hn. key_solver. Qed.
Lemma part_key_not_snapshot o i : plain (out_name o) = true → part_key o i ≠ snapshot_key g.
Proof. intros Ho. key_solver. Qed.
Lemma part_key_not_active o i : plain (out_name o) = true → part_key o i ≠ active_key g.
Proof. intros Ho. key_solver. Qed.
Lemma manifest_not_snapshot n : plain n = true → manifest_key g n ≠ snapshot_key g.
Proof. intros Hn. key_solver. Qed.
Lemma manifest_not_active n : plain n = true → manifest_key g n ≠ active_key g.
Proof. intros Hn. key_solver. Qed.
Lemma snapshot_not_active : snapshot_key g ≠ active_key g.
Proof. key_solver. Qed.

(** *** Storing and committing an output *)

(** The descriptor that storing partition [i] with frame [f] returns. *)
Definition describes (o : Output) (ip : Z * Frame) (d : DataFramePartitionDescriptor) : Prop :=
  part_no d = ip.1 ∧ cache_key d = part_key o ip.1 ∧ rows d = Z.of_nat (length (frame_rows ip.2)).

Lemma store_parts_quiet o parts w :
  plain (out_name o) = true → NoDup parts.*1 → lasting w →
  ∃ ds w', store_parts o parts w = (Ok ds, w') ∧ touches (part_key o <$> parts.*1) w w' ∧
    Forall2 (describes o) parts ds ∧
    ∀ i f, (i, f) ∈ parts → holds w' (part_key o i) (OFrame f).
Proof.
  intros Hp. revert w; induction parts as [|[i f] parts IH]; intros w Hnd Hl; cbn [store_parts].
  { exists [], w. split_and!; [done|apply touches_refl|constructor|set_solver]. }
  apply NoDup_cons in Hnd as [Hni Hnd].
  unfold encode_partition. pose proof (Hencode (OFrame f)) as He. destruct (encode (OFrame f)) as [p|] eqn:E; [|done].
  destruct (put_encoded_quiet (part_key o i) p w Hl) as (w1 & E1 & Ht1 & Hp1).
  destruct (IH w1) as (ds & w2 & E2 & Ht2 & Hds & Hh); [done|by eapply touches_lasting|].
  eexists (_ :: ds), w2. split_and!.
  - unfold mbind at 1, C_bind at 1, clift at 1. unfold put_encoded_partition.
    change (dataframe_partition_key _ _ (out_name o) _ i) with (part_key o i).
    unfold mbind at 1, C_bind at 1. unfold mbind at 1, C_bind at 1. rewrite E1. simpl.
    by rewrite (cbind_eq _ _ _ _ _ E2).
  - exact (touches_trans _ _ _ _ _ Ht1 Ht2).
  - constructor; [|done]. by split_and!.
  - intros i' f' [[= -> ->]|Hin]%elem_of_cons; [|by apply Hh].
    eapply touches_holds; [exact Ht2| |].
    + intros (j & Hj & Hin)%list_elem_of_fmap. destruct (part_key_inj o o i j Hp Hp Hj) as [_ ->]. done.
    + intros k Hk. exists p. split; [by apply Hp1|by apply load_dump].
Qed.

(** A manifest before and after the commit of [o]. *)
Definition written_for (o : Output) (state : CacheGenerationState) (m : DataFrameCacheManifest) : Prop :=
  mf_state m = state ∧ mf_format_version m = DATAFRAME_CACHE_FORMAT_VERSION ∧
  mf_project_id m = gid_project g ∧ mf_node_id m = gid_node g ∧ mf_output_name m = out_name o ∧
  mf_generation_id m = gid_generation g ∧ mf_node_runtime_fingerprint m = fingerprint ∧
  mf_npartitions m = npartitions o ∧ mf_meta m = out_meta o ∧
  mf_schema_fingerprint m = create_dataframe_schema_fingerprint (out_meta o) ∧
  mf_known_divisions m = out_known_divisions o ∧
  mf_divisions m = (if out_known_divisions o then out_divisions o else None).

Lemma sorted_parts o ds :
  output_wf o → Forall2 (describes o) (out_parts o) ds →
  part_no <$> merge_sort part_no_le ds = py_range (npartitions o) ∧ length ds = length (out_parts o).
Proof.
  intros (_ & _ & Hperm & _) Hds. split; [|by symmetry; eapply Forall2_length].
  apply (StronglySorted_unique Z.le).
  - assert (StronglySorted part_no_le (merge_sort part_no_le ds)) as Hs
      by apply (StronglySorted_merge_sort part_no_le).
    induction Hs as [|d l Hs IH Hd]; [constructor|]. rewrite fmap_cons. constructor; [done|].
    apply Forall_fmap. exact Hd.
  - apply py_range_sorted.
  - etrans; [|exact Hperm]. rewrite merge_sort_Permutation. clear Hperm.
    induction Hds as [|[i f] d parts ds (Hi & _) _ IH]; [done|]. rewrite !fmap_cons. simpl in Hi. by rewrite Hi, IH.
Qed.

Lemma ready_quiet o m ds :
  output_wf o → written_for o WRITING m → Forall2 (describes o) (out_parts o) ds →
  ∃ m', ready m ds = Ok m' ∧ written_for o READY m' ∧ mf_partitions m' = merge_sort part_no_le ds ∧
        mf_rows_per_partition m' = rows <$> merge_sort part_no_le ds.
Proof.
  intros Hwf Hm Hds. destruct (sorted_parts o ds Hwf Hds) as [Hsort Hlen].
  destruct Hm as (E1 & E2 & E3 & E4 & E5 & E6 & E7 & E8 & E9 & E10 & E11 & E12).
  unfold ready. rewrite E8, Hsort. rewrite (Permutation_length (merge_sort_Permutation part_no_le ds)), Hlen.
  change (Z.of_nat (length (out_parts o))) with (npartitions o). rewrite Z.eqb_refl. cbn [negb].
  rewrite bool_decide_eq_true_2 by done. cbn [negb]. eexists. split; [done|]. by split_and!.
Qed.

Definition begun w (o : Output) : Prop :=
  ∃ m, holds w (manifest_key g (out_name o)) (OManifest m) ∧ written_for o WRITING m.

(** Everything of [o] can be read. *)
Definition stored w (o : Output) : Prop :=
  (∃ m ds, holds w (manifest_key g (out_name o)) (OManifest m) ∧ written_for o READY m ∧
     mf_partitions m = merge_sort part_no_le ds ∧ mf_rows_per_partition m = rows <$> merge_sort part_no_le ds ∧
     Forall2 (describes o) (out_parts o) ds) ∧
  ∀ i f, (i, f) ∈ out_parts o → holds w (part_key o i) (OFrame f).

(** The keys that finishing [o] writes. *)
Definition output_keys (o : Output) : list string :=
  part_keys o ++ [manifest_key g (out_name o); active_key g].

Lemma output_keys_spec o k :
  k ∈ output_keys o ↔ (∃ i, k = part_key o i ∧ i ∈ (out_parts o).*1) ∨
                       k = manifest_key g (out_name o) ∨ k = active_key g.
Proof.
  unfold output_keys, part_keys. rewrite elem_of_app, list_elem_of_fmap. set_solver.
Qed.

Lemma written_in_output o k : k ∈ part_keys o ++ [manifest_key g (out_name o)] → k ∈ output_keys o.
Proof. unfold output_keys. rewrite !elem_of_app. set_solver. Qed.

Lemma output_keys_split o k :
  k ∈ (part_keys o ++ [manifest_key g (out_name o)]) ++ [active_key g] → k ∈ output_keys o.
Proof. unfold output_keys. rewrite !elem_of_app. set_solver. Qed.

Lemma manifest_not_in_output n o :
  plain n = true → plain (out_name o) = true → n ≠ out_name o → manifest_key g n ∉ output_keys o.
Proof.
  intros Hn Ho Hne. rewrite output_keys_spec. intros [(i & E & _)|[E|E]].
  - by apply (part_key_not_manifest o i n).
  - by apply Hne, manifest_key_inj.
  - by apply (manifest_not_active n).
Qed.

Lemma part_not_in_output o' i o :
  plain (out_name o') = true → plain (out_name o) = true → out_name o' ≠ out_name o → part_key o' i ∉ output_keys o.
Proof.
  intros Hn Ho Hne. rewrite output_keys_spec. intros [(j & E & _)|[E|E]].
  - by apply part_key_inj in E as [? _].
  - by apply part_key_not_manifest in E.
  - by apply part_key_not_active in E.
Qed.

Lemma snapshot_not_in_output o : plain (out_name o) = true → snapshot_key g ∉ output_keys o.
Proof.
  intros Ho. rewrite output_keys_spec. intros [(j & E & _)|[E|E]].
  - symmetry in E. by apply part_key_not_snapshot in E.
  - symmetry in E. by apply manifest_not_snapshot in E.
  - by apply snapshot_not_active in E.
Qed.

Lemma touches_begun ks w w' o :
  touches ks w w' → manifest_key g (out_name o) ∉ ks → begun w o → begun w' o.
Proof. intros Ht Hk (m & Hm & ?). exists m. eauto using touches_holds. Qed.

Lemma touches_stored ks w w' o :
  touches ks w w' → manifest_key g (out_name o) ∉ ks → (∀ i, part_key o i ∉ ks) → stored w o → stored w' o.
Proof.
  intros Ht Hk Hi [(m & ds & Hm & ?) Hp]. split; [exists m, ds|]; eauto using touches_holds.
Qed.

Lemma stored_ready w o : stored w o → ∃ m, holds w (manifest_key g (out_name o)) (OManifest m) ∧ counts_as_ready m.
Proof.
  intros [(m & ds & Hm & (E1 & E2 & _ & _ & _ & _ & E7 & _) & _) _]. exists m. unfold counts_as_ready. by rewrite Hfingerprint.
Qed.

Lemma finish_quiet fuel o w :
  output_wf o → lasting w → activatable w → holds w (snapshot_key g) (OSnapshot snapshot) →
  Forall (λ n, plain n = true) (sn_dataframe_output_names snapshot) →
  have_manifests w (sn_dataframe_output_names snapshot) → begun w o →
  ∃ w', finish_output (2 + fuel) o w = (Ok tt, w') ∧ touches (output_keys o) w w' ∧ activatable w' ∧ stored w' o ∧
    ((∀ n, n ∈ sn_dataframe_output_names snapshot → n ≠ out_name o →
        ∃ m, holds w (manifest_key g n) (OManifest m) ∧ counts_as_ready m) → is_active w').
Proof.
  intros Hwf Hl Ha Hs Hns Hm Hb. pose proof Hwf as (Hp & _ & Hperm & _). unfold finish_output.
  destruct (store_parts_quiet o (out_parts o) w) as (ds & w1 & E1 & Ht1 & Hds & Hh1); [done| |done|].
  { rewrite Hperm. apply NoDup_seqZ. }
  rewrite (cbind_eq _ _ _ _ _ E1). fold (part_keys o) in Ht1.
  assert (∀ k, k ∈ part_keys o → ∃ i, k = part_key o i) as Hpk.
  { intros k (i & -> & _)%list_elem_of_fmap. eauto. }
  assert (begun w1 o) as (m & Hm1 & Hwm).
  { eapply touches_begun; [exact Ht1| |done]. intros (i & E)%Hpk. symmetry in E. by apply part_key_not_manifest in E. }
  destruct (obj_get_holds _ _ _ Hm1) as (w2 & E2 & Ht2).
  destruct (ready_quiet o m ds Hwf Hwm Hds) as (m' & Er & Hwm' & Hps & Hrows).
  destruct (obj_put_quiet (manifest_key g (out_name o)) (OManifest m') w2) as (w3 & E3 & Ht3 & Hm3).
  { eapply touches_lasting; [exact Ht2|]. by eapply touches_lasting. }
  pose proof (touches_trans _ _ _ _ _ Ht1 (touches_trans _ _ _ _ _ Ht2 Ht3)) as Ht13. simpl in Ht13.
  assert (∀ n, plain n = true → n ≠ out_name o → manifest_key g n ∉ part_keys o ++ [manifest_key g (out_name o)]) as Hnk.
  { intros n Hn Hne Hin%written_in_output. by apply (manifest_not_in_output n o Hn Hp Hne). }
  rewrite Forall_forall in Hns.
  destruct (try_activate_quiet fuel w3) as (b & w4 & E4 & Ht4 & Ha4 & Hact).
  { by eapply touches_lasting. }
  { eapply activatable_touches; [exact Ht13| |done]. intros Hin. rewrite elem_of_app in Hin.
    destruct Hin as [(i & E)%Hpk|E%list_elem_of_singleton]; symmetry in E;
      [by apply part_key_not_active in E|by apply manifest_not_active in E]. }
  { eapply touches_holds; [exact Ht13| |done]. intros Hin%written_in_output.
    by apply (snapshot_not_in_output o Hp). }
  { intros n Hn. destruct (decide (n = out_name o)) as [->|Hne]; [eauto|].
    destruct (Hm n Hn) as (mn & Hmn). exists mn. eapply touches_holds; eauto. }
  assert (touches (output_keys o) w w4) as Htw.
  { eapply touches_weaken; [|exact (touches_trans _ _ _ _ _ Ht13 Ht4)]. apply output_keys_split. }
  exists w4. split.
  { unfold commit_output_generation. unfold mbind at 1, C_bind at 1. rewrite (cbind_eq _ _ _ _ _ E2).
    destruct Hwm as (-> & _). rewrite bool_decide_eq_true_2 by done. cbn [negb].
    unfold mbind at 1, C_bind at 1, clift at 1. rewrite Er.
    unfold mbind at 1, C_bind at 1. rewrite E3. unfold mbind at 1, C_bind at 1. by rewrite E4. }
  split; [done|]. split; [done|]. split.
  - split.
    + exists m', ds. split; [|done]. eapply touches_holds; [exact Ht4| |done].
      intros E%list_elem_of_singleton. by apply manifest_not_active in E.
    + intros i f Hif. eapply touches_holds; [exact (touches_trans _ _ _ _ _ Ht2 (touches_trans _ _ _ _ _ Ht3 Ht4))| |by apply Hh1].
      simpl. intros [E|[E|[]%elem_of_nil]%elem_of_cons]%elem_of_cons;
        [by apply part_key_not_manifest in E|by apply part_key_not_active in E].
  - intros Hall. apply Hact. intros n Hn. destruct (decide (n = out_name o)) as [->|Hne].
    + exists m'. split; [done|]. destruct Hwm' as (? & ? & _ & _ & _ & _ & ? & _). unfold counts_as_ready. by rewrite Hfingerprint.
    + destruct (Hall n Hn Hne) as (mn & Hmn & Hr). exists mn. split; [|done]. eapply touches_holds; eauto.
Qed.

(** ** The whole execution *)

Lemma begin_quiet o w :
  output_wf o → lasting w →
  ∃ w', begin_output o w = (Ok tt, w') ∧ touches [manifest_key g (out_name o)] w w' ∧ begun w' o.
Proof.
  clear Hversion Horder Hfingerprint. intros (_ & Hne & _) Hl. unfold begin_output, begin_output_generation, npartitions.
  destruct (Z.leb_spec (Z.of_nat (length (out_parts o))) 0); [destruct (out_parts o); simpl in *; [done|lia]|].
  destruct (obj_put_quiet (manifest_key g (out_name o)) (OManifest (writing (env_time (cw_calls w)) (gid_project g)
    (gid_node g) (out_name o) (gid_generation g) fingerprint (create_dataframe_schema_fingerprint (out_meta o))
    (out_meta o) (Z.of_nat (length (out_parts o))) (out_known_divisions o)
    (if out_known_divisions o then out_divisions o else None))) w Hl) as (w' & E & Ht & Hm).
  exists w'. split; [|split; [done|]].
  - unfold mbind at 1, C_bind at 1. unfold mbind at 1, C_bind at 1, now_time at 1. by rewrite (cbind_eq _ _ _ _ _ E).
  - eexists. split; [exact Hm|]. by split_and!.
Qed.

Lemma begin_all_quiet outs w :
  Forall output_wf outs → NoDup (out_name <$> outs) → lasting w →
  ∃ w', cfor outs begin_output w = (Ok tt, w') ∧
    touches ((λ o, manifest_key g (out_name o)) <$> outs) w w' ∧ ∀ o, o ∈ outs → begun w' o.
Proof.
  clear Hversion Horder Hfingerprint. intros Hwf. revert w; induction Hwf as [|o outs Ho Hwf IH]; intros w Hnd Hl; cbn [cfor].
  { exists w. split_and!; [done|apply touches_refl|set_solver]. }
  rewrite fmap_cons in Hnd. apply NoDup_cons in Hnd as [Hn Hnd].
  destruct (begin_quiet o w Ho Hl) as (w1 & E1 & Ht1 & Hb1).
  destruct (IH w1 Hnd) as (w2 & E2 & Ht2 & Hb2); [by eapply touches_lasting|].
  exists w2. split; [by rewrite (cbind_eq _ _ _ _ _ E1)|]. split; [exact (touches_trans _ _ _ _ _ Ht1 Ht2)|].
  intros o' [->|Hin]%elem_of_cons; [|by auto]. eapply touches_begun; [exact Ht2| |done].
  intros (o' & E & Hin)%list_elem_of_fmap. rewrite Forall_forall in Hwf.
  apply manifest_key_inj in E; [|by apply Ho|by apply Hwf]. apply Hn. rewrite E. by apply list_elem_of_fmap_2.
Qed.

(** What is known of the store while the outputs are finished one after the other. *)
Record progress (finished left : list Output) w : Prop := {
  pr_lasting : lasting w;
  pr_activatable : activatable w;
  pr_snapshot : holds w (snapshot_key g) (OSnapshot snapshot);
  pr_stored o : o ∈ finished → stored w o;
  pr_begun o : o ∈ left → begun w o;
}.

Lemma finish_all_quiet fuel finished left w :
  sn_dataframe_output_names snapshot = out_name <$> (finished ++ left) →
  Forall output_wf (finished ++ left) → NoDup (out_name <$> (finished ++ left)) →
  progress finished left w → (left = [] → is_active w) →
  ∃ w', cfor left (finish_output (2 + fuel)) w = (Ok tt, w') ∧ progress (finished ++ left) [] w' ∧ is_active w'.
Proof.
  revert finished w; induction left as [|o left IH]; intros finished w Hnames Hwf Hnd Hpr Hact; cbn [cfor].
  { exists w. rewrite app_nil_r. split_and!; [done|done|by apply Hact]. }
  pose proof Hwf as Hwf'. rewrite Forall_forall in Hwf'.
  assert (output_wf o) as Ho by (apply Hwf'; set_solver).
  assert (∀ o', o' ∈ finished ∨ o' ∈ left → out_name o' ≠ out_name o ∧ plain (out_name o') = true) as Hother.
  { intros o' Hin. split; [|apply Hwf'; set_solver]. intros E. rewrite fmap_app, fmap_cons in Hnd.
    apply NoDup_app in Hnd as (_ & Hd & [Hn _]%NoDup_cons).
    destruct Hin as [Hin|Hin]; [|by apply Hn; rewrite <-E; apply list_elem_of_fmap_2].
    apply (Hd (out_name o')); [by apply list_elem_of_fmap_2|]. rewrite E. left. }
  destruct (finish_quiet fuel o w Ho) as (w1 & E1 & Ht1 & Ha1 & Hs1 & Hact1).
  { apply Hpr. } { apply Hpr. } { apply Hpr. }
  { rewrite Hnames. apply Forall_fmap. eapply Forall_impl; [exact Hwf|]. by intros ? (? & _). }
  { rewrite Hnames. intros n (o' & -> & Hin)%list_elem_of_fmap.
    apply elem_of_app in Hin as [Hin|Hin].
    - destruct (pr_stored _ _ _ Hpr o' Hin) as [(m & ? & Hm & _) _]. by exists m.
    - destruct (pr_begun _ _ _ Hpr o' Hin) as (m & Hm & _). by exists m. }
  { apply Hpr. left. }
  rewrite (cbind_eq _ _ _ _ _ E1).
  destruct (IH (finished ++ [o]) w1) as (w2 & E2 & Hpr2 & Hact2); rewrite <-?app_assoc; try done.
  - constructor.
    + eapply touches_lasting; [exact Ht1|apply Hpr].
    + done.
    + eapply touches_holds; [exact Ht1|by apply snapshot_not_in_output, Ho|apply Hpr].
    + intros o' [Hin|Hin%list_elem_of_singleton]%elem_of_app; [|by subst].
      destruct (Hother o') as [Hne Hp]; [by left|]. eapply touches_stored; [exact Ht1| | |by apply Hpr].
      * apply manifest_not_in_output; [done|by apply Ho|done].
      * intros i. apply part_not_in_output; [done|by apply Ho|done].
    + intros o' Hin. destruct (Hother o') as [Hne Hp]; [by right|].
      eapply touches_begun; [exact Ht1| |apply Hpr; by right].
      apply manifest_not_in_output; [done|by apply Ho|done].
  - intros ->. apply Hact1. intros n Hn Hne. rewrite Hnames in Hn.
    apply list_elem_of_fmap in Hn as (o' & -> & Hin). apply elem_of_app in Hin as [Hin|Hin].
    + apply stored_ready. by apply Hpr.
    + apply list_elem_of_singleton in Hin as ->. done.
  - exists w2. rewrite <-app_assoc in Hpr2. done.
Qed.

(** ** Restoring *)

Lemma collect_manifests_quiet names manifests w :
  dwf manifests →
  (∀ n, n ∈ names → ∃ m, holds w (manifest_key g n) (OManifest m) ∧ _manifest_is_compatible m g n fingerprint = true) →
  (∀ n m, dget manifests n = Some m → holds w (manifest_key g n) (OManifest m)) →
  ∃ ms w', collect_manifests g fingerprint names manifests w = (Ok (Some ms), w') ∧ touches [] w w' ∧ dwf ms ∧
    (∀ n, n ∈ dkeys ms ↔ n ∈ dkeys manifests ∨ n ∈ names) ∧
    (∀ n m, dget ms n = Some m → holds w (manifest_key g n) (OManifest m)).
Proof.
  revert manifests w; induction names as [|n names IH]; intros manifests w Hwf Hn Hm; cbn [collect_manifests].
  { exists manifests, w. split_and!; [done|apply touches_refl|done|set_solver|done]. }
  destruct (Hn n) as (m & Hh & Hc); [by left|]. destruct (obj_get_holds _ _ _ Hh) as (w1 & E1 & Ht1).
  assert (∀ k o, holds w k o → holds w1 k o) as Hkeep by (intros; eapply touches_holds; [exact Ht1|set_solver|done]).
  rewrite (cbind_eq _ _ _ _ _ E1), Hc.
  assert (∀ n' m', dget (dset manifests n m) n' = Some m' → holds w (manifest_key g n') (OManifest m')) as Hset.
  { intros n' m'. rewrite dget_dset. case_decide; [intros [= <-]; by subst|apply Hm]. }
  destruct (IH (dset manifests n m) w1) as (ms & w2 & E2 & Ht2 & Hwf2 & Hk2 & Hm2).
  - by apply dwf_dset.
  - intros n' Hn'. destruct (Hn n') as (m' & ? & ?); [by right|]. eauto.
  - eauto.
  - exists ms, w2. split; [done|]. split; [exact (touches_trans _ _ _ _ _ Ht1 Ht2)|]. split; [done|]. split.
    + intros n'. rewrite Hk2, elem_of_dkeys_dset. rewrite elem_of_cons. tauto.
    + intros n' m' E. specialize (Hm2 n' m' E).
      assert (n' ∈ dkeys ms) as Hin by (apply dget_is_Some; eauto).
      apply Hk2 in Hin as [Hin|Hin].
      * apply dget_is_Some in Hin as [m1 Em1]. specialize (Hset _ _ Em1).
        pose proof (holds_inj _ _ _ _ (Hkeep _ _ Hset) Hm2) as [= ->]. done.
      * destruct (Hn n') as (m1 & Hm1 & _); [by right|].
        pose proof (holds_inj _ _ _ _ (Hkeep _ _ Hm1) Hm2) as [= ->]. done.
Qed.

Lemma stored_compatible w o m :
  output_wf o → stored w o → holds w (manifest_key g (out_name o)) (OManifest m) →
  _manifest_is_compatible m g (out_name o) fingerprint = true.
Proof.
  intros Hwf [(m' & ds & Hm' & (E1 & E2 & E3 & E4 & E5 & E6 & E7 & E8 & E9 & E10 & E11 & E12) & Ep & Er & Hds) _] Hm.
  pose proof (holds_inj _ _ _ _ Hm Hm') as [= ->]. destruct (sorted_parts o ds Hwf Hds) as [Hsort Hlen].
  pose proof (Permutation_length (merge_sort_Permutation part_no_le ds)) as Hl.
  pose proof Hwf as (_ & Hne & _ & Hdiv).
  unfold _manifest_is_compatible. rewrite E1, E2, E3, E4, E5, E6, E7, E8, E9, E10, E11, E12, Ep, Er, Hsort.
  rewrite length_fmap, Hl, Hlen, !String.eqb_refl. fold (npartitions o). rewrite !Z.eqb_refl.
  rewrite !bool_decide_eq_true_2 by done.
  assert ((0 <? npartitions o) = true) as ->.
  { apply Z.ltb_lt. unfold npartitions. destruct (out_parts o); simpl in *; [done|lia]. }
  simpl. destruct (out_known_divisions o); [|done]. destruct (Hdiv eq_refl) as (d & -> & Hd). by apply Z.eqb_eq.
Qed.

(** The frames of an output in the order of its partitions. *)
Lemma sorted_frames o ds :
  output_wf o → Forall2 (describes o) (out_parts o) ds →
  ∃ fs, Forall2 (λ d f, (part_no d, f) ∈ out_parts o ∧ cache_key d = part_key o (part_no d))
          (merge_sort part_no_le ds) fs ∧
        ∀ i f, (i, f) ∈ out_parts o ↔ 0 ≤ i ∧ fs !! Z.to_nat i = Some f.
Proof.
  intros Hwf Hds. destruct (sorted_parts o ds Hwf Hds) as [Hsort Hlen]. pose proof Hwf as (_ & _ & Hperm & _).
  assert (∃ fs, Forall2 (λ d f, (part_no d, f) ∈ out_parts o ∧ cache_key d = part_key o (part_no d))
                  (merge_sort part_no_le ds) fs) as (fs & Hfs).
  { apply Forall_choose, Forall_forall. intros d Hd%merge_sort_elem.
    apply list_elem_of_lookup in Hd as (j & Hj). destruct (Forall2_lookup_r _ _ _ _ _ Hds Hj) as ([i f] & Hi & Hd1 & Hd2 & _).
    simpl in *. exists f. rewrite Hd1. split; [by eapply list_elem_of_lookup_2|done]. }
  exists fs. split; [done|]. pose proof (Forall2_length _ _ _ Hfs) as Hlf.
  rewrite (Permutation_length (merge_sort_Permutation part_no_le ds)), Hlen in Hlf.
  assert (∀ k d, merge_sort part_no_le ds !! k = Some d → part_no d = Z.of_nat k) as Hno.
  { intros k d Hk. assert ((part_no <$> merge_sort part_no_le ds) !! k = Some (part_no d)) as Hk'
      by (by rewrite list_lookup_fmap, Hk). rewrite Hsort in Hk'. by apply lookup_seqZ in Hk' as [-> _]. }
  assert (NoDup (out_parts o).*1) as Hnd by (rewrite Hperm; apply NoDup_seqZ).
  intros i f. split.
  - intros Hin. assert (i ∈ (out_parts o).*1) as Hi by (apply list_elem_of_fmap; by exists (i, f)).
    rewrite Hperm in Hi. apply elem_of_seqZ in Hi. unfold npartitions in Hi. split; [lia|].
    destruct (lookup_lt_is_Some_2 fs (Z.to_nat i)) as [f' Hf']; [lia|]. rewrite Hf'. f_equal.
    destruct (Forall2_lookup_r _ _ _ _ _ Hfs Hf') as (d & Hd & Hin' & _). apply Hno in Hd. rewrite Hd in Hin'.
    rewrite Z2Nat.id in Hin' by lia.
    by eapply NoDup_fst_functional.
  - intros [Hi Hf]. destruct (Forall2_lookup_r _ _ _ _ _ Hfs Hf) as (d & Hd & Hin & _). apply Hno in Hd.
    rewrite Hd, Z2Nat.id in Hin by lia. done.
Qed.

Lemma all_present_Some os : all_present (Some <$> os) = Some os.
Proof. induction os as [|o os IH]; [done|]. rewrite fmap_cons. cbn [all_present]. by rewrite IH. Qed.

Lemma load_partitions_quiet keys os w :
  Forall2 (holds w) keys os → ∃ w', load_partitions keys w = (Ok os, w').
Proof.
  intros HF. unfold load_partitions, obj_get_many.
  destruct (blob_get_many_ok (env_now (cw_calls w)) keys (st_data (cw_stores w))) as (s' & Es & _).
  eexists. unfold mbind at 1, C_bind at 1. unfold mbind at 1, C_bind at 1. rewrite data_call_quiet, Es. cbn [fst snd].
  assert (traverse (λ payload : option bytes, match payload with
            | None => Ok None
            | Some p => o ← decode p; mret (Some o)
            end) ((λ k, live (env_now (cw_calls w)) (st_data (cw_stores w)) !! k) <$> keys) = Ok (Some <$> os)) as Et.
  { clear Es. induction HF as [|k o keys os Hk _ IH]; [done|]. destruct (Hk (cw_calls w)) as (p & Hp & Hd); [done|].
    unfold live_at in Hp. rewrite !fmap_cons. cbn [traverse]. rewrite Hp. simpl. rewrite Hd. simpl. by rewrite IH. }
  unfold clift. rewrite Et. rewrite length_fmap, (Forall2_length _ _ _ HF), Nat.eqb_refl. cbn [negb].
  by rewrite all_present_Some.
Qed.

Lemma has_many_quiet keys w :
  (∀ k, k ∈ keys → ∃ o, holds w k o) → ∃ w', obj_has_many keys w = (Ok true, w') ∧ touches [] w w'.
Proof.
  intros Hk. unfold obj_has_many. rewrite data_call_quiet.
  destruct (blob_has_many_ok (env_now (cw_calls w)) keys (st_data (cw_stores w))) as (s' & -> & Hs & E).
  eexists. split; [|by apply read_touches]. simpl. rewrite bool_decide_eq_true_2; [done|].
  apply Forall_forall. intros k (o & Ho)%Hk. destruct (Ho (cw_calls w)) as (p & Hp & _); [done|]. eauto.
Qed.

(** Restoring an active generation whose outputs are all stored. *)
Lemma restore_quiet outs w :
  sn_dataframe_output_names snapshot = out_name <$> outs → Forall output_wf outs →
  progress outs [] w → is_active w →
  snapshot_is_compatible snapshot g (sn_node_name snapshot) (Some fingerprint) (sn_output_names snapshot) = true →
  ∃ plan w', get_restore_plan (gid_project g) (gid_node g) (sn_node_name snapshot) (Some fingerprint)
      (sn_output_names snapshot) w = (Ok (Some plan), w') ∧ touches [] w w' ∧ rp_snapshot plan = snapshot ∧
    (∀ n, n ∈ dkeys (rp_manifests plan) ↔ n ∈ sn_dataframe_output_names snapshot) ∧
    (∀ n m, dget (rp_manifests plan) n = Some m → holds w (manifest_key g n) (OManifest m)).
Proof.
  intros Hnames Hwf Hpr (a & Hh & Hv & Hg & Ho) Hcompat. rewrite Forall_forall in Hwf. unfold get_restore_plan.
  destruct (obj_get_holds _ _ _ Hh) as (w1 & E1 & Ht1).
  unfold active_key in E1. rewrite (cbind_eq _ _ _ _ _ E1).
  rewrite Hv, Z.eqb_refl. cbn [negb]. rewrite Hg.
  replace {| gid_project := gid_project g; gid_node := gid_node g; gid_generation := gid_generation g |}
    with g by (by destruct g).
  destruct (obj_get_holds (snapshot_key g) (OSnapshot snapshot) w1) as (w2 & E2 & Ht2).
  { eapply touches_holds; [exact Ht1|set_solver|apply Hpr]. }
  rewrite (cbind_eq _ _ _ _ _ E2), Hcompat. cbn [negb].
  assert (or_str (Some fingerprint) (sn_node_runtime_fingerprint snapshot) = fingerprint) as ->.
  { rewrite Hfingerprint. simpl. by destruct (str_truthy fingerprint). }
  pose proof (touches_trans _ _ _ _ _ Ht1 Ht2) as Ht12. simpl in Ht12.
  assert (∀ k o, holds w k o → holds w2 k o) as Hkeep
    by (intros k o; apply (touches_holds [] _ _ _ _ Ht12); set_solver).
  assert (∀ n, n ∈ sn_dataframe_output_names snapshot → ∃ o m, o ∈ outs ∧ out_name o = n ∧
            holds w (manifest_key g n) (OManifest m) ∧ _manifest_is_compatible m g n fingerprint = true) as Hman.
  { intros n Hn. rewrite Hnames in Hn. apply list_elem_of_fmap in Hn as (o & -> & Hin).
    pose proof (pr_stored _ _ _ Hpr o Hin) as Hst. pose proof Hst as [(m & ds & Hm & _) _].
    exists o, m. split_and!; [done|done|done|]. eapply stored_compatible; eauto. }
  destruct (collect_manifests_quiet (sn_dataframe_output_names snapshot) [] w2) as (ms & w3 & E3 & Ht3 & Hwf3 & Hk3 & Hm3).
  { constructor. }
  { intros n Hn. destruct (Hman n Hn) as (o & m & _ & _ & Hm & Hc). eauto. }
  { done. }
  rewrite (cbind_eq _ _ _ _ _ E3).
  assert (∀ n m, dget ms n = Some m → n ∈ sn_dataframe_output_names snapshot ∧ holds w (manifest_key g n) (OManifest m)) as Hms.
  { intros n m En. specialize (Hm3 n m En). assert (n ∈ dkeys ms) as Hin by (apply dget_is_Some; eauto).
    apply Hk3 in Hin as [Hin|Hin]; [by apply elem_of_nil in Hin|]. split; [done|].
    destruct (Hman n Hin) as (_ & m' & _ & _ & Hm' & _).
    pose proof (holds_inj _ _ _ _ (Hkeep _ _ Hm') Hm3) as [= ->]. done. }
  destruct (has_many_quiet (partition_keys ms) w3) as (w4 & E4 & Ht4).
  { intros k. unfold partition_keys, dvals. rewrite list_elem_of_In, in_concat.
    intros (l & Hl%list_elem_of_In & Hkl%list_elem_of_In). apply list_elem_of_fmap in Hl as (m & -> & Hin). apply list_elem_of_fmap in Hin as ([n m'] & -> & Hin).
    apply elem_of_dget in Hin; [|done]. simpl in *. destruct (Hms n m' Hin) as [Hn Hm].
    rewrite Hnames in Hn. apply list_elem_of_fmap in Hn as (o & -> & Hin').
    destruct (pr_stored _ _ _ Hpr o Hin') as [(m1 & ds & Hm1 & _ & Ep & _ & Hds) Hparts].
    pose proof (holds_inj _ _ _ _ Hm Hm1) as [= ->]. rewrite Ep in Hkl.
    apply list_elem_of_fmap in Hkl as (d & -> & Hd%merge_sort_elem).
    apply list_elem_of_lookup in Hd as (j & Hj).
    destruct (Forall2_lookup_r _ _ _ _ _ Hds Hj) as ([i f] & Hi & _ & Hd2 & _).
    exists (OFrame f). rewrite Hd2. eapply touches_holds; [exact Ht3|set_solver|]. apply Hkeep, Hparts.
    by eapply list_elem_of_lookup_2. }
  rewrite (cbind_eq _ _ _ _ _ E4). eexists _, w4. split; [done|]. split.
  { exact (touches_trans _ _ _ _ _ Ht12 (touches_trans _ _ _ _ _ Ht3 Ht4)). }
  split; [done|]. split; [|intros n m Hn; by apply Hms].
  intros n. simpl. rewrite Hk3. split; [|by right]. intros [Hn|]; [by apply elem_of_nil in Hn|done].
Qed.

Lemma stage_quiet fuel w node_name output_names dataframe_output_names non_dataframe_outputs metadata :
  snapshot = {|
    sn_format_version := DATAFRAME_CACHE_FORMAT_VERSION; sn_project_id := gid_project g; sn_node_id := gid_node g;
    sn_generation_id := gid_generation g; sn_node_name := node_name; sn_node_runtime_fingerprint := fingerprint;
    sn_output_names := output_names; sn_dataframe_output_names := dataframe_output_names;
    sn_non_dataframe_outputs := non_dataframe_outputs; sn_metadata := metadata;
    sn_created_at := env_time (cw_calls w); sn_execution_order := Some order |} →
  lasting w → activatable w → Forall (λ n, plain n = true) dataframe_output_names →
  have_manifests w dataframe_output_names →
  ∃ w', stage_execution_snapshot ttl (2 + fuel) g node_name fingerprint output_names dataframe_output_names
      non_dataframe_outputs metadata (Some order) w = (Ok snapshot, w') ∧
    touches [snapshot_key g; active_key g] w w' ∧ activatable w' ∧
    holds w' (snapshot_key g) (OSnapshot snapshot) ∧ (dataframe_output_names = [] → is_active w').
Proof.
  intros Esn Hl Ha Hp Hm. rewrite Forall_forall in Hp.
  destruct (obj_put_quiet (snapshot_key g) (OSnapshot snapshot) w Hl) as (w1 & E1 & Ht1 & Hs1).
  assert (sn_dataframe_output_names snapshot = dataframe_output_names) as En by (by rewrite Esn).
  destruct (try_activate_quiet fuel w1) as (b & w2 & E2 & Ht2 & Ha2 & Hact).
  { by eapply touches_lasting. }
  { eapply activatable_touches; [exact Ht1| |done]. intros E%list_elem_of_singleton.
    symmetry in E. by apply snapshot_not_active in E. }
  { done. }
  { rewrite En. intros n Hn. destruct (Hm n Hn) as (m & Hmn). exists m. eapply touches_holds; [exact Ht1| |done].
    intros E%list_elem_of_singleton. apply manifest_not_snapshot in E; auto. }
  exists w2. split.
  { unfold stage_execution_snapshot. unfold mbind at 1, C_bind at 1, now_time at 1. rewrite <-Esn.
    rewrite (cbind_eq _ _ _ _ _ E1). by rewrite (cbind_eq _ _ _ _ _ E2). }
  split; [exact (touches_trans _ _ _ _ _ Ht1 Ht2)|]. split; [done|]. split.
  - eapply touches_holds; [exact Ht2| |done]. intros E%list_elem_of_singleton. by apply snapshot_not_active in E.
  - intros E. apply Hact. rewrite En, E. intros n Hn. by apply elem_of_nil in Hn.
Qed.
End generation.

(** The calls of one execution of a node. *)
Definition write_generation (fuel : nat) (g : GenerationId) (order : DataFrameExecutionOrder)
    (node_name fingerprint : string) (output_names : list string) (outs : list Output)
    (non_dataframe_outputs : pydict Obj) (metadata : pydict (option Obj)) : C S unit :=
  cfor outs (begin_output g fingerprint);;
  stage_execution_snapshot ttl fuel g node_name fingerprint output_names (out_name <$> outs)
    non_dataframe_outputs metadata (Some order);;
  cfor outs (finish_output g fuel).

(** C13. A generation that was written completely is restored, in a run where no call fails and no other process
    interferes ([quiet]), nothing that is written expires ([lasting]), every object can be encoded, and the
    active generation, if there is one, is not newer than this one ([replaceable]): if the dataframe outputs
    and the others together are the outputs of the node, and the metadata covers the dataframes, then writing
    succeeds, the restore plan has exactly one manifest per dataframe output, with its meta, and loading the
    partitions a manifest lists gives the frames of that output in the order of their numbers. (A generation
    that is older than the active one is written but not activated.) *)
Theorem written_generation_is_restored fuel g order node_name fingerprint output_names outs
    non_dataframe_outputs metadata w :
  plain (gid_project g) = true ∧ plain (gid_node g) = true ∧ plain (gid_generation g) = true →
  Forall output_wf outs → NoDup (out_name <$> outs) →
  lasting w → only w (active_key g) (replaceable g order) →
  same_keys (dkeys non_dataframe_outputs) (filter (λ n, n ∉ out_name <$> outs) output_names) = true →
  (∀ o, o ∈ outs → ∃ v, dget metadata (out_name o) = Some (Some v)) →
  ∃ w1 plan w2,
    write_generation (2 + fuel) g order node_name fingerprint output_names outs non_dataframe_outputs metadata w
      = (Ok tt, w1) ∧
    get_restore_plan (gid_project g) (gid_node g) node_name (Some fingerprint) output_names w1 = (Ok (Some plan), w2) ∧
    sn_generation_id (rp_snapshot plan) = gid_generation g ∧
    sn_non_dataframe_outputs (rp_snapshot plan) = non_dataframe_outputs ∧
    (∀ n, n ∈ dkeys (rp_manifests plan) ↔ n ∈ out_name <$> outs) ∧
    (∀ o, o ∈ outs → ∃ m fs w3,
       dget (rp_manifests plan) (out_name o) = Some m ∧ mf_meta m = out_meta o ∧
       load_partitions (cache_key <$> mf_partitions m) w2 = (Ok (OFrame <$> fs), w3) ∧
       ∀ i f, (i, f) ∈ out_parts o ↔ 0 ≤ i ∧ fs !! Z.to_nat i = Some f).
Proof.
  intros Hplain Hwf Hnd Hl Hact Hnon Hmeta. unfold write_generation.
  destruct (begin_all_quiet g Hplain fingerprint outs w Hwf Hnd Hl) as (w1 & E1 & Ht1 & Hb1).
  set (snapshot := {|
    sn_format_version := DATAFRAME_CACHE_FORMAT_VERSION; sn_project_id := gid_project g; sn_node_id := gid_node g;
    sn_generation_id := gid_generation g; sn_node_name := node_name; sn_node_runtime_fingerprint := fingerprint;
    sn_output_names := output_names; sn_dataframe_output_names := out_name <$> outs;
    sn_non_dataframe_outputs := non_dataframe_outputs; sn_metadata := metadata;
    sn_created_at := env_time (cw_calls w1); sn_execution_order := Some order |}).
  assert (Forall (λ n, plain n = true) (out_name <$> outs)) as Hpl.
  { apply Forall_fmap. eapply Forall_impl; [exact Hwf|]. by intros ? (? & _). }
  destruct (stage_quiet g order snapshot eq_refl eq_refl Hplain fingerprint fuel w1 node_name output_names
    (out_name <$> outs) non_dataframe_outputs metadata eq_refl) as (w2 & E2 & Ht2 & Ha2 & Hs2 & Hact2); try done.
  { by eapply touches_lasting. }
  { right. eapply touches_only; [exact Ht1| |done]. intros (o & E & Hin)%list_elem_of_fmap.
    symmetry in E. rewrite Forall_forall in Hwf. apply manifest_not_active in E; [done|done|]. by apply Hwf. }
  { intros n (o & -> & Hin)%list_elem_of_fmap. destruct (Hb1 o Hin) as (m & Hm & _). by exists m. }
  rewrite (cbind_eq _ _ _ _ _ E1), (cbind_eq _ _ _ _ _ E2).
  destruct (finish_all_quiet g order snapshot eq_refl eq_refl Hplain fingerprint eq_refl fuel [] outs w2)
    as (w3 & E3 & Hpr & Hact3); try done.
  { constructor; try done.
    - eapply touches_lasting; [exact Ht2|]. by eapply touches_lasting.
    - intros o Hin. by apply elem_of_nil in Hin.
    - intros o Hin. eapply touches_begun; [exact Ht2| |by auto]. rewrite Forall_forall in Hwf.
      pose proof (Hwf o Hin) as (Hpo & _). intros [E|[E|Hn]%elem_of_cons]%elem_of_cons.
      + by apply manifest_not_snapshot in E.
      + by apply manifest_not_active in E.
      + by apply elem_of_nil in Hn. }
  { intros ->. by apply Hact2. }
  destruct (restore_quiet g order snapshot eq_refl eq_refl Hplain fingerprint eq_refl outs w3) as (plan & w4 & E4 & Ht4 & Esn & Hk & Hm); try done.
  { unfold snapshot_is_compatible; simpl. rewrite !String.eqb_refl, bool_decide_eq_true_2 by done. simpl.
    rewrite Hnon. simpl. apply forallb_forall. intros n (o & -> & Hin)%list_elem_of_In%list_elem_of_fmap.
    by destruct (Hmeta o Hin) as [v ->]. }
  exists w3, plan, w4. split; [done|]. split; [done|]. rewrite Esn. split; [done|]. split; [done|]. split; [done|].
  intros o Hin. assert (out_name o ∈ dkeys (rp_manifests plan)) as Hin' by (apply Hk; by apply list_elem_of_fmap_2).
  apply dget_is_Some in Hin' as [m Em]. pose proof (Hm _ _ Em) as Hhm.
  destruct (pr_stored _ _ _ _ _ _ _ Hpr o) as [(m' & ds & Hm' & Hwr & Ep & _ & Hds) Hparts]; [done|].
  pose proof (holds_inj _ _ _ _ Hhm Hm') as [= ->]. rewrite Forall_forall in Hwf.
  destruct (sorted_frames g o ds (Hwf o Hin) Hds) as (fs & Hfs & Hspec).
  destruct (load_partitions_quiet (cache_key <$> mf_partitions m') (OFrame <$> fs) w4) as (w5 & E5).
  { rewrite Ep. apply Forall2_fmap. eapply Forall2_impl; [exact Hfs|]. intros d f [Hdf ->].
    eapply touches_holds; [exact Ht4|set_solver|by apply Hparts]. }
  exists m', fs, w5. split; [done|]. split; [|done]. by destruct Hwr as (_ & _ & _ & _ & _ & _ & _ & _ & ? & _).
Qed.
End roundtrip.
