(* ===== verification/CacheActivation.v ===== *)
(** Pipeline cache: concurrent activation of generations.

    Several executions of a node may finish at the same time, in different processes; each runs
    [_activate_if_newer] of
    [src/modules/pipeline_cache/flow/dataframe_execution_cache.py] on the shared active key.
    The loop is a state machine whose atomic steps are the read and the compare-and-set
    ([activate_loop_steps] relates it to the program); a schedule picks the process that moves.
    The scope is the competition of activations: the steps of the processes are the only changes of the
    key, which neither expires nor is removed (clearing the cache of the node, or the end of its time to
    live, would let the next activation start from an empty cell). In this scope, whatever the schedule:
    the loops end, the active execution only becomes newer, and at the end the newest one is active. *)
From S2P Require Import Prelude CacheKeys CacheStore CacheIndex CacheTypes CacheFlow CacheGeneration.

(** Where a process is in its loop. *)
Inductive act_pc :=
  | AReading                          (* before get_encoded *)
  | ASwapping (cur : option bytes)    (* before compare_and_set_encoded *)
  | ADone (b : bool)
  | AFailed (e : cache_exn).

Section activation.
Context `{HD : !PyData, HC : !CacheCodec CacheObject, HCL : !CacheCodecLaws CacheObject}.

Record act_proc := { ap_gen : GenerationId; ap_order : DataFrameExecutionOrder; ap_payload : bytes }.

Definition decode_current (cur : option bytes) : outcome cache_exn (option CacheObject) :=
  match cur with
  | None => Ok None
  | Some p => o ← decode p; mret (Some o)
  end.

(** What a process does with the payload it read. *)
Definition read_step (pr : act_proc) (cur : option bytes) : act_pc :=
  match decode_current cur with
  | Raise e => AFailed e
  | Ok o => match activation_decided (ap_gen pr) (ap_order pr) o with
            | Some b => ADone b
            | None => ASwapping cur
            end
  end.

(** One atomic step of a process on the cell of the active key; nothing else changes the cell. *)
Definition proc_step (pr : act_proc) (pc : act_pc) (cell : option bytes) : act_pc * option bytes :=
  match pc with
  | AReading => (read_step pr cell, cell)
  | ASwapping cur => if decide (cell = cur) then (ADone true, Some (ap_payload pr)) else (AReading, cell)
  | _ => (pc, cell)
  end.

(** The loop of the program makes these steps. *)
Lemma activate_loop_steps {S} `{!BlobStore S, !CacheEnv S} ttl fuel (pr : act_proc) (w : CWorld S) :
  activate_loop ttl (Datatypes.S fuel) (ap_gen pr) (ap_order pr) (ap_payload pr) w =
  (cur ← get_encoded (active_key (ap_gen pr));
   match read_step pr cur with
   | ADone b => mret b
   | AFailed e => craise e
   | _ => swapped ← compare_and_set_encoded (active_key (ap_gen pr)) cur (ap_payload pr) ttl;
          if (swapped : bool) then mret true
          else activate_loop ttl fuel (ap_gen pr) (ap_order pr) (ap_payload pr)
   end) w.
Proof.
  cbn [activate_loop]. unfold read_step, decode_current, mbind, C_bind, outcome_bind, clift, mret, C_ret, outcome_ret.
  destruct (get_encoded (active_key (ap_gen pr)) w) as [[[p|]|e] w1]; try done.
  destruct (decode p) as [o|e]; [|done]. by destruct (activation_decided (ap_gen pr) (ap_order pr) (Some o)).
Qed.

(** ** Several processes *)

Record act_state := { act_cell : option bytes; act_pcs : list act_pc }.

Definition act_step (procs : list act_proc) (i : nat) (st : act_state) : act_state :=
  match procs !! i, act_pcs st !! i with
  | Some pr, Some pc =>
      let (pc', cell') := proc_step pr pc (act_cell st) in
      {| act_cell := cell'; act_pcs := <[i := pc']> (act_pcs st) |}
  | _, _ => st
  end.

Definition act_run (procs : list act_proc) (schedule : list nat) (st : act_state) : act_state :=
  foldl (λ st i, act_step procs i st) st schedule.

Definition act_start (procs : list act_proc) (cell : option bytes) : act_state :=
  {| act_cell := cell; act_pcs := replicate (length procs) AReading |}.

Definition running (pc : act_pc) : bool :=
  match pc with AReading | ASwapping _ => true | _ => false end.

(** The schedule moves only processes that have not finished. *)
Fixpoint moves_running (procs : list act_proc) (schedule : list nat) (st : act_state) : Prop :=
  match schedule with
  | [] => True
  | i :: schedule => (∃ pc, act_pcs st !! i = Some pc ∧ running pc = true) ∧
                     moves_running procs schedule (act_step procs i st)
  end.

(** The execution order that the cell holds, if it holds one of the current format. *)
Definition cell_order (cell : option bytes) : option DataFrameExecutionOrder :=
  match decode_current cell with
  | Ok (Some (OActive a)) =>
      if ac_format_version a =? DATAFRAME_CACHE_FORMAT_VERSION then ac_execution_order a else None
  | _ => None
  end.

(** Newer or the same; nothing is older than everything. *)
Definition opt_order_le (a b : option DataFrameExecutionOrder) : Prop :=
  match a, b with
  | None, _ => True
  | Some x, Some y => order_le x y
  | Some _, None => False
  end.

#[local] Instance opt_order_le_trans : Transitive opt_order_le.
Proof. intros [a|] [b|] [c|]; simpl; try done. apply transitivity. Qed.

(** The candidates: their payloads are their encoded generations. *)
Definition proc_wf (pr : act_proc) : Prop :=
  ∃ a, encode (OActive a) = Ok (ap_payload pr) ∧ ac_format_version a = DATAFRAME_CACHE_FORMAT_VERSION ∧
       ac_generation_id a = gid_generation (ap_gen pr) ∧ ac_execution_order a = Some (ap_order pr).

Lemma payload_order pr : proc_wf pr → cell_order (Some (ap_payload pr)) = Some (ap_order pr).
Proof.
  intros (a & He & Hv & _ & Ho). unfold cell_order, decode_current. apply load_dump in He. unfold decode.
  rewrite He. simpl. by rewrite Hv.
Qed.

(** Undecided means that the cell holds nothing or something older. *)
Lemma undecided_older pr cur o :
  decode_current cur = Ok o → activation_decided (ap_gen pr) (ap_order pr) o = None →
  opt_order_le (cell_order cur) (Some (ap_order pr)) ∧ cell_order cur ≠ Some (ap_order pr).
Proof.
  intros Hd. unfold cell_order. rewrite Hd. unfold activation_decided.
  destruct o as [[| |a| | |]|]; try done. destruct (_ =? _); [|done].
  destruct (ac_execution_order a) as [x|]; [|done]. case_decide as Hlt; [done|]. case_decide as Heq; [done|].
  intros _. split; [|congruence]. simpl. destruct (total order_le x (ap_order pr)) as [|Hle]; [done|].
  destruct Hlt. split; [done|]. congruence.
Qed.

Lemma decided_newer pr cur o b :
  decode_current cur = Ok o → activation_decided (ap_gen pr) (ap_order pr) o = Some b →
  opt_order_le (Some (ap_order pr)) (cell_order cur).
Proof.
  intros Hd. unfold cell_order. rewrite Hd. unfold activation_decided.
  destruct o as [[| |a| | |]|]; try done. destruct (_ =? _); [|done].
  destruct (ac_execution_order a) as [x|]; [|done]. case_decide as Hlt; [by destruct Hlt|].
  case_decide as Heq; [|done]. intros _. simpl. by rewrite Heq.
Qed.

Section processes.
Context (procs : list act_proc) (Hprocs : Forall proc_wf procs) (cell0 : option bytes).
Hypothesis Hcell0 : is_ok (decode_current cell0) = true.

(** What a process knows where it is. *)
Definition pc_ok (pr : act_proc) (cell : option bytes) (pc : act_pc) : Prop :=
  match pc with
  | AReading => True
  | ASwapping cur => ∃ o, decode_current cur = Ok o ∧ activation_decided (ap_gen pr) (ap_order pr) o = None
  | ADone _ => opt_order_le (Some (ap_order pr)) (cell_order cell)
  | AFailed _ => False
  end.

Record act_inv (st : act_state) : Prop := {
  ai_pcs : Forall2 (λ pr pc, pc_ok pr (act_cell st) pc) procs (act_pcs st);
  ai_cell : act_cell st = cell0 ∨ ∃ pr, pr ∈ procs ∧ act_cell st = Some (ap_payload pr);
}.

Lemma cell_decodes st : act_inv st → is_ok (decode_current (act_cell st)) = true.
Proof.
  intros [_ [->|(pr & Hin & ->)]]; [done|]. rewrite Forall_forall in Hprocs.
  destruct (Hprocs pr Hin) as (a & He & _). simpl. apply load_dump in He. unfold decode. by rewrite He.
Qed.

Lemma proc_step_ok pr pc cell :
  proc_wf pr → is_ok (decode_current cell) = true → pc_ok pr cell pc →
  pc_ok pr (proc_step pr pc cell).2 (proc_step pr pc cell).1 ∧
  opt_order_le (cell_order cell) (cell_order (proc_step pr pc cell).2) ∧
  ((proc_step pr pc cell).2 = cell ∨ (proc_step pr pc cell).2 = Some (ap_payload pr)).
Proof.
  intros Hwf Hdec Hpc. assert (opt_order_le (cell_order cell) (cell_order cell)) as Hrefl.
  { destruct (cell_order cell); simpl; [reflexivity|done]. }
  destruct pc as [|cur|b|e]; simpl in *; try done; auto.
  - unfold read_step. destruct (decode_current cell) as [o|] eqn:Ed; [|done].
    destruct (activation_decided _ _ o) as [b|] eqn:Ea; simpl; [|split; [by exists o|by auto]].
    split; [by eapply decided_newer|by auto].
  - destruct Hpc as (o & Ed & Ea). case_decide as E; simpl; [|auto]. subst cur.
    rewrite (payload_order pr Hwf). split; [simpl; reflexivity|]. split; [by eapply undecided_older|auto].
Qed.

Lemma pc_ok_mono pr cell cell' pc :
  opt_order_le (cell_order cell) (cell_order cell') → pc_ok pr cell pc → pc_ok pr cell' pc.
Proof. destruct pc; try done. intros Hle Hpc. exact (opt_order_le_trans _ _ _ Hpc Hle). Qed.

Lemma act_step_inv i st :
  act_inv st →
  act_inv (act_step procs i st) ∧
  opt_order_le (cell_order (act_cell st)) (cell_order (act_cell (act_step procs i st))).
Proof.
  intros Hinv. assert (opt_order_le (cell_order (act_cell st)) (cell_order (act_cell st))) as Hrefl.
  { destruct (cell_order (act_cell st)); simpl; [reflexivity|done]. }
  unfold act_step. destruct (procs !! i) as [pr|] eqn:Epr; [|done].
  destruct (act_pcs st !! i) as [pc|] eqn:Epc; [|done].
  assert (pr ∈ procs) as Hin by (by eapply list_elem_of_lookup_2). pose proof Hprocs as Hwf. rewrite Forall_forall in Hwf.
  pose proof (Forall2_lookup_lr _ _ _ _ _ _ (ai_pcs _ Hinv) Epr Epc) as Hpc.
  destruct (proc_step_ok pr pc (act_cell st) (Hwf pr Hin) (cell_decodes st Hinv) Hpc) as (Hok & Hle & Hcell).
  destruct (proc_step pr pc (act_cell st)) as [pc' cell']. simpl in *. split; [|done]. constructor; simpl.
  - assert (Forall2 (λ pr pc, pc_ok pr cell' pc) procs (act_pcs st)) as HF.
    { eapply Forall2_impl; [apply Hinv|]. intros ??. by apply pc_ok_mono. }
    rewrite <-(list_insert_id procs i pr) by done. by apply Forall2_insert.
  - destruct Hcell as [Ec|Ec]; rewrite Ec; [apply Hinv|eauto].
Qed.

Lemma act_run_inv schedule st :
  act_inv st →
  act_inv (act_run procs schedule st) ∧
  opt_order_le (cell_order (act_cell st)) (cell_order (act_cell (act_run procs schedule st))).
Proof.
  revert st; induction schedule as [|i schedule IH]; intros st Hinv; simpl.
  { split; [done|]. destruct (cell_order (act_cell st)); simpl; [reflexivity|done]. }
  destruct (act_step_inv i st Hinv) as [Hinv1 Hle1]. destruct (IH _ Hinv1) as [Hinv2 Hle2].
  split; [done|by etrans].
Qed.

Lemma act_start_inv : act_inv (act_start procs cell0).
Proof.
  constructor; [|by left]. simpl. clear Hprocs. induction procs as [|pr l IH]; constructor; done.
Qed.

(** ** The loops end *)

(** How many steps a process can make before it finishes or another one swaps, plus a reserve for
    every swap. *)
Definition pc_weight (cell : option bytes) (pc : act_pc) : nat :=
  match pc with
  | AReading => 2
  | ASwapping cur => if decide (cell = cur) then 1 else 3
  | _ => 0
  end.

Definition weight (cell : option bytes) (pc : act_pc) : nat :=
  pc_weight cell pc + (if running pc then 2 * length procs else 0).

Definition total (st : act_state) : nat := sum_list_with (weight (act_cell st)) (act_pcs st).

Lemma sum_pcs_insert (f : act_pc → nat) (l : list act_pc) i pc pc' :
  l !! i = Some pc → (sum_list_with f (<[i := pc']> l) + f pc = sum_list_with f l + f pc')%nat.
Proof.
  revert i; induction l as [|x l IH]; intros [|i] E; simplify_eq/=; [lia|]. specialize (IH i E). lia.
Qed.

Lemma weight_change cell cell' (l : list act_pc) :
  (sum_list_with (weight cell') l ≤ sum_list_with (weight cell) l + 2 * length l)%nat.
Proof.
  induction l as [|pc l IH]; simpl; [lia|].
  assert (weight cell' pc ≤ weight cell pc + 2)%nat; [|lia].
  unfold weight, pc_weight. destruct pc; repeat case_decide; lia.
Qed.

Lemma act_step_decreases i st pc :
  length (act_pcs st) = length procs → act_pcs st !! i = Some pc → running pc = true →
  (total (act_step procs i st) < total st)%nat ∧ length (act_pcs (act_step procs i st)) = length procs.
Proof.
  intros Hl Epc Hrun. unfold act_step, total.
  destruct (lookup_lt_is_Some_2 procs i) as [pr Epr]; [rewrite <-Hl; by eapply lookup_lt_Some|].
  rewrite Epr, Epc. destruct pc as [|cur|b|e]; try done; cbn [proc_step].
  - cbn [act_cell act_pcs]. rewrite length_insert. split; [|done].
    pose proof (sum_pcs_insert (weight (act_cell st)) _ _ _ (read_step pr (act_cell st)) Epc).
    assert (weight (act_cell st) (read_step pr (act_cell st)) < weight (act_cell st) AReading)%nat; [|lia].
    unfold weight, read_step. destruct (decode_current (act_cell st)) as [o|]; simpl; [|lia].
    destruct (activation_decided (ap_gen pr) (ap_order pr) o); simpl; [lia|]. rewrite decide_True by done. lia.
  - case_decide as E; cbn [act_cell act_pcs]; rewrite length_insert; (split; [|done]).
    + pose proof (sum_pcs_insert (weight (act_cell st)) _ _ _ (ADone true) Epc) as Hs.
      pose proof (weight_change (act_cell st) (Some (ap_payload pr)) (<[i := ADone true]> (act_pcs st))) as Hw.
      rewrite length_insert, Hl in Hw.
      assert (weight (act_cell st) (ASwapping cur) = 1 + 2 * length procs)%nat.
      { unfold weight; simpl. by rewrite decide_True. }
      assert (weight (act_cell st) (ADone true) = 0)%nat by done. lia.
    + pose proof (sum_pcs_insert (weight (act_cell st)) _ _ _ AReading Epc) as Hs.
      assert (weight (act_cell st) AReading < weight (act_cell st) (ASwapping cur))%nat; [|lia].
      unfold weight; simpl. rewrite decide_False by done. lia.
Qed.

Lemma act_run_bounded schedule st :
  length (act_pcs st) = length procs → moves_running procs schedule st →
  (length schedule ≤ total st)%nat.
Proof.
  revert st; induction schedule as [|i schedule IH]; intros st Hl; simpl; [lia|].
  intros [(pc & Epc & Hrun) Hm]. destruct (act_step_decreases i st pc Hl Epc Hrun) as [Hlt Hl'].
  specialize (IH _ Hl' Hm). lia.
Qed.

Lemma total_start : (total (act_start procs cell0) = length procs * (2 + 2 * length procs))%nat.
Proof.
  assert (∀ n (f : act_pc → nat) pc, sum_list_with f (replicate n pc) = (n * f pc)%nat) as Hsum.
  { intros n f pc. induction n as [|n IH]; [done|]. simpl. by rewrite IH. }
  unfold total, act_start. cbn [act_cell act_pcs]. by rewrite Hsum.
Qed.

End processes.

(** C14. Concurrent activations end whatever the schedule: processes that still run can make at most
    [n * (2 + 2 * n)] steps together, none fails, the active execution never becomes older, and once all have
    finished the active generation is that of a candidate, or the one before, and no candidate
    was queued later. *)
Theorem concurrent_activation_keeps_newest procs cell0 schedule :
  Forall proc_wf procs → is_ok (decode_current cell0) = true → procs ≠ [] →
  let st := act_run procs schedule (act_start procs cell0) in
  (moves_running procs schedule (act_start procs cell0) →
     (length schedule ≤ length procs * (2 + 2 * length procs))%nat) ∧
  (∀ pc e, pc ∈ act_pcs st → pc ≠ AFailed e) ∧
  (∀ n, opt_order_le (cell_order (act_cell (act_run procs (take n schedule) (act_start procs cell0))))
          (cell_order (act_cell st))) ∧
  (Forall (λ pc, running pc = false) (act_pcs st) →
     ∃ newest, cell_order (act_cell st) = Some newest ∧
       (∀ pr, pr ∈ procs → order_le (ap_order pr) newest) ∧
       (act_cell st = cell0 ∨ ∃ pr, pr ∈ procs ∧ act_cell st = Some (ap_payload pr) ∧ ap_order pr = newest)).
Proof.
  intros Hwf Hdec Hne st.
  destruct (act_run_inv procs Hwf cell0 Hdec schedule _ (act_start_inv procs cell0)) as [Hinv Hle].
  fold st in Hinv, Hle. split_and!.
  - intros Hm. rewrite <-(total_start procs cell0). apply act_run_bounded; [|done]. by simpl; rewrite length_replicate.
  - intros pc e Hin ->. apply list_elem_of_lookup in Hin as (i & Hi).
    by destruct (Forall2_lookup_r _ _ _ _ _ (ai_pcs _ _ _ Hinv) Hi) as (pr & _ & ?).
  - intros n. subst st. rewrite <-(take_drop n schedule) at 2. unfold act_run. rewrite foldl_app.
    apply act_run_inv with cell0; try done. apply act_run_inv; try done. apply act_start_inv.
  - intros Hdone.
    assert (∀ pr, pr ∈ procs → opt_order_le (Some (ap_order pr)) (cell_order (act_cell st))) as Hall.
    { intros pr Hin. apply list_elem_of_lookup in Hin as (i & Hi).
      destruct (Forall2_lookup_l _ _ _ _ _ (ai_pcs _ _ _ Hinv) Hi) as (pc & Hpc & Hok).
      rewrite Forall_lookup in Hdone. specialize (Hdone i pc Hpc). by destruct pc. }
    destruct procs as [|pr0 procs']; [done|].
    destruct (cell_order (act_cell st)) as [newest|] eqn:Ec; [|by destruct (Hall pr0 ltac:(left))].
    exists newest. split; [done|]. split; [exact Hall|].
    destruct (ai_cell _ _ _ Hinv) as [->|(pr & Hin & Ecell)]; [by left|right]. exists pr. split; [done|].
    split; [done|]. rewrite Ecell, payload_order in Ec by (by rewrite Forall_forall in Hwf; apply Hwf). congruence.
Qed.
End activation.
