(* ===== verification/CacheClear.v ===== *)
(** Pipeline cache: reading pages of cached dataframes, and clearing the data cache.

    The first theorem is about [GetDataFrameEntry] of
    [src/modules/pipeline_cache/flow/use_cases/get_dataframe_entry.py], without interference and before
    anything expires. [ClearDataCache] of [clear_data_cache.py] finds what to remove in two ways, by the
    name space of the dataframe keys and through the index; the second theorem says that it removes
    exactly that, without interference. *)
From S2P Require Import Prelude CacheKeys CacheStore CacheIndex CacheTypes CacheFlow CacheUseCases CacheGeneration CacheRoundtrip.

(** ** Pages *)

Section paging.
Context {S : Type} `{HB : !BlobStore S, HL : !BlobStoreLaws S, HE : !CacheEnv S, HD : !PyData, HPD : !PyDataLaws,
  HC : !CacheCodec CacheObject}.
Context (Hq : quiet (S:=S)).
Implicit Types (w : CWorld S).

(** Reading the payload of an object and decoding it. *)
Lemma blob_get_holds key o w :
  holds w key o →
  ∃ p w', data_call (λ i, blob_get (env_now i) key) w = (Ok (Some p), w') ∧ load p = Ok o ∧ touches [] w w'.
Proof.
  intros Hh. destruct (Hh (cw_calls w)) as (p & Hp & Hd); [done|].
  destruct (get_encoded_quiet Hq key w) as (w' & E & Ht & _). exists p, w'. split; [|done].
  unfold get_encoded in E. by rewrite E, Hp.
Qed.

Lemma cbind_lift {A B} (o : outcome cache_exn A) (f : A → C S B) w a : o = Ok a → (clift o ≫= f) w = f a w.
Proof. intros ->. done. Qed.

Lemma cbind_ret {A B} (a : A) (f : A → C S B) w : ((mret a : C S A) ≫= f) w = f a w.
Proof. done. Qed.

Lemma page_loop_quiet entries fs off lim cached w :
  Forall2 (λ d f, holds w (cache_key d) (OFrame f) ∧ rows d = Z.of_nat (length (frame_rows f))) entries fs →
  0 ≤ off → 0 ≤ lim →
  ∃ df w', page_loop entries off lim cached w = (Ok df, w') ∧
    frame_rows df = frame_rows cached ++ take (Z.to_nat lim) (drop (Z.to_nat off) (concat (frame_rows <$> fs))).
Proof.
  revert fs off lim cached w. induction entries as [|d entries IH]; intros fs off lim cached w HF Hoff Hlim.
  { inversion HF; subst. exists cached, w. split; [done|]. simpl. by rewrite drop_nil, take_nil, app_nil_r. }
  inversion HF as [|? f ? fs' [Hh Hrows] HF']; subst. cbn [page_loop].
  destruct (Z.leb_spec lim 0).
  { exists cached, w. split; [done|]. replace lim with 0 by lia. simpl. by rewrite app_nil_r. }
  rewrite fmap_cons. cbn [concat]. destruct (Z.leb_spec (rows d) off).
  { destruct (IH fs' (off - rows d) lim cached w) as (df & w' & E & Hdf); [done|lia|done|].
    exists df, w'. split; [done|]. rewrite Hdf. do 2 f_equal.
    rewrite drop_app_ge by lia. f_equal. lia. }
  destruct (blob_get_holds _ _ _ Hh) as (p & w1 & E1 & Hd & Ht1).
  rewrite (cbind_eq _ _ _ _ _ E1), (cbind_lift _ _ _ _ Hd), cbind_ret.
  set (sliced := if off =? 0 then f else iloc_from (Z.to_nat off) f).
  assert (frame_rows sliced = drop (Z.to_nat off) (frame_rows f)) as Hs1.
  { unfold sliced. destruct (Z.eqb_spec off 0) as [->|]; [done|]. apply rows_iloc_from. }
  set (sliced' := if lim <? Z.of_nat (length (frame_rows sliced)) then iloc_to (Z.to_nat lim) sliced else sliced).
  assert (frame_rows sliced' = take (Z.to_nat lim) (drop (Z.to_nat off) (frame_rows f))) as Hs2.
  { unfold sliced'. destruct (Z.ltb_spec lim (Z.of_nat (length (frame_rows sliced)))) as [Hlt|Hge].
    - by rewrite rows_iloc_to, Hs1.
    - rewrite Hs1, take_ge; [done|]. rewrite <-Hs1. lia. }
  assert (length (frame_rows sliced') = (Z.to_nat lim `min` (length (frame_rows f) - Z.to_nat off))%nat) as Hlen
    by (by rewrite Hs2, length_take, length_drop).
  destruct (IH fs' 0 (lim - Z.of_nat (length (frame_rows sliced'))) (pd_concat cached sliced') w1) as (df & w' & E & Hdf).
  - eapply Forall2_impl; [exact HF'|]. intros d' f' [Hh' ?]. split; [|done]. eapply touches_holds; [exact Ht1|set_solver|done].
  - lia.
  - lia.
  - exists df, w'. split; [exact E|]. rewrite Hdf, rows_concat, Hs2, <-app_assoc. f_equal.
    rewrite drop_app_le by lia. rewrite take_app, length_drop. f_equal.
    rewrite Z2Nat.inj_0, drop_0, length_take, length_drop. f_equal. lia.
Qed.

(** A page of a cached dataframe is that slice of the concatenation of its partitions: when the
    active generation has a ready manifest whose partitions hold the frames [fs] with the numbers of
    rows that it records, any offset and limit, negative ones included, give the rows of [meta]
    followed by at most [limit] rows from [offset] on, and the totals of the whole dataframe. *)
Theorem dataframe_page_is_slice project_id node_id output_name offset limit a m fs w :
  holds w (dataframe_active_key project_id node_id) (OActive a) →
  ac_format_version a = DATAFRAME_CACHE_FORMAT_VERSION →
  holds w (dataframe_manifest_key project_id node_id output_name (ac_generation_id a)) (OManifest m) →
  entry_manifest_valid project_id node_id output_name m (ac_generation_id a) = true →
  mf_rows_per_partition m = rows <$> mf_partitions m →
  Forall2 (λ d f, holds w (cache_key d) (OFrame f) ∧ rows d = Z.of_nat (length (frame_rows f))) (mf_partitions m) fs →
  ∃ r w', GetDataFrameEntry project_id node_id output_name offset limit w = (Ok r, w') ∧
    frame_rows (entry_dataframe r) =
      frame_rows (mf_meta m) ++
      take (Z.to_nat (Z.max 0 limit)) (drop (Z.to_nat (Z.max 0 offset)) (concat (frame_rows <$> fs))) ∧
    entry_total_rows r = Z.of_nat (length (concat (frame_rows <$> fs))) ∧
    entry_total_partitions r = Z.of_nat (length fs).
Proof.
  intros Ha Hv Hm Hvalid Hrows HF. unfold GetDataFrameEntry, active_manifest, active_generation.
  destruct (blob_get_holds _ _ _ Ha) as (p1 & w1 & E1 & Hd1 & Ht1).
  unfold mbind at 1, C_bind at 1. unfold mbind at 1, C_bind at 1.
  rewrite (cbind_eq _ _ _ _ _ E1), (cbind_lift _ _ _ _ Hd1), Hv, Z.eqb_refl. unfold mret at 1, C_ret at 1.
  assert (∀ w' k o, touches [] w w' → holds w k o → holds w' k o) as Hkeep
    by (intros w' k o Ht; apply (touches_holds [] _ _ _ _ Ht); set_solver).
  destruct (blob_get_holds _ _ _ (Hkeep _ _ _ Ht1 Hm)) as (p2 & w2 & E2 & Hd2 & Ht2).
  rewrite (cbind_eq _ _ _ _ _ E2), (cbind_lift _ _ _ _ Hd2), Hvalid. unfold mret at 1, C_ret at 1.
  pose proof (touches_trans _ _ _ _ _ Ht1 Ht2) as Ht12. simpl in Ht12.
  destruct (has_many_quiet Hq (cache_key <$> mf_partitions m) w2) as (w3 & E3 & Ht3).
  { intros k (d & -> & Hd)%list_elem_of_fmap. apply list_elem_of_lookup in Hd as (j & Hj).
    destruct (Forall2_lookup_l _ _ _ _ _ HF Hj) as (f & _ & Hh & _). eauto. }
  unfold has_partitions. unfold obj_has_many in E3. unfold mbind at 1, C_bind at 1. rewrite (cbind_eq _ _ _ _ _ E3).
  pose proof (touches_trans _ _ _ _ _ Ht12 Ht3) as Ht123. simpl in Ht123. unfold mret at 1, C_ret at 1.
  destruct (page_loop_quiet (mf_partitions m) fs (Z.max 0 offset) (Z.max 0 limit) (mf_meta m) w3)
    as (df & w4 & E4 & Hdf); [|lia|lia|].
  { eapply Forall2_impl; [exact HF|]. intros d f [Hh ?]. eauto. }
  rewrite (cbind_eq _ _ _ _ _ E4). eexists _, w4. split; [done|]. cbn [entry_dataframe entry_total_rows entry_total_partitions].
  split; [exact Hdf|]. split.
  - rewrite Hrows. clear -HF. induction HF as [|d f ds fs [_ Hr] _ IH]; [done|].
    rewrite !fmap_cons. cbn [foldr concat]. rewrite length_app, IH, Hr. lia.
  - unfold entry_manifest_valid in Hvalid. rewrite !andb_true_iff in Hvalid. destruct Hvalid as [_ Hn].
    apply Z.eqb_eq in Hn. by rewrite <-Hn, (Forall2_length _ _ _ HF).
Qed.
End paging.

(** ** Clearing *)

Section clearing.
Context {S : Type} `{HB : !BlobStore S, HL : !BlobStoreLaws S, HE : !CacheEnv S, HV : !IndexCodec DataIndexEntry}.
Context (Hq : quiet (S:=S)).
Implicit Types (w : CWorld S).

Definition data_index w : InMemoryIndexStore := st_data_index (cw_stores w).

(** What the index shows a call made at [i]. *)
Definition index_at w (i : nat) : gmap string bytes := index_live (env_now i) (data_index w).

(** From [w] to [w'] the data store shows the same. *)
Definition data_kept w w' : Prop :=
  (cw_calls w ≤ cw_calls w')%nat ∧ ∀ i, (cw_calls w' ≤ i)%nat → live_at w' i = live_at w i.

Lemma data_kept_trans w1 w2 w3 : data_kept w1 w2 → data_kept w2 w3 → data_kept w1 w3.
Proof. intros [H1 H2] [H3 H4]. split; [lia|]. intros i Hi. rewrite H4, H2 by lia. done. Qed.

(** *** The name space of the dataframe keys *)

Lemma scan_prefixes prefixes w :
  ∃ ks w', cconcat prefixes (λ prefix, data_call (λ i, blob_keys (env_now i) prefix)) w = (Ok ks, w') ∧
    data_kept w w' ∧ data_index w' = data_index w ∧
    (∀ k, k ∈ ks → ∃ prefix, prefix ∈ prefixes ∧ startswith prefix k = true) ∧
    (∀ k i prefix, (cw_calls w' ≤ i)%nat → prefix ∈ prefixes → startswith prefix k = true →
       is_Some (live_at w i !! k) → k ∈ ks).
Proof.
  revert w; induction prefixes as [|prefix prefixes IH]; intros w; cbn [cconcat].
  { exists [], w. split; [done|]. split; [split; [lia|done]|]. split; [done|]. split; intros k; [set_solver|].
    intros i prefix _ Hin. by apply elem_of_nil in Hin. }
  destruct (blob_keys_ok (env_now (cw_calls w)) prefix (st_data (cw_stores w))) as (s' & Ek & Hs & _).
  assert (data_call (λ i, blob_keys (env_now i) prefix) w =
    (Ok (filter (λ k, startswith prefix k = true) (sorted_keys (live_at w (cw_calls w)))),
     {| cw_stores := set_data (cw_stores w) s'; cw_calls := Datatypes.S (cw_calls w) |})) as E1.
  { by rewrite (data_call_quiet Hq), Ek. }
  set (w1 := {| cw_stores := set_data (cw_stores w) s'; cw_calls := Datatypes.S (cw_calls w) |}) in *.
  assert (data_kept w w1) as Hk1.
  { split; [simpl; lia|]. intros i Hi. unfold live_at, w1 in *; simpl in *. apply Hs. apply (quiet_clock Hq). lia. }
  destruct (IH w1) as (ks & w2 & E2 & Hk2 & Hi2 & Hin2 & Hall2).
  exists (filter (λ k, startswith prefix k = true) (sorted_keys (live_at w (cw_calls w))) ++ ks), w2.
  split; [by rewrite (cbind_eq _ _ _ _ _ E1), (cbind_eq _ _ _ _ _ E2)|].
  split; [by eapply data_kept_trans|]. split; [done|]. split.
  - intros k [[Hp _]%list_elem_of_filter|Hk]%elem_of_app; [exists prefix; split; [left|done]|].
    destruct (Hin2 k Hk) as (p & ? & ?). exists p. split; [by right|done].
  - intros k i p Hi [->|Hp]%elem_of_cons Hst Hlive; apply elem_of_app; [left|right].
    + apply list_elem_of_filter. split; [done|]. apply elem_of_sorted_keys. destruct Hlive as [x Hx]. exists x.
      eapply lookup_weaken; [exact Hx|]. apply live_antitone, (quiet_clock Hq).
      destruct Hk1, Hk2. lia.
    + eapply Hall2; [done|done|done|]. destruct Hk1 as [_ ->]; [done|]. destruct Hk2. lia.
Qed.

(** *** The index *)

(** [key] belongs to one of the index keys. *)
Definition covered (sep : string) (index_keys : list IndexKey) (key : string) : Prop :=
  ∃ k, k ∈ index_keys ∧ covers sep k key.

#[local] Instance covered_dec sep index_keys key : Decision (covered sep index_keys key).
Proof.
  refine (cast_if (decide (Exists (λ k, covers sep k key) index_keys))); unfold covered;
    by setoid_rewrite <-Exists_exists.
Defined.

(** From [w] to [w'] the records that [P] selects disappeared from the index. *)
Definition index_cleared (P : string → Prop) w w' : Prop :=
  (∀ i key, (cw_calls w' ≤ i)%nat → P key → index_at w' i !! key = None) ∧
  (∀ i key, (cw_calls w' ≤ i)%nat → ¬ P key → index_at w' i !! key = index_at w i !! key).

Lemma index_call_quiet {A} (op : nat → InMemoryIndexStore → outcome cache_exn A * InMemoryIndexStore) w :
  data_index_call op w =
  let r := op (cw_calls w) (data_index w) in
  (r.1, {| cw_stores := set_data_index (cw_stores w) r.2; cw_calls := Datatypes.S (cw_calls w) |}).
Proof.
  unfold data_index_call, store_call. rewrite (quiet_fault Hq), (quiet_others Hq).
  unfold data_index. by destruct (op (cw_calls w) (st_data_index (cw_stores w))).
Qed.

Lemma index_antitone w i j key p :
  (i ≤ j)%nat → index_at w j !! key = Some p → index_at w i !! key = Some p.
Proof.
  intros Hij%(quiet_clock Hq). unfold index_at, index_live. rewrite !lookup_fmap, !purge_lookup.
  destruct (mi_records (data_index w) !! key) as [r|]; simpl; [|done]. repeat case_decide; done || lia.
Qed.

Lemma clear_index_key_quiet k w :
  index_wf (V:=DataIndexEntry) (data_index w) → clean_key (mi_separator (data_index w)) k = true →
  ∃ es w', clear_index_key k w = (Ok es, w') ∧ data_kept w w' ∧
    index_wf (V:=DataIndexEntry) (data_index w') ∧ mi_separator (data_index w') = mi_separator (data_index w) ∧
    index_cleared (covers (mi_separator (data_index w)) k) w w' ∧
    (∀ c, c ∈ es → ∃ key e, covers (mi_separator (data_index w)) k key ∧ entry_cache_key e = c ∧
       index_at w (cw_calls w) !! key = Some (serializer e)) ∧
    (∀ i key e, (cw_calls w ≤ i)%nat → covers (mi_separator (data_index w)) k key →
       index_at w i !! key = Some (serializer e) → entry_cache_key e ∈ es).
Proof.
  intros Hwf Hk. unfold clear_index_key. set (n := cw_calls w) in *. set (ix := data_index w) in *.
  destruct (query_selected (env_now n) k ix Hwf Hk) as (vs & Eq & HF).
  assert (data_index_call (λ i, MemoryIndex.query (env_now i) k) w =
    (Ok vs, {| cw_stores := set_data_index (cw_stores w) (MemoryIndex._purge_expired (env_now n) ix);
               cw_calls := Datatypes.S n |})) as E1
    by (rewrite index_call_quiet; fold n ix; by rewrite Eq).
  set (w1 := {| cw_stores := _; cw_calls := Datatypes.S n |}) in *.
  set (ix1 := MemoryIndex._purge_expired (env_now n) ix) in *.
  assert (index_wf (V:=DataIndexEntry) ix1) as Hwf1 by (apply index_wf_sub; [done|apply purge_sub]).
  pose proof (remove_selected (V:=DataIndexEntry) (env_now (Datatypes.S n)) k ix1 Hwf1 Hk) as Er.
  set (ix2 := set_index ix1 _) in Er.
  assert (data_index_call (λ i, MemoryIndex.remove (env_now i) k) w1 =
    (Ok tt, {| cw_stores := set_data_index (cw_stores w1) ix2; cw_calls := Datatypes.S (Datatypes.S n) |})) as E2.
  { rewrite index_call_quiet. change (data_index w1) with ix1. change (cw_calls w1) with (Datatypes.S n). by rewrite Er. }
  set (w2 := {| cw_stores := set_data_index (cw_stores w1) ix2; cw_calls := _ |}) in *.
  exists (entry_cache_key <$> vs), w2.
  split; [by rewrite (cbind_eq _ _ _ _ _ E1), (cbind_eq _ _ _ _ _ E2)|].
  split; [split; [simpl; lia|done]|]. split; [by apply remove_wf|]. split; [done|].
  assert (∀ i key, (Datatypes.S n ≤ i)%nat → index_live (env_now i) ix1 !! key = index_live (env_now i) ix !! key) as Hsame.
  { intros i key Hi. apply index_live_purge, (quiet_clock Hq). lia. }
  assert (∀ i key, (Datatypes.S (Datatypes.S n) ≤ i)%nat → index_at w2 i !! key =
    if decide (key ∈ selected (env_now (Datatypes.S n)) k ix1) then None else index_at w i !! key) as Hlive.
  { intros i key Hi. unfold index_at. change (data_index w2) with ix2. unfold ix2.
    rewrite index_live_delete by (apply (quiet_clock Hq); lia). by rewrite Hsame by lia. }
  split; [split|split].
  - intros i key Hi Hc. rewrite Hlive by done. case_decide as Hn; [done|].
    rewrite (selected_spec (V:=DataIndexEntry)) in Hn by done. apply eq_None_not_Some. intros [p Hp]. apply Hn.
    split; [|done]. exists p. rewrite Hsame by done. eapply index_antitone; [|exact Hp]. cbn in Hi. lia.
  - intros i key Hi Hc. rewrite Hlive by done. case_decide as Hn; [|done].
    by apply (selected_spec (V:=DataIndexEntry)) in Hn as [_ ?].
  - intros c (e & -> & He)%list_elem_of_fmap. apply list_elem_of_lookup in He as (j & Hj).
    destruct (Forall2_lookup_r _ _ _ _ _ HF Hj) as (key & Hkey & Hlive').
    exists key, e. split; [|done]. apply list_elem_of_lookup_2 in Hkey.
    by apply (selected_spec (V:=DataIndexEntry)) in Hkey as [_ ?].
  - intros i key e Hi Hc He. apply (index_antitone w n) in He; [|done].
    assert (key ∈ selected (env_now n) k ix) as Hin by (apply (selected_spec (V:=DataIndexEntry)); [done..|]; eauto).
    apply list_elem_of_lookup in Hin as (j & Hj).
    destruct (Forall2_lookup_l _ _ _ _ _ HF Hj) as (v & Hv & Hlive').
    apply list_elem_of_fmap. exists v. split; [|by eapply list_elem_of_lookup_2]. f_equal.
    unfold index_at in He. fold ix in He. rewrite He in Hlive'. injection Hlive' as Hser.
    pose proof (deserialize_serialize e) as H1. rewrite Hser, deserialize_serialize in H1. by injection H1.
Qed.

Lemma clear_index_quiet keys w :
  index_wf (V:=DataIndexEntry) (data_index w) →
  Forall (λ k, clean_key (mi_separator (data_index w)) k = true) keys →
  ∃ es w', cconcat keys clear_index_key w = (Ok es, w') ∧ data_kept w w' ∧
    index_cleared (covered (mi_separator (data_index w)) keys) w w' ∧
    (∀ c, c ∈ es → ∃ key e i, covered (mi_separator (data_index w)) keys key ∧ entry_cache_key e = c ∧
       (cw_calls w ≤ i)%nat ∧ index_at w i !! key = Some (serializer e)) ∧
    (∀ i key e, (cw_calls w' ≤ i)%nat → covered (mi_separator (data_index w)) keys key →
       index_at w i !! key = Some (serializer e) → entry_cache_key e ∈ es).
Proof.
  revert w; induction keys as [|k keys IH]; intros w Hwf Hkeys; cbn [cconcat].
  { exists [], w. split; [done|]. split; [split; [lia|done]|]. split; [split|split].
    - intros i key _ (k & Hk & _). by apply elem_of_nil in Hk.
    - done.
    - intros c Hc. by apply elem_of_nil in Hc.
    - intros i key e _ (k & Hk & _). by apply elem_of_nil in Hk. }
  apply Forall_cons in Hkeys as [Hk Hkeys].
  destruct (clear_index_key_quiet k w Hwf Hk) as (es1 & w1 & E1 & Hd1 & Hwf1 & Hsep & [Hc1 Hc1'] & He1 & Hall1).
  destruct (IH w1) as (es2 & w2 & E2 & Hd2 & [Hc2 Hc2'] & He2 & Hall2); [done|by rewrite Hsep|]. rewrite Hsep in *.
  pose proof Hd1 as [Hle1 _]. pose proof Hd2 as [Hle2 _].
  assert (∀ key, ¬ covered (mi_separator (data_index w)) (k :: keys) key →
    ¬ covers (mi_separator (data_index w)) k key ∧ ¬ covered (mi_separator (data_index w)) keys key) as Hncov.
  { intros key Hn. split; [|intros (k' & ? & ?)]; [intros ?|]; apply Hn; eexists; (split; [|done]); [left|by right]. }
  exists (es1 ++ es2), w2. split; [by rewrite (cbind_eq _ _ _ _ _ E1), (cbind_eq _ _ _ _ _ E2)|].
  split; [by eapply data_kept_trans|]. split; [split|split].
  - intros i key Hi Hcov. destruct (decide (covered (mi_separator (data_index w)) keys key)) as [Hin|Hn]; [by apply Hc2|].
    rewrite Hc2' by done. apply Hc1; [lia|]. destruct Hcov as (k' & [->|Hin]%elem_of_cons & Hc); [done|].
    destruct Hn. by exists k'.
  - intros i key Hi [Hn1 Hn2]%Hncov. rewrite Hc2', Hc1' by (done || lia). done.
  - intros c [Hc|Hc]%elem_of_app.
    + destruct (He1 c Hc) as (key & e & Hcov & Ec & Hi). exists key, e, (cw_calls w).
      split; [exists k; split; [left|done]|]. done.
    + destruct (He2 c Hc) as (key & e & i & (k' & Hin & Hcov) & Ec & Hi & He). exists key, e, i.
      split; [exists k'; split; [by right|done]|]. split; [done|]. split; [lia|].
      destruct (decide (covers (mi_separator (data_index w)) k key)); [by rewrite Hc1 in He|by rewrite Hc1' in He].
  - intros i key e Hi Hcov He. apply elem_of_app.
    destruct (decide (covers (mi_separator (data_index w)) k key)) as [Hc|Hn].
    + left. eapply Hall1; [|done|done]. lia.
    + right. destruct Hcov as (k' & [->|Hin]%elem_of_cons & Hc); [done|]. eapply Hall2; [done|by exists k'|].
      rewrite Hc1' by (done || lia). done.
Qed.

(** *** The whole use case *)

Lemma remove_keys_quiet ks w :
  ∃ w', (if bool_decide (ks = []) then mret tt else data_call (λ i, blob_remove (env_now i) ks)) w = (Ok tt, w') ∧
    (cw_calls w ≤ cw_calls w')%nat ∧ data_index w' = data_index w ∧
    ∀ i k, (cw_calls w' ≤ i)%nat → live_at w' i !! k = if decide (k ∈ ks) then None else live_at w i !! k.
Proof.
  case_bool_decide as E.
  - exists w. split; [done|]. split; [done|]. split; [done|]. intros i k _. rewrite decide_False; [done|].
    rewrite E. apply not_elem_of_nil.
  - rewrite (data_call_quiet Hq).
    destruct (blob_remove_ok (env_now (cw_calls w)) ks (st_data (cw_stores w))) as (s' & -> & _ & Hr).
    eexists. split; [done|]. split; [simpl; lia|]. split; [done|]. intros i k Hi. unfold live_at; simpl in *.
    apply Hr, (quiet_clock Hq). lia.
Qed.

(** The prefixes select exactly the dataframe keys of the project, or of its listed nodes. *)
Lemma prefix_selects_node p n p' n' rest :
  plain p = true → plain n = true → plain p' = true → plain n' = true → rest ≠ [] →
  Forall (λ seg, plain seg = true) rest →
  startswith ("df:" +:+ p +:+ ":" +:+ n +:+ ":") (py_join ":" ("df" :: p' :: n' :: rest)) = true ↔ p = p' ∧ n = n'.
Proof.
  intros Hp Hn Hp' Hn' Hne Hr.
  replace ("df:" +:+ p +:+ ":" +:+ n +:+ ":") with (py_join ":" ["df"; p; n] +:+ ":").
  2: { change ("df:" +:+ p +:+ ":" +:+ n +:+ ":") with ("df" +:+ ":" +:+ p +:+ ":" +:+ n +:+ ":").
       unfold py_join. cbn [String.concat]. by rewrite !app_assoc_str. }
  rewrite (join_prefix_iff ":"); [|done|done|done|by repeat constructor|by repeat constructor].
  split; [intros (r & _ & [= -> -> _]); done|]. intros [-> ->]. by exists rest.
Qed.

(** Clearing the data cache removes exactly what belongs to the project, or to the listed nodes:
    afterwards nothing in the name space of their dataframes can be read, nor any index record of
    theirs, nor the payloads those records name; every removed payload lies in that name space or
    is named by such a record; and everything else stays as it is, payloads and records. *)
Theorem clear_data_cache_is_exact project_id node_ids w :
  index_wf (V:=DataIndexEntry) (data_index w) →
  Forall (λ k, clean_key (mi_separator (data_index w)) k = true) (data_index_keys project_id node_ids) →
  let owns key := covered (mi_separator (data_index w)) (data_index_keys project_id node_ids) key in
  let in_space k := ∃ prefix, prefix ∈ data_prefixes project_id node_ids ∧ startswith prefix k = true in
  ∃ r w', ClearDataCache project_id node_ids w = (Ok r, w') ∧
    (∀ i k, (cw_calls w' ≤ i)%nat →
       live_at w' i !! k = if decide (k ∈ cleared_keys r) then None else live_at w i !! k) ∧
    (∀ i k, (cw_calls w' ≤ i)%nat → in_space k → live_at w' i !! k = None) ∧
    (∀ i key, (cw_calls w' ≤ i)%nat → owns key → index_at w' i !! key = None) ∧
    (∀ i key e, (cw_calls w' ≤ i)%nat → owns key → index_at w i !! key = Some (serializer e) →
       live_at w' i !! entry_cache_key e = None) ∧
    (∀ k, k ∈ cleared_keys r → in_space k ∨
       ∃ key e i, owns key ∧ entry_cache_key e = k ∧ (cw_calls w ≤ i)%nat ∧ index_at w i !! key = Some (serializer e)) ∧
    (∀ i key, (cw_calls w' ≤ i)%nat → ¬ owns key → index_at w' i !! key = index_at w i !! key).
Proof.
  intros Hwf Hkeys owns in_space. unfold ClearDataCache.
  destruct (scan_prefixes (data_prefixes project_id node_ids) w) as (ks & w1 & E1 & Hd1 & Hix1 & Hin1 & Hall1).
  destruct (clear_index_quiet (data_index_keys project_id node_ids) w1) as (es & w2 & E2 & Hd2 & [Hc2 Hc2'] & He2 & Hall2).
  { by rewrite Hix1. } { by rewrite Hix1. }
  assert (∀ i, index_at w1 i = index_at w i) as Hixs by (intros i; unfold index_at; by rewrite Hix1).
  rewrite Hix1 in *. destruct Hd1 as [Hle1 Hl1], Hd2 as [Hle2 Hl2].
  set (keys := dedupe_preserve_order (ks ++ es)). destruct (dedupe_spec (ks ++ es)) as [_ Hdd]. fold keys in Hdd.
  destruct (remove_keys_quiet keys w2) as (w3 & E3 & Hle3 & Hix3 & Hl3).
  assert (∀ i k, (cw_calls w3 ≤ i)%nat → live_at w3 i !! k = if decide (k ∈ keys) then None else live_at w i !! k) as Hlive.
  { intros i k Hi. rewrite Hl3, Hl2, Hl1 by lia. done. }
  exists {| cleared_keys := keys; clear_task_id := None |}, w3. cbn [cleared_keys].
  split. { by rewrite (cbind_eq _ _ _ _ _ E1), (cbind_eq _ _ _ _ _ E2), (cbind_eq _ _ _ _ _ E3). }
  split; [exact Hlive|]. split_and!.
  - intros i k Hi (prefix & Hp & Hst). rewrite Hlive by done. case_decide as Hn; [done|].
    apply eq_None_not_Some. intros Hsome. apply Hn, Hdd, elem_of_app. left. eapply Hall1; [|done..]. lia.
  - intros i key Hi Ho. unfold index_at. rewrite Hix3. apply Hc2; [lia|done].
  - intros i key e Hi Ho He. rewrite Hlive by done. rewrite decide_True; [done|].
    apply Hdd, elem_of_app. right. eapply Hall2; [|exact Ho|by rewrite Hixs]. lia.
  - intros k [Hk|Hk]%Hdd%elem_of_app; [left; by apply Hin1|right].
    destruct (He2 k Hk) as (key & e & i & Ho & Ee & Hi & He). exists key, e, i. rewrite Hixs in He.
    split_and!; [done|done|lia|done].
  - intros i key Hi Ho. unfold index_at at 1. rewrite Hix3. change (index_live (env_now i) (data_index w2)) with (index_at w2 i).
    rewrite Hc2' by (done || lia). by rewrite Hixs.
Qed.
End clearing.
