(* ===== verification/CacheWriter.v ===== *)
(** Pipeline cache: storing and reading back the partitions of a dataframe, from
    [src/modules/pipeline_cache/infra/dask_dataframe_cache.py].

    [DaskPartitionCacheWriter] is a state machine: the thread that computes the dataframe submits
    partitions one after the other and blocks while too much is pending, uploads complete in any
    order. The condition variable makes every step atomic. Reading back groups partitions into
    batches. *)
From S2P Require Import Prelude CacheKeys CacheStore CacheIndex CacheTypes CacheFlow CacheGeneration.

(** ** Batches of a restore *)

Section batches.
Context (policy : DataFrameCachePolicy).

(** The loop of [_build_restore_batches]. *)
Fixpoint batch_loop (descriptors : list DataFramePartitionDescriptor)
    (batches : list (list DataFramePartitionDescriptor)) (current : list DataFramePartitionDescriptor)
    (current_bytes : Z) : list (list DataFramePartitionDescriptor) :=
  match descriptors with
  | [] => if bool_decide (current = []) then batches else batches ++ [current]
  | d :: descriptors =>
      let exceeds_count := max_restore_batch_partitions policy <=? Z.of_nat (length current) in
      let exceeds_bytes := negb (bool_decide (current = [])) &&
                           (max_restore_batch_bytes policy <? current_bytes + payload_bytes d) in
      if exceeds_count || exceeds_bytes
      then batch_loop descriptors (batches ++ [current]) [d] (payload_bytes d)
      else batch_loop descriptors batches (current ++ [d]) (current_bytes + payload_bytes d)
  end.

Definition _build_restore_batches (partitions : list DataFramePartitionDescriptor) :
    list (list DataFramePartitionDescriptor) := batch_loop partitions [] [] 0.

(** The delayed partitions of [build_lazy_dataframe]: the keys of a batch and an index in it. *)
Definition lazy_partitions (partitions : list DataFramePartitionDescriptor) : list (list string * nat) :=
  concat ((λ batch, (λ i, (cache_key <$> batch, i)) <$> seq 0 (length batch)) <$> _build_restore_batches partitions).

Definition batch_bytes (batch : list DataFramePartitionDescriptor) : Z := foldr (λ d n, payload_bytes d + n) 0 batch.

Definition batch_ok (batch : list DataFramePartitionDescriptor) : Prop :=
  batch ≠ [] ∧ Z.of_nat (length batch) ≤ max_restore_batch_partitions policy ∧
  (batch_bytes batch ≤ max_restore_batch_bytes policy ∨ length batch = 1%nat).

Lemma batch_bytes_app l d : batch_bytes (l ++ [d]) = batch_bytes l + payload_bytes d.
Proof. unfold batch_bytes. induction l as [|x l IH]; simpl; lia. Qed.

Lemma batch_bytes_one d : payload_bytes d = batch_bytes [d].
Proof. unfold batch_bytes. simpl. lia. Qed.

Lemma batch_loop_spec descriptors batches current :
  0 < max_restore_batch_partitions policy →
  Forall batch_ok batches → (current = [] ∨ batch_ok current) →
  let result := batch_loop descriptors batches current (batch_bytes current) in
  Forall batch_ok result ∧ concat result = concat batches ++ current ++ descriptors.
Proof.
  intros Hmax. revert batches current; induction descriptors as [|d descriptors IH]; intros batches current Hb Hc.
  - cbn [batch_loop]. case_bool_decide as E.
    + rewrite E, !app_nil_r. done.
    + destruct Hc as [?|Hc]; [done|]. rewrite concat_app. simpl. rewrite !app_nil_r. split; [|done].
      apply Forall_app. by split; [|constructor].
  - cbv zeta. cbn [batch_loop].
    assert (batch_ok [d]) as Hd by (split_and!; [done|simpl; lia|by right]).
    destruct (Z.leb_spec (max_restore_batch_partitions policy) (Z.of_nat (length current))) as [Hcount|Hcount]; cbn [orb].
    + destruct Hc as [->|Hc]; [simpl in Hcount; lia|].
      destruct (IH (batches ++ [current]) [d]) as [H1 H2]; [by apply Forall_app; split; [|constructor]|by right|].
      rewrite (batch_bytes_one d). split; [done|]. rewrite H2, concat_app. simpl. by rewrite app_nil_r, <-!app_assoc.
    + case_bool_decide as E; cbn [negb andb].
      * subst current. destruct (IH batches [d]) as [H1 H2]; [done|by right|].
        change (batch_bytes []) with 0. rewrite Z.add_0_l, (batch_bytes_one d). done.
      * destruct Hc as [?|Hc]; [done|].
        destruct (Z.ltb_spec (max_restore_batch_bytes policy) (batch_bytes current + payload_bytes d)) as [Hlt|Hge].
        -- destruct (IH (batches ++ [current]) [d]) as [H1 H2]; [by apply Forall_app; split; [|constructor]|by right|].
           rewrite (batch_bytes_one d). split; [done|]. rewrite H2, concat_app. simpl. by rewrite app_nil_r, <-!app_assoc.
        -- destruct (IH batches (current ++ [d])) as [H1 H2]; [done| |].
           { right. split; [by destruct current|]. rewrite length_app, batch_bytes_app. simpl. split; [lia|by left]. }
           rewrite batch_bytes_app in H1, H2. split; [done|]. rewrite H2. by rewrite <-!app_assoc.
Qed.

Lemma lazy_partitions_concat batches :
  concat ((λ batch, (λ i, (cache_key <$> batch, i)) <$> seq 0 (length batch)) <$> batches) ≫=
    (λ ki, match ki.1 !! ki.2 with Some k => [k] | None => [] end) = cache_key <$> concat batches.
Proof.
  induction batches as [|batch batches IH]; [done|]. rewrite fmap_cons. cbn [concat].
  rewrite bind_app, IH, fmap_app. f_equal. clear IH.
  assert (∀ pre l : list DataFramePartitionDescriptor,
    ((λ i, (cache_key <$> (pre ++ l), i)) <$> seq (length pre) (length l)) ≫=
      (λ ki, match ki.1 !! ki.2 with Some k => [k] | None => [] end) = cache_key <$> l) as Hgen; [|by apply (Hgen [])].
  intros pre l. revert pre; induction l as [|d l IH]; intros pre; [done|]. cbn [length seq]. rewrite !fmap_cons.
  cbn [mbind list_bind]. cbn [fst snd]. rewrite list_lookup_fmap, lookup_app_r, Nat.sub_diag by lia. cbn [lookup list_lookup].
  simpl. f_equal. specialize (IH (pre ++ [d])). rewrite length_app in IH. simpl in IH.
  rewrite Nat.add_1_r, <-app_assoc in IH. exact IH.
Qed.

(** Restoring reads every partition exactly once and in order, in batches that are never empty and
    never exceed the limit of partitions, nor the limit of bytes unless a single partition does. *)
Theorem restore_batches_are_bounded partitions :
  0 < max_restore_batch_partitions policy →
  Forall batch_ok (_build_restore_batches partitions) ∧
  concat (_build_restore_batches partitions) = partitions ∧
  lazy_partitions partitions ≫= (λ ki, match ki.1 !! ki.2 with Some k => [k] | None => [] end) = cache_key <$> partitions.
Proof.
  intros Hmax. destruct (batch_loop_spec partitions [] [] Hmax) as [H1 H2]; [constructor|by left|].
  split; [done|]. split; [done|]. unfold lazy_partitions. rewrite lazy_partitions_concat. f_equal. exact H2.
Qed.
End batches.

(** ** The writer *)

(** What the submitting thread is doing. *)
Inductive wphase :=
  | WIdle
  | WWaiting (part : Z) (size : Z)     (* encoded, in _acquire_capacity *)
  | WAcquired (part : Z) (size : Z).   (* capacity taken, not yet handed to the event loop *)

Record Writer := {
  wr_phase : wphase;
  wr_pending : list (nat * Z);                       (* futures and their sizes *)
  wr_pending_bytes : Z;
  wr_descriptors : list (Z * DataFramePartitionDescriptor);   (* by part number, in insertion order *)
  wr_first_error : option cache_exn;
  wr_committed : bool;
}.

Definition new_writer : Writer := {|
  wr_phase := WIdle; wr_pending := []; wr_pending_bytes := 0; wr_descriptors := [];
  wr_first_error := None; wr_committed := false |}.

Definition set_phase (x : Writer) (p : wphase) : Writer := {|
  wr_phase := p; wr_pending := wr_pending x; wr_pending_bytes := wr_pending_bytes x;
  wr_descriptors := wr_descriptors x; wr_first_error := wr_first_error x; wr_committed := wr_committed x |}.

Definition set_pending (x : Writer) (pending : list (nat * Z)) (bytes : Z) : Writer := {|
  wr_phase := wr_phase x; wr_pending := pending; wr_pending_bytes := bytes;
  wr_descriptors := wr_descriptors x; wr_first_error := wr_first_error x; wr_committed := wr_committed x |}.

Definition _record_error (e : cache_exn) (x : Writer) : Writer := {|
  wr_phase := wr_phase x; wr_pending := wr_pending x; wr_pending_bytes := wr_pending_bytes x;
  wr_descriptors := wr_descriptors x;
  wr_first_error := match wr_first_error x with None => Some e | some => some end;
  wr_committed := wr_committed x |}.

(** [self._descriptors[part_no] = descriptor] *)
Fixpoint set_descriptor (l : list (Z * DataFramePartitionDescriptor)) (d : DataFramePartitionDescriptor) :
    list (Z * DataFramePartitionDescriptor) :=
  match l with
  | [] => [(part_no d, d)]
  | (n, d') :: l => if decide (n = part_no d) then (n, d) :: l else (n, d') :: set_descriptor l d
  end.

Section writer.
Context (policy : DataFrameCachePolicy).

(** The condition under which [_acquire_capacity] keeps waiting. *)
Definition must_wait (size : Z) (x : Writer) : bool :=
  negb (bool_decide (wr_pending x = [])) &&
  ((max_pending_partitions policy <=? Z.of_nat (length (wr_pending x))) ||
   (max_pending_bytes policy <? wr_pending_bytes x + size)).

(** [submit_partition] until the capacity is asked for; [payload] is what encoding gave. *)
Definition submit_partition (part : Z) (payload : outcome cache_exn bytes) (x : Writer) : Writer :=
  if wr_committed x then x else
  match payload with
  | Raise e => _record_error e x
  | Ok p => set_phase x (WWaiting part (Z.of_nat (String.length p)))
  end.

(** [_acquire_capacity], when the thread is woken or first tests. *)
Definition _acquire_capacity (x : Writer) : Writer :=
  match wr_phase x with
  | WWaiting part size =>
      if must_wait size x then x
      else set_phase (set_pending x (wr_pending x) (wr_pending_bytes x + size)) (WAcquired part size)
  | _ => x
  end.

(** The rest of [submit_partition]: the upload is handed over as [future], or that fails. *)
Definition launch (future : outcome cache_exn nat) (x : Writer) : Writer :=
  match wr_phase x with
  | WAcquired part size =>
      match future with
      | Ok f => set_phase (set_pending x ((f, size) :: wr_pending x) (wr_pending_bytes x)) WIdle
      | Raise e => set_phase (_record_error e (set_pending x (wr_pending x) (Z.max 0 (wr_pending_bytes x - size)))) WIdle
      end
  | _ => x
  end.

(** [self._pending.pop(future, 0)] *)
Fixpoint pop_pending (f : nat) (l : list (nat * Z)) : Z * list (nat * Z) :=
  match l with
  | [] => (0, [])
  | (f', n) :: l => if decide (f = f') then (n, l) else let (m, l') := pop_pending f l in (m, (f', n) :: l')
  end.

Definition _done (f : nat) (result : outcome cache_exn DataFramePartitionDescriptor) (x : Writer) : Writer :=
  let (size, pending) := pop_pending f (wr_pending x) in
  let x := set_pending x pending (Z.max 0 (wr_pending_bytes x - size)) in
  match result with
  | Ok d => {| wr_phase := wr_phase x; wr_pending := wr_pending x; wr_pending_bytes := wr_pending_bytes x;
               wr_descriptors := set_descriptor (wr_descriptors x) d;
               wr_first_error := wr_first_error x; wr_committed := wr_committed x |}
  | Raise e => _record_error e x
  end.

(** What can happen next, with the results the environment gives. *)
Inductive wevent :=
  | ESubmit (part : Z) (payload : outcome cache_exn bytes)
  | EAcquire
  | ELaunch (future : outcome cache_exn nat)
  | EDone (future : nat) (result : outcome cache_exn DataFramePartitionDescriptor).

(** The submitting thread submits only when it is idle; a future is new when it is handed over. *)
Definition wstep (e : wevent) (x : Writer) : Writer :=
  match e with
  | ESubmit part payload => match wr_phase x with WIdle => submit_partition part payload x | _ => x end
  | EAcquire => _acquire_capacity x
  | ELaunch (Ok f) => if decide (f ∈ (wr_pending x).*1) then x else launch (Ok f) x
  | ELaunch r => launch r x
  | EDone f r => _done f r x
  end.

Definition wrun (events : list wevent) : Writer := foldl (λ x e, wstep e x) new_writer events.

(** *** Pressure *)

Definition pending_size (l : list (nat * Z)) : Z := foldr (λ fn n, fn.2 + n) 0 l.

(** The bytes that the phase holds besides the pending ones. *)
Definition phase_size (p : wphase) : Z := match p with WAcquired _ size => size | _ => 0 end.

(** How many partitions are in memory: pending, or about to be. *)
Definition in_flight (x : Writer) : Z :=
  Z.of_nat (length (wr_pending x)) + match wr_phase x with WAcquired _ _ => 1 | _ => 0 end.

Record writer_inv (x : Writer) : Prop := {
  wi_bytes : wr_pending_bytes x = pending_size (wr_pending x) + phase_size (wr_phase x);
  wi_sizes : Forall (λ fn, 0 ≤ fn.2) (wr_pending x);
  wi_phase : match wr_phase x with WIdle => True | WWaiting _ n | WAcquired _ n => 0 ≤ n end;
  wi_count : in_flight x ≤ max_pending_partitions policy;
  wi_limit : wr_pending_bytes x ≤ max_pending_bytes policy ∨ in_flight x = 1;
  wi_parts : NoDup (wr_descriptors x).*1;
  wi_numbers : Forall (λ nd, nd.1 = part_no nd.2) (wr_descriptors x);
}.

Lemma pending_size_nonneg l : Forall (λ fn : nat * Z, 0 ≤ fn.2) l → 0 ≤ pending_size l.
Proof. unfold pending_size. induction 1 as [|fn l H _ IH]; simpl; lia. Qed.

Lemma pop_pending_spec f l :
  Forall (λ fn : nat * Z, 0 ≤ fn.2) l →
  let '(size, l') := pop_pending f l in
  pending_size l = size + pending_size l' ∧ Forall (λ fn, 0 ≤ fn.2) l' ∧ (length l' ≤ length l)%nat ∧ 0 ≤ size ∧
  (length l' = length l → size = 0).
Proof.
  unfold pending_size. induction 1 as [|[f' n] l Hn Hl IH]; simpl; [split_and!; constructor || lia|].
  destruct (decide (f = f')); [split_and!; done || (simpl in *; lia)|].
  destruct (pop_pending f l) as [m l']. destruct IH as (H1 & H2 & H3 & H4 & H5). simpl in *.
  split_and!; [lia|by constructor|lia|done|]. intros [= E]. auto.
Qed.

Lemma set_descriptor_keys l d :
  NoDup l.*1 → Forall (λ nd, nd.1 = part_no nd.2) l →
  NoDup (set_descriptor l d).*1 ∧ Forall (λ nd, nd.1 = part_no nd.2) (set_descriptor l d) ∧
  ∀ n, n ∈ (set_descriptor l d).*1 → n = part_no d ∨ n ∈ l.*1.
Proof.
  induction l as [|[n d'] l IH]; cbn [set_descriptor].
  { intros _ _. split_and!; [apply NoDup_singleton|by repeat constructor|]. intros n Hn. left. set_solver. }
  intros [Hn Hnd]%NoDup_cons [Hd Hl]%Forall_cons. case_decide as E.
  - split_and!; [by constructor|by constructor|]. intros m Hm. set_solver.
  - destruct (IH Hnd Hl) as (H1 & H2 & H3). split_and!.
    + constructor; [|done]. intros Hin. apply H3 in Hin as [Hin|Hin]; [by simpl in *|]. done.
    + by constructor.
    + intros m. rewrite fmap_cons. intros [->|Hm]%elem_of_cons; [right; left|].
      destruct (H3 m Hm); [by left|right; by right].
Qed.

Lemma record_error_inv e x : writer_inv x → writer_inv (_record_error e x).
Proof. intros [H1 H2 H3 H4 H5 H6 H7]. constructor; done. Qed.

Lemma submit_inv part payload x : wr_phase x = WIdle → writer_inv x → writer_inv (submit_partition part payload x).
Proof.
  intros Hp Hx. unfold submit_partition. destruct (wr_committed x); [done|].
  destruct payload as [p|e]; [|by apply record_error_inv].
  destruct Hx as [H1 H2 H3 H4 H5 H6 H7]. unfold in_flight in *. rewrite Hp in *.
  constructor; unfold in_flight; simpl in *; try done. lia.
Qed.

Hypothesis Hpolicy : is_ok (make_policy policy) = true.

Lemma policy_positive : 0 < max_pending_partitions policy ∧ 0 < max_pending_bytes policy.
Proof.
  unfold make_policy in Hpolicy. destruct (Z.leb_spec (max_pending_partitions policy) 0); [done|].
  destruct (Z.leb_spec (max_pending_bytes policy) 0); [done|]. lia.
Qed.

Lemma acquire_inv x : writer_inv x → writer_inv (_acquire_capacity x).
Proof.
  intros [H1 H2 H3 H4 H5 H6 H7]. pose proof policy_positive as [Hp1 Hp2]. unfold _acquire_capacity.
  destruct (wr_phase x) as [|part size|part size] eqn:Ep; [by constructor; rewrite ?Ep| |by constructor; rewrite ?Ep].
  destruct (must_wait size x) eqn:Ew; [by constructor; rewrite ?Ep|].
  unfold must_wait in Ew. unfold in_flight in *. rewrite Ep in *. simpl in *.
  assert (wr_pending x = [] ∨ Z.of_nat (length (wr_pending x)) < max_pending_partitions policy ∧
          wr_pending_bytes x + size ≤ max_pending_bytes policy) as Hcap.
  { case_bool_decide as E; [by left|right]. simpl in Ew. apply orb_false_iff in Ew as [Ew1 Ew2].
    apply Z.leb_gt in Ew1. apply Z.ltb_ge in Ew2. lia. }
  constructor; unfold in_flight; simpl; try done.
  - lia.
  - destruct Hcap as [->|[? ?]]; simpl; lia.
  - destruct Hcap as [->|[? ?]]; [right; done|left; lia].
Qed.

Lemma launch_inv r x : writer_inv x → writer_inv (launch r x).
Proof.
  intros Hx. pose proof Hx as [H1 H2 H3 H4 H5 H6 H7]. unfold launch.
  destruct (wr_phase x) as [|part size|part size] eqn:Ep; [done..|].
  unfold in_flight in *. rewrite Ep in *. simpl in *. pose proof (pending_size_nonneg _ H2).
  destruct r as [f|e]; constructor; unfold in_flight; simpl; try done.
  - lia.
  - by constructor.
  - lia.
  - destruct H5 as [?|?]; [by left|right; lia].
  - lia.
  - lia.
  - destruct H5 as [?|?]; [left; lia|]. left. assert (length (wr_pending x) = O) as E by lia.
    destruct (wr_pending x); [|done]. simpl in *. pose proof policy_positive. lia.
Qed.

Lemma done_inv f r x : writer_inv x → writer_inv (_done f r x).
Proof.
  intros [H1 H2 H3 H4 H5 H6 H7]. unfold _done. pose proof (pop_pending_spec f (wr_pending x) H2) as Hpop.
  destruct (pop_pending f (wr_pending x)) as [size pending]. destruct Hpop as (E & Hs & Hl & Hn & Hz).
  pose proof (pending_size_nonneg _ Hs). unfold in_flight in *.
  assert (0 ≤ phase_size (wr_phase x)) as Hph by (destruct (wr_phase x); simpl; lia).
  assert (writer_inv (set_pending x pending (Z.max 0 (wr_pending_bytes x - size)))) as Hinv.
  { constructor; unfold in_flight; simpl; try done; [lia|lia|].
    destruct H5 as [?|Hone]; [left; lia|].
    destruct (decide (length pending = length (wr_pending x))) as [El|Hne].
    - right. lia.
    - left. pose proof policy_positive. assert (length pending = O) as E0 by (destruct (wr_phase x); lia).
      destruct pending; [|done]. destruct (wr_phase x); simpl in *; lia. }
  destruct r as [d|e]; [|by apply record_error_inv].
  destruct (set_descriptor_keys (wr_descriptors x) d H6 H7) as (? & ? & _).
  destruct Hinv as [G1 G2 G3 G4 G5 G6 G7]. by constructor.
Qed.

(** However uploads complete and whatever fails, the writer keeps its pressure bounded: never more
    partitions in flight than allowed, nor more bytes unless a single partition is larger; the
    bytes it counts are exactly those in flight; and a thread that has to wait has an upload to
    wait for. *)
Theorem writer_pressure_is_bounded events :
  let x := wrun events in
  in_flight x ≤ max_pending_partitions policy ∧
  (wr_pending_bytes x ≤ max_pending_bytes policy ∨ in_flight x = 1) ∧
  wr_pending_bytes x = pending_size (wr_pending x) + phase_size (wr_phase x) ∧
  NoDup (wr_descriptors x).*1 ∧
  (∀ part size, wr_phase x = WWaiting part size → wr_pending x = [] →
     wr_phase (_acquire_capacity x) = WAcquired part size).
Proof.
  intros x. assert (writer_inv x) as [H1 H2 H3 H4 H5 H6 H7].
  { subst x. unfold wrun. assert (writer_inv new_writer) as H0.
    { pose proof policy_positive. constructor; unfold in_flight; simpl; try done || lia; constructor || (left; lia). }
    revert H0. generalize new_writer. induction events as [|e events IH]; intros x Hx; [done|]. simpl. apply IH.
    destruct e as [part payload| |[f|e]|f r]; simpl.
    - destruct (wr_phase x) eqn:Ep; [by apply submit_inv|done..].
    - by apply acquire_inv.
    - case_decide; [done|]. by apply launch_inv.
    - by apply launch_inv.
    - by apply done_inv. }
  split_and!; try done. intros part size Ep E. unfold _acquire_capacity. rewrite Ep. unfold must_wait.
  rewrite bool_decide_eq_true_2 by done. done.
Qed.
End writer.

(** ** Finishing *)

Section finishing.
Context {S : Type} `{HB : !BlobStore S, HE : !CacheEnv S, HD : !PyData, HC : !CacheCodec CacheObject}.
Context (policy : DataFrameCachePolicy) (ttl : option Z) (g : GenerationId) (output_name : string) (npartitions : Z).

Definition set_committed (x : Writer) : Writer := {|
  wr_phase := wr_phase x; wr_pending := wr_pending x; wr_pending_bytes := wr_pending_bytes x;
  wr_descriptors := wr_descriptors x; wr_first_error := wr_first_error x; wr_committed := true |}.

(** Marks the generation aborted and reports the failure. *)
Definition report_failure (message : string) (x : Writer) : C S (bool * Writer) :=
  abort_output_generation ttl g output_name;;
  if strict policy then craise (CacheRuntimeError message) else mret (false, x).

(** [finish], once nothing is pending any more. *)
Definition finish (fuel : nat) (x : Writer) : C S (bool * Writer) :=
  if wr_committed x then mret (true, x) else
  let descriptors := (wr_descriptors x).*2 in
  match wr_first_error x with
  | None =>
      if Z.of_nat (length descriptors) =? npartitions then
        λ w, match commit_output_generation ttl fuel g output_name descriptors w with
             | (Ok _, w') => (Ok (true, set_committed x), w')
             | (Raise _, w') => report_failure "Failed to commit dataframe cache generation" x w'
             end
      else report_failure "Dataframe cache generation aborted" x
  | Some _ => report_failure "Dataframe cache generation aborted" x
  end.

Definition abort (x : Writer) : C S unit :=
  if wr_committed x then mret tt else abort_output_generation ttl g output_name.

(** A writer that reports success stored a complete generation: no error was recorded, and the
    manifest it committed, which was being written, lists exactly its partitions, each number
    from zero on once; and a writer that is not strict never raises. *)
Theorem writer_commits_only_complete fuel x w r w' :
  wr_committed x = false → finish fuel x w = (r, w') →
  match r with
  | Ok (true, x') =>
      wr_committed x' = true ∧ wr_first_error x = None ∧
      ∃ m m', commit_output_generation ttl fuel g output_name (wr_descriptors x).*2 w = (Ok m', w') ∧
        mf_state m = WRITING ∧ ready m (wr_descriptors x).*2 = Ok m' ∧ mf_state m' = READY ∧
        mf_partitions m' ≡ₚ (wr_descriptors x).*2 ∧
        part_no <$> mf_partitions m' = py_range (mf_npartitions m')
  | Ok (false, x') => x' = x
  | Raise e => strict policy = true
  end.
Proof.
  intros Hc. unfold finish. rewrite Hc.
  assert (∀ message w1 r w', report_failure message x w1 = (r, w') →
    match r with Ok (true, _) => False | Ok (false, x') => x' = x | Raise e => strict policy = true end) as Hgive.
  { intros message w1 r1 w1'. unfold report_failure, abort_output_generation, ccatch, mbind, C_bind.
    destruct (obj_get _ w1) as [[[[| | | | |]|]|] w2]; try (destruct (strict policy); intros [= <- <-]; done).
    destruct (obj_put _ _ _ w2) as [[]]; destruct (strict policy); intros [= <- <-]; done. }
  destruct (wr_first_error x) as [e|].
  { intros E%Hgive. by destruct r as [[[] ?]|]. }
  destruct (Z.of_nat _ =? npartitions); [|intros E%Hgive; by destruct r as [[[] ?]|]].
  destruct (commit_output_generation _ _ _ _ _ w) as [[m'|e] w1] eqn:Ec.
  2: { intros E%Hgive. by destruct r as [[[] ?]|]. }
  intros [= <- <-]. split; [done|]. split; [done|].
  unfold commit_output_generation in Ec. cinv Ec. destruct a as [[m| | | | |]|]; try done.
  destruct (bool_decide_reflect (mf_state m = WRITING)) as [Hw|]; simpl in Ec; [|done].
  cinv Ec. cinv Hc1. subst. cinv Ec. cinv Ec. cinv Ec. subst.
  exists m, a. split; [done|]. split; [done|]. split; [done|].
  unfold ready in E. destruct (Z.of_nat _ =? _); [|done]. simpl in E.
  destruct (bool_decide_reflect (part_no <$> merge_sort part_no_le (wr_descriptors x).*2 = py_range (mf_npartitions m)))
    as [Hr|]; simpl in E; [|done].
  injection E as <-. cbn [mf_state mf_partitions mf_npartitions]. split; [done|]. split; [|done].
  apply merge_sort_Permutation.
Qed.
End finishing.
