(* ===== verification/CacheRun.v ===== *)
(** Pipeline cache: concrete runs.

    A codec that writes every object as a list of texts and reads it back, an environment without
    interference, and runs that show that the theorems about the cache apply. *)
From Stdlib Require Import Ascii.
From S2P Require Import Prelude CacheKeys CacheStore CacheIndex CacheTypes CacheFlow CacheUseCases.
From S2P Require Import CacheGeneration CacheRoundtrip CacheActivation CacheClear CacheWriter.

Module CacheRuns.

(** ** A codec *)

(** Every character of a text is preceded by ["."]; ["|"] ends the text. *)
Fixpoint quote (s rest : string) : string :=
  match s with
  | EmptyString => String "|"%char rest
  | String c s => String "."%char (String c (quote s rest))
  end.

Fixpoint unquote (s : string) : option (string * string) :=
  match s with
  | String "|"%char rest => Some (EmptyString, rest)
  | String "."%char (String c s) => '(t, rest) ← unquote s; Some (String c t, rest)
  | _ => None
  end.

Lemma unquote_quote s rest : unquote (quote s rest) = Some (s, rest).
Proof. induction s as [|c s IH]; [done|]. simpl. by rewrite IH. Qed.

Class Ser (A : Type) := {
  ser : A → string → string;
  deser : string → option (A * string);
  deser_ser a rest : deser (ser a rest) = Some (a, rest);
}.

#[local] Instance ser_string : Ser string := {| ser := quote; deser := unquote; deser_ser := unquote_quote |}.

#[local] Instance ser_Z : Ser Z.
Proof.
  refine {|
  ser n rest := quote (str_of_int n) rest;
  deser s := '(t, rest) ← unquote s; n ← int_of_str t; Some (n, rest) |}.
  intros n rest. simpl. rewrite unquote_quote. simpl. by rewrite int_of_str_of_int.
Defined.

#[local] Instance ser_prod {A B} `{!Ser A, !Ser B} : Ser (A * B).
Proof.
  refine {|
  ser ab rest := ser ab.1 (ser ab.2 rest);
  deser s := '(a, s) ← deser s; '(b, s) ← deser s; Some ((a, b), s) |}.
  intros [a b] rest. simpl. rewrite deser_ser. simpl. by rewrite deser_ser.
Defined.

#[local] Instance ser_option {A} `{!Ser A} : Ser (option A).
Proof.
  refine {|
  ser o rest := match o with None => quote "n" rest | Some a => quote "s" (ser a rest) end;
  deser s := '(t, s) ← unquote s;
             if String.eqb t "n" then Some (None, s) else '(a, s) ← deser s; Some (Some a, s) |}.
  intros [a|] rest; simpl; [|done]. by rewrite deser_ser.
Defined.

Fixpoint ser_items {A} `{!Ser A} (l : list A) (rest : string) : string :=
  match l with [] => quote "e" rest | x :: l => quote "i" (ser x (ser_items l rest)) end.

Fixpoint deser_items {A} `{!Ser A} (fuel : nat) (s : string) : option (list A * string) :=
  match fuel with
  | O => None
  | S fuel => '(t, s) ← unquote s;
              if String.eqb t "e" then Some ([], s)
              else '(x, s) ← deser s; '(l, s) ← deser_items fuel s; Some (x :: l, s)
  end.

Lemma deser_ser_items {A} `{!Ser A} (l : list A) fuel rest :
  (length l < fuel)%nat → deser_items fuel (ser_items l rest) = Some (l, rest).
Proof.
  revert fuel; induction l as [|x l IH]; intros [|fuel] Hf; simpl in *; try lia; [done|].
  rewrite deser_ser. simpl. by rewrite IH by lia.
Qed.

(** A list is preceded by its length. *)
#[local] Instance ser_list {A} `{!Ser A} : Ser (list A).
Proof.
  refine {|
  ser l rest := ser (Z.of_nat (length l)) (ser_items l rest);
  deser s := '(n, s) ← deser s; deser_items (S (Z.to_nat n)) s |}.
  intros l rest. rewrite (deser_ser (A:=Z)). cbn [mbind option_bind]. rewrite deser_ser_items; [done|]. lia.
Defined.

(** A type that is written as another. *)
Definition ser_via {A B} `{!Ser B} (f : A → B) (g : B → option A) (Hfg : ∀ a, g (f a) = Some a) : Ser A.
Proof.
  refine {| ser a rest := ser (f a) rest; deser s := '(b, s) ← deser s; a ← g b; Some (a, s) |}.
  intros a rest. rewrite deser_ser. simpl. by rewrite Hfg.
Defined.

#[local] Instance ser_bool : Ser bool :=
  ser_via (B := Z) (λ b : bool, if b then 1 else 0) (λ n, Some (n =? 1)) ltac:(by intros []).

#[local] Instance ser_state : Ser CacheGenerationState :=
  ser_via (B := Z) (λ s, match s with WRITING => 0 | READY => 1 | ABORTED => 2 | INVALID => 3 end)
    (λ n, Some (if n =? 0 then WRITING else if n =? 1 then READY else if n =? 2 then ABORTED else INVALID))
    ltac:(by intros []).

#[local] Instance ser_order : Ser DataFrameExecutionOrder :=
  ser_via (B := Z * string) (λ o, (queued_at_us o, order_task_id o))
    (λ '(q, t), Some {| queued_at_us := q; order_task_id := t |}) ltac:(by intros []).

#[local] Instance ser_descriptor : Ser DataFramePartitionDescriptor :=
  ser_via (B := Z * string * Z * Z) (λ d, (part_no d, cache_key d, rows d, payload_bytes d))
    (λ '(n, k, r, p), Some {| part_no := n; cache_key := k; rows := r; payload_bytes := p |}) ltac:(by intros []).

(** Objects are texts, a frame is the list of its rows. *)
#[local] Instance text_data : PyData := {|
  Obj := string; Frame := list string; Row := string;
  frame_rows f := f; iloc_from n f := drop n f; iloc_to n f := take n f; pd_concat f g := f ++ g;
  pd_DataFrame v := match v with inl l => Ok l | inr v => Ok [v] end;
  hash_hex f := py_join "," f |}.

#[local] Instance text_data_laws : PyDataLaws.
Proof. by constructor. Defined.

#[local] Instance ser_manifest : Ser DataFrameCacheManifest :=
  ser_via (B := Z * string * string * string * string * string * string * list string * Z *
                list DataFramePartitionDescriptor * list Z * bool * option (list string) * Z * CacheGenerationState)
    (λ m, (mf_format_version m, mf_project_id m, mf_node_id m, mf_output_name m, mf_generation_id m,
                 mf_node_runtime_fingerprint m, mf_schema_fingerprint m, (mf_meta m : list string), mf_npartitions m,
                 mf_partitions m, mf_rows_per_partition m, mf_known_divisions m,
                 (mf_divisions m : option (list string)), mf_created_at m, mf_state m))
    (λ '(v, p, n, o, g, f, s, meta, np, ps, rs, kd, d, c, st), Some {|
       mf_format_version := v; mf_project_id := p; mf_node_id := n; mf_output_name := o; mf_generation_id := g;
       mf_node_runtime_fingerprint := f; mf_schema_fingerprint := s; mf_meta := meta; mf_npartitions := np;
       mf_partitions := ps; mf_rows_per_partition := rs; mf_known_divisions := kd; mf_divisions := d;
       mf_created_at := c; mf_state := st |}) ltac:(by intros []).

#[local] Instance ser_snapshot : Ser DataFrameExecutionSnapshot :=
  ser_via (B := Z * string * string * string * string * string * list string * list string * list (string * string) *
                list (string * option string) * Z * option DataFrameExecutionOrder)
    (λ s, (sn_format_version s, sn_project_id s, sn_node_id s, sn_generation_id s, sn_node_name s,
                 sn_node_runtime_fingerprint s, sn_output_names s, sn_dataframe_output_names s,
                 (sn_non_dataframe_outputs s : list (string * string)),
                 (sn_metadata s : list (string * option string)), sn_created_at s, sn_execution_order s))
    (λ '(v, p, n, g, name, f, os, ds, nd, md, c, o), Some {|
       sn_format_version := v; sn_project_id := p; sn_node_id := n; sn_generation_id := g; sn_node_name := name;
       sn_node_runtime_fingerprint := f; sn_output_names := os; sn_dataframe_output_names := ds;
       sn_non_dataframe_outputs := nd; sn_metadata := md; sn_created_at := c; sn_execution_order := o |})
    ltac:(by intros []).

#[local] Instance ser_active : Ser ActiveDataFrameGeneration :=
  ser_via (B := Z * string * Z * option DataFrameExecutionOrder) (λ a, (ac_format_version a, ac_generation_id a, ac_activated_at a, ac_execution_order a))
    (λ '(v, g, t, o), Some {| ac_format_version := v; ac_generation_id := g; ac_activated_at := t;
                              ac_execution_order := o |}) ltac:(by intros []).

Definition ser_object (o : CacheObject) : string :=
  match o with
  | OManifest m => quote "manifest" (ser m "")
  | OSnapshot s => quote "snapshot" (ser s "")
  | OActive a => quote "active" (ser a "")
  | OFrame f => quote "frame" (ser (f : list string) "")
  | OList l => quote "list" (ser (l : list string) "")
  | OValue v => quote "value" (ser (v : string) "")
  end.

Definition read_as {A} `{!Ser A} (f : A → CacheObject) (s : string) : option CacheObject :=
  match deser s with Some (a, _) => Some (f a) | None => None end.

Definition deser_object (s : string) : option CacheObject :=
  match unquote s with
  | Some (t, s) =>
      if String.eqb t "manifest" then read_as OManifest s
      else if String.eqb t "snapshot" then read_as OSnapshot s
      else if String.eqb t "active" then read_as OActive s
      else if String.eqb t "frame" then read_as (A := list string) OFrame s
      else if String.eqb t "list" then read_as (A := list string) OList s
      else read_as (A := string) OValue s
  | None => None
  end.

Lemma deser_ser_object o : deser_object (ser_object o) = Some o.
Proof.
  unfold deser_object. destruct o; unfold ser_object; rewrite unquote_quote; simpl String.eqb; cbv iota;
    unfold read_as; by rewrite deser_ser.
Qed.

#[local] Instance text_codec : CacheCodec CacheObject := {|
  dump o := Ok (ser_object o);
  load p := match deser_object p with Some o => Ok o | None => Raise (StoreError "load") end |}.

#[local] Instance text_codec_laws : CacheCodecLaws CacheObject.
Proof. constructor. intros o p [= <-]. simpl. by rewrite deser_ser_object. Defined.

(** ** The environment *)

#[local] Instance calm : CacheEnv InMemoryBlobStore := {|
  env_now _ := 0; env_now' _ := 0; env_time i := Z.of_nat i; env_uuid _ := "uuid";
  env_others _ st := st; env_fault _ := None |}.

Lemma calm_quiet : quiet (S:=InMemoryBlobStore).
Proof. constructor; done || (simpl; lia). Qed.

Definition empty_blob : InMemoryBlobStore := {| mb_default_ttl := 100; mb_records := ∅ |}.
Definition empty_index : InMemoryIndexStore := {| mi_default_ttl := 100; mi_separator := ":"; mi_records := ∅ |}.
Definition world0 : CWorld InMemoryBlobStore :=
  {| cw_stores := {| st_data := empty_blob; st_data_index := empty_index; st_meta := empty_blob; st_meta_index := empty_index |};
     cw_calls := 0 |}.

(** ** A node with one dataframe and one plain output *)

Definition gen : GenerationId := {| gid_project := "p"; gid_node := "n"; gid_generation := "g1" |}.
Definition order1 : DataFrameExecutionOrder := {| queued_at_us := 10; order_task_id := "t1" |}.

(** Its partitions are computed in the wrong order. *)
Definition out1 : Output := {| out_name := "df"; out_meta := []; out_known_divisions := true;
  out_divisions := Some ["a"; "c"; "d"]; out_parts := [(1, ["r3"]); (0, ["r1"; "r2"])] |}.

Definition write1 : C InMemoryBlobStore unit :=
  write_generation None 2 gen order1 "Node" "f1" ["df"; "x"] [out1] [("x", "7")] [("df", Some "meta")].

Definition world1 : CWorld InMemoryBlobStore := (write1 world0).2.

Definition restore1 : outcome cache_exn (option DataFrameRestorePlan) * CWorld InMemoryBlobStore :=
  get_restore_plan "p" "n" "Node" (Some "f1") ["df"; "x"] world1.

Lemma out1_wf : output_wf out1.
Proof.
  split_and!; [done|done| |].
  - simpl. change (py_range (npartitions out1)) with [0; 1]. apply perm_swap.
  - intros _. by exists ["a"; "c"; "d"].
Qed.

Lemma world0_lasting : lasting None world0.
Proof. exists 100. split; [done|]. simpl. lia. Qed.

Lemma written_generation_is_restored_witness :
  ∃ w1 plan w2, write1 world0 = (Ok tt, w1) ∧
    get_restore_plan "p" "n" "Node" (Some "f1") ["df"; "x"] w1 = (Ok (Some plan), w2) ∧
    dkeys (rp_manifests plan) = ["df"].
Proof.
  pose proof (written_generation_is_restored calm_quiet None (λ o, eq_refl) 0 gen order1 "Node" "f1" ["df"; "x"] [out1]
    [("x", "7")] [("df", Some "meta")] world0 (conj eq_refl (conj eq_refl eq_refl)) ltac:(by repeat constructor; apply out1_wf)
    ltac:(apply NoDup_singleton) world0_lasting ltac:(done) ltac:(by vm_compute)
    ltac:(intros o ->%list_elem_of_singleton; by exists "meta")) as (w1 & plan & w2 & E1 & E2 & _).
  exists w1, plan, w2. split; [exact E1|]. split; [exact E2|].
  pose proof (f_equal snd E1) as Ew. change (world1 = w1) in Ew. subst w1.
  assert (restore1 = (Ok (Some plan), w2)) as E by exact E2.
  assert (match restore1 with (Ok (Some plan), _) => dkeys (rp_manifests plan) = ["df"] | _ => False end) as Hk
    by (vm_compute; reflexivity).
  by rewrite E in Hk.
Defined.

Lemma restore_plan_is_complete_witness :
  match restore1 with
  | (Ok (Some plan), _) => dkeys (rp_manifests plan) = ["df"] ∧ snapshot_restorable "p" "n" "Node" (Some "f1") ["df"; "x"] (rp_snapshot plan) ∧
      ∀ name m, dget (rp_manifests plan) name = Some m → manifest_restorable (rp_snapshot plan) name m
  | _ => False
  end.
Proof.
  destruct restore1 as [[[plan|]|e] w2] eqn:E; [|by vm_compute in E..].
  pose proof (restore_plan_is_complete "p" "n" "Node" (Some "f1") ["df"; "x"] world1 plan w2 E) as Hp.
  destruct Hp as (H1 & _ & _ & H2 & _). split; [|exact (conj H1 H2)].
  vm_compute in E. injection E as <- _. reflexivity.
Defined.

(** ** Two executions activate at the same time *)

Definition candidate (generation : string) (order : DataFrameExecutionOrder) : act_proc := {|
  ap_gen := {| gid_project := "p"; gid_node := "n"; gid_generation := generation |};
  ap_order := order;
  ap_payload := ser_object (OActive {| ac_format_version := 3; ac_generation_id := generation;
                                       ac_activated_at := 0; ac_execution_order := Some order |}) |}.

Definition order2 : DataFrameExecutionOrder := {| queued_at_us := 20; order_task_id := "t2" |}.
Definition rivals : list act_proc := [candidate "g1" order1; candidate "g2" order2].

Lemma rivals_wf : Forall proc_wf rivals.
Proof. repeat constructor; eexists; split_and!; reflexivity. Qed.

(** Both read the empty cell; the newer one swaps first, the older one fails, reads again and gives way. *)
Lemma concurrent_activation_keeps_newest_witness :
  cell_order (act_cell (act_run rivals [0; 1; 1; 0; 0]%nat (act_start rivals None))) = Some order2.
Proof.
  destruct (concurrent_activation_keeps_newest rivals None [0; 1; 1; 0; 0]%nat rivals_wf eq_refl ltac:(done))
    as (_ & _ & _ & Hdone).
  destruct Hdone as (newest & E & _); [by_decide|]. rewrite E.
  vm_compute in E. symmetry. exact E.
Defined.

(** ** Pages *)

Definition active1 : ActiveDataFrameGeneration := {| ac_format_version := 3; ac_generation_id := "g1";
  ac_activated_at := 0; ac_execution_order := Some order1 |}.

Definition part (i : Z) (k : string) (n : Z) : DataFramePartitionDescriptor :=
  {| part_no := i; cache_key := k; rows := n; payload_bytes := 1 |}.

Definition manifest1 : DataFrameCacheManifest := {|
  mf_format_version := 3; mf_project_id := "p"; mf_node_id := "n"; mf_output_name := "df"; mf_generation_id := "g1";
  mf_node_runtime_fingerprint := "f1"; mf_schema_fingerprint := "df_schema:"; mf_meta := []; mf_npartitions := 2;
  mf_partitions := [part 0 "k0" 2; part 1 "k1" 1]; mf_rows_per_partition := [2; 1]; mf_known_divisions := false;
  mf_divisions := None; mf_created_at := 0; mf_state := READY |}.

Definition world2 : CWorld InMemoryBlobStore :=
  (cfor [(dataframe_active_key "p" "n", OActive active1); (dataframe_manifest_key "p" "n" "df" "g1", OManifest manifest1);
         ("k0", OFrame ["r1"; "r2"]); ("k1", OFrame ["r3"])]
     (λ ko, obj_put ko.1 ko.2 None) world0).2.

Definition read_object (w : CWorld InMemoryBlobStore) (key : string) : option CacheObject :=
  match mem_live 0 (st_data (cw_stores w)) !! key with Some p => deser_object p | None => None end.

Lemma read_object_holds w key o : read_object w key = Some o → holds w key o.
Proof.
  unfold read_object. intros E i _. unfold live_at; simpl.
  destruct (mem_live 0 (st_data (cw_stores w)) !! key) as [p|]; [|done]. exists p. split; [done|].
  unfold decode, load; simpl. by rewrite E.
Qed.

Ltac by_reading := apply read_object_holds; vm_compute; reflexivity.

Lemma world2_active : holds world2 (dataframe_active_key "p" "n") (OActive active1).
Proof. by_reading. Qed.
Lemma world2_manifest : holds world2 (dataframe_manifest_key "p" "n" "df" "g1") (OManifest manifest1).
Proof. by_reading. Qed.
Lemma world2_parts :
  Forall2 (λ d f, holds world2 (cache_key d) (OFrame f) ∧ rows d = Z.of_nat (length (frame_rows f)))
    (mf_partitions manifest1) [["r1"; "r2"]; ["r3"]].
Proof. constructor; [split; [by_reading|done]|]. constructor; [split; [by_reading|done]|]. constructor. Qed.

Lemma dataframe_page_is_slice_witness :
  ∃ r w', GetDataFrameEntry "p" "n" "df" 1 5 world2 = (Ok r, w') ∧ entry_dataframe r = ["r2"; "r3"].
Proof.
  destruct (dataframe_page_is_slice calm_quiet "p" "n" "df" 1 5 active1 manifest1 [["r1"; "r2"]; ["r3"]] world2
    world2_active eq_refl world2_manifest eq_refl eq_refl world2_parts) as (r & w' & E & Hr & _).
  exists r, w'. split; [exact E|exact Hr].
Defined.

(** ** Indices *)

#[local] Instance ser_entry : Ser DataIndexEntry :=
  ser_via (B := Z * string * string * option (list (string * string)) * Z * Z * Z)
    (λ e, match e with
          | DataEntry k o => (0, k, o, None, 0, 0, 0)
          | DDFMetaIndexEntry k o h => (1, k, o, h, 0, 0, 0)
          | PDFIndexEntry k o n t r => (2, k, o, None, n, t, r)
          end)
    (λ '(tag, k, o, h, n, t, r),
       Some (if tag =? 0 then DataEntry k o else if tag =? 1 then DDFMetaIndexEntry k o h else PDFIndexEntry k o n t r))
    ltac:(by intros []).

#[local] Instance entry_codec : IndexCodec DataIndexEntry.
Proof.
  refine {| serializer e := ser e "";
            deserializer s := match deser s with Some (e, _) => Ok e | None => Raise (StoreError "load") end |}.
  intros v. by rewrite deser_ser.
Defined.

Definition json_key (node : string) : IndexKey :=
  {| key_cls := JSONKey; key_values := [Some (KStr "p"); Some (KStr node); Some (KStr "out")] |}.

Definition node_key (node : string) : IndexKey :=
  {| key_cls := JSONKey; key_values := [Some (KStr "p"); Some (KStr node); None] |}.

(** The nodes [a] and [ab] have an entry each. *)
Definition index1 : InMemoryIndexStore := (MemoryIndex.put 0 (json_key "a") (DataEntry "ka" "out") None empty_index).2.
Definition index2 : InMemoryIndexStore := (MemoryIndex.put 0 (json_key "ab") (DataEntry "kab" "out") None index1).2.

Lemma index2_wf : index_wf (V := DataIndexEntry) index2.
Proof.
  assert (index_wf (V := DataIndexEntry) empty_index) as H0 by done.
  destruct (index_put_wf 0 (json_key "a") (DataEntry "ka" "out") None 100 "json_key:p:a:out" _ H0 eq_refl eq_refl eq_refl)
    as (s1 & E1 & H1 & _).
  assert (s1 = index1) as -> by (unfold index1; by rewrite E1).
  destruct (index_put_wf 0 (json_key "ab") (DataEntry "kab" "out") None 100 "json_key:p:ab:out" _ H1 eq_refl eq_refl eq_refl)
    as (s2 & E2 & H2 & _).
  assert (s2 = index2) as -> by (unfold index2; by rewrite E2). done.
Qed.

(** Asking for node [a] does not see [ab]. *)
Lemma index_operations_are_exact_witness :
  (MemoryIndex.query (V := DataIndexEntry) 0 (node_key "a") index2).1 = Ok [DataEntry "ka" "out"].
Proof.
  destruct (index_operations_are_exact (V := DataIndexEntry) 0 (node_key "a") index2 index2_wf eq_refl)
    as (stored & vs & s1 & _ & _ & _ & _ & E & _). rewrite E.
  pose proof (f_equal fst E) as E1. vm_compute in E1. symmetry. exact E1.
Defined.

Definition world3 : CWorld InMemoryBlobStore :=
  {| cw_stores := {| st_data := (MemoryBlob.put 0 "ka" "x" None empty_blob).2; st_data_index := index2;
                     st_meta := empty_blob; st_meta_index := empty_index |};
     cw_calls := 0 |}.

Lemma clear_data_cache_is_exact_witness :
  ∃ r w', ClearDataCache "p" (Some ["a"]) world3 = (Ok r, w') ∧ live_at w' (cw_calls w') !! "ka" = None.
Proof.
  destruct (clear_data_cache_is_exact calm_quiet "p" (Some ["a"]) world3 index2_wf ltac:(by repeat constructor))
    as (r & w' & E & Hlive & _ & _ & Hentry & _).
  exists r, w'. split; [exact E|].
  apply (Hentry (cw_calls w') "json_key:p:a:out" (DataEntry "ka" "out")); [done| |vm_compute; reflexivity].
  exists (node_key "a"). split; [right; left|]. by_decide.
Defined.

Lemma blob_store_refines_reference_witness :
  (run_calls blob_step [(0, 0, OpPut "k" "v" (Some 5)); (7, 7, OpGet "k")] empty_blob).1 =
  [Ok RUnit; Ok (RPayloads [None])].
Proof.
  rewrite (blob_store_refines_reference 0 [(0, 0, OpPut "k" "v" (Some 5)); (7, 7, OpGet "k")] empty_blob
    {| ref_ttl := 100; ref_entries := ∅ |}).
  - vm_compute. reflexivity.
  - simpl. lia.
  - split; [done|]. intros t _. simpl. apply map_eq. intros k. by rewrite mem_live_lookup.
Defined.

(** ** The writer *)

Lemma writer_pressure_is_bounded_witness :
  let x := wrun default_policy [ESubmit 0 (Ok "abc"); EAcquire; ELaunch (Ok 1%nat); ESubmit 1 (Ok "de"); EAcquire;
                                EDone 1%nat (Ok (part 0 "k0" 2))] in
  in_flight x = 1 ∧ in_flight x ≤ 32.
Proof.
  split; [reflexivity|].
  exact (proj1 (writer_pressure_is_bounded default_policy eq_refl
    [ESubmit 0 (Ok "abc"); EAcquire; ELaunch (Ok 1%nat); ESubmit 1 (Ok "de"); EAcquire; EDone 1%nat (Ok (part 0 "k0" 2))])).
Defined.

Definition begun1 : CWorld InMemoryBlobStore := (begin_output None gen "f1" out1 world0).2.
Definition writer1 : Writer := wrun default_policy
  [ESubmit 1 (Ok "b"); EAcquire; ELaunch (Ok 1%nat); EDone 1%nat (Ok (part 1 "k1" 1));
   ESubmit 0 (Ok "a"); EAcquire; ELaunch (Ok 2%nat); EDone 2%nat (Ok (part 0 "k0" 2))].

Definition finish1 : outcome cache_exn (bool * Writer) * CWorld InMemoryBlobStore :=
  finish default_policy None gen "df" 2 2 writer1 begun1.

Lemma writer_commits_only_complete_witness :
  match finish1 with (Ok (true, x'), _) => wr_committed x' = true | _ => False end.
Proof.
  pose proof (writer_commits_only_complete default_policy None gen "df" 2 2 writer1 begun1 finish1.1 finish1.2 eq_refl
    (surjective_pairing finish1)) as Hf.
  destruct finish1 as [[[[] x']|e] w'] eqn:E; [|by vm_compute in E..]. by destruct Hf as [? _].
Defined.
End CacheRuns.
