(* ===== verification/SchedTypes.v ===== *)
(** * Project scheduler: rows and queries

    Models the tables behind the project scheduler
    ([src/modules/project/infra/db_models/project_schedule.py], [project_schedule_run.py]), the
    retry policy ([src/schemas/internal/project_scheduler.py]) and the queries of
    [src/crud/project_schedule/] and [src/crud/project_schedule_run.py] over them. The task table is
    the one of [TaskStore]; projects and users are the columns the scheduler reads.

    Instants are microseconds since the epoch, so [_as_utc] is the identity. *)
From S2P Require Import Prelude TaskTypes TaskStore.

(** ** Enumerations *)

Module ProjectScheduleRunStatus.
Inductive run_status :=
  | PENDING | STARTING | RUNNING | WAITING_RETRY | SUCCESS | ERROR | CANCELLED.

#[global] Instance run_status_eq_dec : EqDecision run_status.
Proof. solve_decision. Defined.
End ProjectScheduleRunStatus.
Module RS := ProjectScheduleRunStatus.

Inductive RetryBackoff := FIXED | EXPONENTIAL.

#[global] Instance RetryBackoff_eq_dec : EqDecision RetryBackoff.
Proof. solve_decision. Defined.

(** ** Rows *)

Record ProjectScheduleRecord := mkSchedule {
  ps_id : string;
  ps_project_id : string;
  ps_scheduled_by_user_id : option string;
  ps_cron : string;
  ps_disabled : bool;
  ps_mode : PipelineExecutionMode;
  ps_force_exec : bool;
  ps_max_retries : Z;
  ps_retry_delay_seconds : Z;
  ps_retry_backoff : RetryBackoff;
  ps_retry_max_delay_seconds : Z;
  ps_created_at : Z;
  ps_updated_at : Z;
}.

Record ProjectScheduleRunRecord := mkRun {
  sr_id : string;
  sr_schedule_id : string;
  sr_status : RS.run_status;
  sr_scheduled_at : Z;
  sr_attempt_number : Z;
  sr_attempt_started_at : option Z;
  sr_current_task_id : option string;
  sr_next_retry_at : option Z;
  sr_last_error : option string;
  sr_finished_at : option Z;
  sr_max_retries : Z;
  sr_retry_delay_seconds : Z;
  sr_retry_backoff : RetryBackoff;
  sr_retry_max_delay_seconds : Z;
  sr_mode : PipelineExecutionMode;
  sr_force_exec : bool;
  sr_scheduled_by_user_id : option string;
  sr_created_at : Z;
  sr_updated_at : Z;
}.

(** The columns of [projects] and [users] that the scheduler reads. *)
Record ProjectRow := mkProject {
  pj_id : string;
  pj_organization_id : string;
}.

Record UserRow := mkUser {
  us_id : string;
  us_role : string;
  us_is_active : bool;
  us_is_verified : bool;
  us_signed_up_at : Z;
}.

Record SchedDB := mkSchedDB {
  schedules : gmap string ProjectScheduleRecord;
  schedule_runs : gmap string ProjectScheduleRunRecord;
  projects : gmap string ProjectRow;
  users : gmap string UserRow;
  task_db : TaskDB;
  issued_run_ids : gset string;   (* every run id ever generated: [uuid4] does not repeat *)
}.

Definition set_schedules (x : gmap string ProjectScheduleRecord) (db : SchedDB) : SchedDB :=
  mkSchedDB x (schedule_runs db) (projects db) (users db) (task_db db) (issued_run_ids db).
Definition set_runs (x : gmap string ProjectScheduleRunRecord) (db : SchedDB) : SchedDB :=
  mkSchedDB (schedules db) x (projects db) (users db) (task_db db) (issued_run_ids db).
Definition set_task_db (x : TaskDB) (db : SchedDB) : SchedDB :=
  mkSchedDB (schedules db) (schedule_runs db) (projects db) (users db) x (issued_run_ids db).

(** ** Column assignments of a run *)

Definition set_run_status (x : RS.run_status) (r : ProjectScheduleRunRecord) : ProjectScheduleRunRecord :=
  let '(mkRun a b _ d e f g h i j k l m n o p q s t) := r in
  mkRun a b x d e f g h i j k l m n o p q s t.
Definition set_attempt_number (x : Z) (r : ProjectScheduleRunRecord) : ProjectScheduleRunRecord :=
  let '(mkRun a b c d _ f g h i j k l m n o p q s t) := r in
  mkRun a b c d x f g h i j k l m n o p q s t.
Definition set_attempt_started_at (x : option Z) (r : ProjectScheduleRunRecord) : ProjectScheduleRunRecord :=
  let '(mkRun a b c d e _ g h i j k l m n o p q s t) := r in
  mkRun a b c d e x g h i j k l m n o p q s t.
Definition set_current_task_id (x : option string) (r : ProjectScheduleRunRecord) : ProjectScheduleRunRecord :=
  let '(mkRun a b c d e f _ h i j k l m n o p q s t) := r in
  mkRun a b c d e f x h i j k l m n o p q s t.
Definition set_next_retry_at (x : option Z) (r : ProjectScheduleRunRecord) : ProjectScheduleRunRecord :=
  let '(mkRun a b c d e f g _ i j k l m n o p q s t) := r in
  mkRun a b c d e f g x i j k l m n o p q s t.
Definition set_last_error (x : option string) (r : ProjectScheduleRunRecord) : ProjectScheduleRunRecord :=
  let '(mkRun a b c d e f g h _ j k l m n o p q s t) := r in
  mkRun a b c d e f g h x j k l m n o p q s t.
Definition set_run_finished_at (x : option Z) (r : ProjectScheduleRunRecord) : ProjectScheduleRunRecord :=
  let '(mkRun a b c d e f g h i _ k l m n o p q s t) := r in
  mkRun a b c d e f g h i x k l m n o p q s t.
Definition set_run_updated_at (x : Z) (r : ProjectScheduleRunRecord) : ProjectScheduleRunRecord :=
  let '(mkRun a b c d e f g h i j k l m n o p q s _) := r in
  mkRun a b c d e f g h i j k l m n o p q s x.

(** ** Table constraints *)

Definition between (lo hi x : Z) : bool := (lo <=? x)%Z && (x <=? hi)%Z.

(** [check_project_schedules_*] *)
Definition schedule_checks (s : ProjectScheduleRecord) : bool :=
  between 0 10 (ps_max_retries s) && between 1 86400 (ps_retry_delay_seconds s)
  && between 1 86400 (ps_retry_max_delay_seconds s).

(** [check_project_schedule_runs_*] *)
Definition run_checks (r : ProjectScheduleRunRecord) : bool :=
  (0 <=? sr_attempt_number r)%Z && between 0 10 (sr_max_retries r)
  && between 1 86400 (sr_retry_delay_seconds r) && between 1 86400 (sr_retry_max_delay_seconds r).

Definition unfinished (r : ProjectScheduleRunRecord) : bool := bool_decide (sr_finished_at r = None).

(** The rows of the partial unique index [uq_project_schedule_runs_active_schedule]. *)
Definition active_runs (schedule_id : string) (db : SchedDB) : list ProjectScheduleRunRecord :=
  filter (λ r, bool_decide (sr_schedule_id r = schedule_id) && unfinished r = true)
    (map_to_list (schedule_runs db)).*2.

(** What PostgreSQL checks when a run is inserted: the foreign key and the unique index. *)
Definition insert_run_allowed (db : SchedDB) (r : ProjectScheduleRunRecord) : bool :=
  bool_decide (is_Some (schedules db !! sr_schedule_id r)) && run_checks r
  && bool_decide (active_runs (sr_schedule_id r) db = []).

(** What it checks when a schedule is inserted or updated; [project_id] is unique. *)
Definition user_fk (db : SchedDB) (u : option string) : bool :=
  match u with Some u => bool_decide (is_Some (users db !! u)) | None => true end.

Definition project_free (db : SchedDB) (project_id : string) : bool :=
  forallb (λ kv, negb (bool_decide (ps_project_id kv.2 = project_id))) (map_to_list (schedules db)).

Definition insert_schedule_allowed (db : SchedDB) (s : ProjectScheduleRecord) : bool :=
  bool_decide (is_Some (projects db !! ps_project_id s)) && user_fk db (ps_scheduled_by_user_id s)
  && schedule_checks s && project_free db (ps_project_id s).

Definition put_run (r : ProjectScheduleRunRecord) (db : SchedDB) : SchedDB :=
  set_runs (<[sr_id r := r]> (schedule_runs db)) db.

Definition put_schedule (s : ProjectScheduleRecord) (db : SchedDB) : SchedDB :=
  set_schedules (<[ps_id s := s]> (schedules db)) db.

(** The foreign key of a task on its run; the other foreign keys are the argument. *)
Definition task_fk (fk : TaskRecord → bool) (db : SchedDB) (t : TaskRecord) : bool :=
  fk t && match tr_schedule_run_id t with
          | Some id => bool_decide (is_Some (schedule_runs db !! id))
          | None => true
          end.

(** ** [schemas/internal/project_scheduler.py] *)

Definition retry_policy_message : string :=
  "retry_max_delay_seconds must be greater than or equal to retry_delay_seconds for exponential backoff".

(** [None] is success, [Some m] the [ValueError]. *)
Definition validate_retry_policy (backoff : RetryBackoff) (delay max_delay : Z) : option string :=
  if bool_decide (backoff = EXPONENTIAL) && (max_delay <? delay)%Z
  then Some retry_policy_message else None.

Record ProjectSchedulePatchRequest := mkPatch {
  pp_cron : option string;
  pp_scheduled_by_user_id : option string;
  pp_mode : option PipelineExecutionMode;
  pp_force_exec : option bool;
  pp_disabled : option bool;
  pp_max_retries : option Z;
  pp_retry_delay_seconds : option Z;
  pp_retry_backoff : option RetryBackoff;
  pp_retry_max_delay_seconds : option Z;
}.

Record ProjectScheduleRunChainResponse := mkChain {
  rc_run_id : string;
  rc_state : RS.run_status;
  rc_attempt_number : Z;
  rc_max_attempts : Z;
  rc_current_task_id : option string;
  rc_next_retry_at : option Z;
  rc_last_error : option string;
  rc_started_at : Z;
  rc_finished_at : option Z;
}.

Record ProjectScheduleResponse := mkResponse {
  resp_project_id : string;
  resp_cron : string;
  resp_disabled : bool;
  resp_scheduled_by_user_id : option string;
  resp_mode : PipelineExecutionMode;
  resp_force_exec : bool;
  resp_max_retries : Z;
  resp_retry_delay_seconds : Z;
  resp_retry_backoff : RetryBackoff;
  resp_retry_max_delay_seconds : Z;
  resp_next_run_time : option Z;
  resp_task_id : option string;
  resp_latest_run_chain : option ProjectScheduleRunChainResponse;
}.

(** ** [crud/project_schedule] *)

Section Queries.
Context {coll : Collation}.

(** [ORDER BY created_at ASC, id ASC] *)
Definition schedule_order (a b : ProjectScheduleRecord) : Prop :=
  lex_le Z.le coll_le (ps_created_at a, ps_id a) (ps_created_at b, ps_id b).

#[global] Instance schedule_order_dec : RelDecision schedule_order.
Proof. intros a b; unfold schedule_order; apply _. Defined.

Definition opt_filter {A} `{EqDecision A} (want : option A) (x : A) : bool :=
  match want with None => true | Some y => bool_decide (x = y) end.

(** The [WHERE] clause with the join on [projects]. *)
Definition schedule_matches (db : SchedDB) (schedule_id project_id organization_id : option string)
    (disabled : option bool) (s : ProjectScheduleRecord) : bool :=
  match projects db !! ps_project_id s with
  | None => false
  | Some p =>
      opt_filter schedule_id (ps_id s) && opt_filter project_id (ps_project_id s)
      && opt_filter organization_id (pj_organization_id p) && opt_filter disabled (ps_disabled s)
  end.

Definition get_project_schedules_by (schedule_id project_id organization_id : option string)
    (disabled : option bool) (db : SchedDB) : list ProjectScheduleRecord :=
  merge_sort schedule_order
    (filter (λ s, schedule_matches db schedule_id project_id organization_id disabled s = true)
       (map_to_list (schedules db)).*2).

(** [update_project_schedule]: the attributes of the loaded object. *)
Definition or_keep {A} (x : option A) (y : A) : A := default y x.

Record schedule_values := mkValues {
  v_cron : option string;
  v_disabled : option bool;
  v_scheduled_by_user_id : option string;
  v_mode : option PipelineExecutionMode;
  v_force_exec : option bool;
  v_max_retries : option Z;
  v_retry_delay_seconds : option Z;
  v_retry_backoff : option RetryBackoff;
  v_retry_max_delay_seconds : option Z;
}.

Definition update_project_schedule (v : schedule_values) (now : Z) (s : ProjectScheduleRecord)
    : ProjectScheduleRecord := {|
  ps_id := ps_id s;
  ps_project_id := ps_project_id s;
  ps_scheduled_by_user_id :=
    match v_scheduled_by_user_id v with Some u => Some u | None => ps_scheduled_by_user_id s end;
  ps_cron := or_keep (v_cron v) (ps_cron s);
  ps_disabled := or_keep (v_disabled v) (ps_disabled s);
  ps_mode := or_keep (v_mode v) (ps_mode s);
  ps_force_exec := or_keep (v_force_exec v) (ps_force_exec s);
  ps_max_retries := or_keep (v_max_retries v) (ps_max_retries s);
  ps_retry_delay_seconds := or_keep (v_retry_delay_seconds v) (ps_retry_delay_seconds s);
  ps_retry_backoff := or_keep (v_retry_backoff v) (ps_retry_backoff s);
  ps_retry_max_delay_seconds := or_keep (v_retry_max_delay_seconds v) (ps_retry_max_delay_seconds s);
  ps_created_at := ps_created_at s;
  ps_updated_at := now;
|}.

(** The [UPDATE] of a flush writes the attributes that differ from the loaded object and leaves the
    other columns of the stored row alone. *)
Definition changed {A} `{EqDecision A} (loaded new stored : A) : A :=
  if bool_decide (new = loaded) then stored else new.

Definition flush_schedule (loaded new stored : ProjectScheduleRecord) : ProjectScheduleRecord := {|
  ps_id := ps_id stored;
  ps_project_id := ps_project_id stored;
  ps_scheduled_by_user_id :=
    changed (ps_scheduled_by_user_id loaded) (ps_scheduled_by_user_id new) (ps_scheduled_by_user_id stored);
  ps_cron := changed (ps_cron loaded) (ps_cron new) (ps_cron stored);
  ps_disabled := changed (ps_disabled loaded) (ps_disabled new) (ps_disabled stored);
  ps_mode := changed (ps_mode loaded) (ps_mode new) (ps_mode stored);
  ps_force_exec := changed (ps_force_exec loaded) (ps_force_exec new) (ps_force_exec stored);
  ps_max_retries := changed (ps_max_retries loaded) (ps_max_retries new) (ps_max_retries stored);
  ps_retry_delay_seconds :=
    changed (ps_retry_delay_seconds loaded) (ps_retry_delay_seconds new) (ps_retry_delay_seconds stored);
  ps_retry_backoff := changed (ps_retry_backoff loaded) (ps_retry_backoff new) (ps_retry_backoff stored);
  ps_retry_max_delay_seconds :=
    changed (ps_retry_max_delay_seconds loaded) (ps_retry_max_delay_seconds new)
      (ps_retry_max_delay_seconds stored);
  ps_created_at := ps_created_at stored;
  ps_updated_at := ps_updated_at new;
|}.

(** [DELETE FROM project_schedules] with [ON DELETE CASCADE] on the runs and [ON DELETE SET NULL] on
    the tasks of those runs. *)
Definition delete_project_schedule_rows (schedule_id : string) (db : SchedDB) : SchedDB :=
  let gone := filter (λ kr : string * ProjectScheduleRunRecord, sr_schedule_id kr.2 = schedule_id)
                (schedule_runs db) in
  mkSchedDB (delete schedule_id (schedules db))
    (schedule_runs db ∖ gone) (projects db) (users db)
    (unlink_runs (λ id, bool_decide (is_Some (gone !! id))) (task_db db))
    (issued_run_ids db).

(** The rows of these tables that go with their projects ([crud/project/delete.py]). *)
Definition delete_projects_permanently (project_ids : list string) (db : SchedDB) : SchedDB :=
  match filter (λ p, str_truthy p = true) project_ids with
  | [] => db
  | ids =>
      let db1 := set_task_db (delete_tasks (λ t, bool_decide (tr_project_id t ∈ ids)) (task_db db)) db in
      let db2 := foldr delete_project_schedule_rows db1
                   (filter (λ ks : string * ProjectScheduleRecord, ps_project_id ks.2 ∈ ids) (map_to_list (schedules db))).*1 in
      mkSchedDB (schedules db2) (schedule_runs db2)
        (filter (λ kp : string * ProjectRow, kp.1 ∉ ids) (projects db2)) (users db2) (task_db db2) (issued_run_ids db2)
  end.

(** ** [crud/project_schedule_run.py] *)

Definition ACTIVE_RUN_STATUSES : list RS.run_status :=
  [RS.PENDING; RS.STARTING; RS.RUNNING; RS.WAITING_RETRY].

(** The row of [create_project_schedule_run]; the column defaults are those of the model class. *)
Definition new_run (id : string) (schedule : ProjectScheduleRecord) (scheduled_at created_at : Z)
    : ProjectScheduleRunRecord := {|
  sr_id := id;
  sr_schedule_id := ps_id schedule;
  sr_status := RS.PENDING;
  sr_scheduled_at := scheduled_at;
  sr_attempt_number := 0;
  sr_attempt_started_at := None;
  sr_current_task_id := None;
  sr_next_retry_at := None;
  sr_last_error := None;
  sr_finished_at := None;
  sr_max_retries := ps_max_retries schedule;
  sr_retry_delay_seconds := ps_retry_delay_seconds schedule;
  sr_retry_backoff := ps_retry_backoff schedule;
  sr_retry_max_delay_seconds := ps_retry_max_delay_seconds schedule;
  sr_mode := ps_mode schedule;
  sr_force_exec := ps_force_exec schedule;
  sr_scheduled_by_user_id := ps_scheduled_by_user_id schedule;
  sr_created_at := created_at;
  sr_updated_at := created_at;
|}.

(** [ORDER BY created_at DESC LIMIT 1] *)
Definition newest_first (a b : ProjectScheduleRunRecord) : Prop := (sr_created_at b ≤ sr_created_at a)%Z.

#[global] Instance newest_first_dec : RelDecision newest_first.
Proof. intros a b; unfold newest_first; apply _. Defined.

Definition get_active_run (schedule_id : string) (db : SchedDB) : option ProjectScheduleRunRecord :=
  head (merge_sort newest_first (active_runs schedule_id db)).

Definition get_run_by_id (run_id : string) (db : SchedDB) : option ProjectScheduleRunRecord :=
  schedule_runs db !! run_id.

(** The window [row_number() OVER (PARTITION BY schedule_id ORDER BY created_at DESC, id DESC)]. *)
Definition run_rank_order (a b : ProjectScheduleRunRecord) : Prop :=
  lex_le Z.le coll_le (sr_created_at b, sr_id b) (sr_created_at a, sr_id a).

#[global] Instance run_rank_order_dec : RelDecision run_rank_order.
Proof. intros a b; unfold run_rank_order; apply _. Defined.

Definition latest_run (schedule_id : string) (db : SchedDB) : option ProjectScheduleRunRecord :=
  head (merge_sort run_rank_order
          (filter (λ r, sr_schedule_id r = schedule_id) (map_to_list (schedule_runs db)).*2)).

Definition get_latest_runs_by_schedule_ids (schedule_ids : list string) (db : SchedDB)
    : pydict ProjectScheduleRunRecord :=
  omap (λ id, r ← latest_run id db; Some (id, r)) (remove_dups schedule_ids).

Definition due (now : Z) (r : ProjectScheduleRunRecord) : bool :=
  match sr_next_retry_at r with Some t => (t <=? now)%Z | None => false end.

Definition reconcilable (now : Z) (r : ProjectScheduleRunRecord) : bool :=
  unfinished r && bool_decide (sr_status r ∈ ACTIVE_RUN_STATUSES)
  && (bool_decide (sr_status r ∈ [RS.PENDING; RS.STARTING; RS.RUNNING])
      || bool_decide (sr_status r = RS.WAITING_RETRY) && due now r).

(** [ORDER BY updated_at ASC] *)
Definition stalest_first (a b : ProjectScheduleRunRecord) : Prop := (sr_updated_at a ≤ sr_updated_at b)%Z.

#[global] Instance stalest_first_dec : RelDecision stalest_first.
Proof. intros a b; unfold stalest_first; apply _. Defined.

Definition get_reconcilable_runs (now : Z) (limit : nat) (db : SchedDB) : list ProjectScheduleRunRecord :=
  take limit (merge_sort stalest_first
    (filter (λ r, reconcilable now r = true) (map_to_list (schedule_runs db)).*2)).

Definition get_attempt_task (run_id : string) (attempt_number : Z) (db : SchedDB) : option TaskRecord :=
  head (filter (λ t, tr_schedule_run_id t = Some run_id ∧ tr_schedule_attempt t = Some attempt_number)
          (map_to_list (tasks (task_db db))).*2).

Definition touch (now : Z) (run : ProjectScheduleRunRecord) : ProjectScheduleRunRecord :=
  set_run_updated_at now run.

Definition finish_run (status : RS.run_status) (now : Z) (error : option string)
    (run : ProjectScheduleRunRecord) : ProjectScheduleRunRecord :=
  set_run_updated_at now (set_last_error error (set_next_retry_at None
    (set_run_finished_at (Some now) (set_run_status status run)))).

(** ** Users ([crud/admin/user/read.py]) *)

Definition get_active_user (user_id : string) (db : SchedDB) : option UserRow :=
  u ← users db !! user_id;
  if us_is_active u && us_is_verified u then Some u else None.

Definition role_rank (u : UserRow) : Z := if bool_decide (us_role u = "superadmin") then 0%Z else 1%Z.

Definition service_user_order (a b : UserRow) : Prop :=
  lex_le Z.le (lex_le Z.le coll_le)
    (role_rank a, (us_signed_up_at a, us_id a)) (role_rank b, (us_signed_up_at b, us_id b)).

#[global] Instance service_user_order_dec : RelDecision service_user_order.
Proof. intros a b; unfold service_user_order; apply _. Defined.

(** [None] is [UserNotFoundException]. *)
Definition get_default_service_user (db : SchedDB) : option UserRow :=
  head (merge_sort service_user_order
    (filter (λ u, (us_role u ∈ ["superadmin"; "admin"]) ∧ us_is_active u = true ∧ us_is_verified u = true)
       (map_to_list (users db)).*2)).

End Queries.
