(* ===== verification/SchedProtocol.v ===== *)
(** * Project scheduler: the retry policy and the protocol of run chains

    The pure methods of [ProjectSchedulerManager] ([src/managers/project_scheduler.py]) that decide
    what happens to a run chain, and the abstract protocol they implement: [run_trans] is the
    automaton of one run, [sched_step] one committed transaction of any process that shares the
    database. The theorems of this file hold for every sequence of such transactions. *)
From S2P Require Import Prelude TaskTypes TaskStore TaskLifecycle SchedTypes.

(** ** Retry policy *)

Definition START_LEASE_SECONDS : Z := 60.
Definition RECONCILE_BATCH_SIZE : nat := 100.

(** [timedelta(seconds=s)] *)
Definition seconds (s : Z) : Z := (s * 1000000)%Z.

Definition calculate_retry_delay_seconds (run : ProjectScheduleRunRecord) (failed_attempt_number : Z) : Z :=
  if bool_decide (sr_retry_backoff run = FIXED) then sr_retry_delay_seconds run
  else
    let exponential_delay := (sr_retry_delay_seconds run * 2 ^ Z.max 0 (failed_attempt_number - 1))%Z in
    Z.min exponential_delay (sr_retry_max_delay_seconds run).

Definition record_attempt_failure (now : Z) (error : string) (run : ProjectScheduleRunRecord)
    : ProjectScheduleRunRecord :=
  let run := set_last_error (Some error) run in
  if (sr_attempt_number run <=? sr_max_retries run)%Z then
    let delay_seconds := calculate_retry_delay_seconds run (sr_attempt_number run) in
    set_run_updated_at now (set_next_retry_at (Some (now + seconds delay_seconds)%Z)
      (set_run_status RS.WAITING_RETRY run))
  else finish_run RS.ERROR now (Some error) run.

(** Python's [a or b] where the result may be [None]. *)
Definition or_opt (a b : option string) : option string :=
  match a with Some s => if str_truthy s then a else b | None => b end.

(** [_apply_task_result]: the new run and whether the result was terminal. *)
Definition apply_task_result (task : TaskRecord) (now : Z) (run : ProjectScheduleRunRecord)
    : ProjectScheduleRunRecord * bool :=
  match tr_status task with
  | SUCCESS => (finish_run RS.SUCCESS now None run, true)
  | ERROR =>
      (record_attempt_failure now
         (or_str (tr_message task) (or_str (tr_termination_reason task) "Task execution failed")) run,
       true)
  | CANCELLED =>
      (finish_run RS.CANCELLED now (or_opt (tr_termination_reason task) (tr_message task)) run, true)
  | _ => (run, false)
  end.

(** The columns [_reconcile_run] writes when it begins an attempt. *)
Definition begin_attempt (now touched : Z) (run : ProjectScheduleRunRecord) : ProjectScheduleRunRecord :=
  touch touched (set_next_retry_at None (set_current_task_id None
    (set_attempt_started_at (Some now) (set_run_status RS.STARTING
      (set_attempt_number (sr_attempt_number run + 1) run))))).

Definition mark_attempt_running (task_id : string) (touched : Z) (run : ProjectScheduleRunRecord)
    : ProjectScheduleRunRecord :=
  touch touched (set_run_status RS.RUNNING (set_current_task_id (Some task_id) run)).

(** Whether [_reconcile_run] begins an attempt. *)
Definition attempt_due (now : Z) (run : ProjectScheduleRunRecord) : bool :=
  bool_decide (sr_status run = RS.PENDING)
  || bool_decide (sr_status run = RS.WAITING_RETRY) && due now run.

(** [(now - lease_started_at).total_seconds() >= START_LEASE_SECONDS] *)
Definition lease_expired (now : Z) (run : ProjectScheduleRunRecord) : bool :=
  let lease_started_at := default (sr_updated_at run) (sr_attempt_started_at run) in
  (seconds START_LEASE_SECONDS <=? now - lease_started_at)%Z.

(** ** The automaton of one run *)

Inductive run_trans (now : Z) (r : ProjectScheduleRunRecord) : ProjectScheduleRunRecord → Prop :=
  | rt_begin u :
      sr_finished_at r = None → attempt_due now r = true → run_trans now r (begin_attempt now u r)
  | rt_running tid u :
      sr_finished_at r = None → (1 ≤ sr_attempt_number r)%Z →
      run_trans now r (mark_attempt_running tid u r)
  | rt_failed tid error :
      sr_finished_at r = None → (1 ≤ sr_attempt_number r)%Z →
      run_trans now r (record_attempt_failure now error (set_current_task_id tid r))
  | rt_succeeded tid :
      sr_finished_at r = None → (1 ≤ sr_attempt_number r)%Z →
      run_trans now r (finish_run RS.SUCCESS now None (set_current_task_id tid r))
  | rt_cancelled tid error :
      sr_finished_at r = None →
      run_trans now r (finish_run RS.CANCELLED now error (set_current_task_id tid r)).

(** The same steps without an assignment of the task id. *)
Lemma set_current_task_id_same r : set_current_task_id (sr_current_task_id r) r = r.
Proof. by destruct r. Qed.

Lemma rt_failed_same now r error :
  sr_finished_at r = None → (1 ≤ sr_attempt_number r)%Z → run_trans now r (record_attempt_failure now error r).
Proof. intros. rewrite <-(set_current_task_id_same r) at 2. by apply rt_failed. Qed.

Lemma rt_cancelled_same now r error :
  sr_finished_at r = None → run_trans now r (finish_run RS.CANCELLED now error r).
Proof. intros. rewrite <-(set_current_task_id_same r) at 2. by apply rt_cancelled. Qed.

(** ** Transactions *)

(** A row of the task table created for a run belongs to an attempt the run has begun. *)
Definition attempt_begun (db : SchedDB) (t : TaskRecord) : Prop :=
  ∀ rid, tr_schedule_run_id t = Some rid →
    ∃ run k, schedule_runs db !! rid = Some run ∧ tr_schedule_attempt t = Some k ∧
             (1 ≤ k ≤ sr_attempt_number run)%Z.

Section Protocol.
Context {coll : Collation} (fk : TaskRecord → bool).

(** One committed transaction at time [now]. Projects and users are deleted by sequences of these steps:
    [ss_delete_tasks], [ss_delete_schedule], [ss_update_schedule] and [ss_projects]. The time stamp
    [updated_at] of a run may be set by the column's [onupdate] instead. *)
Inductive sched_step (now : Z) (db : SchedDB) : SchedDB → Prop :=
  | ss_tasks t' :
      task_step (task_fk fk db) (task_db db) t' →
      (∀ id r, tasks t' !! id = Some r → tasks (task_db db) !! id = None → attempt_begun db r) →
      sched_step now db (set_task_db t' db)
  | ss_create_run id s created :
      id ∉ issued_run_ids db →
      insert_run_allowed db (new_run id s now created) = true →
      sched_step now db
        (mkSchedDB (schedules db) (<[id := new_run id s now created]> (schedule_runs db))
           (projects db) (users db) (task_db db) ({[id]} ∪ issued_run_ids db))
  | ss_run r r' u :
      schedule_runs db !! sr_id r = Some r → run_trans now r r' →
      sched_step now db (put_run (set_run_updated_at u r') db)
  | ss_insert_schedule s :
      schedules db !! ps_id s = None → insert_schedule_allowed db s = true →
      sched_step now db (put_schedule s db)
  | ss_update_schedule s s' :
      schedules db !! ps_id s = Some s → ps_id s' = ps_id s → ps_project_id s' = ps_project_id s →
      schedule_checks s' = true → sched_step now db (put_schedule s' db)
  | ss_disable s s' r r' u :
      schedules db !! ps_id s = Some s → ps_id s' = ps_id s → ps_project_id s' = ps_project_id s →
      schedule_checks s' = true →
      schedule_runs db !! sr_id r = Some r → run_trans now r r' →
      sched_step now db (put_run (set_run_updated_at u r') (put_schedule s' db))
  | ss_delete_schedule sid :
      sched_step now db (delete_project_schedule_rows sid db)
  | ss_projects ps us :
      (∀ sid s, schedules db !! sid = Some s → is_Some (ps !! ps_project_id s)) →
      sched_step now db
        (mkSchedDB (schedules db) (schedule_runs db) ps us (task_db db) (issued_run_ids db))
  | ss_delete_tasks gone :
      sched_step now db (set_task_db (delete_tasks gone (task_db db)) db).

Definition sched_steps : relation SchedDB := rtc (λ db db', ∃ now, sched_step now db db').

Definition initial_sched : SchedDB := mkSchedDB ∅ ∅ ∅ ∅ initial_db ∅.

(** ** Invariants *)

Record run_ok (r : ProjectScheduleRunRecord) : Prop := {
  ro_max : (0 ≤ sr_max_retries r ≤ 10)%Z;
  ro_delay : (1 ≤ sr_retry_delay_seconds r ≤ 86400)%Z;
  ro_max_delay : (1 ≤ sr_retry_max_delay_seconds r ≤ 86400)%Z;
  ro_attempt : (0 ≤ sr_attempt_number r ≤ sr_max_retries r + 1)%Z;
  ro_finished : sr_finished_at r = None ↔ sr_status r ∈ ACTIVE_RUN_STATUSES;
  ro_pending : sr_status r = RS.PENDING → sr_attempt_number r = 0%Z;
  ro_begun : sr_status r ∈ [RS.STARTING; RS.RUNNING; RS.WAITING_RETRY; RS.SUCCESS; RS.ERROR] →
             (1 ≤ sr_attempt_number r)%Z;
  ro_waiting : sr_status r = RS.WAITING_RETRY →
               (sr_attempt_number r ≤ sr_max_retries r)%Z ∧ is_Some (sr_next_retry_at r);
  ro_exhausted : sr_status r = RS.ERROR → sr_attempt_number r = (sr_max_retries r + 1)%Z;
  ro_no_retry : sr_finished_at r ≠ None → sr_next_retry_at r = None;
}.

(** No two rows of the task table carry the same attempt of the same run. *)
Definition attempts_unique (t : TaskDB) : Prop :=
  ∀ id1 id2 r1 r2, tasks t !! id1 = Some r1 → tasks t !! id2 = Some r2 →
    same_schedule_attempt r1 r2 = true → id1 = id2.

Record sched_inv (db : SchedDB) : Prop := {
  si_run_keys : ∀ id r, schedule_runs db !! id = Some r → sr_id r = id;
  si_runs : ∀ id r, schedule_runs db !! id = Some r → run_ok r;
  si_fk : ∀ id r, schedule_runs db !! id = Some r → is_Some (schedules db !! sr_schedule_id r);
  si_active : ∀ id1 id2 r1 r2,
    schedule_runs db !! id1 = Some r1 → schedule_runs db !! id2 = Some r2 →
    sr_schedule_id r1 = sr_schedule_id r2 → sr_finished_at r1 = None → sr_finished_at r2 = None →
    id1 = id2;
  si_issued : ∀ id, is_Some (schedule_runs db !! id) → id ∈ issued_run_ids db;
  si_schedule_keys : ∀ id s, schedules db !! id = Some s → ps_id s = id;
  si_schedules : ∀ id s, schedules db !! id = Some s →
    schedule_checks s = true ∧ is_Some (projects db !! ps_project_id s);
  si_projects : ∀ id1 id2 s1 s2,
    schedules db !! id1 = Some s1 → schedules db !! id2 = Some s2 →
    ps_project_id s1 = ps_project_id s2 → id1 = id2;
  si_task_keys : keys_ok (task_db db);
  si_attempts : ∀ id t, tasks (task_db db) !! id = Some t → attempt_begun db t;
  si_unique : attempts_unique (task_db db);
}.

End Protocol.

Section TaskTable.
Context {coll : Collation}.

(** ** The task table: schedule columns are written once, by an admitted insert *)

Definition schedule_columns (t : TaskRecord) : option string * option Z :=
  (tr_schedule_run_id t, tr_schedule_attempt t).

Lemma rtc_row_step_columns r r' : rtc row_step r r' → schedule_columns r' = schedule_columns r.
Proof.
  induction 1 as [|r1 r2 r3 H _ IH]; [done|]. rewrite IH. destruct r1, H; simpl;
    unfold supersede, with_reason, with_message; simpl; by repeat case_match.
Qed.

Definition no_new_rows (db db' : TaskDB) : Prop :=
  ∀ id, tasks db !! id = None → tasks db' !! id = None.

#[global] Instance no_new_rows_refl : Reflexive no_new_rows.
Proof. by intros db id. Qed.

#[global] Instance no_new_rows_trans : Transitive no_new_rows.
Proof. intros a b c H1 H2 id H. by apply H2, H1. Qed.

Lemma no_new_rows_put db r r' : tasks db !! tr_task_id r' = Some r → no_new_rows db (db_put r' db).
Proof.
  intros Hr id Hid. unfold db_put; simpl. rewrite lookup_insert_ne; [done|]. intros <-. congruence.
Qed.

Lemma no_new_rows_enqueue_queued e payload row_id now task db :
  no_new_rows db (enqueue_queued e payload row_id now task db).2.
Proof.
  assert (∀ t, no_new_rows db (coalesce_root_executions t now db).2) as Hc.
  { intros t. unfold coalesce_root_executions.
    destruct (root_candidates _ _) as [|r0 [|r1 stale]]; [reflexivity..|].
    intros id Hid. simpl. by rewrite lookup_fmap, Hid. }
  unfold enqueue_queued. case_bool_decide; simpl.
  - specialize (Hc task). destruct (coalesce_root_executions task now db) as [[t' sup] db'].
    case_bool_decide; simpl in *; [done|]. intros id Hid. rewrite ensure_outbox_tasks. by apply Hc.
  - intros id Hid. by rewrite ensure_outbox_tasks.
Qed.

(** A transaction creates no row, or one that [insert_allowed] admits. *)
Definition creates (ok : TaskRecord → bool) (db db' : TaskDB) : Prop :=
  no_new_rows db db' ∨
  ∃ r0, tasks db !! tr_task_id r0 = None ∧ insert_allowed ok db r0 = true ∧
        no_new_rows (db_put r0 db) db' ∧
        ∀ r, tasks db' !! tr_task_id r0 = Some r → schedule_columns r = schedule_columns r0.

Lemma creates_put ok db id r r' :
  keys_ok db → tasks db !! id = Some r → row_step r r' → creates ok db (db_put r' db).
Proof.
  intros Hk Hr Hs. left. apply (no_new_rows_put _ r). by rewrite (row_step_task_id _ _ Hs), (Hk _ _ Hr).
Qed.

Lemma creates_insert ok db e st now db' :
  keys_ok db → tasks db !! te_task_id e = None →
  insert_allowed ok db (new_task_record e st now) = true → st ∈ [PENDING; QUEUED] →
  db_evolves (db_put (new_task_record e st now) db) db' →
  no_new_rows (db_put (new_task_record e st now) db) db' → creates ok db db'.
Proof.
  intros Hk Hn Hi Hst He Hnn. right. exists (new_task_record e st now). split_and!; try done.
  intros r Hr. destruct (He (db_put_keys _ _ Hk)) as [_ Hev]. specialize (Hev (te_task_id e)).
  unfold db_put in Hev; simpl in Hev, Hr. rewrite lookup_insert_eq, Hr in Hev.
  by apply rtc_row_step_columns in Hev.
Qed.

Lemma task_step_creates ok db db' : keys_ok db → task_step ok db db' → creates ok db db'.
Proof.
  intros Hk. destruct 1 as [e now x db' H|e payload row_id now x db' _ H|tid w now|tid w now
    |tid w st message reason now x db' H|tid reason message now Hr|tid reason message now Hr
    |tid reason hard now|did now|did error].
  - unfold create_pending in H. destruct (tasks db !! te_task_id e) eqn:E; [simplify_eq; by left|].
    case_match; [|done]. simplify_eq. eapply creates_insert; [done..|set_solver|reflexivity|reflexivity].
  - unfold enqueue_with_dispatch in H. destruct (tasks db !! te_task_id e) as [r|] eqn:E.
    + case_bool_decide; [|case_bool_decide]; injection H as H;
        [apply (f_equal snd) in H; simpl in H; subst db'..|simplify_eq; by left]; left.
      * etrans; [|apply no_new_rows_enqueue_queued]. apply (no_new_rows_put _ r).
        rewrite <-E. f_equal. rewrite <-(Hk _ _ E). by destruct r.
      * apply no_new_rows_enqueue_queued.
    + case_match; [|done]. injection H as H. apply (f_equal snd) in H; simpl in H; subst db'.
      eapply creates_insert; [done..|set_solver|apply enqueue_queued_evolves|apply no_new_rows_enqueue_queued].
  - unfold claim. destruct (tasks db !! tid) as [r|] eqn:E; simpl; [|by left].
    case_bool_decide; simpl; [|by left]. eapply creates_put; eauto with dvt.
  - unfold mark_running. destruct (tasks db !! tid) as [r|] eqn:E; simpl; [|by left].
    destruct (_ && _) eqn:Hg; simpl; [|by left]. apply andb_true_iff in Hg as [Hg%bool_decide_eq_true _].
    eapply creates_put; eauto with dvt.
  - apply finalize_cases in H as [[-> ->]|(r & r' & -> & -> & Hr & _ & _ & Hs & _)]; [by left|].
    by eapply creates_put.
  - destruct (finalize_reconciled _ _ _ _ _) as [o db1] eqn:E; simpl.
    apply finalize_reconciled_cases in E as [[-> ->]|(r & r' & _ & -> & Hr' & _ & Hs & _)]; [by left|].
    by eapply creates_put.
  - destruct (fail_pending _ _ _ _ _) as [o db1] eqn:E; simpl.
    apply fail_pending_cases in E as [->|(r & r' & _ & -> & Hr' & _ & Hs & _)]; [by left| |done].
    by eapply creates_put.
  - left. unfold request_stop. destruct (tasks db !! tid) as [r|] eqn:E; simpl; [|reflexivity].
    case_bool_decide; simpl; [reflexivity|].
    pose proof (Hk _ _ E) as Hid'. destruct r; simpl in *.
    case_bool_decide; simpl; intros id Hid; simpl; rewrite lookup_insert_ne; try done; congruence.
  - left. by intros id.
  - left. by intros id.
Qed.

Lemma same_schedule_attempt_columns r1 r2 r1' r2' :
  schedule_columns r1' = schedule_columns r1 → schedule_columns r2' = schedule_columns r2 →
  same_schedule_attempt r1' r2' = same_schedule_attempt r1 r2.
Proof.
  unfold schedule_columns, same_schedule_attempt. intros [= -> ->] [= -> ->]. done.
Qed.

Lemma same_schedule_attempt_sym r1 r2 : same_schedule_attempt r1 r2 = same_schedule_attempt r2 r1.
Proof.
  unfold same_schedule_attempt. repeat case_match; try done. f_equal; [apply bool_decide_ext; naive_solver|].
  apply Z.eqb_sym.
Qed.

(** The rows of [db'] as continuations of rows of [db], or the created one. *)
Lemma task_step_origin ok db db' id r :
  keys_ok db → task_step ok db db' → tasks db' !! id = Some r →
  (∃ r0, tasks db !! id = Some r0 ∧ schedule_columns r = schedule_columns r0) ∨
  (tasks db !! id = None ∧ ∃ r0, tr_task_id r0 = id ∧ insert_allowed ok db r0 = true ∧
     schedule_columns r = schedule_columns r0).
Proof.
  intros Hk Hs Hr. destruct (task_step_evolves _ _ _ Hs Hk) as [_ He]. specialize (He id).
  rewrite Hr in He. destruct (tasks db !! id) as [r0|] eqn:E; simpl in He.
  - left. exists r0. split; [done|]. by apply rtc_row_step_columns.
  - right. split; [done|]. destruct (task_step_creates _ _ _ Hk Hs) as [Hn|(r0 & Hn & Hi & Hnn & Hc)].
    { by rewrite (Hn _ E) in Hr. }
    destruct (decide (id = tr_task_id r0)) as [->|Hne]; [exists r0; split_and!; auto|].
    rewrite (Hnn id) in Hr; [done|]. unfold db_put; simpl. by rewrite lookup_insert_ne by done.
Qed.

Lemma insert_allowed_distinct ok db r0 id r :
  insert_allowed ok db r0 = true → tasks db !! id = Some r → same_schedule_attempt r0 r = false.
Proof.
  unfold insert_allowed. intros [_ Hf]%andb_true_iff Hr. rewrite forallb_forall in Hf.
  specialize (Hf (id, r)). apply negb_true_iff, Hf. by apply list_elem_of_In, elem_of_map_to_list.
Qed.

Lemma attempts_unique_step ok db db' :
  keys_ok db → task_step ok db db' → attempts_unique db → attempts_unique db'.
Proof.
  intros Hk Hs Hu id1 id2 r1 r2 H1 H2 Hsame.
  destruct (task_step_creates _ _ _ Hk Hs) as [Hn|(n0 & Hn & Hi & Hnn & Hc)].
  all: destruct (task_step_origin _ _ _ _ _ Hk Hs H1) as [(p1 & Hp1 & Hc1)|(Hp1 & p1 & <- & Hi1 & Hc1)].
  all: destruct (task_step_origin _ _ _ _ _ Hk Hs H2) as [(p2 & Hp2 & Hc2)|(Hp2 & p2 & <- & Hi2 & Hc2)].
  all: rewrite (same_schedule_attempt_columns _ _ _ _ Hc1 Hc2) in Hsame; try by eapply Hu.
  all: try by rewrite Hn in H1. all: try by rewrite Hn in H2.
  all: try by rewrite (insert_allowed_distinct _ _ _ _ _ Hi1 Hp2) in Hsame.
  all: try by rewrite same_schedule_attempt_sym, (insert_allowed_distinct _ _ _ _ _ Hi2 Hp1) in Hsame.
  assert (∀ p r, tasks db !! tr_task_id p = None → tasks db' !! tr_task_id p = Some r →
            tr_task_id p = tr_task_id n0) as Hone.
  { intros p r Hp Hr. destruct (decide (tr_task_id p = tr_task_id n0)) as [|Hne]; [done|].
    rewrite (Hnn (tr_task_id p)) in Hr; [done|]. unfold db_put; simpl. by rewrite lookup_insert_ne by done. }
  by rewrite (Hone _ _ Hp1 H1), (Hone _ _ Hp2 H2).
Qed.

End TaskTable.

(** ** The run automaton keeps runs well formed *)

Lemma run_trans_frame now r r' :
  run_trans now r r' → sr_id r' = sr_id r ∧ sr_schedule_id r' = sr_schedule_id r ∧
    sr_max_retries r' = sr_max_retries r ∧ sr_retry_delay_seconds r' = sr_retry_delay_seconds r ∧
    sr_retry_backoff r' = sr_retry_backoff r ∧
    sr_retry_max_delay_seconds r' = sr_retry_max_delay_seconds r.
Proof.
  destruct r, 1; unfold begin_attempt, mark_attempt_running, record_attempt_failure, finish_run, touch;
    simpl; repeat case_match; done.
Qed.

Lemma run_trans_unfinished now r r' : run_trans now r r' → sr_finished_at r = None.
Proof. by destruct 1. Qed.

(** The attempt number never decreases, and grows only when an attempt begins. *)
Lemma run_trans_attempt now r r' :
  run_trans now r r' →
  sr_attempt_number r' = sr_attempt_number r ∨
  sr_attempt_number r' = (sr_attempt_number r + 1)%Z ∧ attempt_due now r = true.
Proof.
  destruct r, 1; unfold begin_attempt, mark_attempt_running, record_attempt_failure, finish_run, touch;
    simpl; repeat case_match; auto.
Qed.

Lemma attempt_due_true now r :
  attempt_due now r = true →
  sr_status r = RS.PENDING ∨
  sr_status r = RS.WAITING_RETRY ∧ ∃ t, sr_next_retry_at r = Some t ∧ (t ≤ now)%Z.
Proof.
  unfold attempt_due, due. rewrite orb_true_iff, andb_true_iff, !bool_decide_eq_true.
  intros [?|[? Ht]]; [by left|right; split; [done|]].
  destruct (sr_next_retry_at r) as [t|]; [|done]. exists t. split; [done|lia].
Qed.

Ltac run_fields :=
  unfold begin_attempt, mark_attempt_running, finish_run, touch in *; simpl in *.

Lemma run_ok_begin now u r :
  run_ok r → sr_finished_at r = None → attempt_due now r = true → run_ok (begin_attempt now u r).
Proof.
  intros [Hm Hd Hx Ha Hf Hp Hb Hw He Hn] Hfin Hdue%attempt_due_true.
  assert (sr_attempt_number r ≤ sr_max_retries r)%Z as Hle.
  { destruct Hdue as [E|[E _]]; [rewrite (Hp E); lia|]. by destruct (Hw E). }
  destruct r; run_fields. subst. split; simpl; try done; try lia. by split; [set_solver|].
Qed.

Lemma run_ok_running tid u r :
  run_ok r → sr_finished_at r = None → (1 ≤ sr_attempt_number r)%Z →
  run_ok (mark_attempt_running tid u r).
Proof.
  intros [Hm Hd Hx Ha Hf Hp Hb Hw He Hn] Hfin H1. destruct r; run_fields. subst.
  split; simpl; try done; try lia. by split; [set_solver|].
Qed.

Lemma run_ok_finish st now error tid r :
  run_ok r → st ∈ [RS.SUCCESS; RS.ERROR; RS.CANCELLED] →
  (st ≠ RS.CANCELLED → (1 ≤ sr_attempt_number r)%Z) →
  (st = RS.ERROR → sr_attempt_number r = (sr_max_retries r + 1)%Z) →
  run_ok (finish_run st now error (set_current_task_id tid r)).
Proof.
  intros [Hm Hd Hx Ha Hf Hp Hb Hw He Hn] Hst H1 H2. destruct r; run_fields.
  split; simpl; try done; try lia.
  all: set_unfold; naive_solver.
Qed.

Lemma run_ok_failure now error tid r :
  run_ok r → sr_finished_at r = None → (1 ≤ sr_attempt_number r)%Z →
  run_ok (record_attempt_failure now error (set_current_task_id tid r)).
Proof.
  intros Hok Hfin H1. unfold record_attempt_failure.
  destruct (Z.leb_spec (sr_attempt_number (set_last_error (Some error) (set_current_task_id tid r)))
              (sr_max_retries (set_last_error (Some error) (set_current_task_id tid r)))) as [Hle|Hlt].
  - destruct Hok as [Hm Hd Hx Ha Hf Hp Hb Hw He Hn]. destruct r; run_fields. subst.
    split; simpl; try done; try lia; eauto. by split; [set_solver|].
  - assert (finish_run RS.ERROR now (Some error) (set_last_error (Some error) (set_current_task_id tid r))
            = finish_run RS.ERROR now (Some error) (set_current_task_id tid r)) as -> by by destruct r.
    destruct Hok as [? ? ? Ha ? ? ? ? ? ?] eqn:E. apply run_ok_finish; [done|set_solver|done|].
    intros _. clear E. destruct r; simpl in *. lia.
Qed.

Lemma run_trans_ok now r r' : run_ok r → run_trans now r r' → run_ok r'.
Proof.
  intros Hok Ht. pose proof (run_trans_unfinished _ _ _ Ht) as Hfin. destruct Ht.
  - by apply run_ok_begin.
  - by apply run_ok_running.
  - by apply run_ok_failure.
  - apply run_ok_finish; [done|set_solver|done|done].
  - apply run_ok_finish; [done|set_solver|done|done].
Qed.

Lemma run_ok_updated u r : run_ok r → run_ok (set_run_updated_at u r).
Proof. by intros []; destruct r; split. Qed.

Lemma new_run_ok id s now created : run_checks (new_run id s now created) = true → run_ok (new_run id s now created).
Proof.
  unfold run_checks, between. rewrite !andb_true_iff, !Z.leb_le. simpl. intros.
  split; simpl; try done; try lia; [|set_solver]. split; [set_solver|done].
Qed.

#[export] Hint Resolve run_trans_ok run_ok_updated new_run_ok : dvt.
