(* ===== verification/SchedInv.v ===== *)
(** * Project scheduler: invariants of the shared database

    Every transaction of [SchedProtocol] preserves [sched_inv]; what follows for every reachable
    database: one active run per schedule, final results that never change, a bounded number of
    attempts with one task each, and no retry before its delay has passed. *)
From S2P Require Import Prelude TaskTypes TaskStore TaskLifecycle SchedTypes SchedProtocol.

Section Inv.
Context {coll : Collation} (fk : TaskRecord → bool).

Lemma inv_update_run db r r' :
  sched_inv db → schedule_runs db !! sr_id r = Some r → run_ok r' →
  sr_id r' = sr_id r → sr_schedule_id r' = sr_schedule_id r → sr_finished_at r = None →
  (sr_attempt_number r ≤ sr_attempt_number r')%Z → sched_inv (put_run r' db).
Proof.
  intros [Hk Hr Hfk Ha Hi Hsk Hs Hp Htk Hta Hu] Hl Hok Hid Hsid Hfin Hle.
  assert (∀ id x, schedule_runs (put_run r' db) !! id = Some x →
    (id = sr_id r ∧ x = r') ∨ schedule_runs db !! id = Some x) as Hlook.
  { intros id x. unfold put_run; simpl. rewrite lookup_insert. case_decide; naive_solver. }
  split; simpl; try done.
  - intros id x [[-> ->]|Hx]%Hlook; [done|by apply Hk].
  - intros id x [[-> ->]|Hx]%Hlook; [done|by eapply Hr].
  - intros id x [[-> ->]|Hx]%Hlook; [rewrite Hsid|]; by eapply Hfk.
  - intros id1 id2 r1 r2 [[-> ->]|H1]%Hlook [[-> ->]|H2]%Hlook E F1 F2; try done.
    + eapply (Ha (sr_id r) id2 r r2); congruence.
    + eapply (Ha id1 (sr_id r) r1 r); congruence.
    + by eapply Ha.
  - intros id [x [[-> ->]|Hx]%Hlook]; eauto.
  - intros id t Ht rid Hrid. destruct (Hta _ _ Ht _ Hrid) as (run & k & H1 & H2 & H3). simpl.
    rewrite lookup_insert. case_decide as E; [|eauto].
    assert (run = r) as -> by congruence. exists r', k. split_and!; [done|done|lia|lia].
Qed.

Lemma inv_trans db now r r' u :
  sched_inv db → schedule_runs db !! sr_id r = Some r → run_trans now r r' →
  sched_inv (put_run (set_run_updated_at u r') db).
Proof.
  intros Hinv Hl Ht. pose proof (run_trans_frame _ _ _ Ht) as (Hid & Hsid & _).
  pose proof (run_trans_unfinished _ _ _ Ht) as Hfin. pose proof (run_trans_attempt _ _ _ Ht) as Hatt.
  assert (run_ok r') as Hok by (eapply run_trans_ok; [by eapply si_runs|done]).
  apply run_ok_updated with u r' in Hok.
  eapply inv_update_run; [done|done|done|..]; destruct r'; simpl in *; try done; lia.
Qed.

Lemma inv_update_schedule db s s' :
  sched_inv db → schedules db !! ps_id s = Some s → ps_id s' = ps_id s →
  ps_project_id s' = ps_project_id s → schedule_checks s' = true → sched_inv (put_schedule s' db).
Proof.
  intros [Hk Hr Hfk Ha Hi Hsk Hs Hp Htk Hta Hu] Hl Hid Hpid Hc.
  assert (∀ id x, schedules (put_schedule s' db) !! id = Some x →
    (id = ps_id s ∧ x = s') ∨ schedules db !! id = Some x) as Hlook.
  { intros id x. unfold put_schedule; simpl. rewrite lookup_insert. case_decide; naive_solver. }
  split; simpl; try done.
  - intros id r Hrun. destruct (Hfk _ _ Hrun) as [x Hx]. rewrite lookup_insert. case_decide; eauto.
  - intros id x [[-> ->]|Hx]%Hlook; [done|by apply Hsk].
  - intros id x [[-> ->]|Hx]%Hlook; [split; [done|rewrite Hpid]|]; by eapply Hs.
  - intros id1 id2 s1 s2 [[-> ->]|H1]%Hlook [[-> ->]|H2]%Hlook E; try done.
    + eapply (Hp (ps_id s) id2 s s2); congruence.
    + eapply (Hp id1 (ps_id s) s1 s); congruence.
    + by eapply Hp.
Qed.

Lemma inv_insert_schedule db s :
  sched_inv db → schedules db !! ps_id s = None → insert_schedule_allowed db s = true →
  sched_inv (put_schedule s db).
Proof.
  intros [Hk Hr Hfk Ha Hi Hsk Hs Hp Htk Hta Hu] Hl Hins.
  unfold insert_schedule_allowed in Hins. rewrite !andb_true_iff, bool_decide_eq_true in Hins.
  destruct Hins as [[[Hproj _] Hc] Hfree].
  assert (∀ id x, schedules db !! id = Some x → ps_project_id x ≠ ps_project_id s) as Hfree'.
  { intros id x Hx E. unfold project_free in Hfree. rewrite forallb_forall in Hfree.
    specialize (Hfree (id, x)). simpl in Hfree. rewrite bool_decide_eq_true_2 in Hfree by done.
    discriminate Hfree. by apply list_elem_of_In, elem_of_map_to_list. }
  assert (∀ id x, schedules (put_schedule s db) !! id = Some x →
    (id = ps_id s ∧ x = s) ∨ schedules db !! id = Some x) as Hlook.
  { intros id x. unfold put_schedule; simpl. rewrite lookup_insert. case_decide; naive_solver. }
  split; simpl; try done.
  - intros id r Hrun. destruct (Hfk _ _ Hrun) as [x Hx]. rewrite lookup_insert. case_decide; eauto.
  - intros id x [[-> ->]|Hx]%Hlook; [done|by apply Hsk].
  - intros id x [[-> ->]|Hx]%Hlook; [done|by eapply Hs].
  - intros id1 id2 s1 s2 [[-> ->]|H1]%Hlook [[-> ->]|H2]%Hlook E; try done.
    + by destruct (Hfree' _ _ H2).
    + by destruct (Hfree' _ _ H1).
    + by eapply Hp.
Qed.

Lemma elem_of_active_runs sid db r :
  r ∈ active_runs sid db ↔
  (∃ id, schedule_runs db !! id = Some r) ∧ sr_schedule_id r = sid ∧ sr_finished_at r = None.
Proof.
  unfold active_runs, unfinished. rewrite list_elem_of_filter, andb_true_iff, !bool_decide_eq_true.
  rewrite list_elem_of_fmap. split.
  - intros ((? & ?) & [id x] & -> & Hx%elem_of_map_to_list). eauto.
  - intros ((id & Hx) & ? & ?). split; [done|]. exists (id, r). by rewrite elem_of_map_to_list.
Qed.

Lemma inv_create_run db id s now created :
  sched_inv db → id ∉ issued_run_ids db → insert_run_allowed db (new_run id s now created) = true →
  sched_inv (mkSchedDB (schedules db) (<[id := new_run id s now created]> (schedule_runs db))
               (projects db) (users db) (task_db db) ({[id]} ∪ issued_run_ids db)).
Proof.
  intros [Hk Hr Hfk Ha Hi Hsk Hs Hp Htk Hta Hu] Hnew Hins.
  unfold insert_run_allowed in Hins. rewrite !andb_true_iff, !bool_decide_eq_true in Hins.
  destruct Hins as [[Hsched Hc] Hact].
  assert (∀ id' x, schedule_runs db !! id' = Some x → sr_schedule_id x = ps_id s → sr_finished_at x ≠ None) as Hno.
  { intros id' x Hx E F. assert (x ∈ active_runs (ps_id s) db) as Hin by (apply elem_of_active_runs; eauto).
    simpl in Hact. rewrite Hact in Hin. set_solver. }
  assert (∀ id' x, (<[id := new_run id s now created]> (schedule_runs db)) !! id' = Some x →
    (id' = id ∧ x = new_run id s now created) ∨ schedule_runs db !! id' = Some x) as Hlook.
  { intros id' x. rewrite lookup_insert. case_decide; naive_solver. }
  split; simpl; try done.
  - intros id' x [[-> ->]|Hx]%Hlook; [done|by apply Hk].
  - intros id' x [[-> ->]|Hx]%Hlook; [by apply new_run_ok|by eapply Hr].
  - intros id' x [[-> ->]|Hx]%Hlook; [done|by eapply Hfk].
  - intros id1 id2 r1 r2 [[-> ->]|H1]%Hlook [[-> ->]|H2]%Hlook E F1 F2; try done.
    + by destruct (Hno _ _ H2).
    + by destruct (Hno _ _ H1).
    + by eapply Ha.
  - intros id' [x [[-> ->]|Hx]%Hlook]; [set_solver|]. apply elem_of_union_r. eauto.
  - intros tid t Ht rid Hrid. destruct (Hta _ _ Ht _ Hrid) as (run & k & H1 & H2 & H3). simpl.
    rewrite lookup_insert_ne; [eauto|]. intros ->. apply Hnew, Hi. eauto.
Qed.

Lemma task_fk_run db t rid :
  task_fk fk db t = true → tr_schedule_run_id t = Some rid → is_Some (schedule_runs db !! rid).
Proof. unfold task_fk. intros [_ H]%andb_true_iff E. rewrite E in H. by apply bool_decide_eq_true in H. Qed.

Lemma inv_tasks db t' :
  sched_inv db → task_step (task_fk fk db) (task_db db) t' →
  (∀ id r, tasks t' !! id = Some r → tasks (task_db db) !! id = None → attempt_begun db r) →
  sched_inv (set_task_db t' db).
Proof.
  intros [Hk Hr Hfk Ha Hi Hsk Hs Hp Htk Hta Hu] Hstep Hnew. split; simpl; try done.
  - by apply (task_step_evolves _ _ _ Hstep Htk).
  - intros id t Ht. destruct (task_step_origin _ _ _ _ _ Htk Hstep Ht) as [(t0 & Ht0 & Hc)|(Hn & _)]; [|eauto].
    injection Hc as E1 E2. intros rid. rewrite E1, E2. by apply (Hta _ _ Ht0).
  - by eapply attempts_unique_step.
Qed.

Lemma set_run_id_columns t : tr_task_id (set_schedule_run_id None t) = tr_task_id t ∧
  schedule_columns (set_schedule_run_id None t) = (None, tr_schedule_attempt t).
Proof. by destruct t. Qed.

Lemma lookup_deleted_runs sid db id r :
  schedule_runs (delete_project_schedule_rows sid db) !! id = Some r ↔
  schedule_runs db !! id = Some r ∧ sr_schedule_id r ≠ sid.
Proof.
  unfold delete_project_schedule_rows; simpl. rewrite lookup_difference_Some, map_lookup_filter_None.
  split.
  - intros [H1 [H2|H2]]; [congruence|]. split; [done|]. by apply (H2 r).
  - intros [H1 H2]. split; [done|]. right. intros r' E. simpl. congruence.
Qed.

Lemma lookup_gone sid db id :
  is_Some (filter (λ kr : string * ProjectScheduleRunRecord, sr_schedule_id kr.2 = sid) (schedule_runs db) !! id)
  ↔ ∃ r, schedule_runs db !! id = Some r ∧ sr_schedule_id r = sid.
Proof.
  split.
  - intros [r [H1 H2]%map_lookup_filter_Some]. eauto.
  - intros (r & H1 & H2). exists r. by apply map_lookup_filter_Some.
Qed.

Lemma lookup_deleted_tasks sid db id t :
  tasks (task_db (delete_project_schedule_rows sid db)) !! id = Some t →
  ∃ t0, tasks (task_db db) !! id = Some t0 ∧ tr_task_id t = tr_task_id t0 ∧
    (tr_schedule_run_id t = None ∨
     t = t0 ∧ ∀ rid run, tr_schedule_run_id t = Some rid → schedule_runs db !! rid = Some run →
       sr_schedule_id run ≠ sid).
Proof.
  unfold delete_project_schedule_rows; simpl. rewrite lookup_fmap.
  destruct (tasks (task_db db) !! id) as [t0|]; simpl; [|done]. intros [= <-]. exists t0.
  destruct (tr_schedule_run_id t0) as [rid|] eqn:E; [|split_and!; [done..|by left]].
  case_bool_decide as Hg; [destruct t0; split_and!; [done..|by left]|].
  split_and!; [done..|right; split; [done|]]. intros rid' run [= <-]%(transitivity (symmetry E)) Hrun Hs.
  apply Hg, lookup_gone. eauto.
Qed.

Lemma inv_delete_schedule db sid : sched_inv db → sched_inv (delete_project_schedule_rows sid db).
Proof.
  intros [Hk Hr Hfk Ha Hi Hsk Hs Hp Htk Hta Hu]. split.
  - intros id r [Hx _]%lookup_deleted_runs. by apply Hk.
  - intros id r [Hx _]%lookup_deleted_runs. by eapply Hr.
  - intros id r [Hx Hne]%lookup_deleted_runs. simpl. rewrite lookup_delete_ne by done. by eapply Hfk.
  - intros id1 id2 r1 r2 [H1 _]%lookup_deleted_runs [H2 _]%lookup_deleted_runs. by apply Ha.
  - intros id [r [Hx _]%lookup_deleted_runs]. apply Hi. eauto.
  - intros id s. simpl. intros [_ Hx]%lookup_delete_Some. by apply Hsk.
  - intros id s. simpl. intros [_ Hx]%lookup_delete_Some. by eapply Hs.
  - intros id1 id2 s1 s2. simpl. intros [_ H1]%lookup_delete_Some [_ H2]%lookup_delete_Some. by apply Hp.
  - intros id t (t0 & Ht0 & E & _)%lookup_deleted_tasks. rewrite E. by apply Htk.
  - intros id t (t0 & Ht0 & _ & [E|[-> Hne]])%lookup_deleted_tasks rid Hrid; [congruence|].
    destruct (Hta _ _ Ht0 _ Hrid) as (run & k & H1 & H2). exists run, k. split; [|done].
    apply lookup_deleted_runs. eauto.
  - intros id1 id2 t1 t2 (p1 & Hp1 & _ & C1)%lookup_deleted_tasks (p2 & Hp2 & _ & C2)%lookup_deleted_tasks Hsame.
    destruct C1 as [E1|[-> _]]; [by unfold same_schedule_attempt in Hsame; rewrite E1 in Hsame|].
    destruct C2 as [E2|[-> _]]; [|by eapply Hu].
    unfold same_schedule_attempt in Hsame. rewrite E2 in Hsame. by repeat case_match.
Qed.

Lemma inv_projects db ps us :
  sched_inv db → (∀ sid s, schedules db !! sid = Some s → is_Some (ps !! ps_project_id s)) →
  sched_inv (mkSchedDB (schedules db) (schedule_runs db) ps us (task_db db) (issued_run_ids db)).
Proof.
  intros [Hk Hr Hfk Ha Hi Hsk Hs Hp Htk Hta Hu] Hps. split; simpl; try done.
  intros id s Hx. split; [by eapply Hs|by eapply Hps].
Qed.

Lemma inv_delete_tasks db gone : sched_inv db → sched_inv (set_task_db (delete_tasks gone (task_db db)) db).
Proof.
  intros [Hk Hr Hfk Ha Hi Hsk Hs Hp Htk Hta Hu]. split; simpl; try done.
  - intros id r [Hx _]%map_lookup_filter_Some. by apply Htk.
  - intros id r [Hx _]%map_lookup_filter_Some. by eapply Hta.
  - intros id1 id2 r1 r2 [H1 _]%map_lookup_filter_Some [H2 _]%map_lookup_filter_Some. by eapply Hu.
Qed.

Lemma inv_step now db db' : sched_inv db → sched_step fk now db db' → sched_inv db'.
Proof.
  intros Hinv. destruct 1 as [t' H1 H2|id s created H1 H2|r r' u H1 H2|s H1 H2|s s' H1 H2 H3 H4
    |s s' r r' u H1 H2 H3 H4 H5 H6|sid|ps us H1|gone].
  - by apply inv_tasks.
  - by apply inv_create_run.
  - by eapply inv_trans.
  - by apply inv_insert_schedule.
  - by eapply inv_update_schedule.
  - eapply inv_trans; [by eapply inv_update_schedule|done|done].
  - by apply inv_delete_schedule.
  - by apply inv_projects.
  - by apply inv_delete_tasks.
Qed.

Lemma inv_steps db db' : sched_steps fk db db' → sched_inv db → sched_inv db'.
Proof. induction 1 as [|db1 db2 db3 [now H] _ IH]; [done|]. intros. apply IH. by eapply inv_step. Qed.

Lemma inv_initial : sched_inv initial_sched.
Proof. split; simpl; intros *; rewrite ?lookup_empty; try done. all: by intros []. Qed.

(** Deleting projects is a sequence of such transactions. *)
Lemma delete_schedules_steps ids db : sched_steps fk db (foldr delete_project_schedule_rows db ids).
Proof. induction ids as [|id ids IH]; [done|]. eapply rtc_r; [done|]. exists 0%Z. apply ss_delete_schedule. Qed.

Lemma deleted_schedules ids db id s :
  schedules (foldr delete_project_schedule_rows db ids) !! id = Some s → (id ∉ ids) ∧ schedules db !! id = Some s.
Proof.
  induction ids as [|x ids IH]; simpl; [by split; [apply not_elem_of_nil|]|].
  intros [Hne [Hn Hs]%IH]%lookup_delete_Some. split; [by apply not_elem_of_cons|done].
Qed.

Lemma delete_projects_steps ids db : sched_inv db → sched_steps fk db (delete_projects_permanently ids db).
Proof.
  intros Hinv. unfold delete_projects_permanently. destruct (filter _ ids) as [|p ps] eqn:E; [done|]. rewrite <-E. clear p ps E.
  set (l := filter _ ids). set (db1 := set_task_db _ db). set (gone := (filter _ (map_to_list _)).*1).
  assert (sched_steps fk db (foldr delete_project_schedule_rows db1 gone)) as Hs.
  { eapply rtc_l; [exists 0%Z; apply (ss_delete_tasks _ 0 db)|]. apply delete_schedules_steps. }
  eapply rtc_r; [exact Hs|]. exists 0%Z. apply ss_projects.
  intros sid s Hsid. pose proof (inv_steps _ _ Hs Hinv) as Hinv'. destruct (si_schedules _ Hinv' _ _ Hsid) as [_ [pj Hp]].
  exists pj. apply map_lookup_filter_Some. split; [done|]. simpl. apply deleted_schedules in Hsid as [Hn Hsid].
  intros Hin. apply Hn. apply list_elem_of_fmap. exists (sid, s). split; [done|]. apply list_elem_of_filter. split; [done|].
  by apply elem_of_map_to_list.
Qed.

(** ** What a transaction can do to one run *)

(** Unless it is deleted with its schedule, a run is left alone or moves along its automaton. *)
Lemma step_run now db db' id r :
  sched_inv db → sched_step fk now db db' → schedule_runs db !! id = Some r →
  schedule_runs db' !! id = Some r ∨ schedule_runs db' !! id = None ∨
  ∃ r' u, run_trans now r r' ∧ schedule_runs db' !! id = Some (set_run_updated_at u r').
Proof.
  intros Hinv Hs Hr.
  assert (∀ x x' u, schedule_runs db !! sr_id x = Some x → run_trans now x x' →
    let m := <[sr_id (set_run_updated_at u x') := set_run_updated_at u x']> (schedule_runs db) in
    m !! id = Some r ∨ m !! id = None ∨ ∃ r' u, run_trans now r r' ∧ m !! id = Some (set_run_updated_at u r')) as Hput.
  { intros x x' u Hx Ht m. unfold m. pose proof (run_trans_frame _ _ _ Ht) as (Hid & _).
    assert (sr_id (set_run_updated_at u x') = sr_id x) as -> by (rewrite <-Hid; by destruct x').
    rewrite lookup_insert. case_decide as E; [|by left]. right; right.
    assert (x = r) as -> by (subst id; congruence). eauto. }
  destruct Hs as [t' H1 H2|id' s created H1 H2|x x' u H1 H2|s H1 H2|s s' H1 H2 H3 H4
    |s s' x x' u H1 H2 H3 H4 H5 H6|sid|ps us H1|gone].
  7: { destruct (decide (sr_schedule_id r = sid)) as [E|E].
    - right; left. destruct (schedule_runs (delete_project_schedule_rows sid db) !! id) as [x|] eqn:Ex; [|done].
      apply lookup_deleted_runs in Ex as [Ex ?]. congruence.
    - left. apply lookup_deleted_runs. eauto. }
  all: simpl; auto.
  - rewrite lookup_insert_ne; [by left|]. intros ->. apply H1, (si_issued _ Hinv). eauto.
  - by eapply Hput.
  - by eapply Hput.
Qed.

(** A run id that was issued is not issued again. *)
Lemma step_issued now db db' :
  sched_step fk now db db' → issued_run_ids db ⊆ issued_run_ids db' ∧
  ∀ id, id ∈ issued_run_ids db → schedule_runs db !! id = None → schedule_runs db' !! id = None.
Proof.
  destruct 1 as [t' H1 H2|id' s created H1 H2|x x' u H1 H2|s H1 H2|s s' H1 H2 H3 H4
    |s s' x x' u H1 H2 H3 H4 H5 H6|sid|ps us H1|gone].
  7: { split; [done|]. intros id Hi Hn.
    destruct (schedule_runs (delete_project_schedule_rows sid db) !! id) as [r|] eqn:Er; [|done].
    apply lookup_deleted_runs in Er as [? _]. congruence. }
  all: simpl; try by split.
  - split; [set_solver|]. intros id Hi Hn. rewrite lookup_insert_ne; [done|]. by intros ->.
  - split; [done|]. intros id Hi Hn. pose proof (run_trans_frame _ _ _ H2) as (Hid & _).
    rewrite lookup_insert_ne; [done|]. intros <-. destruct x'; simpl in *. congruence.
  - split; [done|]. intros id Hi Hn. pose proof (run_trans_frame _ _ _ H6) as (Hid & _).
    rewrite lookup_insert_ne; [done|]. intros <-. destruct x'; simpl in *. congruence.
Qed.

Lemma steps_issued db db' :
  sched_steps fk db db' → issued_run_ids db ⊆ issued_run_ids db' ∧
  ∀ id, id ∈ issued_run_ids db → schedule_runs db !! id = None → schedule_runs db' !! id = None.
Proof.
  induction 1 as [|db1 db2 db3 [now H] _ [IH1 IH2]]; [by split|].
  destruct (step_issued _ _ _ H) as [S1 S2]. split; [set_solver|]. intros id Hi Hn.
  apply IH2; [set_solver|by apply S2].
Qed.

(** A property of a run that its automaton keeps is kept by every transaction. *)
Lemma steps_run_preserve (P : ProjectScheduleRunRecord → Prop) db db' id r :
  (∀ now x x' u, P x → run_trans now x x' → P (set_run_updated_at u x')) →
  sched_steps fk db db' → sched_inv db → schedule_runs db !! id = Some r → P r →
  ∀ r', schedule_runs db' !! id = Some r' → P r'.
Proof.
  intros HP Hs Hinv. revert r. induction Hs as [db|db1 db2 db3 [now H] Hs IH]; intros r Hr HPr r' Hr'.
  { naive_solver. }
  assert (sched_inv db2) as Hinv2 by by eapply inv_step.
  destruct (step_run _ _ _ _ _ Hinv H Hr) as [E|[E|(x & u & Ht & E)]]; [by eapply IH| |by eapply IH; eauto].
  exfalso. assert (id ∈ issued_run_ids db1) as Hi by (apply (si_issued _ Hinv); eauto).
  destruct (step_issued _ _ _ H) as [Hsub _]. destruct (steps_issued _ _ Hs) as [_ Hn].
  rewrite (Hn id) in Hr'; set_solver.
Qed.

(** ** Properties of every reachable database *)

(** C12. In every database the scheduler processes can reach, the constraints that the schedule
    logic relies on hold: every run is well formed (its status, attempt number and time stamps agree,
    the attempt number never exceeds [max_retries + 1], a run ends in [ERROR] only after the last
    attempt), a schedule has at most one unfinished run, a project at most one schedule, and every
    task made for a run belongs to an attempt that run has begun, one task per attempt. *)
Theorem reachable_schedules_are_consistent db : sched_steps fk initial_sched db → sched_inv db.
Proof. intros Hs. by eapply inv_steps, inv_initial. Qed.

(** A finished run chain is final: whatever transactions follow, its row is never changed
    again, it can only disappear together with its schedule. *)
Theorem finished_runs_are_final db db' id r r' :
  sched_inv db → schedule_runs db !! id = Some r → sr_finished_at r ≠ None →
  sched_steps fk db db' → schedule_runs db' !! id = Some r' → r' = r.
Proof.
  intros Hinv Hr Hf Hs Hr'. eapply (steps_run_preserve (λ x, x = r)); [|done..].
  intros now x x' u -> Ht. by apply run_trans_unfinished in Ht.
Qed.

(** The tasks that were ever made for a run. *)
Definition tasks_of_run (rid : string) (db : SchedDB) : list TaskRecord :=
  filter (λ t, tr_schedule_run_id t = Some rid) (map_to_list (tasks (task_db db))).*2.

Lemma elem_of_run_tasks rid db t :
  t ∈ tasks_of_run rid db ↔ tr_schedule_run_id t = Some rid ∧ ∃ id, tasks (task_db db) !! id = Some t.
Proof.
  unfold tasks_of_run. rewrite list_elem_of_filter, list_elem_of_fmap. split.
  - intros (? & [id x] & -> & Hx%elem_of_map_to_list). eauto.
  - intros (? & id & Hx). split; [done|]. exists (id, t). by rewrite elem_of_map_to_list.
Qed.

Lemma NoDup_tasks db : keys_ok (task_db db) → NoDup (map_to_list (tasks (task_db db))).*2.
Proof.
  intros Hk. apply (NoDup_fmap_1 tr_task_id). rewrite <-list_fmap_compose.
  assert (tr_task_id ∘ snd <$> map_to_list (tasks (task_db db)) = (map_to_list (tasks (task_db db))).*1) as ->.
  { apply list_fmap_ext. intros i [id t] Hi. simpl. apply Hk.
    by apply elem_of_map_to_list, list_elem_of_lookup_2 with i. }
  apply NoDup_fst_map_to_list.
Qed.

(** A list with distinct keys between 1 and [n] has at most [n] elements. *)
Lemma NoDup_interval (l : list Z) (n : Z) :
  (0 ≤ n)%Z → NoDup l → (∀ k, k ∈ l → 1 ≤ k ≤ n)%Z → (Z.of_nat (length l) ≤ n)%Z.
Proof.
  intros Hn Hnd Hb. assert (l ⊆+ seqZ 1 n) as Hsub.
  { apply NoDup_submseteq; [done|]. intros k Hk%Hb. apply elem_of_seqZ. lia. }
  apply submseteq_length in Hsub. rewrite length_seqZ in Hsub. lia.
Qed.

Lemma run_tasks_attempts db rid r :
  sched_inv db → schedule_runs db !! rid = Some r →
  NoDup (tr_schedule_attempt <$> tasks_of_run rid db) ∧
  ∀ t, t ∈ tasks_of_run rid db → ∃ k, tr_schedule_attempt t = Some k ∧ (1 ≤ k ≤ sr_attempt_number r)%Z.
Proof.
  intros Hinv Hr.
  assert (∀ t, t ∈ tasks_of_run rid db → ∃ k, tr_schedule_attempt t = Some k ∧ (1 ≤ k ≤ sr_attempt_number r)%Z) as Hk.
  { intros t (Hrid & id & Ht)%elem_of_run_tasks.
    destruct (si_attempts _ Hinv _ _ Ht _ Hrid) as (run & k & E1 & E2 & E3).
    rewrite Hr in E1. injection E1 as <-. eauto. }
  split; [|done]. apply NoDup_fmap_2_strong.
  - intros t1 t2 Hin1 Hin2 E. destruct (Hk _ Hin1) as (k & Ek & _).
    apply elem_of_run_tasks in Hin1 as (Hr1 & id1 & Ht1), Hin2 as (Hr2 & id2 & Ht2).
    assert (id1 = id2) as ->; [|congruence]. eapply (si_unique _ Hinv); [done..|].
    unfold same_schedule_attempt. rewrite Hr1, Hr2, <-E, Ek.
    by rewrite bool_decide_eq_true_2, Z.eqb_refl by done.
  - apply NoDup_filter, NoDup_tasks, (si_task_keys _ Hinv).
Qed.

Lemma run_tasks_bounded db rid r :
  sched_inv db → schedule_runs db !! rid = Some r →
  (Z.of_nat (length (tasks_of_run rid db)) ≤ sr_attempt_number r)%Z.
Proof.
  intros Hinv Hr. destruct (run_tasks_attempts _ _ _ Hinv Hr) as [Hnd Hk].
  pose proof (ro_attempt _ (si_runs _ Hinv _ _ Hr)) as Ha.
  assert (length (tasks_of_run rid db) = length (default 0%Z <$> (tr_schedule_attempt <$> tasks_of_run rid db))) as ->
    by by rewrite !length_fmap.
  apply NoDup_interval; [lia| |].
  - apply NoDup_fmap_2_strong; [|done]. intros a b Ha' Hb'.
    apply list_elem_of_fmap in Ha' as (t1 & -> & (k1 & E1 & _)%Hk).
    apply list_elem_of_fmap in Hb' as (t2 & -> & (k2 & E2 & _)%Hk). rewrite E1, E2. simpl. by intros ->.
  - intros k (a & -> & (t & -> & (k' & E & ?)%Hk)%list_elem_of_fmap)%list_elem_of_fmap.
    rewrite E. simpl. lia.
Qed.

(** C20. Whatever transactions of the protocol the processes commit, in any order and from the empty
    database on: while a run exists, the task table has at most one task for each of its attempts, the
    attempts are numbered from 1 to the attempt number of the run, and there are at most
    [max_retries + 1] of them, where [max_retries] is what the run was created with. *)
Theorem run_starts_bounded_tasks db0 db rid r0 r :
  sched_steps fk initial_sched db0 → schedule_runs db0 !! rid = Some r0 →
  sched_steps fk db0 db → schedule_runs db !! rid = Some r →
  NoDup (tr_schedule_attempt <$> tasks_of_run rid db) ∧
  (∀ t, t ∈ tasks_of_run rid db → ∃ k, tr_schedule_attempt t = Some k ∧ (1 ≤ k ≤ sr_attempt_number r)%Z) ∧
  (Z.of_nat (length (tasks_of_run rid db)) ≤ sr_max_retries r0 + 1)%Z.
Proof.
  intros Hs0 Hr0 Hs Hr. pose proof (inv_steps _ _ Hs0 inv_initial) as Hinv0. pose proof (inv_steps _ _ Hs Hinv0) as Hinv.
  assert (sr_max_retries r = sr_max_retries r0) as Hm.
  { apply (steps_run_preserve (λ x, sr_max_retries x = sr_max_retries r0) db0 db rid r0); [|done..].
    intros now x x' u Hx Ht. apply run_trans_frame in Ht as (_ & _ & Ht & _). rewrite <-Hx, <-Ht. by destruct x'. }
  destruct (run_tasks_attempts _ _ _ Hinv Hr) as [Hnd Hk]. split_and!; [done..|].
  pose proof (run_tasks_bounded _ _ _ Hinv Hr). pose proof (ro_attempt _ (si_runs _ Hinv _ _ Hr)). lia.
Qed.

(** ** Retry delays *)

(** Transactions at times in [lo, hi). *)
Definition sched_steps_during (lo hi : Z) : relation SchedDB :=
  rtc (λ db db', ∃ now, (lo ≤ now < hi)%Z ∧ sched_step fk now db db').

(** A run that waits for, or has taken up again, the attempt numbered [k], with the next
    attempt not before [t]. *)
Definition held_until (t k : Z) (r : ProjectScheduleRunRecord) : Prop :=
  sr_attempt_number r = k ∧ sr_status r ≠ RS.PENDING ∧
  (sr_status r = RS.WAITING_RETRY → ∃ t', sr_next_retry_at r = Some t' ∧ (t ≤ t')%Z).

Lemma retry_delay_frame r tid error k :
  calculate_retry_delay_seconds (set_last_error error (set_current_task_id tid r)) k
  = calculate_retry_delay_seconds r k.
Proof. by destruct r. Qed.

Lemma record_attempt_failure_held now error tid r :
  held_until (now + seconds (calculate_retry_delay_seconds r (sr_attempt_number r))) (sr_attempt_number r)
    (record_attempt_failure now error (set_current_task_id tid r)).
Proof.
  unfold record_attempt_failure, held_until. rewrite retry_delay_frame.
  destruct r; simpl. case_match; simpl; [|done]. split_and!; [done..|]. intros _. eexists. split; [done|lia].
Qed.

Lemma run_trans_held lo d now r r' k u :
  (lo ≤ now < lo + d)%Z → d = seconds (calculate_retry_delay_seconds r k) →
  held_until (lo + d) k r → run_trans now r r' → held_until (lo + d) k (set_run_updated_at u r').
Proof.
  intros Hnow -> (Hk & Hp & Hw) Ht.
  assert (held_until (lo + seconds (calculate_retry_delay_seconds r k)) k r'
    → held_until (lo + seconds (calculate_retry_delay_seconds r k)) k (set_run_updated_at u r')) as Hup
    by by destruct r'.
  apply Hup. clear Hup. destruct Ht as [u' Hf Hdue|tid u' Hf H1|tid error Hf H1|tid Hf H1|tid error Hf].
  - apply attempt_due_true in Hdue as [E|[E (t & Et & Hle)]]; [done|].
    destruct (Hw E) as (t' & Et' & Hle'). rewrite Et in Et'. injection Et' as <-. lia.
  - destruct r; unfold held_until; simpl in *. done.
  - destruct (record_attempt_failure_held now error tid r) as (A & B & C). split_and!; [congruence|done|].
    intros E. destruct (C E) as (t & Et & Hle). exists t. split; [done|]. rewrite Hk in Hle. lia.
  - destruct r; unfold held_until; simpl in *. done.
  - destruct r; unfold held_until; simpl in *. done.
Qed.

Lemma retry_delay_trans now r r' u k :
  run_trans now r r' →
  calculate_retry_delay_seconds (set_run_updated_at u r') k = calculate_retry_delay_seconds r k.
Proof.
  intros (_ & _ & _ & E1 & E2 & E3)%run_trans_frame. unfold calculate_retry_delay_seconds.
  destruct r'; simpl in *. by rewrite E1, E2, E3.
Qed.

(** The backoff is respected: when attempt [k] fails at time [now], no transaction of any
    process begins another attempt of the run before the delay computed for [k] has passed. *)
Theorem retry_waits_for_backoff db db' id r r' error tid u now :
  sched_inv db →
  schedule_runs db !! id = Some (set_run_updated_at u (record_attempt_failure now error (set_current_task_id tid r))) →
  sched_steps_during now (now + seconds (calculate_retry_delay_seconds r (sr_attempt_number r))) db db' →
  schedule_runs db' !! id = Some r' →
  sr_attempt_number r' = sr_attempt_number r.
Proof.
  set (k := sr_attempt_number r). set (d := seconds (calculate_retry_delay_seconds r k)).
  intros Hinv Hr Hs Hr'.
  assert (∀ x, schedule_runs db !! id = Some x →
    held_until (now + d) k x → d = seconds (calculate_retry_delay_seconds x k) →
    schedule_runs db' !! id = Some r' → held_until (now + d) k r') as Hgen.
  { clear Hr Hr'. induction Hs as [db|db1 db2 db3 (t & Ht & H) Hs IH]; intros x Hx Hh Hd Hr'; [naive_solver|].
    assert (sched_inv db2) as Hinv2 by by eapply inv_step.
    destruct (step_run _ _ _ _ _ Hinv H Hx) as [E|[E|(y & v & Hy & E)]].
    - by eapply IH.
    - exfalso. assert (id ∈ issued_run_ids db1) as Hi by (apply (si_issued _ Hinv); eauto).
      destruct (step_issued _ _ _ H) as [Hsub _].
      assert (sched_steps fk db2 db3) as Hs'.
      { clear -Hs. induction Hs as [|? ? ? (? & _ & ?)]; [constructor|]. eapply rtc_l; eauto. }
      destruct (steps_issued _ _ Hs') as [_ Hn]. rewrite (Hn id) in Hr'; set_solver.
    - eapply IH; [done|exact E| | |done].
      + by eapply run_trans_held.
      + rewrite (retry_delay_trans _ _ _ _ _ Hy). done. }
  edestruct Hgen as [E _]; [exact Hr| | |done|exact E].
  - destruct (record_attempt_failure_held now error tid r) as (A & B & C).
    revert A B C. destruct (record_attempt_failure _ _ _); unfold held_until; simpl. done.
  - unfold d. f_equal. unfold record_attempt_failure. destruct r; simpl. by case_match.
Qed.

End Inv.
