(* ===== verification/SchedFlow.v ===== *)
(** * Project scheduler: the manager

    Models [ProjectSchedulerManager] ([src/managers/project_scheduler.py]) and the part of
    [src/infra/task.py] that makes and enqueues the task of an attempt.

    A method is a program of the monad [SP] over the [SchedWorld]: the shared database, the jobs of
    the in-memory [AsyncIOScheduler], the wake-up event and the rows the current transaction has
    locked. Every statement that leaves the process is one numbered step. The environment
    ([SchedEnv]) answers, for every step: the clock, what other processes committed before it (never
    to a row this transaction has locked), what other coroutines of the process did to the jobs,
    whether it fails, and, if it fails, whether its effect took place nevertheless. *)
From S2P Require Import Prelude TaskTypes TaskStore TaskLifecycle Orchestrator SchedTypes SchedProtocol.

#[global] Instance ProjectScheduleRunRecord_eq_dec : EqDecision ProjectScheduleRunRecord.
Proof. solve_decision. Defined.

(** ** Environment *)

Inductive sched_exn :=
  | CancelledError
  | SQLIntegrityError
  | StaleDataError
  | ProjectNotFoundException (project_id : string)
  | ProjectScheduleNotFoundException (project_id : string)
  | UserNotFoundException
  | JobLookupError (job_id : string)
  | SchedValueError (msg : string)
  | TaskStoreError (e : task_error)
  | OtherError (msg : string).

Record job := mkJob {
  job_cron : string;
  job_next_run_time : option Z;
}.

Class SchedEnv := {
  se_coll :: Collation;
  se_fk : TaskRecord → bool;
  se_clock : nat → Z;
  se_uuid : nat → SchedDB → string;
  se_row_id : nat → TaskDB → string;
  se_fault : nat → option sched_exn;
  se_lost : nat → bool;
  se_row_locked : nat → string → bool;
  se_others : nat → gset string → gset string → SchedDB → SchedDB;
  se_other_jobs : nat → pydict job → pydict job;
  (** [CronTrigger.from_crontab]: [Some m] is its [ValueError]; and the trigger's next fire time. *)
  se_from_crontab : string → option string;
  se_next_fire_time : string → Z → option Z;
  (** The graph, pipeline, extension check and variables of the new task, serialized. *)
  se_prepare_task : nat → ProjectRow → UserRow → outcome string string;
  se_str : sched_exn → string;
  se_others_ok n rl sl db : sched_steps se_fk db (se_others n rl sl db);
  se_others_runs n rl sl db id :
    id ∈ rl → schedule_runs (se_others n rl sl db) !! id = schedule_runs db !! id;
  se_others_schedules n rl sl db id :
    id ∈ sl → schedules (se_others n rl sl db) !! id = schedules db !! id;
  se_uuid_new n db :
    (se_uuid n db ∉ issued_run_ids db) ∧ schedules db !! (se_uuid n db) = None ∧
    tasks (task_db db) !! (se_uuid n db) = None;
  se_row_id_new n db : se_row_id n db ∉ (ob_id <$> outbox db);
}.

Record SchedWorld := mkSchedWorld {
  sw_db : SchedDB;
  sw_jobs : pydict job;
  sw_wakeup : bool;
  sw_step : nat;
  sw_run_locks : gset string;
  sw_schedule_locks : gset string;
}.

Definition sw_set_db (x : SchedDB) (w : SchedWorld) : SchedWorld :=
  mkSchedWorld x (sw_jobs w) (sw_wakeup w) (sw_step w) (sw_run_locks w) (sw_schedule_locks w).
Definition sw_set_jobs (x : pydict job) (w : SchedWorld) : SchedWorld :=
  mkSchedWorld (sw_db w) x (sw_wakeup w) (sw_step w) (sw_run_locks w) (sw_schedule_locks w).
Definition sw_set_wakeup (x : bool) (w : SchedWorld) : SchedWorld :=
  mkSchedWorld (sw_db w) (sw_jobs w) x (sw_step w) (sw_run_locks w) (sw_schedule_locks w).
Definition sw_bump (w : SchedWorld) : SchedWorld :=
  mkSchedWorld (sw_db w) (sw_jobs w) (sw_wakeup w) (S (sw_step w)) (sw_run_locks w) (sw_schedule_locks w).
Definition sw_set_locks (rl sl : gset string) (w : SchedWorld) : SchedWorld :=
  mkSchedWorld (sw_db w) (sw_jobs w) (sw_wakeup w) (sw_step w) rl sl.

(** ** Programs *)

Definition SP (A : Type) : Type := SchedWorld → outcome sched_exn A * SchedWorld.

#[global] Instance SP_ret : MRet SP := λ A a w, (Ok a, w).
#[global] Instance SP_bind : MBind SP := λ A B f m w,
  match m w with
  | (Ok a, w') => f a w'
  | (Raise e, w') => (Raise e, w')
  end.

Definition throw {A} (e : sched_exn) : SP A := λ w, (Raise e, w).

(** [try: m except Exception as exc: handler exc]; [CancelledError] is no [Exception]. *)
Definition try_except {A} (m : SP A) (handler : sched_exn → SP A) : SP A := λ w,
  match m w with
  | (Ok a, w') => (Ok a, w')
  | (Raise CancelledError, w') => (Raise CancelledError, w')
  | (Raise e, w') => handler e w'
  end.

(** [try: m finally: f], where [f] only updates the process's own state. *)
Definition try_finally {A} (m : SP A) (f : SchedWorld → SchedWorld) : SP A := λ w,
  let '(o, w') := m w in (o, f w').

Definition sgets {A} (f : SchedWorld → A) : SP A := λ w, (Ok (f w), w).
Definition smodify (f : SchedWorld → SchedWorld) : SP () := λ w, (Ok (), f w).

Fixpoint sfor {A} (l : list A) (body : A → SP ()) : SP () :=
  match l with
  | [] => mret ()
  | x :: l' => _ ← body x; sfor l' body
  end.

Section Manager.
Context {env : SchedEnv}.

(** [_utcnow()] *)
Definition utcnow : SP Z := λ w, (Ok (se_clock (sw_step w)), sw_bump w).

(** What happened elsewhere before a step. *)
Definition arrive (w : SchedWorld) : SchedWorld :=
  let n := sw_step w in
  sw_bump (sw_set_jobs (se_other_jobs n (sw_jobs w))
    (sw_set_db (se_others n (sw_run_locks w) (sw_schedule_locks w) (sw_db w)) w)).

(** One statement or call with its effect on the database. *)
Definition effectful {A} (f : nat → SchedDB → outcome sched_exn (A * SchedDB)) : SP A := λ w,
  let n := sw_step w in
  let w' := arrive w in
  match se_fault n with
  | Some e =>
      (Raise e, if se_lost n then match f n (sw_db w') with
                                  | Ok (_, db) => sw_set_db db w'
                                  | Raise _ => w'
                                  end
                else w')
  | None =>
      match f n (sw_db w') with
      | Ok (a, db) => (Ok a, sw_set_db db w')
      | Raise e => (Raise e, w')
      end
  end.

(** [SELECT ...] *)
Definition select {A} (f : SchedDB → A) : SP A := effectful (λ _ db, Ok (f db, db)).

(** [SELECT ... FOR UPDATE SKIP LOCKED]: the row is locked until the session ends; a row that
    another transaction holds is not returned. *)
Definition select_for_update (f : SchedDB → option ProjectScheduleRunRecord)
    : SP (option ProjectScheduleRunRecord) :=
  n ← sgets sw_step;
  row ← select f;
  match row with
  | None => mret None
  | Some r =>
      if se_row_locked n (sr_id r) then mret None
      else _ ← smodify (λ w, sw_set_locks ({[sr_id r]} ∪ sw_run_locks w) (sw_schedule_locks w) w);
           mret (Some r)
  end.

(** [COMMIT] of the pending writes. *)
Definition commit_with (f : nat → SchedDB → SchedDB) : SP () := effectful (λ n db, Ok ((), f n db)).

(** [async with AsyncSession(engine) as session]: the locks end with it, whatever happens. *)
Definition in_session {A} (m : SP A) : SP A := try_finally m (sw_set_locks ∅ ∅).

(** The [UPDATE] of a loaded run: nothing when no attribute changed, and [updated_at] gets its
    [onupdate] value when it was not assigned a new one. *)
Definition flush_run (n : nat) (loaded run : ProjectScheduleRunRecord) : ProjectScheduleRunRecord :=
  if bool_decide (run = loaded) then run
  else if bool_decide (sr_updated_at run = sr_updated_at loaded)
  then set_run_updated_at (se_clock n) run else run.

Definition commit_run (loaded run : ProjectScheduleRunRecord) : SP () :=
  commit_with (λ n db, put_run (flush_run n loaded run) db).

(** ** [src/infra/task.py] *)

Definition sched_task_internal (task_id : string) (user : UserRow) (project : ProjectRow)
    (mode : PipelineExecutionMode) (force_exec : bool) (queued_at : Z)
    (schedule_run_id : string) (schedule_attempt : Z) (payload : string) : TaskInternal := {|
  ti_task_id := task_id;
  ti_user_id := us_id user;
  ti_organization_id := pj_organization_id project;
  ti_project_id := pj_id project;
  ti_mode := mode;
  ti_source := SCHEDULER;
  ti_force_exec := force_exec;
  ti_queued_at := queued_at;
  ti_schedule_run_id := Some schedule_run_id;
  ti_schedule_attempt := Some schedule_attempt;
  ti_payload := payload;
|}.

(** A transaction of the task repository. *)
Definition task_call {A} (f : nat → SchedDB → outcome task_error (A * TaskDB)) : SP A :=
  effectful (λ n db, match f n db with
                     | Ok (a, t) => Ok (a, set_task_db t db)
                     | Raise e => Raise (TaskStoreError e)
                     end).

Definition build_pending_task_from_project (project : ProjectRow) (user : UserRow)
    (mode : PipelineExecutionMode) (force_exec : bool) (schedule_run_id : string)
    (schedule_attempt : Z) : SP TaskInternal :=
  payload ← effectful (λ n db, match se_prepare_task n project user with
                               | Ok p => Ok (p, db)
                               | Raise m => Raise (OtherError m)
                               end);
  task_call (λ n db,
    let task := sched_task_internal (se_uuid n db) user project mode force_exec (se_clock n)
                  schedule_run_id schedule_attempt payload in
    match create_pending (task_fk se_fk db) (task_internal_to_execution task) (se_clock n) (task_db db) with
    | Ok (_, t) => Ok (task, t)
    | Raise e => Raise e
    end).

(** [orchestrator.enqueue_task]: the orchestrator's transaction for the request. *)
Definition orchestrator_enqueue_task (task : TaskInternal) : SP () :=
  task_call (λ n db,
    match enqueue_with_dispatch (task_fk se_fk db) (task_internal_to_execution task) (ti_payload task)
            (se_row_id n (task_db db)) (se_clock n) (task_db db) with
    | Ok (_, t) => Ok ((), t)
    | Raise e => Raise e
    end).

Definition enqueue_task_from_project (project : ProjectRow) (user : UserRow)
    (mode : PipelineExecutionMode) (force_exec : bool) (schedule_run_id : string)
    (schedule_attempt : Z) : SP TaskInternal :=
  task ← build_pending_task_from_project project user mode force_exec schedule_run_id schedule_attempt;
  _ ← try_except (orchestrator_enqueue_task task)
        (λ e, _ ← task_call (λ n db, Ok (fail_pending (ti_task_id task) None (Some "Failed task queue")
                                           (se_clock n) (task_db db)));
              throw e);
  mret task.

(** ** Run chains *)

Definition schedule_by_id (schedule_id : string) (db : SchedDB) : option ProjectScheduleRecord :=
  head (get_project_schedules_by (Some schedule_id) None None None db).
Definition schedule_by_project (project_id : string) (db : SchedDB) : option ProjectScheduleRecord :=
  head (get_project_schedules_by None (Some project_id) None None db).

Definition schedule_gone (s : option ProjectScheduleRecord) : bool :=
  match s with None => true | Some s => ps_disabled s end.

(** [create_project_schedule_run] with the commit that follows it. *)
Definition create_project_schedule_run (schedule : ProjectScheduleRecord) (scheduled_at created_at : Z)
    : SP bool :=
  effectful (λ n db,
    let run := new_run (se_uuid n db) schedule scheduled_at created_at in
    if insert_run_allowed db run
    then Ok (true, mkSchedDB (schedules db) (<[se_uuid n db := run]> (schedule_runs db)) (projects db)
                     (users db) (task_db db) ({[se_uuid n db]} ∪ issued_run_ids db))
    else Raise SQLIntegrityError).

Definition start_scheduled_run (project_id : string) : SP () :=
  now ← utcnow;
  created ← in_session (
    schedule ← select (λ db, head (get_project_schedules_by None (Some project_id) None (Some false) db));
    match schedule with
    | None => mret false
    | Some schedule =>
        active_run ← select (get_active_run (ps_id schedule));
        match active_run with
        | Some _ => mret false
        | None =>
            created_at ← utcnow;
            try_except (create_project_schedule_run schedule now created_at)
              (λ e, match e with SQLIntegrityError => mret false | _ => throw e end)
        end
    end);
  if created : bool then smodify (sw_set_wakeup true) else mret ().

Definition record_attempt_failure_by_id (run_id : string) (attempt_number : Z) (error : string) : SP () :=
  in_session (
    run ← select_for_update (get_run_by_id run_id);
    match run with
    | None => mret ()
    | Some run =>
        if negb (unfinished run) || negb (sr_attempt_number run =? attempt_number)%Z then mret ()
        else
          task ← select (get_attempt_task run_id attempt_number);
          now ← utcnow;
          let run' := match task with
                      | Some task => set_current_task_id (Some (tr_task_id task)) run
                      | None => run
                      end in
          let error := match task with
                       | Some task => or_str (tr_message task) (or_str (tr_termination_reason task) error)
                       | None => error
                       end in
          commit_run run (record_attempt_failure now error run')
    end).

(** The first session of [_enqueue_attempt]; [None] is its early return. *)
Definition enqueue_attempt_task (run_id : string) (attempt_number : Z) : SP (option TaskInternal) :=
  in_session (
    run ← select (get_run_by_id run_id);
    match run with
    | None => mret None
    | Some run =>
        if negb (unfinished run) || negb (sr_attempt_number run =? attempt_number)%Z then mret None
        else
          schedule ← select (schedule_by_id (sr_schedule_id run));
          match schedule with
          | None => mret None
          | Some schedule =>
              if ps_disabled schedule then mret None
              else
                user ← match sr_scheduled_by_user_id run with
                       | Some u => select (get_active_user u)
                       | None => mret None
                       end;
                user ← match user with
                       | Some u => mret u
                       | None =>
                           u ← select get_default_service_user;
                           match u with Some u => mret u | None => throw UserNotFoundException end
                       end;
                project ← select (λ db, projects db !! ps_project_id schedule);
                match project with
                | None => throw (ProjectNotFoundException (ps_project_id schedule))
                | Some project =>
                    task ← enqueue_task_from_project project user (sr_mode run) (sr_force_exec run)
                             run_id attempt_number;
                    mret (Some task)
                end
          end
    end).

(** The second session of [_enqueue_attempt]. *)
Definition confirm_attempt (run_id : string) (attempt_number : Z) (task_id : string) : SP () :=
  in_session (
    current_run ← select_for_update (get_run_by_id run_id);
    match current_run with
    | Some run =>
        if unfinished run && (sr_attempt_number run =? attempt_number)%Z then
          touched ← utcnow;
          commit_run run (mark_attempt_running task_id touched run)
        else mret ()
    | None => mret ()
    end).

Definition enqueue_attempt (run_id : string) (attempt_number : Z) : SP () :=
  try_finally
    (try_except
       (task ← enqueue_attempt_task run_id attempt_number;
        match task with
        | None => mret ()
        | Some task => confirm_attempt run_id attempt_number (ti_task_id task)
        end)
       (λ exc, record_attempt_failure_by_id run_id attempt_number (se_str exc)))
    (sw_set_wakeup true).

(** The transaction of [_reconcile_run]; the result is the attempt to start, if any. *)
Definition reconcile_transaction (run_id : string) (now : Z) : SP (option Z) :=
  in_session (
    run ← select_for_update (get_run_by_id run_id);
    match run with
    | None => mret None
    | Some run =>
        if negb (unfinished run) then mret None
        else
          schedule ← select (schedule_by_id (sr_schedule_id run));
          if schedule_gone schedule then
            _ ← commit_run run (finish_run RS.CANCELLED now (Some "Schedule disabled or deleted") run);
            mret None
          else if attempt_due now run then
            touched ← utcnow;
            let run' := begin_attempt now touched run in
            _ ← commit_run run run';
            mret (Some (sr_attempt_number run'))
          else if bool_decide (sr_status run ∈ [RS.STARTING; RS.RUNNING]) then
            task ← select (get_attempt_task run_id (sr_attempt_number run));
            match task with
            | None =>
                if lease_expired now run then
                  _ ← commit_run run
                        (record_attempt_failure now "Task start lease expired after 60 seconds" run);
                  mret None
                else mret None
            | Some task =>
                let run' := set_current_task_id (Some (tr_task_id task)) run in
                let '(run'', applied) := apply_task_result task now run' in
                if applied then _ ← commit_run run run''; mret None
                else
                  touched ← utcnow;
                  _ ← commit_run run (touch touched (set_run_status RS.RUNNING run'));
                  mret None
            end
          else mret None
    end).

Definition reconcile_run (run_id : string) : SP () :=
  now ← utcnow;
  attempt ← reconcile_transaction run_id now;
  match attempt with
  | Some attempt_number => enqueue_attempt run_id attempt_number
  | None => mret ()
  end.

Definition reconcile_once : SP nat :=
  now ← utcnow;
  runs ← in_session (select (get_reconcilable_runs now RECONCILE_BATCH_SIZE));
  _ ← sfor (sr_id <$> runs) reconcile_run;
  mret (length runs).

(** One round of [_reconcile_loop]: a failed pass is only logged. *)
Definition reconcile_round : SP () :=
  _ ← try_except (_ ← reconcile_once; mret ()) (λ _, mret ());
  smodify (sw_set_wakeup false).

(** ** Configuration *)

(** [_schedule_project_in_memory]: [add_job] with [replace_existing]. *)
Definition schedule_project_in_memory (project_id cron : string) (next_run_time : option Z) : SP () :=
  match se_from_crontab cron with
  | Some m => throw (SchedValueError m)
  | None =>
      now ← utcnow;
      let next := match next_run_time with Some t => Some t | None => se_next_fire_time cron now end in
      smodify (λ w, sw_set_jobs (dset (sw_jobs w) project_id (mkJob cron next)) w)
  end.

Definition get_job (job_id : string) : SP (option job) := sgets (λ w, dget (sw_jobs w) job_id).

Definition remove_job (job_id : string) : SP () := λ w,
  match dget (sw_jobs w) job_id with
  | Some _ => (Ok (), sw_set_jobs (dpop (sw_jobs w) job_id) w)
  | None => (Raise (JobLookupError job_id), w)
  end.

(** The loop of [init_from_project_schedules]. *)
Fixpoint restore_jobs (schedules : list ProjectScheduleRecord) (scheduled_count : nat) : SP nat :=
  match schedules with
  | [] => mret scheduled_count
  | schedule :: rest =>
      let cron := py_strip (ps_cron schedule) in
      if str_truthy cron then
        added ← try_except (_ ← schedule_project_in_memory (ps_project_id schedule) cron None; mret 1%nat)
                  (λ _, mret 0%nat);
        restore_jobs rest (scheduled_count + added)
      else restore_jobs rest scheduled_count
  end.

Definition init_from_project_schedules : SP nat :=
  schedules ← in_session (select (get_project_schedules_by None None None (Some false)));
  scheduled_count ← restore_jobs schedules 0;
  _ ← smodify (sw_set_wakeup true);
  mret scheduled_count.

(** The flush of an updated schedule: its row is locked, a missing row is a [StaleDataError]. *)
Definition flush_schedule_update (loaded new : ProjectScheduleRecord) : SP () :=
  _ ← effectful (λ _ db,
        match schedules db !! ps_id loaded with
        | None => Raise StaleDataError
        | Some stored =>
            if schedule_checks (flush_schedule loaded new stored)
               && user_fk db (ps_scheduled_by_user_id (flush_schedule loaded new stored))
            then Ok ((), db) else Raise SQLIntegrityError
        end);
  smodify (λ w, sw_set_locks (sw_run_locks w) ({[ps_id loaded]} ∪ sw_schedule_locks w) w).

Definition write_schedule (loaded new : ProjectScheduleRecord) (db : SchedDB) : SchedDB :=
  match schedules db !! ps_id loaded with
  | Some stored => put_schedule (flush_schedule loaded new stored) db
  | None => db
  end.

Definition create_project_schedule (id project_id cron : string) (scheduled_by_user_id : option string)
    (mode : PipelineExecutionMode) (force_exec : bool) (max_retries retry_delay_seconds : Z)
    (retry_backoff : RetryBackoff) (retry_max_delay_seconds created_at : Z) : ProjectScheduleRecord := {|
  ps_id := id;
  ps_project_id := project_id;
  ps_scheduled_by_user_id := scheduled_by_user_id;
  ps_cron := cron;
  ps_disabled := false;
  ps_mode := mode;
  ps_force_exec := force_exec;
  ps_max_retries := max_retries;
  ps_retry_delay_seconds := retry_delay_seconds;
  ps_retry_backoff := retry_backoff;
  ps_retry_max_delay_seconds := retry_max_delay_seconds;
  ps_created_at := created_at;
  ps_updated_at := created_at;
|}.

Definition check_crontab (cron : string) : SP () :=
  match se_from_crontab cron with Some m => throw (SchedValueError m) | None => mret () end.

Definition check_retry_policy (backoff : RetryBackoff) (delay max_delay : Z) : SP () :=
  match validate_retry_policy backoff delay max_delay with
  | Some m => throw (SchedValueError m)
  | None => mret ()
  end.

(** The session of [schedule_project]. *)
Definition schedule_session (project_id cron scheduled_by_user_id : string)
    (mode : PipelineExecutionMode) (force_exec : bool) (max_retries retry_delay_seconds : Z)
    (retry_backoff : RetryBackoff) (retry_max_delay_seconds : Z) : SP () :=
  in_session (
    project ← select (λ db, projects db !! project_id);
    match project with
    | None => throw (ProjectNotFoundException project_id)
    | Some _ =>
        schedule ← select (schedule_by_project project_id);
        now ← utcnow;
        match schedule with
        | None =>
            effectful (λ n db,
              let s := create_project_schedule (se_uuid n db) project_id cron (Some scheduled_by_user_id)
                         mode force_exec max_retries retry_delay_seconds retry_backoff
                         retry_max_delay_seconds now in
              if insert_schedule_allowed db s then Ok ((), put_schedule s db) else Raise SQLIntegrityError)
        | Some schedule =>
            let new := update_project_schedule
              (mkValues (Some cron) (Some false) (Some scheduled_by_user_id) (Some mode) (Some force_exec)
                 (Some max_retries) (Some retry_delay_seconds) (Some retry_backoff)
                 (Some retry_max_delay_seconds)) now schedule in
            _ ← flush_schedule_update schedule new;
            commit_with (λ _ db, write_schedule schedule new db)
        end
    end).

Definition schedule_project (project_id cron scheduled_by_user_id : string) (next_run_time : option Z)
    (mode : PipelineExecutionMode) (force_exec : bool) (max_retries retry_delay_seconds : Z)
    (retry_backoff : RetryBackoff) (retry_max_delay_seconds : Z) : SP () :=
  _ ← check_crontab cron;
  _ ← check_retry_policy retry_backoff retry_delay_seconds retry_max_delay_seconds;
  _ ← schedule_session project_id cron scheduled_by_user_id mode force_exec max_retries
        retry_delay_seconds retry_backoff retry_max_delay_seconds;
  schedule_project_in_memory project_id cron next_run_time.

(** [_cancel_active_run]: the run as loaded and as it will be written at the commit. *)
Definition cancel_active_run (schedule_id reason : string)
    : SP (option (ProjectScheduleRunRecord * ProjectScheduleRunRecord)) :=
  active_run ← select_for_update (get_active_run schedule_id);
  match active_run with
  | None => mret None
  | Some run =>
      now ← utcnow;
      mret (Some (run, finish_run RS.CANCELLED now (Some reason) run))
  end.

Definition write_cancelled (n : nat) (c : option (ProjectScheduleRunRecord * ProjectScheduleRunRecord))
    (db : SchedDB) : SchedDB :=
  match c with Some (loaded, run) => put_run (flush_run n loaded run) db | None => db end.

(** The values [patch_project_schedule] writes. *)
Definition patched_values (patch : ProjectSchedulePatchRequest) (s : ProjectScheduleRecord) : schedule_values :=
  mkValues (Some (or_keep (pp_cron patch) (ps_cron s))) (Some (or_keep (pp_disabled patch) (ps_disabled s)))
    (pp_scheduled_by_user_id patch) (Some (or_keep (pp_mode patch) (ps_mode s)))
    (Some (or_keep (pp_force_exec patch) (ps_force_exec s)))
    (Some (or_keep (pp_max_retries patch) (ps_max_retries s)))
    (Some (or_keep (pp_retry_delay_seconds patch) (ps_retry_delay_seconds s)))
    (Some (or_keep (pp_retry_backoff patch) (ps_retry_backoff s)))
    (Some (or_keep (pp_retry_max_delay_seconds patch) (ps_retry_max_delay_seconds s))).

Definition patch_project_schedule (project_id : string) (patch : ProjectSchedulePatchRequest) : SP () :=
  result ← in_session (
    schedule ← select (schedule_by_project project_id);
    match schedule with
    | None => throw (ProjectScheduleNotFoundException project_id)
    | Some schedule =>
        job ← get_job project_id;
        let current_job := if ps_disabled schedule then None else job in
        let cron := or_keep (pp_cron patch) (ps_cron schedule) in
        let disabled := or_keep (pp_disabled patch) (ps_disabled schedule) in
        _ ← check_retry_policy (or_keep (pp_retry_backoff patch) (ps_retry_backoff schedule))
              (or_keep (pp_retry_delay_seconds patch) (ps_retry_delay_seconds schedule))
              (or_keep (pp_retry_max_delay_seconds patch) (ps_retry_max_delay_seconds schedule));
        let cron_changed := bool_decide (cron ≠ ps_cron schedule) in
        let next_run_time := if cron_changed then None else j ← current_job; job_next_run_time j in
        _ ← (if disabled then mret () else check_crontab cron);
        now ← utcnow;
        let new := update_project_schedule (patched_values patch schedule) now schedule in
        _ ← flush_schedule_update schedule new;
        cancelled ← (if disabled then cancel_active_run (ps_id schedule) "Schedule disabled" else mret None);
        _ ← commit_with (λ n db, write_cancelled n cancelled (write_schedule schedule new db));
        mret (disabled, current_job, cron, next_run_time)
    end);
  let '(disabled, current_job, cron, next_run_time) := result in
  if disabled : bool then
    _ ← match current_job with Some _ => remove_job project_id | None => mret () end;
    smodify (sw_set_wakeup true)
  else schedule_project_in_memory project_id cron next_run_time.

Definition remove_job_if_present (project_id : string) : SP () :=
  job ← get_job project_id;
  match job with Some _ => remove_job project_id | None => mret () end.

(** The session of [unschedule_project]. *)
Definition unschedule_session (project_id : string) : SP () :=
  in_session (
    schedule ← select (schedule_by_project project_id);
    match schedule with
    | None => mret ()
    | Some schedule =>
        now ← utcnow;
        let new := update_project_schedule
          (mkValues None (Some true) None None None None None None None) now schedule in
        _ ← flush_schedule_update schedule new;
        cancelled ← cancel_active_run (ps_id schedule) "Schedule unscheduled";
        commit_with (λ n db, write_cancelled n cancelled (write_schedule schedule new db))
    end).

Definition unschedule_project (project_id : string) : SP () :=
  _ ← remove_job_if_present project_id;
  _ ← unschedule_session project_id;
  smodify (sw_set_wakeup true).

Definition delete_project_schedule (project_id : string) : SP () :=
  _ ← remove_job_if_present project_id;
  _ ← in_session (
    schedule ← select (schedule_by_project project_id);
    match schedule with
    | None => throw (ProjectScheduleNotFoundException project_id)
    | Some schedule =>
        _ ← cancel_active_run (ps_id schedule) "Schedule deleted";
        (* the cancelled run is deleted with its schedule in the same transaction *)
        commit_with (λ _ db, delete_project_schedule_rows (ps_id schedule) db)
    end);
  smodify (sw_set_wakeup true).

(** ** Getters *)

Definition to_schedule_response (schedule : ProjectScheduleRecord)
    (latest_run : option ProjectScheduleRunRecord) (jobs : pydict job) : ProjectScheduleResponse :=
  let job := if ps_disabled schedule then None else dget jobs (ps_project_id schedule) in
  mkResponse (ps_project_id schedule) (ps_cron schedule) (ps_disabled schedule)
    (ps_scheduled_by_user_id schedule) (ps_mode schedule) (ps_force_exec schedule)
    (ps_max_retries schedule) (ps_retry_delay_seconds schedule) (ps_retry_backoff schedule)
    (ps_retry_max_delay_seconds schedule)
    (j ← job; job_next_run_time j)
    (match job with Some _ => Some (ps_project_id schedule) | None => None end)
    ((λ r, mkChain (sr_id r) (sr_status r) (sr_attempt_number r) (sr_max_retries r + 1)
             (sr_current_task_id r) (sr_next_retry_at r) (sr_last_error r) (sr_created_at r)
             (sr_finished_at r)) <$> latest_run).

Definition get_scheduled_projects (organization_id : option string) : SP (list ProjectScheduleResponse) :=
  in_session (
    schedules ← select (get_project_schedules_by None None organization_id None);
    latest_runs ← select (get_latest_runs_by_schedule_ids (ps_id <$> schedules));
    jobs ← sgets sw_jobs;
    mret ((λ s, to_schedule_response s (dget latest_runs (ps_id s)) jobs) <$> schedules)).

Definition get_scheduled_project (project_id : string) : SP (option ProjectScheduleResponse) :=
  in_session (
    schedule ← select (schedule_by_project project_id);
    match schedule with
    | None => mret None
    | Some schedule =>
        latest_runs ← select (get_latest_runs_by_schedule_ids [ps_id schedule]);
        jobs ← sgets sw_jobs;
        mret (Some (to_schedule_response schedule (dget latest_runs (ps_id schedule)) jobs))
    end).

(** ** Commands: what the cron jobs, the reconcile loop and the HTTP routes call *)

Inductive sched_command :=
  | CronFired (project_id : string)
  | ReconcileRound
  | InitFromSchedules
  | ScheduleProject (project_id cron user_id : string) (next_run_time : option Z)
      (mode : PipelineExecutionMode) (force_exec : bool) (max_retries delay : Z)
      (backoff : RetryBackoff) (max_delay : Z)
  | PatchSchedule (project_id : string) (patch : ProjectSchedulePatchRequest)
  | UnscheduleProject (project_id : string)
  | DeleteSchedule (project_id : string)
  | GetScheduledProjects (organization_id : option string)
  | GetScheduledProject (project_id : string).

Definition run_command (c : sched_command) : SP () :=
  match c with
  | CronFired p => start_scheduled_run p
  | ReconcileRound => reconcile_round
  | InitFromSchedules => _ ← init_from_project_schedules; mret ()
  | ScheduleProject p cron u next mode force retries delay backoff max_delay =>
      schedule_project p cron u next mode force retries delay backoff max_delay
  | PatchSchedule p patch => patch_project_schedule p patch
  | UnscheduleProject p => unschedule_project p
  | DeleteSchedule p => delete_project_schedule p
  | GetScheduledProjects org => _ ← get_scheduled_projects org; mret ()
  | GetScheduledProject p => _ ← get_scheduled_project p; mret ()
  end.

(** A sequence of commands of one process; an exception ends only its own command. *)
Fixpoint run_commands (cs : list sched_command) (w : SchedWorld) : SchedWorld :=
  match cs with
  | [] => w
  | c :: cs' => run_commands cs' (run_command c w).2
  end.

End Manager.
