(* ===== verification/SchedRefine.v ===== *)
(** * Project scheduler: the manager implements the protocol

    A small program logic for the monad of [SchedFlow]: [ht P m Q] says that from a consistent
    database where [P] holds, [m] only commits transactions of the protocol, whatever the environment
    does, and ends in [Q] if it returns. The locks of a transaction are what makes an assertion about
    a row stable. The result is that every method of the manager refines the protocol. *)
From S2P Require Import Prelude TaskTypes TaskStore TaskLifecycle Orchestrator SchedTypes SchedProtocol SchedInv SchedFlow.

Section Logic.
Context {env : SchedEnv}.

Definition assertion : Type := SchedWorld → Prop.

(** Preserved by whatever happens before a step. *)
Definition stable (P : assertion) : Prop :=
  ∀ w, sched_inv (sw_db w) → P w → P (arrive w).

Definition ht {A} (P : assertion) (m : SP A) (Q : A → assertion) : Prop :=
  ∀ w, sched_inv (sw_db w) → P w →
    sched_steps se_fk (sw_db w) (sw_db (m w).2) ∧
    match (m w).1 with Ok a => Q a (m w).2 | Raise _ => True end.

Definition safe {A} (m : SP A) : Prop := ht (λ _, True) m (λ _ _, True).

Lemma ht_conseq {A} (P P' : assertion) (m : SP A) (Q Q' : A → assertion) :
  ht P' m Q' → (∀ w, P w → P' w) → (∀ a w, Q' a w → Q a w) → ht P m Q.
Proof.
  intros H HP HQ w Hi Hw. destruct (H w Hi (HP _ Hw)) as [H1 H2]. split; [done|].
  destruct ((m w).1); auto.
Qed.

Lemma ht_safe {A} (P : assertion) (m : SP A) Q : ht P m Q → ht P m (λ _ _, True).
Proof. intros H. by eapply ht_conseq. Qed.

Lemma ht_ret {A} (P : assertion) (a : A) (Q : A → assertion) :
  (∀ w, P w → Q a w) → ht P (mret a) Q.
Proof. intros H w _ Hw. split; [constructor|simpl; auto]. Qed.

Lemma ht_ret_safe {A} (P : assertion) (a : A) : ht P (mret a) (λ _ _, True).
Proof. by apply ht_ret. Qed.

Lemma ht_throw {A} (P : assertion) e (Q : A → assertion) : ht P (throw e) Q.
Proof. intros w _ _. split; [constructor|done]. Qed.

Lemma ht_bind {A B} (P : assertion) (m : SP A) (R : A → assertion) (f : A → SP B) Q :
  ht P m R → (∀ a, ht (R a) (f a) Q) → ht P (m ≫= f) Q.
Proof.
  intros Hm Hf w Hi Hw. destruct (Hm w Hi Hw) as [H1 H2].
  unfold mbind, SP_bind. destruct (m w) as [[a|e] w'] eqn:E; simpl in *; [|by split].
  assert (sched_inv (sw_db w')) as Hi' by by eapply inv_steps.
  destruct (Hf a w' Hi' H2) as [H3 H4]. split; [by etrans|done].
Qed.

Lemma ht_try_except {A} (P : assertion) (m : SP A) h Q :
  ht P m Q → (∀ e, ht (λ _, True) (h e) Q) → ht P (try_except m h) Q.
Proof.
  intros Hm Hh w Hi Hw. destruct (Hm w Hi Hw) as [H1 H2].
  unfold try_except. destruct (m w) as [[a|e] w'] eqn:E; simpl in *; [by split|].
  assert (sched_inv (sw_db w')) as Hi' by by eapply inv_steps.
  destruct (Hh e w' Hi' I) as [H3 H4].
  destruct e; simpl; (split; [by etrans|done]) || by split.
Qed.

Lemma ht_try_finally {A} (P : assertion) (m : SP A) f Q Q' :
  (∀ w, sw_db (f w) = sw_db w) → ht P m Q' → (∀ a w, Q' a w → Q a (f w)) → ht P (try_finally m f) Q.
Proof.
  intros Hf Hm HQ w Hi Hw. destruct (Hm w Hi Hw) as [H1 H2].
  unfold try_finally. destruct (m w) as [o w'] eqn:E; simpl in *. rewrite Hf. split; [done|].
  destruct o; auto.
Qed.

Lemma ht_in_session {A} (P : assertion) (m : SP A) Q :
  ht P m Q → (∀ a w, Q a w → Q a (sw_set_locks ∅ ∅ w)) → ht P (in_session m) Q.
Proof. intros Hm HQ. by eapply ht_try_finally. Qed.

Lemma ht_smodify (P : assertion) f (Q : () → assertion) :
  (∀ w, sw_db (f w) = sw_db w) → (∀ w, P w → Q () (f w)) → ht P (smodify f) Q.
Proof. intros Hf HQ w _ Hw. simpl. rewrite Hf. split; [constructor|auto]. Qed.

Lemma ht_sgets {A} (P : assertion) (f : SchedWorld → A) : ht P (sgets f) (λ _, P).
Proof. intros w _ Hw. simpl. split; [constructor|done]. Qed.

Lemma ht_utcnow (P : assertion) : (∀ w, P w → P (sw_bump w)) → ht P utcnow (λ _, P).
Proof. intros H w _ Hw. simpl. split; [constructor|auto]. Qed.

Lemma arrive_steps w : sched_steps se_fk (sw_db w) (sw_db (arrive w)).
Proof. apply se_others_ok. Qed.

Lemma ht_effectful {A} (P : assertion) f (Q : A → assertion) :
  stable P →
  (∀ n w a db, sched_inv (sw_db w) → P w → f n (sw_db w) = Ok (a, db) →
     sched_steps se_fk (sw_db w) db ∧ Q a (sw_set_db db w)) →
  ht P (effectful f) Q.
Proof.
  intros Hst Hf w Hi Hw. unfold effectful. pose proof (arrive_steps w) as Ha.
  assert (sched_inv (sw_db (arrive w))) as Hi' by by eapply inv_steps.
  pose proof (Hst w Hi Hw) as Hw'.
  destruct (f (sw_step w) (sw_db (arrive w))) as [[a db]|e] eqn:E.
  - destruct (Hf _ _ _ _ Hi' Hw' E) as [H1 H2].
    destruct (se_fault (sw_step w)); [destruct (se_lost (sw_step w))|]; simpl; split; auto; by etrans.
  - destruct (se_fault (sw_step w)); [destruct (se_lost (sw_step w))|]; simpl; by split.
Qed.

Lemma ht_select {A} (P : assertion) (f : SchedDB → A) :
  stable P → ht P (select f) (λ a w, P w ∧ sched_inv (sw_db w) ∧ a = f (sw_db w)).
Proof.
  intros Hst. apply ht_effectful; [done|]. intros n w a db Hi Hw [= <- <-]. split; [constructor|].
  destruct w; done.
Qed.

Lemma ht_select_safe {A} (P : assertion) (f : SchedDB → A) : stable P → ht P (select f) (λ _, P).
Proof. intros Hst. eapply ht_conseq; [by apply ht_select|done|]. by intros a w [? _]. Qed.

Lemma ht_commit (P : assertion) f (Q : () → assertion) :
  stable P →
  (∀ n w, sched_inv (sw_db w) → P w →
     sched_steps se_fk (sw_db w) (f n (sw_db w)) ∧ Q () (sw_set_db (f n (sw_db w)) w)) →
  ht P (commit_with f) Q.
Proof. intros Hst Hf. apply ht_effectful; [done|]. intros n w [] db Hi Hw [= <-]. by apply Hf. Qed.

Lemma ht_sfor {A} (P : assertion) (l : list A) (body : A → SP ()) :
  (∀ x, ht P (body x) (λ _, P)) → ht P (sfor l body) (λ _, P).
Proof.
  intros Hb. induction l as [|x l IH]; [by apply ht_ret|]. eapply ht_bind; [apply Hb|]. intros a. exact IH.
Qed.

(** ** Assertions *)

Lemma stable_true : stable (λ _, True).
Proof. by intros w. Qed.

Lemma stable_and (P R : assertion) : stable P → stable R → stable (λ w, P w ∧ R w).
Proof. intros HP HR w Hi [H1 H2]. split; auto. Qed.

Lemma stable_pure (φ : Prop) : stable (λ _, φ).
Proof. by intros w. Qed.

(** The transaction has locked the row [r] of a run. *)
Definition run_locked (r : ProjectScheduleRunRecord) : assertion := λ w,
  schedule_runs (sw_db w) !! sr_id r = Some r ∧ sr_id r ∈ sw_run_locks w.

Lemma stable_run_locked r : stable (run_locked r).
Proof.
  intros w Hi [H1 H2]. split; [|done]. unfold arrive; simpl. by rewrite se_others_runs.
Qed.

(** The transaction has locked the row of a schedule, which exists. *)
Definition schedule_locked (loaded new : ProjectScheduleRecord) : assertion := λ w,
  ps_id loaded ∈ sw_schedule_locks w ∧
  ∃ stored, schedules (sw_db w) !! ps_id loaded = Some stored ∧
            schedule_checks (flush_schedule loaded new stored) = true.

Lemma stable_schedule_locked l n : stable (schedule_locked l n).
Proof.
  intros w Hi [H1 H2]. split; [done|]. unfold arrive; simpl. by rewrite se_others_schedules.
Qed.

(** Attempt [k] of the run [rid] has begun, if the run still exists. *)
Definition begun (rid : string) (k : Z) : assertion := λ w,
  (1 ≤ k)%Z ∧ rid ∈ issued_run_ids (sw_db w) ∧
  ∀ r, schedule_runs (sw_db w) !! rid = Some r → (k ≤ sr_attempt_number r)%Z.

Lemma begun_steps rid k w w' :
  sched_inv (sw_db w) → sched_steps se_fk (sw_db w) (sw_db w') → begun rid k w → begun rid k w'.
Proof.
  intros Hi Hs (Hk & Hiss & Hb). destruct (steps_issued _ _ _ Hs) as [Hsub Hnone].
  split_and!; [done|set_solver|]. intros r' Hr'.
  destruct (schedule_runs (sw_db w) !! rid) as [r|] eqn:Hr; [|by rewrite Hnone in Hr'].
  eapply (steps_run_preserve se_fk (λ x, (k ≤ sr_attempt_number x)%Z)); [|done..|by apply Hb|done].
  intros now x x' u Hx Ht. destruct (run_trans_attempt _ _ _ Ht) as [E|[E _]];
    destruct x'; simpl in *; lia.
Qed.

Lemma stable_begun rid k : stable (begun rid k).
Proof. intros w Hi Hb. by eapply begun_steps; [| |apply Hb]; [|apply arrive_steps]. Qed.

Hint Resolve stable_true stable_and stable_pure stable_run_locked stable_schedule_locked stable_begun : core.

Lemma head_sorted_elem {B} (R : relation B) `{!RelDecision R} (l : list B) x :
  head (merge_sort R l) = Some x → x ∈ l.
Proof. intros H. apply (merge_sort_elem R). destruct (merge_sort R l); [done|]. injection H as ->. by left. Qed.

(** A query that returns stored runs. *)
Definition returns_runs (f : SchedDB → option ProjectScheduleRunRecord) : Prop :=
  ∀ db r, sched_inv db → f db = Some r → schedule_runs db !! sr_id r = Some r.

Lemma get_run_by_id_returns id : returns_runs (get_run_by_id id).
Proof. intros db r Hi Hr. unfold get_run_by_id in Hr. by rewrite (si_run_keys _ Hi _ _ Hr). Qed.

Lemma get_active_run_spec sid db r :
  sched_inv db → get_active_run sid db = Some r →
  schedule_runs db !! sr_id r = Some r ∧ sr_schedule_id r = sid ∧ sr_finished_at r = None.
Proof.
  intros Hi ((id & Hid) & ? & ?)%head_sorted_elem%elem_of_active_runs.
  by rewrite (si_run_keys _ Hi _ _ Hid).
Qed.

Lemma get_active_run_returns sid : returns_runs (get_active_run sid).
Proof. intros db r Hi Hr. by apply get_active_run_spec in Hr as (? & _). Qed.

Lemma ht_select_for_update (P : assertion) f (T : ProjectScheduleRunRecord → Prop) :
  stable P → (∀ rl w, P w → P (sw_set_locks rl (sw_schedule_locks w) w)) → returns_runs f →
  (∀ db r, sched_inv db → f db = Some r → T r) →
  ht P (select_for_update f) (λ o w, match o with Some r => P w ∧ run_locked r w ∧ T r | None => P w end).
Proof.
  intros Hst Hlk Hf HT. unfold select_for_update. eapply ht_bind; [apply ht_sgets|]. intros n.
  eapply ht_bind; [by apply ht_select|]. intros [r|]; [|apply ht_ret; by intros w (? & _)].
  destruct (se_row_locked n (sr_id r)); [apply ht_ret; by intros w (? & _)|].
  apply (ht_bind _ _ (λ _ w, P w ∧ run_locked r w ∧ T r)); [|intros []; by apply ht_ret].
  apply ht_smodify; [done|]. intros w (Hw & Hi & E). symmetry in E.
  split_and!; [by apply Hlk|split; simpl; [by apply Hf|set_solver]|by eapply HT].
Qed.

(** Writing back a locked run that took a step of its automaton. *)
Lemma ht_commit_run (P : assertion) loaded now run (Q : () → assertion) :
  stable P → (∀ w, P w → run_locked loaded w) → (run_trans now loaded run) →
  (∀ w u, P w → Q () (sw_set_db (put_run (set_run_updated_at u run) (sw_db w)) w)) →
  ht P (commit_run loaded run) Q.
Proof.
  intros Hst HP Ht HQ. apply ht_commit; [done|]. intros n w Hi Hw.
  destruct (HP w Hw) as [Hl _].
  assert (∃ u, flush_run n loaded run = set_run_updated_at u run) as [u ->].
  { unfold flush_run. repeat case_bool_decide; eauto; exists (sr_updated_at run); by destruct run. }
  split; [|by apply HQ]. apply rtc_once. exists now. by eapply ss_run.
Qed.

(** ** Tasks of attempts *)

Lemma enqueue_new_columns ok e payload row_id now db x db' id r :
  keys_ok db → enqueue_with_dispatch ok e payload row_id now db = Ok (x, db') →
  tasks db !! id = None → tasks db' !! id = Some r →
  schedule_columns r = (te_schedule_run_id e, te_schedule_attempt e).
Proof.
  intros Hk H Hn Hr. unfold enqueue_with_dispatch in H.
  destruct (tasks db !! te_task_id e) as [t|] eqn:E.
  - exfalso. assert (no_new_rows db db') as Hnn; [|by rewrite (Hnn _ Hn) in Hr].
    case_bool_decide; [|case_bool_decide]; injection H as H;
      [apply (f_equal snd) in H; simpl in H; subst db'..|by simplify_eq].
    + etrans; [|apply no_new_rows_enqueue_queued]. apply (no_new_rows_put _ t).
      rewrite <-E. f_equal. rewrite <-(Hk _ _ E). by destruct t.
    + apply no_new_rows_enqueue_queued.
  - case_match; [|done]. injection H as H. apply (f_equal snd) in H; simpl in H; subst db'.
    destruct (decide (id = te_task_id e)) as [->|Hne].
    + pose proof (enqueue_queued_evolves e payload row_id now (new_task_record e QUEUED now)
        (db_put (new_task_record e QUEUED now) db) (db_put_keys _ _ Hk)) as [_ Hev].
      specialize (Hev (te_task_id e)). unfold db_put in Hev at 1; simpl in Hev.
      rewrite lookup_insert_eq, Hr in Hev. by apply rtc_row_step_columns in Hev.
    + rewrite no_new_rows_enqueue_queued in Hr; [done|]. unfold db_put; simpl.
      by rewrite lookup_insert_ne by done.
Qed.

Lemma create_new_columns ok e now db x db' id r :
  create_pending ok e now db = Ok (x, db') → tasks db !! id = None → tasks db' !! id = Some r →
  schedule_columns r = (te_schedule_run_id e, te_schedule_attempt e).
Proof.
  unfold create_pending. intros H Hn Hr. destruct (tasks db !! te_task_id e); [simplify_eq|].
  case_match; simplify_eq. unfold db_put in Hr; simpl in Hr. rewrite lookup_insert in Hr.
  case_decide; simplify_eq; done.
Qed.

(** A transaction of the repository whose new rows belong to a begun attempt. *)
Lemma ht_task_call {A} (P : assertion) rid k f (Q : A → assertion) :
  stable P → (∀ w, P w → begun rid k w) →
  (∀ n w a t, P w → sched_inv (sw_db w) → f n (sw_db w) = Ok (a, t) →
     task_step (task_fk se_fk (sw_db w)) (task_db (sw_db w)) t ∧
     (∀ id r, tasks (task_db (sw_db w)) !! id = None → tasks t !! id = Some r →
        schedule_columns r = (Some rid, Some k)) ∧
     Q a (sw_set_db (set_task_db t (sw_db w)) w)) →
  ht P (task_call f) Q.
Proof.
  intros Hst HP Hf. apply ht_effectful; [done|]. intros n w a db Hi Hw E.
  destruct (f n (sw_db w)) as [[a' t]|e] eqn:Ef; [|done]. injection E as -> <-.
  destruct (Hf _ _ _ _ Hw Hi Ef) as (Hs & Hc & HQ). split; [|done].
  apply rtc_once. exists 0%Z. apply ss_tasks; [done|]. intros id r Hr Hn rid' Hrid.
  pose proof (Hc _ _ Hn Hr) as [= E1 E2]. assert (rid' = rid) as -> by congruence.
  pose proof (task_step_origin _ _ _ _ _ (si_task_keys _ Hi) Hs Hr) as [(r0 & Hr0 & _)|(_ & r0 & _ & Hins & Hcol)];
    [congruence|].
  assert (is_Some (schedule_runs (sw_db w) !! rid)) as [run Hrun].
  { apply task_fk_run with se_fk r0.
    - unfold insert_allowed in Hins. rewrite !andb_true_iff in Hins. by destruct Hins as [[? _] _].
    - injection Hcol. congruence. }
  destruct (HP w Hw) as (Hk1 & _ & Hk2). exists run, k. split_and!; [done|done|lia|by apply Hk2].
Qed.

Definition task_of (rid : string) (k : Z) (task : TaskInternal) : Prop :=
  ti_schedule_run_id task = Some rid ∧ ti_schedule_attempt task = Some k.

Lemma begun_task_db rid k t w :
  begun rid k w → begun rid k (sw_set_db (set_task_db t (sw_db w)) w).
Proof. done. Qed.

Lemma ht_build_pending project user mode force rid k :
  ht (begun rid k) (build_pending_task_from_project project user mode force rid k)
     (λ task w, begun rid k w ∧ task_of rid k task).
Proof.
  unfold build_pending_task_from_project. apply (ht_bind _ _ (λ _, begun rid k)).
  - apply ht_effectful; [done|]. intros n w a db Hi Hw E.
    destruct (se_prepare_task n project user); [|done]. injection E as <- <-. split; [constructor|].
    by destruct w.
  - intros payload. apply (ht_task_call _ rid k); [done..|]. intros n w a t Hw Hi E.
    destruct (create_pending _ _ _ _) as [[x t']|] eqn:Ec; [|done]. injection E as <- <-.
    split_and!; [by eapply ts_create| |by apply begun_task_db|done].
    intros id r Hn Hr. by apply (create_new_columns _ _ _ _ _ _ _ _ Ec Hn Hr).
Qed.

Lemma ht_orchestrator_enqueue rid k task :
  task_of rid k task → ht (begun rid k) (orchestrator_enqueue_task task) (λ _ _, True).
Proof.
  intros [T1 T2]. apply (ht_task_call _ rid k); [done..|]. intros n w a t Hw Hi E.
  destruct (enqueue_with_dispatch _ _ _ _ _ _) as [[x t']|] eqn:Ee; [|done]. injection E as _ <-.
  split_and!; [eapply ts_enqueue; [apply se_row_id_new|done]| |done].
  intros id r Hn Hr. rewrite <-T1, <-T2.
  apply (enqueue_new_columns _ _ _ _ _ _ _ _ _ _ (si_task_keys _ Hi) Ee Hn Hr).
Qed.

Lemma ht_fail_pending tid msg :
  safe (task_call (λ n db, Ok (fail_pending tid None msg (se_clock n) (task_db db)))).
Proof.
  apply ht_effectful; [done|]. intros n w a db Hi _ E.
  destruct (fail_pending _ _ _ _ _) as [x t'] eqn:Ef. injection E as <- <-. split; [|done].
  apply rtc_once. exists 0%Z. apply ss_tasks.
  - pose proof (ts_fail_pending (task_fk se_fk (sw_db w)) (task_db (sw_db w)) tid None msg (se_clock n)) as Hs.
    rewrite Ef in Hs. apply Hs. set_solver.
  - intros id r Hr Hn. apply fail_pending_cases in Ef as [->|(r0 & r1 & _ & -> & Hr0 & _ & Hs & _)];
      [congruence| |set_solver].
    exfalso. assert (no_new_rows (task_db (sw_db w)) (db_put r1 (task_db (sw_db w)))) as Hnn.
    { apply (no_new_rows_put _ r0). by rewrite (row_step_task_id _ _ Hs), (si_task_keys _ Hi _ _ Hr0). }
    by rewrite (Hnn _ Hn) in Hr.
Qed.

Lemma ht_enqueue_task project user mode force rid k :
  ht (begun rid k) (enqueue_task_from_project project user mode force rid k) (λ _ _, True).
Proof.
  unfold enqueue_task_from_project. eapply ht_bind; [apply ht_build_pending|]. intros task.
  apply (ht_bind _ _ (λ _ _, True)); [|intros; by apply ht_ret].
  apply ht_try_except.
  - intros w Hi [Hb Ht]. by apply (ht_orchestrator_enqueue rid k).
  - intros e. eapply ht_bind; [apply ht_fail_pending|]. intros; apply ht_throw.
Qed.

(** ** Run chains *)

Lemma unfinished_true r : unfinished r = true ↔ sr_finished_at r = None.
Proof. unfold unfinished. apply bool_decide_eq_true. Qed.

Lemma attempt_guard r k :
  negb (unfinished r) || negb (sr_attempt_number r =? k)%Z = false →
  sr_finished_at r = None ∧ sr_attempt_number r = k.
Proof. rewrite orb_false_iff, !negb_false_iff, unfinished_true, Z.eqb_eq. done. Qed.

Lemma safe_record_failure_by_id rid k error : (1 ≤ k)%Z → safe (record_attempt_failure_by_id rid k error).
Proof.
  intros Hk. apply ht_in_session; [|done].
  eapply ht_bind; [apply (ht_select_for_update _ _ (λ _, True)); auto using get_run_by_id_returns|].
  intros [r|]; [|by apply ht_ret]. simpl.
  destruct (_ || _) eqn:Hg; [by apply ht_ret|]. apply attempt_guard in Hg as [Hf Ha].
  apply (ht_bind _ _ (λ _, run_locked r)).
  { eapply ht_conseq; [by apply (ht_select_safe (run_locked r))|by intros w (_ & ? & _)|done]. }
  intros task. eapply ht_bind; [by apply ht_utcnow|]. intros now. simpl.
  destruct task as [task|].
  - eapply ht_commit_run; [done|done|apply rt_failed; [done|lia]|done].
  - eapply ht_commit_run; [done|done|apply rt_failed_same; [done|lia]|done].
Qed.

Lemma safe_confirm_attempt rid k tid : (1 ≤ k)%Z → safe (confirm_attempt rid k tid).
Proof.
  intros Hk. apply ht_in_session; [|done].
  eapply ht_bind; [apply (ht_select_for_update _ _ (λ _, True)); auto using get_run_by_id_returns|].
  intros [r|]; [|by apply ht_ret]. simpl.
  destruct (_ && _) eqn:Hg; [|by apply ht_ret]. rewrite andb_true_iff, unfinished_true, Z.eqb_eq in Hg.
  destruct Hg as [Hf Ha].
  apply (ht_bind _ _ (λ _, run_locked r)).
  { eapply ht_conseq; [apply (ht_utcnow (run_locked r)); done|by intros w (_ & ? & _)|done]. }
  intros now. eapply (ht_commit_run _ _ 0); [done|done|apply rt_running; [done|lia]|done].
Qed.

Lemma safe_enqueue_attempt_task rid k : (1 ≤ k)%Z → safe (enqueue_attempt_task rid k).
Proof.
  intros Hk. apply ht_in_session; [|done].
  eapply ht_bind; [by apply ht_select|]. intros [r|]; [|by apply ht_ret].
  destruct (_ || _) eqn:Hg; [by apply ht_ret|]. apply attempt_guard in Hg as [Hf Ha].
  apply (ht_bind _ _ (λ _, begun rid k)).
  { eapply ht_conseq; [by apply (ht_select_safe (begun rid k))| |done].
    intros w (_ & Hi & E). symmetry in E. unfold get_run_by_id in E.
    split_and!; [done|apply (si_issued _ Hi); eauto|]. intros r' Hr'. assert (r' = r) as -> by congruence. lia. }
  intros [s|]; [|by apply ht_ret]. destruct (ps_disabled s); [by apply ht_ret|].
  apply (ht_bind _ _ (λ _, begun rid k)).
  { destruct (sr_scheduled_by_user_id r); [by apply ht_select_safe|by apply ht_ret]. }
  intros user. apply (ht_bind _ _ (λ _, begun rid k)).
  { destruct user; [by apply ht_ret|]. eapply ht_bind; [by apply ht_select_safe|].
    intros [u|]; [by apply ht_ret|apply ht_throw]. }
  intros u. eapply ht_bind; [by apply ht_select_safe|]. intros [p|]; [|apply ht_throw].
  eapply ht_bind; [apply ht_enqueue_task|]. intros; by apply ht_ret.
Qed.

Lemma safe_enqueue_attempt rid k : (1 ≤ k)%Z → safe (enqueue_attempt rid k).
Proof.
  intros Hk. eapply ht_try_finally; [done| |done]. apply ht_try_except.
  - eapply ht_bind; [by apply safe_enqueue_attempt_task|].
    intros [task|]; [by apply safe_confirm_attempt|by apply ht_ret].
  - intros e. by apply safe_record_failure_by_id.
Qed.

Lemma apply_task_result_trans task now r r' :
  sr_finished_at r = None → (1 ≤ sr_attempt_number r)%Z →
  apply_task_result task now (set_current_task_id (Some (tr_task_id task)) r) = (r', true) →
  run_trans now r r'.
Proof.
  intros Hf H1. unfold apply_task_result. destruct (tr_status task); intros [= <-]; by constructor.
Qed.

Lemma run_begun_attempt r :
  run_ok r → sr_status r ∈ [RS.STARTING; RS.RUNNING] → (1 ≤ sr_attempt_number r)%Z.
Proof. intros Hok Hin. apply (ro_begun _ Hok). set_solver. Qed.

Lemma apply_task_result_same task now r r' :
  apply_task_result task now r = (r', false) → r' = r.
Proof. unfold apply_task_result. destruct (tr_status task); by intros [= <-]. Qed.

Lemma ht_reconcile_transaction rid now :
  ht (λ _, True) (reconcile_transaction rid now) (λ o _, match o with Some k => (1 ≤ k)%Z | None => True end).
Proof.
  apply ht_in_session; [|done].
  eapply ht_bind; [apply (ht_select_for_update _ _ run_ok); auto using get_run_by_id_returns|].
  { intros db r Hi Hr. by eapply si_runs. }
  intros [r|]; [|by apply ht_ret]. simpl.
  destruct (unfinished r) eqn:Hu; simpl; [|by apply ht_ret]. apply unfinished_true in Hu.
  apply (ht_bind _ _ (λ _ w, run_locked r w ∧ run_ok r)).
  { eapply ht_conseq; [apply (ht_select_safe (λ w, run_locked r w ∧ run_ok r)); auto|by intros w (_ & ?)|done]. }
  intros schedule.
  assert (∀ (φ : Prop) (m : SP (option Z)) Q, (run_ok r → ht (run_locked r) m Q) →
    ht (λ w, run_locked r w ∧ run_ok r) m Q) as Hpure.
  { intros φ m Q Hm w Hi [Hl Hok]. by apply Hm. }
  apply (Hpure True). clear Hpure. intros Hok.
  assert (∀ run' (x : option Z), run_trans now r run' → (∀ k, x = Some k → (1 ≤ k)%Z) →
    ht (run_locked r) (_ ← commit_run r run'; mret x)
       (λ o _, match o with Some k => (1 ≤ k)%Z | None => True end)) as Hc.
  { intros run' x Ht Hx. apply (ht_bind _ _ (λ _ _, True)).
    - by eapply ht_commit_run.
    - intros []. apply ht_ret. intros w _. destruct x; auto. }
  destruct (schedule_gone schedule).
  { apply Hc; [|done]. by apply rt_cancelled_same. }
  destruct (attempt_due now r) eqn:Hdue.
  { eapply ht_bind; [by apply ht_utcnow|]. intros touched. simpl. apply Hc; [by apply rt_begin|].
    intros k [= <-]. pose proof (ro_attempt _ Hok). destruct r; simpl in *; lia. }
  case_bool_decide as Hst; [|by apply ht_ret].
  pose proof (run_begun_attempt _ Hok Hst) as H1.
  eapply ht_bind; [by apply ht_select_safe|]. intros [task|].
  - destruct (apply_task_result _ _ _) as [r' applied] eqn:Ea. destruct applied.
    + apply Hc; [|done]. by apply apply_task_result_trans in Ea.
    + eapply ht_bind; [by apply ht_utcnow|]. intros touched. apply Hc; [|done]. by apply rt_running.
  - destruct (lease_expired now r); [|by apply ht_ret]. apply Hc; [|done]. by apply rt_failed_same.
Qed.

Lemma safe_reconcile_run rid : safe (reconcile_run rid).
Proof.
  eapply ht_bind; [by apply ht_utcnow|]. intros now. eapply ht_bind; [apply ht_reconcile_transaction|].
  intros [k|]; [|by apply ht_ret]. intros w Hi Hk. by apply safe_enqueue_attempt.
Qed.

Lemma safe_reconcile_once : safe reconcile_once.
Proof.
  eapply ht_bind; [by apply ht_utcnow|]. intros now.
  eapply ht_bind; [apply ht_in_session; [by apply (ht_select_safe (λ _, True))|done]|]. intros runs.
  eapply ht_bind; [apply ht_sfor, safe_reconcile_run|]. intros; by apply ht_ret.
Qed.

Lemma safe_reconcile_round : safe reconcile_round.
Proof.
  apply (ht_bind _ _ (λ _ _, True)); [|intros; by apply ht_smodify]. apply ht_try_except; [|intros; by apply ht_ret].
  eapply ht_bind; [apply safe_reconcile_once|]. intros; by apply ht_ret.
Qed.

(** ** Configuration *)

Lemma safe_create_run s now created : safe (create_project_schedule_run s now created).
Proof.
  apply ht_effectful; [done|]. intros n w a db Hi _ E.
  cbv zeta in E. destruct (insert_run_allowed _ _) eqn:Hins; [|done]. injection E as <- <-. split; [|done].
  apply rtc_once. exists now. by apply ss_create_run; [apply se_uuid_new|].
Qed.

Lemma safe_start_scheduled_run p : safe (start_scheduled_run p).
Proof.
  eapply ht_bind; [by apply ht_utcnow|]. intros now. apply (ht_bind _ _ (λ _ _, True)).
  - apply ht_in_session; [|done]. eapply ht_bind; [by apply ht_select_safe|].
    intros [s|]; [|by apply ht_ret]. eapply ht_bind; [by apply ht_select_safe|].
    intros [r|]; [by apply ht_ret|]. eapply ht_bind; [by apply ht_utcnow|]. intros created.
    apply ht_try_except; [apply safe_create_run|]. intros []; try apply ht_throw. by apply ht_ret.
  - intros []; [by apply ht_smodify|by apply ht_ret].
Qed.

Lemma safe_check_crontab (P : assertion) cron : ht P (check_crontab cron) (λ _, P).
Proof. unfold check_crontab. destruct (se_from_crontab cron); [apply ht_throw|by apply ht_ret]. Qed.

Lemma safe_check_retry_policy (P : assertion) b d m : ht P (check_retry_policy b d m) (λ _, P).
Proof. unfold check_retry_policy. case_match; [apply ht_throw|by apply ht_ret]. Qed.

Lemma safe_schedule_in_memory p cron next : safe (schedule_project_in_memory p cron next).
Proof.
  unfold schedule_project_in_memory. destruct (se_from_crontab cron); [apply ht_throw|].
  eapply ht_bind; [by apply ht_utcnow|]. intros; by apply ht_smodify.
Qed.

Lemma ht_flush_schedule_update loaded new :
  ht (λ _, True) (flush_schedule_update loaded new) (λ _, schedule_locked loaded new).
Proof.
  unfold flush_schedule_update. eapply (ht_bind _ _ (λ _ w, ∃ stored,
    schedules (sw_db w) !! ps_id loaded = Some stored ∧
    schedule_checks (flush_schedule loaded new stored) = true)).
  - apply ht_effectful; [done|]. intros n w a db Hi _ E.
    destruct (schedules (sw_db w) !! ps_id loaded) as [stored|] eqn:El; [|done].
    destruct (_ && _) eqn:Hc; [|done]. injection E as <- <-. apply andb_true_iff in Hc as [Hc _].
    split; [constructor|]. simpl. eauto.
  - intros _. apply ht_smodify; [done|]. intros w Hw. split; [set_solver|done].
Qed.

Lemma flush_schedule_frame loaded new stored :
  ps_id (flush_schedule loaded new stored) = ps_id stored ∧
  ps_project_id (flush_schedule loaded new stored) = ps_project_id stored.
Proof. done. Qed.

Lemma ht_commit_schedule loaded new (P : assertion) :
  stable P → (∀ w, P w → schedule_locked loaded new w) →
  ht P (commit_with (λ _ db, write_schedule loaded new db)) (λ _ _, True).
Proof.
  intros Hst HP. apply ht_commit; [done|]. intros n w Hi Hw. split; [|done].
  destruct (HP w Hw) as (_ & stored & El & Hc). unfold write_schedule. rewrite El.
  pose proof (si_schedule_keys _ Hi _ _ El) as Hid.
  apply rtc_once. exists 0%Z. apply (ss_update_schedule _ _ _ stored); by rewrite ?Hid.
Qed.

Definition cancel_pending (c : option (ProjectScheduleRunRecord * ProjectScheduleRunRecord)) : assertion := λ w,
  match c with
  | Some (loaded, run) => run_locked loaded w ∧ ∃ now, run_trans now loaded run
  | None => True
  end.

Lemma stable_cancel_pending c : stable (cancel_pending c).
Proof.
  destruct c as [[l r]|]; [|done]. intros w Hi [H1 H2]. split; [|done]. by apply stable_run_locked.
Qed.

Lemma flush_run_updated n loaded run : ∃ u, flush_run n loaded run = set_run_updated_at u run.
Proof.
  unfold flush_run. repeat case_bool_decide; eauto; exists (sr_updated_at run); by destruct run.
Qed.

Lemma ht_cancel_active_run loaded new sid reason :
  ht (schedule_locked loaded new) (cancel_active_run sid reason)
     (λ c w, schedule_locked loaded new w ∧ cancel_pending c w).
Proof.
  eapply ht_bind.
  { apply (ht_select_for_update _ _ (λ r, sr_finished_at r = None)); auto using get_active_run_returns.
    intros db r Hi Hr. by eapply get_active_run_spec. }
  intros [r|]; [|by apply ht_ret].
  eapply ht_bind; [by apply ht_utcnow|]. intros now. apply ht_ret.
  intros w (Hs & Hl & Hf). split; [done|]. split; [done|]. exists now. by apply rt_cancelled_same.
Qed.

(** The commit of an updated schedule together with its cancelled run. *)
Lemma ht_commit_disabled loaded new c :
  ht (λ w, schedule_locked loaded new w ∧ cancel_pending c w)
     (commit_with (λ n db, write_cancelled n c (write_schedule loaded new db))) (λ _ _, True).
Proof.
  destruct c as [[l r]|].
  - apply ht_commit; [auto using stable_cancel_pending|]. intros n w Hi [Hs [[Hl _] [now Ht]]]. split; [|done].
    destruct Hs as (_ & stored & El & Hc). simpl. unfold write_schedule. rewrite El.
    pose proof (si_schedule_keys _ Hi _ _ El) as Hid.
    destruct (flush_run_updated n l r) as [u ->]. apply rtc_once. exists now.
    apply (ss_disable _ _ _ stored _ l); by rewrite ?Hid.
  - simpl. apply ht_commit_schedule; [auto using stable_cancel_pending|by intros w [? _]].
Qed.

Lemma safe_schedule_session p cron u mode force retries delay backoff max_delay :
  safe (schedule_session p cron u mode force retries delay backoff max_delay).
Proof.
  apply ht_in_session; [|done]. eapply ht_bind; [by apply ht_select_safe|].
  intros [project|]; [|apply ht_throw]. eapply ht_bind; [by apply ht_select_safe|].
  intros schedule. eapply ht_bind; [by apply ht_utcnow|]. intros now. destruct schedule as [s|].
  - eapply ht_bind; [apply ht_flush_schedule_update|]. intros ?.
    by apply (ht_commit_schedule _ _ (schedule_locked _ _)).
  - apply ht_effectful; [done|]. intros n w x db Hi _ E.
    cbv zeta in E. destruct (insert_schedule_allowed _ _) eqn:Hins; [|done]. injection E as <- <-. split; [|done].
    apply rtc_once. exists 0%Z. apply ss_insert_schedule; [apply se_uuid_new|done].
Qed.

Lemma safe_schedule_project p cron u next mode force retries delay backoff max_delay :
  safe (schedule_project p cron u next mode force retries delay backoff max_delay).
Proof.
  eapply ht_bind; [apply safe_check_crontab|]. intros ?.
  eapply ht_bind; [apply safe_check_retry_policy|]. intros ?.
  eapply ht_bind; [apply safe_schedule_session|]. intros; apply safe_schedule_in_memory.
Qed.

Lemma safe_remove_job p : safe (remove_job p).
Proof. intros w Hi _. unfold remove_job. destruct (dget (sw_jobs w) p); simpl; split; done || constructor. Qed.

Lemma safe_patch_project_schedule p patch : safe (patch_project_schedule p patch).
Proof.
  unfold patch_project_schedule. apply (ht_bind _ _ (λ _ _, True)).
  - apply ht_in_session; [|done]. eapply ht_bind; [by apply ht_select_safe|].
    intros [s|]; [|apply ht_throw]. eapply ht_bind; [apply ht_sgets|]. intros job.
    eapply ht_bind; [apply safe_check_retry_policy|]. intros ?.
    apply (ht_bind _ _ (λ _ _, True)).
    { destruct (or_keep _ (ps_disabled s)); [by apply ht_ret|apply safe_check_crontab]. }
    intros ?. eapply ht_bind; [by apply ht_utcnow|]. intros now.
    eapply ht_bind; [apply ht_flush_schedule_update|]. intros ?.
    eapply ht_bind.
    { destruct (or_keep _ (ps_disabled s)); [apply ht_cancel_active_run|by apply ht_ret]. }
    intros c. eapply ht_bind; [apply ht_commit_disabled|]. intros; by apply ht_ret.
  - intros [[[disabled current_job] cron] next]. destruct disabled; [|apply safe_schedule_in_memory].
    apply (ht_bind _ _ (λ _ _, True)); [|intros; by apply ht_smodify].
    destruct current_job; [apply safe_remove_job|by apply ht_ret].
Qed.

Lemma safe_remove_job_if_present p : safe (remove_job_if_present p).
Proof. eapply ht_bind; [apply ht_sgets|]. intros [j|]; [apply safe_remove_job|by apply ht_ret]. Qed.

Lemma safe_unschedule_project p : safe (unschedule_project p).
Proof.
  eapply ht_bind; [apply safe_remove_job_if_present|]. intros ?.
  apply (ht_bind _ _ (λ _ _, True)); [|intros; by apply ht_smodify].
  unfold unschedule_session. apply ht_in_session; [|done]. eapply ht_bind; [by apply ht_select_safe|].
  intros [s|]; [|by apply ht_ret]. eapply ht_bind; [by apply ht_utcnow|]. intros now.
  eapply ht_bind; [apply ht_flush_schedule_update|]. intros ?.
  eapply ht_bind; [apply ht_cancel_active_run|]. intros c. apply ht_commit_disabled.
Qed.

Lemma safe_delete_project_schedule p : safe (delete_project_schedule p).
Proof.
  eapply ht_bind; [apply safe_remove_job_if_present|]. intros ?.
  apply (ht_bind _ _ (λ _ _, True)); [|intros; by apply ht_smodify].
  apply ht_in_session; [|done]. eapply ht_bind; [by apply ht_select_safe|].
  intros [s|]; [|apply ht_throw]. apply (ht_bind _ _ (λ _ _, True)).
  - eapply ht_bind; [apply (ht_select_for_update _ _ (λ _, True)); auto using get_active_run_returns|].
    intros [r|]; [|by apply ht_ret]. eapply ht_bind; [by apply ht_utcnow|].
    intros; by apply ht_ret.
  - intros c. apply ht_commit; [done|]. intros n w Hi _. split; [|done].
    apply rtc_once. exists 0%Z. apply ss_delete_schedule.
Qed.

Lemma safe_init : safe init_from_project_schedules.
Proof.
  eapply ht_bind; [apply ht_in_session; [by apply (ht_select_safe (λ _, True))|done]|]. intros l.
  apply (ht_bind _ _ (λ _ _, True)).
  - generalize 0%nat at 1. induction l as [|s l IH]; intros k; [by apply ht_ret|]. simpl.
    destruct (str_truthy _); [|apply IH]. apply (ht_bind _ _ (λ _ _, True)); [|intros; apply IH].
    apply ht_try_except; [|intros; by apply ht_ret].
    eapply ht_bind; [apply safe_schedule_in_memory|]. intros; by apply ht_ret.
  - intros k. apply (ht_bind _ _ (λ _ _, True)); [by apply ht_smodify|]. intros; by apply ht_ret.
Qed.

Lemma safe_getters org p : safe (get_scheduled_projects org) ∧ safe (get_scheduled_project p).
Proof.
  split; (apply ht_in_session; [|done]); (eapply ht_bind; [by apply ht_select_safe|]).
  - intros l. eapply ht_bind; [by apply ht_select_safe|]. intros runs.
    eapply ht_bind; [apply ht_sgets|]. intros; by apply ht_ret.
  - intros [s|]; [|by apply ht_ret]. eapply ht_bind; [by apply ht_select_safe|]. intros runs.
    eapply ht_bind; [apply ht_sgets|]. intros; by apply ht_ret.
Qed.

Lemma safe_run_command c : safe (run_command c).
Proof.
  destruct c; simpl.
  - apply safe_start_scheduled_run.
  - apply safe_reconcile_round.
  - eapply ht_bind; [apply safe_init|]. intros; by apply ht_ret.
  - apply safe_schedule_project.
  - apply safe_patch_project_schedule.
  - apply safe_unschedule_project.
  - apply safe_delete_project_schedule.
  - eapply ht_bind; [by apply (safe_getters _ "")|]. intros; by apply ht_ret.
  - eapply ht_bind; [by apply (safe_getters None)|]. intros; by apply ht_ret.
Qed.

Lemma run_commands_refine cs w :
  sched_inv (sw_db w) →
  sched_steps se_fk (sw_db w) (sw_db (run_commands cs w)) ∧ sched_inv (sw_db (run_commands cs w)).
Proof.
  revert w. induction cs as [|c cs IH]; intros w Hi; simpl; [by split|].
  destruct (safe_run_command c w Hi I) as [Hs _].
  destruct (IH (run_command c w).2) as [Hs' Hi']; [by eapply inv_steps|].
  split; [by etrans|done].
Qed.

(** C11. The manager implements the protocol: any sequence of its methods, with any interference of
    other processes between the statements and any failures, changes the database only by the
    transactions of the protocol and keeps it consistent. *)
Theorem manager_refines_protocol cs w :
  sched_inv (sw_db w) →
  sched_steps se_fk (sw_db w) (sw_db (run_commands cs w)) ∧ sched_inv (sw_db (run_commands cs w)).
Proof. apply run_commands_refine. Qed.

End Logic.
