(* ===== verification/SchedSpec.v ===== *)
(** * Project scheduler: what a reconciliation does

    The retry delays, the result of reconciling one run when nothing else happens at the same time
    (total correctness, every branch), and the bound on the number of reconciliations a run chain
    can need. *)
From S2P Require Import Prelude TaskTypes TaskStore TaskLifecycle Orchestrator SchedTypes SchedProtocol SchedInv SchedFlow SchedRefine.

(** ** Retry delays *)

Lemma pow2_ge_1 k : (0 ≤ k)%Z → (1 ≤ 2 ^ k)%Z.
Proof. intros. assert (0 < 2 ^ k)%Z by (apply Z.pow_pos_nonneg; lia). lia. Qed.

(** The delay before a retry lies between one second and a day; it never decreases from one
    attempt to the next; with exponential backoff it doubles until it reaches the configured
    maximum, and with fixed backoff it is the configured delay. *)
Theorem retry_delay_bounds r k :
  run_ok r → (1 ≤ k)%Z →
  (1 ≤ calculate_retry_delay_seconds r k ≤ 86400)%Z ∧
  (calculate_retry_delay_seconds r k ≤ calculate_retry_delay_seconds r (k + 1))%Z ∧
  (sr_retry_backoff r = FIXED → calculate_retry_delay_seconds r k = sr_retry_delay_seconds r) ∧
  (sr_retry_backoff r = EXPONENTIAL → (sr_retry_delay_seconds r ≤ sr_retry_max_delay_seconds r)%Z →
     calculate_retry_delay_seconds r 1 = sr_retry_delay_seconds r ∧
     calculate_retry_delay_seconds r (k + 1)
     = Z.min (2 * calculate_retry_delay_seconds r k) (sr_retry_max_delay_seconds r)).
Proof.
  intros Hok Hk. pose proof (ro_delay _ Hok) as Hd. pose proof (ro_max_delay _ Hok) as Hm.
  unfold calculate_retry_delay_seconds. pose proof (pow2_ge_1 (Z.max 0 (k - 1)) ltac:(lia)) as Hp.
  assert (2 ^ Z.max 0 (k + 1 - 1) = 2 * 2 ^ Z.max 0 (k - 1))%Z as E.
  { rewrite <-Z.pow_succ_r by lia. f_equal. lia. }
  rewrite E. rewrite Z.mul_assoc, (Z.mul_comm _ 2), <-Z.mul_assoc.
  assert (1 ≤ sr_retry_delay_seconds r * 2 ^ Z.max 0 (k - 1))%Z as HX by nia.
  revert HX. generalize (sr_retry_delay_seconds r * 2 ^ Z.max 0 (k - 1))%Z. intros X HX.
  case_bool_decide as Hb; split_and!; try done; try lia; try congruence.
  intros _ Hle. split; [change (2 ^ Z.max 0 (1 - 1))%Z with 1%Z|]; lia.
Qed.

(** ** The status of a chain and how far it is from its end *)

(** How many reconciliations that find something to do a run can still see. *)
Definition chain_measure (r : ProjectScheduleRunRecord) : nat :=
  Z.to_nat (match sr_status r with
            | RS.PENDING => 2 * (sr_max_retries r + 1)
            | RS.STARTING | RS.RUNNING => 2 * (sr_max_retries r + 1 - sr_attempt_number r) + 1
            | RS.WAITING_RETRY => 2 * (sr_max_retries r + 1 - sr_attempt_number r)
            | _ => 0
            end).

Lemma chain_measure_updated u r : chain_measure (set_run_updated_at u r) = chain_measure r.
Proof. by destruct r. Qed.

Lemma chain_measure_finished r : run_ok r → chain_measure r = 0%nat ↔ sr_finished_at r ≠ None.
Proof.
  intros Hok. pose proof (ro_attempt _ Hok) as Ha. pose proof (ro_waiting _ Hok) as Hw.
  pose proof (ro_max _ Hok) as Hm. rewrite (ro_finished _ Hok). unfold chain_measure, ACTIVE_RUN_STATUSES.
  destruct (sr_status r); [| | |destruct Hw as [Hw _]; [done|]| | |].
  1-4: split; [intros H; exfalso; lia|intros H; exfalso; apply H; set_solver].
  all: split; [intros _; set_solver|done].
Qed.

(** ** A quiet environment *)

Section Quiet.
Context {env : SchedEnv}.

(** No failure and no other activity while a method runs. *)
Record quiet : Prop := {
  q_fault n : se_fault n = None;
  q_others n rl sl db : se_others n rl sl db = db;
  q_locked n id : se_row_locked n id = false;
  q_prepare n p u : is_ok (se_prepare_task n p u) = true;
  q_fk t : se_fk t = true;
  q_jobs n j : se_other_jobs n j = j;
}.

(** Total correctness: from a database satisfying [P] the program returns a value and a database
    satisfying [Q]. *)
Definition total {A} (P : SchedDB → Prop) (m : SP A) (Q : A → SchedDB → Prop) : Prop :=
  ∀ w, P (sw_db w) → ∃ a w', m w = (Ok a, w') ∧ Q a (sw_db w').

Lemma total_conseq {A} (P P' : SchedDB → Prop) (m : SP A) (Q Q' : A → SchedDB → Prop) :
  total P' m Q' → (∀ db, P db → P' db) → (∀ a db, Q' a db → Q a db) → total P m Q.
Proof. intros H HP HQ w Hw. destruct (H w (HP _ Hw)) as (a & w' & E & Hq). eauto. Qed.

Lemma total_ret {A} (P : SchedDB → Prop) (a : A) (Q : A → SchedDB → Prop) :
  (∀ db, P db → Q a db) → total P (mret a) Q.
Proof. intros H w Hw. exists a, w. eauto. Qed.

Lemma total_bind {A B} (P : SchedDB → Prop) (m : SP A) R (f : A → SP B) Q :
  total P m R → (∀ a, total (R a) (f a) Q) → total P (m ≫= f) Q.
Proof.
  intros Hm Hf w Hw. destruct (Hm w Hw) as (a & w' & E & HR). destruct (Hf a w' HR) as (b & w'' & E' & HQ).
  exists b, w''. split; [|done]. unfold mbind, SP_bind. by rewrite E.
Qed.

Lemma total_pure {A} (φ : Prop) (P : SchedDB → Prop) (m : SP A) Q :
  (φ → total P m Q) → total (λ db, φ ∧ P db) m Q.
Proof. intros H w [Hφ Hw]. by apply H. Qed.

Lemma total_try_except {A} P (m : SP A) h Q : total P m Q → total P (try_except m h) Q.
Proof. intros Hm w Hw. destruct (Hm w Hw) as (a & w' & E & HQ). exists a, w'. split; [|done]. unfold try_except. by rewrite E. Qed.

Lemma total_try_finally {A} P (m : SP A) f Q :
  (∀ w, sw_db (f w) = sw_db w) → total P m Q → total P (try_finally m f) Q.
Proof.
  intros Hf Hm w Hw. destruct (Hm w Hw) as (a & w' & E & HQ). exists a, (f w').
  split; [unfold try_finally; by rewrite E|by rewrite Hf].
Qed.

Lemma total_in_session {A} P (m : SP A) Q : total P m Q → total P (in_session m) Q.
Proof. by apply total_try_finally. Qed.

Lemma total_utcnow P : total P utcnow (λ _, P).
Proof. intros w Hw. by exists (se_clock (sw_step w)), (sw_bump w). Qed.

Context (Hq : quiet).

Lemma total_effectful {A} P f (Q : A → SchedDB → Prop) :
  (∀ n db, P db → ∃ a db', f n db = Ok (a, db') ∧ Q a db') → total P (effectful f) Q.
Proof using Hq.
  intros Hf w Hw. unfold effectful. rewrite (q_fault Hq).
  assert (sw_db (arrive w) = sw_db w) as -> by (unfold arrive; simpl; apply (q_others Hq)).
  destruct (Hf (sw_step w) (sw_db w) Hw) as (a & db' & -> & HQ).
  exists a, (sw_set_db db' (arrive w)). done.
Qed.

Lemma total_select {A} P (f : SchedDB → A) : total P (select f) (λ a db, a = f db ∧ P db).
Proof using Hq. apply total_effectful. intros n db Hdb. by exists (f db), db. Qed.

Lemma total_select_for_update P f : total P (select_for_update f) (λ a db, a = f db ∧ P db).
Proof using Hq.
  unfold select_for_update. apply (total_bind _ _ (λ _, P)); [intros w Hw; by exists (sw_step w), w|].
  intros n. eapply total_bind; [apply total_select|]. intros [r|]; [|by apply total_ret].
  rewrite (q_locked Hq). apply (total_bind _ _ (λ _ db, Some r = f db ∧ P db)); [|intros; by apply total_ret].
  intros w Hw. by exists (), (sw_set_locks ({[sr_id r]} ∪ sw_run_locks w) (sw_schedule_locks w) w).
Qed.

Lemma total_commit_run P loaded run (Q : () → SchedDB → Prop) :
  (∀ db u, P db → Q () (put_run (set_run_updated_at u run) db)) → total P (commit_run loaded run) Q.
Proof using Hq.
  intros HQ. apply total_effectful. intros n db Hdb. destruct (flush_run_updated n loaded run) as [u Hu].
  exists (), (put_run (flush_run n loaded run) db). split; [done|]. rewrite Hu. by apply HQ.
Qed.

(** A statement whose result the precondition determines. *)
Lemma total_select_known {A B} P (f : SchedDB → A) v (g : A → SP B) Q :
  (∀ db, P db → f db = v) → total P (g v) Q → total P (select f ≫= g) Q.
Proof using Hq.
  intros Hv Hg. eapply total_bind; [apply total_select|]. intros a w [-> Hw]. rewrite (Hv _ Hw). by apply Hg.
Qed.

Lemma total_select_for_update_known {B} P f v (g : option ProjectScheduleRunRecord → SP B) Q :
  (∀ db, P db → f db = v) → total P (g v) Q → total P (select_for_update f ≫= g) Q.
Proof using Hq.
  intros Hv Hg. eapply total_bind; [apply total_select_for_update|]. intros a w [-> Hw].
  rewrite (Hv _ Hw). by apply Hg.
Qed.

(** Reasoning from one fixed database. *)
Lemma total_frozen {A} P (m : SP A) Q :
  (∀ db, P db → total (λ db0, db0 = db) m Q) → total P m Q.
Proof using Type. clear Hq. intros H w Hw. by apply (H (sw_db w)). Qed.

(** A fact that the precondition implies. *)
Lemma total_given {A} (φ : Prop) P (m : SP A) Q :
  (∀ db, P db → φ) → (φ → total P m Q) → total P m Q.
Proof using Type. clear Hq. intros Hφ H w Hw. by apply H; [eapply Hφ|]. Qed.

(** ** Queries by key *)

Lemma head_sorted_unique {B} (R : relation B) `{!RelDecision R} (l : list B) x :
  x ∈ l → (∀ y, y ∈ l → y = x) → head (merge_sort R l) = Some x.
Proof using Type.
  clear Hq.
  intros Hin Hall. destruct (merge_sort R l) as [|y l'] eqn:E.
  - apply (merge_sort_elem R) in Hin. rewrite E in Hin. by apply not_elem_of_nil in Hin.
  - simpl. f_equal. apply Hall, (merge_sort_elem R). rewrite E. left.
Qed.

Lemma schedule_by_id_lookup db sid s :
  sched_inv db → schedules db !! sid = Some s → schedule_by_id sid db = Some s.
Proof using Type.
  clear Hq.
  intros Hi Hs. unfold schedule_by_id, get_project_schedules_by.
  pose proof (si_schedule_keys _ Hi _ _ Hs) as Hid. destruct (si_schedules _ Hi _ _ Hs) as [_ [p Hp]].
  apply head_sorted_unique.
  - rewrite list_elem_of_filter, list_elem_of_fmap. split.
    + unfold schedule_matches. rewrite Hp. simpl. by rewrite bool_decide_eq_true_2.
    + exists (sid, s). by rewrite elem_of_map_to_list.
  - intros y [Hm (kv & -> & Hy)]%list_elem_of_filter%(and_iff_compat_l _ (list_elem_of_fmap _ _ _)).
    destruct kv as [k y]. apply elem_of_map_to_list in Hy. simpl in *. unfold schedule_matches in Hm.
    destruct (projects db !! ps_project_id y); [|done]. simpl in Hm.
    rewrite !andb_true_r, bool_decide_eq_true in Hm. rewrite (si_schedule_keys _ Hi _ _ Hy) in Hm. congruence.
Qed.

(** ** Starting an attempt *)

Record startable (rid : string) (k : Z) (r : ProjectScheduleRunRecord) (s : ProjectScheduleRecord)
    (p : ProjectRow) (db : SchedDB) : Prop := {
  sa_inv : sched_inv db;
  sa_run : schedule_runs db !! rid = Some r;
  sa_unfinished : sr_finished_at r = None;
  sa_attempt : sr_attempt_number r = k;
  sa_positive : (1 ≤ k)%Z;
  sa_schedule : schedules db !! sr_schedule_id r = Some s;
  sa_enabled : ps_disabled s = false;
  sa_project : projects db !! ps_project_id s = Some p;
  sa_user : is_Some (get_default_service_user db);
  sa_no_task : ∀ id t, tasks (task_db db) !! id = Some t → schedule_columns t ≠ (Some rid, Some k);
}.

(** The task of the attempt exists, the run is untouched. *)
Definition attempt_task_made (rid : string) (k : Z) (r : ProjectScheduleRunRecord) (tid : string) (db : SchedDB) : Prop :=
  schedule_runs db !! rid = Some r ∧ keys_ok (task_db db) ∧
  ∃ t, tasks (task_db db) !! tid = Some t ∧ schedule_columns t = (Some rid, Some k).

Lemma total_build_pending project user mode force rid k r s p :
  total (startable rid k r s p) (build_pending_task_from_project project user mode force rid k)
    (λ task db, attempt_task_made rid k r (ti_task_id task) db ∧
                ∃ t, tasks (task_db db) !! ti_task_id task = Some t ∧ tr_status t = PENDING).
Proof using Hq.
  unfold build_pending_task_from_project. apply (total_bind _ _ (λ _, startable rid k r s p)).
  - apply total_effectful. intros n db Hdb. pose proof (q_prepare Hq n project user) as Hp.
    destruct (se_prepare_task n project user) as [payload|]; [|done]. by exists payload, db.
  - intros payload. apply total_effectful. intros n db Hdb.
    destruct (se_uuid_new n db) as (_ & _ & Hnew).
    unfold create_pending. simpl. rewrite Hnew.
    match goal with |- context [insert_allowed ?ok ?d ?t] => assert (insert_allowed ok d t = true) as -> end.
    { unfold insert_allowed, task_fk, schedule_attempt_positive. simpl.
      rewrite (q_fk Hq), bool_decide_eq_true_2 by (eexists; apply (sa_run _ _ _ _ _ _ Hdb)). simpl.
      pose proof (sa_positive _ _ _ _ _ _ Hdb). apply andb_true_iff. split; [lia|].
      apply forallb_forall. intros [id t] Hin%list_elem_of_In%elem_of_map_to_list. simpl.
      apply (sa_no_task _ _ _ _ _ _ Hdb) in Hin. unfold schedule_columns in Hin. apply negb_true_iff.
      unfold same_schedule_attempt. simpl.
      destruct (tr_schedule_run_id t), (tr_schedule_attempt t); try done.
      apply not_true_iff_false. intros [->%bool_decide_eq_true ->%Z.eqb_eq]%andb_true_iff. done. }
    eexists _, _. split; [done|]. simpl. split; [split_and!|].
    + apply (sa_run _ _ _ _ _ _ Hdb).
    + apply db_put_keys, (si_task_keys _ (sa_inv _ _ _ _ _ _ Hdb)).
    + eexists. unfold db_put; simpl. rewrite lookup_insert_eq. done.
    + eexists. unfold db_put; simpl. rewrite lookup_insert_eq. done.
Qed.

Lemma total_orchestrator_enqueue task rid k r :
  total (λ db, attempt_task_made rid k r (ti_task_id task) db ∧
               ∃ t, tasks (task_db db) !! ti_task_id task = Some t ∧ tr_status t = PENDING)
    (orchestrator_enqueue_task task) (λ _, attempt_task_made rid k r (ti_task_id task)).
Proof using Hq.
  apply total_effectful. intros n db [(Hr & Hk & t0 & Ht0 & Hc0) (t & Ht & Hst)].
  assert (t0 = t) as -> by congruence.
  destruct (enqueue_with_dispatch (task_fk se_fk db) (task_internal_to_execution task) (ti_payload task)
    (se_row_id n (task_db db)) (se_clock n) (task_db db)) as [[x t']|e] eqn:E.
  - eexists _, _. split; [done|]. destruct (enqueue_evolves _ _ _ _ _ _ _ _ E Hk) as [Hk' Hev].
    specialize (Hev (ti_task_id task)). rewrite Ht in Hev. split_and!; [done|done|]. simpl.
    destruct (tasks t' !! ti_task_id task) as [t1|]; [|done]. exists t1. split; [done|].
    by rewrite <-Hc0; apply rtc_row_step_columns.
  - unfold enqueue_with_dispatch in E. simpl in E. rewrite Ht, bool_decide_eq_true_2 in E; done.
Qed.

Lemma total_enqueue_attempt_task rid k r s p :
  total (startable rid k r s p) (enqueue_attempt_task rid k)
    (λ o db, ∃ task, o = Some task ∧ attempt_task_made rid k r (ti_task_id task) db).
Proof using Hq.
  apply total_in_session.
  apply (total_given (sr_finished_at r = None ∧ sr_attempt_number r = k ∧ ps_disabled s = false)).
  { by intros db []. }
  intros (Hf & Ha & Hd). apply (total_select_known _ _ (Some r)); [apply sa_run|].
  assert (negb (unfinished r) || negb (sr_attempt_number r =? k)%Z = false) as ->
    by by rewrite orb_false_iff, !negb_false_iff, unfinished_true, Z.eqb_eq.
  apply (total_select_known _ _ (Some s)).
  { intros db Hdb. by eapply schedule_by_id_lookup; [apply Hdb|apply Hdb]. }
  rewrite Hd. apply (total_bind _ _ (λ _, startable rid k r s p)).
  { destruct (sr_scheduled_by_user_id r); [|by apply total_ret].
    eapply total_conseq; [apply total_select|exact (λ _ H, H)|by intros ? ? [_ ?]]. }
  intros user. apply (total_bind _ _ (λ _, startable rid k r s p)).
  { destruct user; [by apply total_ret|]. eapply total_bind; [apply total_select|].
    intros o w [-> Hw]. destruct (sa_user _ _ _ _ _ _ Hw) as [u Hu]. rewrite Hu. by exists u, w. }
  intros u. apply (total_select_known _ _ (Some p)); [apply sa_project|].
  apply (total_bind _ _ (λ task, attempt_task_made rid k r (ti_task_id task)));
    [|intros task; apply total_ret; eauto].
  eapply total_bind; [apply total_build_pending|]. intros task.
  eapply total_bind; [apply total_try_except, total_orchestrator_enqueue|]. intros ?. by apply total_ret.
Qed.

Lemma total_confirm_attempt rid k r tid :
  sr_finished_at r = None → sr_attempt_number r = k → sr_id r = rid →
  total (attempt_task_made rid k r tid) (confirm_attempt rid k tid) (λ _ db,
    ∃ u v, attempt_task_made rid k (set_run_updated_at u (mark_attempt_running tid v r)) tid db).
Proof using Hq.
  intros Hf Ha Hid. apply total_in_session.
  apply (total_select_for_update_known _ _ (Some r)); [by intros db [? _]|].
  assert (unfinished r && (sr_attempt_number r =? k)%Z = true) as ->
    by by rewrite andb_true_iff, unfinished_true, Z.eqb_eq.
  eapply total_bind; [apply total_utcnow|]. intros touched. apply total_commit_run.
  intros db u (Hr & Hk & Ht). exists u, touched. split_and!; [|done|done].
  subst rid. unfold put_run. simpl. destruct r; simpl. by rewrite lookup_insert_eq.
Qed.

Lemma total_enqueue_attempt rid k r s p :
  total (startable rid k r s p) (enqueue_attempt rid k) (λ _ db,
    ∃ tid u v, attempt_task_made rid k (set_run_updated_at u (mark_attempt_running tid v r)) tid db).
Proof using Hq.
  apply (total_given (sr_finished_at r = None ∧ sr_attempt_number r = k ∧ sr_id r = rid)).
  { intros db Hdb. split_and!; [apply Hdb..|]. by eapply si_run_keys; apply Hdb. }
  intros (Hf & Ha & Hid). apply total_try_finally; [done|]. apply total_try_except.
  eapply total_bind; [apply total_enqueue_attempt_task|]. intros o w (task & -> & Hw).
  destruct (total_confirm_attempt rid k r (ti_task_id task) Hf Ha Hid w Hw) as (a & w' & E & Hw').
  exists a, w'. eauto.
Qed.

(** ** Reconciling one run *)

Inductive decision :=
  | StartAttempt
  | KeepRun
  | Become (r : ProjectScheduleRunRecord).

(** The branches of [_reconcile_run] as a function of the run, its schedule and the task of its attempt;
    [SchedPolicy] says what they amount to. *)
Definition run_branch (now : Z) (schedule : option ProjectScheduleRecord) (task : option TaskRecord)
    (r : ProjectScheduleRunRecord) : decision :=
  if schedule_gone schedule then Become (finish_run RS.CANCELLED now (Some "Schedule disabled or deleted") r)
  else if attempt_due now r then StartAttempt
  else if bool_decide (sr_status r ∈ [RS.STARTING; RS.RUNNING]) then
    match task with
    | None =>
        if lease_expired now r
        then Become (record_attempt_failure now "Task start lease expired after 60 seconds" r) else KeepRun
    | Some task =>
        let r' := set_current_task_id (Some (tr_task_id task)) r in
        match tr_status task with
        | SUCCESS => Become (finish_run RS.SUCCESS now None r')
        | ERROR => Become (record_attempt_failure now
                     (or_str (tr_message task) (or_str (tr_termination_reason task) "Task execution failed")) r')
        | CANCELLED => Become (finish_run RS.CANCELLED now (or_opt (tr_termination_reason task) (tr_message task)) r')
        | _ => Become (set_run_status RS.RUNNING r')
        end
    end
  else KeepRun.

(** The decision for the run [rid] as the database stands. *)
Definition run_decision (now : Z) (rid : string) (r : ProjectScheduleRunRecord) (db : SchedDB) : decision :=
  run_branch now (schedule_by_id (sr_schedule_id r) db)
    (get_attempt_task rid (sr_attempt_number r) db) r.

(** The run after the decision was carried out, up to its [updated_at]. *)
Definition carried_out (now : Z) (rid : string) (r : ProjectScheduleRunRecord) (d : decision) (db' : SchedDB) : Prop :=
  match d with
  | StartAttempt =>
      ∃ tid u v, attempt_task_made rid (sr_attempt_number r + 1)
        (set_run_updated_at u (mark_attempt_running tid v (begin_attempt now v r))) tid db'
  | KeepRun => schedule_runs db' !! rid = Some r
  | Become r' => ∃ u, schedule_runs db' !! rid = Some (set_run_updated_at u r')
  end.

(** A project and a user to start attempts with. *)
Definition launchable (r : ProjectScheduleRunRecord) (db : SchedDB) : Prop :=
  is_Some (get_default_service_user db) ∧ schedule_gone (schedule_by_id (sr_schedule_id r) db) = false.

Lemma schedule_by_id_Some db sid s :
  sched_inv db → schedule_by_id sid db = Some s →
  schedules db !! sid = Some s ∧ ∃ p, projects db !! ps_project_id s = Some p.
Proof using Type.
  clear Hq.
  intros Hi Hs. unfold schedule_by_id, get_project_schedules_by in Hs.
  apply head_sorted_elem, list_elem_of_filter in Hs as [Hm (kv & -> & Hy)%list_elem_of_fmap].
  destruct kv as [k y]. apply elem_of_map_to_list in Hy. simpl in *. unfold schedule_matches in Hm.
  destruct (projects db !! ps_project_id y); [|done]. simpl in Hm.
  rewrite !andb_true_r, bool_decide_eq_true in Hm. rewrite <-Hm, (si_schedule_keys _ Hi _ _ Hy). eauto.
Qed.

Lemma put_run_lookup rid r r' u db :
  sr_id r = rid → sr_id r' = sr_id r →
  schedule_runs (put_run (set_run_updated_at u r') db) !! rid = Some (set_run_updated_at u r').
Proof using Type. clear Hq. intros <- E. unfold put_run; simpl. destruct r'; simpl in *. subst. by rewrite lookup_insert_eq. Qed.

(** The database right after the transaction that begins an attempt. *)
Lemma begin_startable now rid r u v s p db :
  sched_inv db → schedule_runs db !! rid = Some r → sr_finished_at r = None → attempt_due now r = true →
  is_Some (get_default_service_user db) → schedules db !! sr_schedule_id r = Some s →
  ps_disabled s = false → projects db !! ps_project_id s = Some p →
  startable rid (sr_attempt_number r + 1) (set_run_updated_at u (begin_attempt now v r)) s p
    (put_run (set_run_updated_at u (begin_attempt now v r)) db).
Proof using Type.
  clear Hq.
  intros Hi Hr Hf Hdue Hu Hs Hd Hp. pose proof (si_run_keys _ Hi _ _ Hr) as Hid.
  pose proof (ro_attempt _ (si_runs _ Hi _ _ Hr)) as Ha. split.
  - eapply (inv_trans db now r); [done|by rewrite Hid|by apply rt_begin].
  - apply (put_run_lookup _ r); [done|by destruct r].
  - by destruct r.
  - by destruct r.
  - lia.
  - by destruct r.
  - done.
  - done.
  - done.
  - intros id t Ht E. destruct (si_attempts _ Hi _ _ Ht rid) as (run & k & H1 & H2 & H3).
    { by injection E. }
    injection E as E1 E2. rewrite Hr in H1. injection H1 as <-. rewrite E2 in H2. injection H2 as <-. lia.
Qed.

Lemma total_reconcile_transaction rid now r (d : decision) :
  total (λ db, sched_inv db ∧ schedule_runs db !! rid = Some r ∧ sr_finished_at r = None ∧
               is_Some (get_default_service_user db) ∧ run_decision now rid r db = d)
    (reconcile_transaction rid now)
    (λ o db', match d with
              | StartAttempt => ∃ r' s p, o = Some (sr_attempt_number r + 1)%Z ∧
                  (∃ u v, r' = set_run_updated_at u (begin_attempt now v r)) ∧
                  startable rid (sr_attempt_number r + 1) r' s p db'
              | _ => o = None ∧ carried_out now rid r d db'
              end).
Proof using Hq.
  apply total_frozen. intros db (Hi & Hr & Hf & Hu & Hd). pose proof (si_run_keys _ Hi _ _ Hr) as Hid.
  apply total_in_session. apply (total_select_for_update_known _ _ (Some r)); [by intros ? ->|].
  assert (unfinished r = true) as -> by by apply unfinished_true. simpl.
  apply (total_select_known _ _ (schedule_by_id (sr_schedule_id r) db)); [by intros ? ->|].
  unfold run_decision, run_branch in Hd.
  assert (∀ run' (x : option Z) (Q : option Z → SchedDB → Prop),
    (∀ u, Q x (put_run (set_run_updated_at u run') db)) →
    total (λ db0, db0 = db) (_ ← commit_run r run'; mret x) Q) as Hcommit.
  { intros run' x Q HQ. apply (total_bind _ _ (λ _ db, Q x db)); [|intros ?; by apply total_ret].
    apply total_commit_run. by intros ? u ->. }
  assert (∀ r', sr_id r' = sr_id r → d = Become r' →
    total (λ db0, db0 = db) (_ ← commit_run r r'; mret (None : option Z))
      (λ o db', o = None ∧ carried_out now rid r (Become r') db')) as Hbecome.
  { intros r' E _. apply Hcommit. intros u. split; [done|]. exists u. by apply (put_run_lookup _ r). }
  destruct (schedule_gone _) eqn:Hgone; [subst d; apply Hbecome; [by destruct r|done]|].
  destruct (attempt_due now r) eqn:Hdue.
  { subst d. destruct (schedule_by_id _ _) as [s|] eqn:Hs; [|done]. simpl in Hgone.
    apply schedule_by_id_Some in Hs as [Hs [p Hp]]; [|done].
    eapply total_bind; [apply total_utcnow|]. intros touched. apply Hcommit. intros u.
    exists (set_run_updated_at u (begin_attempt now touched r)), s, p. split_and!.
    - by destruct r.
    - eauto.
    - by apply begin_startable. }
  case_bool_decide as Hst; [|subst d; by apply total_ret; intros ? ->].
  apply (total_select_known _ _ (get_attempt_task rid (sr_attempt_number r) db)); [by intros ? ->|].
  destruct (get_attempt_task rid (sr_attempt_number r) db) as [task|].
  - unfold apply_task_result. destruct (tr_status task) eqn:Et; subst d.
    6, 7, 8: by apply Hbecome; [destruct r; unfold record_attempt_failure; simpl; repeat case_match|].
    all: eapply total_bind; [apply total_utcnow|]; intros touched; apply Hcommit; intros u;
      (split; [done|]); exists u; rewrite (put_run_lookup _ r); [by destruct r|done|by destruct r].
  - destruct (lease_expired now r); subst d; [|by apply total_ret; intros ? ->].
    apply Hbecome; [|done]. destruct r; unfold record_attempt_failure; simpl; by case_match.
Qed.

Lemma reconcile_run_total rid r w :
  sched_inv (sw_db w) → schedule_runs (sw_db w) !! rid = Some r → sr_finished_at r = None →
  is_Some (get_default_service_user (sw_db w)) →
  ∃ w', reconcile_run rid w = (Ok (), w') ∧
    carried_out (se_clock (sw_step w)) rid r (run_decision (se_clock (sw_step w)) rid r (sw_db w)) (sw_db w').
Proof using Hq.
  intros Hi Hr Hf Hu. set (now := se_clock (sw_step w)). set (d := run_decision now rid r (sw_db w)).
  destruct (total_reconcile_transaction rid now r d (sw_bump w)) as (o & w1 & E1 & H1); [done|].
  assert (reconcile_run rid w = match o with
    | Some k => enqueue_attempt rid k w1 | None => (Ok (), w1) end) as ->.
  { unfold reconcile_run, mbind, SP_bind, utcnow. fold now. rewrite E1. by destruct o. }
  destruct d as [| |r'].
  - destruct H1 as (r1 & s & p & -> & (u & v & ->) & Hsa).
    destruct (total_enqueue_attempt _ _ _ _ _ w1 Hsa) as ([] & w2 & E2 & tid & u' & v' & Hm).
    exists w2. split; [done|]. exists tid, u', v'.
    assert (set_run_updated_at u' (mark_attempt_running tid v' (begin_attempt now v' r))
      = set_run_updated_at u' (mark_attempt_running tid v' (set_run_updated_at u (begin_attempt now v r)))) as ->
      by by destruct r.
    done.
  - destruct H1 as [-> H1]. by exists w1.
  - destruct H1 as [-> H1]. by exists w1.
Qed.

(** ** Progress *)

#[local] Arguments Z.mul : simpl never.
#[local] Arguments Z.add : simpl never.
#[local] Arguments Z.sub : simpl never.
#[local] Arguments Z.to_nat : simpl never.

(** The reconciliation has something to do: it starts an attempt or settles the current one. *)
Definition ready (now : Z) (rid : string) (r : ProjectScheduleRunRecord) (db : SchedDB) : bool :=
  match run_decision now rid r db with
  | StartAttempt => true
  | KeepRun => false
  | Become r' => negb (bool_decide (sr_status r' = RS.RUNNING))
  end.

Lemma chain_measure_active r : run_ok r → sr_finished_at r = None → (0 < chain_measure r)%nat.
Proof using Type.
  clear Hq.
  intros Hok Hf. assert (chain_measure r ≠ 0%nat); [|lia]. by intros E%chain_measure_finished.
Qed.

Lemma record_attempt_failure_measure now error tid r :
  run_ok r → sr_status r ∈ [RS.STARTING; RS.RUNNING] →
  (chain_measure (record_attempt_failure now error (set_current_task_id tid r)) < chain_measure r)%nat.
Proof using Type.
  clear Hq.
  intros Hok Hst. pose proof (ro_attempt _ Hok) as Ha. pose proof (ro_max _ Hok) as Hm.
  assert (chain_measure r = Z.to_nat (2 * (sr_max_retries r + 1 - sr_attempt_number r) + 1)) as ->.
  { unfold chain_measure. destruct (sr_status r); set_solver. }
  unfold record_attempt_failure.
  destruct (sr_attempt_number _ <=? sr_max_retries _)%Z; unfold chain_measure; destruct r; simpl in *; lia.
Qed.

Lemma decision_measure now rid r db r' u :
  run_ok r → sr_finished_at r = None → ready now rid r db = true →
  match run_decision now rid r db with
  | StartAttempt => ∃ tid v, r' = mark_attempt_running tid v (begin_attempt now v r)
  | Become x => r' = x
  | KeepRun => False
  end → (chain_measure (set_run_updated_at u r') < chain_measure r)%nat.
Proof using Type.
  clear Hq.
  intros Hok Hf. rewrite chain_measure_updated. pose proof (chain_measure_active _ Hok Hf) as Hpos.
  pose proof (ro_attempt _ Hok) as Ha. pose proof (ro_max _ Hok) as Hm.
  unfold ready, run_decision, run_branch. destruct (schedule_gone _).
  { intros _ ->. by destruct r. }
  destruct (attempt_due now r) eqn:Hdue.
  { intros _ (tid & v & ->). apply attempt_due_true in Hdue as [E|[E _]].
    - pose proof (ro_pending _ Hok E) as E0. unfold chain_measure in *. destruct r; simpl in *. subst. simpl in *. lia.
    - destruct (ro_waiting _ Hok E) as [Hw _]. unfold chain_measure in *. destruct r; simpl in *. subst. simpl in *. lia. }
  case_bool_decide as Hst; [|done]. destruct (get_attempt_task _ _ _) as [task|].
  - destruct (tr_status task); intros Hready ->;
      try (by destruct r); by apply record_attempt_failure_measure.
  - destruct (lease_expired now r); [|done]. intros _ ->.
    rewrite <-(set_current_task_id_same r) at 1. by apply record_attempt_failure_measure.
Qed.

(** An unfinished run is never stuck: if reconciling it has nothing to
    do, it waits for a retry time in the future, for a task that is still executing, or for the
    60-second lease of a start that has just been made. *)
Theorem unfinished_run_is_ready_or_waits now rid r db :
  sched_inv db → schedule_runs db !! rid = Some r → sr_finished_at r = None →
  ready now rid r db = true ∨
  (sr_status r = RS.WAITING_RETRY ∧ ∃ t, sr_next_retry_at r = Some t ∧ (now < t)%Z) ∨
  (∃ t, get_attempt_task rid (sr_attempt_number r) db = Some t ∧ terminal (tr_status t) = false) ∨
  (get_attempt_task rid (sr_attempt_number r) db = None ∧
   (now < default (sr_updated_at r) (sr_attempt_started_at r) + 60000000)%Z).
Proof using Type.
  clear Hq.
  intros Hi Hr Hf. pose proof (si_runs _ Hi _ _ Hr) as Hok. unfold ready, run_decision, run_branch.
  destruct (schedule_gone _); [left; by destruct r|].
  destruct (attempt_due now r) eqn:Hdue; [by left|].
  case_bool_decide as Hst.
  - destruct (get_attempt_task _ _ _) as [task|] eqn:Et.
    + destruct (tr_status task) eqn:Es.
      6, 7, 8: left; unfold record_attempt_failure; destruct r; simpl; by repeat case_match.
      all: right; right; left; exists task; by rewrite Es.
    + destruct (lease_expired now r) eqn:Hl.
      * left. unfold record_attempt_failure. destruct r; simpl; by repeat case_match.
      * right; right; right. split; [done|]. unfold lease_expired, seconds, START_LEASE_SECONDS in Hl. lia.
  - right; left. assert (sr_status r = RS.WAITING_RETRY) as Ew.
    { apply (ro_finished _ Hok) in Hf. unfold attempt_due in Hdue. rewrite orb_false_iff in Hdue.
      destruct Hdue as [Hp%bool_decide_eq_false _]. destruct (sr_status r); unfold ACTIVE_RUN_STATUSES in Hf; set_solver. }
    split; [done|]. destruct (ro_waiting _ Hok Ew) as [_ [t Ht]]. exists t. split; [done|].
    unfold attempt_due, due in Hdue. rewrite Ew, Ht in Hdue. simpl in Hdue. lia.
Qed.

(** ** What a program leaves alone *)

Section Keeps.
Context {X : Type} (π : SchedWorld → X).

Definition keeps {A} (m : SP A) : Prop := ∀ w, π (m w).2 = π w.

Lemma sp_keeps_ret {A} (a : A) : keeps (mret a).
Proof using Type. clear Hq. done. Qed.

Lemma keeps_throw {A} e : keeps (throw e : SP A).
Proof using Type. clear Hq. done. Qed.

Lemma sp_keeps_bind {A B} (m : SP A) (f : A → SP B) :
  keeps m → (∀ a, keeps (f a)) → keeps (m ≫= f).
Proof using Type.
  clear Hq.
  intros Hm Hf w. unfold mbind, SP_bind. specialize (Hm w). destruct (m w) as [[a|e] w']; simpl in *; [|done].
  by rewrite Hf.
Qed.

Lemma keeps_try_except {A} (m : SP A) h :
  keeps m → (∀ e, keeps (h e)) → keeps (try_except m h).
Proof using Type.
  clear Hq.
  intros Hm Hh w. unfold try_except. specialize (Hm w). destruct (m w) as [[a|e] w']; simpl in *; [done|].
  destruct e; simpl; rewrite ?Hh; done.
Qed.

Lemma keeps_try_finally {A} (m : SP A) f :
  (∀ w, π (f w) = π w) → keeps m → keeps (try_finally m f).
Proof using Type.
  clear Hq.
  intros Hf Hm w. unfold try_finally. specialize (Hm w). destruct (m w) as [o w']; simpl in *. by rewrite Hf.
Qed.

Lemma keeps_effectful {A} f :
  (∀ w, π (arrive w) = π w) →
  (∀ n w (a : A) db', f n (sw_db w) = Ok (a, db') → π (sw_set_db db' w) = π w) → keeps (effectful f).
Proof using Hq.
  intros Ha Hf w. unfold effectful. rewrite (q_fault Hq).
  destruct (f (sw_step w) (sw_db (arrive w))) as [[a db']|e] eqn:Ef; cbn [snd]; [|by apply Ha].
  by rewrite (Hf _ _ _ _ Ef), Ha.
Qed.
End Keeps.

(** ** Reconciliation leaves the users alone *)

Abbreviation keeps_users := (keeps (λ w, users (sw_db w))).

Lemma users_arrive w : users (sw_db (arrive w)) = users (sw_db w).
Proof using Hq. unfold arrive; simpl. by rewrite (q_others Hq). Qed.

Lemma keeps_users_effectful {A} f :
  (∀ n db (a : A) db', f n db = Ok (a, db') → users db' = users db) → keeps_users (effectful f).
Proof using Hq. intros Hf. apply keeps_effectful; [apply users_arrive|]. intros n w a db' E. by eapply Hf. Qed.

Lemma keeps_select {A} (f : SchedDB → A) : keeps_users (select f).
Proof using Hq. apply keeps_users_effectful. by intros n db a db' [= _ <-]. Qed.

Lemma keeps_select_for_update f : keeps_users (select_for_update f).
Proof using Hq.
  apply sp_keeps_bind; [done|]. intros n. apply sp_keeps_bind; [apply keeps_select|]. intros [r|]; [|done].
  by destruct (se_row_locked n (sr_id r)).
Qed.

Lemma keeps_task_call {A} (f : nat → SchedDB → outcome task_error (A * TaskDB)) : keeps_users (task_call f).
Proof using Hq. apply keeps_users_effectful. intros n db a db' E. destruct (f n db) as [[b t]|]; [|done]. by simplify_eq. Qed.

Lemma keeps_commit_run l r : keeps_users (commit_run l r).
Proof using Hq. apply keeps_users_effectful. intros n db a db' E. by simplify_eq. Qed.

Lemma keeps_in_session {A} (m : SP A) : keeps_users m → keeps_users (in_session m).
Proof using Type. clear Hq. by apply keeps_try_finally. Qed.

Lemma keeps_prepare p u : keeps_users (effectful (λ n db,
  match se_prepare_task n p u with Ok x => Ok (x, db) | Raise m => Raise (OtherError m) end)).
Proof using Hq. apply keeps_users_effectful. intros n db a db' E. destruct (se_prepare_task n p u); [|done]. by simplify_eq. Qed.

Ltac keeps :=
  repeat first
    [ apply sp_keeps_ret | apply keeps_throw | apply keeps_select | apply keeps_select_for_update
    | apply keeps_task_call | apply keeps_commit_run | apply keeps_prepare | apply keeps_in_session
    | apply keeps_try_except; [|intros ?] | apply sp_keeps_bind; [|intros ?]
    | done
    | match goal with |- keeps_users (match ?x with _ => _ end) => destruct x end ].

Lemma keeps_reconcile_run rid : keeps_users (reconcile_run rid).
Proof using Hq.
  assert (∀ k e, keeps_users (record_attempt_failure_by_id rid k e)) as Hf.
  { intros. unfold record_attempt_failure_by_id. keeps. }
  assert (∀ k, keeps_users (enqueue_attempt rid k)) as He.
  { intros k. apply keeps_try_finally; [done|]. apply keeps_try_except; [|done].
    unfold enqueue_attempt_task, confirm_attempt, enqueue_task_from_project,
      build_pending_task_from_project, orchestrator_enqueue_task. keeps. }
  unfold reconcile_run, reconcile_transaction. keeps.
Qed.

(** ** The whole chain *)

(** A history of one run: its reconciliations that had something to do, with the tasks advancing and
    time passing between them in any way. *)
Inductive drives (rid : string) : nat → SchedWorld → SchedWorld → Prop :=
  | dr_done w : drives rid 0 w w
  | dr_tasks n w w1 w2 t :
      task_step (task_fk se_fk (sw_db w)) (task_db (sw_db w)) t →
      (∀ id r, tasks t !! id = Some r → tasks (task_db (sw_db w)) !! id = None → attempt_begun (sw_db w) r) →
      sw_db w1 = set_task_db t (sw_db w) → drives rid n w1 w2 → drives rid n w w2
  | dr_wait n w w1 w2 : sw_db w1 = sw_db w → drives rid n w1 w2 → drives rid n w w2
  | dr_reconcile n w w2 r :
      schedule_runs (sw_db w) !! rid = Some r → sr_finished_at r = None →
      ready (se_clock (sw_step w)) rid r (sw_db w) = true →
      drives rid n (reconcile_run rid w).2 w2 → drives rid (S n) w w2.

Lemma reconcile_run_decreases rid r w :
  sched_inv (sw_db w) → schedule_runs (sw_db w) !! rid = Some r → sr_finished_at r = None →
  is_Some (get_default_service_user (sw_db w)) → ready (se_clock (sw_step w)) rid r (sw_db w) = true →
  ∃ r', schedule_runs (sw_db (reconcile_run rid w).2) !! rid = Some r' ∧
        (chain_measure r' < chain_measure r)%nat.
Proof using Hq.
  intros Hi Hr Hf Hu Hready. set (now := se_clock (sw_step w)) in *.
  pose proof (si_runs _ Hi _ _ Hr) as Hok.
  pose proof (decision_measure now rid r (sw_db w)) as Hdec.
  destruct (reconcile_run_total rid r w Hi Hr Hf Hu) as (w' & E & Hc). fold now in Hc. rewrite E. simpl.
  destruct (run_decision now rid r (sw_db w)) as [| |x] eqn:Hd.
  - destruct Hc as (tid & u & v & Hrun & _). eexists. split; [exact Hrun|]. apply Hdec; eauto.
  - unfold ready in Hready. by rewrite Hd in Hready.
  - destruct Hc as (u & Hrun). eexists. split; [exact Hrun|]. by apply Hdec.
Qed.

Lemma get_default_service_user_users db db' :
  users db' = users db → get_default_service_user db' = get_default_service_user db.
Proof using Type. clear Hq. unfold get_default_service_user. by intros ->. Qed.

(** Every run chain ends: whatever the tasks of its attempts do, after at most
    [2 * (max_retries + 1)] reconciliations that have something to do (at most 22) the run is
    finished, and no more than that many can occur. *)
Theorem run_chain_is_bounded rid n w w' r :
  drives rid n w w' → sched_inv (sw_db w) → schedule_runs (sw_db w) !! rid = Some r →
  is_Some (get_default_service_user (sw_db w)) →
  (n ≤ chain_measure r)%nat ∧ (Z.of_nat (chain_measure r) ≤ 2 * (sr_max_retries r + 1))%Z ∧
  ∃ r', schedule_runs (sw_db w') !! rid = Some r' ∧ (n = chain_measure r → sr_finished_at r' ≠ None).
Proof using Hq.
  intros Hd Hi Hr Hu.
  assert (∃ r', schedule_runs (sw_db w') !! rid = Some r' ∧ run_ok r' ∧ (chain_measure r' + n ≤ chain_measure r)%nat)
    as (r' & Hr' & Hok' & Hm).
  { revert r Hi Hr Hu. induction Hd as [w|n w w1 w2 t Ht Hn E Hd IH|n w w1 w2 E Hd IH|n w w2 r0 Hr0 Hf Hrd Hd IH];
      intros r Hi Hr Hu.
    - exists r. split_and!; [done|by eapply si_runs|lia].
    - apply (IH r); rewrite E; [by eapply inv_tasks|done|done].
    - apply (IH r); by rewrite E.
    - assert (r0 = r) as -> by congruence.
      destruct (reconcile_run_decreases _ _ _ Hi Hr Hf Hu Hrd) as (r1 & Hr1 & Hlt).
      destruct (IH r1) as (r' & H1 & H2 & H3).
      + eapply inv_steps; [by apply safe_reconcile_run|done].
      + done.
      + by rewrite (get_default_service_user_users _ _ (keeps_reconcile_run rid w)).
      + exists r'. split_and!; [done..|lia]. }
  split_and!; [lia| |].
  - pose proof (ro_attempt _ (si_runs _ Hi _ _ Hr)). pose proof (ro_max _ (si_runs _ Hi _ _ Hr)).
    pose proof (ro_begun _ (si_runs _ Hi _ _ Hr)) as Hb.
    unfold chain_measure. destruct (sr_status r); try lia; (assert (1 ≤ sr_attempt_number r)%Z by (apply Hb; set_solver); lia).
  - exists r'. split; [done|]. intros ->. apply chain_measure_finished; [done|lia].
Qed.

End Quiet.
