(* ===== verification/SchedConfig.v ===== *)
(** * Project scheduler: configuring schedules

    What [schedule_project] stores can be read back, and [unschedule_project] stops a schedule: its
    job is removed, it is disabled and its unfinished run is cancelled. *)
From S2P Require Import Prelude TaskTypes TaskStore TaskLifecycle Orchestrator SchedTypes SchedProtocol SchedInv SchedFlow SchedRefine SchedSpec.

Section Config.
Context {env : SchedEnv} (Hq : quiet).

Lemma elem_of_schedules_by sid pid org dis db s :
  s ∈ get_project_schedules_by sid pid org dis db ↔
  schedule_matches db sid pid org dis s = true ∧ ∃ id, schedules db !! id = Some s.
Proof using Type.
  unfold get_project_schedules_by. rewrite merge_sort_elem, list_elem_of_filter, list_elem_of_fmap.
  split.
  - intros (? & [id x] & -> & Hx%elem_of_map_to_list). eauto.
  - intros (? & id & Hx). split; [done|]. exists (id, s). by rewrite elem_of_map_to_list.
Qed.

Lemma matches_project db p s :
  schedule_matches db None (Some p) None None s = true ↔
  is_Some (projects db !! ps_project_id s) ∧ ps_project_id s = p.
Proof using Type.
  unfold schedule_matches. destruct (projects db !! ps_project_id s); simpl.
  - rewrite !andb_true_r, bool_decide_eq_true. naive_solver.
  - split; [done|]. by intros [[] _].
Qed.

Lemma schedule_by_project_lookup db id s p :
  sched_inv db → schedules db !! id = Some s → ps_project_id s = p → schedule_by_project p db = Some s.
Proof using Type.
  intros Hi Hs Hp. apply head_sorted_unique.
  - apply (merge_sort_elem schedule_order), elem_of_schedules_by. split; [|eauto].
    apply matches_project. split; [by apply (si_schedules _ Hi _ _ Hs)|done].
  - intros y Hy%(merge_sort_elem schedule_order). apply elem_of_schedules_by in Hy as [[_ Hm]%matches_project (id' & Hy)].
    assert (id' = id) as -> by (eapply (si_projects _ Hi); [done..|congruence]). congruence.
Qed.

Lemma schedule_by_project_Some db s p :
  sched_inv db → schedule_by_project p db = Some s →
  schedules db !! ps_id s = Some s ∧ ps_project_id s = p.
Proof using Type.
  intros Hi Hs. assert (s ∈ get_project_schedules_by None (Some p) None None db) as Hin.
  { unfold schedule_by_project in Hs. destruct (get_project_schedules_by _ _ _ _ _); [done|].
    injection Hs as ->. left. }
  apply elem_of_schedules_by in Hin as [[_ Hm]%matches_project (id & Hid)].
  by rewrite (si_schedule_keys _ Hi _ _ Hid).
Qed.

Lemma schedule_by_project_None db p :
  sched_inv db → schedule_by_project p db = None → project_free db p = true.
Proof using Type.
  intros Hi Hn. apply forallb_forall. intros [id s] Hin%list_elem_of_In%elem_of_map_to_list. simpl.
  apply negb_true_iff, bool_decide_eq_false. intros Hp.
  by rewrite (schedule_by_project_lookup _ _ _ _ Hi Hin Hp) in Hn.
Qed.

(** An [UPDATE] of a row nobody else changed stores the object as it is. *)
Lemma flush_schedule_self v now s :
  flush_schedule s (update_project_schedule v now s) s = update_project_schedule v now s.
Proof using Type.
  assert (∀ {A} `{EqDecision A} (x y : A), changed x y x = y) as Hc.
  { intros A HA x y. unfold changed. by case_bool_decide. }
  unfold flush_schedule. by rewrite !Hc.
Qed.

(** ** Scheduling and reading back *)

Record configured (s : ProjectScheduleRecord) (p cron u : string) (mode : PipelineExecutionMode)
    (force : bool) (retries delay : Z) (backoff : RetryBackoff) (max_delay : Z) : Prop := {
  cf_project : ps_project_id s = p;
  cf_cron : ps_cron s = cron;
  cf_disabled : ps_disabled s = false;
  cf_user : ps_scheduled_by_user_id s = Some u;
  cf_mode : ps_mode s = mode;
  cf_force : ps_force_exec s = force;
  cf_retries : ps_max_retries s = retries;
  cf_delay : ps_retry_delay_seconds s = delay;
  cf_backoff : ps_retry_backoff s = backoff;
  cf_max_delay : ps_retry_max_delay_seconds s = max_delay;
}.

Definition policy_in_bounds (retries delay max_delay : Z) : bool :=
  between 0 10 retries && between 1 86400 delay && between 1 86400 max_delay.

Lemma total_flush_schedule_update db s new :
  schedules db !! ps_id s = Some s → schedule_checks (flush_schedule s new s) = true →
  user_fk db (ps_scheduled_by_user_id (flush_schedule s new s)) = true →
  total (λ db0, db0 = db) (flush_schedule_update s new) (λ _ db0, db0 = db).
Proof using Hq.
  intros Hs Hc Hu. apply (total_bind _ _ (λ _ db0, db0 = db)).
  - apply total_effectful; [done|]. intros n ? ->. rewrite Hs, Hc, Hu. by exists (), db.
  - intros [] w Hw. by exists (), (sw_set_locks (sw_run_locks w) ({[ps_id s]} ∪ sw_schedule_locks w) w).
Qed.

Lemma total_schedule_session p cron u mode force retries delay backoff max_delay :
  policy_in_bounds retries delay max_delay = true →
  total (λ db, sched_inv db ∧ is_Some (projects db !! p) ∧ is_Some (users db !! u))
    (schedule_session p cron u mode force retries delay backoff max_delay)
    (λ _ db, ∃ id s, schedules db !! id = Some s ∧ configured s p cron u mode force retries delay backoff max_delay).
Proof using Hq.
  intros Hb. apply total_frozen. intros db (Hi & [pr Hpr] & [us Hus]). apply total_in_session.
  apply (total_select_known Hq _ _ (Some pr)); [by intros ? ->|].
  apply (total_select_known Hq _ _ (schedule_by_project p db)); [by intros ? ->|].
  eapply total_bind; [apply total_utcnow|]. intros now.
  destruct (schedule_by_project p db) as [s|] eqn:Es.
  - apply schedule_by_project_Some in Es as [Hs Hp]; [|done].
    eapply total_bind; [apply total_flush_schedule_update; [done|..]; rewrite flush_schedule_self|].
    + by simpl.
    + simpl. by rewrite Hus, bool_decide_eq_true_2.
    + intros ?. apply total_effectful; [done|]. intros n ? ->. eexists (), _. split; [done|].
      exists (ps_id s). unfold write_schedule. rewrite Hs, flush_schedule_self. simpl.
      rewrite lookup_insert_eq. eexists. split; [done|]. by split.
  - apply total_effectful; [done|]. intros n ? ->. cbv zeta.
    match goal with |- context [insert_schedule_allowed ?d ?s] => assert (insert_schedule_allowed d s = true) as -> end.
    { unfold insert_schedule_allowed. simpl. rewrite Hpr, Hus. simpl.
      unfold schedule_checks. simpl.
      unfold policy_in_bounds in Hb. rewrite Hb. simpl. by apply schedule_by_project_None. }
    eexists (), _. split; [done|]. eexists _, _. split; [apply lookup_insert_eq|by split].
Qed.

Abbreviation keeps_jobs := (keeps sw_jobs).

Lemma jobs_arrive w : sw_jobs (arrive w) = sw_jobs w.
Proof using Hq. unfold arrive; simpl. apply (q_jobs Hq). Qed.

Lemma keeps_jobs_effectful {A} (f : nat → SchedDB → outcome sched_exn (A * SchedDB)) : keeps_jobs (effectful f).
Proof using Hq. apply keeps_effectful; [done|apply jobs_arrive|done]. Qed.

Lemma keeps_jobs_session p cron u mode force retries delay backoff max_delay :
  keeps_jobs (schedule_session p cron u mode force retries delay backoff max_delay).
Proof using Hq.
  apply keeps_try_finally; [done|]. apply sp_keeps_bind; [apply keeps_jobs_effectful|]. intros [pr|]; [|apply keeps_throw].
  apply sp_keeps_bind; [apply keeps_jobs_effectful|]. intros schedule. apply sp_keeps_bind; [done|]. intros now.
  destruct schedule; [|apply keeps_jobs_effectful].
  apply sp_keeps_bind; [|intros; apply keeps_jobs_effectful].
  apply sp_keeps_bind; [apply keeps_jobs_effectful|done].
Qed.

Lemma keeps_jobs_get p : keeps_jobs (get_scheduled_project p).
Proof using Hq.
  apply keeps_try_finally; [done|]. apply sp_keeps_bind; [apply keeps_jobs_effectful|].
  intros [s|]; [|done]. apply sp_keeps_bind; [apply keeps_jobs_effectful|]. done.
Qed.

Lemma keeps_jobs_unschedule p : keeps_jobs (unschedule_session p).
Proof using Hq.
  apply keeps_try_finally; [done|]. apply sp_keeps_bind; [apply keeps_jobs_effectful|]. intros [s|]; [|done].
  apply sp_keeps_bind; [done|]. intros now.
  apply sp_keeps_bind; [apply sp_keeps_bind; [apply keeps_jobs_effectful|done]|]. intros ?.
  apply sp_keeps_bind; [|intros; apply keeps_jobs_effectful].
  apply sp_keeps_bind; [|intros [r|]; [by apply sp_keeps_bind|done]].
  apply sp_keeps_bind; [done|]. intros n. apply sp_keeps_bind; [apply keeps_jobs_effectful|]. intros [r|]; [|done].
  by destruct (se_row_locked n (sr_id r)).
Qed.

(** [get_scheduled_project] in a quiet environment: the schedule of the project as stored. *)
Lemma get_scheduled_project_spec p s w :
  schedule_by_project p (sw_db w) = Some s →
  (get_scheduled_project p w).1 = Ok (Some (to_schedule_response s
    (dget (get_latest_runs_by_schedule_ids [ps_id s] (sw_db w)) (ps_id s)) (sw_jobs w))).
Proof using Hq.
  intros Hs. unfold get_scheduled_project, in_session, try_finally, mbind, SP_bind, select, effectful.
  rewrite !(q_fault Hq).
  assert (∀ w, sw_db (arrive w) = sw_db w) as Hdb by (intros; unfold arrive; simpl; apply (q_others Hq)).
  rewrite Hdb, Hs. rewrite (q_fault Hq). cbn -[arrive].
  repeat (rewrite Hdb || rewrite jobs_arrive || rewrite (q_fault Hq) || cbn -[arrive]). done.
Qed.

(** What was configured can be read back: scheduling a project with a valid cron expression and a
    retry policy within its bounds succeeds, and reading the schedule afterwards returns exactly the
    values given, an enabled schedule, and the next run time of its job. *)
Theorem schedule_project_roundtrip p cron u next mode force retries delay backoff max_delay w :
  sched_inv (sw_db w) → is_Some (projects (sw_db w) !! p) → is_Some (users (sw_db w) !! u) →
  se_from_crontab cron = None → validate_retry_policy backoff delay max_delay = None →
  policy_in_bounds retries delay max_delay = true →
  ∃ w' now chain,
    schedule_project p cron u next mode force retries delay backoff max_delay w = (Ok (), w') ∧
    (get_scheduled_project p w').1
    = Ok (Some (mkResponse p cron false (Some u) mode force retries delay backoff max_delay
                  (match next with Some t => Some t | None => se_next_fire_time cron now end)
                  (Some p) chain)).
Proof using Hq.
  intros Hi Hp Hu Hcron Hpol Hb.
  destruct (total_schedule_session p cron u mode force retries delay backoff max_delay Hb w) as ([] & w1 & E1 & id & s & Hs & Hcf); [done|].
  pose proof (safe_schedule_session p cron u mode force retries delay backoff max_delay w Hi I) as [Hsteps _].
  rewrite E1 in Hsteps. assert (sched_inv (sw_db w1)) as Hi1 by by eapply inv_steps.
  unfold schedule_project, check_crontab, check_retry_policy, schedule_project_in_memory.
  rewrite Hcron, Hpol. unfold mbind, SP_bind. simpl. rewrite E1. simpl.
  set (nxt := match next with Some t => Some t | None => _ end).
  eexists _, (se_clock (sw_step w1)), _. split; [reflexivity|].
  assert (schedule_by_project p (sw_db w1) = Some s) as Hsp
    by (eapply schedule_by_project_lookup; [done|done|apply Hcf]).
  rewrite (get_scheduled_project_spec p s) by done. do 2 f_equal.
  destruct Hcf as [<- <- Hd <- <- <- <- <- <- <-]. unfold to_schedule_response. rewrite Hd. simpl.
  rewrite dget_dset_eq. simpl. reflexivity.
Qed.

(** ** Unscheduling *)

Lemma get_active_run_None sid db :
  (∀ id r, schedule_runs db !! id = Some r → sr_schedule_id r = sid → sr_finished_at r ≠ None) →
  get_active_run sid db = None.
Proof using Type.
  clear Hq. intros H. destruct (get_active_run sid db) as [r|] eqn:E; [|done]. exfalso.
  apply head_sorted_elem, elem_of_active_runs in E as ((id & Hid) & E1 & E2). by eapply H.
Qed.

Lemma write_cancelled_clears n sid db reason now (r : option ProjectScheduleRunRecord) :
  sched_inv db → get_active_run sid db = r →
  get_active_run sid (write_cancelled n ((λ r, (r, finish_run RS.CANCELLED now reason r)) <$> r) db) = None.
Proof using Type.
  clear Hq. intros Hi E. apply get_active_run_None. intros id x Hx Hsid Hfin.
  destruct r as [r|]; simpl in Hx.
  - apply get_active_run_spec in E as (Hr & Hrs & Hrf); [|done].
    destruct (flush_run_updated n r (finish_run RS.CANCELLED now reason r)) as [u Hu].
    rewrite Hu in Hx. unfold put_run in Hx; simpl in Hx. rewrite lookup_insert in Hx.
    case_decide as Ed.
    + injection Hx as <-. by destruct r.
    + assert (id = sr_id r) as -> by (eapply (si_active _ Hi id (sr_id r) x r); congruence).
      apply Ed. by destruct r.
  - assert (x ∈ active_runs sid db) as Hin by (apply elem_of_active_runs; eauto).
    apply (merge_sort_elem newest_first) in Hin. unfold get_active_run in E.
    destruct (merge_sort newest_first (active_runs sid db)); [by apply not_elem_of_nil in Hin|done].
Qed.

Lemma total_unschedule_session p s :
  total (λ db, sched_inv db ∧ schedule_by_project p db = Some s ∧ user_fk db (ps_scheduled_by_user_id s) = true)
    (unschedule_session p)
    (λ _ db, get_active_run (ps_id s) db = None ∧
             ∃ now, schedules db !! ps_id s = Some
               (update_project_schedule (mkValues None (Some true) None None None None None None None) now s)).
Proof using Hq.
  apply total_frozen. intros db (Hi & Hs & Hu). apply total_in_session.
  apply (total_select_known Hq _ _ (Some s)); [by intros ? ->|].
  apply schedule_by_project_Some in Hs as [Hs Hp]; [|done].
  eapply total_bind; [apply total_utcnow|]. intros now.
  eapply total_bind; [apply total_flush_schedule_update; [done|..]; rewrite flush_schedule_self|].
  { by apply (si_schedules _ Hi _ _ Hs). }
  { done. }
  intros ?. unfold cancel_active_run.
  apply (total_bind _ _ (λ c db0, db0 = db ∧ ∃ t, c = (λ r, (r, finish_run RS.CANCELLED t (Some "Schedule unscheduled") r))
                                       <$> get_active_run (ps_id s) db)).
  - apply (total_select_for_update_known Hq _ _ (get_active_run (ps_id s) db)); [by intros ? ->|].
    destruct (get_active_run (ps_id s) db) as [r|].
    + eapply total_bind; [apply total_utcnow|]. intros t. apply total_ret. intros ? ->. eauto.
    + apply total_ret. intros ? ->. split; [done|]. by exists 0%Z.
  - intros c. apply total_effectful; [done|]. intros n ? [-> [t ->]]. eexists (), _. split; [done|].
    unfold write_schedule. rewrite Hs, flush_schedule_self.
    set (s' := update_project_schedule _ now s).
    assert (sched_inv (put_schedule s' db)) as Hi'.
    { apply (inv_update_schedule _ s); [done|done|done|done|]. by apply (si_schedules _ Hi _ _ Hs). }
    split; [by apply write_cancelled_clears|]. exists now.
    destruct (get_active_run (ps_id s) db) as [r|]; simpl; by rewrite lookup_insert_eq.
Qed.

(** Unscheduling a project stops it: the job that fires the cron expression is gone, the stored
    schedule differs from the old one only in being disabled (and its time stamp), and the schedule
    has no unfinished run any more. *)
Theorem unschedule_project_stops p s w :
  sched_inv (sw_db w) → dwf (sw_jobs w) → schedule_by_project p (sw_db w) = Some s →
  user_fk (sw_db w) (ps_scheduled_by_user_id s) = true →
  ∃ w' now, unschedule_project p w = (Ok (), w') ∧ dget (sw_jobs w') p = None ∧
    get_active_run (ps_id s) (sw_db w') = None ∧
    schedules (sw_db w') !! ps_id s
    = Some (mkSchedule (ps_id s) (ps_project_id s) (ps_scheduled_by_user_id s) (ps_cron s) true (ps_mode s)
              (ps_force_exec s) (ps_max_retries s) (ps_retry_delay_seconds s) (ps_retry_backoff s)
              (ps_retry_max_delay_seconds s) (ps_created_at s) now).
Proof using Hq.
  intros Hi Hwf Hs Hu. set (w1 := sw_set_jobs (dpop (sw_jobs w) p) w).
  assert (∃ w1, remove_job_if_present p w = (Ok (), w1) ∧ sw_db w1 = sw_db w ∧ dget (sw_jobs w1) p = None)
    as (w2 & E2 & Hdb2 & Hj2).
  { unfold remove_job_if_present, mbind, SP_bind, get_job, remove_job, sgets.
    destruct (dget (sw_jobs w) p) as [j|] eqn:Ej; [|by exists w]. rewrite Ej.
    exists w1. split_and!; [done..|]. by apply dget_dpop_eq. }
  destruct (total_unschedule_session p s w2) as ([] & w3 & E3 & Ha & now & Hs'); [by rewrite Hdb2|].
  assert (sw_jobs w3 = sw_jobs w2) as Hj3.
  { change w3 with ((Ok () : outcome sched_exn (), w3).2). rewrite <-E3. apply keeps_jobs_unschedule. }
  eexists _, now. split.
  - unfold unschedule_project, mbind, SP_bind. rewrite E2, E3. reflexivity.
  - split_and!; [by rewrite <-Hj2, <-Hj3|exact Ha|exact Hs'].
Qed.

End Config.
