(* ===== verification/SchedRun.v ===== *)
(** * Project scheduler: concrete runs

    The theorems about the project scheduler applied to a small concrete system: one project whose
    schedule allows one retry, its cron job firing, and the first attempt being started. *)
From S2P Require Import Prelude TaskTypes TaskStore TaskLifecycle Orchestrator SchedTypes SchedProtocol SchedInv SchedFlow SchedRefine SchedSpec SchedConfig.

Module SchedRuns.

(** The ids a generated one must differ from. *)
Definition ids_in_use (db : SchedDB) : list string :=
  elements (issued_run_ids db) ++ (map_to_list (schedules db)).*1 ++ (map_to_list (tasks (task_db db))).*1.

Definition new_id (db : SchedDB) : string := infinite_fresh (ids_in_use db).

Lemma new_id_fresh db : new_id db ∉ ids_in_use db.
Proof. apply infinite_is_fresh. Qed.

Lemma lookup_not_in_keys {A} (m : gmap string A) k : k ∉ (map_to_list m).*1 → m !! k = None.
Proof.
  intros Hn. destruct (m !! k) as [x|] eqn:E; [|done]. exfalso. apply Hn.
  apply list_elem_of_fmap. exists (k, x). by rewrite elem_of_map_to_list.
Qed.

Lemma new_id_spec db :
  (new_id db ∉ issued_run_ids db) ∧ schedules db !! (new_id db) = None ∧ tasks (task_db db) !! (new_id db) = None.
Proof.
  pose proof (new_id_fresh db) as H. unfold ids_in_use in H. rewrite !not_elem_of_app, elem_of_elements in H.
  destruct H as (H1 & H2 & H3). split_and!; [done|by apply lookup_not_in_keys..].
Qed.

(** No failures, no other process, a clock that advances by one second per step; a cron expression is
    accepted unless it is empty, and fires a minute later. *)
#[local] Instance quiet_env : SchedEnv := {|
  se_coll := C_collation;
  se_fk := λ _, true;
  se_clock := λ n, (1000000 * Z.of_nat n)%Z;
  se_uuid := λ _, new_id;
  se_row_id := λ _ db, infinite_fresh (ob_id <$> outbox db);
  se_fault := λ _, None;
  se_lost := λ _, false;
  se_row_locked := λ _ _, false;
  se_others := λ _ _ _ db, db;
  se_other_jobs := λ _ j, j;
  se_from_crontab := λ c, if str_truthy c then None else Some "Wrong number of fields";
  se_next_fire_time := λ _ now, Some (now + 60000000)%Z;
  se_prepare_task := λ _ _ _, Ok "{}";
  se_str := λ _, "error";
  se_others_ok := λ _ _ _ db, rtc_refl _ db;
  se_others_runs := λ _ _ _ _ _ _, eq_refl;
  se_others_schedules := λ _ _ _ _ _ _, eq_refl;
  se_uuid_new := λ _ db, new_id_spec db;
  se_row_id_new := λ _ db, infinite_is_fresh (ob_id <$> outbox db);
|}.

Lemma quiet_env_quiet : quiet.
Proof. done. Qed.

(** One project and one administrator. *)
Definition seeded : SchedDB :=
  mkSchedDB ∅ ∅ {["p" := mkProject "p" "org"]} {["u" := mkUser "u" "superadmin" true true 0]} initial_db ∅.

Lemma seeded_reachable : sched_steps se_fk initial_sched seeded.
Proof. apply rtc_once. exists 0%Z. refine (ss_projects _ 0 initial_sched _ _ _). done. Qed.

Lemma seeded_inv : sched_inv seeded.
Proof. eapply inv_steps; [apply seeded_reachable|apply inv_initial]. Qed.

Definition w0 : SchedWorld := mkSchedWorld seeded [] false 1 ∅ ∅.

(** The schedule is stored, its cron fires, and the new run is reconciled. *)
Definition schedule_cmd : sched_command :=
  ScheduleProject "p" "0 * * * *" "u" None FULL false 1 60 EXPONENTIAL 3600.
Definition scheduled : SchedWorld := run_commands [schedule_cmd] w0.
Definition fired : SchedWorld := run_commands [schedule_cmd; CronFired "p"] w0.
Definition started : SchedWorld := run_commands [schedule_cmd; CronFired "p"; ReconcileRound] w0.
Definition stopped : SchedWorld :=
  run_commands [schedule_cmd; CronFired "p"; ReconcileRound; UnscheduleProject "p"] w0.

Lemma commands_reach cs : sched_steps se_fk initial_sched (sw_db (run_commands cs w0)).
Proof. etrans; [apply seeded_reachable|]. by destruct (run_commands_refine cs w0 seeded_inv). Qed.

Lemma commands_inv cs : sched_inv (sw_db (run_commands cs w0)).
Proof. by destruct (run_commands_refine cs w0 seeded_inv). Qed.

(** The first run of a world. *)
Definition first_run (w : SchedWorld) : option ProjectScheduleRunRecord :=
  head (map_to_list (schedule_runs (sw_db w))).*2.

Example started_state :
  (λ r, (sr_status r, sr_attempt_number r)) <$> first_run started = Some (RS.RUNNING, 1%Z).
Proof. vm_compute. reflexivity. Qed.

Example stopped_state :
  (λ r, (sr_status r, sr_last_error r)) <$> first_run stopped = Some (RS.CANCELLED, Some "Schedule unscheduled").
Proof. vm_compute. reflexivity. Qed.

(** ** The theorems at these worlds *)

Lemma reachable_schedules_are_consistent_witness :
  sched_steps se_fk initial_sched (sw_db started) ∧ sched_inv (sw_db started).
Proof.
  split; [apply commands_reach|].
  apply (reachable_schedules_are_consistent se_fk). apply commands_reach.
Defined.

Definition the_run (w : SchedWorld) : ProjectScheduleRunRecord :=
  default (new_run "" (create_project_schedule "" "" "" None FULL false 0 1 FIXED 1 0) 0 0) (first_run w).

Lemma fired_run : schedule_runs (sw_db fired) !! "1" = Some (the_run fired).
Proof. vm_compute. reflexivity. Qed.

Lemma started_run : schedule_runs (sw_db started) !! "1" = Some (the_run started).
Proof. vm_compute. reflexivity. Qed.

Lemma stopped_run : schedule_runs (sw_db stopped) !! "1" = Some (the_run stopped).
Proof. vm_compute. reflexivity. Qed.

(** Two more rounds after the run was cancelled. *)
Definition after_unschedule : SchedWorld := run_commands [ReconcileRound; CronFired "p"; ReconcileRound] stopped.

Lemma finished_runs_are_final_witness :
  schedule_runs (sw_db after_unschedule) !! "1" = Some (the_run after_unschedule) ∧ the_run after_unschedule = the_run stopped.
Proof.
  assert (schedule_runs (sw_db after_unschedule) !! "1" = Some (the_run after_unschedule)) as H by (vm_compute; reflexivity).
  split; [exact H|].
  apply (finished_runs_are_final se_fk (sw_db stopped) (sw_db after_unschedule) "1").
  - apply commands_inv.
  - exact stopped_run.
  - vm_compute. discriminate.
  - apply (run_commands_refine [ReconcileRound; CronFired "p"; ReconcileRound] stopped), commands_inv.
  - exact H.
Defined.

Lemma run_commands_app cs cs' w : run_commands (cs ++ cs') w = run_commands cs' (run_commands cs w).
Proof. revert w; induction cs as [|c cs IH]; intros w; [done|apply IH]. Qed.

Lemma commands_after cs cs' : sched_steps se_fk (sw_db (run_commands cs w0)) (sw_db (run_commands (cs ++ cs') w0)).
Proof. rewrite run_commands_app. apply run_commands_refine, commands_inv. Qed.

Lemma started_after_fired : sched_steps se_fk (sw_db fired) (sw_db started).
Proof. unfold fired, started. exact (commands_after [schedule_cmd; CronFired "p"] [ReconcileRound]). Qed.

Lemma run_starts_bounded_tasks_witness :
  length (tasks_of_run "1" (sw_db started)) = 1%nat ∧
  (Z.of_nat (length (tasks_of_run "1" (sw_db started))) ≤ sr_max_retries (the_run fired) + 1)%Z.
Proof.
  split; [vm_compute; reflexivity|].
  apply (run_starts_bounded_tasks se_fk (sw_db fired) (sw_db started) "1" (the_run fired) (the_run started)).
  - exact (commands_reach [schedule_cmd; CronFired "p"]).
  - exact fired_run.
  - exact started_after_fired.
  - exact started_run.
Defined.

Lemma manager_refines_protocol_witness :
  sched_steps se_fk (sw_db w0) (sw_db stopped) ∧ sched_inv (sw_db stopped).
Proof. apply (manager_refines_protocol _ w0). exact seeded_inv. Defined.

(** The first attempt has failed at second 100. *)
Definition failed_run : ProjectScheduleRunRecord :=
  set_run_updated_at 0 (record_attempt_failure 100000000 "boom" (set_current_task_id (Some "2") (the_run started))).
Definition failed_db : SchedDB := put_run failed_run (sw_db started).

Lemma failed_inv : sched_inv failed_db.
Proof.
  apply (inv_trans _ 100000000 (the_run started)); [apply commands_inv| |apply rt_failed].
  - vm_compute. reflexivity.
  - vm_compute. reflexivity.
  - vm_compute. discriminate.
Qed.

(** A minute later, less a second, another project is added. *)
Definition failed_db' : SchedDB :=
  mkSchedDB (schedules failed_db) (schedule_runs failed_db) (<["q" := mkProject "q" "org"]> (projects failed_db))
    (users failed_db) (task_db failed_db) (issued_run_ids failed_db).

Lemma failed_later : sched_steps_during se_fk 100000000 160000000 failed_db failed_db'.
Proof.
  apply rtc_once. exists 159000000%Z. split; [lia|]. refine (ss_projects _ _ failed_db _ _ _).
  intros sid s Hs. destruct (si_schedules _ failed_inv _ _ Hs) as [_ Hp].
  apply lookup_insert_is_Some'. by right.
Qed.

Lemma retry_waits_for_backoff_witness :
  ∃ r', schedule_runs failed_db' !! "1" = Some r' ∧ sr_status r' = RS.WAITING_RETRY ∧ sr_attempt_number r' = 1%Z.
Proof.
  exists failed_run. split; [vm_compute; reflexivity|]. split; [vm_compute; reflexivity|].
  apply (retry_waits_for_backoff se_fk failed_db failed_db' "1" (the_run started) failed_run "boom" (Some "2") 0 100000000).
  - exact failed_inv.
  - vm_compute. reflexivity.
  - exact failed_later.
  - vm_compute. reflexivity.
Defined.

Lemma retry_delay_bounds_witness :
  (calculate_retry_delay_seconds (the_run started) 1 ≤ 86400)%Z ∧
  calculate_retry_delay_seconds (the_run started) 2 = 120%Z.
Proof.
  destruct (retry_delay_bounds (the_run started) 1) as ((_ & H1) & _ & _ & H2).
  - eapply si_runs; [apply commands_inv|exact started_run].
  - lia.
  - split; [exact H1|]. destruct H2 as [_ H2]; [reflexivity|vm_compute; discriminate|].
    etransitivity; [exact H2|]. vm_compute. reflexivity.
Defined.

Lemma fired_unfinished : sr_finished_at (the_run fired) = None.
Proof. vm_compute. reflexivity. Qed.

Lemma fired_user : is_Some (get_default_service_user (sw_db fired)).
Proof. exists (mkUser "u" "superadmin" true true 0). vm_compute. reflexivity. Qed.

(** A minute after the start the attempt's task is still queued. *)
Lemma unfinished_run_is_ready_or_waits_witness :
  ready 90000000 "1" (the_run started) (sw_db started) = true ∨
  (sr_status (the_run started) = RS.WAITING_RETRY ∧
     ∃ t, sr_next_retry_at (the_run started) = Some t ∧ (90000000 < t)%Z) ∨
  (∃ t, get_attempt_task "1" 1 (sw_db started) = Some t ∧ terminal (tr_status t) = false) ∨
  (get_attempt_task "1" 1 (sw_db started) = None ∧
   (90000000 < default (sr_updated_at (the_run started)) (sr_attempt_started_at (the_run started)) + 60000000)%Z).
Proof.
  apply (unfinished_run_is_ready_or_waits 90000000 "1" (the_run started) (sw_db started)).
  - apply commands_inv.
  - exact started_run.
  - vm_compute. reflexivity.
Defined.

Lemma fired_drives : drives "1" 1 fired (reconcile_run "1" fired).2.
Proof.
  eapply (dr_reconcile "1" 0 fired _ (the_run fired)); [exact fired_run|exact fired_unfinished| |constructor].
  vm_compute. reflexivity.
Qed.

Lemma run_chain_is_bounded_witness :
  (1 ≤ chain_measure (the_run fired))%nat ∧ (Z.of_nat (chain_measure (the_run fired)) ≤ 2 * (1 + 1))%Z.
Proof.
  destruct (run_chain_is_bounded quiet_env_quiet "1" 1 fired (reconcile_run "1" fired).2 (the_run fired))
    as (H1 & H2 & _).
  - exact fired_drives.
  - apply commands_inv.
  - exact fired_run.
  - exact fired_user.
  - split; [exact H1|exact H2].
Defined.

Lemma schedule_project_roundtrip_witness :
  ∃ w' now chain,
    schedule_project "p" "0 * * * *" "u" None FULL true 3 30 EXPONENTIAL 600 w0 = (Ok (), w') ∧
    (get_scheduled_project "p" w').1
    = Ok (Some (mkResponse "p" "0 * * * *" false (Some "u") FULL true 3 30 EXPONENTIAL 600
                  (se_next_fire_time "0 * * * *" now) (Some "p") chain)).
Proof.
  apply (schedule_project_roundtrip quiet_env_quiet "p" "0 * * * *" "u" None FULL true 3 30 EXPONENTIAL 600 w0).
  - exact seeded_inv.
  - eexists. reflexivity.
  - eexists. reflexivity.
  - reflexivity.
  - reflexivity.
  - reflexivity.
Defined.

Definition started_schedule : ProjectScheduleRecord :=
  default (create_project_schedule "" "" "" None FULL false 0 1 FIXED 1 0) (schedule_by_project "p" (sw_db started)).

Lemma unschedule_project_stops_witness :
  ∃ w' now, unschedule_project "p" started = (Ok (), w') ∧ dget (sw_jobs w') "p" = None ∧
    get_active_run (ps_id started_schedule) (sw_db w') = None ∧
    schedules (sw_db w') !! ps_id started_schedule
    = Some (mkSchedule (ps_id started_schedule) (ps_project_id started_schedule)
              (ps_scheduled_by_user_id started_schedule) (ps_cron started_schedule) true (ps_mode started_schedule)
              (ps_force_exec started_schedule) (ps_max_retries started_schedule)
              (ps_retry_delay_seconds started_schedule) (ps_retry_backoff started_schedule)
              (ps_retry_max_delay_seconds started_schedule) (ps_created_at started_schedule) now).
Proof.
  apply (unschedule_project_stops quiet_env_quiet "p" started_schedule started).
  - apply commands_inv.
  - unfold dwf. by_decide.
  - vm_compute. reflexivity.
  - vm_compute. reflexivity.
Defined.

End SchedRuns.
