(* ===== verification/SchedPolicy.v ===== *)
(** * Project scheduler: what one reconciliation does to a run

    The specification [settled] lists the cases by the rows of the database and by the clock, and gives
    the columns the run has afterwards. [reconcile_run] implements it. *)
From S2P Require Import Prelude TaskTypes TaskStore TaskLifecycle SchedTypes SchedProtocol SchedInv SchedFlow SchedSpec SchedRun.

(** The schedule of the run exists and is enabled. *)
Definition schedule_live (r : ProjectScheduleRunRecord) (db : SchedDB) : Prop :=
  ∃ s, schedules db !! sr_schedule_id r = Some s ∧ ps_disabled s = false.

(** A task of the current attempt. *)
Definition attempt_task (rid : string) (r : ProjectScheduleRunRecord) (db : SchedDB) (t : TaskRecord) : Prop :=
  (∃ id, tasks (task_db db) !! id = Some t) ∧
  tr_schedule_run_id t = Some rid ∧ tr_schedule_attempt t = Some (sr_attempt_number r).

(** The current attempt has failed: its task ended with an error, or sixty seconds after the start there
    is no task. *)
Definition attempt_failed (now : Z) (rid : string) (r : ProjectScheduleRunRecord) (db : SchedDB) : Prop :=
  sr_status r ∈ [RS.STARTING; RS.RUNNING] ∧
  ((∃ t, attempt_task rid r db t ∧ tr_status t = ERROR) ∨
   (∀ t, ¬ attempt_task rid r db t) ∧ (default (sr_updated_at r) (sr_attempt_started_at r) + 60000000 ≤ now)%Z).

(** Seconds between the failure of an attempt and the next one. *)
Inductive retry_pause (r : ProjectScheduleRunRecord) : Z → Prop :=
  | bo_fixed : sr_retry_backoff r = FIXED → retry_pause r (sr_retry_delay_seconds r)
  | bo_exponential :
      sr_retry_backoff r = EXPONENTIAL →
      retry_pause r (Z.min (sr_retry_delay_seconds r * 2 ^ (sr_attempt_number r - 1)) (sr_retry_max_delay_seconds r)).

(** Status, attempt number, [finished_at] and [next_retry_at] of an unfinished run after a reconciliation
    at the time [now] in microseconds. *)
Inductive settled (now : Z) (rid : string) (r : ProjectScheduleRunRecord) (db : SchedDB)
    : RS.run_status → Z → option Z → option Z → Prop :=
  | sd_no_schedule :
      ¬ schedule_live r db → settled now rid r db RS.CANCELLED (sr_attempt_number r) (Some now) None
  | sd_first :
      schedule_live r db → sr_status r = RS.PENDING → settled now rid r db RS.RUNNING (sr_attempt_number r + 1) None None
  | sd_retry t :
      schedule_live r db → sr_status r = RS.WAITING_RETRY → sr_next_retry_at r = Some t → (t ≤ now)%Z →
      settled now rid r db RS.RUNNING (sr_attempt_number r + 1) None None
  | sd_wait t :
      schedule_live r db → sr_status r = RS.WAITING_RETRY → sr_next_retry_at r = Some t → (now < t)%Z →
      settled now rid r db RS.WAITING_RETRY (sr_attempt_number r) None (Some t)
  | sd_success t :
      schedule_live r db → sr_status r ∈ [RS.STARTING; RS.RUNNING] → attempt_task rid r db t → tr_status t = SUCCESS →
      settled now rid r db RS.SUCCESS (sr_attempt_number r) (Some now) None
  | sd_cancelled t :
      schedule_live r db → sr_status r ∈ [RS.STARTING; RS.RUNNING] → attempt_task rid r db t → tr_status t = CANCELLED →
      settled now rid r db RS.CANCELLED (sr_attempt_number r) (Some now) None
  | sd_failed delay :
      schedule_live r db → attempt_failed now rid r db → (sr_attempt_number r ≤ sr_max_retries r)%Z → retry_pause r delay →
      settled now rid r db RS.WAITING_RETRY (sr_attempt_number r) None (Some (now + delay * 1000000)%Z)
  | sd_exhausted :
      schedule_live r db → attempt_failed now rid r db → (sr_max_retries r < sr_attempt_number r)%Z →
      settled now rid r db RS.ERROR (sr_attempt_number r) (Some now) None
  | sd_running t :
      schedule_live r db → sr_status r ∈ [RS.STARTING; RS.RUNNING] → attempt_task rid r db t →
      tr_status t ∉ [SUCCESS; ERROR; CANCELLED] →
      settled now rid r db RS.RUNNING (sr_attempt_number r) None (sr_next_retry_at r)
  | sd_starting :
      schedule_live r db → sr_status r ∈ [RS.STARTING; RS.RUNNING] → (∀ t, ¬ attempt_task rid r db t) →
      (now < default (sr_updated_at r) (sr_attempt_started_at r) + 60000000)%Z →
      settled now rid r db (sr_status r) (sr_attempt_number r) None (sr_next_retry_at r).

(** ** The queries *)

Section Policy.
Context {env : SchedEnv}.

Lemma schedule_by_id_live db r :
  sched_inv db → schedule_gone (schedule_by_id (sr_schedule_id r) db) = false ↔ schedule_live r db.
Proof.
  intros Hi. split.
  - destruct (schedule_by_id _ db) as [s|] eqn:E; [|done]. simpl. intros Hd.
    apply schedule_by_id_Some in E as [Hs _]; [|done]. by exists s.
  - intros (s & Hs & Hd). destruct (si_schedules _ Hi _ _ Hs) as [_ [p Hp]].
    assert (s ∈ get_project_schedules_by (Some (sr_schedule_id r)) None None None db) as Hin.
    { unfold get_project_schedules_by. rewrite merge_sort_elem. apply list_elem_of_filter. split.
      - unfold schedule_matches. rewrite Hp. simpl. rewrite !andb_true_r. apply bool_decide_eq_true. by apply (si_schedule_keys _ Hi).
      - apply list_elem_of_fmap. exists (sr_schedule_id r, s). split; [done|]. by apply elem_of_map_to_list. }
    destruct (schedule_by_id (sr_schedule_id r) db) as [s'|] eqn:E.
    + apply schedule_by_id_Some in E as [Hs' _]; [|done]. by simplify_eq.
    + unfold schedule_by_id in E. destruct (get_project_schedules_by _ _ _ _ db); [by apply not_elem_of_nil in Hin|done].
Qed.

Lemma attempt_task_query rid r db :
  match get_attempt_task rid (sr_attempt_number r) db with
  | Some t => attempt_task rid r db t
  | None => ∀ t, ¬ attempt_task rid r db t
  end.
Proof.
  unfold get_attempt_task. set (l := filter _ _).
  assert (∀ t, t ∈ l ↔ attempt_task rid r db t) as Hl.
  { intros t. unfold l, attempt_task. rewrite list_elem_of_filter, list_elem_of_fmap. split.
    - intros [[H1 H2] ([id t'] & -> & Hin%elem_of_map_to_list)]. eauto.
    - intros ((id & Hin) & H1 & H2). split; [done|]. exists (id, t). by rewrite elem_of_map_to_list. }
  destruct l as [|t l]; simpl; [intros t Ht%Hl; by apply not_elem_of_nil in Ht|]. apply Hl. left.
Qed.

(** ** The decision settles the run *)

Lemma failure_frame error tid r :
  let x := set_last_error (Some error) (set_current_task_id tid r) in
  sr_attempt_number x = sr_attempt_number r ∧ sr_max_retries x = sr_max_retries r.
Proof. by destruct r. Qed.

Lemma failure_settles now rid r db error tid r' :
  run_ok r → schedule_live r db → attempt_failed now rid r db → sr_finished_at r = None →
  r' = record_attempt_failure now error (set_current_task_id tid r) →
  settled now rid r db (sr_status r') (sr_attempt_number r') (sr_finished_at r') (sr_next_retry_at r').
Proof.
  intros Hok Hl Hf Hfin ->.
  assert (1 ≤ sr_attempt_number r)%Z as Hb by (apply (ro_begun _ Hok); destruct Hf as [Hst _]; clear -Hst; destruct (sr_status r); set_solver).
  unfold record_attempt_failure. rewrite retry_delay_frame.
  destruct (failure_frame error tid r) as [-> ->].
  destruct (Z.leb_spec (sr_attempt_number r) (sr_max_retries r)) as [Hle|Hgt].
  - assert (retry_pause r (calculate_retry_delay_seconds r (sr_attempt_number r))) as Hd.
    { unfold calculate_retry_delay_seconds. case_bool_decide as E; [by apply bo_fixed|].
      rewrite Z.max_r by lia. apply bo_exponential. by destruct (sr_retry_backoff r). }
    pose proof (sd_failed now rid r db _ Hl Hf Hle Hd) as Hs. clear Hd. revert Hs. unfold seconds.
    generalize (calculate_retry_delay_seconds r (sr_attempt_number r) * 1000000)%Z. intros delay Hs.
    clear -Hs Hfin. destruct r; cbn in *. by subst.
  - pose proof (sd_exhausted now rid r db Hl Hf Hgt) as Hs. by destruct r.
Qed.

(** Only a new attempt changes the number. *)
Lemma run_decision_attempt now rid r db x : run_decision now rid r db = Become x → sr_attempt_number x = sr_attempt_number r.
Proof.
  unfold run_decision, run_branch, record_attempt_failure. intros H. repeat case_match; simplify_eq; by destruct r.
Qed.

Lemma decision_settles now rid r db r' :
  sched_inv db → schedule_runs db !! rid = Some r → sr_finished_at r = None →
  match run_decision now rid r db with
  | StartAttempt => sr_status r' = RS.RUNNING ∧ sr_attempt_number r' = (sr_attempt_number r + 1)%Z ∧
      sr_finished_at r' = None ∧ sr_next_retry_at r' = None
  | KeepRun => r' = r
  | Become x => ∃ u, r' = set_run_updated_at u x
  end →
  settled now rid r db (sr_status r') (sr_attempt_number r') (sr_finished_at r') (sr_next_retry_at r').
Proof.
  intros Hi Hr Hf. pose proof (si_runs _ Hi _ _ Hr) as Hok. pose proof (schedule_by_id_live db r Hi) as Hlive.
  assert (sr_status r ∈ ACTIVE_RUN_STATUSES) as Hact by by apply (ro_finished _ Hok).
  unfold run_decision, run_branch. destruct (schedule_gone _) eqn:Hg.
  { intros [u ->]. pose proof (sd_no_schedule now rid r db ltac:(by rewrite <-Hlive)) as Hs. by destruct r. }
  assert (schedule_live r db) as Hl by by apply Hlive. clear Hlive Hg.
  destruct (attempt_due now r) eqn:Hdue.
  { intros (-> & -> & -> & ->). unfold attempt_due in Hdue. apply orb_true_iff in Hdue as [Hp%bool_decide_eq_true|[Hw Hd]%andb_true_iff].
    - by apply sd_first.
    - apply bool_decide_eq_true in Hw. unfold due in Hd. destruct (sr_next_retry_at r) as [t|] eqn:Et; [|done].
      apply (sd_retry _ _ _ _ t); [done..|by apply Z.leb_le]. }
  pose proof (attempt_task_query rid r db) as Hq. case_bool_decide as Hst.
  - destruct (get_attempt_task rid (sr_attempt_number r) db) as [t|].
    + assert (tr_status t ∉ [SUCCESS; ERROR; CANCELLED] → (∃ u, r' = set_run_updated_at u (set_run_status RS.RUNNING (set_current_task_id (Some (tr_task_id t)) r))) →
        settled now rid r db (sr_status r') (sr_attempt_number r') (sr_finished_at r') (sr_next_retry_at r')) as Hrun.
      { intros Hn [u ->]. pose proof (sd_running now rid r db t Hl Hst Hq Hn) as Hs. clear -Hs Hf. destruct r; cbn in *. by subst. }
      destruct (tr_status t) eqn:Et; try (apply Hrun; set_solver).
      * intros [u ->]. pose proof (sd_success now rid r db t Hl Hst Hq Et) as Hs. by destruct r.
      * intros [u ->]. set (x := record_attempt_failure _ _ _).
        assert (settled now rid r db (sr_status x) (sr_attempt_number x) (sr_finished_at x) (sr_next_retry_at x)) as Hs.
        { eapply failure_settles; [done..| |done|reflexivity]. split; [done|]. left. eauto. }
        by destruct x.
      * intros [u ->]. pose proof (sd_cancelled now rid r db t Hl Hst Hq Et) as Hs. by destruct r.
    + unfold lease_expired, seconds, START_LEASE_SECONDS. destruct (Z.leb_spec (60 * 1000000) (now - default (sr_updated_at r) (sr_attempt_started_at r))) as [Hle|Hgt].
      * intros [u ->]. set (x := record_attempt_failure _ _ _).
        assert (settled now rid r db (sr_status x) (sr_attempt_number x) (sr_finished_at x) (sr_next_retry_at x)) as Hs.
        { eapply (failure_settles _ _ _ _ _ (sr_current_task_id r)); [done..| |done|unfold x; f_equal; by destruct r].
          split; [done|]. right. split; [done|]. lia. }
        by destruct x.
      * intros ->. rewrite Hf. apply sd_starting; [done..|]. lia.
  - intros ->. unfold attempt_due in Hdue. apply orb_false_iff in Hdue as [Hp%bool_decide_eq_false Hw].
    assert (sr_status r = RS.WAITING_RETRY) as Hwait.
    { unfold ACTIVE_RUN_STATUSES in Hact. clear -Hact Hst Hp. destruct (sr_status r); set_solver. }
    rewrite Hf, Hwait. destruct (ro_waiting _ Hok Hwait) as [_ [t Ht]]. rewrite Ht. apply sd_wait; [done..|].
    rewrite bool_decide_eq_true_2 in Hw by done. unfold due in Hw. rewrite Ht in Hw. by apply Z.leb_gt.
Qed.

(** C21. One reconciliation of an unfinished run, in a database that satisfies the invariants and has a
    service user, while no call fails and no other process commits: it returns normally, and the run then
    has the status, attempt number, end and next retry that [settled] gives for its schedule, the task of
    its attempt and the clock. When a new attempt is begun there is a task of that attempt, and the run
    refers to it. *)
Theorem reconcile_run_follows_policy rid r w :
  quiet → sched_inv (sw_db w) → schedule_runs (sw_db w) !! rid = Some r → sr_finished_at r = None →
  is_Some (get_default_service_user (sw_db w)) →
  ∃ w' r', reconcile_run rid w = (Ok (), w') ∧ schedule_runs (sw_db w') !! rid = Some r' ∧
    settled (se_clock (sw_step w)) rid r (sw_db w) (sr_status r') (sr_attempt_number r') (sr_finished_at r') (sr_next_retry_at r') ∧
    (sr_attempt_number r' ≠ sr_attempt_number r →
     ∃ tid t, sr_current_task_id r' = Some tid ∧ tasks (task_db (sw_db w')) !! tid = Some t ∧
       tr_schedule_run_id t = Some rid ∧ tr_schedule_attempt t = Some (sr_attempt_number r')).
Proof.
  intros Hq Hi Hr Hf Hu. destruct (reconcile_run_total Hq rid r w Hi Hr Hf Hu) as (w' & Hrun & Hc).
  set (now := se_clock (sw_step w)) in *.
  pose proof (λ r', decision_settles now rid r (sw_db w) r' Hi Hr Hf) as Hset.
  exists w'. unfold carried_out in Hc. destruct (run_decision now rid r (sw_db w)) as [| |x] eqn:Hd.
  - destruct Hc as (tid & u & v & Hrow & _ & t & Ht & Hcols). injection Hcols as H1 H2. eexists. split; [done|]. split; [done|].
    split; [apply Hset; by destruct r; simpl in *|]. intros _. exists tid, t. split_and!; [by destruct r|done..|by destruct r].
  - exists r. split_and!; [done..|by apply Hset|done].
  - destruct Hc as [u Hrow]. eexists. split; [done|]. split; [done|]. split; [apply Hset; eauto|].
    intros Hne. exfalso. apply Hne. rewrite <-(run_decision_attempt _ _ _ _ _ Hd). by destruct x.
Qed.

End Policy.

(** ** The run of [SchedRuns] *)

Module PolicyRun.
Import SchedRuns.
#[local] Existing Instance quiet_env.

(** The first attempt of a run that has just been created. *)
Lemma reconcile_run_follows_policy_witness :
  ∃ w' r', reconcile_run "1" fired = (Ok (), w') ∧ schedule_runs (sw_db w') !! "1" = Some r' ∧
    settled (se_clock (sw_step fired)) "1" (the_run fired) (sw_db fired)
      (sr_status r') (sr_attempt_number r') (sr_finished_at r') (sr_next_retry_at r').
Proof.
  destruct (reconcile_run_follows_policy "1" (the_run fired) fired) as (w' & r' & H1 & H2 & H3 & _).
  - exact quiet_env_quiet.
  - apply commands_inv.
  - exact fired_run.
  - exact fired_unfinished.
  - exact fired_user.
  - exists w', r'. exact (conj H1 (conj H2 H3)).
Defined.

End PolicyRun.
