(* ===== verification/PipelineBuild.v ===== *)
(** * Pipeline: construction from the stored graph

    Models [src/pipeline/graph/builders.py] and [targets.py]: the pipeline that is executed is built
    from the node and edge rows of a project's graph ([src/modules/pipeline_graph/infra/db_models/]).
    The registries of node classes and definitions are the parameter [NodeRegistry]: a lookup that
    raises is [None]. *)
From S2P Require Import Prelude PipelineTypes Graph NodeKwargs.

(** ** Rows *)

Record GraphNodeRecord := mkGraphNode {
  gn_ui_id : string;
  gn_type : string;
  gn_name : string;
  gn_input_values : option (pydict PyValue);
  gn_store_enabled : bool;
}.

Record GraphEdgeRecord := mkGraphEdge {
  ge_source : string;
  ge_source_handle : option string;
  ge_target : string;
  ge_target_handle : option string;
}.

(** What is read of a [NodeDefinition]. *)
Record NodeDefinition := mkNodeDefinition {
  def_inputs : pydict InputDefinition;
  def_outputs : pydict OutputDefinition;
}.

Class NodeRegistry := {
  nodes_get : string → option NodeClass;
  definitions_get : string → option NodeDefinition;
  terminal_output_name : NodeClass → option string;   (* getattr(cls, "TERMINAL_OUTPUT_NAME", None) *)
}.

(** ** Python helpers *)

(** [s.replace(pat, "")]: occurrences are removed from left to right; [skip] characters of the
    current occurrence are still to be dropped. *)
Fixpoint remove_from (pat : string) (skip : nat) (s : string) : string :=
  match s with
  | EmptyString => EmptyString
  | String c s' =>
      match skip with
      | S k => remove_from pat k s'
      | O => if String.prefix pat s then remove_from pat (String.length pat - 1) s'
             else String c (remove_from pat 0 s')
      end
  end.

Definition py_remove (pat s : string) : string := remove_from pat 0 s.

(** [d.setdefault(k, []).append(x)] *)
Definition dappend {A} (d : pydict (list A)) (k : string) (x : A) : pydict (list A) :=
  dset d k (dget_default d k [] ++ [x]).

(** ** Input values *)

(** [parse_node_input_link_value] *)
Definition parse_node_input_link_value (value : PyValue) : outcome py_exn (option NodeInputLinkValue) :=
  match value with
  | VDict items =>
      match vdict_get items "__dvt_type" with
      | Some (VStr "link") =>
          v ← validate_input_value "link" items;
          match v with NodeInputLink l => Ok (Some l) | _ => Ok None end
      | _ => Ok None
      end
  | _ => Ok None
  end.

(** The loop of [iter_node_input_link_values] over a list; [None] is its early [return ()]. *)
Fixpoint parse_links (items : list PyValue) : outcome py_exn (option (list NodeInputLinkValue)) :=
  match items with
  | [] => Ok (Some [])
  | item :: rest =>
      l ← parse_node_input_link_value item;
      match l with
      | None => Ok None
      | Some l => ls ← parse_links rest; Ok (match ls with Some ls => Some (l :: ls) | None => None end)
      end
  end.

Definition iter_raw_links (value : PyValue) : outcome py_exn (list NodeInputLinkValue) :=
  l ← parse_node_input_link_value value;
  match l with
  | Some l => Ok [l]
  | None =>
      match value with
      | VList items => ls ← parse_links items; Ok (default [] ls)
      | _ => Ok []
      end
  end.

Definition parse_node_runtime_input_value (value : PyValue) : outcome py_exn (option NodeRuntimeInputValue) :=
  parsed ← parse_node_input_value (RawPayload value);
  match parsed with
  | Some v => Ok (Some v)
  | None =>
      links ← iter_raw_links value;
      Ok (match links with [] => None | _ => Some (NodeInputLinks links) end)
  end.

Definition _normalize_graph_input_value (value : PyValue) : outcome py_exn NodeRuntimeInputValue :=
  parsed ← parse_node_runtime_input_value value;
  match parsed with
  | Some v => Ok v
  | None => Raise (ValueError "GraphNodeRecord.input_values must use canonical '__dvt_type' payloads.")
  end.

Section Builders.
Context `{reg : NodeRegistry}.

Definition _allows_multiple_connections (node_name input_name : string) : bool :=
  match definitions_get node_name with
  | Some node_def =>
      match dget (def_inputs node_def) input_name with
      | Some input_def => id_allow_multiple_connections input_def
      | None => false
      end
  | None => bool_decide (input_name ∈ ["input_variables"; "signal_in"])
  end.

Definition _resolve_terminal_output_name (node_name : string) : string :=
  match definitions_get node_name, nodes_get node_name with
  | Some node_def, Some node_class =>
      let output_names := dkeys (def_outputs node_def) in
      match output_names with
      | [] => "output"
      | first :: _ =>
          let fallback :=
            if bool_decide ("output" ∈ output_names) then "output"
            else
              match filter (λ n, n ∉ ["signal_out"; "signal_error"; "output_variables"]) output_names with
              | n :: _ => n
              | [] => if bool_decide ("signal_out" ∈ output_names) then "signal_out" else first
              end in
          match terminal_output_name node_class with
          | Some n => if bool_decide (n ∈ output_names) then n else fallback
          | None => fallback
          end
      end
  | _, _ => "output"
  end.

(** [_normalize_target_nodes] *)
Definition _normalize_target_nodes (target_nodes : option (list string)) : list string :=
  foldl (λ normalized node_id,
    if str_truthy node_id && negb (bool_decide (node_id ∈ normalized)) then normalized ++ [node_id]
    else normalized) [] (default [] target_nodes).

Definition resolve_service_output_node_id (node_id : string) (target_nodes : option (list string)) : string :=
  if (length (_normalize_target_nodes target_nodes) =? 1)%nat then "__service_output__"
  else "__service_output_" +:+ node_id +:+ "__".

Definition resolve_execution_target_nodes (pipeline : Pipeline) (target_nodes : option (list string))
    : option (list string) :=
  match _normalize_target_nodes target_nodes with
  | [] => None
  | targets =>
      Some ((λ node_id,
        let service_node_id := resolve_service_output_node_id node_id (Some targets) in
        if dmem pipeline service_node_id then service_node_id else node_id) <$> targets)
  end.

(** ** [build_pipeline_from_graph] *)

(** [handle.replace(prefix, "") if handle else None], as a truthy name or nothing. *)
Definition edge_handle (prefix : string) (handle : option string) : option string :=
  match handle with
  | Some h =>
      if str_truthy h then
        let name := py_remove prefix h in
        if str_truthy name then Some name else None
      else None
  | None => None
  end.

(** The input and the link an edge stands for, unless a handle or the source is missing. *)
Definition edge_link (edge : GraphEdgeRecord) : option (string * NodeInputLinkValue) :=
  target_handle ← edge_handle "input-" (ge_target_handle edge);
  source_handle ← edge_handle "output-" (ge_source_handle edge);
  if str_truthy (ge_source edge) then Some (target_handle, mkLink (ge_source edge) source_handle) else None.

Definition add_edge (node_name : string) (inputs : pydict NodeRuntimeInputValue) (edge : GraphEdgeRecord)
    : pydict NodeRuntimeInputValue :=
  match edge_link edge with
  | None => inputs
  | Some (target_handle, new_link) =>
      match dget inputs target_handle with
      | Some existing_val =>
          let existing_links := iter_node_input_link_values existing_val in
          if _allows_multiple_connections node_name target_handle
             && negb (bool_decide (existing_links = []))
          then dset inputs target_handle (NodeInputLinks (existing_links ++ [new_link]))
          else dset inputs target_handle (NodeInputLink new_link)
      | None => dset inputs target_handle (NodeInputLink new_link)
      end
  end.

(** The stored values: [None] and single links are left out. *)
Definition add_stored_value (inputs : pydict NodeRuntimeInputValue) (item : string * PyValue)
    : outcome py_exn (pydict NodeRuntimeInputValue) :=
  match item.2 with
  | VNone => Ok inputs
  | value =>
      parsed ← _normalize_graph_input_value value;
      match parsed with
      | NodeInputLink _ => Ok inputs
      | parsed_input_value => Ok (dset inputs item.1 parsed_input_value)
      end
  end.

Definition stored_inputs (node : GraphNodeRecord) : outcome py_exn (pydict NodeRuntimeInputValue) :=
  foldM add_stored_value [] (default [] (gn_input_values node)).

Definition incoming_edges_map (edges : list GraphEdgeRecord) : pydict (list GraphEdgeRecord) :=
  foldl (λ d edge, dappend d (ge_target edge) edge) [] edges.

Definition outgoing_edges_map (edges : list GraphEdgeRecord) : pydict (list GraphEdgeRecord) :=
  foldl (λ d edge, dappend d (ge_source edge) edge) [] edges.

Definition build_node (edges : list GraphEdgeRecord) (pipeline : Pipeline) (node : GraphNodeRecord)
    : outcome py_exn Pipeline :=
  inputs ← stored_inputs node;
  let inputs := foldl (add_edge (gn_name node)) inputs
                  (dget_default (incoming_edges_map edges) (gn_ui_id node) []) in
  Ok (dset pipeline (gn_ui_id node) (mkNodeData (gn_name node) (gn_store_enabled node) inputs)).

Definition is_widget (node : GraphNodeRecord) : bool := bool_decide (gn_type node = "widget").

(** The second loop: the service output node of a target or of a node without outgoing edges. *)
Definition add_service_output (edges : list GraphEdgeRecord) (targets : list string)
    (pipeline : Pipeline) (node : GraphNodeRecord) : outcome py_exn Pipeline :=
  if is_widget node then Ok pipeline
  else
    let is_target_node := negb (bool_decide (targets = [])) && bool_decide (gn_ui_id node ∈ targets) in
    let is_empty_output := bool_decide (targets = []) && negb (dmem (outgoing_edges_map edges) (gn_ui_id node)) in
    if is_target_node || is_empty_output then
      match nodes_get (gn_name node) with
      | None => Ok pipeline
      | Some node_class =>
          if is_target_node && negb (CAN_BE_OUTPUT_NODE node_class) then
            Raise (ValueError (gn_name node +:+ " cannot be used as an explicit target node."))
          else
            Ok (dset pipeline (resolve_service_output_node_id (gn_ui_id node) (Some targets))
                 (mkNodeData "ServiceOutputNode" false
                    [("input", NodeInputLink (mkLink (gn_ui_id node) (_resolve_terminal_output_name (gn_name node))))]))
      end
    else Ok pipeline.

Definition build_pipeline_from_graph (nodes : list GraphNodeRecord) (edges : list GraphEdgeRecord)
    (target_nodes : option (list string)) : outcome py_exn Pipeline :=
  let targets := _normalize_target_nodes target_nodes in
  pipeline ← foldM (build_node edges) [] nodes;
  let candidates := if bool_decide (targets = []) then nodes
                    else filter (λ n, gn_ui_id n ∈ targets) nodes in
  foldM (add_service_output edges targets) pipeline candidates.

(** ** [collect_affected_terminal_node_ids] *)

Definition edge_targets (edges : list GraphEdgeRecord) (node_id : string) : list string :=
  ge_target <$> dget_default (outgoing_edges_map edges) node_id [].

(** The loop over the queue; every node that can be reached is a seed or the target of an edge. *)
Definition affected_nodes (nodes : list GraphNodeRecord) (edges : list GraphEdgeRecord)
    (seed_node_ids : list string) : option (list string) :=
  let queue := filter (λ s, s ∈ (gn_ui_id <$> nodes)) seed_node_ids in
  bfs (λ _, true) (edge_targets edges)
    (bfs_fuel (remove_dups (queue ++ (ge_target <$> edges))) (edge_targets edges) queue) queue [].

Definition terminal_candidate (edges : list GraphEdgeRecord) (affected : list string)
    (node : GraphNodeRecord) : bool :=
  bool_decide (gn_ui_id node ∈ affected) && negb (is_widget node)
  && match nodes_get (gn_name node) with
     | None => false
     | Some node_class => OUTPUT_NODE node_class || negb (dmem (outgoing_edges_map edges) (gn_ui_id node))
     end.

Definition collect_affected_terminal_node_ids (nodes : list GraphNodeRecord)
    (edges : list GraphEdgeRecord) (seed_node_ids : list string) : option (list string) :=
  affected ← affected_nodes nodes edges seed_node_ids;
  Some (gn_ui_id <$> filter (λ n, terminal_candidate edges affected n = true) nodes).

End Builders.

(** ** Specification *)

(** The link an edge brings to input [h]. *)
Definition edge_link_to (h : string) (e : GraphEdgeRecord) : option NodeInputLinkValue :=
  match edge_link e with
  | Some (h', l) => if decide (h' = h) then Some l else None
  | None => None
  end.

(** The links the edges [edges] bring to input [h] of node [node_id], in the order of the edges. *)
Definition edge_links (edges : list GraphEdgeRecord) (node_id h : string) : list NodeInputLinkValue :=
  omap (edge_link_to h) (filter (λ e, ge_target e = node_id) edges).

(** A single link is stored as it is, several as a list. *)
Definition link_input (links : list NodeInputLinkValue) : NodeRuntimeInputValue :=
  match links with [l] => NodeInputLink l | _ => NodeInputLinks links end.

(** What an input holds: its stored value when no edge reaches it; all the links, the stored ones
    first, when it takes several connections; otherwise the link of the last edge. *)
Definition resolved_input (multi : bool) (stored : option NodeRuntimeInputValue)
    (links : list NodeInputLinkValue) : option NodeRuntimeInputValue :=
  match last links with
  | None => stored
  | Some l =>
      Some (if multi then link_input (default [] (iter_node_input_link_values <$> stored) ++ links)
            else NodeInputLink l)
  end.

(** Ids of service output nodes start with this prefix; the ids of stored nodes do not. *)
Definition service_prefix : string := "__service_output_".

(** ** Grouping edges *)

Lemma dget_dappend {A} (d : pydict (list A)) k k' x :
  dget_default (dappend d k x) k' [] = dget_default d k' [] ++ (if decide (k = k') then [x] else []).
Proof.
  unfold dappend, dget_default at 1. rewrite dget_dset. destruct (decide (k = k')) as [->|]; [done|].
  by rewrite app_nil_r.
Qed.

Lemma dget_grouped {A} (key : A → string) l d k :
  dget_default (foldl (λ d x, dappend d (key x) x) d l) k [] = dget_default d k [] ++ filter (λ x, key x = k) l.
Proof.
  revert d; induction l as [|x l IH]; intros d; simpl; [by rewrite app_nil_r|].
  rewrite IH, dget_dappend, filter_cons. by destruct (decide (key x = k)); rewrite <-app_assoc.
Qed.

Lemma dkeys_grouped {A} (key : A → string) l d k :
  k ∈ dkeys (foldl (λ d x, dappend d (key x) x) d l) ↔ k ∈ dkeys d ∨ k ∈ key <$> l.
Proof.
  revert d; induction l as [|x l IH]; intros d; simpl; [set_solver|].
  rewrite IH. unfold dappend. rewrite elem_of_dkeys_dset, elem_of_cons. tauto.
Qed.

Lemma dget_incoming edges node_id :
  dget_default (incoming_edges_map edges) node_id [] = filter (λ e, ge_target e = node_id) edges.
Proof. apply (dget_grouped ge_target). Qed.

Lemma dget_outgoing edges node_id :
  dget_default (outgoing_edges_map edges) node_id [] = filter (λ e, ge_source e = node_id) edges.
Proof. apply (dget_grouped ge_source). Qed.

Lemma dmem_outgoing edges node_id :
  dmem (outgoing_edges_map edges) node_id = bool_decide (node_id ∈ ge_source <$> edges).
Proof.
  unfold dmem. apply bool_decide_ext. change ((outgoing_edges_map edges).*1) with (dkeys (outgoing_edges_map edges)).
  unfold outgoing_edges_map. rewrite (dkeys_grouped ge_source). set_solver.
Qed.

Lemma elem_of_edge_targets edges a b :
  b ∈ edge_targets edges a ↔ ∃ e, e ∈ edges ∧ ge_source e = a ∧ ge_target e = b.
Proof.
  unfold edge_targets. rewrite dget_outgoing, list_elem_of_fmap. setoid_rewrite list_elem_of_filter. naive_solver.
Qed.

(** ** Handles *)

Lemma prefix_app pat s : String.prefix pat (pat +:+ s) = true.
Proof.
  induction pat as [|c pat IH]; [by destruct s|]. cbn -[String.prefix].
  change (String c pat +:+ s) with (String c (pat +:+ s)). simpl. by destruct (Ascii.ascii_dec c c).
Qed.

Lemma remove_skip pat s1 s2 :
  remove_from pat (String.length s1) (s1 +:+ s2) = remove_from pat 0 s2.
Proof.
  induction s1 as [|c s1 IH]; [done|]. change (String c s1 +:+ s2) with (String c (s1 +:+ s2)). simpl. exact IH.
Qed.

(** Removing the prefix of a handle gives what follows it, without further occurrences. *)
Lemma py_remove_prefix pat s : pat ≠ "" → py_remove pat (pat +:+ s) = py_remove pat s.
Proof.
  intros Hp. destruct pat as [|c pat]; [done|]. unfold py_remove.
  pose proof (prefix_app (String c pat) s) as Hpre.
  change (String c pat +:+ s) with (String c (pat +:+ s)) in *.
  cbn [remove_from]. rewrite Hpre. cbn [String.length]. rewrite Nat.sub_succ, Nat.sub_0_r. apply remove_skip.
Qed.

(** [occurs pat s]: the handle's name contains its own prefix again. *)
Fixpoint occurs (pat s : string) : bool :=
  String.prefix pat s || match s with EmptyString => false | String _ s' => occurs pat s' end.

Lemma remove_none pat s : occurs pat s = false → remove_from pat 0 s = s.
Proof.
  induction s as [|c s IH]; [done|]. cbn [occurs]. intros [Hp Ho]%orb_false_elim.
  cbn [remove_from]. rewrite Hp, IH; done.
Qed.

(** Input and output names round-trip through the handles of an edge. *)
Lemma edge_handle_roundtrip pat name :
  pat ≠ "" → name ≠ "" → occurs pat name = false → edge_handle pat (Some (pat +:+ name)) = Some name.
Proof.
  intros Hpat Hname Ho. unfold edge_handle. rewrite py_remove_prefix by done. unfold py_remove.
  rewrite remove_none by done. unfold str_truthy.
  assert (pat +:+ name ≠ "") as Hne by (by destruct pat).
  rewrite (bool_decide_eq_false_2 _ Hne), (bool_decide_eq_false_2 _ Hname). done.
Qed.

(** ** The inputs of a built node *)

(** Loops whose items raise or not whatever was collected before. *)
Lemma foldM_is_ok {E A B} (f : B → A → outcome E B) (g : A → bool) l b :
  (∀ b x, is_ok (f b x) = g x) → is_ok (foldM f b l) = forallb g l.
Proof.
  intros Hg. revert b; induction l as [|x l IH]; intros b; simpl; [done|].
  rewrite <-(Hg b x). destruct (f b x) as [b'|e]; simpl; [apply IH|done].
Qed.

Section BuildProperties.
Context `{reg : NodeRegistry}.

Lemma link_input_links links : iter_node_input_link_values (link_input links) = links.
Proof. by destruct links as [|l [|]]. Qed.

Lemma link_input_snoc links l : links ≠ [] → NodeInputLinks (links ++ [l]) = link_input (links ++ [l]).
Proof. by destruct links as [|? [|]]. Qed.

(** One more edge to an input. *)
Lemma resolved_input_snoc multi stored links l :
  resolved_input multi stored (links ++ [l]) =
    Some (match resolved_input multi stored links with
          | Some v =>
              if multi && negb (bool_decide (iter_node_input_link_values v = []))
              then NodeInputLinks (iter_node_input_link_values v ++ [l])
              else NodeInputLink l
          | None => NodeInputLink l
          end).
Proof.
  unfold resolved_input. rewrite last_snoc. f_equal. destruct multi; [|by case_match].
  destruct links as [|l0 links] using rev_ind.
  - simpl. destruct stored as [v|]; simpl; [|done]. case_bool_decide as Hv; simpl; [by rewrite Hv|].
    by rewrite link_input_snoc.
  - rewrite last_snoc, link_input_links. rewrite bool_decide_eq_false_2 by (by intros [_ [_ ?]%app_nil]%app_nil).
    simpl. rewrite link_input_snoc, <-!app_assoc; [done|]. by intros [_ [_ ?]%app_nil]%app_nil.
Qed.

Lemma add_edge_spec node_name inputs e h stored links :
  dget inputs h = resolved_input (_allows_multiple_connections node_name h) stored links →
  dget (add_edge node_name inputs e) h =
    resolved_input (_allows_multiple_connections node_name h) stored (links ++ option_list (edge_link_to h e)).
Proof.
  unfold add_edge, edge_link_to. intros Hh. destruct (edge_link e) as [[h' l]|]; simpl; [|by rewrite app_nil_r].
  destruct (decide (h' = h)) as [->|Hne]; simpl.
  - rewrite Hh, resolved_input_snoc. destruct (resolved_input _ _ links) as [v|]; [|by rewrite dget_dset_eq].
    by destruct (_ && _); rewrite dget_dset_eq.
  - rewrite app_nil_r, <-Hh. destruct (dget inputs h') as [v|]; [destruct (_ && _)|]; by rewrite dget_dset_ne.
Qed.

Lemma add_edges_spec node_name inputs h stored es links :
  dget inputs h = resolved_input (_allows_multiple_connections node_name h) stored links →
  dget (foldl (add_edge node_name) inputs es) h =
    resolved_input (_allows_multiple_connections node_name h) stored (links ++ omap (edge_link_to h) es).
Proof.
  revert inputs links; induction es as [|e es IH]; intros inputs links Hh; simpl; [by rewrite app_nil_r|].
  rewrite (IH _ (links ++ option_list (edge_link_to h e))); [|by apply add_edge_spec].
  f_equal. destruct (edge_link_to h e); simpl; rewrite <-?app_assoc, ?app_nil_r; done.
Qed.

(** What is built for a node. *)
Definition built_from (edges : list GraphEdgeRecord) (node : GraphNodeRecord) (nd : NodeData) : Prop :=
  nd_name nd = gn_name node ∧ nd_store_enabled nd = gn_store_enabled node ∧
  ∃ stored, stored_inputs node = Ok stored ∧
    ∀ h, dget (nd_inputs nd) h =
      resolved_input (_allows_multiple_connections (gn_name node) h) (dget stored h)
        (edge_links edges (gn_ui_id node) h).

Lemma build_node_spec edges p node p' :
  build_node edges p node = Ok p' →
  ∃ nd, p' = dset p (gn_ui_id node) nd ∧ built_from edges node nd.
Proof.
  unfold build_node. destruct (stored_inputs node) as [stored|] eqn:Hs; simpl; [|done].
  intros [= <-]. eexists; split; [done|]. split_and!; [done..|]. exists stored. split; [done|]. intros h.
  rewrite dget_incoming. unfold edge_links. apply (add_edges_spec _ _ _ (dget stored h) _ []). done.
Qed.

Lemma build_node_is_ok edges p node : is_ok (build_node edges p node) = is_ok (stored_inputs node).
Proof. unfold build_node. by destruct (stored_inputs node). Qed.

(** The first loop. *)
Lemma built_nodes_spec edges nodes p :
  NoDup (gn_ui_id <$> nodes) → foldM (build_node edges) [] nodes = Ok p →
  (∀ node, node ∈ nodes → ∃ nd, dget p (gn_ui_id node) = Some nd ∧ built_from edges node nd) ∧
  (∀ k, k ∈ dkeys p ↔ k ∈ gn_ui_id <$> nodes).
Proof.
  intros Hnd Hf. revert Hf. apply (foldM_ind (build_node edges)
    (λ done p, (∀ node, node ∈ done → ∃ nd, dget p (gn_ui_id node) = Some nd ∧ built_from edges node nd) ∧
               (∀ k, k ∈ dkeys p ↔ k ∈ gn_ui_id <$> done)) nodes).
  - intros pre x post b b' El [H1 H2] (nd & -> & Hnd')%build_node_spec. split.
    + intros node [Hin| ->%list_elem_of_singleton]%elem_of_app; [|rewrite dget_dset_eq; eauto].
      rewrite dget_dset_ne; [by apply H1|]. intros E. subst nodes.
      rewrite fmap_app, fmap_cons in Hnd. apply NoDup_app in Hnd as (_ & Hd & _).
      apply (Hd (gn_ui_id node)); [by apply list_elem_of_fmap_2|]. rewrite E. by left.
    + intros k. rewrite elem_of_dkeys_dset, H2, fmap_app, elem_of_app. simpl. set_solver.
  - split; [by intros node ?%not_elem_of_nil|]. done.
Qed.

(** ** Service output nodes *)

(** The nodes that get one. *)
Definition wants_service_output (edges : list GraphEdgeRecord) (targets : list string)
    (node : GraphNodeRecord) : Prop :=
  is_widget node = false ∧ is_Some (nodes_get (gn_name node)) ∧
  (gn_ui_id node ∈ targets ∨ (targets = [] ∧ gn_ui_id node ∉ ge_source <$> edges)).

#[global] Instance wants_service_output_dec edges targets node : Decision (wants_service_output edges targets node).
Proof. unfold wants_service_output. apply _. Defined.

(** A requested target that cannot be an output node. *)
Definition target_rejected (targets : list string) (node : GraphNodeRecord) : Prop :=
  is_widget node = false ∧ gn_ui_id node ∈ targets ∧
  ∃ cls, nodes_get (gn_name node) = Some cls ∧ CAN_BE_OUTPUT_NODE cls = false.

Definition target_rejectedb (targets : list string) (node : GraphNodeRecord) : bool :=
  negb (is_widget node) && bool_decide (gn_ui_id node ∈ targets)
  && match nodes_get (gn_name node) with Some cls => negb (CAN_BE_OUTPUT_NODE cls) | None => false end.

Lemma target_rejectedb_spec targets node : target_rejectedb targets node = true ↔ target_rejected targets node.
Proof.
  unfold target_rejectedb, target_rejected. rewrite !andb_true_iff, negb_true_iff, bool_decide_eq_true.
  destruct (nodes_get (gn_name node)) as [cls|]; [rewrite negb_true_iff|]; naive_solver.
Qed.

Definition service_node (node : GraphNodeRecord) : NodeData :=
  mkNodeData "ServiceOutputNode" false
    [("input", NodeInputLink (mkLink (gn_ui_id node) (_resolve_terminal_output_name (gn_name node))))].

Lemma add_service_output_is_ok edges targets p node :
  is_ok (add_service_output edges targets p node) = negb (target_rejectedb targets node).
Proof.
  unfold add_service_output, target_rejectedb. destruct (is_widget node); [done|]. simpl.
  destruct (bool_decide_reflect (gn_ui_id node ∈ targets)) as [Hin|Hin].
  - rewrite (bool_decide_eq_false_2 (targets = [])) by (intros ->; by apply not_elem_of_nil in Hin). simpl.
    destruct (nodes_get (gn_name node)) as [cls|]; [|done]. by destruct (CAN_BE_OUTPUT_NODE cls).
  - rewrite andb_false_r. simpl. destruct (_ && _); [|done]. by destruct (nodes_get (gn_name node)).
Qed.

Lemma add_service_output_spec edges targets p node p' :
  add_service_output edges targets p node = Ok p' →
  (wants_service_output edges targets node ∧
     p' = dset p (resolve_service_output_node_id (gn_ui_id node) (Some targets)) (service_node node)) ∨
  (¬ wants_service_output edges targets node ∧ p' = p).
Proof.
  unfold add_service_output, wants_service_output. destruct (is_widget node); [intros ?; simplify_eq; naive_solver|].
  rewrite dmem_outgoing. intros H.
  destruct (bool_decide_reflect (targets = [])) as [->|Ht]; simpl in H.
  - destruct (bool_decide_reflect (gn_ui_id node ∈ ge_source <$> edges)) as [Hs|Hs]; simpl in H.
    { simplify_eq. right. split; [|done]. intros (_ & _ & [?%not_elem_of_nil|[_ ?]]); done. }
    destruct (nodes_get (gn_name node)) as [cls|]; simplify_eq.
    { left. split_and!; [done|by eexists|by right|done]. }
    right. split; [|done]. by intros (_ & [? ?] & _).
  - destruct (bool_decide_reflect (gn_ui_id node ∈ targets)) as [Hin|Hin]; simpl in H.
    + destruct (nodes_get (gn_name node)) as [cls|].
      { destruct (CAN_BE_OUTPUT_NODE cls); [|done]. simpl in H. simplify_eq. left. split_and!; [done|by eexists|by left|done]. }
      simplify_eq. right. split; [|done]. by intros (_ & [? ?] & _).
    + simplify_eq. right. split; [|done]. intros (_ & _ & [?|[? _]]); done.
Qed.

Lemma normalize_snoc l x :
  _normalize_target_nodes (Some (l ++ [x])) =
    if str_truthy x && negb (bool_decide (x ∈ _normalize_target_nodes (Some l)))
    then _normalize_target_nodes (Some l) ++ [x] else _normalize_target_nodes (Some l).
Proof. unfold _normalize_target_nodes. simpl. by rewrite foldl_snoc. Qed.

Lemma elem_of_normalize l x : x ∈ _normalize_target_nodes (Some l) ↔ x ∈ l ∧ x ≠ "".
Proof.
  induction l as [|y l IH] using rev_ind;
    [split; [by intros ?%not_elem_of_nil|by intros [?%not_elem_of_nil _]]|].
  rewrite normalize_snoc, elem_of_app, list_elem_of_singleton.
  unfold str_truthy. case_bool_decide as Hy; simpl; [rewrite IH; naive_solver|].
  case_bool_decide as Hin; simpl; rewrite ?elem_of_app, ?list_elem_of_singleton, IH; naive_solver.
Qed.

Lemma NoDup_normalize ts : NoDup (_normalize_target_nodes ts).
Proof.
  destruct ts as [l|]; [|constructor]. induction l as [|y l IH] using rev_ind; [constructor|].
  rewrite normalize_snoc. destruct (_ && _) eqn:E; [|done]. apply andb_true_iff in E as [_ E].
  apply negb_true_iff, bool_decide_eq_false in E. apply NoDup_app. split_and!; [done| |apply NoDup_singleton].
  intros z Hz ->%list_elem_of_singleton. done.
Qed.

(** Normalising a second time changes nothing. *)
Lemma normalize_idemp ts : _normalize_target_nodes (Some (_normalize_target_nodes ts)) = _normalize_target_nodes ts.
Proof.
  destruct ts as [l|]; [|done]. induction l as [|y l IH] using rev_ind; [done|].
  rewrite normalize_snoc. destruct (_ && _) eqn:E; [|done]. by rewrite normalize_snoc, IH, E.
Qed.

Lemma app_inj_r x y s : x +:+ s = y +:+ s → x = y.
Proof.
  assert (∀ a, String.length (a +:+ s) = String.length a + String.length s) as Hlen.
  { induction a as [|c a IH]; [done|]. change (String c a +:+ s) with (String c (a +:+ s)). simpl. by rewrite IH. }
  revert y; induction x as [|c x IH]; intros [|d y] E; [done| | |].
  - apply (f_equal String.length) in E. rewrite !Hlen in E. simpl in E. lia.
  - apply (f_equal String.length) in E. rewrite !Hlen in E. simpl in E. lia.
  - change (String c (x +:+ s) = String d (y +:+ s)) in E. injection E as -> E. f_equal. by apply IH.
Qed.

Lemma service_id_prefix node_id ts :
  String.prefix service_prefix (resolve_service_output_node_id node_id ts) = true.
Proof.
  unfold resolve_service_output_node_id. destruct (_ =? _)%nat; [done|].
  exact (prefix_app service_prefix (node_id +:+ "__")).
Qed.

(** Two nodes that get a service output node get different ones. *)
Lemma service_id_inj edges ts n1 n2 :
  let targets := _normalize_target_nodes ts in
  wants_service_output edges targets n1 → wants_service_output edges targets n2 →
  resolve_service_output_node_id (gn_ui_id n1) (Some targets) =
    resolve_service_output_node_id (gn_ui_id n2) (Some targets) → gn_ui_id n1 = gn_ui_id n2.
Proof.
  intros targets (_ & _ & H1) (_ & _ & H2). unfold resolve_service_output_node_id, targets.
  rewrite normalize_idemp. fold targets. destruct (Nat.eqb_spec (length targets) 1) as [Hl|_].
  - intros _. destruct targets as [|t [|]]; [done| |done].
    destruct H1 as [->%list_elem_of_singleton|[? _]]; [|done].
    destruct H2 as [->%list_elem_of_singleton|[? _]]; done.
  - intros E. apply (inj (String.app "__service_output_")) in E. by apply app_inj_r in E.
Qed.

(** The second loop. *)
Lemma service_loop_spec edges ts nodes p0 p :
  let targets := _normalize_target_nodes ts in
  let sid n := resolve_service_output_node_id (gn_ui_id n) (Some targets) in
  NoDup (gn_ui_id <$> nodes) → foldM (add_service_output edges targets) p0 nodes = Ok p →
  (∀ n, n ∈ nodes → wants_service_output edges targets n → dget p (sid n) = Some (service_node n)) ∧
  (∀ k, (∀ n, n ∈ nodes → wants_service_output edges targets n → sid n ≠ k) → dget p k = dget p0 k).
Proof.
  intros targets sid Hnd. apply (foldM_ind (add_service_output edges targets) (λ seen p,
    (∀ n, n ∈ seen → wants_service_output edges targets n → dget p (sid n) = Some (service_node n)) ∧
    (∀ k, (∀ n, n ∈ seen → wants_service_output edges targets n → sid n ≠ k) → dget p k = dget p0 k)) nodes).
  - intros pre x post b b' El [H1 H2] [[Hw ->]|[Hw ->]]%add_service_output_spec.
    + split.
      * intros n [Hin| ->%list_elem_of_singleton]%elem_of_app Hn; [|by rewrite dget_dset_eq].
        rewrite dget_dset_ne; [by apply H1|]. intros E. apply (service_id_inj edges) in E; [|done..].
        subst nodes. rewrite fmap_app, fmap_cons in Hnd. apply NoDup_app in Hnd as (_ & Hd & _).
        apply (Hd (gn_ui_id n)); [by apply list_elem_of_fmap_2|]. rewrite <-E. by left.
      * intros k Hk. rewrite dget_dset_ne; [apply H2|apply (Hk x); [set_solver|done]].
        intros n Hn. apply Hk. set_solver.
    + split.
      * intros n [Hin| ->%list_elem_of_singleton]%elem_of_app Hn; [by apply H1|done].
      * intros k Hk. apply H2. intros n Hn. apply Hk. set_solver.
  - split; [by intros n ?%not_elem_of_nil|done].
Qed.

Definition candidates (targets : list string) (nodes : list GraphNodeRecord) : list GraphNodeRecord :=
  if bool_decide (targets = []) then nodes else filter (λ n, gn_ui_id n ∈ targets) nodes.

Lemma candidates_sublist targets nodes : candidates targets nodes `sublist_of` nodes.
Proof. unfold candidates. case_bool_decide; [done|apply sublist_filter]. Qed.

Lemma wants_candidate edges targets nodes n :
  n ∈ nodes → wants_service_output edges targets n → n ∈ candidates targets nodes.
Proof.
  intros Hin (_ & _ & H). unfold candidates. case_bool_decide as Ht; [done|].
  apply list_elem_of_filter. split; [|done]. by destruct H as [|[? _]].
Qed.

Lemma build_pipeline_split nodes edges ts p :
  build_pipeline_from_graph nodes edges ts = Ok p →
  ∃ p0, foldM (build_node edges) [] nodes = Ok p0 ∧
        foldM (add_service_output edges (_normalize_target_nodes ts)) p0
          (candidates (_normalize_target_nodes ts) nodes) = Ok p.
Proof. unfold build_pipeline_from_graph. destruct (foldM (build_node edges) [] nodes) as [p0|]; [eauto|done]. Qed.

Lemma fmap_sublist_NoDup {A B} (f : A → B) l l' : l `sublist_of` l' → NoDup (f <$> l') → NoDup (f <$> l).
Proof. intros Hs Hnd. eapply sublist_NoDup; [done|by apply fmap_sublist]. Qed.

(** C23. What is built, for a graph whose node ids are distinct and none a service id. *)
Theorem built_pipeline_realises_graph nodes edges ts p :
  let targets := _normalize_target_nodes ts in
  let sid n := resolve_service_output_node_id (gn_ui_id n) (Some targets) in
  NoDup (gn_ui_id <$> nodes) → (∀ n, n ∈ nodes → String.prefix service_prefix (gn_ui_id n) = false) →
  build_pipeline_from_graph nodes edges ts = Ok p →
  (∀ n, n ∈ nodes → ∃ nd, dget p (gn_ui_id n) = Some nd ∧ built_from edges n nd) ∧
  (∀ n, n ∈ nodes → wants_service_output edges targets n → dget p (sid n) = Some (service_node n)) ∧
  (∀ k, k ∈ dkeys p → k ∈ gn_ui_id <$> nodes ∨
     ∃ n, n ∈ nodes ∧ wants_service_output edges targets n ∧ sid n = k).
Proof.
  intros targets sid Hnd Hpre (p0 & H0 & H1)%build_pipeline_split.
  apply built_nodes_spec in H0 as [Hb Hk]; [|done].
  pose proof (candidates_sublist targets nodes) as Hsub.
  apply service_loop_spec in H1 as [Hs Ho]; [|by eapply fmap_sublist_NoDup].
  split_and!.
  - intros n Hn. destruct (Hb n Hn) as (nd & Hd & Hf). exists nd. split; [|done].
    rewrite Ho; [done|]. intros m _ _ E. specialize (Hpre n Hn). rewrite <-E in Hpre.
    by rewrite service_id_prefix in Hpre.
  - intros n Hn Hw. apply Hs; [by eapply wants_candidate|done].
  - intros k Hin. destruct (decide (k ∈ gn_ui_id <$> nodes)) as [|Hnk]; [by left|right].
    destruct (decide (Exists (λ n, wants_service_output edges targets n ∧ sid n = k) nodes)) as [(n & ? & ?)%Exists_exists|Hne];
      [by exists n|].
    apply dget_is_Some in Hin as [nd Hd]. rewrite Ho in Hd.
    + destruct Hnk. apply Hk, dget_is_Some. eauto.
    + intros n Hn Hw E. apply Hne, Exists_exists. exists n. split; [|done]. eapply elem_of_sublist; done.
Qed.

(** Building fails exactly on a stored value that is not a canonical payload and on a requested
    target that cannot be an output node. *)
Theorem build_fails_iff nodes edges ts :
  is_ok (build_pipeline_from_graph nodes edges ts) = false ↔
    (∃ n, n ∈ nodes ∧ is_ok (stored_inputs n) = false) ∨
    (∃ n, n ∈ nodes ∧ target_rejected (_normalize_target_nodes ts) n).
Proof.
  set (targets := _normalize_target_nodes ts).
  assert (is_ok (build_pipeline_from_graph nodes edges ts) =
            forallb (λ n, is_ok (stored_inputs n)) nodes &&
            forallb (λ n, negb (target_rejectedb targets n)) (candidates targets nodes)) as ->.
  { unfold build_pipeline_from_graph. fold targets.
    rewrite <-(foldM_is_ok (build_node edges) _ nodes [] (build_node_is_ok edges)).
    destruct (foldM (build_node edges) [] nodes) as [p0|]; [|done]. simpl.
    apply (foldM_is_ok (add_service_output edges targets)). apply add_service_output_is_ok. }
  rewrite andb_false_iff. f_equiv; rewrite <-not_true_iff_false, forallb_forall.
  - split; [|intros (n & Hn & H) Hall; rewrite Hall in H; [done|by apply list_elem_of_In]].
    intros Hne. destruct (decide (Exists (λ n, is_ok (stored_inputs n) = false) nodes)) as [?%Exists_exists|Hx]; [done|].
    destruct Hne. intros n Hn%list_elem_of_In. destruct (is_ok (stored_inputs n)) eqn:E; [done|].
    destruct Hx. apply Exists_exists. eauto.
  - split.
    + intros Hne. destruct (decide (Exists (λ n, target_rejectedb targets n = true) nodes))
        as [(n & Hn & Hr%target_rejectedb_spec)%Exists_exists|Hx]; [eauto|].
      destruct Hne. intros n Hn%list_elem_of_In. apply negb_true_iff, not_true_is_false. intros Hr.
      destruct Hx. apply Exists_exists. exists n. split; [|done].
      eapply elem_of_sublist; [done|apply candidates_sublist].
    + intros (n & Hn & Hr) Hall. assert (n ∈ candidates targets nodes) as Hc.
      { destruct Hr as (_ & Hin & _). unfold candidates. case_bool_decide; [done|]. by apply list_elem_of_filter. }
      apply list_elem_of_In, Hall, negb_true_iff in Hc. apply target_rejectedb_spec in Hr. congruence.
Qed.

(** ** Execution targets *)

Lemma build_node_grows edges p x p' k :
  build_node edges p x = Ok p' → k = gn_ui_id x ∨ k ∈ dkeys p → k ∈ dkeys p'.
Proof. intros (nd & -> & _)%build_node_spec. by rewrite elem_of_dkeys_dset. Qed.

Lemma add_service_output_grows edges targets p x p' k :
  add_service_output edges targets p x = Ok p' → k ∈ dkeys p → k ∈ dkeys p'.
Proof.
  intros [[_ ->]|[_ ->]]%add_service_output_spec; [|done]. rewrite elem_of_dkeys_dset. by right.
Qed.

Lemma built_node_keys nodes edges ts p n :
  build_pipeline_from_graph nodes edges ts = Ok p → n ∈ nodes → gn_ui_id n ∈ dkeys p.
Proof.
  intros (p0 & H0 & H1)%build_pipeline_split Hn.
  assert (gn_ui_id n ∈ dkeys p0) as Hk0.
  { revert Hn. revert H0. apply (foldM_ind (build_node edges) (λ seen p, n ∈ seen → gn_ui_id n ∈ dkeys p) nodes).
    - intros pre x post b b' _ IH Hx Hin. eapply build_node_grows; [done|].
      apply elem_of_app in Hin as [Hin| ->%list_elem_of_singleton]; [right; by apply IH|by left].
    - by intros ?%not_elem_of_nil. }
  revert H1. apply (foldM_ind (add_service_output edges (_normalize_target_nodes ts))
    (λ _ p, gn_ui_id n ∈ dkeys p)); [|done].
  intros pre x post b b' _ IH Hx. by eapply add_service_output_grows.
Qed.

(** The targets a run is given are nodes of the pipeline that was built for them, so ordering the
    pipeline never misses one; one is given per distinct requested target. *)
Theorem execution_targets_are_built `{so : SetOrder} nodes edges ts p ets :
  build_pipeline_from_graph nodes edges ts = Ok p →
  (∀ t, t ∈ default [] ts → t ≠ "" → t ∈ gn_ui_id <$> nodes) →
  resolve_execution_target_nodes p ts = Some ets →
  length ets = length (_normalize_target_nodes ts) ∧ (∀ t, t ∈ ets → t ∈ dkeys p) ∧
  (∀ x, topological_sort p (Some ets) ≠ Raise (NodeNotFoundError x)).
Proof.
  intros Hb Hts Hr.
  assert (length ets = length (_normalize_target_nodes ts) ∧ ∀ t, t ∈ ets → t ∈ dkeys p) as [Hl Hin].
  { unfold resolve_execution_target_nodes in Hr.
    assert (∀ t, t ∈ _normalize_target_nodes ts → t ∈ dkeys p) as Hn.
    { intros t Ht. destruct ts as [l|]; [|by apply not_elem_of_nil in Ht].
      apply elem_of_normalize in Ht as [Ht Hne]. apply Hts, list_elem_of_fmap in Ht as (n & -> & Hn); [|done].
      by eapply built_node_keys. }
    destruct (_normalize_target_nodes ts) as [|t0 tl]; [done|]. apply (inj Some) in Hr as <-. split; [by rewrite length_fmap|].
    intros t (t' & -> & Ht')%list_elem_of_fmap. destruct (dmem p _) eqn:Hm; [by apply bool_decide_eq_true in Hm|by apply Hn]. }
  split_and!; [done..|]. intros x. unfold topological_sort. simpl.
  rewrite (proj2 (list_find_None (λ n, dmem p n = false) ets)).
  - destruct (kahn _ _ _ _ _) as [o|]; [|done]. destruct (negb _); [done|]. destruct ets; [done|].
    by destruct (find_all_dependencies _ _).
  - apply Forall_forall. intros t Ht. unfold dmem. rewrite bool_decide_eq_true_2; [done|by apply Hin].
Qed.

(** ** Affected terminal nodes *)

(** [n] leads to [m] along the edges of the graph. *)
Definition graph_edge (edges : list GraphEdgeRecord) (a b : string) : Prop :=
  ∃ e, e ∈ edges ∧ ge_source e = a ∧ ge_target e = b.

(** A search that knows every node is a search in the set of the nodes it can meet. *)
Lemma bfs_known_ext known1 known2 succ (U : list string) fuel queue visited :
  (∀ x, x ∈ U → known1 x = known2 x) → (∀ a b, a ∈ U → b ∈ succ a → b ∈ U) →
  (∀ x, x ∈ queue → x ∈ U) →
  bfs known1 succ fuel queue visited = bfs known2 succ fuel queue visited.
Proof.
  intros Hk HU. revert queue visited; induction fuel as [|fuel IH]; intros [|x queue] visited Hq; [done..|].
  cbn [bfs]. rewrite Hk by (apply Hq; by left). destruct (_ || _); apply IH; intros y Hy.
  - apply Hq. by right.
  - apply elem_of_app in Hy as [?|[_ ?]%list_elem_of_filter]; [apply Hq; by right|].
    eapply HU; [|done]. apply Hq. by left.
Qed.

Lemma affected_nodes_spec nodes edges seeds :
  ∃ V, affected_nodes nodes edges seeds = Some V ∧
    ∀ x, x ∈ V ↔ ∃ s, s ∈ seeds ∧ s ∈ gn_ui_id <$> nodes ∧ rtc (graph_edge edges) s x.
Proof.
  unfold affected_nodes. set (queue := filter (λ s, s ∈ gn_ui_id <$> nodes) seeds).
  set (U := remove_dups (queue ++ (ge_target <$> edges))).
  assert (∀ a b, a ∈ U → b ∈ edge_targets edges a → b ∈ U) as HU.
  { intros a b _ (e & He & _ & <-)%elem_of_edge_targets. apply elem_of_remove_dups, elem_of_app. right.
    by apply list_elem_of_fmap_2. }
  assert (∀ x, x ∈ queue → x ∈ U) as HQ by (intros x Hx; apply elem_of_remove_dups, elem_of_app; by left).
  destruct (bfs_spec (λ x, bool_decide (x ∈ U)) (edge_targets edges) U) with (targets := queue)
    as (V & HV & _ & Hin).
  { intros x Hx. by apply bool_decide_eq_true in Hx. }
  { apply NoDup_remove_dups. }
  exists V. split.
  { rewrite <-HV. apply (bfs_known_ext _ _ _ U); [|done..]. intros x Hx. by rewrite bool_decide_eq_true_2. }
  intros x. rewrite Hin. unfold reachable. split.
  - intros (t & [Ht1 Ht2]%list_elem_of_filter & _ & Hr). exists t. split_and!; [done..|].
    revert Hr. apply rtc_subrel. intros a b [Hb _]. by apply elem_of_edge_targets.
  - intros (t & Hs & Ht & Hr). assert (t ∈ queue) as Hq by (by apply list_elem_of_filter).
    exists t. split_and!; [done|by apply bool_decide_eq_true_2, HQ|]. apply HQ in Hq. clear Hs Ht.
    induction Hr as [|a b c Hab _ IH]; [done|]. apply elem_of_edge_targets in Hab.
    assert (b ∈ U) as Hb by (by eapply HU). apply rtc_l with b; [|by apply IH].
    split; [done|]. by apply bool_decide_eq_true_2.
Qed.

(** The search ends, and what it returns are exactly the registered nodes, widgets aside, that a
    known seed leads to and that are output nodes or have no outgoing edge, in the order of the
    graph's nodes. *)
Theorem affected_terminals_are_reachable nodes edges seeds :
  ∃ ids ns, collect_affected_terminal_node_ids nodes edges seeds = Some ids ∧ ids = gn_ui_id <$> ns ∧
    ns `sublist_of` nodes ∧
    ∀ n, n ∈ ns ↔ n ∈ nodes ∧ is_widget n = false ∧
      (∃ s, s ∈ seeds ∧ s ∈ gn_ui_id <$> nodes ∧ rtc (graph_edge edges) s (gn_ui_id n)) ∧
      ∃ cls, nodes_get (gn_name n) = Some cls ∧
        (OUTPUT_NODE cls = true ∨ gn_ui_id n ∉ ge_source <$> edges).
Proof.
  destruct (affected_nodes_spec nodes edges seeds) as (V & HV & Hin).
  unfold collect_affected_terminal_node_ids. rewrite HV. simpl. eexists _, _.
  split_and!; [done|done|apply sublist_filter|]. intros n. rewrite list_elem_of_filter, <-Hin.
  unfold terminal_candidate. rewrite !andb_true_iff, bool_decide_eq_true, negb_true_iff, dmem_outgoing.
  destruct (nodes_get (gn_name n)) as [cls|]; [rewrite orb_true_iff, negb_true_iff, bool_decide_eq_false|]; naive_solver.
Qed.

End BuildProperties.
