(* ===== verification/PipelineValidate.v ===== *)
(** * Pipeline: validation

    Models [src/pipeline/validation.py] ([validate_pipeline]) and the [IO] enumeration of
    [src/node_dsl/node_typing.py]: a pipeline is checked for unknown node classes, for cycles and for
    links whose source, output or type does not fit. Errors are constructors with what their
    messages render ([src/schemas/internal/pipeline_validation.py]). *)
From S2P Require Import Prelude PipelineTypes Graph NodeKwargs PipelineBuild.

(** ** [IO] *)

Definition IO_VALUES : list IO :=
  ["STRING"; "BOOLEAN"; "INT"; "FLOAT"; "DICT"; "JSON"; "DATAFRAME"; "TABLE_SCHEMA"; "COLUMN";
   "COLUMN_NAME"; "DB_CONNECTION"; "DB_CONNECTION_ID"; "S3_CONNECTION,FTP_CONNECTION,SMB_CONNECTION";
   "S3_CONNECTION"; "S3_CONNECTION_ID"; "FTP_CONNECTION"; "FTP_CONNECTION_ID"; "SMB_CONNECTION";
   "SMB_CONNECTION_ID"; "KAFKA_CONNECTION"; "KAFKA_CONNECTION_ID"; "DATETIME"; "TIMEDELTA"; "OBJECT";
   "UNKNOWN"; "SCHEMA"; "VARIABLE"; "SIGNAL"; "*"; "FLOAT,INT"; "PRIMITIVE"].

Definition IO_ANY : IO := "*".
Definition IO_NUMBER : IO := "FLOAT,INT".
Definition IO_FILE_CONNECTION : IO := "S3_CONNECTION,FTP_CONNECTION,SMB_CONNECTION".

(** [self.is_subset(other)]: a list of members is not a string, and its text is never ["*"]. *)
Definition is_subset (self : IO) (other : IOType) : bool :=
  match other with
  | OneIO other =>
      bool_decide (self = IO_ANY) || bool_decide (other = IO_ANY)
      || forallb (λ part, bool_decide (part ∈ py_split "," other)) (py_split "," self)
  | ListIO _ => bool_decide (self = IO_ANY)
  end.

(** ** Subtyping between members *)

(** Members that stand for one of several others. *)
Definition union_members : list (IO * IO) :=
  [("FLOAT", IO_NUMBER); ("INT", IO_NUMBER); ("S3_CONNECTION", IO_FILE_CONNECTION);
   ("FTP_CONNECTION", IO_FILE_CONNECTION); ("SMB_CONNECTION", IO_FILE_CONNECTION)].

Definition io_below (a b : IO) : bool :=
  bool_decide (a = b) || bool_decide (a = IO_ANY) || bool_decide (b = IO_ANY)
  || bool_decide ((a, b) ∈ union_members).

Lemma is_subset_table :
  Forall (λ a, Forall (λ b, is_subset a (OneIO b) = io_below a b) IO_VALUES) IO_VALUES.
Proof. apply (bool_decide_unpack _). vm_compute. exact I. Qed.

(** A value of member [o] may be given where member [i] is expected: the same member, the wildcard on either
    side, or a member of the union [i] stands for. *)
Definition member_fits (o i : IO) : Prop := o = i ∨ o = IO_ANY ∨ i = IO_ANY ∨ (o, i) ∈ union_members.

Lemma is_subset_members o i : o ∈ IO_VALUES → i ∈ IO_VALUES → is_subset o (OneIO i) = true ↔ member_fits o i.
Proof.
  intros Ho Hi. pose proof is_subset_table as Ht. rewrite Forall_forall in Ht. specialize (Ht o Ho). rewrite Forall_forall in Ht.
  rewrite (Ht i Hi). unfold io_below, member_fits. rewrite !orb_true_iff, !bool_decide_eq_true. tauto.
Qed.

(** ** Errors and results *)

Inductive node_check_error :=
  | NodeClassNotFound (node_name : string)
  | RouterRejoined (source_node_ids : list string)
  | SourceNodeNotFound (source_node_id input_name : string)
  | SourceOutputNotFound (source_output_name source_node_id input_name : string)
  | TypeMismatch (input_name : string) (input_type : IOType) (output_type : IO)
      (source_node_id source_output_name : string)
  | UnexpectedValidationError.

Record PipelineValidationNodeErrorInfo := mkNodeError {
  ne_error : node_check_error;
  ne_node_name : string;
}.

Inductive PipelineValidationErrorInfo :=
  | PipelineIsEmpty
  | NodeClassesNotFound
  | CycleInvolves (remaining_nodes : list string)
  | GraphValidationError
  | NodeValidationFailed.

Record PipelineValidationResult := mkValidation {
  is_valid : bool;
  error_info : option PipelineValidationErrorInfo;
  vr_target_nodes : list string;
  node_errors : pydict PipelineValidationNodeErrorInfo;
}.

Definition SIGNAL_INPUT : string := "signal_in".

Section Validate.
Context `{reg : NodeRegistry} {so : SetOrder}.

(** [IO(t)] raises [ValueError] on a string that is no member; a list is kept. *)
Definition as_io (t : IOType) : outcome node_check_error IOType :=
  match t with
  | OneIO io => if bool_decide (io ∈ IO_VALUES) then Ok t else Raise UnexpectedValidationError
  | ListIO _ => Ok t
  end.

(** [router_signal_links.setdefault(lv.node_id, set()).add(lv.output_name)], for the links whose
    source cannot be an output node. *)
Definition add_router_link (pipeline : Pipeline) (router_signal_links : pydict (list string))
    (lv : NodeInputLinkValue) : outcome node_check_error (pydict (list string)) :=
  match dget pipeline (lv_node_id lv) with
  | None => Ok router_signal_links
  | Some source_node_data =>
      match nodes_get (nd_name source_node_data) with
      | None => Raise (NodeClassNotFound (nd_name source_node_data))
      | Some source_node_class =>
          if CAN_BE_OUTPUT_NODE source_node_class then Ok router_signal_links
          else
            let output_names := dget_default router_signal_links (lv_node_id lv) [] in
            Ok (dset router_signal_links (lv_node_id lv)
                  (if bool_decide (lv_output_name lv ∈ output_names) then output_names
                   else output_names ++ [lv_output_name lv]))
      end
  end.

Definition check_router_links (pipeline : Pipeline) (link_values : list NodeInputLinkValue)
    : outcome node_check_error unit :=
  router_signal_links ← foldM (add_router_link pipeline) [] link_values;
  match (filter (λ kv, 1 < length kv.2) router_signal_links).*1 with
  | [] => Ok ()
  | invalid_router_sources => Raise (RouterRejoined invalid_router_sources)
  end.

Definition check_link (pipeline : Pipeline) (input_name : string) (node_input : InputDefinition)
    (lv : NodeInputLinkValue) : outcome node_check_error unit :=
  match dget pipeline (lv_node_id lv) with
  | None => Raise (SourceNodeNotFound (lv_node_id lv) input_name)
  | Some source_node_data =>
      match definitions_get (nd_name source_node_data) with
      | None => Raise UnexpectedValidationError          (* KeyError *)
      | Some source_node_def =>
          match dget (def_outputs source_node_def) (lv_output_name lv) with
          | None => Raise (SourceOutputNotFound (lv_output_name lv) (lv_node_id lv) input_name)
          | Some source_output_def =>
              input_type_io ← as_io (id_type node_input);
              output_type_io ← as_io (od_type source_output_def);
              match output_type_io with
              | ListIO _ => Raise UnexpectedValidationError      (* a list has no is_subset *)
              | OneIO output_io =>
                  if is_subset output_io input_type_io then Ok ()
                  else Raise (TypeMismatch input_name input_type_io output_io (lv_node_id lv) (lv_output_name lv))
              end
          end
      end
  end.

(** One item of [node_data.inputs]. *)
Definition check_input (pipeline : Pipeline) (node_class : NodeClass)
    (input : string * NodeRuntimeInputValue) : outcome node_check_error unit :=
  match dget (input_definitions node_class) input.1 with
  | None => Ok ()
  | Some node_input =>
      let link_values := iter_node_input_link_values input.2 in
      _ ← (if bool_decide (input.1 = SIGNAL_INPUT) then check_router_links pipeline link_values else Ok ());
      foldM (λ _ lv, check_link pipeline input.1 node_input lv) () link_values
  end.

(** The body of the third step's [try]. *)
Definition check_node (pipeline : Pipeline) (node_data : NodeData) : outcome node_check_error unit :=
  match nodes_get (nd_name node_data) with
  | None => Raise (NodeClassNotFound (nd_name node_data))
  | Some node_class => foldM (λ _ input, check_input pipeline node_class input) () (nd_inputs node_data)
  end.

(** The first step. *)
Definition unknown_classes (pipeline : Pipeline) : pydict PipelineValidationNodeErrorInfo :=
  foldl (λ errors node,
    match nodes_get (nd_name node.2) with
    | Some _ => errors
    | None => dset errors node.1 (mkNodeError (NodeClassNotFound (nd_name node.2)) (nd_name node.2))
    end) [] pipeline.

Definition is_output_node (node_data : NodeData) : bool :=
  match nodes_get (nd_name node_data) with Some node_class => OUTPUT_NODE node_class | None => false end.

Definition output_nodes (pipeline : Pipeline) : list string :=
  (filter (λ node, is_output_node node.2 = true) pipeline).*1.

(** The third step. *)
Definition invalid_nodes (pipeline : Pipeline) : pydict PipelineValidationNodeErrorInfo :=
  foldl (λ errors node,
    match check_node pipeline node.2 with
    | Ok _ => errors
    | Raise e => dset errors node.1 (mkNodeError e (nd_name node.2))
    end) [] pipeline.

Definition validate_pipeline (pipeline : Pipeline) : PipelineValidationResult :=
  match pipeline with
  | [] => mkValidation false (Some PipelineIsEmpty) [] []
  | _ =>
      let target_nodes := output_nodes pipeline in
      match unknown_classes pipeline with
      | (_ :: _) as errors => mkValidation false (Some NodeClassesNotFound) target_nodes errors
      | [] =>
          match topological_sort pipeline None with
          | Raise (DependencyCycleError remaining) =>
              mkValidation false (Some (CycleInvolves remaining)) target_nodes []
          | Raise _ => mkValidation false (Some GraphValidationError) target_nodes []
          | Ok _ =>
              match invalid_nodes pipeline with
              | (_ :: _) as errors => mkValidation false (Some NodeValidationFailed) target_nodes errors
              | [] => mkValidation true None target_nodes []
              end
          end
      end
  end.

(** ** The typing discipline *)

(** An output of declared type [out] may be linked to an input of declared type [inp]: both are members and
    fit, or the input declares a list and the output is the wildcard. *)
Definition io_fits (out inp : IOType) : Prop :=
  ∃ o, out = OneIO o ∧ o ∈ IO_VALUES ∧
       match inp with OneIO i => i ∈ IO_VALUES ∧ member_fits o i | ListIO _ => o = IO_ANY end.

Lemma io_fits_subset o inp :
  o ∈ IO_VALUES → match inp with OneIO i => i ∈ IO_VALUES | ListIO _ => True end →
  is_subset o inp = true ↔ io_fits (OneIO o) inp.
Proof.
  intros Ho Hi. unfold io_fits. destruct inp as [i|l].
  - rewrite is_subset_members by done. naive_solver.
  - unfold is_subset. rewrite bool_decide_eq_true. naive_solver.
Qed.

(** A link names a node of the pipeline, an output its definition declares, and a type that fits. *)
Definition link_typed (p : Pipeline) (input : InputDefinition) (lv : NodeInputLinkValue) : Prop :=
  ∃ src def out, dget p (lv_node_id lv) = Some src ∧ definitions_get (nd_name src) = Some def ∧
    dget (def_outputs def) (lv_output_name lv) = Some out ∧ io_fits (od_type out) (id_type input).

(** [src] routes its signal: exactly one of its outputs is activated at run time. *)
Definition routes_signal (p : Pipeline) (src : string) : Prop :=
  ∃ nd cls, dget p src = Some nd ∧ nodes_get (nd_name nd) = Some cls ∧ CAN_BE_OUTPUT_NODE cls = false.

(** No two different outputs of one router meet in a signal input. *)
Definition routers_apart (p : Pipeline) (links : list NodeInputLinkValue) : Prop :=
  ∀ l1 l2, l1 ∈ links → l2 ∈ links → lv_node_id l1 = lv_node_id l2 → routes_signal p (lv_node_id l1) →
    lv_output_name l1 = lv_output_name l2.

Definition input_typed (p : Pipeline) (cls : NodeClass) (name : string) (v : NodeRuntimeInputValue) : Prop :=
  ∀ d, dget (input_definitions cls) name = Some d →
    (name = SIGNAL_INPUT → routers_apart p (iter_node_input_link_values v)) ∧
    (∀ lv, lv ∈ iter_node_input_link_values v → link_typed p d lv).

Definition node_typed (p : Pipeline) (nd : NodeData) : Prop :=
  ∃ cls, nodes_get (nd_name nd) = Some cls ∧ ∀ name v, (name, v) ∈ nd_inputs nd → input_typed p cls name v.

Definition classes_known (p : Pipeline) : Prop :=
  ∀ id nd, (id, nd) ∈ p → is_Some (nodes_get (nd_name nd)).

Definition well_typed (p : Pipeline) : Prop :=
  p ≠ [] ∧ acyclic p ∧ ∀ id nd, (id, nd) ∈ p → node_typed p nd.

(** ** Correctness of the checks *)

Lemma foldM_all {E A} (f : A → outcome E unit) l :
  foldM (λ _ x, f x) () l = Ok () ↔ ∀ x, x ∈ l → f x = Ok ().
Proof.
  induction l as [|x l IH]; simpl; [split; [by intros _ y ?%not_elem_of_nil|done]|].
  destruct (f x) as [[]|e] eqn:Hf; simpl.
  - rewrite IH. setoid_rewrite elem_of_cons. naive_solver.
  - split; [done|]. intros H. rewrite <-Hf. apply H. by left.
Qed.

Lemma as_io_ok t u :
  as_io t = Ok u ↔ u = t ∧ match t with OneIO io => io ∈ IO_VALUES | ListIO _ => True end.
Proof. destruct t as [io|ios]; simpl; [case_bool_decide|]; naive_solver. Qed.

Lemma check_link_ok p name d lv : check_link p name d lv = Ok () ↔ link_typed p d lv.
Proof.
  unfold check_link, link_typed.
  destruct (dget p (lv_node_id lv)) as [src|]; [|split; [done|by intros (? & ? & ? & ? & _)]].
  destruct (definitions_get (nd_name src)) as [def|] eqn:Hd;
    [|split; [done|intros (? & ? & ? & [= <-] & ? & _); congruence]].
  destruct (dget (def_outputs def) (lv_output_name lv)) as [out|] eqn:Ho;
    [|split; [done|intros (? & ? & ? & [= <-] & ? & ? & _); congruence]].
  transitivity (io_fits (od_type out) (id_type d));
    [|split; [intros; by exists src, def, out|intros (? & ? & ? & [= <-] & ? & ? & ?); by simplify_eq]].
  destruct (as_io (id_type d)) as [t|e] eqn:Ei; simpl.
  - apply as_io_ok in Ei as [-> Hi].
    destruct (od_type out) as [o|os]; simpl; [|split; [done|by intros (? & ? & _)]].
    case_bool_decide as Hin; simpl; [|split; [done|by intros (? & [= <-] & ? & _)]].
    rewrite <-(io_fits_subset o) by done. by destruct (is_subset o (id_type d)).
  - split; [done|]. intros (o & _ & _ & Hi).
    assert (as_io (id_type d) = Ok (id_type d)) as E'; [|congruence]. apply as_io_ok. split; [done|]. by destruct (id_type d); [destruct Hi|].
Qed.

(** What the first loop over a signal input's links collects: per router, its distinct outputs. *)
Definition router_outputs (p : Pipeline) (seen : list NodeInputLinkValue) (acc : pydict (list string)) : Prop :=
  dwf acc ∧ ∀ src, NoDup (dget_default acc src []) ∧
    ∀ o, o ∈ dget_default acc src [] ↔ mkLink src o ∈ seen ∧ routes_signal p src.

Lemma dget_default_dset {A} (d : pydict A) k k' v x :
  dget_default (dset d k v) k' x = if decide (k = k') then v else dget_default d k' x.
Proof. unfold dget_default. rewrite dget_dset. by destruct (decide (k = k')). Qed.

Lemma add_router_link_spec p seen acc lv acc' :
  add_router_link p acc lv = Ok acc' → router_outputs p seen acc → router_outputs p (seen ++ [lv]) acc'.
Proof.
  unfold add_router_link. intros Hr [Hwf Hacc]. destruct lv as [src o]. simpl in Hr.
  assert (∀ src' o', mkLink src' o' ∈ seen ++ [mkLink src o] ↔ mkLink src' o' ∈ seen ∨ (src' = src ∧ o' = o)) as Hin.
  { intros. rewrite elem_of_app, list_elem_of_singleton. naive_solver. }
  assert (¬ routes_signal p src → acc' = acc → router_outputs p (seen ++ [mkLink src o]) acc') as Hskip.
  { intros Hn ->. split; [done|]. intros src'. destruct (Hacc src') as [Hnd Ho]. split; [done|].
    intros o'. rewrite Ho, Hin. naive_solver. }
  destruct (dget p src) as [nd|] eqn:Hp; [|injection Hr as <-; apply Hskip; [|done]; intros (? & ? & ? & _); congruence].
  destruct (nodes_get (nd_name nd)) as [cls|] eqn:Hc; [|done].
  destruct (CAN_BE_OUTPUT_NODE cls) eqn:Hout.
  { injection Hr as <-. apply Hskip; [|done]. intros (nd' & cls' & ? & ? & ?). congruence. }
  injection Hr as <-. split; [by apply dwf_dset|]. intros src'. rewrite dget_default_dset.
  destruct (decide (src = src')) as [<-|Hne]; [|destruct (Hacc src') as [Hnd Ho]; split; [done|]].
  - destruct (Hacc src) as [Hnd Ho]. assert (routes_signal p src) as Hrs by (by exists nd, cls).
    case_bool_decide as Hm; (split; [|intros o'; rewrite Hin]).
    + done.
    + rewrite Ho. apply Ho in Hm. naive_solver.
    + apply NoDup_app. split_and!; [done| |apply NoDup_singleton]. by intros z Hz ->%list_elem_of_singleton.
    + rewrite elem_of_app, list_elem_of_singleton, Ho. naive_solver.
  - intros o'. rewrite Ho, Hin. naive_solver.
Qed.

(** The loop raises on no class when all classes are registered. *)
Lemma router_links_collected p links :
  classes_known p → ∃ acc, foldM (add_router_link p) [] links = Ok acc ∧ router_outputs p links acc.
Proof.
  intros Hk. destruct (foldM (add_router_link p) [] links) as [acc|e] eqn:Hf.
  - exists acc. split; [done|]. revert Hf. apply (foldM_ind (add_router_link p) (router_outputs p)).
    + intros pre x post b b' _ Hb Hx. by eapply add_router_link_spec.
    + split; [constructor|]. intros src. split; [constructor|]. intros o. split; [by intros ?%not_elem_of_nil|].
      by intros [?%not_elem_of_nil _].
  - exfalso. assert (is_ok (foldM (add_router_link p) [] links) = true) as Hok; [|by rewrite Hf in Hok].
    rewrite (foldM_is_ok _ (λ _, true)); [by rewrite forallb_forall|]. intros b lv. unfold add_router_link.
    destruct (dget p (lv_node_id lv)) as [nd|] eqn:Hp; [|done].
    apply dget_elem_of in Hp. destruct (Hk _ _ Hp) as [cls ->]. by destruct (CAN_BE_OUTPUT_NODE cls).
Qed.

Lemma several_outputs (l : list string) : NoDup l → (1 < length l)%nat ↔ ∃ a b, a ∈ l ∧ b ∈ l ∧ a ≠ b.
Proof.
  intros Hnd. destruct l as [|a [|b l]]; simpl.
  - split; [lia|]. intros (a & b & ?%not_elem_of_nil & _). done.
  - split; [lia|]. intros (x & y & ->%list_elem_of_singleton & ->%list_elem_of_singleton & ?). done.
  - split; [|lia]. intros _. exists a, b. apply NoDup_cons in Hnd as [Ha _]. split_and!; [set_solver..|]. intros ->. set_solver.
Qed.

Lemma check_router_links_ok p links :
  classes_known p → check_router_links p links = Ok () ↔ routers_apart p links.
Proof.
  intros Hk. unfold check_router_links. destruct (router_links_collected p links Hk) as (acc & -> & Hwf & Hacc).
  simpl. transitivity (∀ src, ¬ (1 < length (dget_default acc src []))).
  - split.
    + destruct (filter _ acc) as [|kv l] eqn:Ef; [|done]. intros _ src Hlt.
      destruct (dget acc src) as [outs|] eqn:Ed; unfold dget_default in Hlt; rewrite Ed in Hlt; simpl in Hlt; [|lia].
      apply (not_elem_of_nil (src, outs)). rewrite <-Ef. apply list_elem_of_filter. split; [done|by apply dget_elem_of].
    + intros Hall. destruct (filter _ acc) as [|[src outs] l] eqn:Ef; [done|].
      assert ((src, outs) ∈ filter (λ kv, 1 < length kv.2) acc) as Hin by (rewrite Ef; left).
      apply list_elem_of_filter in Hin as [Hlt Hin]. destruct (Hall src). unfold dget_default.
      by rewrite (elem_of_dget _ _ _ Hwf Hin).
  - split.
    + intros Hall [s1 o1] [s2 o2] H1 H2 E Hr. simpl in *. subst s2. destruct (decide (o1 = o2)) as [|Hne]; [done|].
      destruct (Hall s1). destruct (Hacc s1) as [Hnd Ho]. apply several_outputs; [done|].
      exists o1, o2. by rewrite !Ho.
    + intros Ha src Hlt. destruct (Hacc src) as [Hnd Ho]. apply several_outputs in Hlt as (a & b & Ha' & Hb & Hne); [|done].
      apply Ho in Ha' as [Ha' Hr]. apply Ho in Hb as [Hb _]. by apply Hne, (Ha _ _ Ha' Hb).
Qed.

Lemma check_input_ok p cls name v :
  classes_known p → check_input p cls (name, v) = Ok () ↔ input_typed p cls name v.
Proof.
  intros Hk. unfold check_input, input_typed. simpl. destruct (dget (input_definitions cls) name) as [d|]; [|naive_solver].
  transitivity ((name = SIGNAL_INPUT → routers_apart p (iter_node_input_link_values v)) ∧
                (∀ lv, lv ∈ iter_node_input_link_values v → link_typed p d lv)); [|naive_solver].
  setoid_rewrite <-(check_link_ok p name d). rewrite <-foldM_all. case_bool_decide as Hn.
  - rewrite <-(check_router_links_ok p _ Hk). destruct (check_router_links _ _) as [[]|]; naive_solver.
  - naive_solver.
Qed.

Lemma check_node_ok p nd : classes_known p → check_node p nd = Ok () ↔ node_typed p nd.
Proof.
  intros Hk. unfold check_node, node_typed. destruct (nodes_get (nd_name nd)) as [cls|]; [|naive_solver].
  rewrite (foldM_all (check_input p cls)). split.
  - intros H. exists cls. split; [done|]. intros name v Hin. apply check_input_ok; [done|]. by apply H.
  - intros (? & [= <-] & H) [name v] Hin. apply check_input_ok; [done|]. by apply H.
Qed.

(** ** Correctness of the validation *)

(** Both steps collect the nodes that fail a test, in a dictionary. *)
Lemma collected_errors (test : NodeData → option node_check_error) (p : Pipeline) k :
  k ∈ dkeys (foldl (λ errors node, match test node.2 with
                                   | None => errors
                                   | Some e => dset errors node.1 (mkNodeError e (nd_name node.2))
                                   end) [] p) ↔ ∃ nd, (k, nd) ∈ p ∧ is_Some (test nd).
Proof.
  induction p as [|[id nd] p IH] using rev_ind; [split; [by intros ?%not_elem_of_nil|by intros (? & ?%not_elem_of_nil & _)]|].
  rewrite foldl_snoc. setoid_rewrite elem_of_app. setoid_rewrite list_elem_of_singleton. simpl.
  destruct (test nd) as [e|] eqn:Ht; [rewrite elem_of_dkeys_dset|]; rewrite IH; split.
  - intros [->|(nd' & ? & ?)]; [exists nd; rewrite Ht; eauto|exists nd'; eauto].
  - intros (nd' & [?|[= -> ->]] & ?); eauto.
  - intros (nd' & ? & ?). exists nd'; eauto.
  - intros (nd' & [?|[= -> ->]] & Hs); [eauto|]. rewrite Ht in Hs. by destruct Hs.
Qed.

Definition failure {E} (m : outcome E unit) : option E := match m with Ok _ => None | Raise e => Some e end.

Lemma unknown_classes_spec p k :
  k ∈ dkeys (unknown_classes p) ↔ ∃ nd, (k, nd) ∈ p ∧ nodes_get (nd_name nd) = None.
Proof.
  pose proof (collected_errors (λ nd, match nodes_get (nd_name nd) with
    | Some _ => None | None => Some (NodeClassNotFound (nd_name nd)) end) p k) as H.
  replace (unknown_classes p) with
    (foldl (λ errors node, match (match nodes_get (nd_name node.2) with
       | Some _ => None | None => Some (NodeClassNotFound (nd_name node.2)) end) with
       | None => errors | Some e => dset errors node.1 (mkNodeError e (nd_name node.2)) end) [] p).
  - rewrite H. split; intros (nd & Hin & Hn); exists nd; (split; [done|]).
    + destruct (nodes_get (nd_name nd)); [by destruct Hn|done].
    + rewrite Hn. eauto.
  - apply (foldl_rel (=)); [|done]. intros acc ? node <-. by destruct (nodes_get (nd_name node.2)).
Qed.

Lemma invalid_nodes_spec p k :
  k ∈ dkeys (invalid_nodes p) ↔ ∃ nd, (k, nd) ∈ p ∧ check_node p nd ≠ Ok ().
Proof.
  replace (invalid_nodes p) with
    (foldl (λ errors node, match failure (check_node p node.2) with
       | None => errors | Some e => dset errors node.1 (mkNodeError e (nd_name node.2)) end) [] p).
  - rewrite (collected_errors (λ nd, failure (check_node p nd))). split; intros (nd & Hin & Hn); exists nd; (split; [done|]).
    + destruct (check_node p nd); [by destruct Hn|done].
    + destruct (check_node p nd) as [[]|]; [done|]. simpl. eauto.
  - apply (foldl_rel (=)); [|done]. intros acc ? node <-. by destruct (check_node p node.2).
Qed.

Lemma dkeys_nil {A} (d : pydict A) : d = [] ↔ ∀ k, k ∉ dkeys d.
Proof.
  split; [intros -> k; apply not_elem_of_nil|]. destruct d as [|[k v] d]; [done|]. intros H. destruct (H k). left.
Qed.

Lemma unknown_classes_nil p : unknown_classes p = [] ↔ classes_known p.
Proof.
  rewrite dkeys_nil. setoid_rewrite unknown_classes_spec. unfold classes_known. split.
  - intros H id nd Hin. destruct (nodes_get (nd_name nd)) eqn:E; [eauto|]. destruct (H id). eauto.
  - intros H k (nd & Hin & Hn). destruct (H k nd Hin) as [cls Hc]. congruence.
Qed.

Lemma invalid_nodes_nil p :
  classes_known p → invalid_nodes p = [] ↔ ∀ id nd, (id, nd) ∈ p → node_typed p nd.
Proof.
  intros Hk. rewrite dkeys_nil. setoid_rewrite invalid_nodes_spec. split.
  - intros H id nd Hin. apply check_node_ok; [done|]. destruct (check_node p nd) as [[]|e] eqn:E; [done|].
    destruct (H id). exists nd. by rewrite E.
  - intros H k (nd & Hin & Hn). by apply Hn, check_node_ok, (H k).
Qed.

Lemma well_typed_known p : (∀ id nd, (id, nd) ∈ p → node_typed p nd) → classes_known p.
Proof. intros H id nd Hin. destruct (H id nd Hin) as (cls & Hc & _). eauto. Qed.

(** The four ways a validation ends. *)
Lemma validate_cases p :
  dwf p →
  (p = [] ∧ error_info (validate_pipeline p) = Some PipelineIsEmpty) ∨
  (p ≠ [] ∧ ¬ classes_known p ∧ validate_pipeline p =
     mkValidation false (Some NodeClassesNotFound) (output_nodes p) (unknown_classes p)) ∨
  (p ≠ [] ∧ classes_known p ∧ ¬ acyclic p ∧
     ∃ r, validate_pipeline p = mkValidation false (Some (CycleInvolves r)) (output_nodes p) []) ∨
  (p ≠ [] ∧ classes_known p ∧ acyclic p ∧ invalid_nodes p ≠ [] ∧ validate_pipeline p =
     mkValidation false (Some NodeValidationFailed) (output_nodes p) (invalid_nodes p)) ∨
  (p ≠ [] ∧ classes_known p ∧ acyclic p ∧ invalid_nodes p = [] ∧ validate_pipeline p =
     mkValidation true None (output_nodes p) []).
Proof.
  intros Hwf. destruct (decide (p = [])) as [->|Hne]; [by left|right].
  assert (validate_pipeline p =
    match unknown_classes p with
    | (_ :: _) as errors => mkValidation false (Some NodeClassesNotFound) (output_nodes p) errors
    | [] =>
        match topological_sort p None with
        | Raise (DependencyCycleError remaining) =>
            mkValidation false (Some (CycleInvolves remaining)) (output_nodes p) []
        | Raise _ => mkValidation false (Some GraphValidationError) (output_nodes p) []
        | Ok _ =>
            match invalid_nodes p with
            | (_ :: _) as errors => mkValidation false (Some NodeValidationFailed) (output_nodes p) errors
            | [] => mkValidation true None (output_nodes p) []
            end
        end
    end) as -> by (by destruct p).
  destruct (unknown_classes p) as [|e l] eqn:Eu; [right|left].
  - apply unknown_classes_nil in Eu. pose proof (topological_sort_result p Hwf None) as Ht.
    destruct (topological_sort p None) as [o|[n|r|]]; [|by destruct Ht as [?%not_elem_of_nil _]|left|done].
    + destruct Ht as (_ & Hac & _). right. destruct (invalid_nodes p) as [|e l]; [right|left]; by split_and!.
    + destruct Ht as (_ & Hac & _). split_and!; eauto.
  - split_and!; [done| |done]. intros Hk%unknown_classes_nil. congruence.
Qed.

Lemma valid_iff_well_typed p : dwf p → is_valid (validate_pipeline p) = true ↔ well_typed p.
Proof.
  intros Hwf. unfold well_typed.
  destruct (validate_cases p Hwf) as [[-> _]|[(Hne & Hk & ->)|[(Hne & Hk & Ha & r & ->)|[(Hne & Hk & Ha & Hi & ->)|(Hne & Hk & Ha & Hi & ->)]]]].
  - split; [done|]. by intros [? _].
  - split; [done|]. intros (_ & _ & H%well_typed_known). done.
  - split; [done|]. by intros (_ & ? & _).
  - split; [done|]. intros (_ & _ & H). by apply invalid_nodes_nil in H.
  - split; [|done]. intros _. split_and!; [done..|]. by apply invalid_nodes_nil.
Qed.

(** C4. A pipeline is accepted exactly when it is well typed: it has a node, every node's class is
    registered, no node depends on itself, no two outputs of one router meet in a declared signal input, and
    every link into an input its node's class declares names an existing node, one of its declared outputs
    and a member that fits ([member_fits]: the same, a wildcard, or one of the members a union lists). Links
    into inputs the class does not declare are not constrained. *)
Theorem valid_pipelines_are_well_typed p : dwf p → is_valid (validate_pipeline p) = true ↔ well_typed p.
Proof. apply valid_iff_well_typed. Qed.

(** C39. What a failed validation reports: the nodes of unknown classes, else that there is a cycle,
    else the nodes that are not well typed; the targets are the output nodes, in order. *)
Theorem validation_names_the_bad_nodes p :
  dwf p → p ≠ [] →
  vr_target_nodes (validate_pipeline p) = output_nodes p ∧
  (is_valid (validate_pipeline p) = true ↔ error_info (validate_pipeline p) = None) ∧
  (¬ classes_known p → ∀ k, k ∈ dkeys (node_errors (validate_pipeline p)) ↔
     ∃ nd, (k, nd) ∈ p ∧ nodes_get (nd_name nd) = None) ∧
  (classes_known p → ¬ acyclic p → ∃ r, error_info (validate_pipeline p) = Some (CycleInvolves r)) ∧
  (classes_known p → acyclic p → ∀ k, k ∈ dkeys (node_errors (validate_pipeline p)) ↔
     ∃ nd, (k, nd) ∈ p ∧ ¬ node_typed p nd).
Proof.
  intros Hwf Hne. assert (classes_known p → ∀ k,
    k ∈ dkeys (invalid_nodes p) ↔ ∃ nd, (k, nd) ∈ p ∧ ¬ node_typed p nd) as Hinv.
  { intros Hk k. rewrite invalid_nodes_spec. split; intros (nd & Hin & Hn); exists nd; (split; [done|]);
      by rewrite <-(check_node_ok p nd Hk) in *. }
  destruct (validate_cases p Hwf) as [[-> _]|[(_ & Hk & ->)|[(_ & Hk & Ha & r & ->)|[(_ & Hk & Ha & Hi & ->)|(_ & Hk & Ha & Hi & ->)]]]];
    [done|..]; simpl; (split_and!; [done|done|..]); try done.
  - intros _. apply unknown_classes_spec.
  - eauto.
  - intros _ _. by apply Hinv.
  - intros _ _ k. rewrite <-Hinv, Hi by done. done.
Qed.

(** Every declared output of every node is there. *)
Definition outputs_complete (p : Pipeline) (node_outputs : NodeOutputs) : Prop :=
  ∀ id nd def o, dget p id = Some nd → definitions_get (nd_name nd) = Some def → o ∈ dkeys (def_outputs def) →
    is_Some (linked_output node_outputs (mkLink id o)).

(** C22. A pipeline that passed validation can be run: it has an order in which every node comes behind
    its sources, every link into a declared input has its source before it in that order, and once
    the sources have produced their declared outputs the link delivers a value. *)
Theorem validated_links_are_delivered p :
  dwf p → is_valid (validate_pipeline p) = true →
  ∃ order, topological_sort p None = Ok order ∧ NoDup order ∧ (∀ x, x ∈ order ↔ x ∈ dkeys p) ∧
    ∀ l1 id l2 nd cls name v d lv node_outputs,
      order = l1 ++ id :: l2 → dget p id = Some nd → nodes_get (nd_name nd) = Some cls →
      (name, v) ∈ nd_inputs nd → dget (input_definitions cls) name = Some d →
      lv ∈ iter_node_input_link_values v → outputs_complete p node_outputs →
      lv_node_id lv ∈ l1 ∧ is_Some (linked_output node_outputs lv).
Proof.
  intros Hwf Hv.
  destruct (validate_cases p Hwf) as [[-> _]|[(_ & _ & E)|[(_ & _ & _ & r & E)|[(_ & _ & _ & _ & E)|(_ & Hk & Ha & Hi & _)]]]];
    [done|by rewrite E in Hv..|].
  pose proof (topological_sort_result p Hwf None) as Ht.
  destruct (topological_sort p None) as [order|[n|r|]]; [|by destruct Ht as [?%not_elem_of_nil _]|by destruct Ht as (_ & ? & _)|done].
  destruct Ht as (_ & _ & [Hnd Hin Hord]). exists order. split_and!; [done..| |].
  { intros x. rewrite Hin. naive_solver. }
  intros l1 id l2 nd cls name v d lv outs Eo Hp Hc Hinp Hd Hlv Hcomp.
  destruct (proj1 (invalid_nodes_nil p Hk) Hi id nd) as (cls' & Hc' & Hty); [by apply dget_elem_of|].
  simplify_eq. destruct (Hty name v Hinp d Hd) as [_ Hl].
  destruct (Hl lv Hlv) as (src & def & out & Hs & Hdef & Ho & _). split.
  - apply (Hord l1 id l2 (lv_node_id lv) eq_refl). split; [apply dget_is_Some; eauto|].
    exists nd. split; [done|]. unfold sources. apply list_elem_of_bind. exists v. split; [by apply list_elem_of_fmap_2|].
    unfold dvals. by apply (list_elem_of_fmap_2 snd) in Hinp.
  - destruct lv as [sid o]. apply (Hcomp sid src def o Hs Hdef). apply dget_is_Some. eauto.
Qed.

End Validate.

(** ** Subtyping between members, in full *)

(** Between members of [IO], [is_subset] is equality, except that ["*"] matches everything, a float
    or an int is a number and an S3, FTP or SMB connection is a file connection. In particular
    [PRIMITIVE] accepts no string, float, int or boolean. *)
Theorem io_subtyping a b :
  a ∈ IO_VALUES → b ∈ IO_VALUES →
  (is_subset a (OneIO b) = true ↔ a = b ∨ a = IO_ANY ∨ b = IO_ANY ∨ (a, b) ∈ union_members) ∧
  (b = "PRIMITIVE" → a ∈ ["STRING"; "FLOAT"; "INT"; "BOOLEAN"] → is_subset a (OneIO b) = false).
Proof.
  intros Ha Hb. split; [by apply is_subset_members|].
  intros -> Hin. repeat (apply elem_of_cons in Hin as [->|Hin]; [by vm_compute|]). by apply not_elem_of_nil in Hin.
Qed.
