(* ===== verification/PipelineBuildRun.v ===== *)
(** * Pipeline: concrete construction and validation

    A graph of a reader that feeds a filter, with a stored constant and a list of links, evaluated
    through construction, target resolution and validation; and the instances of the theorems of
    [PipelineBuild] and [PipelineValidate] on it. *)
From S2P Require Import Prelude PipelineTypes Graph NodeKwargs PipelineBuild PipelineValidate.

Module BuildRuns.

Definition input_def (attr : string) (t : IO) (multi : bool) : InputDefinition :=
  mkInputDef attr (OneIO t) false multi true None.

Definition df_input : InputDefinition := input_def "df" "DATAFRAME" false.
Definition signal_input : InputDefinition := input_def "signal_in" "SIGNAL" true.
Definition any_input : InputDefinition := input_def "input" "*" false.

Definition df_inputs : pydict InputDefinition := [("df", df_input); ("signal_in", signal_input)].

Definition df_outputs : pydict OutputDefinition :=
  [("signal_out", mkOutputDef "signal_out" (OneIO "SIGNAL")); ("output", mkOutputDef "output" (OneIO "DATAFRAME"))].

Definition node_class (name : string) (output can_output : bool) (ins : pydict InputDefinition)
    (outs : pydict OutputDefinition) : NodeClass :=
  mkNodeClass name output can_output true false true true false false None (λ _, false) ins outs.

Definition run_nodes (name : string) : option NodeClass :=
  if bool_decide (name ∈ ["Read"; "Filter"]) then Some (node_class name false true df_inputs df_outputs)
  else if bool_decide (name = "ServiceOutputNode") then Some (node_class name true true [("input", any_input)] [])
  else if bool_decide (name = "Router") then Some (node_class name false false df_inputs df_outputs)
  else None.

#[local] Instance run_registry : NodeRegistry := {|
  nodes_get := run_nodes;
  definitions_get name := (λ c, mkNodeDefinition (input_definitions c) (output_definitions c)) <$> run_nodes name;
  terminal_output_name _ := None;
|}.

#[local] Instance run_order : SetOrder := insertion_order.

Definition const_payload (v : PyValue) : PyValue := VDict [(KStr "__dvt_type", VStr "const"); (KStr "value", v)].

Definition reader : GraphNodeRecord := mkGraphNode "n1" "base" "Read" (Some [("path", const_payload (VStr "a.csv"))]) false.
Definition filter_node : GraphNodeRecord := mkGraphNode "n2" "base" "Filter" (Some [("df", VNone); ("expr", const_payload (VStr "x > 1"))]) true.

Definition graph_nodes : list GraphNodeRecord := [reader; filter_node].
Definition graph_edges : list GraphEdgeRecord :=
  [mkGraphEdge "n1" (Some "output-output") "n2" (Some "input-df");
   mkGraphEdge "n1" (Some "output-signal_out") "n2" (Some "input-signal_in");
   mkGraphEdge "n1" None "n2" (Some "input-ignored")].

Definition built : Pipeline :=
  [("n1", mkNodeData "Read" false [("path", NodeInputConstantValue (VStr "a.csv"))]);
   ("n2", mkNodeData "Filter" true
            [("expr", NodeInputConstantValue (VStr "x > 1")); ("df", NodeInputLink (mkLink "n1" "output"));
             ("signal_in", NodeInputLink (mkLink "n1" "signal_out"))]);
   ("__service_output__", mkNodeData "ServiceOutputNode" false [("input", NodeInputLink (mkLink "n2" "output"))])].

Lemma built_eq : build_pipeline_from_graph graph_nodes graph_edges (Some ["n2"; "n2"; ""]) = Ok built.
Proof. vm_compute. reflexivity. Qed.

Lemma built_wf : dwf built.
Proof. apply (bool_decide_unpack _). vm_compute. exact I. Qed.

(** Without targets the terminal node gets its own service node. *)
Example built_without_targets :
  dkeys <$> (match build_pipeline_from_graph graph_nodes graph_edges None with Ok p => Some p | Raise _ => None end)
    = Some ["n1"; "n2"; "__service_output_n2__"].
Proof. vm_compute. reflexivity. Qed.

(** The input names round-trip through handles; a doubled prefix is removed twice. *)
Example handle_examples :
  edge_handle "input-" (Some "input-df") = Some "df" ∧ edge_handle "input-" (Some "input-my-input-df") = Some "my-df" ∧
  edge_handle "input-" (Some "input-") = None.
Proof. by vm_compute. Qed.

Lemma built_pipeline_realises_graph_witness :
  build_pipeline_from_graph graph_nodes graph_edges (Some ["n2"; "n2"; ""]) = Ok built ∧
  (∀ n, n ∈ graph_nodes → ∃ nd, dget built (gn_ui_id n) = Some nd ∧ built_from graph_edges n nd).
Proof.
  split; [exact built_eq|]. refine (proj1 (built_pipeline_realises_graph graph_nodes graph_edges (Some ["n2"; "n2"; ""]) built _ _ built_eq)).
  - apply (bool_decide_unpack _). vm_compute. exact I.
  - intros n Hn. apply elem_of_cons in Hn as [->|Hn]; [by vm_compute|].
    apply list_elem_of_singleton in Hn as ->. by vm_compute.
Defined.

Lemma execution_targets_are_built_witness :
  build_pipeline_from_graph graph_nodes graph_edges (Some ["n2"; "n2"; ""]) = Ok built ∧
  ∀ x, topological_sort built (Some ["__service_output__"]) ≠ Raise (NodeNotFoundError x).
Proof.
  split; [exact built_eq|]. refine (proj2 (proj2 (execution_targets_are_built graph_nodes graph_edges (Some ["n2"; "n2"; ""]) built
    ["__service_output__"] built_eq _ _))); [|by vm_compute].
  intros t Ht Hne. repeat (apply elem_of_cons in Ht as [->|Ht]; [first [done|by right; left]|]). by apply not_elem_of_nil in Ht.
Defined.

Lemma valid_pipelines_are_well_typed_witness :
  is_valid (validate_pipeline built) = true ∧ well_typed built.
Proof.
  assert (is_valid (validate_pipeline built) = true) as Hv by (by vm_compute).
  split; [exact Hv|]. apply (valid_pipelines_are_well_typed built built_wf). exact Hv.
Defined.

(** Two outputs of a router meet in a signal input, and a link names an output that is not there. *)
Definition rejoined : Pipeline :=
  [("r", mkNodeData "Router" false []);
   ("t", mkNodeData "Filter" false [("signal_in", NodeInputLinks [mkLink "r" "signal_out"; mkLink "r" "output"])]);
   ("u", mkNodeData "Filter" false [("df", NodeInputLink (mkLink "r" "missing"))]);
   ("ok", mkNodeData "Filter" false [("unknown", NodeInputLink (mkLink "r" "missing"))])].

Lemma validation_names_the_bad_nodes_witness :
  dkeys (node_errors (validate_pipeline rejoined)) = ["t"; "u"] ∧
  vr_target_nodes (validate_pipeline rejoined) = output_nodes rejoined.
Proof.
  split; [by vm_compute|]. refine (proj1 (validation_names_the_bad_nodes rejoined _ _)); [|done].
  apply (bool_decide_unpack _). vm_compute. exact I.
Defined.

Lemma validated_links_are_delivered_witness :
  ∃ order, topological_sort built None = Ok order ∧ NoDup order.
Proof.
  assert (is_valid (validate_pipeline built) = true) as Hv by (by vm_compute).
  destruct (validated_links_are_delivered built built_wf Hv) as (order & Ho & Hnd & _). by exists order.
Defined.

Lemma io_subtyping_witness :
  is_subset "INT" (OneIO IO_NUMBER) = true ∧ is_subset "STRING" (OneIO "PRIMITIVE") = false.
Proof.
  split.
  - apply (io_subtyping "INT" IO_NUMBER); [apply (bool_decide_unpack _); by vm_compute..|].
    right. right. right. apply (bool_decide_unpack _). by vm_compute.
  - apply (io_subtyping "STRING" "PRIMITIVE"); [apply (bool_decide_unpack _); by vm_compute..|done|left].
Defined.

End BuildRuns.
