(* ===== verification/ReadLiteral.v ===== *)
(** * Database readers: literals

    Models [render_literal] of the dialects ([core/db/read_v3/dialects/base.py], [clickhouse.py],
    [mssql.py], [oracle.py]; MySQL, PostgreSQL and SQLite have the one of the base class) and what the
    databases read in what it renders.

    A literal is kept as its parts: the body of a quoted text, already escaped, or the fields of a date or
    a time, with the microseconds and the offset only where the format writes them. How a database reads
    a literal is its documented lexical rule: a doubled quote is a quote; MySQL and ClickHouse also read
    backslash escapes; Oracle reads the empty text as NULL; SQL Server reads a text without the prefix N
    in the code page of the database, so that only ASCII is safe. *)
From Stdlib Require Import Ascii.
From S2P Require Import Prelude.
Open Scope Z_scope.

Inductive sql_dialect := Postgres | MySQL | SQLite | Oracle | MSSQL | ClickHouse.

#[global] Instance sql_dialect_eq_dec : EqDecision sql_dialect.
Proof. solve_decision. Defined.

(** A Python value: a float by its [repr]; what is no boolean, number, date or time by its [str]. *)
Inductive py_value :=
  | PyNone
  | PyBool (b : bool)
  | PyInt (n : Z)
  | PyFloat (text : string)
  | PyDate (year month day : Z)
  | PyDatetime (year month day us_of_day : Z) (offset : option Z)
  | PyTime (us_of_day : Z)
  | PyText (text : string).

#[global] Instance py_value_eq_dec : EqDecision py_value.
Proof. solve_decision. Defined.

(** [a == b] for these values: [True] is [1]. *)
Definition numeric (v : py_value) : py_value := match v with PyBool b => PyInt (Z.b2z b) | _ => v end.
Definition py_eq (a b : py_value) : bool := bool_decide (numeric a = numeric b).

Inductive sql_literal :=
  | LNull                                                                  (* NULL *)
  | LKeyword (b : bool)                                                    (* TRUE, FALSE *)
  | LInt (n : Z)
  | LFloat (text : string)
  | LDate (year month day : Z)                                             (* '2024-02-29', DATE '...', toDate('...'), CAST('...' AS DATE) *)
  | LTimestamp (year month day us_of_day : Z) (offset : option Z)
  | LTime (us_of_day : Z)
  | LQuoted (body : string).                                               (* 'body' *)

Definition quote : ascii := "'"%char.
Definition backslash : ascii := "\"%char.

(** [str(value).replace("'", "''")] *)
Fixpoint double_quotes (s : string) : string :=
  match s with
  | EmptyString => EmptyString
  | String c s => if decide (c = quote) then String c (String c (double_quotes s)) else String c (double_quotes s)
  end.

Definition seconds (us : Z) : Z := us / 1000000 * 1000000.

(** ** [render_literal] *)

(** [SQLDialect.render_literal]: [strftime] without [%z] drops the offset. *)
Definition base_render_literal (v : py_value) : sql_literal :=
  match v with
  | PyNone => LNull
  | PyBool b => LKeyword b
  | PyDatetime y m d us _ => LTimestamp y m d us None
  | PyDate y m d => LDate y m d
  | PyInt n => LInt n
  | PyFloat text => LFloat text
  | PyTime us => LTime us
  | PyText text => LQuoted (double_quotes text)
  end.

(** [ClickHouseDialect.render_literal]: [toDateTime('%Y-%m-%d %H:%M:%S')] *)
Definition clickhouse_render_literal (v : py_value) : sql_literal :=
  match v with
  | PyBool b => LInt (Z.b2z b)
  | PyDatetime y m d us _ => LTimestamp y m d (seconds us) None
  | _ => base_render_literal v
  end.

(** [OracleDialect.render_literal]: the microseconds are written when there are any. *)
Definition oracle_render_literal (v : py_value) : sql_literal :=
  match v with
  | PyBool b => LInt (Z.b2z b)
  | PyDatetime y m d us _ => if us mod 1000000 =? 0 then LTimestamp y m d (seconds us) None else LTimestamp y m d us None
  | _ => base_render_literal v
  end.

(** [MssqlDialect.render_literal]: [isoformat] with microseconds keeps the offset. *)
Definition mssql_render_literal (v : py_value) : sql_literal :=
  match v with
  | PyDatetime y m d us offset => LTimestamp y m d us offset
  | PyBool b => LInt (Z.b2z b)
  | _ => base_render_literal v
  end.

Definition render_literal (dialect : sql_dialect) (v : py_value) : sql_literal :=
  match dialect with
  | ClickHouse => clickhouse_render_literal v
  | Oracle => oracle_render_literal v
  | MSSQL => mssql_render_literal v
  | Postgres | MySQL | SQLite => base_render_literal v
  end.

(** ** What a database reads *)

Definition escape_char (c : ascii) : ascii :=
  match c with
  | "n"%char => "010"%char
  | "r"%char => "013"%char
  | "t"%char => "009"%char
  | "b"%char => "008"%char
  | "0"%char => "000"%char
  | _ => c
  end.

(** The text between the quotes, with or without backslash escapes; [None] where the text ends too early or not
    at all. *)
Fixpoint read_body (escapes : bool) (s : string) : option string :=
  match s with
  | EmptyString => Some EmptyString
  | String c s1 =>
      if decide (c = quote) then
        match s1 with
        | String c2 s2 => if decide (c2 = quote) then String quote <$> read_body escapes s2 else None
        | EmptyString => None
        end
      else if escapes && bool_decide (c = backslash) then
        match s1 with
        | String c2 s2 => String (escape_char c2) <$> read_body escapes s2
        | EmptyString => None
        end
      else String c <$> read_body escapes s1
  end.

Definition has_escapes (dialect : sql_dialect) : bool := bool_decide (dialect = MySQL ∨ dialect = ClickHouse).

Definition is_ascii (c : ascii) : bool := (Ascii.nat_of_ascii c <? 128)%nat.

(** The value of a quoted text; a query with a text that does not end is refused, like one with NULL it
    selects nothing. *)
Definition read_quoted (dialect : sql_dialect) (body : string) : py_value :=
  match read_body (has_escapes dialect) body with
  | None => PyNone
  | Some s =>
      match dialect with
      | Oracle => if bool_decide (s = "") then PyNone else PyText s
      | MSSQL => PyText (String.string_of_list_ascii ((λ c, if is_ascii c then c else "?"%char) <$> String.list_ascii_of_string s))
      | _ => PyText s
      end
  end.

(** [repr] of the floats that are no SQL numbers. *)
Definition not_numbers : list string := ["inf"; "-inf"; "nan"].

Definition read_literal (dialect : sql_dialect) (l : sql_literal) : py_value :=
  match l with
  | LNull => PyNone
  | LKeyword b => PyBool b
  | LInt n => PyInt n
  | LFloat text => if bool_decide (text ∈ not_numbers) then PyNone else PyFloat text
  | LDate y m d => PyDate y m d
  | LTimestamp y m d us offset => PyDatetime y m d us offset
  | LTime us => PyTime us
  | LQuoted body => read_quoted dialect body
  end.

(** ** Which values are rendered exactly *)

Fixpoint all_chars (P : ascii → bool) (s : string) : bool :=
  match s with EmptyString => true | String c s => P c && all_chars P s end.

Definition exact_value (dialect : sql_dialect) (v : py_value) : bool :=
  match v with
  | PyFloat text => negb (bool_decide (text ∈ not_numbers))
  | PyDatetime _ _ _ us offset =>
      match dialect with
      | MSSQL => true
      | ClickHouse => bool_decide (offset = None) && (us mod 1000000 =? 0)
      | _ => bool_decide (offset = None)
      end
  | PyText s =>
      match dialect with
      | MySQL | ClickHouse => all_chars (λ c, negb (bool_decide (c = backslash))) s
      | Oracle => negb (bool_decide (s = ""))
      | MSSQL => all_chars is_ascii s
      | Postgres | SQLite => true
      end
  | _ => true
  end.

Lemma read_body_double_quotes escapes s :
  (escapes = true → all_chars (λ c, negb (bool_decide (c = backslash))) s = true) →
  read_body escapes (double_quotes s) = Some s.
Proof.
  induction s as [|c s IH]; intros Hs; [done|]. cbn [double_quotes].
  assert (escapes = true → bool_decide (c = backslash) = false ∧ all_chars (λ c, negb (bool_decide (c = backslash))) s = true) as Hc.
  { intros E. specialize (Hs E). cbn [all_chars] in Hs. apply andb_true_iff in Hs as [H1 H2]. by apply negb_true_iff in H1. }
  destruct (decide (c = quote)) as [->|Hq]; cbn [read_body].
  - rewrite decide_True by done. rewrite decide_True by done. rewrite IH; [done|]. intros E. by apply Hc.
  - rewrite decide_False by done. assert (escapes && bool_decide (c = backslash) = false) as ->.
    { destruct escapes; [|done]. cbn. by apply Hc. }
    rewrite IH; [done|]. intros E. by apply Hc.
Qed.

Lemma ascii_chars_kept s :
  all_chars is_ascii s = true → (λ c, if is_ascii c then c else "?"%char) <$> String.list_ascii_of_string s = String.list_ascii_of_string s.
Proof. induction s as [|c s IH]; [done|]. cbn. intros [Hc Hs]%andb_true_iff. rewrite Hc. f_equal. by apply IH. Qed.

Lemma seconds_exact us : us mod 1000000 = 0 → seconds us = us.
Proof. unfold seconds. intros. pose proof (Z.div_mod us 1000000). lia. Qed.

(** What a dialect renders of such a value is read as the value: quotes are doubled and read back, and no part of
    a date or time is dropped. *)
Theorem rendered_literals_are_exact dialect v :
  exact_value dialect v = true → py_eq (read_literal dialect (render_literal dialect v)) v = true.
Proof.
  intros Hv. apply bool_decide_eq_true_2. destruct v as [|b|n|text|y m d|y m d us offset|us|text]; cbn [exact_value] in Hv.
  - by destruct dialect.
  - by destruct dialect.
  - by destruct dialect.
  - apply negb_true_iff in Hv. destruct dialect; cbn [render_literal base_render_literal clickhouse_render_literal
      oracle_render_literal mssql_render_literal read_literal]; by rewrite Hv.
  - by destruct dialect.
  - destruct dialect; cbn in Hv |- *; try (apply bool_decide_eq_true in Hv as ->); try done.
    + destruct (Z.eqb_spec (us mod 1000000) 0) as [E|]; [|done]. by rewrite seconds_exact.
    + apply andb_true_iff in Hv as [->%bool_decide_eq_true E%Z.eqb_eq]. by rewrite seconds_exact.
  - by destruct dialect.
  - assert (render_literal dialect (PyText text) = LQuoted (double_quotes text)) as -> by (by destruct dialect).
    cbn [read_literal]. unfold read_quoted. rewrite read_body_double_quotes by (by destruct dialect).
    destruct dialect; try done.
    + apply negb_true_iff in Hv. by rewrite Hv.
    + by rewrite ascii_chars_kept, String.string_of_list_ascii_of_string.
Qed.

(** What is not exact: a datetime of ClickHouse within a second, an offset (except for SQL Server), a backslash in MySQL and
    ClickHouse, the empty text in Oracle, and a text of SQL Server that is not ASCII. *)
Example inexact_literals :
  read_literal ClickHouse (render_literal ClickHouse (PyDatetime 2024 2 29 1500000 None)) = PyDatetime 2024 2 29 1000000 None ∧
  read_literal Postgres (render_literal Postgres (PyDatetime 2024 2 29 0 (Some 180))) = PyDatetime 2024 2 29 0 None ∧
  read_literal MSSQL (render_literal MSSQL (PyDatetime 2024 2 29 0 (Some 180))) = PyDatetime 2024 2 29 0 (Some 180) ∧
  read_literal MySQL (render_literal MySQL (PyText "a\c")) = PyText "ac" ∧
  read_literal MySQL (render_literal MySQL (PyText "a\")) = PyNone ∧
  read_literal Oracle (render_literal Oracle (PyText "")) = PyNone ∧
  read_literal Postgres (render_literal Postgres (PyText "it's")) = PyText "it's".
Proof. by vm_compute. Qed.
