(* ===== verification/ReadTypes.v ===== *)
(** * Database readers: keys, predicates and plans

    Models the data of [core/db/read_v3]: [models.py], [grouping/models.py], the predicates the
    planners render, and the queries they send. The values of a partition key and the database that
    compares them are the parameter [SqlKey]: the dialect, the Python value the driver gives for a key, the
    key the database compares a value with, the database's collation order, Python's order, the hash of
    [hash_expr] and [string_prefix_expr]. What a rendered literal denotes follows from [render_literal]
    ([ReadLiteral]). A relation is the list of its rows; [NULL] is [None]. *)
From S2P Require Import Prelude ReadLiteral.
Open Scope Z_scope.

(** ** Errors *)

Inductive ReadV3Error :=
  | ReadV3ConfigError (msg : string)
  | ReadV3PlanningError (msg : string)
  | ReadV3ExecutionError (msg : string)
  | ReadTypeError (msg : string).      (* TypeError or ValueError that nothing catches *)

(** ** Keys and the database *)

Class SqlKey (Key : Type) := {
  key_eq_dec :: EqDecision Key;               (* Python's == *)
  sql_le : Key → Key → bool;                  (* the order of the database *)
  py_le : Key → Key → bool;                   (* Python's order *)
  key_dialect : sql_dialect;
  key_value : Key → py_value;                 (* the value the driver returns for a key *)
  of_value : py_value → Key;                  (* the key a value stands for, where a key is expected *)
  key_hash : option Key → Z;                  (* the hash below the modulus of dialect.hash_expr *)
  key_prefix : Z → bool → Key → Key;          (* dialect.string_prefix_expr *)
  key_str : Key → string;                     (* str(value) *)
}.

(** How the database compares: a total preorder (several values may be equal for a collation); and the value
    the driver returned for a key, sent back, stands for that key. *)
Class SqlKeyLaws (Key : Type) `{SqlKey Key} := {
  sql_le_total a b : sql_le a b = true ∨ sql_le b a = true;
  sql_le_trans a b c : sql_le a b = true → sql_le b c = true → sql_le a c = true;
  value_denotes k v : py_eq v (key_value k) = true → sql_le (of_value v) k = true ∧ sql_le k (of_value v) = true;
}.

(** The key a rendered literal denotes. *)
Definition literal `{SqlKey Key} (k : Key) : Key := of_value (read_literal key_dialect (render_literal key_dialect (key_value k))).

(** The literal of a key is read as its value. *)
Definition exact_key `{SqlKey Key} (k : Key) : Prop :=
  py_eq (read_literal key_dialect (render_literal key_dialect (key_value k))) (key_value k) = true.

(** Every value of the key type has an exact literal: a condition on the type of the key and the dialect, which
    [ReadLiteral.rendered_literals_are_exact] decides. *)
Class ExactLiterals (Key : Type) `{SqlKey Key} : Prop := { exact_literals (k : Key) : exact_key k }.

(** Python compares the keys as the database does: so for numbers and dates, not for texts under a collation. *)
Definition same_order (Key : Type) `{SqlKey Key} : Prop := ∀ a b : Key, py_le a b = sql_le a b.

Lemma literal_faithful `{SqlKeyLaws Key} {lits : ExactLiterals Key} (k : Key) : sql_le (literal k) k = true ∧ sql_le k (literal k) = true.
Proof. apply value_denotes, exact_literals. Qed.

Lemma exact_key_intro `{SqlKey Key} (k : Key) : exact_value key_dialect (key_value k) = true → exact_key k.
Proof. apply rendered_literals_are_exact. Qed.

Definition sql_eq `{SqlKey Key} (a b : Key) : bool := sql_le a b && sql_le b a.
Definition sql_lt `{SqlKey Key} (a b : Key) : bool := negb (sql_le b a).

(** [hash_expr]: the hash of the key, or of ['__NULL__'], modulo the number of buckets. *)
Definition hash_bucket `{SqlKey Key} (k : option Key) (buckets : Z) : Z := Z.abs (key_hash k) mod buckets.

(** A row of the relation, how its rows are returned by [ORDER BY key], and how pandas casts them. *)
Class ReadEnv (Key Row Out : Type) `{SqlKey Key} := {
  row_key : Row → option Key;
  order_by_key : list Row → list Row;
  cast_row : Row → option Out;         (* None when a column cannot be cast *)
  cast_key : Key → Key;                (* the index value made of a key *)
}.

Class ReadEnvLaws (Key Row Out : Type) `{ReadEnv Key Row Out} := {
  order_by_key_perm (rows : list Row) : order_by_key rows ≡ₚ rows;
  order_by_key_sorted (rows : list Row) :
    (∀ r, r ∈ rows → is_Some (row_key r)) →
    StronglySorted (λ a b, sql_le a b = true) (omap row_key (order_by_key rows));
}.

(** ** Predicates *)

(** The expression a segment compares: the key or a prefix of it. *)
Inductive key_expr :=
  | EKey
  | EPrefix (length : Z) (lower : bool).

#[global] Instance key_expr_eq_dec : EqDecision key_expr.
Proof. solve_decision. Defined.

Inductive sql_predicate (Key : Type) :=
  | PNever                                            (* 1=0 *)
  | PAlways                                           (* 1 = 1 *)
  | PIsNull (e : key_expr)
  | PIsNotNull (e : key_expr)
  | PEq (e : key_expr) (v : Key)
  | PIn (e : key_expr) (vs : list Key)
  | PNotIn (e : key_expr) (vs : list Key)             (* e NOT IN (vs) AND e IS NOT NULL *)
  | PRange (e : key_expr) (start stop : Key) (include_end : bool)
  | PBucket (buckets : Z) (bucket_list : list Z).
Arguments PNever {Key}.
Arguments PAlways {Key}.
Arguments PIsNull {Key} e.
Arguments PIsNotNull {Key} e.
Arguments PEq {Key} e v.
Arguments PIn {Key} e vs.
Arguments PNotIn {Key} e vs.
Arguments PRange {Key} e start stop include_end.
Arguments PBucket {Key} buckets bucket_list.

Section Predicates.
Context `{SqlKey Key}.

Definition eval_expr (e : key_expr) (k : option Key) : option Key :=
  match e with
  | EKey => k
  | EPrefix n lower => key_prefix n lower <$> k
  end.

(** The rows a predicate selects: those for which it is TRUE (neither FALSE nor NULL). *)
Definition sat (p : sql_predicate Key) (k : option Key) : bool :=
  match p with
  | PNever => false
  | PAlways => true
  | PIsNull e => match eval_expr e k with None => true | Some _ => false end
  | PIsNotNull e => match eval_expr e k with None => false | Some _ => true end
  | PEq e v => match eval_expr e k with None => false | Some x => sql_eq x (literal v) end
  | PIn e vs => match eval_expr e k with None => false | Some x => existsb (λ v, sql_eq x (literal v)) vs end
  | PNotIn e vs => match eval_expr e k with None => false | Some x => negb (existsb (λ v, sql_eq x (literal v)) vs) end
  | PRange e start stop include_end =>
      match eval_expr e k with
      | None => false
      | Some x => sql_le (literal start) x
                  && (if include_end then sql_le x (literal stop) else sql_lt x (literal stop))
      end
  | PBucket buckets bucket_list => existsb (λ b, hash_bucket k buckets =? b) bucket_list
  end.

End Predicates.

(** ** Plans *)

Inductive ValueKind :=
  | NUMERIC | DATE | DATETIME | STRING | BOOL | UUID | JSON | UNKNOWN.

#[global] Instance ValueKind_eq_dec : EqDecision ValueKind.
Proof. solve_decision. Defined.

Inductive PartitionStrategy := RANGE | HASH.

#[global] Instance PartitionStrategy_eq_dec : EqDecision PartitionStrategy.
Proof. solve_decision. Defined.

(** A division is a key, or the number of a bucket or group. *)
Inductive index_value (Key : Type) :=
  | IxKey (k : Key)
  | IxInt (n : Z).
Arguments IxKey {Key} k.
Arguments IxInt {Key} n.

Record SegmentDivision (Key : Type) := mkDivision {
  sd_start : index_value Key;
  sd_end : index_value Key;
  sd_include_end : bool;
}.
Arguments mkDivision {Key} _ _ _.
Arguments sd_start {Key} _.
Arguments sd_end {Key} _.
Arguments sd_include_end {Key} _.

Record ReadSegment (Key : Type) := mkSegment {
  rs_label : string;
  rs_predicate : sql_predicate Key;
  rs_division : SegmentDivision Key;
  rs_strategy : PartitionStrategy;
  rs_expected_rows : option Z;
  rs_index_literal : option Z;
}.
Arguments mkSegment {Key} _ _ _ _ _ _.
Arguments rs_label {Key} _.
Arguments rs_predicate {Key} _.
Arguments rs_division {Key} _.
Arguments rs_strategy {Key} _.
Arguments rs_expected_rows {Key} _.
Arguments rs_index_literal {Key} _.

(** The column the index of a partition is taken from. *)
Inductive index_column :=
  | PartitionKeyColumn
  | HashBucketColumn (buckets : Z)
  | LiteralColumn.

Record ReadV3Plan (Key : Type) := mkPlan {
  pl_strategy : PartitionStrategy;
  pl_segments : list (ReadSegment Key);
  pl_divisions : list (index_value Key);
  pl_max_rows_per_partition : Z;
  pl_index_column : index_column;
  pl_total_rows : Z;
  pl_npartitions : Z;
}.
Arguments mkPlan {Key} _ _ _ _ _ _ _.
Arguments pl_strategy {Key} _.
Arguments pl_segments {Key} _.
Arguments pl_divisions {Key} _.
Arguments pl_max_rows_per_partition {Key} _.
Arguments pl_index_column {Key} _.
Arguments pl_total_rows {Key} _.
Arguments pl_npartitions {Key} _.

(** ** Queries *)

Section Queries.
Context {Key Row Out : Type} {sk : SqlKey Key} {env : ReadEnv Key Row Out}.

(** [SELECT COUNT( * ) ... WHERE p] *)
Definition count_predicate (rel : list Row) (p : sql_predicate Key) : Z :=
  Z.of_nat (length (filter (λ r, sat p (row_key r) = true) rel)).

Definition non_null (rel : list Row) : list Row := filter (λ r, is_Some (row_key r)) rel.

(** The keys of [SELECT key ... WHERE key IS NOT NULL ORDER BY key ASC]. *)
Definition ordered_keys (rel : list Row) : list Key := omap row_key (order_by_key (non_null rel)).

(** [boundary_query] *)
Definition boundary_value (rel : list Row) (offset : Z) : option Key := ordered_keys rel !! Z.to_nat offset.

Record row_stats := mkStats { st_min : option Key; st_max : option Key; st_total : Z; st_non_null : Z }.

(** [query_row_stats] *)
Definition query_row_stats (rel : list Row) : row_stats :=
  mkStats (head (ordered_keys rel)) (last (ordered_keys rel)) (Z.of_nat (length rel))
    (Z.of_nat (length (non_null rel))).

End Queries.

(** [math.ceil(a / b)] of two integers, for a positive divisor. *)
Definition ceil_quotient (a b : Z) : Z := - ((- a) / b).
