(* ===== verification/ReadPlan.v ===== *)
(** * Database readers: range and hash segments

    Models [core/db/read_v3/planner/boundaries.py], [partitioning/adapters.py] and
    [partitioning/divisions.py]: how the relation is cut into segments along the boundaries the
    database reports, or into hash buckets, and when each is chosen. *)
From S2P Require Import Prelude PipelineTypes NodeKwargs ReadLiteral ReadTypes.
Open Scope Z_scope.

(** ** [partitioning/adapters.py] *)

Definition ORDERABLE_KINDS : list ValueKind := [NUMERIC; DATE; DATETIME; STRING; UUID].

Definition choose_partition_strategy (value_kind : ValueKind) (has_nulls : bool)
    (explicit_strategy : option PartitionStrategy) : outcome ReadV3Error PartitionStrategy :=
  match explicit_strategy with
  | Some RANGE =>
      if negb (bool_decide (value_kind ∈ ORDERABLE_KINDS)) then
        Raise (ReadV3ConfigError "Range strategy requires an orderable partition key type.")
      else if has_nulls then Raise (ReadV3ConfigError "Range strategy requires a non-null partition key.")
      else Ok RANGE
  | Some HASH => Ok HASH
  | None => if bool_decide (value_kind ∈ ORDERABLE_KINDS) && negb has_nulls then Ok RANGE else Ok HASH
  end.

Section Plan.
Context {Key Row Out : Type} {sk : SqlKey Key} {env : ReadEnv Key Row Out}.

(** ** [partitioning/divisions.py] *)

(** [left <= right] of two divisions; [None] when Python cannot compare them. *)
Definition ix_le (a b : index_value Key) : option bool :=
  match a, b with
  | IxKey a, IxKey b => Some (py_le a b)
  | IxInt a, IxInt b => Some (a <=? b)
  | _, _ => None
  end.

Fixpoint check_monotonic (divisions : list (index_value Key)) : outcome ReadV3Error unit :=
  match divisions with
  | prev_v :: ((curr_v :: _) as rest) =>
      match ix_le prev_v curr_v with
      | None => Raise (ReadV3PlanningError "Division values are not comparable")
      | Some true => check_monotonic rest
      | Some false => Raise (ReadV3PlanningError "Divisions are not monotonic")
      end
  | _ => Ok ()
  end.

Definition validate_divisions (divisions : list (index_value Key)) (expected_segments : nat)
    : outcome ReadV3Error (list (index_value Key)) :=
  if (expected_segments =? 0)%nat then Raise (ReadV3PlanningError "Expected segment count must be positive")
  else if negb (length divisions =? expected_segments + 1)%nat
  then Raise (ReadV3PlanningError "Invalid divisions length")
  else _ ← check_monotonic divisions; Ok divisions.

(** ** Range segments *)

(** [range(0, non_null_rows, page_size)] *)
Definition page_offsets (non_null_rows page_size : Z) : list Z :=
  (λ i, Z.of_nat i * page_size) <$> seq 0 (Z.to_nat (ceil_quotient non_null_rows page_size)).

Fixpoint query_boundaries (rel : list Row) (offsets : list Z) : outcome ReadV3Error (list Key) :=
  match offsets with
  | [] => Ok []
  | offset :: rest =>
      match boundary_value rel offset with
      | None => Raise (ReadV3PlanningError "Expected at least one row for scalar SQL")
      | Some v => vs ← query_boundaries rel rest; Ok (v :: vs)
      end
  end.

(** Consecutive equal boundaries are dropped. *)
Definition dedup_boundaries (raw_boundaries : list Key) : list Key :=
  foldl (λ boundaries value,
    if bool_decide (last boundaries = Some value) then boundaries else boundaries ++ [value]) [] raw_boundaries.

Definition range_segment (idx : nat) (start stop : Key) (is_last : bool) : ReadSegment Key :=
  mkSegment ("range_" +:+ pretty (Z.of_nat idx))
    (if bool_decide (start = stop) && is_last then PEq EKey start else PRange EKey start stop is_last)
    (mkDivision (IxKey start) (IxKey stop) is_last) RANGE None None.

(** The loop over the boundaries. *)
Fixpoint range_segments (idx : nat) (boundaries : list Key) : list (ReadSegment Key) :=
  match boundaries with
  | start :: ((stop :: rest) as tail) =>
      let is_last := bool_decide (rest = []) in
      if bool_decide (start = stop) && negb is_last then range_segments (S idx) tail
      else range_segment idx start stop is_last :: range_segments (S idx) tail
  | _ => []
  end.

Definition segment_divisions (segments : list (ReadSegment Key)) : list (index_value Key) :=
  match segments with
  | [] => []
  | s :: _ => sd_start (rs_division s) :: ((λ s, sd_end (rs_division s)) <$> segments)
  end.

Definition empty_segment (strategy : PartitionStrategy) (index_literal : option Z) : ReadSegment Key :=
  mkSegment "empty" PNever (mkDivision (IxInt 0) (IxInt 1) true) strategy (Some 0) index_literal.

Definition build_range_segments (rel : list Row) (npartitions : Z)
    : outcome ReadV3Error (list (ReadSegment Key) * list (index_value Key)) :=
  let stats := query_row_stats rel in
  if st_total stats =? 0 then Ok ([empty_segment RANGE None], [IxInt 0; IxInt 1])
  else if st_non_null stats =? 0 then
    Raise (ReadV3PlanningError "Range segmentation cannot be built because partition key contains only NULL values")
  else
    let effective_parts := Z.min (Z.max 1 npartitions) (st_total stats) in
    let page_size := Z.max 1 (ceil_quotient (st_non_null stats) effective_parts) in
    raw ← query_boundaries rel (page_offsets (st_non_null stats) page_size);
    let raw_boundaries := option_list (st_min stats) ++ raw ++ option_list (st_max stats) in
    let boundaries := dedup_boundaries raw_boundaries in
    let boundaries := match boundaries with [b] => [b; b] | _ => boundaries end in
    if (length boundaries <? 2)%nat then
      Raise (ReadV3PlanningError "Failed to build at least two range boundaries")
    else
      match range_segments 0 boundaries with
      | [] => Raise (ReadV3PlanningError "No non-empty range segments were generated")
      | segments => Ok (segments, segment_divisions segments)
      end.

(** ** Hash segments *)

Definition hash_segment (modulus bucket : Z) : ReadSegment Key :=
  mkSegment ("bucket_" +:+ pretty bucket) (PBucket modulus [bucket])
    (mkDivision (IxInt bucket) (IxInt (bucket + 1)) true) HASH None None.

(** [modulus] is the number of buckets [hash_sql] was rendered with. *)
Definition build_hash_segments (modulus npartitions total_rows : Z)
    : list (ReadSegment Key) * list (index_value Key) :=
  let buckets := Z.max 1 npartitions in
  let buckets := if (0 <? total_rows) && (total_rows <? buckets) then total_rows else buckets in
  (hash_segment modulus <$> (Z.of_nat <$> seq 0 (Z.to_nat buckets)),
   IxInt <$> (Z.of_nat <$> seq 0 (Z.to_nat buckets + 1))).

Definition infer_npartitions (total_rows : Z) (explicit_npartitions : option Z) : outcome ReadV3Error Z :=
  match explicit_npartitions with
  | Some n =>
      if n <=? 0 then Raise (ReadV3PlanningError "npartitions must be positive")
      else if total_rows <=? 0 then Ok 1 else Ok (Z.min n total_rows)
  | None => if total_rows <=? 0 then Ok 1 else Ok (Z.max 1 (Z.min 64 (ceil_quotient total_rows 100000)))
  end.

(** ** Exactly one segment per row *)

(** How many segments select a row with key [k]. *)
Definition hits (predicates : list (sql_predicate Key)) (k : option Key) : nat :=
  length (filter (λ p, sat p k = true) predicates).

Definition predicates (segments : list (ReadSegment Key)) : list (sql_predicate Key) := rs_predicate <$> segments.

(** Every row is selected by exactly one segment. *)
Definition partitions (segments : list (ReadSegment Key)) (rel : list Row) : Prop :=
  ∀ r, r ∈ rel → hits (predicates segments) (row_key r) = 1%nat.

Lemma hits_cons p ps k : hits (p :: ps) k = ((if sat p k then 1 else 0) + hits ps k)%nat.
Proof. unfold hits. rewrite filter_cons. destruct (sat p k); [by rewrite decide_True|by rewrite decide_False]. Qed.

Lemma predicates_cons s segments : predicates (s :: segments) = rs_predicate s :: predicates segments.
Proof. done. Qed.

Lemma hits_app ps qs k : hits (ps ++ qs) k = (hits ps k + hits qs k)%nat.
Proof. unfold hits. by rewrite filter_app, length_app. Qed.

Lemma hits_perm ps qs k : ps ≡ₚ qs → hits ps k = hits qs k.
Proof. intros Hp. unfold hits. by rewrite Hp. Qed.

Lemma hits_none ps k : (∀ p, p ∈ ps → sat p k = false) → hits ps k = 0%nat.
Proof.
  induction ps as [|p ps IH]; intros H; [done|]. rewrite hits_cons, (H p) by left.
  apply IH. intros q Hq. apply H. by right.
Qed.

(** *** Comparison *)

Context {laws : SqlKeyLaws Key} {elaws : ReadEnvLaws Key Row Out} {lits : ExactLiterals Key}.

Lemma sql_le_refl a : sql_le a a = true.
Proof using laws lits. by destruct (sql_le_total a a). Qed.

Lemma sql_lt_le a b : sql_lt a b = true → sql_le a b = true.
Proof using laws lits. unfold sql_lt. intros ?%negb_true_iff. destruct (sql_le_total a b); congruence. Qed.

Lemma literal_le_l a x : sql_le (literal a) x = sql_le a x.
Proof using laws lits.
  destruct (literal_faithful a) as [H1 H2]. apply eq_bool_prop_intro. rewrite !Is_true_true.
  split; intros; by eapply sql_le_trans.
Qed.

Lemma literal_le_r a x : sql_le x (literal a) = sql_le x a.
Proof using laws lits.
  destruct (literal_faithful a) as [H1 H2]. apply eq_bool_prop_intro. rewrite !Is_true_true.
  split; intros; by eapply sql_le_trans.
Qed.

Lemma sat_eq v k : sat (PEq EKey v) (Some k) = sql_le k v && sql_le v k.
Proof using laws lits. unfold sat, sql_eq. simpl. by rewrite literal_le_l, literal_le_r. Qed.

Lemma sat_range a b incl k :
  sat (PRange EKey a b incl) (Some k) = sql_le a k && (if incl then sql_le k b else sql_lt k b).
Proof using laws lits. unfold sat, sql_lt. simpl. by rewrite !literal_le_l, literal_le_r. Qed.

(** *** A chain of ranges *)

Abbreviation sql_sorted := (StronglySorted (λ a b : Key, sql_le a b = true)).

Lemma range_segments_eq idx a b rest :
  range_segments idx (a :: b :: rest) =
    if bool_decide (a = b) && negb (bool_decide (rest = [])) then range_segments (S idx) (b :: rest)
    else range_segment idx a b (bool_decide (rest = [])) :: range_segments (S idx) (b :: rest).
Proof. done. Qed.

Lemma range_segments_below idx a bs k :
  sql_sorted (a :: bs) → sql_le a k = false → hits (predicates (range_segments idx (a :: bs))) (Some k) = 0%nat.
Proof using laws lits.
  revert idx a; induction bs as [|b rest IH]; intros idx a Hs Hk; [done|].
  inversion Hs as [|? ? Hs' Hall]; subst. inversion Hall as [|? ? Hab]; subst.
  assert (sql_le b k = false) as Hb.
  { apply not_true_is_false. intros Hb. by rewrite (sql_le_trans a b k) in Hk. }
  rewrite range_segments_eq. destruct (_ && negb _); [by apply IH|]. rewrite predicates_cons, hits_cons, IH by done.
  unfold range_segment. cbn [rs_predicate]. destruct (_ && _); [rewrite sat_eq, Hk, andb_false_r|rewrite sat_range, Hk]; done.
Qed.

(** Sorted boundaries cut the interval between the first and the last one into segments of which
    exactly one holds each key. *)
Lemma range_segments_partition idx a b bs k m :
  sql_sorted (a :: b :: bs) → last (a :: b :: bs) = Some m → sql_le a k = true → sql_le k m = true →
  hits (predicates (range_segments idx (a :: b :: bs))) (Some k) = 1%nat.
Proof using laws lits.
  revert idx a b; induction bs as [|c bs IH]; intros idx a b Hs Hm Hak Hkm.
  - simpl in Hm. injection Hm as ->. rewrite range_segments_eq, (bool_decide_eq_true_2 (@nil Key = [])) by done.
    rewrite andb_false_r. rewrite predicates_cons, hits_cons. unfold range_segment.
    cbn [rs_predicate]. rewrite andb_true_r. case_bool_decide as E; [subst; rewrite sat_eq|rewrite sat_range]; by rewrite Hak, Hkm.
  - inversion Hs as [|? ? Hs' Hall]; subst.
    assert (last (b :: c :: bs) = Some m) as Hm' by done.
    rewrite range_segments_eq, (bool_decide_eq_false_2 (c :: bs = [])) by done. cbn [negb]. rewrite andb_true_r.
    case_bool_decide as E; [subst; by apply IH|].
    rewrite predicates_cons, hits_cons. unfold range_segment at 1. cbn [rs_predicate]. rewrite andb_false_r, sat_range, Hak. cbn [andb].
    unfold sql_lt. destruct (sql_le b k) eqn:Hbk; cbn [negb].
    + by rewrite (IH (S idx) b c).
    + by rewrite (range_segments_below (S idx) b (c :: bs)).
Qed.

(** *** The boundaries the database reports *)

Lemma dedup_snoc l v :
  dedup_boundaries (l ++ [v]) =
    if bool_decide (last (dedup_boundaries l) = Some v) then dedup_boundaries l else dedup_boundaries l ++ [v].
Proof. unfold dedup_boundaries. by rewrite foldl_snoc. Qed.

Lemma dedup_sublist l : dedup_boundaries l `sublist_of` l.
Proof.
  induction l as [|v l IH] using rev_ind; [done|]. rewrite dedup_snoc. case_bool_decide.
  - by apply sublist_inserts_r.
  - by apply sublist_app.
Qed.

Lemma dedup_last l : last (dedup_boundaries l) = last l.
Proof.
  induction l as [|v l IH] using rev_ind; [done|]. rewrite dedup_snoc, last_snoc.
  case_bool_decide; [done|by rewrite last_snoc].
Qed.

Lemma dedup_head l : head (dedup_boundaries l) = head l.
Proof.
  induction l as [|v l IH] using rev_ind; [done|]. rewrite dedup_snoc. destruct l as [|w l]; [done|].
  rewrite <-app_comm_cons. cbn [head] in *. case_bool_decide; [done|].
  destruct (dedup_boundaries (w :: l)); [done|]. by cbn in *.
Qed.

Lemma sublist_sorted (R : relation Key) l l' : l `sublist_of` l' → StronglySorted R l' → StronglySorted R l.
Proof.
  induction 1 as [|x l1 l2 Hs IH|x l1 l2 Hs IH]; intros Hl; [done| |].
  - inversion Hl; subst. constructor; [by apply IH|]. eapply Forall_forall. intros y Hy.
    eapply Forall_forall; [done|]. by eapply elem_of_sublist.
  - inversion Hl; subst. by apply IH.
Qed.

Lemma length_omap_all {A B} (f : A → option B) l : (∀ x, x ∈ l → is_Some (f x)) → length (omap f l) = length l.
Proof.
  induction l as [|x l IH]; intros Hl; [done|]. simpl. destruct (Hl x) as [y ->]; [left|]. simpl. f_equal.
  apply IH. intros z Hz. apply Hl. by right.
Qed.

Lemma non_null_keys rel r : r ∈ non_null rel → is_Some (row_key r).
Proof. unfold non_null. by intros [? _]%list_elem_of_filter. Qed.

Lemma ordered_keys_sorted rel : sql_sorted (ordered_keys rel).
Proof using elaws. apply order_by_key_sorted, non_null_keys. Qed.

Lemma ordered_keys_length rel : length (ordered_keys rel) = length (non_null rel).
Proof using elaws.
  unfold ordered_keys. rewrite length_omap_all; [by rewrite order_by_key_perm|].
  intros r Hr. rewrite order_by_key_perm in Hr. by eapply non_null_keys.
Qed.

Lemma elem_of_ordered_keys rel k : k ∈ ordered_keys rel ↔ ∃ r, r ∈ rel ∧ row_key r = Some k.
Proof using elaws.
  unfold ordered_keys, non_null. rewrite list_elem_of_omap. setoid_rewrite order_by_key_perm.
  setoid_rewrite list_elem_of_filter. split; intros (r & H1 & H2); exists r; [naive_solver|].
  split; [split; [by rewrite H2|done]|done].
Qed.

Lemma sorted_lookup (l : list Key) i j a b :
  sql_sorted l → (i ≤ j)%nat → l !! i = Some a → l !! j = Some b → sql_le a b = true.
Proof using laws lits.
  intros Hs. revert i j; induction Hs as [|x l Hs IH Hall]; intros [|i] [|j] Hij Ha Hb; simplify_eq/=; try lia.
  - apply sql_le_refl.
  - rewrite Forall_forall in Hall. apply Hall. by eapply list_elem_of_lookup_2.
  - apply (IH i j); [lia|done..].
Qed.

(** Values found at increasing positions of a sorted list are sorted. *)
Lemma sorted_positions l (idxs : list nat) vs :
  sql_sorted l → Forall2 (λ i v, l !! i = Some v) idxs vs → StronglySorted le idxs → sql_sorted vs.
Proof using laws lits.
  intros Hl. induction 1 as [|i v idxs vs Hi Hrest IH]; intros Hs; [constructor|].
  inversion Hs as [|? ? Hs' Hall]; subst. constructor; [by apply IH|]. apply Forall_forall. intros w Hw.
  apply list_elem_of_lookup in Hw as [j Hj]. destruct (Forall2_lookup_r _ _ _ _ _ Hrest Hj) as (i' & Hi' & Hw).
  rewrite Forall_forall in Hall. apply (sorted_lookup l i i'); [done| |done..]. apply Hall. by eapply list_elem_of_lookup_2.
Qed.

Lemma query_boundaries_spec rel offsets vs :
  query_boundaries rel offsets = Ok vs ↔ Forall2 (λ o v, ordered_keys rel !! Z.to_nat o = Some v) offsets vs.
Proof.
  revert vs; induction offsets as [|o offsets IH]; intros vs; simpl; [split; [intros [= <-]; constructor|by inversion 1]|].
  unfold boundary_value. destruct (ordered_keys rel !! Z.to_nat o) as [v|] eqn:Ho; [|split; [done|inversion 1; congruence]].
  destruct (query_boundaries rel offsets) as [vs'|e] eqn:Hq; simpl.
  - split; [intros [= <-]; constructor; [done|by apply IH]|]. inversion 1 as [|? w ? ws ? Hws]; subst.
    apply IH in Hws. congruence.
  - split; [done|]. inversion 1 as [|? w ? ws ? Hws]; subst. apply IH in Hws. congruence.
Qed.

Lemma ceil_div_spec n p : 0 < p → ∀ i, i < ceil_quotient n p ↔ i * p < n.
Proof.
  intros Hp i. unfold ceil_quotient.
  pose proof (Z.div_mod (- n) p ltac:(lia)). pose proof (Z.mod_pos_bound (- n) p Hp). nia.
Qed.

Lemma elem_of_page_offsets n p o : 0 < p → o ∈ page_offsets n p → 0 ≤ o < n.
Proof.
  intros Hp (i & -> & Hi)%list_elem_of_fmap. apply elem_of_seq in Hi.
  assert (Z.of_nat i < ceil_quotient n p) as Hlt by lia. apply (ceil_div_spec n p Hp) in Hlt. nia.
Qed.

Lemma page_offsets_sorted n p : 0 < p → StronglySorted le (Z.to_nat <$> page_offsets n p).
Proof.
  intros Hp. unfold page_offsets. generalize (Z.to_nat (ceil_quotient n p)) as m. intros m. generalize 0%nat as a. 
  induction m as [|m IH]; intros a; simpl; [constructor|]. constructor; [apply IH|]. apply Forall_forall.
  intros x (y & -> & (i & -> & Hi)%list_elem_of_fmap)%list_elem_of_fmap. apply elem_of_seq in Hi. nia.
Qed.

Lemma range_segments_length idx a bs : (length (range_segments idx (a :: bs)) ≤ length bs)%nat.
Proof.
  revert idx a; induction bs as [|b bs IH]; intros idx a; [done|]. rewrite range_segments_eq.
  destruct (_ && _); cbn [length]; specialize (IH (S idx) b); lia.
Qed.

Lemma dedup_twice v l : dedup_boundaries (v :: v :: l) = dedup_boundaries (v :: l).
Proof. unfold dedup_boundaries. cbn [foldl]. simpl. by rewrite bool_decide_eq_true_2. Qed.

(** What the boundaries are: sorted, from the smallest to the largest key, and no more than one per
    page and one at the end. *)
Lemma boundaries_spec rel page_size kmin kmax :
  0 < page_size → head (ordered_keys rel) = Some kmin → last (ordered_keys rel) = Some kmax →
  ∃ raw, query_boundaries rel (page_offsets (Z.of_nat (length (non_null rel))) page_size) = Ok raw ∧
    let bs := dedup_boundaries (kmin :: raw ++ [kmax]) in
    sql_sorted bs ∧ head bs = Some kmin ∧ last bs = Some kmax ∧
    (Z.of_nat (length bs) ≤ ceil_quotient (Z.of_nat (length (non_null rel))) page_size + 1).
Proof using laws lits elaws.
  intros Hp Hmin Hmax. set (n := Z.of_nat (length (non_null rel))). set (offs := page_offsets n page_size).
  assert (length (ordered_keys rel) = Z.to_nat n) as Hlen by (rewrite ordered_keys_length; lia).
  assert (∀ o, o ∈ offs → is_Some (ordered_keys rel !! Z.to_nat o)) as Hfound.
  { intros o Ho. apply lookup_lt_is_Some. apply (elem_of_page_offsets n page_size) in Ho; [lia|done]. }
  assert (∃ raw, Forall2 (λ o v, ordered_keys rel !! Z.to_nat o = Some v) offs raw) as [raw Hraw].
  { revert Hfound. clear. induction offs as [|o offs IH]; intros Hf; [by exists []|].
    destruct IH as [raw Hr]; [intros; apply Hf; by right|]. destruct (Hf o) as [v Hv]; [left|]. exists (v :: raw). by constructor. }
  exists raw. split; [by apply query_boundaries_spec|]. cbv zeta.
  assert (0 < n) as Hn. { destruct (ordered_keys rel) eqn:E; [done|]. simpl in Hlen. lia. }
  assert (∃ offs', offs = 0 :: offs') as [offs' Eo].
  { assert (0 < ceil_quotient n page_size) as Hc by (apply ceil_div_spec; lia).
    unfold offs, page_offsets. destruct (Z.to_nat (ceil_quotient n page_size)) eqn:E; [lia|]. simpl. eauto. }
  assert (∃ raw', raw = kmin :: raw') as [raw' ->].
  { rewrite Eo in Hraw. inversion Hraw as [|? v ? raw' Hv]; subst. simpl in Hv.
    rewrite <-head_lookup, Hmin in Hv. injection Hv as ->. eauto. }
  split_and!.
  - eapply sublist_sorted; [apply dedup_sublist|].
    apply (sorted_positions (ordered_keys rel) (0%nat :: (Z.to_nat <$> offs) ++ [pred (length (ordered_keys rel))]));
      [apply ordered_keys_sorted| |].
    + constructor; [by rewrite <-head_lookup|]. apply Forall2_app; [by apply Forall2_fmap_l|].
      constructor; [by rewrite <-last_lookup|constructor].
    + constructor; [|apply Forall_forall; intros; lia].
      assert (∀ x, x ∈ Z.to_nat <$> offs → (x ≤ pred (length (ordered_keys rel)))%nat) as Hall.
      { intros x (o & -> & Ho)%list_elem_of_fmap. apply (elem_of_page_offsets n page_size) in Ho; lia. }
      pose proof (page_offsets_sorted n page_size Hp) as Hso. fold offs in Hso. revert Hso Hall. clear.
      generalize (Z.to_nat <$> offs) as l. induction 1 as [|x l Hl IH Hx]; intros Hall; simpl; [repeat constructor|].
      constructor; [apply IH; intros; apply Hall; by right|]. apply Forall_app. split; [done|].
      constructor; [|constructor]. apply Hall. left.
  - rewrite dedup_head. done.
  - rewrite dedup_last. by rewrite app_comm_cons, last_snoc.
  - rewrite <-app_comm_cons, dedup_twice.
    pose proof (sublist_length _ _ (dedup_sublist (kmin :: raw' ++ [kmax]))) as Hl.
    apply Forall2_length in Hraw. unfold offs, page_offsets in Hraw. rewrite length_fmap, length_seq in Hraw.
    cbn [length] in *. rewrite length_app in Hl. cbn [length] in Hl.
    assert (0 < ceil_quotient n page_size) as Hc by (apply ceil_div_spec; lia). lia.
Qed.

Lemma sorted_extremes l a b k :
  sql_sorted l → head l = Some a → last l = Some b → k ∈ l → sql_le a k = true ∧ sql_le k b = true.
Proof using laws lits.
  intros Hs Ha Hb [i Hi]%list_elem_of_lookup. rewrite head_lookup in Ha. rewrite last_lookup in Hb.
  pose proof (lookup_lt_Some _ _ _ Hi). split; [eapply (sorted_lookup l 0 i)|eapply (sorted_lookup l i (pred (length l)))];
    try done; lia.
Qed.

Lemma ceil_div_pages n parts : 0 < n → 0 < parts → ceil_quotient n (Z.max 1 (ceil_quotient n parts)) ≤ parts.
Proof.
  intros Hn Hp. assert (0 < ceil_quotient n parts) as Hc by (apply ceil_div_spec; lia). rewrite Z.max_r by lia.
  apply Z.nlt_ge. intros Hlt. apply ceil_div_spec in Hlt; [|done].
  assert (¬ ceil_quotient n parts < ceil_quotient n parts) as H1 by lia. rewrite (ceil_div_spec n parts Hp) in H1. lia.
Qed.

(** Range segments can be built for every non-empty relation without NULL keys, there are at most as
    many as asked for, and each row is in exactly one of them, whatever collation the database uses. *)
Lemma range_segments_exact rel npartitions :
  rel ≠ [] → (∀ r, r ∈ rel → is_Some (row_key r)) → 0 < npartitions →
  ∃ segments, build_range_segments rel npartitions = Ok (segments, segment_divisions segments) ∧
    segments ≠ [] ∧ Z.of_nat (length segments) ≤ npartitions ∧ partitions segments rel.
Proof using laws lits elaws.
  intros Hne Hnn Hnp. assert (non_null rel = rel) as Enn.
  { unfold non_null. clear -Hnn. induction rel as [|r l IH]; [done|]. rewrite filter_cons_True by (apply Hnn; left).
    f_equal. apply IH. intros x Hx. apply Hnn. by right. }
  assert (0 < length rel)%nat as Hpos by (destruct rel; [done|simpl; lia]).
  assert (∃ kmin, head (ordered_keys rel) = Some kmin) as [kmin Hmin].
  { pose proof (ordered_keys_length rel) as Hl. rewrite Enn in Hl. destruct (ordered_keys rel); [simpl in Hl; lia|by eexists]. }
  assert (∃ kmax, last (ordered_keys rel) = Some kmax) as [kmax Hmax].
  { destruct (ordered_keys rel); [done|]. apply last_is_Some. done. }
  unfold build_range_segments. cbn [st_total st_non_null st_min st_max query_row_stats]. rewrite Enn, Hmin, Hmax.
  destruct (Z.eqb_spec (Z.of_nat (length rel)) 0) as [|_]; [lia|].
  set (parts := Z.min (Z.max 1 npartitions) (Z.of_nat (length rel))).
  set (ps := Z.max 1 (ceil_quotient (Z.of_nat (length rel)) parts)).
  destruct (boundaries_spec rel ps kmin kmax) as (raw & Hq & Hs & Hh & Hl & Hlen); [unfold ps; lia|done..|].
  rewrite Enn in Hq, Hlen. rewrite Hq. cbn [mbind outcome_bind].
  change (option_list (Some kmin) ++ raw ++ option_list (Some kmax)) with (kmin :: raw ++ [kmax]).
  set (bs := dedup_boundaries (kmin :: raw ++ [kmax])) in *.
  assert (ceil_quotient (Z.of_nat (length rel)) ps ≤ parts) as Hceil by (apply ceil_div_pages; unfold parts; lia).
  set (bs' := match bs with [b] => [b; b] | _ => bs end).
  assert (∃ b rest, bs' = kmin :: b :: rest ∧ sql_sorted (kmin :: b :: rest) ∧ last (kmin :: b :: rest) = Some kmax ∧
            Z.of_nat (length rest) + 1 ≤ npartitions) as (b & rest & Eb & Hs' & Hl' & Hlen').
  { unfold bs'. destruct bs as [|x [|b rest]]; [done| |].
    - cbn in Hh, Hl. injection Hh as ->. exists kmin, []. split_and!; [done| |done|simpl; lia].
      constructor; [done|]. constructor; [apply sql_le_refl|constructor].
    - cbn in Hh. injection Hh as ->. exists b, rest. split_and!; [done..|]. cbn [length] in Hlen. unfold parts in *. lia. }
  fold bs'. rewrite Eb. cbn [length Nat.ltb Nat.leb].
  assert (partitions (range_segments 0 (kmin :: b :: rest)) rel) as Hpart.
  { intros r Hr. destruct (Hnn r Hr) as [k Hk]. rewrite Hk.
    assert (k ∈ ordered_keys rel) as Hin by (apply elem_of_ordered_keys; eauto).
    destruct (sorted_extremes _ _ _ _ (ordered_keys_sorted rel) Hmin Hmax Hin). by eapply range_segments_partition. }
  pose proof (range_segments_length 0 kmin (b :: rest)) as Hrl. cbn [length] in Hrl.
  destruct (range_segments 0 (kmin :: b :: rest)) as [|s segs] eqn:Es.
  - exfalso. destruct rel as [|r rel']; [done|]. specialize (Hpart r ltac:(left)). done.
  - exists (s :: segs). split_and!; [done|done| |done]. cbn [length] in *. lia.
Qed.

(** ** Exactly one bucket per row *)

Lemma bucket_hits m k a n :
  hits ((λ b, PBucket m [Z.of_nat b]) <$> seq a n) k =
    if bool_decide (Z.of_nat a ≤ hash_bucket k m < Z.of_nat (a + n)) then 1%nat else 0%nat.
Proof.
  revert a; induction n as [|n IH]; intros a.
  - rewrite bool_decide_eq_false_2 by lia. done.
  - cbn [seq]. rewrite fmap_cons, hits_cons, IH. cbn [sat existsb]. rewrite orb_false_r.
    destruct (Z.eqb_spec (hash_bucket k m) (Z.of_nat a)) as [E|E]; repeat case_bool_decide; lia.
Qed.

Lemma hash_bucket_bounds (k : option Key) m : 0 < m → 0 ≤ hash_bucket k m < m.
Proof. apply Z.mod_pos_bound. Qed.

(** Hash buckets hold every row, NULL keys included, exactly once, when the hash was rendered with as
    many buckets as there are segments. *)
Lemma hash_segments_exact modulus total_rows rel :
  0 < modulus → total_rows ≤ 0 ∨ modulus ≤ total_rows →
  partitions (build_hash_segments modulus modulus total_rows).1 rel ∧
  length (build_hash_segments modulus modulus total_rows).1 = Z.to_nat modulus ∧
  (build_hash_segments modulus modulus total_rows).2 = IxInt <$> (Z.of_nat <$> seq 0 (Z.to_nat modulus + 1)).
Proof.
  intros Hm Ht. unfold build_hash_segments. rewrite Z.max_r by lia.
  assert ((0 <? total_rows) && (total_rows <? modulus) = false) as ->.
  { apply andb_false_iff. destruct (Z.ltb_spec 0 total_rows); [right|by left]. apply Z.ltb_ge. lia. }
  cbn [fst snd]. split_and!; [|by rewrite !length_fmap, length_seq|done].
  intros r _. unfold predicates. rewrite <-!list_fmap_compose. unfold compose. cbn [rs_predicate hash_segment].
  rewrite bucket_hits. pose proof (hash_bucket_bounds (row_key r) modulus Hm). by rewrite bool_decide_eq_true_2 by lia.
Qed.

End Plan.
