(* ===== verification/ReadGrouping.v ===== *)
(** * Database readers: custom groupings

    Models [core/db/read_v3/grouping] ([builder.py], [models.py], [utils.py], [spec.py]) and
    [core/db/read_v3/partitioning/grouping.py]: the segments of the modes [as_is], [prefix],
    [explicit_values], [hash], [ranges], [step], [quantiles], [percentiles] and [granularity], and the
    predicates rendered for them. The queries of [V3GroupingHelper] are evaluated on the relation;
    arithmetic on keys, calendar arithmetic and the quantiles the database computes are the
    parameter [GroupingEnv]. The dialect supports the expressions a mode needs ([hash_expr],
    [string_prefix_expr]). *)
From S2P Require Import Prelude PipelineTypes NodeKwargs ReadLiteral ReadTypes ReadPlan.
Open Scope Z_scope.

(** ** Settings *)

(** A value of [partition_grouping]. *)
Inductive param (Key : Type) :=
  | PaNone
  | PaBool (b : bool)
  | PaInt (n : Z)
  | PaStr (s : string)
  | PaScalar (k : Key)
  | PaSeq (items : list (param Key))
  | PaMap (items : list (string * param Key)).
Arguments PaNone {Key}.
Arguments PaBool {Key} b.
Arguments PaInt {Key} n.
Arguments PaStr {Key} s.
Arguments PaScalar {Key} k.
Arguments PaSeq {Key} items.
Arguments PaMap {Key} items.

Record GroupingSpec (Key : Type) := mkSpec {
  gs_mode : string;
  gs_params : pydict (param Key);
}.
Arguments mkSpec {Key} _ _.
Arguments gs_mode {Key} _.
Arguments gs_params {Key} _.

Class GroupingEnv (Key Row : Type) := {
  key_of_param : param Key → Key;                  (* a setting used as a key *)
  key_of_bool : bool → Key;
  key_truthy : Key → bool;                         (* bool(value) *)
  is_number : param Key → bool;
  Step : Type;                                     (* a number, or a timedelta for dates *)
  step_of_param : param Key → Step;
  is_positive : Step → bool;                       (* step > 0 *)
  in_unit_interval : param Key → bool;             (* 0 < p < 1 *)
  add_step : Key → Step → option Key;              (* cursor + step; None past the last date *)
  steps_between : Key → Key → Step → Z;            (* math.ceil((max - start) / step) *)
  even_step : Key → Key → Z → Step;                (* (max - start) / bins *)
  unit_step : Step;
  quantile_values : list Row → list (param Key) → list (option Key);
  percentile : Z → Z → param Key;                  (* idx / float(k) *)
  floor_to_granularity : Key → string → Key;
  advance_granularity : Key → string → option Key; (* None past the last date *)
  granularity_steps : Key → Key → string → nat;    (* enough steps from one key to the other *)
}.

(** What the groupings rely on: a positive step does not move a cursor back, dates are rounded down
    and advanced forward until they pass any other date. *)
Class GroupingLaws (Key Row : Type) `{SqlKey Key} `{GroupingEnv Key Row} := {
  add_step_le step c c' : is_positive step = true → add_step c step = Some c' → sql_le c c' = true;
  even_step_le a b n c c' : sql_le a b = true → add_step c (even_step a b n) = Some c' → sql_le c c' = true;
  unit_step_positive : is_positive unit_step = true;
  floor_le k g : sql_le (floor_to_granularity k g) k = true;
  advance_le k g k' : advance_granularity k g = Some k' → sql_le k k' = true;
  granularity_ends c m g :
    ∃ i, (i ≤ granularity_steps c m g)%nat ∧
      match Nat.iter i (λ o, o ≫= λ k, advance_granularity k g) (Some c) with
      | Some k => py_le m k = true
      | None => True
      end;
}.

(** [GroupingSpecError] *)
Abbreviation GroupingSpecError msg := (Raise (ReadV3ConfigError msg)).

Section Grouping.
Context {Key Row Out : Type} {sk : SqlKey Key} {env : ReadEnv Key Row Out} {genv : GroupingEnv Key Row}.

Definition pget (params : pydict (param Key)) (name : string) : param Key := dget_default params name PaNone.

Definition param_truthy (p : param Key) : bool :=
  match p with
  | PaNone => false
  | PaBool b => b
  | PaInt n => negb (n =? 0)
  | PaStr s => str_truthy s
  | PaScalar k => key_truthy k
  | PaSeq l => negb (bool_decide (length l = 0%nat))
  | PaMap l => negb (bool_decide (length l = 0%nat))
  end.

(** [isinstance(value, int)]; booleans are integers. *)
Definition as_int (p : param Key) : option Z :=
  match p with PaInt n => Some n | PaBool b => Some (Z.b2z b) | _ => None end.

(** ** Segments *)

Record PartitionSegment := mkPart {
  ps_label : string;
  ps_include_values : option (list Key);
  ps_exclude_values : option (list Key);
  ps_range_start : option Key;
  ps_range_end : option Key;
  ps_is_null : bool;
  ps_count : option Z;
  ps_include_end : bool;
  ps_hash_mod : option Z;
  ps_buckets : option (list Z);
  ps_value_expr : option key_expr;
}.

Definition include_part (label : string) (values : list Key) (count : Z) (e : option key_expr) : PartitionSegment :=
  mkPart label (Some values) None None None false (Some count) false None None e.

Definition exclude_part (label : string) (values : list Key) (count : Z) (e : option key_expr) : PartitionSegment :=
  mkPart label None (Some values) None None false (Some count) false None None e.

Definition null_part (count : Z) : PartitionSegment :=
  mkPart "__null__" None None None None true (Some count) false None None None.

Definition all_part (count : option Z) : PartitionSegment :=
  mkPart "__all__" None None None None false count false None None None.

Definition range_label (start stop : option Key) (include_end : bool) : string :=
  let str o := match o with Some k => key_str k | None => "None" end in
  "[" +:+ str start +:+ "," +:+ str stop +:+ (if include_end then "]" else ")").

Definition range_part (start stop : option Key) (include_end : bool) (count : Z) : PartitionSegment :=
  mkPart (range_label start stop include_end) None None start stop false (Some count) include_end None None None.

Definition hash_part (idx : nat) (buckets : Z) (group : list Z) (count : Z) : PartitionSegment :=
  mkPart ("hash_" +:+ pretty (Z.of_nat idx)) None None None None false (Some count) false (Some buckets) (Some group) None.

(** ** [PartitionSegment.merge_with] and [pack_segments] *)

Definition extend_values (a b : option (list Key)) : option (list Key) :=
  match a, b with
  | None, None => None
  | _, _ => Some (default [] a ++ default [] b)
  end.

Definition or_count (a b : option Z) : Z := default 0 a + default 0 b.

Definition merge_with (self other : PartitionSegment) : outcome ReadV3Error PartitionSegment :=
  let merged := mkPart (ps_label self +:+ "+" +:+ ps_label other)
    (extend_values (ps_include_values self) (ps_include_values other))
    (extend_values (ps_exclude_values self) (ps_exclude_values other))
    (ps_range_start self) (ps_range_end other) (ps_is_null self || ps_is_null other)
    (Some (or_count (ps_count self) (ps_count other))) (ps_include_end self || ps_include_end other) None None
    (match ps_value_expr self with Some e => Some e | None => ps_value_expr other end) in
  match ps_value_expr self, ps_value_expr other with
  | Some a, Some b =>
      if bool_decide (a = b) then Ok merged
      else Raise (ReadTypeError "Cannot merge segments with different value expressions")
  | _, _ => Ok merged
  end.

(** [list.sort(key=...)]: stable insertion. *)
Fixpoint insert_by {A} (f : A → Z) (x : A) (l : list A) : list A :=
  match l with
  | [] => [x]
  | y :: l' => if f x <=? f y then x :: l else y :: insert_by f x l'
  end.

Definition sort_by {A} (f : A → Z) (l : list A) : list A := foldr (insert_by f) [] l.

Definition part_weight (s : PartitionSegment) : Z := default 0 (ps_count s).

Definition preserved (s : PartitionSegment) : bool :=
  ps_is_null s || match ps_exclude_values s with Some _ => true | None => false end.

(** The [while] loop: the two lightest segments are merged until [goal] are left. *)
Fixpoint pack_loop (fuel : nat) (goal : Z) (pool : list PartitionSegment) : outcome ReadV3Error (list PartitionSegment) :=
  if goal <? Z.of_nat (length pool) then
    match fuel, pool with
    | S fuel, first :: second :: rest =>
        merged ← merge_with first second;
        pack_loop fuel goal (sort_by part_weight (rest ++ [merged]))
    | _, _ => Ok pool
    end
  else Ok pool.

Definition pack_segments (segments : list PartitionSegment) (bins : Z) : outcome ReadV3Error (list PartitionSegment) :=
  if Z.of_nat (length segments) <=? bins then Ok segments
  else
    let kept := filter (λ s, preserved s = true) segments in
    let pool := filter (λ s, preserved s = false) segments in
    pool ← pack_loop (length pool) (Z.max 1 (bins - Z.of_nat (length kept))) (sort_by part_weight pool);
    Ok (pool ++ kept).

(** ** [V3GroupingHelper] *)

Definition null_count_expr (rel : list Row) (e : key_expr) : Z := count_predicate rel (PIsNull e).

Definition min_max_expr (rel : list Row) : option Key * option Key :=
  (head (ordered_keys rel), last (ordered_keys rel)).

Definition count_range_expr (rel : list Row) (start stop : option Key) (include_end : bool) : Z :=
  match start, stop with
  | Some a, Some b => count_predicate rel (PRange EKey a b include_end)
  | _, _ => 0                                     (* a comparison with NULL is never true *)
  end.

(** [GROUP BY v]: one representative per value the database holds equal, with its count. *)
Fixpoint add_group (v : Key) (groups : list (Key * Z)) : list (Key * Z) :=
  match groups with
  | [] => [(v, 1)]
  | (w, n) :: groups' => if sql_eq v w then (w, n + 1) :: groups' else (w, n) :: add_group v groups'
  end.

Definition group_counts (values : list Key) : list (Key * Z) := foldl (λ gs v, add_group v gs) [] values.

Definition value_counts_expr (rel : list Row) (e : key_expr) (max_groups : option Z) : list (option Key * Z) :=
  let groups := sort_by (λ g, - g.2) (group_counts (omap (λ r, eval_expr e (row_key r)) rel)) in
  let shown := match max_groups with
               | Some n => if n =? 0 then groups else take (Z.to_nat n) groups
               | None => groups
               end in
  let null_count := null_count_expr rel e in
  ((λ g, (Some g.1, g.2)) <$> shown) ++ (if null_count =? 0 then [] else [(None, null_count)]).

(** ** [build_custom_segments] *)

Definition _resolve_bins (npartitions total_rows : Z) : Z :=
  if 0 <? npartitions then npartitions
  else if 0 <? total_rows then Z.max 1 (Z.min 64 (ceil_quotient total_rows 100000)) else 1.

(** [params.get("max_groups")], or four groups per bin. A value that is no integer makes the query fail. *)
Definition max_groups_param (params : pydict (param Key)) (bins : Z) : outcome ReadV3Error (option Z) :=
  match pget params "max_groups" with
  | PaNone => Ok (if bins =? 0 then None else Some (Z.max (bins * 4) bins))
  | PaInt n => Ok (Some n)
  | _ => Raise (ReadTypeError "max_groups")
  end.

Definition value_part (e : option key_expr) (c : option Key * Z) : PartitionSegment :=
  match c.1 with
  | None => null_part c.2
  | Some v => include_part (key_str v) [v] c.2 e
  end.

Definition not_in (e : key_expr) (values : list Key) : sql_predicate Key :=
  match values with [] => PIsNotNull e | _ => PNotIn e values end.

(** The branches [as_is] and [prefix]: one segment per value of [e], one for NULL, one for the rest. *)
Definition group_by_values (rel : list Row) (e : key_expr) (value_expr : option key_expr)
    (params : pydict (param Key)) (total_rows bins : Z) : outcome ReadV3Error (list PartitionSegment) :=
  max_groups ← max_groups_param params bins;
  let counts := value_counts_expr rel e max_groups in
  let segments := value_part value_expr <$> counts in
  let collected := omap fst counts in
  let total_seen := foldr Z.add 0 counts.*2 in
  let segments :=
    if param_truthy (dget_default params "other" (PaBool true)) then
      let other_count := if total_seen <? total_rows then total_rows - total_seen
                         else count_predicate rel (not_in e collected) in
      if other_count =? 0 then segments
      else segments ++ [exclude_part "__other__" collected other_count value_expr]
    else segments in
  pack_segments segments bins.

(** [as_is] values and [None]s of a list of settings, each value once. *)
Definition unique_values (values : list (param Key)) : list Key * bool :=
  foldl (λ acc v,
    match v with
    | PaNone => (acc.1, true)
    | _ => let k := key_of_param v in if bool_decide (k ∈ acc.1) then acc else (acc.1 ++ [k], acc.2)
    end) ([], false) values.

Definition null_parts (rel : list Row) : list PartitionSegment :=
  let null_count := null_count_expr rel EKey in if null_count =? 0 then [] else [null_part null_count].

Definition explicit_value_parts (rel : list Row) (params : pydict (param Key))
    : outcome ReadV3Error (list PartitionSegment) :=
  match pget params "values" with
  | PaSeq values =>
      let '(unique, includes_null) := unique_values values in
      let segments := (λ v, include_part (key_str v) [v] (count_predicate rel (PEq EKey v)) None) <$> unique in
      let segments := segments ++ (if includes_null then null_parts rel else []) in
      Ok (if param_truthy (dget_default params "other" (PaBool true)) then
            let count := count_predicate rel (not_in EKey unique) in
            if count =? 0 then segments else segments ++ [exclude_part "__other__" unique count None]
          else segments)
  | _ => GroupingSpecError "explicit_values mode requires values list"
  end.

(** [bucket_ids[idx : idx + group_size] for idx in range(0, buckets, group_size)] *)
Fixpoint chunks (fuel : nat) (size : nat) (l : list Z) : list (list Z) :=
  match fuel, l with
  | S fuel, _ :: _ => take size l :: chunks fuel size (drop size l)
  | _, _ => []
  end.

Definition hash_parts (rel : list Row) (params : pydict (param Key)) (total_rows bins : Z)
    : outcome ReadV3Error (list PartitionSegment) :=
  let raw := if param_truthy (pget params "buckets") then pget params "buckets"
             else if param_truthy (pget params "mod") then pget params "mod" else PaInt bins in
  match as_int raw with
  | Some buckets =>
      if buckets <=? 0 then GroupingSpecError "hash mode requires positive integer buckets"
      else
        let buckets := if (0 <? total_rows) && (total_rows <? buckets) then total_rows else buckets in
        let target_bins := Z.min (if bins =? 0 then buckets else bins) buckets in
        let group_size := Z.max 1 (ceil_quotient buckets target_bins) in
        let groups := chunks (Z.to_nat buckets) (Z.to_nat group_size) (Z.of_nat <$> seq 0 (Z.to_nat buckets)) in
        Ok (imap (λ idx group, hash_part idx buckets group (count_predicate rel (PBucket buckets group))) groups
            ++ null_parts rel)
  | None => GroupingSpecError "hash mode requires positive integer buckets"
  end.

(** [_normalize_ranges] *)
Definition range_bound (p : param Key) : option Key := match p with PaNone => None | _ => Some (key_of_param p) end.

Definition normalize_range (item : param Key) : outcome ReadV3Error (option Key * option Key * bool) :=
  match item with
  | PaMap m =>
      match dget m "start", dget m "end" with
      | Some a, Some b => Ok (range_bound a, range_bound b, param_truthy (pget m "include_end"))
      | _, _ => GroupingSpecError "range item must include start and end"
      end
  | PaSeq (a :: b :: rest) =>
      Ok (range_bound a, range_bound b, match rest with c :: _ => param_truthy c | [] => false end)
  | PaSeq _ => GroupingSpecError "range item must have at least 2 elements"
  | _ => GroupingSpecError "range item must be a dict or list"
  end.

Definition range_parts (rel : list Row) (params : pydict (param Key)) : outcome ReadV3Error (list PartitionSegment) :=
  match pget params "ranges" with
  | PaSeq items =>
      ranges ← foldM (λ acc item, r ← normalize_range item; Ok (acc ++ [r])) [] items;
      Ok (((λ '(a, b, incl), range_part a b incl (count_range_expr rel a b incl)) <$> ranges) ++ null_parts rel)
  | _ => GroupingSpecError "ranges mode requires ranges list"
  end.

(** A range from [a] to [b], counted. *)
Definition counted_range (rel : list Row) (a b : Key) (include_end : bool) : PartitionSegment :=
  range_part (Some a) (Some b) include_end (count_range_expr rel (Some a) (Some b) include_end).

(** What [step], [quantiles] and [granularity] return without any key. *)
Definition keyless_parts (rel : list Row) (total_rows : Z) : list PartitionSegment :=
  all_part (Some total_rows) :: null_parts rel.

(** The loop of [step]: [n] ranges of length [step], the last one up to the largest key. *)
Fixpoint step_ranges (rel : list Row) (n : nat) (cursor : Key) (step : Step) (max_value : Key)
    : outcome ReadV3Error (list PartitionSegment) :=
  match n with
  | O => Ok []
  | S O => Ok [counted_range rel cursor max_value true]
  | S n =>
      match add_step cursor step with
      | None => Raise (ReadTypeError "date value out of range")
      | Some stop =>
          ranges ← step_ranges rel n stop step max_value;
          Ok (counted_range rel cursor stop false :: ranges)
      end
  end.

(** The [start] setting must be a date for dates and a number for numbers. *)
Definition start_fits (temporal : bool) (p : param Key) : bool :=
  match p with
  | PaNone | PaScalar _ => true
  | PaInt _ | PaBool _ => negb temporal
  | _ => false
  end.

(** [step]; [temporal] tells the branch of [_build_date_segments], which has no minimum step. The
    [bins] setting is an integer. *)
Definition step_parts (rel : list Row) (temporal : bool) (params : pydict (param Key)) (total_rows bins : Z)
    : outcome ReadV3Error (list PartitionSegment) :=
  match min_max_expr rel with
  | (Some min_value, Some max_value) =>
      let start := match pget params "start" with PaNone => min_value | p => key_of_param p end in
      bins_override ← match pget params "bins" with
                      | PaNone => Ok None
                      | PaInt n => Ok (Some n)
                      | _ => Raise (ReadTypeError "bins")
                      end;
      step ← match pget params "step" with
             | PaNone => Ok None
             | p => if is_number p && is_positive (step_of_param p) then Ok (Some (step_of_param p))
                    else GroupingSpecError "step must be positive number"
             end;
      if negb (start_fits temporal (pget params "start")) then
        if temporal && match step with Some _ => true | None => false end
        then GroupingSpecError "step mode requires datetime/date start value"
        else Raise (ReadTypeError "unsupported operand type(s) for -")
      else
      let bins_override :=
        match bins_override, step with
        | Some n, _ => n
        | None, Some step => Z.max 1 (steps_between start max_value step)
        | None, None => bins
        end in
      let bins_override := if negb (total_rows =? 0) && (total_rows <? bins_override) then total_rows else bins_override in
      let step := match step with
                  | Some step => step
                  | None => even_step start max_value (if bins_override =? 0 then 1 else bins_override)
                  end in
      let step := if negb temporal && negb (is_positive step) then unit_step else step in
      ranges ← step_ranges rel (Z.to_nat bins_override) start step max_value;
      Ok (ranges ++ null_parts rel)
  | _ => Ok (keyless_parts rel total_rows)
  end.

(** [sorted(set(bounds))] in Python's order. *)
Fixpoint insert_key (x : Key) (l : list Key) : list Key :=
  match l with
  | [] => [x]
  | y :: l' => if bool_decide (x = y) then l else if py_le x y then x :: l else y :: insert_key x l'
  end.

Definition sorted_keys (l : list Key) : list Key := foldr insert_key [] l.

(** The loop of [quantiles]: bounds not beyond the cursor are skipped. *)
Fixpoint quantile_ranges (rel : list Row) (cursor : Key) (bounds : list Key) (max_value : Key) : list PartitionSegment :=
  match bounds with
  | [] => [counted_range rel cursor max_value true]
  | bound :: rest =>
      if py_le bound cursor then quantile_ranges rel cursor rest max_value
      else counted_range rel cursor bound false :: quantile_ranges rel bound rest max_value
  end.

Definition quantile_parts (rel : list Row) (mode : string) (params : pydict (param Key)) (total_rows : Z)
    : outcome ReadV3Error (list PartitionSegment) :=
  percentiles ←
    (if bool_decide (mode = "quantiles") then
       match as_int (pget params "k") with
       | Some k => if k <=? 1 then GroupingSpecError "quantiles mode requires integer k > 1"
                   else Ok ((λ idx, percentile (Z.of_nat idx) k) <$> seq 1 (Z.to_nat (k - 1)))
       | None => GroupingSpecError "quantiles mode requires integer k > 1"
       end
     else
       match pget params "percentiles" with
       | PaSeq ps =>
           if forallb is_number ps then
             if forallb in_unit_interval ps then Ok ps
             else GroupingSpecError "percentiles must be between 0 and 1 (exclusive)"
           else GroupingSpecError "percentiles must be numbers"
       | _ => GroupingSpecError "percentiles mode requires percentiles list"
       end);
  let bounds := quantile_values rel percentiles in
  Ok (match min_max_expr rel with
      | (Some min_value, Some max_value) =>
          quantile_ranges rel min_value (sorted_keys (omap id bounds)) max_value ++ null_parts rel
      | _ => keyless_parts rel total_rows
      end).

(** The loop of [granularity]; [None] when the fuel is spent. *)
Fixpoint granularity_ranges (rel : list Row) (fuel : nat) (granularity : string) (cursor max_value : Key)
    : option (outcome ReadV3Error (list PartitionSegment)) :=
  if py_le max_value cursor then Some (Ok [counted_range rel cursor max_value true])
  else match fuel with
       | O => None
       | S fuel =>
           match advance_granularity cursor granularity with
           | None => Some (Raise (ReadTypeError "year is out of range"))
           | Some stop =>
               rest ← granularity_ranges rel fuel granularity stop max_value;
               Some (ranges ← rest; Ok (counted_range rel cursor stop false :: ranges))
           end
       end.

Definition granularities : list string := ["hour"; "day"; "week"; "month"; "year"].

Definition granularity_parts (rel : list Row) (params : pydict (param Key)) (partition_granularity : option string)
    (total_rows : Z) : outcome ReadV3Error (list PartitionSegment) :=
  let granularity := match pget params "granularity" with
                     | PaStr g => if str_truthy g then Some g else Some (or_str partition_granularity "day")
                     | p => if param_truthy p then None else Some (or_str partition_granularity "day")
                     end in
  match granularity with
  | Some g =>
      if bool_decide (g ∈ granularities) then
        match min_max_expr rel with
        | (Some min_value, Some max_value) =>
            let start := floor_to_granularity min_value g in
            match granularity_ranges rel (granularity_steps start max_value g) g start max_value with
            | Some ranges => ranges ← ranges; Ok (ranges ++ null_parts rel)
            | None => Raise (ReadTypeError "the loop does not end")
            end
        | _ => Ok (keyless_parts rel total_rows)
        end
      else GroupingSpecError "unsupported granularity"
  | None => GroupingSpecError "unsupported granularity"
  end.

(** [_normalize_bool_values], one value *)
Definition normalize_bool (v : param Key) : outcome ReadV3Error (option bool) :=
  match v with
  | PaNone => Ok None
  | PaBool b => Ok (Some b)
  | PaInt n => if (n =? 0) || (n =? 1) then Ok (Some (negb (n =? 0))) else GroupingSpecError "unsupported bool value"
  | PaStr s =>
      let key := py_lower (py_strip s) in
      if bool_decide (key ∈ ["true"; "1"; "yes"]) then Ok (Some true)
      else if bool_decide (key ∈ ["false"; "0"; "no"]) then Ok (Some false)
      else if bool_decide (key ∈ ["null"; "none"]) then Ok None
      else GroupingSpecError "unsupported bool value"
  | _ => GroupingSpecError "unsupported bool value"
  end.

Definition bool_explicit_parts (rel : list Row) (params : pydict (param Key)) : outcome ReadV3Error (list PartitionSegment) :=
  match pget params "values" with
  | PaSeq values =>
      normalized ← foldM (λ acc v, b ← normalize_bool v; Ok (acc ++ [b])) [] values;
      let filtered := omap id normalized in
      let segments := (λ b : bool, include_part (if b then "True" else "False") [key_of_bool b]
                                     (count_predicate rel (PEq EKey (key_of_bool b))) None) <$> filtered in
      let segments := segments ++ (if bool_decide (None ∈ normalized) then null_parts rel else []) in
      Ok (if param_truthy (dget_default params "other" (PaBool false)) then
            segments ++ [exclude_part "__other__" (key_of_bool <$> filtered)
                           (count_predicate rel (not_in EKey (key_of_bool <$> filtered))) None]
          else segments)
  | _ => GroupingSpecError "explicit_values mode requires values list"
  end.

Definition bool_value_part (c : option Key * Z) : PartitionSegment :=
  match c.1 with
  | None => null_part c.2
  | Some v => include_part (if key_truthy v then "True" else "False") [key_of_bool (key_truthy v)] c.2 None
  end.

Definition _build_string_segments (rel : list Row) (mode : string) (params : pydict (param Key)) (total_rows bins : Z)
    : outcome ReadV3Error (list PartitionSegment) :=
  if bool_decide (mode ∈ ["as_is"; "as-is"]) then group_by_values rel EKey None params total_rows bins
  else if bool_decide (mode = "prefix") then
    match as_int (pget params "length") with
    | Some length =>
        if length <=? 0 then GroupingSpecError "prefix mode requires positive integer length"
        else let e := EPrefix length (param_truthy (pget params "lower")) in
             group_by_values rel e (Some e) params total_rows bins
    | None => GroupingSpecError "prefix mode requires positive integer length"
    end
  else if bool_decide (mode = "explicit_values") then explicit_value_parts rel params
  else if bool_decide (mode = "hash") then hash_parts rel params total_rows bins
  else GroupingSpecError "unsupported string grouping mode".

Definition _build_numeric_segments (rel : list Row) (mode : string) (params : pydict (param Key)) (total_rows bins : Z)
    : outcome ReadV3Error (list PartitionSegment) :=
  if bool_decide (mode = "ranges") then range_parts rel params
  else if bool_decide (mode = "step") then step_parts rel false params total_rows bins
  else if bool_decide (mode ∈ ["quantiles"; "percentiles"]) then quantile_parts rel mode params total_rows
  else if bool_decide (mode = "hash") then hash_parts rel params total_rows bins
  else GroupingSpecError "unsupported numeric grouping mode".

Definition _build_date_segments (rel : list Row) (mode : string) (params : pydict (param Key)) (total_rows bins : Z)
    (partition_granularity : option string) : outcome ReadV3Error (list PartitionSegment) :=
  if bool_decide (mode = "ranges") then range_parts rel params
  else if bool_decide (mode = "step") then step_parts rel true params total_rows bins
  else if bool_decide (mode = "granularity") then granularity_parts rel params partition_granularity total_rows
  else GroupingSpecError "unsupported datetime grouping mode".

Definition _build_bool_segments (rel : list Row) (mode : string) (params : pydict (param Key))
    : outcome ReadV3Error (list PartitionSegment) :=
  if bool_decide (mode ∈ ["as_is"; "as-is"]) then Ok (bool_value_part <$> value_counts_expr rel EKey None)
  else if bool_decide (mode = "explicit_values") then bool_explicit_parts rel params
  else GroupingSpecError "unsupported bool grouping mode".

Definition build_custom_segments (rel : list Row) (value_kind : ValueKind) (spec : GroupingSpec Key)
    (total_rows npartitions : Z) (limit : option Z) (partition_granularity : option string)
    : outcome ReadV3Error (list PartitionSegment) :=
  let effective_total := match limit with Some l => Z.min total_rows l | None => total_rows end in
  let bins := _resolve_bins npartitions total_rows in
  let mode := gs_mode spec in
  let params := gs_params spec in
  match value_kind with
  | DATE | DATETIME => _build_date_segments rel mode params effective_total bins partition_granularity
  | STRING | UUID => _build_string_segments rel mode params effective_total bins
  | NUMERIC => _build_numeric_segments rel mode params effective_total bins
  | BOOL => _build_bool_segments rel mode params
  | JSON | UNKNOWN => Raise (ReadV3ConfigError "partition_grouping is not supported for this value kind")
  end.

(** ** [build_grouping_segments] *)

Definition _render_segment_predicate (s : PartitionSegment) : sql_predicate Key :=
  let expr := default EKey (ps_value_expr s) in
  if ps_is_null s then PIsNull expr
  else
    match ps_include_values s with
    | Some (v :: vs) => PIn expr (v :: vs)
    | _ =>
        match ps_exclude_values s with
        | Some vs => not_in expr vs
        | None =>
            match ps_hash_mod s with
            | Some m => if m =? 0 then PAlways else
                        match default [] (ps_buckets s) with [] => PNever | bs => PBucket m bs end
            | None =>
                match ps_range_start s, ps_range_end s with
                | Some a, Some b => PRange expr a b (ps_include_end s)
                | _, _ => PAlways
                end
            end
        end
    end.

Definition group_segment (idx : nat) (s : PartitionSegment) : ReadSegment Key :=
  let n := Z.of_nat idx in
  mkSegment (if str_truthy (ps_label s) then ps_label s else "group_" +:+ pretty n) (_render_segment_predicate s)
    (mkDivision (IxInt n) (IxInt (n + 1)) true) HASH (ps_count s) (Some n).

Definition build_grouping_segments (rel : list Row) (value_kind : ValueKind) (spec : GroupingSpec Key)
    (total_rows npartitions : Z) (limit : option Z) (partition_granularity : option string)
    : outcome ReadV3Error (list (ReadSegment Key) * list (index_value Key)) :=
  parts ← build_custom_segments rel value_kind spec total_rows npartitions limit partition_granularity;
  match parts with
  | [] => if total_rows =? 0 then Ok ([empty_segment HASH (Some 0)], [IxInt 0; IxInt 1])
          else Raise (ReadV3PlanningError "partition_grouping produced no segments")
  | _ => Ok (imap group_segment parts, IxInt <$> (Z.of_nat <$> seq 0 (length parts + 1)))
  end.

(** ** Counting the segments of a row *)

Definition part_preds (parts : list PartitionSegment) : list (sql_predicate Key) := _render_segment_predicate <$> parts.

(** Every row is selected by exactly one part. *)
Definition parts_exact (parts : list PartitionSegment) (rel : list Row) : Prop :=
  ∀ r, r ∈ rel → hits (part_preds parts) (row_key r) = 1%nat.

Lemma part_preds_app a b : part_preds (a ++ b) = part_preds a ++ part_preds b.
Proof. apply fmap_app. Qed.

Lemma group_segment_predicates parts idx :
  rs_predicate <$> imap (λ i, group_segment (idx + i)) parts = part_preds parts.
Proof.
  revert idx; induction parts as [|s parts IH]; intros idx; [done|]. cbn [imap]. rewrite fmap_cons.
  change (part_preds (s :: parts)) with (_render_segment_predicate s :: part_preds parts).
  f_equal. rewrite <-(IH (S idx)). f_equal. apply imap_ext. intros i x _. unfold compose. f_equal. lia.
Qed.

(** Segments made of parts select the same rows. *)
Lemma grouped_partitions parts rel : parts_exact parts rel → partitions (imap group_segment parts) rel.
Proof.
  intros He r Hr. assert (predicates (imap group_segment parts) = part_preds parts) as ->; [|by apply He].
  exact (group_segment_predicates parts 0).
Qed.

Lemma count_predicate_zero rel p : count_predicate rel p = 0 ↔ ∀ r, r ∈ rel → sat p (row_key r) = false.
Proof.
  unfold count_predicate. split.
  - intros H r Hr. apply not_true_is_false. intros Hs.
    assert (r ∈ filter (λ r, sat p (row_key r) = true) rel) as Hin by (by apply list_elem_of_filter).
    destruct (filter _ rel); [by apply not_elem_of_nil in Hin|simpl in H; lia].
  - intros H. destruct (filter _ rel) as [|r l] eqn:E; [done|].
    assert (r ∈ filter (λ r, sat p (row_key r) = true) rel) as Hin by (rewrite E; left).
    apply list_elem_of_filter in Hin as [Hs Hr]. rewrite H in Hs; done.
Qed.

Lemma eval_expr_null e (k : option Key) : eval_expr e k = None ↔ k = None.
Proof. destruct e; simpl; [done|]. by destruct k. Qed.

(** The NULL part: there exactly when some key is NULL, and it selects exactly those rows. *)
Lemma null_parts_hits rel r :
  r ∈ rel → hits (part_preds (null_parts rel)) (row_key r) = if decide (row_key r = None) then 1%nat else 0%nat.
Proof.
  intros Hr. unfold null_parts, null_count_expr. destruct (Z.eqb_spec (count_predicate rel (PIsNull EKey)) 0) as [E|E].
  - rewrite count_predicate_zero in E. specialize (E r Hr). simpl in E. by destruct (row_key r).
  - cbn [part_preds fmap list_fmap]. rewrite hits_cons. cbn. by destruct (row_key r).
Qed.

(** ** Sorting and packing keep every row in one segment *)

Lemma insert_by_perm {A} (f : A → Z) x l : insert_by f x l ≡ₚ x :: l.
Proof.
  induction l as [|y l IH]; simpl; [done|]. destruct (f x <=? f y); [done|]. rewrite IH. apply Permutation_swap.
Qed.

Lemma sort_by_perm {A} (f : A → Z) l : sort_by f l ≡ₚ l.
Proof. induction l as [|x l IH]; simpl; [done|]. by rewrite insert_by_perm, IH. Qed.

(** A part that lists values of the expression [e]. *)
Definition lists_values (e : option key_expr) (s : PartitionSegment) : Prop :=
  ∃ v vs, ps_include_values s = Some (v :: vs) ∧ ps_exclude_values s = None ∧ ps_is_null s = false ∧ ps_value_expr s = e.

Lemma lists_values_pred e s :
  lists_values e s → ∃ vs, ps_include_values s = Some vs ∧ _render_segment_predicate s = PIn (default EKey e) vs.
Proof.
  intros (v & vs & Hi & _ & Hn & He). exists (v :: vs). split; [done|]. unfold _render_segment_predicate. by rewrite Hn, Hi, He.
Qed.

Lemma merge_lists e a b :
  lists_values e a → lists_values e b →
  ∃ m, merge_with a b = Ok m ∧ lists_values e m ∧
       ∀ k, sat (_render_segment_predicate m) k = sat (_render_segment_predicate a) k || sat (_render_segment_predicate b) k.
Proof.
  intros (v & vs & Hi & Hx & Hn & He) (w & ws & Hi' & Hx' & Hn' & He').
  destruct a as [la ia xa ra1 ra2 na ca ea ha ba va], b as [lb ib xb rb1 rb2 nb cb eb hb bb vb]. simpl in *. subst ia xa na va ib xb nb vb.
  assert (∀ e' k, sat (PIn e' (v :: vs ++ w :: ws)) k = sat (PIn e' (v :: vs)) k || sat (PIn e' (w :: ws)) k) as Hin.
  { intros e' k. cbn [sat]. destruct (eval_expr e' k) as [x|]; [|done].
    change (v :: vs ++ w :: ws) with ((v :: vs) ++ (w :: ws)). by rewrite existsb_app. }
  unfold merge_with. cbn. destruct e as [e|]; [rewrite bool_decide_eq_true_2 by done|];
    (eexists; split; [done|]; split; [by eexists _, _|apply Hin]).
Qed.

Lemma part_preds_perm a b k : a ≡ₚ b → hits (part_preds a) k = hits (part_preds b) k.
Proof. intros Hp. apply hits_perm. unfold part_preds. by rewrite Hp. Qed.

Lemma part_preds_cons s l k :
  hits (part_preds (s :: l)) k = ((if sat (_render_segment_predicate s) k then 1 else 0) + hits (part_preds l) k)%nat.
Proof. apply hits_cons. Qed.

(** Merging ends with at most [goal] segments, and a row that was in one of them is in one still. *)
Lemma pack_loop_spec fuel goal pool e :
  1 ≤ goal → Forall (lists_values e) pool → (length pool ≤ fuel)%nat →
  ∃ pool', pack_loop fuel goal pool = Ok pool' ∧ Forall (lists_values e) pool' ∧ Z.of_nat (length pool') ≤ goal ∧
    ∀ k, (hits (part_preds pool) k ≤ 1)%nat → hits (part_preds pool') k = hits (part_preds pool) k.
Proof.
  intros Hg. revert pool; induction fuel as [|fuel IH]; intros pool Hp Hl.
  - destruct pool; [|simpl in Hl; lia]. exists []. cbn [pack_loop length].
    rewrite (proj2 (Z.ltb_ge goal (Z.of_nat 0))) by lia. split_and!; [done|constructor|lia|done].
  - cbn [pack_loop]. destruct (Z.ltb_spec goal (Z.of_nat (length pool))) as [Hlt|Hge]; [|exists pool; by split_and!].
    destruct pool as [|a [|b rest]]; [simpl in Hlt; lia..|].
    inversion Hp as [|? ? Ha Hp']; subst. inversion Hp' as [|? ? Hb Hrest]; subst.
    destruct (merge_lists e a b Ha Hb) as (m & -> & Hm & Hsat). cbn [mbind outcome_bind].
    pose proof (sort_by_perm part_weight (rest ++ [m])) as Hperm.
    destruct (IH (sort_by part_weight (rest ++ [m]))) as (pool' & -> & Hp2 & Hlen & Hhits).
    + rewrite Hperm. apply Forall_app. by split; [|constructor].
    + rewrite Hperm, length_app. simpl in *. lia.
    + exists pool'. split_and!; [done..|]. intros k Hk.
      assert (hits (part_preds (sort_by part_weight (rest ++ [m]))) k = hits (part_preds (a :: b :: rest)) k) as E.
      { rewrite (part_preds_perm _ (m :: rest)) by (by rewrite Hperm, Permutation_app_comm).
        rewrite !part_preds_cons in *. rewrite Hsat.
        destruct (sat (_render_segment_predicate a) k), (sat (_render_segment_predicate b) k); simpl in *; lia. }
      rewrite Hhits; [done|]. by rewrite E.
Qed.

Lemma filter_split {A} (f : A → bool) l :
  filter (λ x, f x = false) l ++ filter (λ x, f x = true) l ≡ₚ l.
Proof.
  induction l as [|x l IH]; [done|]. rewrite !filter_cons. destruct (f x); simpl.
  - rewrite <-Permutation_middle. by rewrite IH.
  - by rewrite IH.
Qed.

Lemma pack_segments_spec segments bins e :
  1 ≤ bins → Forall (λ s, preserved s = false → lists_values e s) segments →
  ∃ packed, pack_segments segments bins = Ok packed ∧
    ∀ k, (hits (part_preds segments) k ≤ 1)%nat → hits (part_preds packed) k = hits (part_preds segments) k.
Proof.
  intros Hb Hs. unfold pack_segments. destruct (_ <=? bins); [by exists segments|].
  set (kept := filter (λ s, preserved s = true) segments). set (pool := filter (λ s, preserved s = false) segments).
  pose proof (sort_by_perm part_weight pool) as Hperm.
  destruct (pack_loop_spec (length pool) (Z.max 1 (bins - Z.of_nat (length kept))) (sort_by part_weight pool) e)
    as (pool' & -> & _ & _ & Hh); [lia| |by rewrite Hperm|].
  { rewrite Hperm. apply Forall_forall. intros s [Hn Hin]%list_elem_of_filter. rewrite Forall_forall in Hs. by apply Hs. }
  exists (pool' ++ kept). split; [done|]. intros k Hk.
  pose proof (part_preds_perm (pool ++ kept) segments k (filter_split preserved segments)) as E.
  pose proof (part_preds_perm _ _ k Hperm) as Ep. rewrite part_preds_app, hits_app in E.
  rewrite part_preds_app, hits_app, Hh; lia.
Qed.

(** ** Grouping by value *)

Context {laws : SqlKeyLaws Key} {elaws : ReadEnvLaws Key Row Out} {lits : ExactLiterals Key}.

Lemma sql_eq_true a b : sql_eq a b = true ↔ sql_le a b = true ∧ sql_le b a = true.
Proof. unfold sql_eq. apply andb_true_iff. Qed.

Lemma sql_eq_trans_l a b c : sql_eq a b = true → sql_eq a c = true → sql_eq b c = true.
Proof using laws lits.
  rewrite !sql_eq_true. intros [? ?] [? ?]. split; by eapply sql_le_trans.
Qed.

Lemma sql_eq_literal x v : sql_eq x (literal v) = sql_eq x v.
Proof using laws lits. unfold sql_eq. by rewrite literal_le_l, literal_le_r. Qed.

(** How many groups hold [x]. *)
Definition groups_of (groups : list (Key * Z)) (x : Key) : nat := length (filter (λ g, sql_eq x g.1 = true) groups).

Lemma groups_of_cons g groups x :
  groups_of (g :: groups) x = ((if sql_eq x g.1 then 1 else 0) + groups_of groups x)%nat.
Proof. unfold groups_of. rewrite filter_cons. destruct (sql_eq x g.1); [by rewrite decide_True|by rewrite decide_False]. Qed.

Lemma add_group_of v groups x :
  groups_of (add_group v groups) x =
    (groups_of groups x + (if existsb (λ g, sql_eq v g.1) groups then 0 else if sql_eq x v then 1 else 0))%nat.
Proof.
  induction groups as [|[w n] groups IH]; cbn [add_group existsb]; [rewrite groups_of_cons; cbn; lia|]. cbn [fst].
  destruct (sql_eq v w) eqn:E; rewrite !groups_of_cons; cbn [fst orb]; [lia|]. rewrite IH. lia.
Qed.

(** Every value is in at most one group. *)
Lemma group_counts_distinct values x : (groups_of (group_counts values) x ≤ 1)%nat.
Proof using laws lits.
  induction values as [|v values IH] using rev_ind; [cbn; lia|]. unfold group_counts in *. rewrite foldl_snoc, add_group_of.
  destruct (existsb _ _) eqn:Ex; [lia|]. destruct (sql_eq x v) eqn:E; [|lia].
  assert (groups_of (foldl (λ gs v, add_group v gs) [] values) x = 0%nat) as ->; [|lia].
  unfold groups_of. destruct (filter _ _) as [|g l] eqn:Ef; [done|].
  assert (g ∈ filter (λ g, sql_eq x g.1 = true) (foldl (λ gs v, add_group v gs) [] values)) as Hg by (rewrite Ef; left).
  apply list_elem_of_filter in Hg as [Hx Hg]. assert (sql_eq v g.1 = true) as Hv by (by eapply sql_eq_trans_l).
  apply not_true_iff_false in Ex. destruct Ex. apply existsb_exists. exists g. split; [by apply list_elem_of_In|done].
Qed.

Definition shown_groups (values : list Key) (max_groups : option Z) : list (Key * Z) :=
  let groups := sort_by (λ g, - g.2) (group_counts values) in
  match max_groups with
  | Some n => if n =? 0 then groups else take (Z.to_nat n) groups
  | None => groups
  end.

Lemma shown_groups_distinct values max_groups x : (groups_of (shown_groups values max_groups) x ≤ 1)%nat.
Proof using laws lits.
  assert (groups_of (sort_by (λ g, - g.2) (group_counts values)) x ≤ 1)%nat as H.
  { unfold groups_of. rewrite sort_by_perm. apply group_counts_distinct. }
  unfold shown_groups. destruct max_groups as [n|]; [|done]. destruct (n =? 0); [done|].
  unfold groups_of in *. rewrite <-(take_drop (Z.to_nat n) (sort_by _ _)), filter_app, length_app in H. lia.
Qed.

Lemma value_parts_hits (e : option key_expr) groups k :
  hits (part_preds (value_part e <$> ((λ g, (Some g.1, g.2)) <$> groups))) k =
    match eval_expr (default EKey e) k with Some x => groups_of groups x | None => 0%nat end.
Proof using laws lits.
  induction groups as [|[v n] groups IH]; [by destruct (eval_expr _ k)|]. cbn [fmap list_fmap]. rewrite part_preds_cons, IH.
  unfold _render_segment_predicate, value_part, include_part.
  cbn [fst snd ps_is_null ps_include_values ps_value_expr sat existsb].
  destruct (eval_expr (default EKey e) k) as [x|]; [|done]. by rewrite orb_false_r, sql_eq_literal, groups_of_cons.
Qed.

Lemma existsb_groups groups x :
  existsb (λ v, sql_eq x (literal v)) groups.*1 = negb (groups_of groups x =? 0)%nat.
Proof using laws lits.
  induction groups as [|[v n] groups IH]; [done|]. cbn [fmap list_fmap existsb fst]. rewrite IH, groups_of_cons, sql_eq_literal. simpl.
  by destruct (sql_eq x v).
Qed.

Lemma not_in_sat e groups k :
  sat (not_in e groups.*1) k = match eval_expr e k with Some x => (groups_of groups x =? 0)%nat | None => false end.
Proof using laws lits.
  destruct groups as [|g groups]; [simpl; by destruct (eval_expr e k)|].
  change (not_in e (g :: groups).*1) with (PNotIn e (g :: groups).*1). cbn [sat].
  destruct (eval_expr e k) as [x|]; [|done]. by rewrite existsb_groups, negb_involutive.
Qed.

(** Grouping by value, with a group for the rest, puts every row into exactly one segment: NULLs into
    their own, listed values into the one that lists them, other values into the rest. *)
Lemma group_by_values_exact rel e value_expr params total_rows bins parts :
  1 ≤ bins → default EKey value_expr = e → param_truthy (dget_default params "other" (PaBool true)) = true →
  group_by_values rel e value_expr params total_rows bins = Ok parts → parts_exact parts rel.
Proof using laws lits.
  intros Hb He Hother. unfold group_by_values. destruct (max_groups_param params bins) as [mg|]; [|done].
  cbn [mbind outcome_bind]. rewrite Hother. unfold value_counts_expr.
  set (values := omap (λ r, eval_expr e (row_key r)) rel). change (match mg with Some n => _ | None => _ end) with (shown_groups values mg).
  set (groups := shown_groups values mg).
  set (nulls := if null_count_expr rel e =? 0 then [] else [(None, null_count_expr rel e)]).
  set (counts := ((λ g, (Some g.1, g.2)) <$> groups) ++ nulls).
  assert (omap fst counts = groups.*1) as Ec.
  { unfold counts, nulls. rewrite omap_app. assert (omap fst ((λ g : Key * Z, (Some g.1, g.2)) <$> groups) = groups.*1) as ->.
    - induction groups as [|g gs IH]; [done|]. simpl. by f_equal.
    - destruct (_ =? 0); by rewrite app_nil_r. }
  rewrite Ec. set (seen := foldr Z.add 0 counts.*2).
  set (other := if seen <? total_rows then total_rows - seen else count_predicate rel (not_in e groups.*1)).
  set (segs := if other =? 0 then value_part value_expr <$> counts
               else (value_part value_expr <$> counts) ++ [exclude_part "__other__" groups.*1 other value_expr]).
  intros Hpack. assert (Forall (λ s, preserved s = false → lists_values value_expr s) segs) as Hlist.
  { assert (Forall (λ s, preserved s = false → lists_values value_expr s) (value_part value_expr <$> counts)) as Hv.
    { apply Forall_forall. intros s ([[v|] n] & -> & _)%list_elem_of_fmap; [|done]. intros _. by exists v, []. }
    unfold segs. destruct (other =? 0); [done|]. apply Forall_app. split; [done|]. by constructor; [|constructor]. }
  destruct (pack_segments_spec segs bins value_expr Hb Hlist) as (packed & Hp & Hh).
  rewrite Hp in Hpack. injection Hpack as <-. subst e.
  assert (∀ r, r ∈ rel → hits (part_preds segs) (row_key r) = 1%nat) as Hone; [|intros r Hr; rewrite Hh; rewrite Hone; done].
  intros r Hr.
  assert (hits (part_preds (value_part value_expr <$> counts)) (row_key r) =
    match eval_expr (default EKey value_expr) (row_key r) with Some x => groups_of groups x | None => 1%nat end) as Hv.
  { unfold counts. rewrite fmap_app, part_preds_app, hits_app, value_parts_hits.
    unfold nulls, null_count_expr. destruct (Z.eqb_spec (count_predicate rel (PIsNull (default EKey value_expr))) 0) as [E|E].
    - rewrite count_predicate_zero in E. specialize (E r Hr). cbn in E. destruct (eval_expr _ (row_key r)); [|done].
      change (hits (part_preds (value_part value_expr <$> [])) (row_key r)) with 0%nat. lia.
    - cbn [fmap list_fmap]. rewrite part_preds_cons. cbn.
      destruct (eval_expr (default EKey value_expr) (row_key r)) as [x|] eqn:Ex.
      + destruct (row_key r); [change (hits (part_preds []) (Some k)) with 0%nat; lia|]. by rewrite (proj2 (eval_expr_null _ None)) in Ex.
      + apply eval_expr_null in Ex. by rewrite Ex. }
  pose proof (shown_groups_distinct values mg) as Hd. fold groups in Hd.
  unfold segs. destruct (Z.eqb_spec other 0) as [Eo|Eo].
  - rewrite Hv. destruct (eval_expr (default EKey value_expr) (row_key r)) as [x|] eqn:Ex; [|done].
    unfold other in Eo. destruct (Z.ltb_spec seen total_rows); [lia|]. rewrite count_predicate_zero in Eo.
    specialize (Eo r Hr). rewrite not_in_sat, Ex in Eo. apply Nat.eqb_neq in Eo. specialize (Hd x). lia.
  - rewrite part_preds_app, hits_app, Hv, part_preds_cons. unfold exclude_part, _render_segment_predicate. cbn.
    rewrite not_in_sat. destruct (eval_expr (default EKey value_expr) (row_key r)) as [x|] eqn:Ex; [|done].
    specialize (Hd x). destruct (Nat.eqb_spec (groups_of groups x) 0); simpl; lia.
Qed.

(** ** Chains of ranges *)

(** Ranges that follow one another from [c], the last one up to and including [m]. *)
Inductive range_chain (m : Key) : Key → list PartitionSegment → Prop :=
  | chain_last c n : range_chain m c [range_part (Some c) (Some m) true n]
  | chain_next c d n l :
      sql_le c d = true → range_chain m d l → range_chain m c (range_part (Some c) (Some d) false n :: l).

Lemma sat_range_part a b incl n k :
  sat (_render_segment_predicate (range_part (Some a) (Some b) incl n)) k =
    match k with Some x => sql_le a x && (if incl then sql_le x b else sql_lt x b) | None => false end.
Proof using laws lits. destruct k as [x|]; [|done]. apply sat_range. Qed.

(** A key up to [m] is in exactly one range of the chain if it is not below its start, else in none. *)
Lemma chain_hits m c l k :
  range_chain m c l →
  hits (part_preds l) k = match k with
                          | Some x => if sql_le c x && sql_le x m then 1%nat
                                      else if sql_le x m then 0%nat else hits (part_preds l) k
                          | None => 0%nat
                          end.
Proof using laws lits.
  intros Hc. destruct k as [x|].
  - destruct (sql_le x m) eqn:Hm; rewrite ?andb_false_r, ?andb_true_r; [|done].
    induction Hc as [c n|c d n l Hcd _ IH]; rewrite part_preds_cons, sat_range_part.
    + rewrite Hm, andb_true_r. by destruct (sql_le c x).
    + rewrite IH. unfold sql_lt. destruct (sql_le d x) eqn:Hd; [|by rewrite andb_true_r; destruct (sql_le c x)].
      by rewrite andb_false_r, (sql_le_trans c d x).
  - induction Hc as [c n|c d n l Hcd _ IH]; rewrite part_preds_cons, sat_range_part; [done|by rewrite IH].
Qed.

(** A chain over all the keys, with a part for NULL, holds every row exactly once. *)
Lemma chain_exact m c l rel :
  range_chain m c l → (∀ k, k ∈ ordered_keys rel → sql_le c k = true ∧ sql_le k m = true) →
  parts_exact (l ++ null_parts rel) rel.
Proof using laws lits elaws.
  intros Hc Hk r Hr. rewrite part_preds_app, hits_app, null_parts_hits by done. rewrite (chain_hits m c l _ Hc).
  destruct (row_key r) as [x|] eqn:Er; [|done]. destruct (Hk x) as [H1 H2].
  { apply (elem_of_ordered_keys (Out := Out)). eauto. }
  by rewrite H1, H2.
Qed.

Context {glaws : GroupingLaws Key Row}.

Lemma step_ranges_chain rel n cursor step m l :
  (∀ c c', add_step c step = Some c' → sql_le c c' = true) →
  step_ranges rel (S n) cursor step m = Ok l → range_chain m cursor l.
Proof.
  intros Hs. revert cursor l; induction n as [|n IH]; intros cursor l; [intros [= <-]; constructor|].
  change (step_ranges rel (S (S n)) cursor step m) with
    (match add_step cursor step with
     | None => Raise (ReadTypeError "date value out of range")
     | Some stop => ranges ← step_ranges rel (S n) stop step m; Ok (counted_range rel cursor stop false :: ranges)
     end).
  destruct (add_step cursor step) as [stop|] eqn:Ea; [|done].
  destruct (step_ranges rel (S n) stop step m) as [ranges|] eqn:Er; [|done]. cbn [mbind outcome_bind]. intros [= <-].
  constructor; [by apply Hs|by apply IH].
Qed.

Lemma quantile_ranges_chain rel cursor bounds m :
  same_order Key → range_chain m cursor (quantile_ranges rel cursor bounds m).
Proof using laws.
  intros python_order. revert cursor; induction bounds as [|b bounds IH]; intros cursor; cbn [quantile_ranges]; [constructor|].
  destruct (py_le b cursor) eqn:Hb; [apply IH|]. constructor; [|apply IH].
  rewrite python_order in Hb. destruct (sql_le_total cursor b); congruence.
Qed.

Lemma granularity_ranges_chain rel fuel g cursor m l :
  granularity_ranges rel fuel g cursor m = Some (Ok l) → range_chain m cursor l.
Proof using glaws.
  revert cursor l; induction fuel as [|fuel IH]; intros cursor l; cbn [granularity_ranges];
    (destruct (py_le m cursor); [intros [= <-]; constructor|]); [done|].
  destruct (advance_granularity cursor g) as [stop|] eqn:Ha; [|done].
  destruct (granularity_ranges rel fuel g stop m) as [[rest|]|] eqn:Hr; [|done..].
  intros [= <-]. constructor; [by eapply advance_le|by apply IH].
Qed.

Lemma iter_none {A} (f : A → option A) i : Nat.iter i (λ o, o ≫= f) None = None.
Proof. induction i as [|i IH]; [done|]. by rewrite Nat.iter_succ, IH. Qed.

Lemma granularity_ranges_end rel fuel g cursor m i :
  (i ≤ fuel)%nat →
  match Nat.iter i (λ o, o ≫= λ k, advance_granularity k g) (Some cursor) with Some k => py_le m k = true | None => True end →
  is_Some (granularity_ranges rel fuel g cursor m).
Proof.
  revert cursor i; induction fuel as [|fuel IH]; intros cursor i Hi Hm; cbn [granularity_ranges].
  - assert (i = 0%nat) as -> by lia. simpl in Hm. rewrite Hm. eauto.
  - destruct (py_le m cursor) eqn:Hc; [eauto|]. destruct i as [|i]; [simpl in Hm; congruence|].
    rewrite Nat.iter_succ_r in Hm. cbn in Hm. destruct (advance_granularity cursor g) as [stop|]; [|eauto].
    destruct (IH stop i) as [l Hl]; [lia|done|]. rewrite Hl. cbn. eauto.
Qed.

Lemma granularity_ranges_raise rel fuel g cursor m e :
  granularity_ranges rel fuel g cursor m = Some (Raise e) → e = ReadTypeError "year is out of range".
Proof.
  revert cursor; induction fuel as [|fuel IH]; intros cursor; cbn [granularity_ranges]; (destruct (py_le m cursor); [done|]); [done|].
  destruct (advance_granularity cursor g) as [stop|]; [|by intros [= <-]].
  destruct (granularity_ranges rel fuel g stop m) as [[rest|e']|] eqn:Hr; [done| |done]. intros [= <-]. by eapply IH.
Qed.

Lemma extremes rel kmin kmax :
  min_max_expr rel = (Some kmin, Some kmax) →
  ∀ k, k ∈ ordered_keys rel → sql_le kmin k = true ∧ sql_le k kmax = true.
Proof using laws lits elaws.
  unfold min_max_expr. intros [= H1 H2] k Hk. eapply sorted_extremes; [|done..]. apply ordered_keys_sorted.
Qed.

Lemma min_max_found rel : ordered_keys rel ≠ [] → ∃ kmin kmax, min_max_expr rel = (Some kmin, Some kmax).
Proof.
  unfold min_max_expr. intros Hne. destruct (last (ordered_keys rel)) as [kmax|] eqn:El; [|by apply last_None in El].
  destruct (ordered_keys rel) as [|kmin l]; [done|]. by exists kmin, kmax.
Qed.

(** [step] without a [start]: every row is in exactly one segment. *)
Lemma step_parts_exact rel temporal params total_rows bins parts :
  pget params "start" = PaNone → (∀ n, pget params "bins" = PaInt n → 0 < n) → 1 ≤ bins → 0 ≤ total_rows →
  ordered_keys rel ≠ [] → step_parts rel temporal params total_rows bins = Ok parts → parts_exact parts rel.
Proof using laws lits elaws glaws.
  intros Hstart Hbins Hb Ht Hne. unfold step_parts. rewrite Hstart.
  destruct (min_max_found rel Hne) as (kmin & kmax & Emm). rewrite Emm. pose proof (extremes rel kmin kmax Emm) as Hext.
  assert (sql_le kmin kmax = true) as Hmm.
  { destruct (ordered_keys rel) as [|k ks] eqn:Ek; [done|]. destruct (Hext k) as [H1 H2]; [left|]. by eapply sql_le_trans. }
  intros Hok. destruct (match pget params "bins" with PaNone => Ok None | PaInt n => Ok (Some n) | _ => _ end) as [bo|] eqn:Ebo; [|done].
  cbn [mbind outcome_bind] in Hok.
  destruct (match pget params "step" with PaNone => Ok None | _ => _ end) as [st|] eqn:Est; [|done].
  cbn [mbind outcome_bind start_fits negb] in Hok.
  match type of Hok with (?m ≫= _) = _ => destruct m as [ranges|] eqn:Er end; [|done].
  cbn [mbind outcome_bind] in Hok. injection Hok as <-. apply (chain_exact kmax kmin); [|done].
  match type of Er with step_ranges _ (Z.to_nat ?b) _ _ _ = _ => set (nb := b) in Er end.
  assert (1 ≤ nb) as Hnb.
  { unfold nb. assert (1 ≤ match bo, st with Some n, _ => n | None, Some step => Z.max 1 (steps_between kmin kmax step) | None, None => bins end) as Hx.
    { destruct bo as [n|]; [|destruct st; lia]. destruct (pget params "bins"); simplify_eq. specialize (Hbins n eq_refl). lia. }
    destruct (_ && _) eqn:Ec; [|by destruct bo]. apply andb_true_iff in Ec as [Ez _]. apply negb_true_iff, Z.eqb_neq in Ez. lia. }
  replace (Z.to_nat nb) with (S (Z.to_nat nb - 1)) in Er by lia. revert Er. apply step_ranges_chain. intros c c'.
  destruct st as [st|].
  - assert (is_positive st = true) as Hpos.
    { destruct (pget params "step"); try done; destruct (is_number _ && is_positive _) eqn:Ep; try done; simplify_eq; by apply andb_true_iff in Ep as [_ ?]. }
    rewrite Hpos, andb_false_r. by apply add_step_le.
  - destruct temporal; cbn [negb andb]; [by apply even_step_le|].
    match goal with |- context [is_positive ?s] => destruct (is_positive s) eqn:Ep end; cbn [negb]; apply add_step_le; [done|apply unit_step_positive].
Qed.

Lemma quantile_parts_exact rel mode params total_rows parts :
  same_order Key → ordered_keys rel ≠ [] → quantile_parts rel mode params total_rows = Ok parts → parts_exact parts rel.
Proof using laws lits elaws glaws.
  intros Hord Hne. destruct (min_max_found rel Hne) as (kmin & kmax & Emm). unfold quantile_parts. rewrite Emm.
  intros Hok. match type of Hok with (?m ≫= _) = _ => destruct m as [ps|] end; [|done].
  cbn [mbind outcome_bind] in Hok. injection Hok as <-.
  apply (chain_exact kmax kmin); [by apply quantile_ranges_chain|by apply extremes].
Qed.

(** The loop of [granularity] ends, and every row is in exactly one segment. *)
Lemma granularity_parts_exact rel params partition_granularity total_rows parts :
  ordered_keys rel ≠ [] → granularity_parts rel params partition_granularity total_rows = Ok parts → parts_exact parts rel.
Proof using laws lits elaws glaws.
  intros Hne. destruct (min_max_found rel Hne) as (kmin & kmax & Emm). unfold granularity_parts. rewrite Emm.
  intros Hok. match type of Hok with (match ?m with Some _ => _ | None => _ end) = _ => destruct m as [g|] end; [|done].
  destruct (bool_decide (g ∈ granularities)); [|done].
  destruct (granularity_ranges rel _ g _ kmax) as [[l|]|] eqn:Hg; [|done..]. injection Hok as <-.
  apply (chain_exact kmax (floor_to_granularity kmin g)); [by eapply granularity_ranges_chain|].
  intros k Hk. destruct (extremes rel kmin kmax Emm k Hk) as [H1 H2]. split; [|done].
  apply sql_le_trans with kmin; [apply floor_le|done].
Qed.

Lemma granularity_parts_end rel params partition_granularity total_rows :
  granularity_parts rel params partition_granularity total_rows ≠ Raise (ReadTypeError "the loop does not end").
Proof using glaws.
  unfold granularity_parts. destruct (match pget params "granularity" with PaStr _ => _ | _ => _ end) as [g|]; [|done].
  destruct (bool_decide (g ∈ granularities)); [|done]. destruct (min_max_expr rel) as [[kmin|] [kmax|]]; [|done..].
  destruct (granularity_ends (floor_to_granularity kmin g) kmax g) as (i & Hi & Hm).
  destruct (granularity_ranges_end rel _ g _ kmax i Hi Hm) as [[l|e] He]; rewrite He; [done|].
  by rewrite (granularity_ranges_raise _ _ _ _ _ _ He).
Qed.

(** ** Explicit values *)

Lemma unique_values_nodup values : NoDup (unique_values values).1.
Proof.
  unfold unique_values. induction values as [|v values IH] using rev_ind; [constructor|]. rewrite foldl_snoc.
  destruct v; try exact IH; (case_bool_decide as Hin; [exact IH|]); cbn [fst]; apply NoDup_app; (split_and!; [exact IH| |apply NoDup_singleton]);
    intros x Hx ->%list_elem_of_singleton; done.
Qed.

(** A relation all of whose keys are NULL is read twice by [step], [quantiles], [percentiles] and
    [granularity]: the parts [__all__] and [__null__] both select every row. *)
Lemma keyless_parts_twice rel total_rows r :
  r ∈ rel → row_key r = None → hits (part_preds (keyless_parts rel total_rows)) (row_key r) = 2%nat.
Proof.
  intros Hr Hk. unfold keyless_parts. rewrite part_preds_cons, null_parts_hits by done. by rewrite decide_True.
Qed.

End Grouping.
