(* ===== verification/ReadExec.v ===== *)
(** * Database readers: planning and executing a read

    Models the part of [TableReadPlanner.build_plan] and [QueryReadPlanner.build_plan] that decides
    how the relation is cut ([core/db/read_v3/planner/table.py], [query.py]), the estimate of
    [_auto_partition.py], [SQLReadExecutor.load_partition] ([executors/sql.py]) and
    [frame_from_executor] ([dask.py]). Resolving column names and casting columns to pandas types
    are outside: a row is cast by the parameter [cast_row]. Every query of a read sees the same
    relation: rows written between planning and reading are not modelled. *)
From S2P Require Import Prelude PipelineTypes NodeKwargs ReadLiteral ReadTypes ReadPlan ReadGrouping.
Open Scope Z_scope.

(** ** [_auto_partition.py] *)

Record AutoPartitionEstimate := mkEstimate {
  ae_npartitions : Z;
  ae_rows_per_part : Z;
  ae_effective_bytes_est : Z;
}.

(** [_finalize_estimate]; [target_bytes] is the memory aimed at for one partition. *)
Definition _finalize_estimate (write_batch_rows bytes_per_row_est effective_rows_est min_rows_per_part
    target_bytes max_partitions : Z) : AutoPartitionEstimate :=
  let target_bytes := Z.max 1 target_bytes in
  let effective_bytes_est := Z.max 0 effective_rows_est * Z.max 1 bytes_per_row_est in
  let nparts_by_bytes := Z.max 1 (ceil_quotient (Z.max 1 effective_bytes_est) target_bytes) in
  let base_rows_per_part := Z.max min_rows_per_part (2 * write_batch_rows) in
  let rows_per_part_by_mem := Z.max 1 (target_bytes / Z.max 1 bytes_per_row_est) in
  let target_rows_per_part := Z.max min_rows_per_part (Z.min base_rows_per_part rows_per_part_by_mem) in
  let npartitions :=
    if 0 <? effective_rows_est then
      let nparts_by_rows := Z.max 1 (ceil_quotient effective_rows_est target_rows_per_part) in
      Z.min (Z.max nparts_by_bytes nparts_by_rows) effective_rows_est
    else 1 in
  let npartitions := Z.max 1 (Z.min npartitions max_partitions) in
  let rows_per_part := if 0 <? effective_rows_est then Z.max 1 (ceil_quotient effective_rows_est npartitions) else 0 in
  mkEstimate npartitions rows_per_part effective_bytes_est.

Section Exec.
Context {Key Row Out : Type} {sk : SqlKey Key} {env : ReadEnv Key Row Out} {genv : GroupingEnv Key Row}.

(** ** Planning *)

Record PlanRequest := mkRequest {
  rq_kind : ValueKind;
  rq_npartitions : option Z;
  rq_limit : option Z;
  rq_max_rows_per_partition : option Z;
  rq_grouping : option (GroupingSpec Key);
  rq_granularity : option string;
}.

(** [_apply_relation_limit]: [ORDER BY key LIMIT limit] *)
Definition _apply_relation_limit (rel : list Row) (limit : option Z) : outcome ReadV3Error (list Row) :=
  match limit with
  | None => Ok rel
  | Some limit =>
      if limit <=? 0 then Raise (ReadV3ConfigError "limit must be positive")
      else Ok (take (Z.to_nat limit) (order_by_key rel))
  end.

Definition _grouping_npartitions_override (grouping : option (GroupingSpec Key)) (fallback : Z)
    : outcome ReadV3Error Z :=
  match grouping with
  | None => Ok fallback
  | Some g =>
      if bool_decide (gs_mode g = "hash") then
        let buckets := if param_truthy (pget (gs_params g) "buckets") then pget (gs_params g) "buckets"
                       else pget (gs_params g) "mod" in
        match buckets with
        | PaNone => Ok fallback
        | _ =>
            match as_int buckets with
            | Some n => if n <=? 0 then Raise (ReadV3ConfigError "partition_grouping.hash requires positive integer buckets")
                        else Ok n
            | None => Raise (ReadV3ConfigError "partition_grouping.hash requires positive integer buckets")
            end
        end
      else Ok fallback
  end.

(** [grouping_spec.mode not in {"range", "hash"}] *)
Definition custom_grouping (grouping : option (GroupingSpec Key)) : option (GroupingSpec Key) :=
  match grouping with
  | Some g => if bool_decide (gs_mode g ∈ ["range"; "hash"]) then None else Some g
  | None => None
  end.

(** [normalize_strategy] of the remaining modes. *)
Definition explicit_strategy (grouping : option (GroupingSpec Key)) : option PartitionStrategy :=
  match grouping with
  | Some g => if bool_decide (gs_mode g = "range") then Some RANGE
              else if bool_decide (gs_mode g = "hash") then Some HASH else None
  | None => None
  end.

(** The segments, their divisions, the strategy and where the index comes from. *)
Definition plan_segments (rq : PlanRequest) (rel : list Row) (target_npartitions : Z)
    : outcome ReadV3Error (PartitionStrategy * index_column * (list (ReadSegment Key) * list (index_value Key))) :=
  let stats := query_row_stats rel in
  match custom_grouping (rq_grouping rq) with
  | Some g =>
      sd ← build_grouping_segments rel (rq_kind rq) g (st_total stats) target_npartitions (rq_limit rq) (rq_granularity rq);
      Ok (HASH, LiteralColumn, sd)
  | None =>
      strategy ← choose_partition_strategy (rq_kind rq) (st_non_null stats <? st_total stats)
                   (explicit_strategy (rq_grouping rq));
      match strategy with
      | RANGE => sd ← build_range_segments rel target_npartitions; Ok (RANGE, PartitionKeyColumn, sd)
      | HASH => Ok (HASH, HashBucketColumn target_npartitions,
                    build_hash_segments target_npartitions target_npartitions (st_total stats))
      end
  end.

Definition plan_npartitions (estimate : Z → Z) (rq : PlanRequest) (total_rows : Z) : outcome ReadV3Error Z :=
  target ← match rq_npartitions rq with
           | None => Ok (estimate total_rows)
           | Some n => infer_npartitions total_rows (Some n)
           end;
  target ← _grouping_npartitions_override (rq_grouping rq) target;
  Ok (if total_rows <=? 0 then 1 else Z.min target total_rows).

Definition default_max_rows (total_rows target_npartitions : Z) : Z :=
  let baseline := Z.max 1 (ceil_quotient (Z.max total_rows 1) (Z.max target_npartitions 1)) in
  Z.max 100000 (baseline * 4).

(** [partition_granularity] is for the mode of that name. *)
Definition check_granularity (rq : PlanRequest) : outcome ReadV3Error unit :=
  match rq_granularity rq, rq_grouping rq with
  | None, _ => Ok ()
  | Some _, Some g =>
      if bool_decide (gs_mode g = "granularity") then Ok ()
      else Raise (ReadV3ConfigError "partition_granularity requires partition_grouping.mode='granularity' in read_v3")
  | Some _, None => Raise (ReadV3ConfigError "partition_granularity requires partition_grouping.mode='granularity' in read_v3")
  end.

(** [_validate_partition_key_kind] and the test for an unknown kind *)
Definition check_key_kind (rq : PlanRequest) : outcome ReadV3Error unit :=
  match rq_kind rq with
  | JSON => Raise (ReadV3PlanningError "Strict read_v3 does not support JSON partition keys")
  | UNKNOWN => Raise (ReadV3PlanningError "Strict read_v3 could not infer partition key kind")
  | _ => Ok ()
  end.

(** [build_plan]: the limited relation and the plan for it. *)
Definition build_plan (estimate : Z → Z) (rq : PlanRequest) (rel : list Row)
    : outcome ReadV3Error (list Row * ReadV3Plan Key) :=
  _ ← check_granularity rq;
  _ ← check_key_kind rq;
  rel ← _apply_relation_limit rel (rq_limit rq);
  let total_rows := st_total (query_row_stats rel) in
  target ← plan_npartitions estimate rq total_rows;
  res ← plan_segments rq rel target;
  let '(strategy, index, (segments, divisions)) := res in
  divisions ← validate_divisions divisions (length segments);
  let max_rows := match rq_max_rows_per_partition rq with Some n => n | None => default_max_rows total_rows target end in
  if max_rows <=? 0 then Raise (ReadV3ConfigError "max_rows_per_partition must be positive")
  else Ok (rel, mkPlan strategy segments divisions max_rows index total_rows target).

(** ** Executing *)

(** [_segment_sql] and [_read_sql_bounded] *)
Definition read_segment (plan : ReadV3Plan Key) (rel : list Row) (segment : ReadSegment Key)
    : outcome ReadV3Error (list Row) :=
  let max_rows := pl_max_rows_per_partition plan in
  if max_rows <=? 0 then Raise (ReadV3ExecutionError "max_rows_per_partition must be positive")
  else
    let df := take (Z.to_nat (max_rows + 1)) (order_by_key (filter (λ r, sat (rs_predicate segment) (row_key r) = true) rel)) in
    if max_rows <? Z.of_nat (length df) then Raise (ReadV3ExecutionError "Segment exceeded max_rows_per_partition")
    else Ok df.

(** [_pick_index_column] *)
Definition row_index (plan : ReadV3Plan Key) (segment : ReadSegment Key) (r : Row) : option (index_value Key) :=
  match pl_index_column plan with
  | PartitionKeyColumn => (λ k, IxKey (cast_key k)) <$> row_key r
  | HashBucketColumn buckets => Some (IxInt (hash_bucket (row_key r) buckets))
  | LiteralColumn => IxInt <$> rs_index_literal segment
  end.

(** [df.index.is_monotonic_increasing]; an index with a missing value is not. *)
Fixpoint is_monotonic (index : list (option (index_value Key))) : bool :=
  match index with
  | [] => true
  | None :: _ => false
  | Some _ :: [] => true
  | Some a :: ((Some b :: _) as rest) => bool_decide (ix_le a b = Some true) && is_monotonic rest
  | Some _ :: None :: _ => false
  end.

(** [_validate_index_bounds] of an increasing index. *)
Definition index_within (division : SegmentDivision Key) (index_min index_max : index_value Key) : bool :=
  bool_decide (ix_le (sd_start division) index_min = Some true)
  && (if sd_include_end division then bool_decide (ix_le index_max (sd_end division) = Some true)
      else bool_decide (ix_le (sd_end division) index_max = Some false)).

Fixpoint cast_rows (rows : list Row) : outcome ReadV3Error (list Out) :=
  match rows with
  | [] => Ok []
  | r :: rows =>
      match cast_row r with
      | None => Raise (ReadV3ExecutionError "Failed to cast read_v3 column")
      | Some o => os ← cast_rows rows; Ok (o :: os)
      end
  end.

Definition load_partition (plan : ReadV3Plan Key) (rel : list Row) (segment : ReadSegment Key)
    : outcome ReadV3Error (list Out) :=
  df ← read_segment plan rel segment;
  match df with
  | [] => Ok []
  | _ =>
      out ← cast_rows df;
      let index := row_index plan segment <$> df in
      if negb (is_monotonic index) then Raise (ReadV3ExecutionError "Segment index is not monotonic increasing")
      else
        match mjoin (head index), mjoin (last index) with
        | Some index_min, Some index_max =>
            if index_within (rs_division segment) index_min index_max then Ok out
            else Raise (ReadV3ExecutionError "Segment index bound violation")
        | _, _ => Raise (ReadV3ExecutionError "Range segment is missing partition key columns")
        end
  end.

(** [frame_from_executor] and the evaluation of the frame: the partitions, one after another. *)
Definition compute_frame (plan : ReadV3Plan Key) (rel : list Row) : outcome ReadV3Error (list Out) :=
  match pl_segments plan with
  | [] => Raise (ReadV3PlanningError "read_v3 plan has no segments; strict mode forbids empty execution graphs")
  | segments =>
      _ ← validate_divisions (pl_divisions plan) (length segments);
      foldM (λ acc segment, part ← load_partition plan rel segment; Ok (acc ++ part)) [] segments
  end.

(** A whole read. *)
Definition read_v3 (estimate : Z → Z) (rq : PlanRequest) (rel : list Row) : outcome ReadV3Error (list Out) :=
  res ← build_plan estimate rq rel;
  compute_frame res.2 res.1.

(** ** Every row once *)

Definition selected (rel : list Row) (p : sql_predicate Key) : list Row := filter (λ r, sat p (row_key r) = true) rel.

Lemma selected_cons ps r rel :
  concat (selected (r :: rel) <$> ps) ≡ₚ replicate (hits ps (row_key r)) r ++ concat (selected rel <$> ps).
Proof.
  induction ps as [|p ps IH]; [done|]. rewrite !fmap_cons. cbn [concat]. rewrite IH, hits_cons. unfold selected at 1.
  rewrite filter_cons. destruct (sat p (row_key r)) eqn:Hs.
  - rewrite decide_True by done. cbn [Nat.add replicate app]. f_equiv. fold (selected rel p).
    rewrite !app_assoc. f_equiv. apply Permutation_app_comm.
  - rewrite decide_False by done. fold (selected rel p). cbn [Nat.add]. rewrite !app_assoc. f_equiv. apply Permutation_app_comm.
Qed.

(** When every row is in exactly one segment, the segments together are the relation. *)
Lemma selected_partition ps rel :
  (∀ r, r ∈ rel → hits ps (row_key r) = 1%nat) → concat (selected rel <$> ps) ≡ₚ rel.
Proof.
  induction rel as [|r rel IH]; intros Hh.
  - clear. induction ps as [|p ps IH]; [done|]. exact IH.
  - rewrite selected_cons, (Hh r) by left. cbn. constructor. apply IH. intros x Hx. apply Hh. by right.
Qed.

Lemma cast_rows_spec rows out : cast_rows rows = Ok out ↔ Forall2 (λ r o, cast_row r = Some o) rows out.
Proof.
  revert out; induction rows as [|r rows IH]; intros out; simpl; [split; [intros [= <-]; constructor|by inversion 1]|].
  destruct (cast_row r) as [o|] eqn:Hr; [|split; [done|inversion 1; congruence]].
  destruct (cast_rows rows) as [os|e] eqn:Hq; simpl.
  - split; [intros [= <-]; constructor; [done|by apply IH]|]. inversion 1 as [|? w ? ws ? Hws]; subst. apply IH in Hws. congruence.
  - split; [done|]. inversion 1 as [|? w ? ws ? Hws]; subst. apply IH in Hws. congruence.
Qed.

Lemma cast_rows_omap rows out : cast_rows rows = Ok out → out = omap cast_row rows ∧ length out = length rows.
Proof.
  rewrite cast_rows_spec. induction 1 as [|r o rows out Hr _ [IH1 IH2]]; [done|]. simpl. rewrite Hr. split; cbn; f_equal; done.
Qed.

Context {laws : SqlKeyLaws Key} {elaws : ReadEnvLaws Key Row Out} {lits : ExactLiterals Key}.

(** A partition that loads has every row its segment selects, cast. *)
Lemma load_partition_complete plan rel segment out :
  load_partition plan rel segment = Ok out →
  out ≡ₚ omap cast_row (selected rel (rs_predicate segment)) ∧ length out = length (selected rel (rs_predicate segment)).
Proof using elaws.
  unfold load_partition, read_segment. fold (selected rel (rs_predicate segment)). set (rows := selected rel _).
  destruct (_ <=? 0) eqn:Hm; [done|]. set (df := take _ _).
  destruct (Z.ltb_spec (pl_max_rows_per_partition plan) (Z.of_nat (length df))) as [|Hle]; [done|]. cbn [mbind outcome_bind].
  assert (df = order_by_key rows) as Edf.
  { apply take_ge. unfold df in Hle. rewrite length_take in Hle. apply Z.leb_gt in Hm. lia. }
  pose proof (order_by_key_perm rows) as Hperm. intros Hok.
  assert (∃ out', cast_rows df = Ok out' ∧ out = out') as (out' & Hc & ->).
  { destruct df as [|r df']; [injection Hok as <-; by exists []|].
    destruct (cast_rows (r :: df')) as [o|]; [|done]. exists o. split; [done|]. cbn [mbind outcome_bind] in Hok.
    destruct (negb _); [done|]. destruct (mjoin (head _)); [|done]. destruct (mjoin (last _)); [|done].
    destruct (index_within _ _ _); [|done]. by injection Hok. }
  apply cast_rows_omap in Hc as [-> Hl]. rewrite Hl, Edf. by rewrite Hperm.
Qed.

Lemma load_all_complete plan rel segments acc out :
  foldM (λ acc segment, part ← load_partition plan rel segment; Ok (acc ++ part)) acc segments = Ok out →
  out ≡ₚ acc ++ omap cast_row (concat (selected rel <$> predicates segments)) ∧
  length out = (length acc + length (concat (selected rel <$> predicates segments)))%nat.
Proof using elaws.
  revert acc; induction segments as [|s segments IH]; intros acc Hf; cbn [foldM] in Hf.
  - injection Hf as <-. rewrite app_nil_r. simpl. by rewrite Nat.add_0_r.
  - destruct (load_partition plan rel s) as [part|] eqn:Hl; [|done]. cbn [mbind outcome_bind] in Hf.
    apply load_partition_complete in Hl as [Hp Hlen]. destruct (IH _ Hf) as [Hperm Hl2].
    rewrite predicates_cons, fmap_cons. cbn [concat]. rewrite omap_app, !length_app in *. split; [|lia].
    by rewrite Hperm, <-app_assoc, Hp.
Qed.

(** A frame computed from exact segments holds every row exactly once. *)
Lemma compute_frame_exact plan rel out :
  partitions (pl_segments plan) rel → compute_frame plan rel = Ok out →
  out ≡ₚ omap cast_row rel ∧ length out = length rel.
Proof using elaws.
  intros Hp. unfold compute_frame. destruct (pl_segments plan) as [|s segs] eqn:Es; [done|].
  destruct (validate_divisions _ _); [|done]. cbn [mbind outcome_bind]. intros Hf%load_all_complete.
  cbn [length app Nat.add] in Hf. pose proof (selected_partition (predicates (s :: segs)) rel Hp) as Hsel.
  by rewrite Hsel in Hf.
Qed.

(** ** The plan's segments *)

Lemma plan_npartitions_bounds estimate rq total_rows target :
  (∀ n, 1 ≤ estimate n) → plan_npartitions estimate rq total_rows = Ok target →
  1 ≤ target ∧ (total_rows ≤ 0 ∨ target ≤ total_rows).
Proof.
  intros He. unfold plan_npartitions. destruct (match rq_npartitions rq with None => _ | Some n => _ end) as [t|] eqn:Et; [|done].
  cbn [mbind outcome_bind]. assert (1 ≤ t) as Ht.
  { destruct (rq_npartitions rq) as [n|]; [|injection Et as <-; apply He]. unfold infer_npartitions in Et.
    destruct (Z.leb_spec n 0); [done|]. destruct (Z.leb_spec total_rows 0); injection Et as <-; lia. }
  destruct (_grouping_npartitions_override (rq_grouping rq) t) as [t'|] eqn:Eo; [|done]. cbn [mbind outcome_bind].
  assert (1 ≤ t') as Ht'.
  { unfold _grouping_npartitions_override in Eo. destruct (rq_grouping rq) as [g|]; [|by simplify_eq].
    destruct (bool_decide _); [|by simplify_eq].
    match type of Eo with (match ?b with PaNone => _ | _ => _ end) = _ => destruct b end; cbn [as_int] in Eo;
      try (by simplify_eq); (destruct (Z.leb_spec (Z.b2z b) 0) || destruct (Z.leb_spec n 0)); simplify_eq; lia. }
  destruct (Z.leb_spec total_rows 0) as [Hz|Hz]; intros [= <-]; lia.
Qed.

Lemma no_nulls rel :
  (st_non_null (query_row_stats rel) <? st_total (query_row_stats rel)) = false → ∀ r, r ∈ rel → is_Some (row_key r).
Proof.
  cbn. intros Hlt%Z.ltb_ge r Hr. assert (length rel ≤ length (non_null rel))%nat as Hl by lia.
  apply (non_null_keys rel). unfold non_null in *. by rewrite (sublist_full _ _ (sublist_filter _ rel) Hl).
Qed.

(** Groupings that leave no row out: values with a group for the rest; quantiles, where Python, which compares
    them with the start of the range, has the order of the database; whole granules; and steps from the smallest
    key. *)
Definition covering_grouping (kind : ValueKind) (g : GroupingSpec Key) (rel : list Row) : Prop :=
  match kind with
  | STRING | UUID =>
      gs_mode g ∈ ["as_is"; "as-is"; "prefix"] ∧ param_truthy (dget_default (gs_params g) "other" (PaBool true)) = true
  | NUMERIC | DATE | DATETIME =>
      ordered_keys rel ≠ [] ∧
      ((if bool_decide (kind = NUMERIC) then gs_mode g ∈ ["quantiles"; "percentiles"] ∧ same_order Key else gs_mode g = "granularity") ∨
       (gs_mode g = "step" ∧ pget (gs_params g) "start" = PaNone ∧ (∀ n, pget (gs_params g) "bins" = PaInt n → 0 < n)))
  | _ => False
  end.

Context {glaws : GroupingLaws Key Row}.

Lemma covering_step g rel total_rows npartitions limit temporal parts :
  0 ≤ total_rows → (∀ l, limit = Some l → 0 < l) → ordered_keys rel ≠ [] →
  pget (gs_params g) "start" = PaNone → (∀ n, pget (gs_params g) "bins" = PaInt n → 0 < n) → 1 ≤ npartitions →
  step_parts rel temporal (gs_params g) (match limit with Some l => Z.min total_rows l | None => total_rows end)
    (_resolve_bins npartitions total_rows) = Ok parts → parts_exact parts rel.
Proof using laws lits elaws glaws.
  intros Ht Hl Hne Hs Hb Hn Hp. eapply step_parts_exact; [done..| | |done|done].
  - unfold _resolve_bins. destruct (Z.ltb_spec 0 npartitions); lia.
  - destruct limit as [l|]; [|done]. specialize (Hl l eq_refl). lia.
Qed.

Lemma covering_strings g rel total_rows bins parts :
  1 ≤ bins → gs_mode g ∈ ["as_is"; "as-is"; "prefix"] →
  param_truthy (dget_default (gs_params g) "other" (PaBool true)) = true →
  _build_string_segments rel (gs_mode g) (gs_params g) total_rows bins = Ok parts → parts_exact parts rel.
Proof using laws lits.
  intros Hb Hm Ho. unfold _build_string_segments. destruct (bool_decide (gs_mode g ∈ ["as_is"; "as-is"])) eqn:Ea.
  - by apply group_by_values_exact.
  - apply bool_decide_eq_false in Ea. assert (gs_mode g = "prefix") as -> by (clear -Hm Ea; set_solver). cbn.
    destruct (as_int _) as [n|]; [|done]. destruct (n <=? 0); [done|]. by apply group_by_values_exact.
Qed.

Lemma covering_parts_exact kind g rel total_rows npartitions limit granularity parts :
  0 ≤ total_rows → (∀ l, limit = Some l → 0 < l) → 1 ≤ npartitions → covering_grouping kind g rel →
  build_custom_segments rel kind g total_rows npartitions limit granularity = Ok parts → parts_exact parts rel.
Proof using laws lits elaws glaws.
  intros Ht Hl Hn Hc. assert (1 ≤ _resolve_bins npartitions total_rows) as Hb.
  { unfold _resolve_bins. destruct (Z.ltb_spec 0 npartitions); lia. }
  unfold build_custom_segments. destruct kind; try done.
  - destruct Hc as (Hne & [Hm|(Hm & Hs & Hbn)]); unfold _build_numeric_segments.
    + cbn in Hm. destruct Hm as [Hm Hord]. rewrite (bool_decide_eq_false_2 (gs_mode g = "ranges")), (bool_decide_eq_false_2 (gs_mode g = "step")),
        (bool_decide_eq_true_2 _ Hm)
        by (intros E; rewrite E in Hm; apply (bool_decide_eq_true_2 _) in Hm; by vm_compute in Hm). by apply quantile_parts_exact.
    + rewrite Hm. cbn. intros Hp. by apply (covering_step g rel total_rows npartitions limit false parts).
  - destruct Hc as (Hne & [Hm|(Hm & Hs & Hbn)]); unfold _build_date_segments.
    + cbn in Hm. rewrite Hm. cbn. by apply granularity_parts_exact.
    + rewrite Hm. cbn. intros Hp. by apply (covering_step g rel total_rows npartitions limit true parts).
  - destruct Hc as (Hne & [Hm|(Hm & Hs & Hbn)]); unfold _build_date_segments.
    + cbn in Hm. rewrite Hm. cbn. by apply granularity_parts_exact.
    + rewrite Hm. cbn. intros Hp. by apply (covering_step g rel total_rows npartitions limit true parts).
  - destruct Hc as [Hm Ho]. by apply covering_strings.
  - destruct Hc as [Hm Ho]. by apply covering_strings.
Qed.

Lemma plan_segments_exact rq rel target strategy index segments divisions :
  1 ≤ target → Z.of_nat (length rel) ≤ 0 ∨ target ≤ Z.of_nat (length rel) → (∀ l, rq_limit rq = Some l → 0 < l) →
  (∀ g, custom_grouping (rq_grouping rq) = Some g → covering_grouping (rq_kind rq) g rel) →
  plan_segments rq rel target = Ok (strategy, index, (segments, divisions)) → partitions segments rel.
Proof using laws lits elaws glaws.
  intros Ht Hle Hlim Hcov. unfold plan_segments. destruct (custom_grouping (rq_grouping rq)) as [g|].
  - destruct (build_grouping_segments _ _ _ _ _ _ _) as [[segs divs]|] eqn:Hg; [|done]. intros [= <- <- <- <-].
    unfold build_grouping_segments in Hg. destruct (build_custom_segments _ _ _ _ _ _ _) as [parts|] eqn:Hb; [|done].
    cbn [mbind outcome_bind] in Hg. assert (parts_exact parts rel) as He.
    { eapply covering_parts_exact; [..|done]; [cbn; lia|done|lia|by apply Hcov]. }
    destruct parts as [|part parts].
    + destruct (Z.eqb_spec (st_total (query_row_stats rel)) 0) as [E|E]; [|done]. destruct rel; [|cbn in E; lia].
      by intros r ?%not_elem_of_nil.
    + injection Hg as <- <-. exact (grouped_partitions (part :: parts) rel He).
  - destruct (choose_partition_strategy _ _ _) as [st|] eqn:Hs; [|done]. cbn [mbind outcome_bind]. destruct st.
    + assert ((st_non_null (query_row_stats rel) <? st_total (query_row_stats rel)) = false) as Hnn.
      { unfold choose_partition_strategy in Hs. destruct (_ <? _); [|done].
        destruct (explicit_strategy _) as [[]|]; [|done|]; [by destruct (negb _)|by rewrite andb_false_r in Hs]. }
      destruct (build_range_segments rel target) as [[segs divs]|] eqn:Hr; [|done]. intros [= <- <- <- <-].
      destruct (decide (rel = [])) as [->|Hne]; [by intros r ?%not_elem_of_nil|].
      destruct (range_segments_exact rel target Hne (no_nulls rel Hnn)) as (segs' & Hr' & _ & _ & Hp); [lia|].
      rewrite Hr in Hr'. by injection Hr' as -> ->.
    + intros [= <- <- <- <-]. apply (hash_segments_exact target); [lia|]. cbn. lia.
Qed.

(** Inverting [build_plan]. *)
Lemma build_plan_inv estimate rq rel rel' plan :
  build_plan estimate rq rel = Ok (rel', plan) →
  ∃ strategy index divisions target,
    _apply_relation_limit rel (rq_limit rq) = Ok rel' ∧
    plan_npartitions estimate rq (Z.of_nat (length rel')) = Ok target ∧
    plan_segments rq rel' target = Ok (strategy, index, (pl_segments plan, divisions)) ∧
    validate_divisions divisions (length (pl_segments plan)) = Ok divisions ∧
    pl_divisions plan = divisions ∧ pl_index_column plan = index ∧ pl_npartitions plan = target ∧
    0 < pl_max_rows_per_partition plan.
Proof.
  unfold build_plan. destruct (check_granularity rq); [|done]. destruct (check_key_kind rq); [|done]. cbn [mbind outcome_bind].
  destruct (_apply_relation_limit rel (rq_limit rq)) as [r|] eqn:Hl; [|done]. cbn [mbind outcome_bind].
  destruct (plan_npartitions estimate rq _) as [target|] eqn:Hn; [|done]. cbn [mbind outcome_bind].
  destruct (plan_segments rq r target) as [[[strategy index] [segs divs]]|] eqn:Hs; [|done]. cbn [mbind outcome_bind].
  destruct (validate_divisions divs (length segs)) as [d|] eqn:Hv; [|done]. cbn [mbind outcome_bind].
  assert (d = divs) as ->.
  { unfold validate_divisions in Hv. destruct (_ =? 0)%nat; [done|]. destruct (negb _); [done|].
    destruct (check_monotonic divs); [|done]. by injection Hv. }
  match goal with |- context [?m <=? 0] => destruct (Z.leb_spec m 0) end; [done|].
  intros [= <- <-]. exists strategy, index, divs, target. by split_and!.
Qed.

(** A read that succeeds, over keys with exact literals. *)
Lemma read_rows_once estimate rq rel out :
  (∀ n, 1 ≤ estimate n) →
  (∀ rel' g, _apply_relation_limit rel (rq_limit rq) = Ok rel' → custom_grouping (rq_grouping rq) = Some g →
     covering_grouping (rq_kind rq) g rel') →
  read_v3 estimate rq rel = Ok out →
  ∃ rel', _apply_relation_limit rel (rq_limit rq) = Ok rel' ∧ out ≡ₚ omap cast_row rel' ∧ length out = length rel'.
Proof using laws lits elaws glaws.
  intros He Hcov. unfold read_v3. destruct (build_plan estimate rq rel) as [[rel' plan]|] eqn:Hb; [|done].
  cbn [mbind outcome_bind fst snd]. apply build_plan_inv in Hb as (strategy & index & divs & target & Hl & Hn & Hs & _ & _).
  intros Hf. exists rel'. split; [done|]. apply (compute_frame_exact plan); [|done].
  destruct (plan_npartitions_bounds estimate rq _ target He Hn) as [H1 H2].
  eapply plan_segments_exact; [done..| |by intros; eapply Hcov|done].
  intros l El. rewrite El in Hl. cbn in Hl. destruct (Z.leb_spec l 0); [done|lia].
Qed.

(** ** When a read succeeds *)

(** The index of the rows a segment selects passes both checks. *)
Definition index_passes (plan : ReadV3Plan Key) (rel : list Row) (segment : ReadSegment Key) : Prop :=
  let index := row_index plan segment <$> order_by_key (selected rel (rs_predicate segment)) in
  index = [] ∨ (is_monotonic index = true ∧
    ∃ a b, head index = Some (Some a) ∧ last index = Some (Some b) ∧ index_within (rs_division segment) a b = true).

(** All rows of the segment have the same index. *)
Lemma constant_index plan rel segment v :
  ix_le v v = Some true → index_within (rs_division segment) v v = true →
  (∀ r, r ∈ selected rel (rs_predicate segment) → row_index plan segment r = Some v) → index_passes plan rel segment.
Proof using elaws.
  intros Hv Hw Hall. unfold index_passes.
  assert (Forall (λ r, row_index plan segment r = Some v) (order_by_key (selected rel (rs_predicate segment)))) as Hf.
  { apply Forall_forall. intros r Hr. apply Hall. by rewrite order_by_key_perm in Hr. }
  destruct (order_by_key _) as [|r rows] eqn:E; [by left|right]. clear E Hall.
  assert (is_monotonic (row_index plan segment <$> r :: rows) = true ∧ last (row_index plan segment <$> r :: rows) = Some (Some v)) as [Hm Hl].
  { revert r Hf; induction rows as [|r' rows IH]; intros r Hf.
    - inversion Hf as [|? ? Hr]; subst. cbn. by rewrite Hr.
    - inversion Hf as [|? ? Hr Hf']; subst. destruct (IH r' Hf') as [H1 H2]. inversion Hf' as [|? ? Hr']; subst.
      rewrite !fmap_cons in *. cbn [last] in H2 |- *. split; [|done]. rewrite Hr, Hr' in *. cbn [is_monotonic] in H1 |- *.
      by rewrite (bool_decide_eq_true_2 _ Hv), H1. }
  split; [done|]. exists v, v. split_and!; [|done..]. inversion Hf as [|? ? Hr]; subst. cbn. by rewrite Hr.
Qed.

Lemma hash_index_passes plan rel bucket :
  pl_index_column plan = HashBucketColumn (pl_npartitions plan) →
  index_passes plan rel (hash_segment (pl_npartitions plan) bucket).
Proof using elaws.
  intros Hi. apply (constant_index plan rel _ (IxInt bucket)).
  - cbn. by rewrite Z.leb_refl.
  - unfold index_within. cbn. rewrite Z.leb_refl, (proj2 (Z.leb_le bucket (bucket + 1))) by lia. done.
  - intros r [Hs _]%list_elem_of_filter. unfold row_index. rewrite Hi. cbn in Hs. rewrite orb_false_r in Hs.
    apply Z.eqb_eq in Hs. by rewrite Hs.
Qed.

Lemma group_index_passes plan rel idx part :
  pl_index_column plan = LiteralColumn → index_passes plan rel (group_segment idx part).
Proof using elaws.
  intros Hi. apply (constant_index plan rel _ (IxInt (Z.of_nat idx))).
  - cbn. by rewrite Z.leb_refl.
  - unfold index_within. cbn. rewrite Z.leb_refl, (proj2 (Z.leb_le _ (Z.of_nat idx + 1))) by lia. done.
  - intros r _. unfold row_index. by rewrite Hi.
Qed.

Lemma empty_index_passes plan rel strategy literal : index_passes plan rel (empty_segment strategy literal).
Proof using elaws.
  left. assert (order_by_key (selected rel PNever) = []) as E; [|unfold empty_segment; cbn [rs_predicate]; by rewrite E].
  apply Permutation_nil. rewrite order_by_key_perm. unfold selected. induction rel; [done|]. rewrite filter_cons. by cbn.
Qed.

(** The keys of a range segment, in the order of the database, are an increasing index within its
    bounds, when Python compares keys as the database does and casting leaves them alone. *)
Lemma range_index_passes plan rel idx start stop is_last :
  pl_index_column plan = PartitionKeyColumn → ExactLiterals Key → same_order Key → (∀ k, cast_key k = k) →
  index_passes plan rel (range_segment idx start stop is_last).
Proof using laws elaws.
  intros Hi Hlits python_order Hcast. unfold index_passes. set (seg := range_segment idx start stop is_last).
  set (rows := order_by_key (selected rel (rs_predicate seg))).
  assert (∀ r, r ∈ rows → ∃ k, row_key r = Some k ∧ row_index plan seg r = Some (IxKey k) ∧ sql_le start k = true ∧
            (if is_last then sql_le k stop = true else sql_lt k stop = true)) as Hrows.
  { intros r Hr. unfold rows in Hr. rewrite order_by_key_perm in Hr. apply list_elem_of_filter in Hr as [Hs _].
    unfold seg, range_segment in Hs. cbn [rs_predicate] in Hs. unfold row_index. rewrite Hi.
    destruct (row_key r) as [k|]; [|by destruct (_ && _)]. exists k. cbn. rewrite Hcast. split_and!; [done..| |].
    - destruct (_ && _); [rewrite sat_eq in Hs|rewrite sat_range in Hs]; by apply andb_true_iff in Hs as [? ?].
    - destruct (bool_decide (start = stop) && is_last) eqn:E.
      + apply andb_true_iff in E as [E%bool_decide_eq_true ->]. subst. rewrite sat_eq in Hs. by apply andb_true_iff in Hs as [? ?].
      + rewrite sat_range in Hs. apply andb_true_iff in Hs as [_ Hs]. by destruct is_last. }
  assert (StronglySorted (λ a b, sql_le a b = true) (omap row_key rows)) as Hsort.
  { apply order_by_key_sorted. intros r Hr. destruct (Hrows r) as (k & Hk & _); [unfold rows; by rewrite order_by_key_perm|]. by rewrite Hk. }
  destruct rows as [|r rows']; [by left|right].
  assert (is_monotonic (row_index plan seg <$> r :: rows') = true ∧
          ∃ l, l ∈ r :: rows' ∧ last (row_index plan seg <$> r :: rows') = Some (row_index plan seg l)) as [Hm (l & Hl & El)].
  { revert r Hrows Hsort; induction rows' as [|r' rows' IH]; intros r Hrows Hsort.
    - destruct (Hrows r) as (k & _ & Hx & _); [left|]. cbn. rewrite Hx. split; [done|]. exists r. split; [left|]. by rewrite Hx.
    - destruct (Hrows r) as (k & Hk & Hx & _); [left|]. destruct (Hrows r') as (k' & Hk' & Hx' & _); [right; left|].
      cbn in Hsort. rewrite Hk, Hk' in Hsort. cbn in Hsort. inversion Hsort as [|? ? Hs' Hall]; subst. inversion Hall; subst.
      destruct (IH r') as [Hm (l & Hl & El)]; [intros; apply Hrows; by right|cbn; by rewrite Hk'|].
      rewrite !fmap_cons in *. cbn [last] in El |- *. split; [|exists l; split; [by right|done]].
      rewrite Hx, Hx' in *. cbn [is_monotonic] in Hm |- *. rewrite Hm, bool_decide_eq_true_2; [done|].
      cbn. rewrite python_order. by f_equal. }
  destruct (Hrows r) as (a & _ & Ha & Has & _); [left|]. destruct (Hrows l Hl) as (b & _ & Hb & _ & Hbs).
  split; [done|]. exists (IxKey a), (IxKey b). split_and!; [by cbn; rewrite Ha|by rewrite El, Hb|].
  unfold index_within, seg, range_segment. cbn. rewrite bool_decide_eq_true_2 by (rewrite python_order; by f_equal). cbn.
  destruct is_last; apply bool_decide_eq_true_2; rewrite python_order; [by f_equal|].
  f_equal. unfold sql_lt in Hbs. by apply negb_true_iff.
Qed.

Lemma load_partition_succeeds plan rel segment :
  0 < pl_max_rows_per_partition plan →
  Z.of_nat (length (selected rel (rs_predicate segment))) ≤ pl_max_rows_per_partition plan →
  (∀ r, r ∈ rel → is_Some (cast_row r)) → index_passes plan rel segment →
  ∃ out, load_partition plan rel segment = Ok out.
Proof using elaws.
  intros Hm Hfit Hcast Hidx. unfold load_partition, read_segment. rewrite (proj2 (Z.leb_gt _ 0) Hm).
  fold (selected rel (rs_predicate segment)). unfold index_passes in Hidx. pose proof (order_by_key_perm (selected rel (rs_predicate segment))) as Hp.
  set (rows := order_by_key (selected rel (rs_predicate segment))) in *.
  assert (length rows = length (selected rel (rs_predicate segment))) as Hl by (by rewrite Hp).
  rewrite take_ge by lia. rewrite (proj2 (Z.ltb_ge _ (Z.of_nat (length rows)))) by lia. cbn [mbind outcome_bind].
  assert (∃ out, cast_rows rows = Ok out) as [out Hout].
  { assert (∀ r, r ∈ rows → is_Some (cast_row r)) as Hc.
    { intros r Hr. rewrite Hp in Hr. apply list_elem_of_filter in Hr as [_ Hr]. by apply Hcast. }
    clear -Hc. induction rows as [|r rows IH]; [by exists []|]. destruct IH as [os Hos]; [intros; apply Hc; by right|].
    destruct (Hc r) as [o Ho]; [left|]. exists (o :: os). cbn. by rewrite Ho, Hos. }
  destruct rows as [|r rows']; [by exists []|]. rewrite Hout. cbn [mbind outcome_bind].
  destruct Hidx as [|(Hmono & a & b & Ha & Hb & Hw)]; [done|]. rewrite Hmono, Ha, Hb. cbn. rewrite Hw. by exists out.
Qed.

Lemma range_segments_are_ranges idx bs s :
  s ∈ range_segments idx bs → ∃ i a b is_last, s = range_segment i a b is_last.
Proof.
  revert idx; induction bs as [|a [|b bs] IH]; intros idx Hs; [by apply not_elem_of_nil in Hs..|].
  rewrite range_segments_eq in Hs. destruct (_ && _); [by eapply IH|].
  apply elem_of_cons in Hs as [->|Hs]; [eauto|by eapply IH].
Qed.

Lemma build_range_segments_are_ranges rel n segs divs s :
  build_range_segments rel n = Ok (segs, divs) → s ∈ segs →
  (∃ lit, s = empty_segment RANGE lit) ∨ ∃ i a b is_last, s = range_segment i a b is_last.
Proof.
  unfold build_range_segments. destruct (_ =? 0); [intros [= <- <-] ->%list_elem_of_singleton; eauto|].
  destruct (_ =? 0); [done|]. destruct (query_boundaries _ _) as [raw|]; [|done]. cbn [mbind outcome_bind].
  destruct (_ <? _)%nat; [done|]. destruct (range_segments 0 _) as [|s' segs'] eqn:Es; [done|].
  intros [= <- <-] Hs. right. rewrite <-Es in Hs. by eapply range_segments_are_ranges.
Qed.

Lemma planned_index_passes plan rq rel segments divisions strategy :
  plan_segments rq rel (pl_npartitions plan) = Ok (strategy, pl_index_column plan, (segments, divisions)) →
  (pl_index_column plan = PartitionKeyColumn → (∀ k : Key, exact_key k) ∧ same_order Key ∧ ∀ k : Key, cast_key k = k) →
  ∀ s, s ∈ segments → index_passes plan rel s.
Proof using laws elaws.
  intros Hp Hcast s Hs. unfold plan_segments in Hp. destruct (custom_grouping (rq_grouping rq)) as [g|].
  - destruct (build_grouping_segments _ _ _ _ _ _ _) as [[segs divs]|] eqn:Hg; [|done]. injection Hp as _ Hi -> ->.
    unfold build_grouping_segments in Hg. destruct (build_custom_segments _ _ _ _ _ _ _) as [parts|]; [|done].
    cbn [mbind outcome_bind] in Hg. destruct parts as [|part parts].
    + destruct (_ =? 0); [|done]. injection Hg as <- <-. apply list_elem_of_singleton in Hs as ->. apply empty_index_passes.
    + injection Hg as <- <-. change (group_segment 0 part :: _) with (imap group_segment (part :: parts)) in Hs.
      apply list_elem_of_lookup in Hs as [i Hs]. rewrite list_lookup_imap in Hs.
      destruct ((part :: parts) !! i) as [q|]; [|done]. injection Hs as <-. by apply group_index_passes.
  - destruct (choose_partition_strategy _ _ _) as [[]|]; [..|done]; cbn [mbind outcome_bind] in Hp.
    + destruct (build_range_segments rel _) as [[segs divs]|] eqn:Hr; [|done]. injection Hp as _ Hi -> ->.
      destruct (build_range_segments_are_ranges _ _ _ _ _ Hr Hs) as [[lit ->]|(i & a & b & l & ->)];
        [apply empty_index_passes|]. symmetry in Hi. destruct (Hcast Hi) as (Hx & Ho & Hc).
      exact (range_index_passes plan rel i a b l Hi (Build_ExactLiterals _ _ Hx) Ho Hc).
    + injection Hp as _ Hi <- _. apply list_elem_of_fmap in Hs as (b & -> & _). by apply hash_index_passes.
Qed.

End Exec.

Section Reads.
Context {Key Row Out : Type} {sk : SqlKey Key} {env : ReadEnv Key Row Out} {genv : GroupingEnv Key Row}.
Context {laws : SqlKeyLaws Key} {elaws : ReadEnvLaws Key Row Out} {glaws : GroupingLaws Key Row}.


(** C31. A planned read succeeds when every segment holds at most the allowed number of rows and every row can be
    cast: the checks on the index never reject. Where the index is the key itself (a range read) this needs that
    the dialect renders the keys exactly, that Python orders them as the database does (so for numbers and
    dates, not for texts under a collation), and that casting leaves them alone. *)
Theorem planned_reads_succeed estimate rq rel rel' plan :
  build_plan estimate rq rel = Ok (rel', plan) →
  (pl_index_column plan = PartitionKeyColumn → (∀ k : Key, exact_key k) ∧ same_order Key ∧ ∀ k : Key, cast_key k = k) →
  (∀ r, r ∈ rel' → is_Some (cast_row r)) →
  (∀ s, s ∈ pl_segments plan →
     Z.of_nat (length (selected rel' (rs_predicate s))) ≤ pl_max_rows_per_partition plan) →
  ∃ out, compute_frame plan rel' = Ok out.
Proof.
  intros Hb Hcast Hrows Hfit.
  apply build_plan_inv in Hb as (strategy & index & divs & target & _ & _ & Hs & Hv & Hd & Hi & Hn & Hm).
  subst index target. pose proof (planned_index_passes plan rq rel' _ _ _ Hs Hcast) as Hidx.
  unfold compute_frame. rewrite Hd. destruct (pl_segments plan) as [|s segs] eqn:Es; [done|]. rewrite Hv. cbn [mbind outcome_bind].
  clear Hv Hs Es. generalize (@nil Out) as acc. induction (s :: segs) as [|x l IH]; intros acc; [by exists acc|].
  destruct (load_partition_succeeds plan rel' x) as [part Hp]; [done|apply Hfit; left|done|apply Hidx; left|].
  cbn [foldM]. rewrite Hp. cbn [mbind outcome_bind]. apply IH; intros; [apply Hfit|apply Hidx]; by right.
Qed.

End Reads.

(** ** The estimate *)

Lemma part_bytes_below np b tb bb rows rpp :
  0 < np → 0 < b → 0 < tb → (rpp - 1) * np < rows → rows * b ≤ bb * tb → bb ≤ np → (rpp - 1) * b < tb.
Proof.
  intros Hnp Hb Htb H1 H2 H3. apply (Z.mul_lt_mono_pos_r np); [done|].
  assert ((rpp - 1) * np * b < rows * b) by (by apply Z.mul_lt_mono_pos_r).
  assert (bb * tb ≤ np * tb) by (apply Z.mul_le_mono_nonneg_r; lia). lia.
Qed.

(** The number of partitions estimated for a read lies between one and both the number of rows and
    the configured maximum; together the partitions hold all the rows; and unless one of the two
    bounds decided, a partition short of one row stays below the memory aimed at. *)
Theorem estimate_bounds write_batch bpr rows min_rows target max_parts :
  0 < rows → 0 < max_parts → 0 < min_rows →
  let e := _finalize_estimate write_batch bpr rows min_rows target max_parts in
  1 ≤ ae_npartitions e ≤ Z.min rows max_parts ∧
  rows ≤ ae_npartitions e * ae_rows_per_part e < rows + ae_npartitions e ∧
  (ae_npartitions e < Z.min rows max_parts → (ae_rows_per_part e - 1) * Z.max 1 bpr < Z.max 1 target).
Proof.
  intros Hr Hm Hmin. unfold _finalize_estimate. rewrite (proj2 (Z.ltb_lt 0 rows) Hr).
  set (tb := Z.max 1 target). set (b := Z.max 1 bpr). assert (1 ≤ tb) by lia. assert (1 ≤ b) by lia.
  rewrite (Z.max_r 0 rows) by lia. rewrite (Z.max_r 1 (rows * b)) by nia.
  set (by_bytes := Z.max 1 (ceil_quotient (rows * b) tb)). set (by_rows := Z.max 1 (ceil_quotient rows _)).
  cbn [ae_npartitions ae_rows_per_part]. set (np := Z.max 1 (Z.min (Z.min (Z.max by_bytes by_rows) rows) max_parts)).
  assert (1 ≤ np ≤ Z.min rows max_parts) as Hnp by lia.
  assert (0 < ceil_quotient rows np) as Hpos by (apply ceil_div_spec; lia). rewrite (Z.max_r 1 (ceil_quotient rows np)) by lia.
  set (rpp := ceil_quotient rows np) in *.
  assert (rows ≤ np * rpp) as H1.
  { assert (¬ rpp < rpp) as Hx by lia. unfold rpp in Hx at 2. rewrite ceil_div_spec in Hx by lia. nia. }
  assert ((rpp - 1) * np < rows) as H2 by (apply ceil_div_spec; lia).
  split_and!; [lia..|]. intros Hlt.
  assert (¬ by_bytes < ceil_quotient (rows * b) tb) as Hx by (clear; lia). rewrite ceil_div_spec in Hx by lia.
  apply (part_bytes_below np b tb by_bytes rows); [clear -Hnp; lia|lia..|]. clear -Hlt Hnp. lia.
Qed.
