(* ===== verification/ReadTemporal.v ===== *)
(** * Database readers: the calendar

    Models [core/db/read_v3/grouping/temporal.py] on naive [date] and [datetime] values, with the parts
    of Python's [datetime] module it uses: [replace], [+ timedelta] and the range of years. The two
    functions discharge the interface [GroupingEnv] for date columns, in which the loop of the
    [granularity] mode was proved to end. *)
From S2P Require Import Prelude PipelineTypes NodeKwargs ReadLiteral ReadTypes ReadPlan ReadGrouping.
Open Scope Z_scope.

Module Temporal.

(** ** Dates *)

(** A [date], or a [datetime] with the time of day in microseconds. *)
Record DateLike := mkDate {
  is_datetime : bool;
  year : Z;
  month : Z;
  day : Z;
  time : Z;
}.

#[global] Instance DateLike_eq_dec : EqDecision DateLike.
Proof. solve_decision. Defined.

Definition us_per_hour : Z := 3600 * 1000000.
Definition us_per_day : Z := 24 * us_per_hour.

Definition is_leap (y : Z) : bool := (y mod 4 =? 0) && (negb (y mod 100 =? 0) || (y mod 400 =? 0)).

Definition days_in_month (y m : Z) : Z :=
  if m =? 2 then if is_leap y then 29 else 28
  else if bool_decide (m ∈ [4; 6; 9; 11]) then 30 else 31.

(** What the constructors of [date] and [datetime] accept. *)
Definition valid (t : DateLike) : bool :=
  (1 <=? year t) && (year t <=? 9999) && (1 <=? month t) && (month t <=? 12)
  && (1 <=? day t) && (day t <=? days_in_month (year t) (month t))
  && (0 <=? time t) && (time t <? us_per_day) && (is_datetime t || (time t =? 0)).

(** [date + timedelta(days=1)], before the check of the year. *)
Definition next_day (t : DateLike) : DateLike :=
  if day t <? days_in_month (year t) (month t) then mkDate (is_datetime t) (year t) (month t) (day t + 1) (time t)
  else if month t <? 12 then mkDate (is_datetime t) (year t) (month t + 1) 1 (time t)
  else mkDate (is_datetime t) (year t + 1) 1 1 (time t).

Definition add_days (n : nat) (t : DateLike) : DateLike := Nat.iter n next_day t.

(** A result that is no date makes [replace] and [+] raise. *)
Definition checked (t : DateLike) : option DateLike := if valid t then Some t else None.

(** [datetime + timedelta] for a timedelta that is not negative. *)
Definition add_time (t : DateLike) (us : Z) : DateLike :=
  let total := time t + us in
  add_days (Z.to_nat (total / us_per_day)) (mkDate (is_datetime t) (year t) (month t) (day t) (total mod us_per_day)).

(** ** [temporal.py] *)

Definition floor_to_granularity (value : DateLike) (granularity : string) : DateLike :=
  if is_datetime value then
    if bool_decide (granularity = "hour") then
      mkDate true (year value) (month value) (day value) (time value - time value mod us_per_hour)
    else if bool_decide (granularity = "day") then mkDate true (year value) (month value) (day value) 0
    else if bool_decide (granularity = "month") then mkDate true (year value) (month value) 1 0
    else if bool_decide (granularity = "year") then mkDate true (year value) 1 1 0
    else value
  else if bool_decide (granularity = "month") then mkDate false (year value) (month value) 1 (time value)
  else if bool_decide (granularity = "year") then mkDate false (year value) 1 1 (time value)
  else value.

(** [value.replace(year=year, month=month, day=1)] for the month after. *)
Definition next_month (value : DateLike) : DateLike :=
  let m := month value + 1 in
  mkDate (is_datetime value) (year value + (m - 1) / 12) ((m - 1) mod 12 + 1) 1 (time value).

Definition next_year (value : DateLike) : DateLike :=
  mkDate (is_datetime value) (year value + 1) 1 1 (time value).

Definition advance_granularity (value : DateLike) (granularity : string) : option DateLike :=
  if is_datetime value then
    if bool_decide (granularity = "hour") then checked (add_time value us_per_hour)
    else if bool_decide (granularity = "day") then checked (add_days 1 value)
    else if bool_decide (granularity = "week") then checked (add_days 7 value)
    else if bool_decide (granularity = "month") then checked (next_month value)
    else if bool_decide (granularity = "year") then checked (next_year value)
    else checked (add_days 1 value)
  else if bool_decide (granularity = "week") then checked (add_days 7 value)
  else if bool_decide (granularity = "month") then checked (next_month value)
  else if bool_decide (granularity = "year") then checked (next_year value)
  else checked (add_days 1 value).

(** ** The order of dates *)

Definition days_before_year (y : Z) : Z := let p := y - 1 in p * 365 + p / 4 - p / 100 + p / 400.

(** The table [_DAYS_BEFORE_MONTH] of the standard library, with its correction for leap years. *)
Definition days_before_month (y m : Z) : Z :=
  nth (Z.to_nat m) [0; 0; 31; 59; 90; 120; 151; 181; 212; 243; 273; 304; 334] 365
  + (if (2 <? m) && is_leap y then 1 else 0).

(** [toordinal] *)
Definition toordinal (t : DateLike) : Z := days_before_year (year t) + days_before_month (year t) (month t) + day t.

(** The position of a value in Python's order, in microseconds. *)
Definition rank (t : DateLike) : Z := toordinal t * us_per_day + time t.

Record valid_spec (t : DateLike) : Prop := {
  v_year : 1 ≤ year t ≤ 9999;
  v_month : 1 ≤ month t ≤ 12;
  v_day : 1 ≤ day t ≤ days_in_month (year t) (month t);
  v_time : 0 ≤ time t < us_per_day;
  v_date : is_datetime t = false → time t = 0;
}.

Lemma valid_iff t : valid t = true ↔ valid_spec t.
Proof.
  unfold valid. rewrite !andb_true_iff, !Z.leb_le, Z.ltb_lt, orb_true_iff, Z.eqb_eq. split.
  - intros ((((((((? & ?) & ?) & ?) & ?) & ?) & ?) & ?) & Hd). split; try lia. destruct Hd; congruence.
  - intros [? ? ? ? Hd]. split_and!; try lia. destruct (is_datetime t); auto.
Qed.

Lemma month_cases m : 1 ≤ m ≤ 12 → m ∈ [1; 2; 3; 4; 5; 6; 7; 8; 9; 10; 11; 12].
Proof. intros H. rewrite !elem_of_cons. lia. Qed.

(** A fact about each of the twelve months. *)
Ltac each_month m H :=
  apply month_cases in H; rewrite !elem_of_cons in H;
  repeat (destruct H as [->|H]; [|]); [..|by apply not_elem_of_nil in H].

Lemma days_before_year_succ y : days_before_year (y + 1) = days_before_year y + 365 + (if is_leap y then 1 else 0).
Proof.
  unfold days_before_year, is_leap. destruct (Z.eqb_spec (y mod 4) 0), (Z.eqb_spec (y mod 100) 0), (Z.eqb_spec (y mod 400) 0);
    cbn [andb orb negb]; Z.to_euclidean_division_equations; lia.
Qed.

Lemma days_before_month_succ y m :
  1 ≤ m ≤ 12 → days_before_month y m + days_in_month y m =
    if m <? 12 then days_before_month y (m + 1) else 365 + (if is_leap y then 1 else 0).
Proof. intros H. unfold days_before_month, days_in_month. each_month m H; by destruct (is_leap y). Qed.

Lemma days_before_month_bound y m : 1 ≤ m ≤ 12 →
  0 ≤ days_before_month y m ∧ days_before_month y m + days_in_month y m ≤ 365 + (if is_leap y then 1 else 0).
Proof. intros H. unfold days_before_month, days_in_month. each_month m H; by destruct (is_leap y). Qed.

Lemma days_in_month_pos y m : 28 ≤ days_in_month y m.
Proof. unfold days_in_month. destruct (_ =? _); [by destruct (is_leap y)|]. by case_bool_decide. Qed.

Lemma toordinal_next_day t : valid_spec t → toordinal (next_day t) = toordinal t + 1.
Proof.
  intros [_ Hm Hd _ _]. pose proof (days_before_month_succ (year t) _ Hm) as Hs. unfold next_day, toordinal.
  destruct (Z.ltb_spec (day t) (days_in_month (year t) (month t))); [cbn; lia|].
  destruct (Z.ltb_spec (month t) 12); cbn [year month day]; [lia|]. rewrite days_before_year_succ.
  change (days_before_month (year t + 1) 1) with 0. lia.
Qed.

(** A day later is a date, except after the last day of the last year. *)
Lemma next_day_valid t : valid_spec t → year (next_day t) ≤ 9999 → valid_spec (next_day t).
Proof.
  intros [Hy Hm Hd Ht Hf]. unfold next_day. destruct (Z.ltb_spec (day t) (days_in_month (year t) (month t))).
  { intros _. split; cbn [year month day time is_datetime]; [lia..|done]. }
  destruct (Z.ltb_spec (month t) 12); cbn [year]; intros Hle; split; cbn [year month day time is_datetime]; try done; try lia;
    match goal with |- 1 ≤ 1 ≤ ?d => pose proof (days_in_month_pos (year t) (month t + 1)); pose proof (days_in_month_pos (year t + 1) 1); lia end.
Qed.

Lemma next_day_year t : year t ≤ year (next_day t).
Proof. unfold next_day. destruct (_ <? _); [done|]. destruct (_ <? _); cbn; lia. Qed.

Lemma next_day_kind t : is_datetime (next_day t) = is_datetime t ∧ time (next_day t) = time t.
Proof. unfold next_day. destruct (_ <? _); [done|]. by destruct (_ <? _). Qed.

Lemma add_days_S n t : add_days (S n) t = next_day (add_days n t).
Proof. reflexivity. Qed.

Lemma add_days_kind n t : is_datetime (add_days n t) = is_datetime t ∧ time (add_days n t) = time t.
Proof.
  induction n as [|n [IH1 IH2]]; [done|]. rewrite add_days_S. destruct (next_day_kind (add_days n t)). split; congruence.
Qed.

(** Adding days either moves the ordinal by as many, or leaves the range of years. *)
Lemma add_days_spec n t :
  valid_spec t → valid_spec (add_days n t) ∧ toordinal (add_days n t) = toordinal t + Z.of_nat n ∨ 9999 < year (add_days n t).
Proof.
  intros Hv. induction n as [|n IH]; [left; change (add_days 0 t) with t; split; [done|lia]|]. rewrite add_days_S.
  destruct IH as [[Hn Ho]|Hy]; [|right; pose proof (next_day_year (add_days n t)); lia].
  destruct (Z.leb_spec (year (next_day (add_days n t))) 9999); [|by right]. left. split; [by apply next_day_valid|].
  rewrite toordinal_next_day by done. lia.
Qed.

Lemma checked_some t t' : checked t = Some t' → t' = t ∧ valid_spec t.
Proof. unfold checked. destruct (valid t) eqn:Hv; [|done]. intros [= <-]. split; [done|by apply valid_iff]. Qed.

Lemma us_per_day_eq : us_per_day = 86400000000.
Proof. reflexivity. Qed.

Lemma us_per_hour_eq : us_per_hour = 3600000000.
Proof. reflexivity. Qed.

Lemma checked_add_days n t t' :
  valid_spec t → checked (add_days n t) = Some t' → rank t' = rank t + Z.of_nat n * us_per_day ∧ time t' = time t ∧ is_datetime t' = is_datetime t.
Proof.
  intros Hv [-> Hc]%checked_some. destruct (add_days_kind n t) as [Hk Ht]. split; [|done].
  destruct (add_days_spec n t Hv) as [[_ Ho]|Hy]; [|destruct Hc as [? _ _ _ _]; lia].
  unfold rank. rewrite Ho, Ht, us_per_day_eq. lia.
Qed.

Lemma with_time_valid t x : valid_spec t → is_datetime t = true → 0 ≤ x < us_per_day →
  valid_spec (mkDate (is_datetime t) (year t) (month t) (day t) x).
Proof. intros [? ? ? ? ?] Hd Hx. split; cbn; try done. intros. congruence. Qed.

Lemma checked_add_time t us t' :
  valid_spec t → is_datetime t = true → 0 ≤ us → checked (add_time t us) = Some t' → rank t' = rank t + us ∧ is_datetime t' = true.
Proof.
  intros Hv Hd Hus Hc. pose proof us_per_day_eq as Hday. destruct (v_time t Hv) as [Ht0 Ht1].
  pose proof (Z.mod_pos_bound (time t + us) us_per_day ltac:(lia)) as Hmod.
  pose proof (Z.div_mod (time t + us) us_per_day ltac:(lia)) as Hdm.
  pose proof (Z.div_pos (time t + us) us_per_day ltac:(lia) ltac:(lia)) as Hpos.
  unfold add_time in Hc. apply checked_add_days in Hc as (Hr & _ & Hk); [|by apply with_time_valid].
  split; [|by rewrite Hk]. rewrite Hr, Z2Nat.id by done.
  unfold rank, toordinal. cbn [year month day time]. clear Hr Hk Hv. lia.
Qed.

Lemma next_month_ordinal t :
  valid_spec t → toordinal (next_month t) =
    days_before_year (year t) + days_before_month (year t) (month t) + days_in_month (year t) (month t) + 1.
Proof.
  intros [_ Hm _ _ _]. pose proof (days_before_month_succ (year t) _ Hm) as Hs. unfold next_month, toordinal. cbn [year month day].
  destruct (Z.ltb_spec (month t) 12).
  - replace ((month t + 1 - 1) / 12) with 0 by (symmetry; apply Z.div_small; lia).
    rewrite Z.mod_small by lia. replace (month t + 1 - 1 + 1) with (month t + 1) by lia. rewrite Z.add_0_r. lia.
  - assert (month t = 12) as E by lia. rewrite E in *. change ((12 + 1 - 1) / 12) with 1. change ((12 + 1 - 1) mod 12 + 1) with 1.
    rewrite days_before_year_succ. change (days_before_month (year t + 1) 1) with 0. lia.
Qed.

Lemma next_year_ordinal t : toordinal (next_year t) = days_before_year (year t) + 365 + (if is_leap (year t) then 1 else 0) + 1.
Proof.
  unfold next_year, toordinal. cbn [year month day]. rewrite days_before_year_succ.
  change (days_before_month (year t + 1) 1) with 0. lia.
Qed.

(** ** Granules *)

Definition same_kind (a b : DateLike) : Prop := is_datetime a = is_datetime b.

(** What each granularity does, for dates and datetimes at once. *)
Ltac by_granularity g :=
  destruct (bool_decide_reflect (g = "hour")) as [->|?];
  [|destruct (bool_decide_reflect (g = "day")) as [->|?];
   [|destruct (bool_decide_reflect (g = "week")) as [->|?];
    [|destruct (bool_decide_reflect (g = "month")) as [->|?];
     [|destruct (bool_decide_reflect (g = "year")) as [->|?]]]]].

Lemma first_of_month_ordinal t b x : valid_spec t → toordinal (mkDate b (year t) (month t) 1 x) ≤ toordinal t.
Proof. intros [_ _ Hd _ _]. unfold toordinal. cbn [year month day]. lia. Qed.

Lemma first_of_year_ordinal t b x : valid_spec t → toordinal (mkDate b (year t) 1 1 x) ≤ toordinal t.
Proof.
  intros [_ Hm Hd _ _]. pose proof (days_before_month_bound (year t) _ Hm). unfold toordinal. cbn [year month day].
  change (days_before_month (year t) 1) with 0. lia.
Qed.

Lemma rank_le a b : toordinal a ≤ toordinal b → time a ≤ time b → rank a ≤ rank b.
Proof. unfold rank. rewrite us_per_day_eq. lia. Qed.

Lemma hour_floor x : 0 ≤ x < us_per_day → 0 ≤ x - x mod us_per_hour ≤ x ∧ (x - x mod us_per_hour) mod us_per_hour = 0.
Proof. rewrite us_per_day_eq, us_per_hour_eq. intros H. Z.to_euclidean_division_equations. lia. Qed.

Lemma floor_spec t g : valid_spec t →
  valid_spec (floor_to_granularity t g) ∧ rank (floor_to_granularity t g) ≤ rank t ∧ same_kind (floor_to_granularity t g) t.
Proof.
  intros Hv. pose proof Hv as [Hy Hm Hd Ht Hf]. pose proof (hour_floor _ Ht) as [Hh _]. pose proof us_per_day_eq as Hday.
  assert (∀ y m, 1 ≤ 1 ≤ days_in_month y m) as H1 by (intros y m; pose proof (days_in_month_pos y m); lia).
  unfold floor_to_granularity, same_kind. destruct (is_datetime t) eqn:Ek; by_granularity g; cbn;
    (split_and!; [|(try done); apply rank_le; (try by apply first_of_month_ordinal); (try by apply first_of_year_ordinal);
                    cbn [time toordinal year month day]; (try done); lia|done]); try done; split; cbn; try done; try apply H1; lia.
Qed.

Lemma next_month_later t : valid_spec t → rank t + us_per_day ≤ rank (next_month t) ∧ time (next_month t) = time t.
Proof.
  intros Hv. split; [|done]. pose proof (next_month_ordinal t Hv) as Ho. pose proof (v_day t Hv).
  unfold rank. rewrite Ho. cbn [next_month time]. unfold toordinal. rewrite us_per_day_eq. lia.
Qed.

Lemma next_year_later t : valid_spec t → rank t + us_per_day ≤ rank (next_year t) ∧ time (next_year t) = time t.
Proof.
  intros Hv. split; [|done]. pose proof (next_year_ordinal t) as Ho. pose proof (v_day t Hv).
  pose proof (days_before_month_bound (year t) _ (v_month t Hv)).
  unfold rank. rewrite Ho. cbn [next_year time]. unfold toordinal. rewrite us_per_day_eq. lia.
Qed.

(** Advancing moves forward by an hour at least. *)
Lemma advance_spec t g e : valid_spec t → advance_granularity t g = Some e →
  valid_spec e ∧ rank t + us_per_hour ≤ rank e ∧ same_kind e t.
Proof.
  intros Hv. pose proof (next_month_later t Hv) as [Hmo _]. pose proof (next_year_later t Hv) as [Hye _].
  assert (∀ n, (1 ≤ n)%nat → checked (add_days n t) = Some e → valid_spec e ∧ rank t + us_per_hour ≤ rank e ∧ same_kind e t) as Hdays.
  { intros n Hn Hc. pose proof (checked_some _ _ Hc) as [He Hve]. apply checked_add_days in Hc as (Hr & _ & Hk); [|done].
    rewrite us_per_day_eq in Hr. rewrite us_per_hour_eq. subst e. split_and!; [done|lia|done]. }
  assert (checked (next_month t) = Some e → valid_spec e ∧ rank t + us_per_hour ≤ rank e ∧ same_kind e t) as Hmonth.
  { intros [-> He]%checked_some. rewrite us_per_day_eq in Hmo. rewrite us_per_hour_eq. split_and!; [done|lia|done]. }
  assert (checked (next_year t) = Some e → valid_spec e ∧ rank t + us_per_hour ≤ rank e ∧ same_kind e t) as Hyear.
  { intros [-> He]%checked_some. rewrite us_per_day_eq in Hye. rewrite us_per_hour_eq. split_and!; [done|lia|done]. }
  unfold advance_granularity. destruct (is_datetime t) eqn:Ek; by_granularity g; cbn [bool_decide decide];
    try (apply Hdays; lia); try exact Hmonth; try exact Hyear.
  intros Hc. pose proof (checked_some _ _ Hc) as [He Hve]. apply checked_add_time in Hc as (Hr & Hk); [|done..].
  subst e. split_and!; [done|lia|unfold same_kind; congruence].
Qed.

(** Where the granule of [t] ends: after [t]. *)
Lemma window_contains t g e : valid_spec t → advance_granularity (floor_to_granularity t g) g = Some e → rank t < rank e.
Proof.
  intros Hv. pose proof (floor_spec t g Hv) as (Hfv & _ & _). pose proof (v_time t Hv) as Ht. pose proof (v_day t Hv) as Hd.
  pose proof us_per_day_eq as Hday. pose proof us_per_hour_eq as Hhour.
  assert (∀ s, s = t → advance_granularity s g = Some e → rank t < rank e) as Hid.
  { intros s -> (_ & Hr & _)%advance_spec; [lia|done]. }
  revert Hfv. unfold floor_to_granularity at 1 2. destruct (is_datetime t) eqn:Ek; by_granularity g; cbn [bool_decide decide];
    intros Hfv; try (by apply Hid); unfold advance_granularity; cbn [is_datetime bool_decide decide]; intros Hc.
  - apply checked_add_time in Hc as (-> & _); [|done..]. unfold rank, toordinal. cbn [year month day time].
    pose proof (Z.mod_pos_bound (time t) us_per_hour ltac:(lia)). rewrite Hday. lia.
  - apply checked_add_days in Hc as (-> & _); [|done]. unfold rank, toordinal. cbn [year month day time]. rewrite Hday. lia.
  - apply checked_some in Hc as [-> _]. unfold rank at 2. rewrite next_month_ordinal by done. cbn [year month day time next_month].
    unfold rank, toordinal. rewrite Hday in *. lia.
  - apply checked_some in Hc as [-> _]. unfold rank at 2. rewrite next_year_ordinal. cbn [year month day time next_year].
    pose proof (days_before_month_bound (year t) _ (v_month t Hv)). unfold rank, toordinal. rewrite Hday in *. lia.
  - apply checked_some in Hc as [-> _]. unfold rank at 2. rewrite next_month_ordinal by done. cbn [year month day time next_month].
    pose proof (v_date t Hv Ek). unfold rank, toordinal. rewrite Hday in *. lia.
  - apply checked_some in Hc as [-> _]. unfold rank at 2. rewrite next_year_ordinal. cbn [year month day time next_year].
    pose proof (v_date t Hv Ek). pose proof (days_before_month_bound (year t) _ (v_month t Hv)). unfold rank, toordinal. rewrite Hday in *. lia.
Qed.

Lemma date_eta e b : is_datetime e = b → mkDate b (year e) (month e) (day e) (time e) = e.
Proof. intros <-. by destruct e. Qed.

Lemma add_time_time t us : time (add_time t us) = (time t + us) mod us_per_day.
Proof. unfold add_time. by destruct (add_days_kind (Z.to_nat ((time t + us) / us_per_day)) (mkDate (is_datetime t) (year t) (month t) (day t) ((time t + us) mod us_per_day))). Qed.

Lemma on_the_hour e : true = is_datetime e → time e mod us_per_hour = 0 →
  mkDate true (year e) (month e) (day e) (time e - time e mod us_per_hour) = e.
Proof. intros Hk ->. rewrite Z.sub_0_r. by apply date_eta. Qed.

Lemma at_midnight e : is_datetime e = true → time e = 0 → mkDate true (year e) (month e) (day e) 0 = e.
Proof. intros Hk <-. by apply date_eta. Qed.

(** The granule after that of [t] starts at a granule, weeks apart: those are counted from the smallest key. *)
Lemma window_aligned t g e :
  valid_spec t → g ≠ "week" → advance_granularity (floor_to_granularity t g) g = Some e → floor_to_granularity e g = e.
Proof.
  intros Hv Hw Ha. pose proof (floor_spec t g Hv) as (Hfv & _ & Hk). pose proof (advance_spec _ _ _ Hfv Ha) as (Hev & _ & Hke).
  unfold same_kind in *. rewrite <-Hke in Hk. symmetry in Hk. pose proof (hour_floor _ (v_time t Hv)) as [Hh0 Hh].
  revert Ha. unfold floor_to_granularity, advance_granularity. rewrite <-Hk.
  destruct (is_datetime t) eqn:Ek; by_granularity g; cbn [bool_decide decide]; try done; cbn [is_datetime]; rewrite ?Ek;
    intros [-> _]%checked_some; try done.
  - apply on_the_hour; [done|]. rewrite add_time_time. cbn [time].
    pose proof us_per_hour_eq as Hhour. pose proof us_per_day_eq as Hday. rewrite Hhour, Hday in *.
    clear -Hh Hh0. Z.to_euclidean_division_equations. lia.
  - pose proof (add_days_kind 1 (mkDate true (year t) (month t) (day t) 0)) as [Hb Hx]. cbn [time is_datetime] in Hb, Hx.
    by apply at_midnight.
Qed.

(** The granule of a date contains it: it starts at or before the date, and the next one, which is a
    granule again, starts after it, unless it would start after the year 9999. *)
Theorem granularity_windows t g e :
  valid t = true → advance_granularity (floor_to_granularity t g) g = Some e →
  valid (floor_to_granularity t g) = true ∧ valid e = true ∧
  rank (floor_to_granularity t g) ≤ rank t < rank e ∧ (g ≠ "week" → floor_to_granularity e g = e).
Proof.
  rewrite !valid_iff. intros Hv Ha. destruct (floor_spec t g Hv) as (Hfv & Hr & _).
  destruct (advance_spec _ _ _ Hfv Ha) as (Hev & _ & _). split_and!; [done..|by apply (window_contains t g)|].
  intros Hw. by apply (window_aligned t g).
Qed.

(** ** The key of a date column *)

(** A column holds dates, or it holds datetimes. *)
Definition date_key (datetimes : bool) : Type := {t : DateLike | valid t && eqb (is_datetime t) datetimes = true}.

(** The database a reader is connected to. *)
Class Connection := { connection_dialect : sql_dialect }.

Section DateKey.
Context {datetimes : bool}.

#[global] Instance date_key_eq_dec : EqDecision (date_key datetimes).
Proof. intros a b. destruct (decide (`a = `b)) as [E|E]; [left; by apply (sig_eq_pi _)|right; congruence]. Defined.

Lemma key_valid (k : date_key datetimes) : valid_spec (`k) ∧ is_datetime (`k) = datetimes.
Proof. destruct k as [t H]. cbn. apply andb_true_iff in H as [Hv Hk]. split; [by apply valid_iff|by apply eqb_prop]. Qed.

Definition key_of (t : DateLike) : option (date_key datetimes) :=
  match decide (valid t && eqb (is_datetime t) datetimes = true) with left H => Some (t ↾ H) | right _ => None end.

Lemma key_of_some t k : key_of t = Some k → `k = t.
Proof. unfold key_of. destruct (decide _); [|done]. by intros [= <-]. Qed.

Lemma floor_key_valid (k : date_key datetimes) g :
  valid (floor_to_granularity (`k) g) && eqb (is_datetime (floor_to_granularity (`k) g)) datetimes = true.
Proof.
  destruct (key_valid k) as [Hv Hk]. destruct (floor_spec _ g Hv) as (Hf & _ & Hs). unfold same_kind in Hs. rewrite Hs, Hk.
  apply andb_true_iff. split; [by apply valid_iff|apply eqb_reflx].
Qed.

Definition floor_key (k : date_key datetimes) (g : string) : date_key datetimes := floor_to_granularity (`k) g ↾ floor_key_valid k g.

Definition advance_key (k : date_key datetimes) (g : string) : option (date_key datetimes) :=
  advance_granularity (`k) g ≫= key_of.

(** [cursor + timedelta]: a date takes the whole days of the timedelta only. *)
Definition add_step_key (k : date_key datetimes) (us : Z) : option (date_key datetimes) :=
  checked (if datetimes then add_time (`k) us else add_days (Z.to_nat (us / us_per_day)) (`k)) ≫= key_of.

(** [timedelta(seconds=step)] for datetimes, [timedelta(days=step)] for dates. *)
Definition delta_of_param (p : param (date_key datetimes)) : Z :=
  match as_int p with Some n => n * (if datetimes then 1000000 else us_per_day) | None => 0 end.

Definition rank_le_key (a b : date_key datetimes) : bool := rank (`a) <=? rank (`b).

Lemma first_key_valid : valid (mkDate datetimes 1 1 1 0) && eqb (is_datetime (mkDate datetimes 1 1 1 0)) datetimes = true.
Proof. by destruct datetimes. Qed.

Definition first_key : date_key datetimes := mkDate datetimes 1 1 1 0 ↾ first_key_valid.

(** The driver returns dates and datetimes without an offset. *)
Definition value_of_key (k : date_key datetimes) : py_value :=
  if datetimes then PyDatetime (year (`k)) (month (`k)) (day (`k)) (time (`k)) None
  else PyDate (year (`k)) (month (`k)) (day (`k)).

(** The key of a column a value is compared as: the offset and, in a column of dates, the time are left out. *)
Definition fields_of_value (v : py_value) : option DateLike :=
  match v with
  | PyDate y m d => Some (mkDate datetimes y m d 0)
  | PyDatetime y m d us _ => Some (mkDate datetimes y m d (if datetimes then us else 0))
  | _ => None
  end.

Definition key_of_value (v : py_value) : date_key datetimes := default first_key (fields_of_value v ≫= key_of).

Lemma key_of_proj (k : date_key datetimes) t : t = `k → key_of t = Some k.
Proof.
  intros ->. unfold key_of. destruct (decide _) as [H|H]; [|destruct H; apply (proj2_sig k)]. f_equal. by apply (sig_eq_pi _).
Qed.

(** A date is its fields; one without a time has the time zero. *)
Lemma key_fields (k : date_key datetimes) :
  mkDate datetimes (year (`k)) (month (`k)) (day (`k)) (if datetimes then time (`k) else 0) = `k.
Proof.
  pose proof (proj2_sig k) as H. cbn beta in H. destruct (`k) as [dt y m d t]. cbn in *. apply andb_true_iff in H as [Hv ->%eqb_prop].
  destruct datetimes; [done|]. unfold valid in Hv. cbn in Hv. rewrite !andb_true_iff, Z.eqb_eq in Hv. destruct_and!. by subst.
Qed.

Lemma key_of_value_of_key k : key_of_value (value_of_key k) = k.
Proof.
  unfold key_of_value. assert (fields_of_value (value_of_key k) = Some (`k)) as ->; [|cbn; by rewrite (key_of_proj k)].
  pose proof (key_fields k) as E. unfold value_of_key, fields_of_value. revert E. generalize (`k). clear k. intros t E.
  destruct datetimes; by rewrite E.
Qed.

#[global] Instance date_sql_key {conn : Connection} : SqlKey (date_key datetimes) := {|
  sql_le := rank_le_key;
  py_le := rank_le_key;
  key_dialect := connection_dialect;
  key_value := value_of_key;
  of_value := key_of_value;
  key_hash k := match k with Some k => rank (`k) | None => 0 end;
  key_prefix _ _ k := k;
  key_str k := pretty (rank (`k));
|}.

Lemma numeric_value_of_key k : numeric (value_of_key k) = value_of_key k.
Proof. unfold value_of_key. by destruct datetimes. Qed.

Lemma equal_to_date_value v k : py_eq v (value_of_key k) = true → v = value_of_key k.
Proof.
  unfold py_eq. rewrite bool_decide_eq_true, numeric_value_of_key. unfold value_of_key.
  destruct datetimes, v; cbn; try done; by intros [= -> -> -> ->] || by intros [= -> -> ->].
Qed.

#[global] Instance date_sql_laws {conn : Connection} : SqlKeyLaws (date_key datetimes).
Proof.
  split; cbn.
  - unfold rank_le_key. intros a b. rewrite !Z.leb_le. lia.
  - unfold rank_le_key. intros a b c. rewrite !Z.leb_le. lia.
  - intros k v ->%equal_to_date_value. rewrite key_of_value_of_key. unfold rank_le_key. rewrite !Z.leb_le. lia.
Qed.

(** Dates have exact literals everywhere, datetimes wherever the time is not cut to seconds. *)
Lemma date_literals_exact {conn : Connection} (k : date_key datetimes) :
  connection_dialect ≠ ClickHouse ∨ datetimes = false → exact_key k.
Proof.
  intros H. apply exact_key_intro. cbn. unfold value_of_key. destruct datetimes; [|done]. destruct H as [H|H]; [|done].
  cbn. by destruct connection_dialect.
Qed.

Lemma date_same_order {conn : Connection} : same_order (date_key datetimes).
Proof. done. Qed.

(** Steps are whole numbers of microseconds; quantiles and booleans are not modes of date columns. *)
#[global] Instance date_grouping_env {conn : Connection} Row : GroupingEnv (date_key datetimes) Row := {|
  key_of_param p := match p with PaScalar k => k | _ => first_key end;
  key_of_bool _ := first_key;
  key_truthy _ := true;
  is_number p := match as_int p with Some _ => true | None => false end;
  Step := Z;
  step_of_param := delta_of_param;
  is_positive us := 0 <? us;
  in_unit_interval _ := false;
  add_step := add_step_key;
  steps_between a b us := ceil_quotient (rank (`b) - rank (`a)) us;
  even_step a b n := if 0 <? n then (rank (`b) - rank (`a)) / n else 0;
  unit_step := 1;
  quantile_values _ _ := [];
  percentile _ _ := PaNone;
  ReadGrouping.floor_to_granularity := floor_key;
  ReadGrouping.advance_granularity := advance_key;
  granularity_steps a b _ := Z.to_nat ((rank (`b) - rank (`a)) / us_per_hour + 1);
|}.

Lemma add_step_key_le k us k' : 0 ≤ us → add_step_key k us = Some k' → rank_le_key k k' = true.
Proof.
  intros Hus. unfold add_step_key. destruct (key_valid k) as [Hv Hk]. destruct (checked _) as [t|] eqn:Hc; [|done]. cbn.
  intros Hk'%key_of_some. apply Z.leb_le. rewrite Hk'. destruct datetimes.
  - apply checked_add_time in Hc as [-> _]; [lia|done..].
  - apply checked_add_days in Hc as [-> _]; [|done]. pose proof us_per_day_eq. lia.
Qed.

Lemma advance_key_later k g k' : advance_key k g = Some k' → rank (`k) + us_per_hour ≤ rank (`k').
Proof.
  unfold advance_key. destruct (key_valid k) as [Hv _]. destruct (advance_granularity (`k) g) as [t|] eqn:Ha; [|done]. cbn.
  intros ->%key_of_some. by apply advance_spec in Ha as (_ & ? & _).
Qed.

(** Advancing [i] times moves [i] hours forward at least. *)
Lemma advance_keys_later i (k : date_key datetimes) g k' :
  Nat.iter i (λ o, o ≫= λ k, advance_key k g) (Some k) = Some k' → rank (`k) + Z.of_nat i * us_per_hour ≤ rank (`k').
Proof.
  revert k'; induction i as [|i IH]; intros k'; [intros [= <-]; lia|]. rewrite Nat.iter_succ.
  destruct (Nat.iter i (λ o, o ≫= λ k, advance_key k g) (Some k)) as [x|]; [|done]. cbn. intros Ha%advance_key_later. specialize (IH x eq_refl). lia.
Qed.

#[global] Instance date_grouping_laws {conn : Connection} Row : GroupingLaws (date_key datetimes) Row.
Proof.
  split; cbn.
  - intros step c c' Hs%Z.ltb_lt. apply add_step_key_le. lia.
  - intros a b n c c' Hab%Z.leb_le. apply add_step_key_le. destruct (Z.ltb_spec 0 n); [apply Z.div_pos; lia|done].
  - done.
  - intros k g. apply Z.leb_le. destruct (key_valid k) as [Hv _]. by apply floor_spec.
  - intros k g k' Ha%advance_key_later. apply Z.leb_le. pose proof us_per_hour_eq. lia.
  - intros c m g. eexists. split; [done|]. destruct (Nat.iter _ _ (Some c)) as [k|] eqn:Hi; [|done].
    apply advance_keys_later in Hi. apply Z.leb_le. rewrite us_per_hour_eq in *. clear -Hi.
    Z.to_euclidean_division_equations. lia.
Qed.

End DateKey.
End Temporal.
