(* ===== verification/ReadRun.v ===== *)
(** * Database readers: concrete reads

    Rows with a nullable key and a value, sorted by merge sort; integer keys and the date keys of
    [ReadTemporal]. The theorems of [ReadExec] are applied to reads of such relations, and the cases
    the readers do not handle are shown on concrete relations. *)
From stdpp Require Import sorting.
From S2P Require Import Prelude PipelineTypes NodeKwargs ReadLiteral ReadTypes ReadPlan ReadGrouping ReadExec ReadTemporal.
Open Scope Z_scope.

Module ReadRuns.

(** ** Rows *)

Section Rows.
Context {Key : Type} {sk : SqlKey Key}.

Definition row : Type := option Key * Z.

(** NULL keys come first. *)
Definition row_le (a b : row) : Prop :=
  match a.1, b.1 with
  | None, _ => True
  | Some _, None => False
  | Some x, Some y => sql_le x y = true
  end.

#[global] Instance row_le_dec : RelDecision row_le.
Proof. intros [[x|] ?] [[y|] ?]; cbn; apply _. Defined.

#[global] Instance row_env : ReadEnv Key row Z := {|
  row_key r := r.1;
  order_by_key := merge_sort row_le;
  cast_row r := if r.2 =? 0 then None else Some r.2;
  cast_key k := k;
|}.

Context {laws : SqlKeyLaws Key}.

#[local] Instance row_le_trans : Transitive row_le.
Proof. intros [[x|] v1] [[y|] v2] [[w|] v3]; cbn; try done. apply sql_le_trans. Qed.

#[local] Instance row_le_total : Total row_le.
Proof. intros [[x|] ?] [[y|] ?]; cbn; auto. destruct (sql_le_total x y); auto. Qed.

#[global] Instance row_env_laws : ReadEnvLaws Key row Z.
Proof.
  split; cbn; intros rows; [apply merge_sort_Permutation|]. intros Hk.
  pose proof (StronglySorted_merge_sort row_le rows) as Hs. pose proof (merge_sort_Permutation row_le rows) as Hp.
  assert (∀ r, r ∈ merge_sort row_le rows → is_Some r.1) as Hk' by (intros r; rewrite Hp; apply Hk).
  clear Hk Hp. induction Hs as [|a l Hs IH Ha]; [constructor|]. destruct (Hk' a) as [x Hx]; [left|].
  assert (∀ r, r ∈ l → is_Some r.1) as Hl by (intros r Hr; apply Hk'; by right). cbn. rewrite Hx. constructor; [by apply IH|].
  apply Forall_forall. intros y (r & Hr & Hy)%list_elem_of_omap. rewrite Forall_forall in Ha.
  specialize (Ha r Hr). unfold row_le in Ha. by rewrite Hx, Hy in Ha.
Qed.

End Rows.

(** ** Integer keys *)

Definition integer : Type := Z.

#[global] Instance integer_sql_key : SqlKey integer := {|
  key_eq_dec := Z.eq_dec;
  sql_le := Z.leb;
  py_le := Z.leb;
  key_dialect := Postgres;
  key_value k := PyInt k;
  of_value v := match numeric v with PyInt n => n | _ => 0 end;
  key_hash k := match k with Some k => 7919 * k | None => 11 end;
  key_prefix _ _ k := k;
  key_str k := pretty k;
|}.

#[global] Instance integer_sql_laws : SqlKeyLaws integer.
Proof.
  split; cbn.
  - intros a b. rewrite !Z.leb_le. lia.
  - intros a b c. rewrite !Z.leb_le. lia.
  - intros k v E%bool_decide_eq_true. cbn in E. rewrite E, !Z.leb_le. lia.
Qed.

Lemma integer_literals_exact (k : integer) : exact_key k.
Proof. by apply exact_key_intro. Qed.

(** A percentile [i / k] is written as the pair of [i] and [k]. *)
Definition quantile_of (keys : list integer) (p : param integer) : option integer :=
  match p with
  | PaSeq [PaInt i; PaInt k] => keys !! Z.to_nat (i * Z.of_nat (length keys) / k)
  | _ => None
  end.

#[global] Instance integer_grouping_env : GroupingEnv integer (row (Key := integer)) := {|
  key_of_param p := match p with PaScalar k => k | PaInt n => n | PaBool b => Z.b2z b | _ => 0 end;
  key_of_bool := Z.b2z;
  key_truthy k := negb (k =? 0);
  is_number p := match p with PaInt _ | PaBool _ => true | _ => false end;
  Step := Z;
  step_of_param p := match p with PaInt n => n | PaBool b => Z.b2z b | _ => 0 end;
  is_positive s := 0 <? s;
  in_unit_interval p := match p with PaSeq [PaInt i; PaInt k] => (0 <? i) && (i <? k) | _ => false end;
  add_step k s := Some (k + s);
  steps_between a b s := ceil_quotient (b - a) s;
  even_step a b n := if 0 <? n then (b - a) / n else 0;
  unit_step := 1;
  quantile_values rel ps := quantile_of (ordered_keys rel) <$> ps;
  percentile i k := PaSeq [PaInt i; PaInt k];
  ReadGrouping.floor_to_granularity k _ := k;
  ReadGrouping.advance_granularity k _ := Some (k + 1);
  granularity_steps a b _ := Z.to_nat (b - a);
|}.

Lemma iter_succ_integer i (c : Z) : Nat.iter i (λ o, o ≫= λ k, Some (k + 1)) (Some c) = Some (c + Z.of_nat i).
Proof. induction i as [|i IH]; [cbn; f_equal; lia|]. rewrite Nat.iter_succ, IH. cbn. f_equal. lia. Qed.

#[global] Instance integer_grouping_laws : GroupingLaws integer (row (Key := integer)).
Proof.
  split; cbn.
  - intros step c c' Hs%Z.ltb_lt [= <-]. apply Z.leb_le. lia.
  - intros a b n c c' Hab%Z.leb_le [= <-]. apply Z.leb_le. destruct (Z.ltb_spec 0 n); [|lia].
    pose proof (Z.div_pos (b - a) n). lia.
  - done.
  - intros k _. apply Z.leb_le. lia.
  - intros k _ k' [= <-]. apply Z.leb_le. lia.
  - intros c m _. eexists. split; [done|]. rewrite iter_succ_integer. apply Z.leb_le. lia.
Qed.

(** ** Reads *)

Definition one_partition (n : Z) : Z := 1.

(** A connection to PostgreSQL. *)
#[local] Instance postgres : Temporal.Connection := {| Temporal.connection_dialect := Postgres |}.

(** Seven orders, in a table partitioned by a nullable date. *)
Definition on (y m d h : Z) : option (Temporal.date_key true) := Temporal.key_of (Temporal.mkDate true y m d (h * Temporal.us_per_hour)).

Definition orders : list (row (Key := Temporal.date_key true)) :=
  [(on 2024 2 29 23, 1); (None, 2); (on 2023 12 31 12, 3); (on 2024 1 1 0, 4); (on 2024 2 29 0, 5); (None, 6); (on 2023 11 5 7, 7)].

Definition by_month : PlanRequest (Key := Temporal.date_key true) :=
  mkRequest DATETIME (Some 3) None None (Some (mkSpec "granularity" [("granularity", PaStr "month")])) None.

(** Orders read by month: each month from the first, then the NULL keys. *)
Example orders_by_month : read_v3 one_partition by_month orders = Ok [7; 3; 4; 5; 1; 2; 6].
Proof. vm_compute. reflexivity. Qed.

Definition order_numbers : list (row (Key := integer)) :=
  [(Some 40, 1); (Some 3, 2); (Some 17, 3); (Some 3, 4); (Some 25, 5); (Some 8, 6); (Some 11, 7)].

Definition by_ranges : PlanRequest (Key := integer) := mkRequest NUMERIC (Some 3) (Some 6) None None None.

Definition range_plan : list (row (Key := integer)) * ReadV3Plan integer :=
  match build_plan one_partition by_ranges order_numbers with Ok res => res | Raise _ => ([], mkPlan RANGE [] [] 0 LiteralColumn 0 0) end.

Lemma granularity_windows_witness :
  Temporal.valid (Temporal.mkDate true 2024 2 29 0) = true ∧
  Temporal.rank (Temporal.mkDate true 2024 2 1 0) ≤ Temporal.rank (Temporal.mkDate true 2024 2 29 0)
    < Temporal.rank (Temporal.mkDate true 2024 3 1 0).
Proof.
  assert (Temporal.valid (Temporal.mkDate true 2024 2 29 0) = true) as Hv by (vm_compute; reflexivity).
  assert (Temporal.advance_granularity (Temporal.floor_to_granularity (Temporal.mkDate true 2024 2 29 0) "month") "month"
          = Some (Temporal.mkDate true 2024 3 1 0)) as Ha by (vm_compute; reflexivity).
  split; [exact Hv|]. exact (proj1 (proj2 (proj2 (Temporal.granularity_windows _ _ _ Hv Ha)))).
Defined.


Lemma planned_reads_succeed_witness : ∃ out, compute_frame range_plan.2 range_plan.1 = Ok out.
Proof.
  assert (build_plan one_partition by_ranges order_numbers = Ok (range_plan.1, range_plan.2)) as Hb by (vm_compute; reflexivity).
  assert (Forall (λ r, is_Some (cast_row r)) range_plan.1) as Hc by (vm_compute; repeat constructor; eauto).
  assert (Forall (λ s, Z.of_nat (length (selected range_plan.1 (rs_predicate s))) ≤ pl_max_rows_per_partition range_plan.2)
            (pl_segments range_plan.2)) as Hf.
  { apply (bool_decide_eq_true_1 _). vm_compute. reflexivity. }
  refine (planned_reads_succeed one_partition by_ranges order_numbers _ _ Hb _ _ _).
  - intros _. split; [exact integer_literals_exact|]. split; [intros a b|intros k]; reflexivity.
  - exact (proj1 (Forall_forall _ _) Hc).
  - exact (proj1 (Forall_forall _ _) Hf).
Defined.

Lemma estimate_bounds_witness :
  1 ≤ ae_npartitions (_finalize_estimate 5000 200 1000000 10000 (64 * 1048576) 512) ≤ 512.
Proof.
  pose proof (estimate_bounds 5000 200 1000000 10000 (64 * 1048576) 512 ltac:(lia) ltac:(lia) ltac:(lia)) as (H & _).
  cbv zeta in H. lia.
Defined.

(** ** What the readers do not handle *)

Definition grouped_by (kind : ValueKind) (mode : string) (params : pydict (param integer)) : PlanRequest (Key := integer) :=
  mkRequest kind (Some 2) None None (Some (mkSpec mode params)) None.

(** Keys that are all NULL are in the segment [__all__] and again in [__null__]. *)
Theorem null_keys_are_read_twice :
  read_v3 one_partition (grouped_by NUMERIC "step" [("step", PaInt 10)]) [(None, 1); (None, 2)] = Ok [1; 2; 1; 2].
Proof. vm_compute. reflexivity. Qed.

(** Ranges that are open on one side are rendered as [1 = 1]: each of them is the whole relation. *)
Theorem open_ranges_read_everything :
  read_v3 one_partition
    (grouped_by NUMERIC "ranges" [("ranges", PaSeq [PaSeq [PaNone; PaInt 10]; PaSeq [PaInt 10; PaNone]])])
    [(Some 5, 1); (Some 15, 2)] = Ok [1; 2; 1; 2].
Proof. vm_compute. reflexivity. Qed.

(** A boolean listed twice is read twice; other values are listed once. *)
Theorem repeated_bools_are_read_twice :
  read_v3 one_partition (grouped_by BOOL "explicit_values" [("values", PaSeq [PaBool true; PaStr "yes"])])
    [(Some 1, 1); (Some 0, 2)] = Ok [1; 1] ∧
  read_v3 one_partition (grouped_by STRING "explicit_values" [("values", PaSeq [PaInt 1; PaInt 1])])
    [(Some 1, 1); (Some 0, 2)] = Ok [1; 2].
Proof. vm_compute. split; reflexivity. Qed.

(** A key of December 9999, such as an end-of-time marker, has no month after it. *)
Theorem no_month_after_9999 :
  read_v3 one_partition by_month [(on 9999 5 1 0, 1); (on 9999 12 31 0, 2)] = Raise (ReadTypeError "year is out of range").
Proof. vm_compute. reflexivity. Qed.

(** The same column of a ClickHouse database, whose literals have whole seconds. *)
Definition clickhouse : Temporal.Connection := {| Temporal.connection_dialect := ClickHouse |}.

Definition at_us (us : Z) : option (Temporal.date_key true) := Temporal.key_of (Temporal.mkDate true 2024 2 29 us).

(** The last key of a range read is compared with its literal: a row after that second is not read. *)
Theorem clickhouse_subseconds_are_lost :
  read_v3 (sk := Temporal.date_sql_key (conn := clickhouse)) (env := row_env (sk := Temporal.date_sql_key (conn := clickhouse)))
    (genv := Temporal.date_grouping_env (conn := clickhouse) row) one_partition
    (mkRequest (Key := Temporal.date_key true) DATETIME None None None None None) [(at_us 1000000, 1); (at_us 2500000, 2)] = Ok [1] ∧
  read_v3 one_partition (mkRequest (Key := Temporal.date_key true) DATETIME None None None None None)
    [(at_us 1000000, 1); (at_us 2500000, 2)] = Ok [1; 2].
Proof. vm_compute. split; reflexivity. Qed.

End ReadRuns.
