(* ===== verification/EditStore.v ===== *)
(** * Graph editing: stored graphs and graph operations

    Models the rows of a project's graph ([src/modules/pipeline_graph/infra/db_models/]), the
    statements of [src/crud/graph/] on them, [mark_project_graph_dirty]
    ([src/crud/project/update.py]) and the use case that applies a batch of operations and starts
    the inference of metadata ([services/gateway/routes/project/graph/graph_operations.py]).

    A table is the dictionary of its rows by [ui_id], in the order the database returns them; all
    rows of a project belong to its owner. The use case runs in one transaction that locks the row of
    the project, so it is a function of the stored graph. Coordinates are only copied and compared:
    they are integers here. *)
From S2P Require Import Prelude PipelineTypes Graph NodeKwargs PipelineBuild.
Open Scope Z_scope.

(** ** Rows *)

Record Position := mkPosition { pos_x : Z; pos_y : Z }.

#[global] Instance Position_eq_dec : EqDecision Position.
Proof. solve_decision. Defined.

Record NodeRow := mkNodeRow {
  nr_type : string;
  nr_position : Position;
  nr_selected : bool;
  nr_name : string;
  nr_display_name : string;
  nr_comment : option string;
  nr_input_values : option (pydict NodeRuntimeInputValue);
  nr_store_enabled : option bool;
  nr_show_signal_io : bool;
  nr_show_variables_io : bool;
  nr_subgraph_id : option string;
}.

Record EdgeRow := mkEdgeRow {
  er_type : string;
  er_source : string;
  er_source_handle : option string;
  er_target : string;
  er_target_handle : option string;
  er_subgraph_id : option string;
}.

Record SubgraphRow := mkSubgraphRow {
  sg_type : string;
  sg_position : Position;
  sg_selected : bool;
  sg_expanded : bool;
  sg_name : string;
  sg_display_name : string;
  sg_color : option string;
  sg_comment : option string;
}.

(** The graph of a project, and the columns of the project that belong to it. *)
Record GraphDB := mkGraphDB {
  g_nodes : pydict NodeRow;
  g_edges : pydict EdgeRow;
  g_subgraphs : pydict SubgraphRow;
  g_revision : Z;
  g_dirty : list string;
}.

(** ** What the builder of pipelines reads of a row *)

(** A canonical payload, as it is stored. *)
Definition dump_input (v : NodeRuntimeInputValue) : PyValue :=
  let dump_link l := VDict [(KStr "__dvt_type", VStr "link"); (KStr "node_id", VStr (lv_node_id l));
                            (KStr "output_name", VStr (lv_output_name l))] in
  match v with
  | NodeInputExpressionValue value kind =>
      VDict [(KStr "__dvt_type", VStr "expr"); (KStr "value", VStr value); (KStr "expression_kind", VStr kind)]
  | NodeInputConstantValue value => VDict [(KStr "__dvt_type", VStr "const"); (KStr "value", value)]
  | NodeInputLink l => dump_link l
  | NodeInputLinks ls => VList (dump_link <$> ls)
  end.

Definition dump_inputs (inputs : pydict NodeRuntimeInputValue) : pydict PyValue :=
  (λ kv, (kv.1, dump_input kv.2)) <$> inputs.

Definition graph_node_record (item : string * NodeRow) : GraphNodeRecord :=
  mkGraphNode item.1 (nr_type item.2) (nr_name item.2)
    (match nr_input_values item.2 with Some inputs => Some (dump_inputs inputs) | None => None end)
    (default false (nr_store_enabled item.2)).

Definition graph_edge_record (item : string * EdgeRow) : GraphEdgeRecord :=
  mkGraphEdge (er_source item.2) (er_source_handle item.2) (er_target item.2) (er_target_handle item.2).

(** ** Patches: an option is a field that was sent *)

Record NodePatch := mkNodePatch {
  np_type : option string;
  np_subgraph_id : option (option string);
  np_position : option Position;
  np_selected : option bool;
  np_name : option string;
  np_display_name : option string;
  np_store_enabled : option (option bool);
  np_show_signal_io : option (option bool);
  np_show_variables_io : option (option bool);
  np_comment : option (option string);
  np_input_values : option (pydict NodeRuntimeInputValue);
}.

Record EdgePatch := mkEdgePatch {
  ep_type : option string;
  ep_subgraph_id : option (option string);
  ep_source : option string;
  ep_source_handle : option string;
  ep_target : option string;
  ep_target_handle : option string;
}.

Record SubgraphPatch := mkSubgraphPatch {
  sp_type : option string;
  sp_position : option Position;
  sp_selected : option bool;
  sp_expanded : option bool;
  sp_name : option string;
  sp_display_name : option string;
  sp_color : option (option string);
  sp_comment : option (option string);
}.

Record GraphOperationsAggregated := mkOperations {
  nodes_to_delete : list string;
  nodes_to_create : list (string * NodeRow);
  nodes_to_update : list (string * NodePatch);
  edges_to_delete : list string;
  edges_to_create : list (string * EdgeRow);
  edges_to_update : list (string * EdgePatch);
  subgraphs_to_delete : list string;
  subgraphs_to_create : list (string * SubgraphRow);
  subgraphs_to_update : list (string * SubgraphPatch);
}.

(** ** [src/crud/graph] *)

Inductive graph_exn :=
  | GraphIntegrityError
  | MetadataSearchDiverges.

(** [DELETE ... WHERE ui_id IN ids RETURNING ui_id] *)
Definition delete_rows {A} (ids : list string) (table : pydict A) : pydict A * list string :=
  (filter (λ kv, kv.1 ∉ ids) table, (filter (λ kv, kv.1 ∈ ids) table).*1).

(** [session.add_all(rows); flush()]: the pair of project and [ui_id] is unique. *)
Fixpoint create_rows {A} (rows : list (string * A)) (table : pydict A) : outcome graph_exn (pydict A) :=
  match rows with
  | [] => Ok table
  | (id, row) :: rows =>
      if dmem table id then Raise GraphIntegrityError else create_rows rows (dset table id row)
  end.

(** [UPDATE ... FROM (VALUES ...) v WHERE t.ui_id = v.ui_id RETURNING ui_id]; of several values for a
    row one is used. *)
Definition update_rows {A P} (f : P → A → A) (patches : list (string * P)) (table : pydict A)
    : pydict A * list string :=
  ((λ kv, (kv.1, match dget patches kv.1 with Some p => f p kv.2 | None => kv.2 end)) <$> table,
   (filter (λ kv, kv.1 ∈ patches.*1) table).*1).

Definition UNSET : string := "__DVT_UNSET__".

(** [COALESCE(v, t)] *)
Definition coalesce {A} (v : option A) (t : A) : A := default t v.
Definition coalesce_opt {A} (v t : option A) : option A := match v with Some _ => v | None => t end.

(** [_nullable_expr]: what was not sent arrives as [UNSET]. *)
Definition nullable_expr (v : option (option string)) (t : option string) : option string :=
  let sent := match v with Some x => x | None => Some UNSET end in
  if bool_decide (sent = Some UNSET) then t else sent.

(** [build_update_graph_nodes_stmt] *)
Definition update_graph_node (v : NodePatch) (t : NodeRow) : NodeRow :=
  mkNodeRow (coalesce (np_type v) (nr_type t)) (coalesce (np_position v) (nr_position t))
    (coalesce (np_selected v) (nr_selected t)) (coalesce (np_name v) (nr_name t))
    (coalesce (np_display_name v) (nr_display_name t)) (nullable_expr (np_comment v) (nr_comment t))
    (match np_input_values v with Some ((_ :: _) as inputs) => Some inputs | _ => nr_input_values t end)
    (coalesce_opt (mjoin (np_store_enabled v)) (nr_store_enabled t))
    (coalesce (mjoin (np_show_signal_io v)) (nr_show_signal_io t))
    (coalesce (mjoin (np_show_variables_io v)) (nr_show_variables_io t))
    (nullable_expr (np_subgraph_id v) (nr_subgraph_id t)).

(** [update_graph_edges] *)
Definition update_graph_edge (v : EdgePatch) (t : EdgeRow) : EdgeRow :=
  mkEdgeRow (coalesce (ep_type v) (er_type t)) (coalesce (ep_source v) (er_source t))
    (coalesce_opt (ep_source_handle v) (er_source_handle t)) (coalesce (ep_target v) (er_target t))
    (coalesce_opt (ep_target_handle v) (er_target_handle t)) (nullable_expr (ep_subgraph_id v) (er_subgraph_id t)).

(** [update_subgraphs] reads the attributes of a [SubgraphRecord], where [selected] and [expanded]
    have defaults. *)
Definition update_subgraph (v : SubgraphPatch) (t : SubgraphRow) : SubgraphRow :=
  mkSubgraphRow (coalesce (sp_type v) (sg_type t)) (coalesce (sp_position v) (sg_position t))
    (default false (sp_selected v)) (default true (sp_expanded v)) (coalesce (sp_name v) (sg_name t))
    (coalesce (sp_display_name v) (sg_display_name t)) (coalesce_opt (mjoin (sp_color v)) (sg_color t))
    (coalesce_opt (mjoin (sp_comment v)) (sg_comment t)).

(** ** Seeds *)

Definition is_unset {A} (o : option A) : bool := match o with None => true | Some _ => false end.

(** No field of [data] was sent. *)
Definition data_unset (p : NodePatch) : bool :=
  is_unset (np_name p) && is_unset (np_display_name p) && is_unset (np_store_enabled p)
  && is_unset (np_show_signal_io p) && is_unset (np_show_variables_io p) && is_unset (np_comment p)
  && is_unset (np_input_values p).

Definition _is_subgraph_only_node_patch (p : NodePatch) : bool :=
  is_unset (np_type p) && is_unset (np_position p) && is_unset (np_selected p) && data_unset p.

Definition _is_subgraph_only_edge_patch (p : EdgePatch) : bool :=
  is_unset (ep_type p) && is_unset (ep_source p) && is_unset (ep_source_handle p) && is_unset (ep_target p)
  && is_unset (ep_target_handle p).

Definition _node_patch_updates_input_values (p : NodePatch) : bool := negb (is_unset (np_input_values p)).

(** One of the fields [name], [inputValues] and [storeEnabled] was sent. *)
Definition computational_patch (p : NodePatch) : bool :=
  negb (is_unset (np_name p) && is_unset (np_input_values p) && is_unset (np_store_enabled p)).

Definition add_unique (l : list string) (x : string) : list string := if bool_decide (x ∈ l) then l else l ++ [x].

Definition _collect_metadata_seed_node_ids (payload : GraphOperationsAggregated) : list string :=
  let seeds := foldl (λ l item, if _node_patch_updates_input_values item.2 then add_unique l item.1 else l) []
                 (nodes_to_update payload) in
  foldl (λ l item, add_unique l (er_target item.2)) seeds (edges_to_create payload).

(** [sorted(set)] *)
Definition sorted_set (l : list string) : list string := merge_sort str_le (remove_dups l).

(** The targets a patch of an edge concerns: the old one, and the new one when it was sent. *)
Definition patched_targets (existing : pydict EdgeRow) (item : string * EdgePatch) : list string :=
  if _is_subgraph_only_edge_patch item.2 then []
  else match dget existing item.1 with Some e => [er_target e] | None => [] end
       ++ match ep_target item.2 with Some t => if str_truthy t then [t] else [] | None => [] end.

Definition computational_seeds (payload : GraphOperationsAggregated) (existing_edges : pydict EdgeRow) : list string :=
  _collect_metadata_seed_node_ids payload
  ++ (nodes_to_create payload).*1
  ++ (filter (λ item, computational_patch item.2 = true) (nodes_to_update payload)).*1
  ++ (er_target <$> dvals (filter (λ kv, er_source kv.2 ∈ nodes_to_delete payload) existing_edges))
  ++ (er_target <$> omap (dget existing_edges) (edges_to_delete payload))
  ++ (edges_to_update payload ≫= patched_targets existing_edges).

Definition _collect_computational_seed_node_ids (payload : GraphOperationsAggregated)
    (existing_edges : pydict EdgeRow) : list string :=
  sorted_set (filter (λ x, x ∉ nodes_to_delete payload) (computational_seeds payload existing_edges)).

Definition nonempty {A} (l : list A) : bool := match l with [] => false | _ => true end.

Definition _has_requested_computational_changes (payload : GraphOperationsAggregated) : bool :=
  nonempty (nodes_to_create payload) || nonempty (nodes_to_delete payload)
  || nonempty (edges_to_create payload) || nonempty (edges_to_delete payload)
  || existsb (λ item, negb (_is_subgraph_only_edge_patch item.2)) (edges_to_update payload)
  || existsb (λ item, computational_patch item.2) (nodes_to_update payload).

(** [mark_project_graph_dirty] *)
Definition mark_project_graph_dirty (node_ids removed_node_ids : list string) (db : GraphDB) : GraphDB :=
  mkGraphDB (g_nodes db) (g_edges db) (g_subgraphs db) (g_revision db + 1)
    (sorted_set (filter (λ x, x ∉ filter (λ y, str_truthy y = true) removed_node_ids) (g_dirty db)
                 ++ filter (λ y, str_truthy y = true) node_ids)).

(** ** [_process_graph_op_impl] *)

Record GraphOperationResponse := mkResponse {
  nodes_deleted : list string;
  nodes_created : list string;
  nodes_updated : list string;
  edges_deleted : list string;
  edges_created : list string;
  edges_updated : list string;
  subgraphs_deleted : list string;
  subgraphs_created : list string;
  subgraphs_updated : list string;
}.

(** The arguments of the task that infers metadata. *)
Record MetadataTask := mkMetadataTask { mt_target_nodes : list string; mt_changed_node_ids : list string }.

(** Before a subgraph is deleted, the references of nodes and edges to it are cleared. *)
Definition clear_node_subgraph (ids : list string) (row : NodeRow) : NodeRow :=
  match nr_subgraph_id row with
  | Some s =>
      if bool_decide (s ∈ ids) then
        mkNodeRow (nr_type row) (nr_position row) (nr_selected row) (nr_name row) (nr_display_name row) (nr_comment row)
          (nr_input_values row) (nr_store_enabled row) (nr_show_signal_io row) (nr_show_variables_io row) None
      else row
  | None => row
  end.

Definition clear_edge_subgraph (ids : list string) (row : EdgeRow) : EdgeRow :=
  match er_subgraph_id row with
  | Some s =>
      if bool_decide (s ∈ ids) then
        mkEdgeRow (er_type row) (er_source row) (er_source_handle row) (er_target row) (er_target_handle row) None
      else row
  | None => row
  end.

Definition in_subgraph (ids : list string) (s : option string) : bool :=
  match s with Some s => bool_decide (s ∈ ids) | None => false end.

Section Operations.
Context `{reg : NodeRegistry}.

(** The rows after all statements, and what each of them reported. *)
Definition run_statements (payload : GraphOperationsAggregated) (db : GraphDB)
    : outcome graph_exn (GraphDB * GraphOperationResponse * Z) :=
  subgraphs ← create_rows (subgraphs_to_create payload) (g_subgraphs db);
  let '(nodes, deleted) := delete_rows (nodes_to_delete payload) (g_nodes db) in
  nodes ← create_rows (nodes_to_create payload) nodes;
  let '(nodes, updated) := update_rows update_graph_node (nodes_to_update payload) nodes in
  let '(edges, e_deleted) := delete_rows (edges_to_delete payload) (g_edges db) in
  edges ← create_rows (edges_to_create payload) edges;
  let '(edges, e_updated) := update_rows update_graph_edge (edges_to_update payload) edges in
  let '(subgraphs, s_updated) := update_rows update_subgraph (subgraphs_to_update payload) subgraphs in
  let gone := subgraphs_to_delete payload in
  let cleared := Z.of_nat (length (filter (λ kv, in_subgraph gone (nr_subgraph_id kv.2) = true) nodes)
                           + length (filter (λ kv, in_subgraph gone (er_subgraph_id kv.2) = true) edges)) in
  let nodes := (λ kv, (kv.1, clear_node_subgraph gone kv.2)) <$> nodes in
  let edges := (λ kv, (kv.1, clear_edge_subgraph gone kv.2)) <$> edges in
  let '(subgraphs, s_deleted) := delete_rows gone subgraphs in
  Ok (mkGraphDB nodes edges subgraphs (g_revision db) (g_dirty db),
      mkResponse deleted (nodes_to_create payload).*1 updated e_deleted (edges_to_create payload).*1 e_updated
        s_deleted (subgraphs_to_create payload).*1 s_updated,
      cleared).

Definition _has_processed_graph_changes (r : GraphOperationResponse) (subgraph_reference_rows_cleared : Z) : bool :=
  nonempty (nodes_deleted r) || nonempty (nodes_created r) || nonempty (nodes_updated r)
  || nonempty (edges_deleted r) || nonempty (edges_created r) || nonempty (edges_updated r)
  || nonempty (subgraphs_deleted r) || nonempty (subgraphs_created r) || nonempty (subgraphs_updated r)
  || negb (subgraph_reference_rows_cleared =? 0).

(** The seeds of the inference: when all updated nodes are widgets, they are left out. *)
Definition metadata_seeds (payload : GraphOperationsAggregated) (nodes : pydict NodeRow) (updated : list string) : list string :=
  let seeds := _collect_metadata_seed_node_ids payload in
  if nonempty updated && negb (forallb (λ item, _is_subgraph_only_node_patch item.2) (nodes_to_update payload))
     && forallb (λ id, match dget nodes id with Some row => bool_decide (nr_type row = "widget") | None => false end) updated
  then filter (λ x, x ∉ updated) seeds
  else seeds.

Definition _process_graph_op_impl (payload : GraphOperationsAggregated) (db : GraphDB)
    : outcome graph_exn (GraphDB * GraphOperationResponse * option MetadataTask) :=
  let computational_seed_node_ids := _collect_computational_seed_node_ids payload (g_edges db) in
  res ← run_statements payload db;
  let '(db', r, cleared) := res in
  let seeds := metadata_seeds payload (g_nodes db') (nodes_updated r) in
  let changed := _has_processed_graph_changes r cleared && _has_requested_computational_changes payload in
  let db' := if changed then mark_project_graph_dirty computational_seed_node_ids (nodes_deleted r) db' else db' in
  if changed && nonempty seeds then
    match collect_affected_terminal_node_ids (graph_node_record <$> g_nodes db') (graph_edge_record <$> g_edges db') seeds with
    | Some [] => Ok (db', r, None)
    | Some targets => Ok (db', r, Some (mkMetadataTask targets seeds))
    | None => Raise MetadataSearchDiverges
    end
  else Ok (db', r, None).

End Operations.
