(* ===== verification/EditDirty.v ===== *)
(** * Graph editing: what a batch of operations marks as changed

    [_process_graph_op_impl] records in [dirty_node_ids] the nodes whose results may have changed; the
    next run recomputes them and what depends on them. The theorem of this file says that no change
    is missed but one: a node that is not marked has the class, the inputs, the storage flag and the
    incoming links it had before, unless the batch deleted and created it again under its id. *)
From S2P Require Import Prelude PipelineTypes Graph NodeKwargs PipelineBuild EditStore.
Open Scope Z_scope.

(** ** Tables *)

Section Tables.
Context {A : Type}.
Implicit Types (t : pydict A) (ids : list string).

Lemma dget_filter_key (P : string → Prop) `{∀ k, Decision (P k)} t id :
  dget (filter (λ kv, P kv.1) t) id = if decide (P id) then dget t id else None.
Proof.
  induction t as [|[k v] t IH]; [by destruct (decide (P id))|]. rewrite filter_cons. cbn [fst dget].
  destruct (decide (P k)) as [Hk|Hk]; cbn [dget].
  - destruct (decide (id = k)) as [->|]; [by rewrite decide_True|done].
  - rewrite IH. destruct (decide (id = k)) as [->|]; [by rewrite !(decide_False (P := P k))|done].
Qed.

Lemma dget_delete_rows ids t id : dget (delete_rows ids t).1 id = if decide (id ∈ ids) then None else dget t id.
Proof.
  etrans; [exact (dget_filter_key (λ k, k ∉ ids) t id)|].
  repeat case_decide; done || contradiction.
Qed.

Lemma dget_map_key {B} (f : string → A → B) t id : dget ((λ kv, (kv.1, f kv.1 kv.2)) <$> t) id = f id <$> dget t id.
Proof.
  induction t as [|[k v] t IH]; [done|]. cbn. destruct (decide (id = k)) as [->|]; [done|exact IH].
Qed.

Lemma dget_update_rows {P} (f : P → A → A) patches t id :
  dget (update_rows f patches t).1 id =
    (λ row, match dget patches id with Some p => f p row | None => row end) <$> dget t id.
Proof. exact (dget_map_key (λ k row, match dget patches k with Some p => f p row | None => row end) t id). Qed.

(** Created rows are new and stand behind the others. *)
Lemma dset_new t k v : k ∉ dkeys t → dset t k v = t ++ [(k, v)].
Proof.
  unfold dkeys. induction t as [|[k' v'] t IH]; [done|]. intros Hk. cbn [dset].
  rewrite decide_False by set_solver. cbn. f_equal. apply IH. set_solver.
Qed.

Lemma create_rows_spec rows t t' :
  create_rows rows t = Ok t' → t' = t ++ rows ∧ NoDup rows.*1 ∧ (∀ k, k ∈ rows.*1 → k ∉ dkeys t).
Proof.
  revert t; induction rows as [|[k v] rows IH]; intros t; cbn [create_rows].
  { intros [= <-]. split_and!; [by rewrite app_nil_r|constructor|by intros k ?%not_elem_of_nil]. }
  destruct (dmem t k) eqn:Hk; [done|]. unfold dmem in Hk. apply bool_decide_eq_false in Hk.
  intros (-> & Hnd & Hnew)%IH. rewrite dset_new in * by done. split_and!.
  - by rewrite <-app_assoc.
  - rewrite fmap_cons. constructor; [|done]. cbn [fst]. intros Hin. apply (Hnew k Hin). unfold dkeys. rewrite fmap_app. set_solver.
  - intros k' [->|Hin]%elem_of_cons; [done|]. specialize (Hnew k' Hin). unfold dkeys in *. rewrite fmap_app in Hnew. set_solver.
Qed.

Lemma dget_app t1 t2 k : dget (t1 ++ t2) k = match dget t1 k with Some v => Some v | None => dget t2 k end.
Proof. induction t1 as [|[k' v'] t1 IH]; [done|]. cbn. by destruct (decide (k = k')). Qed.

Lemma dget_not_key t k : k ∉ t.*1 → dget t k = None.
Proof. intros H. by apply dget_None. Qed.

End Tables.

(** ** What a node computes *)

Definition computation (row : NodeRow) : string * option (pydict NodeRuntimeInputValue) * option bool :=
  (nr_name row, nr_input_values row, nr_store_enabled row).

Definition link_content (e : EdgeRow) : string * option string * string * option string :=
  (er_source e, er_source_handle e, er_target e, er_target_handle e).

(** The links that reach node [id]. *)
Definition incoming (edges : pydict EdgeRow) (id : string) : list (string * option string * string * option string) :=
  link_content <$> dvals (filter (λ kv, er_target kv.2 = id) edges).

Lemma patch_keeps_computation p row :
  computational_patch p = false → computation (update_graph_node p row) = computation row.
Proof.
  unfold computational_patch, computation, update_graph_node. intros H%negb_false_iff. rewrite !andb_true_iff in H.
  destruct p as [? ? ? ? [] ? [] ? ? ? []], H as [[H1 H2] H3]; try done.
Qed.

Lemma subgraph_patch_keeps_link p e : _is_subgraph_only_edge_patch p = true → link_content (update_graph_edge p e) = link_content e.
Proof.
  unfold _is_subgraph_only_edge_patch, link_content, update_graph_edge. rewrite !andb_true_iff.
  destruct p as [[] ? [] [] [] []]; cbn; naive_solver.
Qed.

Lemma clear_node_keeps_computation ids row : computation (clear_node_subgraph ids row) = computation row.
Proof. unfold clear_node_subgraph. destruct (nr_subgraph_id row); [|done]. by destruct (bool_decide _). Qed.

Lemma clear_edge_keeps_link ids e : link_content (clear_edge_subgraph ids e) = link_content e.
Proof. unfold clear_edge_subgraph. destruct (er_subgraph_id e); [|done]. by destruct (bool_decide _). Qed.

(** ** Incoming links under each statement *)

Lemma incoming_app t1 t2 id : incoming (t1 ++ t2) id = incoming t1 id ++ incoming t2 id.
Proof. unfold incoming, dvals. by rewrite filter_app, !fmap_app. Qed.

Lemma incoming_none t id : (∀ k e, (k, e) ∈ t → er_target e ≠ id) → incoming t id = [].
Proof.
  induction t as [|[k e] t IH]; intros H; [done|]. unfold incoming in *. rewrite filter_cons, decide_False.
  - apply IH. intros k' e' Hin. apply (H k'). by right.
  - apply (H k). left.
Qed.

Lemma incoming_delete ids t id :
  (∀ k e, (k, e) ∈ t → k ∈ ids → er_target e ≠ id) → incoming (delete_rows ids t).1 id = incoming t id.
Proof.
  unfold delete_rows. cbn [fst]. induction t as [|[k e] t IH]; intros H; [done|].
  assert (incoming (filter (λ kv, kv.1 ∉ ids) t) id = incoming t id) as IH'.
  { apply IH. intros k' e' Hin. apply H. by right. }
  rewrite filter_cons. cbn [fst]. change ((k, e) :: t) with ([(k, e)] ++ t). rewrite incoming_app, <-IH'.
  destruct (decide (k ∉ ids)) as [Hk|Hk].
  - change ((k, e) :: filter (λ kv, kv.1 ∉ ids) t) with ([(k, e)] ++ filter (λ kv, kv.1 ∉ ids) t). by rewrite incoming_app.
  - rewrite (incoming_none [(k, e)]); [done|]. intros k' e' [= -> ->]%list_elem_of_singleton.
    apply (H k); [left|]. destruct (decide (k ∈ ids)); [done|contradiction].
Qed.

Lemma incoming_map (f : string → EdgeRow → EdgeRow) t id :
  (∀ k e, (k, e) ∈ t → link_content (f k e) = link_content e ∨ (er_target e ≠ id ∧ er_target (f k e) ≠ id)) →
  incoming ((λ kv, (kv.1, f kv.1 kv.2)) <$> t) id = incoming t id.
Proof.
  induction t as [|[k e] t IH]; intros H; [done|]. rewrite fmap_cons. cbn [fst snd].
  change ((k, e) :: t) with ([(k, e)] ++ t).
  change ((k, f k e) :: ((λ kv, (kv.1, f kv.1 kv.2)) <$> t)) with ([(k, f k e)] ++ ((λ kv, (kv.1, f kv.1 kv.2)) <$> t)).
  rewrite !incoming_app, IH by (intros k' e' Hin; apply H; by right). f_equal.
  destruct (H k e ltac:(left)) as [Hc|[H1 H2]].
  - unfold incoming, link_content in *. rewrite !filter_cons. cbn [snd]. injection Hc as E1 E2 E3 E4. rewrite E3.
    destruct (decide _); [|done]. cbn. by rewrite E1, E2, E3, E4.
  - rewrite !incoming_none; [done| |]; by intros k' e' [= -> ->]%list_elem_of_singleton.
Qed.

(** ** Nodes no operation touches *)

Record untouched (payload : GraphOperationsAggregated) (db : GraphDB) (id : string) : Prop := {
  ut_created : id ∉ (nodes_to_create payload).*1;
  ut_node : ∀ p, dget (nodes_to_update payload) id = Some p → computational_patch p = false;
  ut_deleted k e : dget (g_edges db) k = Some e → k ∈ edges_to_delete payload → er_target e ≠ id;
  ut_linked k e : (k, e) ∈ edges_to_create payload → er_target e ≠ id;
  ut_patched k p : dget (edges_to_update payload) k = Some p →
    k ∈ dkeys (g_edges db) ∨ k ∈ (edges_to_create payload).*1 →
    _is_subgraph_only_edge_patch p = true ∨
    ((∀ e, dget (g_edges db) k = Some e → er_target e ≠ id) ∧ ep_target p ≠ Some id);
}.

(** Inverting [run_statements]. *)
Lemma run_statements_inv payload db db' r cleared :
  run_statements payload db = Ok (db', r, cleared) →
  ∃ subgraphs nodes edges,
    create_rows (subgraphs_to_create payload) (g_subgraphs db) = Ok subgraphs ∧
    create_rows (nodes_to_create payload) (delete_rows (nodes_to_delete payload) (g_nodes db)).1 = Ok nodes ∧
    create_rows (edges_to_create payload) (delete_rows (edges_to_delete payload) (g_edges db)).1 = Ok edges ∧
    db' = mkGraphDB
      ((λ kv, (kv.1, clear_node_subgraph (subgraphs_to_delete payload) kv.2))
         <$> (update_rows update_graph_node (nodes_to_update payload) nodes).1)
      ((λ kv, (kv.1, clear_edge_subgraph (subgraphs_to_delete payload) kv.2))
         <$> (update_rows update_graph_edge (edges_to_update payload) edges).1)
      (delete_rows (subgraphs_to_delete payload) (update_rows update_subgraph (subgraphs_to_update payload) subgraphs).1).1
      (g_revision db) (g_dirty db) ∧
    nodes_deleted r = (delete_rows (nodes_to_delete payload) (g_nodes db)).2 ∧
    nodes_created r = (nodes_to_create payload).*1 ∧
    nodes_updated r = (update_rows update_graph_node (nodes_to_update payload) nodes).2 ∧
    edges_deleted r = (delete_rows (edges_to_delete payload) (g_edges db)).2 ∧
    edges_created r = (edges_to_create payload).*1 ∧
    edges_updated r = (update_rows update_graph_edge (edges_to_update payload) edges).2.
Proof.
  unfold run_statements. destruct (create_rows (subgraphs_to_create payload) _) as [subgraphs|] eqn:Es; [|done].
  cbn [mbind outcome_bind]. destruct (delete_rows (nodes_to_delete payload) (g_nodes db)) as [n1 n2] eqn:En.
  destruct (create_rows (nodes_to_create payload) n1) as [nodes|] eqn:Ec; [|done]. cbn [mbind outcome_bind].
  destruct (delete_rows (edges_to_delete payload) (g_edges db)) as [e1 e2] eqn:Ee.
  destruct (create_rows (edges_to_create payload) e1) as [edges|] eqn:Ed; [|destruct (update_rows _ _ nodes); done].
  destruct (update_rows update_graph_node (nodes_to_update payload) nodes) as [n3 n4] eqn:En3. cbn [mbind outcome_bind].
  destruct (update_rows update_graph_edge (edges_to_update payload) edges) as [e3 e4] eqn:Ee3.
  destruct (update_rows update_subgraph (subgraphs_to_update payload) subgraphs) as [s3 s4] eqn:Es3.
  destruct (delete_rows (subgraphs_to_delete payload) s3) as [s5 s6] eqn:Es5.
  intros [= <- <- <-]. exists subgraphs, nodes, edges. rewrite En3, Ee3, Es3. cbn [fst snd]. rewrite Es5. by split_and!.
Qed.

Lemma untouched_node payload db db' r cleared id row' :
  run_statements payload db = Ok (db', r, cleared) → untouched payload db id → dget (g_nodes db') id = Some row' →
  (id ∉ nodes_to_delete payload) ∧ ∃ row, dget (g_nodes db) id = Some row ∧ computation row' = computation row.
Proof.
  intros (subgraphs & nodes & edges & _ & Hn & _ & -> & _)%run_statements_inv Hu. cbn [g_nodes].
  rewrite (dget_map_key (λ _, clear_node_subgraph (subgraphs_to_delete payload))), dget_update_rows.
  apply create_rows_spec in Hn as (-> & _ & _). rewrite dget_app, dget_delete_rows, (dget_not_key (nodes_to_create payload)) by apply Hu.
  destruct (decide (id ∈ nodes_to_delete payload)) as [|Hd]; [done|]. destruct (dget (g_nodes db) id) as [row|]; [|done].
  cbn. intros [= <-]. split; [done|]. exists row. split; [done|]. rewrite clear_node_keeps_computation.
  destruct (dget (nodes_to_update payload) id) as [p|] eqn:Hp; [|done]. by apply patch_keeps_computation, Hu.
Qed.

Lemma untouched_links payload db db' r cleared id :
  dwf (g_edges db) → run_statements payload db = Ok (db', r, cleared) → untouched payload db id →
  incoming (g_edges db') id = incoming (g_edges db) id.
Proof.
  intros Hwf (subgraphs & nodes & edges & _ & _ & He & -> & _)%run_statements_inv Hu. cbn [g_edges].
  rewrite (incoming_map (λ _, clear_edge_subgraph (subgraphs_to_delete payload))) by (intros k e _; left; apply clear_edge_keeps_link).
  apply create_rows_spec in He as (-> & _ & _). unfold update_rows. cbn [fst].
  rewrite (incoming_map (λ k row, match dget (edges_to_update payload) k with Some p => update_graph_edge p row | None => row end)).
  - rewrite incoming_app, (incoming_none (edges_to_create payload)), app_nil_r by (intros k e; apply (ut_linked _ _ _ Hu)).
    apply incoming_delete. intros k e Hin. apply (ut_deleted _ _ _ Hu). by apply elem_of_dget.
  - intros k e Hin. destruct (dget (edges_to_update payload) k) as [p|] eqn:Hp; [|by left].
    assert (k ∈ dkeys (g_edges db) ∧ dget (g_edges db) k = Some e ∨ (k, e) ∈ edges_to_create payload) as Hk.
    { apply elem_of_app in Hin as [Hin|Hin]; [left|by right]. unfold delete_rows in Hin. cbn [fst] in Hin.
      apply list_elem_of_filter in Hin as [_ Hin]. split; [apply list_elem_of_fmap; by exists (k, e)|by apply elem_of_dget]. }
    destruct (ut_patched _ _ _ Hu k p Hp) as [Hs|[Hold Hnew]].
    + destruct Hk as [[Hk _]|Hk]; [by left|right]. apply list_elem_of_fmap. by exists (k, e).
    + left. by apply subgraph_patch_keeps_link.
    + right. assert (er_target e ≠ id) as Ht by (destruct Hk as [[_ Hk]|Hk]; [by apply Hold|by apply (ut_linked _ _ _ Hu k)]).
      split; [done|]. cbn. destruct (ep_target p); cbn; congruence.
Qed.

(** ** When a node is untouched *)

Lemma elem_of_add_unique l x y : y ∈ add_unique l x ↔ y ∈ l ∨ y = x.
Proof. unfold add_unique. case_bool_decide; set_solver. Qed.

(** What a loop adds to a list of unique ids. *)
Lemma elem_of_fold_unique {A} (f : A → option string) (l : list A) acc x :
  x ∈ foldl (λ l a, match f a with Some y => add_unique l y | None => l end) acc l ↔ x ∈ acc ∨ ∃ a, a ∈ l ∧ f a = Some x.
Proof.
  revert acc; induction l as [|a l IH]; intros acc; cbn [foldl].
  - split; [by left|]. intros [?|(a & H & _)]; [done|by apply not_elem_of_nil in H].
  - rewrite IH. destruct (f a) as [y|] eqn:Hf; [rewrite elem_of_add_unique|]; split.
    + intros [[?| ->]|(b & Hb & ?)]; [by left|right; exists a; split; [left|done]|right; exists b; split; [by right|done]].
    + intros [?|(b & [->|Hb]%elem_of_cons & Hx)]; [by left; left|left; right; congruence|right; by exists b].
    + intros [?|(b & Hb & ?)]; [by left|right; exists b; split; [by right|done]].
    + intros [?|(b & [->|Hb]%elem_of_cons & Hx)]; [by left|congruence|right; by exists b].
Qed.

Lemma metadata_seeds_link payload k e : (k, e) ∈ edges_to_create payload → er_target e ∈ _collect_metadata_seed_node_ids payload.
Proof.
  intros Hin. unfold _collect_metadata_seed_node_ids.
  apply (elem_of_fold_unique (λ item : string * EdgeRow, Some (er_target item.2))). right. by exists (k, e).
Qed.

Lemma no_seed_untouched payload db id :
  id ≠ "" → id ∉ computational_seeds payload (g_edges db) → untouched payload db id.
Proof.
  intros Hne Hs. unfold computational_seeds in Hs. rewrite !elem_of_app in Hs.
  assert (∀ k e, (k, e) ∈ edges_to_create payload → er_target e ≠ id) as Hlink.
  { intros k e Hin <-. apply Hs. left. by apply (metadata_seeds_link payload k). }
  split.
  - tauto.
  - intros p Hp. destruct (computational_patch p) eqn:Hc; [|done]. exfalso. apply Hs. do 2 right. left.
    apply list_elem_of_fmap. exists (id, p). split; [done|]. apply list_elem_of_filter. split; [done|by apply dget_elem_of].
  - intros k e He Hd <-. apply Hs. do 4 right. left. apply list_elem_of_fmap. exists e. split; [done|].
    apply list_elem_of_omap. by exists k.
  - done.
  - intros k p Hp Hk. destruct (_is_subgraph_only_edge_patch p) eqn:Ho; [by left|right].
    assert (∀ x, x ∈ patched_targets (g_edges db) (k, p) → x ≠ id) as Hx.
    { intros x Hx ->. apply Hs. do 5 right. apply list_elem_of_bind. exists (k, p). split; [done|by apply dget_elem_of]. }
    unfold patched_targets in Hx. cbn [fst snd] in Hx. rewrite Ho in Hx. split.
    + intros e He. apply Hx. rewrite He. set_solver.
    + destruct (ep_target p) as [t|]; [|done]. intros [= ->]. apply (Hx id); [|done].
      unfold str_truthy. rewrite bool_decide_eq_false_2 by done. set_solver.
Qed.

Lemma nonempty_false {A} (l : list A) : nonempty l = false → l = [].
Proof. by destruct l. Qed.

Lemma not_requested_untouched payload db id :
  _has_requested_computational_changes payload = false → untouched payload db id.
Proof.
  unfold _has_requested_computational_changes. rewrite !orb_false_iff. intros (((((H1 & H2) & H3) & H4) & H5) & H6).
  apply nonempty_false in H1, H2, H3, H4. split.
  - rewrite H1. set_solver.
  - intros p Hp%dget_elem_of. destruct (computational_patch p) eqn:Hc; [|done]. exfalso.
    apply not_true_iff_false in H6. apply H6, existsb_exists. exists (id, p). split; [by apply list_elem_of_In|done].
  - intros k e _. rewrite H4. by intros ?%not_elem_of_nil.
  - intros k e. rewrite H3. by intros ?%not_elem_of_nil.
  - intros k p Hp%dget_elem_of _. left. destruct (_is_subgraph_only_edge_patch p) eqn:Hc; [done|]. exfalso.
    apply not_true_iff_false in H5. apply H5, existsb_exists. exists (k, p). split; [by apply list_elem_of_In|cbn; by rewrite Hc].
Qed.

Lemma not_processed_untouched payload db db' r cleared id row' :
  run_statements payload db = Ok (db', r, cleared) → _has_processed_graph_changes r cleared = false →
  dget (g_nodes db') id = Some row' → untouched payload db id.
Proof.
  intros (subgraphs & nodes & edges & _ & Hn & He & -> & R1 & R2 & R3 & R4 & R5 & R6)%run_statements_inv.
  unfold _has_processed_graph_changes. rewrite !orb_false_iff. intros (((((((((H1 & H2) & H3) & H4) & H5) & H6) & _) & _) & _) & _).
  apply nonempty_false in H1, H2, H3, H4, H5, H6. rewrite H2 in R2. rewrite H5 in R5.
  symmetry in R2, R5. apply fmap_nil_inv in R2, R5. cbn [g_nodes].
  rewrite (dget_map_key (λ _, clear_node_subgraph (subgraphs_to_delete payload))), dget_update_rows. intros Hrow.
  rewrite H3 in R3. symmetry in R3. apply fmap_nil_inv in R3. rewrite H6 in R6. symmetry in R6. apply fmap_nil_inv in R6.
  rewrite H4 in R4. symmetry in R4. apply fmap_nil_inv in R4.
  split.
  - rewrite R2. set_solver.
  - intros p Hp. exfalso. destruct (dget nodes id) as [row|] eqn:Hd; [|done]. apply (not_elem_of_nil (id, row)). rewrite <-R3.
    apply list_elem_of_filter. split; [|by apply dget_elem_of]. cbn. apply dget_is_Some. eauto.
  - intros k e Hk Hd. exfalso. apply (not_elem_of_nil (k, e)). rewrite <-R4. apply list_elem_of_filter. split; [done|by apply dget_elem_of].
  - intros k e. rewrite R5. by intros ?%not_elem_of_nil.
  - intros k p Hp Hk. exfalso. rewrite R5 in Hk. destruct Hk as [Hk|Hk]; [|by apply not_elem_of_nil in Hk].
    apply create_rows_spec in He as (-> & _ & _). rewrite R5, app_nil_r in R6.
    apply dget_is_Some in Hk as [e Hk]. apply (not_elem_of_nil (k, e)). rewrite <-R6. apply list_elem_of_filter.
    split; [cbn; apply dget_is_Some; eauto|]. unfold delete_rows. cbn [fst]. apply list_elem_of_filter. split; [|by apply dget_elem_of].
    intros Hd. apply (not_elem_of_nil (k, e)). rewrite <-R4. apply list_elem_of_filter. split; [done|by apply dget_elem_of].
Qed.

Lemma elem_of_sorted_set l x : x ∈ sorted_set l ↔ x ∈ l.
Proof. unfold sorted_set. by rewrite merge_sort_Permutation, elem_of_remove_dups. Qed.

Section Dirty.
Context `{reg : NodeRegistry}.

(** Inverting [_process_graph_op_impl]. *)
Lemma process_graph_op_inv payload db db' r task :
  _process_graph_op_impl payload db = Ok (db', r, task) →
  ∃ stored cleared, run_statements payload db = Ok (stored, r, cleared) ∧
    db' = if _has_processed_graph_changes r cleared && _has_requested_computational_changes payload
          then mark_project_graph_dirty (_collect_computational_seed_node_ids payload (g_edges db)) (nodes_deleted r) stored
          else stored.
Proof.
  unfold _process_graph_op_impl. destruct (run_statements payload db) as [[[stored r'] cleared]|] eqn:Hr; [|done].
  cbn [mbind outcome_bind]. intros H. exists stored, cleared.
  destruct (_has_processed_graph_changes r' cleared && _has_requested_computational_changes payload) eqn:Hc; cbn [andb] in H;
    [|injection H as <- <- <-; by rewrite Hc].
  destruct (nonempty _); [|injection H as <- <- <-; by rewrite Hc].
  destruct (collect_affected_terminal_node_ids _ _ _) as [[|t ts]|]; simplify_eq; by rewrite Hc.
Qed.

(** C33. A node with a non-empty id that is stored and not marked dirty after a batch of operations either
    was deleted and created again by this very batch, a case the marks miss, or was not dirty before and
    has the class, inputs, storage flag and incoming links it had before. *)
Theorem unmarked_nodes_are_unchanged payload db db' r task id row' :
  dwf (g_edges db) → id ≠ "" →
  _process_graph_op_impl payload db = Ok (db', r, task) → dget (g_nodes db') id = Some row' → id ∉ g_dirty db' →
  (id ∈ (nodes_to_create payload).*1 ∧ id ∈ nodes_to_delete payload) ∨
  (id ∉ g_dirty db) ∧ ∃ row, dget (g_nodes db) id = Some row ∧ computation row' = computation row ∧
    incoming (g_edges db') id = incoming (g_edges db) id.
Proof.
  intros Hwf Hne (stored & cleared & Hr & ->)%process_graph_op_inv Hrow Hd.
  destruct (decide (id ∈ (nodes_to_create payload).*1 ∧ id ∈ nodes_to_delete payload)) as [|Hnew]; [by left|right].
  set (changed := _has_processed_graph_changes r cleared && _has_requested_computational_changes payload) in *.
  assert (g_nodes (if changed then mark_project_graph_dirty (_collect_computational_seed_node_ids payload (g_edges db)) (nodes_deleted r) stored else stored) = g_nodes stored) as En by (by destruct changed).
  assert (g_edges (if changed then mark_project_graph_dirty (_collect_computational_seed_node_ids payload (g_edges db)) (nodes_deleted r) stored else stored) = g_edges stored) as Ee by (by destruct changed).
  rewrite Ee. rewrite En in Hrow. clear En Ee.
  assert (g_dirty stored = g_dirty db) as Eg by (by apply run_statements_inv in Hr as (? & ? & ? & _ & _ & _ & -> & _)).
  assert (id ∉ nodes_to_delete payload) as Hkeep.
  { intros Hdel. apply run_statements_inv in Hr as (sg & nodes & edges & _ & Hn & _ & -> & _). cbn [g_nodes] in Hrow.
    rewrite (dget_map_key (λ _, clear_node_subgraph (subgraphs_to_delete payload))), dget_update_rows in Hrow.
    apply create_rows_spec in Hn as (-> & _ & _). rewrite dget_app, dget_delete_rows, decide_True in Hrow by done.
    destruct (decide (id ∈ (nodes_to_create payload).*1)) as [Hc|Hc]; [by apply Hnew|]. rewrite (dget_not_key (nodes_to_create payload)) in Hrow by done. done. }
  assert (untouched payload db id ∧ id ∉ g_dirty db) as [Hu Hold].
  { destruct changed eqn:Hc.
    - cbn [mark_project_graph_dirty g_dirty] in Hd. rewrite elem_of_sorted_set, elem_of_app, !list_elem_of_filter in Hd.
      rewrite Eg in Hd. split.
      + apply no_seed_untouched; [done|]. intros Hs. apply Hd. right. unfold str_truthy. rewrite bool_decide_eq_false_2 by done.
        split; [done|]. unfold _collect_computational_seed_node_ids. rewrite elem_of_sorted_set. by apply list_elem_of_filter.
      + intros Hin. apply Hd. left. split; [|done]. intros [_ Hdel]. apply Hkeep.
        apply run_statements_inv in Hr as (? & ? & ? & _ & _ & _ & _ & R1 & _). rewrite R1 in Hdel.
        apply list_elem_of_fmap in Hdel as ([k v] & -> & [Hk _]%list_elem_of_filter). done.
    - rewrite Eg in Hd. split; [|done]. apply andb_false_iff in Hc as [Hc|Hc]; [by eapply not_processed_untouched|by apply not_requested_untouched]. }
  split; [done|]. destruct (untouched_node _ _ _ _ _ _ _ Hr Hu Hrow) as (_ & row & H1 & H2). exists row. split_and!; [done..|].
  by apply (untouched_links payload db stored r cleared).
Qed.

End Dirty.
