(* ===== verification/EditPatch.v ===== *)
(** * Graph editing: patches of agents

    Models [services/gateway/routes/internal/ai_mcp/graph/]: the working copy of a graph
    ([state.py]), the patch an agent sends ([schemas.py], [inputs.py]), the resolution of its
    references ([references.py]), its application to the working copy ([patching.py]) and the graph
    operations that store the result ([operations.py], [mappers.py]). A Python set of ids is a list;
    it is iterated in sorted order or tested for membership only. Diagnostics are constructors with
    the ids they carry. *)
From S2P Require Import Prelude PipelineTypes Graph NodeKwargs PipelineBuild PipelineValidate EditStore.
Open Scope Z_scope.

(** ** [state.py] *)

Record NodeState := mkNodeState {
  ns_position : option Position;
  ns_subgraph_id : option string;
  ns_node_type : string;
  ns_display_name : string;
  ns_comment : option string;
  ns_inputs : pydict NodeRuntimeInputValue;
  ns_ui_type : string;
  ns_selected : bool;
  ns_store_enabled : option bool;
  ns_show_signal_io : bool;
  ns_show_variables_io : bool;
}.

Record EdgeState := mkEdgeState {
  es_source : string;
  es_target : string;
  es_source_handle : string;
  es_target_handle : string;
  es_subgraph_id : option string;
  es_ui_type : string;
}.

Record GraphState := mkGraphState {
  st_nodes : pydict NodeState;
  st_edges : pydict EdgeState;
  st_subgraphs : pydict SubgraphRow;
}.

Record GraphChanges := mkChanges {
  created_node_ids : list string;
  updated_node_ids : list string;
  deleted_node_ids : list string;
  created_edge_ids : list string;
  deleted_edge_ids : list string;
  touched_code_node_ids : list string;
}.

Record PositionChanges := mkPositions {
  moved_nodes : pydict Position;
  moved_subgraphs : pydict Position;
}.

(** [s.removeprefix(p)] *)
Definition removeprefix (p s : string) : string :=
  if String.prefix p s then String.substring (String.length p) (String.length s - String.length p) s else s.

Definition target_input (e : EdgeState) : string := removeprefix "input-" (es_target_handle e).
Definition source_output (e : EdgeState) : string := removeprefix "output-" (es_source_handle e).

(** ** [schemas.py] and [inputs.py] *)

Inductive input_kind := IKConstant | IKExpression | IKConnectionRef.

Record InputValueSchema := mkInputValue {
  iv_kind : input_kind;
  iv_value : PyValue;
  iv_expression_kind : string;
  iv_connection_id : option string;
}.

Record AddNodeSchema := mkAddNode {
  an_ref : string;
  an_node_type : string;
  an_display_name : option string;
  an_comment : option string;
  an_subgraph_id : option string;
  an_inputs : pydict (option InputValueSchema);
  an_store_enabled : bool;
}.

(** An option is a field that was sent. *)
Record UpdateNodeSchema := mkUpdateNode {
  un_id : string;
  un_node_type : option (option string);
  un_display_name : option (option string);
  un_comment : option (option string);
  un_subgraph_id : option (option string);
  un_inputs : option (option (pydict (option InputValueSchema)));
  un_store_enabled : option (option bool);
}.

Inductive NodeReference :=
  | NewNodeReference (ref : string)
  | ExistingNodeReference (id : string).

Record AddConnectionSchema := mkAddConnection {
  ac_source : NodeReference;
  ac_source_output : string;
  ac_target : NodeReference;
  ac_target_input : string;
  ac_subgraph_id : option string;
}.

Record GraphPatchSchema := mkPatch {
  gp_add_nodes : list AddNodeSchema;
  gp_update_nodes : list UpdateNodeSchema;
  gp_delete_node_ids : list string;
  gp_add_connections : list AddConnectionSchema;
  gp_delete_connection_ids : list string;
}.

Definition canonical_input (value : InputValueSchema) : outcome string NodeRuntimeInputValue :=
  match iv_kind value with
  | IKConstant => Ok (NodeInputConstantValue (iv_value value))
  | IKExpression =>
      match iv_value value with
      | VStr s => if str_truthy (py_strip s) then Ok (NodeInputExpressionValue s (iv_expression_kind value))
                  else Raise "Expression input requires a non-empty string value."
      | _ => Raise "Expression input requires a non-empty string value."
      end
  | IKConnectionRef =>
      match iv_connection_id value with
      | Some c => if str_truthy c then Ok (NodeInputConstantValue (VStr c))
                  else Raise "connection_ref input requires connection_id."
      | None => Raise "connection_ref input requires connection_id."
      end
  end.

(** ** Diagnostics *)

Inductive Diagnostic :=
  | DUPLICATE_NODE_REF (ref : string)
  | UNKNOWN_NODE_REF (ref : string) (connection_index : Z) (endpoint : string)
  | UNKNOWN_REFERENCED_NODE (node_id : string) (connection_index : Z) (endpoint : string)
  | UNKNOWN_SUBGRAPH (subgraph_id : string)
  | UNKNOWN_NODES (node_ids : list string)
  | UNKNOWN_NODE (node_id : string)
  | INVALID_INPUT (node_id message : string)
  | DUPLICATE_NODE_ID (node_id : string)
  | UNKNOWN_CONNECTION (connection_ids : list string)
  | DUPLICATE_CONNECTION_ID (connection_id : string)
  | UNKNOWN_CONNECTION_NODE (connection_id : string)
  | NODE_NOT_AVAILABLE (node_id node_type : string)
  | INVALID_NODE (node_id code : string)
  | GENERIC_CODE_COMMENT_REQUIRED (node_id : string)
  | UNKNOWN_SOURCE_OUTPUT (connection_id port : string)
  | UNKNOWN_TARGET_INPUT (connection_id port : string)
  | PIPELINE_EMPTY
  | PIPELINE_INVALID (validation : PipelineValidationResult).

Inductive edit_exn :=
  | GraphValidationFailed (errors : list Diagnostic)        (* 422 GRAPH_VALIDATION_FAILED *)
  | GraphRevisionConflict                                   (* 409 *)
  | GraphEtagConflict                                       (* 409 *)
  | GraphLayoutFailed                                       (* 422 *)
  | ProjectDenied
  | SnapshotInvalid                                         (* a stored row the schemas reject *)
  | UnknownEndpoint                                         (* KeyError: a stored edge without its node *)
  | NotLaidOut                                              (* ValueError of node_to_ui *)
  | OperationsFailed (e : graph_exn)
  | PipelineNotBuilt (e : py_exn).

(** ** [references.py] *)

Record ResolvedConnection := mkConnection {
  rc_id : string;
  rc_source : string;
  rc_source_output : string;
  rc_target : string;
  rc_target_input : string;
  rc_subgraph_id : option string;
}.

Record ResolvedPatch := mkResolved {
  rp_add_nodes : list (string * AddNodeSchema);
  rp_update_nodes : list UpdateNodeSchema;
  rp_delete_node_ids : list string;
  rp_add_connections : list ResolvedConnection;
  rp_delete_connection_ids : list string;
  rp_node_ids_by_ref : pydict string;
}.

(** [f"{index:08d}"] *)
Fixpoint zeros (n : nat) : string := match n with O => "" | S n => "0" +:+ zeros n end.
Definition padded (index : Z) : string :=
  let digits := pretty index in zeros (8 - String.length digits) +:+ digits.

(** [while value in used: value += "_"]; a set of [n] ids ends the loop after [n] rounds. *)
Fixpoint unused (fuel : nat) (used : list string) (value : string) : string :=
  match fuel with
  | O => value
  | S fuel => if bool_decide (value ∈ used) then unused fuel used (value +:+ "_") else value
  end.

(** [TemporaryIds.allocate] *)
Definition allocate (used : list string) (kind : string) (index : Z) : string :=
  unused (length used) used ("__mcp_" +:+ kind +:+ "_" +:+ padded index +:+ "__").

(** What the two loops carry: the index, the ids in use and the errors so far. *)
Record resolving := mkResolving { rv_index : Z; rv_used : list string; rv_errors : list Diagnostic }.

Definition resolve_node (acc : resolving * list (string * AddNodeSchema) * pydict string) (node : AddNodeSchema)
    : resolving * list (string * AddNodeSchema) * pydict string :=
  let '(st, nodes, refs) := acc in
  if dmem refs (an_ref node) then
    (mkResolving (rv_index st + 1) (rv_used st) (rv_errors st ++ [DUPLICATE_NODE_REF (an_ref node)]), nodes, refs)
  else
    let id := allocate (rv_used st) "node" (rv_index st) in
    (mkResolving (rv_index st + 1) (rv_used st ++ [id]) (rv_errors st), nodes ++ [(id, node)], dset refs (an_ref node) id).

Definition _resolve_nodes (additions : list AddNodeSchema) (used : list string)
    : resolving * list (string * AddNodeSchema) * pydict string :=
  foldl resolve_node (mkResolving 0 used [], [], []) additions.

Definition _resolve_endpoint (refs : pydict string) (existing_ids deleted_ids : list string) (index : Z) (side : string)
    (reference : NodeReference) : option string * list Diagnostic :=
  match reference with
  | NewNodeReference ref =>
      match dget refs ref with
      | Some node_id => (Some node_id, [])
      | None => (None, [UNKNOWN_NODE_REF ref index side])
      end
  | ExistingNodeReference id =>
      if negb (bool_decide (id ∈ existing_ids)) || bool_decide (id ∈ deleted_ids)
      then (None, [UNKNOWN_REFERENCED_NODE id index side])
      else (Some id, [])
  end.

Definition resolve_connection (refs : pydict string) (existing_ids deleted_ids : list string)
    (acc : resolving * list ResolvedConnection) (edge : AddConnectionSchema) : resolving * list ResolvedConnection :=
  let '(st, connections) := acc in
  let '(source, e1) := _resolve_endpoint refs existing_ids deleted_ids (rv_index st) "source" (ac_source edge) in
  let '(target, e2) := _resolve_endpoint refs existing_ids deleted_ids (rv_index st) "target" (ac_target edge) in
  match source, target with
  | Some source, Some target =>
      let id := allocate (rv_used st) "edge" (rv_index st) in
      (mkResolving (rv_index st + 1) (rv_used st ++ [id]) (rv_errors st ++ e1 ++ e2),
       connections ++ [mkConnection id source (ac_source_output edge) target (ac_target_input edge) (ac_subgraph_id edge)])
  | _, _ => (mkResolving (rv_index st + 1) (rv_used st) (rv_errors st ++ e1 ++ e2), connections)
  end.

Definition resolve_patch (patch : GraphPatchSchema) (node_ids edge_ids : list string) : outcome edit_exn ResolvedPatch :=
  let '(st, additions, refs) := _resolve_nodes (gp_add_nodes patch) (node_ids ++ edge_ids) in
  let '(st, connections) :=
    foldl (resolve_connection refs node_ids (gp_delete_node_ids patch))
      (mkResolving 0 (rv_used st) (rv_errors st), []) (gp_add_connections patch) in
  match rv_errors st with
  | [] => Ok (mkResolved additions (gp_update_nodes patch) (gp_delete_node_ids patch) connections
                (gp_delete_connection_ids patch) refs)
  | errors => Raise (GraphValidationFailed errors)
  end.

(** ** [patching.py] *)

Definition GENERIC_CODE_NODES : list string := ["ExecutePython"; "DataFrameExecCode"; "ExecuteSQL"].

(** The graph, the changes and the diagnostics of [apply_patch_to_state]. *)
Record patching := mkPatching { pa_graph : GraphState; pa_changes : GraphChanges; pa_errors : list Diagnostic }.

Definition with_graph (g : GraphState) (p : patching) : patching := mkPatching g (pa_changes p) (pa_errors p).
Definition with_error (e : Diagnostic) (p : patching) : patching := mkPatching (pa_graph p) (pa_changes p) (pa_errors p ++ [e]).
Definition with_errors (es : list Diagnostic) (p : patching) : patching := mkPatching (pa_graph p) (pa_changes p) (pa_errors p ++ es).
Definition set_nodes (nodes : pydict NodeState) (g : GraphState) : GraphState := mkGraphState nodes (st_edges g) (st_subgraphs g).
Definition set_edges (edges : pydict EdgeState) (g : GraphState) : GraphState := mkGraphState (st_nodes g) edges (st_subgraphs g).

Definition touch_code (node_id node_type : string) (p : patching) : patching :=
  if bool_decide (node_type ∈ GENERIC_CODE_NODES) then
    let c := pa_changes p in
    mkPatching (pa_graph p) (mkChanges (created_node_ids c) (updated_node_ids c) (deleted_node_ids c) (created_edge_ids c)
      (deleted_edge_ids c) (touched_code_node_ids c ++ [node_id])) (pa_errors p)
  else p.

Definition check_subgraph (g : GraphState) (subgraph_id : option string) : list Diagnostic :=
  match subgraph_id with
  | Some s => if dmem (st_subgraphs g) s then [] else [UNKNOWN_SUBGRAPH s]
  | None => []
  end.

Definition _delete_nodes (p : patching) : patching :=
  let g := pa_graph p in
  let deleted := deleted_node_ids (pa_changes p) in
  let unknown := sorted_set (filter (λ x, x ∉ dkeys (st_nodes g)) deleted) in
  with_graph (set_nodes (filter (λ kv, kv.1 ∉ deleted) (st_nodes g)) g)
    (match unknown with [] => p | _ => with_error (UNKNOWN_NODES unknown) p end).

(** The loop of [_apply_inputs]: the inputs and the diagnostics of node [node_id]. *)
Definition apply_input (node_id : string) (acc : pydict NodeRuntimeInputValue * list Diagnostic)
    (item : string * option InputValueSchema) : pydict NodeRuntimeInputValue * list Diagnostic :=
  match item.2 with
  | None => (dpop acc.1 item.1, acc.2)
  | Some value =>
      match canonical_input value with
      | Ok v => (dset acc.1 item.1 v, acc.2)
      | Raise message => (acc.1, acc.2 ++ [INVALID_INPUT node_id message])
      end
  end.

Definition _apply_inputs (node_id : string) (inputs : pydict NodeRuntimeInputValue)
    (updates : pydict (option InputValueSchema)) : pydict NodeRuntimeInputValue * list Diagnostic :=
  foldl (apply_input node_id) (inputs, []) updates.

Definition _update_node (p : patching) (update : UpdateNodeSchema) : patching :=
  let g := pa_graph p in
  match dget (st_nodes g) (un_id update) with
  | None => with_error (UNKNOWN_NODE (un_id update)) p
  | Some node =>
      let node_type := match un_node_type update with Some (Some t) => t | _ => ns_node_type node end in
      let display_name := match un_display_name update with
                          | Some d => or_str d node_type
                          | None => ns_display_name node
                          end in
      let comment := match un_comment update with Some c => c | None => ns_comment node end in
      let '(subgraph_id, e1) := match un_subgraph_id update with
                                | Some s => (s, check_subgraph g s)
                                | None => (ns_subgraph_id node, [])
                                end in
      let store_enabled := match un_store_enabled update with Some (Some b) => Some b | _ => ns_store_enabled node end in
      let '(inputs, e2) := match un_inputs update with
                           | Some (Some updates) => _apply_inputs (un_id update) (ns_inputs node) updates
                           | _ => (ns_inputs node, [])
                           end in
      let node' := mkNodeState (ns_position node) subgraph_id node_type display_name comment inputs (ns_ui_type node)
                     (ns_selected node) store_enabled (ns_show_signal_io node) (ns_show_variables_io node) in
      touch_code (un_id update) node_type
        (with_errors (e1 ++ e2) (with_graph (set_nodes (dset (st_nodes g) (un_id update) node') g) p))
  end.

Definition _add_node (p : patching) (addition : string * AddNodeSchema) : patching :=
  let g := pa_graph p in
  let '(id, a) := addition in
  if dmem (st_nodes g) id then with_error (DUPLICATE_NODE_ID id) p
  else
    let e1 := check_subgraph g (an_subgraph_id a) in
    let '(inputs, e2) := _apply_inputs id [] (an_inputs a) in
    let node := mkNodeState None (an_subgraph_id a) (an_node_type a) (or_str (an_display_name a) (an_node_type a))
                  (an_comment a) inputs "custom" false (Some (an_store_enabled a)) false false in
    touch_code id (an_node_type a) (with_errors (e1 ++ e2) (with_graph (set_nodes (dset (st_nodes g) id node) g) p)).

Definition touches_deleted (deleted : list string) (e : EdgeState) : bool :=
  bool_decide (es_source e ∈ deleted) || bool_decide (es_target e ∈ deleted).

Definition _delete_edges (patch : ResolvedPatch) (p : patching) : patching :=
  let g := pa_graph p in
  let c := pa_changes p in
  let implicit_deletes := (filter (λ kv, touches_deleted (deleted_node_ids c) kv.2 = true) (st_edges g)).*1 in
  let explicit_deletes := rp_delete_connection_ids patch in
  let deleted := explicit_deletes ++ implicit_deletes in
  let unknown := sorted_set (filter (λ x, x ∉ dkeys (st_edges g)) explicit_deletes) in
  let p := match unknown with [] => p | _ => with_error (UNKNOWN_CONNECTION unknown) p end in
  mkPatching (set_edges (filter (λ kv, kv.1 ∉ deleted) (st_edges g)) g)
    (mkChanges (created_node_ids c) (updated_node_ids c) (deleted_node_ids c) (created_edge_ids c) deleted
       (touched_code_node_ids c)) (pa_errors p).

Definition _add_edge (p : patching) (addition : ResolvedConnection) : patching :=
  let g := pa_graph p in
  if dmem (st_edges g) (rc_id addition) then with_error (DUPLICATE_CONNECTION_ID (rc_id addition)) p
  else
    match dget (st_nodes g) (rc_source addition), dget (st_nodes g) (rc_target addition) with
    | Some source, Some target =>
        let subgraph_id := match rc_subgraph_id addition with
                           | Some s => Some s
                           | None => if bool_decide (ns_subgraph_id source = ns_subgraph_id target)
                                     then ns_subgraph_id source else None
                           end in
        let edge := mkEdgeState (rc_source addition) (rc_target addition) ("output-" +:+ rc_source_output addition)
                      ("input-" +:+ rc_target_input addition) subgraph_id "custom" in
        let c := pa_changes p in
        mkPatching (set_edges (dset (st_edges g) (rc_id addition) edge) g)
          (mkChanges (created_node_ids c) (updated_node_ids c) (deleted_node_ids c) (created_edge_ids c ++ [rc_id addition])
             (deleted_edge_ids c) (touched_code_node_ids c))
          (pa_errors p ++ check_subgraph g subgraph_id)
    | _, _ => with_error (UNKNOWN_CONNECTION_NODE (rc_id addition)) p
    end.

Definition apply_patch_to_state (graph : GraphState) (patch : ResolvedPatch) : patching :=
  let changes := mkChanges (rp_add_nodes patch).*1 (un_id <$> rp_update_nodes patch) (rp_delete_node_ids patch) [] [] [] in
  let p := _delete_nodes (mkPatching graph changes []) in
  let p := foldl _update_node p (rp_update_nodes patch) in
  let p := foldl _add_node p (rp_add_nodes patch) in
  let p := _delete_edges patch p in
  foldl _add_edge p (rp_add_connections patch).

(** ** [mappers.py] and [operations.py] *)

Definition node_from_row (row : NodeRow) : NodeState :=
  mkNodeState (Some (nr_position row)) (nr_subgraph_id row) (nr_name row) (nr_display_name row) (nr_comment row)
    (default [] (nr_input_values row)) (nr_type row) false (nr_store_enabled row) (nr_show_signal_io row)
    (nr_show_variables_io row).

Definition node_to_ui (node : NodeState) : outcome edit_exn NodeRow :=
  match ns_position node with
  | None => Raise NotLaidOut
  | Some position =>
      Ok (mkNodeRow (ns_ui_type node) position (ns_selected node) (ns_node_type node) (ns_display_name node)
            (ns_comment node) (Some (ns_inputs node)) (ns_store_enabled node) (ns_show_signal_io node)
            (ns_show_variables_io node) (ns_subgraph_id node))
  end.

(** [model_dump] of a whole node: every field is sent. *)
Definition full_patch (row : NodeRow) : NodePatch :=
  mkNodePatch (Some (nr_type row)) (Some (nr_subgraph_id row)) (Some (nr_position row)) (Some (nr_selected row))
    (Some (nr_name row)) (Some (nr_display_name row)) (Some (nr_store_enabled row)) (Some (Some (nr_show_signal_io row)))
    (Some (Some (nr_show_variables_io row))) (Some (nr_comment row)) (nr_input_values row).

Definition position_patch (position : Position) : NodePatch :=
  mkNodePatch None None (Some position) None None None None None None None None.

Definition subgraph_position_patch (position : Position) : SubgraphPatch :=
  mkSubgraphPatch None (Some position) None None None None None None.

Definition edge_from_row (row : EdgeRow) : option EdgeState :=
  match er_source_handle row, er_target_handle row with
  | Some sh, Some th => Some (mkEdgeState (er_source row) (er_target row) sh th (er_subgraph_id row) (er_type row))
  | _, _ => None
  end.

Definition edge_to_ui (edge : EdgeState) : EdgeRow :=
  mkEdgeRow (es_ui_type edge) (es_source edge) (Some (es_source_handle edge)) (es_target edge)
    (Some (es_target_handle edge)) (es_subgraph_id edge).

(** [sorted(d.items())] *)
Definition sorted_items {A} (d : pydict A) : list (string * A) :=
  omap (λ k, (λ v, (k, v)) <$> dget d k) (sorted_set (dkeys d)).

Definition position_operations (positions : PositionChanges) : GraphOperationsAggregated :=
  mkOperations [] [] ((λ kv, (kv.1, position_patch kv.2)) <$> sorted_items (moved_nodes positions)) [] [] [] [] []
    ((λ kv, (kv.1, subgraph_position_patch kv.2)) <$> sorted_items (moved_subgraphs positions)).

(** The nodes among [ids] that are in the graph, as they are sent. *)
Fixpoint nodes_to_ui (graph : GraphState) (ids : list string) : outcome edit_exn (list (string * NodeRow)) :=
  match ids with
  | [] => Ok []
  | id :: ids =>
      match dget (st_nodes graph) id with
      | None => nodes_to_ui graph ids
      | Some node => row ← node_to_ui node; rows ← nodes_to_ui graph ids; Ok ((id, row) :: rows)
      end
  end.

Definition build_operations (graph : GraphState) (changes : GraphChanges) (positions : PositionChanges)
    : outcome edit_exn GraphOperationsAggregated :=
  let payload := position_operations positions in
  created ← nodes_to_ui graph (sorted_set (created_node_ids changes));
  updated ← nodes_to_ui graph (sorted_set (updated_node_ids changes));
  Ok (mkOperations (sorted_set (deleted_node_ids changes)) created
        (((λ kv, (kv.1, full_patch kv.2)) <$> updated)
         ++ filter (λ kv, kv.1 ∉ created_node_ids changes ++ updated_node_ids changes) (nodes_to_update payload))
        (sorted_set (deleted_edge_ids changes))
        ((λ kv, (kv.1, edge_to_ui kv.2)) <$> filter (λ kv, kv.1 ∈ created_edge_ids changes) (st_edges graph))
        [] [] [] (subgraphs_to_update payload)).

(** ** [materialize] *)

(** Permanent ids, for the temporary ones in the order of their references. *)
Definition permanent_ids (uuid4 : nat → string) (refs : pydict string) : pydict string :=
  imap (λ i temporary, (temporary, "node_" +:+ uuid4 i)) (dvals refs).

Definition materialize (uuid4 : nat → string) (refs : pydict string) (payload : GraphOperationsAggregated)
    : GraphOperationsAggregated :=
  let permanent := permanent_ids uuid4 refs in
  let renamed id := dget_default permanent id id in
  mkOperations (nodes_to_delete payload) ((λ kv, (renamed kv.1, kv.2)) <$> nodes_to_create payload)
    (nodes_to_update payload) (edges_to_delete payload)
    (imap (λ i kv, ("edge_" +:+ uuid4 (length refs + i)%nat,
                    mkEdgeRow (er_type kv.2) (renamed (er_source kv.2)) (er_source_handle kv.2)
                      (renamed (er_target kv.2)) (er_target_handle kv.2) (er_subgraph_id kv.2)))
       (edges_to_create payload))
    (edges_to_update payload) (subgraphs_to_delete payload) (subgraphs_to_create payload) (subgraphs_to_update payload).
