(* ===== verification/EditFlow.v ===== *)
(** * Graph editing: validating and applying a patch

    Models the entry points of [services/gateway/routes/internal/ai_mcp/graph/impl.py] with
    [snapshot.py], [preparation.py], [validation.py], [node_policies.py] and [arrangement.py]. The
    layout, the definitions that are available to agents, the checks of single nodes
    ([node_input_errors], [validate_node_connections], [read_table_configuration_errors]), the
    fingerprint of a stored graph and [uuid4] are the parameter [EditEnv]. *)
From S2P Require Import Prelude PipelineTypes Graph NodeKwargs PipelineBuild PipelineValidate EditStore EditPatch.
Open Scope Z_scope.

Class EditEnv := {
  calculate_layout : GraphState → option GraphState → bool → option PositionChanges;   (* None is LayoutError *)
  available_definitions : string → option NodeDefinition;
  node_checks : GraphState → string → NodeState → list Diagnostic;
  graph_etag : GraphDB → string;
  uuid4 : nat → string;
}.

Section Edit.
Context `{reg : NodeRegistry} {so : SetOrder} {env : EditEnv}.

(** ** [snapshot.py] *)

Fixpoint edges_from_rows (rows : pydict EdgeRow) : outcome edit_exn (pydict EdgeState) :=
  match rows with
  | [] => Ok []
  | (id, row) :: rows =>
      match edge_from_row row with
      | None => Raise SnapshotInvalid
      | Some e => es ← edges_from_rows rows; Ok ((id, e) :: es)
      end
  end.

Definition load_snapshot (db : GraphDB) : outcome edit_exn GraphState :=
  edges ← edges_from_rows (g_edges db);
  Ok (mkGraphState ((λ kv, (kv.1, node_from_row kv.2)) <$> g_nodes db) edges (g_subgraphs db)).

Definition check_graph_version (db : GraphDB) (revision : Z) (etag : string) : outcome edit_exn unit :=
  if negb (g_revision db =? revision) then Raise GraphRevisionConflict
  else if negb (bool_decide (graph_etag db = etag)) then Raise GraphEtagConflict
  else Ok ().

(** ** [arrangement.py] *)

(** The positions that differ from those of the graph; the layout places nodes of the graph only. *)
Definition changed_node_position (graph : GraphState) (item : string * Position) : bool :=
  match dget (st_nodes graph) item.1 with
  | Some node => negb (bool_decide (ns_position node = Some item.2))
  | None => false
  end.

Definition changed_subgraph_position (graph : GraphState) (item : string * Position) : bool :=
  match dget (st_subgraphs graph) item.1 with
  | Some group => negb (bool_decide (sg_position group = item.2))
  | None => false
  end.

Definition arrange_graph (graph : GraphState) (before : option GraphState) (full : bool) : outcome edit_exn PositionChanges :=
  match calculate_layout graph before full with
  | None => Raise GraphLayoutFailed
  | Some layout =>
      Ok (mkPositions (filter (λ kv, changed_node_position graph kv = true) (moved_nodes layout))
            (filter (λ kv, changed_subgraph_position graph kv = true) (moved_subgraphs layout)))
  end.

(** [graph.nodes[node_id].position = position] *)
Definition place_node (graph : GraphState) (item : string * Position) : GraphState :=
  match dget (st_nodes graph) item.1 with
  | Some n =>
      set_nodes (dset (st_nodes graph) item.1
        (mkNodeState (Some item.2) (ns_subgraph_id n) (ns_node_type n) (ns_display_name n) (ns_comment n) (ns_inputs n)
           (ns_ui_type n) (ns_selected n) (ns_store_enabled n) (ns_show_signal_io n) (ns_show_variables_io n))) graph
  | None => graph
  end.

(** ** [validation.py] and [node_policies.py] *)

Definition source_port_error (graph : GraphState) (item : string * EdgeState) : outcome edit_exn (list Diagnostic) :=
  match dget (st_nodes graph) (es_source item.2) with
  | None => Raise UnknownEndpoint
  | Some node =>
      match available_definitions (ns_node_type node) with
      | Some def => Ok (if dmem (def_outputs def) (source_output item.2) then []
                        else [UNKNOWN_SOURCE_OUTPUT item.1 (source_output item.2)])
      | None => Ok []
      end
  end.

Definition target_port_error (graph : GraphState) (item : string * EdgeState) : outcome edit_exn (list Diagnostic) :=
  match dget (st_nodes graph) (es_target item.2) with
  | None => Raise UnknownEndpoint
  | Some node =>
      match available_definitions (ns_node_type node) with
      | Some def => Ok (if dmem (def_inputs def) (target_input item.2) then []
                        else [UNKNOWN_TARGET_INPUT item.1 (target_input item.2)])
      | None => Ok []
      end
  end.

Definition edge_port_errors (graph : GraphState) : outcome edit_exn (list Diagnostic) :=
  foldM (λ errors item,
    e1 ← source_port_error graph item; e2 ← target_port_error graph item; Ok (errors ++ e1 ++ e2)) [] (st_edges graph).

(** The rows a graph would be stored as. *)
Fixpoint node_rows (nodes : pydict NodeState) : outcome edit_exn (pydict NodeRow) :=
  match nodes with
  | [] => Ok []
  | (id, node) :: nodes => row ← node_to_ui node; rows ← node_rows nodes; Ok ((id, row) :: rows)
  end.

Definition edge_rows (edges : pydict EdgeState) : pydict EdgeRow := (λ kv, (kv.1, edge_to_ui kv.2)) <$> edges.

Definition pipeline_errors (graph : GraphState) : outcome edit_exn (list Diagnostic) :=
  rows ← node_rows (st_nodes graph);
  match rows with
  | [] => Ok [PIPELINE_EMPTY]
  | _ =>
      match build_pipeline_from_graph (graph_node_record <$> rows) (graph_edge_record <$> edge_rows (st_edges graph)) None with
      | Raise e => Raise (PipelineNotBuilt e)
      | Ok pipeline =>
          let validation := validate_pipeline pipeline in
          Ok (if is_valid validation then [] else [PIPELINE_INVALID validation])
      end
  end.

Definition generic_code_errors (graph : GraphState) (touched : list string) : list Diagnostic :=
  omap (λ id, match dget (st_nodes graph) id with
              | Some node => if str_truthy (py_strip (or_str (ns_comment node) "")) then None
                             else Some (GENERIC_CODE_COMMENT_REQUIRED id)
              | None => None
              end) touched.

Inductive Warning :=
  | GENERIC_CODE_NODE (node_id : string)
  | GENERIC_CODE_HEAVY_GRAPH
  | MISSING_DISPLAY_NAME (node_id : string)
  | MISSING_COMMENT (node_id : string).

Definition graph_warnings (graph : GraphState) : list Warning :=
  let generic_ids := sorted_set (filter (λ kv, ns_node_type kv.2 ∈ GENERIC_CODE_NODES) (st_nodes graph)).*1 in
  (GENERIC_CODE_NODE <$> generic_ids)
  ++ (if nonempty generic_ids && (length (st_nodes graph) <=? length generic_ids * 2)%nat then [GENERIC_CODE_HEAVY_GRAPH] else [])
  ++ (st_nodes graph ≫= λ kv,
        (if str_truthy (py_strip (ns_display_name kv.2)) then [] else [MISSING_DISPLAY_NAME kv.1])
        ++ (if str_truthy (py_strip (or_str (ns_comment kv.2) "")) then [] else [MISSING_COMMENT kv.1])).

Definition node_errors_of (graph : GraphState) (item : string * NodeState) : list Diagnostic :=
  match available_definitions (ns_node_type item.2) with
  | None => [NODE_NOT_AVAILABLE item.1 (ns_node_type item.2)]
  | Some _ => node_checks graph item.1 item.2
  end.

Definition validate_prepared_graph (graph : GraphState) (changes : GraphChanges)
    : outcome edit_exn (list Diagnostic * list Warning) :=
  let errors := (st_nodes graph ≫= node_errors_of graph) ++ generic_code_errors graph (remove_dups (touched_code_node_ids changes)) in
  port_errors ← edge_port_errors graph;
  rest ← match port_errors with [] => pipeline_errors graph | _ => Ok [] end;
  Ok (errors ++ port_errors ++ rest, graph_warnings graph).

(** ** [preparation.py] *)

Definition raise_if_invalid (errors : list Diagnostic) : outcome edit_exn unit :=
  match errors with [] => Ok () | _ => Raise (GraphValidationFailed errors) end.

(** [pp_graph] is the working copy the payload was made from. *)
Record PreparedPatch := mkPrepared {
  pp_payload : GraphOperationsAggregated;
  pp_references : ResolvedPatch;
  pp_warnings : list Warning;
  pp_graph : GraphState;
}.

Definition prepare_patch (snapshot : GraphState) (patch : GraphPatchSchema) : outcome edit_exn PreparedPatch :=
  references ← resolve_patch patch (dkeys (st_nodes snapshot)) (dkeys (st_edges snapshot));
  let p := apply_patch_to_state snapshot references in
  _ ← raise_if_invalid (pa_errors p);
  positions ← arrange_graph (pa_graph p) (Some snapshot) false;
  let graph := foldl place_node (pa_graph p) (moved_nodes positions) in
  res ← validate_prepared_graph graph (pa_changes p);
  _ ← raise_if_invalid res.1;
  payload ← build_operations graph (pa_changes p) positions;
  Ok (mkPrepared payload references res.2 graph).

(** ** [impl.py] *)

Definition _checked_snapshot (accessible : bool) (revision : Z) (etag : string) (db : GraphDB) : outcome edit_exn GraphState :=
  if negb accessible then Raise ProjectDenied
  else
    snapshot ← load_snapshot db;
    _ ← check_graph_version db revision etag;
    Ok snapshot.

Definition validate_graph_changes (accessible : bool) (revision : Z) (etag : string) (patch : GraphPatchSchema)
    (db : GraphDB) : outcome edit_exn (list Warning) :=
  snapshot ← _checked_snapshot accessible revision etag db;
  prepared ← prepare_patch snapshot patch;
  Ok (pp_warnings prepared).

Definition execute_operations (payload : GraphOperationsAggregated) (db : GraphDB)
    : outcome edit_exn (GraphDB * GraphOperationResponse * option MetadataTask) :=
  match _process_graph_op_impl payload db with
  | Ok res => Ok res
  | Raise e => Raise (OperationsFailed e)
  end.

Definition apply_graph_changes (accessible : bool) (revision : Z) (etag : string) (patch : GraphPatchSchema)
    (db : GraphDB) : outcome edit_exn (GraphDB * GraphOperationResponse * option MetadataTask * PreparedPatch) :=
  snapshot ← _checked_snapshot accessible revision etag db;
  prepared ← prepare_patch snapshot patch;
  res ← execute_operations (materialize uuid4 (rp_node_ids_by_ref (pp_references prepared)) (pp_payload prepared)) db;
  Ok (res, prepared).

Definition auto_layout_project (accessible : bool) (revision : Z) (etag : string) (dry_run : bool) (db : GraphDB)
    : outcome edit_exn (GraphDB * PositionChanges) :=
  snapshot ← _checked_snapshot accessible revision etag db;
  positions ← arrange_graph snapshot None true;
  if negb dry_run && (nonempty (moved_nodes positions) || nonempty (moved_subgraphs positions)) then
    res ← execute_operations (position_operations positions) db;
    Ok (res.1.1, positions)
  else Ok (db, positions).

End Edit.
