(* ===== verification/EditSpec.v ===== *)
(** * Graph editing: what a patch becomes

    Temporary ids are new; what [apply_patch_to_state] leaves of a graph when it reports no error; the
    lookups of the operations that store the result. [EditApply] composes them. *)
From S2P Require Import Prelude PipelineTypes Graph NodeKwargs PipelineBuild PipelineValidate EditStore EditDirty EditPatch EditFlow.
Open Scope Z_scope.

(** ** Dictionaries *)

Section Dictionaries.
Context {A : Type}.
Implicit Types (d : pydict A).

Lemma dget_imap_pair (l : list string) (f : nat → A) i x :
  NoDup l → l !! i = Some x → dget (imap (λ i t, (t, f i)) l) x = Some (f i).
Proof.
  revert f i; induction l as [|y l IH]; intros f i Hl Hi; [done|]. apply NoDup_cons in Hl as [Hy Hnd]. cbn.
  destruct i as [|i]; cbn in Hi; [simplify_eq; by rewrite decide_True|].
  rewrite decide_False; [exact (IH (f ∘ S) i Hnd Hi)|]. intros ->. apply Hy. by eapply list_elem_of_lookup_2.
Qed.

Lemma dkeys_imap_pair (l : list string) (f : nat → A) : dkeys (imap (λ i t, (t, f i)) l) = l.
Proof. unfold dkeys. revert f; induction l as [|y l IH]; intros f; [done|]. cbn. f_equal. exact (IH (f ∘ S)). Qed.

(** Renaming keys, where no other key takes the new name of [k]. *)
Lemma dget_rename (π : string → string) d k :
  (∀ k', k' ∈ dkeys d → π k' = π k → k' = k) → dget ((λ kv, (π kv.1, kv.2)) <$> d) (π k) = dget d k.
Proof.
  unfold dkeys. induction d as [|[k' v] d IH]; intros H; [done|]. cbn in *. destruct (decide (k = k')) as [->|Hne].
  - by rewrite decide_True.
  - rewrite decide_False by (intros E; apply Hne; symmetry; apply H; [left|done]). apply IH. intros k'' Hin. apply H. by right.
Qed.

(** Dictionaries with the same items. *)
Lemma dict_Permutation d1 d2 : dwf d1 → dwf d2 → (∀ k v, (k, v) ∈ d1 ↔ (k, v) ∈ d2) → d1 ≡ₚ d2.
Proof.
  intros H1 H2 H. apply NoDup_Permutation; [by eapply NoDup_fmap_1..|]. intros [k v]. apply H.
Qed.

Lemma dget_sorted_items d k : dget (sorted_items d) k = dget d k.
Proof.
  unfold sorted_items. assert (∀ l, NoDup l → dget (omap (λ k, (λ v, (k, v)) <$> dget d k) l) k = if decide (k ∈ l) then dget d k else None) as H.
  { induction l as [|x l IH]; intros Hl; [done|]. apply NoDup_cons in Hl as [Hx Hl]. cbn. specialize (IH Hl).
    destruct (dget d x) as [v|] eqn:Hv; cbn; [destruct (decide (k = x)) as [->|]|].
    - by rewrite decide_True by left.
    - rewrite IH. repeat case_decide; set_solver.
    - rewrite IH. repeat case_decide; [done| |set_solver|done]. destruct (decide (k = x)) as [->|]; [by rewrite Hv|set_solver]. }
  rewrite H. 2: { unfold sorted_set. rewrite merge_sort_Permutation. apply NoDup_remove_dups. }
  case_decide as Hk; [done|]. rewrite elem_of_sorted_set in Hk. symmetry. by apply dget_None.
Qed.

End Dictionaries.

Lemma NoDup_sorted_set l : NoDup (sorted_set l).
Proof. unfold sorted_set. rewrite merge_sort_Permutation. apply NoDup_remove_dups. Qed.

(** ** Temporary ids *)

Lemma string_length_app s1 s2 : String.length (s1 +:+ s2) = (String.length s1 + String.length s2)%nat.
Proof. induction s1 as [|c s1 IH]; [done|]. change (S (String.length (s1 +:+ s2)) = S (String.length s1 + String.length s2)). by rewrite IH. Qed.

(** Every round makes the candidate longer, so the fuel only has to cover the ids that are at least
    as long as the first candidate. *)
Lemma unused_fresh fuel used v :
  (length (filter (λ x, String.length v ≤ String.length x)%nat used) ≤ fuel)%nat → unused fuel used v ∉ used.
Proof.
  revert v; induction fuel as [|fuel IH]; intros v Hl; cbn [unused].
  - intros Hin. assert (v ∈ filter (λ x, String.length v ≤ String.length x)%nat used) as Hv by (by apply list_elem_of_filter).
    destruct (filter _ used); [by apply not_elem_of_nil in Hv|cbn in Hl; lia].
  - case_bool_decide as Hin; [|done]. apply IH.
    enough (length (filter (λ x, String.length (v +:+ "_") ≤ String.length x)%nat used)
            < length (filter (λ x, String.length v ≤ String.length x)%nat used))%nat by lia.
    rewrite string_length_app. cbn [String.length]. clear IH Hl fuel.
    assert (∀ l, length (filter (λ x, String.length v + 1 ≤ String.length x)%nat l)
            ≤ length (filter (λ x, String.length v ≤ String.length x)%nat l))%nat as Hle.
    { induction l as [|x l IH]; [done|]. rewrite !filter_cons. repeat case_decide; cbn; lia. }
    induction used as [|x used IH]; [by apply not_elem_of_nil in Hin|]. rewrite !filter_cons.
    apply elem_of_cons in Hin as [<-|Hin].
    + rewrite decide_False by lia. rewrite decide_True by lia. specialize (Hle used). cbn. lia.
    + specialize (IH Hin). repeat case_decide; cbn; lia.
Qed.

Lemma allocate_fresh used kind index : allocate used kind index ∉ used.
Proof. unfold allocate. apply unused_fresh, length_filter. Qed.

(** The loop over the added nodes: the ids are new and pairwise distinct, and the references name
    them in order. *)
Lemma resolve_nodes_spec additions used st nodes refs st' nodes' refs' :
  foldl resolve_node (st, nodes, refs) additions = (st', nodes', refs') →
  rv_used st = used ++ nodes.*1 → NoDup nodes.*1 → (∀ x, x ∈ nodes.*1 → x ∉ used) → dvals refs = nodes.*1 →
  rv_used st' = used ++ nodes'.*1 ∧ NoDup nodes'.*1 ∧ (∀ x, x ∈ nodes'.*1 → x ∉ used) ∧ dvals refs' = nodes'.*1 ∧
  (length nodes' ≤ length nodes + length additions)%nat.
Proof.
  revert st nodes refs; induction additions as [|a additions IH]; intros st nodes refs; cbn [foldl length].
  { intros [= <- <- <-]. intros. split_and!; [done..|lia]. }
  unfold resolve_node at 2. destruct (dmem refs (an_ref a)) eqn:Hm.
  { intros H Hu Hnd Hf Hr. destruct (IH _ _ _ H Hu Hnd Hf Hr) as (? & ? & ? & ? & ?). split_and!; [done..|lia]. }
  unfold dmem in Hm. apply bool_decide_eq_false in Hm. intros H Hu Hnd Hf Hr.
  pose proof (allocate_fresh (rv_used st) "node" (rv_index st)) as Hid. rewrite Hu in Hid at 2. apply not_elem_of_app in Hid as [Hid1 Hid2].
  destruct (IH _ _ _ H) as (? & ? & ? & ? & Hlen); cbn [rv_used].
  - rewrite Hu, fmap_app, app_assoc. done.
  - rewrite fmap_app. apply NoDup_app. split_and!; [done| |apply NoDup_singleton]. intros x Hx Hx2. cbn in Hx2. set_solver.
  - intros x. rewrite fmap_app, elem_of_app. cbn. set_solver.
  - rewrite dset_new by done. unfold dvals in *. by rewrite !fmap_app, Hr.
  - split_and!; [done..|]. rewrite length_app in Hlen. cbn in Hlen. lia.
Qed.

Lemma resolve_connections_length refs existing deleted edges st conns st' conns' :
  foldl (resolve_connection refs existing deleted) (st, conns) edges = (st', conns') →
  (length conns' ≤ length conns + length edges)%nat.
Proof.
  revert st conns; induction edges as [|e edges IH]; intros st conns; cbn [foldl length]; [intros [= <- <-]; lia|].
  unfold resolve_connection at 2.
  destruct (_resolve_endpoint _ _ _ _ _ (ac_source e)) as [[s|] e1], (_resolve_endpoint _ _ _ _ _ (ac_target e)) as [[t|] e2];
    intros H%IH; rewrite ?length_app in H; cbn in H; lia.
Qed.

(** A resolved patch: the new nodes have new ids. *)
Lemma resolve_patch_spec patch node_ids edge_ids r :
  resolve_patch patch node_ids edge_ids = Ok r →
  NoDup (rp_add_nodes r).*1 ∧ (∀ x, x ∈ (rp_add_nodes r).*1 → x ∉ node_ids) ∧
  dvals (rp_node_ids_by_ref r) = (rp_add_nodes r).*1 ∧
  (length (rp_add_nodes r) ≤ length (gp_add_nodes patch))%nat ∧
  (length (rp_add_connections r) ≤ length (gp_add_connections patch))%nat.
Proof.
  unfold resolve_patch, _resolve_nodes. destruct (foldl resolve_node _ _) as [[st nodes] refs] eqn:En.
  destruct (foldl (resolve_connection _ _ _) _ _) as [st' conns] eqn:Ec. destruct (rv_errors st'); [|done]. intros [= <-]. cbn.
  apply (resolve_nodes_spec _ (node_ids ++ edge_ids)) in En as (_ & Hnd & Hf & Hr & Hl);
    [|by rewrite app_nil_r|constructor|by intros x ?%not_elem_of_nil|done].
  apply resolve_connections_length in Ec. cbn in *. split_and!; [done| |done|lia|lia]. intros x Hx. specialize (Hf x Hx). set_solver.
Qed.

(** ** The stages of [apply_patch_to_state] *)

(** The ids of the changes, without the nodes of generic code. *)
Definition changed_ids (c : GraphChanges) : list (list string) :=
  [created_node_ids c; updated_node_ids c; deleted_node_ids c; created_edge_ids c; deleted_edge_ids c].

(** What an update keeps of a node. *)
Definition updated_from (n0 n : NodeState) : Prop :=
  ns_position n = ns_position n0 ∧ ns_selected n = ns_selected n0 ∧ (ns_store_enabled n = None → ns_store_enabled n0 = None).

Lemma touch_code_graph id t p : pa_graph (touch_code id t p) = pa_graph p.
Proof. unfold touch_code. by destruct (bool_decide _). Qed.

Lemma touch_code_errors id t p : pa_errors (touch_code id t p) = pa_errors p.
Proof. unfold touch_code. by destruct (bool_decide _). Qed.

Lemma touch_code_ids id t p : changed_ids (pa_changes (touch_code id t p)) = changed_ids (pa_changes p).
Proof. unfold touch_code. by destruct (bool_decide _). Qed.

(** No stage drops an error. *)
Lemma foldl_no_errors {A} (f : patching → A → patching) l p :
  (∀ p x, pa_errors (f p x) = [] → pa_errors p = []) → pa_errors (foldl f p l) = [] → pa_errors p = [].
Proof. intros Hf. revert p; induction l as [|x l IH]; intros p; cbn [foldl]; eauto. Qed.

Lemma update_node_step p u :
  pa_errors (_update_node p u) = [] →
  pa_errors p = [] ∧ ∃ n0 n, dget (st_nodes (pa_graph p)) (un_id u) = Some n0 ∧ updated_from n0 n ∧
    pa_graph (_update_node p u) = set_nodes (dset (st_nodes (pa_graph p)) (un_id u) n) (pa_graph p) ∧
    changed_ids (pa_changes (_update_node p u)) = changed_ids (pa_changes p).
Proof.
  unfold _update_node. destruct (dget (st_nodes (pa_graph p)) (un_id u)) as [n0|]; [|cbn; by destruct (pa_errors p)].
  destruct (match un_subgraph_id u with Some s => _ | None => _ end) as [sg e1].
  destruct (match un_inputs u with Some (Some ups) => _ | _ => _ end) as [inputs e2].
  rewrite touch_code_errors, touch_code_graph, touch_code_ids. cbn. intros [? _]%app_eq_nil. split; [done|]. exists n0. eexists.
  split_and!; [done| |done|done]. split_and!; cbn; [done..|]. by destruct (un_store_enabled u) as [[]|].
Qed.

Lemma update_nodes_spec ups p :
  pa_errors (foldl _update_node p ups) = [] →
  let q := foldl _update_node p ups in
  pa_errors p = [] ∧ st_edges (pa_graph q) = st_edges (pa_graph p) ∧ st_subgraphs (pa_graph q) = st_subgraphs (pa_graph p) ∧
  changed_ids (pa_changes q) = changed_ids (pa_changes p) ∧ dkeys (st_nodes (pa_graph q)) = dkeys (st_nodes (pa_graph p)) ∧
  (∀ id, id ∈ un_id <$> ups → id ∈ dkeys (st_nodes (pa_graph p))) ∧
  (∀ id, id ∉ un_id <$> ups → dget (st_nodes (pa_graph q)) id = dget (st_nodes (pa_graph p)) id) ∧
  (∀ id n, dget (st_nodes (pa_graph q)) id = Some n → ∃ n0, dget (st_nodes (pa_graph p)) id = Some n0 ∧ updated_from n0 n).
Proof.
  revert p; induction ups as [|u ups IH]; intros p He; cbn [foldl] in *.
  { split_and!; [done..|by intros id ?%not_elem_of_nil|done|]. intros id n Hn. by exists n. }
  specialize (IH _ He). destruct IH as (He' & H1 & H2 & H3 & H4 & H5 & H6 & H7).
  destruct (update_node_step p u He') as (Hp & n0 & n & Hn0 & Hf & Hg & Hc). rewrite Hg in *. cbn [set_nodes st_nodes st_edges st_subgraphs] in *.
  assert (un_id u ∈ dkeys (st_nodes (pa_graph p))) as Hk by (apply dget_is_Some; eauto).
  rewrite dkeys_dset_mem in H4, H5 by done. split_and!; [done..|by rewrite H3|done| | |].
  - intros id. rewrite fmap_cons, elem_of_cons. intros [->|?]; [done|by apply H5].
  - intros id. rewrite fmap_cons, not_elem_of_cons. intros [Hne Hid]. rewrite H6 by done. by rewrite dget_dset_ne by done.
  - intros id m (m0 & Hm0 & Hm)%H7. rewrite dget_dset in Hm0. destruct (decide (un_id u = id)) as [<-|]; [|by exists m0].
    simplify_eq. exists n0. split; [done|]. unfold updated_from in *. naive_solver congruence.
Qed.

Lemma add_node_step p a :
  pa_errors (_add_node p a) = [] →
  pa_errors p = [] ∧ (a.1 ∉ dkeys (st_nodes (pa_graph p))) ∧ ∃ n, ns_selected n = false ∧
    pa_graph (_add_node p a) = set_nodes (st_nodes (pa_graph p) ++ [(a.1, n)]) (pa_graph p) ∧
    changed_ids (pa_changes (_add_node p a)) = changed_ids (pa_changes p).
Proof.
  unfold _add_node. destruct a as [id a]. cbn [fst]. destruct (dmem (st_nodes (pa_graph p)) id) eqn:Hm; [cbn; by destruct (pa_errors p)|].
  unfold dmem in Hm. apply bool_decide_eq_false in Hm. destruct (_apply_inputs id [] (an_inputs a)) as [inputs e2].
  rewrite touch_code_errors, touch_code_graph, touch_code_ids. cbn. intros [? _]%app_eq_nil. split_and!; [done..|]. eexists.
  rewrite dset_new by done. split; [|split; [reflexivity|reflexivity]]. reflexivity.
Qed.

Lemma add_nodes_spec adds p :
  pa_errors (foldl _add_node p adds) = [] →
  let q := foldl _add_node p adds in
  pa_errors p = [] ∧ st_edges (pa_graph q) = st_edges (pa_graph p) ∧ st_subgraphs (pa_graph q) = st_subgraphs (pa_graph p) ∧
  changed_ids (pa_changes q) = changed_ids (pa_changes p) ∧
  ∃ new, st_nodes (pa_graph q) = st_nodes (pa_graph p) ++ new ∧ new.*1 = adds.*1 ∧ NoDup new.*1 ∧
    (∀ id, id ∈ new.*1 → id ∉ dkeys (st_nodes (pa_graph p))) ∧ (∀ id n, (id, n) ∈ new → ns_selected n = false).
Proof.
  revert p; induction adds as [|a adds IH]; intros p He; cbn [foldl] in *.
  { split_and!; [done..|]. exists []. split_and!; [by rewrite app_nil_r|done|constructor| |]; by intros ??%not_elem_of_nil || intros ???%not_elem_of_nil. }
  destruct (IH _ He) as (He' & H1 & H2 & H3 & new & H4 & H5 & H6 & H7 & H8).
  destruct (add_node_step p a He') as (Hp & Hk & n & Hn & Hg & Hc). rewrite Hg in *. cbn [set_nodes st_nodes st_edges st_subgraphs] in *.
  split_and!; [done..|by rewrite H3|]. exists ((a.1, n) :: new). rewrite H4, <-app_assoc. split_and!; [done| | | |].
  - rewrite !fmap_cons. cbn. by rewrite H5.
  - rewrite fmap_cons. apply NoDup_cons. split; [|done]. cbn. intros Hin%H7. apply Hin. unfold dkeys. rewrite fmap_app. set_solver.
  - intros id. rewrite fmap_cons, elem_of_cons. cbn [fst]. intros [->|Hin]; [done|]. specialize (H7 id Hin). unfold dkeys in *. rewrite fmap_app in H7. set_solver.
  - intros id m [[= -> ->]|Hin]%elem_of_cons; [done|by eapply H8].
Qed.

Lemma add_edge_step p c :
  pa_errors (_add_edge p c) = [] →
  pa_errors p = [] ∧ (rc_id c ∉ dkeys (st_edges (pa_graph p))) ∧ ∃ e,
    (es_source e = rc_source c ∧ es_target e = rc_target c) ∧
    pa_graph (_add_edge p c) = set_edges (st_edges (pa_graph p) ++ [(rc_id c, e)]) (pa_graph p) ∧
    changed_ids (pa_changes (_add_edge p c)) =
      [created_node_ids (pa_changes p); updated_node_ids (pa_changes p); deleted_node_ids (pa_changes p);
       created_edge_ids (pa_changes p) ++ [rc_id c]; deleted_edge_ids (pa_changes p)].
Proof.
  unfold _add_edge. destruct (dmem (st_edges (pa_graph p)) (rc_id c)) eqn:Hm; [cbn; by destruct (pa_errors p)|].
  unfold dmem in Hm. apply bool_decide_eq_false in Hm.
  destruct (dget (st_nodes (pa_graph p)) (rc_source c)) as [s|], (dget (st_nodes (pa_graph p)) (rc_target c)) as [t|];
    [|cbn; by destruct (pa_errors p)..].
  cbn. intros [? _]%app_eq_nil. split_and!; [done..|]. eexists. rewrite dset_new by done. split; [|split; [reflexivity|reflexivity]]. done.
Qed.

Lemma added_edges_spec conns p :
  pa_errors (foldl _add_edge p conns) = [] →
  let q := foldl _add_edge p conns in
  pa_errors p = [] ∧ st_nodes (pa_graph q) = st_nodes (pa_graph p) ∧ st_subgraphs (pa_graph q) = st_subgraphs (pa_graph p) ∧
  ∃ new, st_edges (pa_graph q) = st_edges (pa_graph p) ++ new ∧ (∀ id, id ∈ new.*1 → id ∉ dkeys (st_edges (pa_graph p))) ∧
    length new = length conns ∧
    changed_ids (pa_changes q) =
      [created_node_ids (pa_changes p); updated_node_ids (pa_changes p); deleted_node_ids (pa_changes p);
       created_edge_ids (pa_changes p) ++ new.*1; deleted_edge_ids (pa_changes p)].
Proof.
  revert p; induction conns as [|c conns IH]; intros p He; cbn [foldl] in *.
  { split_and!; [done..|]. exists []. rewrite !app_nil_r. split_and!; [done| |done|done]. by intros ? ?%not_elem_of_nil. }
  destruct (IH _ He) as (He' & H1 & H2 & new & H3 & H4 & H5 & H6).
  destruct (add_edge_step p c He') as (Hp & Hk & e & _ & Hg & Hc). rewrite Hg in *. cbn [set_edges st_nodes st_edges st_subgraphs] in *.
  split_and!; [done..|]. exists ((rc_id c, e) :: new). rewrite H3, <-app_assoc. split_and!; [done| |cbn; by rewrite H5|].
  - intros id. rewrite fmap_cons, elem_of_cons. cbn [fst]. intros [->|Hin]; [done|]. specialize (H4 id Hin). unfold dkeys in *. rewrite fmap_app in H4. set_solver.
  - rewrite H6. injection Hc as -> -> -> -> ->. by rewrite fmap_cons, <-app_assoc.
Qed.

(** A patch without errors: the deleted nodes were there, the updated ones still are; the nodes are
    the old ones that were not deleted, with their updates, and the added ones; the edges are the old
    ones that were not deleted and the added ones. *)
Record patched (s : GraphState) (r : ResolvedPatch) (p : patching) (kept new : pydict NodeState) (links : pydict EdgeState) : Prop := {
  pd_created : created_node_ids (pa_changes p) = (rp_add_nodes r).*1;
  pd_updated : updated_node_ids (pa_changes p) = un_id <$> rp_update_nodes r;
  pd_deleted : deleted_node_ids (pa_changes p) = rp_delete_node_ids r;
  pd_known id : id ∈ rp_delete_node_ids r → id ∈ dkeys (st_nodes s);
  pd_present id : id ∈ un_id <$> rp_update_nodes r → id ∈ dkeys kept;
  pd_nodes : st_nodes (pa_graph p) = kept ++ new;
  pd_kept_keys : dkeys kept = filter (λ id, id ∉ rp_delete_node_ids r) (dkeys (st_nodes s));
  pd_kept id n : dget kept id = Some n → ∃ n0, dget (st_nodes s) id = Some n0 ∧ updated_from n0 n;
  pd_same id : id ∈ dkeys kept → id ∉ un_id <$> rp_update_nodes r → dget kept id = dget (st_nodes s) id;
  pd_new_keys : new.*1 = (rp_add_nodes r).*1;
  pd_new_selected id n : (id, n) ∈ new → ns_selected n = false;
  pd_subgraphs : st_subgraphs (pa_graph p) = st_subgraphs s;
  pd_links : st_edges (pa_graph p) = filter (λ kv, kv.1 ∉ deleted_edge_ids (pa_changes p)) (st_edges s) ++ links;
  pd_links_new id : id ∈ links.*1 → id ∉ dkeys (filter (λ kv, kv.1 ∉ deleted_edge_ids (pa_changes p)) (st_edges s));
  pd_created_links : created_edge_ids (pa_changes p) = links.*1;
  pd_links_length : length links = length (rp_add_connections r);
}.

Lemma sorted_set_nil l : sorted_set l = [] → ∀ x, x ∉ l.
Proof. intros H x Hx. apply (not_elem_of_nil x). rewrite <-H. by apply elem_of_sorted_set. Qed.

Lemma dkeys_filter_key {A} (P : string → Prop) `{∀ k, Decision (P k)} (d : pydict A) :
  dkeys (filter (λ kv, P kv.1) d) = filter P (dkeys d).
Proof. unfold dkeys. induction d as [|[k v] d IH]; [done|]. rewrite fmap_cons, !filter_cons. cbn [fst]. case_decide; cbn; by rewrite ?IH. Qed.

Lemma dkeys_without {A} (ids : list string) (d : pydict A) : dkeys (filter (λ kv, kv.1 ∉ ids) d) = filter (λ k, k ∉ ids) (dkeys d).
Proof. etrans; [exact (dkeys_filter_key (λ k, k ∉ ids) d)|done]. Qed.

Lemma dget_without {A} (ids : list string) (d : pydict A) k : k ∉ ids → dget (filter (λ kv, kv.1 ∉ ids) d) k = dget d k.
Proof. intros Hk. etrans; [exact (dget_delete_rows ids d k)|]. by rewrite decide_False. Qed.

Lemma dget_without_Some {A} (ids : list string) (d : pydict A) k v : dget (filter (λ kv, kv.1 ∉ ids) d) k = Some v → dget d k = Some v ∧ k ∉ ids.
Proof. intros H. pose proof (dget_delete_rows ids d k) as E. unfold delete_rows in E. cbn [fst] in E. rewrite H in E. by case_decide. Qed.

Lemma apply_patch_spec s r :
  pa_errors (apply_patch_to_state s r) = [] → ∃ kept new links, patched s r (apply_patch_to_state s r) kept new links.
Proof.
  unfold apply_patch_to_state. set (changes := mkChanges _ _ _ _ _ _). set (p1 := _delete_nodes _).
  set (p2 := foldl _update_node p1 _). set (p3 := foldl _add_node p2 _). set (p4 := _delete_edges r p3). intros He.
  destruct (added_edges_spec _ _ He) as (E4 & N5 & S5 & links & L5 & F5 & Len5 & C5).
  assert (pa_errors p3 = [] ∧ pa_graph p4 = set_edges (filter (λ kv, kv.1 ∉ deleted_edge_ids (pa_changes p4)) (st_edges (pa_graph p3))) (pa_graph p3)
          ∧ take 4 (changed_ids (pa_changes p4)) = take 4 (changed_ids (pa_changes p3))) as (E3 & G4 & C4).
  { unfold p4, _delete_edges in E4 |- *. cbn in E4 |- *. destruct (sorted_set _); [by split_and!|]. cbn in E4. by destruct (pa_errors p3). }
  destruct (add_nodes_spec _ _ E3) as (E2 & L3 & S3 & C3 & new & N3 & K3 & ND3 & F3 & Sel3).
  destruct (update_nodes_spec _ _ E2) as (E1 & L2 & S2 & C2 & K2 & U2 & Same2 & From2).
  assert ((∀ x, x ∈ rp_delete_node_ids r → x ∈ dkeys (st_nodes s)) ∧
          pa_graph p1 = set_nodes (filter (λ kv, kv.1 ∉ rp_delete_node_ids r) (st_nodes s)) s ∧ pa_changes p1 = changes) as (Hk & G1 & C1).
  { unfold p1, _delete_nodes in E1 |- *. cbn [with_graph pa_errors pa_graph pa_changes changes deleted_node_ids] in E1 |- *.
    destruct (sorted_set (filter (λ x, x ∉ dkeys (st_nodes s)) (rp_delete_node_ids r))) as [|x l] eqn:Hs; [|done].
    split_and!; [|done|done]. intros x Hx. destruct (decide (x ∈ dkeys (st_nodes s))) as [|Hn]; [done|].
    destruct (sorted_set_nil _ Hs x). by apply list_elem_of_filter. }
  fold p3 in L3, S3, C3, N3. fold p2 in L2, S2, C2, K2, Same2, From2.
  set (p5 := foldl _add_edge p4 _) in *. clearbody p5 p4 p3 p2 p1.
  rewrite G4, ?L3, ?L2, ?G1 in *. cbn [set_edges set_nodes st_nodes st_edges st_subgraphs] in *.
  cbn in C4. injection C4 as C41 C42 C43 C44. injection C3 as C31 C32 C33 C34 C35. injection C2 as C21 C22 C23 C24 C25.
  injection C5 as C51 C52 C53 C54 C55. rewrite C1 in *. cbn in C21, C22, C23, C24, C25.
  exists (st_nodes (pa_graph p2)), new, links. split; try done.
  - by rewrite C51, C41, C31, C21.
  - by rewrite C52, C42, C32, C22.
  - by rewrite C53, C43, C33, C23.
  - intros id Hid. rewrite K2. by apply U2.
  - by rewrite N5, N3.
  - rewrite K2. apply dkeys_without.
  - intros id n (n0 & Hn0 & Hf)%From2. exists n0. split; [|done]. by apply dget_without_Some in Hn0 as [? _].
  - intros id Hid Hu. rewrite Same2 by done. rewrite K2, dkeys_without in Hid. apply list_elem_of_filter in Hid as [? _]. by apply dget_without.
  - by rewrite S5, S3, S2.
  - by rewrite L5, C55.
  - by rewrite C55.
  - by rewrite C54, C44, C34, C24.
Qed.
