(* ===== verification/EditApply.v ===== *)
(** * Graph editing: a validated patch is what is stored

    [validate_graph_changes] and [apply_graph_changes] prepare a patch on a working copy of the graph;
    the second then sends operations to the store. The theorems of this file say that the working copy
    of an accepted patch is a well-typed graph, that the operations cannot fail and leave, up to the ids of
    what was added, the graph that was accepted, and that the stored graph is connected. *)
From S2P Require Import Prelude PipelineTypes Graph NodeKwargs PipelineBuild PipelineValidate EditStore EditDirty EditPatch EditFlow EditSpec.
Open Scope Z_scope.

(** ** Positions *)

Definition placed (position : Position) (n : NodeState) : NodeState :=
  mkNodeState (Some position) (ns_subgraph_id n) (ns_node_type n) (ns_display_name n) (ns_comment n) (ns_inputs n)
    (ns_ui_type n) (ns_selected n) (ns_store_enabled n) (ns_show_signal_io n) (ns_show_variables_io n).

Definition maybe_placed (position : option Position) (n : NodeState) : NodeState :=
  match position with Some p => placed p n | None => n end.

Lemma place_nodes_spec moved g :
  dwf moved →
  let g' := foldl place_node g moved in
  st_edges g' = st_edges g ∧ st_subgraphs g' = st_subgraphs g ∧ dkeys (st_nodes g') = dkeys (st_nodes g) ∧
  ∀ id, dget (st_nodes g') id = maybe_placed (dget moved id) <$> dget (st_nodes g) id.
Proof.
  revert g; induction moved as [|[k pos] moved IH]; intros g Hwf; cbn [foldl].
  { split_and!; [done..|]. intros id. cbn. by destruct (dget (st_nodes g) id). }
  unfold dwf, dkeys in Hwf. rewrite fmap_cons in Hwf. apply NoDup_cons in Hwf as [Hk Hwf].
  destruct (IH (place_node g (k, pos)) Hwf) as (H1 & H2 & H3 & H4). rewrite H1, H2, H3. unfold place_node in *. cbn [fst snd] in *.
  destruct (dget (st_nodes g) k) as [n|] eqn:Hn.
  - cbn [set_nodes st_nodes st_edges st_subgraphs] in *. split_and!; [done..| |].
    + apply dkeys_dset_mem, dget_is_Some. eauto.
    + intros id. rewrite H4, dget_dset. cbn [dget]. destruct (decide (k = id)) as [<-|Hne].
      * rewrite decide_True by done. rewrite Hn. cbn. by rewrite (dget_not_key moved k).
      * by rewrite decide_False by done.
  - split_and!; [done..|]. intros id. rewrite H4. cbn [dget]. destruct (decide (id = k)) as [->|]; [by rewrite Hn|done].
Qed.

(** ** Operations *)

Definition ui_row (n : NodeState) : option NodeRow := match node_to_ui n with Ok row => Some row | Raise _ => None end.

Lemma nodes_to_ui_spec graph ids rows :
  nodes_to_ui graph ids = Ok rows →
  rows.*1 `sublist_of` ids ∧ (∀ id n, id ∈ ids → dget (st_nodes graph) id = Some n → is_Some (ui_row n)) ∧
  (∀ id, dget rows id = if decide (id ∈ ids) then dget (st_nodes graph) id ≫= ui_row else None).
Proof.
  revert rows; induction ids as [|x ids IH]; intros rows; cbn [nodes_to_ui].
  { intros [= <-]. split_and!; [done|by intros id n ?%not_elem_of_nil|done]. }
  destruct (dget (st_nodes graph) x) as [n|] eqn:Hn.
  - unfold ui_row in *. destruct (node_to_ui n) as [row|] eqn:Er; [|done]. cbn [mbind outcome_bind].
    destruct (nodes_to_ui graph ids) as [rest|]; [|done]. cbn [mbind outcome_bind]. intros [= <-].
    destruct (IH rest eq_refl) as (H1 & H2 & H3). split_and!.
    + rewrite fmap_cons. by apply sublist_skip.
    + intros id m [->|Hid]%elem_of_cons Hm; [|by eapply H2]. simplify_eq. rewrite Er. eauto.
    + intros id. cbn [dget]. destruct (decide (id = x)) as [->|Hne].
      * rewrite decide_True by left. rewrite Hn. cbn. by rewrite Er.
      * rewrite H3. repeat case_decide; set_solver.
  - intros H. destruct (IH rows H) as (H1 & H2 & H3). split_and!.
    + by apply sublist_cons.
    + intros id m [->|Hid]%elem_of_cons Hm; [congruence|by eapply H2].
    + intros id. rewrite H3. destruct (decide (id = x)) as [->|Hne].
      * rewrite (decide_True (P := x ∈ x :: ids)) by left. rewrite Hn. by destruct (decide _).
      * repeat case_decide; set_solver.
Qed.

Lemma create_rows_ok {A} (rows : list (string * A)) t :
  NoDup rows.*1 → (∀ k, k ∈ rows.*1 → k ∉ dkeys t) → create_rows rows t = Ok (t ++ rows).
Proof.
  revert t; induction rows as [|[k v] rows IH]; intros t Hnd Hf; cbn [create_rows]; [by rewrite app_nil_r|].
  rewrite fmap_cons in Hnd, Hf. apply NoDup_cons in Hnd as [Hk Hnd]. cbn [fst] in *.
  assert (k ∉ dkeys t) as Hkt by (apply Hf; left). unfold dmem. rewrite bool_decide_eq_false_2 by done. rewrite dset_new by done.
  rewrite IH; [by rewrite <-app_assoc|done|]. intros k' Hk'. unfold dkeys. rewrite fmap_app, elem_of_app. cbn.
  intros [Hin|Hin]; [by apply (Hf k'); [right|]|]. set_solver.
Qed.

Section Stored.
Context `{reg : NodeRegistry}.

(** When the created rows are new, a batch that deletes no subgraph succeeds. *)
Lemma process_ok payload db :
  subgraphs_to_create payload = [] → subgraphs_to_delete payload = [] → edges_to_update payload = [] →
  NoDup (nodes_to_create payload).*1 → (∀ k, k ∈ (nodes_to_create payload).*1 → k ∉ dkeys (g_nodes db)) →
  NoDup (edges_to_create payload).*1 → (∀ k, k ∈ (edges_to_create payload).*1 → k ∉ dkeys (g_edges db)) →
  ∃ db' r task, _process_graph_op_impl payload db = Ok (db', r, task) ∧
    g_nodes db' = (update_rows update_graph_node (nodes_to_update payload)
                     ((delete_rows (nodes_to_delete payload) (g_nodes db)).1 ++ nodes_to_create payload)).1 ∧
    g_edges db' = (delete_rows (edges_to_delete payload) (g_edges db)).1 ++ edges_to_create payload.
Proof.
  intros Hsc Hsd Heu Hn1 Hn2 He1 He2.
  assert (∀ {A} ids (t : pydict A) k, k ∈ dkeys (delete_rows ids t).1 → k ∈ dkeys t) as Hsub.
  { intros A ids t k. unfold delete_rows. cbn [fst]. rewrite dkeys_without. by intros [_ ?]%list_elem_of_filter. }
  assert (is_ok (run_statements payload db) = true) as Hok.
  { unfold run_statements. rewrite Hsc. cbn [create_rows mbind outcome_bind].
    destruct (delete_rows (nodes_to_delete payload) (g_nodes db)) as [n1 n2] eqn:En.
    rewrite (create_rows_ok (nodes_to_create payload) n1); [|done|].
    2: { intros k Hk Hin. apply (Hn2 k Hk), (Hsub _ (nodes_to_delete payload)). by rewrite En. }
    cbn [mbind outcome_bind]. destruct (update_rows update_graph_node _ _) as [n3 n4].
    destruct (delete_rows (edges_to_delete payload) (g_edges db)) as [e1 e2] eqn:Ee.
    rewrite (create_rows_ok (edges_to_create payload) e1); [|done|].
    2: { intros k Hk Hin. apply (He2 k Hk), (Hsub _ (edges_to_delete payload)). by rewrite Ee. }
    cbn [mbind outcome_bind]. destruct (update_rows update_graph_edge _ _), (update_rows update_subgraph _ _), (delete_rows _ _). done. }
  destruct (run_statements payload db) as [[[stored r] cleared]|] eqn:Hr; [|done].
  assert (∃ db' task, _process_graph_op_impl payload db = Ok (db', r, task)) as (db' & task & Hp).
  { unfold _process_graph_op_impl. rewrite Hr. cbn [mbind outcome_bind].
    match goal with |- context [if ?b && nonempty ?s then _ else _] => destruct (b && nonempty s) end; [|eauto].
    unfold collect_affected_terminal_node_ids. match goal with |- context [affected_nodes ?a ?b ?c] => destruct (affected_nodes_spec a b c) as (V & -> & _) end.
    cbn [mbind option_bind]. destruct (gn_ui_id <$> _); eauto. }
  exists db', r, task. split; [done|]. apply process_graph_op_inv in Hp as (stored' & cleared' & Hr' & ->).
  rewrite Hr in Hr'. injection Hr' as <- <-. clear Hok.
  apply run_statements_inv in Hr as (sg & nodes & edges & _ & Hn & He & -> & _).
  rewrite create_rows_ok in Hn by (done || (intros k Hk Hin; apply (Hn2 k Hk); by eapply Hsub)).
  rewrite create_rows_ok in He by (done || (intros k Hk Hin; apply (He2 k Hk); by eapply Hsub)).
  simplify_eq. rewrite Hsd, Heu.
  assert (∀ {A} (t : pydict A) f, (∀ x, f x = x) → (λ kv, (kv.1, f kv.2)) <$> t = t) as Hid.
  { intros A t f Hf. induction t as [|[k v] t IH]; [done|]. rewrite fmap_cons, IH. cbn. by rewrite Hf. }
  assert (∀ n, clear_node_subgraph [] n = n) as Hc1 by (intros n; unfold clear_node_subgraph; by destruct (nr_subgraph_id n)).
  assert (∀ e, clear_edge_subgraph [] e = e) as Hc2 by (intros e; unfold clear_edge_subgraph; by destruct (er_subgraph_id e)).
  destruct (_ && _); cbn [mark_project_graph_dirty g_nodes g_edges];
    rewrite (Hid _ _ _ Hc1), (Hid _ _ _ Hc2); (split; [done|]); unfold update_rows; cbn [fst dget]; by rewrite (Hid _ _ (λ x, x)).
Qed.

End Stored.

(** ** Rows of nodes *)

Definition with_inputs (inputs : pydict NodeRuntimeInputValue) (n : NodeState) : NodeState :=
  mkNodeState (ns_position n) (ns_subgraph_id n) (ns_node_type n) (ns_display_name n) (ns_comment n) inputs
    (ns_ui_type n) (ns_selected n) (ns_store_enabled n) (ns_show_signal_io n) (ns_show_variables_io n).

(** What a node is stored as: when it has no inputs left, the inputs it had stay. *)
Definition stored_as (before : GraphState) (id : string) (n : NodeState) : NodeState :=
  match ns_inputs n with
  | [] => with_inputs (match dget (st_nodes before) id with Some n0 => ns_inputs n0 | None => [] end) n
  | _ => n
  end.

Lemma stored_as_same before id n n0 :
  dget (st_nodes before) id = Some n0 → ns_inputs n = ns_inputs n0 → stored_as before id n = n.
Proof.
  intros Hn E. unfold stored_as. rewrite Hn. destruct (ns_inputs n) eqn:Ei; [|done]. rewrite <-E. destruct n. cbn in *. by rewrite Ei.
Qed.

Lemma ui_row_roundtrip n row : ui_row n = Some row → ns_selected n = false → node_from_row row = n.
Proof. unfold ui_row, node_to_ui. destruct n as [[pos|] ? ? ? ? ? ? ? ? ? ?]; cbn; intros [= <-] ->. done. Qed.

Lemma position_patch_row row pos : node_from_row (update_graph_node (position_patch pos) row) = placed pos (node_from_row row).
Proof. by destruct row. Qed.

Lemma full_patch_row before id n row row0 :
  ui_row n = Some row → ns_selected n = false → ns_comment n ≠ Some UNSET → ns_subgraph_id n ≠ Some UNSET →
  dget (st_nodes before) id = Some (node_from_row row0) →
  (ns_store_enabled n = None → ns_store_enabled (node_from_row row0) = None) →
  node_from_row (update_graph_node (full_patch row) row0) = stored_as before id n.
Proof.
  unfold ui_row, node_to_ui. destruct n as [[pos|] sub ty dn cm inputs ui sel st si va]; cbn; [|done].
  intros [= <-] -> Hcm Hsub Hb Hst. unfold stored_as, node_from_row, update_graph_node, full_patch, nullable_expr, with_inputs. cbn.
  rewrite Hb. cbn. rewrite !bool_decide_eq_false_2 by done.
  assert (coalesce_opt st (nr_store_enabled row0) = st) as -> by (destruct st; [done|by cbn; apply Hst]).
  by destruct inputs.
Qed.

(** ** New names *)

Lemma string_app_inj pre s1 s2 : pre +:+ s1 = pre +:+ s2 → s1 = s2.
Proof. induction pre as [|c pre IH]; [done|]. change (String c (pre +:+ s1) = String c (pre +:+ s2) → s1 = s2). intros [= H]. by apply IH. Qed.

Section Names.
Context (uuid : nat → string) (refs : pydict string).

(** The permanent id of a node: a new one for the added nodes, its own for the others. *)
Definition renamed (id : string) : string := dget_default (permanent_ids uuid refs) id id.

Lemma renamed_new i id : NoDup (dvals refs) → dvals refs !! i = Some id → renamed id = "node_" +:+ uuid i.
Proof.
  intros Hnd Hi. unfold renamed, permanent_ids, dget_default. by rewrite (dget_imap_pair _ (λ i, "node_" +:+ uuid i) i).
Qed.

Lemma renamed_old id : id ∉ dvals refs → renamed id = id.
Proof.
  intros Hid. unfold renamed, permanent_ids, dget_default. rewrite (proj2 (dget_None _ id)); [done|].
  by rewrite (dkeys_imap_pair _ (λ i, "node_" +:+ uuid i)).
Qed.

End Names.

Definition rename_edge (π : string → string) (e : EdgeState) : EdgeState :=
  mkEdgeState (π (es_source e)) (π (es_target e)) (es_source_handle e) (es_target_handle e) (es_subgraph_id e) (es_ui_type e).

(** The edges that are added, under their new ids. *)
Definition named_links (uuid : nat → string) (refs : pydict string) (links : pydict EdgeState) : pydict EdgeState :=
  imap (λ i kv, ("edge_" +:+ uuid (length refs + i)%nat, rename_edge (renamed uuid refs) kv.2)) links.

(** [uuid4] in the run that applies a patch of [n] additions: distinct and new. *)
Definition fresh_ids (uuid : nat → string) (n : nat) (db : GraphDB) : Prop :=
  (∀ i j, (i < n)%nat → (j < n)%nat → uuid i = uuid j → i = j) ∧
  (∀ i, (i < n)%nat → (("node_" +:+ uuid i) ∉ dkeys (g_nodes db)) ∧ (("edge_" +:+ uuid i) ∉ dkeys (g_edges db))).

(** No text of the graph is the marker for fields that were not sent. *)
Definition unmarked (g : GraphState) : Prop :=
  ∀ id n, dget (st_nodes g) id = Some n → ns_comment n ≠ Some UNSET ∧ ns_subgraph_id n ≠ Some UNSET.

Lemma build_operations_spec graph changes positions payload :
  build_operations graph changes positions = Ok payload →
  nodes_to_delete payload = sorted_set (deleted_node_ids changes) ∧
  nodes_to_ui graph (sorted_set (created_node_ids changes)) = Ok (nodes_to_create payload) ∧
  edges_to_delete payload = sorted_set (deleted_edge_ids changes) ∧
  edges_to_create payload = (λ kv, (kv.1, edge_to_ui kv.2)) <$> filter (λ kv, kv.1 ∈ created_edge_ids changes) (st_edges graph) ∧
  edges_to_update payload = [] ∧ subgraphs_to_delete payload = [] ∧ subgraphs_to_create payload = [] ∧
  (∀ id n, id ∈ updated_node_ids changes → dget (st_nodes graph) id = Some n → is_Some (ui_row n)) ∧
  (∀ id, dget (nodes_to_update payload) id =
    match (if decide (id ∈ updated_node_ids changes) then dget (st_nodes graph) id ≫= ui_row else None) with
    | Some row => Some (full_patch row)
    | None => if decide (id ∈ created_node_ids changes ++ updated_node_ids changes) then None
              else position_patch <$> dget (moved_nodes positions) id
    end).
Proof.
  unfold build_operations. destruct (nodes_to_ui graph (sorted_set (created_node_ids changes))) as [created|]; [|done]. cbn [mbind outcome_bind].
  destruct (nodes_to_ui graph (sorted_set (updated_node_ids changes))) as [updated|] eqn:Eu; [|done]. cbn [mbind outcome_bind].
  intros [= <-]. apply nodes_to_ui_spec in Eu as (_ & Hs & Hu). split_and!; try done.
  - intros id n Hid. apply Hs. by apply elem_of_sorted_set.
  - intros id. cbn [nodes_to_update position_operations].
    rewrite dget_app, (dget_map_key (λ _, full_patch)), Hu.
    assert (∀ (l : list string) (d : pydict NodePatch), dget (filter (λ kv, kv.1 ∉ l) d) id = if decide (id ∈ l) then None else dget d id) as Hw
      by (intros; exact (dget_delete_rows _ _ _)).
    rewrite Hw, (dget_map_key (λ _, position_patch)), dget_sorted_items.
    destruct (decide (id ∈ updated_node_ids changes)) as [Hi|Hi].
    + rewrite (decide_True (P := id ∈ sorted_set (updated_node_ids changes))) by (by apply elem_of_sorted_set). by destruct (_ ≫= ui_row).
    + rewrite (decide_False (P := id ∈ sorted_set (updated_node_ids changes))) by (by rewrite elem_of_sorted_set). done.
Qed.

Section Apply.
Context `{reg : NodeRegistry} {so : SetOrder} {env : EditEnv}.

(** Inverting [prepare_patch]. *)
Lemma prepare_patch_inv s patch prep :
  prepare_patch s patch = Ok prep →
  ∃ positions, let p := apply_patch_to_state s (pp_references prep) in
    resolve_patch patch (dkeys (st_nodes s)) (dkeys (st_edges s)) = Ok (pp_references prep) ∧
    pa_errors p = [] ∧ arrange_graph (pa_graph p) (Some s) false = Ok positions ∧
    pp_graph prep = foldl place_node (pa_graph p) (moved_nodes positions) ∧
    validate_prepared_graph (pp_graph prep) (pa_changes p) = Ok ([], pp_warnings prep) ∧
    build_operations (pp_graph prep) (pa_changes p) positions = Ok (pp_payload prep).
Proof.
  unfold prepare_patch. destruct (resolve_patch _ _ _) as [r|]; [|done]. cbn [mbind outcome_bind].
  destruct (pa_errors (apply_patch_to_state s r)) eqn:He; [|done]. cbn [raise_if_invalid mbind outcome_bind].
  destruct (arrange_graph _ _ _) as [positions|] eqn:Ha; [|done]. cbn [mbind outcome_bind].
  destruct (validate_prepared_graph _ _) as [[errors ws]|] eqn:Hv; [|done]. cbn [mbind outcome_bind fst snd].
  destruct errors; [|done]. cbn [raise_if_invalid mbind outcome_bind].
  destruct (build_operations _ _ _) as [payload|] eqn:Hb; [|done]. cbn [mbind outcome_bind]. intros [= <-]. exists positions. by cbn.
Qed.

Lemma arrange_graph_inv g before full positions :
  (∀ g before full l, calculate_layout g before full = Some l → dwf (moved_nodes l)) →
  arrange_graph g before full = Ok positions →
  dwf (moved_nodes positions) ∧ ∀ id, id ∈ dkeys (moved_nodes positions) → id ∈ dkeys (st_nodes g).
Proof.
  intros Hd. unfold arrange_graph. destruct (calculate_layout g before full) as [l|] eqn:Hl; [|done]. intros [= <-]. cbn [moved_nodes]. split.
  - specialize (Hd _ _ _ _ Hl). unfold dwf, dkeys in *. eapply sublist_NoDup; [exact Hd|]. by apply fmap_sublist, sublist_filter.
  - intros id ([k pos] & -> & [Hc _]%list_elem_of_filter)%list_elem_of_fmap. unfold changed_node_position in Hc. cbn in Hc |- *.
    apply dget_is_Some. destruct (dget (st_nodes g) k); [eauto|done].
Qed.

(** The snapshot of a stored graph. *)
Lemma edges_from_rows_app rows1 rows2 es :
  edges_from_rows (rows1 ++ rows2) = Ok es ↔
  ∃ es1 es2, edges_from_rows rows1 = Ok es1 ∧ edges_from_rows rows2 = Ok es2 ∧ es = es1 ++ es2.
Proof.
  revert es; induction rows1 as [|[k row] rows1 IH]; intros es; cbn [edges_from_rows app].
  { split; [intros H; by exists [], es|]. by intros (? & ? & [= <-] & H & ->). }
  destruct (edge_from_row row) as [e|]; [|split; [done|by intros (? & ? & ? & _)]].
  destruct (edges_from_rows (rows1 ++ rows2)) as [es'|e0] eqn:E; cbn [mbind outcome_bind].
  - destruct (proj1 (IH es') eq_refl) as (es1 & es2 & H1 & H2 & ->). rewrite H1, H2. split.
    + intros [= <-]. by exists ((k, e) :: es1), es2.
    + intros (? & ? & [= <-] & [= <-] & ->). done.
  - split; [done|]. intros (? & es2 & H & H2 & ->). destruct (edges_from_rows rows1) as [es1|]; [|done].
    enough (Raise e0 = Ok (es1 ++ es2)) by done. apply IH. by exists es1, es2.
Qed.

Lemma edges_from_rows_delete ids rows es :
  edges_from_rows rows = Ok es → edges_from_rows (delete_rows ids rows).1 = Ok (filter (λ kv, kv.1 ∉ ids) es).
Proof.
  unfold delete_rows. cbn [fst]. revert es; induction rows as [|[k row] rows IH]; intros es; cbn [edges_from_rows]; [by intros [= <-]|].
  destruct (edge_from_row row) as [e|] eqn:Er; [|done]. destruct (edges_from_rows rows) as [es'|]; [|done]. cbn [mbind outcome_bind].
  intros [= <-]. rewrite !filter_cons. cbn [fst]. case_decide; [|by apply IH]. cbn [edges_from_rows]. by rewrite Er, (IH es').
Qed.

Lemma edges_from_rows_keys rows es : edges_from_rows rows = Ok es → dkeys es = dkeys rows.
Proof.
  revert es; induction rows as [|[k row] rows IH]; intros es; cbn [edges_from_rows]; [by intros [= <-]|].
  destruct (edge_from_row row) as [e|]; [|done]. destruct (edges_from_rows rows) as [es'|]; [|done]. cbn [mbind outcome_bind].
  intros [= <-]. unfold dkeys in *. rewrite !fmap_cons. f_equal. by apply IH.
Qed.

Lemma edges_from_rows_ui (l : pydict EdgeState) : edges_from_rows ((λ kv, (kv.1, edge_to_ui kv.2)) <$> l) = Ok l.
Proof. induction l as [|[k e] l IH]; [done|]. rewrite fmap_cons. cbn [edges_from_rows fst snd]. rewrite IH. by destruct e. Qed.

(** *** One run of [apply_graph_changes] *)

Section Run.
Context (db : GraphDB) (s : GraphState) (patch : GraphPatchSchema) (prep : PreparedPatch).
Context (positions : PositionChanges) (kept new : pydict NodeState) (links : pydict EdgeState).
Abbreviation r := (pp_references prep).
Abbreviation refs := (rp_node_ids_by_ref r).
Abbreviation p := (apply_patch_to_state s r).
Abbreviation π := (renamed uuid4 refs).
Abbreviation additions := (length (gp_add_nodes patch) + length (gp_add_connections patch))%nat.
Hypothesis Hwf : dwf (g_nodes db).
Hypothesis Hs : load_snapshot db = Ok s.
Hypothesis Hres : resolve_patch patch (dkeys (st_nodes s)) (dkeys (st_edges s)) = Ok r.
Hypothesis Hp : patched s r p kept new links.
Hypothesis Hpos : dwf (moved_nodes positions).
Hypothesis Hmoved : ∀ id, id ∈ dkeys (moved_nodes positions) → id ∈ dkeys (st_nodes (pa_graph p)).
Hypothesis Hgraph : pp_graph prep = foldl place_node (pa_graph p) (moved_nodes positions).
Hypothesis Hbuild : build_operations (pp_graph prep) (pa_changes p) positions = Ok (pp_payload prep).
Hypothesis Hfresh : fresh_ids uuid4 additions db.
Hypothesis Hmark : unmarked (pp_graph prep).

Lemma snapshot_nodes id : dget (st_nodes s) id = node_from_row <$> dget (g_nodes db) id.
Proof.
  unfold load_snapshot in Hs. destruct (edges_from_rows (g_edges db)); [|done]. injection Hs as <-. apply (dget_map_key (λ _, node_from_row)).
Qed.

Lemma snapshot_keys : dkeys (st_nodes s) = dkeys (g_nodes db).
Proof.
  unfold load_snapshot in Hs. destruct (edges_from_rows (g_edges db)); [|done]. injection Hs as <-. cbn [st_nodes]. unfold dkeys.
  rewrite <-list_fmap_compose. by apply list_fmap_ext.
Qed.

Lemma snapshot_edges : edges_from_rows (g_edges db) = Ok (st_edges s).
Proof. unfold load_snapshot in Hs. destruct (edges_from_rows (g_edges db)); [|done]. by injection Hs as <-. Qed.

Lemma refs_nodes : dvals refs = new.*1.
Proof. destruct (resolve_patch_spec _ _ _ _ Hres) as (_ & _ & E & _). by rewrite E, (pd_new_keys _ _ _ _ _ _ Hp). Qed.

Lemma new_NoDup : NoDup new.*1.
Proof. destruct (resolve_patch_spec _ _ _ _ Hres) as (H & _). by rewrite (pd_new_keys _ _ _ _ _ _ Hp). Qed.

Lemma new_fresh id : id ∈ new.*1 → id ∉ dkeys (g_nodes db).
Proof.
  destruct (resolve_patch_spec _ _ _ _ Hres) as (_ & H & _). rewrite (pd_new_keys _ _ _ _ _ _ Hp), <-snapshot_keys. apply H.
Qed.

Lemma refs_bound : (length refs + length links ≤ additions)%nat.
Proof.
  destruct (resolve_patch_spec _ _ _ _ Hres) as (_ & _ & E & H1 & H2). apply (f_equal length) in E. unfold dvals in E.
  rewrite !length_fmap in E. rewrite (pd_links_length _ _ _ _ _ _ Hp). lia.
Qed.

Lemma renamed_added id : id ∈ new.*1 → ∃ i, (i < length refs)%nat ∧ new.*1 !! i = Some id ∧ π id = "node_" +:+ uuid4 i.
Proof.
  intros [i Hi]%list_elem_of_lookup. exists i. pose proof refs_nodes as E. pose proof new_NoDup as Hnd. rewrite <-E in *.
  split_and!; [|done|by apply renamed_new]. apply lookup_lt_Some in Hi. unfold dvals in Hi. by rewrite length_fmap in Hi.
Qed.

Lemma renamed_new_fresh id : id ∈ new.*1 → π id ∉ dkeys (g_nodes db).
Proof.
  intros (i & Hi & _ & ->)%renamed_added. pose proof refs_bound. destruct Hfresh as [_ Hf]. apply (Hf i). lia.
Qed.

Lemma renamed_known id : id ∈ dkeys (g_nodes db) → π id = id.
Proof. intros Hid. apply renamed_old. rewrite refs_nodes. intros Hn. by apply (new_fresh id). Qed.

(** The names of the nodes stay distinct. *)
Lemma renamed_inj a b : a ∈ new.*1 → b ∈ new.*1 ∨ b ∈ dkeys (g_nodes db) → π a = π b → a = b.
Proof.
  intros Ha [Hb|Hb] E.
  - apply renamed_added in Ha as (i & Hi & Hia & Ea), Hb as (j & Hj & Hjb & Eb). rewrite Ea, Eb in E. apply string_app_inj in E.
    pose proof refs_bound. destruct Hfresh as [Hinj _]. apply Hinj in E; [|lia..]. congruence.
  - rewrite (renamed_known b) in E by done. destruct (renamed_new_fresh a Ha). by rewrite E.
Qed.

Lemma kept_keys id : id ∈ dkeys kept ↔ id ∈ dkeys (g_nodes db) ∧ id ∉ rp_delete_node_ids r.
Proof. rewrite (pd_kept_keys _ _ _ _ _ _ Hp), snapshot_keys, list_elem_of_filter. tauto. Qed.

Lemma prepared_keys : dkeys (st_nodes (pp_graph prep)) = dkeys kept ++ new.*1.
Proof.
  destruct (place_nodes_spec _ (pa_graph p) Hpos) as (_ & _ & H & _). rewrite Hgraph, H, (pd_nodes _ _ _ _ _ _ Hp). unfold dkeys. by rewrite fmap_app.
Qed.

(** The working copy of a node, by where it comes from. *)
Lemma prepared_node id :
  dget (st_nodes (pp_graph prep)) id =
    maybe_placed (dget (moved_nodes positions) id) <$> (match dget kept id with Some n => Some n | None => dget new id end).
Proof.
  destruct (place_nodes_spec _ (pa_graph p) Hpos) as (_ & _ & _ & H). rewrite Hgraph, H, (pd_nodes _ _ _ _ _ _ Hp). by rewrite dget_app.
Qed.

Abbreviation payload := (materialize uuid4 refs (pp_payload prep)).

Definition stored_nodes : pydict NodeRow :=
  (update_rows update_graph_node (nodes_to_update payload)
     ((delete_rows (nodes_to_delete payload) (g_nodes db)).1 ++ nodes_to_create payload)).1.

Lemma created_rows :
  (nodes_to_create (pp_payload prep)).*1 `sublist_of` sorted_set new.*1 ∧
  ∀ id, id ∈ new.*1 → dget (nodes_to_create payload) (π id) = dget (st_nodes (pp_graph prep)) id ≫= ui_row ∧
    ∀ n, dget (st_nodes (pp_graph prep)) id = Some n → is_Some (ui_row n).
Proof.
  destruct (build_operations_spec _ _ _ _ Hbuild) as (_ & Hc & _). apply nodes_to_ui_spec in Hc as (H1 & H2 & H3).
  rewrite (pd_created _ _ _ _ _ _ Hp), <-(pd_new_keys _ _ _ _ _ _ Hp) in H1, H2, H3. split; [done|]. intros id Hid. split.
  - etrans; [apply (dget_rename π)|].
    + intros k Hk E. apply (renamed_inj k id); [|by left|done]. apply elem_of_sorted_set. by eapply elem_of_sublist.
    + rewrite H3, decide_True; [done|]. by apply elem_of_sorted_set.
  - intros n. apply H2. by apply elem_of_sorted_set.
Qed.

(** An added node is stored as it was prepared. *)
Lemma stored_added id n :
  id ∈ new.*1 → dget (st_nodes (pp_graph prep)) id = Some n → node_from_row <$> dget stored_nodes (π id) = Some n.
Proof.
  intros Hid Hn. pose proof (renamed_new_fresh id Hid) as Hf. destruct created_rows as [_ Hc]. destruct (Hc id Hid) as [Hrow Hui]. clear Hc.
  destruct (build_operations_spec _ _ _ _ Hbuild) as (Hd & _ & _ & _ & _ & _ & _ & _ & Hu).
  unfold stored_nodes. rewrite dget_update_rows, dget_app, dget_delete_rows. change (nodes_to_update payload) with (nodes_to_update (pp_payload prep)).
  rewrite (proj2 (dget_None (g_nodes db) (π id)) Hf). rewrite Hrow, Hn. cbn [mbind option_bind]. destruct (Hui n Hn) as [row Er].
  assert (π id ∉ dkeys kept) as Hk by (rewrite kept_keys; tauto).
  assert (dget (nodes_to_update (pp_payload prep)) (π id) = None) as ->.
  { rewrite Hu. rewrite (pd_updated _ _ _ _ _ _ Hp), (pd_created _ _ _ _ _ _ Hp), <-(pd_new_keys _ _ _ _ _ _ Hp).
    rewrite decide_False by (by intros ?%(pd_present _ _ _ _ _ _ Hp)). case_decide as Hcu; [done|].
    rewrite (proj2 (dget_None (moved_nodes positions) (π id))); [done|]. intros Hm%Hmoved.
    rewrite (pd_nodes _ _ _ _ _ _ Hp) in Hm. unfold dkeys in Hm, Hk. rewrite fmap_app in Hm. set_solver. }
  assert (ns_selected n = false) as Hsel.
  { rewrite prepared_node in Hn. rewrite (proj2 (dget_None kept id)) in Hn by (rewrite kept_keys; intros [? _]; by apply (new_fresh id)).
    destruct (dget new id) as [n0|] eqn:En; [|done]. cbn in Hn. injection Hn as <-.
    apply dget_elem_of in En. apply (pd_new_selected _ _ _ _ _ _ Hp) in En. by destruct (dget (moved_nodes positions) id). }
  rewrite Er. destruct (decide (π id ∈ nodes_to_delete payload)); cbn; by rewrite (ui_row_roundtrip n row).
Qed.

(** A node that was there is stored with its patch. *)
Lemma stored_kept id n :
  id ∈ dkeys kept → dget (st_nodes (pp_graph prep)) id = Some n → node_from_row <$> dget stored_nodes (π id) = Some (stored_as s id n).
Proof.
  intros Hid Hn. pose proof Hid as [Hdb Hdel]%kept_keys. rewrite renamed_known by done.
  destruct (build_operations_spec _ _ _ _ Hbuild) as (Hd & _ & _ & _ & _ & _ & _ & Hui & Hu). rewrite (pd_deleted _ _ _ _ _ _ Hp) in Hd.
  assert (id ∉ new.*1) as Hnew by (intros ?; by apply (new_fresh id)). apply dget_is_Some in Hdb as [row0 Hrow0].
  unfold stored_nodes. rewrite dget_update_rows, dget_app, dget_delete_rows. change (nodes_to_update payload) with (nodes_to_update (pp_payload prep)).
  change (nodes_to_delete payload) with (nodes_to_delete (pp_payload prep)). rewrite Hd, decide_False by (by rewrite elem_of_sorted_set).
  rewrite Hrow0. cbn [fmap option_fmap option_map]. f_equal.
  assert (dget (st_nodes s) id = Some (node_from_row row0)) as Hs0 by (by rewrite snapshot_nodes, Hrow0).
  rewrite Hu, (pd_updated _ _ _ _ _ _ Hp), (pd_created _ _ _ _ _ _ Hp), <-(pd_new_keys _ _ _ _ _ _ Hp).
  pose proof Hn as Hn'. rewrite prepared_node in Hn'. apply dget_is_Some in Hid as Hk. destruct Hk as [m Hm]. rewrite Hm in Hn'. cbn in Hn'.
  destruct (pd_kept _ _ _ _ _ _ Hp id m Hm) as (n0 & Hn0 & Hpos' & Hsel & Hst). rewrite Hs0 in Hn0. injection Hn0 as <-.
  destruct (decide (id ∈ un_id <$> rp_update_nodes r)) as [Hup|Hup].
  - rewrite (pd_updated _ _ _ _ _ _ Hp) in Hui. destruct (Hui id n Hup Hn) as [row Er]. rewrite Hn. cbn [mbind option_bind]. rewrite Er.
    destruct (Hmark id n Hn) as [Hc Hsg]. apply full_patch_row; try done.
    + injection Hn' as <-. by destruct (dget (moved_nodes positions) id).
    + injection Hn' as <-. by destruct (dget (moved_nodes positions) id).
  - rewrite decide_False by (by rewrite elem_of_app; intros [?|?]).
    rewrite (pd_same _ _ _ _ _ _ Hp) in Hm by done. rewrite Hs0 in Hm. injection Hm as <-. injection Hn' as <-.
    rewrite (stored_as_same s id _ (node_from_row row0) Hs0) by (by destruct (dget (moved_nodes positions) id)).
    destruct (dget (moved_nodes positions) id); [apply position_patch_row|done].
Qed.

Lemma stored_keys id : id ∈ dkeys stored_nodes → ∃ id', id' ∈ dkeys (st_nodes (pp_graph prep)) ∧ id = π id'.
Proof.
  intros Hk. apply dget_is_Some in Hk as [row Hrow]. unfold stored_nodes in Hrow. rewrite dget_update_rows, dget_app, dget_delete_rows in Hrow.
  destruct (build_operations_spec _ _ _ _ Hbuild) as (Hd & _). change (nodes_to_delete payload) with (nodes_to_delete (pp_payload prep)) in Hrow.
  rewrite Hd, (pd_deleted _ _ _ _ _ _ Hp) in Hrow. rewrite prepared_keys.
  destruct (if decide (id ∈ sorted_set (rp_delete_node_ids r)) then None else dget (g_nodes db) id) as [row0|] eqn:E.
  - case_decide as Hdel; [done|]. rewrite elem_of_sorted_set in Hdel. assert (id ∈ dkeys (g_nodes db)) as Hdb by (apply dget_is_Some; eauto).
    exists id. split; [apply elem_of_app; left; by apply kept_keys|]. by rewrite renamed_known.
  - destruct (dget (nodes_to_create payload) id) as [row0|] eqn:Ec; [|done]. apply dget_elem_of in Ec.
    unfold materialize in Ec. cbn [nodes_to_create] in Ec. apply list_elem_of_fmap in Ec as ([k v] & [= -> ->] & Hin).
    exists k. split; [|done]. apply elem_of_app. right. apply elem_of_sorted_set. eapply elem_of_sublist; [|apply created_rows].
    by apply (list_elem_of_fmap_2 fst) in Hin.
Qed.

Lemma created_keys :
  NoDup (nodes_to_create payload).*1 ∧ ∀ k, k ∈ (nodes_to_create payload).*1 → k ∉ dkeys (g_nodes db).
Proof.
  destruct created_rows as [Hsub _]. assert (∀ x, x ∈ (nodes_to_create (pp_payload prep)).*1 → x ∈ new.*1) as Hin.
  { intros x Hx. apply elem_of_sorted_set. by eapply elem_of_sublist. }
  assert ((nodes_to_create payload).*1 = π <$> (nodes_to_create (pp_payload prep)).*1) as ->.
  { unfold materialize. cbn [nodes_to_create]. by rewrite <-!list_fmap_compose. }
  split.
  - apply NoDup_fmap_2_strong; [|eapply sublist_NoDup; [apply NoDup_sorted_set|exact Hsub]].
    intros a b Ha Hb. apply renamed_inj; auto.
  - intros k (x & -> & Hx)%list_elem_of_fmap. by apply renamed_new_fresh, Hin.
Qed.

Lemma stored_wf : dwf stored_nodes.
Proof.
  destruct created_keys as [Hnd Hf]. unfold dwf, stored_nodes.
  assert (∀ P f (l : list (string * P)) (t : pydict NodeRow), dkeys (update_rows f l t).1 = dkeys t) as ->.
  { intros P f l t. unfold update_rows, dkeys. cbn [fst]. rewrite <-list_fmap_compose. by apply list_fmap_ext. }
  unfold dkeys. rewrite fmap_app. apply NoDup_app. unfold delete_rows. cbn [fst].
  assert (∀ x, x ∈ (filter (λ kv : string * NodeRow, kv.1 ∉ nodes_to_delete payload) (g_nodes db)).*1 → x ∈ dkeys (g_nodes db)) as Hin.
  { intros x (kv & -> & [_ Hkv]%list_elem_of_filter)%list_elem_of_fmap. by apply list_elem_of_fmap_2. }
  split_and!; [|by intros x Hx%Hin Hx2; apply (Hf x)|done].
  eapply sublist_NoDup; [exact Hwf|]. by apply fmap_sublist, sublist_filter.
Qed.

(** The nodes of the stored graph are those of the working copy, under their permanent ids. *)
Lemma stored_nodes_spec :
  (λ kv, (kv.1, node_from_row kv.2)) <$> stored_nodes ≡ₚ (λ kv, (π kv.1, stored_as s kv.1 kv.2)) <$> st_nodes (pp_graph prep).
Proof.
  assert (dwf (st_nodes (pp_graph prep))) as Hg.
  { unfold dwf. rewrite prepared_keys. apply NoDup_app. split_and!; [|by intros x [? _]%kept_keys ?; apply (new_fresh x)|apply new_NoDup].
    rewrite (pd_kept_keys _ _ _ _ _ _ Hp), snapshot_keys. by apply NoDup_filter. }
  assert (∀ id n, dget (st_nodes (pp_graph prep)) id = Some n → node_from_row <$> dget stored_nodes (π id) = Some (stored_as s id n)) as Hst.
  { intros id n Hn. assert (id ∈ dkeys (st_nodes (pp_graph prep))) as Hid by (apply dget_is_Some; eauto).
    rewrite prepared_keys in Hid. apply elem_of_app in Hid as [Hid|Hid]; [by apply stored_kept|]. rewrite (stored_added id n) by done.
    unfold stored_as. destruct (ns_inputs n) eqn:Ei; [|done]. rewrite snapshot_nodes, (proj2 (dget_None (g_nodes db) id)) by (by apply new_fresh).
    destruct n. cbn in *. by rewrite Ei. }
  apply dict_Permutation.
  - unfold dwf, dkeys. rewrite <-list_fmap_compose. rewrite (list_fmap_ext _ fst) by done. apply stored_wf.
  - unfold dwf, dkeys. rewrite <-list_fmap_compose. rewrite (list_fmap_ext _ (π ∘ fst)) by done. rewrite list_fmap_compose.
    apply NoDup_fmap_2_strong; [|done]. intros a b. change ((st_nodes (pp_graph prep)).*1) with (dkeys (st_nodes (pp_graph prep))).
    rewrite prepared_keys, !elem_of_app, !kept_keys. intros [[Ha _]|Ha] [[Hb _]|Hb] E.
    + by rewrite !renamed_known in E.
    + symmetry. apply renamed_inj; auto.
    + apply renamed_inj; auto.
    + apply renamed_inj; auto.
  - intros k v. rewrite !list_elem_of_fmap. split.
    + intros ([k' row] & [= -> ->] & Hin). apply elem_of_dget in Hin; [|apply stored_wf].
      assert (k' ∈ dkeys stored_nodes) as (id & Hid & ->)%stored_keys by (apply dget_is_Some; eauto). apply dget_is_Some in Hid as [n Hn].
      specialize (Hst id n Hn). rewrite Hin in Hst. exists (id, n). split; [injection Hst as Hst; cbn [fst snd]; by rewrite <-Hst|by apply dget_elem_of].
    + intros ([id n] & [= -> ->] & Hin). apply elem_of_dget in Hin; [|done]. specialize (Hst id n Hin).
      destruct (dget stored_nodes (π id)) as [row|] eqn:Hrow; [|done]. exists (π id, row). split; [injection Hst as Hst; cbn [fst snd]; by rewrite Hst|by apply dget_elem_of].
Qed.

(** The edges: the kept ones, and the added ones under their new ids. *)
Lemma stored_edges_spec :
  NoDup (edges_to_create payload).*1 ∧ (∀ k, k ∈ (edges_to_create payload).*1 → k ∉ dkeys (g_edges db)) ∧
  ∃ old, old `sublist_of` st_edges s ∧ st_edges (pp_graph prep) = old ++ links ∧
    edges_from_rows ((delete_rows (edges_to_delete payload) (g_edges db)).1 ++ edges_to_create payload) =
      Ok (old ++ named_links uuid4 refs links).
Proof.
  destruct (build_operations_spec _ _ _ _ Hbuild) as (_ & _ & Hd & Hc & _).
  destruct (place_nodes_spec _ (pa_graph p) Hpos) as (Hedges & _). rewrite <-Hgraph, (pd_links _ _ _ _ _ _ Hp) in Hedges.
  set (old := filter (λ kv, kv.1 ∉ deleted_edge_ids (pa_changes p)) (st_edges s)) in *.
  assert (edges_to_create (pp_payload prep) = (λ kv, (kv.1, edge_to_ui kv.2)) <$> links) as Hl.
  { rewrite Hc, Hedges, (pd_created_links _ _ _ _ _ _ Hp), filter_app. rewrite (list_filter_none _ old), (list_filter_all _ links).
    - done.
    - intros kv. apply list_elem_of_fmap_2.
    - intros [k e] Hin Hk. apply (pd_links_new _ _ _ _ _ _ Hp k Hk). apply (list_elem_of_fmap_2 fst) in Hin. exact Hin. }
  assert (edges_to_create payload = (λ kv, (kv.1, edge_to_ui kv.2)) <$> named_links uuid4 refs links) as Hn.
  { unfold materialize, named_links. cbn [edges_to_create]. rewrite Hl, imap_fmap, fmap_imap. by apply imap_ext. }
  pose proof refs_bound as Hb. destruct Hfresh as [Hinj Hf]. rewrite Hn.
  assert (((λ kv : string * EdgeState, (kv.1, edge_to_ui kv.2)) <$> named_links uuid4 refs links).*1 = imap (λ i _, "edge_" +:+ uuid4 (length refs + i)%nat) links) as Hk.
  { unfold named_links. rewrite <-list_fmap_compose, fmap_imap. by apply imap_ext. }
  rewrite Hk. split_and!.
  - apply NoDup_alt. intros i j x. rewrite !list_lookup_imap. destruct (links !! i) eqn:Hi, (links !! j) eqn:Hj; cbn; try done.
    apply lookup_lt_Some in Hi, Hj. intros [= <-] [= E]. apply string_app_inj, Hinj in E; lia.
  - intros k Hin. apply elem_of_lookup_imap_1 in Hin as (i & e & -> & Hi). apply lookup_lt_Some in Hi. apply (Hf (length refs + i)%nat). lia.
  - exists old. split_and!; [by apply sublist_filter|done|]. apply edges_from_rows_app. exists old, (named_links uuid4 refs links).
    split_and!; [|apply edges_from_rows_ui|done]. change (edges_to_delete payload) with (edges_to_delete (pp_payload prep)). rewrite Hd.
    rewrite (edges_from_rows_delete _ _ _ snapshot_edges). f_equal. apply list_filter_iff. intros [k e]. cbn. by rewrite elem_of_sorted_set.
Qed.

End Run.

(** [uuid4] gives enough new ids for the additions of the patch. *)
Definition enough_ids (patch : GraphPatchSchema) (db : GraphDB) : Prop :=
  fresh_ids uuid4 (length (gp_add_nodes patch) + length (gp_add_connections patch)) db.

(** The layout is a dictionary of positions. *)
Definition layout_is_dict : Prop := ∀ g before full l, calculate_layout g before full = Some l → dwf (moved_nodes l).

(** The operations of a prepared patch succeed, and what they leave. *)
Lemma patch_is_stored accessible revision etag patch db s prep :
  layout_is_dict → dwf (g_nodes db) → enough_ids patch db →
  _checked_snapshot accessible revision etag db = Ok s → prepare_patch s patch = Ok prep → unmarked (pp_graph prep) →
  let refs := rp_node_ids_by_ref (pp_references prep) in
  ∃ db' r task s' old links,
    apply_graph_changes accessible revision etag patch db = Ok (db', r, task, prep) ∧ load_snapshot db' = Ok s' ∧
    dwf (st_nodes s') ∧ (∀ id, id ∈ dkeys (st_nodes s) → renamed uuid4 refs id = id) ∧
    st_nodes s' ≡ₚ (λ kv, (renamed uuid4 refs kv.1, stored_as s kv.1 kv.2)) <$> st_nodes (pp_graph prep) ∧
    old `sublist_of` st_edges s ∧ st_edges (pp_graph prep) = old ++ links ∧
    st_edges s' = old ++ named_links uuid4 refs links.
Proof.
  intros Hlay Hwf Hids Hc Hprep Hmark refs.
  assert (load_snapshot db = Ok s) as Hs.
  { unfold _checked_snapshot in Hc. destruct accessible; [|done]. cbn [negb] in Hc. destruct (load_snapshot db); [|done].
    cbn [mbind outcome_bind] in Hc. by destruct (check_graph_version _ _ _); simplify_eq. }
  destruct (prepare_patch_inv _ _ _ Hprep) as (positions & Hres & He & Ha & Hg & _ & Hb).
  destruct (apply_patch_spec _ _ He) as (kept & new & links & Hp). destruct (arrange_graph_inv _ _ _ _ Hlay Ha) as [Hpos Hmoved].
  pose proof (build_operations_spec _ _ _ _ Hb) as (_ & _ & _ & _ & H5 & H6 & H7 & _).
  destruct (created_keys db s patch prep positions kept new links) as [N1 N2]; [done..|].
  destruct (stored_edges_spec db s patch prep positions kept new links) as (E1 & E2 & old & Hold & Hedges & Hrows); [done..|]. fold refs in Hrows.
  destruct (process_ok (materialize uuid4 refs (pp_payload prep)) db) as (db' & r & task & Hop & Hn & Hse); [done..|].
  exists db', r, task, (mkGraphState ((λ kv, (kv.1, node_from_row kv.2)) <$> g_nodes db') (old ++ named_links uuid4 refs links) (g_subgraphs db')), old, links.
  split_and!; [| | | | |done..].
  - unfold apply_graph_changes. rewrite Hc. cbn [mbind outcome_bind]. rewrite Hprep. cbn [mbind outcome_bind].
    unfold execute_operations. fold refs. by rewrite Hop.
  - unfold load_snapshot. by rewrite Hse, Hrows.
  - cbn [st_nodes]. rewrite Hn. unfold dwf, dkeys. rewrite <-list_fmap_compose, (list_fmap_ext _ fst) by done.
    by apply (stored_wf db s patch prep positions kept new links).
  - intros id Hid. apply (renamed_known db s patch prep positions kept new links); [done..|]. by rewrite <-(snapshot_keys db s patch prep positions kept new links).
  - rewrite Hn. by apply (stored_nodes_spec db s patch prep positions kept new links).
Qed.

(** C6. What [validate_graph_changes] accepts, [apply_graph_changes] stores: once a patch has been prepared
    the operations cannot fail, and the stored graph is the prepared one, up to the permanent ids of
    the added nodes and edges; only a node whose last input was removed keeps the inputs it had. *)
Theorem accepted_patch_is_stored accessible revision etag patch db s prep :
  layout_is_dict → dwf (g_nodes db) → enough_ids patch db →
  _checked_snapshot accessible revision etag db = Ok s → prepare_patch s patch = Ok prep → unmarked (pp_graph prep) →
  let refs := rp_node_ids_by_ref (pp_references prep) in
  ∃ db' r task s' old links,
    apply_graph_changes accessible revision etag patch db = Ok (db', r, task, prep) ∧ load_snapshot db' = Ok s' ∧
    st_nodes s' ≡ₚ (λ kv, (renamed uuid4 refs kv.1, stored_as s kv.1 kv.2)) <$> st_nodes (pp_graph prep) ∧
    old `sublist_of` st_edges s ∧ st_edges (pp_graph prep) = old ++ links ∧
    st_edges s' = old ++ named_links uuid4 refs links.
Proof.
  intros Hlay Hwf Hids Hc Hprep Hmark refs.
  destruct (patch_is_stored accessible revision etag patch db s prep) as (db' & r & task & s' & old & links & ? & ? & _ & _ & ?); [done..|].
  by exists db', r, task, s', old, links.
Qed.

(** ** Accepted graphs *)

(** Every node is of an available class; every edge joins two nodes of the graph, from a declared output
    to a declared input. *)
Record connected (g : GraphState) : Prop := {
  cn_nodes id n : (id, n) ∈ st_nodes g → is_Some (available_definitions (ns_node_type n));
  cn_edges k e : (k, e) ∈ st_edges g → ∃ n1 n2 d1 d2,
    dget (st_nodes g) (es_source e) = Some n1 ∧ available_definitions (ns_node_type n1) = Some d1 ∧
    source_output e ∈ dkeys (def_outputs d1) ∧
    dget (st_nodes g) (es_target e) = Some n2 ∧ available_definitions (ns_node_type n2) = Some d2 ∧
    target_input e ∈ dkeys (def_inputs d2);
}.

(** The pipeline of the graph passes validation. *)
Definition pipeline_typed (g : GraphState) : Prop :=
  ∃ rows pipeline, node_rows (st_nodes g) = Ok rows ∧
    build_pipeline_from_graph (graph_node_record <$> rows) (graph_edge_record <$> edge_rows (st_edges g)) None = Ok pipeline ∧
    well_typed pipeline.

Lemma built_pipeline_wf nodes edges p : build_pipeline_from_graph nodes edges None = Ok p → dwf p.
Proof.
  intros (p0 & H1 & H2)%build_pipeline_split. revert H2.
  apply (foldM_ind (add_service_output edges (_normalize_target_nodes None)) (λ _ p, dwf p)).
  - intros pre x post b b' _ Hb [[_ ->]|[_ ->]]%add_service_output_spec; [by apply dwf_dset|done].
  - revert H1. apply (foldM_ind (build_node edges) (λ _ p, dwf p)); [|apply dwf_nil].
    intros pre x post b b' _ Hb (nd & -> & _)%build_node_spec. by apply dwf_dset.
Qed.

(** No port error: each edge was found between declared ports. *)
Lemma edge_port_errors_nil g :
  edge_port_errors g = Ok [] → ∀ item, item ∈ st_edges g → source_port_error g item = Ok [] ∧ target_port_error g item = Ok [].
Proof.
  intros H. cut (([] : list Diagnostic) = [] → ∀ item, item ∈ st_edges g → source_port_error g item = Ok [] ∧ target_port_error g item = Ok []); [by intros Hc; apply Hc|].
  revert H. unfold edge_port_errors. generalize ([] : list Diagnostic) at 2 3 as errors. intros errors.
  apply (foldM_ind _ (λ seen errors, errors = [] → ∀ item, item ∈ seen → source_port_error g item = Ok [] ∧ target_port_error g item = Ok [])).
  - intros pre item post b b' _ IH. destruct (source_port_error g item) as [e1|] eqn:E1; [|done]. cbn [mbind outcome_bind].
    destruct (target_port_error g item) as [e2|] eqn:E2; [|done]. cbn [mbind outcome_bind]. intros [= <-].
    intros (-> & (-> & ->)%app_eq_nil)%app_eq_nil item' [Hin| ->%list_elem_of_singleton]%elem_of_app; [by apply IH|done].
  - intros _ item Hin. by apply not_elem_of_nil in Hin.
Qed.

Lemma validated_is_accepted g changes ws : validate_prepared_graph g changes = Ok ([], ws) → connected g ∧ pipeline_typed g.
Proof.
  unfold validate_prepared_graph. destruct (edge_port_errors g) as [ports|] eqn:Ep; [|done]. cbn [mbind outcome_bind].
  destruct (match ports with [] => pipeline_errors g | _ :: _ => Ok [] end) as [rest|] eqn:Er; [|done]. cbn [mbind outcome_bind].
  intros [= Hnil _]. apply app_eq_nil in Hnil as [[Hnodes _]%app_eq_nil [-> ->]%app_eq_nil].
  pose proof (edge_port_errors_nil g Ep) as Hports.
  assert (∀ id n, (id, n) ∈ st_nodes g → is_Some (available_definitions (ns_node_type n))) as Hav.
  { intros id n Hin. destruct (available_definitions (ns_node_type n)) eqn:Ha; [eauto|]. exfalso.
    apply (not_elem_of_nil (NODE_NOT_AVAILABLE id (ns_node_type n))). rewrite <-Hnodes. apply list_elem_of_bind. exists (id, n).
    split; [|done]. unfold node_errors_of. cbn [snd fst]. rewrite Ha. left. }
  split; [split; [done|]|].
  - intros k e Hin. destruct (Hports (k, e) Hin) as [H1 H2]. unfold source_port_error in H1. unfold target_port_error in H2. cbn [fst snd] in H1, H2.
    destruct (dget (st_nodes g) (es_source e)) as [n1|] eqn:N1; [|done]. destruct (dget (st_nodes g) (es_target e)) as [n2|] eqn:N2; [|done].
    destruct (Hav _ _ (dget_elem_of _ _ _ N1)) as [d1 D1]. destruct (Hav _ _ (dget_elem_of _ _ _ N2)) as [d2 D2]. rewrite D1 in H1. rewrite D2 in H2.
    destruct (dmem (def_outputs d1) (source_output e)) eqn:M1; [|done]. destruct (dmem (def_inputs d2) (target_input e)) eqn:M2; [|done].
    unfold dmem in M1, M2. apply bool_decide_eq_true in M1, M2. exists n1, n2, d1, d2. by split_and!.
  - unfold pipeline_typed. unfold pipeline_errors in Er. destruct (node_rows (st_nodes g)) as [rows|]; [|done]. cbn [mbind outcome_bind] in Er.
    exists rows. destruct rows as [|row rows]; [done|].
    destruct (build_pipeline_from_graph _ _ _) as [pipeline|] eqn:Eb; [|done]. exists pipeline. split_and!; [done..|].
    apply valid_iff_well_typed; [by eapply built_pipeline_wf|]. by destruct (is_valid _).
Qed.

(** Edges of a stored graph join nodes of it. *)
Definition edges_closed (s : GraphState) : Prop :=
  ∀ k e, (k, e) ∈ st_edges s → es_source e ∈ dkeys (st_nodes s) ∧ es_target e ∈ dkeys (st_nodes s).

Lemma stored_as_type before id n : ns_node_type (stored_as before id n) = ns_node_type n.
Proof. unfold stored_as. by destruct (ns_inputs n). Qed.

(** Renaming nodes and storing their last inputs keeps a graph connected. *)
Lemma connected_renamed π before (g s' : GraphState) old links :
  connected g → dwf (st_nodes s') → st_nodes s' ≡ₚ (λ kv, (π kv.1, stored_as before kv.1 kv.2)) <$> st_nodes g →
  st_edges g = old ++ links → (∀ k e, (k, e) ∈ old → rename_edge π e = e) →
  (∀ k e, (k, e) ∈ st_edges s' → (k, e) ∈ old ∨ ∃ k0 e0, (k0, e0) ∈ links ∧ e = rename_edge π e0) → connected s'.
Proof.
  intros [Hn He] Hwf Hperm Hg Hold Hnew.
  assert (∀ id n, dget (st_nodes g) id = Some n → dget (st_nodes s') (π id) = Some (stored_as before id n)) as Hget.
  { intros id n Hin%dget_elem_of. apply elem_of_dget; [done|]. rewrite Hperm. apply list_elem_of_fmap. by exists (id, n). }
  split.
  - intros id n. rewrite Hperm. intros ([id0 n0] & [= -> ->] & Hin)%list_elem_of_fmap. cbn [fst snd]. rewrite stored_as_type. by eapply Hn.
  - intros k e Hin. assert (∃ k0 e0, (k0, e0) ∈ st_edges g ∧ e = rename_edge π e0) as (k0 & e0 & Hin0 & ->).
    { rewrite Hg. destruct (Hnew k e Hin) as [Ho|(k0 & e0 & Hl & ->)].
      - exists k, e. split; [apply elem_of_app; by left|]. by rewrite (Hold k e).
      - exists k0, e0. split; [apply elem_of_app; by right|done]. }
    destruct (He k0 e0 Hin0) as (n1 & n2 & d1 & d2 & N1 & D1 & O1 & N2 & D2 & O2).
    exists (stored_as before (es_source e0) n1), (stored_as before (es_target e0) n2), d1, d2.
    rewrite !stored_as_type. cbn [rename_edge es_source es_target]. split_and!; [by apply Hget|done|done|by apply Hget|done|done].
Qed.

(** C7. What [apply_graph_changes] leaves in the database is a connected graph: loaded again, every node is of
    an available class and every edge joins two nodes that are there, from an output the source declares to an
    input the target declares. The patch was made on the revision and the fingerprint the agent had read, the
    same call of [validate_graph_changes] accepts it, and the pipeline of the prepared graph is well typed
    (for the difference between the prepared and the stored graph see [accepted_patch_is_stored]). It is
    assumed that the edges of the graph before joined its nodes, that node ids and new ids are unique, and that
    no text is the marker [UNSET]. *)
Theorem applied_patches_leave_connected_graphs accessible revision etag patch db s db' r task prep :
  layout_is_dict → dwf (g_nodes db) → enough_ids patch db → load_snapshot db = Ok s → edges_closed s → unmarked (pp_graph prep) →
  apply_graph_changes accessible revision etag patch db = Ok (db', r, task, prep) →
  (∃ s', load_snapshot db' = Ok s' ∧ connected s') ∧
  accessible = true ∧ g_revision db = revision ∧ graph_etag db = etag ∧
  validate_graph_changes accessible revision etag patch db = Ok (pp_warnings prep) ∧ pipeline_typed (pp_graph prep).
Proof.
  intros Hlay Hwf Hids Hs Hclosed Hmark Happ. pose proof Happ as Hrun. revert Hrun. unfold apply_graph_changes at 1. unfold validate_graph_changes.
  destruct (_checked_snapshot accessible revision etag db) as [s0|] eqn:Hc; [|done].
  cbn [mbind outcome_bind]. destruct (prepare_patch s0 patch) as [prep'|] eqn:Hp; [|done]. cbn [mbind outcome_bind].
  destruct (execute_operations _ db) as [res|]; [|done]. cbn [mbind outcome_bind]. intros [= -> ->].
  assert (s0 = s ∧ accessible = true ∧ g_revision db = revision ∧ graph_etag db = etag) as (-> & Hacc & Hrev & Het).
  { unfold _checked_snapshot in Hc. destruct accessible; [|done]. cbn [negb] in Hc. rewrite Hs in Hc. cbn [mbind outcome_bind] in Hc.
    unfold check_graph_version in Hc. destruct (Z.eqb_spec (g_revision db) revision); [|done]. cbn [negb] in Hc.
    case_bool_decide; [|done]. cbn in Hc. by simplify_eq. }
  destruct (prepare_patch_inv _ _ _ Hp) as (positions & _ & _ & _ & _ & Hv & _). apply validated_is_accepted in Hv as [Hcon Hty].
  destruct (patch_is_stored accessible revision etag patch db s prep) as (db'' & r' & task' & s' & old & links & E & Hs' & Hwf' & Hren & Hnodes & Hold & Hedges & Hse);
    [done..|]. rewrite Happ in E. injection E as <- <- <-. split_and!; [|done..]. exists s'. split; [done|].
  eapply connected_renamed; [done|done|done|done| |].
  - intros k e Hin. destruct (Hclosed k e) as [H1 H2]; [by eapply elem_of_sublist|]. unfold rename_edge. rewrite !Hren by done. by destruct e.
  - intros k e. rewrite Hse. intros [Hin|Hin]%elem_of_app; [by left|right]. unfold named_links in Hin.
    apply elem_of_lookup_imap_1 in Hin as (i & [k0 e0] & [= -> ->] & Hi). exists k0, e0. split; [by eapply list_elem_of_lookup_2|done].
Qed.

End Apply.
