(* ===== verification/EditRun.v ===== *)
(** * Graph editing: concrete edits

    A stored graph of a reader that feeds a filter, inside a collapsed subgraph; a patch that removes
    the only input of the filter and adds a second filter behind it; the automatic layout; and a node
    that is deleted and created again in one batch. They instantiate the theorems of [EditDirty] and
    [EditApply], and show three behaviours of the store that the code around it does not expect. *)
From S2P Require Import Prelude PipelineTypes Graph NodeKwargs PipelineBuild PipelineValidate PipelineBuildRun EditStore EditDirty EditPatch EditFlow EditSpec EditApply.
Open Scope Z_scope.

Module EditRuns.
Import BuildRuns.
#[local] Existing Instance run_registry.
#[local] Existing Instance run_order.

Definition origin : Position := mkPosition 0 0.
Definition expr_input : pydict NodeRuntimeInputValue := [("expr", NodeInputConstantValue (VStr "x > 1"))].

Definition stored_node (name : string) (inputs : option (pydict NodeRuntimeInputValue)) : NodeRow :=
  mkNodeRow "custom" origin true name name (Some "c") inputs (Some false) false false (Some "g").

Definition stored_edge : EdgeRow := mkEdgeRow "custom" "n1" (Some "output-output") "n2" (Some "input-df") (Some "g").

(** The subgraph is collapsed and selected. *)
Definition subgraph : SubgraphRow := mkSubgraphRow "subgraph" origin true false "g" "Group" None None.

Definition stored : GraphDB :=
  mkGraphDB [("n1", stored_node "Read" None); ("n2", stored_node "Filter" (Some expr_input))] [("e1", stored_edge)]
    [("g", subgraph)] 3 [].

(** Nodes without a position go to (9, 9); the automatic layout also moves the subgraph there. *)
Definition place_all (g : GraphState) (full : bool) : PositionChanges :=
  mkPositions ((λ k, (k, mkPosition 9 9)) <$> remove_dups (filter (λ kv, ns_position kv.2 = None) (st_nodes g)).*1)
    (if full then [("g", mkPosition 9 9)] else []).

#[local] Instance run_env : EditEnv := {|
  calculate_layout g _ full := Some (place_all g full);
  available_definitions := definitions_get;
  node_checks _ _ _ := [];
  graph_etag _ := "v1";
  uuid4 i := pretty (Z.of_nat i);
|}.

Definition patch : GraphPatchSchema :=
  mkPatch [mkAddNode "f" "Filter" None (Some "second") None [] false]
    [mkUpdateNode "n2" None None None None (Some (Some [("expr", None)])) None] []
    [mkAddConnection (ExistingNodeReference "n2") "output" (NewNodeReference "f") "df" None] [].

Definition snapshot_of (o : outcome edit_exn GraphState) : GraphState :=
  match o with Ok s => s | Raise _ => mkGraphState [] [] [] end.

Definition before : GraphState := snapshot_of (load_snapshot stored).

Definition prepared : PreparedPatch :=
  match prepare_patch before patch with
  | Ok p => p
  | Raise _ => mkPrepared (mkOperations [] [] [] [] [] [] [] [] []) (mkResolved [] [] [] [] [] []) [] before
  end.

Lemma prepared_eq : prepare_patch before patch = Ok prepared.
Proof. vm_compute. reflexivity. Qed.

Definition after : outcome edit_exn (GraphDB * GraphOperationResponse * option MetadataTask * PreparedPatch) :=
  apply_graph_changes true 3 "v1" patch stored.

Definition db_of {A B C} (o : outcome edit_exn (GraphDB * A * B * C)) : GraphDB :=
  match o with Ok (db, _, _, _) => db | Raise _ => stored end.

Lemma run_layout : layout_is_dict.
Proof.
  intros g b full l [= <-]. unfold dwf, dkeys. cbn [moved_nodes place_all]. rewrite <-list_fmap_compose.
  rewrite (list_fmap_ext _ id) by done. rewrite list_fmap_id. apply NoDup_remove_dups.
Qed.

Lemma run_ids : enough_ids patch stored.
Proof.
  split.
  - intros i j Hi Hj. change (i < 2)%nat in Hi. change (j < 2)%nat in Hj.
    destruct i as [|[|i]]; [| |lia]; (destruct j as [|[|j]]; [| |lia]); vm_compute; done.
  - intros i Hi. change (i < 2)%nat in Hi.
    destruct i as [|[|i]]; [| |lia]; (split; apply (bool_decide_unpack _); vm_compute; exact I).
Qed.

Lemma run_unmarked : unmarked (pp_graph prepared).
Proof.
  assert (Forall (λ kv, ns_comment kv.2 ≠ Some UNSET ∧ ns_subgraph_id kv.2 ≠ Some UNSET) (st_nodes (pp_graph prepared))) as H
    by (apply (bool_decide_unpack _); vm_compute; exact I).
  intros id n Hn%dget_elem_of. rewrite Forall_forall in H. exact (H _ Hn).
Qed.

Lemma accepted_patch_is_stored_witness :
  let refs := rp_node_ids_by_ref (pp_references prepared) in
  ∃ db' r task s' old links,
    apply_graph_changes true 3 "v1" patch stored = Ok (db', r, task, prepared) ∧ load_snapshot db' = Ok s' ∧
    st_nodes s' ≡ₚ (λ kv, (renamed uuid4 refs kv.1, stored_as before kv.1 kv.2)) <$> st_nodes (pp_graph prepared) ∧
    old `sublist_of` st_edges before ∧ st_edges (pp_graph prepared) = old ++ links ∧
    st_edges s' = old ++ named_links uuid4 refs links.
Proof.
  apply (accepted_patch_is_stored true 3 "v1" patch stored before prepared run_layout).
  - apply (bool_decide_unpack _). vm_compute. exact I.
  - exact run_ids.
  - vm_compute. reflexivity.
  - exact prepared_eq.
  - exact run_unmarked.
Defined.

Definition result : GraphDB * GraphOperationResponse * option MetadataTask :=
  match after with Ok (res, _) => res | Raise _ => (stored, mkResponse [] [] [] [] [] [] [] [] [], None) end.

Lemma after_eq : apply_graph_changes true 3 "v1" patch stored = Ok (result.1.1, result.1.2, result.2, prepared).
Proof. vm_compute. reflexivity. Qed.

Lemma run_closed : edges_closed before.
Proof.
  assert (Forall (λ kv, es_source kv.2 ∈ dkeys (st_nodes before) ∧ es_target kv.2 ∈ dkeys (st_nodes before)) (st_edges before)) as H
    by (apply (bool_decide_unpack _); vm_compute; exact I).
  intros k e Hin. rewrite Forall_forall in H. exact (H _ Hin).
Qed.

Lemma applied_patches_leave_connected_graphs_witness :
  (∃ s', load_snapshot result.1.1 = Ok s' ∧ connected s') ∧
  true = true ∧ g_revision stored = 3 ∧ graph_etag stored = "v1" ∧
  validate_graph_changes true 3 "v1" patch stored = Ok (pp_warnings prepared) ∧ pipeline_typed (pp_graph prepared).
Proof.
  apply (applied_patches_leave_connected_graphs true 3 "v1" patch stored before result.1.1 result.1.2 result.2 prepared run_layout).
  - apply (bool_decide_unpack _). vm_compute. exact I.
  - exact run_ids.
  - vm_compute. reflexivity.
  - exact run_closed.
  - exact run_unmarked.
  - exact after_eq.
Defined.

(** The new edge changes what the added filter receives; the reader is not marked. *)
Definition operations : GraphOperationsAggregated :=
  materialize uuid4 (rp_node_ids_by_ref (pp_references prepared)) (pp_payload prepared).

Lemma unmarked_nodes_are_unchanged_witness :
  g_dirty result.1.1 = ["n2"; "node_0"] ∧
  ("n1" ∉ g_dirty stored) ∧ ∃ row, dget (g_nodes stored) "n1" = Some row ∧
    computation (stored_node "Read" None) = computation row ∧
    incoming (g_edges result.1.1) "n1" = incoming (g_edges stored) "n1".
Proof.
  assert (g_dirty result.1.1 = ["n2"; "node_0"]) as Hd by (vm_compute; reflexivity). split; [exact Hd|].
  destruct (unmarked_nodes_are_unchanged operations stored result.1.1 result.1.2 result.2 "n1" (stored_node "Read" None)) as [[Hc _]|H].
  - apply (bool_decide_unpack _). vm_compute. exact I.
  - done.
  - vm_compute. reflexivity.
  - vm_compute. reflexivity.
  - rewrite Hd. apply (bool_decide_unpack _). vm_compute. exact I.
  - exfalso. revert Hc. apply (bool_decide_unpack (¬ _)). vm_compute. exact I.
  - exact H.
Defined.

(** ** Behaviours of the store *)

Definition inputs_in (nodes : pydict NodeState) (id : string) : option (pydict NodeRuntimeInputValue) := ns_inputs <$> dget nodes id.

(** The patch that removes the last input of a node is accepted and applied, and the input is still
    stored. *)
Lemma removed_input_is_still_stored :
  inputs_in (st_nodes (pp_graph prepared)) "n2" = Some [] ∧
  nr_input_values <$> dget (g_nodes result.1.1) "n2" = Some (Some expr_input).
Proof. vm_compute. done. Qed.

(** The automatic layout only sends positions, and yet a collapsed subgraph it moves is expanded and
    loses its selection. *)
Lemma layout_expands_subgraphs :
  match auto_layout_project true 3 "v1" false stored with
  | Ok (db', positions) =>
      moved_subgraphs positions = [("g", mkPosition 9 9)] ∧
      g_subgraphs db' = [("g", mkSubgraphRow "subgraph" (mkPosition 9 9) false true "g" "Group" None None)]
  | Raise _ => False
  end.
Proof. vm_compute. done. Qed.

(** A node that is deleted and created again under its id in one batch is not marked, although it
    computes something else. *)
Definition replace_reader : GraphOperationsAggregated :=
  mkOperations ["n1"] [("n1", stored_node "Filter" (Some expr_input))] [] [] [] [] [] [] [].

Lemma replaced_node_is_not_marked :
  match _process_graph_op_impl replace_reader stored with
  | Ok (db', _, _) => bool_decide ("n1" ∈ g_dirty db') = false ∧ nr_name <$> dget (g_nodes db') "n1" = Some "Filter"
                      ∧ nr_name <$> dget (g_nodes stored) "n1" = Some "Read"
  | Raise _ => False
  end.
Proof. vm_compute. done. Qed.

End EditRuns.
