(* ===== verification/ExtTypes.v ===== *)
(** * Extensions: data, identities and policies

    Models [src/modules/extension_management/domain/] (types, manifests, policies), the rows of
    [infra/db_models.py], how a name is resolved to a row ([infra/identity.py]), the readiness check
    of [infra/dependency_manager.py] and the state of an extension ([infra/state_manager.py]).

    Package names, versions and specifiers are those of the [packaging] library, the parameter
    [Packaging]. A manifest is stored as JSON; a key that is absent or [None] is [None] here, since
    every reader takes them for the same, and fields that are only copied (backend, frontend, state
    schema and nodes) are one opaque value. Paths are resolved: a directory and a name. *)
From S2P Require Import Prelude PipelineTypes.
Open Scope Z_scope.

(** ** [packaging] *)

Class Packaging := {
  canonicalize_name : string → string;
  is_valid_name : string → bool;                            (* accepted by [validate=True] *)
  version_compare : string → string → option comparison;    (* None is [InvalidVersion] *)
  version_is_prerelease : string → option bool;
  specifier_contains : string → string → option bool;       (* specifier, version *)
}.

(** What is documented of normalized names: normalizing again changes nothing, and a normalized name
    has no blanks around it and is empty only when the name is. *)
Record packaging_laws `{Packaging} : Prop := {
  canonicalize_idemp s : canonicalize_name (canonicalize_name s) = canonicalize_name s;
  canonicalize_strip s : py_strip (canonicalize_name (py_strip s)) = canonicalize_name (py_strip s);
  canonicalize_nonempty s : canonicalize_name s = "" ↔ s = "";
}.

(** ** Data *)

Inductive ExtensionDependencyStatus := NOT_INSTALLED | INSTALLING | READY | DEPS_ERROR.

#[global] Instance ExtensionDependencyStatus_eq_dec : EqDecision ExtensionDependencyStatus.
Proof. solve_decision. Defined.

Definition status_value (s : ExtensionDependencyStatus) : string :=
  match s with NOT_INSTALLED => "not_installed" | INSTALLING => "installing" | READY => "ready" | DEPS_ERROR => "error" end.

Inductive ExtensionPackageOperation := OP_INSTALL | OP_UPGRADE | OP_DOWNGRADE | OP_REINSTALL.

#[global] Instance ExtensionPackageOperation_eq_dec : EqDecision ExtensionPackageOperation.
Proof. solve_decision. Defined.

(** A resolved path: its directory and its name. *)
Record path := mkPath { p_parent : string; p_name : string }.

#[global] Instance path_eq_dec : EqDecision path.
Proof. solve_decision. Defined.

(** An [ExtensionManifest], and the JSON it is dumped to. *)
Record ExtensionManifest := mkManifest {
  mf_name : string;
  mf_version : string;
  mf_package_name : option string;
  mf_legacy_names : list string;
  mf_dvt_version : option string;
  mf_display_name : option string;
  mf_description : string;
  mf_repository_url : option string;
  mf_homepage_url : option string;
  mf_requirements : list string;
  mf_rest : string;
}.

#[global] Instance ExtensionManifest_eq_dec : EqDecision ExtensionManifest.
Proof. solve_decision. Defined.

(** [manifest_json]: [None] is the empty dictionary. *)
Definition ManifestJson : Type := option ExtensionManifest.

Record ExtensionRecord := mkExtension {
  ex_id : string;
  ex_name : string;
  ex_display_name : string;
  ex_storage_schema : option string;
  ex_description : string;
  ex_repository_url : option string;
  ex_is_enabled : bool;
  ex_is_installed : bool;
  ex_deps_status : ExtensionDependencyStatus;
  ex_current_version : option string;
  ex_last_version : option string;
  ex_install_path : option path;
  ex_manifest_json : ManifestJson;
  ex_state_json : pydict PyValue;
  ex_available_versions : list string;
  ex_error_message : option string;
  ex_installed_at : option Z;
}.

(** Assignments to the attributes of a row. *)
Definition set_ex_name (x : string) (r : ExtensionRecord) : ExtensionRecord :=
  mkExtension (ex_id r) x (ex_display_name r) (ex_storage_schema r) (ex_description r) (ex_repository_url r) (ex_is_enabled r) (ex_is_installed r) (ex_deps_status r) (ex_current_version r) (ex_last_version r) (ex_install_path r) (ex_manifest_json r) (ex_state_json r) (ex_available_versions r) (ex_error_message r) (ex_installed_at r).
Definition set_ex_display_name (x : string) (r : ExtensionRecord) : ExtensionRecord :=
  mkExtension (ex_id r) (ex_name r) x (ex_storage_schema r) (ex_description r) (ex_repository_url r) (ex_is_enabled r) (ex_is_installed r) (ex_deps_status r) (ex_current_version r) (ex_last_version r) (ex_install_path r) (ex_manifest_json r) (ex_state_json r) (ex_available_versions r) (ex_error_message r) (ex_installed_at r).
Definition set_ex_storage_schema (x : option string) (r : ExtensionRecord) : ExtensionRecord :=
  mkExtension (ex_id r) (ex_name r) (ex_display_name r) x (ex_description r) (ex_repository_url r) (ex_is_enabled r) (ex_is_installed r) (ex_deps_status r) (ex_current_version r) (ex_last_version r) (ex_install_path r) (ex_manifest_json r) (ex_state_json r) (ex_available_versions r) (ex_error_message r) (ex_installed_at r).
Definition set_ex_description (x : string) (r : ExtensionRecord) : ExtensionRecord :=
  mkExtension (ex_id r) (ex_name r) (ex_display_name r) (ex_storage_schema r) x (ex_repository_url r) (ex_is_enabled r) (ex_is_installed r) (ex_deps_status r) (ex_current_version r) (ex_last_version r) (ex_install_path r) (ex_manifest_json r) (ex_state_json r) (ex_available_versions r) (ex_error_message r) (ex_installed_at r).
Definition set_ex_repository_url (x : option string) (r : ExtensionRecord) : ExtensionRecord :=
  mkExtension (ex_id r) (ex_name r) (ex_display_name r) (ex_storage_schema r) (ex_description r) x (ex_is_enabled r) (ex_is_installed r) (ex_deps_status r) (ex_current_version r) (ex_last_version r) (ex_install_path r) (ex_manifest_json r) (ex_state_json r) (ex_available_versions r) (ex_error_message r) (ex_installed_at r).
Definition set_ex_is_enabled (x : bool) (r : ExtensionRecord) : ExtensionRecord :=
  mkExtension (ex_id r) (ex_name r) (ex_display_name r) (ex_storage_schema r) (ex_description r) (ex_repository_url r) x (ex_is_installed r) (ex_deps_status r) (ex_current_version r) (ex_last_version r) (ex_install_path r) (ex_manifest_json r) (ex_state_json r) (ex_available_versions r) (ex_error_message r) (ex_installed_at r).
Definition set_ex_is_installed (x : bool) (r : ExtensionRecord) : ExtensionRecord :=
  mkExtension (ex_id r) (ex_name r) (ex_display_name r) (ex_storage_schema r) (ex_description r) (ex_repository_url r) (ex_is_enabled r) x (ex_deps_status r) (ex_current_version r) (ex_last_version r) (ex_install_path r) (ex_manifest_json r) (ex_state_json r) (ex_available_versions r) (ex_error_message r) (ex_installed_at r).
Definition set_ex_deps_status (x : ExtensionDependencyStatus) (r : ExtensionRecord) : ExtensionRecord :=
  mkExtension (ex_id r) (ex_name r) (ex_display_name r) (ex_storage_schema r) (ex_description r) (ex_repository_url r) (ex_is_enabled r) (ex_is_installed r) x (ex_current_version r) (ex_last_version r) (ex_install_path r) (ex_manifest_json r) (ex_state_json r) (ex_available_versions r) (ex_error_message r) (ex_installed_at r).
Definition set_ex_current_version (x : option string) (r : ExtensionRecord) : ExtensionRecord :=
  mkExtension (ex_id r) (ex_name r) (ex_display_name r) (ex_storage_schema r) (ex_description r) (ex_repository_url r) (ex_is_enabled r) (ex_is_installed r) (ex_deps_status r) x (ex_last_version r) (ex_install_path r) (ex_manifest_json r) (ex_state_json r) (ex_available_versions r) (ex_error_message r) (ex_installed_at r).
Definition set_ex_last_version (x : option string) (r : ExtensionRecord) : ExtensionRecord :=
  mkExtension (ex_id r) (ex_name r) (ex_display_name r) (ex_storage_schema r) (ex_description r) (ex_repository_url r) (ex_is_enabled r) (ex_is_installed r) (ex_deps_status r) (ex_current_version r) x (ex_install_path r) (ex_manifest_json r) (ex_state_json r) (ex_available_versions r) (ex_error_message r) (ex_installed_at r).
Definition set_ex_install_path (x : option path) (r : ExtensionRecord) : ExtensionRecord :=
  mkExtension (ex_id r) (ex_name r) (ex_display_name r) (ex_storage_schema r) (ex_description r) (ex_repository_url r) (ex_is_enabled r) (ex_is_installed r) (ex_deps_status r) (ex_current_version r) (ex_last_version r) x (ex_manifest_json r) (ex_state_json r) (ex_available_versions r) (ex_error_message r) (ex_installed_at r).
Definition set_ex_manifest_json (x : ManifestJson) (r : ExtensionRecord) : ExtensionRecord :=
  mkExtension (ex_id r) (ex_name r) (ex_display_name r) (ex_storage_schema r) (ex_description r) (ex_repository_url r) (ex_is_enabled r) (ex_is_installed r) (ex_deps_status r) (ex_current_version r) (ex_last_version r) (ex_install_path r) x (ex_state_json r) (ex_available_versions r) (ex_error_message r) (ex_installed_at r).
Definition set_ex_state_json (x : pydict PyValue) (r : ExtensionRecord) : ExtensionRecord :=
  mkExtension (ex_id r) (ex_name r) (ex_display_name r) (ex_storage_schema r) (ex_description r) (ex_repository_url r) (ex_is_enabled r) (ex_is_installed r) (ex_deps_status r) (ex_current_version r) (ex_last_version r) (ex_install_path r) (ex_manifest_json r) x (ex_available_versions r) (ex_error_message r) (ex_installed_at r).
Definition set_ex_available_versions (x : list string) (r : ExtensionRecord) : ExtensionRecord :=
  mkExtension (ex_id r) (ex_name r) (ex_display_name r) (ex_storage_schema r) (ex_description r) (ex_repository_url r) (ex_is_enabled r) (ex_is_installed r) (ex_deps_status r) (ex_current_version r) (ex_last_version r) (ex_install_path r) (ex_manifest_json r) (ex_state_json r) x (ex_error_message r) (ex_installed_at r).
Definition set_ex_error_message (x : option string) (r : ExtensionRecord) : ExtensionRecord :=
  mkExtension (ex_id r) (ex_name r) (ex_display_name r) (ex_storage_schema r) (ex_description r) (ex_repository_url r) (ex_is_enabled r) (ex_is_installed r) (ex_deps_status r) (ex_current_version r) (ex_last_version r) (ex_install_path r) (ex_manifest_json r) (ex_state_json r) (ex_available_versions r) x (ex_installed_at r).
Definition set_ex_installed_at (x : option Z) (r : ExtensionRecord) : ExtensionRecord :=
  mkExtension (ex_id r) (ex_name r) (ex_display_name r) (ex_storage_schema r) (ex_description r) (ex_repository_url r) (ex_is_enabled r) (ex_is_installed r) (ex_deps_status r) (ex_current_version r) (ex_last_version r) (ex_install_path r) (ex_manifest_json r) (ex_state_json r) (ex_available_versions r) (ex_error_message r) x.

Record ExtensionCreate := mkCreate {
  cr_name : string;
  cr_display_name : option string;
  cr_description : option string;
  cr_repository_url : option string;
}.

(** Exceptions, by what is raised. *)
Inductive ext_exn :=
  | NameRequired
  | InvalidName (name : string)
  | AmbiguousIdentity (name : string)
  | ExtensionNotFound (name : string)
  | ConflictingIdentity (name : string)
  | MultipleOwners (name : string)
  | IntegrityError
  | ExtValueError (message : string)
  | ExtRuntimeError (message : string)
  | OsError (message : string)
  | InvalidVersion.

Definition list_truthy {A} (l : list A) : bool := match l with [] => false | _ => true end.
Definition opt_truthy {A} (o : option A) : bool := match o with Some _ => true | None => false end.
Definition str_opt_truthy (o : option string) : bool := match o with Some s => str_truthy s | None => false end.

(** [a or b] on optional strings *)
Definition or_option (a b : option string) : option string := if str_opt_truthy a then a else b.

Section Policies.
Context `{pk : Packaging}.

(** ** [domain/policies.py] *)

Definition normalize_extension_identity (value : option string) : string :=
  match value with
  | Some v => if str_truthy v then canonicalize_name (py_strip v) else ""
  | None => ""
  end.

Definition canonical_extension_name (value : option string) : outcome ext_exn string :=
  match value with
  | Some v =>
      let stripped := py_strip v in
      if negb (str_truthy stripped) then Raise NameRequired
      else if is_valid_name stripped then Ok (canonicalize_name stripped)
      else Raise (InvalidName stripped)
  | None => Raise NameRequired
  end.

Definition extension_identity_set (values : list (option string)) (aliases : list string) : list string :=
  filter (λ s, str_truthy s = true) (normalize_extension_identity <$> values ++ (Some <$> aliases)).

Definition resolve_package_operation (current_version : option string) (package_version : string)
    : outcome ext_exn ExtensionPackageOperation :=
  match current_version with
  | None => Ok OP_INSTALL
  | Some current =>
      match version_compare package_version current with
      | Some Gt => Ok OP_UPGRADE
      | Some Lt => Ok OP_DOWNGRADE
      | Some Eq => Ok OP_REINSTALL
      | None => Raise InvalidVersion
      end
  end.

Definition any_version (required : option string) : bool :=
  match required with None => true | Some s => bool_decide (s = "*") end.

Definition is_dvt_version_compatible (current_dvt_version required_dvt_version : option string) : bool :=
  if negb (str_opt_truthy current_dvt_version) || any_version required_dvt_version then true
  else match current_dvt_version, required_dvt_version with
       | Some current, Some required => default false (specifier_contains required current)
       | _, _ => true
       end.

(** A version the distributor lists. *)
Record VersionInfo := mkVersionInfo {
  vi_version : option string;
  vi_dvt_version : option string;
  vi_download_url : option string;
}.

Definition version_allowed (current_dvt_version channel : string) (item : VersionInfo) : bool :=
  let prerelease := match vi_version item with
                    | Some v => bool_decide (channel = "prod") && default false (version_is_prerelease v)
                    | None => false
                    end in
  negb prerelease
  && (any_version (vi_dvt_version item)
      || match vi_dvt_version item with
         | Some required => default true (specifier_contains required current_dvt_version)
         | None => true
         end).

(** [channel] is in lower case. *)
Definition filter_compatible_versions (versions : list VersionInfo) (current_dvt_version : option string)
    (channel : string) : list VersionInfo :=
  match current_dvt_version with
  | Some current =>
      if str_truthy current then filter (λ v, version_allowed current channel v = true) versions else versions
  | None => versions
  end.

Definition extension_readiness_reasons (is_installed is_enabled : bool) (deps_status : ExtensionDependencyStatus)
    : list string :=
  (if is_installed then [] else ["not_installed"])
  ++ (if is_enabled then [] else ["disabled"])
  ++ (if bool_decide (deps_status = READY) then [] else ["deps_" +:+ status_value deps_status]).

(** ** [infra/identity.py] *)

Definition manifest_aliases (m : ManifestJson) : list string :=
  match m with Some m => mf_legacy_names m | None => [] end.

Definition manifest_package_name (m : ManifestJson) : option string :=
  match m with Some m => mf_package_name m | None => None end.

Definition record_identities (record : ExtensionRecord) : list string :=
  extension_identity_set [Some (ex_name record); manifest_package_name (ex_manifest_json record)]
    (manifest_aliases (ex_manifest_json record)).

Definition resolve_record (records : list ExtensionRecord) (name : string) : outcome ext_exn (option ExtensionRecord) :=
  let identity := normalize_extension_identity (Some name) in
  match filter (λ r, identity ∈ record_identities r) records with
  | [] => Ok None
  | [r] => Ok (Some r)
  | _ => Raise (AmbiguousIdentity name)
  end.

(** [sorted({*a, *b} - {x})] *)
Definition merged_names (a b : list string) (x : string) : list string :=
  merge_sort str_le (remove_dups (filter (λ s, s ≠ x) (a ++ b))).

Definition with_names (name : string) (legacy_names : list string) (m : ExtensionManifest) : ExtensionManifest :=
  mkManifest name (mf_version m) (mf_package_name m) legacy_names (mf_dvt_version m) (mf_display_name m)
    (mf_description m) (mf_repository_url m) (mf_homepage_url m) (mf_requirements m) (mf_rest m).

Definition manifest_with_aliases (record : ExtensionRecord) (payload : ExtensionManifest) : ExtensionManifest :=
  with_names (ex_name record)
    (merged_names (manifest_aliases (ex_manifest_json record)) (mf_legacy_names payload) (ex_name record)) payload.

(** ** [check_extensions_availability] *)

(** The names that resolve, with their rows. *)
Fixpoint resolve_each (records : list ExtensionRecord) (names : list string)
    : outcome ext_exn (list (string * ExtensionRecord)) :=
  match names with
  | [] => Ok []
  | name :: names =>
      r ← resolve_record records name;
      rest ← resolve_each records names;
      Ok (match r with Some r => (name, r) :: rest | None => rest end)
  end.

(** The missing names, and the rows that are not ready with their reasons. *)
Definition check_extensions_availability (records : list ExtensionRecord) (extension_names : list string)
    : outcome ext_exn (list string * list (string * list string)) :=
  match extension_names with
  | [] => Ok ([], [])
  | _ =>
      extensions ← resolve_each records extension_names;
      let missing := merge_sort str_le (filter (λ n, n ∉ extensions.*1) extension_names) in
      let not_ready := filter (λ r, r.2 ≠ [])
        ((λ kv, (ex_name kv.2, extension_readiness_reasons (ex_is_installed kv.2) (ex_is_enabled kv.2) (ex_deps_status kv.2)))
           <$> extensions) in
      Ok (missing, not_ready)
  end.

End Policies.

(** ** [infra/state_manager.py] *)

(** [dict(value or {})] of what a key holds. *)
Definition _normalize_state (value : option PyValue) : outcome ext_exn (pydict PyValue) :=
  match value with
  | None | Some VNone => Ok []
  | Some (VDict items) => Ok (omap (λ kv, match kv.1 with KStr k => Some (k, kv.2) | KOther _ => None end) items)
  | Some (VList []) | Some (VBool false) | Some (VStr "") => Ok []
  | Some _ => Raise (ExtValueError "not a dictionary")
  end.

Definition _read_key_state (state_json : pydict PyValue) (key : string) : outcome ext_exn (pydict PyValue) :=
  if bool_decide (key = "default") then Ok state_json else _normalize_state (dget state_json key).

Definition dict_value (d : pydict PyValue) : PyValue := VDict ((λ kv, (KStr kv.1, kv.2)) <$> d).

Definition _write_key_state (state_json : pydict PyValue) (key : string) (value : pydict PyValue) : pydict PyValue :=
  if bool_decide (key = "default") then value else dset state_json key (dict_value value).

(** The row with the id of [r] is replaced by it. *)
Definition put_record (r : ExtensionRecord) (records : list ExtensionRecord) : list ExtensionRecord :=
  (λ r', if bool_decide (ex_id r' = ex_id r) then r else r') <$> records.

Definition record_by_id (id : string) (records : list ExtensionRecord) : option ExtensionRecord :=
  snd <$> list_find (λ r, ex_id r = id) records.

Section State.
Context `{pk : Packaging}.

(** [get_state] *)
Definition get_extension_state (extension_name key : string) (records : list ExtensionRecord) : outcome ext_exn (pydict PyValue) :=
  r ← resolve_record records extension_name;
  match r with Some r => _read_key_state (ex_state_json r) key | None => Ok [] end.

(** [update_state]: the name is resolved in one transaction, and the row is locked and updated in
    another; [locked] are the rows the second one sees. *)
Definition update_extension_state (extension_name key : string) (updater : pydict PyValue → outcome ext_exn (pydict PyValue))
    (records locked : list ExtensionRecord) : outcome ext_exn (pydict PyValue * list ExtensionRecord) :=
  r ← resolve_record records extension_name;
  match r with
  | None => Raise (ExtensionNotFound extension_name)
  | Some r =>
      match record_by_id (ex_id r) locked with
      | None => Raise (ExtensionNotFound (ex_id r))
      | Some extension =>
          current ← _read_key_state (ex_state_json extension) key;
          next ← updater current;
          Ok (next, put_record (set_ex_state_json (_write_key_state (ex_state_json extension) key next) extension) locked)
      end
  end.

End State.
