(* ===== verification/TaskBuild.v ===== *)
(** * Building a task from a project

    Models how the graph of a project becomes a task ([src/infra/task.py], [get_graph_by] of
    [src/crud/graph/common.py], [collect_extension_names] of the extension management) and how a
    task that succeeds clears the marks of the nodes it computed
    ([clear_project_graph_dirty_if_revision] of [src/crud/project/update.py], [_mark_success] of the
    task worker).

    The row of the project and the rows of its graph are read by different statements: the builder
    takes the columns of the project from one stored graph and the rows from a later one. Variables
    are in their storage form. Creating the pending execution and sending it to the orchestrator are
    in [SchedFlow] and [Orchestrator].

    The theorems: the graph of a task is the part of the stored graph its targets depend on, with
    all links of its nodes; and a mark is removed only when the task computed the node from the graph
    that is stored at that moment. *)
From S2P Require Import Prelude TaskTypes PipelineTypes Graph NodeKwargs Processor Frontier PipelineBuild PipelineBuildRun EditStore EditDirty ExtTypes.
Open Scope Z_scope.

(** ** [get_graph_by] *)

(** [SELECT source FROM edges WHERE target IN frontier] *)
Definition upstream_rows (edges : pydict EdgeRow) (frontier : list string) : list string :=
  er_source <$> dvals (filter (λ kv, er_target kv.2 ∈ frontier) edges).

(** [while frontier: ...] *)
Fixpoint select_upstream (fuel : nat) (edges : pydict EdgeRow) (selected frontier : list string) : option (list string) :=
  match frontier with
  | [] => Some selected
  | _ =>
      match fuel with
      | O => None
      | S fuel =>
          let next_frontier := remove_dups (filter (λ x, x ∉ selected) (upstream_rows edges frontier)) in
          select_upstream fuel edges (selected ++ next_frontier) next_frontier
      end
  end.

Definition select_fuel (edges : pydict EdgeRow) : nat := (length edges + 2)%nat.

Definition get_graph_by (target_nodes : option (list string)) (db : GraphDB)
    : option (pydict NodeRow * pydict EdgeRow) :=
  match _normalize_target_nodes target_nodes with
  | [] => Some (g_nodes db, g_edges db)
  | targets =>
      match select_upstream (select_fuel (g_edges db)) (g_edges db) targets targets with
      | Some selected =>
          Some (filter (λ kv, kv.1 ∈ selected) (g_nodes db),
                filter (λ kv, er_source kv.2 ∈ selected ∧ er_target kv.2 ∈ selected) (g_edges db))
      | None => None
      end
  end.

(** ** [build_pending_task_from_project] *)

(** The extension that declares a node class, as the registry of definitions says. *)
Class NodeExtensions := { node_extension : string → option string }.

Record BuiltTask := mkBuiltTask {
  bt_pipeline : Pipeline;
  bt_extension_names : list string;
  bt_mode : PipelineExecutionMode;
  bt_force_exec : bool;
  bt_metadata_changed_node_ids : option (list string);
  bt_changed_node_ids : option (list string);
  bt_graph_revision : option Z;
  bt_project_variables : pydict PyValue;
  bt_target_nodes : option (list string);
  bt_retry_count : Z;
}.

Inductive task_exn :=
  | UpstreamDiverges
  | PipelineError (e : py_exn)
  | ExtensionLookupError (e : ext_exn)
  | ExtensionsUnavailable (missing : list string) (not_ready : list (string * list string)).

Definition map_exn {E E' A} (f : E → E') (o : outcome E A) : outcome E' A :=
  match o with Ok a => Ok a | Raise e => Raise (f e) end.

Definition _merge_project_variables (project_variables : pydict PyValue) (variables : option (pydict PyValue)) : pydict PyValue :=
  match variables with Some v => dupdate project_variables v | None => project_variables end.

Section Build.
Context `{reg : NodeRegistry} {so : SetOrder} `{pk : Packaging} {ne : NodeExtensions}.

Definition collect_extension_names (pipeline : Pipeline) : list string :=
  remove_dups (filter (λ e, str_truthy e = true)
    (omap node_extension (filter (λ n, str_truthy n = true) (nd_name <$> dvals pipeline)))).

(** [extensions] are the rows of the extension table. *)
Definition check_availability (extensions : list ExtensionRecord) (extension_names : list string) : outcome task_exn unit :=
  match extension_names with
  | [] => Ok ()
  | _ =>
      found ← map_exn ExtensionLookupError (check_extensions_availability extensions (set_iter extension_names));
      match found with
      | ([], []) => Ok ()
      | (missing, not_ready) => Raise (ExtensionsUnavailable missing not_ready)
      end
  end.

Definition normalized_changed (pipeline : Pipeline) (dirty_node_ids : list string)
    (metadata_changed_node_ids : option (list string)) : list string :=
  sorted_set (filter (λ x, dmem pipeline x = true) (dirty_node_ids ++ default [] metadata_changed_node_ids)).

(** [project] is the stored graph whose columns were read, [graph] the one whose rows were read. *)
Definition build_task (project graph : GraphDB) (extensions : list ExtensionRecord) (project_variables : pydict PyValue)
    (target_nodes changed_node_ids metadata_changed_node_ids : option (list string)) (mode : PipelineExecutionMode)
    (force_exec : bool) (variables : option (pydict PyValue)) (schedule_attempt : option Z) : outcome task_exn BuiltTask :=
  let targets := match _normalize_target_nodes target_nodes with [] => None | l => Some l end in
  rows ← (match get_graph_by targets graph with Some r => Ok r | None => Raise UpstreamDiverges end);
  let '(nodes, edges) := rows in
  pipeline ← map_exn PipelineError
               (build_pipeline_from_graph (graph_node_record <$> nodes) (graph_edge_record <$> edges) targets);
  let execution_target_nodes := resolve_execution_target_nodes pipeline targets in
  let dirty_node_ids := default (g_dirty project) changed_node_ids in
  let changed := normalized_changed pipeline dirty_node_ids metadata_changed_node_ids in
  let extension_names := collect_extension_names pipeline in
  _ ← check_availability extensions extension_names;
  Ok (mkBuiltTask pipeline (merge_sort str_le extension_names) mode force_exec metadata_changed_node_ids
        (if nonempty changed then Some changed else None)
        (if nonempty changed then Some (g_revision project) else None)
        (_merge_project_variables project_variables variables) execution_target_nodes
        (Z.max 0 (match schedule_attempt with Some a => if (a =? 0) then 1 else a | None => 1 end - 1))).

End Build.

(** ** Clearing marks *)

Definition clear_project_graph_dirty_if_revision (graph_revision : Z) (node_ids : option (list string)) (db : GraphDB)
    : GraphDB * bool :=
  if bool_decide (g_revision db = graph_revision) then
    (mkGraphDB (g_nodes db) (g_edges db) (g_subgraphs db) (g_revision db)
       (match node_ids with
        | None => []
        | Some ids => sorted_set (filter (λ x, x ∉ filter (λ y, str_truthy y = true) ids) (g_dirty db))
        end), true)
  else (db, false).

(** What [_mark_success] does to the project once the task is final. *)
Definition clear_marks_on_success (task : BuiltTask) (db : GraphDB) : GraphDB :=
  match bt_changed_node_ids task, bt_graph_revision task with
  | Some ((_ :: _) as ids), Some revision =>
      if bool_decide (bt_mode task = FULL) then (clear_project_graph_dirty_if_revision revision (Some ids) db).1 else db
  | _, _ => db
  end.

(** The job the processor gets of a task. *)
Definition task_changed (task : BuiltTask) : list string :=
  match bt_changed_node_ids task with
  | Some ((_ :: _) as ids) => ids
  | _ => default [] (bt_metadata_changed_node_ids task)
  end.

(** ** The graph of a task *)

(** A filter that refuses more, and one element at least, keeps fewer. *)
Lemma length_filter_strict {A} (P Q : A → Prop) `{!∀ x, Decision (P x), !∀ x, Decision (Q x)} (l : list A) x :
  (∀ y, P y → Q y) → x ∈ l → Q x → (P x → False) → (length (filter P l) < length (filter Q l))%nat.
Proof.
  intros HPQ Hin HQ HP. rewrite <-(list_filter_filter_l P Q) by done. apply (length_filter_lt P _ x); [|done].
  by apply list_elem_of_filter.
Qed.

Definition feeds (edges : pydict EdgeRow) (a b : string) : Prop :=
  ∃ k e, (k, e) ∈ edges ∧ er_source e = a ∧ er_target e = b.

Section Upstream.
Context (edges : pydict EdgeRow) (targets : list string).

(** A target depends on [x]. *)
Definition upstream (x : string) : Prop := ∃ t, t ∈ targets ∧ rtc (feeds edges) x t.

Record upstream_inv (selected frontier : list string) : Prop := {
  ui_sound x : x ∈ selected → upstream x;
  ui_frontier x : x ∈ frontier → x ∈ selected;
  ui_closed a b : b ∈ selected → b ∉ frontier → feeds edges a b → a ∈ selected;
  ui_targets t : t ∈ targets → t ∈ selected;
}.

(** The sources that are not selected yet. *)
Definition unselected (selected : list string) : nat :=
  length (filter (λ x, x ∉ selected) (er_source <$> dvals edges)).

Lemma elem_of_upstream_rows frontier a : a ∈ upstream_rows edges frontier ↔ ∃ b, b ∈ frontier ∧ feeds edges a b.
Proof.
  unfold upstream_rows, dvals. rewrite list_elem_of_fmap. split.
  - intros (e & -> & He). apply list_elem_of_fmap in He as ([k e'] & -> & [Hf Hin]%list_elem_of_filter). cbn in *.
    exists (er_target e'). split; [done|]. by exists k, e'.
  - intros (b & Hb & k & e & Hin & <- & <-). exists e. split; [done|]. apply list_elem_of_fmap. exists (k, e). split; [done|].
    by apply list_elem_of_filter.
Qed.

Lemma select_step selected frontier :
  upstream_inv selected frontier →
  let next := remove_dups (filter (λ x, x ∉ selected) (upstream_rows edges frontier)) in
  upstream_inv (selected ++ next) next.
Proof.
  intros [Hs Hf Hc Ht] next.
  assert (∀ x, x ∈ next ↔ (x ∉ selected) ∧ ∃ b, b ∈ frontier ∧ feeds edges x b) as Hn.
  { intros x. unfold next. rewrite elem_of_remove_dups, list_elem_of_filter, elem_of_upstream_rows. done. }
  split.
  - intros x [?|(_ & b & Hb & Hx)%Hn]%elem_of_app; [by apply Hs|]. destruct (Hs b (Hf b Hb)) as (t & Hin & Hr).
    exists t. split; [done|]. by apply rtc_l with b.
  - set_solver.
  - intros a b [Hb|Hb]%elem_of_app Hnb Hab; [|done]. apply elem_of_app.
    destruct (decide (a ∈ selected)) as [|Ha]; [by left|right]. apply Hn. split; [done|].
    destruct (decide (b ∈ frontier)) as [|Hbf]; [by exists b|]. destruct Ha. by apply (Hc a b).
  - intros t Hin. apply elem_of_app. left. by apply Ht.
Qed.

Lemma unselected_step selected frontier x :
  x ∈ filter (λ x, x ∉ selected) (upstream_rows edges frontier) →
  (unselected (selected ++ remove_dups (filter (λ x, x ∉ selected) (upstream_rows edges frontier))) < unselected selected)%nat.
Proof.
  intros Hx. set (next := remove_dups _). unfold unselected. apply (length_filter_strict _ _ _ x).
  - set_solver.
  - apply list_elem_of_filter in Hx as [Hx Hin]. apply elem_of_upstream_rows in Hin as (b & _ & k & e & Hin & <- & _).
    apply list_elem_of_fmap. exists e. split; [done|]. apply list_elem_of_fmap. by exists (k, e).
  - by apply list_elem_of_filter in Hx as [Hx _].
  - intros Hn. apply Hn, elem_of_app. right. by apply elem_of_remove_dups.
Qed.

Lemma select_upstream_spec fuel selected frontier :
  upstream_inv selected frontier → (unselected selected < fuel)%nat →
  ∃ result, select_upstream fuel edges selected frontier = Some result ∧ upstream_inv result [].
Proof.
  revert selected frontier; induction fuel as [|fuel IH]; intros selected [|y frontier] Hinv Hf;
    [by exists selected|lia|by exists selected|]. cbn [select_upstream].
  set (next := remove_dups _). pose proof (select_step selected (y :: frontier) Hinv) as Hstep. cbv zeta in Hstep. fold next in Hstep.
  destruct next as [|x next'] eqn:En.
  - exists (selected ++ []). split; [by destruct fuel|done].
  - apply IH; [done|]. rewrite <-En. unfold next in *. eapply Nat.lt_le_trans; [apply (unselected_step selected (y :: frontier) x)|lia].
    apply elem_of_remove_dups. rewrite En. left.
Qed.

Lemma upstream_final selected : upstream_inv selected [] → ∀ x, x ∈ selected ↔ upstream x.
Proof.
  intros [Hs _ Hc Ht] x. split; [apply Hs|]. intros (t & Hin & Hr). specialize (Ht t Hin). clear Hin.
  induction Hr as [|a b c Hab _ IH]; [done|]. apply (Hc a b); [by apply IH|apply not_elem_of_nil|done].
Qed.

End Upstream.

(** The loop ends within its bound, and selects what the targets depend on. *)
Lemma get_graph_by_selects target_nodes db :
  _normalize_target_nodes target_nodes ≠ [] →
  ∃ selected : list string, (∀ x, x ∈ selected ↔ upstream (g_edges db) (_normalize_target_nodes target_nodes) x) ∧
    get_graph_by target_nodes db =
      Some (filter (λ kv, kv.1 ∈ selected) (g_nodes db),
            filter (λ kv, er_source kv.2 ∈ selected ∧ er_target kv.2 ∈ selected) (g_edges db)).
Proof.
  intros Hne. unfold get_graph_by. set (targets := _normalize_target_nodes target_nodes) in *.
  destruct (select_upstream_spec (g_edges db) targets (select_fuel (g_edges db)) targets targets) as (selected & Hs & Hinv).
  - split; [intros x Hx; by exists x|done|done|done].
  - unfold unselected, select_fuel. pose proof (length_filter (λ x, x ∉ targets) (er_source <$> dvals (g_edges db))) as Hl.
    unfold dvals in *. rewrite !length_fmap in Hl. lia.
  - exists selected. split; [by apply upstream_final|]. clearbody targets. destruct targets as [|t ts]; [done|]. by rewrite Hs.
Qed.

(** C37. A requested run gets a graph: the search for what its targets depend on ends within its bound.
    The graph has exactly the rows of the nodes the targets depend on, all links that reach one of
    these nodes, and no link from another node. *)
Theorem task_graph_is_upstream target_nodes db :
  let targets := _normalize_target_nodes target_nodes in
  targets ≠ [] →
  ∃ nodes edges, get_graph_by target_nodes db = Some (nodes, edges) ∧
  (∀ id row, (id, row) ∈ nodes ↔ (id, row) ∈ g_nodes db ∧ upstream (g_edges db) targets id) ∧
  (∀ id, upstream (g_edges db) targets id → incoming edges id = incoming (g_edges db) id) ∧
  (∀ k e, (k, e) ∈ edges → (k, e) ∈ g_edges db ∧ upstream (g_edges db) targets (er_source e)).
Proof.
  intros targets Hne. destruct (get_graph_by_selects target_nodes db Hne) as (selected & Hsel & E).
  fold targets in Hsel. eexists _, _. split; [exact E|]. split_and!.
  - intros id row. rewrite list_elem_of_filter, <-Hsel. cbn. tauto.
  - intros id Hid. unfold incoming. rewrite list_filter_filter. do 2 f_equal. apply list_filter_ext_in.
    intros [k e] Hin. cbn. split; [by intros [? _]|]. intros <-. split; [done|]. split; [|by apply Hsel].
    apply Hsel. destruct Hid as (t & Ht & Hr). exists t. split; [done|]. apply rtc_l with (er_target e); [|done]. by exists k, e.
  - intros k e [[Hs _] Hin]%list_elem_of_filter. split; [done|]. by apply Hsel.
Qed.

(** ** What a run may leave out *)

(** The tables two stored graphs agree on: what every node computes, and the links that reach it. *)
Record same_computation (db db' : GraphDB) : Prop := {
  sc_nodes id : computation <$> dget (g_nodes db') id = computation <$> dget (g_nodes db) id;
  sc_links id : incoming (g_edges db') id = incoming (g_edges db) id;
}.

#[global] Instance same_computation_equivalence : Equivalence same_computation.
Proof.
  split.
  - by intros db.
  - intros db db' [H1 H2]. split; intros id; symmetry; auto.
  - intros db1 db2 db3 [H1 H2] [H3 H4]. split; intros id; [by rewrite H3|by rewrite H4].
Qed.

Lemma delete_rows_none {A} ids (t : pydict A) : (delete_rows ids t).2 = [] → (delete_rows ids t).1 = t.
Proof.
  unfold delete_rows. cbn. intros H%fmap_nil_inv. apply list_filter_all. intros kv Hin Hk.
  apply (not_elem_of_nil kv). rewrite <-H. by apply list_elem_of_filter.
Qed.

Lemma update_rows_none {A P} (f : P → A → A) patches (t : pydict A) :
  (update_rows f patches t).2 = [] → (update_rows f patches t).1 = t.
Proof.
  unfold update_rows. cbn. intros H%fmap_nil_inv. rewrite <-(list_fmap_id t) at 2. apply list_fmap_ext. intros i [k v] Hi. cbn.
  rewrite dget_not_key; [done|]. intros Hk. apply (not_elem_of_nil (k, v)). rewrite <-H. apply list_elem_of_filter.
  split; [done|by eapply list_elem_of_lookup_2].
Qed.

(** Clearing the references to a subgraph changes nothing that is computed. *)
Lemma cleared_same ids nodes edges subgraphs subgraphs' revision revision' dirty dirty' :
  same_computation (mkGraphDB nodes edges subgraphs revision dirty)
    (mkGraphDB ((λ kv, (kv.1, clear_node_subgraph ids kv.2)) <$> nodes)
               ((λ kv, (kv.1, clear_edge_subgraph ids kv.2)) <$> edges) subgraphs' revision' dirty').
Proof.
  split; intros id; cbn [g_nodes g_edges].
  - rewrite (dget_map_key (λ _, clear_node_subgraph ids)). destruct (dget nodes id) as [row|]; [|done]. cbn.
    by rewrite clear_node_keeps_computation.
  - apply (incoming_map (λ _, clear_edge_subgraph ids)). intros k e _. left. apply clear_edge_keeps_link.
Qed.

Lemma not_processed_same payload db db' r cleared :
  run_statements payload db = Ok (db', r, cleared) → _has_processed_graph_changes r cleared = false → same_computation db db'.
Proof.
  intros (subgraphs & nodes & edges & _ & Hn & He & -> & R1 & R2 & R3 & R4 & R5 & R6)%run_statements_inv.
  unfold _has_processed_graph_changes. rewrite !orb_false_iff. intros (((((((((H1 & H2) & H3) & H4) & H5) & H6) & _) & _) & _) & _).
  apply nonempty_false in H1, H2, H3, H4, H5, H6. rewrite H1 in R1. rewrite H2 in R2. rewrite H3 in R3. rewrite H4 in R4. rewrite H5 in R5. rewrite H6 in R6.
  symmetry in R1, R2, R3, R4, R5, R6. apply fmap_nil_inv in R2, R5. rewrite R2 in Hn. rewrite R5 in He.
  rewrite delete_rows_none in Hn by done. rewrite delete_rows_none in He by done.
  injection Hn as <-. injection He as <-. rewrite !update_rows_none by done. destruct db. apply cleared_same.
Qed.

Lemma not_requested_same payload db db' r cleared :
  dwf (g_edges db) → run_statements payload db = Ok (db', r, cleared) → _has_requested_computational_changes payload = false →
  same_computation db db'.
Proof.
  intros Hwf Hr Hq. assert (∀ id, untouched payload db id) as Hu by (intros id; by apply not_requested_untouched).
  split; intros id; [|by apply (untouched_links payload db db' r cleared)].
  assert (nodes_to_delete payload = []) as Hd.
  { unfold _has_requested_computational_changes in Hq. rewrite !orb_false_iff in Hq. destruct Hq as (((((_ & H) & _) & _) & _) & _).
    by apply nonempty_false in H. }
  assert (nodes_to_create payload = []) as Hc.
  { unfold _has_requested_computational_changes in Hq. rewrite !orb_false_iff in Hq. destruct Hq as (((((H & _) & _) & _) & _) & _).
    by apply nonempty_false in H. }
  destruct (dget (g_nodes db') id) as [row'|] eqn:Hrow.
  - destruct (untouched_node _ _ _ _ _ _ _ Hr (Hu id) Hrow) as (_ & row & -> & E). cbn. by f_equal.
  - apply run_statements_inv in Hr as (subgraphs & nodes & edges & _ & Hn & _ & -> & _). cbn [g_nodes] in Hrow.
    rewrite (dget_map_key (λ _, clear_node_subgraph (subgraphs_to_delete payload))), dget_update_rows in Hrow.
    apply create_rows_spec in Hn as (-> & _ & _). rewrite Hc, app_nil_r, dget_delete_rows, Hd, decide_False in Hrow by apply not_elem_of_nil.
    by destruct (dget (g_nodes db) id).
Qed.

(** ** What happens to a project between two reads *)

Section Steps.
Context `{reg : NodeRegistry} {so : SetOrder} `{pk : Packaging} {ne : NodeExtensions} {ir : InputRuntime} {nr : NodeRuntime}.

(** A batch of operations, or a task of the project that succeeds. *)
Inductive graph_step : GraphDB → GraphDB → Prop :=
  | step_operations payload db db' r task : _process_graph_op_impl payload db = Ok (db', r, task) → graph_step db db'
  | step_success task db : graph_step db (clear_marks_on_success task db).

Lemma statements_keep_ids payload db db' r cleared :
  run_statements payload db = Ok (db', r, cleared) → dwf (g_edges db) → dwf (g_edges db') ∧ g_revision db' = g_revision db.
Proof.
  intros (subgraphs & nodes & edges & _ & _ & He & -> & _)%run_statements_inv Hwf. cbn. split; [|done].
  unfold dwf, dkeys in *. rewrite <-!list_fmap_compose. rewrite (list_fmap_ext _ fst) by done.
  apply create_rows_spec in He as (-> & Hnd & Hnew). unfold dkeys in Hnew. rewrite fmap_app. apply NoDup_app. split_and!.
  - eapply sublist_NoDup; [exact Hwf|]. apply fmap_sublist, sublist_filter.
  - intros k Hk Hin. by apply (Hnew k).
  - done.
Qed.

Lemma clear_marks_keeps task db :
  g_nodes (clear_marks_on_success task db) = g_nodes db ∧ g_edges (clear_marks_on_success task db) = g_edges db ∧
  g_revision (clear_marks_on_success task db) = g_revision db.
Proof.
  unfold clear_marks_on_success, clear_project_graph_dirty_if_revision.
  destruct (bt_changed_node_ids task) as [[|]|], (bt_graph_revision task); try done. case_bool_decide; [|done]. by case_bool_decide.
Qed.

(** The revision never goes back, and while it stays nothing that is computed changes. *)
Lemma step_revision db db' :
  graph_step db db' → dwf (g_edges db) →
  dwf (g_edges db') ∧ g_revision db ≤ g_revision db' ∧ (g_revision db' = g_revision db → same_computation db db').
Proof.
  intros [payload db1 db2 r task (stored & cleared & Hr & ->)%process_graph_op_inv|task db1] Hwf.
  - destruct (statements_keep_ids _ _ _ _ _ Hr Hwf) as [Hk Hv].
    destruct (_has_processed_graph_changes r cleared) eqn:Hp; [destruct (_has_requested_computational_changes payload) eqn:Hq|];
      cbn [andb mark_project_graph_dirty g_edges g_revision].
    + split; [done|]. rewrite Hv. lia.
    + split; [done|]. rewrite Hv. split; [lia|]. intros _. by apply (not_requested_same payload _ _ r cleared).
    + split; [done|]. rewrite Hv. split; [lia|]. intros _. by apply (not_processed_same payload _ _ r cleared).
  - destruct (clear_marks_keeps task db1) as (E1 & E2 & E3). rewrite E2, E3. split; [done|]. split; [lia|]. intros _.
    split; intros id; [by rewrite E1|by rewrite E2].
Qed.

Lemma steps_revision db db' :
  rtc graph_step db db' → dwf (g_edges db) →
  dwf (g_edges db') ∧ g_revision db ≤ g_revision db' ∧ (g_revision db' = g_revision db → same_computation db db').
Proof.
  induction 1 as [db|db1 db2 db3 Hs _ IH]; intros Hwf; [split; [done|]; split; [lia|done]|].
  destruct (step_revision db1 db2 Hs Hwf) as (Hk & Hle & Hsame), (IH Hk) as (Hk' & Hle' & Hsame').
  split; [done|]. split; [lia|]. intros E. transitivity db2; [apply Hsame|apply Hsame']; lia.
Qed.

(** What the task says of the project it was built from. *)
Lemma build_task_spec project graph extensions vars target_nodes changed metadata mode force variables attempt task :
  build_task project graph extensions vars target_nodes changed metadata mode force variables attempt = Ok task →
  bt_mode task = mode ∧
  (bt_changed_node_ids task = None ∧ bt_graph_revision task = None ∨
   ∃ ids, bt_changed_node_ids task = Some ids ∧ ids ≠ [] ∧ bt_graph_revision task = Some (g_revision project) ∧
     ids = normalized_changed (bt_pipeline task) (default (g_dirty project) changed) metadata).
Proof.
  unfold build_task. destruct (get_graph_by _ graph) as [[nodes edges]|]; [|done]. cbn [mbind outcome_bind].
  destruct (map_exn PipelineError _) as [pipeline|]; [|done]. cbn [mbind outcome_bind].
  destruct (check_availability _ _) as [[]|]; [|done]. cbn [mbind outcome_bind]. intros [= <-]. cbn. split; [done|].
  destruct (normalized_changed _ _ _) as [|x ids] eqn:E; cbn [nonempty]; [by left|right]. by exists (x :: ids).
Qed.

(** C9. When a task that succeeds removes the mark of a node, the graph it was built from is the one that
    is stored, the node is in its pipeline, and neither the node nor anything behind it was taken from
    the cache. *)
Theorem cleared_marks_were_computed project graph db extensions vars target_nodes changed metadata mode force variables
    attempt task x :
  dwf (g_edges project) → rtc graph_step project graph → rtc graph_step graph db →
  build_task project graph extensions vars target_nodes changed metadata mode force variables attempt = Ok task →
  x ∈ g_dirty db → x ∉ g_dirty (clear_marks_on_success task db) →
  mode = FULL ∧ same_computation graph db ∧ x ∈ dkeys (bt_pipeline task) ∧ x ∈ task_changed task ∧
  ∀ job y, pipeline job = bt_pipeline task → jb_changed_node_ids job = task_changed task →
    rtc (depends (bt_pipeline task)) x y → ¬ reusable job y.
Proof.
  intros Hwf Hs1 Hs2 (<- & Hchanged)%build_task_spec Hin Hout. unfold clear_marks_on_success, task_changed in *.
  destruct Hchanged as [[E1 _]|(ids & E1 & Hne & E2 & Eids)]; rewrite E1 in *; [done|]. rewrite E2 in *. destruct ids as [|i ids]; [done|].
  case_bool_decide as Hmode; [|done]. unfold clear_project_graph_dirty_if_revision in Hout.
  case_bool_decide as Hrev; [|done]. cbn [fst g_dirty] in Hout. rewrite elem_of_sorted_set, list_elem_of_filter in Hout.
  assert (x ∈ i :: ids) as Hx.
  { destruct (decide (x ∈ i :: ids)) as [|Hx]; [done|]. exfalso. apply Hout. split; [|done]. by intros [_ ?]%list_elem_of_filter. }
  destruct (steps_revision _ _ Hs1 Hwf) as (Hk & Hle & _), (steps_revision _ _ Hs2 Hk) as (_ & Hle' & Hsame).
  assert (x ∈ dkeys (bt_pipeline task)) as Hkey.
  { rewrite Eids in Hx. unfold normalized_changed in Hx. rewrite elem_of_sorted_set in Hx.
    apply list_elem_of_filter in Hx as [Hx _]. unfold dmem in Hx. by apply bool_decide_eq_true in Hx. }
  split; [done|]. split; [apply Hsame; lia|]. split; [done|]. split; [done|].
  intros job y Ep Ec Hr (Hno & _). apply (Hno x); [by rewrite Ec|by rewrite Ep|by rewrite Ep].
Qed.

End Steps.

(** ** Concrete runs

    A reader [a] feeds the filters [b] and [e]; [e] and a second reader [d] feed the filter [c]. The
    reader [a] was changed and a run of [b] alone succeeds: its mark is removed although [e] was not
    computed, and the next run, after a change of [d], takes [e] from the cache. *)
Module TaskBuildRuns.
Import BuildRuns.
#[local] Existing Instance run_registry.
#[local] Existing Instance run_order.

#[local] Instance plain_names : Packaging := {|
  canonicalize_name s := s; is_valid_name _ := true; version_compare _ _ := Some Eq;
  version_is_prerelease _ := Some false; specifier_contains _ _ := Some true;
|}.

(** The filters come from an extension. *)
#[local] Instance filter_extension : NodeExtensions := {|
  node_extension name := if bool_decide (name = "Filter") then Some "filters" else None;
|}.

Definition installed : ExtensionRecord :=
  mkExtension "1" "filters" "Filters" None "" None true true READY (Some "1.0") (Some "1.0") None None [] [] None None.

Definition row (name path : string) : NodeRow :=
  mkNodeRow "base" (mkPosition 0 0) false name name None (Some [("path", NodeInputConstantValue (VStr path))])
    (Some true) false false None.

Definition wire (source target handle : string) : EdgeRow :=
  mkEdgeRow "base" source (Some "output-output") target (Some handle) None.

(** The graph after [a] was changed. *)
Definition changed_a : GraphDB :=
  mkGraphDB [("a", row "Read" "new.csv"); ("b", row "Filter" ""); ("e", row "Filter" ""); ("c", row "Filter" ""); ("d", row "Read" "d.csv")]
    [("ab", wire "a" "b" "input-df"); ("ae", wire "a" "e" "input-df"); ("ec", wire "e" "c" "input-df");
     ("dc", wire "d" "c" "input-signal_in")] [] 5 ["a"].

Definition build (db : GraphDB) (targets : option (list string)) : outcome task_exn BuiltTask :=
  build_task db db [installed] [] targets None None FULL false None None.

Definition no_task : BuiltTask := mkBuiltTask [] [] FULL false None None None [] None 0.
Definition the {A E} (default : A) (o : outcome E A) : A := match o with Ok a => a | Raise _ => default end.

Definition run_of_b : BuiltTask := the no_task (build changed_a (Some ["b"])).

Lemma run_of_b_eq : build changed_a (Some ["b"]) = Ok run_of_b.
Proof. vm_compute. reflexivity. Qed.

Example run_of_b_example :
  dkeys (bt_pipeline run_of_b) = ["a"; "b"; "__service_output__"] ∧ bt_changed_node_ids run_of_b = Some ["a"] ∧
  bt_graph_revision run_of_b = Some 5 ∧ bt_target_nodes run_of_b = Some ["__service_output__"] ∧
  bt_extension_names run_of_b = ["filters"].
Proof. vm_compute. done. Qed.

(** The extension must be ready. *)
Example not_ready_example :
  build_task changed_a changed_a [set_ex_is_enabled false installed] [] (Some ["b"]) None None FULL false None None =
    Raise (ExtensionsUnavailable [] [("filters", ["disabled"])]).
Proof. vm_compute. reflexivity. Qed.

Lemma task_graph_is_upstream_witness :
  ∃ nodes edges, get_graph_by (Some ["b"]) changed_a = Some (nodes, edges) ∧
  (∀ id row, (id, row) ∈ nodes ↔ (id, row) ∈ g_nodes changed_a ∧ upstream (g_edges changed_a) ["b"] id) ∧
  (∀ id, upstream (g_edges changed_a) ["b"] id → incoming edges id = incoming (g_edges changed_a) id) ∧
  (∀ k e, (k, e) ∈ edges → (k, e) ∈ g_edges changed_a ∧ upstream (g_edges changed_a) ["b"] (er_source e)).
Proof. apply (task_graph_is_upstream (Some ["b"]) changed_a). by vm_compute. Defined.

(** While the task runs, a node is moved. *)
Definition move_b : GraphOperationsAggregated :=
  mkOperations [] [] [("b", mkNodePatch None None (Some (mkPosition 7 7)) None None None None None None None None)] [] [] [] [] [] [].

Definition apply_ops (payload : GraphOperationsAggregated) (db : GraphDB) : GraphDB :=
  match _process_graph_op_impl payload db with Ok (db', _, _) => db' | Raise _ => db end.

Definition moved : GraphDB := apply_ops move_b changed_a.

#[local] Instance text_runtime : InputRuntime := {|
  evaluate_input_expression text _ _ _ _ := Ok (VStr text);
  coerce_expression_result v _ _ _ := Ok v;
  sql_dialect_name _ := Ok None;
  render_sql_template text _ _ _ := Ok (VStr text);
|}.

(** The cache has a snapshot of every node. *)
#[local] Instance cached_nodes : NodeRuntime := {|
  registry_get := run_nodes;
  rt_instantiate _ _ _ := Ok ();
  rt_validate _ _ _ := Ok ();
  rt_execute _ _ _ _ := mkExecution [] (Ok ());
  rt_get_outputs _ n _ := [("output", VStr n)];
  rt_attribute _ _ _ := VNone;
  rt_resolve_metadata _ _ := Ok [];
  rt_metadata_cache_key _ _ := Ok None;
  rt_cache_snapshot _ _ := Ok ();
  rt_restore_snapshot _ n := Ok (Some (mkEntry [("output", VStr n)] []));
  rt_store_get _ _ := Ok None;
  rt_store_put _ _ := Ok ();
  rt_stop_is_set _ := false;
  rt_callback _ := Ok ();
  get_hash _ := "";
  create_node_inputs_fingerprint _ _ _ := "key";
|}.

Lemma cleared_marks_were_computed_witness :
  g_dirty (clear_marks_on_success run_of_b moved) = [] ∧
  FULL = FULL ∧ same_computation changed_a moved ∧ "a" ∈ dkeys (bt_pipeline run_of_b) ∧ "a" ∈ task_changed run_of_b ∧
  ∀ job y, pipeline job = bt_pipeline run_of_b → jb_changed_node_ids job = task_changed run_of_b →
    rtc (depends (bt_pipeline run_of_b)) "a" y → ¬ reusable job y.
Proof.
  assert (g_dirty (clear_marks_on_success run_of_b moved) = []) as Hd by (vm_compute; reflexivity). split; [exact Hd|].
  apply (cleared_marks_were_computed changed_a changed_a moved [installed] [] (Some ["b"]) None None FULL false None None).
  - apply (bool_decide_unpack _). vm_compute. exact I.
  - reflexivity.
  - apply rtc_once, (step_operations move_b changed_a moved
      (mkResponse [] [] ["b"] [] [] [] [] [] []) None). vm_compute. reflexivity.
  - exact run_of_b_eq.
  - apply (bool_decide_unpack _). vm_compute. exact I.
  - rewrite Hd. apply not_elem_of_nil.
Defined.

(** ** A partial run *)

Definition change_d : GraphOperationsAggregated :=
  mkOperations [] []
    [("d", mkNodePatch None None None None None None None None None None (Some [("path", NodeInputConstantValue (VStr "d2.csv"))]))]
    [] [] [] [] [] [].

Definition after_partial_run : GraphDB := clear_marks_on_success run_of_b changed_a.
Definition changed_d : GraphDB := apply_ops change_d after_partial_run.
Definition full_run : BuiltTask := the no_task (build changed_d None).
Definition full_job : Job :=
  mkJob FULL (bt_pipeline full_run) (bt_target_nodes full_run) (task_changed full_run) [] true true true false false false false false false false.

(** The node [e] depends on [a], which was changed, and was not computed since; the full run takes its
    old snapshot. *)
Lemma partial_run_hides_stale_nodes :
  bool_decide ("e" ∈ dkeys (bt_pipeline run_of_b)) = false ∧
  g_dirty changed_a = ["a"] ∧ g_dirty after_partial_run = [] ∧ g_dirty changed_d = ["d"] ∧
  bt_changed_node_ids full_run = Some ["d"] ∧
  find_all_dependents (bt_pipeline full_run) ["a"] = Some ["a"; "b"; "e"; "__service_output_b__"; "c"; "__service_output_c__"] ∧
  ps_completed (_prepare_cache_frontier full_job initial_state).2 = ["b"; "e"].
Proof. vm_compute. done. Qed.

End TaskBuildRuns.
