(* ===== verification/ExtStore.v ===== *)
(** * Extensions: the repository

    Models [infra/repositories/db.py], [infra/manifest.py] and the names of schemas
    ([infra/database.py]). The table is the list of its rows in the order a query returns them; [now]
    is the clock and [uuid] the id of a row that is created. [updated_at] is not modelled: nothing
    reads it here. Names are ASCII. *)
From Stdlib Require Import Ascii.
From S2P Require Import Prelude PipelineTypes Graph NodeKwargs ExtTypes.
Open Scope Z_scope.

(** ** [extension_schema_name] *)

Class Digest := { sha256_8 : string → string }.   (* the first eight hexadecimal digits *)

Definition char_between (lo hi c : Ascii.ascii) : bool :=
  (Ascii.N_of_ascii lo <=? Ascii.N_of_ascii c)%N && (Ascii.N_of_ascii c <=? Ascii.N_of_ascii hi)%N.

(** [[a-z0-9_]] *)
Definition schema_char (c : Ascii.ascii) : bool :=
  char_between "a"%char "z"%char c || char_between "0"%char "9"%char c || bool_decide (c = "_"%char).

Fixpoint all_schema_chars (s : string) : bool :=
  match s with EmptyString => true | String c s => schema_char c && all_schema_chars s end.

(** [re.sub(r"[^a-z0-9_]+", "_", s)]; [inside] is true within a run. *)
Fixpoint replace_runs (inside : bool) (s : string) : string :=
  match s with
  | EmptyString => EmptyString
  | String c s =>
      if schema_char c then String c (replace_runs false s)
      else if inside then replace_runs true s else String "_"%char (replace_runs true s)
  end.

(** [s.lstrip("_")], [s.rstrip("_")] *)
Fixpoint lstrip_underscore (s : string) : string :=
  match s with
  | String c s' => if bool_decide (c = "_"%char) then lstrip_underscore s' else s
  | EmptyString => EmptyString
  end.

Fixpoint rstrip_underscore (s : string) : string :=
  match s with
  | EmptyString => EmptyString
  | String c s' =>
      match rstrip_underscore s' with
      | EmptyString => if bool_decide (c = "_"%char) then EmptyString else String c EmptyString
      | stripped => String c stripped
      end
  end.

Definition or_extension (s : string) : string := if str_truthy s then s else "extension".

Section Store.
Context `{pk : Packaging} {dg : Digest}.

Definition extension_schema_name (extension_name : string) : outcome ext_exn string :=
  let raw_name := py_strip extension_name in
  if negb (str_truthy raw_name) then Raise (ExtValueError "Extension name cannot be empty")
  else
    let canonical := py_lower raw_name in
    let slug := or_extension (rstrip_underscore (lstrip_underscore (replace_runs false canonical))) in
    let digest := sha256_8 raw_name in
    let needs_hash := negb (bool_decide (raw_name = canonical)) || negb (all_schema_chars canonical) in
    let suffix := if needs_hash then "_" +:+ digest else "" in
    let available := (63 - 8 - String.length suffix)%nat in
    if (available <? String.length slug)%nat then
      let suffix := "_" +:+ digest in
      let available := (63 - 8 - String.length suffix)%nat in
      Ok ("dvt_ext_" +:+ or_extension (rstrip_underscore (String.substring 0 available slug)) +:+ suffix)
    else Ok ("dvt_ext_" +:+ slug +:+ suffix).

(** [record.storage_schema or extension_schema_name(record.name)] *)
Definition storage_schema_of (record : ExtensionRecord) : outcome ext_exn string :=
  match ex_storage_schema record with
  | Some s => if str_truthy s then Ok s else extension_schema_name (ex_name record)
  | None => extension_schema_name (ex_name record)
  end.

Definition resolve_storage_schema (extension_name : string) (records : list ExtensionRecord) : outcome ext_exn string :=
  r ← resolve_record records extension_name;
  match r with Some r => storage_schema_of r | None => Raise (ExtensionNotFound extension_name) end.

(** ** Manifests *)

Definition empty_manifest : ExtensionManifest := mkManifest "" "" None [] None None "" None None [] "".

(** [_build_manifest_json]: what is given replaces what the existing manifest says. *)
Definition _build_manifest_json (name display_name description : string) (repository_url : option string)
    (existing_manifest : ManifestJson) : ManifestJson :=
  let m := default empty_manifest existing_manifest in
  Some (mkManifest name (mf_version m) (mf_package_name m) (filter (λ s, str_truthy (py_strip s) = true) (mf_legacy_names m))
          (mf_dvt_version m) (Some display_name) description repository_url (mf_homepage_url m)
          (filter (λ s, str_truthy (py_strip s) = true) (mf_requirements m)) (mf_rest m)).

(** ** Lookups *)

Definition name_le (a b : ExtensionRecord) : Prop := str_le (ex_name a) (ex_name b).

#[global] Instance name_le_dec : RelDecision name_le.
Proof. intros a b. unfold name_le. apply _. Defined.

Definition list_extensions (records : list ExtensionRecord) : list ExtensionRecord := merge_sort name_le records.

Definition get_extension (name : string) (records : list ExtensionRecord) : outcome ext_exn (option ExtensionRecord) :=
  resolve_record records name.

Definition get_extension_or_raise (name : string) (records : list ExtensionRecord) : outcome ext_exn ExtensionRecord :=
  r ← get_extension name records;
  match r with Some r => Ok r | None => Raise (ExtensionNotFound name) end.

(** ** [upsert_extension] *)

(** [_apply_update] *)
Definition apply_update (data : ExtensionCreate) (manifest : option ExtensionManifest) (canonical : string)
    (target : ExtensionRecord) : outcome ext_exn ExtensionRecord :=
  conflict ← (match manifest_package_name (ex_manifest_json target) with
              | Some declared =>
                  if str_truthy declared then
                    c ← canonical_extension_name (Some declared); Ok (negb (bool_decide (c = canonical)))
                  else Ok false
              | None => Ok false
              end);
  if (conflict : bool) then Raise (ConflictingIdentity (ex_name target))
  else
    schema ← storage_schema_of target;
    let old_name := ex_name target in
    let target := set_ex_name canonical (set_ex_storage_schema (Some schema) target) in
    let existing := default empty_manifest (ex_manifest_json target) in
    let target := set_ex_manifest_json
      (Some (manifest_with_aliases target (with_names (mf_name existing) [old_name] existing))) target in
    let display_name := or_str (cr_display_name data)
                          (or_str (manifest ≫= mf_display_name) (or_str (Some (ex_display_name target)) (cr_name data))) in
    let description := match cr_description data, manifest with
                       | Some d, _ => d
                       | None, Some m => mf_description m
                       | None, None => ex_description target
                       end in
    let repository_url := or_option (cr_repository_url data) (ex_repository_url target) in
    let manifest_json := _build_manifest_json canonical (or_str (Some display_name) canonical) description repository_url
                           (match manifest with
                            | Some m => Some (manifest_with_aliases target m)
                            | None => ex_manifest_json target
                            end) in
    Ok (set_ex_last_version (match manifest with Some m => Some (mf_version m) | None => ex_last_version target end)
          (set_ex_manifest_json manifest_json (set_ex_repository_url repository_url
             (set_ex_description description (set_ex_display_name display_name target))))).

(** The row of an extension that is not there yet. *)
Definition new_extension (uuid : string) (data : ExtensionCreate) (manifest : option ExtensionManifest) (canonical : string)
    : outcome ext_exn ExtensionRecord :=
  schema ← extension_schema_name canonical;
  let display_name := or_str (cr_display_name data) (or_str (manifest ≫= mf_display_name) (cr_name data)) in
  let description := or_str (cr_description data) (match manifest with Some m => mf_description m | None => "" end) in
  Ok (mkExtension uuid canonical display_name (Some schema) description (cr_repository_url data) true false NOT_INSTALLED
        None (mf_version <$> manifest) None
        (_build_manifest_json canonical display_name description (cr_repository_url data) manifest) [] [] None None).

(** [COMMIT] of a row: names are unique. *)
Definition commit_record (r : ExtensionRecord) (records : list ExtensionRecord) : outcome ext_exn (list ExtensionRecord) :=
  if bool_decide (Exists (λ r', ex_name r' = ex_name r ∧ ex_id r' ≠ ex_id r) records) then Raise IntegrityError
  else match record_by_id (ex_id r) records with
       | Some _ => Ok (put_record r records)
       | None => Ok (records ++ [r])
       end.

(** [records] is what the query returns, [at_commit] the table when the transaction commits: another
    session may have taken the name in between, and then the row it created is updated. *)
Definition upsert_extension (uuid : string) (data : ExtensionCreate) (manifest : option ExtensionManifest)
    (records at_commit : list ExtensionRecord) : outcome ext_exn (ExtensionRecord * list ExtensionRecord) :=
  canonical ← canonical_extension_name (Some (match manifest with Some m => mf_name m | None => cr_name data end));
  found ← get_extension canonical records;
  res ← (match found with
         | None => r ← new_extension uuid data manifest canonical; Ok (r, canonical)
         | Some r =>
             canonical ← (match manifest with
                          | Some _ => Ok canonical
                          | None => canonical_extension_name
                                      (Some (or_str (manifest_package_name (ex_manifest_json r)) (ex_name r)))
                          end);
             r ← apply_update data manifest canonical r; Ok (r, canonical)
         end);
  let '(r, canonical) := res in
  match commit_record r at_commit with
  | Ok t => Ok (r, t)
  | Raise IntegrityError =>
      existing ← get_extension canonical at_commit;
      match existing with
      | None => Raise IntegrityError
      | Some existing =>
          r ← apply_update data manifest canonical existing;
          t ← commit_record r at_commit;
          Ok (r, t)
      end
  | Raise e => Raise e
  end.

(** ** [reconcile_extension_identity] *)

Definition shares_identity (identities : list string) (r : ExtensionRecord) : bool :=
  existsb (λ i, bool_decide (i ∈ record_identities r)) identities.

(** A tuple of truth values, compared lexicographically, is the number of its digits. *)
Definition bits (l : list bool) : nat := foldl (λ n (b : bool), 2 * n + if b then 1 else 0)%nat 0%nat l.

Definition survivor_rank (canonical : string) (item : ExtensionRecord) : nat :=
  bits [ex_is_installed item; opt_truthy (ex_install_path item) || list_truthy (ex_state_json item);
        bool_decide (normalize_extension_identity (Some (ex_name item)) = canonical);
        str_opt_truthy (ex_repository_url item) || list_truthy (ex_available_versions item)].

Definition catalog_rank (canonical : string) (item : ExtensionRecord) : nat :=
  bits [str_opt_truthy (ex_repository_url item); list_truthy (ex_available_versions item);
        str_opt_truthy (ex_last_version item);
        bool_decide (normalize_extension_identity (Some (ex_name item)) = canonical)].

(** [max(items, key=key)] *)
Definition max_by {A} (key : A → nat) (first : A) (rest : list A) : A :=
  foldl (λ best x, if (key best <? key x)%nat then x else best) first rest.

Definition is_owner (item : ExtensionRecord) : bool :=
  ex_is_installed item || opt_truthy (ex_install_path item) || list_truthy (ex_state_json item)
  || str_opt_truthy (ex_storage_schema item).

(** The loop that refuses packages declared under another name. *)
Fixpoint check_declared (canonical : string) (candidates : list ExtensionRecord) : outcome ext_exn unit :=
  match candidates with
  | [] => Ok ()
  | item :: rest =>
      match manifest_package_name (ex_manifest_json item) with
      | Some declared =>
          if str_truthy declared then
            c ← canonical_extension_name (Some declared);
            if bool_decide (c = canonical) then check_declared canonical rest
            else Raise (ConflictingIdentity (ex_name item))
          else check_declared canonical rest
      | None => check_declared canonical rest
      end
  end.

(** What the survivor takes from a duplicate. *)
Definition absorb (survivor duplicate : ExtensionRecord) : ExtensionRecord :=
  if negb (ex_is_installed survivor) && ex_is_installed duplicate then
    set_ex_is_installed (ex_is_installed duplicate) (set_ex_is_enabled (ex_is_enabled duplicate)
      (set_ex_deps_status (ex_deps_status duplicate) (set_ex_current_version (ex_current_version duplicate)
         (set_ex_install_path (ex_install_path duplicate) (set_ex_state_json (ex_state_json duplicate)
            (set_ex_error_message (ex_error_message duplicate) (set_ex_installed_at (ex_installed_at duplicate) survivor)))))))
  else if list_truthy (ex_state_json duplicate) && negb (list_truthy (ex_state_json survivor)) then
    set_ex_state_json (ex_state_json duplicate) survivor
  else survivor.

(** The catalogue fields and the manifest of the survivor. *)
Definition merge_survivor (canonical schema : string) (data : ExtensionCreate) (manifest : option ExtensionManifest)
    (aliases : list string) (available_versions : option (list string)) (candidates : list ExtensionRecord)
    (catalog survivor : ExtensionRecord) : ExtensionRecord :=
  let display_name := or_str (cr_display_name data)
                        (or_str (manifest ≫= mf_display_name) (or_str (Some (ex_display_name survivor)) (ex_name survivor))) in
  let description := match cr_description data, manifest with
                     | Some d, _ => d
                     | None, Some m => if str_truthy (mf_description m) then mf_description m else ex_description survivor
                     | None, None => ex_description survivor
                     end in
  let repository_url := or_option (cr_repository_url data) (or_option (ex_repository_url survivor) (ex_repository_url catalog)) in
  let '(versions, last_version) :=
    match available_versions with
    | Some vs => (vs, match vs with v :: _ => Some v | [] => ex_last_version survivor end)
    | None =>
        if negb (bool_decide (ex_id catalog = ex_id survivor)) && list_truthy (ex_available_versions catalog)
        then (ex_available_versions catalog, or_option (ex_last_version catalog) (ex_last_version survivor))
        else (ex_available_versions survivor, ex_last_version survivor)
    end in
  let existing := match ex_manifest_json survivor with
                  | Some m =>
                      Some (match manifest with
                            | Some new =>
                                if str_opt_truthy (mf_package_name new)
                                then mkManifest (mf_name m) (mf_version m) (mf_package_name new) (mf_legacy_names m)
                                       (mf_dvt_version m) (mf_display_name m) (mf_description m) (mf_repository_url m)
                                       (mf_homepage_url m) (mf_requirements m) (mf_rest m)
                                else m
                            | None => m
                            end)
                  | None => manifest
                  end in
  let existing := (λ m, with_names (mf_name m)
                    (merged_names (mf_legacy_names m)
                       (aliases ++ (match manifest with Some new => mf_legacy_names new | None => [] end)
                        ++ (ex_name <$> candidates)) canonical) m) <$> existing in
  set_ex_manifest_json (_build_manifest_json canonical (or_str (Some display_name) (ex_name survivor)) description repository_url existing)
    (set_ex_available_versions versions (set_ex_last_version last_version
       (set_ex_repository_url repository_url (set_ex_description description
          (set_ex_display_name display_name (set_ex_storage_schema (Some schema) survivor)))))).

(** The table is locked: the rows that are read are those that are written. *)
Definition reconcile_extension_identity (uuid : string) (data : ExtensionCreate) (manifest : option ExtensionManifest)
    (aliases : list string) (available_versions : option (list string)) (records : list ExtensionRecord)
    : outcome ext_exn (ExtensionRecord * list ExtensionRecord) :=
  canonical ← canonical_extension_name (Some (match manifest with Some m => mf_name m | None => cr_name data end));
  let identities := extension_identity_set [Some (cr_name data); manifest ≫= mf_package_name]
                      (aliases ++ match manifest with Some m => mf_legacy_names m | None => [] end) in
  match filter (λ r, shares_identity identities r = true) records with
  | [] =>
      res ← upsert_extension uuid (mkCreate canonical (cr_display_name data) (cr_description data) (cr_repository_url data))
              manifest records records;
      let '(created, t) := res in
      match available_versions with
      | Some vs => let r := set_ex_available_versions vs created in Ok (r, put_record r t)
      | None => Ok (created, t)
      end
  | (first :: rest) as candidates =>
      _ ← check_declared canonical candidates;
      if (1 <? length (filter (λ r, is_owner r = true) candidates))%nat then Raise (MultipleOwners canonical)
      else
        let survivor := max_by (survivor_rank canonical) first rest in
        schema ← storage_schema_of survivor;
        let catalog := max_by (catalog_rank canonical) first rest in
        let merged := merge_survivor canonical schema data manifest aliases available_versions candidates catalog survivor in
        let duplicates := filter (λ r, ex_id r ≠ ex_id survivor) candidates in
        let final := set_ex_name canonical (foldl absorb merged duplicates) in
        t ← commit_record final (filter (λ r, ex_id r ∉ ex_id <$> duplicates) records);
        Ok (final, t)
  end.

(** ** Other operations on a loaded row *)

Definition set_enabled (name : string) (enabled : bool) (records : list ExtensionRecord)
    : outcome ext_exn (ExtensionRecord * list ExtensionRecord) :=
  r ← get_extension_or_raise name records;
  let r := set_ex_is_enabled enabled r in
  Ok (r, put_record r records).

Definition delete_extension_record (r : ExtensionRecord) (records : list ExtensionRecord) : list ExtensionRecord :=
  filter (λ r', ex_id r' ≠ ex_id r) records.

Definition mark_installed (r : ExtensionRecord) (version : string) (install_path : path) (manifest : ExtensionManifest)
    (display_name description latest_version : option string) (now : Z) : ExtensionRecord :=
  set_ex_display_name (or_str display_name (or_str (mf_display_name manifest) (or_str (Some (ex_display_name r)) (ex_name r))))
    (set_ex_description (or_str description (or_str (Some (mf_description manifest)) (ex_description r)))
       (set_ex_current_version (Some version) (set_ex_last_version (or_option latest_version (Some version))
          (set_ex_install_path (Some install_path) (set_ex_manifest_json (Some (manifest_with_aliases r manifest))
             (set_ex_is_installed true (set_ex_deps_status INSTALLING (set_ex_error_message None
                (set_ex_installed_at (Some now) r))))))))).

Definition mark_uninstalled (r : ExtensionRecord) : ExtensionRecord :=
  set_ex_is_installed false (set_ex_deps_status NOT_INSTALLED (set_ex_install_path None
    (set_ex_current_version None (set_ex_error_message None r)))).

Definition set_runtime_error (r : ExtensionRecord) (error_message : option string) : ExtensionRecord :=
  set_ex_error_message error_message r.

(** ** [sync_installed_extensions] *)

Definition _find_known_extension_for_manifest (known : list ExtensionRecord) (manifest : ExtensionManifest) (root_dir : path)
    : outcome ext_exn (option ExtensionRecord) :=
  match list_find (λ r, ex_install_path r = Some root_dir) known with
  | Some (_, r) =>
      match manifest_package_name (ex_manifest_json r) with
      | Some declared =>
          if str_truthy declared then
            c ← canonical_extension_name (Some declared);
            if bool_decide (c = mf_name manifest) then Ok (Some r)
            else Raise (ExtValueError "Package identity changed")
          else Ok (Some r)
      | None => Ok (Some r)
      end
  | None =>
      let identities := extension_identity_set [Some (mf_name manifest); mf_package_name manifest] (mf_legacy_names manifest) in
      match filter (λ r, shares_identity identities r = true) known with
      | [] => Ok None
      | [r] => Ok (Some r)
      | _ => Raise (ExtValueError "Ambiguous installed extension")
      end
  end.

(** The row of a package that is found on the disk. *)
Definition discovered_extension (uuid : string) (manifest : ExtensionManifest) (root_dir : path) (now : Z)
    : outcome ext_exn ExtensionRecord :=
  name ← canonical_extension_name (Some (mf_name manifest));
  schema ← extension_schema_name (mf_name manifest);
  Ok (mkExtension uuid name (or_str (mf_display_name manifest) (mf_name manifest)) (Some schema) (mf_description manifest) None
        true true NOT_INSTALLED (Some (mf_version manifest)) (Some (mf_version manifest)) (Some root_dir)
        (Some manifest) [] [] None (Some now)).

Definition refresh_discovered (manifest : ExtensionManifest) (root_dir : path) (r : ExtensionRecord) : ExtensionRecord :=
  let display_name := or_str (mf_display_name manifest) (ex_display_name r) in
  let description := or_str (Some (mf_description manifest)) (ex_description r) in
  set_ex_display_name display_name (set_ex_description description (set_ex_is_installed true
    (set_ex_current_version (Some (mf_version manifest)) (set_ex_last_version (Some (mf_version manifest))
       (set_ex_install_path (Some root_dir)
          (set_ex_manifest_json
             (_build_manifest_json (ex_name r) display_name description (ex_repository_url r) (Some (manifest_with_aliases r manifest)))
             r)))))).

(** [known[extension.name] = extension] *)
Definition put_known (r : ExtensionRecord) (known : list ExtensionRecord) : list ExtensionRecord :=
  if bool_decide (ex_name r ∈ ex_name <$> known)
  then (λ r', if bool_decide (ex_name r' = ex_name r) then r else r') <$> known
  else known ++ [r].

Definition sync_discovered (uuid : string → string) (now : Z) (known : list ExtensionRecord)
    (info : string * (path * ExtensionManifest)) : outcome ext_exn (list ExtensionRecord) :=
  let '(ext_name, (root_dir, manifest)) := info in
  found ← _find_known_extension_for_manifest known manifest root_dir;
  let found := match found with Some r => Some r | None => snd <$> list_find (λ r, ex_name r = ext_name) known end in
  match found with
  | None => r ← discovered_extension (uuid ext_name) manifest root_dir now; Ok (put_known r known)
  | Some r => Ok (put_known (refresh_discovered manifest root_dir r) known)
  end.

(** A row whose directory is gone is not installed. *)
Definition mark_missing (exists_dir : path → bool) (r : ExtensionRecord) : ExtensionRecord :=
  match ex_install_path r with
  | Some p => if exists_dir p then r else set_ex_is_installed false (set_ex_deps_status NOT_INSTALLED r)
  | None => r
  end.

Definition sync_installed_records (uuid : string → string) (exists_dir : path → bool)
    (discovered : pydict (path * ExtensionManifest)) (now : Z) (records : list ExtensionRecord)
    : outcome ext_exn (list ExtensionRecord) :=
  known ← foldM (sync_discovered uuid now) records discovered;
  Ok (map (mark_missing exists_dir) known).

End Store.
