(* ===== verification/ExtSpec.v ===== *)
(** * Extensions: what the repository guarantees

    Results about [ExtStore] and the state of an extension: the schema of an extension is a legal
    PostgreSQL identifier; after the records of a package are reconciled every name of the package leads
    to one row; what is written under a key of the state is read back, and only writing the default key
    touches other keys. *)
From Stdlib Require Import Ascii.
From S2P Require Import Prelude PipelineTypes Graph NodeKwargs PipelineBuild EditStore EditSpec ExtTypes ExtStore.
Open Scope Z_scope.

(** ** Schema names *)

Lemma all_schema_chars_app a b : all_schema_chars (a +:+ b) = all_schema_chars a && all_schema_chars b.
Proof. induction a as [|c a IH]; [done|]. change (schema_char c && all_schema_chars (a +:+ b) = (schema_char c && all_schema_chars a) && all_schema_chars b). by rewrite IH, andb_assoc. Qed.

Lemma replace_runs_chars inside s : all_schema_chars (replace_runs inside s) = true.
Proof.
  revert inside; induction s as [|c s IH]; intros inside; [done|]. cbn. destruct (schema_char c) eqn:Hc; cbn; [by rewrite Hc, IH|].
  destruct inside; [apply IH|]. cbn. apply IH.
Qed.

(** Stripping leaves a part of the string. *)
Lemma lstrip_chars s : all_schema_chars s = true → all_schema_chars (lstrip_underscore s) = true.
Proof. induction s as [|c s IH]; [done|]. cbn. intros [Hc Hs]%andb_true_iff. case_bool_decide; [by apply IH|cbn; by rewrite Hc]. Qed.

Lemma rstrip_chars s : all_schema_chars s = true → all_schema_chars (rstrip_underscore s) = true.
Proof.
  induction s as [|c s IH]; [done|]. cbn. intros [Hc Hs]%andb_true_iff. specialize (IH Hs).
  destruct (rstrip_underscore s); [case_bool_decide; cbn; by rewrite ?Hc|]. cbn in *. by rewrite Hc.
Qed.

Lemma rstrip_length s : (String.length (rstrip_underscore s) ≤ String.length s)%nat.
Proof.
  induction s as [|c s IH]; [done|]. cbn. destruct (rstrip_underscore s); [case_bool_decide; cbn; lia|]. cbn in *. lia.
Qed.

Lemma substring_prefix n s : (String.length (String.substring 0 n s) ≤ n)%nat ∧ (all_schema_chars s = true → all_schema_chars (String.substring 0 n s) = true).
Proof.
  revert n; induction s as [|c s IH]; intros [|n]; cbn; [split; [lia|done]..|]. destruct (IH n) as [H1 H2]. split; [lia|].
  intros [Hc Hs]%andb_true_iff. rewrite Hc. cbn. by apply H2.
Qed.

Lemma or_extension_chars s : all_schema_chars s = true → all_schema_chars (or_extension s) = true.
Proof. unfold or_extension. by destruct (str_truthy s). Qed.

Lemma or_extension_length s n : (9 ≤ n)%nat → (String.length s ≤ n)%nat → (1 ≤ String.length (or_extension s) ≤ n)%nat.
Proof.
  intros H9 Hn. unfold or_extension, str_truthy. case_bool_decide; cbn [negb]; [cbn; lia|]. destruct s; [done|]. cbn in *. lia.
Qed.

Section Schema.
Context {dg : Digest}.
Context (digest_length : ∀ s, String.length (sha256_8 s) = 8%nat) (digest_chars : ∀ s, all_schema_chars (sha256_8 s) = true).

Lemma string_app_nil s : s +:+ "" = s.
Proof. induction s as [|c s IH]; [done|]. change (String c (s +:+ "") = String c s). by rewrite IH. Qed.

Lemma replace_runs_none s : all_schema_chars s = true → replace_runs false s = s.
Proof. induction s as [|c s IH]; [done|]. cbn. intros [Hc Hs]%andb_true_iff. by rewrite Hc, IH. Qed.

Lemma schema_parts slug suffix :
  all_schema_chars slug = true → all_schema_chars suffix = true → (1 ≤ String.length slug)%nat →
  (String.length slug + String.length suffix ≤ 55)%nat →
  let schema := "dvt_ext_" +:+ slug +:+ suffix in
  String.prefix "dvt_ext_" schema = true ∧ all_schema_chars schema = true ∧ (9 ≤ String.length schema ≤ 63)%nat.
Proof.
  intros H1 H2 H3 H4 schema. unfold schema. split; [apply prefix_app|]. split; [by rewrite !all_schema_chars_app, H1, H2|].
  rewrite !string_length_app. change (String.length "dvt_ext_") with 8%nat. lia.
Qed.

(** A schema is a prefix, a slug and perhaps a digest: at most 63 characters, all of them letters,
    digits or underscores in lower case; and a name that is such a word already is kept, unless it is too long. *)
Theorem schema_names_are_identifiers extension_name schema :
  extension_schema_name extension_name = Ok schema →
  String.prefix "dvt_ext_" schema = true ∧ all_schema_chars schema = true ∧
  (9 ≤ String.length schema ≤ 63)%nat ∧
  let name := py_strip extension_name in
  (py_lower name = name → all_schema_chars name = true → rstrip_underscore (lstrip_underscore name) = name →
   (String.length name ≤ 55)%nat → schema = "dvt_ext_" +:+ name).
Proof.
  unfold extension_schema_name. set (raw := py_strip extension_name). set (lowered := py_lower raw).
  destruct (str_truthy raw) eqn:Hraw; [|done]. cbn [negb]. set (slug := or_extension _).
  assert (all_schema_chars slug = true) as Hslug by apply or_extension_chars, rstrip_chars, lstrip_chars, replace_runs_chars.
  assert (1 ≤ String.length slug)%nat as Hs1.
  { unfold slug, or_extension, str_truthy. case_bool_decide; cbn [negb]; [cbn; lia|]. destruct (rstrip_underscore _); [done|cbn; lia]. }
  set (needs := _ || _). set (suffix := if needs then _ else _).
  assert (all_schema_chars suffix = true ∧ String.length suffix ≤ 9)%nat as [Hsc Hsl].
  { unfold suffix. destruct needs; [|split; [done|cbn; lia]]. rewrite all_schema_chars_app, digest_chars, string_length_app, digest_length. split; [done|cbn; lia]. }
  destruct (_ <? _)%nat eqn:Hlen; intros Hok; [apply Nat.ltb_lt in Hlen|apply Nat.ltb_ge in Hlen]; cbv zeta in Hok.
  - assert (all_schema_chars ("_" +:+ sha256_8 raw) = true ∧ String.length ("_" +:+ sha256_8 raw) = 9)%nat as [Hdc Hdl].
    { rewrite all_schema_chars_app, digest_chars, string_length_app, digest_length. done. }
    rewrite Hdl in Hok. assert (∀ a b : string, Ok (E := ext_exn) a = Ok b → b = a) as Hinj by congruence. apply Hinj in Hok as ->. destruct (substring_prefix (63 - 8 - 9) slug) as [Hp1 Hp2].
    pose proof (rstrip_length (String.substring 0 (63 - 8 - 9) slug)) as Hr.
    destruct (or_extension_length (rstrip_underscore (String.substring 0 (63 - 8 - 9) slug)) 46) as [Ho1 Ho2]; [lia..|].
    destruct (schema_parts (or_extension (rstrip_underscore (String.substring 0 (63 - 8 - 9) slug))) ("_" +:+ sha256_8 raw))
      as (P1 & P2 & P3); [by apply or_extension_chars, rstrip_chars, Hp2|done|done|lia|].
    split; [exact P1|]. split; [exact P2|]. split; [exact P3|]. intros Hlow Hch Hst Hl. exfalso.
    apply Nat.lt_nge in Hlen. apply Hlen. unfold suffix, needs, slug. rewrite Hlow, (replace_runs_none _ Hch), Hst, Hch.
    rewrite bool_decide_eq_true_2 by done. cbn [negb orb]. unfold or_extension. rewrite Hraw. cbn [String.length]. lia.
  - assert (∀ a b : string, Ok (E := ext_exn) a = Ok b → b = a) as Hinj by congruence. apply Hinj in Hok as ->.
    destruct (schema_parts slug suffix) as (P1 & P2 & P3); [done|done|done|lia|]. split; [exact P1|]. split; [exact P2|]. split; [exact P3|].
    intros Hlow Hch Hst Hl. unfold suffix, needs, slug. rewrite Hlow, (replace_runs_none _ Hch), Hst, Hch.
    rewrite bool_decide_eq_true_2 by done. cbn [negb orb]. unfold or_extension. rewrite Hraw. by rewrite string_app_nil.
Qed.
End Schema.

(** ** Identities *)

(** The only element of a list that satisfies [P]. *)
Lemma filter_unique {A} (P : A → Prop) `{!∀ x, Decision (P x)} (l : list A) x :
  NoDup l → x ∈ l → P x → (∀ y, y ∈ l → P y → y = x) → filter P l = [x].
Proof.
  intros Hnd Hin HP Hu. apply list_elem_of_split in Hin as (l1 & l2 & ->). apply NoDup_app in Hnd as (_ & H1 & Hnd).
  apply NoDup_cons in Hnd as [H2 _]. rewrite filter_app, filter_cons, decide_True by done.
  rewrite !list_filter_none; [done| |]; intros y Hy Py.
  - assert (y = x) as -> by (apply Hu; [|done]; apply elem_of_app; right; by right). done.
  - assert (y = x) as -> by (apply Hu; [|done]; apply elem_of_app; by left). apply (H1 x Hy). left.
Qed.

Section Identity.
Context `{pk : Packaging} (laws : packaging_laws).

Lemma canonical_spec name c :
  canonical_extension_name (Some name) = Ok c →
  c ≠ "" ∧ normalize_extension_identity (Some name) = c ∧ normalize_extension_identity (Some c) = c.
Proof.
  unfold canonical_extension_name, normalize_extension_identity, str_truthy.
  destruct (bool_decide (py_strip name = "")) eqn:Hs; cbn [negb]; [done|]. apply bool_decide_eq_false in Hs.
  destruct (is_valid_name _); [|done]. intros [= <-].
  assert (name ≠ "") as Hn by (intros ->; done).
  assert (canonicalize_name (py_strip name) ≠ "") as Hc by (intros H; apply Hs, (canonicalize_nonempty laws), H).
  rewrite !bool_decide_eq_false_2 by done. cbn [negb]. split_and!; [done..|].
  by rewrite (canonicalize_strip laws), (canonicalize_idemp laws).
Qed.

Lemma elem_of_identities vs al i :
  i ∈ extension_identity_set vs al ↔
    i ≠ "" ∧ ((∃ v, v ∈ vs ∧ normalize_extension_identity v = i) ∨ ∃ a, a ∈ al ∧ normalize_extension_identity (Some a) = i).
Proof.
  unfold extension_identity_set. rewrite list_elem_of_filter. unfold str_truthy. rewrite negb_true_iff, bool_decide_eq_false.
  rewrite list_elem_of_fmap. split; intros [Hi H]; (split; [done|]).
  - destruct H as (v & -> & [Hv|Hv]%elem_of_app); [left; by exists v|right]. apply list_elem_of_fmap in Hv as (a & -> & Ha). by exists a.
  - destruct H as [(v & Hv & <-)|(a & Ha & <-)]; [exists v; split; [done|]; apply elem_of_app; by left|].
    exists (Some a). split; [done|]. apply elem_of_app. right. apply list_elem_of_fmap. by exists a.
Qed.

Lemma blank_identity s : py_strip s = "" → normalize_extension_identity (Some s) = "".
Proof. unfold normalize_extension_identity. intros ->. destruct (str_truthy s); [|done]. by apply (canonicalize_nonempty laws). Qed.

Lemma elem_of_merged_names a b x y : y ∈ merged_names a b x ↔ (y ∈ a ∨ y ∈ b) ∧ y ≠ x.
Proof. unfold merged_names. rewrite merge_sort_Permutation, elem_of_remove_dups, list_elem_of_filter, elem_of_app. tauto. Qed.

(** A row that has the canonical name, the package name and the aliases of a request has all its identities. *)
Lemma identities_covered r c name package aliases legacy :
  canonical_extension_name (Some name) = Ok c → ex_name r = c →
  (str_opt_truthy package = true → manifest_package_name (ex_manifest_json r) = package) →
  manifest_aliases (ex_manifest_json r) = filter (λ s, str_truthy (py_strip s) = true) legacy →
  (∀ a, a ∈ aliases → a ∈ legacy ∨ a = c) →
  ∀ i, i ∈ extension_identity_set [Some name; package] aliases → i ∈ record_identities r.
Proof.
  intros (_ & Hn & Hc)%canonical_spec Hname Hpkg Hal Hsub i (Hi & H)%elem_of_identities.
  apply elem_of_identities. split; [done|]. rewrite Hal, Hname.
  destruct H as [(v & [->|[->|[]%not_elem_of_nil]%elem_of_cons]%elem_of_cons & Hv)|(a & Ha & Hv)].
  - left. exists (Some c). split; [left|congruence].
  - left. exists package. split; [|done]. destruct package as [p|]; [|done]. rewrite Hpkg; [right; left|].
    cbn in *. by destruct (str_truthy p).
  - destruct (Hsub a Ha) as [Hl| ->]; [|left; exists (Some c); split; [left|done]].
    right. exists a. split; [|done]. apply list_elem_of_filter. split; [|done].
    unfold str_truthy. apply negb_true_iff, bool_decide_eq_false. intros Hb%blank_identity. congruence.
Qed.

Lemma shares_identity_spec (requested : list string) r : shares_identity requested r = true ↔ ∃ i, i ∈ requested ∧ i ∈ record_identities r.
Proof.
  unfold shares_identity. rewrite existsb_exists. split; intros (i & H1 & H2); exists i.
  - rewrite bool_decide_eq_true in H2. by rewrite list_elem_of_In.
  - rewrite <-list_elem_of_In. by rewrite bool_decide_eq_true.
Qed.

(** When the other rows share nothing with the request, each of its names leads to [r]. *)
Lemma request_resolves (requested : list string) r t :
  NoDup (ex_id <$> t) → r ∈ t → (∀ i, i ∈ requested → i ∈ record_identities r) →
  (∀ r', r' ∈ t → ex_id r' ≠ ex_id r → shares_identity requested r' = false) →
  ∀ name, normalize_extension_identity (Some name) ∈ requested → resolve_record t name = Ok (Some r).
Proof.
  intros Hnd Hin Hall Hother name Hi. unfold resolve_record.
  rewrite (filter_unique _ t r); [done|by eapply NoDup_fmap_1|done|by apply Hall|].
  intros y Hy Hiy. destruct (decide (ex_id y = ex_id r)) as [E|E].
  - apply list_elem_of_lookup in Hy as [j Hj], Hin as [k Hk].
    assert (j = k) as -> by (eapply NoDup_lookup; [exact Hnd|by rewrite list_lookup_fmap, Hj|by rewrite list_lookup_fmap, Hk; cbn; rewrite E]).
    congruence.
  - exfalso. apply Hother in E; [|done]. apply not_true_iff_false in E. apply E, shares_identity_spec. eauto.
Qed.

End Identity.

(** ** Rows *)

Lemma record_by_id_elem id records r : record_by_id id records = Some r → r ∈ records ∧ ex_id r = id.
Proof.
  unfold record_by_id. destruct (list_find _ records) as [[i r']|] eqn:Hf; [|done]. cbn. intros [= <-].
  apply list_find_Some in Hf as (Hi & He & _). split; [by eapply list_elem_of_lookup_2|done].
Qed.

Lemma record_by_id_none id records : record_by_id id records = None → id ∉ ex_id <$> records.
Proof.
  unfold record_by_id. destruct (list_find _ records) as [|] eqn:Hf; [done|]. intros _ Hin.
  apply list_find_None in Hf. rewrite Forall_forall in Hf. apply list_elem_of_fmap in Hin as (r & -> & Hr). by apply (Hf r).
Qed.

Lemma put_record_ids r records : ex_id <$> put_record r records = ex_id <$> records.
Proof. unfold put_record. rewrite <-list_fmap_compose. apply list_fmap_ext. intros i r' _. cbn. by case_bool_decide. Qed.

Lemma elem_of_put_record r records r' : r' ∈ put_record r records → r' = r ∨ (r' ∈ records ∧ ex_id r' ≠ ex_id r).
Proof. unfold put_record. intros (y & -> & Hy)%list_elem_of_fmap. case_bool_decide; [by left|by right]. Qed.

(** Distinct rows have distinct names when all names other than those of [r] were distinct, and no
    other row has the name of [r]. *)
Lemma put_record_names r records :
  (∀ r', r' ∈ records → ex_name r' = ex_name r → ex_id r' = ex_id r) → NoDup (ex_id <$> records) →
  NoDup (ex_name <$> records) → NoDup (ex_name <$> put_record r records).
Proof.
  intros Hr Hid Hn. unfold put_record. rewrite <-list_fmap_compose. induction records as [|a records IH]; [constructor|].
  rewrite fmap_cons in *. apply NoDup_cons in Hid as [Ha Hid], Hn as [Hna Hn]. constructor.
  - cbn. intros Hin. apply list_elem_of_fmap in Hin as (b & Hb & Hin). cbn in Hb. revert Hb.
    assert (ex_id a ≠ ex_id b) by (intros E; apply Ha; rewrite E; apply list_elem_of_fmap; by exists b).
    case_bool_decide as H1; case_bool_decide as H2; intros Hb.
    + congruence.
    + apply H2, Hr; [by right|done].
    + apply H1, Hr; [left|done].
    + apply Hna. rewrite Hb. apply list_elem_of_fmap. by exists b.
  - apply IH; [|done..]. intros r' Hin. apply Hr. by right.
Qed.

Lemma commit_spec r records t :
  NoDup (ex_id <$> records) → commit_record r records = Ok t →
  NoDup (ex_id <$> t) ∧ r ∈ t ∧ (∀ r', r' ∈ t → ex_id r' ≠ ex_id r → r' ∈ records) ∧
  (NoDup (ex_name <$> records) → NoDup (ex_name <$> t)).
Proof.
  intros Hnd. unfold commit_record. case_bool_decide as Hu; [done|].
  assert (∀ r', r' ∈ records → ex_name r' = ex_name r → ex_id r' = ex_id r) as Hname.
  { intros r' Hin E. destruct (decide (ex_id r' = ex_id r)); [done|]. destruct Hu. apply Exists_exists. by exists r'. }
  destruct (record_by_id (ex_id r) records) as [old|] eqn:Hf; intros [= <-].
  - apply record_by_id_elem in Hf as [Hin Hid]. split; [by rewrite put_record_ids|]. split_and!.
    + unfold put_record. apply list_elem_of_fmap. exists old. split; [|done]. by rewrite bool_decide_eq_true_2.
    + intros r' [->|[? _]]%elem_of_put_record; [done|done].
    + intros Hn. by apply put_record_names.
  - apply record_by_id_none in Hf. rewrite !fmap_app. split_and!.
    + apply NoDup_app. split_and!; [done| |apply NoDup_singleton]. intros i Hi Hs. apply list_elem_of_singleton in Hs as ->. done.
    + apply elem_of_app. right. by left.
    + intros r' [?|Hs]%elem_of_app; [done|]. apply list_elem_of_singleton in Hs as ->. done.
    + intros Hn. apply NoDup_app. split_and!; [done| |apply NoDup_singleton]. intros n Hi Hs. apply list_elem_of_singleton in Hs as ->.
      apply list_elem_of_fmap in Hi as (r' & E & Hin). apply Hf. rewrite <-(Hname r'); [|done|done]. apply list_elem_of_fmap. by exists r'.
Qed.

Lemma max_by_elem {A} (key : A → nat) first rest : max_by key first rest ∈ first :: rest.
Proof.
  unfold max_by. revert first; induction rest as [|x rest IH]; intros first; [left|]. cbn [foldl].
  destruct (_ <? _)%nat; [right; apply IH|]. specialize (IH first). apply elem_of_cons in IH as [E|E]; [rewrite E; left|right; by right].
Qed.

(** What absorbing duplicates leaves alone. *)
Lemma absorb_keeps duplicates r :
  ex_id (foldl absorb r duplicates) = ex_id r ∧ ex_manifest_json (foldl absorb r duplicates) = ex_manifest_json r.
Proof.
  revert r; induction duplicates as [|d duplicates IH]; intros r; [done|]. cbn [foldl]. destruct (IH (absorb r d)) as [-> ->].
  unfold absorb. destruct (negb _ && _); [done|]. by destruct (_ && _).
Qed.

(** ** Reconciling *)

Section Reconcile.
Context `{pk : Packaging} {dg : Digest} (laws : packaging_laws).

(** The names under which a package is known. *)
Definition package_identities (m : ExtensionManifest) : list string :=
  extension_identity_set [Some (mf_name m); mf_package_name m] (mf_legacy_names m).

(** What is promised of a table that was reconciled for the package [m], from the table [records]. *)
Record reconciled (m : ExtensionManifest) (records t : list ExtensionRecord) (r : ExtensionRecord) : Prop := {
  rc_in : r ∈ t;
  rc_name : canonical_extension_name (Some (mf_name m)) = Ok (ex_name r);
  rc_ids : NoDup (ex_id <$> t);
  rc_names : NoDup (ex_name <$> records) → NoDup (ex_name <$> t);
  rc_resolves name : normalize_extension_identity (Some name) ∈ package_identities m → resolve_record t name = Ok (Some r);
  rc_others r' : r' ∈ records → shares_identity (package_identities m) r' = false → ex_id r' ≠ ex_id r → r' ∈ t;
}.

(** The row has the names of the package, and no other row has any of them. *)
Record claimed (m : ExtensionManifest) (records t : list ExtensionRecord) (r : ExtensionRecord) : Prop := {
  cl_in : r ∈ t;
  cl_name : canonical_extension_name (Some (mf_name m)) = Ok (ex_name r);
  cl_ids : NoDup (ex_id <$> t);
  cl_names : NoDup (ex_name <$> records) → NoDup (ex_name <$> t);
  cl_covers i : i ∈ package_identities m → i ∈ record_identities r;
  cl_alone r' : r' ∈ t → ex_id r' ≠ ex_id r → shares_identity (package_identities m) r' = false;
  cl_others r' : r' ∈ records → shares_identity (package_identities m) r' = false → ex_id r' ≠ ex_id r → r' ∈ t;
}.

Lemma claimed_reconciled m records t r : claimed m records t r → reconciled m records t r.
Proof.
  intros [H1 H2 H3 H4 H5 H6 H7]. split; [done..| |done]. intros name. by apply (request_resolves (package_identities m)).
Qed.

(** A row that is not there yet. *)
Lemma new_extension_covers uuid data m c r :
  canonical_extension_name (Some (mf_name m)) = Ok c → new_extension uuid data (Some m) c = Ok r →
  ex_id r = uuid ∧ ex_name r = c ∧ ∀ i, i ∈ package_identities m → i ∈ record_identities r.
Proof.
  intros Hc. unfold new_extension. destruct (extension_schema_name c) as [schema|]; [|done]. cbn [mbind outcome_bind]. intros [= <-].
  split_and!; [done..|]. eapply (identities_covered laws); [exact Hc|done|done|reflexivity|]. intros a Ha. by left.
Qed.

(** The survivor has the names of the package and those of all rows it replaces. *)
Lemma survivor_covers c schema data m versions candidates catalog survivor duplicates :
  canonical_extension_name (Some (mf_name m)) = Ok c →
  let merged := merge_survivor c schema data (Some m) (mf_legacy_names m) versions candidates catalog survivor in
  let final := set_ex_name c (foldl absorb merged duplicates) in
  ∀ i, i ∈ package_identities m → i ∈ record_identities final.
Proof.
  intros Hc merged final. destruct (absorb_keeps duplicates merged) as [_ Hm].
  assert (∃ m', ex_manifest_json final = Some m' ∧ (str_opt_truthy (mf_package_name m) = true → mf_package_name m' = mf_package_name m) ∧
    ∃ legacy, mf_legacy_names m' = filter (λ s, str_truthy (py_strip s) = true) legacy ∧ ∀ a, a ∈ mf_legacy_names m → a ∈ legacy ∨ a = c)
    as (m' & Em & Hp & legacy & Hl & Hsub).
  { change (ex_manifest_json final) with (ex_manifest_json (foldl absorb merged duplicates)). rewrite Hm. unfold merged, merge_survivor.
    destruct versions as [vs|]; [|destruct (_ && _)]; cbn [ex_manifest_json set_ex_manifest_json]; unfold _build_manifest_json;
      (eexists; split; [reflexivity|]); destruct (ex_manifest_json survivor) as [old|]; cbn;
      (split; [intros Hp; by rewrite ?Hp|eexists; split; [reflexivity|]]);
      intros a Ha; (destruct (decide (a = c)) as [->|Hne]; [by right|left]); apply elem_of_merged_names; (split; [|done]); right;
      rewrite !elem_of_app; by left. }
  apply (identities_covered laws final c (mf_name m) (mf_package_name m) (mf_legacy_names m) legacy); [done|done| | |done];
    rewrite Em; done.
Qed.

Lemma canonical_unknown m c records :
  canonical_extension_name (Some (mf_name m)) = Ok c →
  (∀ r', r' ∈ records → shares_identity (package_identities m) r' = false) → get_extension c records = Ok None.
Proof.
  intros (Hne & Hn & Hcc)%(canonical_spec laws) Hother. unfold get_extension, resolve_record.
  rewrite list_filter_none; [done|]. intros r' Hin Hi. apply Hother in Hin. apply not_true_iff_false in Hin. apply Hin, shares_identity_spec.
  exists c. rewrite Hcc in Hi. split; [|done]. apply elem_of_identities. split; [done|]. left. exists (Some (mf_name m)). split; [left|done].
Qed.

(** The aliases that are passed are those of the manifest. *)
Lemma requested_identities m r :
  shares_identity (extension_identity_set [Some (mf_name m); mf_package_name m] (mf_legacy_names m ++ mf_legacy_names m)) r =
  shares_identity (package_identities m) r.
Proof.
  apply eq_true_iff_eq. rewrite !shares_identity_spec. unfold package_identities. apply exist_proper. intros i.
  rewrite !elem_of_identities. setoid_rewrite elem_of_app. naive_solver.
Qed.

(** Replacing the candidates by the survivor. *)
Lemma reconcile_merges m records candidates survivor final t :
  NoDup (ex_id <$> records) →
  candidates = filter (λ r, shares_identity (package_identities m) r = true) records → survivor ∈ candidates →
  ex_id final = ex_id survivor → canonical_extension_name (Some (mf_name m)) = Ok (ex_name final) →
  (∀ i, i ∈ package_identities m → i ∈ record_identities final) →
  commit_record final (filter (λ r, ex_id r ∉ ex_id <$> filter (λ r, ex_id r ≠ ex_id survivor) candidates) records) = Ok t →
  claimed m records t final.
Proof.
  intros Hnd Ecand Hsurv Hid Hc Hcov Hcommit. set (kept := filter _ records) in Hcommit.
  assert (NoDup (ex_id <$> kept)) as Hk by (eapply fmap_sublist_NoDup; [apply sublist_filter|done]).
  destruct (commit_spec _ _ _ Hk Hcommit) as (C1 & C2 & C3 & C4). split; [done|done|done| |done| |].
  - intros Hn. apply C4. eapply fmap_sublist_NoDup; [apply sublist_filter|done].
  - intros r' Hin Hne. specialize (C3 r' Hin Hne).
    apply list_elem_of_filter in C3 as [Hd Hr]. apply not_true_iff_false. intros Hs. apply Hd.
    apply list_elem_of_fmap. exists r'. split; [done|]. apply list_elem_of_filter. split; [congruence|].
    rewrite Ecand. by apply list_elem_of_filter.
  - intros r' Hin Hs Hne. assert (r' ∈ kept) as Hr.
    { apply list_elem_of_filter. split; [|done]. intros Hd. apply list_elem_of_fmap in Hd as (d & E & [_ Hd]%list_elem_of_filter).
      rewrite Ecand in Hd. apply list_elem_of_filter in Hd as [Hds Hd].
      assert (r' = d) as ->; [|congruence]. apply list_elem_of_lookup in Hin as [i Hi], Hd as [j Hj].
      assert (i = j) as -> by (eapply NoDup_lookup; [exact Hnd|by rewrite list_lookup_fmap, Hi|by rewrite list_lookup_fmap, Hj; cbn; rewrite E]).
      congruence. }
    unfold commit_record in Hcommit. case_bool_decide; [done|].
    destruct (record_by_id (ex_id final) kept) as [old|] eqn:Hf; injection Hcommit as <-.
    + unfold put_record. apply list_elem_of_fmap. exists r'. split; [|done]. by rewrite bool_decide_eq_false_2.
    + apply elem_of_app. by left.
Qed.

(** Setting the versions of the row changes nothing of this. *)
Lemma claimed_update m records t r vs :
  claimed m records t r → claimed m records (put_record (set_ex_available_versions vs r) t) (set_ex_available_versions vs r).
Proof.
  intros [H1 H2 H3 H4 H5 H6 H7]. split.
  - unfold put_record. apply list_elem_of_fmap. exists r. split; [|done]. by rewrite bool_decide_eq_true_2.
  - done.
  - by rewrite put_record_ids.
  - intros Hn. apply put_record_names; [|done|auto]. intros r' Hin E.
    apply list_elem_of_lookup in Hin as [i Hi], H1 as [j Hj].
    assert (i = j) as -> by (eapply NoDup_lookup; [exact (H4 Hn)|by rewrite list_lookup_fmap, Hi|by rewrite list_lookup_fmap, Hj; cbn; rewrite E]).
    cbn. congruence.
  - done.
  - intros r' [->|[Hin _]]%elem_of_put_record Hne; [done|by apply H6].
  - intros r' Hin Hs Hne. unfold put_record. apply list_elem_of_fmap. exists r'. split; [|by apply H7]. by rewrite bool_decide_eq_false_2.
Qed.

(** No row shares a name with the package: one is created. *)
Lemma reconcile_creates uuid data m records r t :
  NoDup (ex_id <$> records) → uuid ∉ ex_id <$> records →
  filter (λ r, shares_identity (package_identities m) r = true) records = [] →
  upsert_extension uuid data (Some m) records records = Ok (r, t) → claimed m records t r.
Proof.
  intros Hnd Hfresh Hnone. unfold upsert_extension. destruct (canonical_extension_name _) as [c|] eqn:Hc; [|done]. cbn [mbind outcome_bind].
  assert (∀ r', r' ∈ records → shares_identity (package_identities m) r' = false) as Hother.
  { intros r' Hin. apply not_true_iff_false. intros Hs. apply (not_elem_of_nil r'). rewrite <-Hnone. by apply list_elem_of_filter. }
  rewrite (canonical_unknown m c records Hc Hother).
  cbn [mbind outcome_bind]. destruct (new_extension _ _ _ _) as [new|] eqn:Hnew; [|done]. cbn [mbind outcome_bind].
  destruct (new_extension_covers _ _ _ _ _ Hc Hnew) as (Hid & Hname & Hcov).
  destruct (commit_record new records) as [t'|[]] eqn:Hcommit; try done; [intros [= <- <-]|].
  2:{ by rewrite (canonical_unknown m c records Hc Hother). }
  destruct (commit_spec _ _ _ Hnd Hcommit) as (C1 & C2 & C3 & C4).
  split; [done|by rewrite Hname|done|done|done|auto|].
  intros r' Hin _ Hne. unfold commit_record in Hcommit. case_bool_decide; [done|].
  destruct (record_by_id (ex_id new) records) as [old|] eqn:Hf; injection Hcommit as <-.
  - unfold put_record. apply list_elem_of_fmap. exists r'. split; [|done]. by rewrite bool_decide_eq_false_2.
  - apply elem_of_app. by left.
Qed.

(** C34. After a package is reconciled, as the catalogue, the scan of the disk and the installation of a
    package do it, every name of the package resolves to its one row, which has the canonical name;
    ids and names stay unique, and rows that share no name with the package are not touched. *)
Theorem reconciled_names_resolve uuid data m versions records r t :
  NoDup (ex_id <$> records) → uuid ∉ ex_id <$> records → cr_name data = mf_name m →
  reconcile_extension_identity uuid data (Some m) (mf_legacy_names m) versions records = Ok (r, t) →
  reconciled m records t r.
Proof.
  intros Hnd Hfresh Hname. unfold reconcile_extension_identity. destruct (canonical_extension_name _) as [c|] eqn:Hc; [|done].
  cbn [mbind outcome_bind]. rewrite Hname. cbn [mbind option_bind].
  rewrite (list_filter_ext_in _ (λ r, shares_identity (package_identities m) r = true)) by (intros r' _; by rewrite requested_identities).
  destruct (filter _ records) as [|first rest] eqn:Ecand; intros H; apply claimed_reconciled; revert H.
  - destruct (upsert_extension _ _ _ _ _) as [[created t']|] eqn:Hup; [|done]. cbn [mbind outcome_bind].
    apply reconcile_creates in Hup; [|done..]. destruct versions as [vs|]; intros [= <- <-]; [|done]. by apply claimed_update.
  - destruct (check_declared _ _); [|done]. cbn [mbind outcome_bind]. destruct (_ <? _)%nat; [done|].
    destruct (storage_schema_of _) as [schema|]; [|done]. cbn [mbind outcome_bind].
    destruct (commit_record _ _) as [t'|] eqn:Hcommit; [|done]. cbn [mbind outcome_bind]. intros [= <- <-].
    eapply reconcile_merges; [done|symmetry; exact Ecand|apply max_by_elem| | | |exact Hcommit].
    + cbn [ex_id set_ex_name]. etrans; [apply absorb_keeps|]. unfold merge_survivor. destruct versions; [done|]. by destruct (_ && _).
    + done.
    + by apply survivor_covers.
Qed.

(** ** Rows that are never merged *)

Lemma schema_is_set name schema : extension_schema_name name = Ok schema → str_truthy schema = true.
Proof.
  unfold extension_schema_name. destruct (str_truthy _); [|done]. cbn [negb]. cbv zeta. destruct (_ <? _)%nat; by intros [= <-].
Qed.

Lemma new_rows_have_a_schema uuid data manifest c r :
  new_extension uuid data manifest c = Ok r → str_opt_truthy (ex_storage_schema r) = true.
Proof.
  unfold new_extension. destruct (extension_schema_name c) as [schema|] eqn:Hs; [|done]. intros [= <-]. by eapply schema_is_set.
Qed.

Lemma discovered_rows_have_a_schema uuid manifest root now r :
  discovered_extension uuid manifest root now = Ok r → str_opt_truthy (ex_storage_schema r) = true.
Proof.
  unfold discovered_extension. destruct (canonical_extension_name _) as [n|]; [|done]. cbn [mbind outcome_bind].
  destruct (extension_schema_name _) as [schema|] eqn:Hs; [|done]. intros [= <-]. by eapply schema_is_set.
Qed.

(** A row with a schema counts as an installation, so two rows of one package are refused. *)
Lemma rows_with_schemas_are_not_merged uuid data m versions records :
  cr_name data = mf_name m → Forall (λ r, str_opt_truthy (ex_storage_schema r) = true) records →
  (1 < length (filter (λ r, shares_identity (package_identities m) r = true) records))%nat →
  ∃ e, reconcile_extension_identity uuid data (Some m) (mf_legacy_names m) versions records = Raise e.
Proof.
  intros Hname Hall Hlen. unfold reconcile_extension_identity. destruct (canonical_extension_name _) as [c|e] eqn:Hc; [|by exists e].
  cbn [mbind outcome_bind]. rewrite Hname. cbn [mbind option_bind].
  rewrite (list_filter_ext_in _ (λ r, shares_identity (package_identities m) r = true)) by (intros r' _; by rewrite requested_identities).
  destruct (filter _ records) as [|first rest] eqn:Ecand; [cbn in Hlen; lia|].
  destruct (check_declared _ _) as [|e]; [|by exists e]. cbn [mbind outcome_bind].
  rewrite (list_filter_all (λ r, is_owner r = true)).
  - apply Nat.ltb_lt in Hlen. rewrite Hlen. by eexists.
  - intros r Hr. rewrite <-Ecand in Hr. apply list_elem_of_filter in Hr as [_ Hr]. rewrite Forall_forall in Hall. unfold is_owner.
    rewrite (Hall r Hr). by rewrite !orb_true_r.
Qed.

End Reconcile.

(** ** State *)

Lemma normalize_dict_value v : _normalize_state (Some (dict_value v)) = Ok v.
Proof.
  unfold _normalize_state, dict_value. f_equal. induction v as [|[k x] v IH]; [done|]. cbn. by rewrite IH.
Qed.

(** What is written under a key is read back; another key keeps its value. *)
Lemma keyed_state_roundtrip state key value :
  _read_key_state (_write_key_state state key value) key = Ok value ∧
  ∀ other, key ≠ "default" → other ≠ "default" → other ≠ key →
    _read_key_state (_write_key_state state key value) other = _read_key_state state other.
Proof.
  unfold _read_key_state, _write_key_state. split.
  - case_bool_decide; [done|]. rewrite dget_dset_eq. apply normalize_dict_value.
  - intros other Hk Ho Hne. rewrite !bool_decide_eq_false_2 by done. by rewrite dget_dset_ne.
Qed.

(** The values of the other keys are stored in the value of the default key, and are lost when it is set. *)
Lemma default_state_discards_keys state other value :
  other ≠ "default" → dget value other = None →
  _read_key_state (_write_key_state state "default" value) other = Ok [].
Proof. intros Ho Hv. unfold _read_key_state, _write_key_state. rewrite (bool_decide_eq_false_2 (other = "default")) by done. rewrite (bool_decide_eq_true_2 ("default" = "default")) by done. by rewrite Hv. Qed.
