(* ===== verification/ExtFiles.v ===== *)
(** * Extensions: files, packages and the deletion queue

    Models [infra/packages/installer.py] (the swap of an installed directory), the discarding of a
    staged package ([infra/packages/artifact.py]) and [infra/packages/deletion_queue.py].

    A directory is the dictionary of its files; the file system is the list of the directories below
    the extensions directory. A staged package is its payload directory. Calls that may fail consume
    the next entry of a script of faults: a removal may fail after it deleted some files and a copy
    after it created some, a renaming fails as a whole. A removal fails for lack of permission, the
    error [uninstall] expects. The database always answers. *)
From S2P Require Import Prelude PipelineTypes Graph NodeKwargs ExtTypes ExtStore.
Open Scope Z_scope.

(** ** The world *)

Inductive file_fault := Works | FailsAfter (files : nat).

Record RegisteredExtension := mkRegistered { rg_manifest : ExtensionManifest; rg_root : path }.

#[global] Instance RegisteredExtension_eq_dec : EqDecision RegisteredExtension.
Proof. solve_decision. Defined.

Abbreviation Tree := (pydict string).

Record ExtWorld := mkWorld {
  w_dirs : list (path * Tree);
  w_table : list ExtensionRecord;
  w_pending : list (string * path);          (* the deletion queue *)
  w_loaded : pydict RegisteredExtension;     (* the registry of extensions *)
  w_apps : list string;                      (* the gateway routes that are served *)
  w_faults : list file_fault;
}.

Definition set_dirs (d : list (path * Tree)) (w : ExtWorld) : ExtWorld :=
  mkWorld d (w_table w) (w_pending w) (w_loaded w) (w_apps w) (w_faults w).
Definition set_table (t : list ExtensionRecord) (w : ExtWorld) : ExtWorld :=
  mkWorld (w_dirs w) t (w_pending w) (w_loaded w) (w_apps w) (w_faults w).
Definition set_deletions (p : list (string * path)) (w : ExtWorld) : ExtWorld :=
  mkWorld (w_dirs w) (w_table w) p (w_loaded w) (w_apps w) (w_faults w).
Definition set_loaded (l : pydict RegisteredExtension) (w : ExtWorld) : ExtWorld :=
  mkWorld (w_dirs w) (w_table w) (w_pending w) l (w_apps w) (w_faults w).
Definition set_apps (a : list string) (w : ExtWorld) : ExtWorld :=
  mkWorld (w_dirs w) (w_table w) (w_pending w) (w_loaded w) a (w_faults w).
Definition set_faults (f : list file_fault) (w : ExtWorld) : ExtWorld :=
  mkWorld (w_dirs w) (w_table w) (w_pending w) (w_loaded w) (w_apps w) f.

(** ** Computations that may raise *)

Definition X (A : Type) : Type := ExtWorld → outcome ext_exn A * ExtWorld.

Definition xret {A} (a : A) : X A := λ w, (Ok a, w).
Definition xraise {A} (e : ext_exn) : X A := λ w, (Raise e, w).
Definition xbind {A B} (m : X A) (k : A → X B) : X B := λ w,
  match m w with (Ok a, w') => k a w' | (Raise e, w') => (Raise e, w') end.

#[global] Instance X_ret : MRet X := @xret.
#[global] Instance X_bind : MBind X := λ A B k m, xbind m k.

(** [try: m except: h] *)
Definition xcatch {A} (m : X A) (h : ext_exn → X A) : X A := λ w,
  match m w with (Ok a, w') => (Ok a, w') | (Raise e, w') => h e w' end.

Definition xget : X ExtWorld := λ w, (Ok w, w).
Definition xput (f : ExtWorld → ExtWorld) : X unit := λ w, (Ok (), f w).
Definition xlift {A} (o : outcome ext_exn A) : X A := λ w, (o, w).

Fixpoint xfor {A} (f : A → X unit) (l : list A) : X unit :=
  match l with [] => xret () | a :: l => xbind (f a) (λ _, xfor f l) end.

(** The fate of the next call that may fail. *)
Definition next_fault : X file_fault := λ w,
  match w_faults w with [] => (Ok Works, w) | f :: fs => (Ok f, set_faults fs w) end.

(** A call that changes nothing the model keeps: a command, a migration, a broadcast. *)
Definition attempt (message : string) : X unit :=
  f ← next_fault;
  match f with Works => xret () | FailsAfter _ => xraise (ExtRuntimeError message) end.

(** ** Directories *)

Fixpoint dir_in (dirs : list (path * Tree)) (p : path) : option Tree :=
  match dirs with
  | [] => None
  | (q, t) :: dirs => if decide (p = q) then Some t else dir_in dirs p
  end.

Definition dir_of (w : ExtWorld) (p : path) : option Tree := dir_in (w_dirs w) p.

Definition del_dir (p : path) (dirs : list (path * Tree)) : list (path * Tree) := filter (λ kv, kv.1 ≠ p) dirs.
Definition put_dir (p : path) (t : Tree) (dirs : list (path * Tree)) : list (path * Tree) := del_dir p dirs ++ [(p, t)].

(** [p.exists()] *)
Definition path_exists (p : path) : X bool := λ w, (Ok (opt_truthy (dir_of w p)), w).

(** [_remove_install_root]: a read-only file is made writable; another error is raised. *)
Definition _remove_install_root (p : path) : X unit :=
  w ← xget;
  match dir_of w p with
  | None => xraise (OsError "not found")
  | Some t =>
      f ← next_fault;
      match f with
      | Works => xput (λ w, set_dirs (del_dir p (w_dirs w)) w)
      | FailsAfter n => _ ← xput (λ w, set_dirs (put_dir p (drop n t) (w_dirs w)) w); xraise (OsError "not removed")
      end
  end.

(** [shutil.rmtree(p, ignore_errors=True)] *)
Definition rmtree_quietly (p : path) : X unit :=
  e ← path_exists p;
  if (e : bool) then xcatch (_remove_install_root p) (λ _, xret ()) else xret ().

(** [p.replace(q)]: a directory is not renamed onto another. *)
Definition rename (p q : path) : X unit :=
  w ← xget;
  match dir_of w p, dir_of w q with
  | Some t, None =>
      f ← next_fault;
      match f with
      | Works => xput (λ w, set_dirs (put_dir q t (del_dir p (w_dirs w))) w)
      | FailsAfter _ => xraise (OsError "not renamed")
      end
  | _, _ => xraise (OsError "not renamed")
  end.

(** [shutil.move(p, q)] copies when it cannot rename; a copy may stop half way. *)
Definition move (p q : path) : X unit :=
  w ← xget;
  match dir_of w p, dir_of w q with
  | Some t, None =>
      f ← next_fault;
      match f with
      | Works => xput (λ w, set_dirs (put_dir q t (del_dir p (w_dirs w))) w)
      | FailsAfter 0 => xraise (OsError "not moved")
      | FailsAfter n => _ ← xput (λ w, set_dirs (put_dir q (take n t) (w_dirs w)) w); xraise (OsError "not moved")
      end
  | _, _ => xraise (OsError "not moved")
  end.

(** ** Packages *)

Record StagedExtensionPackage := mkStaged {
  st_root_dir : path;
  st_manifest : ExtensionManifest;
  st_has_wheelhouse : bool;
}.

Definition discard_staged_extension_package (staged : StagedExtensionPackage) : X unit := rmtree_quietly (st_root_dir staged).

Record ExtensionInstallSwap := mkSwap {
  sw_install_root : path;
  sw_backup_root : option path;
  sw_stage : StagedExtensionPackage;
}.

Definition candidate_path (root : path) (token : string) : path :=
  mkPath (p_parent root) ("." +:+ p_name root +:+ ".candidate-" +:+ token).
Definition backup_path (root : path) (token : string) : path :=
  mkPath (p_parent root) ("." +:+ p_name root +:+ ".backup-" +:+ token).

Definition when_exists (p : option path) (m : path → X unit) : X unit :=
  match p with
  | Some p => e ← path_exists p; if (e : bool) then m p else xret ()
  | None => xret ()
  end.

(** What [activate_staged_package] does when one of its steps fails. *)
Definition undo_activation (staged : StagedExtensionPackage) (install_root candidate_root : path) (backup_root : option path)
    : X unit :=
  _ ← when_exists backup_root (λ _, e ← path_exists install_root; if (e : bool) then _remove_install_root install_root else xret ());
  _ ← when_exists backup_root (λ b, e ← path_exists install_root; if (e : bool) then xret () else rename b install_root);
  _ ← when_exists (Some candidate_root) _remove_install_root;
  discard_staged_extension_package staged.

(** [activate_staged_package]; [token] is the unique suffix. *)
Definition activate_staged_package (token : string) (staged : StagedExtensionPackage) (install_root : path)
    : X ExtensionInstallSwap :=
  present ← path_exists install_root;
  let candidate_root := candidate_path install_root token in
  let backup_root := if (present : bool) then Some (backup_path install_root token) else None in
  _ ← xcatch
        (_ ← move (st_root_dir staged) candidate_root;
         _ ← (match backup_root with Some b => rename install_root b | None => xret () end);
         rename candidate_root install_root)
        (λ e, _ ← undo_activation staged install_root candidate_root backup_root; xraise e);
  xret (mkSwap install_root backup_root staged).

Definition commit_install_swap (swap : ExtensionInstallSwap) : X unit :=
  _ ← when_exists (sw_backup_root swap) _remove_install_root;
  discard_staged_extension_package (sw_stage swap).

Definition rollback_install_swap (swap : ExtensionInstallSwap) : X unit :=
  _ ← when_exists (Some (sw_install_root swap)) _remove_install_root;
  _ ← when_exists (sw_backup_root swap) (λ b, rename b (sw_install_root swap));
  discard_staged_extension_package (sw_stage swap).

(** ** The deletion queue *)

Section Queue.
Context (extensions_root : string).

(** [_validate_path]: a direct child of the extensions directory. *)
Definition valid_path (p : path) : bool := bool_decide (p_parent p = extensions_root).

(** Entries elsewhere are ignored. *)
Definition _load_entries (w : ExtWorld) : list (string * path) := filter (λ item, valid_path item.2 = true) (w_pending w).

Definition add_pending_deletion (name : string) (p : path) : X unit :=
  if negb (valid_path p) then xraise (ExtValueError "Extension deletion path must be a direct child")
  else xput (λ w, set_deletions (filter (λ item, item.1 ≠ name ∧ item.2 ≠ p) (_load_entries w) ++ [(name, p)]) w).

Definition get_pending_deletion_paths (w : ExtWorld) : list path := (_load_entries w).*2.

(** The directories that are removed; what cannot be removed stays in the queue. *)
Fixpoint process_entries (entries : list (string * path)) : X (list (string * path)) :=
  match entries with
  | [] => xret []
  | item :: entries =>
      e ← path_exists item.2;
      kept ← (if (e : bool) then xcatch (_ ← _remove_install_root item.2; xret []) (λ _, xret [item]) else xret []);
      rest ← process_entries entries;
      xret (kept ++ rest)
  end.

Definition process_pending_deletions : X unit :=
  w ← xget;
  remaining ← process_entries (_load_entries w);
  xput (set_deletions remaining).

(** [uninstall]: a directory that is in use is removed later. *)
Definition uninstall (install_root : path) : X unit :=
  e ← path_exists install_root;
  if (e : bool) then
    xcatch (_remove_install_root install_root) (λ _, add_pending_deletion (p_name install_root) install_root)
  else xret ().

End Queue.
