(* ===== verification/ExtRuntime.v ===== *)
(** * Extensions: loading them into a process

    Models how the installed extensions become part of a running process: manifests
    ([infra/runtime/loader.py]), [load_all_extension_runtimes] ([infra/runtime/runtime.py]), the registry
    of extensions, and the routes of the gateway ([infra/runtime/gateway_runtime.py]).

    What the code of an extension does when it is imported, and what Python knows of a package, are
    parameters ([ExtEnv]); so are the parsing of [pyproject.toml] and the removal of secrets from
    messages. The tables of Python modules are not modelled. *)
From S2P Require Import Prelude PipelineTypes Graph NodeKwargs ExtTypes ExtStore ExtFiles.
Open Scope Z_scope.

Class ExtEnv := {
  extensions_root : string;
  extensions_enabled : bool;
  current_dvt_version : option string;
  sanitize_extension_error : string → string;
  load_manifest_payload : Tree → outcome string (option ExtensionManifest);
  resolve_nodes_dir_if_present : ExtensionManifest → Tree → outcome string bool;      (* whether it has nodes *)
  backend_package_name : ExtensionManifest → Tree → outcome string string;
  package_conflict : string → path → option string;       (* what Python has under the name already *)
  import_extension_nodes_for : RegisteredExtension → Tree → outcome string unit;
  rebuild_node_registries : pydict RegisteredExtension → list string → outcome string (pydict string);   (* and the names it is strict about *)
  load_router : RegisteredExtension → Tree → outcome (string * string) bool;   (* whether it has routes; the stage of an error *)
}.

Record ExtensionRuntimeSpec := mkSpec { es_name : string; es_root : path; es_legacy : list string }.

Record ExtensionLoadFailure := mkFailure { lf_name : string; lf_stage : string; lf_message : string }.

Record ExtensionLoadReport := mkReport {
  lr_loaded : pydict RegisteredExtension;
  lr_failures : pydict ExtensionLoadFailure;
}.

Definition record_failure (name stage message : string) (failures : pydict ExtensionLoadFailure) : pydict ExtensionLoadFailure :=
  dset failures name (mkFailure name stage message).

(** [d.pop(name, None)] for all names of [gone]. *)
Definition without_names {A B} (gone : pydict A) (d : pydict B) : pydict B := filter (λ kv, kv.1 ∉ dkeys gone) d.

Definition casefold_le (a b : ExtensionRuntimeSpec) : Prop := str_le (py_lower (es_name a)) (py_lower (es_name b)).

#[global] Instance casefold_le_dec : RelDecision casefold_le.
Proof. intros a b. unfold casefold_le. apply _. Defined.

Section Runtime.
Context `{pk : Packaging} {env : ExtEnv}.

Definition stage_error (stage message : string) : string := stage +:+ ": " +:+ sanitize_extension_error message.

(** ** [load_manifest] *)

Definition check_dvt_compatibility (m : ExtensionManifest) : bool :=
  is_dvt_version_compatible current_dvt_version (mf_dvt_version m).

Definition load_manifest (dirs : list (path * Tree)) (root_dir : path) (extension_name : option string) (legacy_names : list string)
    : outcome string (option RegisteredExtension) :=
  match dir_in dirs root_dir with
  | None => Ok None
  | Some tree =>
      m ← load_manifest_payload tree;
      match m with
      | None => Ok None
      | Some m =>
          if match extension_name with Some n => negb (bool_decide (n = mf_name m)) | None => false end
          then Raise "Runtime identity differs from package"
          else Ok (Some (mkRegistered (with_names (mf_name m)
                      (merge_sort str_le (remove_dups (mf_legacy_names m ++ legacy_names))) m) root_dir))
      end
  end.

Definition tree_at (dirs : list (path * Tree)) (p : path) : Tree := default [] (dir_in dirs p).

(** What is read of the package of a spec. *)
Definition read_spec (dirs : list (path * Tree)) (spec : ExtensionRuntimeSpec) : outcome string RegisteredExtension :=
  if negb (bool_decide (p_parent (es_root spec) = extensions_root)) then Raise "Extension root must be a direct child"
  else
    ext ← load_manifest dirs (es_root spec) (Some (es_name spec)) (es_legacy spec);
    match ext with
    | None => Raise "Manifest not found"
    | Some ext =>
        if check_dvt_compatibility (rg_manifest ext) then
          _ ← resolve_nodes_dir_if_present (rg_manifest ext) (tree_at dirs (es_root spec)); Ok ext
        else Raise "Extension is incompatible with DVT"
    end.

Definition load_spec (dirs : list (path * Tree)) (st : pydict RegisteredExtension * pydict ExtensionLoadFailure)
    (spec : ExtensionRuntimeSpec) : pydict RegisteredExtension * pydict ExtensionLoadFailure :=
  let '(manifests, failures) := st in
  match read_spec dirs spec with
  | Ok ext =>
      if dmem manifests (es_name spec)
      then (manifests, record_failure (es_name spec) "manifest" "Duplicate extension package" failures)
      else (dset manifests (es_name spec) ext, failures)
  | Raise message => (manifests, record_failure (es_name spec) "manifest" message failures)
  end.

(** ** [_validate_backend_packages] *)

(** The package of an extension's nodes; [None] where it has no nodes. *)
Definition nodes_package (dirs : list (path * Tree)) (ext : RegisteredExtension) : outcome string (option string) :=
  has_nodes ← resolve_nodes_dir_if_present (rg_manifest ext) (tree_at dirs (rg_root ext));
  if has_nodes : bool then p ← backend_package_name (rg_manifest ext) (tree_at dirs (rg_root ext)); Ok (Some p) else Ok None.

Definition package_of (dirs : list (path * Tree)) (ext : RegisteredExtension) : option string :=
  match nodes_package dirs ext with Ok (Some p) => Some p | _ => None end.

(** The extensions whose nodes live in package [package]. *)
Definition package_owners (dirs : list (path * Tree)) (extensions : pydict RegisteredExtension) (package : string) : list string :=
  (filter (λ kv, package_of dirs kv.2 = Some package) extensions).*1.

(** The first loop: a package that cannot be used, or that Python has already. *)
Definition check_package (dirs : list (path * Tree)) (failures : pydict ExtensionLoadFailure) (item : string * RegisteredExtension)
    : pydict ExtensionLoadFailure :=
  match nodes_package dirs item.2 with
  | Raise message => record_failure item.1 "backend_package" message failures
  | Ok None => failures
  | Ok (Some package) =>
      match package_conflict package (rg_root item.2) with
      | Some message => record_failure item.1 "backend_package" message failures
      | None => failures
      end
  end.

(** The second loop: a package of several extensions. *)
Definition check_owners (dirs : list (path * Tree)) (extensions : pydict RegisteredExtension)
    (failures : pydict ExtensionLoadFailure) (item : string * RegisteredExtension) : pydict ExtensionLoadFailure :=
  match package_of dirs item.2 with
  | Some package =>
      if (1 <? length (package_owners dirs extensions package))%nat
      then record_failure item.1 "backend_package" "Backend package is shared by extensions" failures
      else failures
  | None => failures
  end.

Definition _validate_backend_packages (dirs : list (path * Tree)) (extensions : pydict RegisteredExtension)
    (failures : pydict ExtensionLoadFailure) : pydict ExtensionLoadFailure :=
  foldl (check_owners dirs extensions) (foldl (check_package dirs) failures extensions) extensions.

(** ** [load_all_extension_runtimes] *)

Definition import_one (dirs : list (path * Tree)) (failures : pydict ExtensionLoadFailure) (item : string * RegisteredExtension)
    : pydict ExtensionLoadFailure :=
  match import_extension_nodes_for item.2 (tree_at dirs (rg_root item.2)) with
  | Ok _ => failures
  | Raise message => record_failure item.1 "import" message failures
  end.

(** The first failure, by name, of an extension that must load. *)
Definition strict_failure (strict : list string) (failures : pydict ExtensionLoadFailure) : option ExtensionLoadFailure :=
  name ← head (merge_sort str_le (filter (λ n, n ∈ dkeys failures) strict)); dget failures name.

(** The report, or the failure of a strict extension, or the error of the registries. *)
Definition load_runtimes (dirs : list (path * Tree)) (strict : list string) (specs : list ExtensionRuntimeSpec) : outcome string ExtensionLoadReport :=
  let specs := if extensions_enabled then merge_sort casefold_le specs else [] in
  let '(manifests, failures) := foldl (load_spec dirs) ([], []) specs in
  let failures := _validate_backend_packages dirs manifests failures in
  let manifests := without_names failures manifests in
  let failures := foldl (import_one dirs) failures manifests in
  match strict_failure strict failures with
  | Some failure => Raise (lf_message failure)
  | None =>
      let manifests := without_names failures manifests in
      rebuilt ← rebuild_node_registries manifests strict;
      let failures := foldl (λ failures item, record_failure item.1 "node_registry" item.2 failures) failures rebuilt in
      Ok (mkReport (without_names rebuilt manifests) failures)
  end.

Definition load_all_extension_runtimes (specs : list ExtensionRuntimeSpec) (strict : list string) : X ExtensionLoadReport :=
  w ← xget;
  match load_runtimes (w_dirs w) strict specs with
  | Ok report => _ ← xput (set_loaded (lr_loaded report)); xret report
  | Raise message => xraise (ExtRuntimeError message)
  end.

(** ** The gateway *)

(** The applications that are ready to be served, and the failures. *)
(** The stage of an error that was raised here as a [ValueError]: the text of the message decides, and it quotes the name. *)
Definition value_error_stage (name : string) : string :=
  if bool_decide (String.index 0 "route" (py_lower name) = None) then "gateway_import" else "gateway_validation".

Definition prepare_spec (dirs : list (path * Tree)) (st : list string * pydict RegisteredExtension * pydict ExtensionLoadFailure)
    (spec : ExtensionRuntimeSpec) : list string * pydict RegisteredExtension * pydict ExtensionLoadFailure :=
  let '(seen, apps, failures) := st in
  let fail stage message := (filter (λ n, n ≠ es_name spec) seen, filter (λ kv, kv.1 ≠ es_name spec) apps,
                             record_failure (es_name spec) stage message failures) in
  match load_manifest dirs (es_root spec) (Some (es_name spec)) (es_legacy spec) with
  | Raise message => fail "manifest" message
  | Ok None => fail "manifest" "Manifest not found"
  | Ok (Some ext) =>
      if negb (check_dvt_compatibility (rg_manifest ext)) then fail (value_error_stage (es_name spec)) "Extension is incompatible with current DVT"
      else if bool_decide (es_name spec ∈ seen) || dmem failures (es_name spec) then fail (value_error_stage (es_name spec)) "Duplicate extension package"
      else match load_router ext (tree_at dirs (es_root spec)) with
           | Ok true => (seen ++ [es_name spec], dset apps (es_name spec) ext, failures)
           | Ok false => (seen ++ [es_name spec], apps, failures)
           | Raise (stage, message) => fail stage message
           end
  end.

Definition prepare_extension_gateway_runtime (dirs : list (path * Tree)) (specs : list ExtensionRuntimeSpec)
    : pydict RegisteredExtension * pydict ExtensionLoadFailure :=
  let '(_, apps, failures) := foldl (prepare_spec dirs) ([], [], []) (merge_sort casefold_le specs) in
  (apps, failures).

(** [swap] refuses two applications with a common alias. *)
Definition route_aliases (item : string * RegisteredExtension) : list string := item.1 :: mf_legacy_names (rg_manifest item.2).

Definition ambiguous_routes (apps : pydict RegisteredExtension) : bool :=
  existsb (λ a, existsb (λ b, negb (bool_decide (a.1 = b.1))
                              && existsb (λ x, bool_decide (x ∈ route_aliases b)) (route_aliases a)) apps) apps.

Definition swap_apps (apps : pydict RegisteredExtension) : X unit :=
  if ambiguous_routes apps then xraise (ExtValueError "Ambiguous extension route alias")
  else xput (set_apps (dkeys apps)).

Definition remove_app (name : string) : X unit := xput (λ w, set_apps (filter (λ n, n ≠ name) (w_apps w)) w).

End Runtime.
