(* ===== verification/ExtLoad.v ===== *)
(** * Extensions: what a refresh of the runtime loads

    The report of [load_all_extension_runtimes]: every requested extension is either loaded or reported
    as failed, never both; what is loaded was read from its directory and imported; and no two loaded
    extensions share a backend package. *)
From S2P Require Import Prelude PipelineTypes Graph NodeKwargs EditStore EditDirty ExtTypes ExtStore ExtFiles ExtRuntime.
Open Scope Z_scope.

(** ** Recording failures *)

(** A step over an item that records nothing but a failure of the item. *)
Record records_item {B} (step : pydict ExtensionLoadFailure → string * B → pydict ExtensionLoadFailure) : Prop := {
  ri_grows f item k : k ∈ dkeys f → k ∈ dkeys (step f item);
  ri_only f item k : k ∈ dkeys (step f item) → k ∈ dkeys f ∨ k = item.1;
}.

Lemma dkeys_record name stage message f k : k ∈ dkeys (record_failure name stage message f) ↔ k ∈ dkeys f ∨ k = name.
Proof. unfold record_failure. rewrite elem_of_dkeys_dset. tauto. Qed.

Lemma fold_grows {B} (step : _ → string * B → _) l f k : records_item step → k ∈ dkeys f → k ∈ dkeys (foldl step f l).
Proof. intros Hs. revert f; induction l as [|x l IH]; intros f Hk; [done|]. cbn. by apply IH, Hs. Qed.

Lemma fold_only {B} (step : _ → string * B → _) l f k : records_item step → k ∈ dkeys (foldl step f l) → k ∈ dkeys f ∨ k ∈ dkeys l.
Proof.
  intros Hs. revert f; induction l as [|x l IH]; intros f; [by left|]. cbn. intros [H|H]%IH; [|right; by right].
  apply Hs in H as [H| ->]; [by left|right; left].
Qed.

(** An item at which every step records a failure. *)
Lemma fold_records {B} (step : _ → string * B → _) l f x :
  records_item step → x ∈ l → (∀ f, x.1 ∈ dkeys (step f x)) → x.1 ∈ dkeys (foldl step f l).
Proof.
  intros Hs Hin Hx. revert f; induction Hin as [x l|x y l _ IH]; intros f; cbn; [|by apply IH]. by apply fold_grows.
Qed.

Lemma dget_without_names {A B} (gone : pydict A) (d : pydict B) k : dget (without_names gone d) k = if decide (k ∈ dkeys gone) then None else dget d k.
Proof.
  unfold without_names. etrans; [exact (dget_filter_key (λ k, k ∉ dkeys gone) d k)|]. repeat case_decide; done || contradiction.
Qed.

Section Load.
Context `{pk : Packaging} {env : ExtEnv}.

(** The registries report failures of the extensions they were given. *)
Definition rebuild_reports_known : Prop :=
  ∀ extensions strict failures, rebuild_node_registries extensions strict = Ok failures → ∀ k, k ∈ dkeys failures → k ∈ dkeys extensions.

Lemma check_package_records dirs : records_item (check_package dirs).
Proof.
  split; intros f item k; unfold check_package; destruct (nodes_package _ _) as [[p|]|]; try destruct (package_conflict _ _);
    rewrite ?dkeys_record; tauto.
Qed.

Lemma check_owners_records dirs extensions : records_item (check_owners dirs extensions).
Proof.
  split; intros f item k; unfold check_owners; destruct (package_of dirs item.2); try destruct (_ <? _)%nat; rewrite ?dkeys_record; tauto.
Qed.

Lemma import_one_records dirs : records_item (import_one dirs).
Proof. split; intros f item k; unfold import_one; destruct (import_extension_nodes_for _ _); rewrite ?dkeys_record; tauto. Qed.

Lemma registry_records : records_item (λ failures (item : string * string), record_failure item.1 "node_registry" item.2 failures).
Proof. split; intros f item k; rewrite dkeys_record; tauto. Qed.

(** ** Reading the packages *)

Record specs_read (dirs : list (path * Tree)) (specs : list ExtensionRuntimeSpec) (manifests : pydict RegisteredExtension)
    (failures : pydict ExtensionLoadFailure) : Prop := {
  sr_wf : dwf manifests;
  sr_read name ext : dget manifests name = Some ext → ∃ spec, spec ∈ specs ∧ es_name spec = name ∧ read_spec dirs spec = Ok ext;
  sr_all name : name ∈ es_name <$> specs ↔ name ∈ dkeys manifests ∨ name ∈ dkeys failures;
  sr_disjoint name : name ∈ dkeys manifests → name ∈ dkeys failures → False;
}.

Lemma load_specs dirs specs :
  NoDup (es_name <$> specs) → specs_read dirs specs (foldl (load_spec dirs) ([], []) specs).1 (foldl (load_spec dirs) ([], []) specs).2.
Proof.
  induction specs as [|spec specs IH] using rev_ind; intros Hnd.
  { split; [apply dwf_nil|done| |]; cbn; intros name; [tauto|by intros ?%not_elem_of_nil]. }
  rewrite fmap_app in Hnd. apply NoDup_app in Hnd as (Hnd & Hnew & _). specialize (IH Hnd). rewrite foldl_snoc.
  destruct (foldl _ _ specs) as [manifests failures]. cbn [fst snd] in IH. destruct IH as [Hwf Hread Hall Hdis].
  assert (es_name spec ∉ es_name <$> specs) as Hfresh by (intros Hin; apply (Hnew _ Hin); left).
  assert ((es_name spec ∉ dkeys manifests) ∧ es_name spec ∉ dkeys failures) as [Hm Hf] by (split; intros Hin; apply Hfresh, Hall; auto).
  assert (∀ name, name ∈ es_name <$> (specs ++ [spec]) ↔ name ∈ es_name <$> specs ∨ name = es_name spec) as Hnames
    by (intros name; rewrite fmap_app; set_solver).
  unfold load_spec. destruct (read_spec dirs spec) as [ext|message] eqn:Hr.
  - unfold dmem. rewrite bool_decide_eq_false_2 by done. cbn [fst snd]. split.
    + by apply dwf_dset.
    + intros name e. rewrite dget_dset. case_decide as E; [intros [= <-]; exists spec; split_and!; [set_solver|done|done]|].
      intros (s & Hs & ?)%Hread. exists s. split; [set_solver|done].
    + intros name. rewrite Hnames, Hall, elem_of_dkeys_dset. naive_solver.
    + intros name [->|Hk]%elem_of_dkeys_dset Hkf; [done|by eapply Hdis].
  - cbn [fst snd]. split; [done| | |].
    + intros name e (s & Hs & ?)%Hread. exists s. split; [set_solver|done].
    + intros name. rewrite Hnames, Hall, dkeys_record. naive_solver.
    + intros name Hk [Hkf| ->]%dkeys_record; [by eapply Hdis|done].
Qed.

(** ** The report *)

(** Two owners of a package are both refused. *)
Lemma shared_package_fails dirs manifests failures n1 n2 e1 e2 p :
  dget manifests n1 = Some e1 → dget manifests n2 = Some e2 → n1 ≠ n2 → package_of dirs e1 = Some p → package_of dirs e2 = Some p →
  n1 ∈ dkeys (_validate_backend_packages dirs manifests failures).
Proof.
  intros H1%dget_elem_of H2%dget_elem_of Hne P1 P2. unfold _validate_backend_packages.
  apply (fold_records _ _ _ (n1, e1)); [apply check_owners_records|done|]. intros f. unfold check_owners. cbn [fst snd]. rewrite P1.
  assert (1 < length (package_owners dirs manifests p))%nat as Hlen.
  { unfold package_owners. rewrite length_fmap.
    assert ((n1, e1) ∈ filter (λ kv, package_of dirs kv.2 = Some p) manifests ∧ (n2, e2) ∈ filter (λ kv, package_of dirs kv.2 = Some p) manifests) as [F1 F2]
      by (split; by apply list_elem_of_filter).
    destruct (filter _ manifests) as [|a [|b l]]; [by apply not_elem_of_nil in F1| |cbn; lia].
    apply list_elem_of_singleton in F1, F2. congruence. }
  apply Nat.ltb_lt in Hlen. rewrite Hlen. apply dkeys_record. by right.
Qed.

Lemma import_failures dirs manifests failures n ext :
  dget manifests n = Some ext → n ∉ dkeys (foldl (import_one dirs) failures manifests) →
  is_ok (import_extension_nodes_for ext (tree_at dirs (rg_root ext))) = true.
Proof.
  intros Hn%dget_elem_of Hno. destruct (import_extension_nodes_for _ _) as [|message] eqn:E; [done|]. exfalso. apply Hno.
  apply (fold_records _ _ _ (n, ext)); [apply import_one_records|done|]. intros f. unfold import_one. cbn [fst snd]. rewrite E.
  apply dkeys_record. by right.
Qed.

Lemma dkeys_without_names {A B} (gone : pydict A) (d : pydict B) k : k ∈ dkeys (without_names gone d) ↔ (k ∈ dkeys d) ∧ k ∉ dkeys gone.
Proof.
  rewrite <-(dget_is_Some (without_names gone d)), <-(dget_is_Some d), dget_without_names. case_decide; [|tauto]. split; [by intros [? ?]|tauto].
Qed.

(** No strict extension is among the failures that are tested. *)
Lemma strict_failure_None strict failures n : strict_failure strict failures = None → n ∈ strict → n ∉ dkeys failures.
Proof.
  unfold strict_failure. intros H Hn Hf.
  assert (n ∈ merge_sort str_le (filter (λ n, n ∈ dkeys failures) strict)) as Hin by (rewrite merge_sort_Permutation; by apply list_elem_of_filter).
  destruct (merge_sort _ _) as [|m l] eqn:E; [by apply not_elem_of_nil in Hin|]. cbn in H.
  assert (m ∈ filter (λ n, n ∈ dkeys failures) strict) as [[x Hx]%dget_is_Some _]%list_elem_of_filter by (rewrite <-(merge_sort_Permutation str_le), E; left).
  by rewrite Hx in H.
Qed.

Lemma registry_stage (rebuilt : pydict string) f name x :
  dget (foldl (λ failures item, record_failure item.1 "node_registry" item.2 failures) f rebuilt) name = Some x →
  dget f name = Some x ∨ lf_stage x = "node_registry".
Proof.
  revert f; induction rebuilt as [|[n m] rebuilt IH]; intros f; [by left|]. cbn. intros [H|H]%IH; [|by right].
  unfold record_failure in H. rewrite dget_dset in H. case_decide; [|by left]. right. by simplify_eq.
Qed.

(** C35. Every requested extension is loaded or reported as failed, and not both. A loaded extension was
    read from its directory, fits the version and was imported; no backend package has two
    extensions; and a report says that a strict extension failed only where the registries refused it. *)
Theorem runtime_report_is_exact dirs strict specs report :
  rebuild_reports_known → extensions_enabled = true → NoDup (es_name <$> specs) → load_runtimes dirs strict specs = Ok report →
  (∀ name, name ∈ es_name <$> specs ↔ name ∈ dkeys (lr_loaded report) ∨ name ∈ dkeys (lr_failures report)) ∧
  (∀ name, name ∈ dkeys (lr_loaded report) → name ∉ dkeys (lr_failures report)) ∧
  (∀ name ext, dget (lr_loaded report) name = Some ext →
     (∃ spec, spec ∈ specs ∧ es_name spec = name ∧ read_spec dirs spec = Ok ext) ∧
     is_ok (import_extension_nodes_for ext (tree_at dirs (rg_root ext))) = true) ∧
  (∀ n1 n2 e1 e2 p, dget (lr_loaded report) n1 = Some e1 → dget (lr_loaded report) n2 = Some e2 →
     package_of dirs e1 = Some p → package_of dirs e2 = Some p → n1 = n2) ∧
  (∀ name failure, name ∈ strict → dget (lr_failures report) name = Some failure → lf_stage failure = "node_registry").
Proof.
  intros Hknown Hen Hnd. unfold load_runtimes. rewrite Hen. set (sorted := merge_sort casefold_le specs).
  assert (sorted ≡ₚ specs) as Hperm by apply merge_sort_Permutation.
  pose proof (load_specs dirs sorted) as Hread. rewrite Hperm in Hread at 1. specialize (Hread Hnd).
  destruct (foldl (load_spec dirs) ([], []) sorted) as [m0 f0]. cbn [fst snd] in Hread. destruct Hread as [Hwf Hread Hall Hdis].
  set (f1 := _validate_backend_packages dirs m0 f0). set (m1 := without_names f1 m0).
  set (f2 := foldl (import_one dirs) f1 m1). set (m2 := without_names f2 m1).
  destruct (strict_failure strict f2) as [|] eqn:Hstrict; [done|].
  destruct (rebuild_node_registries m2 strict) as [rebuilt|] eqn:Hreb; [|done]. cbn [mbind outcome_bind]. intros [= <-]. cbn [lr_loaded lr_failures].
  set (f3 := foldl _ f2 rebuilt). specialize (Hknown _ _ _ Hreb).
  assert (∀ k, k ∈ dkeys f1 → k ∈ dkeys f2) as G2 by (intros k; apply fold_grows, import_one_records).
  assert (∀ k, k ∈ dkeys f3 ↔ k ∈ dkeys f2 ∨ k ∈ dkeys rebuilt) as G3.
  { intros k. split; [apply (fold_only _ _ _ _ registry_records)|]. intros [Hk|Hk]; [by apply fold_grows, Hk; apply registry_records|].
    apply list_elem_of_fmap in Hk as ([k' v] & -> & Hk). apply (fold_records _ _ _ (k', v) registry_records Hk). intros f. apply dkeys_record. by right. }
  assert (∀ k, k ∈ dkeys f1 → k ∈ dkeys f0 ∨ k ∈ dkeys m0) as B1.
  { intros k [Hk|Hk]%(fold_only _ _ _ _ (check_owners_records dirs m0)); [|by right]. by apply (fold_only _ _ _ _ (check_package_records dirs)) in Hk. }
  assert (∀ k, k ∈ dkeys f0 → k ∈ dkeys f1) as G1.
  { intros k Hk. apply fold_grows; [apply check_owners_records|]. apply fold_grows; [apply check_package_records|done]. }
  assert (∀ k, k ∈ dkeys f2 → k ∈ dkeys f1 ∨ k ∈ dkeys m1) as B2 by (intros k; apply fold_only, import_one_records).
  assert (∀ name ext, dget (without_names rebuilt m2) name = Some ext →
    dget m0 name = Some ext ∧ dget m1 name = Some ext ∧ (name ∉ dkeys f1) ∧ (name ∉ dkeys f2) ∧ name ∉ dkeys rebuilt) as Hdget.
  { intros name ext. unfold m2, m1. rewrite !dget_without_names. repeat case_decide; try done. }
  split_and!.
  - intros name. rewrite <-Hperm, Hall, G3. unfold m2, m1. rewrite !dkeys_without_names. split.
    + destruct (decide (name ∈ dkeys f2)), (decide (name ∈ dkeys rebuilt)); [tauto..|]. intros [H|H]; [|right; left; by apply G2, G1]. left. split; [|done].
      split; [split; [done|]|done]. intros ?%G2. done.
    + intros [H|[[[H|H]%B1|H]%B2|H]]; [left; tauto|by right|by left|left; by apply dkeys_without_names in H as [? _]|].
      apply Hknown in H. unfold m2, m1 in H. rewrite !dkeys_without_names in H. left. tauto.
  - intros name H. rewrite G3. unfold m2 in H. rewrite !dkeys_without_names in H. tauto.
  - intros name ext (H0 & H1 & _ & H2 & _)%Hdget. split.
    + destruct (Hread name ext H0) as (spec & Hs & ?). exists spec. split; [by rewrite <-Hperm|done].
    + by apply (import_failures dirs m1 f1 name).
  - intros n1 n2 e1 e2 p (H1 & _ & F1 & _)%Hdget (H2 & _)%Hdget P1 P2. destruct (decide (n1 = n2)) as [|Hne]; [done|].
    destruct F1. by apply (shared_package_fails dirs m0 f0 n1 n2 e1 e2 p).
  - intros name x Hs [Hx|Hx]%registry_stage; [|done]. destruct (strict_failure_None _ _ _ Hstrict Hs). by apply dget_is_Some; exists x.
Qed.

End Load.
