(* ===== verification/ExtManager.v ===== *)
(** * Extensions: the manager

    Models [infra/management_service.py], the coordinator of the table of extensions, the files and the
    runtime. A row is addressed by its id: the object the code passes around is the row of its session,
    which is refreshed at every commit. Answers of the distributor, downloaded and uploaded packages
    and unique suffixes are arguments. *)
From S2P Require Import Prelude PipelineTypes Graph NodeKwargs ExtTypes ExtStore ExtFiles ExtRuntime.
Open Scope Z_scope.

(** ** Messages *)

Definition starts_with_any (prefixes : list string) (message : option string) : bool :=
  match message with
  | Some m => str_truthy m && existsb (λ p, String.prefix p m) prefixes
  | None => false
  end.

Definition node_runtime_errors : list string :=
  ["Extension node backend validation failed:"; "Extension node import failed:"; "Extension node registry failed:";
   "Extension runtime failed:"].

Definition _has_retryable_node_runtime_error : option string → bool := starts_with_any node_runtime_errors.

Definition _has_retryable_runtime_error : option string → bool :=
  starts_with_any
    (["Manifest validation failed:"; "Extension migration failed:"; "Gateway entrypoint import failed:";
      "Extension router validation failed:"] ++ node_runtime_errors).

Definition failure_title (stage : string) : string :=
  if bool_decide (stage = "manifest") then "Manifest validation failed"
  else if bool_decide (stage = "backend_package") then "Extension node backend validation failed"
  else if bool_decide (stage = "import") then "Extension node import failed"
  else if bool_decide (stage ∈ ["node_registry"; "registry"]) then "Extension node registry failed"
  else if bool_decide (stage = "gateway_import") then "Gateway entrypoint import failed"
  else if bool_decide (stage = "gateway_validation") then "Extension router validation failed"
  else "Extension runtime failed".

Section Manager.
Context `{pk : Packaging} {dg : Digest} {env : ExtEnv} (gateway_runtime_enabled : bool).

Definition _format_runtime_failure (f : ExtensionLoadFailure) : string :=
  stage_error (failure_title (lf_stage f)) (lf_message f).

(** ** Rows *)

Definition table : X (list ExtensionRecord) := λ w, (Ok (w_table w), w).

Definition the_row (id : string) : X ExtensionRecord := λ w,
  match record_by_id id (w_table w) with Some r => (Ok r, w) | None => (Raise (ExtensionNotFound id), w) end.

(** An update of the row with this id, committed. *)
Definition update_row (id : string) (f : ExtensionRecord → ExtensionRecord) : X unit :=
  xput (λ w, set_table ((λ r, if bool_decide (ex_id r = id) then f r else r) <$> w_table w) w).

Definition set_row_error (id : string) (message : option string) : X unit :=
  update_row id (λ r, set_runtime_error r message).

Definition list_rows : X (list ExtensionRecord) := t ← table; xret (list_extensions t).

Definition find_row (name : string) : X ExtensionRecord := t ← table; xlift (get_extension_or_raise name t).

(** ** [_refresh_runtime] *)

Definition runnable (strict_names : list string) (r : ExtensionRecord) : bool :=
  ex_is_installed r && ex_is_enabled r && opt_truthy (ex_install_path r)
  && (negb (str_opt_truthy (ex_error_message r)) || _has_retryable_node_runtime_error (ex_error_message r)
      || (bool_decide (ex_name r ∈ strict_names) && _has_retryable_runtime_error (ex_error_message r))).

Definition spec_of (r : ExtensionRecord) : option ExtensionRuntimeSpec :=
  match ex_install_path r with
  | Some p => Some (mkSpec (ex_name r) p (manifest_aliases (ex_manifest_json r)))
  | None => None
  end.

Definition record_named (name : string) (records : list ExtensionRecord) : option ExtensionRecord :=
  snd <$> list_find (λ r, ex_name r = name) records.

Definition _refresh_runtime (given : option (list ExtensionRecord)) (strict_names : list string) : X ExtensionLoadReport :=
  records ← (match given with Some l => xret l | None => list_rows end);
  let specs := omap spec_of (filter (λ r, runnable strict_names r = true) records) in
  w ← xget;
  let '(apps, gateway_failures) :=
    if gateway_runtime_enabled then prepare_extension_gateway_runtime (w_dirs w) specs else ([], []) in
  let node_specs := filter (λ s, es_name s ∉ dkeys gateway_failures) specs in
  loaded ← load_all_extension_runtimes node_specs [];
  let report := mkReport (lr_loaded loaded) (dupdate (lr_failures loaded) gateway_failures) in
  _ ← (if gateway_runtime_enabled then swap_apps (filter (λ kv, kv.1 ∈ dkeys (lr_loaded report)) apps) else xret ());
  _ ← xfor (λ f, match record_named (lf_name f) records with
                 | Some r => set_row_error (ex_id r) (Some (_format_runtime_failure f))
                 | None => xret ()
                 end) (dvals (lr_failures report));
  _ ← xfor (λ name, match record_named name records with
                    | Some r =>
                        t ← table;
                        match record_by_id (ex_id r) t with
                        | Some r => if _has_retryable_runtime_error (ex_error_message r) then set_row_error (ex_id r) None else xret ()
                        | None => xret ()
                        end
                    | None => xret ()
                    end) (dkeys (lr_loaded report));
  match merge_sort str_le (filter (λ n, n ∈ dkeys (lr_failures report)) strict_names) with
  | [] => xret report
  | name :: _ => xraise (ExtRuntimeError (default "" (lf_message <$> dget (lr_failures report) name)))
  end.

(** [_deactivate_extension_runtime] *)
Definition _deactivate_extension_runtime (name : string) : X unit :=
  _ ← (if gateway_runtime_enabled then remove_app name else xret ());
  xcatch (records ← list_rows; _ ← _refresh_runtime (Some (filter (λ r, ex_name r ≠ name) records)) []; xret ())
         (λ _, xret ()).

(** ** [_install_staged_package] *)

(** The fields [_snapshot_install_record] keeps, put back into a row. *)
Definition _restore_install_record (previous r : ExtensionRecord) : ExtensionRecord :=
  set_ex_display_name (ex_display_name previous) (set_ex_description (ex_description previous)
    (set_ex_is_enabled (ex_is_enabled previous) (set_ex_is_installed (ex_is_installed previous)
       (set_ex_deps_status (ex_deps_status previous) (set_ex_current_version (ex_current_version previous)
          (set_ex_last_version (ex_last_version previous) (set_ex_install_path (ex_install_path previous)
             (set_ex_manifest_json (ex_manifest_json previous) (set_ex_error_message (ex_error_message previous)
                (set_ex_installed_at (ex_installed_at previous) r)))))))))).

Definition install_root_of (extension : ExtensionRecord) (staged : StagedExtensionPackage) : path :=
  match ex_install_path extension with
  | Some p => if ex_is_installed extension then p else mkPath extensions_root (mf_name (st_manifest staged))
  | None => mkPath extensions_root (mf_name (st_manifest staged))
  end.

(** [load_manifest] of a directory; an error of the package is an exception here. *)
Definition load_installed (root : path) (name : string) : X RegisteredExtension :=
  w ← xget;
  match load_manifest (w_dirs w) root (Some name) [] with
  | Ok (Some ext) => xret ext
  | Ok None => xraise (ExtValueError "Manifest not found")
  | Raise message => xraise (ExtValueError message)
  end.

(** What follows the activation of the files, up to the removal of the old ones. *)
Definition finish_install (id : string) (staged : StagedExtensionPackage) (latest_version : option string) (now : Z)
    (swap : ExtensionInstallSwap) : X ExtensionRecord :=
  extension ← the_row id;
  ext ← load_installed (sw_install_root swap) (ex_name extension);
  let manifest := rg_manifest ext in
  _ ← (if check_dvt_compatibility manifest then xret () else xraise (ExtValueError "requires DVT"));
  _ ← update_row id (λ r, mark_installed r (mf_version manifest) (sw_install_root swap) manifest (mf_display_name manifest)
                            (Some (mf_description manifest)) latest_version now);
  _ ← attempt "install_requirements";
  _ ← attempt "migration";
  _ ← _refresh_runtime None [ex_name extension];
  _ ← attempt "broadcast";
  _ ← commit_install_swap swap;
  the_row id.

(** The [except] branch: files first, then the row, then the runtime. *)
Definition undo_install (id : string) (previous : ExtensionRecord) (staged : StagedExtensionPackage)
    (swap : option ExtensionInstallSwap) : X unit :=
  _ ← (match swap with
       | Some swap => xcatch (rollback_install_swap swap) (λ _, xret ())
       | None => xcatch (discard_staged_extension_package staged) (λ _, xret ())
       end);
  xcatch
    (_ ← update_row id (_restore_install_record previous);
     if ex_is_installed previous && opt_truthy (ex_install_path previous)
     then _ ← _refresh_runtime None [ex_name previous]; xret ()
     else _deactivate_extension_runtime (ex_name previous))
    (λ _, _deactivate_extension_runtime (ex_name previous)).

Definition install_failed {A} (e : ext_exn) : X A := xraise (ExtRuntimeError "Extension install failed").

Definition _install_staged_package (token : string) (now : Z) (id : string) (staged : StagedExtensionPackage)
    (latest_version : option string) : X ExtensionRecord :=
  previous ← the_row id;
  activated ← xcatch (s ← activate_staged_package token staged (install_root_of previous staged); xret (inl s))
                     (λ e, xret (inr e));
  match activated with
  | inr e => _ ← undo_install id previous staged None; install_failed e
  | inl swap =>
      xcatch (finish_install id staged latest_version now swap)
             (λ e, _ ← undo_install id previous staged (Some swap); install_failed e)
  end.

(** ** Choosing a package *)

(** A version the distributor offers. *)
Definition pick_version (versions : list VersionInfo) (version : option string) : outcome ext_exn VersionInfo :=
  match versions with
  | [] => Raise (ExtValueError "No compatible version")
  | first :: _ =>
      match version with
      | Some v =>
          if str_truthy v then
            match list_find (λ item, vi_version item = Some v) versions with
            | Some (_, item) => Ok item
            | None => Raise (ExtValueError "Version is not compatible")
            end
          else Ok first
      | None => Ok first
      end
  end.

(** [manifest.package_name or manifest.name or extension.name] *)
Definition _canonical_extension_identity (r : ExtensionRecord) : string :=
  normalize_extension_identity
    (or_option (manifest_package_name (ex_manifest_json r)) (or_option (mf_name <$> ex_manifest_json r) (Some (ex_name r)))).

(** [install_extension]; [offered] is the list of the distributor, and [stage_from_url] downloads a
    package into the staging directory. *)
Definition install_extension (token : string) (now : Z) (channel : string) (offered : list VersionInfo)
    (stage_from_url : string → X StagedExtensionPackage) (name : string) (version : option string) : X ExtensionRecord :=
  extension ← find_row name;
  _ ← (if list_truthy offered then xret () else xraise (ExtValueError "No versions found"));
  let compatible := filter_compatible_versions offered current_dvt_version channel in
  target ← xlift (pick_version compatible version);
  match vi_download_url target with
  | Some url =>
      if str_truthy url then
        staged ← stage_from_url url;
        if bool_decide (normalize_extension_identity (Some (mf_name (st_manifest staged))) = _canonical_extension_identity extension)
        then _install_staged_package token now (ex_id extension) staged
               (match compatible with v :: _ => vi_version v | [] => None end)
        else _ ← discard_staged_extension_package staged;
             xraise (ExtValueError "Downloaded package declares another extension")
      else xraise (ExtValueError "No download_url")
  | None => xraise (ExtValueError "No download_url")
  end.

(** [_find_extension_for_manifest]: the first row that shares a name. *)
Definition _find_extension_for_manifest (m : ExtensionManifest) (records : list ExtensionRecord) : option ExtensionRecord :=
  let identities := extension_identity_set [Some (mf_name m); mf_package_name m] (mf_legacy_names m) in
  snd <$> list_find (λ r, shares_identity identities r = true) (list_extensions records).

Definition create_of (m : ExtensionManifest) : ExtensionCreate :=
  mkCreate (mf_name m) (mf_display_name m) (Some (mf_description m)) (mf_repository_url m).

(** [reconcile_extension_identity] on the table of the world. *)
Definition reconcile (uuid : string) (m : ExtensionManifest) (versions : option (list string)) : X ExtensionRecord :=
  t ← table;
  res ← xlift (reconcile_extension_identity uuid (create_of m) (Some m) (mf_legacy_names m) versions t);
  _ ← xput (set_table res.2);
  xret res.1.

Definition install_uploaded_package (uuid token : string) (now : Z) (staged : StagedExtensionPackage)
    (allow_downgrade allow_reinstall : bool) : X ExtensionRecord :=
  let m := st_manifest staged in
  if negb (check_dvt_compatibility m) then xraise (ExtValueError "requires DVT")
  else if list_truthy (mf_requirements m) && negb (st_has_wheelhouse staged)
  then xraise (ExtValueError "Offline extension package has Python dependencies but no wheelhouse")
  else
    t ← table;
    let extension := _find_extension_for_manifest m t in
    let current := match extension with
                   | Some r => if ex_is_installed r then ex_current_version r else None
                   | None => None
                   end in
    operation ← xlift (resolve_package_operation current (mf_version m));
    if bool_decide (operation = OP_DOWNGRADE) && negb allow_downgrade then xraise (ExtValueError "Downgrade requires explicit confirmation")
    else if bool_decide (operation = OP_REINSTALL) && negb allow_reinstall then xraise (ExtValueError "Reinstall requires explicit confirmation")
    else
      extension ← (match extension with Some r => xret r | None => reconcile uuid m None end);
      _install_staged_package token now (ex_id extension) staged (Some (mf_version m)).

(** ** Enabling, reloading and removing *)

(** Before an extension is enabled its migrations run; the errors of an earlier attempt are cleared. *)
Definition prepare_enabling (previous : ExtensionRecord) : X unit :=
  match ex_install_path previous with
  | Some root =>
      if negb (ex_is_installed previous) then xraise (ExtValueError "Extension is not installed")
      else if str_opt_truthy (ex_error_message previous) && negb (_has_retryable_runtime_error (ex_error_message previous))
      then xraise (ExtRuntimeError "Extension cannot be enabled while it has an unresolved error")
      else
        xcatch
          (_ ← load_installed root (ex_name previous);
           _ ← attempt "migration";
           if _has_retryable_runtime_error (ex_error_message previous) then set_row_error (ex_id previous) None else xret ())
          (λ e, let message := stage_error "Extension migration failed" "" in
                _ ← set_row_error (ex_id previous) (Some message);
                _ ← _deactivate_extension_runtime (ex_name previous);
                xraise (ExtRuntimeError message))
  | None => xraise (ExtValueError "Extension is not installed")
  end.

Definition enable_row (name : string) (enabled : bool) : X ExtensionRecord :=
  t ← table;
  res ← xlift (set_enabled name enabled t);
  _ ← xput (set_table res.2);
  xret res.1.

(** [ExtensionManager.set_enabled] *)
Definition set_extension_enabled (name : string) (enabled : bool) : X ExtensionRecord :=
  previous ← find_row name;
  _ ← (if enabled && gateway_runtime_enabled then prepare_enabling previous else xret ());
  extension ← enable_row (ex_name previous) enabled;
  _ ← xcatch (_ ← _refresh_runtime None (if enabled then [ex_name previous] else []); xret ())
        (λ e, _ ← (if bool_decide (ex_is_enabled previous = enabled) then xret ()
                   else _ ← enable_row (ex_name previous) (ex_is_enabled previous); xret ());
              xraise e);
  the_row (ex_id extension).

Definition delete_extension (name : string) : X unit :=
  extension ← find_row name;
  _ ← (match ex_install_path extension with Some p => uninstall extensions_root p | None => xret () end);
  _ ← xput (λ w, set_table (delete_extension_record extension (w_table w)) w);
  _ ← _refresh_runtime None [];
  xret ().

Definition uninstall_extension (name : string) (drop_extension_data : bool) : X ExtensionRecord :=
  extension ← find_row name;
  _ ← (if drop_extension_data then
         xcatch (attempt "drop_schema")
           (λ e, let message := stage_error "Extension data removal failed" "" in
                 _ ← set_row_error (ex_id extension) (Some message);
                 xraise (ExtRuntimeError message))
       else xret ());
  records ← list_rows;
  _ ← _refresh_runtime (Some (filter (λ r, ex_id r ≠ ex_id extension) records)) [];
  _ ← (match ex_install_path extension with Some p => uninstall extensions_root p | None => xret () end);
  _ ← update_row (ex_id extension) (λ r, mark_uninstalled (if drop_extension_data then set_ex_state_json [] r else r));
  _ ← _refresh_runtime None [];
  the_row (ex_id extension).

Definition reload_extension (token : string) (now : Z) (channel : string) (offered : list VersionInfo)
    (stage_from_url : string → X StagedExtensionPackage) (name : string) : X ExtensionRecord :=
  extension ← find_row name;
  match filter_compatible_versions offered current_dvt_version channel with
  | [] => xraise (ExtValueError "No compatible version")
  | latest :: _ =>
      if negb (str_opt_truthy (vi_version latest)) then xraise (ExtRuntimeError "Failed to determine latest version")
      else if bool_decide (ex_current_version extension = vi_version latest) then
        match ex_install_path extension with
        | None => xraise (ExtValueError "Extension has no install path")
        | Some root =>
            ext ← load_installed root (ex_name extension);
            _ ← xcatch (attempt "migration")
                  (λ e, let message := stage_error "Extension migration failed" "" in
                        _ ← set_row_error (ex_id extension) (Some message);
                        _ ← _deactivate_extension_runtime (ex_name extension);
                        xraise (ExtRuntimeError message));
            _ ← _refresh_runtime None [ex_name extension];
            _ ← update_row (ex_id extension) (set_ex_manifest_json (Some (rg_manifest ext)));
            the_row (ex_id extension)
        end
      else install_extension token now channel offered stage_from_url name None
  end.

(** ** [sync_installed_extensions] *)

Definition path_le (a b : path * Tree) : Prop := str_le (py_lower (p_name a.1)) (py_lower (p_name b.1)).

#[local] Instance path_le_dec : RelDecision path_le.
Proof. intros a b. unfold path_le. apply _. Defined.

(** [iter_extension_roots]: hidden directories and those to be deleted are left out. *)
Definition iter_extension_roots (w : ExtWorld) : list (path * Tree) :=
  merge_sort path_le
    (filter (λ kv, p_parent kv.1 = extensions_root ∧ String.prefix "." (p_name kv.1) = false
                   ∧ kv.1 ∉ get_pending_deletion_paths extensions_root w) (w_dirs w)).

(** The packages that were found, and the failures by name. *)
Definition discover (st : pydict (path * ExtensionManifest) * pydict string) (item : path * Tree)
    : pydict (path * ExtensionManifest) * pydict string :=
  let '(discovered, failures) := st in
  match load_manifest_payload item.2 with
  | Ok (Some m) =>
      if dmem discovered (mf_name m) || dmem failures (mf_name m) then
        (filter (λ kv, kv.1 ≠ mf_name m) discovered,
         dset (dset failures (mf_name m) "Duplicate installed package") (p_name item.1) "Duplicate installed package")
      else (dset discovered (mf_name m) (item.1, m), failures)
  | Ok None => (discovered, dset failures (p_name item.1) "Manifest not found")
  | Raise message => (discovered, dset failures (p_name item.1) message)
  end.

(** The migrations of an installed extension at the start of the gateway. *)
Definition migrate_installed (failures : pydict string) (r : ExtensionRecord) : X unit :=
  match ex_install_path r with
  | Some root =>
      if negb (ex_is_installed r) || dmem failures (ex_name r) then xret ()
      else xcatch
             (_ ← load_installed root (ex_name r);
              _ ← attempt "migration";
              current ← the_row (ex_id r);
              if _has_retryable_runtime_error (ex_error_message current) then set_row_error (ex_id r) None else xret ())
             (λ e, set_row_error (ex_id r) (Some (stage_error "Extension migration failed" "")))
  | None => xret ()
  end.

Definition sync_installed_extensions (uuid : string → string) (now : Z) : X (list ExtensionRecord) :=
  _ ← process_pending_deletions extensions_root;
  w ← xget;
  let '(discovered, failures) := foldl discover ([], []) (iter_extension_roots w) in
  t ← table;
  t ← xlift (sync_installed_records uuid (λ p, opt_truthy (dir_of w p)) discovered now t);
  _ ← xput (set_table t);
  _ ← xfor (λ item : string * (path * ExtensionManifest), _ ← reconcile (uuid item.1) item.2.2 None; xret ()) discovered;
  result ← list_rows;
  _ ← xfor (λ item : string * string, match record_named item.1 result with
                    | Some r => set_row_error (ex_id r) (Some (stage_error "Manifest validation failed" item.2))
                    | None => xret ()
                    end) failures;
  _ ← (if gateway_runtime_enabled then xfor (migrate_installed failures) result else xret ());
  result ← list_rows;
  _ ← _refresh_runtime (Some result) [];
  list_rows.

End Manager.
