(* ===== verification/ExtInstall.v ===== *)
(** * Extensions: installations are atomic

    [_install_staged_package] replaces the files of an extension, its row and its runtime, and undoes
    what it did when a step fails. The theorem of this file: where at most one call fails, before it changed
    anything, and none while the installation is undone, an installation that succeeds leaves the new files
    and an installed row, and one that fails leaves the files and the rows as they were. Without these
    conditions it does not hold: [interrupted_commit_loses_the_extension] (in ExtRun) is an upgrade whose
    removal of the old files stops half way. *)
From S2P Require Import Prelude PipelineTypes Graph NodeKwargs ExtTypes ExtStore ExtSpec ExtFiles ExtRuntime ExtManager.
Open Scope Z_scope.

(** ** Directories *)

Lemma dir_in_del p dirs q : dir_in (del_dir p dirs) q = if decide (q = p) then None else dir_in dirs q.
Proof.
  unfold del_dir. induction dirs as [|[r t] dirs IH]; [by case_decide|]. rewrite filter_cons. cbn [fst dir_in].
  destruct (decide (r ≠ p)) as [Hr|Hr]; cbn [dir_in].
  - rewrite IH. repeat case_decide; congruence.
  - rewrite IH. assert (r = p) by (destruct (decide (r = p)); [done|by destruct Hr]). repeat case_decide; congruence.
Qed.

Lemma dir_in_app d1 d2 q : dir_in (d1 ++ d2) q = match dir_in d1 q with Some t => Some t | None => dir_in d2 q end.
Proof. induction d1 as [|[r t] d1 IH]; [done|]. cbn. by case_decide. Qed.

Lemma dir_in_put p t dirs q : dir_in (put_dir p t dirs) q = if decide (q = p) then Some t else dir_in dirs q.
Proof.
  unfold put_dir. rewrite dir_in_app, dir_in_del. cbn. case_decide; [done|]. by destruct (dir_in dirs q).
Qed.

(** Directories after a change. *)
Definition without (p : path) (d : path → option Tree) (q : path) : option Tree := if decide (q = p) then None else d q.
Definition with_dir (p : path) (t : option Tree) (d : path → option Tree) (q : path) : option Tree := if decide (q = p) then t else d q.

(** ** Scripts of faults *)

(** No call fails; at most one call fails, and it has no effect then. *)
Definition calm (w : ExtWorld) : Prop := Forall (λ f, f = Works) (w_faults w).

Inductive one_fault : list file_fault → Prop :=
  | no_fault : one_fault []
  | last_fault fs : Forall (λ f, f = Works) fs → one_fault (FailsAfter 0 :: fs)
  | later_fault fs : one_fault fs → one_fault (Works :: fs).

Lemma calm_one_fault w : calm w → one_fault (w_faults w).
Proof. unfold calm. induction 1 as [|f fs -> _ IH]; by constructor. Qed.

Lemma next_fault_spec w :
  one_fault (w_faults w) →
  ∃ f w', next_fault w = (Ok f, w') ∧ w_dirs w' = w_dirs w ∧ w_table w' = w_table w ∧
    ((f = Works ∧ one_fault (w_faults w') ∧ (calm w → calm w')) ∨ (f = FailsAfter 0 ∧ calm w' ∧ ¬ calm w)).
Proof.
  intros H. unfold next_fault, calm. destruct (w_faults w) as [|f fs] eqn:E.
  - exists Works, w. rewrite E. split_and!; [done..|]. left. by split_and!.
  - exists f, (set_faults fs w). split_and!; [done..|]. inversion H as [|? Hf|? Hf]; subst; cbn.
    + right. split_and!; [done..|]. intros Hc. by inversion Hc.
    + left. split_and!; [done..|]. intros Hc. by inversion Hc.
Qed.

(** ** What a computation does *)

(** [m] returns into [Q] or raises into [R]. *)
Definition wp {A} (m : X A) (Q : A → ExtWorld → Prop) (R : ExtWorld → Prop) (w : ExtWorld) : Prop :=
  match m w with (Ok a, w') => Q a w' | (Raise _, w') => R w' end.

Lemma wp_ret {A} (a : A) Q R w : Q a w → wp (xret a) Q R w.
Proof. done. Qed.

Lemma wp_raise {A} e Q R w : R w → wp (A := A) (xraise e) Q R w.
Proof. done. Qed.

Lemma wp_bind {A B} (m : X A) (k : A → X B) Q R w : wp m (λ a, wp (k a) Q R) R w → wp (m ≫= k) Q R w.
Proof. unfold wp, mbind, X_bind, xbind. destruct (m w) as [[a|e] w']; done. Qed.

Lemma wp_catch {A} (m : X A) h Q R w : wp m Q (λ w', ∀ e, wp (h e) Q R w') w → wp (xcatch m h) Q R w.
Proof. unfold wp, xcatch. destruct (m w) as [[a|e] w']; [done|]. intros H. apply H. Qed.

Lemma wp_mono {A} (m : X A) (Q Q' : A → ExtWorld → Prop) (R R' : ExtWorld → Prop) w :
  wp m Q R w → (∀ a w', Q a w' → Q' a w') → (∀ w', R w' → R' w') → wp m Q' R' w.
Proof. unfold wp. destruct (m w) as [[a|e] w']; auto. Qed.

(** The computation itself, beside what is known of it. *)
Lemma wp_both {A} (m : X A) Q R w :
  wp m Q R w → wp m (λ a w', m w = (Ok a, w') ∧ Q a w') (λ w', (∃ e, m w = (Raise e, w')) ∧ R w') w.
Proof. unfold wp. destruct (m w) as [[a|e] w']; eauto. Qed.

(** A row without its error message, which a refresh of the runtime may change. *)
Definition clean (r : ExtensionRecord) : ExtensionRecord := set_ex_error_message None r.

(** The files, the rows up to their messages, and whether the fault is over. *)
Record St (over : bool) (d : path → option Tree) (t : list ExtensionRecord) (w : ExtWorld) : Prop := {
  st_dirs q : dir_of w q = d q;
  st_table : clean <$> w_table w = t;
  st_faults : if over then calm w else one_fault (w_faults w);
}.

Lemma St_ext over d d' t w : St over d t w → (∀ q, d q = d' q) → St over d' t w.
Proof. intros [H1 H2 H3] E. split; [intros q; by rewrite H1|done|done]. Qed.

Lemma St_weaken over d t w : St over d t w → St false d t w.
Proof. intros [H1 H2 H3]. split; [done|done|]. destruct over; [by apply calm_one_fault|done]. Qed.

Lemma wp_exists over d t p Q R w : St over d t w → Q (opt_truthy (d p)) w → wp (path_exists p) Q R w.
Proof. intros [H _ _] HQ. unfold wp, path_exists. by rewrite H. Qed.

(** A call that may fail: when it does, the fault is over. *)
Lemma wp_next over d t Q R w :
  St over d t w → (∀ w', St over d t w' → Q Works w') → (∀ w', over = false → St true d t w' → Q (FailsAfter 0) w') →
  wp next_fault Q R w.
Proof.
  intros [H1 H2 H3] HW HF. destruct (next_fault_spec w) as (f & w' & E & Ed & Et & Hf).
  { destruct over; [by apply calm_one_fault|done]. }
  assert (∀ q, dir_of w' q = d q) as Hd by (intros q; unfold dir_of; rewrite Ed; apply H1).
  unfold wp. rewrite E. destruct Hf as [(-> & Hone & Hcalm)|(-> & Hcalm & Hnot)].
  - apply HW. split; [done|congruence|]. destruct over; auto.
  - apply HF; [by destruct over|]. split; [done|congruence|done].
Qed.

Lemma wp_attempt message over d t Q R w :
  St over d t w → (∀ w', St over d t w' → Q () w') → (∀ w', over = false → St true d t w' → R w') → wp (attempt message) Q R w.
Proof. intros H HQ HR. apply wp_bind, (wp_next over d t); [done|auto|auto]. Qed.

Lemma wp_remove over d t p T Q R w :
  St over d t w → d p = Some T → (∀ w', St over (without p d) t w' → Q () w') → (∀ w', over = false → St true d t w' → R w') →
  wp (_remove_install_root p) Q R w.
Proof.
  intros H Hp HQ HR. apply wp_bind. unfold wp at 1, xget. rewrite (st_dirs _ _ _ _ H), Hp.
  apply wp_bind, (wp_next over d t); [done| |].
  - intros w' [H1 H2 H3]. apply HQ. split; [|done|done]. intros q. unfold dir_of, without. cbn. rewrite dir_in_del. case_decide; [done|apply H1].
  - intros w' Ho [H1 H2 H3]. apply HR; [done|]. split; [|done|done]. intros q. unfold dir_of. cbn. rewrite dir_in_put.
    case_decide as E; [by rewrite E, Hp, drop_0|apply H1].
Qed.

(** Renaming and moving onto a free path. *)
Lemma moved_dirs p q T d w : (∀ x, dir_of w x = d x) → d p = Some T →
  ∀ x, dir_of (set_dirs (put_dir q T (del_dir p (w_dirs w))) w) x = with_dir q (Some T) (without p d) x.
Proof.
  intros H Hp x. unfold dir_of, with_dir, without. cbn. rewrite dir_in_put, dir_in_del. repeat case_decide; try done. apply H.
Qed.

Lemma wp_rename over d t p q T Q R w :
  St over d t w → d p = Some T → d q = None → (∀ w', St over (with_dir q (Some T) (without p d)) t w' → Q () w') →
  (∀ w', over = false → St true d t w' → R w') → wp (rename p q) Q R w.
Proof.
  intros H Hp Hq HQ HR. apply wp_bind. unfold wp at 1, xget. rewrite !(st_dirs _ _ _ _ H), Hp, Hq.
  apply wp_bind, (wp_next over d t); [done| |auto]. intros w' [H1 H2 H3]. apply HQ. split; [by apply moved_dirs|done|done].
Qed.

Lemma wp_move over d t p q T Q R w :
  St over d t w → d p = Some T → d q = None → (∀ w', St over (with_dir q (Some T) (without p d)) t w' → Q () w') →
  (∀ w', over = false → St true d t w' → R w') → wp (move p q) Q R w.
Proof.
  intros H Hp Hq HQ HR. apply wp_bind. unfold wp at 1, xget. rewrite !(st_dirs _ _ _ _ H), Hp, Hq.
  apply wp_bind, (wp_next over d t); [done| |auto]. intros w' [H1 H2 H3]. apply HQ. split; [by apply moved_dirs|done|done].
Qed.

Lemma wp_when_exists_none over d t p m Q R w :
  St over d t w → match p with Some p => d p = None | None => True end → Q () w → wp (when_exists p m) Q R w.
Proof. intros H Hp HQ. destruct p as [p|]; [|done]. apply wp_bind, (wp_exists over d t); [done|]. by rewrite Hp. Qed.

Lemma wp_when_exists over d t p T m Q R w :
  St over d t w → d p = Some T → wp (m p) Q R w → wp (when_exists (Some p) m) Q R w.
Proof. intros H Hp HQ. apply wp_bind, (wp_exists over d t); [done|]. by rewrite Hp. Qed.

(** What changes neither files nor faults, and of the rows only the messages. *)
Record quiet (w w' : ExtWorld) : Prop := {
  qt_dirs : w_dirs w' = w_dirs w;
  qt_faults : w_faults w' = w_faults w;
  qt_table : clean <$> w_table w' = clean <$> w_table w;
}.

#[global] Instance quiet_preorder : PreOrder quiet.
Proof. split; [by intros w|]. intros w1 w2 w3 [A1 A2 A3] [B1 B2 B3]. split; congruence. Qed.

Lemma St_quiet over d t w w' : St over d t w → quiet w w' → St over d t w'.
Proof.
  intros [H1 H2 H3] [Q1 Q2 Q3]. split; [intros q; unfold dir_of; rewrite Q1; apply H1|congruence|].
  unfold calm in *. destruct over; by rewrite Q2.
Qed.

(** Discarding never raises, and removes the directory when nothing fails. *)
Lemma wp_discard_none over d t staged Q R w :
  St over d t w → d (st_root_dir staged) = None → Q () w → wp (discard_staged_extension_package staged) Q R w.
Proof. intros H Hd HQ. apply wp_bind, (wp_exists over d t); [done|]. by rewrite Hd. Qed.

Lemma wp_discard over d t staged Q R w :
  St over d t w →
  (∀ w', St over (without (st_root_dir staged) d) t w' → Q () w') → (∀ w', over = false → St true d t w' → Q () w') →
  wp (discard_staged_extension_package staged) Q R w.
Proof.
  intros H HQ HF. apply wp_bind, (wp_exists over d t); [done|]. destruct (d (st_root_dir staged)) as [T|] eqn:E; cbn.
  - apply wp_catch, (wp_remove over d t _ T); [done|done|done|]. intros w' Ho Hw e. apply wp_ret. by apply HF.
  - refine (HQ _ (St_ext _ d _ _ _ H _)). intros q. unfold without. case_decide as Eq; [by rewrite Eq|done].
Qed.

(** Looking up paths in changed directories. *)
Ltac dirs := unfold with_dir, without; repeat (case_decide; subst); try congruence; try done.

(** ** Activating the files *)

Lemma string_app_inj_l (a b c : string) : a +:+ b = a +:+ c → b = c.
Proof. induction a as [|x a IH]; [done|]. intros [= H]. by apply IH. Qed.

Lemma string_cons_app_neq a b : "." +:+ a +:+ b ≠ a.
Proof.
  intros H. apply (f_equal String.length) in H. rewrite !EditSpec.string_length_app in H. cbn in H. lia.
Qed.

Section Activate.
Context (token : string) (staged : StagedExtensionPackage) (I : path).

Local Abbreviation S := (st_root_dir staged).
Local Abbreviation C := (candidate_path I token).
Local Abbreviation B := (backup_path I token).

Context (staged_elsewhere : p_parent S ≠ p_parent I).

Lemma distinct_paths : S ≠ I ∧ S ≠ C ∧ S ≠ B ∧ C ≠ I ∧ B ≠ I ∧ C ≠ B.
Proof.
  unfold candidate_path, backup_path. assert (∀ p, p_parent p = p_parent I → S ≠ p) as HS by congruence.
  split_and!; [by apply HS..| | |].
  - intros H. apply (f_equal p_name) in H. by apply string_cons_app_neq in H.
  - intros H. apply (f_equal p_name) in H. by apply string_cons_app_neq in H.
  - intros H. apply (f_equal p_name) in H. cbn [p_name] in H. apply string_app_inj_l, string_app_inj_l in H. done.
Qed.

(** The files after a successful activation. *)
Definition activated (T : Tree) (d : path → option Tree) : path → option Tree := with_dir I (Some T) (with_dir B (d I) (without S d)).

Definition backup_of (d : path → option Tree) : option path := if opt_truthy (d I) then Some B else None.

Lemma wp_remove_candidate d t Q R w :
  St true d t w → (∀ w', St true (without C d) t w' → Q () w') → wp (when_exists (Some C) _remove_install_root) Q R w.
Proof.
  intros H HQ. destruct (d C) as [T|] eqn:E.
  - apply (wp_when_exists true d t C T); [done|done|]. by apply (wp_remove true d t C T).
  - apply (wp_when_exists_none true d t); [done|done|]. apply HQ. eapply St_ext; [done|]. intros q. unfold without. by case_decide; subst.
Qed.

(** Undoing before the old files were moved away: the candidate and the package are removed. *)
Lemma wp_undo_candidate {A} d t backup e (Q : A → ExtWorld → Prop) R w :
  St true d t w → match backup with Some b => d b = None | None => True end →
  (∀ w', St true (without S (without C d)) t w' → R w') →
  wp (undo_activation staged I C backup ≫= λ _, xraise e) Q R w.
Proof.
  intros H Hb HR. apply wp_bind. apply wp_bind, (wp_when_exists_none true d t); [done|done|].
  apply wp_bind, (wp_when_exists_none true d t); [done|done|]. apply wp_bind, (wp_remove_candidate d t); [done|]. intros w1 H1.
  apply (wp_discard true (without C d) t); [done|intros w2 H2; by apply wp_raise, HR|done].
Qed.

(** Undoing after that: the old files are moved back. *)
Lemma wp_undo_backup {A} d t old e (Q : A → ExtWorld → Prop) R w :
  St true d t w → d B = Some old → d I = None →
  (∀ w', St true (without S (without C (with_dir I (Some old) (without B d)))) t w' → R w') →
  wp (undo_activation staged I C (Some B) ≫= λ _, xraise e) Q R w.
Proof.
  intros H HB HI HR. apply wp_bind. apply wp_bind, (wp_when_exists true d t B old); [done|done|].
  apply wp_bind, (wp_exists true d t); [done|]. rewrite HI. apply wp_ret.
  apply wp_bind, (wp_when_exists true d t B old); [done|done|].
  apply wp_bind, (wp_exists true d t); [done|]. rewrite HI. apply (wp_rename true d t B I old); [done|done|done| |done].
  intros w1 H1. apply wp_bind, (wp_remove_candidate (with_dir I (Some old) (without B d)) t); [done|]. intros w2 H2.
  apply (wp_discard true (without C (with_dir I (Some old) (without B d))) t); [done|intros w3 H3; by apply wp_raise, HR|done].
Qed.

Lemma wp_activate over d t T Q R w :
  St over d t w → d S = Some T → d C = None → d B = None →
  (∀ w', St over (activated T d) t w' → Q (mkSwap I (backup_of d) staged) w') →
  (∀ w', over = false → St true (without S d) t w' → R w') →
  wp (activate_staged_package token staged I) Q R w.
Proof.
  destruct distinct_paths as (N1 & N2 & N3 & N4 & N5 & N6). intros H HS HC HB HQ HR.
  apply wp_bind, (wp_exists over d t); [done|]. cbv zeta.
  fold (backup_of d). apply wp_bind, wp_catch, wp_bind, (wp_move over d t _ _ T); [done|done|done| |].
  2:{ intros w' Ho H' e. apply (wp_undo_candidate d t); [done|unfold backup_of; by destruct (d I)|]. intros w2 H2. apply HR; [done|].
      eapply St_ext; [done|]. intros q. dirs. }
  intros w1 H1. set (d1 := with_dir C (Some T) (without S d)) in *.
  assert (d1 I = d I) as E1 by (unfold d1; dirs). assert (d1 B = None) as E2 by (unfold d1; dirs).
  assert (d1 C = Some T) as E3 by (unfold d1; dirs). assert (∀ q, without S (without C d1) q = without S d q) as E4 by (intros q; unfold d1; dirs).
  unfold backup_of in *. destruct (d I) as [old|] eqn:EI; cbn [opt_truthy] in *.
  - apply wp_bind, (wp_rename over d1 t I B old); [done|done|done| |].
    2:{ intros w' Ho H' e. apply (wp_undo_candidate d1 t); [done|done|]. intros w2 H2. apply HR; [done|by eapply St_ext]. }
    intros w2 H2. set (d2 := with_dir B (Some old) (without I d1)) in *.
    assert (d2 I = None) as E5 by (unfold d2; dirs). assert (d2 B = Some old) as E6 by (unfold d2; dirs).
    apply (wp_rename over d2 t C I T); [done|unfold d2; dirs|done| |].
    + intros w3 H3. apply wp_ret, HQ. eapply St_ext; [done|]. intros q. unfold activated, d2, d1. rewrite EI. dirs.
    + intros w' Ho H' e. apply (wp_undo_backup d2 t old); [done|done|done|]. intros w3 H3. apply HR; [done|].
      eapply St_ext; [done|]. intros q. unfold d2, d1. dirs.
  - apply wp_bind, wp_ret. apply (wp_rename over d1 t C I T); [done|done|done| |].
    + intros w3 H3. apply wp_ret, HQ. eapply St_ext; [done|]. intros q. unfold activated, d1. rewrite EI. dirs.
    + intros w' Ho H' e. apply (wp_undo_candidate d1 t); [done|done|]. intros w2 H2. apply HR; [done|by eapply St_ext].
Qed.

(** Removing the old files. *)
Lemma wp_commit over d t T Q R w :
  St over (activated T d) t w → d B = None →
  (∀ w', St over (with_dir I (Some T) (without S d)) t w' → Q () w') →
  (∀ w', over = false → St true (activated T d) t w' → R w') →
  wp (commit_install_swap (mkSwap I (backup_of d) staged)) Q R w.
Proof.
  destruct distinct_paths as (N1 & N2 & N3 & N4 & N5 & N6). intros H HB HQ HR. apply wp_bind. unfold backup_of. cbn [sw_backup_root sw_stage].
  destruct (d I) as [old|] eqn:EI; cbn [opt_truthy].
  - apply (wp_when_exists over (activated T d) t B old); [done|unfold activated; rewrite EI; dirs|].
    apply (wp_remove over (activated T d) t B old); [done|unfold activated; rewrite EI; dirs| |done]. intros w1 H1.
    apply (wp_discard_none over (without B (activated T d)) t); [done|unfold activated; dirs|]. apply HQ. eapply St_ext; [done|].
    intros q. unfold activated. dirs.
  - apply wp_ret, (wp_discard_none over (activated T d) t); [done|unfold activated; dirs|]. apply HQ. eapply St_ext; [done|].
    intros q. unfold activated. rewrite EI. dirs.
Qed.

(** Putting the old files back. *)
Lemma wp_rollback d t T Q R w :
  St true (activated T d) t w → d B = None → (∀ w', St true (without S d) t w' → Q () w') →
  wp (rollback_install_swap (mkSwap I (backup_of d) staged)) Q R w.
Proof.
  destruct distinct_paths as (N1 & N2 & N3 & N4 & N5 & N6). intros H HB HQ. apply wp_bind. unfold backup_of. cbn [sw_install_root sw_backup_root sw_stage].
  apply (wp_when_exists true (activated T d) t I T); [done|unfold activated; dirs|].
  apply (wp_remove true (activated T d) t I T); [done|unfold activated; dirs| |done]. intros w1 H1. apply wp_bind.
  destruct (d I) as [old|] eqn:EI; cbn [opt_truthy].
  - apply (wp_when_exists true (without I (activated T d)) t B old); [done|unfold activated; rewrite EI; dirs|].
    apply (wp_rename true (without I (activated T d)) t B I old); [done|unfold activated; rewrite EI; dirs|unfold activated; dirs| |done].
    intros w2 H2. apply (wp_discard_none true (with_dir I (Some old) (without B (without I (activated T d)))) t); [done|unfold activated; dirs|].
    apply HQ. eapply St_ext; [done|]. intros q. unfold activated. rewrite EI. dirs.
  - apply (wp_when_exists_none true (without I (activated T d)) t); [done|done|].
    apply (wp_discard_none true (without I (activated T d)) t); [done|unfold activated; dirs|]. apply HQ. eapply St_ext; [done|].
    intros q. unfold activated. rewrite EI. dirs.
Qed.

End Activate.

(** ** The runtime *)

(** [m] is quiet however it ends. *)
Definition quietly {A} (m : X A) : Prop := ∀ w, quiet w (m w).2.

Lemma quietly_ret {A} (a : A) : quietly (xret a).
Proof. by intros w. Qed.

Lemma quietly_raise {A} e : quietly (A := A) (xraise e).
Proof. by intros w. Qed.

Lemma quietly_bind {A B} (m : X A) (k : A → X B) : quietly m → (∀ a, quietly (k a)) → quietly (m ≫= k).
Proof.
  intros Hm Hk w. specialize (Hm w). unfold mbind, X_bind, xbind. destruct (m w) as [[a|e] w']; cbn in *; [|done].
  etrans; [exact Hm|apply Hk].
Qed.

Lemma quietly_catch {A} (m : X A) h : quietly m → (∀ e, quietly (h e)) → quietly (xcatch m h).
Proof.
  intros Hm Hh w. specialize (Hm w). unfold xcatch. destruct (m w) as [[a|e] w']; cbn in *; [done|]. etrans; [exact Hm|apply Hh].
Qed.

Lemma quietly_for {A} (f : A → X unit) l : (∀ a, quietly (f a)) → quietly (xfor f l).
Proof. intros Hf. induction l as [|a l IH]; [apply quietly_ret|]. cbn. by apply (quietly_bind (f a) (λ _, xfor f l)). Qed.

Lemma quietly_put f : (∀ w, quiet w (f w)) → quietly (xput f).
Proof. intros H w. apply H. Qed.

Create HintDb quiet.
#[export] Hint Resolve quietly_ret quietly_raise quietly_bind quietly_catch quietly_for quietly_put : quiet.

Lemma wp_quietly {A} (m : X A) over d t w : quietly m → St over d t w → wp m (λ _, St over d t) (St over d t) w.
Proof. intros Hm H. specialize (Hm w). unfold wp. destruct (m w) as [[a|e] w']; by eapply St_quiet. Qed.

Section Runtimes.
Context `{pk : Packaging} {dg : Digest} {env : ExtEnv} (gateway : bool).

Lemma set_row_error_quietly id message : quietly (set_row_error id message).
Proof.
  apply quietly_put. intros w. split; [done|done|]. cbn. rewrite <-list_fmap_compose. apply list_fmap_ext. intros i r _. cbn.
  by case_bool_decide.
Qed.

Lemma load_all_quietly specs strict : quietly (load_all_extension_runtimes specs strict).
Proof.
  unfold load_all_extension_runtimes. apply quietly_bind; [by intros w|]. intros w. destruct (load_runtimes _ _ _); [|apply quietly_raise].
  apply quietly_bind; [by apply quietly_put|intros; apply quietly_ret].
Qed.

Lemma refresh_quietly given strict : quietly (_refresh_runtime gateway given strict).
Proof.
  unfold _refresh_runtime. apply quietly_bind; [destruct given; [apply quietly_ret|by intros w]|]. intros records.
  apply quietly_bind; [by intros w|]. intros w. destruct (if gateway then _ else _) as [apps failures].
  apply quietly_bind; [apply load_all_quietly|]. intros loaded.
  apply quietly_bind. { destruct gateway; [|apply quietly_ret]. unfold swap_apps. destruct (ambiguous_routes _); [apply quietly_raise|by apply quietly_put]. }
  intros _. apply quietly_bind. { apply quietly_for. intros f. destruct (record_named _ _); [apply set_row_error_quietly|apply quietly_ret]. }
  intros _. apply quietly_bind.
  { apply quietly_for. intros n. destruct (record_named n records); [|apply quietly_ret]. apply quietly_bind; [by intros w'|]. intros t.
    destruct (record_by_id _ t); [|apply quietly_ret]. destruct (_has_retryable_runtime_error _); [apply set_row_error_quietly|apply quietly_ret]. }
  intros _. destruct (merge_sort _ _); [apply quietly_ret|apply quietly_raise].
Qed.

Lemma deactivate_quietly name : quietly (_deactivate_extension_runtime gateway name).
Proof.
  unfold _deactivate_extension_runtime. apply quietly_bind; [destruct gateway; [by apply quietly_put|apply quietly_ret]|]. intros _.
  apply quietly_catch; [|intros; apply quietly_ret]. apply quietly_bind; [by intros w|]. intros records.
  apply quietly_bind; [apply refresh_quietly|intros; apply quietly_ret].
Qed.

Lemma deactivate_returns name w : ∃ w', _deactivate_extension_runtime gateway name w = (Ok (), w').
Proof.
  unfold _deactivate_extension_runtime, mbind, X_bind, xbind, xcatch.
  destruct gateway; cbn; repeat case_match; simplify_eq; by eexists.
Qed.

End Runtimes.

(** ** Rows *)

Lemma record_by_id_clean id t : record_by_id id (clean <$> t) = clean <$> record_by_id id t.
Proof.
  unfold record_by_id. rewrite list_find_fmap. rewrite (list_find_ext ((λ r, ex_id r = id) ∘ clean) (λ r, ex_id r = id)) by done.
  by destruct (list_find _ t) as [[]|].
Qed.

Section Install.
Context `{pk : Packaging} {dg : Digest} {env : ExtEnv} (gateway : bool).

Lemma wp_row over d t id p Q R w :
  St over d t w → record_by_id id t = Some p → (∀ r, clean r = p → Q r w) → wp (the_row id) Q R w.
Proof.
  intros [_ Ht _] Hp HQ. unfold wp, the_row. rewrite <-Ht, record_by_id_clean in Hp. destruct (record_by_id id (w_table w)) as [r|]; [|done].
  apply HQ. by injection Hp.
Qed.

Definition updated (id : string) (f : ExtensionRecord → ExtensionRecord) (t : list ExtensionRecord) : list ExtensionRecord :=
  (λ r, if bool_decide (ex_id r = id) then clean (f r) else r) <$> t.

Lemma wp_update_row over d t id f Q R w :
  St over d t w → (∀ r, clean (f r) = clean (f (clean r))) → (∀ w', St over d (updated id f t) w' → Q () w') →
  wp (update_row id f) Q R w.
Proof.
  intros [H1 H2 H3] Hf HQ. apply HQ. split; [done| |done]. cbn. rewrite <-H2. unfold updated. rewrite <-!list_fmap_compose.
  apply list_fmap_ext. intros i r _. cbn. case_bool_decide; [apply Hf|done].
Qed.

(** The update of [mark_installed] in an installation. *)
Definition installs (root : path) (m : ExtensionManifest) (latest : option string) (now : Z) (r : ExtensionRecord) : ExtensionRecord :=
  mark_installed r (mf_version m) root m (mf_display_name m) (Some (mf_description m)) latest now.

(** What a package says of itself. *)
Definition declares (T : Tree) (name : string) (M : ExtensionManifest) : Prop :=
  ∃ m, load_manifest_payload T = Ok (Some m) ∧ mf_name m = name ∧ mf_name M = mf_name m ∧ mf_version M = mf_version m ∧
       check_dvt_compatibility M = check_dvt_compatibility m.

Lemma wp_load_installed over d t root T name Q R w :
  St over d t w → d root = Some T → (∀ ext, declares T name (rg_manifest ext) → Q ext w) → R w →
  wp (load_installed root name) Q R w.
Proof.
  intros H HT HQ HR. unfold wp, load_installed, mbind, X_bind, xbind, xget, load_manifest.
  pose proof (st_dirs _ _ _ _ H root) as Hd. unfold dir_of in Hd. rewrite Hd, HT.
  destruct (load_manifest_payload T) as [[m|]|] eqn:Em; [|done|done]. cbn [mbind outcome_bind]. case_bool_decide as E; [|done]. cbn [negb].
  apply HQ. exists m. by split_and!.
Qed.

Lemma record_by_id_updated id f t p :
  record_by_id id t = Some p → ex_id (f p) = ex_id p → record_by_id id (updated id f t) = Some (clean (f p)).
Proof.
  intros Hp Hid. unfold record_by_id, updated in *. induction t as [|r t IH]; [done|]. cbn in *.
  destruct (decide (ex_id r = id)) as [E|E].
  - injection Hp as ->. rewrite bool_decide_eq_true_2 by done. cbn. rewrite decide_True by congruence. done.
  - rewrite bool_decide_eq_false_2, decide_False by done. destruct (list_find _ t) as [[i x]|] eqn:Hf; [|done]. cbn in *.
    specialize (IH Hp). destruct (list_find _ (fmap _ t)) as [[j y]|]; [|done]. done.
Qed.

Section Package.
Context (token id : string) (now : Z) (staged : StagedExtensionPackage) (latest : option string) (previous : ExtensionRecord).

Local Abbreviation I := (install_root_of previous staged).
Local Abbreviation S := (st_root_dir staged).

Context (staged_elsewhere : p_parent S ≠ p_parent I).

(** After the files are in place: the row is updated, and the runtime is refreshed; then the old files
    are removed. Until then the files stay, and the row is the old or the new one. *)
Lemma wp_finish over d t T p Q R w :
  St over (activated token staged I T d) t w → d (backup_path I token) = None → record_by_id id t = Some p →
  (∀ r w' M, declares T (ex_name p) M → check_dvt_compatibility M = true → clean r = clean (installs I M latest now p) →
     St over (with_dir I (Some T) (without S d)) (updated id (installs I M latest now) t) w' → Q r w') →
  (∀ w' over' t', (t' = t ∨ ∃ M, t' = updated id (installs I M latest now) t) → St over' (activated token staged I T d) t' w' → R w') →
  wp (finish_install gateway id staged latest now (mkSwap I (backup_of token I d) staged)) Q R w.
Proof.
  intros H HB Hp HQ HR. unfold finish_install. cbn [sw_install_root].
  set (D := activated token staged I T d) in *. apply wp_bind, (wp_row over D t id p); [done|done|]. intros r0 Hr0.
  assert (ex_name r0 = ex_name p) as -> by (by rewrite <-Hr0).
  apply wp_bind, (wp_load_installed over D t I T); [done|unfold D, activated; dirs| |by eapply HR; [left|]].
  intros ext Hdec. apply wp_bind. destruct (check_dvt_compatibility (rg_manifest ext)) eqn:Hc; [apply wp_ret|apply wp_raise; by eapply HR; [left|]].
  set (M := rg_manifest ext) in *. set (t' := updated id (installs I M latest now) t).
  assert (∀ w' over', St over' D t' w' → R w') as HR' by (intros; eapply HR; [right; by exists M|done]).
  apply wp_bind, (wp_update_row over D t); [done|done|]. intros w1 H1. fold t' in H1.
  apply wp_bind, (wp_attempt _ over D t'); [done| |intros; by eapply HR']. intros w2 H2.
  apply wp_bind, (wp_attempt _ over D t'); [done| |intros; by eapply HR']. intros w3 H3.
  apply wp_bind. eapply wp_mono; [by apply (wp_quietly _ over D t' w3 (refresh_quietly gateway _ _)), H3| |intros; by eapply HR'].
  intros report w4 H4. apply wp_bind, (wp_attempt _ over D t'); [done| |intros; by eapply HR']. intros w5 H5.
  apply wp_bind, (wp_commit token staged I staged_elsewhere over d t' T); [done|done| |intros; by eapply HR']. intros w6 H6.
  apply (wp_row over (with_dir I (Some T) (without S d)) t' id (clean (installs I M latest now p))); [done| |intros r Hr; by eapply HQ].
  by apply record_by_id_updated.
Qed.

(** Restoring the fields that an installation may change. *)
Lemma restored_row M : clean (_restore_install_record previous (clean (installs I M latest now (clean previous)))) = clean previous.
Proof. by destruct previous. Qed.

Lemma restored_rows t t' :
  NoDup (ex_id <$> t) → record_by_id id t = Some (clean previous) →
  (t' = t ∨ ∃ M, t' = updated id (installs I M latest now) t) → updated id (_restore_install_record previous) t' = t.
Proof.
  intros Hnd Hp Ht'. apply record_by_id_elem in Hp as [Hin Hid].
  assert (∀ r, r ∈ t → ex_id r = id → r = clean previous) as Huniq.
  { intros r Hr E. apply list_elem_of_lookup in Hr as [i Hi], Hin as [j Hj].
    assert (i = j) as -> by (eapply NoDup_lookup; [exact Hnd|by rewrite list_lookup_fmap, Hi|by rewrite list_lookup_fmap, Hj; cbn; rewrite E, <-Hid]).
    congruence. }
  destruct Ht' as [->|[M ->]]; unfold updated; rewrite <-?list_fmap_compose; (etrans; [|apply list_fmap_id]); apply list_fmap_ext;
    intros i r Hr; cbn; (destruct (decide (ex_id r = id)) as [E|E]; [|rewrite (bool_decide_eq_false_2 (ex_id r = id)) by done; cbn; by rewrite ?(bool_decide_eq_false_2 (ex_id r = id))]);
    rewrite (bool_decide_eq_true_2 (ex_id r = id)) by done; (rewrite (Huniq r); [|by eapply list_elem_of_lookup_2|done]).
  - by destruct previous.
  - rewrite bool_decide_eq_true_2 by exact Hid. apply restored_row.
Qed.

(** Undoing restores the rows, whatever the runtime does. *)
Lemma wp_undo_rows d t t' (Q : unit → ExtWorld → Prop) R w :
  NoDup (ex_id <$> t) → record_by_id id t = Some (clean previous) →
  (t' = t ∨ ∃ M, t' = updated id (installs I M latest now) t) →
  St true d t' w → (∀ w', St true d t w' → Q () w') →
  wp (xcatch
        (_ ← update_row id (_restore_install_record previous);
         if ex_is_installed previous && opt_truthy (ex_install_path previous)
         then _ ← _refresh_runtime gateway None [ex_name previous]; xret ()
         else _deactivate_extension_runtime gateway (ex_name previous))
        (λ _, _deactivate_extension_runtime gateway (ex_name previous))) Q R w.
Proof.
  intros Hnd Hp Ht' H HQ.
  assert (∀ w' R', St true d t w' → wp (_deactivate_extension_runtime gateway (ex_name previous)) Q R' w') as Hdeact.
  { intros w' R' H'. pose proof (deactivate_quietly gateway (ex_name previous) w') as Hq.
    destruct (deactivate_returns gateway (ex_name previous) w') as [w'' E]. unfold wp. rewrite E in *. apply HQ. by eapply St_quiet. }
  apply wp_catch, wp_bind, (wp_update_row true d t'); [done|done|]. intros w1. rewrite (restored_rows t t') by done. intros H1.
  destruct (_ && _); [|by apply Hdeact].
  apply wp_bind. eapply wp_mono; [by apply (wp_quietly _ true d t w1 (refresh_quietly gateway _ _)), H1| |].
  - intros report w2 H2. by apply wp_ret, HQ.
  - intros w2 H2 e. by apply Hdeact.
Qed.

(** The package [T] is in its place, nothing else changed on the disk, and the row [r] describes it; the
    other rows are as before, their messages apart. *)
Record installed_state (w : ExtWorld) (T : Tree) (r : ExtensionRecord) (w' : ExtWorld) : Prop := {
  is_files : dir_of w' I = Some T;
  is_others p : p ≠ I → p ≠ S → dir_of w' p = dir_of w p;
  is_version : ∃ M, declares T (ex_name previous) M ∧ check_dvt_compatibility M = true ∧ ex_current_version r = Some (mf_version M);
  is_installed : ex_is_installed r = true;
  is_path : ex_install_path r = Some I;
  is_data : ex_state_json r = ex_state_json previous;
  is_schema : ex_storage_schema r = ex_storage_schema previous;
  is_rows r' : r' ∈ clean <$> w_table w → ex_id r' ≠ id → r' ∈ clean <$> w_table w';
}.

(** The files but the staged ones, and the rows but their messages, are as before. *)
Record unchanged_state (w w' : ExtWorld) : Prop := {
  us_files p : p ≠ S → dir_of w' p = dir_of w p;
  us_rows : clean <$> w_table w' = clean <$> w_table w;
}.

(** What the last state says of the files and of the rows. *)
Lemma installed_result w M T r w' :
  declares T (ex_name previous) M → check_dvt_compatibility M = true →
  clean r = clean (installs I M latest now (clean previous)) →
  St false (with_dir I (Some T) (without S (dir_of w))) (updated id (installs I M latest now) (clean <$> w_table w)) w' →
  installed_state w T r w'.
Proof.
  intros Hdec Hc Hr [H1 H2 _].
  assert (∀ {A} (f : ExtensionRecord → A), (∀ r, f (clean r) = f r) → f r = f (installs I M latest now (clean previous))) as Hf.
  { intros A f Hf. by rewrite <-(Hf r), Hr, Hf. }
  split.
  - rewrite H1. unfold with_dir. by rewrite decide_True.
  - intros p HI HS. rewrite H1. unfold with_dir, without. by rewrite !decide_False.
  - exists M. split; [done|]. split; [done|]. by rewrite (Hf _ ex_current_version).
  - by rewrite (Hf _ ex_is_installed).
  - by rewrite (Hf _ ex_install_path).
  - by rewrite (Hf _ ex_state_json).
  - by rewrite (Hf _ ex_storage_schema).
  - intros r' Hin Hne. rewrite H2. unfold updated. apply list_elem_of_fmap. exists r'. by rewrite bool_decide_eq_false_2.
Qed.

(** When an installation gives up, no call is left to fail. *)
Definition undo_undisturbed (w : ExtWorld) : Prop :=
  ∀ swap w1 e w2, activate_staged_package token staged I w = (Ok swap, w1) →
    finish_install gateway id staged latest now swap w1 = (Raise e, w2) → calm w2.

(** C8. Installing a package replaces files and row, or neither, under these conditions: the package is staged
    and the paths of the candidate and the backup are free; at most one call (of the file system, pip, the
    migrations or the broker) fails, and it fails before it changed anything ([one_fault]); and no call
    fails while the installation is undone ([undo_undisturbed]). Then, whichever call fails, and whether the
    package or the runtime refuses: when the installation raises, all directories but the staged one and all
    rows (their messages apart) are as before; when it returns, the package is in its place, nothing else
    changed, and the row describes it. A removal that stops half way is outside of it, and loses the extension
    ([interrupted_commit_loses_the_extension]). *)
Theorem installation_is_atomic w T :
  NoDup (ex_id <$> w_table w) → record_by_id id (w_table w) = Some previous →
  dir_of w S = Some T → dir_of w (candidate_path I token) = None → dir_of w (backup_path I token) = None →
  one_fault (w_faults w) → undo_undisturbed w →
  match _install_staged_package gateway token now id staged latest w with
  | (Ok r, w') => installed_state w T r w'
  | (Raise _, w') => unchanged_state w w'
  end.
Proof.
  intros Hnd Hp HS HC HB Hf Hundo. set (d := dir_of w) in *. set (t := clean <$> w_table w).
  assert (St false d t w) as H0 by (split; done).
  assert (NoDup (ex_id <$> t)) as Hnd' by (unfold t; by rewrite <-list_fmap_compose).
  assert (record_by_id id t = Some (clean previous)) as Hp' by (unfold t; rewrite record_by_id_clean, Hp; done).
  change (wp (_install_staged_package gateway token now id staged latest) (λ r w', installed_state w T r w') (unchanged_state w) w).
  assert (∀ w', St true (without S d) t w' → unchanged_state w w') as HR.
  { intros w' [H1 H2 _]. split; [|done]. intros p Hps. rewrite H1. unfold without. by case_decide. }
  unfold _install_staged_package. apply wp_bind. unfold wp at 1, the_row. rewrite Hp.
  apply wp_bind, wp_catch, wp_bind. eapply wp_mono; [apply wp_both|..].
  - apply (wp_activate token staged I staged_elsewhere false d t T (λ s w1, s = mkSwap I (backup_of token I d) staged ∧ St false (activated token staged I T d) t w1)
      (St true (without S d) t)); [done|done|done|done| |done]. by split.
  - intros swap w1 (Eact & -> & H1). apply wp_ret. apply wp_catch. eapply wp_mono; [apply wp_both|..].
    + apply (wp_finish false d t T (clean previous)
        (λ r w2, ∃ M, declares T (ex_name previous) M ∧ check_dvt_compatibility M = true ∧
           clean r = clean (installs I M latest now (clean previous)) ∧
           St false (with_dir I (Some T) (without S d)) (updated id (installs I M latest now) t) w2)
        (λ w2, ∃ over' t', (t' = t ∨ ∃ M, t' = updated id (installs I M latest now) t) ∧ St over' (activated token staged I T d) t' w2) w1);
        [done|done|done| |].
      * intros r w2 M Hdec Hc Hr H2. by exists M.
      * intros w2 over' t' Ht' H2. by exists over', t'.
    + intros r w2 (_ & M & Hdec & Hc & Hr & H2). by apply installed_result with M.
    + intros w2 ((e & Efin) & over' & t' & Ht' & H2) e'. apply wp_bind. unfold undo_install.
      assert (St true (activated token staged I T d) t' w2) as H2'.
      { destruct H2 as [A1 A2 _]. split; [done|done|]. by apply (Hundo _ _ _ _ Eact Efin). }
      apply wp_bind, wp_catch, (wp_rollback token staged I staged_elsewhere d t' T); [done|done|]. intros w3 H3.
      apply (wp_undo_rows (without S d) t t'); [done|done|done|done|]. intros w4 H4. apply wp_raise, HR, H4.
  - intros w1 (_ & H1) e. apply wp_ret. apply wp_bind. unfold undo_install.
    apply wp_bind, wp_catch, (wp_discard_none true (without S d) t); [done|unfold without; by rewrite decide_True|].
    apply (wp_undo_rows (without S d) t t); [done|done|by left|done|]. intros w2 H2. apply wp_raise, HR, H2.
Qed.

End Package.
End Install.
