(* ===== verification/ExtRun.v ===== *)
(** * Extensions: concrete runs

    A package [alpha] in two versions, installed, upgraded and removed; the instances of the theorems on
    them; and an upgrade that fails while the old files are being removed. *)
From S2P Require Import Prelude PipelineTypes Graph NodeKwargs ExtTypes ExtStore ExtSpec ExtFiles ExtRuntime ExtLoad ExtManager ExtInstall.
Open Scope Z_scope.

Module ExtRuns.

(** Names without blanks around them are in normal form. *)
#[local] Instance plain_packaging : Packaging := {|
  canonicalize_name s := if bool_decide (py_strip s = s) then s else "x";
  is_valid_name _ := true;
  version_compare a b := Some (if String.eqb a b then Eq else if bool_decide (str_le a b) then Lt else Gt);
  version_is_prerelease _ := Some false;
  specifier_contains _ _ := Some true;
|}.

Lemma plain_laws : packaging_laws.
Proof.
  split; cbn [canonicalize_name plain_packaging]; intros s.
  - destruct (bool_decide (py_strip s = s)) eqn:H; [by rewrite H|reflexivity].
  - destruct (bool_decide (py_strip (py_strip s) = py_strip s)) eqn:H; [by apply bool_decide_eq_true in H|reflexivity].
  - destruct (bool_decide (py_strip s = s)) eqn:H; [done|]. split; [done|]. intros ->. by apply bool_decide_eq_false in H.
Qed.

#[local] Instance constant_digest : Digest := {| sha256_8 _ := "0a1b2c3d" |}.

(** The manifest of a directory is in two of its files. *)
Definition manifest (name version : string) : ExtensionManifest :=
  mkManifest name version (Some name) ["old-" +:+ name] None None "" None None [] "".

Definition parse (t : Tree) : outcome string (option ExtensionManifest) :=
  match dget t "name", dget t "version" with
  | Some n, Some v => Ok (Some (manifest n v))
  | _, _ => Ok None
  end.

#[local] Instance run_env : ExtEnv := {|
  extensions_root := "/ext";
  extensions_enabled := true;
  current_dvt_version := Some "1.0";
  sanitize_extension_error s := s;
  load_manifest_payload := parse;
  resolve_nodes_dir_if_present _ _ := Ok true;
  backend_package_name m _ := Ok (mf_name m);
  package_conflict _ _ := None;
  import_extension_nodes_for _ t := match dget t "code" with Some _ => Ok () | None => Raise "no code" end;
  rebuild_node_registries _ _ := Ok [];
  load_router _ _ := Ok true;
|}.

Definition root : path := mkPath "/ext" "alpha".
Definition stage : path := mkPath "/ext/.staging/1" "payload".

Definition files (version : string) : Tree := [("code", "code " +:+ version); ("name", "alpha"); ("version", version)].
Definition staged (version : string) : StagedExtensionPackage := mkStaged stage (manifest "alpha" version) true.

Definition schema_of (name : string) : string := match extension_schema_name name with Ok s => s | Raise _ => "" end.

Example schema_examples :
  schema_of "alpha" = "dvt_ext_alpha" ∧ schema_of "Foo Bar" = "dvt_ext_foo_bar_0a1b2c3d" ∧
  String.length (schema_of "a-very-long-name-a-very-long-name-a-very-long-name-a-very-long-name") = 62%nat.
Proof. vm_compute. done. Qed.

Lemma schema_names_are_identifiers_witness :
  String.prefix "dvt_ext_" (schema_of "alpha") = true ∧ all_schema_chars (schema_of "alpha") = true ∧
  (9 ≤ String.length (schema_of "alpha") ≤ 63)%nat ∧
  let name := py_strip "alpha" in
  (py_lower name = name → all_schema_chars name = true → rstrip_underscore (lstrip_underscore name) = name →
   (String.length name ≤ 55)%nat → schema_of "alpha" = "dvt_ext_" +:+ name).
Proof. apply (schema_names_are_identifiers (dg := constant_digest) (λ _, eq_refl) (λ _, eq_refl) "alpha"). vm_compute. reflexivity. Defined.

(** ** Reconciling *)

Definition stub (id name : string) : ExtensionRecord :=
  mkExtension id name name None "" None true false NOT_INSTALLED None None None None [] [] None None.

(** The package was listed under its old name, and its new name is another row; neither has a schema. *)
Definition listed : list ExtensionRecord := [stub "1" "old-alpha"; stub "2" "beta"; stub "3" "alpha"].

Definition reconcile_alpha : outcome ext_exn (ExtensionRecord * list ExtensionRecord) :=
  reconcile_extension_identity "9" (mkCreate "alpha" None None None) (Some (manifest "alpha" "1")) ["old-alpha"] None listed.

Definition reconciled_row : ExtensionRecord := match reconcile_alpha with Ok (r, _) => r | Raise _ => stub "0" "" end.
Definition reconciled_table : list ExtensionRecord := match reconcile_alpha with Ok (_, t) => t | Raise _ => [] end.

Lemma reconciled_names_resolve_witness :
  ex_id <$> reconciled_table = ["2"; "3"] ∧ reconciled (manifest "alpha" "1") listed reconciled_table reconciled_row.
Proof.
  split; [vm_compute; reflexivity|].
  apply (reconciled_names_resolve plain_laws "9" (mkCreate "alpha" None None None) (manifest "alpha" "1") None).
  - apply (bool_decide_unpack _). vm_compute. exact I.
  - apply (bool_decide_unpack _). vm_compute. exact I.
  - reflexivity.
  - vm_compute. reflexivity.
Defined.

(** ** Installing *)

Definition empty_world (faults : list file_fault) : ExtWorld := mkWorld [(stage, files "1")] [] [] [] [] faults.

Definition first_install : outcome ext_exn ExtensionRecord * ExtWorld :=
  install_uploaded_package true "9" "t" 100 (staged "1") false false (empty_world []).

(** The first installation creates the row, the files and the runtime. *)
Example first_install_example :
  ex_name <$> w_table first_install.2 = ["alpha"] ∧ dir_of first_install.2 root = Some (files "1") ∧
  dir_of first_install.2 stage = None ∧ dkeys (w_loaded first_install.2) = ["alpha"] ∧ w_apps first_install.2 = ["alpha"].
Proof. vm_compute. done. Qed.

(** The world with the next version staged and a script of faults. *)
Definition before_upgrade (faults : list file_fault) : ExtWorld :=
  set_faults faults (set_dirs (put_dir stage (files "2") (w_dirs first_install.2)) first_install.2).

Definition row_before : ExtensionRecord :=
  match w_table first_install.2 with r :: _ => r | [] => stub "0" "" end.

Definition upgrade (faults : list file_fault) : outcome ext_exn ExtensionRecord * ExtWorld :=
  _install_staged_package true "u" 200 "9" (staged "2") (Some "2") (before_upgrade faults).

Example upgrade_example :
  dir_of (upgrade []).2 root = Some (files "2") ∧ ex_current_version <$> w_table (upgrade []).2 = [Some "2"] ∧
  length (w_dirs (upgrade []).2) = 1%nat.
Proof. vm_compute. done. Qed.

(** The fifth call, the migration, fails. *)
Definition failing : list file_fault := [Works; Works; Works; Works; FailsAfter 0].

Lemma installation_is_atomic_witness :
  is_ok (upgrade failing).1 = false ∧
  match upgrade failing with
  | (Ok r, w') => installed_state "9" (staged "2") row_before (before_upgrade failing) (files "2") r w'
  | (Raise _, w') => unchanged_state (staged "2") (before_upgrade failing) w'
  end.
Proof.
  split; [vm_compute; reflexivity|].
  apply (installation_is_atomic true "u" "9" 200 (staged "2") (Some "2") row_before).
  - vm_compute. discriminate.
  - apply (bool_decide_unpack _). vm_compute. exact I.
  - vm_compute. reflexivity.
  - vm_compute. reflexivity.
  - vm_compute. reflexivity.
  - vm_compute. reflexivity.
  - repeat constructor.
  - intros swap w1 e w2 E1 E2. vm_compute in E1. injection E1 as <- <-. vm_compute in E2. injection E2 as _ <-. constructor.
Defined.

(** ** An upgrade that fails at the end *)

(** All steps succeed, and the removal of the old files stops after one file: the new version is deleted
    and what is left of the old one is put back. *)
Lemma interrupted_commit_loses_the_extension :
  let after := upgrade [Works; Works; Works; Works; Works; Works; FailsAfter 1] in
  is_ok after.1 = false ∧ dir_of after.2 root = Some (drop 1 (files "1")) ∧ dir_of after.2 root ≠ Some (files "1") ∧
  dkeys (w_loaded after.2) = [] ∧ ex_is_installed <$> w_table after.2 = [true] ∧ ex_current_version <$> w_table after.2 = [Some "1"].
Proof. vm_compute. split_and!; done. Qed.

(** ** Loading *)

Definition specs : list ExtensionRuntimeSpec := [mkSpec "alpha" root []; mkSpec "beta" (mkPath "/ext" "beta") []].
Definition loaded : ExtensionLoadReport :=
  match load_runtimes [(root, files "1")] ["alpha"] specs with Ok r => r | Raise _ => mkReport [] [] end.

Lemma run_rebuild : rebuild_reports_known.
Proof. intros extensions strict failures [= <-] k. by intros ?%not_elem_of_nil. Qed.

Lemma runtime_report_is_exact_witness :
  (dkeys (lr_loaded loaded) = ["alpha"] ∧ dkeys (lr_failures loaded) = ["beta"]) ∧
  (∀ name, name ∈ es_name <$> specs ↔ name ∈ dkeys (lr_loaded loaded) ∨ name ∈ dkeys (lr_failures loaded)) ∧
  (∀ name, name ∈ dkeys (lr_loaded loaded) → name ∉ dkeys (lr_failures loaded)) ∧
  (∀ name ext, dget (lr_loaded loaded) name = Some ext →
     (∃ spec, spec ∈ specs ∧ es_name spec = name ∧ read_spec [(root, files "1")] spec = Ok ext) ∧
     is_ok (import_extension_nodes_for ext (tree_at [(root, files "1")] (rg_root ext))) = true) ∧
  (∀ n1 n2 e1 e2 p, dget (lr_loaded loaded) n1 = Some e1 → dget (lr_loaded loaded) n2 = Some e2 →
     package_of [(root, files "1")] e1 = Some p → package_of [(root, files "1")] e2 = Some p → n1 = n2) ∧
  (∀ name failure, name ∈ ["alpha"] → dget (lr_failures loaded) name = Some failure → lf_stage failure = "node_registry").
Proof.
  split; [vm_compute; done|]. apply (runtime_report_is_exact [(root, files "1")] ["alpha"] specs loaded).
  - exact run_rebuild.
  - reflexivity.
  - apply (bool_decide_unpack _). vm_compute. exact I.
  - vm_compute. reflexivity.
Defined.

(** ** Other operations *)

Definition uninstalled : outcome ext_exn ExtensionRecord * ExtWorld := uninstall_extension true "old-alpha" false first_install.2.

(** A removal that fails is queued and done at the next start; an alias names the extension. *)
Example uninstall_examples :
  dir_of uninstalled.2 root = None ∧ dkeys (w_loaded uninstalled.2) = [] ∧ ex_is_installed <$> w_table uninstalled.2 = [false] ∧
  let blocked := (uninstall_extension true "alpha" false (set_faults [FailsAfter 0] first_install.2)).2 in
  w_pending blocked = [("alpha", root)] ∧ dir_of blocked root = Some (files "1") ∧
  let restarted := (sync_installed_extensions true (λ n, n) 300 blocked).2 in
  w_pending restarted = [] ∧ dir_of restarted root = None.
Proof. vm_compute. done. Qed.

(** An extension whose code cannot be imported is not enabled. *)
Example enabling_example :
  let w := set_dirs [(root, [("name", "alpha"); ("version", "1")])] uninstalled.2 in
  let w := (sync_installed_extensions true (λ n, n) 300 w).2 in
  let w := (set_extension_enabled true "alpha" false w).2 in
  let after := set_extension_enabled true "alpha" true w in
  is_ok after.1 = false ∧ ex_is_enabled <$> w_table after.2 = [false] ∧
  ex_error_message <$> w_table after.2 = [Some "Extension node import failed: no code"].
Proof. vm_compute. done. Qed.

End ExtRuns.
