(* ===== verification/ExtArchive.v ===== *)
(** * Extensions: uploaded archives

    Models the checks of an uploaded package before it is unpacked ([infra/packages/artifact.py]):
    [_normalized_member_path], [_validate_archive_members] and [_extract_package] with the paths the
    standard library writes to.

    A member of the archive is what the ZIP directory says of it. A path is the list of its components;
    [walk] is how an operating system follows a path that meets no symbolic link. The limits of the
    configuration are arguments. *)
From Stdlib Require Import Ascii.
From S2P Require Import Prelude PipelineTypes Graph NodeKwargs ExtTypes.
Open Scope Z_scope.

Record ZipInfo := mkZipInfo {
  zi_filename : string;
  zi_flag_bits : Z;
  zi_external_attr : Z;
  zi_file_size : Z;
  zi_compress_size : Z;
}.

Record PackageLimits := mkLimits {
  max_files : Z;
  max_uncompressed_size : Z;
  max_compression_ratio : Z;
}.

(** ** Paths *)

(** [s.replace("\", "/")] *)
Fixpoint forward_slashes (s : string) : string :=
  match s with
  | EmptyString => EmptyString
  | String c s => String (if bool_decide (c = "\"%char) then "/"%char else c) (forward_slashes s)
  end.

(** [s.split("/")]; [cur] is the component that is being read, in reverse. *)
Fixpoint split_from (cur : string) (s : string) : list string :=
  match s with
  | EmptyString => [String.rev cur]
  | String c s => if bool_decide (c = "/"%char) then String.rev cur :: split_from "" s else split_from (String c cur) s
  end.

Definition components (s : string) : list string := split_from "" s.

(** [PurePosixPath(s).parts] of a relative path. *)
Definition parts (s : string) : list string := filter (λ p, p ≠ "" ∧ p ≠ ".") (components s).

Definition _normalized_member_path (filename : string) : outcome ext_exn (list string) :=
  let normalized := forward_slashes filename in
  if negb (str_truthy normalized) || String.prefix "/" normalized then Raise (ExtValueError "Unsafe archive path")
  else if existsb (λ p, bool_decide (p ∈ [""; "."; ".."])) (parts normalized) then Raise (ExtValueError "Unsafe archive path")
  else Ok (parts normalized).

(** ** [_validate_archive_members] *)

(** [stat.S_IFMT] *)
Definition file_type (mode : Z) : Z := Z.land mode 61440.      (* 0o170000 *)
Definition S_IFLNK : Z := 40960.    (* 0o120000 *)
Definition S_IFREG : Z := 32768.    (* 0o100000 *)
Definition S_IFDIR : Z := 16384.    (* 0o040000 *)

Definition check_member (m : ZipInfo) : outcome ext_exn unit :=
  let mode := Z.shiftr (zi_external_attr m) 16 in
  if negb (Z.land (zi_flag_bits m) 1 =? 0) then Raise (ExtValueError "Encrypted extension packages are not supported")
  else if negb (mode =? 0) && (file_type mode =? S_IFLNK) then Raise (ExtValueError "Symlinks are not allowed")
  else if negb (mode =? 0) && negb ((file_type mode =? S_IFREG) || (file_type mode =? S_IFDIR)) && negb (file_type mode =? 0)
  then Raise (ExtValueError "Special files are not allowed")
  else Ok ().

(** The loop; the state is the paths seen and the two totals. *)
Definition validate_member (limits : PackageLimits) (st : list (list string) * Z * Z) (m : ZipInfo)
    : outcome ext_exn (list (list string) * Z * Z) :=
  let '(seen, uncompressed, compressed) := st in
  path ← _normalized_member_path (zi_filename m);
  if bool_decide (path ∈ seen) then Raise (ExtValueError "Duplicate archive entry")
  else
    _ ← check_member m;
    let uncompressed := uncompressed + zi_file_size m in
    if max_uncompressed_size limits <? uncompressed then Raise (ExtValueError "Extension package is too large after extraction")
    else Ok (seen ++ [path], uncompressed, compressed + zi_compress_size m).

(** The ratio is compared without rounding: [a / max(b, 1) > r]. *)
Definition _validate_archive_members (limits : PackageLimits) (infos : list ZipInfo) : outcome ext_exn unit :=
  if max_files limits <? Z.of_nat (length infos) then Raise (ExtValueError "Extension package contains too many files")
  else
    st ← foldM (validate_member limits) ([], 0, 0) infos;
    let '(_, uncompressed, compressed) := st in
    if negb (uncompressed =? 0) && negb (compressed =? 0)
       && (max_compression_ratio limits * Z.max compressed 1 <? uncompressed)
    then Raise (ExtValueError "Extension package compression ratio is suspiciously high")
    else Ok ().

(** ** [_extract_package] *)

(** Following the components of a path from directory [cwd]. *)
Definition step_into (cwd : list string) (component : string) : list string :=
  if bool_decide (component = "" ∨ component = ".") then cwd
  else if bool_decide (component = "..") then take (length cwd - 1) cwd
  else cwd ++ [component].

Definition walk (cwd : list string) (path : list string) : list string := foldl step_into cwd path.

(** [ZipFile.extract] of the standard library, on a system whose only separator is ["/"]: the components of
    the name as it is stored, without the empty ones, ["."] and [".."]. A backslash is a character like any
    other here. *)
Definition arcname (m : ZipInfo) : list string := filter (λ p, p ∉ [""; "."; ".."]) (components (zi_filename m)).

(** [ZipInfo.is_dir]: the name ends with a slash. *)
Definition is_dir (m : ZipInfo) : bool := bool_decide (last (components (zi_filename m)) = Some "").

Definition extract (m : ZipInfo) (target_root : list string) : outcome ext_exn (list string) :=
  if bool_decide (arcname m = []) && negb (is_dir m) then Raise (ExtValueError "Empty filename.") else Ok (target_root ++ arcname m).

(** The loop over the members: what is written, in order. *)
Fixpoint destinations (target_root : list string) (infos : list ZipInfo) : outcome ext_exn (list (list string)) :=
  match infos with
  | [] => Ok []
  | m :: infos =>
      relative ← _normalized_member_path (zi_filename m);
      let destination := walk target_root relative in
      if bool_decide (take (length target_root) destination = target_root) then
        written ← extract m target_root;
        rest ← destinations target_root infos; Ok (written :: rest)
      else Raise (ExtValueError "Unsafe archive path")
  end.

(** The root of the package: the only entry of the target directory, when it is a directory. *)
Definition top_level (infos : list ZipInfo) : list string := remove_dups (omap (λ m, head (arcname m)) infos).

Definition top_is_dir (name : string) (infos : list ZipInfo) : bool :=
  existsb (λ m, bool_decide (head (arcname m) = Some name) && (is_dir m || (1 <? length (arcname m))%nat)) infos.

Definition package_root (target_root : list string) (infos : list ZipInfo) : list string :=
  match top_level infos with
  | [name] => if top_is_dir name infos then target_root ++ [name] else target_root
  | _ => target_root
  end.

(** The files that are written, and the root. *)
Definition _extract_package (limits : PackageLimits) (target_root : list string) (infos : list ZipInfo)
    : outcome ext_exn (list (list string) * list string) :=
  _ ← _validate_archive_members limits infos;
  written ← destinations target_root infos;
  Ok (written, package_root target_root infos).

(** ** What is accepted *)

Lemma normalized_member_spec filename path :
  _normalized_member_path filename = Ok path → path = parts (forward_slashes filename) ∧ ".." ∉ path.
Proof.
  unfold _normalized_member_path. destruct (_ || _); [done|]. destruct (existsb _ _) eqn:E; [done|]. intros [= <-]. split; [done|].
  intros Hin. apply not_true_iff_false in E. apply E, existsb_exists. exists "..". split; [by apply list_elem_of_In|].
  apply bool_decide_eq_true. set_solver.
Qed.

(** Without [..] a path only goes down, along its parts. *)
Lemma walk_down cwd path : ".." ∉ path → walk cwd path = cwd ++ filter (λ p, p ≠ "" ∧ p ≠ ".") path.
Proof.
  unfold walk. revert cwd; induction path as [|c path IH]; intros cwd Hno; [by rewrite app_nil_r|]. cbn [foldl]. rewrite IH by set_solver.
  rewrite filter_cons. unfold step_into. destruct (decide (c ≠ "" ∧ c ≠ ".")) as [Hc|Hc].
  - rewrite bool_decide_eq_false_2 by tauto. rewrite bool_decide_eq_false_2 by set_solver. by rewrite <-app_assoc.
  - rewrite bool_decide_eq_true_2; [done|]. destruct (decide (c = "")), (decide (c = ".")); tauto.
Qed.

(** *** Names with backslashes *)

Lemma rev_app_eq s1 s2 : String.rev_app s1 s2 = String.rev_app s1 "" +:+ s2.
Proof.
  revert s2; induction s1 as [|c s1 IH]; intros s2; [done|]. cbn [String.rev_app].
  rewrite IH, (IH (String c "")). by rewrite app_assoc_str.
Qed.

Lemma rev_cons c cur s : String.rev (String c cur) +:+ s = String.rev cur +:+ String c s.
Proof. unfold String.rev. cbn [String.rev_app]. rewrite rev_app_eq. by rewrite app_assoc_str. Qed.

Lemma split_app cur a b : split_from cur (a +:+ String "/" b) = split_from cur a ++ components b.
Proof.
  revert cur; induction a as [|c a IH]; intros cur; [done|]. rewrite app_cons_str. cbn [split_from]. case_bool_decide; [by rewrite IH|apply IH].
Qed.

Lemma forward_slashes_app a b : forward_slashes (a +:+ b) = forward_slashes a +:+ forward_slashes b.
Proof. induction a as [|c a IH]; [done|]. rewrite !app_cons_str. cbn [forward_slashes]. by rewrite IH. Qed.

(** The parts of the normalised name are the parts of the stored components. *)
Lemma components_forward filename :
  components (forward_slashes filename) = components filename ≫= λ c, components (forward_slashes c).
Proof.
  enough (∀ s cur, split_from cur s ≫= (λ c, components (forward_slashes c)) = components (forward_slashes (String.rev cur +:+ s))) as H
    by (symmetry; exact (H filename "")).
  induction s as [|c s IH]; intros cur; cbn [split_from].
  - cbn. rewrite app_nil_r. by rewrite app_nil_str.
  - case_bool_decide as E.
    + subst c. rewrite forward_slashes_app. cbn [forward_slashes]. rewrite bool_decide_eq_false_2 by done.
      change (components (forward_slashes (String.rev cur) +:+ String "/" (forward_slashes s)))
        with (split_from "" (forward_slashes (String.rev cur) +:+ String "/" (forward_slashes s))).
      rewrite split_app. cbn [mbind list_bind]. f_equal. exact (IH "").
    + rewrite IH. by rewrite rev_cons.
Qed.

Lemma parts_of_arcname m :
  ".." ∉ parts (forward_slashes (zi_filename m)) →
  parts (forward_slashes (zi_filename m)) = arcname m ≫= λ c, parts (forward_slashes c).
Proof.
  unfold parts, arcname. rewrite components_forward. generalize (components (zi_filename m)) as l. intros l.
  induction l as [|c l IH]; intros Hno; [done|]. cbn [mbind list_bind]. cbn [mbind list_bind] in Hno.
  rewrite !filter_app in *. rewrite IH by set_solver. rewrite filter_cons.
  destruct (decide (c ∉ [""; "."; ".."])) as [Hc|Hc]; [done|].
  assert (c = "" ∨ c = "." ∨ c = "..") as [->|[->| ->]] by (apply dec_stable in Hc; set_solver).
  - done.
  - done.
  - exfalso. apply Hno, elem_of_app. left. apply list_elem_of_filter. split; [done|]. by apply (bool_decide_unpack _).
Qed.

(** What a member with an accepted name is written to, and that the name decides the place. *)
Lemma arcname_inside m : ∀ p, p ∈ arcname m → p ≠ "" ∧ p ≠ "." ∧ p ≠ "..".
Proof. intros p [Hp _]%list_elem_of_filter. set_solver. Qed.

Lemma member_stays_inside root filename path :
  _normalized_member_path filename = Ok path → walk root path = root ++ path.
Proof.
  intros [-> Hno]%normalized_member_spec. rewrite walk_down by done. f_equal. unfold parts.
  apply list_filter_all. intros p Hp. by apply list_elem_of_filter in Hp as [? _].
Qed.

Definition total_size (infos : list ZipInfo) : Z := foldr (λ m n, zi_file_size m + n) 0 infos.

Lemma total_size_snoc infos m : total_size (infos ++ [m]) = total_size infos + zi_file_size m.
Proof. unfold total_size. induction infos as [|x infos IH]; cbn; lia. Qed.

Definition total_compressed (infos : list ZipInfo) : Z := foldr (λ m n, zi_compress_size m + n) 0 infos.

Lemma total_compressed_snoc infos m : total_compressed (infos ++ [m]) = total_compressed infos + zi_compress_size m.
Proof. unfold total_compressed. induction infos as [|x infos IH]; cbn; lia. Qed.

(** The state of the loop after the members [checked]. *)
Record members_ok (limits : PackageLimits) (checked : list ZipInfo) (st : list (list string) * Z * Z) : Prop := {
  mo_paths : Forall2 (λ m path, _normalized_member_path (zi_filename m) = Ok path ∧ check_member m = Ok ()) checked st.1.1;
  mo_nodup : NoDup st.1.1;
  mo_total : st.1.2 = total_size checked;
  mo_bound : checked = [] ∨ st.1.2 ≤ max_uncompressed_size limits;
}.

Lemma validate_members limits infos st :
  foldM (validate_member limits) ([], 0, 0) infos = Ok st → members_ok limits infos st.
Proof.
  apply (foldM_ind _ (members_ok limits)); [|split; [constructor|constructor|done|by left]].
  intros pre m post [[seen total] compressed] st' _ [H1 H2 H3 H4] Hstep. unfold validate_member in Hstep. cbn [fst snd] in *.
  destruct (_normalized_member_path (zi_filename m)) as [path|] eqn:Hp; [|done]. cbn [mbind outcome_bind] in Hstep.
  case_bool_decide as Hs; [done|]. destruct (check_member m) as [[]|] eqn:Hc; [|done]. cbn [mbind outcome_bind] in Hstep.
  destruct (_ <? _) eqn:Hb; [done|]. injection Hstep as <-. apply Z.ltb_ge in Hb. split; cbn [fst snd].
  - apply Forall2_app; [done|]. by repeat constructor.
  - apply NoDup_app. split_and!; [done| |apply NoDup_singleton]. intros x Hx Hin. apply list_elem_of_singleton in Hin as ->. done.
  - by rewrite total_size_snoc, H3.
  - by right.
Qed.

Lemma validated_compressed limits infos st :
  foldM (validate_member limits) ([], 0, 0) infos = Ok st → st.2 = total_compressed infos.
Proof.
  apply (foldM_ind _ (λ pre st, st.2 = total_compressed pre)); [|done].
  intros pre m post [[seen total] compressed] st' _ IH Hstep. unfold validate_member in Hstep. cbn [snd] in IH. subst compressed.
  destruct (_normalized_member_path (zi_filename m)) as [path|]; [|done]. cbn [mbind outcome_bind] in Hstep.
  case_bool_decide; [done|]. destruct (check_member m); [|done]. cbn [mbind outcome_bind] in Hstep.
  destruct (_ <? _); [done|]. injection Hstep as <-. by rewrite total_compressed_snoc.
Qed.

(** No member is encrypted, a link or a special file. *)
Definition plain_member (m : ZipInfo) : Prop :=
  Z.odd (zi_flag_bits m) = false ∧
  Z.land (Z.shiftr (zi_external_attr m) 16) 61440 ∈ [0; 16384; 32768].    (* no type, a directory, a regular file *)

Lemma check_member_plain m : check_member m = Ok () → plain_member m.
Proof.
  unfold check_member, plain_member, file_type, S_IFLNK, S_IFREG, S_IFDIR. destruct (Z.eqb_spec (Z.land (zi_flag_bits m) 1) 0) as [Hf|]; [|done].
  cbn [negb]. set (mode := Z.shiftr _ _). intros H. split.
  - rewrite <-Z.bit0_odd. apply (f_equal (λ z, Z.testbit z 0)) in Hf. rewrite Z.land_spec, Z.bits_0 in Hf. by rewrite andb_true_r in Hf.
  - destruct (Z.eqb_spec mode 0) as [E|_]; [rewrite E; left|]. cbn [negb andb] in H.
    destruct (Z.eqb_spec (Z.land mode 61440) 40960); [done|]. destruct (Z.eqb_spec (Z.land mode 61440) 32768) as [->|]; [set_solver|].
    destruct (Z.eqb_spec (Z.land mode 61440) 16384) as [->|]; [set_solver|]. destruct (Z.eqb_spec (Z.land mode 61440) 0) as [->|]; [left|done].
Qed.

Lemma destinations_written root infos seen dests :
  Forall2 (λ m path, _normalized_member_path (zi_filename m) = Ok path ∧ check_member m = Ok ()) infos seen →
  destinations root infos = Ok dests → dests = (λ m, root ++ arcname m) <$> infos.
Proof.
  intros H. revert dests; induction H as [|m path infos seen [Hp _] _ IH]; intros dests; cbn [destinations]; [by intros [= <-]|].
  rewrite Hp. cbn [mbind outcome_bind]. rewrite (member_stays_inside root _ _ Hp), bool_decide_eq_true_2 by apply take_app_length.
  unfold extract. destruct (_ && _); [done|]. cbn [mbind outcome_bind]. destruct (destinations root infos) as [rest|]; [|done].
  intros [= <-]. by rewrite fmap_cons, (IH rest).
Qed.

(** Distinct normalised names are written to distinct places. *)
Lemma arcnames_distinct limits infos st : members_ok limits infos st → NoDup (arcname <$> infos).
Proof.
  intros [H1 H2 _ _]. cut (st.1.1 = (λ a, a ≫= λ c, parts (forward_slashes c)) <$> (arcname <$> infos)).
  { intros E. rewrite E in H2. by apply NoDup_fmap_1 in H2. }
  clear H2. induction H1 as [|m path infos seen [Hp _] _ IH]; [done|]. rewrite !fmap_cons. f_equal; [|done].
  apply normalized_member_spec in Hp as [-> Hno]. by apply parts_of_arcname.
Qed.

(** C36. Unpacking an archive that is accepted, on a system without other separators than the slash. The
    standard library writes every member below the target directory, at a path without [".."], and no two
    members at the same path; the root of the package is the target directory or a directory in it; no
    member is encrypted, a link or a special file; and the number of members, their total size and the
    ratio of compression are within the limits. *)
Theorem accepted_archives_stay_inside limits root infos written package :
  _extract_package limits root infos = Ok (written, package) →
  Forall2 (λ m place, (∃ path, place = root ++ path ∧ ∀ p, p ∈ path → p ≠ "" ∧ p ≠ "." ∧ p ≠ "..") ∧ plain_member m) infos written ∧
  NoDup written ∧ (package = root ∨ ∃ name, package = root ++ [name]) ∧
  Z.of_nat (length infos) ≤ max_files limits ∧ (infos = [] ∨ total_size infos ≤ max_uncompressed_size limits) ∧
  (0 < total_compressed infos → total_size infos ≠ 0 → total_size infos ≤ max_compression_ratio limits * total_compressed infos).
Proof.
  unfold _extract_package, _validate_archive_members. destruct (_ <? _) eqn:Hn; [done|]. apply Z.ltb_ge in Hn.
  destruct (foldM _ _ _) as [[[seen total] compressed]|] eqn:Hf; [|done]. cbn [mbind outcome_bind].
  destruct (_ && _ && _) eqn:Hratio; [done|]. cbn [mbind outcome_bind]. destruct (destinations root infos) as [dests|] eqn:Hd; [|done].
  intros [= <- <-]. pose proof (validate_members _ _ _ Hf) as Hok. pose proof (arcnames_distinct _ _ _ Hok) as Hdistinct.
  destruct Hok as [H1 H2 H3 H4]. cbn [fst snd] in *. apply (destinations_written _ _ _ _ H1) in Hd as ->. split_and!.
  - clear Hn Hf H2 H3 H4 Hratio Hdistinct. induction H1 as [|m path infos seen [_ Hc] _ IH]; [constructor|]. rewrite fmap_cons. constructor; [|done].
    split; [|by apply check_member_plain]. exists (arcname m). split; [done|apply arcname_inside].
  - change ((λ m, root ++ arcname m) <$> infos) with (app root ∘ arcname <$> infos). rewrite list_fmap_compose. apply NoDup_fmap; [intros a b; apply app_inv_head|done].
  - unfold package_root. destruct (top_level infos) as [|name [|? ?]]; auto. destruct (top_is_dir _ _); eauto.
  - done.
  - rewrite <-H3. tauto.
  - intros Hc Ht. pose proof (validated_compressed _ _ _ Hf) as Hcomp. cbn [snd] in Hcomp. subst compressed.
    rewrite H3, (proj2 (Z.eqb_neq _ _) Ht), (proj2 (Z.eqb_neq (total_compressed infos) 0)) in Hratio by lia.
    cbn [negb andb] in Hratio. apply Z.ltb_ge in Hratio. by rewrite Z.max_l in Hratio by lia.
Qed.

(** ** Examples *)

Module ArchiveRuns.

Definition limits : PackageLimits := mkLimits 100 1000 200.
Definition file (name : string) : ZipInfo := mkZipInfo name 0 0 10 5.

Definition archive : list ZipInfo := [file "pkg/a.py"; file "pkg/./sub/b.py"; file "pkg/c\d"].

(** The last name is one component for the system that unpacks it. *)
Definition unpacked : list (list string) :=
  [["ext"; "stage"; "pkg"; "a.py"]; ["ext"; "stage"; "pkg"; "sub"; "b.py"]; ["ext"; "stage"; "pkg"; "c\d"]].

Example archive_examples :
  _extract_package limits ["ext"; "stage"] archive = Ok (unpacked, ["ext"; "stage"; "pkg"]) ∧
  _extract_package limits ["ext"] [file "a/../../etc"] = Raise (ExtValueError "Unsafe archive path") ∧
  _extract_package limits ["ext"] [file "a/b"; file "a//b"] = Raise (ExtValueError "Duplicate archive entry") ∧
  _extract_package limits ["ext"] [mkZipInfo "l" 0 (Z.shiftl 41471 16) 1 1] = Raise (ExtValueError "Symlinks are not allowed").
Proof. vm_compute. done. Qed.

Lemma accepted_archives_stay_inside_witness :
  Forall2 (λ m place, (∃ path, place = ["ext"; "stage"] ++ path ∧ ∀ p, p ∈ path → p ≠ "" ∧ p ≠ "." ∧ p ≠ "..") ∧ plain_member m) archive unpacked ∧
  NoDup unpacked.
Proof.
  destruct (accepted_archives_stay_inside limits ["ext"; "stage"] archive unpacked ["ext"; "stage"; "pkg"]) as (H1 & H2 & _).
  - vm_compute. reflexivity.
  - exact (conj H1 H2).
Defined.

End ArchiveRuns.
